(* ===== verification/_CoqProject ===== *)
-Q . S2P
Prelude.v
Rmap.v
Bitmap.v
Xdr.v
XdrCodec.v
XdrMem.v
XdrProps.v
RpcMsg.v
RpcProps.v
RpcCall.v
Strm.v
StrmProps.v
StrmMsg.v
StrmRefs.v
XdrMblk.v
XdrMblkProps.v
XdrMblkThms.v
Callout.v
CalloutProps.v
CalloutSys.v
CalloutThms.v
Strq.v
StrqProps.v
StrqPut.v
StrqGet.v
StrqFlush.v
StrqThms.v
StrSched.v
StrSchedProps.v
StrSchedThms.v
Share.v
Dsort.v
Pid.v
PidProps.v
Pgrp.v
PgrpProps.v
PgrpInv.v
PgrpOps.v
PgrpThms.v
PgrpSession.v
Upcount.v
Cred.v
CredProps.v
CredInv.v
CredOps.v
CredSys.v
CredThms.v
CredEdge.v
Dnlc.v
DnlcInv.v
DnlcOps.v
DnlcPurge.v
DnlcThms.v
As.v
AsInv.v
AsSegs.v
AsOps.v
AsList.v
AsSys.v
AsHole.v
AsProps.v
Vj.v
VjRing.v
VjHead.v
VjSync.v
VjProps.v
Disp.v
DispSys.v
DispOps.v
DispBest.v
DispPlace.v
DispRun.v
DispThms.v
DispProps.v
Sem.v
SemList.v
SemOps.v
SemSets.v
SemRun.v
SemProps.v
