(* ===== verification/Prelude.v ===== *)
(** * Verified models of the machine-independent kernel core (uts/common)

    Models of components of the kernel under src/usr/src/uts/common, translated from the C
    routine by routine, with the theorems that make them correct.  File names below are
    relative to that directory.

    ** How to read a model

    - Memory.  A structure is a record; a heap of them is a finite map from addresses (or
      table indices) to records, and freeing removes the key.  A null pointer is [None].  A
      routine returns [res]: [Ok], [Panic] where the code panics, and [Fault] where it would
      touch what does not exist, so a theorem that a routine returns [Ok] is also a theorem of
      memory safety.
    - Numbers.  C integers are [Z] with the width of the type where it matters: [u32], [s32],
      [add32] and their kin wrap as the code does.
    - Concurrency.  What happens while a lock is held is one step.  Where a routine drops its
      lock, or several threads work on one structure, the threads are a step relation
      ([rm_step], [cy_step], [sched_step], [reach], the systems of Pgrp, Cred and Dnlc) and the
      theorems are about every state that steps reach.
    - What is not in the models is an argument: addresses from an allocator, users' memory,
      other threads' work during a sleep, callbacks.  The theorems about them state what is
      relied on (an address is not in use), and the witnesses instantiate it.
    - Loops that are not structural have fuel, and run out of it as [Fault] (or [None]); the
      theorems say that the routines return, so the fuel is enough.  It is the number of
      slots, entries, blocks or segments that the loop can visit, plus one.

    ** The parts

    Prelude.v: outcomes and words, error numbers, sums over tables for reference counts, byte
    memory.

    - Resource maps (os/rmap.c): Rmap.v.  The array of free segments slot by slot.
      [rmalloc_refines] and [rmfree_refines]: the operations are union and difference on the set
      of free units, first fit, with coalescing; [rmap_exclusive]: no unit is given twice;
      [rmap_no_lost_wakeup]: a sleeper in [rmalloc_wait] has its flag.
    - Bitmaps (os/bitmap.c, sys/bitmap.h): Bitmap.v.  [bt_availbit_first] and the range
      tests; indices are of type [index_t] (16 bits).
    - XDR (rpc/xdr.c, xdr_array.c, xdr_refer.c, xdr_mem.c, xdr_mblk.c): Xdr.v has the filters
      over the operations vector, the class [XdrOps]; XdrCodec.v the interface [XdrStream] that
      an implementation of the vector promises, and the filters proved against it; XdrMem.v
      and XdrMblk.v, XdrMblkProps.v the two implementations with their instances; XdrProps.v
      and XdrMblkThms.v the theorems: round trips on any stream, sizes, refusals.
    - RPC messages (rpc/rpc_prot.c, rpc_calmsg.c): RpcMsg.v, against the same interface, so that
      RpcProps.v and RpcCall.v hold for buffers and for message chains: replies round-trip,
      calls are read back by a reference parser and decoding accepts what it accepts.
    - STREAMS messages (io/stream.c, os/strsubr.c): Strm.v, StrmProps.v, StrmRefs.v, StrmMsg.v;
      [Kmem] is the allocator, with an instance in StrmProps.v: its caches hand out objects in
      their constructed state and are to get them back in it, with the attached message block.
      [strm_refcounts]: a data block counts its message blocks and goes with the last, which is
      attached to it by then; [pullupmsg_spec]: the bytes are kept.
    - STREAMS queues (the same files): Strq.v; StrqProps.v is the invariant, StrqPut.v,
      StrqGet.v, StrqFlush.v the operations as those of an abstract priority queue, StrqThms.v
      the sequences of operations and the flow control.
    - The queue scheduler (the same files): StrSched.v, StrSchedProps.v, StrSchedThms.v.  No
      enable is lost, a service procedure does not run twice at once on a queue, a closed queue
      is not used.
    - Callout tables (os/callout.c): Callout.v, CalloutProps.v, CalloutSys.v, CalloutThms.v,
      with the clock and the threads that execute callouts.
    - Share reservations (os/share.c, fs/fs_subr.c): Share.v.
    - Disk request sorting (os/bdev_dsort.c): Dsort.v; [disksort_refines] is against insertion in
      the order of the scan.
    - Process ids, groups and sessions (os/pid.c, os/pgrp.c, os/session.c, syscall/pgrpsys.c, and
      parts of os/fork.c and os/exit.c): Pid.v and Pgrp.v; PidProps.v and PgrpProps.v the tables
      and groups, PgrpInv.v the invariant, PgrpOps.v that every operation keeps it,
      PgrpThms.v and PgrpSession.v the theorems and the edges.
    - Per-user counts (os/pid.c): Upcount.v.  Credentials (os/cred.c, syscall/uid.c, gid.c,
      groups.c, parts of exec, fork and thread creation): Cred.v; CredProps.v, CredInv.v,
      CredOps.v, CredSys.v, CredThms.v: the counts are exact, the sharing cannot be
      seen ([creds_refine]), and no call raises privilege ([no_escalation]); CredEdge.v.
    - The name cache (fs/dnlc.c): Dnlc.v on top of Cred.v; DnlcInv.v, DnlcOps.v, DnlcPurge.v,
      DnlcThms.v: holds are exact, and the chains are a finite map from directory,
      name and credentials to vnodes.  In the runs a purge takes one chain at a time, a removal one
      entry, and [dnlc_fs_purge1] looks at an entry without the lock of its chain.
    - Segments of an address space (vm/vm_as.c, vm/vm_seg.c): As.v.  AsInv.v says how
      the linked list and the skip list represent a sorted list; AsOps.v the skip list,
      AsList.v the linked list, AsSegs.v what they share; AsSys.v and AsHole.v the operations
      on either; AsProps.v the theorems: [segments_refine], [gap_best],
      [mutation_equivalent], [seg_alloc_pages].
    - Header compression (io/vjcomp.c): Vj.v, VjRing.v, VjHead.v, VjSync.v, VjProps.v: both
      ends of a serial line with their slots, on the bytes of the packets.  The ring of the
      sender gives the slot of the conversation or the one used least recently; the numbers,
      the special cases and the mask that the sender writes are read back by the receiver; and
      over a line that loses nothing every packet comes out as it went in.  The loop over the
      ring has as fuel one more than the slots, and [conn_search_ok] shows that it is enough.
    - The dispatcher (disp/disp.c, sys/disp.h, and cpu_bind_thread of os/cpu.c): Disp.v.  A
      queue represents a list of threads for each priority (DispSys.v, [dq_ok], [disp_inv]);
      DispOps.v, DispBest.v and DispPlace.v say what each section under the lock of a queue,
      and [setbackdq], [setfrontdq] and [setkpdq] whole, do to the lists; DispRun.v is [disp]
      on a CPU that is not disturbed, DispThms.v the emptying of a queue and the sections as
      steps of any CPU; DispProps.v has the properties and the runs of [cpu_bind_thread] that
      leave the queues wrong.  A walk of a queue has as fuel one more than the threads that
      exist; [disp] needs one turn on a CPU that is on line ([disp_best]), [disp_cpu_inactive] as many as the queue has
      threads and priorities.
    - System V semaphores (syscall/sem.c, sys/sem.h, os/ipc.c): Sem.v, every call with its tables
      and undo structures.  SemList.v: the sorted entries of a process are a finite map of
      adjustments, and [semaoe] changes it as [aoe_spec] says.  SemOps.v: a turn of [semop]
      is the transaction [ops_spec], and the sleepers that it has to wake are woken.
      SemSets.v and SemRun.v: the invariant [sem_wf], and that each call returns and keeps it.
      SemProps.v: interleaved calls with threads that sleep, the properties, and the runs in
      which a wakeup is lost or an adjustment is given back twice.  A call is a step: two
      turns on different sets touch different semaphores and, for different processes,
      different structures, but share the list of free ones.  The loops over the lists have as
      fuel the number of structures plus one, [squeeze] that of the entries plus one.

    ** How the parts interact

    The XDR filters are clients of a stream through [XdrStream]; the RPC messages are clients of
    the filters; [XDRmblk] is a client of the STREAMS messages.  Queues hold messages, and what
    they do to the rest of the kernel is events; the scheduler runs the service procedures of
    the queues they enable.  The name cache holds credentials through [crhold] and [crfree];
    the credentials count processes through [upcount_inc] and [upcount_dec].  The semaphores of
    a set are a run of units of a resource map, and [rmalloc] and [rmfree] of Rmap.v are
    called as they are, with their theorems; permissions are checked with [suser] and
    [groupmember] of the credentials.  The bitmap macros,
    which the dispatcher's queues are found with too, and the signed bytes of the hash functions
    are shared.

    ** Bounds

    Reference counts are integers where memory cannot hold as many holders as would wrap them;
    sizes, offsets, addresses, times and indices have their width.  The tables have the sizes
    of the code (256 callout buckets, four levels of the skip list) or are parameters where the kernel
    computes them at boot ([v_proc], [ncsize], [ngroups_max], the [seminfo] tunables).  The
    theorems on semaphores are for [semaem] up to 21845 and [semvmx] up to 65535, where the
    16-bit fields do not wrap, for identifiers without the sign bit, for counts of sleepers
    that have not wrapped, and for a sleeper that is back before its identifier has come round
    to a smaller set; SemProps.v shows what happens past the first bound and with the sign bit.  The witnesses run on concrete
    states by computation.

    ** Not modelled

    Inside the parts above: locks as such, statistics, traces, debugging code, and what each
    file's head lists as left out.  Outside: the manifest lists every other part of the
    system with the reason.  Mostly it is code whose state is that of hardware (platforms,
    drivers, page tables, suspend and resume), code around user copies and terminals, or
    the protocols, file systems, drivers and commands that make up the rest of a system of
    three million lines, each a development of its own. *)

From Stdlib Require Export ZArith Lia.
From stdpp Require Export base numbers list list_numbers gmap strings option.

#[global] Open Scope Z_scope.

(** ** Outcomes of kernel code

    A C function either returns ([Ok]), calls [panic()] ([Panic], with the
    message), or performs an access outside the objects it owns ([Fault]):
    the theorems that say a routine returns [Ok] are therefore also memory
    safety statements. *)
Inductive res (A : Type) : Type :=
  | Ok (a : A)
  | Panic (msg : string)
  | Fault.
Arguments Ok {_} _.
Arguments Panic {_} _.
Arguments Fault {_}.

#[global] Instance res_ret : MRet res := @Ok.
#[global] Instance res_bind : MBind res := λ A B f m,
  match m with
  | Ok a => f a
  | Panic msg => Panic msg
  | Fault => Fault
  end.

(** A pointer dereference: [None] is an address the object does not have. *)
Definition deref {A} (o : option A) : res A :=
  match o with
  | Some a => Ok a
  | None => Fault
  end.

Lemma bind_ok {A B} (m : res A) (f : A → res B) b :
  (m ≫= f) = Ok b → ∃ a, m = Ok a ∧ f a = Ok b.
Proof. destruct m; simpl; intros H; [eauto | discriminate | discriminate]. Qed.

Lemma deref_ok {A} (o : option A) a : deref o = Ok a ↔ o = Some a.
Proof. destruct o; simpl; naive_solver. Qed.

(** ** Machine integers

    The kernel is ILP32: [int], [long], [size_t] and pointers are 32 bits wide.
    An unsigned value is a [Z] in [0, 2^32), a signed one a [Z] in
    [-2^31, 2^31); arithmetic is done in [Z] and wrapped where C wraps it. *)
Definition W32 : Z := 4294967296.
Definition W31 : Z := 2147483648.

Definition u32 (z : Z) : Z := z mod W32.
Definition s32 (z : Z) : Z := (z + W31) mod W32 - W31.
Definition add32 (a b : Z) : Z := u32 (a + b).
Definition sub32 (a b : Z) : Z := u32 (a - b).
Definition mul32 (a b : Z) : Z := u32 (a * b).

Definition is_u32 (z : Z) : Prop := 0 ≤ z < W32.
Definition is_s32 (z : Z) : Prop := - W31 ≤ z < W31.

Ltac unfold_words :=
  unfold is_u32, is_s32, add32, sub32, mul32, u32, s32, W32, W31 in *.

Lemma u32_small z : is_u32 z → u32 z = z.
Proof. unfold_words. apply Z.mod_small. Qed.

Lemma u32_range z : is_u32 (u32 z).
Proof. unfold_words. apply Z.mod_pos_bound. lia. Qed.

Lemma s32_small z : is_s32 z → s32 z = z.
Proof. unfold_words. intros H. rewrite Z.mod_small; lia. Qed.

Lemma s32_range z : is_s32 (s32 z).
Proof. unfold_words. pose proof (Z.mod_pos_bound (z + 2147483648) 4294967296). lia. Qed.

Lemma u32_u32 z : u32 (u32 z) = u32 z.
Proof. apply u32_small, u32_range. Qed.

Lemma s32_u32 z : s32 (u32 z) = s32 z.
Proof. unfold_words. by rewrite Zplus_mod_idemp_l. Qed.

Lemma u32_s32 z : u32 (s32 z) = u32 z.
Proof.
  unfold_words. rewrite Zminus_mod, Z.mod_mod by lia. rewrite <- Zminus_mod.
  f_equal. lia.
Qed.

Lemma add32_small a b : 0 ≤ a → 0 ≤ b → a + b < W32 → add32 a b = a + b.
Proof. intros. unfold add32. apply u32_small. unfold_words. lia. Qed.

(** A [size_t] whose value as [ssize_t] is positive. *)
Lemma s32_pos_iff z : is_u32 z → (s32 z ≤ 0 ↔ z = 0 ∨ W31 ≤ z).
Proof.
  unfold_words. intros H. destruct (decide (z < 2147483648)).
  - rewrite Z.mod_small; lia.
  - rewrite (Z.mod_eq (z + 2147483648)) by lia.
    replace ((z + 2147483648) / 4294967296) with 1; [lia|].
    apply Z.div_unique_pos with (r := z - 2147483648); lia.
Qed.

(** ** Flag words *)

(** The tests and updates [f & b], [f |= b] and [f &= ~b]. *)
Definition has_bit (f b : Z) : bool := negb (Z.land f b =? 0).
Definition set_bit (f b : Z) : Z := Z.lor f b.
Definition clr_bit (f b : Z) : Z := Z.land f (Z.lnot b).

Lemma has_set_other f b c : Z.land b c = 0 → has_bit (set_bit f b) c = has_bit f c.
Proof. intros H. unfold has_bit, set_bit. by rewrite Z.land_lor_distr_l, H, Z.lor_0_r. Qed.

Lemma has_clr_other f b c : Z.land b c = 0 → has_bit (clr_bit f b) c = has_bit f c.
Proof.
  intros H. unfold has_bit, clr_bit. f_equal. f_equal. apply Z.bits_inj'. intros n Hn.
  apply (f_equal (λ z, Z.testbit z n)) in H.
  rewrite !Z.land_spec, Z.bits_0 in *. rewrite Z.lnot_spec by done.
  destruct (Z.testbit f n), (Z.testbit b n), (Z.testbit c n); simpl in *; done.
Qed.

Lemma has_set_same f b : b ≠ 0 → has_bit (set_bit f b) b = true.
Proof.
  intros H. unfold has_bit, set_bit. replace (Z.land (Z.lor f b) b) with b.
  - apply negb_true_iff, Z.eqb_neq, H.
  - apply Z.bits_inj'. intros n _. rewrite Z.land_spec, Z.lor_spec.
    by destruct (Z.testbit f n), (Z.testbit b n).
Qed.

Lemma has_clr_same f b : has_bit (clr_bit f b) b = false.
Proof.
  unfold has_bit, clr_bit. rewrite <- Z.land_assoc, (Z.land_comm (Z.lnot b)), Z.land_lnot_diag.
  by rewrite Z.land_0_r.
Qed.

Lemma has_or f b c : has_bit f (Z.lor b c) = has_bit f b || has_bit f c.
Proof.
  unfold has_bit. rewrite Z.land_lor_distr_r.
  destruct (Z.eqb_spec (Z.land f b) 0) as [->|H1]; simpl; [by rewrite Z.lor_0_l|].
  apply negb_true_iff, Z.eqb_neq. rewrite Z.lor_eq_0_iff. tauto.
Qed.

(** Evaluates tests of updated flag words whose bits are constants. *)
Ltac flags :=
  repeat first
    [ rewrite has_set_same by done
    | rewrite has_clr_same
    | rewrite has_set_other by reflexivity
    | rewrite has_clr_other by reflexivity ].

(** ** Automation *)

(** Turns boolean comparisons of hypotheses and goal into propositions. *)
Ltac prop_bool :=
  repeat match goal with
  | H : _ && _ = true |- _ => apply andb_true_iff in H as [??]
  | H : _ || _ = false |- _ => apply orb_false_iff in H as [??]
  | H : negb _ = true |- _ => apply negb_true_iff in H
  | H : negb _ = false |- _ => apply negb_false_iff in H
  | H : (_ <=? _) = true |- _ => apply Z.leb_le in H
  | H : (_ <=? _) = false |- _ => apply Z.leb_gt in H
  | H : (_ <? _) = true |- _ => apply Z.ltb_lt in H
  | H : (_ <? _) = false |- _ => apply Z.ltb_ge in H
  | H : (_ =? _) = true |- _ => apply Z.eqb_eq in H
  | H : (_ =? _) = false |- _ => apply Z.eqb_neq in H
  end.

(** Case split on the test of the first [if] of the goal. *)
Ltac case_if :=
  match goal with
  | |- context [if ?b then _ else _] => destruct b eqn:?; prop_bool
  end.

(** Case split on the test of the first [if] of hypothesis [H]. *)
Ltac case_if_in H :=
  match type of H with
  | context [if ?b then _ else _] => destruct b eqn:?; prop_bool
  end.

(** Two evaluations of the same call have the same result. *)
Ltac simpl_ok :=
  repeat match goal with
  | H1 : ?x = Ok _, H2 : ?x = Ok _ |- _ => rewrite H1 in H2
  end; simplify_eq.

(** Decides the integer comparisons of the goal that the context settles. *)
Ltac eval_cmp :=
  repeat (match goal with
  | |- context [?a <=? ?b] =>
    first [rewrite (proj2 (Z.leb_le a b)) by lia | rewrite (proj2 (Z.leb_gt a b)) by lia]
  | |- context [?a <? ?b] =>
    first [rewrite (proj2 (Z.ltb_lt a b)) by lia | rewrite (proj2 (Z.ltb_ge a b)) by lia]
  | |- context [?a =? ?b] =>
    first [rewrite (proj2 (Z.eqb_eq a b)) by lia | rewrite (proj2 (Z.eqb_neq a b)) by lia]
  end; simpl).

Create HintDb kern discriminated.
#[export] Hint Resolve u32_range s32_range : kern.

(** ** Lists *)

(** The list a [snoc] view of which exposes its last element. *)
Fixpoint unsnoc {A} (l : list A) : option (list A * A) :=
  match l with
  | [] => None
  | x :: l' =>
    match unsnoc l' with
    | None => Some ([], x)
    | Some (i, y) => Some (x :: i, y)
    end
  end.

Lemma unsnoc_snoc {A} (l : list A) x : unsnoc (l ++ [x]) = Some (l, x).
Proof. induction l as [|y l IH]; simpl; [done|]. by rewrite IH. Qed.

Lemma unsnoc_Some {A} (l i : list A) x : unsnoc l = Some (i, x) ↔ l = i ++ [x].
Proof.
  split; [|intros ->; apply unsnoc_snoc].
  revert i. induction l as [|y l IH]; simpl; intros i H; [done|].
  destruct (unsnoc l) as [[i' z]|] eqn:E; simplify_eq.
  - by rewrite (IH i').
  - destruct l; [done|]. simpl in E. by destruct (unsnoc l) as [[]|].
Qed.

Lemma unsnoc_None {A} (l : list A) : unsnoc l = None ↔ l = [].
Proof.
  split; [|by intros ->]. destruct l; [done|]. simpl.
  by destruct (unsnoc l) as [[]|].
Qed.

Lemma filter_all {A} (P : A → Prop) `{∀ x, Decision (P x)} (l : list A) :
  (∀ x, x ∈ l → P x) → filter P l = l.
Proof.
  induction l as [|x l IH]; intros Hl; [done|]. rewrite filter_cons_True by (apply Hl; left).
  f_equal. apply IH. intros y Hy. apply Hl. by right.
Qed.

Lemma filter_none {A} (P : A → Prop) `{∀ x, Decision (P x)} (l : list A) :
  (∀ x, x ∈ l → ¬ P x) → filter P l = [].
Proof.
  induction l as [|x l IH]; intros Hl; [done|]. rewrite filter_cons_False by (apply Hl; left).
  apply IH. intros y Hy. apply Hl. by right.
Qed.

Lemma filter_ext_in {A} (P Q : A → Prop) `{∀ x, Decision (P x), ∀ x, Decision (Q x)} (l : list A) :
  (∀ x, x ∈ l → P x ↔ Q x) → filter P l = filter Q l.
Proof.
  induction l as [|x l IH]; intros Hl; [done|]. specialize (Hl x ltac:(left)) as Hx.
  rewrite !filter_cons. rewrite IH by (intros y Hy; apply Hl; by right).
  destruct (decide (P x)), (decide (Q x)); tauto.
Qed.

Lemma last_app_cons {A} (l1 l2 : list A) x : list.last (l1 ++ x :: l2) = list.last (x :: l2).
Proof. rewrite last_app. destruct (list.last (x :: l2)) eqn:E; [done|]. by apply last_None in E. Qed.

Lemma head_Some_cons {A} (l : list A) x : head l = Some x → ∃ l', l = x :: l'.
Proof. destruct l; simpl; intros; simplify_eq. eauto. Qed.

(** ** Bytes *)

Definition is_byte (b : Z) : Prop := 0 ≤ b < 256.

(** The four bytes of a word in network order. *)
Definition be32 (z : Z) : list Z :=
  let w := u32 z in
  [w / 16777216; w / 65536 mod 256; w / 256 mod 256; w mod 256].

(** [ntohl] of four bytes, as a [long]. *)
Definition of_be32 (bs : list Z) : option Z :=
  match bs with
  | [a; b; c; d] => Some (s32 (a * 16777216 + b * 65536 + c * 256 + d))
  | _ => None
  end.

Lemma of_be32_be32 z : of_be32 (be32 z) = Some (s32 z).
Proof.
  unfold of_be32, be32. f_equal. rewrite <- (s32_u32 z). f_equal.
  pose proof (u32_range z) as Hr. set (w := u32 z) in *. unfold is_u32, W32 in Hr.
  pose proof (Z.div_mod w 256 ltac:(lia)). pose proof (Z.div_mod (w / 256) 256 ltac:(lia)).
  pose proof (Z.div_mod (w / 65536) 256 ltac:(lia)).
  rewrite !Z.div_div in * by lia. change (256 * 256) with 65536 in *.
  change (65536 * 256) with 16777216 in *. lia.
Qed.

Lemma length_be32 z : length (be32 z) = 4%nat.
Proof. done. Qed.

Lemma be32_bytes z : Forall is_byte (be32 z).
Proof.
  pose proof (u32_range z) as Hr. unfold be32, is_byte, is_u32, W32 in *.
  repeat constructor; try (apply Z.mod_pos_bound; lia).
  - apply Z.div_pos; lia.
  - apply Z.div_lt_upper_bound; lia.
Qed.

Lemma be32_of_bytes a b c d :
  is_byte a → is_byte b → is_byte c → is_byte d →
  be32 (a * 16777216 + b * 65536 + c * 256 + d) = [a; b; c; d].
Proof.
  unfold is_byte. intros Ha Hb Hc Hd. unfold be32.
  rewrite u32_small by (unfold is_u32, W32; lia).
  assert (E1 : (a * 16777216 + b * 65536 + c * 256 + d) / 256 = a * 65536 + b * 256 + c)
    by (symmetry; apply Z.div_unique_pos with (r := d); lia).
  assert (E2 : (a * 16777216 + b * 65536 + c * 256 + d) / 65536 = a * 256 + b)
    by (symmetry; apply Z.div_unique_pos with (r := c * 256 + d); lia).
  assert (E3 : (a * 16777216 + b * 65536 + c * 256 + d) / 16777216 = a)
    by (symmetry; apply Z.div_unique_pos with (r := b * 65536 + c * 256 + d); lia).
  rewrite E1, E2, E3. repeat f_equal; symmetry.
  - apply Z.mod_unique_pos with (q := a); lia.
  - apply Z.mod_unique_pos with (q := a * 256 + b); lia.
  - apply Z.mod_unique_pos with (q := a * 65536 + b * 256 + c); lia.
Qed.

Lemma be32_u32 z : be32 (u32 z) = be32 z.
Proof. unfold be32. by rewrite u32_u32. Qed.

Lemma be32_s32 z : be32 (s32 z) = be32 z.
Proof. unfold be32. by rewrite u32_s32. Qed.

(** Byte strings made of whole XDR units. *)
Definition units (l : list Z) : Prop := (4 | Z.of_nat (length l)).

Lemma units_app l1 l2 : units l1 → units l2 → units (l1 ++ l2).
Proof. unfold units. rewrite length_app, Nat2Z.inj_add. apply Z.divide_add_r. Qed.

Lemma units_be32 z : units (be32 z).
Proof. exists 1. done. Qed.

Lemma units_nil : units [].
Proof. exists 0. done. Qed.

#[global] Opaque be32.

(** Lengths of byte strings built from words and concatenation. *)
Ltac lens :=
  repeat (rewrite length_app in * || rewrite length_be32 in * || rewrite length_replicate in *);
  simpl in *; lia.

#[export] Hint Resolve units_app units_be32 units_nil be32_bytes : kern.

Definition EPERM : Z := 1.
Definition ESRCH : Z := 3.
Definition EBADF : Z := 9.
Definition EAGAIN : Z := 11.
Definition EACCES : Z := 13.
Definition EFAULT : Z := 14.
Definition EEXIST : Z := 17.
Definition EINVAL : Z := 22.

Definition msum {K} `{Countable K} {A} (f : A → Z) (m : gmap K A) : Z := map_fold (λ _ a s, f a + s) 0 m.

(** The truth of a test as a number. *)
Definition b2z (b : bool) : Z := if b then 1 else 0.

Lemma b2z_nonneg b : 0 ≤ b2z b.
Proof. by destruct b. Qed.

Lemma b2z_decide_eq {A} `{EqDecision A} (x : A) : b2z (bool_decide (x = x)) = 1.
Proof. by rewrite bool_decide_true. Qed.

Section sums.
Context {K} `{Countable K} {A : Type}.
Implicit Types (f g : A → Z) (m : gmap K A).

Lemma msum_empty f : msum f (∅ : gmap K A) = 0.
Proof. apply map_fold_empty. Qed.

Lemma msum_insert_new f m k a : m !! k = None → msum f (<[k:=a]> m) = f a + msum f m.
Proof. intros E. unfold msum. rewrite map_fold_insert_L; [done| |done]. intros. lia. Qed.

Lemma msum_singleton f k a : msum f ({[k := a]} : gmap K A) = f a.
Proof. rewrite <- insert_empty, msum_insert_new, msum_empty by apply lookup_empty. lia. Qed.

Lemma msum_delete f m k a : m !! k = Some a → msum f (delete k m) = msum f m - f a.
Proof.
  intros E. assert (msum f m = f a + msum f (delete k m)) as ->; [|lia].
  rewrite <- (insert_delete_id m k a E) at 1. apply msum_insert_new, lookup_delete_eq.
Qed.

Lemma msum_update f m k a b : m !! k = Some a → msum f (<[k:=b]> m) = msum f m - f a + f b.
Proof.
  intros E. rewrite <- (insert_delete_eq m k b), msum_insert_new by apply lookup_delete_eq.
  rewrite (msum_delete f m k a E). lia.
Qed.

Lemma msum_nonneg f m : (∀ k a, m !! k = Some a → 0 ≤ f a) → 0 ≤ msum f m.
Proof.
  induction m as [|k a m E IH] using map_ind; intros Hf; [by rewrite msum_empty|].
  rewrite msum_insert_new by done. pose proof (Hf k a (lookup_insert_eq m k a)).
  assert (0 ≤ msum f m); [|lia]. apply IH. intros k' a' E'. apply (Hf k').
  rewrite lookup_insert_ne; [done|]. congruence.
Qed.

Lemma msum_ext f g m : (∀ k a, m !! k = Some a → f a = g a) → msum f m = msum g m.
Proof.
  induction m as [|k a m E IH] using map_ind; intros Hf; [by rewrite !msum_empty|].
  rewrite !msum_insert_new by done. rewrite (Hf k a (lookup_insert_eq m k a)). f_equal.
  apply IH. intros k' a' E'. apply (Hf k'). rewrite lookup_insert_ne; [done|]. congruence.
Qed.

Lemma msum_zero f m : (∀ k a, m !! k = Some a → f a = 0) → msum f m = 0.
Proof.
  intros Hf. rewrite (msum_ext f (λ _, 0)) by done. clear. 
  induction m as [|k a m E IH] using map_ind; [apply msum_empty|]. by rewrite msum_insert_new, IH.
Qed.

(** Each entry contributes at most the sum. *)
Lemma msum_member f m k a : (∀ k a, m !! k = Some a → 0 ≤ f a) → m !! k = Some a → f a ≤ msum f m.
Proof.
  intros Hf E. assert (0 ≤ msum f (delete k m)) as Hd.
  { apply msum_nonneg. intros k' a' E'. apply lookup_delete_Some in E' as [_ E']. by eapply Hf. }
  rewrite (msum_delete f m k a E) in Hd. lia.
Qed.

Lemma msum_positive f m : 0 < msum f m → ∃ k a, m !! k = Some a ∧ f a ≠ 0.
Proof.
  induction m as [|k a m E IH] using map_ind; [by rewrite msum_empty|].
  rewrite msum_insert_new by done. intros Hp. destruct (decide (f a = 0)) as [E0|].
  - destruct IH as (k' & a' & E' & ?); [lia|]. exists k', a'. split; [|done].
    rewrite lookup_insert_ne; [done|]. congruence.
  - exists k, a. by rewrite lookup_insert_eq.
Qed.

Lemma msum_zero_iff f m k a : (∀ k a, m !! k = Some a → 0 ≤ f a) → msum f m = 0 → m !! k = Some a → f a = 0.
Proof. intros Hf E0 E. pose proof (msum_member f m k a Hf E). pose proof (Hf k a E). lia. Qed.
End sums.

(** A map whose entries keep what they contribute. *)
Lemma msum_imap {A B} (f : A → Z) (g : B → Z) (h : Z → A → B) (m : gmap Z A) :
  (∀ k a, g (h k a) = f a) → msum g (map_imap (λ k a, Some (h k a)) m) = msum f m.
Proof.
  intros Hf. induction m as [|k a m E IH] using map_ind; [by rewrite map_imap_empty, !msum_empty|].
  rewrite (map_imap_insert_Some _ _ _ _ (h k a)) by done. rewrite !msum_insert_new by (rewrite ?map_lookup_imap, E; done).
  by rewrite Hf, IH.
Qed.

(** [d] with [k] more at [x]. *)
Definition plus_at (d : Z → Z) (x k : Z) : Z → Z := λ y, d y + (if decide (y = x) then k else 0).

#[export] Hint Resolve b2z_nonneg : kern.

(** [n] bytes from address [p] on. *)
Fixpoint load_bytes (m : gmap Z Z) (p : Z) (n : nat) : res (list Z) :=
  match n with
  | O => Ok []
  | S n => b ← deref (m !! p); bs ← load_bytes m (p + 1) n; Ok (b :: bs)
  end.

(** Overwrites the bytes from address [p] on. *)
Fixpoint store_bytes (m : gmap Z Z) (p : Z) (bs : list Z) : res (gmap Z Z) :=
  match bs with
  | [] => Ok m
  | b :: bs => _ ← deref (m !! p); store_bytes (<[p := b]> m) (p + 1) bs
  end.

(** [bcopy (from, to, len)] with [from] in memory: [len] is converted to
    [size_t], and no object is as large as half the address space. *)
Definition bcopy_from (m : gmap Z Z) (p len : Z) : res (list Z) :=
  if W31 <=? u32 len then Fault else load_bytes m p (Z.to_nat (u32 len)).

(** [bcopy (from, to, len)] with [to] in memory and [from] the buffer [buf]. *)
Definition bcopy_to (m : gmap Z Z) (p : Z) (buf : list Z) (len : Z) : res (gmap Z Z) :=
  if W31 <=? u32 len then Fault
  else if Z.of_nat (length buf) <? u32 len then Fault
  else store_bytes m p (take (Z.to_nat (u32 len)) buf).

(** ** Regions *)

(** Memory holds the bytes [bs] from address [p] on. *)
Definition has (m : gmap Z Z) (p : Z) (bs : list Z) : Prop :=
  ∀ i b, bs !! i = Some b → m !! (p + Z.of_nat i) = Some b.

(** Two memories agree on the [n] addresses from [p] on. *)
Definition agree (m m' : gmap Z Z) (p n : Z) : Prop :=
  ∀ q, p ≤ q < p + n → m' !! q = m !! q.

Lemma has_nil m p : has m p [].
Proof. intros i b H. done. Qed.

Lemma has_cons m p b bs : has m p (b :: bs) ↔ m !! p = Some b ∧ has m (p + 1) bs.
Proof.
  split.
  - intros H. split; [rewrite <- (Z.add_0_r p); by apply (H 0%nat)|].
    intros i c Hc. replace (p + 1 + Z.of_nat i) with (p + Z.of_nat (S i)) by lia. by apply H.
  - intros [Hb Hr] [|i] c Hc; simpl in Hc; [simplify_eq; by rewrite Z.add_0_r|].
    replace (p + Z.of_nat (S i)) with (p + 1 + Z.of_nat i) by lia. by apply Hr.
Qed.

Lemma has_app m p a b : has m p (a ++ b) ↔ has m p a ∧ has m (p + Z.of_nat (length a)) b.
Proof.
  revert p. induction a as [|x a IH]; intros p; simpl.
  - rewrite Z.add_0_r. pose proof (has_nil m p). tauto.
  - rewrite !has_cons, IH. replace (p + 1 + Z.of_nat (length a)) with
      (p + Z.of_nat (S (length a))) by lia. tauto.
Qed.

Lemma has_agree m m' p bs : agree m m' p (Z.of_nat (length bs)) → has m p bs → has m' p bs.
Proof.
  intros Ha H i b Hi. rewrite Ha; [by apply H|]. apply lookup_lt_Some in Hi. lia.
Qed.

Lemma load_has m p bs : has m p bs → load_bytes m p (length bs) = Ok bs.
Proof.
  revert p. induction bs as [|b bs IH]; intros p H; simpl; [done|].
  apply has_cons in H as [-> H]. simpl. by rewrite (IH _ H).
Qed.

Lemma store_has m p old bs :
  has m p old → length bs = length old →
  ∃ m', store_bytes m p bs = Ok m' ∧ has m' p bs ∧
    ∀ q, ¬ p ≤ q < p + Z.of_nat (length bs) → m' !! q = m !! q.
Proof.
  revert m p old. induction bs as [|b bs IH]; intros m p old H Hl; simpl.
  - exists m. split_and!; auto using has_nil.
  - destruct old as [|x old]; [done|]. apply has_cons in H as [Hx H]. rewrite Hx. simpl.
    destruct (IH (<[p := b]> m) (p + 1) old) as (m' & Hs & Hm & Ho).
    + apply (has_agree m); [|done]. intros q Hq. rewrite lookup_insert_ne; [done|lia].
    + simpl in Hl. lia.
    + exists m'. split_and!; auto.
      * apply has_cons. split; [|done]. rewrite Ho by lia. apply lookup_insert_eq.
      * intros q Hq. rewrite Ho by lia. rewrite lookup_insert_ne; [done|lia].
Qed.

Lemma bcopy_from_has m p bs :
  has m p bs → Z.of_nat (length bs) < W31 → bcopy_from m p (Z.of_nat (length bs)) = Ok bs.
Proof.
  intros H Hl. unfold bcopy_from. rewrite u32_small by (unfold_words; lia).
  rewrite (proj2 (Z.leb_gt _ _)) by lia. rewrite Nat2Z.id. by apply load_has.
Qed.

Lemma bcopy_to_has m p old buf len :
  has m p old → Z.of_nat (length old) = len → len < W31 → len ≤ Z.of_nat (length buf) →
  ∃ m', bcopy_to m p buf len = Ok m' ∧ has m' p (take (Z.to_nat len) buf) ∧
    ∀ q, ¬ p ≤ q < p + len → m' !! q = m !! q.
Proof.
  intros H <- Hw Hb. unfold bcopy_to. rewrite u32_small by (unfold_words; lia).
  rewrite (proj2 (Z.leb_gt _ _)), (proj2 (Z.ltb_ge _ _)) by lia. rewrite Nat2Z.id.
  assert (Hlen : length (take (length old) buf) = length old) by (rewrite length_take; lia).
  destruct (store_has m p old (take (length old) buf) H Hlen) as (m' & ? & ? & Ho).
  exists m'. rewrite Hlen in Ho. done.
Qed.

(** Mapped addresses hold some bytes. *)
Lemma mapped_has m p n :
  (∀ q, p ≤ q < p + Z.of_nat n → is_Some (m !! q)) → ∃ bs, length bs = n ∧ has m p bs.
Proof.
  revert p. induction n as [|n IH]; intros p Hm; [by exists []|].
  destruct (Hm p ltac:(lia)) as [b Hb]. destruct (IH (p + 1)) as (bs & Hl & Hbs).
  - intros q Hq. apply Hm. lia.
  - exists (b :: bs). simpl. split; [by rewrite Hl|]. by apply has_cons.
Qed.

(** A region of [n] zero bytes, for building concrete memories. *)
Fixpoint zeroed (p : Z) (n : nat) : gmap Z Z :=
  match n with
  | O => ∅
  | S n => <[p := 0]> (zeroed (p + 1) n)
  end.

Lemma zeroed_has p n : has (zeroed p n) p (replicate n 0).
Proof.
  revert p. induction n as [|n IH]; intros p; simpl; [apply has_nil|].
  apply has_cons. split; [apply lookup_insert_eq|].
  apply (has_agree (zeroed (p + 1) n)); [|done].
  intros q Hq. rewrite lookup_insert_ne; [done|lia].
Qed.
