(* ===== verification/Rmap.v ===== *)
(** * Resource maps (uts/common/os/rmap.c, sys/map.h)

    A resource map is a dense array of free segments in address order, closed
    by an entry of size 0.  The model keeps the array itself, slot by slot, so
    that the shifting loops of the code, the slots past the terminator and the
    accesses at the ends of the array are all visible.  A pointer [bp] walking
    the array is the suffix of the array that starts at [bp]; reading or writing
    past the array is [Fault].

    [free] is the abstract state, the set of free resource units; the theorems
    at the end show that every operation implements set union or difference on
    it, and that no sleeping [rmalloc_wait] is ever left without its wakeup
    flag. *)

From S2P Require Import Prelude.

(** ** Data *)

(** [struct map]: one segment of the array. *)
Record mapent := MapEnt { m_size : Z; m_addr : Z }.

(** [struct map_head] with the array that follows it ([mh_size] is the head's
    [m_size] field; the lock and the condition variable are represented by the
    step relation below). *)
Record map_head := MapHead {
  m_free : Z;
  m_want : Z;
  m_nam : string;
  mh_size : Z;
  m_map : list mapent
}.

#[global] Instance mapent_eq_dec : EqDecision mapent.
Proof. solve_decision. Defined.

(** Field sizes of [struct map_head] on the 32-bit kernel: two [uint_t], a
    pointer, an [int], a two-pointer [kmutex_t], a two-byte [kcondvar_t] padded
    to a word, and one [struct map]. *)
Definition sizeof_map : Z := 8.
Definition sizeof_map_head : Z := 4 + 4 + 4 + 4 + 8 + 4 + sizeof_map.

Definition MAP_OVERHEAD : Z := (sizeof_map_head + 2 * sizeof_map - 1) / sizeof_map.

(** The entries [m_map[0..]] that fit in an allocation of [bytes] bytes. *)
Definition map_slots (bytes : Z) : Z := (bytes - (sizeof_map_head - sizeof_map)) / sizeof_map.

Definition set_m_map (mp : map_head) (l : list mapent) : map_head :=
  MapHead (m_free mp) (m_want mp) (m_nam mp) (mh_size mp) l.

Definition set_m_free (mp : map_head) (f : Z) : map_head :=
  MapHead f (m_want mp) (m_nam mp) (mh_size mp) (m_map mp).

Definition set_m_want (mp : map_head) (w : Z) : map_head :=
  MapHead (m_free mp) w (m_nam mp) (mh_size mp) (m_map mp).

(** ** Operations *)

(** [mapinit] on memory whose segment array holds [slots]. *)
Definition mapinit (slots : list mapent) (want size addr : Z) (name : string)
    (mapsize : Z) : res map_head :=
  if mapsize <? MAP_OVERHEAD + 1 then Panic "mapinit: map too small"
  else
    let n := sub32 mapsize MAP_OVERHEAD in
    match slots with
    | [] => Fault
    | _ :: rest =>
      Ok (MapHead (if size =? 0 then n else n - 1) want name n
            (MapEnt size addr :: rest))
    end.

(** [kmem_zalloc] of a map: every slot and the head are zero. *)
Definition zeroed_slots (bytes : Z) : list mapent :=
  replicate (Z.to_nat (map_slots bytes)) (MapEnt 0 0).

(** [rmallocmap]: [avail] says whether [kmem_zalloc(.., KM_NOSLEEP)] has
    memory for the request. *)
Definition rmallocmap (avail : Z → bool) (mapsize : Z) : res (option map_head) :=
  let mapsize := add32 mapsize MAP_OVERHEAD in
  let bytes := mul32 mapsize sizeof_map in
  if avail bytes then
    mp ← mapinit (zeroed_slots bytes) 0 0 0 "rmallocmap" mapsize;
    Ok (Some mp)
  else Ok None.

(** [rmallocmap_wait]: the allocation sleeps until it succeeds. *)
Definition rmallocmap_wait (mapsize : Z) : res map_head :=
  let mapsize := add32 mapsize MAP_OVERHEAD in
  let bytes := mul32 mapsize sizeof_map in
  mapinit (zeroed_slots bytes) 0 0 0 "rmallocmap" mapsize.

(** The shifting loop
    [do { bp++; (bp-1)->m_addr = bp->m_addr;
        } while (((bp-1)->m_size = bp->m_size) != 0)]
    on the array suffix at [bp]. *)
Fixpoint compress (l : list mapent) : res (list mapent) :=
  match l with
  | _ :: ((e' :: _) as l') =>
    if m_size e' =? 0 then Ok (e' :: l')
    else l'' ← compress l'; Ok (e' :: l'')
  | _ => Fault
  end.

(** The same loop in its [while (bp->m_size) { bp++; copy }] form. *)
Definition compress_while (l : list mapent) : res (list mapent) :=
  match l with
  | [] => Fault
  | e :: _ => if m_size e =? 0 then Ok l else compress l
  end.

(** The first-fit search of [rmalloc_locked]: the address (0 for none), the
    array suffix afterwards and whether a slot was freed. *)
Fixpoint rmalloc_search (l : list mapent) (size : Z) : res (Z * list mapent * bool) :=
  match l with
  | [] => Fault
  | e :: l' =>
    if m_size e =? 0 then Ok (0, l, false)
    else if size <=? m_size e then
      let e' := MapEnt (sub32 (m_size e) size) (add32 (m_addr e) size) in
      if m_size e' =? 0 then
        l'' ← compress (e' :: l'); Ok (m_addr e, l'', true)
      else Ok (m_addr e, e' :: l', false)
    else
      '(a, l'', freed) ← rmalloc_search l' size; Ok (a, e :: l'', freed)
  end.

Definition rmalloc_locked (mp : map_head) (size : Z) : res (Z * map_head) :=
  '(a, l, freed) ← rmalloc_search (m_map mp) size;
  Ok (a, MapHead (if freed : bool then m_free mp + 1 else m_free mp)
           (m_want mp) (m_nam mp) (mh_size mp) l).

(** [rmalloc]: [rmalloc_locked] under the map's lock. *)
Definition rmalloc (mp : map_head) (size : Z) : res (Z * map_head) :=
  rmalloc_locked mp size.

(** The loop of [rmfree] that locates the first segment after [addr]: the
    entries passed, and the suffix at [bp]. *)
Fixpoint rmfree_locate (addr : Z) (l : list mapent) : res (list mapent * list mapent) :=
  match l with
  | [] => Fault
  | e :: l' =>
    if (m_addr e <=? addr) && negb (m_size e =? 0) then
      '(pre, bp) ← rmfree_locate addr l'; Ok (e :: pre, bp)
    else Ok ([], l)
  end.

(** The loop that makes a new entry and pushes the remaining ones up; it stops
    after writing the old terminator's slot and writes no new terminator. *)
Fixpoint push_up (e : mapent) (l : list mapent) : res (list mapent) :=
  match l with
  | [] => Fault
  | x :: l' =>
    if m_size x =? 0 then Ok (e :: l')
    else l'' ← push_up x l'; Ok (e :: l'')
  end.

(** Number of entries before the terminator. *)
Fixpoint final_entry (l : list mapent) : res nat :=
  match l with
  | [] => Fault
  | e :: l' => if m_size e =? 0 then Ok 0%nat else n ← final_entry l'; Ok (S n)
  end.

(** Map overflow: discard the smaller of the last two segments.  Returns the
    array and the lost range. *)
Definition discard (l : list mapent) : res (list mapent * (Z * Z)) :=
  n ← final_entry l;
  match n with
  | S (S k) =>
    last ← deref (l !! S k);
    prev ← deref (l !! k);
    let i := if m_size prev <? m_size last then k else S k in
    lost ← deref (l !! i);
    next ← deref (l !! S i);
    Ok (<[S i := MapEnt 0 (m_addr next)]> (<[i := next]> l),
        (m_addr lost, add32 (m_addr lost) (m_size lost)))
  | _ => Fault
  end.

(** One pass of [rmfree] from its [retry] label: either the map is updated, or
    it overflowed, a segment was discarded and the pass has to be retried. *)
Inductive pass_result :=
  | Done (mp : map_head)
  | Retry (mp : map_head) (lost : Z * Z).

Definition bad_rmfree {A} : res A := Panic "bad rmfree".

Definition rmfree_pass (mp : map_head) (size addr : Z) : res pass_result :=
  '(pre, bp) ← rmfree_locate addr (m_map mp);
  b ← deref (head bp);
  let left :=
    match unsnoc pre with
    | Some (pre', p) =>
      if addr <=? add32 (m_addr p) (m_size p) then Some (pre', p) else None
    | None => None
    end in
  match left with
  | Some (pre', p) =>
    if addr <? add32 (m_addr p) (m_size p) then bad_rmfree
    else
      let p' := MapEnt (add32 (m_size p) size) (m_addr p) in
      if negb (m_size b =? 0) && (m_addr b <=? add32 addr size) then
        if m_addr b <? add32 addr size then bad_rmfree
        else
          let p'' := MapEnt (add32 (m_size p') (m_size b)) (m_addr p') in
          bp' ← compress_while bp;
          Ok (Done (set_m_free (set_m_map mp (pre' ++ p'' :: bp')) (m_free mp + 1)))
      else Ok (Done (set_m_map mp (pre' ++ p' :: bp)))
  | None =>
    if (m_addr b <=? add32 addr size) && negb (m_size b =? 0) then
      if m_addr b <? add32 addr size then bad_rmfree
      else
        let b' := MapEnt (add32 (m_size b) size) (sub32 (m_addr b) size) in
        Ok (Done (set_m_map mp (pre ++ b' :: tail bp)))
    else if m_free mp =? 0 then
      '(l, lost) ← discard (m_map mp);
      Ok (Retry (set_m_free (set_m_map mp l) (m_free mp + 1)) lost)
    else
      bp' ← push_up (MapEnt size addr) bp;
      Ok (Done (set_m_free (set_m_map mp (pre ++ bp')) (m_free mp - 1)))
  end.

(** What a call of [rmfree] leaves: the map, the ranges it logged as lost, and
    whether it did a [cv_broadcast]. *)
Record rmfree_result := RmfreeResult {
  rf_map : map_head;
  rf_lost : list (Z * Z);
  rf_broadcast : bool
}.

(** The retry loop: a pass that discards leaves a free slot, so the second pass
    cannot discard again, and two passes are enough. *)
Fixpoint rmfree_loop (fuel : nat) (mp : map_head) (size addr : Z)
    (lost : list (Z * Z)) : res (map_head * list (Z * Z)) :=
  match fuel with
  | O => Fault
  | S fuel =>
    r ← rmfree_pass mp size addr;
    match r with
    | Done mp' => Ok (mp', lost)
    | Retry mp' l => rmfree_loop fuel mp' size addr (lost ++ [l])
    end
  end.

Definition rmfree (mp : map_head) (size addr : Z) : res rmfree_result :=
  if (addr =? 0) || (s32 size <=? 0) then bad_rmfree
  else
    '(mp', lost) ← rmfree_loop 2 mp size addr [];
    if m_want mp' =? 0 then Ok (RmfreeResult mp' lost false)
    else Ok (RmfreeResult (set_m_want mp' 0) lost true).

(** The search of [rmget]: the segment that contains [addr]. *)
Fixpoint rmget_find (addr : Z) (l : list mapent) : res (list mapent * list mapent) :=
  match l with
  | [] => Fault
  | e :: l' =>
    if m_size e =? 0 then Ok ([], l)
    else if (m_addr e <=? addr) && (addr <? add32 (m_addr e) (m_size e)) then Ok ([], l)
    else '(pre, bp) ← rmget_find addr l'; Ok (e :: pre, bp)
  end.

(** Moves the entries from [bp+1] to the terminator one slot up and puts [e] in
    the slot [bp+1]; the slot after the old terminator gets size 0 and keeps
    its [m_addr]. *)
Fixpoint open_slot (e : mapent) (l : list mapent) : res (list mapent) :=
  match l with
  | [] => Fault
  | t :: l' =>
    if m_size t =? 0 then
      match l' with
      | [] => Fault
      | x :: rest => Ok (e :: MapEnt 0 (m_addr x) :: rest)
      end
    else l'' ← open_slot t l'; Ok (e :: l'')
  end.

Definition rmget (mp : map_head) (size addr : Z) : res (Z * map_head) :=
  if s32 size <=? 0 then Panic "rmget"
  else
    '(pre, bp) ← rmget_find addr (m_map mp);
    match bp with
    | [] => Fault
    | b :: bp' =>
      if m_size b =? 0 then Ok (0, mp)
      else if add32 (m_addr b) (m_size b) <? add32 addr size then Ok (0, mp)
      else if m_addr b =? addr then
        if m_size b =? size then
          l ← compress_while bp;
          Ok (addr, set_m_free (set_m_map mp (pre ++ l)) (m_free mp + 1))
        else
          Ok (addr, set_m_map mp
            (pre ++ MapEnt (sub32 (m_size b) size) (add32 (m_addr b) size) :: bp'))
      else if add32 (m_addr b) (m_size b) =? add32 addr size then
        Ok (addr, set_m_map mp (pre ++ MapEnt (sub32 (m_size b) size) (m_addr b) :: bp'))
      else if m_free mp =? 0 then Ok (0, mp)
      else
        let upper := MapEnt (sub32 (add32 (m_addr b) (m_size b)) (add32 addr size))
                       (add32 addr size) in
        l ← open_slot upper bp';
        Ok (addr, set_m_free
          (set_m_map mp (pre ++ MapEnt (sub32 addr (m_addr b)) (m_addr b) :: l))
          (m_free mp - 1))
    end.

(** [rmfreemap]: the number of bytes handed back to [kmem_free]. *)
Definition rmfreemap (mp : map_head) : Z :=
  mul32 (MAP_OVERHEAD + mh_size mp) sizeof_map.

(** ** Abstract state and well-formedness *)

Definition seg_in (e : mapent) (x : Z) : Prop := m_addr e ≤ x < m_addr e + m_size e.

(** The units an array makes available; entries of size 0 hold none. *)
Definition free_in (l : list mapent) (x : Z) : Prop := Exists (λ e, seg_in e x) l.

(** The abstract state of a map: its set of free units. *)
Definition free (mp : map_head) (x : Z) : Prop := free_in (m_map mp) x.

(** [arr_ok lo n l]: [l] holds [n] segments above [lo], in address order, pairwise
    separated by at least one unit, none touching the top of the address space,
    and then only entries of size 0, at least one. *)
Inductive arr_ok : Z → nat → list mapent → Prop :=
  | arr_end lo t rest :
      m_size t = 0 → Forall (λ e, m_size e = 0) rest → arr_ok lo 0 (t :: rest)
  | arr_seg lo n e l :
      lo < m_addr e → 0 < m_size e → m_addr e + m_size e < W32 →
      arr_ok (m_addr e + m_size e) n l → arr_ok lo (S n) (e :: l).

(** The segments a pointer has passed: they start above [lo] and end at [hi]. *)
Inductive chain : Z → list mapent → Z → Prop :=
  | chain_nil lo : chain lo [] lo
  | chain_cons lo e l hi :
      lo < m_addr e → 0 < m_size e → m_addr e + m_size e < W32 →
      chain (m_addr e + m_size e) l hi → chain lo (e :: l) hi.

(** The type invariant of a map. *)
Record map_wf (mp : map_head) : Prop := MapWf {
  wf_arr : ∃ n, arr_ok 0 n (m_map mp) ∧ Z.of_nat n + m_free mp = mh_size mp;
  wf_free : 0 ≤ m_free mp;
  wf_size : 1 ≤ mh_size mp;
  wf_len : Z.of_nat (length (m_map mp)) = mh_size mp + 2
}.

#[export] Hint Constructors arr_ok chain : kern.

(** ** Lemmas on arrays *)

Lemma free_in_cons e l x : free_in (e :: l) x ↔ seg_in e x ∨ free_in l x.
Proof. apply Exists_cons. Qed.

Lemma free_in_app l1 l2 x : free_in (l1 ++ l2) x ↔ free_in l1 x ∨ free_in l2 x.
Proof. apply Exists_app. Qed.

Lemma free_in_nil x : ¬ free_in [] x.
Proof. intros H. by apply Exists_nil in H. Qed.

Lemma free_in_zero l x : Forall (λ e, m_size e = 0) l → ¬ free_in l x.
Proof.
  intros Hz Hf. apply Exists_exists in Hf as (e & He & Hin).
  rewrite Forall_forall in Hz. specialize (Hz e He). unfold seg_in in Hin. lia.
Qed.

Lemma seg_in_zero e x : m_size e = 0 → ¬ seg_in e x.
Proof. unfold seg_in. lia. Qed.

Lemma arr_ok_above lo n l x : arr_ok lo n l → free_in l x → lo < x.
Proof.
  induction 1 as [lo t rest Ht Hr|lo n e l ???? IH]; intros Hf.
  - exfalso. apply (free_in_zero (t :: rest) x); [by constructor|done].
  - apply free_in_cons in Hf as [Hf|Hf]; [unfold seg_in in Hf; lia|].
    specialize (IH Hf). lia.
Qed.

(** Only the head of the array constrains the lower bound. *)
Lemma arr_ok_lower lo lo' n b l :
  arr_ok lo n (b :: l) → (m_size b ≠ 0 → lo' < m_addr b) → arr_ok lo' n (b :: l).
Proof. intros H Hlo. inversion H; subst; constructor; auto. apply Hlo. lia. Qed.

Lemma arr_ok_weaken lo lo' n l : arr_ok lo n l → lo' ≤ lo → arr_ok lo' n l.
Proof. intros H Hlo. destruct H; constructor; auto. lia. Qed.

Lemma arr_ok_inv_zero lo n b l : arr_ok lo n (b :: l) → m_size b = 0 →
  n = 0%nat ∧ Forall (λ e, m_size e = 0) l.
Proof. intros H Hb. inversion H; subst; [done|lia]. Qed.

Lemma arr_ok_inv_seg lo n b l : arr_ok lo n (b :: l) → m_size b ≠ 0 →
  ∃ m, n = S m ∧ lo < m_addr b ∧ 0 < m_size b ∧ m_addr b + m_size b < W32 ∧
    arr_ok (m_addr b + m_size b) m l.
Proof. intros H Hb. inversion H; subst; [done|eauto 10]. Qed.

Lemma arr_ok_app lo pre hi m l :
  chain lo pre hi → arr_ok hi m l → arr_ok lo (length pre + m) (pre ++ l).
Proof. induction 1; simpl; eauto with kern. Qed.

Lemma chain_le lo pre hi : chain lo pre hi → lo ≤ hi.
Proof. induction 1; lia. Qed.

Lemma chain_snoc lo pre p hi :
  chain lo (pre ++ [p]) hi ↔
  ∃ h, chain lo pre h ∧ h < m_addr p ∧ 0 < m_size p ∧
       m_addr p + m_size p < W32 ∧ hi = m_addr p + m_size p.
Proof.
  revert lo. induction pre as [|e pre IH]; simpl; intros lo; split.
  - intros H. inversion H; subst. inversion H7; subst. eauto 10 with kern.
  - intros (h & H & ? & ? & ? & ->). inversion H; subst. eauto with kern.
  - intros H. inversion H; subst. apply IH in H7 as (h & ? & ?). eauto 10 with kern.
  - intros (h & H & ?). inversion H; subst. constructor; auto. apply IH. eauto.
Qed.

Lemma chain_below lo pre hi x : chain lo pre hi → free_in pre x → lo < x < hi.
Proof.
  induction 1 as [|lo e l hi ???? IH]; intros Hf; [by apply free_in_nil in Hf|].
  apply free_in_cons in Hf as [Hf|Hf].
  - unfold seg_in in Hf. apply chain_le in H2. lia.
  - specialize (IH Hf). lia.
Qed.

Lemma compress_ok e lo n l :
  arr_ok lo n l →
  ∃ l', compress (e :: l) = Ok l' ∧ length l' = S (length l) ∧ arr_ok lo n l' ∧
        ∀ x, free_in l' x ↔ free_in l x.
Proof.
  intros H. revert e. induction H as [lo t rest Ht Hr|lo n e' l ???? IH]; intros e.
  - exists (t :: t :: rest). simpl. rewrite Ht. simpl. split_and!; auto.
    + constructor; auto.
    + intros x. rewrite (free_in_cons t (t :: rest)). pose proof (seg_in_zero t x Ht). tauto.
  - destruct (IH e') as (l' & Hc & Hl & Hok & Hfr). exists (e' :: l').
    simpl compress. rewrite (proj2 (Z.eqb_neq _ _)) by lia.
    simpl in Hc |- *. rewrite Hc. simpl. split_and!; auto with kern.
    intros x. rewrite !free_in_cons, Hfr. done.
Qed.

Lemma compress_while_ok lo n e l :
  m_size e ≠ 0 → arr_ok lo n l →
  ∃ l', compress_while (e :: l) = Ok l' ∧ length l' = S (length l) ∧ arr_ok lo n l' ∧
        ∀ x, free_in l' x ↔ free_in l x.
Proof.
  intros He H. unfold compress_while. rewrite (proj2 (Z.eqb_neq _ _)) by done.
  by apply compress_ok.
Qed.

(** A run of free units lies inside one segment, since segments never touch. *)
Lemma run_in_segment lo n l a k :
  arr_ok lo n l → 0 < k → (∀ x, a ≤ x < a + k → free_in l x) →
  ∃ e, e ∈ l ∧ m_size e ≠ 0 ∧ m_addr e ≤ a ∧ a + k ≤ m_addr e + m_size e.
Proof.
  intros H Hk. induction H as [lo t rest Ht Hr|lo n e l ??? Hok IH]; intros Hrun.
  - exfalso. apply (free_in_zero (t :: rest) a); [by constructor|]. apply Hrun. lia.
  - pose proof (Hrun a ltac:(lia)) as Ha. apply free_in_cons in Ha as [Ha|Ha].
    + exists e. unfold seg_in in Ha. split_and!; [left|lia|lia|].
      destruct (decide (a + k ≤ m_addr e + m_size e)) as [|Hgt]; [done|exfalso].
      pose proof (Hrun (m_addr e + m_size e) ltac:(lia)) as Hend.
      apply free_in_cons in Hend as [Hend|Hend]; [unfold seg_in in Hend; lia|].
      apply (arr_ok_above _ _ _ _ Hok) in Hend. lia.
    + pose proof (arr_ok_above _ _ _ _ Hok Ha). destruct IH as (e' & ? & ?).
      * intros x Hx. pose proof (Hrun x Hx) as Hfx.
        apply free_in_cons in Hfx as [Hfx|]; [unfold seg_in in Hfx; lia|done].
      * exists e'. split; [by right|done].
Qed.

(** What a successful allocation of [size] units at [a] does to the free set. *)
Definition takes (before after : Z → Prop) (a size : Z) : Prop :=
  (∀ x, a ≤ x < a + size → before x) ∧
  ∀ x, after x ↔ before x ∧ ¬ a ≤ x < a + size.

Lemma takes_cons lo n e l l' a size :
  arr_ok (m_addr e + m_size e) n l → m_addr e + m_size e < a → 0 < m_size e → lo < m_addr e →
  takes (free_in l) (free_in l') a size → takes (free_in (e :: l)) (free_in (e :: l')) a size.
Proof.
  intros Hok Ha ?? [H1 H2]. split.
  - intros x Hx. apply free_in_cons. right. by apply H1.
  - intros x. rewrite !free_in_cons, H2. unfold seg_in.
    assert (m_addr e ≤ x < m_addr e + m_size e → ¬ a ≤ x < a + size) by lia. tauto.
Qed.

Lemma rmalloc_search_ok lo n l size :
  0 ≤ lo → 0 < size < W31 → arr_ok lo n l →
  ∃ a l' (freed : bool), rmalloc_search l size = Ok (a, l', freed) ∧
    length l' = length l ∧
    (∃ n', n = (if freed then S n' else n') ∧ arr_ok lo n' l') ∧
    ((a = 0 ∧ l' = l ∧ freed = false ∧ Forall (λ e, m_size e < size) l) ∨
     (lo < a ∧ takes (free_in l) (free_in l') a size ∧
      (freed = true ∨ free_in l' (a + size)))).
Proof.
  intros Hlo Hs H. revert Hlo. induction H as [lo t rest Ht Hr|lo n e l H1 H2 H3 Hok IH]; intros Hlo.
  - exists 0, (t :: rest), false. simpl. rewrite Ht. simpl. split_and!; eauto with kern.
    left. split_and!; auto. constructor; [lia|].
    eapply Forall_impl; [|exact Hr]. simpl. lia.
  - simpl. rewrite (proj2 (Z.eqb_neq _ _)) by lia. case_if.
    + assert (Hsub : sub32 (m_size e) size = m_size e - size)
        by (unfold sub32; apply u32_small; unfold_words; lia).
      assert (Hadd : add32 (m_addr e) size = m_addr e + size)
        by (apply add32_small; lia).
      rewrite Hsub, Hadd. case_if.
      * destruct (compress_ok (MapEnt (m_size e - size) (m_addr e + size)) _ _ _ Hok)
          as (l' & Hc & Hlen & Hok' & Hfr).
        simpl in Hc. rewrite Hc. exists (m_addr e), l', true. split_and!; [done|done| |].
        { exists n. split; [done|]. eapply arr_ok_weaken; [done|lia]. }
        right. split_and!; [lia| |by left]. split.
        { intros x Hx. apply free_in_cons. left. unfold seg_in. lia. }
        intros x. rewrite Hfr, free_in_cons. unfold seg_in. split.
        { intros Hf. split; [by right|]. apply (arr_ok_above _ _ _ _ Hok) in Hf. lia. }
        intros [[?|?] ?]; [lia|done].
      * eexists (m_addr e), _, false. split_and!; [done|done| |].
        { exists (S n). split; [done|]. constructor; simpl; try lia.
          eapply arr_ok_weaken; [done|lia]. }
        right. split_and!; [lia| |right; apply free_in_cons; left; unfold seg_in; simpl; lia].
        split.
        { intros x Hx. apply free_in_cons. left. unfold seg_in. lia. }
        intros x. rewrite !free_in_cons. unfold seg_in. simpl. split.
        { intros [?|Hf]; [lia|]. split; [by right|].
          apply (arr_ok_above _ _ _ _ Hok) in Hf. lia. }
        intros [[?|?] ?]; [lia|by right].
    + destruct IH as (a & l' & fr & Hr & Hlen & (n' & Hn & Hok') & Hcase); [lia|].
      rewrite Hr. simpl. eexists a, _, fr. split_and!; [done|simpl; lia| |].
      { exists (S n'). split; [destruct fr; lia|]. by constructor. }
      destruct Hcase as [(-> & -> & -> & Hall)|(Ha & Ht & He)].
      * left. split_and!; auto.
      * right. split_and!; [lia|eapply takes_cons; eauto|].
        destruct He; [by left|]. right. apply free_in_cons. by right.
Qed.

Lemma rmfree_locate_ok lo n l addr :
  arr_ok lo n l →
  ∃ pre b bp hi m, rmfree_locate addr l = Ok (pre, b :: bp) ∧ l = pre ++ b :: bp ∧
    chain lo pre hi ∧ arr_ok hi m (b :: bp) ∧ n = (length pre + m)%nat ∧
    Forall (λ e, m_addr e ≤ addr) pre ∧ (m_size b ≠ 0 → addr < m_addr b).
Proof.
  induction 1 as [lo t rest Ht Hr|lo n e l H1 H2 H3 Hok IH]; simpl.
  - exists [], t, rest, lo, 0%nat. rewrite Ht. rewrite andb_false_r.
    split_and!; auto with kern. done.
  - case_if.
    + destruct IH as (pre & b & bp & hi & m & Hl & -> & ? & ? & -> & ? & ?).
      rewrite Hl. simpl. exists (e :: pre), b, bp, hi, m. split_and!; auto with kern.
    + assert (addr < m_addr e).
      { match goal with H : (_ && _) = false |- _ => apply andb_false_iff in H as [?|?] end;
        prop_bool; lia. }
      exists [], e, l, lo, (S n). split_and!; auto with kern.
Qed.

Lemma push_up_ok lo n l e :
  lo < m_addr e → 0 < m_size e → m_addr e + m_size e < W32 →
  arr_ok (m_addr e + m_size e) n l → (n + 2 ≤ length l)%nat →
  ∃ l', push_up e l = Ok l' ∧ length l' = length l ∧ arr_ok lo (S n) l' ∧
        ∀ x, free_in l' x ↔ seg_in e x ∨ free_in l x.
Proof.
  intros H1 H2 H3 H. remember (m_addr e + m_size e) as lo' eqn:E. revert lo e E H1 H2 H3.
  induction H as [lo' t rest Ht Hr|lo' n f l ??? Hok IH]; intros lo e -> ??? Hlen; simpl in *.
  - rewrite Ht. exists (e :: rest). split_and!; auto.
    + constructor; auto. destruct rest; simpl in Hlen; [lia|].
      apply Forall_cons_iff in Hr as [??]. by constructor.
    + intros x. rewrite !free_in_cons. pose proof (seg_in_zero t x Ht). tauto.
  - rewrite (proj2 (Z.eqb_neq _ _)) by lia.
    destruct (IH (m_addr e + m_size e) f) as (l' & Hp & Hl & Hok' & Hf); auto; [lia|].
    rewrite Hp. simpl. exists (e :: l'). split_and!; simpl; auto with kern.
    intros x. rewrite !free_in_cons, Hf. tauto.
Qed.

Lemma open_slot_ok lo n l e :
  lo < m_addr e → 0 < m_size e → m_addr e + m_size e < W32 →
  arr_ok (m_addr e + m_size e) n l → (n + 2 ≤ length l)%nat →
  ∃ l', open_slot e l = Ok l' ∧ length l' = length l ∧ arr_ok lo (S n) l' ∧
        ∀ x, free_in l' x ↔ seg_in e x ∨ free_in l x.
Proof.
  intros H1 H2 H3 H. remember (m_addr e + m_size e) as lo' eqn:E. revert lo e E H1 H2 H3.
  induction H as [lo' t rest Ht Hr|lo' n f l ??? Hok IH]; intros lo e -> ??? Hlen; simpl in *.
  - rewrite Ht. destruct rest as [|y rest]; simpl in Hlen; [lia|].
    apply Forall_cons_iff in Hr as [Hy Hr].
    exists (e :: MapEnt 0 (m_addr y) :: rest). split_and!; auto.
    + constructor; auto. by constructor.
    + intros x. rewrite !free_in_cons. pose proof (seg_in_zero t x Ht).
      pose proof (seg_in_zero y x Hy). pose proof (seg_in_zero (MapEnt 0 (m_addr y)) x eq_refl).
      tauto.
  - rewrite (proj2 (Z.eqb_neq _ _)) by lia.
    destruct (IH (m_addr e + m_size e) f) as (l' & Hp & Hl & Hok' & Hf); auto; [lia|].
    rewrite Hp. simpl. exists (e :: l'). split_and!; simpl; auto with kern.
    intros x. rewrite !free_in_cons, Hf. tauto.
Qed.

(** ** One pass of [rmfree] *)

(** The situation after the locating loop of [rmfree]. *)
Record located (l pre : list mapent) (b : mapent) (bp : list mapent) (addr hi : Z)
    (n m : nat) : Prop := Located {
  loc_run : rmfree_locate addr l = Ok (pre, b :: bp);
  loc_eq : l = pre ++ b :: bp;
  loc_pre : chain 0 pre hi;
  loc_arr : arr_ok hi m (b :: bp);
  loc_n : n = (length pre + m)%nat;
  loc_low : Forall (λ e, m_addr e ≤ addr) pre;
  loc_high : m_size b ≠ 0 → addr < m_addr b
}.

Lemma locate_located n l addr :
  arr_ok 0 n l → ∃ pre b bp hi m, located l pre b bp addr hi n m.
Proof.
  intros H. destruct (rmfree_locate_ok 0 n l addr H) as (pre & b & bp & hi & m & ?).
  destruct_and!. exists pre, b, bp, hi, m. by constructor.
Qed.

(** The range to free is disjoint from the map exactly when it fits between the
    two neighbours the loop has found. *)
Lemma located_overlap l pre b bp addr hi n m size :
  located l pre b bp addr hi n m → 0 < size →
  (∃ x, addr ≤ x < addr + size ∧ free_in l x) →
  addr < hi ∨ m_size b ≠ 0 ∧ m_addr b < addr + size.
Proof.
  intros [_ -> Hc Ha _ _ Hhi] Hs (x & Hx & Hf). apply free_in_app in Hf as [Hf|Hf].
  - left. apply (chain_below _ _ _ _ Hc) in Hf. lia.
  - right. assert (m_size b ≠ 0) as Hb.
    { intros Hz. destruct (arr_ok_inv_zero _ _ _ _ Ha Hz) as [_ Hr].
      by apply (free_in_zero (b :: bp) x); [constructor|]. }
    split; [done|]. apply arr_ok_lower with (lo' := m_addr b - 1) in Ha; [|lia].
    apply (arr_ok_above _ _ _ _ Ha) in Hf. lia.
Qed.

Lemma located_disjoint l pre b bp addr hi n m size :
  located l pre b bp addr hi n m → 0 < addr → 0 < size →
  (∀ x, addr ≤ x < addr + size → ¬ free_in l x) →
  hi ≤ addr ∧ (m_size b ≠ 0 → addr + size ≤ m_addr b).
Proof.
  intros [_ -> Hc Ha _ Hlow Hhi] Ha0 Hs Hd. split.
  - destruct (unsnoc pre) as [[pre' p]|] eqn:E.
    + apply unsnoc_Some in E as ->. apply chain_snoc in Hc as (h & ? & ? & ? & ? & ->).
      apply Forall_app in Hlow as [_ Hp]. apply Forall_cons_iff in Hp as [Hp _].
      destruct (decide (m_addr p + m_size p ≤ addr)) as [|Hgt]; [done|exfalso].
      apply (Hd addr); [lia|]. rewrite !free_in_app. left. right.
      apply free_in_cons. left. unfold seg_in. lia.
    + apply unsnoc_None in E as ->. inversion Hc; subst. lia.
  - intros Hb. destruct (decide (addr + size ≤ m_addr b)) as [|Hgt]; [done|exfalso].
    destruct (arr_ok_inv_seg _ _ _ _ Ha Hb) as (? & ? & ? & ? & ? & ?).
    specialize (Hhi Hb). apply (Hd (m_addr b)); [lia|]. rewrite free_in_app. right.
    apply free_in_cons. left. unfold seg_in. lia.
Qed.

(** Strictly between its neighbours, the range touches no free unit. *)
Lemma located_apart l pre b bp addr hi n m size :
  located l pre b bp addr hi n m → hi < addr → 0 < size →
  (m_size b ≠ 0 → addr + size ≤ m_addr b) → ¬ (m_size b ≠ 0 ∧ m_addr b = addr + size) →
  ∀ x, (x = addr - 1 ∨ x = addr + size) → ¬ free_in l x.
Proof.
  intros [_ -> Hc Ha _ _ _] Hlt Hs Hdr Hno x Hx Hf. apply free_in_app in Hf as [Hf|Hf].
  - apply (chain_below _ _ _ _ Hc) in Hf. lia.
  - apply arr_ok_lower with (lo' := addr + size) in Ha.
    + apply (arr_ok_above _ _ _ _ Ha) in Hf. lia.
    + intros Hb. specialize (Hdr Hb). assert (m_addr b ≠ addr + size) by tauto. lia.
Qed.

(** A map of which only the array and the slot count changed. *)
Lemma map_wf_update mp l n f :
  map_wf mp → arr_ok 0 n l → Z.of_nat n + f = mh_size mp → 0 ≤ f →
  length l = length (m_map mp) → map_wf (set_m_free (set_m_map mp l) f).
Proof. intros [_ ? ? Hl] ????. constructor; simpl; eauto; lia. Qed.

Lemma map_wf_set_map mp l n :
  map_wf mp → arr_ok 0 n (m_map mp) → Z.of_nat n + m_free mp = mh_size mp →
  arr_ok 0 n l → length l = length (m_map mp) → map_wf (set_m_map mp l).
Proof. intros [_ ? ? Hl] ????. constructor; simpl; eauto; lia. Qed.

(** The number of segments is determined by the array. *)
Lemma arr_ok_det lo lo' n n' l : arr_ok lo n l → arr_ok lo' n' l → n = n'.
Proof.
  intros H. revert lo' n'. induction H as [lo t r Ht Hr|lo n e l ??? Hok IH]; intros lo' n' H'.
  - by destruct (arr_ok_inv_zero _ _ _ _ H' Ht) as [-> _].
  - destruct (arr_ok_inv_seg _ _ _ _ H' ltac:(lia)) as (m & -> & _ & _ & _ & Hm).
    f_equal. eauto.
Qed.

Lemma map_wf_count mp n : map_wf mp → arr_ok 0 n (m_map mp) →
  Z.of_nat n + m_free mp = mh_size mp ∧ (n + 2 + Z.to_nat (m_free mp) = length (m_map mp))%nat.
Proof.
  intros [(n' & Hn & Hf) ? ? Hl] H. rewrite (arr_ok_det _ _ _ _ _ H Hn). lia.
Qed.

(** What a successful [rmfree] of a range does to the free set. *)
Definition gives (before after : Z → Prop) (a size : Z) : Prop :=
  ∀ x, after x ↔ before x ∨ a ≤ x < a + size.

Section pass.
Context (mp : map_head) (size addr : Z) (pre : list mapent) (b : mapent)
  (bp : list mapent) (hi : Z) (n m : nat).
Context (Hwf : map_wf mp) (Hloc : located (m_map mp) pre b bp addr hi n m).
Context (Haddr : 0 < addr) (Hsize : 0 < size < W31) (Htop : addr + size < W32).

Local Lemma pass_arr : arr_ok 0 n (m_map mp).
Proof using Hloc. destruct Hloc as [_ -> Hc Ha -> _ _]. by eapply arr_ok_app. Qed.

Local Lemma pass_sum : add32 addr size = addr + size.
Proof using Haddr Hsize Htop. apply add32_small; lia. Qed.

Local Lemma pass_b_end : m_size b ≠ 0 →
  ∃ k, m = S k ∧ hi < m_addr b ∧ 0 < m_size b ∧ m_addr b + m_size b < W32 ∧
    arr_ok (m_addr b + m_size b) k bp.
Proof using Hloc. destruct Hloc. by apply arr_ok_inv_seg. Qed.

(** A neighbour that overlaps the range is detected. *)
Lemma rmfree_pass_overlap :
  addr < hi ∨ m_size b ≠ 0 ∧ m_addr b < addr + size →
  rmfree_pass mp size addr = bad_rmfree.
Proof using Hwf Hloc Haddr Hsize Htop.
  intros Hov. pose proof pass_sum as Hsum. pose proof pass_b_end as Hbe.
  destruct Hloc as [Hrun _ Hc _ _ _ _]. unfold rmfree_pass. rewrite Hrun. simpl.
  rewrite Hsum. destruct (unsnoc pre) as [[pre' p]|] eqn:E.
  - apply unsnoc_Some in E as ->. apply chain_snoc in Hc as (h & Hch & ? & ? & ? & ->).
    pose proof (chain_le _ _ _ Hch).
    pose proof (add32_small (m_addr p) (m_size p) ltac:(lia) ltac:(lia) ltac:(lia)).
    destruct (decide (addr < m_addr p + m_size p)); [by eval_cmp|].
    destruct Hov as [|[Hb Hlt]]; [lia|].
    destruct (decide (addr = m_addr p + m_size p)); by eval_cmp.
  - apply unsnoc_None in E as ->. inversion Hc; subst.
    destruct Hov as [|[Hb Hlt]]; [lia|]. by eval_cmp.
Qed.

Context (Hdl : hi ≤ addr) (Hdr : m_size b ≠ 0 → addr + size ≤ m_addr b).

(** What the pass returns when it does not have to discard a segment. *)
Definition freed_by (r : res pass_result) : Prop :=
  ∃ mp', r = Ok (Done mp') ∧ map_wf mp' ∧ m_want mp' = m_want mp ∧
         mh_size mp' = mh_size mp ∧ gives (free mp) (free mp') addr size.

Local Lemma pass_free x : free mp x ↔ free_in pre x ∨ seg_in b x ∨ free_in bp x.
Proof using Hloc.
  unfold free. destruct Hloc as [_ -> _ _ _ _ _]. by rewrite free_in_app, free_in_cons.
Qed.

Local Lemma pass_b_sub : m_size b ≠ 0 →
  add32 (m_size b) size = m_size b + size ∧ sub32 (m_addr b) size = m_addr b - size.
Proof using Hloc Hdr Haddr Hsize Htop.
  intros Hb. destruct (pass_b_end Hb) as (k & _ & ? & ? & ? & _). specialize (Hdr Hb).
  split; [apply add32_small; lia|]. unfold sub32. apply u32_small. unfold is_u32. lia.
Qed.

(** The segment on the left abuts the range, the one on the right does not:
    the left one grows. *)
Lemma rmfree_pass_left pre' p :
  pre = pre' ++ [p] → m_addr p + m_size p = addr →
  ¬ (m_size b ≠ 0 ∧ m_addr b = addr + size) → freed_by (rmfree_pass mp size addr).
Proof using Hwf Hloc Haddr Hsize Htop Hdl Hdr.
  intros Hpre Hp Hno. pose proof pass_sum as Hsum. pose proof pass_arr as Harr.
  pose proof pass_free as Hfr. destruct (map_wf_count _ _ Hwf Harr) as [Hcnt Hlen].
  destruct Hloc as [Hrun Heq Hc Ha -> _ _]. subst pre.
  apply chain_snoc in Hc as (h & Hch & ? & ? & ? & Hhi). pose proof (chain_le _ _ _ Hch).
  pose proof (add32_small (m_addr p) (m_size p) ltac:(lia) ltac:(lia) ltac:(lia)).
  pose proof (add32_small (m_size p) size ltac:(lia) ltac:(lia) ltac:(lia)) as Hp'.
  unfold freed_by, rmfree_pass. rewrite Hrun. simpl. rewrite unsnoc_snoc. eval_cmp.
  rewrite Hsum. assert (negb (m_size b =? 0) && (m_addr b <=? addr + size) = false) as ->.
  { destruct (decide (m_size b = 0)) as [Hz|Hz]; [by rewrite (proj2 (Z.eqb_eq _ _) Hz)|].
    specialize (Hdr Hz). assert (m_addr b ≠ addr + size) by tauto. by eval_cmp. }
  eexists. split; [done|]. rewrite Hp'. split_and!; try done.
  - eapply map_wf_set_map; [done|done|done| |rewrite Heq, !length_app; simpl; lia].
    rewrite length_app, <- Nat.add_assoc. simpl. eapply arr_ok_app; [done|].
    constructor; simpl; try lia. apply (arr_ok_lower hi); [done|].
    intros Hb. specialize (Hdr Hb). lia.
  - intros x. rewrite Hfr. unfold free. simpl. rewrite !free_in_app, !free_in_cons.
    unfold seg_in. simpl. pose proof (free_in_nil x).
    assert (m_addr p ≤ x < m_addr p + (m_size p + size) ↔
      m_addr p ≤ x < m_addr p + m_size p ∨ addr ≤ x < addr + size) by lia. tauto.
Qed.

(** Both neighbours abut the range: the three pieces become one segment. *)
Lemma rmfree_pass_both pre' p :
  pre = pre' ++ [p] → m_addr p + m_size p = addr →
  m_size b ≠ 0 → m_addr b = addr + size → freed_by (rmfree_pass mp size addr).
Proof using Hwf Hloc Haddr Hsize Htop Hdl Hdr.
  intros Hpre Hp Hb Hab. pose proof pass_sum as Hsum. pose proof pass_arr as Harr.
  pose proof pass_free as Hfr. destruct (map_wf_count _ _ Hwf Harr) as [Hcnt Hlen].
  destruct Hloc as [Hrun Heq Hc Ha -> _ _]. subst pre.
  apply chain_snoc in Hc as (h & Hch & ? & ? & ? & Hhi). pose proof (chain_le _ _ _ Hch).
  pose proof (add32_small (m_addr p) (m_size p) ltac:(lia) ltac:(lia) ltac:(lia)).
  pose proof (add32_small (m_size p) size ltac:(lia) ltac:(lia) ltac:(lia)) as Hp'.
  destruct (arr_ok_inv_seg _ _ _ _ Ha Hb) as (k & -> & ? & ? & ? & Hk).
  destruct (compress_while_ok _ _ b _ Hb Hk) as (l' & Hcw & Hl' & Hok' & Hf').
  assert (Hpb : add32 (m_size p + size) (m_size b) = m_size p + size + m_size b)
    by (apply add32_small; lia).
  unfold freed_by, rmfree_pass. rewrite Hrun. cbn -[compress_while].
  rewrite unsnoc_snoc. cbn -[compress_while].
  rewrite (proj2 (Z.leb_le addr _)), (proj2 (Z.ltb_ge addr _)),
    (proj2 (Z.eqb_neq (m_size b) 0)), (proj2 (Z.leb_le (m_addr b) _)),
    (proj2 (Z.ltb_ge (m_addr b) _)), Hcw, Hp', Hpb by lia.
  eexists. split; [done|]. split_and!; try done.
  - rewrite length_app in Hcnt. simpl in Hcnt.
    eapply (map_wf_update _ _ (length pre' + S k)%nat);
      [done| |lia|destruct Hwf; lia|rewrite Heq, !length_app; simpl; lia].
    eapply arr_ok_app; [done|]. constructor; simpl; try lia.
    eapply arr_ok_weaken; [done|lia].
  - intros x. rewrite Hfr. unfold free. simpl. rewrite !free_in_app, !free_in_cons, Hf'.
    unfold seg_in. simpl. pose proof (free_in_nil x).
    assert (m_addr p ≤ x < m_addr p + (m_size p + size + m_size b) ↔
      m_addr p ≤ x < m_addr p + m_size p ∨ addr ≤ x < addr + size ∨
      m_addr b ≤ x < m_addr b + m_size b) by lia. tauto.
Qed.

(** The pass once it is known that nothing abuts on the left. *)
Local Lemma pass_not_left :
  hi ≠ addr →
  rmfree_pass mp size addr =
  (if (m_addr b <=? addr + size) && negb (m_size b =? 0) then
     if m_addr b <? addr + size then bad_rmfree
     else Ok (Done (set_m_map mp
            (pre ++ MapEnt (add32 (m_size b) size) (sub32 (m_addr b) size) :: bp)))
   else if m_free mp =? 0 then
     '(l, lost) ← discard (m_map mp);
     Ok (Retry (set_m_free (set_m_map mp l) (m_free mp + 1)) lost)
   else
     bp' ← push_up (MapEnt size addr) (b :: bp);
     Ok (Done (set_m_free (set_m_map mp (pre ++ bp')) (m_free mp - 1)))).
Proof using Hwf Hloc Haddr Hsize Htop Hdl Hdr.
  intros Hhi. pose proof pass_sum as Hsum. destruct Hloc as [Hrun Heq Hc Ha _ _ _].
  unfold rmfree_pass. rewrite Hrun. simpl. rewrite Hsum.
  destruct (unsnoc pre) as [[pre' p]|] eqn:E; [|done].
  apply unsnoc_Some in E as ->. apply chain_snoc in Hc as (h & Hch & ? & ? & ? & ->).
  pose proof (chain_le _ _ _ Hch).
  pose proof (add32_small (m_addr p) (m_size p) ltac:(lia) ltac:(lia) ltac:(lia)).
  by rewrite (proj2 (Z.leb_gt addr _)) by lia.
Qed.

(** Only the right neighbour abuts: it grows downwards. *)
Lemma rmfree_pass_right :
  hi ≠ addr → m_size b ≠ 0 → m_addr b = addr + size →
  freed_by (rmfree_pass mp size addr).
Proof using Hwf Hloc Haddr Hsize Htop Hdl Hdr.
  intros Hhi Hb Hab. pose proof pass_arr as Harr. pose proof pass_free as Hfr.
  destruct (map_wf_count _ _ Hwf Harr) as [Hcnt Hlen].
  destruct (pass_b_sub Hb) as [Hs1 Hs2]. unfold freed_by. rewrite pass_not_left by done.
  destruct Hloc as [_ Heq Hc Ha -> _ _].
  destruct (arr_ok_inv_seg _ _ _ _ Ha Hb) as (k & -> & ? & ? & ? & Hk).
  eval_cmp. eexists. split; [done|]. rewrite Hs1, Hs2. split_and!; try done.
  - eapply map_wf_set_map; [done|done|done| |rewrite Heq, !length_app; simpl; lia].
    eapply arr_ok_app; [done|]. constructor; simpl; try lia.
    eapply arr_ok_weaken; [done|lia].
  - intros x. rewrite Hfr. unfold free. simpl. rewrite !free_in_app, !free_in_cons.
    unfold seg_in. simpl.
    assert (m_addr b - size ≤ x < m_addr b - size + (m_size b + size) ↔
      m_addr b ≤ x < m_addr b + m_size b ∨ addr ≤ x < addr + size) by lia. tauto.
Qed.

(** Nothing abuts and a slot is left: a new segment is inserted. *)
Lemma rmfree_pass_insert :
  hi ≠ addr → ¬ (m_size b ≠ 0 ∧ m_addr b = addr + size) → m_free mp ≠ 0 →
  freed_by (rmfree_pass mp size addr).
Proof using Hwf Hloc Haddr Hsize Htop Hdl Hdr.
  intros Hhi Hno Hfree. pose proof pass_arr as Harr. pose proof pass_free as Hfr.
  destruct (map_wf_count _ _ Hwf Harr) as [Hcnt Hlen].
  unfold freed_by. rewrite pass_not_left by done. destruct Hloc as [_ Heq Hc Ha Hn _ _].
  assert ((m_addr b <=? addr + size) && negb (m_size b =? 0) = false) as ->.
  { destruct (decide (m_size b = 0)) as [Hz|Hz].
    - rewrite (proj2 (Z.eqb_eq _ _) Hz). apply andb_false_r.
    - specialize (Hdr Hz). assert (m_addr b ≠ addr + size) by tauto. by eval_cmp. }
  destruct (push_up_ok hi m (b :: bp) (MapEnt size addr)) as (l' & Hpu & Hl' & Hok' & Hf');
    cbn [m_size m_addr]; try lia.
  { apply (arr_ok_lower hi); [done|]. intros Hb. specialize (Hdr Hb).
    assert (m_addr b ≠ addr + size) by tauto. lia. }
  { rewrite Heq, length_app in Hlen. simpl in *. destruct Hwf. lia. }
  rewrite Hpu, (proj2 (Z.eqb_neq _ _) Hfree). eexists. split; [done|]. split_and!; try done.
  - eapply (map_wf_update _ _ (length pre + S m)%nat);
      [done|by eapply arr_ok_app|lia|destruct Hwf; lia|].
    rewrite Heq, !length_app, Hl'. done.
  - intros x. rewrite Hfr. unfold free. simpl. rewrite !free_in_app, Hf', free_in_cons.
    unfold seg_in. simpl. tauto.
Qed.
End pass.

(** ** Overflow *)

Lemma final_entry_ok lo n l : arr_ok lo n l → final_entry l = Ok n.
Proof.
  induction 1 as [lo t rest Ht|lo n e l ???? IH]; simpl; [by rewrite Ht|].
  rewrite (proj2 (Z.eqb_neq _ _)) by lia. by rewrite IH.
Qed.

Lemma arr_ok_last2 lo k l :
  arr_ok lo (S (S k)) l →
  ∃ pre hi a b t rest, l = pre ++ a :: b :: t :: rest ∧ length pre = k ∧
    chain lo pre hi ∧ arr_ok hi 2 (a :: b :: t :: rest).
Proof.
  revert lo l. induction k as [|k IH]; intros lo l H;
    inversion H as [|? ? e l' ??? Htl1]; subst.
  - inversion Htl1 as [|? ? e' l'' ??? Htl2]; subst. inversion Htl2; subst.
    eexists [], lo, _, _, _, _. split_and!; eauto with kern.
  - destruct (IH _ _ Htl1) as (pre & hi & a & b & t & rest & -> & <- & ? & ?).
    exists (e :: pre), hi, a, b, t, rest. split_and!; eauto with kern.
Qed.

Lemma discard_ok k l :
  arr_ok 0 (S (S k)) l →
  ∃ l' ls le, discard l = Ok (l', (ls, le)) ∧ length l' = length l ∧
    arr_ok 0 (S k) l' ∧ ls < le ∧ takes (free_in l) (free_in l') ls (le - ls).
Proof.
  intros H. unfold discard. rewrite (final_entry_ok _ _ _ H). simpl.
  destruct (arr_ok_last2 _ _ _ H) as (pre & hi & a & b & t & rest & -> & <- & Hc & Ha).
  pose proof (chain_le _ _ _ Hc). rewrite <- (Nat.add_0_r (length pre)), <- Nat.add_succ_r.
  inversion Ha as [|? ? ? ? Ha1 Ha2 Ha3 Hb]; subst.
  inversion Hb as [|? ? ? ? Hb1 Hb2 Hb3 Ht]; subst.
  inversion Ht as [? ? ? Ht0 Hr|]; subst.
  pose proof (λ x, chain_below _ _ _ x Hc) as Hpre.
  pose proof (λ x, free_in_zero rest x Hr) as Hrest.
  rewrite !lookup_app_r by lia. replace (length pre + 1 - length pre)%nat with 1%nat by lia.
  replace (length pre + 0 - length pre)%nat with 0%nat by lia. simpl.
  case_if; rewrite <- ?Nat.add_succ_r, !lookup_app_r by lia;
    replace (length pre + 1 - length pre)%nat with 1%nat by lia;
    replace (length pre + 0 - length pre)%nat with 0%nat by lia;
    replace (length pre + 2 - length pre)%nat with 2%nat by lia;
    simpl; rewrite !insert_app_r; simpl.
  - eexists _, _, _. split; [done|]. rewrite !length_app, add32_small by lia. split_and!.
    + done.
    + eapply (arr_ok_app 0 pre hi 1); [done|].
      constructor; try lia. apply arr_end; [done|]. by constructor.
    + lia.
    + split; intros x; rewrite !free_in_app, !free_in_cons; unfold seg_in; simpl;
        specialize (Hpre x); specialize (Hrest x); [lia|]. intuition lia.
  - eexists _, _, _. split; [done|]. rewrite !length_app, add32_small by lia. split_and!.
    + done.
    + eapply (arr_ok_app 0 pre hi 1); [done|].
      constructor; try lia. apply arr_end; [done|]. by constructor.
    + lia.
    + split; intros x; rewrite !free_in_app, !free_in_cons; unfold seg_in; simpl;
        specialize (Hpre x); specialize (Hrest x); [lia|]. intuition lia.
Qed.

(** ** Whole operations *)

Lemma map_wf_want mp w : map_wf mp → map_wf (set_m_want mp w).
Proof. intros [? ? ? ?]. by constructor. Qed.

Lemma rmalloc_locked_ok mp size :
  map_wf mp → 0 < size < W31 →
  ∃ a mp', rmalloc_locked mp size = Ok (a, mp') ∧ map_wf mp' ∧
    m_want mp' = m_want mp ∧ mh_size mp' = mh_size mp ∧
    ((0 < a ∧ takes (free mp) (free mp') a size ∧
      (0 < m_free mp' ∨ free mp' (a + size))) ∨
     (a = 0 ∧ mp' = mp ∧ ∀ s, ¬ (∀ x, s ≤ x < s + size → free mp x))).
Proof.
  intros Hwf Hs. destruct (wf_arr _ Hwf) as (n & Hn & Hcnt).
  destruct (rmalloc_search_ok 0 n (m_map mp) size) as (a & l & fr & Hr & Hl & (n' & En & Hok) & Hc);
    auto; [lia|]. unfold rmalloc_locked. rewrite Hr. simpl. eexists a, _. split; [done|].
  split_and!; [|done|done|].
  - destruct Hwf. constructor; simpl; eauto; destruct fr; try lia; exists n'; split; auto; lia.
  - destruct Hc as [(-> & -> & -> & Hall)|(Ha & Ht & He)].
    + right. split_and!; [done|by destruct mp|]. intros s Hrun.
      destruct (run_in_segment 0 n (m_map mp) s size) as (e & He & ? & ? & ?); auto; [lia|].
      rewrite Forall_forall in Hall. apply list_elem_of_In in He. specialize (Hall e He). simpl in Hall. lia.
    + left. split_and!; auto. destruct He as [->|]; [left|by right].
      destruct Hwf. simpl. lia.
Qed.

(** The outcome of one pass of [rmfree]. *)
Definition pass_ok (mp : map_head) (size addr : Z) (r : pass_result) : Prop :=
  match r with
  | Done mp' =>
      map_wf mp' ∧ m_want mp' = m_want mp ∧ mh_size mp' = mh_size mp ∧
      gives (free mp) (free mp') addr size
  | Retry mp' (ls, le) =>
      map_wf mp' ∧ m_want mp' = m_want mp ∧ mh_size mp' = mh_size mp ∧
      m_free mp = 0 ∧ m_free mp' = 1 ∧ ¬ free mp (addr - 1) ∧ ¬ free mp (addr + size) ∧
      ls < le ∧ takes (free mp) (free mp') ls (le - ls)
  end.

Lemma rmfree_pass_ok mp size addr :
  map_wf mp → 2 ≤ mh_size mp → 0 < addr → 0 < size < W31 → addr + size < W32 →
  (∀ x, addr ≤ x < addr + size → ¬ free mp x) →
  ∃ r, rmfree_pass mp size addr = Ok r ∧ pass_ok mp size addr r.
Proof.
  intros Hwf H2 Ha Hs Ht Hd. destruct (wf_arr _ Hwf) as (n & Hn & Hcnt).
  destruct (locate_located n (m_map mp) addr Hn) as (pre & b & bp & hi & m & Hloc).
  destruct (located_disjoint _ _ _ _ _ _ _ _ size Hloc Ha ltac:(lia) Hd) as [Hdl Hdr].
  assert (freed_by mp size addr (rmfree_pass mp size addr) →
    ∃ r, rmfree_pass mp size addr = Ok r ∧ pass_ok mp size addr r) as Hfb.
  { intros (mp' & -> & ? & ? & ? & ?). exists (Done mp'). done. }
  destruct (decide (m_size b ≠ 0 ∧ m_addr b = addr + size)) as [[Hb Hab]|Hno];
    destruct (decide (hi = addr)) as [Hhi|Hhi].
  1,3: destruct (unsnoc pre) as [[pre' p]|] eqn:E;
    [apply unsnoc_Some in E|apply unsnoc_None in E as ->; pose proof (loc_pre _ _ _ _ _ _ _ _ Hloc) as Hc;
     inversion Hc; lia];
    pose proof (loc_pre _ _ _ _ _ _ _ _ Hloc) as Hc; rewrite E in Hc;
    apply chain_snoc in Hc as (h & ? & ? & ? & ? & ?); apply Hfb.
  - eapply rmfree_pass_both; eauto. lia.
  - eapply rmfree_pass_left; eauto. lia.
  - apply Hfb. by eapply rmfree_pass_right.
  - destruct (decide (m_free mp = 0)) as [Hz|Hz]; [|apply Hfb; by eapply rmfree_pass_insert].
    erewrite pass_not_left by eauto.
    assert ((m_addr b <=? addr + size) && negb (m_size b =? 0) = false) as ->.
    { destruct (decide (m_size b = 0)) as [E|E]; [rewrite (proj2 (Z.eqb_eq _ _) E); apply andb_false_r|].
      specialize (Hdr E). assert (m_addr b ≠ addr + size) by tauto. by eval_cmp. }
    destruct n as [|[|k]]; [lia|lia|].
    destruct (discard_ok k (m_map mp) Hn) as (l' & ls & le & Hdi & Hl' & Hok' & Hlt & Htk).
    rewrite Hz, Hdi. simpl. eexists. split; [done|]. simpl. split_and!; try done.
    1: apply map_wf_update with (n := S k); auto; lia.
    all: eapply (located_apart _ _ _ _ _ _ _ _ size Hloc); [lia|lia|done|done|lia].
Qed.

Lemma rmfree_pass_detects mp size addr x :
  map_wf mp → 0 < addr → 0 < size < W31 → addr + size < W32 →
  addr ≤ x < addr + size → free mp x → rmfree_pass mp size addr = bad_rmfree.
Proof.
  intros Hwf Ha Hs Ht Hx Hf. destruct (wf_arr _ Hwf) as (n & Hn & Hcnt).
  destruct (locate_located n (m_map mp) addr Hn) as (pre & b & bp & hi & m & Hloc).
  eapply rmfree_pass_overlap; eauto.
  eapply located_overlap; [done|lia|eauto].
Qed.

Lemma size_check size addr :
  0 < addr → 0 < size < W31 → (addr =? 0) || (s32 size <=? 0) = false.
Proof.
  intros. rewrite (proj2 (Z.eqb_neq addr 0)) by lia. simpl. apply Z.leb_gt.
  rewrite s32_small; unfold_words; lia.
Qed.

(** [rmfree] on a range that is not free: it returns, the range becomes free, and
    at most one segment is lost, only when the map has no slot left. *)
Definition rmfree_post (mp : map_head) (size addr : Z) (r : rmfree_result) : Prop :=
  map_wf (rf_map r) ∧ mh_size (rf_map r) = mh_size mp ∧
  rf_broadcast r = negb (m_want mp =? 0) ∧ m_want (rf_map r) = 0 ∧
  ((rf_lost r = [] ∧ gives (free mp) (free (rf_map r)) addr size) ∨
   (m_free mp = 0 ∧ ¬ free mp (addr - 1) ∧ ¬ free mp (addr + size) ∧
    ∃ ls le mid, rf_lost r = [(ls, le)] ∧ ls < le ∧
      takes (free mp) mid ls (le - ls) ∧ gives mid (free (rf_map r)) addr size)).

Lemma rmfree_ok mp size addr :
  map_wf mp → 2 ≤ mh_size mp → 0 < addr → 0 < size < W31 → addr + size < W32 →
  (∀ x, addr ≤ x < addr + size → ¬ free mp x) →
  ∃ r, rmfree mp size addr = Ok r ∧ rmfree_post mp size addr r.
Proof.
  intros Hwf H2 Ha Hs Ht Hd. unfold rmfree. rewrite size_check by done.
  destruct (rmfree_pass_ok mp size addr) as (r & Hr & Hok); auto.
  unfold rmfree_loop. rewrite Hr. simpl.
  assert (Hfin : ∀ mp' lost, map_wf mp' → m_want mp' = m_want mp → mh_size mp' = mh_size mp →
    ((lost = [] ∧ gives (free mp) (free mp') addr size) ∨
     (m_free mp = 0 ∧ ¬ free mp (addr - 1) ∧ ¬ free mp (addr + size) ∧
      ∃ ls le mid, lost = [(ls, le)] ∧ ls < le ∧
      takes (free mp) mid ls (le - ls) ∧ gives mid (free mp') addr size)) →
    ∃ r, (if m_want mp' =? 0 then Ok (RmfreeResult mp' lost false)
          else Ok (RmfreeResult (set_m_want mp' 0) lost true)) = Ok r ∧
         rmfree_post mp size addr r).
  { intros mp' lost Hwf' Hw Hsz Hc. unfold rmfree_post. rewrite Hw.
    destruct (m_want mp =? 0) eqn:E; prop_bool; eexists; (split; [done|]); simpl;
      split_and!; auto; try lia; by apply map_wf_want. }
  destruct r as [mp'|mp' [ls le]]; simpl in Hok; destruct_and!; [apply Hfin; auto|].
  destruct (rmfree_pass_ok mp' size addr) as (r2 & Hr2 & Hok2); auto; [lia| |].
  { intros x Hx Hf. match goal with H : takes _ _ _ _ |- _ => apply H in Hf as [Hf _] end.
    by apply (Hd x). }
  rewrite Hr2. destruct r2 as [mp''|mp'' [ls' le']]; simpl in Hok2; destruct_and!; [|lia].
  simpl. apply Hfin; auto; [congruence|congruence|]. right. split_and!; auto. eauto 10.
Qed.

Lemma rmget_find_ok lo n l addr :
  arr_ok lo n l → 0 ≤ lo →
  ∃ pre b bp hi m, rmget_find addr l = Ok (pre, b :: bp) ∧ l = pre ++ b :: bp ∧
    chain lo pre hi ∧ arr_ok hi m (b :: bp) ∧ n = (length pre + m)%nat ∧
    ((m_size b = 0 ∧ ¬ free_in l addr) ∨ (m_size b ≠ 0 ∧ seg_in b addr)).
Proof.
  induction 1 as [lo t rest Ht Hr|lo n e l H1 H2 H3 Hok IH]; simpl; intros Hlo.
  - rewrite Ht. exists [], t, rest, lo, 0%nat. split_and!; auto with kern.
    left. split; [done|]. apply free_in_zero. by constructor.
  - rewrite add32_small by lia. rewrite (proj2 (Z.eqb_neq _ _)) by lia. case_if.
    + exists [], e, l, lo, (S n). split_and!; auto with kern.
      right. unfold seg_in. lia.
    + destruct IH as (pre & b & bp & hi & m & Hf & -> & ? & ? & -> & Hc); [lia|].
      rewrite Hf. simpl. exists (e :: pre), b, bp, hi, m. split_and!; auto with kern.
      destruct Hc as [[? Hn]|?]; [left|by right]. split; [done|].
      rewrite free_in_cons. unfold seg_in. intros [|]; [|done].
      match goal with H : (_ && _) = false |- _ => apply andb_false_iff in H as [?|?] end;
        prop_bool; lia.
Qed.

(** The outcome of [rmget]. *)
Definition rmget_post (mp : map_head) (size addr a : Z) (mp' : map_head) : Prop :=
  map_wf mp' ∧ m_want mp' = m_want mp ∧ mh_size mp' = mh_size mp ∧
  ((a = addr ∧ 0 < addr ∧ takes (free mp) (free mp') addr size) ∨
   (a = 0 ∧ mp' = mp ∧
    ((∃ x, addr ≤ x < addr + size ∧ ¬ free mp x) ∨
     (m_free mp = 0 ∧ free mp (addr - 1) ∧ free mp (addr + size))))).

(** Replacing the array from the segment that contains [addr] on. *)
Lemma rmget_replace mp size addr pre b bp hi m l' m' :
  map_wf mp → m_map mp = pre ++ b :: bp → chain 0 pre hi → arr_ok hi m (b :: bp) →
  hi < addr → length l' = length (b :: bp) → arr_ok hi m' l' →
  0 ≤ m_free mp + Z.of_nat m - Z.of_nat m' →
  takes (free_in (b :: bp)) (free_in l') addr size →
  rmget_post mp size addr addr
    (set_m_free (set_m_map mp (pre ++ l')) (m_free mp + Z.of_nat m - Z.of_nat m')).
Proof.
  intros Hwf Heq Hc Ha Hhi Hl Ha' Hf [Ht1 Ht2]. pose proof (chain_le _ _ _ Hc).
  assert (Harr : arr_ok 0 (length pre + m) (m_map mp)) by (rewrite Heq; by eapply arr_ok_app).
  destruct (map_wf_count _ _ Hwf Harr) as [Hcnt _]. unfold rmget_post. split_and!; try done.
  - eapply (map_wf_update _ _ (length pre + m')%nat); [done|by eapply arr_ok_app|lia|lia|].
    by rewrite Heq, !length_app, Hl.
  - left. split_and!; [done|lia|]. unfold free. simpl. rewrite Heq. split; intros x.
    + intros Hx. rewrite free_in_app. right. auto.
    + rewrite !free_in_app, Ht2. specialize (Ht1 x).
      assert (free_in pre x → ¬ addr ≤ x < addr + size).
      { intros Hp. apply (chain_below _ _ _ _ Hc) in Hp. lia. } tauto.
Qed.

Section get.
Context (mp : map_head) (size addr : Z) (pre : list mapent) (b : mapent)
  (bp : list mapent) (hi : Z) (k : nat).
Context (Hwf : map_wf mp) (Hs : 0 < size < W31) (Ht : addr + size < W32).
Context (Hrun : rmget_find addr (m_map mp) = Ok (pre, b :: bp)).
Context (Heq : m_map mp = pre ++ b :: bp) (Hc : chain 0 pre hi).
Context (Hlo : hi < m_addr b) (Hpos : 0 < m_size b) (Htop : m_addr b + m_size b < W32).
Context (Hk : arr_ok (m_addr b + m_size b) k bp) (Hseg : seg_in b addr).

Local Lemma get_arr : arr_ok hi (S k) (b :: bp).
Proof using Hlo Hpos Htop Hk. by constructor. Qed.

Local Lemma get_above x : free_in bp x → m_addr b + m_size b < x.
Proof using Hk. by apply (arr_ok_above _ k). Qed.

Local Lemma get_hi : 0 ≤ hi.
Proof using Hc. by apply chain_le in Hc. Qed.

Local Lemma get_in x : free mp x ↔ free_in pre x ∨ seg_in b x ∨ free_in bp x.
Proof using Heq. unfold free. by rewrite Heq, free_in_app, free_in_cons. Qed.

Local Lemma get_test : (s32 size <=? 0) = false.
Proof using Hs. apply Z.leb_gt. rewrite s32_small; unfold_words; lia. Qed.

(** The first element of the segment that [size] does not fit in is not free. *)
Lemma rmget_too_small :
  m_addr b + m_size b < addr + size → rmget_post mp size addr 0 mp.
Proof using All.
  intros Hlt. unfold rmget_post. split_and!; try done. right. split_and!; try done.
  left. exists (m_addr b + m_size b). unfold seg_in in Hseg. split; [lia|]. rewrite get_in.
  unfold seg_in. intros [Hf|[|Hf]]; [|lia|].
  - apply (chain_below _ _ _ _ Hc) in Hf. lia.
  - apply get_above in Hf. lia.
Qed.

(** The segment [b] is replaced by [l'], the rest of the array moving as needed. *)
Local Lemma get_replace l' m' :
  length l' = S (length bp) → arr_ok hi m' l' →
  0 ≤ m_free mp + Z.of_nat (S k) - Z.of_nat m' →
  addr + size ≤ m_addr b + m_size b →
  (∀ x, free_in l' x ↔ (seg_in b x ∧ ¬ addr ≤ x < addr + size) ∨ free_in bp x) →
  rmget_post mp size addr addr
    (set_m_free (set_m_map mp (pre ++ l')) (m_free mp + Z.of_nat (S k) - Z.of_nat m')).
Proof using All.
  intros Hl Hok Hf Hfit Hfr. unfold seg_in in *.
  eapply rmget_replace; eauto; [by apply get_arr|lia|].
  split; intros x; rewrite ?Hfr, free_in_cons; unfold seg_in; [lia|].
  pose proof (get_above x). intuition lia.
Qed.

Lemma rmget_exact :
  addr = m_addr b → size = m_size b →
  ∃ l, compress_while (b :: bp) = Ok l ∧
    rmget_post mp size addr addr (set_m_free (set_m_map mp (pre ++ l)) (m_free mp + 1)).
Proof using All.
  intros Ea Es. destruct (compress_while_ok _ _ b _ ltac:(lia) Hk)
    as (l' & Hcw & Hl' & Hok' & Hf'). exists l'. split; [done|].
  replace (m_free mp + 1) with (m_free mp + Z.of_nat (S k) - Z.of_nat k) by lia.
  apply get_replace; try lia; [eapply arr_ok_weaken; [done|lia]|destruct Hwf; lia|].
  intros x. rewrite Hf'. unfold seg_in. intuition lia.
Qed.

(** The two cases in which one segment remains. *)
Lemma rmget_shrink e :
  addr + size ≤ m_addr b + m_size b → hi < m_addr e → 0 < m_size e →
  m_addr e + m_size e ≤ m_addr b + m_size b →
  (∀ x, seg_in e x ↔ seg_in b x ∧ ¬ addr ≤ x < addr + size) →
  rmget_post mp size addr addr (set_m_map mp (pre ++ e :: bp)).
Proof using All.
  intros Hfit H1 H2 H3 He. pose proof (get_replace (e :: bp) (S k)) as Hrep.
  rewrite Z.add_simpl_r in Hrep. apply Hrep; auto.
  - constructor; try lia. eapply arr_ok_weaken; [done|lia].
  - destruct Hwf. lia.
  - intros x. by rewrite free_in_cons, He.
Qed.

(** An allocation from the middle splits the segment in two. *)
Lemma rmget_middle :
  m_addr b < addr → addr + size < m_addr b + m_size b → m_free mp ≠ 0 →
  ∃ l, open_slot (MapEnt (m_addr b + m_size b - (addr + size)) (addr + size)) bp = Ok l ∧
    rmget_post mp size addr addr
      (set_m_free (set_m_map mp (pre ++ MapEnt (addr - m_addr b) (m_addr b) :: l))
         (m_free mp - 1)).
Proof using All.
  intros H1 H2 H3.
  assert (Harr : arr_ok 0 (length pre + S k) (m_map mp))
    by (rewrite Heq; eapply arr_ok_app; [done|apply get_arr]).
  destruct (map_wf_count _ _ Hwf Harr) as [_ Hlen].
  rewrite Heq, length_app in Hlen. simpl in Hlen.
  destruct (open_slot_ok addr k bp
    (MapEnt (m_addr b + m_size b - (addr + size)) (addr + size)))
    as (l & Hrl & Hl & Hok & Hf); cbn [m_size m_addr]; try lia.
  { eapply arr_ok_weaken; [done|lia]. }
  exists l. split; [done|].
  replace (m_free mp - 1) with (m_free mp + Z.of_nat (S k) - Z.of_nat (S (S k))) by lia.
  apply get_replace; simpl; try lia.
  - constructor; simpl; try lia. eapply arr_ok_weaken; [done|lia].
  - destruct Hwf. lia.
  - intros x. rewrite free_in_cons, Hf. unfold seg_in. simpl. intuition lia.
Qed.
End get.

Lemma rmget_ok mp size addr :
  map_wf mp → 0 < size < W31 → 0 ≤ addr → addr + size < W32 →
  ∃ a mp', rmget mp size addr = Ok (a, mp') ∧ rmget_post mp size addr a mp'.
Proof.
  intros Hwf Hs Ha0 Ht. destruct (wf_arr _ Hwf) as (n & Hn & Hcnt).
  destruct (rmget_find_ok 0 n (m_map mp) addr Hn ltac:(lia))
    as (pre & b & bp & hi & m & Hrun & Heq & Hc & Ha & -> & Hcase).
  pose proof (chain_le _ _ _ Hc). unfold rmget. rewrite (get_test size) by done. rewrite Hrun.
  cbn -[compress_while open_slot].
  assert (Hret : ∀ a mp', rmget_post mp size addr a mp' →
    ∃ a' mp'', Ok (a, mp') = Ok (a', mp'') ∧ rmget_post mp size addr a' mp'') by eauto.
  destruct Hcase as [[Hb Hnf]|[Hb Hseg]].
  { rewrite Hb. apply Hret. unfold rmget_post. split_and!; try done. right.
    split_and!; try done. left. exists addr. split; [lia|done]. }
  destruct (arr_ok_inv_seg _ _ _ _ Ha Hb) as (k & -> & ? & ? & ? & Hk).
  assert (m_addr b ≤ addr < m_addr b + m_size b) by done.
  rewrite !add32_small by lia. rewrite (proj2 (Z.eqb_neq _ _) Hb).
  case_if; [apply Hret; eapply rmget_too_small; eauto|].
  unfold sub32. rewrite !u32_small by (unfold is_u32; lia).
  case_if; [case_if|case_if; [|case_if]].
  - destruct (rmget_exact mp size addr pre b bp hi k) as (l & Hl & Hpost); auto.
    rewrite Hl. by apply Hret.
  - apply Hret. eapply rmget_shrink; eauto; simpl; try lia. unfold seg_in. simpl. lia.
  - apply Hret. eapply rmget_shrink; eauto; simpl; try lia. unfold seg_in. simpl. lia.
  - apply Hret. unfold rmget_post. split_and!; try done. right. split_and!; try done. right.
    split; [done|]. split; eapply get_in; eauto; right; left; unfold seg_in; lia.
  - destruct (rmget_middle mp size addr pre b bp hi k) as (l & Hl & Hpost); auto; try lia.
    rewrite Hl. by apply Hret.
Qed.

(** ** Threads sharing a map

    [rmalloc_wait] sleeps on [map_cv] until some [rmfree] broadcasts; [rmfree]
    drops the lock between a discarding pass and the next one.  A step is one
    stretch of code that runs with [maplock] held. *)

(** What a thread is doing: in [rmalloc] or [rmalloc_wait] and about to call
    [rmalloc_locked]; asleep in [cv_wait]; owner of an allocated range (also
    while it is inside [rmfree], between two passes). *)
Inductive tstate :=
  | Trying (size : Z)
  | Asleep (size : Z)
  | Holds (addr size : Z).

Record rm_sys := RmSys { sys_map : map_head; sys_thr : gmap nat tstate }.

(** [cv_broadcast] makes every sleeper runnable: it goes round the loop of
    [rmalloc_wait] again. *)
Definition wake (t : tstate) : tstate :=
  match t with
  | Asleep size => Trying size
  | _ => t
  end.

(** The [done] label of [rmfree]. *)
Definition finish_free (t : nat) (mp : map_head) (ts : gmap nat tstate) : rm_sys :=
  if m_want mp =? 0 then RmSys mp (delete t ts)
  else RmSys (set_m_want mp 0) (delete t (wake <$> ts)).

Inductive rm_step : rm_sys → rm_sys → Prop :=
  | step_call mp ts t size :
      ts !! t = None → 0 < size < W31 →
      rm_step (RmSys mp ts) (RmSys mp (<[t := Trying size]> ts))
  | step_got mp ts t size a mp' :
      ts !! t = Some (Trying size) → rmalloc_locked mp size = Ok (a, mp') → a ≠ 0 →
      rm_step (RmSys mp ts) (RmSys mp' (<[t := Holds a size]> ts))
  | step_sleep mp ts t size mp' :
      ts !! t = Some (Trying size) → rmalloc_locked mp size = Ok (0, mp') →
      rm_step (RmSys mp ts) (RmSys (set_m_want mp' 1) (<[t := Asleep size]> ts))
  | step_get mp ts t size addr a mp' :
      ts !! t = None → 0 < size < W31 → 0 ≤ addr → addr + size < W32 →
      rmget mp size addr = Ok (a, mp') → a ≠ 0 →
      rm_step (RmSys mp ts) (RmSys mp' (<[t := Holds a size]> ts))
  | step_retry mp ts t a size mp' lost :
      ts !! t = Some (Holds a size) → rmfree_pass mp size a = Ok (Retry mp' lost) →
      rm_step (RmSys mp ts) (RmSys mp' ts)
  | step_free mp ts t a size mp' :
      ts !! t = Some (Holds a size) → rmfree_pass mp size a = Ok (Done mp') →
      rm_step (RmSys mp ts) (finish_free t mp' ts).

Definition range_ok (mp : map_head) (a size : Z) : Prop :=
  0 < a ∧ 0 < size < W31 ∧ a + size < W32 ∧ ∀ x, a ≤ x < a + size → ¬ free mp x.

Record rm_inv (s : rm_sys) : Prop := RmInv {
  inv_wf : map_wf (sys_map s);
  inv_cap : 2 ≤ mh_size (sys_map s);
  inv_try : ∀ t size, sys_thr s !! t = Some (Trying size) → 0 < size < W31;
  inv_sleep : ∀ t size, sys_thr s !! t = Some (Asleep size) →
    0 < size < W31 ∧ m_want (sys_map s) = 1;
  inv_holds : ∀ t a size, sys_thr s !! t = Some (Holds a size) → range_ok (sys_map s) a size;
  inv_excl : ∀ t1 t2 a1 s1 a2 s2, t1 ≠ t2 →
    sys_thr s !! t1 = Some (Holds a1 s1) → sys_thr s !! t2 = Some (Holds a2 s2) →
    a1 + s1 ≤ a2 ∨ a2 + s2 ≤ a1
}.

Lemma arr_ok_top lo n l x : arr_ok lo n l → free_in l x → x + 1 < W32.
Proof.
  induction 1 as [lo t rest Ht Hr|lo n e l ???? IH]; intros Hf.
  - exfalso. apply (free_in_zero (t :: rest) x); [by constructor|done].
  - apply free_in_cons in Hf as [Hf|Hf]; [unfold seg_in in Hf; lia|auto].
Qed.

Lemma takes_range mp mp' a size :
  map_wf mp → 0 < size < W31 → takes (free mp) (free mp') a size → range_ok mp' a size.
Proof.
  intros Hwf Hs [H1 H2]. destruct (wf_arr _ Hwf) as (n & Hn & _). split_and!; [|lia|lia| |].
  - apply (arr_ok_above _ _ _ _ Hn). apply H1. lia.
  - assert (free mp (a + size - 1)) as Hl by (apply H1; lia).
    apply (arr_ok_top _ _ _ _ Hn) in Hl. lia.
  - intros x Hx Hf. apply H2 in Hf as [_ Hf]. auto.
Qed.

(** Ranges already handed out stay outside the free set of a smaller map. *)
Lemma range_ok_mono mp mp' a size :
  (∀ x, free mp' x → free mp x) → range_ok mp a size → range_ok mp' a size.
Proof. intros Hm (? & ? & ? & Hd). split_and!; try lia. intros x Hx Hf. by apply (Hd x); auto. Qed.

(** A new range taken from the free set avoids every range already handed out. *)
Lemma range_ok_disjoint mp mp' a size b k :
  0 < size → takes (free mp) (free mp') a size → range_ok mp b k →
  a + size ≤ b ∨ b + k ≤ a.
Proof.
  intros Hs [H1 _] (? & ? & ? & Hd).
  destruct (decide (a + size ≤ b)); [by left|]. destruct (decide (b + k ≤ a)); [by right|].
  exfalso. apply (Hd (Z.max a b)); [lia|]. apply H1. lia.
Qed.

Ltac thread_cases :=
  repeat match goal with
  | H : <[?t := _]> _ !! ?t' = Some _ |- _ =>
      apply lookup_insert_Some in H as [[??]|[??]]; simplify_eq
  | H : delete ?t _ !! ?t' = Some _ |- _ => apply lookup_delete_Some in H as [??]
  end.

(** A step that hands a range to thread [t]. *)
Lemma rm_inv_take mp mp' ts t a size :
  rm_inv (RmSys mp ts) → map_wf mp' → m_want mp' = m_want mp → mh_size mp' = mh_size mp →
  0 < size < W31 → takes (free mp) (free mp') a size → (∀ b k, ts !! t ≠ Some (Holds b k)) →
  rm_inv (RmSys mp' (<[t := Holds a size]> ts)).
Proof.
  intros [Hwf Hcap Htry Hsl Hh Hex] Hwf' Hw Hsz Hs Ht Hnot. simpl in *.
  assert (Hmono : ∀ x, free mp' x → free mp x) by (intros x Hx; apply Ht in Hx; tauto).
  constructor; simpl; auto; try lia.
  - intros t' sz H. thread_cases. eauto.
  - intros t' sz H. thread_cases. rewrite Hw. eauto.
  - intros t' b k H. thread_cases; [by apply (takes_range mp)|]. apply (range_ok_mono mp); eauto.
  - intros t1 t2 a1 s1 a2 s2 Hne H1 H2. thread_cases; eauto.
    + apply or_comm. eapply (range_ok_disjoint mp mp'); [|exact Ht|eauto]; lia.
    + eapply (range_ok_disjoint mp mp'); [|exact Ht|eauto]; lia.
Qed.

(** A pass that succeeds found its range disjoint from the free set. *)
Lemma pass_ok_of mp size a r :
  map_wf mp → 2 ≤ mh_size mp → range_ok mp a size → rmfree_pass mp size a = Ok r →
  pass_ok mp size a r.
Proof.
  intros Hwf Hc (? & ? & ? & Hd) Hr.
  destruct (rmfree_pass_ok mp size a) as (r' & Hr' & Hok); auto. by simpl_ok.
Qed.

Lemma rm_inv_retry mp ts t a size mp' lost :
  rm_inv (RmSys mp ts) → ts !! t = Some (Holds a size) →
  rmfree_pass mp size a = Ok (Retry mp' lost) → rm_inv (RmSys mp' ts).
Proof.
  intros [Hwf Hcap Htry Hsl Hh Hex] Ht Hr. simpl in *.
  apply (pass_ok_of mp size a) in Hr; eauto. destruct lost as [ls le]. simpl in Hr.
  destruct Hr as (Hwf' & Hw & Hsz & _ & _ & _ & _ & _ & Htk).
  constructor; simpl; auto; try lia.
  - intros t' sz H. rewrite Hw. eauto.
  - intros t' b k H. apply (range_ok_mono mp); eauto. intros x Hx. by apply (proj2 Htk) in Hx as [? _].
Qed.

Lemma rm_inv_done mp ts t a size mp' :
  rm_inv (RmSys mp ts) → ts !! t = Some (Holds a size) →
  rmfree_pass mp size a = Ok (Done mp') → rm_inv (finish_free t mp' ts).
Proof.
  intros [Hwf Hcap Htry Hsl Hh Hex] Ht Hr. simpl in *.
  apply (pass_ok_of mp size a) in Hr; eauto. destruct Hr as (Hwf' & Hw & Hsz & Hg).
  assert (Hkeep : ∀ t' b k, t ≠ t' → ts !! t' = Some (Holds b k) → range_ok mp' b k).
  { intros t' b k Hne H. pose proof (Hh _ _ _ H) as (? & ? & ? & Hd).
    split_and!; try lia. intros x Hx Hf. apply Hg in Hf as [Hf|Hf]; [by apply (Hd x)|].
    destruct (Hex t t' _ _ _ _ Hne Ht H); lia. }
  unfold finish_free. case_if; constructor; simpl; auto using map_wf_want; try lia.
  - intros t' sz H. thread_cases. eauto.
  - intros t' sz H. thread_cases. rewrite Hw. eauto.
  - intros t' b k H. thread_cases. eauto.
  - intros t1 t2 a1 s1 a2 s2 Hne H1 H2. thread_cases. eauto.
  - intros t' sz H. thread_cases. rewrite lookup_fmap_Some in H0. destruct H0 as ([] & ? & ?);
      simplify_eq/=; eauto. by eapply Hsl.
  - intros t' sz H. thread_cases. rewrite lookup_fmap_Some in H0. by destruct H0 as ([] & ? & ?).
  - intros t' b k H. thread_cases. rewrite lookup_fmap_Some in H0.
    destruct H0 as ([] & ? & ?); simplify_eq/=. by eapply Hkeep.
  - intros t1 t2 a1 s1 a2 s2 Hne H1 H2. thread_cases. rewrite !lookup_fmap_Some in *.
    destruct H0 as ([] & ? & ?), H2 as ([] & ? & ?); simplify_eq/=. eauto.
Qed.

Lemma rm_step_inv s s' : rm_step s s' → rm_inv s → rm_inv s'.
Proof.
  intros Hstep Hinv. pose proof Hinv as [Hwf Hcap Htry Hsl Hh Hex].
  destruct Hstep as [mp ts t size Hn Hs|mp ts t size a mp' Ht Hr Ha|mp ts t size mp' Ht Hr
    |mp ts t size addr a mp' Hn Hs H0 Htop Hr Ha|mp ts t a size mp' lost Ht Hr
    |mp ts t a size mp' Ht Hr]; simpl in *.
  - constructor; simpl; auto; intros; thread_cases; eauto.
  - destruct (rmalloc_locked_ok mp size) as (a' & mp'' & Hr' & ? & ? & ? & Hc); eauto.
    simpl_ok. destruct Hc as [(? & ? & _)|(? & _)]; [|done].
    eapply rm_inv_take; eauto. intros b k. by rewrite Ht.
  - destruct (rmalloc_locked_ok mp size) as (a' & mp'' & Hr' & ? & ? & ? & Hc); eauto.
    simpl_ok. destruct Hc as [[? ?]|(_ & -> & _)]; [lia|].
    constructor; simpl; auto using map_wf_want; intros; thread_cases; eauto.
    split; [by eapply Hsl|done].
  - destruct (rmget_ok mp size addr) as (a' & mp'' & Hr' & ? & ? & ? & Hc); auto.
    simpl_ok. destruct Hc as [(-> & ? & ?)|(? & _)]; [|done].
    eapply rm_inv_take; eauto. intros b k. by rewrite Hn.
  - by eapply rm_inv_retry.
  - by eapply rm_inv_done.
Qed.

Lemma rm_reachable_inv mp s :
  map_wf mp → 2 ≤ mh_size mp → rtc rm_step (RmSys mp ∅) s → rm_inv s.
Proof.
  intros Hwf Hc. apply (rtc_ind_r (λ s, rm_inv s)); [|eauto using rm_step_inv].
  constructor; simpl; auto; intros; simplify_map_eq.
Qed.

(** ** An executable check of the invariant *)

Fixpoint arr_count (lo : Z) (l : list mapent) : option nat :=
  match l with
  | [] => None
  | e :: l' =>
    if m_size e =? 0 then
      if forallb (λ e, m_size e =? 0) l' then Some 0%nat else None
    else if (lo <? m_addr e) && (0 <? m_size e) && (m_addr e + m_size e <? W32) then
      S <$> arr_count (m_addr e + m_size e) l'
    else None
  end.

Definition map_wfb (mp : map_head) : bool :=
  match arr_count 0 (m_map mp) with
  | Some n => (Z.of_nat n + m_free mp =? mh_size mp) && (0 <=? m_free mp) &&
              (1 <=? mh_size mp) && (Z.of_nat (length (m_map mp)) =? mh_size mp + 2)
  | None => false
  end.

Lemma arr_count_ok lo l n : arr_count lo l = Some n → arr_ok lo n l.
Proof.
  revert lo n. induction l as [|e l IH]; simpl; intros lo n H; [done|].
  case_if_in H; [case_if_in H; simplify_eq|case_if_in H; [|done]].
  - constructor; [done|]. apply Forall_forall. intros x Hx.
    match goal with H : forallb _ _ = true |- _ => apply (proj1 (forallb_forall _ _) H) in Hx end.
    by prop_bool.
  - apply fmap_Some in H as (k & Hk & ->). constructor; auto.
Qed.

Lemma map_wfb_sound mp : map_wfb mp = true → map_wf mp.
Proof.
  unfold map_wfb. destruct (arr_count 0 (m_map mp)) as [n|] eqn:E; [|done].
  intros H. prop_bool. constructor; auto. exists n. split; [|done]. by apply arr_count_ok.
Qed.

(** Membership in the free set of a concrete map, by cases on its segments. *)
Ltac free_cases :=
  unfold free, free_in, seg_in in *; simpl in *;
  repeat match goal with
  | H : Exists _ (_ :: _) |- _ => apply Exists_cons in H as [H|H]; simpl in H
  | H : Exists _ [] |- _ => by apply Exists_nil in H
  end; try lia.

(** ** Properties *)

Definition ex_map : map_head :=
  MapHead 1 0 "example" 3
    [MapEnt 10 100; MapEnt 5 200; MapEnt 0 0; MapEnt 0 0; MapEnt 0 0].

Definition ex_full : map_head :=
  MapHead 0 1 "example" 2 [MapEnt 10 100; MapEnt 5 200; MapEnt 0 0; MapEnt 0 0].

(** C2: first-fit allocation refines the set-of-units specification.  On a
    well-formed map and a positive [ssize_t] request, [rmalloc] returns (it
    stays inside the array and does not panic), keeps the map well formed, and
    either hands out a range of free units, which is exactly what leaves the
    free set, or returns 0 with the map unchanged, in which case no run of
    [size] consecutive free units exists anywhere. *)
Theorem rmalloc_refines mp size :
  map_wf mp → 0 < size < W31 →
  ∃ a mp', rmalloc mp size = Ok (a, mp') ∧ map_wf mp' ∧
    ((a ≠ 0 ∧ takes (free mp) (free mp') a size) ∨
     (a = 0 ∧ mp' = mp ∧ ∀ s, ¬ (∀ x, s ≤ x < s + size → free mp x))).
Proof.
  intros Hwf Hs. destruct (rmalloc_locked_ok mp size Hwf Hs) as (a & mp' & H & ? & _ & _ & Hc).
  exists a, mp'. split_and!; auto. destruct Hc as [(? & ? & _)|?]; [left|by right]. split; [lia|done].
Qed.

Lemma rmalloc_refines_witness :
  map_wf ex_map ∧ rmalloc ex_map 10 =
    Ok (100, MapHead 2 0 "example" 3
      [MapEnt 5 200; MapEnt 0 0; MapEnt 0 0; MapEnt 0 0; MapEnt 0 0]) ∧
  ∃ a mp', rmalloc ex_map 12 = Ok (a, mp') ∧ map_wf mp' ∧
    ((a ≠ 0 ∧ takes (free ex_map) (free mp') a 12) ∨
     (a = 0 ∧ mp' = ex_map ∧ ∀ s, ¬ (∀ x, s ≤ x < s + 12 → free ex_map x))).
Proof.
  split; [by apply map_wfb_sound|]. split; [reflexivity|].
  apply (rmalloc_refines ex_map 12); [by apply map_wfb_sound|unfold W31; lia].
Defined.

(** C3: [rmfree] refines set union.  Returning a range that is not free to a
    well-formed map with at least two slots succeeds within two passes, keeps
    the map well formed, adds exactly the range to the free set, wakes the
    waiters exactly when [m_want] was set and clears [m_want].  Only when no slot
    is left and the range abuts no segment is one whole segment lost first, and
    that is the range the warning reports. *)
Theorem rmfree_refines mp size addr :
  map_wf mp → 2 ≤ mh_size mp → 0 < addr → 0 < size < W31 → addr + size < W32 →
  (∀ x, addr ≤ x < addr + size → ¬ free mp x) →
  ∃ r, rmfree mp size addr = Ok r ∧ rmfree_post mp size addr r.
Proof. apply rmfree_ok. Qed.

Lemma rmfree_refines_witness :
  (∃ r, rmfree ex_full 8 150 = Ok r ∧ rf_lost r = [(200, 205)] ∧ rf_broadcast r = true) ∧
  ∃ r, rmfree ex_full 8 150 = Ok r ∧ rmfree_post ex_full 8 150 r.
Proof.
  split; [by eexists|].
  apply (rmfree_refines ex_full 8 150); simpl; unfold W31, W32; try lia.
  - by apply map_wfb_sound.
  - intros x Hx Hf. free_cases.
Defined.

(** a double free is always caught.  If any unit of the range is already
    free, [rmfree] panics with "bad rmfree". *)
Theorem rmfree_detects_overlap mp size addr x :
  map_wf mp → 0 < addr → 0 < size < W31 → addr + size < W32 →
  addr ≤ x < addr + size → free mp x → rmfree mp size addr = Panic "bad rmfree".
Proof.
  intros Hwf Ha Hs Ht Hx Hf. unfold rmfree. rewrite size_check by done. simpl.
  by rewrite (rmfree_pass_detects mp size addr x).
Qed.

Lemma rmfree_detects_overlap_witness : rmfree ex_map 20 190 = Panic "bad rmfree".
Proof.
  apply (rmfree_detects_overlap ex_map 20 190 202); unfold W31, W32; try lia.
  - by apply map_wfb_sound.
  - unfold free. simpl. right. left. unfold seg_in. simpl. lia.
Defined.

(** [rmget] takes exactly the requested range or fails without touching the
    map, and it fails only when part of the range is not free, or when the range
    is strictly inside a segment and no slot is left for the split. *)
Theorem rmget_refines mp size addr :
  map_wf mp → 0 < size < W31 → 0 ≤ addr → addr + size < W32 →
  ∃ a mp', rmget mp size addr = Ok (a, mp') ∧ rmget_post mp size addr a mp'.
Proof. apply rmget_ok. Qed.

Lemma rmget_refines_witness :
  rmget ex_map 2 104 = Ok (104, MapHead 0 0 "example" 3
    [MapEnt 4 100; MapEnt 4 106; MapEnt 5 200; MapEnt 0 0; MapEnt 0 0]) ∧
  ∃ a mp', rmget ex_map 2 104 = Ok (a, mp') ∧ rmget_post ex_map 2 104 a mp'.
Proof.
  split; [reflexivity|].
  apply (rmget_refines ex_map 2 104); [by apply map_wfb_sound|unfold W31; lia|lia|unfold W32; lia].
Defined.

(** freeing what was just allocated restores the free set, and never loses a
    segment: [rmalloc] followed by [rmfree] of the same range is the identity on
    the abstract state. *)
Theorem rmalloc_rmfree_roundtrip mp size a mp' :
  map_wf mp → 2 ≤ mh_size mp → 0 < size < W31 → rmalloc mp size = Ok (a, mp') → a ≠ 0 →
  ∃ r, rmfree mp' size a = Ok r ∧ map_wf (rf_map r) ∧ rf_lost r = [] ∧
       ∀ x, free (rf_map r) x ↔ free mp x.
Proof.
  intros Hwf Hc Hs Hr Ha. destruct (rmalloc_locked_ok mp size Hwf Hs)
    as (a' & mp'' & Hr' & Hwf' & _ & Hsz & Hcase). unfold rmalloc in Hr.
  assert (a' = a ∧ mp'' = mp') as [-> ->] by (split; congruence).
  destruct Hcase as [(Hpos & Ht & Habut)|(? & _)]; [|done].
  destruct (takes_range mp mp' a size Hwf Hs Ht) as (_ & _ & Htop & Hd).
  destruct (rmfree_ok mp' size a) as (r & Hrf & Hwr & _ & _ & _ & Hg); auto; [lia|].
  destruct Hg as [[Hl Hg]|(? & _ & ? & _)]; [|destruct Habut; [lia|done]].
  exists r. split_and!; auto. intros x. rewrite (Hg x), (proj2 Ht x).
  pose proof (proj1 Ht x). destruct (decide (a ≤ x < a + size)); tauto.
Qed.

Lemma rmalloc_rmfree_roundtrip_witness :
  ∃ a mp' r, rmalloc ex_map 4 = Ok (a, mp') ∧ rmfree mp' 4 a = Ok r ∧ map_wf (rf_map r) ∧
    rf_lost r = [] ∧ ∀ x, free (rf_map r) x ↔ free ex_map x.
Proof.
  eexists _, _.
  destruct (rmalloc_rmfree_roundtrip ex_map 4 100 (MapHead 1 0 "example" 3
    [MapEnt 6 104; MapEnt 5 200; MapEnt 0 0; MapEnt 0 0; MapEnt 0 0])) as (r & Hr);
    [by apply map_wfb_sound|simpl; lia|unfold W31; lia|reflexivity|lia|].
  exists r. split; [reflexivity|exact Hr].
Defined.

(** C40: mutual exclusion.  Whatever threads do with a shared map (allocate,
    wait, allocate at an address, free, with the lock dropped between the passes
    of [rmfree]), ranges held at the same time are disjoint, and no unit of a
    held range is in the free set. *)
Theorem rmap_exclusive mp s :
  map_wf mp → 2 ≤ mh_size mp → rtc rm_step (RmSys mp ∅) s →
  (∀ t1 t2 a1 s1 a2 s2, t1 ≠ t2 → sys_thr s !! t1 = Some (Holds a1 s1) →
     sys_thr s !! t2 = Some (Holds a2 s2) → a1 + s1 ≤ a2 ∨ a2 + s2 ≤ a1) ∧
  (∀ t a k x, sys_thr s !! t = Some (Holds a k) → a ≤ x < a + k → ¬ free (sys_map s) x).
Proof.
  intros Hwf Hc Hr. destruct (rm_reachable_inv mp s Hwf Hc Hr) as [_ _ _ _ Hh He].
  split; [done|]. intros t a k x Ht Hx. by apply (Hh t a k).
Qed.

Lemma rmap_exclusive_witness :
  ∃ s, rtc rm_step (RmSys ex_map ∅) s ∧ sys_thr s !! 7%nat = Some (Holds 100 4) ∧
    ¬ free (sys_map s) 102.
Proof.
  pose (s := RmSys (MapHead 1 0 "example" 3
      [MapEnt 6 104; MapEnt 5 200; MapEnt 0 0; MapEnt 0 0; MapEnt 0 0])
    (<[7%nat := Holds 100 4]> (<[7%nat := Trying 4]> ∅))).
  assert (Hr : rtc rm_step (RmSys ex_map ∅) s).
  { eapply rtc_l; [apply (step_call _ _ 7%nat 4); [reflexivity|unfold W31; lia]|].
    eapply rtc_once, step_got; [reflexivity|reflexivity|lia]. }
  exists s. split; [exact Hr|]. split; [reflexivity|].
  destruct (rmap_exclusive ex_map s) as [_ Hx];
    [by apply map_wfb_sound|simpl; lia|exact Hr|].
  apply (Hx 7%nat 100 4); [reflexivity|lia].
Defined.

(** no lost wakeups.  In every reachable state a thread asleep in
    [rmalloc_wait] has [m_want] set, and the next [rmfree] that completes leaves
    no thread asleep. *)
Theorem rmap_no_lost_wakeup mp s :
  map_wf mp → 2 ≤ mh_size mp → rtc rm_step (RmSys mp ∅) s →
  ∀ t size, sys_thr s !! t = Some (Asleep size) →
    m_want (sys_map s) = 1 ∧
    ∀ u a k mp', sys_thr s !! u = Some (Holds a k) →
      rmfree_pass (sys_map s) k a = Ok (Done mp') →
      rm_step s (finish_free u mp' (sys_thr s)) ∧
      ∀ v z, sys_thr (finish_free u mp' (sys_thr s)) !! v ≠ Some (Asleep z).
Proof.
  intros Hwf Hc Hr t size Ht. destruct (rm_reachable_inv mp s Hwf Hc Hr) as [Hw' Hc' _ Hsl Hh _].
  destruct (Hsl t size Ht) as [_ Hw]. split; [done|]. intros u a k mp' Hu Hp.
  destruct s as [m ts]. simpl in *. split; [by eapply step_free|].
  apply (pass_ok_of m k a) in Hp as (_ & Hw2 & _); eauto.
  unfold finish_free. rewrite Hw2, Hw. simpl. intros v z Hv.
  apply lookup_delete_Some in Hv as [_ Hv]. rewrite lookup_fmap_Some in Hv.
  by destruct Hv as ([] & ? & ?).
Qed.

Lemma rmap_no_lost_wakeup_witness :
  ∃ s, rtc rm_step (RmSys ex_map ∅) s ∧ sys_thr s !! 1%nat = Some (Asleep 50) ∧
    m_want (sys_map s) = 1.
Proof.
  pose (s := RmSys (set_m_want ex_map 1) (<[1%nat := Asleep 50]> (<[1%nat := Trying 50]> ∅))).
  assert (Hr : rtc rm_step (RmSys ex_map ∅) s).
  { eapply rtc_l; [apply (step_call _ _ 1%nat 50); [reflexivity|unfold W31; lia]|].
    eapply rtc_once, step_sleep; [reflexivity|reflexivity]. }
  exists s. split; [exact Hr|]. split; [reflexivity|].
  apply (rmap_no_lost_wakeup ex_map s) with (t := 1%nat) (size := 50);
    [by apply map_wfb_sound|simpl; lia|exact Hr|reflexivity].
Defined.

Lemma map_slots_size n : map_slots ((n + MAP_OVERHEAD) * sizeof_map) = n + 2.
Proof.
  unfold map_slots, MAP_OVERHEAD, sizeof_map_head, sizeof_map.
  change ((4 + 4 + 4 + 4 + 8 + 4 + 8 + 2 * 8 - 1) / 8) with 6.
  symmetry. apply Z.div_unique_pos with (r := 4); lia.
Qed.

Lemma MAP_OVERHEAD_val : MAP_OVERHEAD = 6.
Proof. reflexivity. Qed.

(** [rmallocmap] of [n] segments, when the allocation succeeds and its size
    does not overflow, is a well-formed empty map with exactly [n] slots (the
    [MAP_OVERHEAD] arithmetic leaves room for the terminator and one slot past
    it), and [rmfreemap] returns exactly the bytes that were allocated. *)
Theorem rmallocmap_wf avail n :
  1 ≤ n → (n + MAP_OVERHEAD) * sizeof_map < W32 →
  avail ((n + MAP_OVERHEAD) * sizeof_map) = true →
  ∃ mp, rmallocmap avail n = Ok (Some mp) ∧ map_wf mp ∧ mh_size mp = n ∧ m_free mp = n ∧
    m_want mp = 0 ∧ (∀ x, ¬ free mp x) ∧
    rmfreemap mp = (n + MAP_OVERHEAD) * sizeof_map.
Proof.
  intros Hn Hlt Hav. pose proof MAP_OVERHEAD_val as HO.
  assert (Hsz : sizeof_map = 8) by done. rewrite Hsz in *.
  unfold rmallocmap. rewrite add32_small by lia.
  assert (Hm : mul32 (n + MAP_OVERHEAD) sizeof_map = (n + MAP_OVERHEAD) * 8)
    by (unfold mul32; rewrite Hsz; apply u32_small; unfold is_u32; lia).
  rewrite Hm, Hav. unfold mapinit, zeroed_slots. rewrite <- Hsz, map_slots_size.
  rewrite (proj2 (Z.ltb_ge _ _)) by lia.
  assert (Hk : Z.to_nat (n + 2) = S (Z.to_nat (n + 1))) by lia. rewrite Hk. simpl.
  assert (Hsub : sub32 (n + MAP_OVERHEAD) MAP_OVERHEAD = n)
    by (unfold sub32; rewrite Z.add_simpl_r; apply u32_small; unfold is_u32; lia).
  rewrite Hsub. eexists. split; [done|].
  assert (Hzero : Forall (λ e, m_size e = 0)
    (MapEnt 0 0 :: replicate (Z.to_nat (n + 1)) (MapEnt 0 0))).
  { constructor; [done|]. by apply Forall_replicate. }
  split_and!; try done.
  - constructor; simpl; try lia.
    + exists 0%nat. split; [|lia]. apply arr_end; [done|]. by inversion Hzero.
    + rewrite length_replicate. lia.
  - intros x. by apply free_in_zero.
  - unfold rmfreemap. simpl. rewrite Z.add_comm, Hm. done.
Qed.

Lemma rmallocmap_wf_witness :
  ∃ mp, rmallocmap (λ _, true) 4 = Ok (Some mp) ∧ map_wf mp ∧ mh_size mp = 4 ∧ m_free mp = 4 ∧
    m_want mp = 0 ∧ (∀ x, ¬ free mp x) ∧ rmfreemap mp = (4 + MAP_OVERHEAD) * sizeof_map.
Proof. apply (rmallocmap_wf (λ _, true) 4); [lia|vm_compute; reflexivity|reflexivity]. Defined.

(** the overflow path reads before the array of a one-segment map.  On a
    well-formed map of capacity 1 whose only slot is in use, freeing a range that
    abuts nothing reaches [(bp-1)->m_size] with [bp] the first entry, and the
    call does not return. *)
Theorem rmfree_one_slot_fault mp size addr :
  map_wf mp → mh_size mp = 1 → m_free mp = 0 → 0 < addr → 0 < size < W31 →
  addr + size < W32 → (∀ x, addr - 1 ≤ x ≤ addr + size → ¬ free mp x) →
  rmfree mp size addr = Fault.
Proof.
  intros Hwf H1 Hz Ha Hs Ht Hd. unfold rmfree. rewrite size_check by done.
  destruct (wf_arr _ Hwf) as (n & Hn & Hcnt). assert (n = 1%nat) as -> by lia.
  destruct (locate_located 1 (m_map mp) addr Hn) as (pre & b & bp & hi & m & Hloc).
  destruct (located_disjoint _ _ _ _ _ _ _ _ size Hloc Ha ltac:(lia)) as [Hdl Hdr].
  { intros x Hx. apply Hd. lia. }
  assert (Hbno : ¬ (m_size b ≠ 0 ∧ m_addr b ≤ addr + size)).
  { intros [Hb Hle]. specialize (Hdr Hb). apply (Hd (m_addr b)); [lia|].
    unfold free. rewrite (loc_eq _ _ _ _ _ _ _ _ Hloc), free_in_app, free_in_cons.
    destruct (arr_ok_inv_seg _ _ _ _ (loc_arr _ _ _ _ _ _ _ _ Hloc) Hb) as (? & ? & ? & ? & ?).
    right. left. unfold seg_in. lia. }
  assert (Hhi : hi ≠ addr).
  { intros ->. pose proof (loc_pre _ _ _ _ _ _ _ _ Hloc) as Hc.
    destruct (unsnoc pre) as [[pre' p]|] eqn:E.
    - apply unsnoc_Some in E as ->. apply chain_snoc in Hc as (h & ? & ? & ? & ? & Hp).
      apply (Hd (addr - 1)); [lia|]. unfold free.
      rewrite (loc_eq _ _ _ _ _ _ _ _ Hloc), !free_in_app, !free_in_cons.
      left. right. left. unfold seg_in. lia.
    - apply unsnoc_None in E as ->. inversion Hc; lia. }
  unfold rmfree_loop. erewrite pass_not_left by eauto.
  assert ((m_addr b <=? addr + size) && negb (m_size b =? 0) = false) as ->.
  { destruct (decide (m_size b = 0)) as [E|E]; [rewrite (proj2 (Z.eqb_eq _ _) E); apply andb_false_r|].
    assert (¬ m_addr b ≤ addr + size) by tauto. by eval_cmp. }
  rewrite Hz. unfold discard. by rewrite (final_entry_ok _ _ _ Hn).
Qed.

Lemma rmfree_one_slot_fault_witness :
  (∃ mp r, rmallocmap (λ _, true) 1 = Ok (Some mp) ∧ rmfree mp 10 100 = Ok r ∧
           rmfree (rf_map r) 10 200 = Fault) ∧
  rmfree (MapHead 0 0 "one" 1 [MapEnt 10 100; MapEnt 0 0; MapEnt 0 0]) 10 200 = Fault.
Proof.
  split; [by eexists _, _|].
  apply rmfree_one_slot_fault; simpl; unfold W31, W32; try lia.
  - by apply map_wfb_sound.
  - intros x Hx Hf. free_cases.
Defined.
