(* ===== verification/Bitmap.v ===== *)
(** * Bitmaps (uts/common/os/bitmap.c, sys/bitmap.h)

    A bitmap is a vector of 32-bit words, here a list of [Z] in [0, 2^32).  Bit
    [i] of the map is bit [i mod 32] of word [i / 32]; an access past the last
    word is [Fault].  The loops run on indices as in the code, with the fuel of
    the range they scan. *)

From S2P Require Import Prelude.

(** ** Macros of sys/bitmap.h *)

Definition BT_NBIPUL : Z := 32.
Definition BT_ULSHIFT : Z := 5.
Definition BT_ULMASK : Z := 31.

(** [BT_WIM]: the word that holds a bit. *)
Definition BT_WIM (bitmap : list Z) (bitindex : Z) : res Z :=
  deref (bitmap !! Z.to_nat (Z.shiftr bitindex BT_ULSHIFT)).

(** [BT_BIW]: the bit in its word. *)
Definition BT_BIW (bitindex : Z) : Z := u32 (Z.shiftl 1 (Z.land bitindex BT_ULMASK)).

Definition BT_BITOUL (nbits : Z) : Z := (nbits + BT_NBIPUL - 1) / BT_NBIPUL.

Definition BT_TEST (bitmap : list Z) (bitindex : Z) : res bool :=
  w ← BT_WIM bitmap bitindex; Ok (negb (Z.land w (BT_BIW bitindex) =? 0)).

Definition BT_SET (bitmap : list Z) (bitindex : Z) : res (list Z) :=
  w ← BT_WIM bitmap bitindex;
  Ok (<[Z.to_nat (Z.shiftr bitindex BT_ULSHIFT) := Z.lor w (BT_BIW bitindex)]> bitmap).

Definition BT_CLEAR (bitmap : list Z) (bitindex : Z) : res (list Z) :=
  w ← BT_WIM bitmap bitindex;
  Ok (<[Z.to_nat (Z.shiftr bitindex BT_ULSHIFT) :=
        Z.land w (u32 (Z.lnot (BT_BIW bitindex)))]> bitmap).

(** ** Functions of os/bitmap.c *)

(** [index_t] is a [short]. *)
Definition s16 (z : Z) : Z := (z + 32768) mod 65536 - 32768.

(** [~0] as a word. *)
Definition ALL_ONES : Z := 4294967295.

(** [for (wx = 0; wx <= maxword; wx++) if (bitmap[wx] != ~0) break;] *)
Fixpoint availword (fuel : nat) (bitmap : list Z) (wx maxword : Z) : res Z :=
  match fuel with
  | O => Fault
  | S fuel =>
    if wx <=? maxword then
      w ← deref (bitmap !! Z.to_nat wx);
      if w =? ALL_ONES then availword fuel bitmap (s16 (wx + 1)) maxword else Ok wx
    else Ok wx
  end.

(** [for (bx = 0; bx <= maxbit; bx++, bit <<= 1) if (!(word & bit)) ...]: the
    bit index, or [None] when the loop ends. *)
Fixpoint availbit_in (fuel : nat) (word bit bx maxbit : Z) : res (option Z) :=
  match fuel with
  | O => Fault
  | S fuel =>
    if bx <=? maxbit then
      if Z.land word bit =? 0 then Ok (Some bx)
      else availbit_in fuel word (u32 (Z.shiftl bit 1)) (s16 (bx + 1)) maxbit
    else Ok None
  end.

Definition bt_availbit (bitmap : list Z) (nbits : Z) : res Z :=
  let nbits := sub32 nbits 1 in
  let maxword := s16 (Z.shiftr nbits BT_ULSHIFT) in
  wx ← availword (Z.to_nat (maxword + 2)) bitmap 0 maxword;
  if wx <=? maxword then
    let maxbit := if wx =? maxword then Z.land nbits BT_ULMASK else BT_NBIPUL - 1 in
    word ← deref (bitmap !! Z.to_nat wx);
    r ← availbit_in (Z.to_nat (maxbit + 2)) word 1 0 maxbit;
    match r with
    | Some bx => Ok (s16 (Z.lor (Z.shiftl wx BT_ULSHIFT) bx))
    | None => Ok (-1)
    end
  else Ok (-1).

Definition highbit (i : Z) : Z :=
  if i =? 0 then 0
  else
    let '(h, i) := if Z.land i 0xffff0000 =? 0 then (1, i) else (1 + 16, Z.shiftr i 16) in
    let '(h, i) := if Z.land i 0xff00 =? 0 then (h, i) else (h + 8, Z.shiftr i 8) in
    let '(h, i) := if Z.land i 0xf0 =? 0 then (h, i) else (h + 4, Z.shiftr i 4) in
    let '(h, i) := if Z.land i 0xc =? 0 then (h, i) else (h + 2, Z.shiftr i 2) in
    if Z.land i 0x2 =? 0 then h else h + 1.

Definition lowbit (i : Z) : Z :=
  if i =? 0 then 0
  else
    let '(h, i) := if Z.land i 0xffff =? 0 then (1 + 16, Z.shiftr i 16) else (1, i) in
    let '(h, i) := if Z.land i 0xff =? 0 then (h + 8, Z.shiftr i 8) else (h, i) in
    let '(h, i) := if Z.land i 0xf =? 0 then (h + 4, Z.shiftr i 4) else (h, i) in
    let '(h, i) := if Z.land i 0x3 =? 0 then (h + 2, Z.shiftr i 2) else (h, i) in
    if Z.land i 0x1 =? 0 then h + 1 else h.

(** [bt_gethighbit]: the position stored through [bitposp].  [fuel] is the
    number of words from [wx] down. *)
Fixpoint gethighbit_loop (fuel : nat) (mapp : list Z) (wx : Z) : res Z :=
  match fuel with
  | O => Fault
  | S fuel =>
    word ← deref (mapp !! Z.to_nat wx);
    if word =? 0 then
      let wx := wx - 1 in
      if wx <? 0 then Ok (-1) else gethighbit_loop fuel mapp wx
    else Ok (Z.lor (Z.shiftl wx BT_ULSHIFT) (highbit word - 1))
  end.

Definition bt_gethighbit (mapp : list Z) (wx : Z) : res Z :=
  gethighbit_loop (Z.to_nat (wx + 1)) mapp wx.

(** The two scanning loops of [bt_range]: the first index from [inx] whose bit
    is [b], or [nbits]. *)
Fixpoint range_scan (fuel : nat) (b : bool) (bitmap : list Z) (inx nbits : Z) : res Z :=
  match fuel with
  | O => Fault
  | S fuel =>
    if inx <? nbits then
      t ← BT_TEST bitmap inx;
      if Bool.eqb t b then Ok inx else range_scan fuel b bitmap (inx + 1) nbits
    else Ok inx
  end.

(** [bt_range]: [None] for a return of 0, [Some (pos1, pos2)] for a return of 1
    with the values stored through the pointers. *)
Definition bt_range (bitmap : list Z) (pos1 nbits : Z) : res (option (Z * Z)) :=
  inx ← range_scan (S (Z.to_nat (nbits - pos1))) true bitmap pos1 nbits;
  if inx =? nbits then Ok None
  else
    inx2 ← range_scan (S (Z.to_nat (nbits - inx))) false bitmap inx nbits;
    Ok (Some (inx, sub32 inx2 1)).

(** ** Specification *)

Definition bitmap_ok (bitmap : list Z) : Prop := Forall is_u32 bitmap.

(** Bit [i] of the map; bits past the last word are 0. *)
Definition bit (bitmap : list Z) (i : Z) : bool :=
  Z.testbit (default 0 (bitmap !! Z.to_nat (i / 32))) (i mod 32).

Definition in_map (bitmap : list Z) (i : Z) : Prop := 0 ≤ i < 32 * Z.of_nat (length bitmap).

(** ** Bits of words *)

Lemma land_mask i k : 0 ≤ k → Z.land i (Z.ones k) = i mod 2 ^ k.
Proof. intros. by apply Z.land_ones. Qed.

Lemma testbit_land_pow2 w k : 0 ≤ k → (Z.land w (2 ^ k) =? 0) = negb (Z.testbit w k).
Proof.
  intros Hk. destruct (Z.testbit w k) eqn:E; simpl.
  - apply Z.eqb_neq. intros H. apply (f_equal (λ z, Z.testbit z k)) in H.
    by rewrite Z.land_spec, E, Z.pow2_bits_true, Z.bits_0 in H.
  - apply Z.eqb_eq, Z.bits_inj'. intros n Hn. rewrite Z.land_spec, Z.bits_0.
    destruct (decide (n = k)) as [->|]; [by rewrite E|].
    rewrite Z.pow2_bits_false by done. apply andb_false_r.
Qed.

Lemma is_u32_testbit w n : is_u32 w → 32 ≤ n → Z.testbit w n = false.
Proof.
  unfold is_u32, W32. intros Hw Hn. rewrite <- (Z.mod_small w (2 ^ 32)) by lia.
  by apply Z.mod_pow2_bits_high.
Qed.

Lemma is_u32_bits a : (∀ n, 32 ≤ n → Z.testbit a n = false) → is_u32 a.
Proof.
  intros H. assert (a = a mod 2 ^ 32) as ->; [|apply (u32_range a)].
  apply Z.bits_inj'. intros n Hn. destruct (decide (n < 32)).
  - by rewrite Z.mod_pow2_bits_low by lia.
  - rewrite Z.mod_pow2_bits_high by lia. apply H. lia.
Qed.

Lemma u32_bits_eq a b :
  is_u32 a → is_u32 b → (∀ k, 0 ≤ k < 32 → Z.testbit a k = Z.testbit b k) → a = b.
Proof.
  intros Ha Hb H. apply Z.bits_inj'. intros n Hn. destruct (decide (n < 32)); [auto with lia|].
  by rewrite !is_u32_testbit by (done || lia).
Qed.

Lemma BT_BIW_pow2 i : BT_BIW i = 2 ^ (i mod 32).
Proof.
  unfold BT_BIW, BT_ULMASK. change 31 with (Z.ones 5). rewrite Z.land_ones by lia.
  change (2 ^ 5) with 32. rewrite Z.shiftl_1_l. apply u32_small.
  pose proof (Z.mod_pos_bound i 32 ltac:(lia)). unfold is_u32, W32. split; [lia|].
  change 4294967296 with (2 ^ 32). apply Z.pow_lt_mono_r; lia.
Qed.

Lemma word_index i : Z.shiftr i BT_ULSHIFT = i / 32.
Proof. unfold BT_ULSHIFT. by rewrite Z.shiftr_div_pow2 by lia. Qed.

Lemma word_lookup bitmap i : in_map bitmap i → is_Some (bitmap !! Z.to_nat (i / 32)).
Proof.
  intros [H1 H2]. apply lookup_lt_is_Some. pose proof (Z.div_lt_upper_bound i 32 (Z.of_nat (length bitmap))).
  pose proof (Z.div_pos i 32). lia.
Qed.

Lemma BT_TEST_bit bitmap i : in_map bitmap i → BT_TEST bitmap i = Ok (bit bitmap i).
Proof.
  intros H. unfold BT_TEST, BT_WIM, bit. rewrite word_index, BT_BIW_pow2.
  destruct (word_lookup _ _ H) as [w ->]. simpl.
  rewrite testbit_land_pow2 by (apply Z.mod_pos_bound; lia). by rewrite negb_involutive.
Qed.

(** ** [highbit] and [lowbit] *)

(** The test of one halving step of [highbit]. *)
Lemma high_mask i k :
  0 ≤ k → 0 ≤ i < 2 ^ (k + k) →
  (Z.land i (Z.shiftl (Z.ones k) k) =? 0) = (i <? 2 ^ k).
Proof.
  intros Hk Hi. rewrite Z.pow_add_r in Hi by lia. pose proof (Z.pow_pos_nonneg 2 k ltac:(lia) Hk).
  assert (Z.land i (Z.shiftl (Z.ones k) k) = i / 2 ^ k * 2 ^ k) as ->.
  { rewrite <- Z.shiftl_mul_pow2, <- Z.shiftr_div_pow2 by lia. apply Z.bits_inj'. intros n Hn.
    rewrite Z.land_spec, !Z.shiftl_spec by lia. destruct (decide (n < k)).
    - rewrite !(Z.testbit_neg_r _ (n - k)) by lia. apply andb_false_r.
    - rewrite Z.shiftr_spec, Z.sub_add by lia. destruct (decide (n - k < k)).
      + rewrite Z.ones_spec_low by lia. apply andb_true_r.
      + rewrite Z.ones_spec_high by lia. rewrite andb_false_r.
        rewrite <- (Z.mod_small i (2 ^ (k + k))) by (rewrite Z.pow_add_r by lia; lia).
        by rewrite Z.mod_pow2_bits_high by lia. }
  pose proof (Z.div_pos i (2 ^ k)). destruct (Z.ltb_spec i (2 ^ k)).
  - by rewrite Z.div_small by lia.
  - apply Z.eqb_neq. pose proof (Z.div_le_lower_bound i (2 ^ k) 1). nia.
Qed.

(** One halving step keeps [h + log2 i]. *)
Lemma high_step h i k mask :
  0 < k → 0 < i < 2 ^ (k + k) → mask = Z.shiftl (Z.ones k) k →
  ∃ h' i', (if Z.land i mask =? 0 then (h, i) else (h + k, Z.shiftr i k)) = (h', i') ∧
    0 < i' < 2 ^ k ∧ h' + Z.log2 i' = h + Z.log2 i.
Proof.
  intros Hk Hi ->. rewrite high_mask by lia. destruct (Z.ltb_spec i (2 ^ k)) as [H|H].
  - exists h, i. split_and!; auto; lia.
  - exists (h + k), (Z.shiftr i k). split; [done|].
    assert (Hp : 0 < Z.shiftr i k < 2 ^ k).
    { rewrite Z.shiftr_div_pow2 by lia. rewrite Z.pow_add_r in Hi by lia. split.
      - pose proof (Z.div_le_lower_bound i (2 ^ k) 1). lia.
      - apply Z.div_lt_upper_bound; lia. }
    split; [lia|]. rewrite Z.log2_shiftr by lia.
    pose proof (Z.log2_le_mono _ _ H). rewrite Z.log2_pow2 in * by lia. lia.
Qed.

Lemma highbit_log2 i : 0 < i < W32 → highbit i = Z.log2 i + 1.
Proof.
  intros Hi. unfold highbit. rewrite (proj2 (Z.eqb_neq i 0)) by lia.
  destruct (high_step 1 i 16 0xffff0000) as (h1 & i1 & -> & ? & ?); [lia|exact Hi|done|].
  destruct (high_step h1 i1 8 0xff00) as (h2 & i2 & -> & ? & ?); [lia|done|done|].
  destruct (high_step h2 i2 4 0xf0) as (h3 & i3 & -> & ? & ?); [lia|done|done|].
  destruct (high_step h3 i3 2 0xc) as (h4 & i4 & -> & ? & ?); [lia|done|done|].
  destruct (high_step h4 i4 1 0x2) as (h5 & i5 & Hs & Hi5 & ?); [lia|done|done|].
  assert (i5 = 1) by (change (2 ^ 1) with 2 in Hi5; lia). subst i5.
  change (Z.log2 1) with 0 in *. destruct (Z.land i4 2 =? 0); simplify_eq; lia.
Qed.

(** One halving step of [lowbit]: [i] is [n / 2^d], the bits of [n] below [d] are
    0 and the low [2k] bits of [i] are not all 0. *)
Lemma low_step n d i k mask :
  0 < k → 0 ≤ d → i = n / 2 ^ d → n mod 2 ^ d = 0 → i mod 2 ^ (k + k) ≠ 0 → mask = Z.ones k →
  ∃ d' i', (if Z.land i mask =? 0 then (1 + d + k, Z.shiftr i k) else (1 + d, i)) = (1 + d', i') ∧
    0 ≤ d' ∧ i' = n / 2 ^ d' ∧ n mod 2 ^ d' = 0 ∧ i' mod 2 ^ k ≠ 0.
Proof.
  intros Hk Hd -> Hn Hi ->. rewrite Z.land_ones by lia.
  pose proof (Z.pow_pos_nonneg 2 k ltac:(lia) ltac:(lia)).
  pose proof (Z.pow_pos_nonneg 2 d ltac:(lia) ltac:(lia)).
  destruct (Z.eqb_spec ((n / 2 ^ d) mod 2 ^ k) 0) as [E|E].
  - exists (d + k), (Z.shiftr (n / 2 ^ d) k). split; [f_equal; lia|]. split; [lia|].
    rewrite Z.shiftr_div_pow2, Z.div_div, Z.pow_add_r by lia. split_and!.
    + done.
    + rewrite Z.rem_mul_r by lia. by rewrite Hn, E, Z.mul_0_r.
    + intros E2. apply Hi. rewrite Z.pow_add_r, Z.rem_mul_r by lia.
      rewrite Z.div_div by lia. by rewrite E, E2, Z.mul_0_r.
  - exists d, (n / 2 ^ d). done.
Qed.

Lemma lowbit_spec i : 0 < i < W32 →
  1 ≤ lowbit i ≤ 32 ∧ Z.testbit i (lowbit i - 1) = true ∧
  ∀ j, 0 ≤ j < lowbit i - 1 → Z.testbit i j = false.
Proof.
  intros Hi. assert (Hrep : ∃ d, 0 ≤ d ∧ lowbit i = 1 + d ∧ i mod 2 ^ d = 0 ∧
    (i / 2 ^ d) mod 2 ^ 1 ≠ 0).
  { unfold lowbit. rewrite (proj2 (Z.eqb_neq i 0)) by lia.
    destruct (low_step i 0 i 16 0xffff) as (d1 & i1 & Hs1 & ? & ? & ? & ?); try done.
    { by rewrite Z.div_1_r. }
    { by rewrite Z.mod_1_r. }
    { change (2 ^ (16 + 16)) with W32. rewrite Z.mod_small; lia. }
    change (1 + 0 + 16) with (1 + 16) in Hs1. change (1 + 0) with 1 in Hs1. rewrite Hs1.
    destruct (low_step i d1 i1 8 0xff) as (d2 & i2 & -> & ? & ? & ? & ?); try done.
    destruct (low_step i d2 i2 4 0xf) as (d3 & i3 & -> & ? & ? & ? & ?); try done.
    destruct (low_step i d3 i3 2 0x3) as (d4 & i4 & -> & ? & ? & ? & ?); try done.
    destruct (low_step i d4 i4 1 0x1) as (d5 & i5 & Hs5 & ? & ? & ? & ?); try done.
    exists d5. subst i5. split_and!; auto. destruct (Z.land i4 1 =? 0); simplify_eq; lia. }
  destruct Hrep as (d & Hd & -> & Hmod & Hodd). replace (1 + d - 1) with d by lia.
  assert (Hbit : Z.testbit i d = true).
  { rewrite Z.testbit_true by done. change (2 ^ 1) with 2 in Hodd.
    pose proof (Z.mod_pos_bound (i / 2 ^ d) 2). lia. }
  split_and!; [lia| |done|].
  - destruct (decide (1 + d ≤ 32)); [done|]. rewrite is_u32_testbit in Hbit; [done| |lia].
    unfold is_u32. lia.
  - intros j Hj. assert (i = i / 2 ^ d * 2 ^ d) as ->.
    { rewrite (Z.div_mod i (2 ^ d)) at 1 by (apply Z.pow_nonzero; lia). lia. }
    apply Z.mul_pow2_bits_low. lia.
Qed.

(** ** Scans *)

Lemma bit_word bitmap wx w k :
  0 ≤ wx → 0 ≤ k < 32 → bitmap !! Z.to_nat wx = Some w →
  bit bitmap (32 * wx + k) = Z.testbit w k.
Proof.
  intros Hw Hk Hl. unfold bit. replace (32 * wx + k) with (k + wx * 32) by lia.
  rewrite Z.div_add, Z.mod_add, Z.div_small, Z.mod_small by lia. by rewrite Z.add_0_l, Hl.
Qed.

(** An index is a word and a bit in it. *)
Lemma lor_index wx k : 0 ≤ wx → 0 ≤ k < 32 → Z.lor (Z.shiftl wx BT_ULSHIFT) k = 32 * wx + k.
Proof.
  intros Hw Hk. unfold BT_ULSHIFT. rewrite <- Z.add_nocarry_lor.
  { rewrite Z.shiftl_mul_pow2 by lia. lia. }
  apply Z.bits_inj'. intros n Hn. rewrite Z.land_spec, Z.bits_0. destruct (decide (n < 5)).
  - by rewrite Z.shiftl_spec_low by lia.
  - rewrite <- (Z.mod_small k (2 ^ 5)) by lia. rewrite (Z.mod_pow2_bits_high k) by lia.
    apply andb_false_r.
Qed.

Lemma index_split i : 0 ≤ i → i = 32 * (i / 32) + i mod 32 ∧ 0 ≤ i mod 32 < 32 ∧ 0 ≤ i / 32.
Proof.
  intros. pose proof (Z.div_mod i 32 ltac:(lia)). pose proof (Z.mod_pos_bound i 32 ltac:(lia)).
  pose proof (Z.div_pos i 32). lia.
Qed.

Lemma all_ones_bits w : is_u32 w → w = ALL_ONES ↔ ∀ k, 0 ≤ k < 32 → Z.testbit w k = true.
Proof.
  intros Hw. change ALL_ONES with (Z.ones 32). split.
  - intros -> k Hk. by apply Z.ones_spec_low.
  - intros H. apply u32_bits_eq; [done|vm_compute; split; congruence|].
    intros k Hk. by rewrite H, Z.ones_spec_low.
Qed.

Lemma s16_small z : -32768 ≤ z < 32768 → s16 z = z.
Proof. intros. unfold s16. rewrite Z.mod_small; lia. Qed.

Lemma availword_ok fuel bitmap wx maxword :
  0 ≤ wx ≤ maxword + 1 → maxword < Z.of_nat (length bitmap) → maxword < 32767 →
  (Z.to_nat (maxword + 2 - wx) ≤ fuel)%nat →
  (∀ j, 0 ≤ j < wx → bitmap !! Z.to_nat j = Some ALL_ONES) →
  ∃ wx', availword fuel bitmap wx maxword = Ok wx' ∧ 0 ≤ wx' ≤ maxword + 1 ∧
    (∀ j, 0 ≤ j < wx' → bitmap !! Z.to_nat j = Some ALL_ONES) ∧
    (wx' ≤ maxword → ∃ w, bitmap !! Z.to_nat wx' = Some w ∧ w ≠ ALL_ONES).
Proof.
  revert wx. induction fuel as [|fuel IH]; intros wx Hwx Hlen Hmax Hf Hall; [lia|].
  simpl. case_if; [|exists wx; split_and!; auto; lia].
  destruct (lookup_lt_is_Some_2 bitmap (Z.to_nat wx) ltac:(lia)) as [w Hw]. rewrite Hw. simpl.
  case_if; [|exists wx; split_and!; auto; try lia; eauto].
  rewrite s16_small by lia. apply IH; try lia. intros j Hj.
  destruct (decide (j = wx)) as [->|]; [by subst|apply Hall; lia].
Qed.

Lemma availbit_in_ok fuel word bx maxbit :
  0 ≤ bx ≤ maxbit + 1 → maxbit < 32 → (Z.to_nat (maxbit + 2 - bx) ≤ fuel)%nat →
  (∀ k, 0 ≤ k < bx → Z.testbit word k = true) →
  ∃ r, availbit_in fuel word (u32 (2 ^ bx)) bx maxbit = Ok r ∧
    match r with
    | Some b => 0 ≤ b ≤ maxbit ∧ Z.testbit word b = false ∧
                ∀ k, 0 ≤ k < b → Z.testbit word k = true
    | None => ∀ k, 0 ≤ k ≤ maxbit → Z.testbit word k = true
    end.
Proof.
  revert bx. induction fuel as [|fuel IH]; intros bx Hbx Hmax Hf Hall; [lia|]. simpl.
  case_if; [|exists None; split; [done|intros k Hk; apply Hall; lia]].
  assert (Hp : 0 ≤ 2 ^ bx < 2 ^ 32) by (split; [lia|apply Z.pow_lt_mono_r; lia]).
  rewrite (u32_small (2 ^ bx)) by exact Hp. rewrite testbit_land_pow2 by lia.
  destruct (Z.testbit word bx) eqn:E; simpl; [|exists (Some bx); split_and!; auto; lia].
  rewrite Z.shiftl_mul_pow2, <- Z.pow_add_r, s16_small by lia. apply IH; try lia.
  intros k Hk. destruct (decide (k = bx)) as [->|]; [done|apply Hall; lia].
Qed.

Lemma gethighbit_ok fuel bitmap wx top :
  bitmap_ok bitmap → 0 ≤ wx ≤ top → top < Z.of_nat (length bitmap) →
  (Z.to_nat (wx + 1) ≤ fuel)%nat →
  (∀ j, 32 * (wx + 1) ≤ j < 32 * (top + 1) → bit bitmap j = false) →
  ∃ r, gethighbit_loop fuel bitmap wx = Ok r ∧ -1 ≤ r < 32 * (top + 1) ∧
    (0 ≤ r → bit bitmap r = true) ∧
    ∀ j, 0 ≤ j < 32 * (top + 1) → r < j → bit bitmap j = false.
Proof.
  intros Hok. revert wx. induction fuel as [|fuel IH]; intros wx Hwx Hlen Hf Hz; [lia|]. simpl.
  destruct (lookup_lt_is_Some_2 bitmap (Z.to_nat wx) ltac:(lia)) as [w Hw]. rewrite Hw. simpl.
  assert (Hu : is_u32 w) by (by eapply Forall_lookup_1 in Hok).
  case_if.
  - assert (Hz' : ∀ j, 32 * wx ≤ j < 32 * (top + 1) → bit bitmap j = false).
    { intros j Hj. destruct (decide (32 * (wx + 1) ≤ j)); [apply Hz; lia|].
      replace j with (32 * wx + (j - 32 * wx)) by lia. rewrite (bit_word _ _ w) by (done || lia).
      subst w. apply Z.bits_0. }
    case_if.
    + exists (-1). split_and!; auto; try lia. intros j Hj _. apply Hz'. lia.
    + apply IH; try lia. intros j Hj. apply Hz'. lia.
  - unfold is_u32 in Hu. rewrite highbit_log2, Z.add_simpl_r by lia.
    assert (Hlog : 0 ≤ Z.log2 w < 32).
    { split; [apply Z.log2_nonneg|]. apply Z.log2_lt_pow2; unfold W32 in Hu; lia. }
    rewrite lor_index by lia. eexists. split; [done|]. split_and!; try lia.
    + intros _. rewrite (bit_word _ _ w) by (done || lia). apply Z.bit_log2. lia.
    + intros j Hj Hgt. destruct (decide (32 * (wx + 1) ≤ j)); [apply Hz; lia|].
      replace j with (32 * wx + (j - 32 * wx)) by lia. rewrite (bit_word _ _ w) by (done || lia).
      apply Z.bits_above_log2; lia.
Qed.

Lemma range_scan_ok fuel b bitmap inx nbits :
  0 ≤ inx ≤ nbits → nbits ≤ 32 * Z.of_nat (length bitmap) →
  (Z.to_nat (nbits - inx) < fuel)%nat →
  ∃ r, range_scan fuel b bitmap inx nbits = Ok r ∧ inx ≤ r ≤ nbits ∧
    (r < nbits → bit bitmap r = b) ∧ ∀ j, inx ≤ j < r → bit bitmap j = negb b.
Proof.
  revert inx. induction fuel as [|fuel IH]; intros inx Hi Hlen Hf; [lia|]. simpl.
  case_if; [|exists inx; split_and!; auto; lia].
  rewrite BT_TEST_bit by (unfold in_map; lia). simpl.
  destruct (Bool.eqb (bit bitmap inx) b) eqn:E.
  - exists inx. apply eqb_prop in E. split_and!; auto; lia.
  - destruct (IH (inx + 1)) as (r & Hr & ? & ? & Hb); try lia. exists r.
    split_and!; auto; try lia. intros j Hj. destruct (decide (j = inx)) as [->|]; [|apply Hb; lia].
    apply eqb_false_iff in E. by destruct (bit bitmap inx), b.
Qed.

(** ** Properties *)

Definition ex_bits : list Z := [ALL_ONES; 0x17; 0].

(** [bt_availbit] finds the first clear bit.  For a map of at least [nbits]
    bits, [1 <= nbits <= 32768], it returns the least index below [nbits] whose
    bit is 0, and -1 exactly when there is none. *)
Theorem bt_availbit_first bitmap nbits :
  bitmap_ok bitmap → 1 ≤ nbits ≤ 32768 → nbits ≤ 32 * Z.of_nat (length bitmap) →
  ∃ r, bt_availbit bitmap nbits = Ok r ∧
    ((0 ≤ r < nbits ∧ bit bitmap r = false ∧ ∀ j, 0 ≤ j < r → bit bitmap j = true) ∨
     (r = -1 ∧ ∀ j, 0 ≤ j < nbits → bit bitmap j = true)).
Proof.
  intros Hok Hn Hlen. unfold bt_availbit.
  assert (sub32 nbits 1 = nbits - 1) as -> by (apply u32_small; unfold_words; lia).
  rewrite word_index. destruct (index_split (nbits - 1) ltac:(lia)) as (Hsp & Hm & Hd).
  set (mw := (nbits - 1) / 32) in *. assert (mw < 1024) by lia. rewrite s16_small by lia.
  destruct (availword_ok (Z.to_nat (mw + 2)) bitmap 0 mw) as (wx & -> & Hwx & Hall & Hnot); try lia.
  simpl. assert (Hpre : ∀ j, 0 ≤ j < 32 * wx → bit bitmap j = true).
  { intros j Hj. destruct (index_split j ltac:(lia)) as (Hj' & Hk & Hq).
    rewrite Hj', (bit_word _ _ ALL_ONES); [by apply all_ones_bits|lia|lia|apply Hall; lia]. }
  case_if; [|exists (-1); split; [done|]; right; split; [done|]; intros j Hj; apply Hpre; lia].
  destruct (Hnot ltac:(lia)) as (w & Hw & Hne). rewrite Hw. simpl.
  assert (Hu : is_u32 w) by (by eapply Forall_lookup_1 in Hok).
  set (mb := if wx =? mw then _ else _).
  assert (Hmb : mb = if wx =? mw then (nbits - 1) mod 32 else 31).
  { unfold mb, BT_ULMASK, BT_NBIPUL. change 31 with (Z.ones 5). by rewrite Z.land_ones by lia. }
  destruct (availbit_in_ok (Z.to_nat (mb + 2)) w 0 mb) as (r & Hr & Hspec);
    [rewrite Hmb; case_if; lia|rewrite Hmb; case_if; lia|lia|lia|].
  change (u32 (2 ^ 0)) with 1 in Hr. rewrite Hr. simpl. destruct r as [b|].
  - destruct Hspec as (Hb & Hf & Ht). assert (b < 32) by (rewrite Hmb in Hb; case_if_in Hb; lia).
    rewrite lor_index, s16_small by lia. eexists. split; [done|]. left. split_and!.
    + lia.
    + rewrite Hmb in Hb; case_if_in Hb; lia.
    + by rewrite (bit_word _ _ w) by (done || lia).
    + intros j Hj. destruct (decide (j < 32 * wx)); [apply Hpre; lia|].
      replace j with (32 * wx + (j - 32 * wx)) by lia. rewrite (bit_word _ _ w) by (done || lia).
      apply Ht. lia.
  - eexists. split; [done|]. right. split; [done|]. rewrite Hmb in Hspec. case_if_in Hspec.
    + intros j Hj. destruct (decide (j < 32 * wx)); [apply Hpre; lia|].
      replace j with (32 * wx + (j - 32 * wx)) by lia. rewrite (bit_word _ _ w) by (done || lia).
      apply Hspec. lia.
    + exfalso. apply Hne, all_ones_bits; [done|]. intros k Hk. apply Hspec. lia.
Qed.

Lemma bt_availbit_first_witness :
  bt_availbit ex_bits 96 = Ok 35 ∧
  ∃ r, bt_availbit ex_bits 96 = Ok r ∧
    ((0 ≤ r < 96 ∧ bit ex_bits r = false ∧ ∀ j, 0 ≤ j < r → bit ex_bits j = true) ∨
     (r = -1 ∧ ∀ j, 0 ≤ j < 96 → bit ex_bits j = true)).
Proof.
  split; [reflexivity|]. apply (bt_availbit_first ex_bits 96); [|lia|simpl; lia].
  unfold bitmap_ok, ex_bits. repeat constructor; vm_compute; congruence.
Defined.

(** [bt_gethighbit] finds the highest set bit at or below a word: the
    position it stores is -1 when the words up to [wx] are all 0, and otherwise a
    set bit with no set bit above it in those words. *)
Theorem bt_gethighbit_highest bitmap wx :
  bitmap_ok bitmap → 0 ≤ wx < Z.of_nat (length bitmap) →
  ∃ r, bt_gethighbit bitmap wx = Ok r ∧ -1 ≤ r < 32 * (wx + 1) ∧
    (0 ≤ r → bit bitmap r = true) ∧
    ∀ j, 0 ≤ j < 32 * (wx + 1) → r < j → bit bitmap j = false.
Proof. intros Hok Hwx. apply gethighbit_ok; auto; lia. Qed.

Lemma bt_gethighbit_highest_witness :
  bt_gethighbit ex_bits 2 = Ok 36 ∧
  ∃ r, bt_gethighbit ex_bits 2 = Ok r ∧ -1 ≤ r < 32 * (2 + 1) ∧
    (0 ≤ r → bit ex_bits r = true) ∧
    ∀ j, 0 ≤ j < 32 * (2 + 1) → r < j → bit ex_bits j = false.
Proof.
  split; [reflexivity|]. apply (bt_gethighbit_highest ex_bits 2); [|simpl; lia].
  unfold bitmap_ok, ex_bits. repeat constructor; vm_compute; congruence.
Defined.

(** [bt_range] finds the first run of set bits from [pos1]: it reports no run
    exactly when every bit from [pos1] on is 0; otherwise [pos1..pos2] are set,
    nothing before [pos1] is, and the run cannot be extended to the right. *)
Theorem bt_range_run bitmap pos1 nbits :
  0 ≤ pos1 ≤ nbits → nbits ≤ 32 * Z.of_nat (length bitmap) → nbits < W32 →
  ∃ r, bt_range bitmap pos1 nbits = Ok r ∧
    match r with
    | None => ∀ j, pos1 ≤ j < nbits → bit bitmap j = false
    | Some (p1, p2) =>
        pos1 ≤ p1 ≤ p2 ∧ p2 < nbits ∧ (∀ j, pos1 ≤ j < p1 → bit bitmap j = false) ∧
        (∀ j, p1 ≤ j ≤ p2 → bit bitmap j = true) ∧
        (p2 + 1 < nbits → bit bitmap (p2 + 1) = false)
    end.
Proof.
  intros Hp Hlen Hw. unfold bt_range.
  destruct (range_scan_ok (S (Z.to_nat (nbits - pos1))) true bitmap pos1 nbits)
    as (i & -> & Hi & Hb & Hz); try lia. cbn -[range_scan].
  case_if; [exists None; subst; split; [done|]; intros j Hj; by apply Hz|].
  destruct (range_scan_ok (S (Z.to_nat (nbits - i))) false bitmap i nbits)
    as (i2 & -> & Hi2 & Hb2 & Hz2); try lia. simpl.
  assert (i2 ≠ i). { intros ->. rewrite Hb in Hb2 by lia. specialize (Hb2 ltac:(lia)). done. }
  assert (sub32 i2 1 = i2 - 1) as -> by (apply u32_small; unfold is_u32; lia).
  eexists. split; [done|]. split_and!; try lia; auto.
  - intros j Hj. apply Hz2. lia.
  - intros Hlt. replace (i2 - 1 + 1) with i2 by lia. apply Hb2. lia.
Qed.

Lemma bt_range_run_witness :
  bt_range ex_bits 35 96 = Ok (Some (36, 36)) ∧
  ∃ r, bt_range ex_bits 35 96 = Ok r ∧
    match r with
    | None => ∀ j, 35 ≤ j < 96 → bit ex_bits j = false
    | Some (p1, p2) =>
        35 ≤ p1 ≤ p2 ∧ p2 < 96 ∧ (∀ j, 35 ≤ j < p1 → bit ex_bits j = false) ∧
        (∀ j, p1 ≤ j ≤ p2 → bit ex_bits j = true) ∧
        (p2 + 1 < 96 → bit ex_bits (p2 + 1) = false)
    end.
Proof.
  split; [reflexivity|].
  apply (bt_range_run ex_bits 35 96); [lia|simpl; lia|unfold W32; lia].
Defined.

(** [highbit] and [lowbit] are one more than the position of the highest and
    of the lowest set bit of every nonzero word. *)
Theorem highbit_lowbit_spec i :
  0 < i < W32 →
  highbit i = Z.log2 i + 1 ∧
  1 ≤ lowbit i ≤ 32 ∧ Z.testbit i (lowbit i - 1) = true ∧
  ∀ j, 0 ≤ j < lowbit i - 1 → Z.testbit i j = false.
Proof. intros Hi. split; [by apply highbit_log2|by apply lowbit_spec]. Qed.

Lemma highbit_lowbit_spec_witness :
  highbit 0x00a0c000 = 24 ∧ lowbit 0x00a0c000 = 15 ∧
  Z.testbit 0x00a0c000 (lowbit 0x00a0c000 - 1) = true.
Proof.
  split; [reflexivity|]. split; [reflexivity|].
  apply (highbit_lowbit_spec 0x00a0c000). unfold W32. lia.
Defined.

(** Updating one word changes the bits of that word only. *)
Lemma bit_update bitmap i w :
  in_map bitmap i →
  ∀ j, 0 ≤ j → bit (<[Z.to_nat (i / 32) := w]> bitmap) j =
    if j / 32 =? i / 32 then Z.testbit w (j mod 32) else bit bitmap j.
Proof.
  intros Hi j Hj. destruct (index_split i (proj1 Hi)) as (? & ? & ?).
  destruct (index_split j Hj) as (? & ? & ?). unfold bit.
  destruct (Z.eqb_spec (j / 32) (i / 32)) as [E|E].
  - rewrite E, list_lookup_insert_eq; [done|]. unfold in_map in Hi. lia.
  - rewrite list_lookup_insert_ne by lia. done.
Qed.

(** [BT_SET] and [BT_CLEAR] write one bit: afterwards [BT_TEST] sees 1
    (respectively 0) at the index and the old value everywhere else, and the
    words stay 32 bits wide. *)
Theorem bt_set_clear_update bitmap i :
  bitmap_ok bitmap → in_map bitmap i →
  ∃ ms mc, BT_SET bitmap i = Ok ms ∧ BT_CLEAR bitmap i = Ok mc ∧
    bitmap_ok ms ∧ bitmap_ok mc ∧
    ∀ j, in_map bitmap j →
      BT_TEST ms j = (if j =? i then Ok true else BT_TEST bitmap j) ∧
      BT_TEST mc j = (if j =? i then Ok false else BT_TEST bitmap j).
Proof.
  intros Hok Hi. unfold BT_SET, BT_CLEAR, BT_WIM. rewrite word_index, BT_BIW_pow2.
  destruct (word_lookup _ _ Hi) as [w Hw]. rewrite Hw. simpl. eexists _, _.
  split; [done|]. split; [done|].
  destruct (index_split i (proj1 Hi)) as (Hsp & Hm & Hd).
  assert (Hu : is_u32 w) by (by eapply Forall_lookup_1 in Hok).
  assert (Hs : is_u32 (Z.lor w (2 ^ (i mod 32)))).
  { apply is_u32_bits. intros n Hn. rewrite Z.lor_spec, Z.pow2_bits_false by lia.
    by rewrite is_u32_testbit by done. }
  assert (Hc : is_u32 (Z.land w (u32 (Z.lnot (2 ^ (i mod 32)))))).
  { apply is_u32_bits. intros n Hn. rewrite Z.land_spec. by rewrite is_u32_testbit by done. }
  split_and!; [by apply Forall_insert|by apply Forall_insert|].
  intros j Hj. destruct (index_split j (proj1 Hj)) as (Hsj & Hmj & Hdj).
  assert (Hlen : ∀ x, in_map (<[Z.to_nat (i / 32) := x]> bitmap) j)
    by (intros x; unfold in_map; rewrite length_insert; exact Hj).
  rewrite !BT_TEST_bit by auto. rewrite !bit_update by (auto; apply Hj).
  destruct (Z.eqb_spec (j / 32) (i / 32)) as [E|E].
  2:{ destruct (Z.eqb_spec j i) as [->|]; [done|]. done. }
  assert (Hbj : bit bitmap j = Z.testbit w (j mod 32)) by (unfold bit; by rewrite E, Hw).
  rewrite Z.lor_spec, Z.land_spec, Hbj. unfold u32, W32. change 4294967296 with (2 ^ 32).
  rewrite Z.mod_pow2_bits_low, Z.lnot_spec by lia. destruct (Z.eqb_spec j i) as [->|Hne].
  - by rewrite Z.pow2_bits_true, orb_true_r, andb_false_r by lia.
  - rewrite Z.pow2_bits_false by (intros Hx; rewrite Hx in *; lia).
    by rewrite orb_false_r, andb_true_r.
Qed.

Lemma bt_set_clear_update_witness :
  ∃ ms mc, BT_SET ex_bits 35 = Ok ms ∧ BT_CLEAR ex_bits 35 = Ok mc ∧
    bitmap_ok ms ∧ bitmap_ok mc ∧
    ∀ j, in_map ex_bits j →
      BT_TEST ms j = (if j =? 35 then Ok true else BT_TEST ex_bits j) ∧
      BT_TEST mc j = (if j =? 35 then Ok false else BT_TEST ex_bits j).
Proof.
  apply (bt_set_clear_update ex_bits 35).
  - unfold bitmap_ok, ex_bits. repeat constructor; vm_compute; congruence.
  - unfold in_map. simpl. lia.
Defined.

(** the index returned by [bt_availbit] is an [index_t], a [short]: in a map
    of 32800 bits whose first clear bit is bit 32768, the result is -32768. *)
Theorem bt_availbit_short_index :
  bit (replicate 1024 ALL_ONES ++ [0]) 32768 = false ∧
  bt_availbit (replicate 1024 ALL_ONES ++ [0]) 32800 = Ok (-32768).
Proof. split; vm_compute; reflexivity. Qed.
