(* ===== verification/Xdr.v ===== *)
(** * XDR filters (uts/common/rpc/xdr.c, xdr_array.c, xdr_refer.c, xdr.h)

    The generic XDR routines are written against the operations vector
    [xdr_ops]; here they are polymorphic in a stream type [S] with an instance of
    [XdrOps].  A filter takes the stream and the object it is given a pointer to,
    and returns the [bool_t] result, the object as it is left, and the stream.

    - [int], [long] and enums are [Z] in the signed range, unsigned types [Z] in
      the unsigned range; every conversion of the code is written out.
    - A [char *] is [option (list Z)]: [None] is [NULL], [Some b] a buffer of
      [length b] bytes.  Touching bytes the buffer does not have is [Fault].
    - [mem_alloc] sleeps until memory is available, so it always returns a
      buffer; its bytes are 0 in the model.
    - [mem_free] leaves a buffer of no bytes, [Some []]: the pointer dangles, and every access
      through it is [Fault], as is freeing it again.  With [XDR_FREE] the routines then store
      [NULL]; [xdr_string] does not when it frees after a failed decode. *)

From S2P Require Import Prelude.

(** ** Streams *)

Inductive xdr_op := XDR_ENCODE | XDR_DECODE | XDR_FREE.

#[global] Instance xdr_op_eq_dec : EqDecision xdr_op.
Proof. solve_decision. Defined.

(** The operations vector of an XDR handle ([struct xdr_ops]).  [x_getlong]
    returns [None] for [FALSE]; [x_getbytes] returns the bytes it copied out, all
    of them when the result is [true]; [x_inline] returns a pointer into the
    buffer or [NULL]; [x_load] and [x_store] are the accesses through such a
    pointer. *)
Class XdrOps (S : Type) := {
  x_op : S → xdr_op;
  x_getlong : S → res (option Z * S);
  x_putlong : S → Z → res (bool * S);
  x_getbytes : S → Z → res (bool * list Z * S);
  x_putbytes : S → list Z → Z → res (bool * S);
  x_getpostn : S → res Z;
  x_setpostn : S → Z → res (bool * S);
  x_inline : S → Z → res (option Z * S);
  x_control : S → Z → Z → res (option Z * S);
  x_set_op : S → xdr_op → S;
  x_load : S → Z → Z → res (list Z);
  x_store : S → Z → list Z → res S
}.

Definition BYTES_PER_XDR_UNIT : Z := 4.

(** [RNDUP(x)] on a [u_int]. *)
Definition RNDUP (x : Z) : Z :=
  mul32 (add32 x (BYTES_PER_XDR_UNIT - 1) / BYTES_PER_XDR_UNIT) BYTES_PER_XDR_UNIT.

(** [XDR_PEEK] and [XDR_SKIPBYTES], the requests of [x_control]. *)
Definition XDR_PEEK : Z := 2.
Definition XDR_SKIPBYTES : Z := 3.

Definition LASTUNSIGNED : Z := 4294967295.

(** The conversions to [short], [u_short] and [char]. *)
Definition to_short (z : Z) : Z := (z + 32768) mod 65536 - 32768.
Definition to_u_short (z : Z) : Z := z mod 65536.
Definition to_char (z : Z) : Z := (z + 128) mod 256 - 128.

(** A filter for objects of type [T] ([xdrproc_t]). *)
Definition xdrproc (S T : Type) : Type := S → T → res (bool * T * S).

(** [mem_alloc]. *)
Definition mem_alloc (n : Z) : list Z := replicate (Z.to_nat n) 0.

(** ** xdr.c *)

Section filters.
Context {S : Type} `{XdrOps S}.

Definition xdr_void {T} : xdrproc S T := λ s t, Ok (true, t, s).

Definition xdr_long : xdrproc S Z := λ s lp,
  match x_op s with
  | XDR_ENCODE => '(ok, s) ← x_putlong s lp; Ok (ok, lp, s)
  | XDR_DECODE =>
    '(o, s) ← x_getlong s;
    Ok (match o with Some l => (true, l, s) | None => (false, lp, s) end)
  | XDR_FREE => Ok (true, lp, s)
  end.

Definition xdr_u_long : xdrproc S Z := λ s ulp,
  match x_op s with
  | XDR_DECODE =>
    '(o, s) ← x_getlong s;
    Ok (match o with Some l => (true, u32 l, s) | None => (false, ulp, s) end)
  | XDR_ENCODE => '(ok, s) ← x_putlong s (s32 ulp); Ok (ok, ulp, s)
  | XDR_FREE => Ok (true, ulp, s)
  end.

(** [sizeof (int) == sizeof (long)]. *)
Definition xdr_int : xdrproc S Z := xdr_long.
Definition xdr_u_int : xdrproc S Z := xdr_u_long.

(** A [longlong_t] is its two words: the high one goes first on either byte
    order, and a decode that fails on the low word has already stored the high
    one. *)
Definition ll_hi (h : Z) : Z := s32 (Z.shiftr h 32).
Definition ll_lo (h : Z) : Z := s32 h.
Definition ll_make (hi lo : Z) : Z := hi * W32 + u32 lo.

Definition xdr_longlong_t : xdrproc S Z := λ s hp,
  match x_op s with
  | XDR_ENCODE =>
    '(ok, s) ← x_putlong s (ll_hi hp);
    if ok : bool then '(ok, s) ← x_putlong s (ll_lo hp); Ok (ok, hp, s)
    else Ok (false, hp, s)
  | XDR_DECODE =>
    '(o, s) ← x_getlong s;
    match o with
    | Some hi =>
      let hp := ll_make hi (ll_lo hp) in
      '(o, s) ← x_getlong s;
      Ok (match o with Some lo => (true, ll_make hi lo, s) | None => (false, hp, s) end)
    | None => Ok (false, hp, s)
    end
  | XDR_FREE => Ok (true, hp, s)
  end.

Definition ull_make (hi lo : Z) : Z := u32 hi * W32 + u32 lo.

Definition xdr_u_longlong_t : xdrproc S Z := λ s hp,
  match x_op s with
  | XDR_ENCODE =>
    '(ok, s) ← x_putlong s (ll_hi hp);
    if ok : bool then '(ok, s) ← x_putlong s (ll_lo hp); Ok (ok, hp, s)
    else Ok (false, hp, s)
  | XDR_DECODE =>
    '(o, s) ← x_getlong s;
    match o with
    | Some hi =>
      let hp := ull_make hi (ll_lo hp) in
      '(o, s) ← x_getlong s;
      Ok (match o with Some lo => (true, ull_make hi lo, s) | None => (false, hp, s) end)
    | None => Ok (false, hp, s)
    end
  | XDR_FREE => Ok (true, hp, s)
  end.

Definition xdr_short : xdrproc S Z := λ s sp,
  match x_op s with
  | XDR_ENCODE => '(ok, s) ← x_putlong s sp; Ok (ok, sp, s)
  | XDR_DECODE =>
    '(o, s) ← x_getlong s;
    Ok (match o with Some l => (true, to_short l, s) | None => (false, sp, s) end)
  | XDR_FREE => Ok (true, sp, s)
  end.

Definition xdr_u_short : xdrproc S Z := λ s usp,
  match x_op s with
  | XDR_ENCODE => '(ok, s) ← x_putlong s usp; Ok (ok, usp, s)
  | XDR_DECODE =>
    '(o, s) ← x_getlong s;
    Ok (match o with Some l => (true, to_u_short l, s) | None => (false, usp, s) end)
  | XDR_FREE => Ok (true, usp, s)
  end.

Definition xdr_char : xdrproc S Z := λ s cp,
  '(ok, i, s) ← xdr_int s cp;
  if ok : bool then Ok (true, to_char i, s) else Ok (false, cp, s).

Definition xdr_bool : xdrproc S Z := λ s bp,
  match x_op s with
  | XDR_ENCODE => '(ok, s) ← x_putlong s (if bp =? 0 then 0 else 1); Ok (ok, bp, s)
  | XDR_DECODE =>
    '(o, s) ← x_getlong s;
    Ok (match o with
        | Some lb => (true, if lb =? 0 then 0 else 1, s)
        | None => (false, bp, s)
        end)
  | XDR_FREE => Ok (true, bp, s)
  end.

(** [sizeof (sizecheckvar) == sizeof (long)]. *)
Definition xdr_enum : xdrproc S Z := xdr_long.

(** Writing the bytes a stream delivered to the start of a buffer. *)
Definition fill (buf got : list Z) : res (list Z) :=
  if (length got <=? length buf)%nat then Ok (got ++ drop (length got) buf) else Fault.

Definition xdr_opaque (s : S) (cp : list Z) (cnt : Z) : res (bool * list Z * S) :=
  if cnt =? 0 then Ok (true, cp, s)
  else
    let rndup := cnt mod BYTES_PER_XDR_UNIT in
    let rndup := if rndup =? 0 then 0 else BYTES_PER_XDR_UNIT - rndup in
    match x_op s with
    | XDR_DECODE =>
      '(ok, got, s) ← x_getbytes s (s32 cnt);
      cp ← fill cp got;
      if ok : bool then
        if rndup =? 0 then Ok (true, cp, s)
        else '(ok, _, s) ← x_getbytes s rndup; Ok (ok, cp, s)
      else Ok (false, cp, s)
    | XDR_ENCODE =>
      '(ok, s) ← x_putbytes s cp (s32 cnt);
      if ok : bool then
        if rndup =? 0 then Ok (true, cp, s)
        else '(ok, s) ← x_putbytes s [0; 0; 0; 0] rndup; Ok (ok, cp, s)
      else Ok (false, cp, s)
    | XDR_FREE => Ok (true, cp, s)
    end.

(** [mem_free] of the storage behind a pointer; [NULL] is not freed. *)
Definition mem_free (sp : option (list Z)) : res (option (list Z)) :=
  match sp with None => Ok None | Some [] => Fault | Some _ => Ok (Some []) end.

(** [xdr_bytes (xdrs, cpp, sizep, maxsize)] on [*cpp] and [*sizep]. *)
Definition xdr_bytes (maxsize : Z) : xdrproc S (option (list Z) * Z) := λ s '(sp, size),
  '(ok, nodesize, s) ← xdr_u_int s size;
  if negb ok then Ok (false, (sp, size), s)
  else if (maxsize <? nodesize) && negb (bool_decide (x_op s = XDR_FREE))
  then Ok (false, (sp, nodesize), s)
  else
    match x_op s with
    | XDR_DECODE =>
      if nodesize =? 0 then Ok (true, (sp, nodesize), s)
      else
        let buf := match sp with Some b => b | None => mem_alloc nodesize end in
        '(ok, buf, s) ← xdr_opaque s buf nodesize; Ok (ok, (Some buf, nodesize), s)
    | XDR_ENCODE =>
      '(ok, _, s) ← xdr_opaque s (default [] sp) nodesize; Ok (ok, (sp, nodesize), s)
    | XDR_FREE => _ ← mem_free sp; Ok (true, (None, nodesize), s)
    end.

Definition MAX_NETOBJ_SZ : Z := 1024.

Definition xdr_netobj : xdrproc S (option (list Z) * Z) := xdr_bytes MAX_NETOBJ_SZ.

(** [xdr_union]: the choices array up to its terminator. *)
Fixpoint find_choice {U} (dscm : Z) (choices : list (Z * xdrproc S U)) : option (xdrproc S U) :=
  match choices with
  | [] => None
  | (value, proc) :: choices => if value =? dscm then Some proc else find_choice dscm choices
  end.

Definition xdr_union {U} (choices : list (Z * xdrproc S U)) (dfault : option (xdrproc S U)) :
    xdrproc S (Z * U) := λ s '(dscmp, unp),
  '(ok, dscm, s) ← xdr_enum s dscmp;
  if negb ok then Ok (false, (dscm, unp), s)
  else
    match find_choice dscm choices with
    | Some proc => '(ok, unp, s) ← proc s unp; Ok (ok, (dscm, unp), s)
    | None =>
      match dfault with
      | None => Ok (false, (dscm, unp), s)
      | Some proc => '(ok, unp, s) ← proc s unp; Ok (ok, (dscm, unp), s)
      end
    end.

(** [strlen]: the bytes before the first 0. *)
Fixpoint strlen (b : list Z) : res Z :=
  match b with
  | [] => Fault
  | c :: b => if c =? 0 then Ok 0 else n ← strlen b; Ok (n + 1)
  end.

(** [sp[i] = c] in a buffer. *)
Definition set_byte (b : list Z) (i c : Z) : res (list Z) :=
  if (0 <=? i) && (i <? Z.of_nat (length b)) then Ok (<[Z.to_nat i := c]> b) else Fault.

(** On a failed decode the storage is freed, the caller's own included, and [*cpp] is left as it
    is. *)
Definition xdr_string (maxsize : Z) : xdrproc S (option (list Z)) := λ s sp,
  if bool_decide (x_op s = XDR_FREE) && bool_decide (sp = None) then Ok (true, sp, s)
  else
    size ← (if bool_decide (x_op s = XDR_DECODE) then Ok 0
            else match sp with Some b => strlen b | None => Ok 0 end);
    '(ok, size, s) ← xdr_u_int s size;
    if negb ok then Ok (false, sp, s)
    else if maxsize <? size then Ok (false, sp, s)
    else
      let nodesize := add32 size 1 in
      match x_op s with
      | XDR_DECODE =>
        if nodesize =? 0 then Ok (true, sp, s)
        else
          let buf := match sp with Some b => b | None => mem_alloc nodesize end in
          buf ← set_byte buf size 0;
          '(ok, buf, s) ← xdr_opaque s buf size;
          if negb ok then sp ← mem_free sp; Ok (false, sp, s)
          else
            n ← strlen buf;
            if n =? size then Ok (true, Some buf, s) else sp ← mem_free sp; Ok (false, sp, s)
      | XDR_ENCODE => '(ok, _, s) ← xdr_opaque s (default [] sp) size; Ok (ok, sp, s)
      | XDR_FREE => _ ← mem_free sp; Ok (true, None, s)
      end.

Definition xdr_wrapstring : xdrproc S (option (list Z)) := xdr_string LASTUNSIGNED.

(** [xdr_free]: run a filter with [x_op = XDR_FREE] on a fresh handle [x]. *)
Definition xdr_free {T} (x : S) (proc : xdrproc S T) (objp : T) : res T :=
  '(_, objp, _) ← proc (x_set_op x XDR_FREE) objp; Ok objp.

(** ** xdr_array.c *)

(** [for (i = 0; (i < c) && stat; i++) stat = elproc (target); target += elsize]:
    the loop over the elements the array [target] really has. *)
Fixpoint xdr_elems {T} (elproc : xdrproc S T) (i c : Z) (s : S) (target : list T) :
    res (bool * list T * S) :=
  if i <? c then
    match target with
    | [] => Fault
    | t :: ts =>
      '(stat, t, s) ← elproc s t;
      if stat : bool then
        '(stat, ts, s) ← xdr_elems elproc (i + 1) c s ts; Ok (stat, t :: ts, s)
      else Ok (false, t :: ts, s)
    end
  else Ok (true, target, s).

(** [xdr_array] on [*addrp] and [*sizep]: [zero] is an element of zero
    bytes, and an allocation of [nodesize] bytes holds [nodesize / elsize]
    elements. *)
Definition xdr_array {T} (zero : T) (maxsize elsize : Z) (elproc : xdrproc S T) :
    xdrproc S (option (list T) * Z) := λ s '(target, size),
  '(ok, c, s) ← xdr_u_int s size;
  if negb ok then Ok (false, (target, size), s)
  else if (maxsize <? c) && negb (bool_decide (x_op s = XDR_FREE))
  then Ok (false, (target, c), s)
  else
    let nodesize := mul32 c elsize in
    match target, x_op s with
    | None, XDR_DECODE =>
      if c =? 0 then Ok (true, (None, c), s)
      else
        '(stat, ts, s) ← xdr_elems elproc 0 c s (replicate (Z.to_nat (nodesize / elsize)) zero);
        Ok (stat, (Some ts, c), s)
    | None, XDR_FREE => Ok (true, (None, c), s)
    | None, XDR_ENCODE =>
      '(stat, _, s) ← xdr_elems elproc 0 c s []; Ok (stat, (None, c), s)
    | Some ts, XDR_FREE =>
      '(stat, _, s) ← xdr_elems elproc 0 c s ts; Ok (stat, (None, c), s)
    | Some ts, _ =>
      '(stat, ts, s) ← xdr_elems elproc 0 c s ts; Ok (stat, (Some ts, c), s)
    end.

(** ** xdr_refer.c *)

(** [xdr_reference]: [zero] is the zeroed object it allocates.  Encoding through
    a null pointer hands [NULL] to [proc]. *)
Definition xdr_reference {T} (zero : T) (proc : xdrproc S T) : xdrproc S (option T) := λ s loc,
  match loc, x_op s with
  | None, XDR_FREE => Ok (true, None, s)
  | None, XDR_DECODE => '(stat, t, s) ← proc s zero; Ok (stat, Some t, s)
  | None, XDR_ENCODE => Fault
  | Some t, XDR_FREE => '(stat, _, s) ← proc s t; Ok (stat, None, s)
  | Some t, _ => '(stat, t, s) ← proc s t; Ok (stat, Some t, s)
  end.

Definition xdr_pointer {T} (zero : T) (xdr_obj : xdrproc S T) : xdrproc S (option T) := λ s objpp,
  '(ok, more_data, s) ← xdr_bool s (match objpp with Some _ => 1 | None => 0 end);
  if negb ok then Ok (false, objpp, s)
  else if more_data =? 0 then Ok (true, None, s)
  else xdr_reference zero xdr_obj s objpp.

End filters.
