(* ===== verification/XdrCodec.v ===== *)
(** * XDR streams as an interface, and the filters proved against it

    [XdrStream] states what an implementation of the operations vector promises:
    a decoding stream delivers the bytes it is positioned before ([dec]), an
    encoding stream appends to what it has produced while it has room ([enc]),
    a region reserved with [x_inline] can be filled in place ([hole]), and bytes
    that [x_inline] gave access to stay readable while decoding goes on ([view]).
    [codec] says that a filter encodes an object as a given byte string and
    decodes that string back to the object; the theorems give the codec of each
    filter of rpc/xdr.c, xdr_array.c and xdr_refer.c against the external data
    representation (RFC 1832). *)

From S2P Require Import Prelude Xdr.

Class XdrStream (S : Type) `{XdrOps S} := {
  dec : S → list Z → Prop;
  sloc : Type;
  enc : sloc → S → list Z → Z → Prop;
  hole : sloc → S → list Z → Z → list Z → Z → Prop;
  view : S → Z → list Z → Prop;
  dec_op s l : dec s l → x_op s = XDR_DECODE;
  enc_op {k} s o n : enc k s o n → x_op s = XDR_ENCODE;
  dec_getlong s v r : dec s (be32 v ++ r) → units r →
    ∃ s', x_getlong s = Ok (Some (s32 v), s') ∧ dec s' r;
  dec_getlong_short s l : dec s l → (length l < 4)%nat →
    ∃ s', x_getlong s = Ok (None, s') ∧ x_op s' = XDR_DECODE;
  dec_getbytes s bs r len : dec s (bs ++ r) → len = Z.of_nat (length bs) → 0 < len < W31 →
    ∃ s', x_getbytes s len = Ok (true, bs, s') ∧ dec s' r;
  dec_getbytes_short s l len : dec s l → Z.of_nat (length l) < len < W31 →
    ∃ got s', x_getbytes s len = Ok (false, got, s') ∧ x_op s' = XDR_DECODE ∧
      Z.of_nat (length got) < len;
  enc_putlong {k} s o n v : enc k s o n → 4 ≤ n → is_s32 v →
    ∃ s', x_putlong s v = Ok (true, s') ∧ enc k s' (o ++ be32 v) (n - 4);
  enc_putbytes {k} s o n buf len : enc k s o n → 0 < len ≤ n → len ≤ Z.of_nat (length buf) →
    ∃ s', x_putbytes s buf len = Ok (true, s') ∧
      enc k s' (o ++ take (Z.to_nat len) buf) (n - len);
  enc_room {k} s o n : enc k s o n → 0 ≤ n < W31;
  dec_inline s l len : dec s l → 0 ≤ len < W31 →
    ∃ q s', x_inline s len = Ok (q, s') ∧
      match q with
      | None => dec s' l
      | Some p => ∃ bs r, l = bs ++ r ∧ Z.of_nat (length bs) = len ∧ dec s' r ∧ view s' p bs
      end;
  view_load s p a b c : view s p (a ++ b ++ c) →
    x_load s (p + Z.of_nat (length a)) (Z.of_nat (length b)) = Ok b;
  view_getlong s q s' p bs : x_getlong s = Ok (q, s') → view s p bs → view s' p bs;
  view_getbytes s len q got s' p bs :
    x_getbytes s len = Ok (q, got, s') → view s p bs → view s' p bs;
  view_inline s len q s' p bs : x_inline s len = Ok (q, s') → view s p bs → view s' p bs;
  enc_inline {k} s o n len : enc k s o n → 0 ≤ len < W31 →
    ∃ q s', x_inline s len = Ok (q, s') ∧
      match q with
      | None => enc k s' o n
      | Some p => len ≤ n ∧ ∃ old, Z.of_nat (length old) = len ∧ hole k s' o p old (n - len)
      end;
  hole_store {k} s o p a b b' c n : hole k s o p (a ++ b ++ c) n → length b' = length b →
    ∃ s', x_store s (p + Z.of_nat (length a)) b' = Ok s' ∧ hole k s' o p (a ++ b' ++ c) n;
  hole_enc {k} s o p old n : hole k s o p old n → enc k s (o ++ old) n
}.

(** ** Codecs *)

Section codec.
Context {S : Type} `{XdrStream S}.

(** [codec proc spec ok init]: on the objects that satisfy [ok], [proc] encodes
    [t] as [spec t], and decodes [spec t] to [t] whatever follows it in the
    stream, when the object it decodes into satisfies [init]. *)
Record codec {T} (proc : xdrproc S T) (spec : T → list Z) (ok : T → Prop)
    (init : T → T → Prop) : Prop := Codec {
  codec_units t : ok t → units (spec t);
  codec_enc {k} s o n t : ok t → enc k s o n → Z.of_nat (length (spec t)) ≤ n →
    ∃ s', proc s t = Ok (true, t, s') ∧ enc k s' (o ++ spec t) (n - Z.of_nat (length (spec t)));
  codec_dec s t t0 r : ok t → init t0 t → dec s (spec t ++ r) → units r →
    ∃ s', proc s t0 = Ok (true, t, s') ∧ dec s' r
}.

Lemma enc_cong {k} s o n o' n' : enc k s o n → o = o' → n = n' → enc k s o' n'.
Proof. by intros ? -> ->. Qed.

Definition any {T} (_ _ : T) : Prop := True.

Lemma is_s32_s32 v : is_s32 v → s32 v = v.
Proof. apply s32_small. Qed.

(** A one-word filter: encoding puts [f t], decoding gets [g l]. *)
Lemma word_codec {T} (proc : xdrproc S T) (f : T → Z) (g : Z → T) (ok : T → Prop) :
  (∀ t, ok t → is_s32 (s32 (f t)) ∧ g (s32 (f t)) = t) →
  (∀ s t, ok t → x_op s = XDR_ENCODE →
     proc s t = ('(b, s) ← x_putlong s (s32 (f t)); Ok (b, t, s))) →
  (∀ s t, x_op s = XDR_DECODE →
     proc s t = ('(q, s) ← x_getlong s;
       Ok (match q with Some l => (true, g l, s) | None => (false, t, s) end))) →
  codec proc (λ t, be32 (f t)) ok any.
Proof.
  intros Hok He Hd. constructor.
  - intros t _. apply units_be32.
  - intros k s o n t Ht Hs Hn. destruct (Hok t Ht) as [Hr _].
    rewrite (He s t Ht (enc_op _ _ _ Hs)).
    destruct (enc_putlong s o n (s32 (f t)) Hs ltac:(lens) Hr) as (s' & -> & Hs').
    exists s'. split; [done|]. by rewrite be32_s32 in Hs'.
  - intros s t t0 r Ht _ Hs Hr. destruct (Hok t Ht) as [_ Hg].
    rewrite (Hd s t0 (dec_op _ _ Hs)).
    destruct (dec_getlong s (f t) r Hs Hr) as (s' & -> & Hs'). exists s'. simpl. by rewrite Hg.
Qed.

Lemma xdr_long_codec : codec xdr_long be32 is_s32 any.
Proof.
  apply (word_codec xdr_long id id).
  - intros t Ht. simpl. rewrite is_s32_s32 by done. done.
  - intros s t Ht Hs. unfold xdr_long. rewrite Hs. simpl. by rewrite is_s32_s32.
  - intros s t Hs. unfold xdr_long. by rewrite Hs.
Qed.

Lemma xdr_u_long_codec : codec xdr_u_long be32 is_u32 any.
Proof.
  apply (word_codec xdr_u_long id u32).
  - intros t Ht. split; [apply s32_range|]. simpl. rewrite u32_s32. by apply u32_small.
  - intros s t Ht Hs. unfold xdr_u_long. by rewrite Hs.
  - intros s t Hs. unfold xdr_u_long. by rewrite Hs.
Qed.

Lemma xdr_short_codec : codec xdr_short be32 (λ t, -32768 ≤ t < 32768) any.
Proof.
  apply (word_codec xdr_short id to_short).
  - intros t Ht. simpl. rewrite is_s32_s32 by (unfold_words; lia). unfold to_short.
    rewrite Z.mod_small by lia. unfold_words. lia.
  - intros s t Ht Hs. unfold xdr_short. rewrite Hs. simpl.
    by rewrite is_s32_s32 by (unfold_words; lia).
  - intros s t Hs. unfold xdr_short. by rewrite Hs.
Qed.

Lemma xdr_u_short_codec : codec xdr_u_short be32 (λ t, 0 ≤ t < 65536) any.
Proof.
  apply (word_codec xdr_u_short id to_u_short).
  - intros t Ht. simpl. rewrite is_s32_s32 by (unfold_words; lia). unfold to_u_short.
    rewrite Z.mod_small by lia. unfold_words. lia.
  - intros s t Ht Hs. unfold xdr_u_short. rewrite Hs. simpl.
    by rewrite is_s32_s32 by (unfold_words; lia).
  - intros s t Hs. unfold xdr_u_short. by rewrite Hs.
Qed.

Lemma xdr_bool_codec : codec xdr_bool be32 (λ t, t = 0 ∨ t = 1) any.
Proof.
  apply (word_codec xdr_bool id (λ l, if l =? 0 then 0 else 1)).
  - intros t [-> | ->]; (split; [apply s32_range|reflexivity]).
  - intros s t Ht Hs. unfold xdr_bool. rewrite Hs. by destruct Ht as [-> | ->].
  - intros s t Hs. unfold xdr_bool. by rewrite Hs.
Qed.

Lemma xdr_char_codec : codec xdr_char be32 (λ t, -128 ≤ t < 128) any.
Proof.
  assert (Hs8 : ∀ t, -128 ≤ t < 128 → is_s32 t) by (unfold_words; lia).
  constructor; [auto with kern| |].
  - intros k s o n t Ht Hs Hn.
    destruct (codec_enc _ _ _ _ xdr_long_codec s o n t (Hs8 t Ht) Hs Hn) as (s' & Hp & Hs').
    exists s'. split; [|done]. unfold xdr_char, xdr_int. rewrite Hp. simpl. unfold to_char.
    rewrite Z.mod_small by lia. by rewrite Z.add_simpl_r.
  - intros s t t0 r Ht _ Hs Hr.
    destruct (codec_dec _ _ _ _ xdr_long_codec s t t0 r (Hs8 t Ht) I Hs Hr) as (s' & Hp & Hs').
    exists s'. split; [|done]. unfold xdr_char, xdr_int. rewrite Hp. simpl. unfold to_char.
    rewrite Z.mod_small by lia. by rewrite Z.add_simpl_r.
Qed.

(** *** Two words *)

Definition spec_ll (t : Z) : list Z := be32 (ll_hi t) ++ be32 (ll_lo t).

Lemma xdr_longlong_codec :
  codec xdr_longlong_t spec_ll (λ t, -9223372036854775808 ≤ t < 9223372036854775808) any.
Proof.
  constructor.
  - intros t _. unfold spec_ll. auto with kern.
  - intros k s o n t Ht Hs Hn. unfold xdr_longlong_t. rewrite (enc_op _ _ _ Hs).
    assert (8 ≤ n) by (unfold spec_ll in Hn; lens).
    destruct (enc_putlong s o n (ll_hi t) Hs ltac:(lia) (s32_range _)) as (s1 & -> & Hs1). simpl.
    destruct (enc_putlong s1 _ _ (ll_lo t) Hs1 ltac:(lia) (s32_range _)) as (s2 & -> & Hs2). simpl.
    exists s2. split; [done|]. unfold spec_ll.
    eapply enc_cong; [exact Hs2|by rewrite app_assoc|lens].
  - intros s t t0 r Ht _ Hs Hr. unfold xdr_longlong_t. rewrite (dec_op _ _ Hs).
    unfold spec_ll in Hs. rewrite <- app_assoc in Hs.
    destruct (dec_getlong s _ _ Hs ltac:(auto with kern)) as (s1 & -> & Hs1). simpl.
    destruct (dec_getlong s1 _ _ Hs1 Hr) as (s2 & -> & Hs2). simpl.
    exists s2. split; [|done]. do 2 f_equal. f_equal. unfold ll_make, ll_hi, ll_lo.
    rewrite !(s32_small (s32 _)) by apply s32_range. rewrite u32_s32.
    rewrite (s32_small (Z.shiftr t 32)).
    + unfold u32. rewrite Z.shiftr_div_pow2 by lia. change (2 ^ 32) with W32.
      pose proof (Z.div_mod t W32 ltac:(unfold W32; lia)). lia.
    + rewrite Z.shiftr_div_pow2 by lia. unfold is_s32, W31. change (2 ^ 32) with 4294967296.
      split; [apply Z.div_le_lower_bound; lia|apply Z.div_lt_upper_bound; lia].
Qed.

Lemma xdr_u_longlong_codec :
  codec xdr_u_longlong_t spec_ll (λ t, 0 ≤ t < 18446744073709551616) any.
Proof.
  constructor.
  - intros t _. unfold spec_ll. auto with kern.
  - intros k s o n t Ht Hs Hn. unfold xdr_u_longlong_t. rewrite (enc_op _ _ _ Hs).
    assert (8 ≤ n) by (unfold spec_ll in Hn; lens).
    destruct (enc_putlong s o n (ll_hi t) Hs ltac:(lia) (s32_range _)) as (s1 & -> & Hs1). simpl.
    destruct (enc_putlong s1 _ _ (ll_lo t) Hs1 ltac:(lia) (s32_range _)) as (s2 & -> & Hs2). simpl.
    exists s2. split; [done|]. unfold spec_ll.
    eapply enc_cong; [exact Hs2|by rewrite app_assoc|lens].
  - intros s t t0 r Ht _ Hs Hr. unfold xdr_u_longlong_t. rewrite (dec_op _ _ Hs).
    unfold spec_ll in Hs. rewrite <- app_assoc in Hs.
    destruct (dec_getlong s _ _ Hs ltac:(auto with kern)) as (s1 & -> & Hs1). simpl.
    destruct (dec_getlong s1 _ _ Hs1 Hr) as (s2 & -> & Hs2). simpl.
    exists s2. split; [|done]. do 2 f_equal. f_equal. unfold ull_make, ll_hi, ll_lo.
    rewrite !u32_s32, (u32_small (Z.shiftr t 32)).
    + unfold u32. rewrite Z.shiftr_div_pow2 by lia. change (2 ^ 32) with W32.
      pose proof (Z.div_mod t W32 ltac:(unfold W32; lia)). lia.
    + rewrite Z.shiftr_div_pow2 by lia. unfold is_u32, W32. change (2 ^ 32) with 4294967296.
      split; [apply Z.div_pos; lia|apply Z.div_lt_upper_bound; lia].
Qed.

(** *** Opaque data *)

(** The number of zero bytes that complete a unit. *)
Definition pad (n : Z) : Z := if n mod 4 =? 0 then 0 else 4 - n mod 4.

Definition spec_opaque (bs : list Z) : list Z :=
  bs ++ replicate (Z.to_nat (pad (Z.of_nat (length bs)))) 0.

Lemma pad_bound n : 0 ≤ pad n < 4.
Proof. unfold pad. pose proof (Z.mod_pos_bound n 4 ltac:(lia)). case_if; lia. Qed.

Lemma pad_units n : (4 | n + pad n).
Proof.
  unfold pad. pose proof (Z.div_mod n 4 ltac:(lia)). case_if.
  - exists (n / 4). lia.
  - exists (n / 4 + 1). lia.
Qed.

Lemma spec_opaque_length bs :
  Z.of_nat (length (spec_opaque bs)) = Z.of_nat (length bs) + pad (Z.of_nat (length bs)).
Proof.
  unfold spec_opaque. rewrite length_app, length_replicate.
  pose proof (pad_bound (Z.of_nat (length bs))). lia.
Qed.

Lemma spec_opaque_units bs : units (spec_opaque bs).
Proof. unfold units. rewrite spec_opaque_length. apply pad_units. Qed.

(** Encoding the first [cnt] bytes of a buffer. *)
Lemma xdr_opaque_enc {k} s o n buf bs cnt :
  enc k s o n → cnt = Z.of_nat (length bs) → take (length bs) buf = bs → cnt < W31 →
  Z.of_nat (length (spec_opaque bs)) ≤ n →
  ∃ s', xdr_opaque s buf cnt = Ok (true, buf, s') ∧
    enc k s' (o ++ spec_opaque bs) (n - Z.of_nat (length (spec_opaque bs))).
Proof.
  intros Hs -> Hbuf Hlt Hn. rewrite spec_opaque_length in *. unfold xdr_opaque.
  assert (Hle : (length bs ≤ length buf)%nat) by (rewrite <- Hbuf, length_take; lia).
  pose proof (pad_bound (Z.of_nat (length bs))). unfold BYTES_PER_XDR_UNIT.
  destruct (decide (length bs = 0%nat)) as [E|E].
  - destruct bs; [|done]. simpl. exists s. split; [done|]. by rewrite app_nil_r, Z.sub_0_r.
  - rewrite (proj2 (Z.eqb_neq _ 0)) by lia. rewrite (enc_op _ _ _ Hs).
    rewrite s32_small by (unfold is_s32; lia).
    destruct (enc_putbytes s o n buf (Z.of_nat (length bs)) Hs) as (s1 & -> & Hs1); [lia|lia|].
    simpl. rewrite Nat2Z.id, Hbuf in Hs1. fold (pad (Z.of_nat (length bs))).
    unfold spec_opaque. destruct (Z.eqb_spec (pad (Z.of_nat (length bs))) 0) as [Hz|Hz].
    + rewrite Hz. simpl. exists s1. split; [done|]. by rewrite app_nil_r, Z.add_0_r.
    + destruct (enc_putbytes s1 _ _ [0; 0; 0; 0] (pad (Z.of_nat (length bs))) Hs1)
        as (s2 & -> & Hs2); [lia|simpl; lia|]. simpl. exists s2. split; [done|].
      rewrite <- app_assoc, <- Z.sub_add_distr in Hs2.
      change [0; 0; 0; 0] with (replicate 4 0) in Hs2.
      by rewrite take_replicate, Nat.min_l in Hs2 by lia.
Qed.

(** Decoding [cnt] bytes into a buffer that has room for them. *)
Lemma xdr_opaque_dec s buf bs cnt r :
  dec s (spec_opaque bs ++ r) → cnt = Z.of_nat (length bs) → (length bs ≤ length buf)%nat →
  cnt < W31 →
  ∃ s', xdr_opaque s buf cnt = Ok (true, bs ++ drop (length bs) buf, s') ∧ dec s' r.
Proof.
  intros Hs -> Hle Hlt. unfold xdr_opaque, spec_opaque in *.
  pose proof (pad_bound (Z.of_nat (length bs))). unfold BYTES_PER_XDR_UNIT.
  destruct (decide (length bs = 0%nat)) as [E|E].
  - destruct bs; [|done]. simpl in *. by exists s.
  - rewrite (proj2 (Z.eqb_neq _ 0)) by lia. rewrite (dec_op _ _ Hs).
    rewrite s32_small by (unfold is_s32; lia). rewrite <- app_assoc in Hs.
    destruct (dec_getbytes s _ _ (Z.of_nat (length bs)) Hs eq_refl ltac:(lia)) as (s1 & -> & Hs1).
    simpl. unfold fill. rewrite (proj2 (Nat.leb_le _ _) Hle). simpl.
    fold (pad (Z.of_nat (length bs))).
    destruct (Z.eqb_spec (pad (Z.of_nat (length bs))) 0) as [Hz|Hz].
    + rewrite Hz in Hs1. by exists s1.
    + destruct (dec_getbytes s1 _ _ (pad (Z.of_nat (length bs))) Hs1) as (s2 & -> & Hs2);
        [rewrite length_replicate; lia|unfold W31; lia|]. by exists s2.
Qed.

(** *** Counted bytes *)

Definition spec_bytes (t : option (list Z) * Z) : list Z :=
  be32 t.2 ++ spec_opaque (default [] t.1).

(** The objects [xdr_bytes] round-trips: a buffer of exactly [n] bytes, no buffer
    when [n] is 0. *)
Definition bytes_ok (maxsize : Z) (t : option (list Z) * Z) : Prop :=
  t.2 ≤ maxsize ∧ t.2 < W31 ∧ t.2 = Z.of_nat (length (default [] t.1)) ∧ t.1 ≠ Some [].

(** A null pointer, or a buffer of the right size. *)
Definition bytes_init (t0 t : option (list Z) * Z) : Prop :=
  match t0.1 with
  | None => True
  | Some b => t.2 ≠ 0 ∧ Z.of_nat (length b) = t.2
  end.

Lemma xdr_bytes_codec maxsize :
  codec (xdr_bytes maxsize) spec_bytes (bytes_ok maxsize) bytes_init.
Proof.
  constructor.
  - intros t _. apply units_app; [apply units_be32|apply spec_opaque_units].
  - intros k s o n [sp m] (Hmax & Hlt & Hm & Hne) Hs Hn. unfold spec_bytes in *. simpl in *.
    unfold xdr_bytes.
    destruct (codec_enc _ _ _ _ xdr_u_long_codec (k:=k) s o n m) as (s1 & Hp & Hs1);
      [unfold is_u32, W32, W31 in *; lia|done|lens|].
    unfold xdr_u_int. rewrite Hp. simpl. rewrite (enc_op _ _ _ Hs1).
    rewrite (proj2 (Z.ltb_ge _ _)) by lia. simpl.
    destruct (xdr_opaque_enc s1 _ _ (default [] sp) (default [] sp) m Hs1) as (s2 & Hp2 & Hs2);
      [done|apply firstn_all|done|lens|].
    rewrite Hp2. simpl. exists s2. split; [done|].
    eapply enc_cong; [exact Hs2|by rewrite <- app_assoc|lens].
  - intros s [sp m] [sp0 m0] r (Hmax & Hlt & Hm & Hne) Hi Hs Hr. unfold spec_bytes in Hs.
    simpl in *. rewrite <- app_assoc in Hs. unfold xdr_bytes.
    destruct (codec_dec _ _ _ _ xdr_u_long_codec s m m0 _ ltac:(unfold is_u32, W32, W31 in *; lia) I Hs)
      as (s1 & Hp & Hs1); [apply units_app; [apply spec_opaque_units|done]|].
    unfold xdr_u_int. rewrite Hp. simpl. rewrite (dec_op _ _ Hs1).
    rewrite (proj2 (Z.ltb_ge _ _)) by lia. simpl. case_if.
    + destruct sp as [[|]|]; simpl in *; [done|lia|]. destruct sp0; [|].
      * unfold bytes_init in Hi. simpl in Hi. lia.
      * exists s1. by subst.
    + destruct sp as [b|]; simpl in *; [|lia].
      set (buf := match sp0 with Some b0 => b0 | None => mem_alloc m end).
      assert (Hlb : length buf = length b).
      { unfold buf, mem_alloc, bytes_init in *. destruct sp0; simpl in *.
        - lia. - rewrite length_replicate. lia. }
      destruct (xdr_opaque_dec s1 buf b m r Hs1 Hm ltac:(lia) ltac:(lia)) as (s2 & Hp2 & Hs2).
      rewrite Hp2. simpl. exists s2. split; [|done]. by rewrite drop_ge, app_nil_r by lia.
Qed.

(** *** C strings *)

(** The string held in a buffer: its bytes before the first 0. *)
Fixpoint cstr (b : list Z) : list Z :=
  match b with
  | [] => []
  | c :: b => if c =? 0 then [] else c :: cstr b
  end.

Definition spec_string (t : option (list Z)) : list Z :=
  let str := cstr (default [] t) in be32 (Z.of_nat (length str)) ++ spec_opaque str.

Definition string_ok (maxsize : Z) (t : option (list Z)) : Prop :=
  ∃ str, t = Some (str ++ [0]) ∧ Forall (λ c, c ≠ 0) str ∧
    Z.of_nat (length str) ≤ maxsize ∧ Z.of_nat (length str) + 1 < W31.

Definition string_init (t0 t : option (list Z)) : Prop :=
  match t0 with
  | None => True
  | Some b => length b = length (default [] t)
  end.

Lemma cstr_app str rest : Forall (λ c, c ≠ 0) str → cstr (str ++ 0 :: rest) = str.
Proof. induction 1; simpl; [done|]. rewrite (proj2 (Z.eqb_neq _ _)) by done. by f_equal. Qed.

Lemma strlen_app str rest :
  Forall (λ c, c ≠ 0) str → strlen (str ++ 0 :: rest) = Ok (Z.of_nat (length str)).
Proof.
  induction 1 as [|c str Hc _ IH]; simpl; [done|]. rewrite (proj2 (Z.eqb_neq _ _)) by done.
  rewrite IH. simpl. f_equal. lia.
Qed.

Lemma xdr_string_enc {k} maxsize s o n t :
  string_ok maxsize t → enc k s o n → Z.of_nat (length (spec_string t)) ≤ n →
  ∃ s', xdr_string maxsize s t = Ok (true, t, s') ∧
    enc k s' (o ++ spec_string t) (n - Z.of_nat (length (spec_string t))).
Proof.
  intros (str & -> & Hnz & Hmax & Hlt) Hs Hn. unfold xdr_string. rewrite (enc_op _ _ _ Hs). simpl.
  unfold spec_string in *. simpl in *. rewrite cstr_app in * by done. rewrite strlen_app by done. simpl.
  destruct (codec_enc _ _ _ _ xdr_u_long_codec (k:=k) s o n (Z.of_nat (length str))) as (s1 & Hp & Hs1);
    [unfold is_u32, W32, W31 in *; lia|done|lens|].
  unfold xdr_u_int. rewrite Hp. simpl. rewrite (proj2 (Z.ltb_ge _ _)) by lia.
  rewrite (enc_op _ _ _ Hs1).
  destruct (xdr_opaque_enc s1 _ _ (str ++ [0]) str _ Hs1 eq_refl) as (s2 & Hp2 & Hs2);
    [by rewrite take_app_le, firstn_all by lia|lia|lens|].
  rewrite Hp2. exists s2. split; [done|].
  eapply enc_cong; [exact Hs2|by rewrite <- app_assoc|lens].
Qed.

Lemma xdr_string_dec maxsize s t t0 r :
  string_ok maxsize t → string_init t0 t → dec s (spec_string t ++ r) → units r →
  ∃ s', xdr_string maxsize s t0 = Ok (true, t, s') ∧ dec s' r.
Proof.
  intros (str & -> & Hnz & Hmax & Hlt) Hi Hs Hr. unfold xdr_string. rewrite (dec_op _ _ Hs).
  unfold spec_string, string_init in *. simpl in *. rewrite cstr_app in * by done.
  rewrite <- app_assoc in Hs.
  destruct (codec_dec _ _ _ _ xdr_u_long_codec s (Z.of_nat (length str)) 0 _
    ltac:(unfold is_u32, W32, W31 in *; lia) I Hs) as (s1 & Hp & Hs1);
    [apply units_app; [apply spec_opaque_units|done]|].
  unfold xdr_u_int. rewrite Hp. simpl. rewrite (proj2 (Z.ltb_ge _ _)) by lia.
  rewrite (dec_op _ _ Hs1), add32_small by (unfold W31, W32 in *; lia).
  rewrite (proj2 (Z.eqb_neq _ _)) by lia.
  set (buf := match t0 with Some b0 => b0 | None => _ end).
  assert (Hlb : length buf = (length str + 1)%nat).
  { unfold buf, mem_alloc. destruct t0; [rewrite Hi; lens|lens]. }
  clearbody buf.
  unfold set_byte. rewrite (proj2 (Z.leb_le 0 _)), (proj2 (Z.ltb_lt _ _)) by lia. simpl.
  rewrite Nat2Z.id.
  destruct (xdr_opaque_dec s1 (<[length str := 0]> buf) str _ r Hs1 eq_refl) as (s2 & Hp2 & Hs2);
    [rewrite length_insert; lia|lia|].
  rewrite Hp2. simpl. assert (drop (length str) (<[length str := 0]> buf) = [0]) as ->.
  { destruct (unsnoc buf) as [[i x]|] eqn:E; [|apply unsnoc_None in E; subst; simpl in Hlb; lia].
    apply unsnoc_Some in E. subst buf. rewrite length_app in Hlb. simpl in Hlb.
    replace (length str) with (length i + 0)%nat by lia. rewrite insert_app_r.
    rewrite Nat.add_0_r, drop_app_length. done. }
  rewrite strlen_app by done. simpl. rewrite Z.eqb_refl. exists s2. done.
Qed.

Lemma xdr_string_codec maxsize :
  codec (xdr_string maxsize) spec_string (string_ok maxsize) string_init.
Proof.
  constructor; [|intros; by apply xdr_string_enc|intros; by eapply xdr_string_dec].
  intros t _. apply units_app; [apply units_be32|apply spec_opaque_units].
Qed.

(** *** Arrays *)

Section array.
Context {T : Type} (elproc : xdrproc S T) (spec : T → list Z) (ok : T → Prop)
  (init : T → T → Prop) (zero : T).
Context (Hel : codec elproc spec ok init) (Hzero : ∀ t, ok t → init zero t).

Definition spec_elems (ts : list T) : list Z := concat (map spec ts).

Definition spec_array (t : option (list T) * Z) : list Z :=
  be32 t.2 ++ spec_elems (default [] t.1).

Definition array_ok (maxsize elsize : Z) (t : option (list T) * Z) : Prop :=
  t.2 ≤ maxsize ∧ t.2 * elsize < W32 ∧ t.2 = Z.of_nat (length (default [] t.1)) ∧
  t.1 ≠ Some [] ∧ Forall ok (default [] t.1).

Lemma spec_elems_units ts : Forall ok ts → units (spec_elems ts).
Proof using Hel.
  induction 1; unfold spec_elems in *; simpl; [apply units_nil|].
  apply units_app; [by apply Hel|done].
Qed.

Lemma xdr_elems_enc {k} s o n ts i c :
  Forall ok ts → c - i = Z.of_nat (length ts) → enc k s o n →
  Z.of_nat (length (spec_elems ts)) ≤ n →
  ∃ s', xdr_elems elproc i c s ts = Ok (true, ts, s') ∧
    enc k s' (o ++ spec_elems ts) (n - Z.of_nat (length (spec_elems ts))).
Proof using Hel.
  intros Hok. revert k s o n i. induction Hok as [|t ts Ht Hok IH]; intros k s o n i Hc Hs Hn; simpl in *.
  - rewrite (proj2 (Z.ltb_ge i c)) by lia. exists s. split; [done|].
    eapply enc_cong; [exact Hs|by rewrite app_nil_r|unfold spec_elems; simpl; lia].
  - rewrite (proj2 (Z.ltb_lt i c)) by lia. unfold spec_elems in *. simpl in *.
    rewrite length_app in *. destruct (codec_enc _ _ _ _ Hel s o n t Ht Hs) as (s1 & -> & Hs1); [lia|].
    simpl. destruct (IH k s1 _ _ (i + 1) ltac:(lia) Hs1) as (s2 & -> & Hs2); [lia|]. simpl.
    exists s2. split; [done|]. eapply enc_cong; [exact Hs2|by rewrite <- app_assoc|lia].
Qed.

Lemma xdr_elems_dec s r ts i c :
  Forall ok ts → c - i = Z.of_nat (length ts) → dec s (spec_elems ts ++ r) → units r →
  ∃ s', xdr_elems elproc i c s (replicate (length ts) zero) = Ok (true, ts, s') ∧ dec s' r.
Proof using Hel Hzero.
  intros Hok. revert s i. induction Hok as [|t ts Ht Hok IH]; intros s i Hc Hs Hr; simpl in *.
  - rewrite (proj2 (Z.ltb_ge i c)) by lia. by exists s.
  - rewrite (proj2 (Z.ltb_lt i c)) by lia. unfold spec_elems in *. simpl in *.
    rewrite <- app_assoc in Hs.
    destruct (codec_dec _ _ _ _ Hel s t zero _ Ht (Hzero t Ht) Hs) as (s1 & -> & Hs1).
    { apply units_app; [by apply spec_elems_units|done]. }
    simpl. destruct (IH s1 (i + 1) ltac:(lia) Hs1 Hr) as (s2 & -> & Hs2). simpl. by exists s2.
Qed.

Lemma xdr_array_codec maxsize elsize :
  0 < elsize →
  codec (xdr_array zero maxsize elsize elproc) spec_array (array_ok maxsize elsize)
    (λ t0 _, t0.1 = None).
Proof using Hel Hzero.
  intros Hsz. constructor.
  - intros t (_ & _ & _ & _ & Hok). apply units_app; [apply units_be32|by apply spec_elems_units].
  - intros k s o n [ts c] (Hmax & Hlt & Hc & Hne & Hok) Hs Hn. unfold spec_array in *. simpl in *.
    unfold xdr_array. destruct (codec_enc _ _ _ _ xdr_u_long_codec (k:=k) s o n c) as (s1 & Hp & Hs1);
      [unfold is_u32; nia|done|lens|].
    unfold xdr_u_int. rewrite Hp. simpl. rewrite (enc_op _ _ _ Hs1).
    rewrite (proj2 (Z.ltb_ge _ _)) by lia. simpl.
    destruct (xdr_elems_enc s1 _ _ (default [] ts) 0 c Hok ltac:(lia) Hs1) as (s2 & Hp2 & Hs2); [lens|].
    exists s2. split; [|eapply enc_cong; [exact Hs2|by rewrite <- app_assoc|lens]].
    destruct ts; simpl in *; by rewrite Hp2.
  - intros s [ts c] [ts0 c0] r (Hmax & Hlt & Hc & Hne & Hok) Hi Hs Hr. unfold spec_array in *.
    simpl in *. subst ts0. rewrite <- app_assoc in Hs. unfold xdr_array.
    destruct (codec_dec _ _ _ _ xdr_u_long_codec s c c0 _ ltac:(unfold is_u32; nia) I Hs)
      as (s1 & Hp & Hs1); [apply units_app; [by apply spec_elems_units|done]|].
    unfold xdr_u_int. rewrite Hp. simpl. rewrite (dec_op _ _ Hs1).
    rewrite (proj2 (Z.ltb_ge _ _)) by lia. simpl. case_if.
    + destruct ts as [[|]|]; simpl in *; [done|lia|]. exists s1. by subst.
    + destruct ts as [ts|]; simpl in *; [|lia].
      assert (mul32 c elsize / elsize = c) as ->.
      { unfold mul32. rewrite u32_small by (unfold is_u32; nia). apply Z.div_mul. lia. }
      assert (Z.to_nat c = length ts) as -> by lia.
      destruct (xdr_elems_dec s1 r ts 0 c Hok ltac:(lia) Hs1 Hr) as (s2 & -> & Hs2). by exists s2.
Qed.
End array.

(** *** Discriminated unions *)

Lemma xdr_union_codec {U} (choices : list (Z * xdrproc S U)) (dfault : option (xdrproc S U))
    (spec : Z → U → list Z) (ok : Z → U → Prop) (init : Z → U → U → Prop) :
  (∀ d p, find_choice d choices = Some p → codec p (spec d) (ok d) (init d)) →
  (∀ d p, find_choice d choices = None → dfault = Some p → codec p (spec d) (ok d) (init d)) →
  codec (xdr_union choices dfault) (λ t, be32 t.1 ++ spec t.1 t.2)
    (λ t, is_s32 t.1 ∧ ok t.1 t.2 ∧ (find_choice t.1 choices = None → dfault ≠ None))
    (λ t0 t, init t.1 t0.2 t.2).
Proof.
  intros Hch Hdf.
  assert (Harm : ∀ d, (find_choice d choices = None → dfault ≠ None) →
    ∃ p, codec p (spec d) (ok d) (init d) ∧ ∀ (s : S) (u : U) (f : bool * U * S → res (bool * (Z * U) * S)),
      match find_choice d choices with
      | Some proc => r ← proc s u; f r
      | None => match dfault with
                | None => Ok (false, (d, u), s)
                | Some proc => r ← proc s u; f r
                end
      end = (r ← p s u; f r)).
  { intros d Hd. destruct (find_choice d choices) as [p|] eqn:E; [exists p; eauto|].
    destruct dfault as [p|]; [exists p; eauto|by destruct Hd]. }
  constructor.
  - intros [d u] (Hd & Hu & Hsome). destruct (Harm d Hsome) as (p & Hp & _).
    apply units_app; [apply units_be32|by apply Hp].
  - intros k s o n [d u] (Hd & Hu & Hsome) Hs Hn. simpl in *.
    destruct (Harm d Hsome) as (p & Hp & Hrun). unfold xdr_union, xdr_enum.
    destruct (codec_enc _ _ _ _ xdr_long_codec s o n d Hd Hs) as (s1 & -> & Hs1); [lens|].
    simpl. rewrite Hrun.
    destruct (codec_enc _ _ _ _ Hp s1 _ _ u Hu Hs1) as (s2 & -> & Hs2); [lens|].
    exists s2. split; [done|]. eapply enc_cong; [exact Hs2|by rewrite <- app_assoc|lens].
  - intros s [d u] [d0 u0] r (Hd & Hu & Hsome) Hi Hs Hr. simpl in *.
    destruct (Harm d Hsome) as (p & Hp & Hrun). unfold xdr_union, xdr_enum.
    rewrite <- app_assoc in Hs.
    destruct (codec_dec _ _ _ _ xdr_long_codec s d d0 _ Hd I Hs) as (s1 & -> & Hs1).
    { apply units_app; [by apply Hp|done]. }
    simpl. rewrite Hrun.
    destruct (codec_dec _ _ _ _ Hp s1 u u0 r Hu Hi Hs1 Hr) as (s2 & -> & Hs2). by exists s2.
Qed.

(** *** Pointers *)

Lemma xdr_pointer_codec {T} (zero : T) (proc : xdrproc S T) (spec : T → list Z) (ok : T → Prop)
    (init : T → T → Prop) :
  codec proc spec ok init → (∀ t, ok t → init zero t) →
  codec (xdr_pointer zero proc)
    (λ t, match t with None => be32 0 | Some t => be32 1 ++ spec t end)
    (λ t, match t with None => True | Some t => ok t end)
    (λ t0 _, t0 = None).
Proof.
  intros Hp Hz. constructor.
  - intros [t|] Ht; [apply units_app; [apply units_be32|by apply Hp]|apply units_be32].
  - intros k s o n [t|] Ht Hs Hn; unfold xdr_pointer.
    + destruct (codec_enc _ _ _ _ xdr_bool_codec s o n 1 ltac:(by right) Hs) as (s1 & -> & Hs1); [lens|].
      simpl. rewrite (enc_op _ _ _ Hs1).
      destruct (codec_enc _ _ _ _ Hp s1 _ _ t Ht Hs1) as (s2 & -> & Hs2); [lens|].
      exists s2. split; [done|]. eapply enc_cong; [exact Hs2|by rewrite <- app_assoc|lens].
    + destruct (codec_enc _ _ _ _ xdr_bool_codec s o n 0 ltac:(by left) Hs) as (s1 & -> & Hs1); [lens|].
      by exists s1.
  - intros s t t0 r Ht -> Hs Hr. unfold xdr_pointer. destruct t as [t|].
    + rewrite <- app_assoc in Hs.
      destruct (codec_dec _ _ _ _ xdr_bool_codec s 1 0 _ ltac:(by right) I Hs) as (s1 & -> & Hs1).
      { apply units_app; [by apply Hp|done]. }
      simpl. rewrite (dec_op _ _ Hs1).
      destruct (codec_dec _ _ _ _ Hp s1 t zero r Ht (Hz t Ht) Hs1 Hr) as (s2 & -> & Hs2). by exists s2.
    + destruct (codec_dec _ _ _ _ xdr_bool_codec s 0 0 _ ltac:(by left) I Hs Hr) as (s1 & -> & Hs1).
      by exists s1.
Qed.

End codec.
