(* ===== verification/XdrMem.v ===== *)
(** * XDR on memory buffers (uts/common/rpc/xdr_mem.c)

    The handle of a memory stream is the fields of [XDR] that xdr_mem.c uses,
    with the memory they point into.  Pointers are 32-bit addresses, [x_handy] is
    an [int]; the subtractions wrap and the comparisons are signed or unsigned as
    in the code. *)

From S2P Require Import Prelude Xdr XdrCodec.

(** ** The handle and its operations *)

Record XDRmem := MkXDRmem {
  xm_op : xdr_op;
  x_private : Z;
  x_base : Z;
  x_handy : Z;
  xm_mem : gmap Z Z
}.

Definition xdrmem_create (m : gmap Z Z) (addr size : Z) (op : xdr_op) : XDRmem :=
  MkXDRmem op addr addr (s32 size) m.

(** The handle after [x_handy] and [x_private] were assigned. *)
Definition advance (s : XDRmem) (handy private : Z) : XDRmem :=
  MkXDRmem (xm_op s) private (x_base s) handy (xm_mem s).

Definition with_mem (s : XDRmem) (m : gmap Z Z) : XDRmem :=
  MkXDRmem (xm_op s) (x_private s) (x_base s) (x_handy s) m.

(** [sizeof (long)]. *)
Definition sizeof_long : Z := 4.

Definition load_long (m : gmap Z Z) (p : Z) : res Z :=
  bs ← load_bytes m p 4; deref (of_be32 bs).

Definition xdrmem_getlong (s : XDRmem) : res (option Z * XDRmem) :=
  let handy := s32 (x_handy s - sizeof_long) in
  if handy <? 0 then Ok (None, advance s handy (x_private s))
  else
    l ← load_long (xm_mem s) (x_private s);
    Ok (Some l, advance s handy (add32 (x_private s) sizeof_long)).

Definition xdrmem_putlong (s : XDRmem) (l : Z) : res (bool * XDRmem) :=
  let handy := s32 (x_handy s - sizeof_long) in
  if handy <? 0 then Ok (false, advance s handy (x_private s))
  else
    m ← store_bytes (xm_mem s) (x_private s) (be32 l);
    Ok (true, advance (with_mem s m) handy (add32 (x_private s) sizeof_long)).

Definition xdrmem_getbytes (s : XDRmem) (len : Z) : res (bool * list Z * XDRmem) :=
  let handy := s32 (x_handy s - len) in
  if handy <? 0 then Ok (false, [], advance s handy (x_private s))
  else
    bs ← bcopy_from (xm_mem s) (x_private s) len;
    Ok (true, bs, advance s handy (add32 (x_private s) len)).

Definition xdrmem_putbytes (s : XDRmem) (buf : list Z) (len : Z) : res (bool * XDRmem) :=
  let handy := s32 (x_handy s - len) in
  if handy <? 0 then Ok (false, advance s handy (x_private s))
  else
    m ← bcopy_to (xm_mem s) (x_private s) buf len;
    Ok (true, advance (with_mem s m) handy (add32 (x_private s) len)).

Definition xdrmem_getpos (s : XDRmem) : res Z := Ok (sub32 (x_private s) (x_base s)).

Definition xdrmem_setpos (s : XDRmem) (pos : Z) : res (bool * XDRmem) :=
  let newaddr := add32 (x_base s) pos in
  let lastaddr := add32 (x_private s) (x_handy s) in
  if s32 lastaddr <? s32 newaddr then Ok (false, s)
  else Ok (true, advance s (s32 (s32 lastaddr - s32 newaddr)) newaddr).

Definition xdrmem_inline (s : XDRmem) (len : Z) : res (option Z * XDRmem) :=
  if len <=? x_handy s then
    Ok (Some (x_private s), advance s (s32 (x_handy s - len)) (add32 (x_private s) len))
  else Ok (None, s).

(** [RNDUP] on an [int]: C's division truncates. *)
Definition RNDUP_int (x : Z) : Z := s32 (Z.quot (s32 (x + 3)) 4 * 4).

(** [xdrmem_control]: [Some v] is [TRUE] with [v] stored through [info] (the
    number skipped, unchanged, for [XDR_SKIPBYTES]).  [x_handy < sizeof (long)]
    compares unsigned values. *)
Definition xdrmem_control (s : XDRmem) (request info : Z) : res (option Z * XDRmem) :=
  if request =? XDR_PEEK then
    if u32 (x_handy s) <? sizeof_long then Ok (None, s)
    else l ← load_long (xm_mem s) (x_private s); Ok (Some l, s)
  else if request =? XDR_SKIPBYTES then
    let len := RNDUP_int info in
    let handy := s32 (x_handy s - len) in
    if handy <? 0 then Ok (None, advance s handy (x_private s))
    else Ok (Some info, advance s handy (add32 (x_private s) len))
  else Ok (None, s).

(** [xdrmem_ops]: the vector of the memory stream. *)
#[global] Instance xdrmem_ops : XdrOps XDRmem := {
  x_op := xm_op;
  x_getlong := xdrmem_getlong;
  x_putlong := xdrmem_putlong;
  x_getbytes := xdrmem_getbytes;
  x_putbytes := xdrmem_putbytes;
  x_getpostn := xdrmem_getpos;
  x_setpostn := xdrmem_setpos;
  x_inline := xdrmem_inline;
  x_control := xdrmem_control;
  x_set_op s op := MkXDRmem op (x_private s) (x_base s) (x_handy s) (xm_mem s);
  x_load s p len := bcopy_from (xm_mem s) p len;
  x_store s p bs := m ← store_bytes (xm_mem s) p bs; Ok (with_mem s m)
}.

(** ** The stream laws *)

Definition mem_dec (s : XDRmem) (l : list Z) : Prop :=
  xm_op s = XDR_DECODE ∧ has (xm_mem s) (x_private s) l ∧ x_handy s = Z.of_nat (length l) ∧
  0 ≤ x_private s ∧ x_private s + Z.of_nat (length l) < W32 ∧ Z.of_nat (length l) < W31.

Definition mem_enc (k : Z) (s : XDRmem) (o : list Z) (n : Z) : Prop :=
  xm_op s = XDR_ENCODE ∧ x_base s = k ∧ x_handy s = n ∧ x_private s = x_base s + Z.of_nat (length o) ∧
  0 ≤ x_base s ∧ 0 ≤ n < W31 ∧ x_private s + n < W32 ∧
  ∃ room, Z.of_nat (length room) = n ∧ has (xm_mem s) (x_base s) (o ++ room).

Definition mem_hole (k : Z) (s : XDRmem) (o : list Z) (p : Z) (old : list Z) (n : Z) : Prop :=
  mem_enc k s (o ++ old) n ∧ p = x_base s + Z.of_nat (length o).

Lemma mem_dec_getlong s v r :
  mem_dec s (be32 v ++ r) →
  ∃ s', xdrmem_getlong s = Ok (Some (s32 v), s') ∧ mem_dec s' r.
Proof.
  intros (Ho & Hm & Hh & Hp & Ht & Hl). unfold xdrmem_getlong, sizeof_long.
  rewrite length_app, length_be32 in *. apply has_app in Hm as [Hv Hr]. rewrite length_be32 in Hr.
  rewrite s32_small by (unfold is_s32; lia). rewrite (proj2 (Z.ltb_ge _ _)) by lia.
  unfold load_long. change 4%nat with (length (be32 v)). rewrite (load_has _ _ _ Hv). simpl.
  rewrite of_be32_be32. simpl. eexists. split; [done|]. unfold mem_dec. simpl.
  rewrite add32_small by lia. split_and!; auto; lia.
Qed.

Lemma mem_dec_getbytes s bs r len :
  mem_dec s (bs ++ r) → len = Z.of_nat (length bs) → 0 ≤ len < W31 →
  ∃ s', xdrmem_getbytes s len = Ok (true, bs, s') ∧ mem_dec s' r.
Proof.
  intros (Ho & Hm & Hh & Hp & Ht & Hl) -> Hlen. unfold xdrmem_getbytes.
  rewrite length_app in *. apply has_app in Hm as [Hv Hr].
  rewrite s32_small by (unfold is_s32; lia). rewrite (proj2 (Z.ltb_ge _ _)) by lia.
  rewrite bcopy_from_has by (done || lia). simpl. eexists. split; [done|]. unfold mem_dec. simpl.
  rewrite add32_small by lia. split_and!; auto; lia.
Qed.

(** Storing into the room of an encoding stream. *)
Lemma mem_enc_write m base o room bs rest :
  has m base (o ++ room) → length room = (length bs + rest)%nat →
  ∃ m', store_bytes m (base + Z.of_nat (length o)) bs = Ok m' ∧
    has m' base ((o ++ bs) ++ drop (length bs) room).
Proof.
  intros Hm Hl. rewrite <- (take_drop (length bs) room) in Hm.
  apply has_app in Hm as [Ho Hr]. apply has_app in Hr as [Hr1 Hr2].
  rewrite length_take, Nat.min_l in Hr2 by lia.
  destruct (store_has _ _ _ bs Hr1) as (m' & Hs & Hb & Hout); [rewrite length_take; lia|].
  exists m'. split; [done|]. rewrite <- app_assoc, !has_app. split_and!.
  - apply (has_agree m); [|done]. intros q Hq. apply Hout. lia.
  - done.
  - apply (has_agree m); [|done]. intros q Hq. apply Hout. lia.
Qed.

Lemma mem_enc_putlong k s o n v :
  mem_enc k s o n → 4 ≤ n → ∃ s', xdrmem_putlong s v = Ok (true, s') ∧ mem_enc k s' (o ++ be32 v) (n - 4).
Proof.
  intros (Ho & Hk & Hh & Hp & Hb & Hn & Ht & room & Hl & Hm) H4. unfold xdrmem_putlong, sizeof_long.
  rewrite s32_small by (unfold is_s32; lia). rewrite (proj2 (Z.ltb_ge _ _)) by lia.
  destruct (mem_enc_write _ _ _ _ (be32 v) (length room - 4) Hm) as (m' & Hs & Hm');
    [rewrite length_be32; lia|].
  rewrite Hp, Hs. simpl. eexists. split; [done|]. unfold mem_enc. simpl.
  rewrite add32_small, length_app, length_be32 by lia. split_and!; auto; try lia.
  exists (drop 4 room). split; [rewrite length_drop; lia|done].
Qed.

Lemma mem_enc_putbytes k s o n buf len :
  mem_enc k s o n → 0 ≤ len ≤ n → len ≤ Z.of_nat (length buf) →
  ∃ s', xdrmem_putbytes s buf len = Ok (true, s') ∧
    mem_enc k s' (o ++ take (Z.to_nat len) buf) (n - len).
Proof.
  intros (Ho & Hk & Hh & Hp & Hb & Hn & Ht & room & Hl & Hm) H4 Hbuf. unfold xdrmem_putbytes.
  rewrite s32_small by (unfold is_s32; lia). rewrite (proj2 (Z.ltb_ge _ _)) by lia.
  unfold bcopy_to. rewrite u32_small by (unfold is_u32, W32, W31 in *; lia).
  rewrite (proj2 (Z.leb_gt _ _)), (proj2 (Z.ltb_ge _ _)) by lia.
  assert (Hlen : length (take (Z.to_nat len) buf) = Z.to_nat len) by (rewrite length_take; lia).
  destruct (mem_enc_write _ _ _ _ (take (Z.to_nat len) buf) (length room - Z.to_nat len) Hm)
    as (m' & Hs & Hm'); [lia|].
  rewrite Hp, Hs. simpl. eexists. split; [done|]. unfold mem_enc. simpl.
  rewrite add32_small, length_app, Hlen by lia. split_and!; auto; try lia.
  exists (drop (Z.to_nat len) room). split; [rewrite length_drop; lia|]. by rewrite Hlen in Hm'.
Qed.

(** Bytes of the buffer that stay where they are. *)
Definition mem_view (s : XDRmem) (p : Z) (bs : list Z) : Prop :=
  has (xm_mem s) p bs ∧ Z.of_nat (length bs) < W31.

Lemma mem_dec_inline s l len :
  mem_dec s l → 0 ≤ len < W31 →
  ∃ q s', xdrmem_inline s len = Ok (q, s') ∧
    match q with
    | None => mem_dec s' l
    | Some p => ∃ bs r, l = bs ++ r ∧ Z.of_nat (length bs) = len ∧ mem_dec s' r ∧ mem_view s' p bs
    end.
Proof.
  intros (Ho & Hm & Hh & Hp & Ht & Hl) Hlen. unfold xdrmem_inline. rewrite Hh. case_if.
  - eexists _, _. split; [done|]. exists (take (Z.to_nat len) l), (drop (Z.to_nat len) l).
    rewrite take_drop. rewrite <- (take_drop (Z.to_nat len) l) in Hm. apply has_app in Hm as [Hb Hr].
    assert (Hlb : length (take (Z.to_nat len) l) = Z.to_nat len) by (rewrite length_take; lia).
    rewrite Hlb in *. split_and!; [done|lia| |split; [done|simpl; lia]].
    unfold mem_dec. simpl. rewrite s32_small by (unfold is_s32; lia).
    rewrite add32_small, length_drop by lia. rewrite Z2Nat.id in Hr by lia. split_and!; auto; lia.
  - eexists _, _. split; [done|]. done.
Qed.

Lemma mem_view_load s p a b c :
  mem_view s p (a ++ b ++ c) →
  bcopy_from (xm_mem s) (p + Z.of_nat (length a)) (Z.of_nat (length b)) = Ok b.
Proof.
  intros [Hm Hl]. rewrite !length_app in Hl. apply has_app in Hm as [_ Hm].
  apply has_app in Hm as [Hm _]. apply bcopy_from_has; [done|lia].
Qed.

(** Decoding operations leave memory alone. *)
Lemma mem_view_mono s s' p bs : xm_mem s' = xm_mem s → mem_view s p bs → mem_view s' p bs.
Proof. unfold mem_view. by intros ->. Qed.

Lemma mem_enc_inline k s o n len :
  mem_enc k s o n → 0 ≤ len < W31 →
  ∃ q s', xdrmem_inline s len = Ok (q, s') ∧
    match q with
    | None => mem_enc k s' o n
    | Some p => len ≤ n ∧ ∃ old, Z.of_nat (length old) = len ∧ mem_hole k s' o p old (n - len)
    end.
Proof.
  intros Henc Hlen. pose proof Henc as (Ho & Hk & Hh & Hp & Hb & Hn & Ht & room & Hl & Hm).
  unfold xdrmem_inline. rewrite Hh. case_if; [|by eexists _, _].
  eexists _, _. split; [done|]. split; [lia|]. exists (take (Z.to_nat len) room).
  assert (Hlb : length (take (Z.to_nat len) room) = Z.to_nat len) by (rewrite length_take; lia).
  split; [lia|]. split; [|done]. unfold mem_enc. simpl. rewrite length_app, Hlb.
  rewrite s32_small by (unfold is_s32; lia). rewrite add32_small by lia. split_and!; auto; try lia.
  exists (drop (Z.to_nat len) room). split; [rewrite length_drop; lia|].
  by rewrite <- app_assoc, take_drop.
Qed.

Lemma mem_hole_store k s o p a b b' c n :
  mem_hole k s o p (a ++ b ++ c) n → length b' = length b →
  ∃ m, store_bytes (xm_mem s) (p + Z.of_nat (length a)) b' = Ok m ∧
    mem_hole k (with_mem s m) o p (a ++ b' ++ c) n.
Proof.
  intros [(Ho & Hk & Hh & Hp & Hb & Hn & Ht & room & Hl & Hm) ->] Hlb.
  assert (Hm' : has (xm_mem s) (x_base s) ((o ++ a) ++ b ++ c ++ room))
    by (by rewrite <- !app_assoc in * ).
  apply has_app in Hm' as [Ho1 Hr]. apply has_app in Hr as [Hb1 Hr]. rewrite length_app in *.
  destruct (store_has _ _ _ b' Hb1) as (m & Hs & Hbm & Hout); [done|].
  exists m. rewrite Nat2Z.inj_add, Z.add_assoc in Hs. split; [done|]. split; [|done].
  unfold mem_enc. simpl. rewrite !length_app in *. rewrite Hlb. split_and!; auto; try lia.
  exists room. split; [done|].
  assert (has m (x_base s) ((o ++ a) ++ b' ++ c ++ room)); [|by rewrite <- !app_assoc in *].
  rewrite !has_app, Hlb, length_app. apply has_app in Hr as [Hc Hroom]. split_and!.
  - apply has_app in Ho1 as [Ho1 _]. apply (has_agree (xm_mem s)); [|done].
    intros q Hq. apply Hout. lia.
  - apply has_app in Ho1 as [_ Ha1]. apply (has_agree (xm_mem s)); [|done].
    intros q Hq. apply Hout. lia.
  - done.
  - apply (has_agree (xm_mem s)); [|done]. intros q Hq. apply Hout. lia.
  - apply (has_agree (xm_mem s)); [|done]. intros q Hq. apply Hout. lia.
Qed.

(** The memory stream keeps the promises of the interface. *)
#[global] Instance xdrmem_stream : XdrStream XDRmem.
Proof.
  refine {| dec := mem_dec; sloc := Z; enc := mem_enc; hole := mem_hole; view := mem_view |}; simpl.
  - by intros s l (? & _).
  - by intros k s o n (? & _).
  - intros s v r Hs _. by apply mem_dec_getlong.
  - intros s l (Ho & Hm & Hh & _) Hl. unfold xdrmem_getlong, sizeof_long.
    rewrite s32_small by (unfold_words; lia). rewrite (proj2 (Z.ltb_lt _ _)) by lia. by eexists.
  - intros s bs r len Hs Hl Hlen. apply mem_dec_getbytes; auto; lia.
  - intros s l len (Ho & Hm & Hh & _) Hl. unfold xdrmem_getbytes.
    rewrite s32_small by (unfold_words; lia). rewrite (proj2 (Z.ltb_lt _ _)) by lia.
    eexists [], _. split_and!; simpl; auto; lia.
  - intros k s o n v Hs Hn _. by apply mem_enc_putlong.
  - intros k s o n buf len Hs Hn Hb. apply mem_enc_putbytes; auto; lia.
  - by intros k s o n (_ & _ & _ & _ & _ & ? & _).
  - apply mem_dec_inline.
  - apply mem_view_load.
  - unfold xdrmem_getlong. intros s q s' p bs Hg. apply mem_view_mono. case_if_in Hg; simplify_eq; [done|].
    apply bind_ok in Hg as (l & _ & Hg). by simplify_eq.
  - unfold xdrmem_getbytes. intros s len q got s' p bs Hg. apply mem_view_mono.
    case_if_in Hg; simplify_eq; [done|]. apply bind_ok in Hg as (l & _ & Hg). by simplify_eq.
  - unfold xdrmem_inline. intros s len q s' p bs Hg. apply mem_view_mono. case_if_in Hg; by simplify_eq.
  - apply mem_enc_inline.
  - intros k s o p a b b' c n Hs Hl. destruct (mem_hole_store _ _ _ _ _ _ _ _ _ Hs Hl) as (m & Hm & ?).
    rewrite Hm. simpl. by eexists.
  - by intros k s o p old n [? _].
Defined.

Lemma xdrmem_create_enc m base old n :
  has m base old → Z.of_nat (length old) = n → 0 ≤ base → base + n < W32 → n < W31 →
  enc base (xdrmem_create m base n XDR_ENCODE) [] n.
Proof.
  intros Hm Hl Hb Ht Hn. simpl. unfold mem_enc. simpl. rewrite s32_small by (unfold is_s32; lia).
  split_and!; auto; try lia. by exists old.
Qed.

Lemma xdrmem_create_dec m base l :
  has m base l → 0 ≤ base → base + Z.of_nat (length l) < W32 → Z.of_nat (length l) < W31 →
  dec (xdrmem_create m base (Z.of_nat (length l)) XDR_DECODE) l.
Proof.
  intros Hm Hb Ht Hn. simpl. unfold mem_dec. simpl. rewrite s32_small by (unfold is_s32; lia).
  split_and!; auto; lia.
Qed.
