(* ===== verification/XdrProps.v ===== *)
(** * Properties of the XDR layer

    The filters of rpc/xdr.c, xdr_array.c and xdr_refer.c against the stream
    interface, and the memory stream of xdr_mem.c. *)

From S2P Require Import Prelude Xdr XdrCodec XdrMem.

(** A handle on [n] zeroed bytes at 0x1000, and one to read [bs] from there. *)
Definition ex_enc (n : nat) : XDRmem :=
  xdrmem_create (zeroed 4096 n) 4096 (Z.of_nat n) XDR_ENCODE.

Fixpoint ex_mem (p : Z) (bs : list Z) : gmap Z Z :=
  match bs with
  | [] => ∅
  | b :: bs => <[p := b]> (ex_mem (p + 1) bs)
  end.

Definition ex_dec (bs : list Z) : XDRmem :=
  xdrmem_create (ex_mem 4096 bs) 4096 (Z.of_nat (length bs)) XDR_DECODE.

Lemma ex_mem_has p bs : has (ex_mem p bs) p bs.
Proof.
  revert p. induction bs as [|b bs IH]; intros p; simpl; [apply has_nil|].
  apply has_cons. split; [apply lookup_insert_eq|].
  apply (has_agree (ex_mem (p + 1) bs)); [|done].
  intros q Hq. rewrite lookup_insert_ne; [done|lia].
Qed.

Lemma ex_dec_ok bs : Z.of_nat (length bs) < 1000000 → dec (ex_dec bs) bs.
Proof.
  intros Hl. apply xdrmem_create_dec; [apply ex_mem_has|lia|unfold W32; lia|unfold W31; lia].
Qed.

(** round trip through a memory buffer.  For every filter with a codec,
    encoding an object into a buffer that has room for it succeeds, reports the
    encoded length as the stream position, and decoding the written bytes gives
    back the object. *)
Theorem xdrmem_roundtrip {T} (proc : xdrproc XDRmem T) spec ok init m base n old t t0 :
  codec proc spec ok init → ok t → init t0 t →
  has m base old → Z.of_nat (length old) = n → 0 ≤ base → base + n < W32 → n < W31 →
  Z.of_nat (length (spec t)) ≤ n →
  ∃ s', proc (xdrmem_create m base n XDR_ENCODE) t = Ok (true, t, s') ∧
    xdrmem_getpos s' = Ok (Z.of_nat (length (spec t))) ∧
    ∃ s'', proc (xdrmem_create (xm_mem s') base (Z.of_nat (length (spec t))) XDR_DECODE) t0 =
      Ok (true, t, s'').
Proof.
  intros Hc Ht Hi Hm Hl Hb Htop Hn Hfit.
  pose proof (xdrmem_create_enc _ _ _ _ Hm Hl Hb Htop Hn) as Henc.
  destruct (codec_enc _ _ _ _ Hc _ _ _ _ Ht Henc Hfit) as (s' & Hp & Henc').
  pose proof Henc' as (_ & Hbase & _ & Hpos & _ & _ & _ & room & _ & Hm').
  apply has_app in Hm' as [Hm' _]. rewrite Hbase in *. simpl in *.
  exists s'. split_and!; [done| |].
  - unfold xdrmem_getpos. rewrite Hpos, Hbase. unfold sub32. rewrite u32_small; [f_equal; lia|].
    unfold is_u32, W31, W32 in *. lia.
  - destruct (codec_dec _ _ _ _ Hc (xdrmem_create (xm_mem s') base
      (Z.of_nat (length (spec t))) XDR_DECODE) t t0 [] Ht Hi) as (s'' & Hp'' & _); [| |by exists s''].
    + rewrite app_nil_r. apply xdrmem_create_dec; auto; lia.
    + apply units_nil.
Qed.

Lemma xdrmem_roundtrip_witness :
  ∃ s', xdr_bytes 100 (xdrmem_create (zeroed 4096 32) 4096 32 XDR_ENCODE) (Some [1; 2; 3; 4; 5], 5) =
      Ok (true, (Some [1; 2; 3; 4; 5], 5), s') ∧
    xdrmem_getpos s' = Ok 12 ∧
    ∃ s'', xdr_bytes 100 (xdrmem_create (xm_mem s') 4096 12 XDR_DECODE) (None, 0) =
      Ok (true, (Some [1; 2; 3; 4; 5], 5), s'').
Proof.
  apply (xdrmem_roundtrip (xdr_bytes 100) spec_bytes (bytes_ok 100) bytes_init
    (zeroed 4096 32) 4096 32 (replicate 32 0) (Some [1; 2; 3; 4; 5], 5) (None, 0)).
  - apply xdr_bytes_codec.
  - unfold bytes_ok, W31. simpl. split_and!; [lia|lia|done|done].
  - exact I.
  - apply zeroed_has.
  - reflexivity.
  - lia.
  - unfold W32; lia.
  - unfold W31; lia.
  - vm_compute. congruence.
Defined.

Section properties.
Context {S : Type} `{XdrStream S}.

(** the scalar filters implement RFC 1832.  [xdr_int], [xdr_u_int],
    [xdr_enum], [xdr_short], [xdr_u_short], [xdr_char] and [xdr_bool] encode as
    one big-endian word, [xdr_longlong_t] and [xdr_u_longlong_t] as two with the
    high word first, and each decodes what it encodes, on any stream. *)
Theorem xdr_scalar_codecs :
  codec xdr_int be32 is_s32 any ∧ codec xdr_u_int be32 is_u32 any ∧
  codec xdr_enum be32 is_s32 any ∧
  codec xdr_short be32 (λ t, -32768 ≤ t < 32768) any ∧
  codec xdr_u_short be32 (λ t, 0 ≤ t < 65536) any ∧
  codec xdr_char be32 (λ t, -128 ≤ t < 128) any ∧
  codec xdr_bool be32 (λ t, t = 0 ∨ t = 1) any ∧
  codec xdr_longlong_t spec_ll (λ t, -9223372036854775808 ≤ t < 9223372036854775808) any ∧
  codec xdr_u_longlong_t spec_ll (λ t, 0 ≤ t < 18446744073709551616) any.
Proof.
  auto 10 using xdr_long_codec, xdr_u_long_codec, xdr_short_codec, xdr_u_short_codec,
    xdr_char_codec, xdr_bool_codec, xdr_longlong_codec, xdr_u_longlong_codec.
Qed.

(** counted bytes and C strings implement RFC 1832: a length word, the bytes,
    zero padding to a whole unit; decoding allocates or fills a buffer of the
    right size and gives back the same bytes (with their terminator, for
    strings). *)
Theorem xdr_bytes_string_codecs maxsize :
  codec (xdr_bytes maxsize) spec_bytes (bytes_ok maxsize) bytes_init ∧
  codec (xdr_string maxsize) spec_string (string_ok maxsize) string_init.
Proof. auto using xdr_bytes_codec, xdr_string_codec. Qed.

(** the composite filters preserve codecs: counted arrays and optional
    pointers of elements with a codec, and discriminated unions whose arms have
    codecs, round-trip; an array only when its size in bytes fits in a
    [u_int]. *)
Theorem xdr_composite_codecs {T} (proc : xdrproc S T) spec ok init zero maxsize elsize dfault
    (value : Z) :
  codec proc spec ok init → (∀ t, ok t → init zero t) → 0 < elsize →
  codec (xdr_array zero maxsize elsize proc) (spec_array spec) (array_ok ok maxsize elsize)
    (λ t0 _, t0.1 = None) ∧
  codec (xdr_pointer zero proc)
    (λ t, match t with None => be32 0 | Some t => be32 1 ++ spec t end)
    (λ t, match t with None => True | Some t => ok t end) (λ t0 _, t0 = None) ∧
  (dfault = None ∨ dfault = Some proc →
   codec (xdr_union [(value, proc)] dfault) (λ t, be32 t.1 ++ spec t.2)
     (λ t, is_s32 t.1 ∧ ok t.2 ∧ (find_choice t.1 [(value, proc)] = None → dfault ≠ None))
     (λ t0 t, init t0.2 t.2)).
Proof.
  intros Hc Hz He. split_and!.
  - by eapply xdr_array_codec.
  - by eapply xdr_pointer_codec.
  - intros Hd. apply (xdr_union_codec [(value, proc)] dfault (λ _, spec) (λ _, ok) (λ _, init)).
    + intros d p Hf. simpl in Hf. case_if_in Hf; by simplify_eq.
    + intros d p _ ->. destruct Hd as [|Hd]; [done|]. by simplify_eq.
Qed.

(** C39: A length word larger than the limit is refused.  [xdr_bytes],
    [xdr_string] and [xdr_array] return [FALSE], having consumed only the length
    word and touched no buffer. *)
Theorem xdr_oversize_rejected {T} (zero : T) elproc maxsize elsize s c r sp n0 arr :
  dec s (be32 c ++ r) → units r → is_u32 c → maxsize < c →
  (∃ s', xdr_bytes maxsize s (sp, n0) = Ok (false, (sp, c), s') ∧ dec s' r) ∧
  (∃ s', xdr_string maxsize s sp = Ok (false, sp, s') ∧ dec s' r) ∧
  (∃ s', xdr_array zero maxsize elsize elproc s (arr, n0) = Ok (false, (arr, c), s') ∧ dec s' r).
Proof.
  intros Hs Hr Hc Hlt.
  assert (Hop := dec_op _ _ Hs).
  assert (Hget : ∀ n, ∃ s', xdr_u_int s n = Ok (true, c, s') ∧ dec s' r)
    by (intros n; by apply (codec_dec _ _ _ _ xdr_u_long_codec s c n r Hc I Hs Hr)).
  split_and!.
  - destruct (Hget n0) as (s' & Hp & Hs'). exists s'. unfold xdr_bytes. rewrite Hp. simpl.
    rewrite (dec_op _ _ Hs'), (proj2 (Z.ltb_lt _ _) Hlt). done.
  - destruct (Hget 0) as (s' & Hp & Hs'). exists s'. unfold xdr_string. rewrite Hop. simpl.
    rewrite Hp. simpl. rewrite (proj2 (Z.ltb_lt _ _) Hlt). done.
  - destruct (Hget n0) as (s' & Hp & Hs'). exists s'. unfold xdr_array. rewrite Hp. simpl.
    rewrite (dec_op _ _ Hs'), (proj2 (Z.ltb_lt _ _) Hlt). done.
Qed.

(** A decode into the caller's own buffer that fails frees the buffer and leaves the pointer:
    here the stream ends before the string does.  The [xdr_free] that callers make after a
    failed decode then frees it a second time. *)
Example xdr_string_frees_callers :
  let x := xdrmem_create (list_to_map (zip (seqZ 4096 6) [0; 0; 0; 5; 97; 98])) 4096 6 XDR_DECODE in
  ∃ s', xdr_string 255 x (Some (replicate 6 0)) = Ok (false, Some [], s') ∧ xdr_free x (xdr_string 255) (Some []) = Fault.
Proof. eexists. split; vm_compute; reflexivity. Qed.

(** [xdr_wrapstring] accepts the length 0xffffffff: [nodesize] wraps to 0 and
    the routine returns [TRUE] with the pointer unchanged and none of the string
    consumed. *)
Theorem xdr_wrapstring_wraps s r sp :
  dec s (be32 LASTUNSIGNED ++ r) → units r →
  ∃ s', xdr_wrapstring s sp = Ok (true, sp, s') ∧ dec s' r.
Proof.
  intros Hs Hr. assert (Hop := dec_op _ _ Hs).
  destruct (codec_dec _ _ _ _ xdr_u_long_codec s LASTUNSIGNED 0 r ltac:(done) I Hs Hr)
    as (s' & Hp & Hs'). exists s'. unfold xdr_wrapstring, xdr_string. rewrite Hop. simpl.
  unfold xdr_u_int. rewrite Hp. simpl. by rewrite (dec_op _ _ Hs').
Qed.

Lemma xdr_elems_overrun {T} (elproc : xdrproc S T) spec ok init zero s r ts i c :
  codec elproc spec ok init → (∀ t, ok t → init zero t) → Forall ok ts →
  Z.of_nat (length ts) < c - i → dec s (spec_elems spec ts ++ r) → units r →
  xdr_elems elproc i c s (replicate (length ts) zero) = Fault.
Proof.
  intros Hel Hz Hok. revert s i. induction Hok as [|t ts Ht Hok IH]; intros s i Hc Hs Hr; simpl in *.
  - by rewrite (proj2 (Z.ltb_lt i c)) by lia.
  - rewrite (proj2 (Z.ltb_lt i c)) by lia. unfold spec_elems in *. simpl in *.
    rewrite <- app_assoc in Hs.
    destruct (codec_dec _ _ _ _ Hel s t zero _ Ht (Hz t Ht) Hs) as (s1 & -> & Hs1).
    { apply units_app; [|done]. by eapply spec_elems_units. }
    simpl. by rewrite (IH s1 (i + 1)) by (done || lia).
Qed.

(** [xdr_array] does not check the size of its allocation.  When
    [c * elsize] does not fit in a [u_int] and the limit admits [c], the buffer
    holds only [(c * elsize mod 2^32) / elsize] elements, and a stream that
    supplies those drives the loop past the end of the buffer. *)
Theorem xdr_array_size_overflow {T} (proc : xdrproc S T) spec ok init zero maxsize elsize s c ts r n0 :
  codec proc spec ok init → (∀ t, ok t → init zero t) →
  0 < elsize → 0 < c ≤ maxsize → is_u32 c →
  Z.of_nat (length ts) = mul32 c elsize / elsize → Z.of_nat (length ts) < c → Forall ok ts →
  dec s (be32 c ++ spec_elems spec ts ++ r) → units r →
  xdr_array zero maxsize elsize proc s (None, n0) = Fault.
Proof.
  intros Hel Hz He Hc Hu Hn Hlt Hok Hs Hr. unfold xdr_array, xdr_u_int.
  destruct (codec_dec _ _ _ _ xdr_u_long_codec s c n0 _ Hu I Hs) as (s1 & -> & Hs1).
  { apply units_app; [|done]. by eapply spec_elems_units. }
  simpl. rewrite (dec_op _ _ Hs1), (proj2 (Z.ltb_ge _ _)), (proj2 (Z.eqb_neq _ _)) by lia. simpl.
  rewrite <- Hn, Nat2Z.id. rewrite (xdr_elems_overrun proc spec ok init zero s1 r ts 0 c); auto; lia.
Qed.

End properties.

Lemma xdr_composite_codecs_witness :
  codec (xdr_array 0 10 4 (xdr_int (S := XDRmem))) (spec_array be32) (array_ok is_s32 10 4)
    (λ t0 _, t0.1 = None) ∧
  xdr_array 0 10 4 xdr_int (ex_dec [0;0;0;2; 0;0;0;7; 255;255;255;255]) (None, 0) =
    Ok (true, (Some [7; -1], 2),
        MkXDRmem XDR_DECODE 4108 4096 0 (ex_mem 4096 [0;0;0;2; 0;0;0;7; 255;255;255;255])).
Proof.
  split; [|vm_compute; reflexivity].
  apply (xdr_composite_codecs (S := XDRmem) xdr_int be32 is_s32 any 0 10 4 None 0);
    [apply xdr_long_codec|done|lia].
Defined.

Lemma xdr_oversize_rejected_witness :
  ∃ s', xdr_bytes 16 (ex_dec (be32 17 ++ be32 0)) (None, 0) = Ok (false, (None, 17), s') ∧
    dec s' (be32 0).
Proof.
  apply (xdr_oversize_rejected 0 xdr_int 16 4 (ex_dec (be32 17 ++ be32 0)) 17 (be32 0) None 0 None);
    [by apply ex_dec_ok|apply units_be32|done|lia].
Defined.

Lemma xdr_wrapstring_wraps_witness :
  ∃ s', xdr_wrapstring (ex_dec (be32 LASTUNSIGNED ++ be32 0)) None = Ok (true, None, s') ∧
    dec s' (be32 0).
Proof.
  apply (xdr_wrapstring_wraps (S := XDRmem)); [by apply ex_dec_ok|apply units_be32].
Defined.

Lemma xdr_array_size_overflow_witness :
  xdr_array 0 LASTUNSIGNED 8 xdr_int (ex_dec (be32 536870913 ++ be32 7 ++ be32 9)) (None, 0) = Fault.
Proof.
  apply (xdr_array_size_overflow (S := XDRmem) xdr_int be32 is_s32 any 0 LASTUNSIGNED 8
    (ex_dec (be32 536870913 ++ be32 7 ++ be32 9)) 536870913 [7] (be32 9) 0).
  - apply xdr_long_codec.
  - done.
  - lia.
  - unfold LASTUNSIGNED; lia.
  - done.
  - reflexivity.
  - simpl; lia.
  - by repeat constructor.
  - by apply ex_dec_ok.
  - apply units_be32.
Defined.

(** ** Positions of a memory stream *)

(** positions.  On an encoding handle whose buffer does not straddle the
    address 0x80000000, [xdrmem_setpos] to any position up to the end of the
    buffer succeeds, [xdrmem_getpos] then reports it, and the room is what lies
    between the position and the end; a position beyond the end is refused and
    changes nothing. *)
Theorem xdrmem_setpos_getpos k s o n pos :
  mem_enc k s o n → x_private s + n < W31 ∨ W31 ≤ x_base s →
  0 ≤ pos → x_base s + pos < W32 → (x_private s + n < W31 → x_base s + pos < W31) →
  if pos <=? Z.of_nat (length o) + n then
    ∃ s', xdrmem_setpos s pos = Ok (true, s') ∧ xdrmem_getpos s' = Ok pos ∧
      x_handy s' = Z.of_nat (length o) + n - pos ∧ xm_mem s' = xm_mem s
  else xdrmem_setpos s pos = Ok (false, s).
Proof.
  intros (Ho & Hk & Hh & Hp & Hb & Hn & Ht & _) Hside Hpos Htop Hlow.
  assert (Hs32 : ∀ a, 0 ≤ a < W32 → s32 a = if a <? W31 then a else a - W32).
  { intros a Ha. case_if; [apply s32_small; unfold is_s32, W31 in *; lia|].
    unfold s32, W31, W32 in *. rewrite <- (Z.mod_unique_pos (a + 2147483648) 4294967296 1 (a - 2147483648)); lia. }
  unfold xdrmem_setpos. rewrite Hh, !add32_small by (unfold W31, W32 in *; lia).
  rewrite !Hs32 by (unfold W31, W32 in *; lia).
  assert (Hcmp : ((if x_private s + n <? W31 then x_private s + n else x_private s + n - W32) <?
      (if x_base s + pos <? W31 then x_base s + pos else x_base s + pos - W32)) =
    (x_private s + n <? x_base s + pos)).
  { apply eq_true_iff_eq. rewrite !Z.ltb_lt.
    destruct (Z.ltb_spec (x_private s + n) W31), (Z.ltb_spec (x_base s + pos) W31);
      unfold W31, W32 in *; lia. }
  rewrite Hcmp. destruct (Z.leb_spec pos (Z.of_nat (length o) + n)) as [Hle|Hgt].
  - rewrite (proj2 (Z.ltb_ge _ _)) by lia. eexists. split; [done|]. unfold xdrmem_getpos. simpl.
    unfold sub32. rewrite u32_small by (unfold is_u32; lia).
    split_and!; [f_equal; lia| |done].
    assert (0 ≤ Z.of_nat (length o) + n - pos) by lia.
    destruct (Z.ltb_spec (x_private s + n) W31), (Z.ltb_spec (x_base s + pos) W31);
      rewrite s32_small; unfold is_s32, W31, W32 in *; lia.
  - by rewrite (proj2 (Z.ltb_lt _ _)) by lia.
Qed.

Lemma xdrmem_setpos_getpos_witness :
  ∃ s', xdrmem_setpos (ex_enc 16) 8 = Ok (true, s') ∧ xdrmem_getpos s' = Ok 8 ∧ x_handy s' = 8 ∧
    xm_mem s' = xm_mem (ex_enc 16).
Proof.
  apply (xdrmem_setpos_getpos 4096 (ex_enc 16) [] 16 8).
  - apply (xdrmem_create_enc (zeroed 4096 16) 4096 (replicate 16 0));
      [apply zeroed_has|reflexivity|lia|unfold W32; lia|unfold W31; lia].
  - left. vm_compute. reflexivity.
  - lia.
  - vm_compute. reflexivity.
  - intros _. vm_compute. reflexivity.
Defined.

(** [XDR_PEEK] after the end.  [xdrmem_getlong] at the end of a buffer fails and
    leaves [x_handy] negative; the test of [XDR_PEEK] compares unsigned values, so
    that a later peek passes it and reads the four bytes after the buffer. *)
Theorem xdrmem_peek_past_end s v :
  mem_dec s [] → xm_mem s !! x_private s = None →
  ∃ s', xdrmem_getlong s = Ok (None, s') ∧ xdrmem_control s' XDR_PEEK v = Fault.
Proof.
  intros (Ho & Hm & Hh & Hp & Ht & Hl) Hnone. unfold xdrmem_getlong, sizeof_long. rewrite Hh. simpl.
  eexists. split; [done|]. unfold xdrmem_control. simpl. unfold load_long. simpl. by rewrite Hnone.
Qed.

Lemma xdrmem_peek_past_end_witness :
  ∃ s', xdrmem_getlong (ex_dec []) = Ok (None, s') ∧ xdrmem_control s' XDR_PEEK 0 = Fault.
Proof. apply xdrmem_peek_past_end; [by apply ex_dec_ok|reflexivity]. Defined.
