(* ===== verification/RpcMsg.v ===== *)
(** * RPC messages (uts/common/rpc/rpc_prot.c, rpc_calmsg.c, rpc_msg.h, auth.h)

    The call and reply headers of ONC RPC, with their fast paths, which reserve a
    region of the stream with [XDR_INLINE] and fill it or read it in place, and
    the slow paths that go through the XDR filters.

    - Enumerations are the [Z] of their representation: a decoded word is stored
      whatever its value.
    - The unions of [rpc_msg.h] are records with a field for each member; the
      code only reads the member that the discriminant selects.
    - [oa_base] is [NULL], a buffer of its own, or a pointer into the stream:
      [xdr_callmsg] does not copy credentials, it points at them. *)

From S2P Require Import Prelude Xdr XdrCodec.

(** ** Data *)

Definition MAX_AUTH_BYTES : Z := 400.
Definition RPC_MSG_VERSION : Z := 2.

Definition CALL : Z := 0.
Definition REPLY : Z := 1.
Definition MSG_ACCEPTED : Z := 0.
Definition MSG_DENIED : Z := 1.
Definition SUCCESS : Z := 0.
Definition PROG_UNAVAIL : Z := 1.
Definition PROG_MISMATCH : Z := 2.
Definition PROC_UNAVAIL : Z := 3.
Definition GARBAGE_ARGS : Z := 4.
Definition SYSTEM_ERR : Z := 5.
Definition RPC_MISMATCH : Z := 0.
Definition AUTH_ERROR : Z := 1.

(** [enum clnt_stat], the values rpc_prot.c uses. *)
Definition RPC_SUCCESS : Z := 0.
Definition RPC_VERSMISMATCH : Z := 6.
Definition RPC_AUTHERROR : Z := 7.
Definition RPC_PROGUNAVAIL : Z := 8.
Definition RPC_PROGVERSMISMATCH : Z := 9.
Definition RPC_PROCUNAVAIL : Z := 10.
Definition RPC_CANTDECODEARGS : Z := 11.
Definition RPC_SYSTEMERROR : Z := 12.
Definition RPC_FAILED : Z := 16.

Inductive caddr :=
  | NULL
  | BUF (b : list Z)
  | STREAM (p : Z).

Record opaque_auth := MkAuth {
  oa_flavor : Z;
  oa_base : caddr;
  oa_length : Z
}.

Record accepted_reply (S T : Type) := MkAccepted {
  ar_verf : opaque_auth;
  ar_stat : Z;
  ar_low : Z;
  ar_high : Z;
  ar_where : T;
  ar_proc : option (xdrproc S T)
}.
Arguments MkAccepted {S T}.
Arguments ar_verf {S T}.
Arguments ar_stat {S T}.
Arguments ar_low {S T}.
Arguments ar_high {S T}.
Arguments ar_where {S T}.
Arguments ar_proc {S T}.

Record rejected_reply := MkRejected {
  rj_stat : Z;
  rj_low : Z;
  rj_high : Z;
  rj_why : Z
}.

Record reply_body (S T : Type) := MkReply {
  rp_stat : Z;
  rp_acpt : accepted_reply S T;
  rp_rjct : rejected_reply
}.
Arguments MkReply {S T}.
Arguments rp_stat {S T}.
Arguments rp_acpt {S T}.
Arguments rp_rjct {S T}.

Record call_body := MkCall {
  cb_rpcvers : Z;
  cb_prog : Z;
  cb_vers : Z;
  cb_proc : Z;
  cb_cred : opaque_auth;
  cb_verf : opaque_auth
}.

Record rpc_msg (S T : Type) := MkMsg {
  rm_xid : Z;
  rm_direction : Z;
  rm_call : call_body;
  rm_reply : reply_body S T
}.
Arguments MkMsg {S T}.
Arguments rm_xid {S T}.
Arguments rm_direction {S T}.
Arguments rm_call {S T}.
Arguments rm_reply {S T}.

(** [struct rpc_err] without [re_errno]. *)
Record rpc_err := MkErr {
  re_status : Z;
  re_vers : Z * Z;
  re_why : Z;
  re_lb : Z * Z
}.

(** Assignments to one field. *)
Definition set_flavor (v : Z) (a : opaque_auth) := MkAuth v (oa_base a) (oa_length a).
Definition set_base (v : caddr) (a : opaque_auth) := MkAuth (oa_flavor a) v (oa_length a).
Definition set_length (v : Z) (a : opaque_auth) := MkAuth (oa_flavor a) (oa_base a) v.

Definition set_cred (v : opaque_auth) (c : call_body) :=
  MkCall (cb_rpcvers c) (cb_prog c) (cb_vers c) (cb_proc c) v (cb_verf c).
Definition set_verf (v : opaque_auth) (c : call_body) :=
  MkCall (cb_rpcvers c) (cb_prog c) (cb_vers c) (cb_proc c) (cb_cred c) v.
Definition set_rpcvers (v : Z) (c : call_body) :=
  MkCall v (cb_prog c) (cb_vers c) (cb_proc c) (cb_cred c) (cb_verf c).
Definition set_prog (v : Z) (c : call_body) :=
  MkCall (cb_rpcvers c) v (cb_vers c) (cb_proc c) (cb_cred c) (cb_verf c).
Definition set_vers (v : Z) (c : call_body) :=
  MkCall (cb_rpcvers c) (cb_prog c) v (cb_proc c) (cb_cred c) (cb_verf c).
Definition set_proc (v : Z) (c : call_body) :=
  MkCall (cb_rpcvers c) (cb_prog c) (cb_vers c) v (cb_cred c) (cb_verf c).

Section setters.
Context {S T : Type}.
Implicit Types (ar : accepted_reply S T) (rp : reply_body S T) (m : rpc_msg S T).

Definition set_ar_verf v ar : accepted_reply S T :=
  MkAccepted v (ar_stat ar) (ar_low ar) (ar_high ar) (ar_where ar) (ar_proc ar).
Definition set_ar_stat v ar : accepted_reply S T :=
  MkAccepted (ar_verf ar) v (ar_low ar) (ar_high ar) (ar_where ar) (ar_proc ar).
Definition set_ar_low v ar : accepted_reply S T :=
  MkAccepted (ar_verf ar) (ar_stat ar) v (ar_high ar) (ar_where ar) (ar_proc ar).
Definition set_ar_high v ar : accepted_reply S T :=
  MkAccepted (ar_verf ar) (ar_stat ar) (ar_low ar) v (ar_where ar) (ar_proc ar).
Definition set_ar_where v ar : accepted_reply S T :=
  MkAccepted (ar_verf ar) (ar_stat ar) (ar_low ar) (ar_high ar) v (ar_proc ar).
Definition set_rp_stat v rp : reply_body S T := MkReply v (rp_acpt rp) (rp_rjct rp).
Definition set_rp_acpt v rp : reply_body S T := MkReply (rp_stat rp) v (rp_rjct rp).
Definition set_rp_rjct v rp : reply_body S T := MkReply (rp_stat rp) (rp_acpt rp) v.
Definition set_xid v m : rpc_msg S T := MkMsg v (rm_direction m) (rm_call m) (rm_reply m).
Definition set_direction v m : rpc_msg S T := MkMsg (rm_xid m) v (rm_call m) (rm_reply m).
Definition set_call v m : rpc_msg S T := MkMsg (rm_xid m) (rm_direction m) v (rm_reply m).
Definition set_reply v m : rpc_msg S T := MkMsg (rm_xid m) (rm_direction m) (rm_call m) v.
End setters.

Definition set_rj_stat v r := MkRejected v (rj_low r) (rj_high r) (rj_why r).
Definition set_rj_low v r := MkRejected (rj_stat r) v (rj_high r) (rj_why r).
Definition set_rj_high v r := MkRejected (rj_stat r) (rj_low r) v (rj_why r).
Definition set_rj_why v r := MkRejected (rj_stat r) (rj_low r) (rj_high r) v.

(** ** Filters on fields *)

Section combinators.
Context {S : Type} `{XdrOps S}.

(** [proc (xdrs, &obj->field)]. *)
Definition xdr_field {T F} (get : T → F) (set : F → T → T) (proc : xdrproc S F) : xdrproc S T :=
  λ s t, '(ok, v, s) ← proc s (get t); Ok (ok, set v t, s).

(** [a && b]. *)
Definition xdr_and {T} (a b : xdrproc S T) : xdrproc S T := λ s t,
  '(ok, t, s) ← a s t; if ok : bool then b s t else Ok (false, t, s).

(** A test of the object in such a chain. *)
Definition xdr_test {T} (P : T → bool) : xdrproc S T := λ s t, Ok (P t, t, s).

(** [IXDR_PUT_LONG (buf, v)] and [IXDR_GET_LONG (buf)], with [buf] advanced. *)
Definition IXDR_PUT_LONG (s : S) (buf v : Z) : res (S * Z) :=
  s ← x_store s buf (be32 v); Ok (s, buf + 4).

Definition IXDR_GET_LONG (s : S) (buf : Z) : res (Z * Z) :=
  bs ← x_load s buf 4; l ← deref (of_be32 bs); Ok (l, buf + 4).

End combinators.

Notation "a &> b" := (xdr_and a b) (at level 55, right associativity).

(** ** rpc_prot.c *)

Section rpc.
Context {S : Type} `{XdrOps S} {T : Type}.

(** The buffer [xdr_bytes] is given: a pointer into the stream can be read from;
    storing through it or freeing it is outside the model. *)
Definition auth_buf (s : S) (ap : opaque_auth) : res (option (list Z)) :=
  match oa_base ap, x_op s with
  | NULL, _ => Ok None
  | BUF b, _ => Ok (Some b)
  | STREAM p, XDR_ENCODE =>
    if MAX_AUTH_BYTES <? oa_length ap then Ok None
    else b ← x_load s p (oa_length ap); Ok (Some b)
  | STREAM _, _ => Fault
  end.

Definition auth_base (old : caddr) (b : option (list Z)) : caddr :=
  match old, b with
  | STREAM p, _ => STREAM p
  | _, None => NULL
  | _, Some b => BUF b
  end.

Definition xdr_opaque_auth : xdrproc S opaque_auth := λ s ap,
  '(ok, flavor, s) ← xdr_enum s (oa_flavor ap);
  let ap := set_flavor flavor ap in
  if ok : bool then
    b ← auth_buf s ap;
    '(ok, (b, len), s) ← xdr_bytes MAX_AUTH_BYTES s (b, oa_length ap);
    Ok (ok, MkAuth flavor (auth_base (oa_base ap) b) len, s)
  else Ok (false, ap, s).

(** A [des_block] is its 8 bytes. *)
Definition xdr_des_block : xdrproc S (list Z) := λ s blkp, xdr_opaque s blkp 8.

(** [switch (ar->ar_stat)] of [xdr_accepted_reply], which [xdr_replymsg] repeats. *)
Definition xdr_results : xdrproc S (accepted_reply S T) := λ s ar,
  if ar_stat ar =? SUCCESS then
    match ar_proc ar with
    | None => Fault
    | Some proc => xdr_field ar_where set_ar_where proc s ar
    end
  else if ar_stat ar =? PROG_MISMATCH then
    (xdr_field ar_low set_ar_low xdr_u_long &> xdr_field ar_high set_ar_high xdr_u_long) s ar
  else Ok (true, ar, s).

Definition xdr_accepted_reply : xdrproc S (accepted_reply S T) :=
  xdr_field ar_verf set_ar_verf xdr_opaque_auth &>
  xdr_field ar_stat set_ar_stat xdr_enum &>
  xdr_results.

(** [switch (rr->rj_stat)] of [xdr_rejected_reply]. *)
Definition xdr_reject_arm : xdrproc S rejected_reply := λ s rr,
  if rj_stat rr =? RPC_MISMATCH then
    (xdr_field rj_low set_rj_low xdr_u_long &> xdr_field rj_high set_rj_high xdr_u_long) s rr
  else if rj_stat rr =? AUTH_ERROR then xdr_field rj_why set_rj_why xdr_enum s rr
  else Ok (false, rr, s).

Definition xdr_rejected_reply : xdrproc S rejected_reply :=
  xdr_field rj_stat set_rj_stat xdr_enum &> xdr_reject_arm.

(** [reply_dscrm]: the arms on the union [rp->ru]. *)
Definition reply_dscrm : list (Z * xdrproc S (accepted_reply S T * rejected_reply)) :=
  [(MSG_ACCEPTED, xdr_field fst (λ a u, (a, u.2)) xdr_accepted_reply);
   (MSG_DENIED, xdr_field snd (λ r u, (u.1, r)) xdr_rejected_reply)].

Definition xdr_reply_body : xdrproc S (reply_body S T) :=
  xdr_field (λ rp, (rp_stat rp, (rp_acpt rp, rp_rjct rp)))
    (λ u _, MkReply u.1 u.2.1 u.2.2) (xdr_union reply_dscrm None).

(** The bytes [bcopy (oa->oa_base, ..., oa->oa_length)] reads. *)
Definition oa_bytes (s : S) (oa : opaque_auth) : res (list Z) :=
  match oa_base oa with
  | NULL => Fault
  | BUF b =>
    if Z.of_nat (length b) <? oa_length oa then Fault else Ok (take (Z.to_nat (oa_length oa)) b)
  | STREAM p => x_load s p (oa_length oa)
  end.

(** Flavor, length and body of an authenticator stored at [buf]; the result points
    at the body. *)
Definition put_auth (s : S) (buf : Z) (oa : opaque_auth) : res (S * Z) :=
  '(s, buf) ← IXDR_PUT_LONG s buf (oa_flavor oa);
  '(s, buf) ← IXDR_PUT_LONG s buf (oa_length oa);
  if oa_length oa =? 0 then Ok (s, buf)
  else bs ← oa_bytes s oa; s ← x_store s buf bs; Ok (s, buf).

(** The header up to the body of the verifier, as [xdr_replymsg] and
    [xdr_replymsg_hdr] store it. *)
Definition put_reply (s : S) (buf : Z) (rmsg : rpc_msg S T) : res (S * Z) :=
  '(s, buf) ← IXDR_PUT_LONG s buf (rm_xid rmsg);
  '(s, buf) ← IXDR_PUT_LONG s buf (rm_direction rmsg);
  '(s, buf) ← IXDR_PUT_LONG s buf (rp_stat (rm_reply rmsg));
  put_auth s buf (ar_verf (rp_acpt (rm_reply rmsg))).

(** [xdr_replymsg] clears the bytes between the body and the next unit. *)
Definition put_pad (s : S) (buf len rndup : Z) : res (S * Z) :=
  if len =? 0 then Ok (s, buf)
  else
    let buf := buf + len in
    let rndup := sub32 rndup len in
    if 0 <? rndup then
      s ← x_store s buf (replicate (Z.to_nat rndup) 0); Ok (s, buf + rndup)
    else Ok (s, buf).

(** [xdr_replymsg], XDR_ENCODE with the header reserved at [buf]. *)
Definition replymsg_put (s : S) (buf : Z) (rmsg : rpc_msg S T) : res (bool * rpc_msg S T * S) :=
  let rp := rm_reply rmsg in
  let ar := rp_acpt rp in
  let len := oa_length (ar_verf ar) in
  let rndup := RNDUP len in
  '(s, buf) ← put_reply s buf rmsg;
  '(s, buf) ← put_pad s buf len rndup;
  '(s, _) ← IXDR_PUT_LONG s buf (ar_stat ar);
  '(ok, ar, s) ← xdr_results s ar;
  Ok (ok, set_reply (set_rp_acpt ar rp) rmsg, s).

(** The verifier, XDR_DECODE: its two words in line or through the filters
    ([xdr_callmsg] has the same code), then its body. *)
Definition auth_words (s : S) (oa : opaque_auth) : res (bool * opaque_auth * S) :=
  '(q, s) ← x_inline s (2 * BYTES_PER_XDR_UNIT);
  match q with
  | Some buf =>
    '(flavor, buf) ← IXDR_GET_LONG s buf;
    '(len, _) ← IXDR_GET_LONG s buf;
    Ok (true, MkAuth flavor (oa_base oa) (u32 len), s)
  | None =>
    (xdr_field oa_flavor set_flavor xdr_enum &> xdr_field oa_length set_length xdr_u_int) s oa
  end.

Definition reply_verf_body (s : S) (oa : opaque_auth) : res (bool * opaque_auth * S) :=
  if oa_length oa =? 0 then Ok (true, oa, s)
  else if MAX_AUTH_BYTES <? oa_length oa then Ok (false, oa, s)
  else
    base ← match oa_base oa with
           | NULL => Ok (mem_alloc (oa_length oa))
           | BUF b => Ok b
           | STREAM _ => Fault
           end;
    '(q, s) ← x_inline s (s32 (RNDUP (oa_length oa)));
    match q with
    | None =>
      '(ok, base, s) ← xdr_opaque s base (oa_length oa); Ok (ok, set_base (BUF base) oa, s)
    | Some buf =>
      got ← x_load s buf (oa_length oa);
      base ← fill base got;
      Ok (true, set_base (BUF base) oa, s)
    end.

(** [xdr_replymsg], XDR_DECODE with the first three words read at [buf]. *)
Definition replymsg_get (s : S) (buf : Z) (rmsg : rpc_msg S T) : res (bool * rpc_msg S T * S) :=
  '(xid, buf) ← IXDR_GET_LONG s buf;
  '(direction, buf) ← IXDR_GET_LONG s buf;
  let rmsg := set_direction direction (set_xid (u32 xid) rmsg) in
  if negb (direction =? REPLY) then Ok (false, rmsg, s)
  else
    '(stat, _) ← IXDR_GET_LONG s buf;
    let rp := set_rp_stat stat (rm_reply rmsg) in
    if negb (stat =? MSG_ACCEPTED) then
      if stat =? MSG_DENIED then
        '(ok, rr, s) ← xdr_rejected_reply s (rp_rjct rp);
        Ok (ok, set_reply (set_rp_rjct rr rp) rmsg, s)
      else Ok (false, set_reply rp rmsg, s)
    else
      let acpt : xdrproc S (accepted_reply S T) :=
        xdr_field ar_verf set_ar_verf auth_words &>
        xdr_field ar_verf set_ar_verf reply_verf_body &>
        xdr_field ar_stat set_ar_stat xdr_enum &>
        xdr_results in
      '(ok, ar, s) ← acpt s (rp_acpt rp);
      Ok (ok, set_reply (set_rp_acpt ar rp) rmsg, s).

(** The filters of the last paragraph of [xdr_replymsg]. *)
Definition replymsg_filters : xdrproc S (rpc_msg S T) :=
  xdr_field rm_xid set_xid xdr_u_long &>
  xdr_field rm_direction set_direction xdr_enum &>
  xdr_test (λ m, rm_direction m =? REPLY) &>
  xdr_field rm_reply set_reply xdr_reply_body.

Definition xdr_replymsg : xdrproc S (rpc_msg S T) := λ s rmsg,
  '(q, s) ←
    (if bool_decide (x_op s = XDR_ENCODE) && (rp_stat (rm_reply rmsg) =? MSG_ACCEPTED) &&
        (rm_direction rmsg =? REPLY)
     then x_inline s (s32 (add32 (6 * BYTES_PER_XDR_UNIT)
                             (RNDUP (oa_length (ar_verf (rp_acpt (rm_reply rmsg)))))))
     else Ok (None, s));
  match q with
  | Some buf => replymsg_put s buf rmsg
  | None =>
    '(q, s) ← (if bool_decide (x_op s = XDR_DECODE)
               then x_inline s (3 * BYTES_PER_XDR_UNIT) else Ok (None, s));
    match q with
    | Some buf => replymsg_get s buf rmsg
    | None => replymsg_filters s rmsg
    end
  end.

(** The header alone: [XDR_INLINE] is asked for the unrounded length. *)
Definition replymsg_hdr_put (s : S) (buf : Z) (rmsg : rpc_msg S T) : res (bool * rpc_msg S T * S) :=
  let ar := rp_acpt (rm_reply rmsg) in
  let len := oa_length (ar_verf ar) in
  '(s, buf) ← put_reply s buf rmsg;
  let buf := if len =? 0 then buf else buf + 4 * (add32 len (BYTES_PER_XDR_UNIT - 1) / 4) in
  '(s, _) ← IXDR_PUT_LONG s buf (ar_stat ar);
  Ok (true, rmsg, s).

Definition xdr_replymsg_hdr : xdrproc S (rpc_msg S T) := λ s rmsg,
  if negb (bool_decide (x_op s = XDR_ENCODE)) || negb (rp_stat (rm_reply rmsg) =? MSG_ACCEPTED) ||
     negb (rm_direction rmsg =? REPLY)
  then Ok (false, rmsg, s)
  else
    '(q, s) ← x_inline s (s32 (add32 (6 * BYTES_PER_XDR_UNIT)
                                (oa_length (ar_verf (rp_acpt (rm_reply rmsg))))));
    match q with
    | Some buf => replymsg_hdr_put s buf rmsg
    | None =>
      let acpt := xdr_field rp_acpt set_rp_acpt
        (xdr_field ar_verf set_ar_verf xdr_opaque_auth &>
         xdr_field ar_stat set_ar_stat xdr_enum) in
      (xdr_field rm_xid set_xid xdr_u_long &>
       xdr_field rm_direction set_direction xdr_enum &>
       xdr_field rm_reply set_reply (xdr_field rp_stat set_rp_stat xdr_enum &> acpt)) s rmsg
    end.

Definition xdr_replymsg_body : xdrproc S (rpc_msg S T) := λ s rmsg,
  if negb (bool_decide (x_op s = XDR_ENCODE)) then Ok (false, rmsg, s)
  else
    match ar_proc (rp_acpt (rm_reply rmsg)) with
    | None => Ok (true, rmsg, s)
    | Some proc =>
      xdr_field rm_reply set_reply
        (xdr_field rp_acpt set_rp_acpt (xdr_field ar_where set_ar_where proc)) s rmsg
    end.

Definition xdr_callhdr : xdrproc S (rpc_msg S T) := λ s cmsg,
  let cmsg := set_call (set_rpcvers RPC_MSG_VERSION (rm_call cmsg)) (set_direction CALL cmsg) in
  (xdr_test (λ _, bool_decide (x_op s = XDR_ENCODE)) &>
   xdr_field rm_xid set_xid xdr_u_long &>
   xdr_field rm_direction set_direction xdr_enum &>
   xdr_field rm_call set_call
     (xdr_field cb_rpcvers set_rpcvers xdr_u_long &>
      xdr_field cb_prog set_prog xdr_u_long &>
      xdr_field cb_vers set_vers xdr_u_long)) s cmsg.

(** *** Client utility routines *)

Definition set_re_status (v : Z) (e : rpc_err) := MkErr v (re_vers e) (re_why e) (re_lb e).

Definition accepted (acpt_stat : Z) (error : rpc_err) : rpc_err :=
  if acpt_stat =? PROG_UNAVAIL then set_re_status RPC_PROGUNAVAIL error
  else if acpt_stat =? PROG_MISMATCH then set_re_status RPC_PROGVERSMISMATCH error
  else if acpt_stat =? PROC_UNAVAIL then set_re_status RPC_PROCUNAVAIL error
  else if acpt_stat =? GARBAGE_ARGS then set_re_status RPC_CANTDECODEARGS error
  else if acpt_stat =? SYSTEM_ERR then set_re_status RPC_SYSTEMERROR error
  else if acpt_stat =? SUCCESS then set_re_status RPC_SUCCESS error
  else MkErr RPC_FAILED (re_vers error) (re_why error) (MSG_ACCEPTED, acpt_stat).

(** The first case label is [RPC_VERSMISMATCH], a [clnt_stat]. *)
Definition rejected (rjct_stat : Z) (error : rpc_err) : rpc_err :=
  if rjct_stat =? RPC_VERSMISMATCH then set_re_status RPC_VERSMISMATCH error
  else if rjct_stat =? AUTH_ERROR then set_re_status RPC_AUTHERROR error
  else MkErr RPC_FAILED (re_vers error) (re_why error) (MSG_DENIED, rjct_stat).

(** The first [switch]: [None] is its early return. *)
Definition seterr_stat (rp : reply_body S T) (error : rpc_err) : option rpc_err :=
  if rp_stat rp =? MSG_ACCEPTED then
    if ar_stat (rp_acpt rp) =? SUCCESS then None
    else Some (accepted (ar_stat (rp_acpt rp)) error)
  else if rp_stat rp =? MSG_DENIED then Some (rejected (rj_stat (rp_rjct rp)) error)
  else Some (MkErr RPC_FAILED (re_vers error) (re_why error) (rp_stat rp, (re_lb error).2)).

Definition seterr_reply (msg : rpc_msg S T) (error : rpc_err) : rpc_err :=
  let rp := rm_reply msg in
  match seterr_stat rp error with
  | None => set_re_status RPC_SUCCESS error
  | Some error =>
    if re_status error =? RPC_VERSMISMATCH then
      MkErr (re_status error) (rj_low (rp_rjct rp), rj_high (rp_rjct rp)) (re_why error) (re_lb error)
    else if re_status error =? RPC_AUTHERROR then
      MkErr (re_status error) (re_vers error) (rj_why (rp_rjct rp)) (re_lb error)
    else if re_status error =? RPC_PROGVERSMISMATCH then
      MkErr (re_status error) (ar_low (rp_acpt rp), ar_high (rp_acpt rp)) (re_why error) (re_lb error)
    else error
  end.

Definition xdr_rpc_free_verifier : xdrproc S (rpc_msg S T) := λ s msg,
  let ar := rp_acpt (rm_reply msg) in
  if (rm_direction msg =? REPLY) && (rp_stat (rm_reply msg) =? MSG_ACCEPTED) &&
     (ar_stat ar =? SUCCESS) && negb (match oa_base (ar_verf ar) with NULL => true | _ => false end)
  then
    xdr_field rm_reply set_reply
      (xdr_field rp_acpt set_rp_acpt (xdr_field ar_verf set_ar_verf xdr_opaque_auth))
      (x_set_op s XDR_FREE) msg
  else Ok (true, msg, s).

(** ** rpc_calmsg.c *)

(** XDR_ENCODE with the whole header reserved at [buf]; the pad bytes of the
    credentials and the verifier are not stored. *)
Definition callmsg_put (s : S) (buf : Z) (cmsg : rpc_msg S T) : res (bool * rpc_msg S T * S) :=
  let cb := rm_call cmsg in
  '(s, buf) ← IXDR_PUT_LONG s buf (rm_xid cmsg);
  '(s, buf) ← IXDR_PUT_LONG s buf (rm_direction cmsg);
  if negb (rm_direction cmsg =? CALL) then Ok (false, cmsg, s)
  else
    '(s, buf) ← IXDR_PUT_LONG s buf (cb_rpcvers cb);
    if negb (cb_rpcvers cb =? RPC_MSG_VERSION) then Ok (false, cmsg, s)
    else
      '(s, buf) ← IXDR_PUT_LONG s buf (cb_prog cb);
      '(s, buf) ← IXDR_PUT_LONG s buf (cb_vers cb);
      '(s, buf) ← IXDR_PUT_LONG s buf (cb_proc cb);
      '(s, buf) ← put_auth s buf (cb_cred cb);
      let len := oa_length (cb_cred cb) in
      let buf := if len =? 0 then buf else buf + 4 * (RNDUP len / 4) in
      '(s, _) ← put_auth s buf (cb_verf cb);
      Ok (true, cmsg, s).

(** The body of an authenticator, XDR_DECODE: [oa_base] points into the stream
    when the body is contiguous there, else it is copied. *)
Definition call_auth_body (s : S) (oa : opaque_auth) : res (bool * opaque_auth * S) :=
  if oa_length oa =? 0 then Ok (true, oa, s)
  else if MAX_AUTH_BYTES <? oa_length oa then Ok (false, oa, s)
  else
    '(q, s) ← x_inline s (s32 (RNDUP (oa_length oa)));
    match q with
    | Some buf => Ok (true, set_base (STREAM buf) oa, s)
    | None =>
      base ← match oa_base oa with
             | NULL => Ok (mem_alloc (oa_length oa))
             | BUF b => Ok b
             | STREAM _ => Fault
             end;
      '(ok, base, s) ← xdr_opaque s base (oa_length oa);
      Ok (ok, set_base (BUF base) oa, s)
    end.

(** XDR_DECODE with the first eight words read at [buf]. *)
Definition callmsg_get (s : S) (buf : Z) (cmsg : rpc_msg S T) : res (bool * rpc_msg S T * S) :=
  '(xid, buf) ← IXDR_GET_LONG s buf;
  '(direction, buf) ← IXDR_GET_LONG s buf;
  let cmsg := set_direction direction (set_xid (u32 xid) cmsg) in
  if negb (direction =? CALL) then Ok (false, cmsg, s)
  else
    '(rpcvers, buf) ← IXDR_GET_LONG s buf;
    let cb := set_rpcvers (u32 rpcvers) (rm_call cmsg) in
    if negb (u32 rpcvers =? RPC_MSG_VERSION) then Ok (false, set_call cb cmsg, s)
    else
      '(prog, buf) ← IXDR_GET_LONG s buf;
      '(vers, buf) ← IXDR_GET_LONG s buf;
      '(proc, buf) ← IXDR_GET_LONG s buf;
      '(flavor, buf) ← IXDR_GET_LONG s buf;
      '(len, _) ← IXDR_GET_LONG s buf;
      let cred := MkAuth flavor (oa_base (cb_cred cb)) (u32 len) in
      let cb := MkCall (cb_rpcvers cb) (u32 prog) (u32 vers) (u32 proc) cred (cb_verf cb) in
      let rest : xdrproc S call_body :=
        xdr_field cb_cred set_cred call_auth_body &>
        xdr_field cb_verf set_verf auth_words &>
        xdr_field cb_verf set_verf call_auth_body in
      '(ok, cb, s) ← rest s cb;
      Ok (ok, set_call cb cmsg, s).

Definition callmsg_filters : xdrproc S (rpc_msg S T) :=
  xdr_field rm_xid set_xid xdr_u_long &>
  xdr_field rm_direction set_direction xdr_enum &>
  xdr_test (λ m, rm_direction m =? CALL) &>
  xdr_field rm_call set_call
    (xdr_field cb_rpcvers set_rpcvers xdr_u_long &>
     xdr_test (λ c, cb_rpcvers c =? RPC_MSG_VERSION) &>
     xdr_field cb_prog set_prog xdr_u_long &>
     xdr_field cb_vers set_vers xdr_u_long &>
     xdr_field cb_proc set_proc xdr_u_long &>
     xdr_field cb_cred set_cred xdr_opaque_auth &>
     xdr_field cb_verf set_verf xdr_opaque_auth).

Definition xdr_callmsg : xdrproc S (rpc_msg S T) := λ s cmsg,
  let credlen := oa_length (cb_cred (rm_call cmsg)) in
  let verflen := oa_length (cb_verf (rm_call cmsg)) in
  match x_op s with
  | XDR_ENCODE =>
    if MAX_AUTH_BYTES <? credlen then Ok (false, cmsg, s)
    else if MAX_AUTH_BYTES <? verflen then Ok (false, cmsg, s)
    else
      '(q, s) ← x_inline s (8 * BYTES_PER_XDR_UNIT + RNDUP credlen + 2 * BYTES_PER_XDR_UNIT +
                            RNDUP verflen);
      match q with
      | Some buf => callmsg_put s buf cmsg
      | None => callmsg_filters s cmsg
      end
  | XDR_DECODE =>
    '(q, s) ← x_inline s (8 * BYTES_PER_XDR_UNIT);
    match q with
    | Some buf => callmsg_get s buf cmsg
    | None => callmsg_filters s cmsg
    end
  | XDR_FREE => callmsg_filters s cmsg
  end.

End rpc.
