(* ===== verification/RpcProps.v ===== *)
(** * Properties of the RPC message layer

    The reply message is proved to be a codec on any stream, whichever of its
    paths is taken, so that it round-trips on every implementation of the stream
    interface; the call message, whose fast path shares the stream's buffer, is
    proved to be a correct serializer and parser of the call header. *)

From S2P Require Import Prelude Xdr XdrCodec XdrMem XdrProps RpcMsg.

#[local] Arguments xdr_bytes : simpl never.
#[local] Arguments xdr_union : simpl never.
#[local] Arguments xdr_opaque : simpl never.

Section rpc_codec.
Context {S : Type} `{XdrStream S}.

(** ** Chains of filters *)

Lemma xdr_and_true {T} (a b : xdrproc S T) s t t' s' :
  a s t = Ok (true, t', s') → (a &> b) s t = b s' t'.
Proof. unfold xdr_and. by intros ->. Qed.

Lemma xdr_and_false {T} (a b : xdrproc S T) s t t' s' :
  a s t = Ok (false, t', s') → (a &> b) s t = Ok (false, t', s').
Proof. unfold xdr_and. by intros ->. Qed.

Lemma xdr_field_ok {T F} (get : T → F) set (proc : xdrproc S F) s t b v s' :
  proc s (get t) = Ok (b, v, s') → xdr_field get set proc s t = Ok (b, set v t, s').
Proof. unfold xdr_field. by intros ->. Qed.

(** [fcodec proc spec ok init dst]: as [codec], but decoding the encoding of [t]
    into [t0] gives [dst t t0]: a filter that handles some fields of a record
    leaves the others alone. *)
Record fcodec {T} (proc : xdrproc S T) (spec : T → list Z) (ok : T → Prop)
    (init : T → T → Prop) (dst : T → T → T) : Prop := FCodec {
  fcodec_units t : ok t → units (spec t);
  fcodec_enc {k} s o n t : ok t → enc k s o n → Z.of_nat (length (spec t)) ≤ n →
    ∃ s', proc s t = Ok (true, t, s') ∧ enc k s' (o ++ spec t) (n - Z.of_nat (length (spec t)));
  fcodec_dec s t t0 r : ok t → init t0 t → dec s (spec t ++ r) → units r →
    ∃ s', proc s t0 = Ok (true, dst t t0, s') ∧ dec s' r
}.

Lemma fcodec_field {T F} (get : T → F) set (proc : xdrproc S F) spec ok init :
  codec proc spec ok init → (∀ t, set (get t) t = t) →
  fcodec (xdr_field get set proc) (λ t, spec (get t)) (λ t, ok (get t))
    (λ t0 t, init (get t0) (get t)) (λ t t0, set (get t) t0).
Proof.
  intros [Hu He Hd] Hset. unfold xdr_field. constructor; [auto| |].
  - intros k s o n t Ht Hs Hn. destruct (He k s o n (get t) Ht Hs Hn) as (s' & -> & Hs').
    exists s'. simpl. by rewrite Hset.
  - intros s t t0 r Ht Hi Hs Hr. destruct (Hd s (get t) (get t0) r Ht Hi Hs Hr) as (s' & -> & Hs').
    by exists s'.
Qed.

Lemma fcodec_and {T} (a b : xdrproc S T) sa sb oka okb ia ib da db :
  fcodec a sa oka ia da → fcodec b sb okb ib db →
  fcodec (a &> b) (λ t, sa t ++ sb t) (λ t, oka t ∧ okb t)
    (λ t0 t, ia t0 t ∧ ib (da t t0) t) (λ t t0, db t (da t t0)).
Proof.
  intros Ha Hb. unfold xdr_and. constructor.
  - intros t [Hta Htb]. apply units_app; [by apply Ha|by apply Hb].
  - intros k s o n t [Hta Htb] Hs Hn. rewrite length_app in Hn.
    destruct (fcodec_enc _ _ _ _ _ Ha s o n t Hta Hs ltac:(lia)) as (s1 & -> & Hs1). simpl.
    destruct (fcodec_enc _ _ _ _ _ Hb s1 _ _ t Htb Hs1 ltac:(lia)) as (s2 & -> & Hs2).
    exists s2. split; [done|]. eapply enc_cong; [exact Hs2|by rewrite app_assoc|lens].
  - intros s t t0 r [Hta Htb] [Hia Hib] Hs Hr. rewrite <- app_assoc in Hs.
    destruct (fcodec_dec _ _ _ _ _ Ha s t t0 _ Hta Hia Hs) as (s1 & -> & Hs1).
    { apply units_app; [by apply Hb|done]. }
    simpl. by apply (fcodec_dec _ _ _ _ _ Hb).
Qed.

Lemma fcodec_test {T} (P : T → bool) :
  fcodec (xdr_test P) (λ _, []) (λ t, P t = true) (λ t0 _, P t0 = true) (λ _ t0, t0).
Proof.
  unfold xdr_test. constructor.
  - auto with kern.
  - intros k s o n t -> Hs _. exists s. split; [done|].
    eapply enc_cong; [exact Hs|by rewrite app_nil_r|simpl; lia].
  - intros s t t0 r _ -> Hs _. by exists s.
Qed.

(** A filter that decides on a field which decoding has already set. *)
Lemma fcodec_switch {T} (P : T → bool) (a b : xdrproc S T) spec ok ia ib da db :
  fcodec a spec (λ t, ok t ∧ P t = true) ia da →
  fcodec b spec (λ t, ok t ∧ P t = false) ib db →
  fcodec (λ s t, if P t then a s t else b s t) spec ok
    (λ t0 t, P t0 = P t ∧ if P t then ia t0 t else ib t0 t)
    (λ t t0, if P t then da t t0 else db t t0).
Proof.
  intros Ha Hb. constructor.
  - intros t Ht. destruct (P t) eqn:E; [by apply Ha|by apply Hb].
  - intros k s o n t Ht Hs Hn. destruct (P t) eqn:E; [by apply Ha|by apply Hb].
  - intros s t t0 r Ht [E0 Hi] Hs Hr. rewrite E0.
    destruct (P t) eqn:E; [by apply Ha|by apply Hb].
Qed.

Lemma fcodec_codec {T} (proc : xdrproc S T) spec ok init dst init' :
  fcodec proc spec ok init dst →
  (∀ t t0, ok t → init' t0 t → init t0 t ∧ dst t t0 = t) → codec proc spec ok init'.
Proof.
  intros Hf Hi. constructor.
  - apply Hf.
  - intros. by apply Hf.
  - intros s t t0 r Ht Hi' Hs Hr. destruct (Hi t t0 Ht Hi') as [Hi1 Hd].
    destruct (fcodec_dec _ _ _ _ _ Hf s t t0 r Ht Hi1 Hs Hr) as (s' & E & Hs').
    exists s'. by rewrite E, Hd.
Qed.

(** The same filter described with other (equal) specifications. *)
Lemma codec_ext {T} (proc : xdrproc S T) spec ok init (spec' : T → list Z) (ok' : T → Prop) init' :
  codec proc spec ok init → (∀ t, ok' t → ok t ∧ spec' t = spec t) →
  (∀ t0 t, ok' t → init' t0 t → init t0 t) → codec proc spec' ok' init'.
Proof.
  intros Hc Hok Hi. constructor.
  - intros t Ht. destruct (Hok t Ht) as [? ->]. by apply Hc.
  - intros k s o n t Ht. destruct (Hok t Ht) as [? ->]. by apply Hc.
  - intros s t t0 r Ht Hi'. destruct (Hok t Ht) as [? ->]. apply Hc; auto.
Qed.

(** ** Authenticators *)

Definition obuf (c : caddr) : option (list Z) :=
  match c with BUF b => Some b | _ => None end.

Definition not_stream (c : caddr) : Prop :=
  match c with STREAM _ => False | _ => True end.

Definition spec_auth (a : opaque_auth) : list Z :=
  be32 (oa_flavor a) ++ spec_bytes (obuf (oa_base a), oa_length a).

Definition auth_ok (a : opaque_auth) : Prop :=
  is_s32 (oa_flavor a) ∧ not_stream (oa_base a) ∧
  bytes_ok MAX_AUTH_BYTES (obuf (oa_base a), oa_length a).

Definition auth_init (a0 a : opaque_auth) : Prop :=
  not_stream (oa_base a0) ∧
  bytes_init (obuf (oa_base a0), oa_length a0) (obuf (oa_base a), oa_length a).

Lemma auth_buf_obuf s a : not_stream (oa_base a) → auth_buf s a = Ok (obuf (oa_base a)).
Proof. unfold auth_buf. by destruct (oa_base a). Qed.

Lemma auth_base_obuf c c0 : not_stream c → not_stream c0 → auth_base c0 (obuf c) = c.
Proof. by destruct c, c0. Qed.

Lemma xdr_opaque_auth_codec : codec xdr_opaque_auth spec_auth auth_ok auth_init.
Proof.
  constructor.
  - intros a _. unfold spec_auth, spec_bytes. auto using spec_opaque_units with kern.
  - intros k s o n a (Hf & Hns & Hb) Hs Hn. unfold spec_auth, xdr_opaque_auth in *.
    rewrite length_app in Hn. unfold xdr_enum.
    destruct (codec_enc _ _ _ _ xdr_long_codec s o n _ Hf Hs ltac:(lia)) as (s1 & -> & Hs1). simpl.
    rewrite auth_buf_obuf by done. simpl.
    destruct (codec_enc _ _ _ _ (xdr_bytes_codec _) s1 _ _ _ Hb Hs1 ltac:(lia)) as (s2 & E & Hs2).
    rewrite E. simpl. rewrite auth_base_obuf by done. exists s2.
    split; [by destruct a|]. eapply enc_cong; [exact Hs2|by rewrite app_assoc|lens].
  - intros s a a0 r (Hf & Hns & Hb) [Hns0 Hi] Hs Hr. unfold spec_auth, xdr_opaque_auth in *.
    rewrite <- app_assoc in Hs. unfold xdr_enum.
    destruct (codec_dec _ _ _ _ xdr_long_codec s _ (oa_flavor a0) _ Hf I Hs) as (s1 & -> & Hs1).
    { apply units_app; [|done]. by eapply codec_units; [apply xdr_bytes_codec|]. }
    simpl. rewrite auth_buf_obuf by done. simpl.
    destruct (codec_dec _ _ _ _ (xdr_bytes_codec _) s1 _ _ r Hb Hi Hs1 Hr) as (s2 & -> & Hs2).
    simpl. rewrite auth_base_obuf by done. exists s2. by destruct a.
Qed.

(** ** Filling and reading a region in line *)

Lemma store_hole {k} s o p a rest n bs :
  hole k s o p (a ++ rest) n → (length bs ≤ length rest)%nat →
  ∃ s', x_store s (p + Z.of_nat (length a)) bs = Ok s' ∧
    hole k s' o p ((a ++ bs) ++ drop (length bs) rest) n.
Proof.
  intros Hh Hl. rewrite <- (take_drop (length bs) rest) in Hh.
  destruct (hole_store s o p a _ bs _ n Hh) as (s' & Hs & Hh').
  - rewrite length_take. lia.
  - exists s'. by rewrite <- app_assoc.
Qed.

Lemma put_hole {k} s o p a rest n v :
  hole k s o p (a ++ rest) n → (4 ≤ length rest)%nat →
  ∃ s', IXDR_PUT_LONG s (p + Z.of_nat (length a)) v =
      Ok (s', p + Z.of_nat (length (a ++ be32 v))) ∧
    hole k s' o p ((a ++ be32 v) ++ drop 4 rest) n.
Proof.
  intros Hh Hl. destruct (store_hole s o p a rest n (be32 v) Hh) as (s' & Hs & Hh'); [lens|].
  exists s'. unfold IXDR_PUT_LONG. rewrite Hs. simpl. split; [|done]. do 2 f_equal. lens.
Qed.

Lemma put_hole0 {k} s o p rest n v :
  hole k s o p rest n → (4 ≤ length rest)%nat →
  ∃ s', IXDR_PUT_LONG s p v = Ok (s', p + Z.of_nat (length (be32 v))) ∧
    hole k s' o p (be32 v ++ drop 4 rest) n.
Proof.
  intros Hh Hl. destruct (put_hole s o p [] rest n v Hh Hl) as (s' & E & Hh').
  simpl in *. rewrite Z.add_0_r in E. by exists s'.
Qed.

(** The authenticator's first [oa_length] bytes. *)
Definition oa_holds (oa : opaque_auth) (bs : list Z) : Prop :=
  oa_length oa = Z.of_nat (length bs) ∧ (bs = [] ∨ ∃ rest, oa_base oa = BUF (bs ++ rest)).

Lemma oa_holds_bytes s oa bs : oa_holds oa bs → bs ≠ [] → oa_bytes s oa = Ok bs.
Proof.
  intros [Hl [->|[rest Hb]]] Hne; [done|]. unfold oa_bytes. rewrite Hb, Hl, length_app.
  rewrite (proj2 (Z.ltb_ge _ _)) by lia. by rewrite Nat2Z.id, take_app_length.
Qed.

Lemma put_auth_hole {k} s o p a rest n oa bs :
  hole k s o p (a ++ rest) n → oa_holds oa bs → (8 + length bs ≤ length rest)%nat →
  ∃ s', put_auth s (p + Z.of_nat (length a)) oa =
      Ok (s', p + Z.of_nat (length (a ++ be32 (oa_flavor oa) ++ be32 (oa_length oa)))) ∧
    hole k s' o p ((a ++ be32 (oa_flavor oa) ++ be32 (oa_length oa) ++ bs) ++
      drop (8 + length bs) rest) n.
Proof.
  intros Hh Hoa Hl. unfold put_auth.
  destruct (put_hole s o p a rest n (oa_flavor oa) Hh) as (s1 & -> & Hh1); [lia|]. simpl.
  destruct (put_hole s1 o p _ _ n (oa_length oa) Hh1) as (s2 & -> & Hh2); [rewrite length_drop; lia|].
  simpl. rewrite drop_drop in Hh2. rewrite <- !app_assoc in *. case_if.
  - exists s2. destruct Hoa as [Hlen _]. destruct bs; [|simpl in *; lia].
    done.
  - destruct bs as [|b bs]; [by destruct Hoa|]. rewrite (oa_holds_bytes s2 oa _ Hoa) by done.
    simpl. destruct (store_hole (k := k) s2 o p (a ++ be32 (oa_flavor oa) ++ be32 (oa_length oa)) (drop 8 rest) n
      (b :: bs)) as (s3 & -> & Hh3); [by rewrite <- !app_assoc|rewrite length_drop; lia|].
    exists s3. split; [done|]. rewrite drop_drop in Hh3. by rewrite <- !app_assoc in *.
Qed.

Lemma RNDUP_pad x : 0 ≤ x → x + 3 < W32 → RNDUP x = x + pad x.
Proof.
  intros Hx Hw. unfold RNDUP, BYTES_PER_XDR_UNIT. rewrite add32_small by (unfold W32 in *; lia).
  pose proof (Z.div_mod x 4 ltac:(lia)). pose proof (Z.mod_pos_bound x 4 ltac:(lia)).
  pose proof (Z.div_mod (x + 3) 4 ltac:(lia)). pose proof (Z.mod_pos_bound (x + 3) 4 ltac:(lia)).
  unfold mul32. change (4 - 1) with 3. rewrite u32_small by (unfold is_u32, W32 in *; lia).
  unfold pad. case_if; lia.
Qed.

Lemma put_pad_hole {k} s o p a bs rest n len :
  hole k s o p ((a ++ bs) ++ rest) n → len = Z.of_nat (length bs) → len ≤ MAX_AUTH_BYTES →
  pad len ≤ Z.of_nat (length rest) →
  ∃ s', put_pad s (p + Z.of_nat (length a)) len (RNDUP len) =
      Ok (s', p + Z.of_nat (length (a ++ spec_opaque bs))) ∧
    hole k s' o p ((a ++ spec_opaque bs) ++ drop (Z.to_nat (pad len)) rest) n.
Proof.
  intros Hh Hlen Hmax Hrest. unfold put_pad, spec_opaque. rewrite <- Hlen.
  pose proof (pad_bound len) as Hpad.
  rewrite RNDUP_pad by (unfold MAX_AUTH_BYTES, W32 in *; lia). unfold sub32.
  rewrite u32_small by (unfold is_u32, MAX_AUTH_BYTES, W32 in *; lia).
  replace (len + pad len - len) with (pad len) by lia. rewrite app_assoc.
  destruct (Z.eqb_spec len 0) as [E|E].
  { destruct bs; [|simpl in *; lia]. rewrite E in *. simpl in *. rewrite !app_nil_r in *.
    by exists s. }
  assert (p + Z.of_nat (length a) + len = p + Z.of_nat (length (a ++ bs))) as -> by lens. case_if.
  - destruct (store_hole s o p (a ++ bs) rest n (replicate (Z.to_nat (pad len)) 0) Hh)
      as (s' & -> & Hh'); [rewrite length_replicate; lia|].
    exists s'. simpl. rewrite length_replicate in Hh'. split; [|done]. do 2 f_equal. lens.
  - assert (pad len = 0) as -> by lia. simpl. rewrite !app_nil_r. by exists s.
Qed.

(** Reading a word of a region. *)
Lemma get_view s p w a v c :
  view s p w → w = a ++ be32 v ++ c →
  IXDR_GET_LONG s (p + Z.of_nat (length a)) = Ok (s32 v, p + Z.of_nat (length (a ++ be32 v))).
Proof.
  intros Hv ->. unfold IXDR_GET_LONG. apply view_load in Hv. rewrite length_be32 in Hv.
  change (Z.of_nat 4) with 4 in Hv. rewrite Hv. simpl. rewrite of_be32_be32. simpl.
  do 2 f_equal. lens.
Qed.

Lemma get_view0 s p v c :
  view s p (be32 v ++ c) → IXDR_GET_LONG s p = Ok (s32 v, p + Z.of_nat (length (be32 v))).
Proof. intros Hv. rewrite <- (Z.add_0_r p) at 1. by apply (get_view _ _ _ [] v c Hv). Qed.

(** *** Decoding authenticators in line *)

(** A region of [length w] bytes at the start of [w ++ r] is [w]. *)
Lemma inline_split (bs r' w r : list Z) :
  w ++ r = bs ++ r' → Z.of_nat (length bs) = Z.of_nat (length w) → bs = w ∧ r' = r.
Proof. intros E Hl. apply app_inj_1 in E as [-> ->]; [done|lia]. Qed.

Lemma auth_words_dec s (f l : Z) a0 r :
  dec s (be32 f ++ be32 l ++ r) → is_s32 f → is_u32 l → units r →
  ∃ s', auth_words s a0 = Ok (true, MkAuth f (oa_base a0) l, s') ∧ dec s' r.
Proof.
  intros Hs Hf Hl Hr. unfold auth_words.
  destruct (dec_inline s _ (2 * BYTES_PER_XDR_UNIT) Hs ltac:(done)) as (q & s1 & -> & Hq). simpl.
  destruct q as [p|].
  - destruct Hq as (bs & r' & E & Hlb & Hs1 & Hv). rewrite app_assoc in E.
    apply inline_split in E as [-> ->]; [|unfold BYTES_PER_XDR_UNIT in *; lens].
    rewrite (get_view0 _ _ _ _ Hv). simpl.
    rewrite (get_view _ _ _ (be32 f) l [] Hv) by (by rewrite app_nil_r). simpl.
    exists s1. by rewrite s32_small, u32_s32, u32_small.
  - unfold xdr_and, xdr_field, xdr_enum, xdr_u_int.
    destruct (codec_dec _ _ _ _ xdr_long_codec s1 f (oa_flavor a0) _ Hf I Hq) as (s2 & -> & Hs2);
      [auto with kern|]. simpl.
    destruct (codec_dec _ _ _ _ xdr_u_long_codec s2 l (oa_length a0) _ Hl I Hs2 Hr) as (s3 & -> & Hs3).
    by exists s3.
Qed.

Lemma auth_base_of a bs :
  auth_ok a → bs = default [] (obuf (oa_base a)) → bs ≠ [] → oa_base a = BUF bs.
Proof. intros (_ & Hns & _) -> Hne. by destruct (oa_base a). Qed.

Lemma spec_opaque_RNDUP bs :
  Z.of_nat (length bs) ≤ MAX_AUTH_BYTES →
  Z.of_nat (length (spec_opaque bs)) = RNDUP (Z.of_nat (length bs)) ∧
  0 ≤ RNDUP (Z.of_nat (length bs)) < W31.
Proof.
  intros Hb. rewrite spec_opaque_length, RNDUP_pad by (unfold MAX_AUTH_BYTES, W32 in *; lia).
  pose proof (pad_bound (Z.of_nat (length bs))). unfold MAX_AUTH_BYTES, W31 in *. lia.
Qed.

Lemma reply_verf_body_dec s a a0 r :
  auth_ok a → auth_init a0 a → dec s (spec_opaque (default [] (obuf (oa_base a))) ++ r) →
  ∃ s', reply_verf_body s (MkAuth (oa_flavor a) (oa_base a0) (oa_length a)) = Ok (true, a, s') ∧
    dec s' r.
Proof.
  intros Ha [Hns0 Hi] Hs. pose proof Ha as (_ & Hns & Hmax & Hlt & Hl & Hne). simpl in *.
  unfold reply_verf_body, bytes_init in *. simpl in *.
  remember (default [] (obuf (oa_base a))) as bs eqn:Hbs. rewrite Hl in *.
  destruct (Z.eqb_spec (Z.of_nat (length bs)) 0) as [E|E].
  { destruct bs; [|simpl in *; lia]. exists s. split; [|done]. do 2 f_equal. f_equal. destruct a as [f b l].
    simpl in *. subst. f_equal. destruct b as [|[|]|], (oa_base a0); simpl in *; try done; lia. }
  rewrite (proj2 (Z.ltb_ge _ _)) by lia.
  assert (Hba : oa_base a = BUF bs) by (apply auth_base_of; [done|done|by intros ->]).
  set (base := match oa_base a0 with NULL => mem_alloc (Z.of_nat (length bs)) | BUF b => b | STREAM _ => [] end).
  assert (Hbase : match oa_base a0 with
      NULL => Ok (mem_alloc (Z.of_nat (length bs))) | BUF b => Ok b | STREAM _ => Fault end = Ok base)
    by (by destruct (oa_base a0)).
  assert (Hlb : length base = length bs).
  { unfold base, mem_alloc. destruct (oa_base a0); simpl in *; [rewrite length_replicate; lia|lia|done]. }
  rewrite Hbase. clear Hbase. clearbody base. simpl. destruct (spec_opaque_RNDUP bs Hmax) as [HR HR'].
  rewrite s32_small by (unfold is_s32; lia).
  destruct (dec_inline s _ _ Hs HR') as (q & s1 & -> & Hq). simpl. destruct q as [p|].
  - destruct Hq as (w & r' & Ew & Hw & Hs1 & Hv). apply inline_split in Ew as [-> ->]; [|lia].
    unfold spec_opaque in Hv. rewrite <- (app_nil_l (bs ++ _)) in Hv. apply view_load in Hv.
    simpl in Hv. rewrite Z.add_0_r in Hv. rewrite Hv. simpl. unfold fill.
    rewrite (proj2 (Nat.leb_le _ _)) by lia. simpl. exists s1. split; [|done].
    rewrite drop_ge, app_nil_r by lia. destruct a. simpl in *. unfold set_base. simpl. congruence.
  - destruct (xdr_opaque_dec s1 base bs _ r Hq eq_refl) as (s2 & -> & Hs2); [lia|lia|]. simpl.
    exists s2. split; [|done]. rewrite drop_ge, app_nil_r by lia. destruct a. simpl in *.
    unfold set_base. simpl. congruence.
Qed.

(** ** Replies, through the filters *)

Section reply.
Context {T : Type} (proc : xdrproc S T) (spec : T → list Z) (ok : T → Prop) (init : T → T → Prop).
Context (Hproc : codec proc spec ok init).

Definition spec_results (ar : accepted_reply S T) : list Z :=
  if ar_stat ar =? SUCCESS then spec (ar_where ar)
  else if ar_stat ar =? PROG_MISMATCH then be32 (ar_low ar) ++ be32 (ar_high ar)
  else [].

Definition results_ok (ar : accepted_reply S T) : Prop :=
  if ar_stat ar =? SUCCESS then ar_proc ar = Some proc ∧ ok (ar_where ar)
  else if ar_stat ar =? PROG_MISMATCH then is_u32 (ar_low ar) ∧ is_u32 (ar_high ar)
  else True.

(** What decoding results needs of the reply it decodes into. *)
Definition results_init (ar0 ar : accepted_reply S T) : Prop :=
  ar_stat ar0 = ar_stat ar ∧
  (ar_stat ar = SUCCESS → ar_proc ar0 = Some proc ∧ init (ar_where ar0) (ar_where ar)).

Definition results_dst (ar ar0 : accepted_reply S T) : accepted_reply S T :=
  if ar_stat ar =? SUCCESS then set_ar_where (ar_where ar) ar0
  else if ar_stat ar =? PROG_MISMATCH then set_ar_high (ar_high ar) (set_ar_low (ar_low ar) ar0)
  else ar0.

Lemma vers_fcodec {R} (low high : R → Z) slow shigh :
  (∀ t, slow (low t) t = t) → (∀ t, shigh (high t) t = t) →
  fcodec (xdr_field low slow xdr_u_long &> xdr_field high shigh xdr_u_long)
    (λ t, be32 (low t) ++ be32 (high t)) (λ t, is_u32 (low t) ∧ is_u32 (high t))
    (λ _ _, True ∧ True) (λ t t0, shigh (high t) (slow (low t) t0)).
Proof.
  intros Hl Hh. exact (fcodec_and _ _ _ _ _ _ _ _ _ _
    (fcodec_field _ _ _ _ _ _ xdr_u_long_codec Hl) (fcodec_field _ _ _ _ _ _ xdr_u_long_codec Hh)).
Qed.

Lemma xdr_results_fcodec : fcodec xdr_results spec_results results_ok results_init results_dst.
Proof using Hproc.
  pose proof (vers_fcodec (@ar_low S T) ar_high set_ar_low set_ar_high
    ltac:(by intros []) ltac:(by intros [])) as Hv.
  constructor; unfold spec_results, results_ok, results_init, results_dst, xdr_results.
  - intros ar. repeat case_if; intros Hok; auto with kern. apply Hproc, Hok.
  - intros k s o n ar. repeat case_if; intros Hok Hs Hn.
    + destruct Hok as [-> Hok]. unfold xdr_field.
      destruct (codec_enc _ _ _ _ Hproc s o n _ Hok Hs Hn) as (s' & -> & Hs'). exists s'.
      simpl. by destruct ar.
    + by apply (fcodec_enc _ _ _ _ _ Hv).
    + exists s. split; [done|]. eapply enc_cong; [exact Hs|by rewrite app_nil_r|simpl; lia].
  - intros s ar ar0 r Hok [-> Hi]. revert Hok. repeat case_if; intros Hok Hs Hr.
    + destruct Hok as [Hp Hok], Hi as [-> Hi]; [done|]. unfold xdr_field.
      destruct (codec_dec _ _ _ _ Hproc s _ _ r Hok Hi Hs Hr) as (s' & -> & Hs'). by exists s'.
    + by apply (fcodec_dec _ _ _ _ _ Hv).
    + by exists s.
Qed.

Definition spec_accepted (ar : accepted_reply S T) : list Z :=
  spec_auth (ar_verf ar) ++ be32 (ar_stat ar) ++ spec_results ar.

Definition accepted_ok (ar : accepted_reply S T) : Prop :=
  auth_ok (ar_verf ar) ∧ is_s32 (ar_stat ar) ∧ results_ok ar.

(** The fields that are not on the wire are the same, the others are fit to be
    decoded into. *)
Definition accepted_init (ar0 ar : accepted_reply S T) : Prop :=
  auth_init (ar_verf ar0) (ar_verf ar) ∧ ar_proc ar0 = ar_proc ar ∧
  if ar_stat ar =? SUCCESS then
    init (ar_where ar0) (ar_where ar) ∧ ar_low ar0 = ar_low ar ∧ ar_high ar0 = ar_high ar
  else if ar_stat ar =? PROG_MISMATCH then ar_where ar0 = ar_where ar
  else ar_where ar0 = ar_where ar ∧ ar_low ar0 = ar_low ar ∧ ar_high ar0 = ar_high ar.

Lemma accepted_rest ar0 ar :
  accepted_ok ar → accepted_init ar0 ar →
  results_init (set_ar_stat (ar_stat ar) (set_ar_verf (ar_verf ar) ar0)) ar ∧
  results_dst ar (set_ar_stat (ar_stat ar) (set_ar_verf (ar_verf ar) ar0)) = ar.
Proof.
  intros (_ & _ & Hr) (_ & Hp & Hi). revert Hr Hi. unfold results_ok, results_init, results_dst.
  destruct ar, ar0. simpl in *. subst. repeat case_if; naive_solver.
Qed.

Lemma xdr_accepted_reply_codec :
  codec xdr_accepted_reply spec_accepted accepted_ok accepted_init.
Proof using Hproc.
  eapply fcodec_codec.
  - apply fcodec_and; [apply (fcodec_field _ _ _ _ _ _ xdr_opaque_auth_codec); by intros []|].
    apply fcodec_and; [apply (fcodec_field _ _ _ _ _ _ xdr_long_codec); by intros []|].
    apply xdr_results_fcodec.
  - simpl. intros ar ar0 Hok Hi. destruct (accepted_rest ar0 ar Hok Hi) as [Hri ->].
    split; [|done]. split; [apply Hi|]. by split.
Qed.

Definition rejected_ok (rr : rejected_reply) : Prop :=
  if rj_stat rr =? RPC_MISMATCH then is_u32 (rj_low rr) ∧ is_u32 (rj_high rr)
  else rj_stat rr = AUTH_ERROR ∧ is_s32 (rj_why rr).

Definition rejected_init (rr0 rr : rejected_reply) : Prop :=
  if rj_stat rr =? RPC_MISMATCH then rj_why rr0 = rj_why rr
  else rj_low rr0 = rj_low rr ∧ rj_high rr0 = rj_high rr.

Definition spec_reject_arm (rr : rejected_reply) : list Z :=
  if rj_stat rr =? RPC_MISMATCH then be32 (rj_low rr) ++ be32 (rj_high rr) else be32 (rj_why rr).

Lemma xdr_reject_arm_fcodec :
  fcodec xdr_reject_arm spec_reject_arm rejected_ok (λ rr0 rr, rj_stat rr0 = rj_stat rr)
    (λ rr rr0, if rj_stat rr =? RPC_MISMATCH then set_rj_high (rj_high rr) (set_rj_low (rj_low rr) rr0)
               else set_rj_why (rj_why rr) rr0).
Proof.
  pose proof (vers_fcodec rj_low rj_high set_rj_low set_rj_high
    ltac:(by intros []) ltac:(by intros [])) as Hv.
  pose proof (fcodec_field rj_why set_rj_why _ _ _ _ xdr_long_codec ltac:(by intros [])) as Hw.
  constructor; unfold spec_reject_arm, rejected_ok, xdr_reject_arm.
  - intros rr _. case_if; auto with kern.
  - intros k s o n rr. case_if; [intros Hok Hs Hn; by apply (fcodec_enc _ _ _ _ _ Hv)|].
    intros [-> Hok] Hs Hn. simpl. by apply (fcodec_enc _ _ _ _ _ Hw).
  - intros s rr rr0 r Hok ->. revert Hok.
    case_if; [intros Hok Hs Hr; by apply (fcodec_dec _ _ _ _ _ Hv)|].
    intros [-> Hok] Hs Hr. simpl. by apply (fcodec_dec _ _ _ _ _ Hw).
Qed.

Definition spec_rejected (rr : rejected_reply) : list Z := be32 (rj_stat rr) ++ spec_reject_arm rr.

Lemma rejected_ok_stat rr : rejected_ok rr → is_s32 (rj_stat rr).
Proof. unfold rejected_ok. case_if; [intros _; rewrite Heqb|intros [-> _]]; done. Qed.

Lemma xdr_rejected_reply_codec :
  codec xdr_rejected_reply spec_rejected rejected_ok rejected_init.
Proof.
  pose proof (fcodec_and _ _ _ _ _ _ _ _ _ _
    (fcodec_field rj_stat set_rj_stat _ _ _ _ xdr_long_codec ltac:(by intros []))
    xdr_reject_arm_fcodec) as Hf.
  assert (Hc := fcodec_codec _ _ _ _ _ rejected_init Hf).
  eapply codec_ext; [apply Hc|..]; simpl.
  - intros rr rr0 [_ Hok] Hi. unfold rejected_ok, rejected_init in *. destruct rr, rr0. simpl in *.
    case_if; naive_solver.
  - intros rr Hok. split; [|done]. split; [|done]. by apply rejected_ok_stat.
  - done.
Qed.

(** A reply message, for the objects that satisfy [reply_ok]. *)
Definition spec_reply (rp : reply_body S T) : list Z :=
  be32 (rp_stat rp) ++
  if rp_stat rp =? MSG_ACCEPTED then spec_accepted (rp_acpt rp) else spec_rejected (rp_rjct rp).

Definition reply_ok (rp : reply_body S T) : Prop :=
  if rp_stat rp =? MSG_ACCEPTED then accepted_ok (rp_acpt rp)
  else rp_stat rp = MSG_DENIED ∧ rejected_ok (rp_rjct rp).

Definition reply_init (rp0 rp : reply_body S T) : Prop :=
  if rp_stat rp =? MSG_ACCEPTED
  then accepted_init (rp_acpt rp0) (rp_acpt rp) ∧ rp_rjct rp0 = rp_rjct rp
  else rejected_init (rp_rjct rp0) (rp_rjct rp) ∧ rp_acpt rp0 = rp_acpt rp.

Lemma reply_arm_codec d p :
  find_choice d (reply_dscrm (S := S) (T := T)) = Some p →
  codec p (λ u, if d =? MSG_ACCEPTED then spec_accepted u.1 else spec_rejected u.2)
    (λ u, if d =? MSG_ACCEPTED then accepted_ok u.1 else d = MSG_DENIED ∧ rejected_ok u.2)
    (λ u0 u, if d =? MSG_ACCEPTED then accepted_init u0.1 u.1 ∧ u0.2 = u.2
             else rejected_init u0.2 u.2 ∧ u0.1 = u.1).
Proof using Hproc.
  unfold reply_dscrm, find_choice. rewrite (Z.eqb_sym _ d). case_if; [|case_if; [|done]]; intros [= <-].
  - eapply fcodec_codec; [apply (fcodec_field _ _ _ _ _ _ xdr_accepted_reply_codec); by intros []|].
    intros [a r] [a0 r0] _ [Hi ->]. done.
  - assert (Hc : codec (xdr_field snd (λ r u, (u.1, r)) xdr_rejected_reply)
      (λ u : accepted_reply S T * _, spec_rejected u.2) (λ u, rejected_ok u.2)
      (λ u0 u, rejected_init u0.2 u.2 ∧ u0.1 = u.1)).
    { eapply fcodec_codec; [apply (fcodec_field _ _ _ _ _ _ xdr_rejected_reply_codec); by intros []|].
      intros [a r] [a0 r0] _ [Hi Ha]. simpl in *. by subst. }
    eapply codec_ext; [exact Hc|by intros u [_ ?]|done].
Qed.

Lemma xdr_reply_body_codec : codec xdr_reply_body spec_reply reply_ok reply_init.
Proof using Hproc.
  pose proof (xdr_union_codec (reply_dscrm (S := S) (T := T)) None
    (λ d u, if d =? MSG_ACCEPTED then spec_accepted u.1 else spec_rejected u.2)
    (λ d u, if d =? MSG_ACCEPTED then accepted_ok u.1 else d = MSG_DENIED ∧ rejected_ok u.2)
    (λ d u0 u, if d =? MSG_ACCEPTED then accepted_init u0.1 u.1 ∧ u0.2 = u.2
               else rejected_init u0.2 u.2 ∧ u0.1 = u.1) reply_arm_codec ltac:(done)) as Hu.
  assert (Hf := fcodec_field (λ rp : reply_body S T, (rp_stat rp, (rp_acpt rp, rp_rjct rp)))
    (λ u _, MkReply u.1 u.2.1 u.2.2) _ _ _ _ Hu ltac:(by intros [])).
  assert (Hc := fcodec_codec _ _ _ _ _ reply_init Hf).
  eapply codec_ext; [apply Hc|..]; simpl.
  - intros rp rp0 _ Hi. split; [done|by destruct rp].
  - intros rp Hok. split; [|done]. unfold reply_ok in Hok. destruct rp as [st a r]. simpl in *.
    destruct (Z.eqb_spec st MSG_ACCEPTED) as [->|]; [done|]. by destruct Hok as [-> ?].
  - done.
Qed.

Definition spec_replymsg (m : rpc_msg S T) : list Z :=
  be32 (rm_xid m) ++ be32 (rm_direction m) ++ spec_reply (rm_reply m).

Definition replymsg_ok (m : rpc_msg S T) : Prop :=
  is_u32 (rm_xid m) ∧ rm_direction m = REPLY ∧ reply_ok (rm_reply m).

Definition replymsg_init (m0 m : rpc_msg S T) : Prop :=
  rm_call m0 = rm_call m ∧ reply_init (rm_reply m0) (rm_reply m).

Lemma replymsg_filters_codec : codec replymsg_filters spec_replymsg replymsg_ok replymsg_init.
Proof using Hproc.
  assert (Hf := fcodec_and _ _ _ _ _ _ _ _ _ _
    (fcodec_field (@rm_xid S T) set_xid _ _ _ _ xdr_u_long_codec ltac:(by intros []))
    (fcodec_and _ _ _ _ _ _ _ _ _ _
      (fcodec_field (@rm_direction S T) set_direction _ _ _ _ xdr_long_codec ltac:(by intros []))
      (fcodec_and _ _ _ _ _ _ _ _ _ _ (fcodec_test (λ m : rpc_msg S T, rm_direction m =? REPLY))
        (fcodec_field (@rm_reply S T) set_reply _ _ _ _ xdr_reply_body_codec ltac:(by intros []))))).
  assert (Hc := fcodec_codec _ _ _ _ _ replymsg_init Hf).
  eapply codec_ext; [apply Hc|..]; simpl.
  - intros m m0 (_ & _ & Hd & _) [Hcall Hi]. split; [done|]. destruct m, m0. simpl in *. by subst.
  - intros m (Hx & Hd & Hr). split; [|done]. by rewrite Hd.
  - done.
Qed.

(** *** In line *)

Lemma auth_ok_holds oa :
  auth_ok oa → oa_holds oa (default [] (obuf (oa_base oa))) ∧
    0 ≤ oa_length oa ≤ MAX_AUTH_BYTES ∧
    spec_auth oa = be32 (oa_flavor oa) ++ be32 (oa_length oa) ++
      default [] (obuf (oa_base oa)) ++ replicate (Z.to_nat (pad (oa_length oa))) 0.
Proof.
  intros (Hf & Hns & Hmax & Hlt & Hl & Hne). unfold spec_auth, spec_bytes, spec_opaque. simpl in *.
  rewrite <- Hl. split_and!; [|lia|lia|done]. split; [done|].
  destruct (oa_base oa) as [|b|]; simpl in *; [by left| |done].
  right. exists []. by rewrite app_nil_r.
Qed.

(** The header of an accepted reply. *)
Definition reply_hdr (m : rpc_msg S T) : list Z :=
  let ar := rp_acpt (rm_reply m) in
  be32 (rm_xid m) ++ be32 (rm_direction m) ++ be32 (rp_stat (rm_reply m)) ++
  spec_auth (ar_verf ar) ++ be32 (ar_stat ar).

Lemma spec_replymsg_hdr m :
  rp_stat (rm_reply m) = MSG_ACCEPTED →
  spec_replymsg m = reply_hdr m ++ spec_results (rp_acpt (rm_reply m)).
Proof.
  intros Hst. unfold spec_replymsg, spec_reply, spec_accepted, reply_hdr. rewrite Hst. simpl.
  by rewrite <- !app_assoc.
Qed.

Lemma reply_hdr_length m :
  auth_ok (ar_verf (rp_acpt (rm_reply m))) →
  Z.of_nat (length (reply_hdr m)) = 24 + RNDUP (oa_length (ar_verf (rp_acpt (rm_reply m)))).
Proof.
  intros Ha. unfold reply_hdr. destruct (auth_ok_holds _ Ha) as ([Hl _] & Hb & ->).
  rewrite RNDUP_pad by (unfold MAX_AUTH_BYTES, W32 in *; lia).
  pose proof (pad_bound (oa_length (ar_verf (rp_acpt (rm_reply m))))). lens.
Qed.

(** The header before the body of the verifier. *)
Definition reply_words (m : rpc_msg S T) : list Z :=
  let oa := ar_verf (rp_acpt (rm_reply m)) in
  be32 (rm_xid m) ++ be32 (rm_direction m) ++ be32 (rp_stat (rm_reply m)) ++
  be32 (oa_flavor oa) ++ be32 (oa_length oa).

Lemma reply_hdr_words m :
  reply_hdr m = (reply_words m ++
    spec_opaque (default [] (obuf (oa_base (ar_verf (rp_acpt (rm_reply m))))))) ++
    be32 (ar_stat (rp_acpt (rm_reply m))).
Proof. unfold reply_hdr, reply_words, spec_auth, spec_bytes. simpl. by rewrite <- !app_assoc. Qed.

Lemma put_reply_hole {k} s o p old n m bs :
  hole k s o p old n → oa_holds (ar_verf (rp_acpt (rm_reply m))) bs →
  (20 + length bs ≤ length old)%nat →
  ∃ s', put_reply s p m = Ok (s', p + Z.of_nat (length (reply_words m))) ∧
    hole k s' o p ((reply_words m ++ bs) ++ drop (20 + length bs) old) n.
Proof.
  intros Hh Hoa Hl. unfold put_reply.
  destruct (put_hole0 s o p old n (rm_xid m) Hh) as (s1 & -> & Hh1); [lia|]. simpl.
  destruct (put_hole s1 o p _ _ n (rm_direction m) Hh1) as (s2 & -> & Hh2);
    [rewrite length_drop; lia|]. simpl.
  destruct (put_hole s2 o p _ _ n (rp_stat (rm_reply m)) Hh2) as (s3 & -> & Hh3);
    [rewrite !length_drop; lia|]. simpl. rewrite !drop_drop in Hh3.
  destruct (put_auth_hole s3 o p _ _ n _ bs Hh3 Hoa) as (s4 & -> & Hh4);
    [rewrite !length_drop; lia|]. simpl. rewrite !drop_drop in Hh4. exists s4.
  unfold reply_words. rewrite <- !app_assoc in *. split; [done|]. exact Hh4.
Qed.

(** Storing the header in the region reserved for it. *)
Lemma replymsg_put_hdr {k} s o p old n m :
  auth_ok (ar_verf (rp_acpt (rm_reply m))) →
  hole k s o p old n → length old = length (reply_hdr m) →
  ∃ s', enc k s' (o ++ reply_hdr m) n ∧
    replymsg_put s p m = ('(b, ar, s) ← xdr_results s' (rp_acpt (rm_reply m));
      Ok (b, set_reply (set_rp_acpt ar (rm_reply m)) m, s)).
Proof.
  intros Ha Hh Hold. rewrite reply_hdr_words in *. unfold replymsg_put.
  destruct (auth_ok_holds _ Ha) as (Hoa & Hb & _). pose proof (proj1 Hoa) as Hbl.
  set (oa := ar_verf (rp_acpt (rm_reply m))) in *. set (bs := default [] (obuf (oa_base oa))) in *.
  pose proof (spec_opaque_length bs) as Hsl. rewrite <- Hbl in Hsl.
  assert (Hw : length (reply_words m) = 20%nat) by (unfold reply_words; lens).
  pose proof (pad_bound (oa_length oa)) as Hpad. rewrite !length_app, Hw, length_be32 in Hold.
  destruct (put_reply_hole s o p old n m bs Hh Hoa) as (s1 & -> & Hh1); [lia|]. simpl.
  destruct (put_pad_hole s1 o p _ bs _ n (oa_length oa) Hh1 Hbl) as (s2 & -> & Hh2);
    [lia|rewrite length_drop; lia|]. simpl.
  destruct (put_hole s2 o p _ _ n (ar_stat (rp_acpt (rm_reply m))) Hh2) as (s3 & -> & Hh3);
    [rewrite !length_drop; lia|]. simpl. exists s3. split; [|done].
  apply hole_enc in Hh3. by rewrite !drop_drop, (drop_ge old), app_nil_r in Hh3 by lia.
Qed.

(** Decoding an accepted reply after its first three words. *)
Lemma replymsg_get_accepted s ar ar0 r :
  accepted_ok ar → accepted_init ar0 ar → dec s (spec_accepted ar ++ r) → units r →
  ∃ s', (xdr_field ar_verf set_ar_verf auth_words &> xdr_field ar_verf set_ar_verf reply_verf_body &>
         xdr_field ar_stat set_ar_stat xdr_enum &> xdr_results) s ar0 = Ok (true, ar, s') ∧ dec s' r.
Proof using Hproc.
  intros Hok Hi Hs Hr. destruct (accepted_rest _ _ Hok Hi) as [Hri Hrd].
  pose proof Hok as (Ha & Hst & Hres). pose proof Hi as (Hai & _).
  unfold spec_accepted, spec_auth, spec_bytes in Hs. simpl in Hs. rewrite <- !app_assoc in Hs.
  pose proof Ha as (Hf & _ & Hmax & Hlt & Hl & _). simpl in *.
  assert (Hru : units (spec_results ar ++ r))
    by (apply units_app; [by apply xdr_results_fcodec|done]).
  destruct (auth_words_dec s _ _ (ar_verf ar0) _ Hs) as (s1 & E1 & Hs1);
    [done|unfold is_u32, W31, W32 in *; lia|auto using spec_opaque_units with kern|].
  rewrite (xdr_and_true _ _ _ _ _ _ (xdr_field_ok _ _ _ _ _ _ _ _ E1)).
  destruct (reply_verf_body_dec s1 _ _ _ Ha Hai Hs1) as (s2 & E2 & Hs2).
  erewrite xdr_and_true by (apply xdr_field_ok; exact E2).
  destruct (codec_dec _ _ _ _ xdr_long_codec s2 _ (ar_stat ar0) _ Hst I Hs2 Hru) as (s3 & E3 & Hs3).
  erewrite xdr_and_true by (apply xdr_field_ok; exact E3).
  destruct (fcodec_dec _ _ _ _ _ xdr_results_fcodec s3 _ _ r Hres Hri Hs3 Hr) as (s4 & E & Hs4).
  exists s4. split; [|done]. by rewrite Hrd in E.
Qed.

Lemma replymsg_get_dec s p w m m0 r :
  replymsg_ok m → replymsg_init m0 m → view s p w →
  w = be32 (rm_xid m) ++ be32 (rm_direction m) ++ be32 (rp_stat (rm_reply m)) →
  dec s ((if rp_stat (rm_reply m) =? MSG_ACCEPTED then spec_accepted (rp_acpt (rm_reply m))
          else spec_rejected (rp_rjct (rm_reply m))) ++ r) → units r →
  ∃ s', replymsg_get s p m0 = Ok (true, m, s') ∧ dec s' r.
Proof using Hproc.
  intros (Hx & Hd & Hok) [Hcall Hi] Hv -> Hs Hr. unfold replymsg_get. rewrite Hd in Hv.
  rewrite (get_view0 _ _ _ _ Hv). simpl. rewrite (get_view _ _ _ _ REPLY _ Hv eq_refl).
  simpl. change (s32 REPLY) with REPLY. simpl.
  rewrite (get_view _ _ _ _ (rp_stat (rm_reply m)) [] Hv) by (by rewrite app_nil_r, <- app_assoc).
  simpl. unfold reply_ok, reply_init in *. rewrite u32_s32, u32_small by done.
  destruct (Z.eqb_spec (rp_stat (rm_reply m)) MSG_ACCEPTED) as [E|E].
  - rewrite E. change (s32 MSG_ACCEPTED) with MSG_ACCEPTED. simpl. destruct Hi as [Hi Hrj].
    destruct (replymsg_get_accepted _ _ _ r Hok Hi Hs Hr) as (s' & -> & Hs'). exists s'. simpl.
    split; [|done]. destruct m as [x d c [st a j]], m0 as [x0 d0 c0 [st0 a0 j0]]. simpl in *. by subst.
  - destruct Hok as [Hst Hok], Hi as [Hi Ha]. rewrite Hst. change (s32 MSG_DENIED) with MSG_DENIED. simpl.
    destruct (codec_dec _ _ _ _ xdr_rejected_reply_codec s _ _ r Hok Hi Hs Hr) as (s' & -> & Hs').
    exists s'. simpl. split; [|done].
    destruct m as [x d c [st a j]], m0 as [x0 d0 c0 [st0 a0 j0]]. simpl in *. by subst.
Qed.

Lemma spec_replymsg_length m :
  replymsg_ok m → rp_stat (rm_reply m) = MSG_ACCEPTED →
  Z.of_nat (length (spec_replymsg m)) =
    24 + RNDUP (oa_length (ar_verf (rp_acpt (rm_reply m)))) +
    Z.of_nat (length (spec_results (rp_acpt (rm_reply m)))) ∧
  0 ≤ RNDUP (oa_length (ar_verf (rp_acpt (rm_reply m)))) ≤ MAX_AUTH_BYTES.
Proof.
  intros (_ & _ & Hok) Hst. unfold reply_ok in Hok. rewrite Hst in Hok. destruct Hok as (Ha & _).
  rewrite spec_replymsg_hdr, length_app, Nat2Z.inj_add, reply_hdr_length by done. split; [done|].
  destruct (auth_ok_holds _ Ha) as (_ & Hb & _).
  rewrite RNDUP_pad by (unfold MAX_AUTH_BYTES, W32 in *; lia). unfold pad, MAX_AUTH_BYTES in *.
  pose proof (Z.div_mod (oa_length (ar_verf (rp_acpt (rm_reply m)))) 4 ltac:(lia)).
  pose proof (Z.mod_pos_bound (oa_length (ar_verf (rp_acpt (rm_reply m)))) 4 ltac:(lia)).
  case_if; lia.
Qed.

Lemma xdr_replymsg_enc {k} s o n m :
  replymsg_ok m → enc k s o n → Z.of_nat (length (spec_replymsg m)) ≤ n →
  ∃ s', xdr_replymsg s m = Ok (true, m, s') ∧
    enc k s' (o ++ spec_replymsg m) (n - Z.of_nat (length (spec_replymsg m))).
Proof using Hproc.
  intros Hok Hs Hn. unfold xdr_replymsg. rewrite (enc_op _ _ _ Hs). pose proof Hok as (Hx & Hd & Hrok).
  rewrite Hd. destruct (Z.eqb_spec (rp_stat (rm_reply m)) MSG_ACCEPTED) as [E|E]; simpl.
  - destruct (spec_replymsg_length m Hok E) as [Hlen Hb]. unfold reply_ok in Hrok. rewrite E in Hrok.
    destruct Hrok as (Ha & Hst & Hres).
    rewrite add32_small, s32_small
      by (unfold is_s32, MAX_AUTH_BYTES, BYTES_PER_XDR_UNIT, W31, W32 in *; lia).
    destruct (enc_inline s o n (6 * BYTES_PER_XDR_UNIT +
      RNDUP (oa_length (ar_verf (rp_acpt (rm_reply m))))) Hs) as (q & s1 & -> & Hq);
      [unfold MAX_AUTH_BYTES, BYTES_PER_XDR_UNIT, W31 in *; lia|].
    simpl. destruct q as [p|].
    + destruct Hq as (Hfit & old & Hold & Hh).
      destruct (replymsg_put_hdr s1 o p old _ m Ha Hh) as (s2 & Hs2 & ->).
      { apply Nat2Z.inj. rewrite reply_hdr_length by done. by rewrite Hold. }
      destruct (fcodec_enc _ _ _ _ _ xdr_results_fcodec s2 _ _ _ Hres Hs2) as (s3 & -> & Hs3);
        [unfold BYTES_PER_XDR_UNIT in *; lia|].
      exists s3. simpl. split; [by destruct m as [? ? ? []]|].
      eapply enc_cong; [exact Hs3|by rewrite spec_replymsg_hdr, app_assoc|
        unfold BYTES_PER_XDR_UNIT in *; lia].
    + rewrite (enc_op _ _ _ Hq). simpl. by apply replymsg_filters_codec.
  - rewrite (enc_op _ _ _ Hs). simpl. by apply replymsg_filters_codec.
Qed.

Lemma xdr_replymsg_dec s m m0 r :
  replymsg_ok m → replymsg_init m0 m → dec s (spec_replymsg m ++ r) → units r →
  ∃ s', xdr_replymsg s m0 = Ok (true, m, s') ∧ dec s' r.
Proof using Hproc.
  intros Hok Hi Hs Hr. unfold xdr_replymsg. rewrite (dec_op _ _ Hs). simpl. rewrite (dec_op _ _ Hs).
  simpl. destruct (dec_inline s _ (3 * BYTES_PER_XDR_UNIT) Hs ltac:(done)) as (q & s1 & -> & Hq).
  simpl. destruct q as [p|]; [|by eapply (codec_dec _ _ _ _ replymsg_filters_codec)].
  destruct Hq as (bs & r' & E & Hlb & Hs1 & Hv). unfold spec_replymsg, spec_reply in E.
  assert (E' : (be32 (rm_xid m) ++ be32 (rm_direction m) ++ be32 (rp_stat (rm_reply m))) ++
    ((if rp_stat (rm_reply m) =? MSG_ACCEPTED then spec_accepted (rp_acpt (rm_reply m))
      else spec_rejected (rp_rjct (rm_reply m))) ++ r) = bs ++ r')
    by (rewrite <- E, <- !app_assoc; done).
  apply inline_split in E' as [-> ->]; [|unfold BYTES_PER_XDR_UNIT in *; lens].
  by eapply replymsg_get_dec.
Qed.

Lemma replymsg_units m : replymsg_ok m → units (spec_replymsg m).
Proof using Hproc. intros. by apply (codec_units _ _ _ _ replymsg_filters_codec). Qed.

(** C36: replies.  On any stream [xdr_replymsg] encodes an accepted or denied reply
    as RFC 1831 lays it out and decodes that encoding back to the same message,
    whether the header is moved in line or through the filters, in each
    direction. *)
Theorem xdr_replymsg_codec : codec xdr_replymsg spec_replymsg replymsg_ok replymsg_init.
Proof using Hproc.
  constructor;
    [apply replymsg_units|intros; by apply xdr_replymsg_enc|intros; by eapply xdr_replymsg_dec].
Qed.

Lemma replymsg_hdr_put_hole {k} s o p old n m :
  auth_ok (ar_verf (rp_acpt (rm_reply m))) →
  (4 | oa_length (ar_verf (rp_acpt (rm_reply m)))) →
  hole k s o p old n → length old = length (reply_hdr m) →
  ∃ s', replymsg_hdr_put s p m = Ok (true, m, s') ∧ enc k s' (o ++ reply_hdr m) n.
Proof.
  intros Ha Hdiv Hh Hold. rewrite reply_hdr_words in *. unfold replymsg_hdr_put.
  destruct (auth_ok_holds _ Ha) as (Hoa & Hb & _). pose proof (proj1 Hoa) as Hbl.
  set (oa := ar_verf (rp_acpt (rm_reply m))) in *. set (bs := default [] (obuf (oa_base oa))) in *.
  assert (Hpad : pad (oa_length oa) = 0).
  { unfold pad. rewrite (proj2 (Z.mod_divide _ 4 ltac:(lia)) Hdiv). done. }
  assert (Hbs : spec_opaque bs = bs) by (unfold spec_opaque; by rewrite <- Hbl, Hpad, app_nil_r).
  rewrite Hbs in *. assert (Hw : length (reply_words m) = 20%nat) by (unfold reply_words; lens).
  rewrite !length_app, Hw, length_be32 in Hold.
  destruct (put_reply_hole s o p old n m bs Hh Hoa) as (s1 & -> & Hh1); [lia|]. simpl.
  set (buf := if oa_length oa =? 0 then _ else _).
  assert (buf = p + Z.of_nat (length (reply_words m ++ bs))) as ->.
  { unfold buf, BYTES_PER_XDR_UNIT. destruct Hdiv as [z Hz].
    rewrite add32_small by (unfold MAX_AUTH_BYTES, W32 in *; lia).
    replace ((oa_length oa + (4 - 1)) / 4) with z; [case_if; lens|].
    apply Z.div_unique_pos with (r := 3); lia. }
  destruct (put_hole s1 o p _ _ n (ar_stat (rp_acpt (rm_reply m))) Hh1) as (s2 & -> & Hh2);
    [rewrite length_drop; lia|]. simpl. exists s2. split; [done|].
  apply hole_enc in Hh2. by rewrite !drop_drop, (drop_ge old), app_nil_r in Hh2 by lia.
Qed.

(** The filters of [xdr_replymsg_hdr]. *)
Lemma replymsg_hdr_filters_enc {k} s o n m :
  replymsg_ok m → rp_stat (rm_reply m) = MSG_ACCEPTED → enc k s o n →
  Z.of_nat (length (reply_hdr m)) ≤ n →
  ∃ s', (xdr_field rm_xid set_xid xdr_u_long &> xdr_field rm_direction set_direction xdr_enum &>
      xdr_field rm_reply set_reply (xdr_field rp_stat set_rp_stat xdr_enum &>
        xdr_field rp_acpt set_rp_acpt (xdr_field ar_verf set_ar_verf xdr_opaque_auth &>
          xdr_field ar_stat set_ar_stat xdr_enum))) s m = Ok (true, m, s') ∧
    enc k s' (o ++ reply_hdr m) (n - Z.of_nat (length (reply_hdr m))).
Proof.
  intros (Hx & Hd & Hok) Hst Hs Hn. unfold reply_ok in Hok. rewrite Hst in Hok.
  destruct Hok as (Ha & Hast & _). unfold reply_hdr in *. rewrite !length_app in Hn.
  destruct (codec_enc _ _ _ _ xdr_u_long_codec s o n _ Hx Hs) as (s1 & E1 & Hs1); [lens|].
  erewrite xdr_and_true by (apply xdr_field_ok; exact E1).
  destruct (codec_enc _ _ _ _ xdr_long_codec s1 _ _ (rm_direction m) ltac:(by rewrite Hd) Hs1)
    as (s2 & E2 & Hs2); [lens|]. unfold xdr_enum.
  erewrite xdr_and_true by (apply xdr_field_ok; exact E2).
  destruct (codec_enc _ _ _ _ xdr_long_codec s2 _ _ (rp_stat (rm_reply m)) ltac:(by rewrite Hst) Hs2)
    as (s3 & E3 & Hs3); [lens|].
  destruct (codec_enc _ _ _ _ xdr_opaque_auth_codec s3 _ _ _ Ha Hs3) as (s4 & E4 & Hs4); [lens|].
  destruct (codec_enc _ _ _ _ xdr_long_codec s4 _ _ _ Hast Hs4) as (s5 & E5 & Hs5); [lens|].
  exists s5. split; [|eapply enc_cong; [exact Hs5|by rewrite <- !app_assoc|lens]].
  erewrite xdr_field_ok; [|erewrite xdr_and_true by (apply xdr_field_ok; exact E3);
    apply xdr_field_ok; erewrite xdr_and_true by (apply xdr_field_ok; exact E4);
    apply xdr_field_ok; exact E5].
  by destruct m as [? ? ? [? [] ?]].
Qed.

(** [xdr_replymsg_hdr] followed by [xdr_replymsg_body] writes what
    [xdr_replymsg] writes for a successful reply, provided the verifier is a whole
    number of units. *)
Theorem xdr_replymsg_hdr_body {k} s o n m :
  replymsg_ok m → rp_stat (rm_reply m) = MSG_ACCEPTED → ar_stat (rp_acpt (rm_reply m)) = SUCCESS →
  (4 | oa_length (ar_verf (rp_acpt (rm_reply m)))) →
  enc k s o n → Z.of_nat (length (spec_replymsg m)) ≤ n →
  ∃ s1 s2, xdr_replymsg_hdr s m = Ok (true, m, s1) ∧ xdr_replymsg_body s1 m = Ok (true, m, s2) ∧
    enc k s2 (o ++ spec_replymsg m) (n - Z.of_nat (length (spec_replymsg m))).
Proof using Hproc.
  intros Hok Hst Hsucc Hdiv Hs Hn.
  destruct (spec_replymsg_length m Hok Hst) as [Hlen Hb]. pose proof Hok as (Hx & Hd & Hrok).
  unfold reply_ok in Hrok. rewrite Hst in Hrok. destruct Hrok as (Ha & Hast & Hres).
  pose proof (reply_hdr_length m Ha) as Hhl.
  assert (Hhdr : ∃ s1, xdr_replymsg_hdr s m = Ok (true, m, s1) ∧
    enc k s1 (o ++ reply_hdr m) (n - Z.of_nat (length (reply_hdr m)))).
  { unfold xdr_replymsg_hdr. rewrite (enc_op _ _ _ Hs), Hst, Hd. simpl.
    destruct (auth_ok_holds _ Ha) as (_ & Hmax & _).
    assert (HR : RNDUP (oa_length (ar_verf (rp_acpt (rm_reply m)))) =
      oa_length (ar_verf (rp_acpt (rm_reply m)))).
    { rewrite RNDUP_pad by (unfold MAX_AUTH_BYTES, W32 in *; lia). unfold pad.
      rewrite (proj2 (Z.mod_divide _ 4 ltac:(lia)) Hdiv). simpl. lia. }
    rewrite add32_small, s32_small
      by (unfold is_s32, MAX_AUTH_BYTES, BYTES_PER_XDR_UNIT, W31, W32 in *; lia).
    destruct (enc_inline s o n (6 * BYTES_PER_XDR_UNIT +
      oa_length (ar_verf (rp_acpt (rm_reply m)))) Hs) as (q & s1 & -> & Hq);
      [unfold MAX_AUTH_BYTES, BYTES_PER_XDR_UNIT, W31 in *; lia|].
    simpl. unfold BYTES_PER_XDR_UNIT in *. destruct q as [p|].
    - destruct Hq as (Hfit & old & Hold & Hh).
      destruct (replymsg_hdr_put_hole s1 o p old _ m Ha Hdiv Hh) as (s2 & -> & Hs2); [lia|].
      exists s2. split; [done|]. eapply enc_cong; [exact Hs2|done|lia].
    - by apply replymsg_hdr_filters_enc; [..|lia]. }
  destruct Hhdr as (s1 & E1 & Hs1). exists s1. rewrite E1.
  unfold results_ok, spec_results in *. rewrite spec_replymsg_hdr in * by done.
  unfold spec_results in *. rewrite Hsucc in *. simpl in *. destruct Hres as [Hp Hw].
  destruct (codec_enc _ _ _ _ Hproc s1 _ _ _ Hw Hs1) as (s2 & E2 & Hs2); [lia|]. exists s2.
  split_and!; [done| |eapply enc_cong; [exact Hs2|by rewrite app_assoc|lens]].
  unfold xdr_replymsg_body. rewrite (enc_op _ _ _ Hs1), Hp. simpl.
  erewrite xdr_field_ok; [|apply xdr_field_ok, xdr_field_ok; exact E2].
  by destruct m as [? ? ? [? [] ?]].
Qed.

End reply.

End rpc_codec.

(** ** Errors of a reply *)

(** The client status for an [accept_stat], RPC_FAILED for an unknown one. *)
Definition accept_status (stat : Z) : Z :=
  default RPC_FAILED (list_to_map (M := gmap Z Z)
    [(SUCCESS, RPC_SUCCESS); (PROG_UNAVAIL, RPC_PROGUNAVAIL); (PROG_MISMATCH, RPC_PROGVERSMISMATCH);
     (PROC_UNAVAIL, RPC_PROCUNAVAIL); (GARBAGE_ARGS, RPC_CANTDECODEARGS);
     (SYSTEM_ERR, RPC_SYSTEMERROR)] !! stat).

(** [_seterr_reply] classifies replies.  The status is that of the accept
    status, the versions of a version mismatch and the reason of an
    authentication error are copied from the member of the reply that has them;
    the status is RPC_SUCCESS only for an accepted, successful reply. *)
Theorem seterr_reply_spec {S T : Type} (m : rpc_msg S T) (e : rpc_err) :
  let rp := rm_reply m in
  let e' := seterr_reply m e in
  (rp_stat rp = MSG_ACCEPTED → re_status e' = accept_status (ar_stat (rp_acpt rp)) ∧
     (ar_stat (rp_acpt rp) = PROG_MISMATCH →
      re_vers e' = (ar_low (rp_acpt rp), ar_high (rp_acpt rp)))) ∧
  (rp_stat rp = MSG_DENIED → rj_stat (rp_rjct rp) = AUTH_ERROR →
     re_status e' = RPC_AUTHERROR ∧ re_why e' = rj_why (rp_rjct rp)) ∧
  (re_status e' = RPC_SUCCESS ↔
     rp_stat rp = MSG_ACCEPTED ∧ ar_stat (rp_acpt rp) = SUCCESS).
Proof.
  unfold seterr_reply, seterr_stat, accepted, rejected, accept_status.
  destruct m as [x d c [st ar rj]]. simpl. split_and!.
  - intros ->. simpl. unfold list_to_map. simpl. set (a := ar_stat ar).
    destruct (Z.eqb_spec a SUCCESS) as [->|]; [done|].
    destruct (Z.eqb_spec a PROG_UNAVAIL) as [->|]; [done|].
    destruct (Z.eqb_spec a PROG_MISMATCH) as [->|]; [done|].
    destruct (Z.eqb_spec a PROC_UNAVAIL) as [->|]; [done|].
    destruct (Z.eqb_spec a GARBAGE_ARGS) as [->|]; [done|].
    destruct (Z.eqb_spec a SYSTEM_ERR) as [->|]; [done|].
    simpl. rewrite !lookup_insert_ne by done. done.
  - intros -> ->. done.
  - split; [|by intros [-> ->]].
    repeat (case_if; simpl; [try done|]); try done.
    all: repeat (case_if; simpl; try done).
Qed.

(** a version mismatch is not recognised.  A denied reply with the status
    RPC_MISMATCH becomes RPC_FAILED and the supported versions it carries are
    dropped: [rejected] tests for RPC_VERSMISMATCH, the value of another
    enumeration. *)
Theorem seterr_reply_mismatch_lost {S T : Type} (m : rpc_msg S T) (e : rpc_err) :
  rp_stat (rm_reply m) = MSG_DENIED → rj_stat (rp_rjct (rm_reply m)) = RPC_MISMATCH →
  seterr_reply m e = MkErr RPC_FAILED (re_vers e) (re_why e) (MSG_DENIED, RPC_MISMATCH).
Proof. unfold seterr_reply, seterr_stat, rejected. by intros -> ->. Qed.

(** ** Concrete messages on memory streams *)

(** A reply with the verifier [verf] and the result [r]. *)
Definition ex_reply (verf : list Z) (r : Z) : rpc_msg XDRmem Z :=
  MkMsg 7 REPLY (MkCall 0 0 0 0 (MkAuth 0 NULL 0) (MkAuth 0 NULL 0))
    (MkReply MSG_ACCEPTED
       (MkAccepted (MkAuth 1 (match verf with [] => NULL | _ => BUF verf end)
          (Z.of_nat (length verf))) SUCCESS 0 0 r (Some xdr_long))
       (MkRejected 0 0 0 0)).

(** A reply to decode into. *)
Definition ex_reply0 : rpc_msg XDRmem Z :=
  MkMsg 0 0 (MkCall 0 0 0 0 (MkAuth 0 NULL 0) (MkAuth 0 NULL 0))
    (MkReply 0 (MkAccepted (MkAuth 0 NULL 0) 0 0 0 0 (Some xdr_long)) (MkRejected 0 0 0 0)).

Definition ex_denied : rpc_msg XDRmem Z :=
  MkMsg 7 REPLY (MkCall 0 0 0 0 (MkAuth 0 NULL 0) (MkAuth 0 NULL 0))
    (MkReply MSG_DENIED (MkAccepted (MkAuth 0 NULL 0) 0 0 0 0 None) (MkRejected RPC_MISMATCH 2 2 0)).

(** The data of a reply that was processed successfully. *)
Definition reply_data {C} (x : res (bool * rpc_msg XDRmem Z * C)) :=
  match x with
  | Ok (true, m, _) =>
    Some (rm_xid m, rm_direction m, rp_stat (rm_reply m), ar_verf (rp_acpt (rm_reply m)),
          ar_stat (rp_acpt (rm_reply m)), ar_where (rp_acpt (rm_reply m)))
  | _ => None
  end.

(** [xdr_replymsg_hdr] followed by [xdr_replymsg_body]. *)
Definition hdr_body (s : XDRmem) (m : rpc_msg XDRmem Z) : res (bool * XDRmem) :=
  '(ok, m, s) ← xdr_replymsg_hdr s m;
  if ok : bool then '(ok, _, s) ← xdr_replymsg_body s m; Ok (ok, s) else Ok (false, s).

Lemma ex_reply_ok : replymsg_ok xdr_long is_s32 (ex_reply [9; 8; 7; 6] 42).
Proof. repeat split; simpl; try done; unfold W31, MAX_AUTH_BYTES; simpl; lia. Qed.

Lemma ex_enc_ok n : Z.of_nat n < 1000000 → enc 4096 (ex_enc n) [] (Z.of_nat n).
Proof.
  intros Hn. apply (xdrmem_create_enc (zeroed 4096 n) 4096 (replicate n 0));
    [apply zeroed_has|by rewrite length_replicate|lia|unfold W32; lia|unfold W31; lia].
Qed.

Lemma xdr_replymsg_codec_witness :
  codec (xdr_replymsg (S := XDRmem)) (spec_replymsg be32) (replymsg_ok xdr_long is_s32)
    (replymsg_init any) ∧
  replymsg_ok xdr_long is_s32 (ex_reply [9; 8; 7; 6] 42) ∧
  reply_data (xdr_replymsg (ex_dec (spec_replymsg be32 (ex_reply [9; 8; 7; 6] 42))) ex_reply0) =
    Some (7, REPLY, MSG_ACCEPTED, MkAuth 1 (BUF [9; 8; 7; 6]) 4, SUCCESS, 42).
Proof.
  split; [apply (xdr_replymsg_codec (S := XDRmem) xdr_long be32 is_s32 any xdr_long_codec)|].
  split; [apply ex_reply_ok|vm_compute; reflexivity].
Defined.

Lemma xdr_replymsg_hdr_body_witness :
  ∃ s1 s2, xdr_replymsg_hdr (ex_enc 64) (ex_reply [9; 8; 7; 6] 42) = Ok (true, ex_reply [9; 8; 7; 6] 42, s1) ∧
    xdr_replymsg_body s1 (ex_reply [9; 8; 7; 6] 42) = Ok (true, ex_reply [9; 8; 7; 6] 42, s2) ∧
    enc 4096 s2 (spec_replymsg be32 (ex_reply [9; 8; 7; 6] 42)) 32.
Proof.
  apply (xdr_replymsg_hdr_body (S := XDRmem) xdr_long be32 is_s32 any xdr_long_codec (ex_enc 64) [] 64
    (ex_reply [9; 8; 7; 6] 42)).
  - apply ex_reply_ok.
  - reflexivity.
  - reflexivity.
  - by exists 1.
  - by apply (ex_enc_ok 64).
  - vm_compute. congruence.
Defined.

(** [xdr_replymsg_hdr] reserves too little.  With a verifier of 5 bytes it
    asks [XDR_INLINE] for 29 bytes and stores 32: the last three fall outside the
    buffer when it ends there; in a longer one the results then overwrite the
    accept status, and the reply is not the one [xdr_replymsg] would have
    written. *)
Theorem xdr_replymsg_hdr_unaligned :
  hdr_body (ex_enc 29) (ex_reply [1; 2; 3; 4; 5] 42) = Fault ∧
  ∃ s', hdr_body (ex_enc 64) (ex_reply [1; 2; 3; 4; 5] 42) = Ok (true, s') ∧
    load_bytes (xm_mem s') 4096 36 ≠ Ok (spec_replymsg be32 (ex_reply [1; 2; 3; 4; 5] 42)).
Proof.
  split; [vm_compute; reflexivity|]. eexists. split; [vm_compute; reflexivity|]. vm_compute. congruence.
Qed.

Lemma seterr_reply_spec_witness :
  re_status (seterr_reply (ex_reply [] 42) (MkErr 0 (0, 0) 0 (0, 0))) = accept_status SUCCESS.
Proof. by apply (seterr_reply_spec (ex_reply [] 42) (MkErr 0 (0, 0) 0 (0, 0))). Defined.

Lemma seterr_reply_mismatch_lost_witness :
  seterr_reply ex_denied (MkErr 0 (0, 0) 0 (0, 0)) =
    MkErr RPC_FAILED (0, 0) 0 (MSG_DENIED, RPC_MISMATCH).
Proof. apply (seterr_reply_mismatch_lost ex_denied); reflexivity. Defined.
