(* ===== verification/RpcCall.v ===== *)
(** * Call messages (uts/common/rpc/rpc_calmsg.c)

    [xdr_callmsg] against a reference parser of call headers on byte strings:
    encoding produces a header the parser reads back, and decoding accepts
    exactly the byte strings the parser accepts, with its results, for every
    input. *)

From S2P Require Import Prelude Xdr XdrCodec XdrMem XdrProps RpcMsg RpcProps.

#[local] Arguments xdr_bytes : simpl never.
#[local] Arguments xdr_opaque : simpl never.

(** ** The reference parser *)

Record call_hdr := MkCallHdr {
  ch_xid : Z;
  ch_prog : Z;
  ch_vers : Z;
  ch_proc : Z;
  ch_cflavor : Z;
  ch_cred : list Z;
  ch_vflavor : Z;
  ch_verf : list Z
}.

Definition get_word (l : list Z) : option (Z * list Z) :=
  match l with
  | a :: b :: c :: d :: r => v ← of_be32 [a; b; c; d]; Some (v, r)
  | _ => None
  end.

(** [len] bytes and their padding. *)
Definition get_body (len : Z) (l : list Z) : option (list Z * list Z) :=
  if len <=? Z.of_nat (length l)
  then Some (take (Z.to_nat len) l, drop (Z.to_nat (len + pad len)) l) else None.

(** The body of an authenticator of [len] bytes. *)
Definition get_abody (len : Z) (l : list Z) : option (list Z * list Z) :=
  if MAX_AUTH_BYTES <? len then None else get_body len l.

Definition get_auth (l : list Z) : option (Z * list Z * list Z) :=
  '(f, l) ← get_word l; '(n, l) ← get_word l; '(bs, l) ← get_abody (u32 n) l; Some (f, bs, l).

(** A call header after its first two words. *)
Definition parse_body (xid : Z) (l : list Z) : option (call_hdr * list Z) :=
  '(rpcvers, l) ← get_word l;
  if negb (u32 rpcvers =? RPC_MSG_VERSION) then None
  else
    '(prog, l) ← get_word l;
    '(vers, l) ← get_word l;
    '(proc, l) ← get_word l;
    '(cflavor, cred, l) ← get_auth l;
    '(vflavor, verf, l) ← get_auth l;
    Some (MkCallHdr xid (u32 prog) (u32 vers) (u32 proc) cflavor cred vflavor verf, l).

Definition parse_call (l : list Z) : option (call_hdr * list Z) :=
  '(xid, l) ← get_word l;
  '(direction, l) ← get_word l;
  if negb (direction =? CALL) then None else parse_body (u32 xid) l.

(** The bytes of a call header, with the padding left open. *)
Definition call_wire (h : call_hdr) (pad1 pad2 : list Z) : list Z :=
  be32 (ch_xid h) ++ be32 CALL ++ be32 RPC_MSG_VERSION ++ be32 (ch_prog h) ++ be32 (ch_vers h) ++
  be32 (ch_proc h) ++ be32 (ch_cflavor h) ++ be32 (Z.of_nat (length (ch_cred h))) ++
  ch_cred h ++ pad1 ++ be32 (ch_vflavor h) ++ be32 (Z.of_nat (length (ch_verf h))) ++
  ch_verf h ++ pad2.

Definition is_pad (bs pad1 : list Z) : Prop :=
  Z.of_nat (length pad1) = pad (Z.of_nat (length bs)).

Definition call_hdr_ok (h : call_hdr) : Prop :=
  is_u32 (ch_xid h) ∧ is_u32 (ch_prog h) ∧ is_u32 (ch_vers h) ∧ is_u32 (ch_proc h) ∧
  is_s32 (ch_cflavor h) ∧ is_s32 (ch_vflavor h) ∧
  Z.of_nat (length (ch_cred h)) ≤ MAX_AUTH_BYTES ∧ Z.of_nat (length (ch_verf h)) ≤ MAX_AUTH_BYTES.

Lemma get_word_be32 v r : get_word (be32 v ++ r) = Some (s32 v, r).
Proof.
  pose proof (length_be32 v) as Hl. pose proof (of_be32_be32 v) as Hv.
  destruct (be32 v) as [|a [|b [|c [|d [|]]]]]; try done. simpl app. unfold get_word. by rewrite Hv.
Qed.

Lemma get_abody_app bs pad1 r :
  is_pad bs pad1 → Z.of_nat (length bs) ≤ MAX_AUTH_BYTES →
  get_abody (Z.of_nat (length bs)) (bs ++ pad1 ++ r) = Some (bs, r).
Proof.
  intros Hp Hmax. unfold get_abody, get_body. rewrite (proj2 (Z.ltb_ge _ _)) by lia.
  rewrite (proj2 (Z.leb_le _ _)) by lens. do 2 f_equal.
  - by rewrite Nat2Z.id, take_app_length.
  - rewrite <- Hp, <- Nat2Z.inj_add, Nat2Z.id, <- length_app, app_assoc. apply drop_app_length.
Qed.

Lemma get_auth_app f bs pad1 r :
  is_pad bs pad1 → Z.of_nat (length bs) ≤ MAX_AUTH_BYTES → is_s32 f →
  get_auth (be32 f ++ be32 (Z.of_nat (length bs)) ++ bs ++ pad1 ++ r) = Some (f, bs, r).
Proof.
  intros Hp Hmax Hf. unfold get_auth. rewrite get_word_be32. simpl. rewrite get_word_be32. simpl.
  rewrite u32_s32, u32_small by (unfold is_u32, W32, MAX_AUTH_BYTES in *; lia).
  rewrite get_abody_app by done. simpl. by rewrite s32_small.
Qed.

(** The parser reads back every header, whatever its padding. *)
Lemma parse_call_wire h pad1 pad2 r :
  call_hdr_ok h → is_pad (ch_cred h) pad1 → is_pad (ch_verf h) pad2 →
  parse_call (call_wire h pad1 pad2 ++ r) = Some (h, r).
Proof.
  intros (Hx & Hpr & Hve & Hpc & Hcf & Hvf & Hc & Hv) H1 H2. unfold parse_call, call_wire.
  rewrite <- !app_assoc, get_word_be32. simpl. rewrite get_word_be32. simpl. unfold parse_body.
  rewrite get_word_be32. simpl. rewrite get_word_be32. simpl. rewrite get_word_be32. simpl.
  rewrite get_word_be32. simpl. rewrite get_auth_app by done. simpl. rewrite get_auth_app by done.
  simpl. rewrite !u32_s32, !u32_small by done. by destruct h.
Qed.

Section call.
Context {S : Type} `{XdrStream S} {T : Type}.
Implicit Types (m : rpc_msg S T) (s : S).

(** ** Encoding *)

(** [m] is a call message with the header [h], its authenticators in buffers. *)
Definition call_repr m (h : call_hdr) : Prop :=
  let cb := rm_call m in
  rm_xid m = ch_xid h ∧ rm_direction m = CALL ∧ cb_rpcvers cb = RPC_MSG_VERSION ∧
  cb_prog cb = ch_prog h ∧ cb_vers cb = ch_vers h ∧ cb_proc cb = ch_proc h ∧
  oa_flavor (cb_cred cb) = ch_cflavor h ∧ oa_flavor (cb_verf cb) = ch_vflavor h ∧
  oa_holds (cb_cred cb) (ch_cred h) ∧ not_stream (oa_base (cb_cred cb)) ∧
  oa_holds (cb_verf cb) (ch_verf h) ∧ not_stream (oa_base (cb_verf cb)).

Definition zpad (bs : list Z) : list Z := replicate (Z.to_nat (pad (Z.of_nat (length bs)))) 0.

Lemma is_pad_zpad bs : is_pad bs (zpad bs).
Proof. unfold is_pad, zpad. rewrite length_replicate. pose proof (pad_bound (Z.of_nat (length bs))). lia. Qed.

Lemma xdr_opaque_auth_enc {k} s o n a bs :
  oa_holds a bs → not_stream (oa_base a) → is_s32 (oa_flavor a) →
  Z.of_nat (length bs) ≤ MAX_AUTH_BYTES → enc k s o n →
  8 + Z.of_nat (length (spec_opaque bs)) ≤ n →
  ∃ s', xdr_opaque_auth s a = Ok (true, a, s') ∧
    enc k s' (o ++ be32 (oa_flavor a) ++ be32 (Z.of_nat (length bs)) ++ bs ++ zpad bs)
      (n - 8 - Z.of_nat (length (spec_opaque bs))).
Proof.
  intros [Hl Hb] Hns Hf Hmax Hs Hn. unfold xdr_opaque_auth, xdr_enum.
  destruct (codec_enc _ _ _ _ xdr_long_codec s o n _ Hf Hs) as (s1 & -> & Hs1); [lens|]. simpl.
  rewrite auth_buf_obuf by done. simpl. unfold xdr_bytes, xdr_u_int. rewrite Hl.
  destruct (codec_enc _ _ _ _ xdr_u_long_codec (k := k) s1 (o ++ be32 (oa_flavor a))
    (n - Z.of_nat (length (be32 (oa_flavor a)))) (Z.of_nat (length bs))) as (s2 & -> & Hs2);
    [unfold is_u32, MAX_AUTH_BYTES, W32 in *; lia|done|lens|].
  simpl. rewrite (proj2 (Z.ltb_ge _ _)) by lia. rewrite (enc_op _ _ _ Hs2). simpl.
  destruct (xdr_opaque_enc s2 _ _ (default [] (obuf (oa_base a))) bs _ Hs2 eq_refl) as (s3 & -> & Hs3).
  { destruct Hb as [->|[rest ->]]; [done|]. simpl. apply take_app_length. }
  { unfold MAX_AUTH_BYTES, W31 in *; lia. }
  { lens. }
  simpl. exists s3. split.
  - rewrite auth_base_obuf by done. destruct a. simpl in *. by rewrite Hl.
  - eapply enc_cong; [exact Hs3|unfold spec_opaque, zpad; by rewrite <- !app_assoc|lens].
Qed.

Lemma call_wire_length h pad1 pad2 :
  is_pad (ch_cred h) pad1 → is_pad (ch_verf h) pad2 →
  Z.of_nat (length (call_wire h pad1 pad2)) =
    40 + Z.of_nat (length (spec_opaque (ch_cred h))) + Z.of_nat (length (spec_opaque (ch_verf h))).
Proof.
  unfold is_pad. intros H1 H2. rewrite !spec_opaque_length. unfold call_wire.
  repeat (rewrite length_app || rewrite length_be32). lia.
Qed.

Lemma callmsg_filters_enc {k} s o n m h :
  call_repr m h → call_hdr_ok h → enc k s o n →
  40 + Z.of_nat (length (spec_opaque (ch_cred h))) + Z.of_nat (length (spec_opaque (ch_verf h))) ≤ n →
  ∃ s', callmsg_filters s m = Ok (true, m, s') ∧
    enc k s' (o ++ call_wire h (zpad (ch_cred h)) (zpad (ch_verf h)))
     (n - 40 - Z.of_nat (length (spec_opaque (ch_cred h))) - Z.of_nat (length (spec_opaque (ch_verf h)))).
Proof.
  intros (Rx & Rd & Rv & Rpr & Rve & Rpc & Rcf & Rvf & Rc & Rcn & Rvb & Rvn)
    (Hx & Hpr & Hve & Hpc & Hcf & Hvf & Hc & Hv) Hs Hn. unfold callmsg_filters.
  rewrite <- Rx, <- Rpr, <- Rve, <- Rpc, <- Rcf, <- Rvf in *.
  destruct (codec_enc _ _ _ _ xdr_u_long_codec s o n _ Hx Hs) as (s1 & E1 & Hs1); [lens|].
  erewrite xdr_and_true by (apply xdr_field_ok; exact E1).
  destruct (codec_enc _ _ _ _ xdr_long_codec s1 _ _ (rm_direction m) ltac:(by rewrite Rd) Hs1)
    as (s2 & E2 & Hs2); [lens|]. unfold xdr_enum.
  erewrite xdr_and_true by (apply xdr_field_ok; exact E2).
  erewrite xdr_and_true; [|unfold xdr_test; simpl; by rewrite Rd].
  destruct (codec_enc _ _ _ _ xdr_u_long_codec s2 _ _ (cb_rpcvers (rm_call m)) ltac:(by rewrite Rv) Hs2)
    as (s3 & E3 & Hs3); [lens|].
  destruct (codec_enc _ _ _ _ xdr_u_long_codec s3 _ _ _ Hpr Hs3) as (s4 & E4 & Hs4); [lens|].
  destruct (codec_enc _ _ _ _ xdr_u_long_codec s4 _ _ _ Hve Hs4) as (s5 & E5 & Hs5); [lens|].
  destruct (codec_enc _ _ _ _ xdr_u_long_codec s5 _ _ _ Hpc Hs5) as (s6 & E6 & Hs6); [lens|].
  destruct (xdr_opaque_auth_enc s6 _ _ _ _ Rc Rcn Hcf Hc Hs6) as (s7 & E7 & Hs7); [lens|].
  destruct (xdr_opaque_auth_enc s7 _ _ _ _ Rvb Rvn Hvf Hv Hs7) as (s8 & E8 & Hs8); [lens|].
  exists s8. split.
  - erewrite xdr_field_ok; [|
      erewrite xdr_and_true by (apply xdr_field_ok; exact E3);
      erewrite xdr_and_true by (unfold xdr_test; simpl; by rewrite Rv);
      erewrite xdr_and_true by (apply xdr_field_ok; exact E4);
      erewrite xdr_and_true by (apply xdr_field_ok; exact E5);
      erewrite xdr_and_true by (apply xdr_field_ok; exact E6);
      erewrite xdr_and_true by (apply xdr_field_ok; exact E7);
      apply xdr_field_ok; exact E8].
    destruct m as [? ? [] ?]. simpl in *. by subst.
  - eapply enc_cong; [exact Hs8| |repeat (rewrite length_be32); lia].
    unfold call_wire. rewrite Rd, Rv, Rx, Rpr, Rve, Rpc, Rcf, Rvf. by rewrite <- !app_assoc.
Qed.

(** The six words before the credentials. *)
Definition call_words (h : call_hdr) : list Z :=
  be32 (ch_xid h) ++ be32 CALL ++ be32 RPC_MSG_VERSION ++ be32 (ch_prog h) ++ be32 (ch_vers h) ++
  be32 (ch_proc h).

(** What the region held becomes the padding: [callmsg_put] does not store it. *)
Lemma callmsg_put_hole {k} s o p old n m h :
  call_repr m h → call_hdr_ok h → hole k s o p old n →
  Z.of_nat (length old) =
    40 + Z.of_nat (length (spec_opaque (ch_cred h))) + Z.of_nat (length (spec_opaque (ch_verf h))) →
  ∃ s' pad1 pad2, callmsg_put s p m = Ok (true, m, s') ∧
    is_pad (ch_cred h) pad1 ∧ is_pad (ch_verf h) pad2 ∧
    enc k s' (o ++ call_wire h pad1 pad2) n.
Proof.
  intros (Rx & Rd & Rv & Rpr & Rve & Rpc & Rcf & Rvf & Rc & Rcn & Rvb & Rvn)
    (Hx & Hpr & Hve & Hpc & Hcf & Hvf & Hc & Hv) Hh Hold.
  rewrite !spec_opaque_length in Hold.
  set (cl := Z.of_nat (length (ch_cred h))) in *. set (vl := Z.of_nat (length (ch_verf h))) in *.
  pose proof (pad_bound cl) as Hp1. pose proof (pad_bound vl) as Hp2.
  pose proof (proj1 Rc) as Hcl. pose proof (proj1 Rvb) as Hvl. fold cl in Hcl. fold vl in Hvl.
  assert (Hclz : cl = Z.of_nat (length (ch_cred h))) by done.
  assert (Hvlz : vl = Z.of_nat (length (ch_verf h))) by done. clearbody cl vl.
  unfold callmsg_put. rewrite Rx, Rd, Rv, Rpr, Rve, Rpc. simpl.
  destruct (put_hole0 s o p old n (ch_xid h) Hh) as (s1 & -> & Hh1); [lia|]. simpl.
  destruct (put_hole s1 o p _ _ n CALL Hh1) as (s2 & -> & Hh2); [rewrite length_drop; lia|]. simpl.
  destruct (put_hole s2 o p _ _ n RPC_MSG_VERSION Hh2) as (s3 & -> & Hh3);
    [rewrite !length_drop; lia|]. simpl.
  destruct (put_hole s3 o p _ _ n (ch_prog h) Hh3) as (s4 & -> & Hh4);
    [rewrite !length_drop; lia|]. simpl.
  destruct (put_hole s4 o p _ _ n (ch_vers h) Hh4) as (s5 & -> & Hh5);
    [rewrite !length_drop; lia|]. simpl.
  destruct (put_hole s5 o p _ _ n (ch_proc h) Hh5) as (s6 & -> & Hh6);
    [rewrite !length_drop; lia|]. simpl. rewrite !drop_drop in Hh6.
  rewrite <- !app_assoc in *. fold (call_words h) in *.
  assert (Hh6' : hole k s6 o p (call_words h ++ drop 24 old) n)
    by (unfold call_words; rewrite <- !app_assoc; exact Hh6).
  destruct (put_auth_hole s6 o p _ _ n _ _ Hh6' Rc) as (s7 & -> & Hh7);
    [rewrite !length_drop; lia|]. simpl. rewrite !drop_drop in Hh7.
  set (pad1 := take (Z.to_nat (pad cl)) (drop (24 + (8 + length (ch_cred h))) old)).
  assert (Hpad1 : Z.of_nat (length pad1) = pad cl)
    by (unfold pad1; rewrite length_take, length_drop; lia).
  set (a7 := call_words h ++ be32 (oa_flavor (cb_cred (rm_call m))) ++
    be32 (oa_length (cb_cred (rm_call m))) ++ ch_cred h ++ pad1).
  set (buf := if _ =? 0 then _ else _).
  assert (buf = p + Z.of_nat (length a7)) as ->.
  { unfold buf, a7. rewrite Hcl, RNDUP_pad by (unfold MAX_AUTH_BYTES, W32 in *; lia).
    destruct (pad_units cl) as [z Hz]. rewrite Hz, Z.div_mul by lia.
    repeat (rewrite length_app || rewrite length_be32). case_if; [|lia].
    assert (pad cl = 0) by (replace cl with 0 by lia; done). lia. }
  assert (Hh7' : hole k s7 o p (a7 ++ drop (24 + (8 + length (ch_cred h)) + Z.to_nat (pad cl)) old) n).
  { unfold a7. rewrite <- !app_assoc. rewrite <- drop_drop. unfold pad1. rewrite take_drop.
    by rewrite <- !app_assoc in Hh7. }
  destruct (put_auth_hole s7 o p _ _ n _ _ Hh7' Rvb) as (s8 & -> & Hh8);
    [rewrite !length_drop; lia|]. simpl. rewrite !drop_drop in Hh8.
  exists s8, pad1. eexists. split_and!; [done|by unfold is_pad; rewrite <- Hclz| |].
  2: { apply hole_enc in Hh8. eapply enc_cong; [exact Hh8| |done]. unfold a7, call_wire, call_words.
       rewrite Rcf, Rvf, Hcl, Hvl, <- Hclz, <- Hvlz, <- !app_assoc. reflexivity. }
  unfold is_pad. rewrite length_drop, <- Hvlz. lia.
Qed.

(** encoding a call.  On any stream with room, [xdr_callmsg] writes the call
    header of RFC 1831 and leaves the message alone; only the contents of the pad
    bytes depend on the path taken. *)
Theorem xdr_callmsg_encode {k} s o n m h :
  call_repr m h → call_hdr_ok h → enc k s o n →
  40 + Z.of_nat (length (spec_opaque (ch_cred h))) + Z.of_nat (length (spec_opaque (ch_verf h))) ≤ n →
  ∃ s' pad1 pad2, xdr_callmsg s m = Ok (true, m, s') ∧
    is_pad (ch_cred h) pad1 ∧ is_pad (ch_verf h) pad2 ∧
    enc k s' (o ++ call_wire h pad1 pad2) (n - Z.of_nat (length (call_wire h pad1 pad2))).
Proof.
  intros R Hok Hs Hn. unfold xdr_callmsg. rewrite (enc_op _ _ _ Hs).
  pose proof R as (_ & _ & _ & _ & _ & _ & _ & _ & [Hcl _] & _ & [Hvl _] & _).
  pose proof Hok as (_ & _ & _ & _ & _ & _ & Hc & Hv). rewrite Hcl, Hvl.
  rewrite !(proj2 (Z.ltb_ge _ _)) by lia.
  destruct (spec_opaque_RNDUP _ Hc) as [Hcr _], (spec_opaque_RNDUP _ Hv) as [Hvr _].
  rewrite <- Hcr, <- Hvr. unfold BYTES_PER_XDR_UNIT.
  pose proof (spec_opaque_length (ch_cred h)). pose proof (spec_opaque_length (ch_verf h)).
  pose proof (pad_bound (Z.of_nat (length (ch_cred h)))).
  pose proof (pad_bound (Z.of_nat (length (ch_verf h)))).
  set (len := 8 * 4 + _ + _ + _).
  destruct (enc_inline s o n len Hs) as (q & s1 & -> & Hq);
    [unfold len, MAX_AUTH_BYTES, W31 in *; lia|]. simpl. destruct q as [p|].
  - destruct Hq as (Hfit & old & Hold & Hh).
    destruct (callmsg_put_hole s1 o p old _ m h R Hok Hh) as (s2 & pad1 & pad2 & -> & ? & ? & Hs2);
      [unfold len in *; lia|]. exists s2, pad1, pad2. split_and!; try done.
    rewrite call_wire_length by done. eapply enc_cong; [exact Hs2|done|unfold len; lia].
  - destruct (callmsg_filters_enc s1 o n m h R Hok Hq Hn) as (s2 & -> & Hs2).
    exists s2, (zpad (ch_cred h)), (zpad (ch_verf h)). split_and!; eauto using is_pad_zpad.
    rewrite call_wire_length by apply is_pad_zpad. eapply enc_cong; [exact Hs2|done|lia].
Qed.

(** ** Decoding *)

(** A decoding stream before the bytes [l], which are whole units. *)
Definition good s (l : list Z) : Prop := dec s l ∧ units l ∧ Forall is_byte l.

(** What was readable stays readable. *)
Definition vmono s s' : Prop := ∀ p bs, view s p bs → view s' p bs.

Lemma vmono_trans s1 s2 s3 : vmono s1 s2 → vmono s2 s3 → vmono s1 s3.
Proof. unfold vmono. eauto. Qed.

(** The first unit of a byte string. *)
Lemma first_word l :
  units l → Forall is_byte l →
  l = [] ∨ ∃ v r, l = be32 v ++ r ∧ is_u32 v ∧ units r ∧ Forall is_byte r.
Proof.
  intros Hu Hb. destruct l as [|a [|b [|c [|d r]]]]; [by left| | | |right];
    try (destruct Hu as [z Hz]; simpl in Hz; lia).
  rewrite !Forall_cons_iff in Hb. destruct Hb as (Ha & Hb & Hc & Hd & Hr). unfold is_byte in *.
  exists (a * 16777216 + b * 65536 + c * 256 + d), r.
  split; [by rewrite be32_of_bytes|]. split; [unfold is_u32, W32; lia|]. split; [|done].
  destruct Hu as [z Hz]. exists (z - 1). simpl in Hz. lia.
Qed.

(** A filter that reads one unit does what [get_word] does. *)
Definition reads_word (proc : xdrproc S Z) (f : Z → Z) : Prop :=
  ∀ s l t0, good s l →
  match get_word l with
  | Some (v, r) => ∃ s', proc s t0 = Ok (true, f v, s') ∧ good s' r ∧ vmono s s'
  | None => ∃ t s', proc s t0 = Ok (false, t, s')
  end.

Lemma reads_word_filter (proc : xdrproc S Z) f :
  (∀ s t0, x_op s = XDR_DECODE → proc s t0 = ('(q, s) ← x_getlong s;
     Ok (match q with Some l => (true, f l, s) | None => (false, t0, s) end))) →
  reads_word proc f.
Proof.
  intros Hp s l t0 (Hs & Hu & Hb). rewrite (Hp s t0 (dec_op _ _ Hs)).
  destruct (first_word l Hu Hb) as [->|(v & r & -> & Hv & Hur & Hbr)].
  - destruct (dec_getlong_short s [] Hs) as (s' & -> & _); [simpl; lia|]. by eexists _, _.
  - rewrite get_word_be32. destruct (dec_getlong s v r Hs Hur) as (s' & E & Hs'). rewrite E.
    exists s'. split_and!; [done|done|]. intros p bs. by eapply view_getlong.
Qed.

Lemma xdr_u_long_reads : reads_word xdr_u_long u32.
Proof. apply reads_word_filter. intros s t0 Ho. unfold xdr_u_long. by rewrite Ho. Qed.

Lemma xdr_long_reads : reads_word xdr_long id.
Proof. apply reads_word_filter. intros s t0 Ho. unfold xdr_long. by rewrite Ho. Qed.

(** [xdr_opaque] into a buffer of the right size does what [get_body] does. *)
Lemma xdr_opaque_reads s l len buf :
  good s l → 0 < len < W31 → Z.of_nat (length buf) = len →
  match get_body len l with
  | Some (bs, r) => ∃ s', xdr_opaque s buf len = Ok (true, bs, s') ∧ good s' r ∧ vmono s s'
  | None => ∃ b s', xdr_opaque s buf len = Ok (false, b, s')
  end.
Proof.
  intros (Hs & Hu & Hb) Hlen Hbuf. unfold get_body.
  pose proof (pad_bound len) as Hp. destruct (Z.leb_spec len (Z.of_nat (length l))) as [Hle|Hgt].
  - assert (Hroom : len + pad len ≤ Z.of_nat (length l)).
    { destruct Hu as [z Hz]. destruct (pad_units len) as [y Hy]. lia. }
    set (bs := take (Z.to_nat len) l).
    set (pd := take (Z.to_nat (pad len)) (drop (Z.to_nat len) l)).
    set (r := drop (Z.to_nat (len + pad len)) l).
    assert (El : l = bs ++ pd ++ r).
    { unfold bs, pd, r. rewrite Z2Nat.inj_add by lia. by rewrite <- drop_drop, !take_drop. }
    assert (Hbs : Z.of_nat (length bs) = len) by (unfold bs; rewrite length_take; lia).
    assert (Hpd : Z.of_nat (length pd) = pad len)
      by (unfold pd; rewrite length_take, length_drop; lia).
    clearbody bs pd r. subst l. rewrite !Forall_app in Hb. destruct Hb as (_ & _ & Hbr).
    assert (Hur : units r).
    { unfold units in *. rewrite !length_app in Hu. destruct (pad_units len) as [y Hy].
      destruct Hu as [z Hz]. exists (z - y). lia. }
    unfold xdr_opaque. rewrite (proj2 (Z.eqb_neq _ _)) by lia. rewrite (dec_op _ _ Hs).
    rewrite s32_small by (unfold is_s32; lia). fold (pad len). unfold BYTES_PER_XDR_UNIT.
    destruct (dec_getbytes s bs _ len Hs) as (s1 & E1 & Hs1); [done|lia|]. rewrite E1. simpl.
    unfold fill. rewrite (proj2 (Nat.leb_le _ _)) by lia. simpl. rewrite drop_ge, app_nil_r by lia.
    fold (pad len). destruct (Z.eqb_spec (pad len) 0) as [Hz|Hz].
    + rewrite Hz in Hpd. destruct pd; [|simpl in Hpd; lia]. exists s1. split_and!; [done|done|].
      intros p b. by eapply view_getbytes.
    + destruct (dec_getbytes s1 pd r (pad len) Hs1) as (s2 & E2 & Hs2); [done|unfold W31; lia|].
      rewrite E2. simpl. exists s2. split_and!; [done|done|]. intros p b Hv.
      eapply view_getbytes; [exact E2|]. by eapply view_getbytes.
  - unfold xdr_opaque. rewrite (proj2 (Z.eqb_neq _ _)) by lia. rewrite (dec_op _ _ Hs).
    rewrite s32_small by (unfold is_s32; lia).
    destruct (dec_getbytes_short s l len Hs) as (got & s1 & -> & _ & Hg); [lia|]. simpl.
    unfold fill. rewrite (proj2 (Nat.leb_le _ _)) by lia. simpl. by eexists _, _.
Qed.

(** The authenticator holds the bytes [bs], in a buffer or in the stream. *)
Definition auth_got s (a : opaque_auth) (f : Z) (bs : list Z) : Prop :=
  oa_flavor a = f ∧ oa_length a = Z.of_nat (length bs) ∧
  (bs = [] ∨ oa_base a = BUF bs ∨ ∃ p pd, oa_base a = STREAM p ∧ view s p (bs ++ pd)).

Lemma auth_got_mono s s' a f bs : vmono s s' → auth_got s a f bs → auth_got s' a f bs.
Proof. unfold auth_got, vmono. naive_solver. Qed.

Lemma get_body_length len l bs r :
  0 ≤ len → get_body len l = Some (bs, r) → len = Z.of_nat (length bs).
Proof.
  unfold get_body. intros Hlen E. case_if_in E; [|done]. simplify_eq. rewrite length_take. lia.
Qed.

(** The filter on a whole authenticator, decoding into an empty one. *)
Lemma xdr_opaque_auth_reads s l a0 :
  good s l → oa_base a0 = NULL →
  match get_auth l with
  | Some (f, bs, r) => ∃ a s', xdr_opaque_auth s a0 = Ok (true, a, s') ∧ good s' r ∧ vmono s s' ∧
      auth_got s' a f bs
  | None => ∃ a s', xdr_opaque_auth s a0 = Ok (false, a, s')
  end.
Proof.
  intros Hs Hnull. unfold get_auth, xdr_opaque_auth, xdr_enum, auth_buf. simpl. rewrite Hnull.
  pose proof (xdr_long_reads s l (oa_flavor a0) Hs) as Hf. unfold mbind, option_bind.
  destruct (get_word l) as [[f l1]|]; [|destruct Hf as (? & ? & ->); by eexists _, _].
  destruct Hf as (s1 & -> & Hs1 & Hm1). simpl. unfold xdr_bytes, xdr_u_int.
  pose proof (xdr_u_long_reads s1 l1 (oa_length a0) Hs1) as Hn.
  destruct (get_word l1) as [[n l2]|]; [|destruct Hn as (? & ? & ->); by eexists _, _].
  destruct Hn as (s2 & -> & Hs2 & Hm2). simpl. unfold get_abody. pose proof (u32_range n) as Hnr.
  rewrite (dec_op _ _ (proj1 Hs2)). simpl.
  destruct (Z.ltb_spec MAX_AUTH_BYTES (u32 n)) as [Hbig|Hmax]; [by eexists _, _|]. simpl.
  pose proof (vmono_trans _ _ _ Hm1 Hm2) as Hm12.
  destruct (Z.eqb_spec (u32 n) 0) as [E|E].
  - rewrite E. unfold get_body. rewrite (proj2 (Z.leb_le 0 _)) by lia. simpl. eexists _, s2. split; [done|]. split; [done|]. split; [done|].
    split_and!; [done|done|by left].
  - pose proof (xdr_opaque_reads s2 l2 (u32 n) (mem_alloc (u32 n)) Hs2) as Ho.
    assert (Hal : Z.of_nat (length (mem_alloc (u32 n))) = u32 n)
      by (unfold mem_alloc; rewrite length_replicate; unfold is_u32 in Hnr; lia).
    assert (Hrange : 0 < u32 n < W31) by (unfold is_u32, MAX_AUTH_BYTES, W31 in *; lia).
    specialize (Ho Hrange Hal).
    destruct (get_body (u32 n) l2) as [[bs r]|] eqn:Eb;
      [|destruct Ho as (? & ? & ->); by eexists _, _].
    destruct Ho as (s3 & -> & Hs3 & Hm3). simpl. eexists _, s3. split_and!; [done|done| |].
    + by eapply vmono_trans.
    + apply get_body_length in Eb; [|lia]. split_and!; [done|done|by right; left].
Qed.

(** The message holds the header [h]. *)
Definition body_got s (c : call_body) (h : call_hdr) : Prop :=
  cb_rpcvers c = RPC_MSG_VERSION ∧ cb_prog c = ch_prog h ∧ cb_vers c = ch_vers h ∧
  cb_proc c = ch_proc h ∧ auth_got s (cb_cred c) (ch_cflavor h) (ch_cred h) ∧
  auth_got s (cb_verf c) (ch_vflavor h) (ch_verf h).

Definition call_got s m (h : call_hdr) : Prop :=
  rm_xid m = ch_xid h ∧ rm_direction m = CALL ∧ body_got s (rm_call m) h.

(** One step of a chain of filters against the parser. *)
Ltac word_step Hs :=
  match type of Hs with
  | good ?s ?l =>
    match goal with
    | |- context [(xdr_field ?g ?u ?proc &> ?b) s ?t] =>
      let Hw := fresh in
      lazymatch proc with
      | xdr_u_long => pose proof (xdr_u_long_reads s l (g t) Hs) as Hw
      | xdr_long => pose proof (xdr_long_reads s l (g t) Hs) as Hw
      end;
      let v := fresh "v" in let l' := fresh "l" in let s' := fresh "s" in
      let E := fresh "E" in let Hs' := fresh "Hs" in let Hm := fresh "Hm" in
      destruct (get_word l) as [[v l']|];
      [destruct Hw as (s' & E & Hs' & Hm);
       rewrite (xdr_and_true _ _ _ _ _ _ (xdr_field_ok g u proc _ _ _ _ _ E)); clear E; simpl
      |destruct Hw as (? & ? & E);
       rewrite (xdr_and_false _ _ _ _ _ _ (xdr_field_ok g u proc _ _ _ _ _ E)); simpl; by eexists _, _]
    end
  end.

Lemma call_body_reads s l c0 xid :
  good s l → oa_base (cb_cred c0) = NULL → oa_base (cb_verf c0) = NULL →
  let chain := (xdr_field cb_rpcvers set_rpcvers xdr_u_long &>
     xdr_test (λ c, cb_rpcvers c =? RPC_MSG_VERSION) &>
     xdr_field cb_prog set_prog xdr_u_long &>
     xdr_field cb_vers set_vers xdr_u_long &>
     xdr_field cb_proc set_proc xdr_u_long &>
     xdr_field cb_cred set_cred xdr_opaque_auth &>
     xdr_field cb_verf set_verf xdr_opaque_auth) in
  match parse_body xid l with
  | Some (h, r) => ∃ c s', chain s c0 = Ok (true, c, s') ∧ good s' r ∧ vmono s s' ∧
      ch_xid h = xid ∧ body_got s' c h
  | None => ∃ c s', chain s c0 = Ok (false, c, s')
  end.
Proof.
  intros Hs Hc Hv chain. unfold chain, parse_body. clear chain.
  word_step Hs. destruct (Z.eqb_spec (u32 v) RPC_MSG_VERSION) as [Ev|Ev]; simpl;
    [|erewrite xdr_and_false; [by eexists _, _|]; unfold xdr_test; simpl;
      by rewrite (proj2 (Z.eqb_neq _ _) Ev)].
  erewrite xdr_and_true; [|unfold xdr_test; simpl; by rewrite Ev]. simpl.
  word_step Hs0. word_step Hs1. word_step Hs2.
  pose proof (xdr_opaque_auth_reads s3 l3 (cb_cred c0) Hs3 Hc) as Hcr.
  destruct (get_auth l3) as [[[cf cred] l4]|]; simpl.
  2: { destruct Hcr as (a & s4 & E). erewrite xdr_and_false by (apply xdr_field_ok; exact E).
       by eexists _, _. }
  destruct Hcr as (ac & s4 & E4 & Hs4 & Hm4 & Hac).
  erewrite xdr_and_true by (apply xdr_field_ok; exact E4).
  pose proof (xdr_opaque_auth_reads s4 l4 (cb_verf c0) Hs4 Hv) as Hvr.
  destruct (get_auth l4) as [[[vf verf] l5]|]; simpl.
  2: { destruct Hvr as (a & s5 & E). erewrite xdr_field_ok by exact E. by eexists _, _. }
  destruct Hvr as (av & s5 & E5 & Hs5 & Hm5 & Hav). erewrite xdr_field_ok by exact E5.
  eexists _, s5. split; [done|]. split; [done|]. split; [by eauto 10 using vmono_trans|].
  split; [done|]. unfold body_got. simpl. split_and!; try done. by eapply auth_got_mono.
Qed.

Lemma callmsg_filters_reads s l m0 :
  good s l → oa_base (cb_cred (rm_call m0)) = NULL → oa_base (cb_verf (rm_call m0)) = NULL →
  match parse_call l with
  | Some (h, r) => ∃ m s', callmsg_filters s m0 = Ok (true, m, s') ∧ good s' r ∧ call_got s' m h
  | None => ∃ m s', callmsg_filters s m0 = Ok (false, m, s')
  end.
Proof.
  intros Hs Hc Hv. unfold parse_call, callmsg_filters, xdr_enum. word_step Hs. word_step Hs0.
  destruct (Z.eqb_spec v0 CALL) as [Ev|Ev]; simpl;
    [|erewrite xdr_and_false; [by eexists _, _|]; unfold xdr_test; simpl;
      by rewrite (proj2 (Z.eqb_neq _ _) Ev)].
  erewrite xdr_and_true; [|unfold xdr_test; simpl; by rewrite Ev]. simpl.
  pose proof (call_body_reads s1 l1 (rm_call m0) (u32 v) Hs1 Hc Hv) as Hb. simpl in Hb.
  destruct (parse_body (u32 v) l1) as [[h r]|].
  - destruct Hb as (c & s2 & E & Hs2 & _ & Hx & Hgot). erewrite xdr_field_ok by exact E.
    eexists _, s2. split; [done|]. split; [done|]. by split.
  - destruct Hb as (c & s2 & E). erewrite xdr_field_ok by exact E. by eexists _, _.
Qed.

(** *** In line *)

Lemma inline_reads s l len :
  good s l → 0 ≤ len < W31 → (4 | len) →
  ∃ q s', x_inline s len = Ok (q, s') ∧ vmono s s' ∧
    match q with
    | None => good s' l
    | Some p => ∃ bs r, l = bs ++ r ∧ Z.of_nat (length bs) = len ∧ units bs ∧ Forall is_byte bs ∧
        good s' r ∧ view s' p bs
    end.
Proof.
  intros (Hs & Hu & Hb) Hlen Hdiv. destruct (dec_inline s l len Hs Hlen) as (q & s' & E & Hq).
  exists q, s'. split; [done|]. split; [intros p bs; by eapply view_inline|]. destruct q as [p|]; [|done].
  destruct Hq as (bs & r & -> & Hbs & Hs' & Hv). apply Forall_app in Hb as [Hb Hbr].
  assert (Hub : units bs) by (unfold units; by rewrite Hbs). exists bs, r. split_and!; try done.
  split_and!; try done. unfold units in *. rewrite length_app, Nat2Z.inj_add in Hu.
  by apply (Z.divide_add_cancel_r _ (Z.of_nat (length bs))).
Qed.

Lemma auth_words_reads s l a0 :
  good s l →
  match ('(f, l) ← get_word l; '(n, l) ← get_word l; Some (f, n, l)) with
  | Some (f, n, r) => ∃ s', auth_words s a0 = Ok (true, MkAuth f (oa_base a0) (u32 n), s') ∧
      good s' r ∧ vmono s s'
  | None => ∃ a s', auth_words s a0 = Ok (false, a, s')
  end.
Proof.
  intros Hs. unfold auth_words.
  destruct (inline_reads s l (2 * BYTES_PER_XDR_UNIT) Hs) as (q & s1 & -> & Hm & Hq);
    [done|by exists 2|]. simpl. destruct q as [p|].
  - destruct Hq as (bs & r & -> & Hlen & Hu & Hb & Hs1 & Hv).
    destruct (first_word bs Hu Hb) as [->|(f & bs1 & -> & _ & Hu1 & Hb1)]; [done|].
    destruct (first_word bs1 Hu1 Hb1) as [->|(n & bs2 & -> & _ & Hu2 & Hb2)]; [done|].
    assert (bs2 = []) as -> by (apply nil_length_inv; unfold BYTES_PER_XDR_UNIT in *; lens).
    rewrite <- !app_assoc, get_word_be32. simpl. rewrite get_word_be32. simpl.
    rewrite (get_view0 _ _ _ _ Hv). simpl. rewrite (get_view _ _ _ _ n [] Hv eq_refl). simpl.
    by exists s1.
  - unfold xdr_enum, xdr_u_int. word_step Hq.
    pose proof (xdr_u_long_reads s0 l0 (oa_length a0) Hs0) as Hw.
    destruct (get_word l0) as [[n l1]|]; simpl.
    + destruct Hw as (s2 & E & Hs2 & Hm2). erewrite xdr_field_ok by exact E.
      exists s2. split_and!; try done. by eauto using vmono_trans.
    + destruct Hw as (? & ? & E). erewrite xdr_field_ok by exact E. by eexists _, _.
Qed.

Lemma call_auth_body_reads s l a0 :
  good s l → oa_base a0 = NULL → is_u32 (oa_length a0) →
  match get_abody (oa_length a0) l with
  | Some (bs, r) => ∃ a s', call_auth_body s a0 = Ok (true, a, s') ∧ good s' r ∧ vmono s s' ∧
      auth_got s' a (oa_flavor a0) bs
  | None => ∃ a s', call_auth_body s a0 = Ok (false, a, s')
  end.
Proof.
  intros Hs Hnull Hr. unfold get_abody, call_auth_body. set (len := oa_length a0) in *.
  destruct (Z.eqb_spec len 0) as [E|E].
  { rewrite E. unfold get_body. simpl. rewrite (proj2 (Z.leb_le 0 _)) by lia.
    exists a0, s. split; [done|]. split; [done|]. split; [by intros ? ?|].
    split_and!; [done|by fold len; rewrite E|by left]. }
  destruct (Z.ltb_spec MAX_AUTH_BYTES len) as [Hbig|Hmax]; [by eexists _, _|].
  assert (Hlen : 0 < len < W31) by (unfold is_u32, MAX_AUTH_BYTES, W31 in *; lia).
  pose proof (pad_bound len) as Hpb. pose proof (pad_units len) as Hpu.
  assert (HR : RNDUP len = len + pad len) by (apply RNDUP_pad; unfold MAX_AUTH_BYTES, W32 in *; lia).
  rewrite HR, s32_small by (unfold is_s32, MAX_AUTH_BYTES, W31 in *; lia).
  destruct (inline_reads s l (len + pad len) Hs) as (q & s1 & -> & Hm & Hq);
    [unfold MAX_AUTH_BYTES, W31 in *; lia|done|]. simpl. destruct q as [p|].
  - destruct Hq as (bs & r & -> & Hbs & _ & _ & Hs1 & Hv). unfold get_body.
    rewrite (proj2 (Z.leb_le _ _)) by lens.
    rewrite take_app_le, drop_app_ge by lia.
    replace (Z.to_nat (len + pad len) - length bs)%nat with 0%nat by lia.
    eexists _, s1. split; [done|]. split; [done|]. split; [done|]. split_and!; [done| |].
    + simpl. rewrite length_take. fold len. lia.
    + right; right. exists p, (drop (Z.to_nat len) bs). by rewrite take_drop.
  - rewrite Hnull. simpl. pose proof (xdr_opaque_reads s1 l len (mem_alloc len) Hq Hlen) as Ho.
    specialize (Ho ltac:(unfold mem_alloc; rewrite length_replicate; lia)).
    destruct (get_body len l) as [[bs r]|] eqn:Eb; [|destruct Ho as (? & ? & ->); by eexists _, _].
    destruct Ho as (s2 & -> & Hs2 & Hm2). simpl. eexists _, s2.
    split; [done|]. split; [done|]. split; [by eauto using vmono_trans|].
    apply get_body_length in Eb; [|lia]. split_and!; [done|done|by right; left].
Qed.

(** The credentials' body and the verifier. *)
Lemma call_auths_reads s l c0 :
  good s l → oa_base (cb_cred c0) = NULL → oa_base (cb_verf c0) = NULL →
  is_u32 (oa_length (cb_cred c0)) →
  let chain := (xdr_field cb_cred set_cred call_auth_body &> xdr_field cb_verf set_verf auth_words &>
    xdr_field cb_verf set_verf call_auth_body) in
  match ('(cred, l) ← get_abody (oa_length (cb_cred c0)) l;
         '(vf, verf, l) ← get_auth l; Some (cred, vf, verf, l)) with
  | Some (cred, vf, verf, r) => ∃ ac av s',
      chain s c0 = Ok (true, set_verf av (set_cred ac c0), s') ∧ good s' r ∧
      auth_got s' ac (oa_flavor (cb_cred c0)) cred ∧ auth_got s' av vf verf
  | None => ∃ c s', chain s c0 = Ok (false, c, s')
  end.
Proof.
  intros Hs Hc Hv Hr chain. unfold chain. clear chain.
  pose proof (call_auth_body_reads s l (cb_cred c0) Hs Hc Hr) as Hb.
  destruct (get_abody (oa_length (cb_cred c0)) l) as [[cred l1]|]; simpl.
  2: { destruct Hb as (a & s1 & E). erewrite xdr_and_false by (apply xdr_field_ok; exact E).
       by eexists _, _. }
  destruct Hb as (ac & s1 & E1 & Hs1 & Hm1 & Hac).
  erewrite xdr_and_true by (apply xdr_field_ok; exact E1).
  pose proof (auth_words_reads s1 l1 (cb_verf c0) Hs1) as Hw. unfold get_auth.
  destruct (get_word l1) as [[vf l2]|]; simpl in *.
  2: { destruct Hw as (a & s2 & E). erewrite xdr_and_false by (apply xdr_field_ok; exact E).
       by eexists _, _. }
  destruct (get_word l2) as [[n l3]|]; simpl in *.
  2: { destruct Hw as (a & s2 & E). erewrite xdr_and_false by (apply xdr_field_ok; exact E).
       by eexists _, _. }
  destruct Hw as (s2 & E2 & Hs2 & Hm2). erewrite xdr_and_true by (apply xdr_field_ok; exact E2).
  pose proof (call_auth_body_reads s2 l3 (MkAuth vf (oa_base (cb_verf c0)) (u32 n)) Hs2 Hv
    (u32_range n)) as Hvb. simpl in Hvb.
  destruct (get_abody (u32 n) l3) as [[verf l4]|]; simpl.
  2: { destruct Hvb as (a & s3 & E). erewrite xdr_field_ok by exact E. by eexists _, _. }
  destruct Hvb as (av & s3 & E3 & Hs3 & Hm3 & Hav). erewrite xdr_field_ok by exact E3.
  exists ac, av, s3. split; [done|]. split; [done|]. split; [|done].
  eapply auth_got_mono; [|exact Hac]. by eauto using vmono_trans.
Qed.

Lemma callmsg_get_reads s p w l m0 :
  view s p w → units w → Forall is_byte w → Z.of_nat (length w) = 32 → good s l →
  oa_base (cb_cred (rm_call m0)) = NULL → oa_base (cb_verf (rm_call m0)) = NULL →
  match parse_call (w ++ l) with
  | Some (h, r) => ∃ m s', callmsg_get s p m0 = Ok (true, m, s') ∧ good s' r ∧ call_got s' m h
  | None => ∃ m s', callmsg_get s p m0 = Ok (false, m, s')
  end.
Proof.
  intros Hv Hu Hb Hlen Hs Hc Hvf.
  destruct (first_word w Hu Hb) as [->|(v1 & w1 & -> & _ & Hu1 & Hb1)]; [done|].
  destruct (first_word w1 Hu1 Hb1) as [->|(v2 & w2 & -> & _ & Hu2 & Hb2)]; [done|].
  destruct (first_word w2 Hu2 Hb2) as [->|(v3 & w3 & -> & _ & Hu3 & Hb3)]; [done|].
  destruct (first_word w3 Hu3 Hb3) as [->|(v4 & w4 & -> & _ & Hu4 & Hb4)]; [done|].
  destruct (first_word w4 Hu4 Hb4) as [->|(v5 & w5 & -> & _ & Hu5 & Hb5)]; [done|].
  destruct (first_word w5 Hu5 Hb5) as [->|(v6 & w6 & -> & _ & Hu6 & Hb6)]; [done|].
  destruct (first_word w6 Hu6 Hb6) as [->|(v7 & w7 & -> & _ & Hu7 & Hb7)]; [done|].
  destruct (first_word w7 Hu7 Hb7) as [->|(v8 & w8 & -> & _ & _ & _)]; [done|].
  assert (w8 = []) as -> by (apply nil_length_inv; lens). clear Hlen Hu Hb.
  unfold parse_call, parse_body, callmsg_get.
  rewrite <- !app_assoc, !get_word_be32. simpl. rewrite get_word_be32. simpl.
  rewrite (get_view0 _ _ _ _ Hv). simpl. rewrite (get_view _ _ _ _ v2 _ Hv eq_refl). simpl.
  destruct (Z.eqb_spec (s32 v2) CALL) as [E2|E2]; simpl; [|by eexists _, _].
  rewrite get_word_be32. simpl.
  rewrite (get_view _ _ _ _ v3 _ Hv) by (by rewrite <- !app_assoc). simpl.
  destruct (Z.eqb_spec (u32 (s32 v3)) RPC_MSG_VERSION) as [E3|E3]; simpl; [|by eexists _, _].
  do 3 (rewrite get_word_be32; simpl).
  rewrite (get_view _ _ _ _ v4 _ Hv) by (by rewrite <- !app_assoc). simpl.
  rewrite (get_view _ _ _ _ v5 _ Hv) by (by rewrite <- !app_assoc). simpl.
  rewrite (get_view _ _ _ _ v6 _ Hv) by (by rewrite <- !app_assoc). simpl.
  rewrite (get_view _ _ _ _ v7 _ Hv) by (by rewrite <- !app_assoc). simpl.
  rewrite (get_view _ _ _ _ v8 _ Hv) by (by rewrite <- !app_assoc). simpl.
  unfold get_auth at 2. do 2 (rewrite get_word_be32; simpl).
  set (c1 := MkCall _ _ _ _ _ _).
  pose proof (call_auths_reads s l c1 Hs Hc Hvf (u32_range _)) as Ha. simpl in Ha.
  destruct (get_abody (u32 (s32 v8)) l) as [[cred l1]|]; simpl in *;
    [|destruct Ha as (c & s' & ->); by eexists _, _].
  destruct (get_auth l1) as [[[vf verf] l2]|]; simpl in *;
    [|destruct Ha as (c & s' & ->); by eexists _, _].
  destruct Ha as (ac & av & s' & -> & Hs' & Hac & Hav). simpl. eexists _, s'.
  split; [done|]. split; [done|]. by split_and!.
Qed.

(** decoding a call.  For every input of whole units, [xdr_callmsg] returns
    (it never strays outside the buffers); it returns [TRUE] exactly when the
    input starts with a well-formed call header with RPC version 2 and
    authenticators of at most 400 bytes, and then the message holds that header,
    the authenticators being in a buffer or still readable in the stream, and the
    stream is positioned after it. *)
Theorem xdr_callmsg_decode s l m0 :
  dec s l → units l → Forall is_byte l →
  oa_base (cb_cred (rm_call m0)) = NULL → oa_base (cb_verf (rm_call m0)) = NULL →
  match parse_call l with
  | Some (h, r) => ∃ m s', xdr_callmsg s m0 = Ok (true, m, s') ∧ dec s' r ∧ call_got s' m h
  | None => ∃ m s', xdr_callmsg s m0 = Ok (false, m, s')
  end.
Proof.
  intros Hs Hu Hb Hc Hv. assert (Hg : good s l) by done. unfold xdr_callmsg. rewrite (dec_op _ _ Hs).
  destruct (inline_reads s l (8 * BYTES_PER_XDR_UNIT) Hg) as (q & s1 & -> & _ & Hq);
    [done|by exists 8|]. simpl. destruct q as [p|].
  - destruct Hq as (w & r & -> & Hw & Huw & Hbw & Hs1 & Hvw).
    pose proof (callmsg_get_reads s1 p w r m0 Hvw Huw Hbw Hw Hs1 Hc Hv) as Hget.
    destruct (parse_call (w ++ r)) as [[h r']|]; [|done].
    destruct Hget as (m & s' & ? & [? _] & ?). by exists m, s'.
  - pose proof (callmsg_filters_reads s1 l m0 Hq Hc Hv) as Hf.
    destruct (parse_call l) as [[h r']|]; [|done].
    destruct Hf as (m & s' & ? & [? _] & ?). by exists m, s'.
Qed.

End call.

(** ** Concrete messages on memory streams *)

Definition ex_call (cred : list Z) : rpc_msg XDRmem unit :=
  MkMsg 7 CALL (MkCall 2 100003 2 1
      (MkAuth 1 (match cred with [] => NULL | _ => BUF cred end) (Z.of_nat (length cred)))
      (MkAuth 0 NULL 0))
    (MkReply 0 (MkAccepted (MkAuth 0 NULL 0) 0 0 0 tt None) (MkRejected 0 0 0 0)).

Definition ex_call0 : rpc_msg XDRmem unit :=
  MkMsg 0 0 (MkCall 0 0 0 0 (MkAuth 0 NULL 0) (MkAuth 0 NULL 0))
    (MkReply 0 (MkAccepted (MkAuth 0 NULL 0) 0 0 0 tt None) (MkRejected 0 0 0 0)).

Definition ex_hdr (cred : list Z) : call_hdr := MkCallHdr 7 100003 2 1 1 cred 0 [].

Lemma xdr_callmsg_encode_witness :
  ∃ s' pad1 pad2, xdr_callmsg (ex_enc 64) (ex_call [1; 2; 3; 4; 5]) = Ok (true, ex_call [1; 2; 3; 4; 5], s') ∧
    is_pad [1; 2; 3; 4; 5] pad1 ∧ is_pad [] pad2 ∧
    enc 4096 s' ([] ++ call_wire (ex_hdr [1; 2; 3; 4; 5]) pad1 pad2)
      (64 - Z.of_nat (length (call_wire (ex_hdr [1; 2; 3; 4; 5]) pad1 pad2))).
Proof.
  apply (xdr_callmsg_encode (S := XDRmem) (ex_enc 64) [] 64 (ex_call [1; 2; 3; 4; 5])
    (ex_hdr [1; 2; 3; 4; 5])).
  - repeat split; [|by left]. right. by exists [].
  - repeat split; simpl; unfold W31, W32, MAX_AUTH_BYTES; simpl; lia.
  - by apply (ex_enc_ok 64).
  - vm_compute. congruence.
Defined.

Lemma xdr_callmsg_decode_witness :
  ∃ m s', xdr_callmsg (ex_dec (call_wire (ex_hdr [1; 2; 3; 4; 5]) [9; 9; 9] [])) ex_call0 =
      Ok (true, m, s') ∧ dec s' [] ∧ call_got s' m (ex_hdr [1; 2; 3; 4; 5]).
Proof.
  pose proof (xdr_callmsg_decode (S := XDRmem)
    (ex_dec (call_wire (ex_hdr [1; 2; 3; 4; 5]) [9; 9; 9] []))
    (call_wire (ex_hdr [1; 2; 3; 4; 5]) [9; 9; 9] []) ex_call0) as Hd.
  apply Hd.
  - by apply ex_dec_ok.
  - by exists 12.
  - vm_compute. repeat constructor; congruence.
  - reflexivity.
  - reflexivity.
Defined.

(** the fast path of [xdr_callmsg] sends stale bytes.  Encoding credentials of
    5 bytes into a buffer that held 0xaa leaves 0xaa in the three pad bytes, which
    the protocol (and the slow path) make 0. *)
Theorem xdr_callmsg_stale_pad :
  ∃ s', xdr_callmsg (xdrmem_create (ex_mem 4096 (replicate 64 170)) 4096 64 XDR_ENCODE)
      (ex_call [1; 2; 3; 4; 5]) = Ok (true, ex_call [1; 2; 3; 4; 5], s') ∧
    load_bytes (xm_mem s') 4096 48 = Ok (call_wire (ex_hdr [1; 2; 3; 4; 5]) [170; 170; 170] []).
Proof. eexists. split; vm_compute; reflexivity. Qed.
