(* ===== verification/Strm.v ===== *)
(** * STREAMS messages (uts/common/io/stream.c, os/strsubr.c, sys/stream.h)

    The message allocator and the routines that take messages apart and put them
    together.  A heap holds the message blocks, the data blocks and the bytes of
    the buffers, each at its address; several message blocks may refer to one data
    block, whose [db_ref] counts them.

    - The object caches and [kmem_alloc] (os/kmem.c) are an argument of the
      routines that allocate ([Kmem]): any of them may fail.  Freeing an object
      removes it from the heap, so that a later access through a stale pointer is
      [Fault].
    - A cache hands out objects in their constructed state, and what it gets back it may
      hand out again as it is: [dblk_release] takes a data block with the message block
      attached to it, [db_mblk], and is [Fault] when the block is not as its constructor left it.
      What the constructed state does not cover is arbitrary in an object from the cache.
    - The assertions on [db_mblk] and, in [freeb], on [db_ref] are [Panic] when they fail.
    - The queue links [b_next] and [b_prev] are not modelled; the list of blocks
      that [freebs_enqueue] leaves to the callback thread is [h_freebs], the
      callbacks made so far are [h_called].
    - Chains of message blocks are walked with fuel one more than the number of
      message blocks in the heap, which any acyclic chain respects. *)

From S2P Require Import Prelude.

(** ** Blocks *)

Definition M_DATA : Z := 0.
Definition DBLK_REFMIN : Z := 1.
Definition DBLK_UNSAFE : Z := 16.
Definition DBLK_MAX_CACHE : Z := 12288.
Definition DBLK_ALIGN : Z := 32.
Definition DBLK_ALIGN_SHIFT : Z := 5.

(** The values of [db_free] and [db_lastfree]. *)
Inductive free_fn := DECREF | LASTFREE | LASTFREE_DESB | LASTFREE_OVERSIZE | FREEBS_ENQUEUE.

#[global] Instance free_fn_eq_dec : EqDecision free_fn.
Proof. solve_decision. Defined.

(** The cache a data block is from, [db_cache]: [dblk_esb_cache], or the one for [size] bytes of
    data. *)
Inductive kcache := KC_ESB | KC_DATA (size : Z).

#[global] Instance kcache_eq_dec : EqDecision kcache.
Proof. solve_decision. Defined.

(** [dblk_t]; [db_frtn] is the argument of the free routine copied after it. *)
Record dblk := MkDblk {
  db_base : Z;
  db_lim : Z;
  db_ref : Z;
  db_type : Z;
  db_flags : Z;
  db_mblk : Z;
  db_free : free_fn;
  db_lastfree : free_fn;
  db_frtn : Z;
  db_cache : kcache
}.

#[global] Instance dblk_eq_dec : EqDecision dblk.
Proof. solve_decision. Defined.

(** [mblk_t]. *)
Record mblk := MkMblk {
  b_cont : option Z;
  b_rptr : Z;
  b_wptr : Z;
  b_datap : Z;
  b_band : Z;
  b_flag : Z
}.

Record heap := MkHeap {
  h_mblk : gmap Z mblk;
  h_dblk : gmap Z dblk;
  h_mem : gmap Z Z;
  h_freebs : list Z;
  h_called : list Z
}.

Definition set_b_cont (v : option Z) (m : mblk) :=
  MkMblk v (b_rptr m) (b_wptr m) (b_datap m) (b_band m) (b_flag m).
Definition set_b_rptr (v : Z) (m : mblk) :=
  MkMblk (b_cont m) v (b_wptr m) (b_datap m) (b_band m) (b_flag m).
Definition set_b_wptr (v : Z) (m : mblk) :=
  MkMblk (b_cont m) (b_rptr m) v (b_datap m) (b_band m) (b_flag m).

Definition set_db_ref (v : Z) (d : dblk) :=
  MkDblk (db_base d) (db_lim d) v (db_type d) (db_flags d) (db_mblk d) (db_free d) (db_lastfree d) (db_frtn d) (db_cache d).
Definition set_db_type (v : Z) (d : dblk) :=
  MkDblk (db_base d) (db_lim d) (db_ref d) v (db_flags d) (db_mblk d) (db_free d) (db_lastfree d) (db_frtn d) (db_cache d).
Definition set_db_mblk (v : Z) (d : dblk) :=
  MkDblk (db_base d) (db_lim d) (db_ref d) (db_type d) (db_flags d) v (db_free d) (db_lastfree d) (db_frtn d) (db_cache d).
Definition set_db_free (v : free_fn) (d : dblk) :=
  MkDblk (db_base d) (db_lim d) (db_ref d) (db_type d) (db_flags d) (db_mblk d) v (db_lastfree d) (db_frtn d) (db_cache d).

Definition with_mblk (h : heap) (x : gmap Z mblk) : heap :=
  MkHeap x (h_dblk h) (h_mem h) (h_freebs h) (h_called h).
Definition with_dblk (h : heap) (x : gmap Z dblk) : heap :=
  MkHeap (h_mblk h) x (h_mem h) (h_freebs h) (h_called h).
Definition with_hmem (h : heap) (x : gmap Z Z) : heap :=
  MkHeap (h_mblk h) (h_dblk h) x (h_freebs h) (h_called h).

(** Reading and writing blocks through pointers. *)
Definition get_mblk (h : heap) (mp : Z) : res mblk := deref (h_mblk h !! mp).
Definition get_dblk (h : heap) (dbp : Z) : res dblk := deref (h_dblk h !! dbp).
Definition put_mblk (h : heap) (mp : Z) (m : mblk) : heap := with_mblk h (<[mp := m]> (h_mblk h)).
Definition put_dblk (h : heap) (dbp : Z) (d : dblk) : heap := with_dblk h (<[dbp := d]> (h_dblk h)).

(** [mp->b_datap] and what it points to. *)
Definition get_datap (h : heap) (mp : Z) : res (mblk * dblk) :=
  m ← get_mblk h mp; d ← get_dblk h (b_datap m); Ok (m, d).

Definition upd_mblk (f : mblk → mblk) (h : heap) (mp : Z) : res heap :=
  m ← get_mblk h mp; Ok (put_mblk h mp (f m)).

Definition fuel (h : heap) : nat := S (size (h_mblk h)).

(** The bytes of a buffer, when it is allocated and when it is freed. *)
Definition add_bytes (m : gmap Z Z) (p n : Z) : gmap Z Z := zeroed p (Z.to_nat n) ∪ m.

Fixpoint del_bytes (m : gmap Z Z) (p : Z) (n : nat) : gmap Z Z :=
  match n with
  | O => m
  | S n => delete p (del_bytes m (p + 1) n)
  end.

(** ** The kernel memory allocator

    Each operation returns the address of an object or [None]; [kc_dblk n] is the cache
    of data blocks with [n] bytes of data, whose objects come with what they hold and the
    message block attached to them. *)
Class Kmem := {
  sizeof_dblk : Z;
  kc_mblk : heap → option Z;
  kc_dblk : heap → Z → option (Z * dblk * mblk);
  kc_esb : heap → option (Z * dblk * mblk);
  k_alloc : heap → Z → option Z
}.

(** What the constructors store into the object [d] at [dbp]; the message block [mp] they
    attach refers back to it. *)
Definition dblk_constructor `{Kmem} (dbp msg_size mp : Z) (d : dblk) : dblk :=
  MkDblk (dbp + sizeof_dblk) (dbp + sizeof_dblk + msg_size) (db_ref d) (db_type d) (db_flags d) mp
    LASTFREE LASTFREE (db_frtn d) (KC_DATA msg_size).
Definition dblk_esb_constructor (mp : Z) (d : dblk) : dblk :=
  MkDblk (db_base d) (db_lim d) (db_ref d) (db_type d) (db_flags d) mp (db_free d) (db_lastfree d) (db_frtn d) KC_ESB.

(** The object is as the constructor of its cache leaves it. *)
Definition constructed `{Kmem} (dbp : Z) (d : dblk) : bool :=
  match db_cache d with
  | KC_ESB => bool_decide (d = dblk_esb_constructor (db_mblk d) d)
  | KC_DATA n => bool_decide (d = dblk_constructor dbp n (db_mblk d) d)
  end.

(** What the allocator promises: addresses and memory not in use, aligned to words; objects
    in their constructed state, with a message block that is not in use either. *)
Class KmemSpec `{Kmem} := {
  sizeof_dblk_ok : 32 ≤ sizeof_dblk < 96 ∧ (8 | sizeof_dblk);
  kc_mblk_fresh h mp : kc_mblk h = Some mp → h_mblk h !! mp = None;
  kc_dblk_fresh h n dbp d m : kc_dblk h n = Some (dbp, d, m) →
    h_dblk h !! dbp = None ∧ h_mblk h !! db_mblk d = None ∧
    db_cache d = KC_DATA n ∧ constructed dbp d = true ∧ b_datap m = dbp ∧
    0 ≤ dbp ∧ dbp + sizeof_dblk + n < W31 ∧ (4 | dbp) ∧
    ∀ q, dbp + sizeof_dblk ≤ q < dbp + sizeof_dblk + n → h_mem h !! q = None;
  kc_esb_fresh h dbp d m : kc_esb h = Some (dbp, d, m) →
    h_dblk h !! dbp = None ∧ h_mblk h !! db_mblk d = None ∧
    db_cache d = KC_ESB ∧ constructed dbp d = true ∧ b_datap m = dbp;
  k_alloc_fresh h n p : k_alloc h n = Some p → 0 < p ∧ p + n < W31 ∧ (4 | p) ∧
    ∀ q, p ≤ q < p + n → h_mem h !! q = None
}.

(** ** Allocation *)

Section stream.
Context `{Kmem}.

Definition dblk_sizes : list Z :=
  [96; 128; 192; 384; 672; 1152; 1632; 2048; 2720; 4096; 8192; DBLK_MAX_CACHE].

(** [dblk_cache], as [mhinit] fills it: the entries between two sizes hold the
    cache of the larger one. *)
Fixpoint dblk_cache_of (sizes : list Z) (index : Z) : option Z :=
  match sizes with
  | [] => None
  | size :: sizes =>
    if (index + 1) * DBLK_ALIGN <=? size then Some size else dblk_cache_of sizes index
  end.

Definition dblk_cache (index : Z) : option Z := dblk_cache_of dblk_sizes index.

(** [DBLK_RTFU (ref, type, flags, 0)] stored: the minimum count is kept in the flags. *)
Definition set_rtfu (ref type flags : Z) (d : dblk) : dblk :=
  MkDblk (db_base d) (db_lim d) ref type (Z.lor flags (ref - 1)) (db_mblk d) (db_free d) (db_lastfree d) (db_frtn d) (db_cache d).

(** The attached message block made ready: all but [b_datap], which the constructor set. *)
Definition reset_mblk (p : Z) (m : mblk) : mblk := MkMblk None p p (b_datap m) 0 0.

(** [gesballoc]. *)
Definition gesballoc (h : heap) (base size ref flags : Z) (frp : Z) (lastfree : free_fn) :
    option Z * heap :=
  match kc_esb h with
  | None => (None, h)
  | Some (dbp, d, m) =>
    let mp := db_mblk d in
    let d := MkDblk base (base + size) (db_ref d) (db_type d) (db_flags d) mp lastfree lastfree frp (db_cache d) in
    (Some mp, put_mblk (put_dblk h dbp (set_rtfu ref M_DATA flags d)) mp (reset_mblk base m))
  end.

Definition allocb_oversize (h : heap) (size : Z) : option Z * heap :=
  let size := Z.land (add32 size (DBLK_ALIGN - 1)) (W32 - DBLK_ALIGN) in
  match k_alloc h size with
  | None => (None, h)
  | Some buf =>
    let h' := with_hmem h (add_bytes (h_mem h) buf size) in
    match gesballoc h' buf size 1 0 0 LASTFREE_OVERSIZE with
    | (Some mp, h') => (Some mp, h')
    | (None, _) => (None, h)
    end
  end.

Definition allocb (h : heap) (size : Z) : option Z * heap :=
  let index := Z.shiftr (add32 (sizeof_dblk - 1) size) DBLK_ALIGN_SHIFT in
  if Z.shiftr DBLK_MAX_CACHE DBLK_ALIGN_SHIFT <=? index then allocb_oversize h size
  else
    match dblk_cache index with
    | None => (None, h)
    | Some csize =>
      match kc_dblk h (csize - sizeof_dblk) with
      | None => (None, h)
      | Some (dbp, d, m) =>
        let mp := db_mblk d in
        let data := dbp + sizeof_dblk in
        let h := with_hmem h (add_bytes (h_mem h) data (csize - sizeof_dblk)) in
        (Some mp, put_mblk (put_dblk h dbp (set_rtfu 1 M_DATA 0 d)) mp (reset_mblk data m))
      end
    end.

(** The four flavors; [unsafe] is [UNSAFE_DRIVER_LOCK_HELD ()]. *)
Definition esballoc (h : heap) (base size : Z) (unsafe : bool) (frp : Z) : option Z * heap :=
  gesballoc h base size 1 (if unsafe then DBLK_UNSAFE else 0) frp FREEBS_ENQUEUE.
Definition desballoc (h : heap) (base size frp : Z) : option Z * heap :=
  gesballoc h base size 1 0 frp LASTFREE_DESB.
Definition esballoca (h : heap) (base size frp : Z) : option Z * heap :=
  gesballoc h base size 2 0 frp FREEBS_ENQUEUE.
Definition desballoca (h : heap) (base size frp : Z) : option Z * heap :=
  gesballoc h base size 2 0 frp LASTFREE_DESB.

(** [allocb_tryhard]: [size] is an [int] and is compared as a [size_t] with the sum, which
    wraps near the limit.  The sizes tried are [DBLK_ALIGN] apart and below [target_size + 256],
    so there are 8 at most. *)
Fixpoint tryhard_loop (n : nat) (h : heap) (size target_size : Z) : option Z * heap :=
  match n with
  | O => (None, h)
  | S n =>
    if u32 size <? add32 target_size 256 then
      match allocb h (u32 size) with
      | (Some bp, h) => (Some bp, h)
      | (None, h) => tryhard_loop n h (s32 (size + DBLK_ALIGN)) target_size
      end
    else (None, h)
  end.

Definition allocb_tryhard (h : heap) (target_size : Z) : option Z * heap :=
  tryhard_loop 8 h (s32 target_size) target_size.

(** ** Freeing *)

(** [dblk_destructor]: the attached message block is freed. *)
Definition dblk_destructor (h : heap) (dbp : Z) : res heap :=
  d ← get_dblk h dbp;
  m ← get_mblk h (db_mblk d);
  if b_datap m =? dbp then Ok (with_mblk h (delete (db_mblk d) (h_mblk h)))
  else Panic "dbp->db_mblk->b_datap == dbp".

(** [kmem_cache_free (dbp->db_cache, dbp)]: the data block goes back with its attached
    message block, in the constructed state that the next user of either relies on. *)
Definition dblk_release (h : heap) (dbp : Z) : res heap :=
  d ← get_dblk h dbp;
  if constructed dbp d then h ← dblk_destructor h dbp; Ok (with_dblk h (delete dbp (h_dblk h)))
  else Fault.

(** [ASSERT(dbp->db_mblk == mp)]. *)
Definition assert_attached (d : dblk) (mp : Z) : res unit :=
  if db_mblk d =? mp then Ok tt else Panic "dbp->db_mblk == mp".

(** The free routines but [dblk_decref], which [db_lastfree] is never. *)
Definition call_lastfree (h : heap) (mp dbp : Z) (d : dblk) (fn : free_fn) : res heap :=
  _ ← assert_attached d mp;
  match fn with
  | LASTFREE | LASTFREE_OVERSIZE =>
    dblk_release (with_hmem h (del_bytes (h_mem h) (db_base d) (Z.to_nat (db_lim d - db_base d)))) dbp
  | LASTFREE_DESB =>
    dblk_release (MkHeap (h_mblk h) (h_dblk h) (h_mem h) (h_freebs h) (db_frtn d :: h_called h)) dbp
  | FREEBS_ENQUEUE => Ok (MkHeap (h_mblk h) (h_dblk h) (h_mem h) (mp :: h_freebs h) (h_called h))
  | DECREF => Fault
  end.

(** [dblk_decref]. *)
Definition dblk_decref (h : heap) (mp dbp : Z) (d : dblk) : res heap :=
  if negb (db_ref d =? 1) && negb (db_ref d - 1 =? Z.land (db_flags d) DBLK_REFMIN) then
    Ok (with_mblk (put_dblk h dbp (set_db_ref (db_ref d - 1) d)) (delete mp (h_mblk h)))
  else
    let d := set_db_free (db_lastfree d) (set_db_mblk mp d) in
    call_lastfree (put_dblk h dbp d) mp dbp d (db_lastfree d).

Definition freeb (h : heap) (mp : Z) : res heap :=
  '(m, d) ← get_datap h mp;
  if 0 <? db_ref d then
    match db_free d with
    | DECREF => dblk_decref h mp (b_datap m) d
    | fn => call_lastfree h mp (b_datap m) d fn
    end
  else Panic "dbp->db_ref > 0".

Fixpoint freemsg_loop (n : nat) (h : heap) (mp : option Z) : res heap :=
  match n, mp with
  | _, None => Ok h
  | O, Some _ => Fault
  | S n, Some mp =>
    m ← get_mblk h mp;
    h ← freeb h mp;
    freemsg_loop n h (b_cont m)
  end.

Definition freemsg (h : heap) (mp : option Z) : res heap := freemsg_loop (fuel h) h mp.

(** One round of the callback thread ([freebs] of strsubr.c): the last block
    queued, its free routine, and the block itself. *)
Definition freebs_round (h : heap) : res heap :=
  match h_freebs h with
  | [] => Ok h
  | mp :: rest =>
    '(m, d) ← get_datap h mp;
    _ ← assert_attached d mp;
    dblk_release (MkHeap (h_mblk h) (h_dblk h) (h_mem h) rest (db_frtn d :: h_called h)) (b_datap m)
  end.

(** ** Duplicating and copying *)

Definition dupb (h : heap) (mp : Z) : res (option Z * heap) :=
  '(m, d) ← get_datap h mp;
  Ok (match kc_mblk h with
      | None => (None, h)
      | Some new_mp =>
        let new_m := MkMblk None (b_rptr m) (b_wptr m) (b_datap m) (b_band m) (b_flag m) in
        if negb (bool_decide (db_free d = DECREF)) then
          (Some new_mp,
           put_mblk (put_dblk h (b_datap m) (set_db_ref ((db_ref d + 1) mod 256) (set_db_free DECREF d)))
             new_mp new_m)
        else if db_ref d =? 255 then (None, h)
        else
          (Some new_mp,
           put_mblk (put_dblk h (b_datap m) (set_db_ref (db_ref d + 1) d)) new_mp new_m)
      end).

(** The loop of [dupmsg] and [copymsg]: duplicates [bp->b_cont] and so on, each
    one linked to [nbp]; [false] when an allocation fails. *)
Fixpoint dup_rest (one : heap → Z → res (option Z * heap)) (n : nat) (h : heap) (nbp bp : Z) :
    res (bool * heap) :=
  m ← get_mblk h bp;
  match b_cont m, n with
  | None, _ => Ok (true, h)
  | Some _, O => Fault
  | Some cont, S n =>
    '(x, h) ← one h cont;
    h ← upd_mblk (set_b_cont x) h nbp;
    match x with
    | None => Ok (false, h)
    | Some nbp => dup_rest one n h nbp cont
    end
  end.

Definition dup_msg_with (one : heap → Z → res (option Z * heap)) (h : heap) (bp : option Z) :
    res (option Z * heap) :=
  match bp with
  | None => Ok (None, h)
  | Some bp =>
    '(x, h1) ← one h bp;
    match x with
    | None => Ok (None, h1)
    | Some head =>
      '(ok, h2) ← dup_rest one (fuel h) h1 head bp;
      if ok : bool then Ok (Some head, h2)
      else h2 ← freemsg h2 (Some head); Ok (None, h2)
    end
  end.

Definition dupmsg : heap → option Z → res (option Z * heap) := dup_msg_with dupb.

(** [straln]. *)
Definition straln (a : Z) : Z := a - a mod 4.

Definition copyb (h : heap) (bp : Z) : res (option Z * heap) :=
  '(b, dp) ← get_datap h bp;
  let unaligned := db_base dp mod 4 in
  match allocb h (u32 (db_lim dp - db_base dp + unaligned)) with
  | (None, h) => Ok (None, h)
  | (Some nbp, h) =>
    '(nb, ndp) ← get_datap h nbp;
    let rptr := db_base ndp + (b_rptr b - db_base dp) + unaligned in
    let wptr := rptr + (b_wptr b - b_rptr b) in
    let h := put_mblk (put_dblk h (b_datap nb) (set_db_type (db_type dp) ndp)) nbp
               (MkMblk (b_cont nb) rptr wptr (b_datap nb) (b_band b) (b_flag b)) in
    let base := straln rptr in
    bs ← load_bytes (h_mem h) (straln (b_rptr b)) (Z.to_nat (straln (wptr + 3) - base));
    mem ← store_bytes (h_mem h) base bs;
    Ok (Some nbp, with_hmem h mem)
  end.

Definition copymsg : heap → option Z → res (option Z * heap) := dup_msg_with copyb.

(** ** Linking *)

(** The last block of a message. *)
Fixpoint last_blk (n : nat) (h : heap) (mp : Z) : res Z :=
  m ← get_mblk h mp;
  match b_cont m, n with
  | None, _ => Ok mp
  | Some _, O => Fault
  | Some cont, S n => last_blk n h cont
  end.

Definition linkb (h : heap) (mp bp : Z) : res heap :=
  last ← last_blk (fuel h) h mp; upd_mblk (set_b_cont (Some bp)) h last.

Definition unlinkb (h : heap) (bp : Z) : res (option Z * heap) :=
  m ← get_mblk h bp; Ok (b_cont m, put_mblk h bp (set_b_cont None m)).

(** [rmvb]: [Some r] is the pointer returned, [None] is -1. *)
Fixpoint rmvb_loop (n : nat) (h : heap) (mp bp : Z) (tmp lastp : option Z) :
    res (option (option Z) * heap) :=
  match tmp, n with
  | None, _ => Ok (None, h)
  | Some _, O => Fault
  | Some tmp, S n =>
    t ← get_mblk h tmp;
    if tmp =? bp then
      match lastp with
      | Some l =>
        h ← upd_mblk (set_b_cont (b_cont t)) h l;
        h ← upd_mblk (set_b_cont None) h tmp;
        Ok (Some (Some mp), h)
      | None =>
        h ← upd_mblk (set_b_cont None) h tmp;
        Ok (Some (b_cont t), h)
      end
    else rmvb_loop n h mp bp (b_cont t) (Some tmp)
  end.

Definition rmvb (h : heap) (mp bp : Z) : res (option (option Z) * heap) :=
  rmvb_loop (fuel h) h mp bp (Some mp) None.

(** ** Sizes *)

(** [xmsgsize] (strsubr.c): the bytes of the leading blocks of the type of the
    first. *)
Fixpoint xmsgsize_loop (n : nat) (h : heap) (type : Z) (bp : option Z) (count : Z) : res Z :=
  match bp, n with
  | None, _ => Ok count
  | Some _, O => Fault
  | Some bp, S n =>
    '(b, d) ← get_datap h bp;
    if negb (type =? db_type d) then Ok count
    else xmsgsize_loop n h type (b_cont b) (add32 count (u32 (b_wptr b - b_rptr b)))
  end.

Definition xmsgsize (h : heap) (bp : Z) : res Z :=
  '(_, d) ← get_datap h bp; xmsgsize_loop (fuel h) h (db_type d) (Some bp) 0.

Fixpoint msgdsize_loop (n : nat) (h : heap) (bp : option Z) (count : Z) : res Z :=
  match bp, n with
  | None, _ => Ok count
  | Some _, O => Fault
  | Some bp, S n =>
    '(b, d) ← get_datap h bp;
    msgdsize_loop n h (b_cont b)
      (if db_type d =? M_DATA then add32 count (u32 (b_wptr b - b_rptr b)) else count)
  end.

Definition msgdsize (h : heap) (bp : option Z) : res Z := msgdsize_loop (fuel h) h bp 0.

(** ** Pulling up *)

(** The [do] loop of [pullupmsg]: moves [len] bytes from [bp] on to the end of
    [mp]; the result is the first block not used up. *)
Fixpoint pullup_loop (n : nat) (h : heap) (mp bp len : Z) : res (option Z * heap) :=
  '(b, _) ← get_datap h bp;
  m ← get_mblk h mp;
  let k := Z.min (b_wptr b - b_rptr b) len in
  bs ← load_bytes (h_mem h) (b_rptr b) (Z.to_nat k);
  mem ← store_bytes (h_mem h) (b_wptr m) bs;
  let h := with_hmem h mem in
  let h := put_mblk h mp (set_b_wptr (b_wptr m + k) m) in
  let h := put_mblk h bp (set_b_rptr (b_rptr b + k) b) in
  let len := len - k in
  if negb (b_rptr b + k =? b_wptr b) then Ok (Some bp, h)
  else
    h ← freeb h bp;
    match b_cont b, n with
    | None, _ => Ok (None, h)
    | Some bp, O => if len =? 0 then Ok (Some bp, h) else Fault
    | Some bp, S n => if len =? 0 then Ok (Some bp, h) else pullup_loop n h mp bp len
    end.

(** [bp] is to head the old message and [mp] the new one: they change places, and each data
    block has its message block attached. *)
Definition swap_blocks (h : heap) (mp bp : Z) : res heap :=
  '(b, d) ← get_datap h bp;
  '(m, md) ← get_datap h mp;
  let dbp := b_datap b in
  let h := put_dblk h dbp (set_db_mblk mp (set_db_type (db_type md) d)) in
  let h := put_mblk h bp m in
  let h := put_mblk h mp (MkMblk (b_cont m) (db_base d) (db_base d) dbp (b_band m) (b_flag m)) in
  old ← get_dblk h (b_datap m);
  Ok (put_dblk h (b_datap m) (set_db_mblk bp old)).

(** The length to pull up: [inl r] is an early return. *)
Definition pullup_len (h : heap) (mp len : Z) : res (Z + Z) :=
  m ← get_mblk h mp;
  if len =? -1 then
    if bool_decide (b_cont m = None) && (b_rptr m mod 4 =? 0) then Ok (inl 1)
    else n ← xmsgsize h mp; Ok (inr (s32 n))
  else
    let first_mblk_len := b_wptr m - b_rptr m in
    if len <=? first_mblk_len then
      if b_rptr m mod 4 =? 0 then Ok (inl 1) else Ok (inr first_mblk_len)
    else n ← xmsgsize h mp; Ok (if n <? u32 len then inl 0 else inr len).

Definition pullupmsg (h : heap) (mp len : Z) : res (Z * heap) :=
  r ← pullup_len h mp len;
  match r with
  | inl v => Ok (v, h)
  | inr len =>
    match allocb h (u32 len) with
    | (None, h) => Ok (0, h)
    | (Some bp, h) =>
      h ← swap_blocks h mp bp;
      '(rest, h) ← pullup_loop (fuel h) h mp bp len;
      h ← upd_mblk (set_b_cont rest) h mp;
      Ok (1, h)
    end
  end.

(** [msgpullup]: the copying loop, while [len] bytes are left. *)
Fixpoint msgpullup_loop (n : nat) (h : heap) (new_bp : Z) (mp : option Z) (len : Z) :
    res (option Z * heap) :=
  if len <=? 0 then Ok (mp, h)
  else
    match mp, n with
    | None, _ | _, O => Fault
    | Some mp, S n =>
      m ← get_mblk h mp;
      nm ← get_mblk h new_bp;
      let k := b_wptr m - b_rptr m in
      bs ← load_bytes (h_mem h) (b_rptr m) (Z.to_nat k);
      mem ← store_bytes (h_mem h) (b_wptr nm) bs;
      let h := put_mblk (with_hmem h mem) new_bp (set_b_wptr (b_wptr nm + k) nm) in
      msgpullup_loop n h new_bp (b_cont m) (len - k)
    end.

Definition msgpullup (h : heap) (mp len : Z) : res (option Z * heap) :=
  totlen ← xmsgsize h mp;
  let totlen := s32 totlen in
  if (0 <? len) && (totlen <? len) then Ok (None, h)
  else
    match allocb h (u32 totlen) with
    | (None, h) => Ok (None, h)
    | (Some new_bp, h) =>
      '(m, md) ← get_datap h mp;
      '(nm, nd) ← get_datap h new_bp;
      let h := put_dblk h (b_datap nm) (set_db_type (db_type md) nd) in
      let h := put_mblk h new_bp
                 (MkMblk (b_cont nm) (b_rptr nm) (b_wptr nm) (b_datap nm) (b_band m) (b_flag m)) in
      '(rest, h) ← msgpullup_loop (fuel h) h new_bp (Some mp) totlen;
      match rest with
      | None => Ok (Some new_bp, h)
      | Some mp =>
        '(x, h) ← dupmsg h (Some mp);
        h ← upd_mblk (set_b_cont x) h new_bp;
        Ok (Some new_bp, h)
      end
    end.

(** ** Trimming *)

(** [adjmsg] from the head. *)
Fixpoint adj_head (n : nat) (h : heap) (mp : option Z) (save_bp : option Z) (first : bool) (len : Z) :
    res heap :=
  if len =? 0 then Ok h
  else
    match mp, n with
    | None, _ | _, O => Fault
    | Some mp, S n =>
      m ← get_mblk h mp;
      let k := Z.min (b_wptr m - b_rptr m) len in
      let h := put_mblk h mp (set_b_rptr (b_rptr m + k) m) in
      let len := len - k in
      if negb first && (b_wptr m =? b_rptr m + k) then
        h ← freeb h mp;
        match save_bp with
        | None => Fault
        | Some sb =>
          h ← upd_mblk (set_b_cont (b_cont m)) h sb;
          adj_head n h (b_cont m) save_bp false len
        end
      else adj_head n h (b_cont m) (Some mp) false len
    end.

(** The last block of the leading blocks of type [type], and the one before. *)
Fixpoint last_of_type (n : nat) (h : heap) (type : Z) (bp save_bp prev_bp : option Z) :
    res (option Z * option Z) :=
  match bp, n with
  | None, _ => Ok (save_bp, prev_bp)
  | Some _, O => Fault
  | Some bp, S n =>
    '(b, d) ← get_datap h bp;
    if db_type d =? type then last_of_type n h type (b_cont b) (Some bp) save_bp
    else Ok (save_bp, prev_bp)
  end.

(** [adjmsg] from the tail: one round per block at most. *)
Fixpoint adj_tail (n : nat) (h : heap) (mp type len : Z) : res heap :=
  if len =? 0 then Ok h
  else
    match n with
    | O => Fault
    | S n =>
      '(save_bp, prev_bp) ← last_of_type (fuel h) h type (Some mp) None None;
      match save_bp with
      | None => Ok h
      | Some sb =>
        m ← get_mblk h sb;
        let k := Z.min (b_wptr m - b_rptr m) len in
        let h := put_mblk h sb (set_b_wptr (b_wptr m - k) m) in
        let len := len - k in
        if negb (sb =? mp) && (b_wptr m - k =? b_rptr m) then
          h ← freeb h sb;
          match prev_bp with
          | None => Fault
          | Some pb => h ← upd_mblk (set_b_cont (b_cont m)) h pb; adj_tail n h mp type len
          end
        else adj_tail n h mp type len
      end
    end.

Definition adjmsg (h : heap) (mp len : Z) : res (Z * heap) :=
  let fromhead := 0 <=? len in
  let len := if fromhead then len else s32 (- len) in
  n ← xmsgsize h mp;
  if n <? u32 len then Ok (0, h)
  else if fromhead then h ← adj_head (fuel h) h (Some mp) None true len; Ok (1, h)
  else
    '(_, d) ← get_datap h mp;
    h ← adj_tail (fuel h) h mp (db_type d) len; Ok (1, h).

End stream.
