(* ===== verification/StrmProps.v ===== *)
(** * Properties of STREAMS messages

    The reference counts of data blocks, the sizes [allocb] delivers, and what the
    message routines do to the bytes of a message; [attached] says which message block a data
    block has attached.  The last part is a concrete allocator: an instance of [Kmem] that takes
    addresses above those in use, with stale contents where the constructors leave them, and fails
    when a buffer would end above 2^31.  The witnesses of the message theorems run on it; [heap_okb] decides
    [heap_ok] on a given heap, [reads] gives the blocks of a message. *)

From S2P Require Import Prelude Strm.

Section props.
Context `{KS : KmemSpec}.

(** ** Sizes of buffers *)

Lemma dblk_cache_of_ge sizes index size :
  dblk_cache_of sizes index = Some size → (index + 1) * DBLK_ALIGN ≤ size ∧ size ∈ sizes.
Proof.
  induction sizes as [|s sizes IH]; simpl; [done|]. case_if; intros E.
  - simplify_eq. split; [done|]. apply list_elem_of_here.
  - destruct (IH E). split; [done|]. by apply list_elem_of_further.
Qed.

Lemma dblk_cache_some index :
  0 ≤ index < 384 → ∃ size, dblk_cache index = Some size ∧ (index + 1) * DBLK_ALIGN ≤ size ∧
    size ∈ dblk_sizes.
Proof.
  intros Hi. assert (∃ size, dblk_cache index = Some size) as [size E].
  { unfold dblk_cache, dblk_sizes, DBLK_MAX_CACHE. simpl. repeat (case_if; [by eexists|]).
    unfold DBLK_ALIGN in *. lia. }
  exists size. split; [done|]. by apply dblk_cache_of_ge in E.
Qed.

Lemma shiftr5 z : Z.shiftr z DBLK_ALIGN_SHIFT = z / 32.
Proof. unfold DBLK_ALIGN_SHIFT. by rewrite Z.shiftr_div_pow2 by lia. Qed.

(** The cache [allocb] takes a small block from has at least [size] bytes. *)
Lemma allocb_cache_size size :
  0 ≤ size → sizeof_dblk - 1 + size < W32 →
  Z.shiftr (add32 (sizeof_dblk - 1) size) DBLK_ALIGN_SHIFT < 384 →
  ∃ csize, dblk_cache (Z.shiftr (add32 (sizeof_dblk - 1) size) DBLK_ALIGN_SHIFT) = Some csize ∧
    size ≤ csize - sizeof_dblk ∧ csize ≤ DBLK_MAX_CACHE ∧ (4 | csize - sizeof_dblk).
Proof.
  intros Hs Hw. destruct sizeof_dblk_ok as [Hd [y Hy]].
  rewrite shiftr5, add32_small by (unfold W32 in *; lia). intros Hi.
  pose proof (Z.div_mod (sizeof_dblk - 1 + size) 32 ltac:(lia)).
  pose proof (Z.mod_pos_bound (sizeof_dblk - 1 + size) 32 ltac:(lia)).
  destruct (dblk_cache_some ((sizeof_dblk - 1 + size) / 32)) as (c & E & Hc & Hin);
    [split; [apply Z.div_pos; lia|lia]|].
  exists c. unfold DBLK_ALIGN in *.
  assert (Hall : Forall (λ c, c ≤ DBLK_MAX_CACHE ∧ c mod 4 = 0) dblk_sizes)
    by (repeat constructor; unfold DBLK_MAX_CACHE; done || lia).
  rewrite Forall_forall in Hall. apply list_elem_of_In in Hin. destruct (Hall c Hin) as [Hle H4].
  split_and!; [done|lia|done|]. apply Z.mod_divide in H4 as [z Hz]; [|lia]. exists (z - 2 * y). lia.
Qed.

(** ** Well-formed heaps *)

(** The message blocks that refer to the data block [j]. *)
Definition refs (mb : gmap Z mblk) (j : Z) : nat :=
  size (filter (λ p : Z * mblk, b_datap p.2 = j) mb).

Definition refmin (d : dblk) : Z := Z.land (db_flags d) DBLK_REFMIN.

(** A data block from a cache for data has its data behind it, as the constructor left it. *)
Definition made (j : Z) (d : dblk) : Prop :=
  match db_cache d with
  | KC_ESB => True
  | KC_DATA n => db_base d = j + sizeof_dblk ∧ db_lim d = j + sizeof_dblk + n ∧ db_lastfree d = LASTFREE
  end.

Record dblk_ok (h : heap) (j : Z) (d : dblk) : Prop := {
  ok_count : db_ref d = Z.of_nat (refs (h_mblk h) j) + refmin d;
  ok_live : (1 ≤ refs (h_mblk h) j)%nat;
  ok_ref : db_ref d ≤ 255;
  ok_lastfree : db_lastfree d ≠ DECREF;
  ok_free : db_free d = DECREF ∨ db_free d = db_lastfree d;
  ok_once : db_free d ≠ DECREF → refs (h_mblk h) j = 1%nat;
  ok_lim : 0 ≤ db_base d ≤ db_lim d ∧ db_lim d < W32;
  ok_bytes q : db_base d ≤ q < db_lim d → is_Some (h_mem h !! q);
  ok_made : made j d
}.

Record heap_wf (h : heap) : Prop := {
  ok_mblk i m : h_mblk h !! i = Some m → ∃ d, h_dblk h !! b_datap m = Some d ∧
    db_base d ≤ b_rptr m ≤ b_wptr m ∧ b_wptr m ≤ db_lim d;
  ok_dblk j d : h_dblk h !! j = Some d → dblk_ok h j d;
  ok_disj j1 j2 d1 d2 q : h_dblk h !! j1 = Some d1 → h_dblk h !! j2 = Some d2 → j1 ≠ j2 →
    db_base d1 ≤ q < db_lim d1 → ¬ db_base d2 ≤ q < db_lim d2
}.

(** While the first free routine is in place, the message block that refers to a data block
    is the one attached to it. *)
Definition attached (h : heap) : Prop :=
  ∀ i m d, h_mblk h !! i = Some m → h_dblk h !! b_datap m = Some d → db_free d ≠ DECREF → db_mblk d = i.

Record heap_ok (h : heap) : Prop := {
  ok_wf :> heap_wf h;
  ok_att : attached h
}.

Lemma refmin_cases d : refmin d = 0 ∨ refmin d = 1.
Proof.
  assert (E : refmin d = db_flags d mod 2) by apply (Z.land_ones (db_flags d) 1 ltac:(lia)).
  pose proof (Z.mod_pos_bound (db_flags d) 2 ltac:(lia)). lia.
Qed.

Lemma refs_insert mb i m j :
  mb !! i = None →
  refs (<[i := m]> mb) j = (refs mb j + (if decide (b_datap m = j) then 1 else 0))%nat.
Proof.
  intros Hi. unfold refs. destruct (decide (b_datap m = j)) as [E|E].
  - rewrite map_filter_insert_True by done. rewrite map_size_insert_None; [lia|].
    apply map_lookup_filter_None. by left.
  - rewrite map_filter_insert_False by done. rewrite delete_id by done. lia.
Qed.

Lemma refs_delete mb i m j :
  mb !! i = Some m →
  refs mb j = (refs (delete i mb) j + (if decide (b_datap m = j) then 1 else 0))%nat.
Proof.
  intros Hi. rewrite <- (insert_delete_id mb i m Hi) at 1. rewrite refs_insert; [done|].
  apply lookup_delete_eq.
Qed.

Lemma refs_update mb i m m' j :
  mb !! i = Some m → b_datap m' = b_datap m → refs (<[i := m']> mb) j = refs mb j.
Proof.
  intros Hi Hd. rewrite <- insert_delete_eq. rewrite refs_insert by apply lookup_delete_eq.
  rewrite (refs_delete mb i m j Hi), Hd. done.
Qed.

Lemma refs_pos mb i m : mb !! i = Some m → (1 ≤ refs mb (b_datap m))%nat.
Proof. intros Hi. rewrite (refs_delete _ _ _ _ Hi), decide_True by done. lia. Qed.

Lemma refs_zero mb j i m : refs mb j = 0%nat → mb !! i = Some m → b_datap m ≠ j.
Proof. intros Hz Hi <-. pose proof (refs_pos _ _ _ Hi). lia. Qed.

Lemma refs_none mb j : (∀ i m, mb !! i = Some m → b_datap m ≠ j) → refs mb j = 0%nat.
Proof.
  intros Hn. unfold refs. apply map_size_empty_iff, map_empty. intros i.
  apply map_lookup_filter_None. destruct (mb !! i) as [m|] eqn:E; [right|by left].
  intros m' [= <-]. by apply (Hn i).
Qed.

(** ** Memory of buffers *)

Lemma zeroed_lookup p n q :
  zeroed p n !! q = if decide (p ≤ q < p + Z.of_nat n) then Some 0 else None.
Proof.
  revert p. induction n as [|n IH]; intros p; simpl.
  - rewrite lookup_empty. case_decide; [lia|done].
  - destruct (decide (q = p)) as [->|Hne].
    + rewrite lookup_insert_eq. rewrite decide_True by lia. done.
    + rewrite lookup_insert_ne, IH by done. repeat case_decide; done || lia.
Qed.

Lemma add_bytes_lookup mem p n q :
  0 ≤ n → add_bytes mem p n !! q = if decide (p ≤ q < p + n) then Some 0 else mem !! q.
Proof.
  intros Hn. unfold add_bytes. rewrite lookup_union, zeroed_lookup, Z2Nat.id by done.
  case_decide; simpl; by destruct (mem !! q).
Qed.

Lemma del_bytes_lookup mem p n q :
  del_bytes mem p n !! q = if decide (p ≤ q < p + Z.of_nat n) then None else mem !! q.
Proof.
  revert p. induction n as [|n IH]; intros p; simpl.
  - case_decide; [lia|done].
  - destruct (decide (q = p)) as [->|Hne].
    + rewrite lookup_delete_eq, decide_True by lia. done.
    + rewrite lookup_delete_ne, IH by done. repeat case_decide; done || lia.
Qed.

(** ** Allocating keeps the heap well-formed *)

(** A new data block [j] with its first reference [i], over a buffer that no
    other data block covers. *)
Lemma heap_ok_new h j i mem d m :
  heap_ok h → h_dblk h !! j = None → h_mblk h !! i = None →
  b_datap m = j → db_mblk d = i → made j d → db_base d ≤ b_rptr m ≤ b_wptr m → b_wptr m ≤ db_lim d →
  db_ref d = 1 + refmin d → db_lastfree d ≠ DECREF → db_free d = db_lastfree d →
  0 ≤ db_base d ≤ db_lim d → db_lim d < W32 →
  (∀ q, db_base d ≤ q < db_lim d → is_Some (mem !! q)) →
  (∀ q b, h_mem h !! q = Some b → mem !! q = Some b) →
  (∀ j' d' q, h_dblk h !! j' = Some d' → db_base d ≤ q < db_lim d → ¬ db_base d' ≤ q < db_lim d') →
  heap_ok (put_mblk (put_dblk (with_hmem h mem) j d) i m).
Proof.
  intros [[Hm Hd Hdj] Hat] Hj Hi Hjm Hmp Hmade Hr1 Hr2 Href Hlast Hfn Hlim Htop Hbytes Hkeep Hdis.
  assert (Hz : refs (h_mblk h) j = 0%nat).
  { apply refs_none. intros i' m' Hi' Heq. destruct (Hm _ _ Hi') as (d' & Hd' & _).
    rewrite Heq in Hd'. congruence. }
  split; [split; simpl|].
  - intros i' m' Hi'. apply lookup_insert_Some in Hi' as [[<- <-]|[Hne Hi']].
    + exists d. rewrite Hjm, lookup_insert_eq. done.
    + destruct (Hm _ _ Hi') as (d' & Hd' & ?). exists d'. rewrite lookup_insert_ne; [done|]. congruence.
  - intros j' d' Hj'. apply lookup_insert_Some in Hj' as [[<- <-]|[Hne Hj']].
    + split; simpl; try done.
      * rewrite refs_insert, Hz, decide_True by done. lia.
      * rewrite refs_insert, Hz, decide_True by done. lia.
      * pose proof (refmin_cases d). lia.
      * by right.
      * intros _. by rewrite refs_insert, Hz, decide_True by done.
    + assert (Hrefs : refs (<[i := m]> (h_mblk h)) j' = refs (h_mblk h) j').
      { rewrite refs_insert, decide_False; [lia| |done]. by rewrite Hjm. }
      destruct (Hd _ _ Hj'). split; simpl; rewrite ?Hrefs; auto.
      intros q Hq. destruct (ok_bytes0 q Hq) as [b Hb]. exists b. by apply Hkeep.
  - intros j1 j2 d1 d2 q H1 H2 Hne Hq.
    apply lookup_insert_Some in H1 as [[<- <-]|[Hn1 H1]];
      apply lookup_insert_Some in H2 as [[<- <-]|[Hn2 H2]]; [done| | |by apply (Hdj j1 j2 d1 d2)].
    + by apply (Hdis j2 d2).
    + intros Hq'. by eapply (Hdis j1 d1 q).
  - intros i' m' d' Hi' Hd' Hf. simpl in *. apply lookup_insert_Some in Hi' as [[<- <-]|[Hne Hi']].
    + rewrite Hjm, lookup_insert_eq in Hd'. by simplify_eq.
    + apply lookup_insert_Some in Hd' as [[E _]|[_ Hd']]; [|by eapply Hat].
      destruct (Hm _ _ Hi') as (d0 & Hd0 & _). congruence.
Qed.

(** [x & -32] on a [size_t]. *)
Lemma land_align a : 0 ≤ a < W32 → Z.land a (W32 - DBLK_ALIGN) = 32 * (a / 32).
Proof.
  intros Ha. change (W32 - DBLK_ALIGN) with (Z.shiftl (Z.ones 27) 5).
  replace (32 * (a / 32)) with (Z.shiftl (Z.shiftr a 5) 5)
    by (rewrite Z.shiftl_mul_pow2, Z.shiftr_div_pow2 by lia; change (2 ^ 5) with 32; lia).
  apply Z.bits_inj'. intros n Hn. rewrite Z.land_spec, !Z.shiftl_spec by done.
  destruct (decide (n < 5)) as [Hlt|Hge].
  - rewrite !(Z.testbit_neg_r _ (n - 5)) by lia. by rewrite andb_false_r.
  - rewrite Z.shiftr_spec by lia. replace (n - 5 + 5) with n by lia.
    destruct (decide (n < 32)) as [Hlt|Hge'].
    + rewrite Z.ones_spec_low by lia. by rewrite andb_true_r.
    + rewrite (Z.bits_above_log2 a n); [done|lia|].
      destruct (decide (a = 0)) as [->|]; [simpl; lia|]. apply Z.log2_lt_pow2; [lia|].
      apply Z.lt_le_trans with (2 ^ 32); [unfold W32 in Ha; simpl; lia|apply Z.pow_le_mono_r; lia].
Qed.

(** What [allocb] returns: one block over [n] new bytes, with the message block attached to it. *)
Definition alloced (h : heap) (size mp : Z) (h' : heap) : Prop :=
  ∃ dbp base n fn frtn c,
    h' = put_mblk (put_dblk (with_hmem h (add_bytes (h_mem h) base n)) dbp
           (MkDblk base (base + n) 1 M_DATA 0 mp fn fn frtn c)) mp (MkMblk None base base dbp 0 0) ∧
    fn ≠ DECREF ∧ size ≤ n ∧ (4 | n) ∧ (4 | base) ∧ 0 < base ∧ base + n < W31 ∧
    h_mblk h !! mp = None ∧ h_dblk h !! dbp = None ∧
    (∀ q, base ≤ q < base + n → h_mem h !! q = None) ∧
    made dbp (MkDblk base (base + n) 1 M_DATA 0 mp fn fn frtn c).

Lemma allocb_oversize_spec h size mp h' :
  0 ≤ size → size + 31 < W32 → allocb_oversize h size = (Some mp, h') → alloced h size mp h'.
Proof.
  intros Hs Hw. unfold allocb_oversize.
  pose proof (Z.div_mod (size + 31) 32 ltac:(lia)). pose proof (Z.mod_pos_bound (size + 31) 32 ltac:(lia)).
  set (n := 32 * ((size + 31) / 32)) in *.
  assert (En : Z.land (add32 size (DBLK_ALIGN - 1)) (W32 - DBLK_ALIGN) = n).
  { unfold DBLK_ALIGN at 1. change (32 - 1) with 31. rewrite add32_small by lia. apply land_align. lia. }
  rewrite En.
  destruct (k_alloc h n) as [p|] eqn:Ek; [|done]. apply k_alloc_fresh in Ek as (Hp & Hpn & H4 & Hfree).
  unfold gesballoc. destruct (kc_esb _) as [[[dbp d] m]|] eqn:Ee; [|done].
  apply kc_esb_fresh in Ee as (Hd & Hm & Hc & _ & Hb). intros [= <- <-].
  exists dbp, p, n, LASTFREE_OVERSIZE, 0, KC_ESB. unfold set_rtfu, reset_mblk. simpl. rewrite Hb, Hc.
  split_and!; try done; [lia|]. unfold n. exists (8 * ((size + 31) / 32)). lia.
Qed.

Lemma allocb_spec h size mp h' :
  0 ≤ size → sizeof_dblk - 1 + size < W32 → allocb h size = (Some mp, h') → alloced h size mp h'.
Proof.
  intros Hs Hw. destruct sizeof_dblk_ok as [Hsz _]. unfold allocb.
  change (Z.shiftr DBLK_MAX_CACHE DBLK_ALIGN_SHIFT) with 384. case_if.
  - apply allocb_oversize_spec; [done|lia].
  - destruct (allocb_cache_size size Hs Hw) as (c & -> & Hc & Hmax & H4); [lia|].
    destruct (kc_dblk h (c - sizeof_dblk)) as [[[dbp d] m]|] eqn:Ek; [|done].
    apply kc_dblk_fresh in Ek as (Hd & Hm & Hca & Hcon & Hb & Hp & Hpn & [y Hp4] & Hfree). intros [= <- <-].
    unfold constructed in Hcon. rewrite Hca in Hcon. apply bool_decide_eq_true in Hcon.
    exists dbp, (dbp + sizeof_dblk), (c - sizeof_dblk), LASTFREE, (db_frtn d), (KC_DATA (c - sizeof_dblk)).
    destruct sizeof_dblk_ok as [_ [z Hz]].
    split; [unfold set_rtfu, reset_mblk; rewrite Hcon, Hb; reflexivity|].
    split_and!; try done; [exists (y + 2 * z); lia|lia].
Qed.

Lemma allocb_none h size h' : allocb h size = (None, h') → h' = h.
Proof.
  unfold allocb, allocb_oversize, gesballoc. intros E. repeat (case_match; simplify_eq; try done).
Qed.

Lemma alloced_disjoint h base n j d q :
  heap_ok h → (∀ q, base ≤ q < base + n → h_mem h !! q = None) →
  h_dblk h !! j = Some d → base ≤ q < base + n → ¬ db_base d ≤ q < db_lim d.
Proof.
  intros Hok Hfree Hj Hq Hq'. destruct (ok_bytes _ _ _ (ok_dblk _ Hok _ _ Hj) q Hq') as [b Hb].
  by rewrite Hfree in Hb.
Qed.

Lemma alloced_ok h size mp h' : heap_ok h → 0 ≤ size → alloced h size mp h' → heap_ok h'.
Proof.
  intros Hok Hs (dbp & base & n & fn & frtn & c & -> & Hfn & Hn & _ & _ & Hb & Htop & Hm & Hd & Hfree & Hmade).
  apply heap_ok_new; simpl; try done; try (unfold W31, W32 in *; lia).
  - intros q Hq. rewrite add_bytes_lookup, decide_True by lia. eauto.
  - intros q b Hq. rewrite add_bytes_lookup by lia. case_decide; [|done]. by rewrite Hfree in Hq.
  - intros j' d' q Hj' Hq. by apply (alloced_disjoint h base n j' d' q).
Qed.

(** ** References *)

Lemma dupb_spec h mp m d :
  heap_ok h → h_mblk h !! mp = Some m → h_dblk h !! b_datap m = Some d →
  ∃ r h', dupb h mp = Ok (r, h') ∧ heap_ok h' ∧ h_mem h' = h_mem h ∧
    match r with
    | None => h' = h
    | Some new => h_mblk h !! new = None ∧
        h_mblk h' = <[new := MkMblk None (b_rptr m) (b_wptr m) (b_datap m) (b_band m) (b_flag m)]> (h_mblk h) ∧
        h_dblk h' = <[b_datap m := set_db_ref (db_ref d + 1) (set_db_free DECREF d)]> (h_dblk h)
    end.
Proof.
  intros Hok Hm Hd. unfold dupb, get_datap, get_mblk, get_dblk. rewrite Hm. simpl. rewrite Hd. simpl.
  destruct (kc_mblk h) as [new|] eqn:Ek; [|by eexists _, _]. apply kc_mblk_fresh in Ek.
  pose proof (ok_dblk _ Hok _ _ Hd) as Hdok. pose proof (refmin_cases d) as Hmin.
  set (new_m := MkMblk _ _ _ _ _ _). set (d' := set_db_ref (db_ref d + 1) (set_db_free DECREF d)).
  assert (Hwf : db_ref d < 255 →
    heap_ok (put_mblk (put_dblk h (b_datap m) d') new new_m)).
  { intros Hlt. destruct Hok as [[Hom Hod Hdj] Hat]. split; [split; simpl|].
    - intros i' m' Hi'. apply lookup_insert_Some in Hi' as [[<- <-]|[Hne Hi']].
      + exists d'. simpl. rewrite lookup_insert_eq. destruct (Hom _ _ Hm) as (d0 & Hd0 & Hr).
        rewrite Hd in Hd0. by simplify_eq.
      + destruct (Hom _ _ Hi') as (d0 & Hd0 & Hr).
        destruct (decide (b_datap m = b_datap m')) as [E|E].
        * exists d'. rewrite E, lookup_insert_eq. rewrite <- E, Hd in Hd0. by simplify_eq.
        * exists d0. by rewrite lookup_insert_ne.
    - intros j dj Hj. apply lookup_insert_Some in Hj as [[<- <-]|[Hne Hj]].
      + destruct Hdok. split; simpl; try done; try lia.
        * rewrite refs_insert, decide_True by done. unfold refmin in *. simpl. lia.
        * rewrite refs_insert, decide_True by done. lia.
        * by left.
      + assert (Hrefs : refs (<[new := new_m]> (h_mblk h)) j = refs (h_mblk h) j)
          by (rewrite refs_insert, decide_False by done; lia).
        destruct (Hod _ _ Hj). split; simpl; rewrite ?Hrefs; auto.
    - intros j1 j2 d1 d2 q H1 H2 Hne.
      apply lookup_insert_Some in H1 as [[<- <-]|[Hn1 H1]];
        apply lookup_insert_Some in H2 as [[<- <-]|[Hn2 H2]]; [done| | |]; simpl.
      + by apply (Hdj (b_datap m) j2 d d2 q).
      + by apply (Hdj j1 (b_datap m) d1 d q).
      + by apply (Hdj j1 j2 d1 d2 q).
    - intros i' m' dj Hi' Hj Hf. simpl in *. apply lookup_insert_Some in Hj as [[_ <-]|[Hnj Hj]]; [done|].
      apply lookup_insert_Some in Hi' as [[_ <-]|[_ Hi']]; [done|by eapply Hat]. }
  destruct (bool_decide (db_free d = DECREF)) eqn:Ef; simpl.
  - apply bool_decide_eq_true in Ef. case_if; [by eexists _, _|].
    pose proof (ok_ref _ _ _ Hdok).
    assert (Hd' : set_db_ref (db_ref d + 1) d = d') by (unfold d'; destruct d; simpl in *; by subst).
    rewrite Hd'. eexists _, _. split; [done|]. split; [apply Hwf; lia|]. done.
  - apply bool_decide_eq_false in Ef. pose proof (ok_once _ _ _ Hdok Ef) as H1.
    pose proof (ok_count _ _ _ Hdok) as Hc. rewrite H1 in Hc.
    assert (Hd' : set_db_ref ((db_ref d + 1) mod 256) (set_db_free DECREF d) = d')
      by (rewrite Z.mod_small by lia; done).
    rewrite Hd'. eexists _, _. split; [done|]. split; [apply Hwf; lia|]. done.
Qed.

(** One reference less, not the last. *)
Lemma heap_ok_drop h mp m d :
  heap_ok h → h_mblk h !! mp = Some m → h_dblk h !! b_datap m = Some d →
  (2 ≤ refs (h_mblk h) (b_datap m))%nat →
  heap_ok (with_mblk (put_dblk h (b_datap m) (set_db_ref (db_ref d - 1) d)) (delete mp (h_mblk h))).
Proof.
  intros [[Hom Hod Hdj] Hat] Hm Hd H2. split; [split; simpl|].
  - intros i' m' Hi'. apply lookup_delete_Some in Hi' as [Hne Hi'].
    destruct (Hom _ _ Hi') as (d0 & Hd0 & Hr).
    destruct (decide (b_datap m = b_datap m')) as [E|E].
    + exists (set_db_ref (db_ref d - 1) d). rewrite E, lookup_insert_eq. rewrite <- E, Hd in Hd0.
      by simplify_eq.
    + exists d0. by rewrite lookup_insert_ne.
  - intros j dj Hj. pose proof (refs_delete _ _ _ j Hm) as Hrd.
    apply lookup_insert_Some in Hj as [[<- <-]|[Hne Hj]].
    + rewrite decide_True in Hrd by done. destruct (Hod _ _ Hd). split; simpl; auto.
      * unfold refmin in *. simpl. lia.
      * lia.
      * lia.
      * intros Hf. specialize (ok_once0 Hf). lia.
    + rewrite decide_False in Hrd by done. rewrite Nat.add_0_r in Hrd.
      destruct (Hod _ _ Hj). split; simpl; rewrite <- ?Hrd; auto.
  - intros j1 j2 d1 d2 q H1 H3 Hne.
    apply lookup_insert_Some in H1 as [[<- <-]|[Hn1 H1]];
      apply lookup_insert_Some in H3 as [[<- <-]|[Hn2 H3]]; [done| | |]; simpl.
    + by apply (Hdj (b_datap m) j2 d d2 q).
    + by apply (Hdj j1 (b_datap m) d1 d q).
    + by apply (Hdj j1 j2 d1 d2 q).
  - intros i' m' dj Hi' Hj Hf. simpl in *. apply lookup_delete_Some in Hi' as [_ Hi'].
    apply lookup_insert_Some in Hj as [[E <-]|[_ Hj]]; [|by eapply Hat].
    pose proof (ok_once _ _ _ (Hod _ _ Hd) Hf). lia.
Qed.

(** The last reference and its data block go; the bytes of other buffers stay. *)
Lemma heap_ok_release h mp m d mem freebs called :
  heap_ok h → h_mblk h !! mp = Some m → h_dblk h !! b_datap m = Some d →
  refs (h_mblk h) (b_datap m) = 1%nat →
  (∀ q, ¬ db_base d ≤ q < db_lim d → mem !! q = h_mem h !! q) →
  heap_ok (MkHeap (delete mp (h_mblk h)) (delete (b_datap m) (h_dblk h)) mem freebs called).
Proof.
  intros [[Hom Hod Hdj] Hat] Hm Hd H1 Hmem.
  assert (Hother : ∀ i' m', i' ≠ mp → h_mblk h !! i' = Some m' → b_datap m' ≠ b_datap m).
  { intros i' m' Hne Hi'. apply (refs_zero (delete mp (h_mblk h)) _ i').
    - pose proof (refs_delete _ _ _ (b_datap m) Hm) as Hrd. rewrite decide_True in Hrd by done. lia.
    - by rewrite lookup_delete_ne. }
  split; [split; simpl|].
  - intros i' m' Hi'. apply lookup_delete_Some in Hi' as [Hne Hi'].
    destruct (Hom _ _ Hi') as (d0 & Hd0 & Hr). exists d0. rewrite lookup_delete_ne; [done|].
    intros E. by apply (Hother i' m').
  - intros j dj Hj. apply lookup_delete_Some in Hj as [Hne Hj].
    pose proof (refs_delete _ _ _ j Hm) as Hrd. rewrite decide_False, Nat.add_0_r in Hrd by done.
    destruct (Hod _ _ Hj). split; simpl; rewrite <- ?Hrd; auto.
    intros q Hq. rewrite Hmem; [by apply ok_bytes0|]. by apply (Hdj j (b_datap m) dj d q).
  - intros j1 j2 d1 d2 q Hj1 Hj2. apply lookup_delete_Some in Hj1 as [_ Hj1].
    apply lookup_delete_Some in Hj2 as [_ Hj2]. by apply (Hdj j1 j2 d1 d2 q).
  - intros i' m' dj Hi' Hj Hf. simpl in *. apply lookup_delete_Some in Hi' as [_ Hi'].
    apply lookup_delete_Some in Hj as [_ Hj]. by eapply Hat.
Qed.

(** A data block that only changes its bookkeeping. *)
Lemma heap_wf_retag h j d d' freebs called :
  heap_wf h → h_dblk h !! j = Some d →
  db_base d' = db_base d → db_lim d' = db_lim d → db_ref d' = db_ref d → db_flags d' = db_flags d →
  db_lastfree d' = db_lastfree d → db_cache d' = db_cache d → db_free d' = db_free d ∨
    (db_free d' = db_lastfree d ∧ refs (h_mblk h) j = 1%nat) →
  heap_wf (MkHeap (h_mblk h) (<[j := d']> (h_dblk h)) (h_mem h) freebs called).
Proof.
  intros [Hom Hod Hdj] Hj Eb El Er Ef Elf Ec Efr. split; simpl.
  - intros i' m' Hi'. destruct (Hom _ _ Hi') as (d0 & Hd0 & Hr).
    destruct (decide (j = b_datap m')) as [->|E].
    + exists d'. rewrite lookup_insert_eq, Eb, El. rewrite Hj in Hd0. by simplify_eq.
    + exists d0. by rewrite lookup_insert_ne.
  - intros j' dj Hj'. apply lookup_insert_Some in Hj' as [[<- <-]|[Hne Hj']].
    + destruct (Hod _ _ Hj). unfold refmin in *.
      split; unfold refmin, made in *; simpl; rewrite ?Eb, ?El, ?Er, ?Ef, ?Elf, ?Ec; auto.
      * destruct Efr as [-> | [-> _]]; auto.
      * destruct Efr as [-> | [-> Hr]]; auto.
    + destruct (Hod _ _ Hj'). by split.
  - intros j1 j2 d1 d2 q H1 H3 Hne.
    apply lookup_insert_Some in H1 as [[<- <-]|[Hn1 H1]];
      apply lookup_insert_Some in H3 as [[<- <-]|[Hn2 H3]]; rewrite ?Eb, ?El; [done| | |].
    + by apply (Hdj j j2 d d2 q).
    + by apply (Hdj j1 j d1 d q).
    + by apply (Hdj j1 j2 d1 d2 q).
Qed.

Lemma heap_ok_retag h j d d' freebs called :
  heap_ok h → h_dblk h !! j = Some d →
  db_base d' = db_base d → db_lim d' = db_lim d → db_ref d' = db_ref d → db_flags d' = db_flags d →
  db_lastfree d' = db_lastfree d → db_cache d' = db_cache d → db_free d' = db_free d ∨
    (db_free d' = db_lastfree d ∧ refs (h_mblk h) j = 1%nat) →
  (db_free d' ≠ DECREF → ∀ i m, h_mblk h !! i = Some m → b_datap m = j → db_mblk d' = i) →
  heap_ok (MkHeap (h_mblk h) (<[j := d']> (h_dblk h)) (h_mem h) freebs called).
Proof.
  intros [Hwf Hat] Hj Eb El Er Ef Elf Ec Efr Hnew. split; [by apply (heap_wf_retag h j d)|].
  intros i m dj Hi Hdj Hf. simpl in *. apply lookup_insert_Some in Hdj as [[E <-]|[_ Hdj]]; [by eapply Hnew|by eapply Hat].
Qed.

(** The only block that refers to a data block. *)
Lemma refs_unique mb i i' m m' : refs mb (b_datap m) = 1%nat → mb !! i = Some m → mb !! i' = Some m' → b_datap m' = b_datap m → i' = i.
Proof.
  intros H1 Hi Hi' E. destruct (decide (i' = i)) as [|Hne]; [done|]. exfalso.
  apply (refs_zero (delete i mb) (b_datap m) i' m'); [|by rewrite lookup_delete_ne|done].
  pose proof (refs_delete _ _ _ (b_datap m) Hi) as Hrd. rewrite decide_True in Hrd by done. lia.
Qed.

(** The data block when [mp] is the last to refer to it and is freed. *)
Definition last_ref (mp : Z) (d : dblk) : dblk := set_db_free (db_lastfree d) (set_db_mblk mp d).

Lemma last_ref_id mp d : db_free d = db_lastfree d → db_mblk d = mp → last_ref mp d = d.
Proof. destruct d. unfold last_ref. simpl. by intros -> ->. Qed.

(** What freeing the block [mp] does. *)
Definition freed (h : heap) (mp : Z) (m : mblk) (d : dblk) (h' : heap) : Prop :=
  if (2 <=? refs (h_mblk h) (b_datap m))%nat then
    h' = with_mblk (put_dblk h (b_datap m) (set_db_ref (db_ref d - 1) d)) (delete mp (h_mblk h))
  else
    match db_lastfree d with
    | LASTFREE | LASTFREE_OVERSIZE =>
      h' = MkHeap (delete mp (h_mblk h)) (delete (b_datap m) (h_dblk h))
             (del_bytes (h_mem h) (db_base d) (Z.to_nat (db_lim d - db_base d)))
             (h_freebs h) (h_called h)
    | LASTFREE_DESB =>
      h' = MkHeap (delete mp (h_mblk h)) (delete (b_datap m) (h_dblk h)) (h_mem h)
             (h_freebs h) (db_frtn d :: h_called h)
    | FREEBS_ENQUEUE =>
      h' = MkHeap (h_mblk h) (<[b_datap m := last_ref mp d]> (h_dblk h)) (h_mem h) (mp :: h_freebs h) (h_called h)
    | DECREF => False
    end.

(** A data block with its last reference goes back as it was constructed. *)
Lemma dblk_release_spec h mp m d :
  h_mblk h !! mp = Some m → h_dblk h !! b_datap m = Some d → db_mblk d = mp → made (b_datap m) d → db_free d = db_lastfree d →
  dblk_release h (b_datap m) =
    Ok (MkHeap (delete mp (h_mblk h)) (delete (b_datap m) (h_dblk h)) (h_mem h) (h_freebs h) (h_called h)).
Proof.
  intros Hm Hd Ha Hmade Hf. unfold dblk_release, dblk_destructor, get_dblk, get_mblk. rewrite Hd. cbn [deref mbind res_bind].
  assert (constructed (b_datap m) d = true) as ->.
  { unfold constructed, made in *. destruct d as [b l r t fl mb fr lf ft c]. simpl in *.
    destruct c as [|n]; apply bool_decide_eq_true; [done|]. destruct Hmade as (-> & -> & ->). by subst. }
  rewrite Ha, Hm. cbn [deref mbind res_bind]. by rewrite Z.eqb_refl.
Qed.

Lemma call_lastfree_spec h mp m d :
  heap_ok h → h_mblk h !! mp = Some m → h_dblk h !! b_datap m = Some d →
  refs (h_mblk h) (b_datap m) = 1%nat →
  ∃ h', call_lastfree (put_dblk h (b_datap m) (last_ref mp d)) mp (b_datap m) (last_ref mp d) (db_lastfree d) = Ok h' ∧
    heap_ok h' ∧ freed h mp m d h'.
Proof.
  intros Hok Hm Hd H1. unfold freed, call_lastfree, assert_attached. rewrite H1. simpl. rewrite Z.eqb_refl. cbn [mbind res_bind].
  pose proof (ok_dblk _ Hok _ _ Hd) as Hdok. pose proof (ok_lastfree _ _ _ Hdok) as Hlf. pose proof (ok_lim _ _ _ Hdok) as Hlim.
  assert (made (b_datap m) (last_ref mp d)) as Hmade by exact (ok_made _ _ _ Hdok).
  assert (Hrel : ∀ mem fr ca, dblk_release (MkHeap (h_mblk h) (<[b_datap m := last_ref mp d]> (h_dblk h)) mem fr ca) (b_datap m) =
    Ok (MkHeap (delete mp (h_mblk h)) (delete (b_datap m) (h_dblk h)) mem fr ca)).
  { intros mem fr ca. rewrite (dblk_release_spec _ mp m (last_ref mp d)); simpl; try done; [|by apply lookup_insert_eq]. by rewrite delete_insert_eq. }
  destruct (db_lastfree d) eqn:E; [done| | | |];
    [unfold with_hmem, put_dblk, with_dblk; cbn [h_mblk h_dblk h_mem h_freebs h_called]; rewrite Hrel; eexists; (split; [done|]); (split; [|done])..|].
  - apply (heap_ok_release h mp m d); try done.
    intros q Hq. simpl. rewrite del_bytes_lookup, Z2Nat.id, decide_False by lia. done.
  - by apply (heap_ok_release h mp m d).
  - apply (heap_ok_release h mp m d); try done.
    intros q Hq. simpl. rewrite del_bytes_lookup, Z2Nat.id, decide_False by lia. done.
  - eexists. split; [done|]. split; [|done]. apply (heap_ok_retag h _ d); try done; [by right|].
    intros _ i m' Hi Em. symmetry. by apply (refs_unique (h_mblk h) mp i m m').
Qed.

Lemma freeb_spec h mp m d :
  heap_ok h → h_mblk h !! mp = Some m → h_dblk h !! b_datap m = Some d →
  ∃ h', freeb h mp = Ok h' ∧ heap_ok h' ∧ freed h mp m d h'.
Proof.
  intros Hok Hm Hd. unfold freeb, get_datap, get_mblk, get_dblk. rewrite Hm. simpl. rewrite Hd. simpl.
  pose proof (ok_dblk _ Hok _ _ Hd) as Hdok. pose proof (refmin_cases d) as Hmin.
  destruct Hdok as [Hc Hl Hr Hlf Hfr Honce Hlim Hb Hmade]. rewrite (proj2 (Z.ltb_lt _ _)) by lia.
  destruct (decide (db_free d = DECREF)) as [Ef|Ef].
  - rewrite Ef. unfold dblk_decref. fold (refmin d).
    destruct (Z.eqb_spec (db_ref d) 1) as [E1|E1]; simpl;
      [|destruct (Z.eqb_spec (db_ref d - 1) (refmin d)) as [E2|E2]; simpl].
    + apply call_lastfree_spec; auto. lia.
    + apply call_lastfree_spec; auto. lia.
    + assert (H2 : (2 ≤ refs (h_mblk h) (b_datap m))%nat) by lia. eexists. split; [done|].
      unfold freed. rewrite (proj2 (Nat.leb_le _ _) H2). split; [|done]. by apply heap_ok_drop.
  - destruct Hfr as [|Hfr]; [done|].
    destruct (call_lastfree_spec h mp m d Hok Hm Hd (Honce Ef)) as (h' & E & Hs).
    rewrite last_ref_id in E; [|done|by eapply (ok_att _ Hok)].
    assert (Hput : put_dblk h (b_datap m) d = h)
      by (destruct h; unfold put_dblk, with_dblk; simpl in *; by rewrite insert_id).
    rewrite Hput in E. exists h'. split; [|done]. rewrite <- E, Hfr. by destruct (db_lastfree d).
Qed.

(** ** Messages *)

(** The blocks from [mp] up to [tl]: their addresses, types and bytes. *)
Fixpoint chain (h : heap) (mp : option Z) (l : list (Z * Z * list Z)) (tl : option Z) : Prop :=
  match l with
  | [] => mp = tl
  | (i, t, bs) :: l =>
    mp = Some i ∧ ∃ m d, h_mblk h !! i = Some m ∧ h_dblk h !! b_datap m = Some d ∧ db_type d = t ∧
      b_wptr m = b_rptr m + Z.of_nat (length bs) ∧ has (h_mem h) (b_rptr m) bs ∧
      chain h (b_cont m) l tl
  end.

Definition ids (l : list (Z * Z * list Z)) : list Z := map (λ b, b.1.1) l.
Definition bytes_of (l : list (Z * Z * list Z)) : list Z := concat (map snd l).

(** A message: an acyclic chain that ends. *)
Definition msg (h : heap) (mp : option Z) (l : list (Z * Z * list Z)) : Prop :=
  chain h mp l None ∧ NoDup (ids l).

Lemma chain_app h mp l1 l2 tl :
  chain h mp (l1 ++ l2) tl ↔ ∃ mid, chain h mp l1 mid ∧ chain h mid l2 tl.
Proof.
  revert mp. induction l1 as [|[[i t] bs] l1 IH]; intros mp; simpl.
  - split; [by eexists|by intros (mid & -> & ?)].
  - split.
    + intros (-> & m & d & Hm & Hd & Ht & Hw & Hb & Hc). apply IH in Hc as (mid & H1 & H2).
      exists mid. split; [|done]. split; [done|]. by exists m, d.
    + intros (mid & (-> & m & d & Hm & Hd & Ht & Hw & Hb & Hc) & H2). split; [done|].
      exists m, d. split_and!; try done. apply IH. by exists mid.
Qed.

Lemma chain_in h mp l tl i : chain h mp l tl → i ∈ ids l → is_Some (h_mblk h !! i).
Proof.
  revert mp. induction l as [|[[j t] bs] l IH]; intros mp; simpl.
  - intros _ Hi. by apply elem_of_nil in Hi.
  - intros (_ & m & d & Hm & _ & _ & _ & _ & Hc) Hi. apply list_elem_of_In in Hi as [<-|Hi]; [by eexists|].
    apply (IH _ Hc). by apply list_elem_of_In.
Qed.

(** The fuel of the loops is enough. *)
Lemma chain_fuel h mp l tl : chain h mp l tl → NoDup (ids l) → (length l < fuel h)%nat.
Proof.
  intros Hc Hnd. unfold fuel. apply le_n_S. rewrite <- (length_map (λ b, b.1.1) l). fold (ids l).
  rewrite <- (size_list_to_set (C := gset Z)) by done. rewrite <- size_dom.
  apply subseteq_size. intros i Hi. apply elem_of_list_to_set in Hi. apply elem_of_dom.
  by eapply chain_in.
Qed.

(** The blocks of a chain are all that matters. *)
Lemma chain_cong h h' mp l tl :
  chain h mp l tl → (∀ i, i ∈ ids l → h_mblk h' !! i = h_mblk h !! i) →
  (∀ j d, h_dblk h !! j = Some d → ∃ d', h_dblk h' !! j = Some d' ∧ db_type d' = db_type d) →
  (∀ q b, h_mem h !! q = Some b → h_mem h' !! q = Some b) → chain h' mp l tl.
Proof.
  intros Hc Hm Hd Hb. revert mp Hc Hm. induction l as [|[[i t] bs] l IH]; intros mp; simpl; [done|].
  intros (-> & m & d & Em & Ed & Et & Ew & Eb & Hc) Hm. split; [done|].
  destruct (Hd _ _ Ed) as (d' & Ed' & Et'). exists m, d'. split_and!; try done.
  - rewrite Hm; [done|]. apply list_elem_of_here.
  - by rewrite Et'.
  - intros k b Hk. by apply Hb, Eb.
  - apply IH; [done|]. intros j Hj. apply Hm. by apply list_elem_of_further.
Qed.

(** Same, when only other message blocks change. *)
Lemma chain_frame h i m mp l tl : chain h mp l tl → i ∉ ids l → chain (put_mblk h i m) mp l tl.
Proof.
  intros Hc Hi. apply (chain_cong h); simpl; eauto.
  intros j Hj. apply lookup_insert_ne. by intros ->.
Qed.

Definition total (l : list (Z * Z * list Z)) : Z := Z.of_nat (length (bytes_of l)).

Lemma total_cons i t bs l : total ((i, t, bs) :: l) = Z.of_nat (length bs) + total l.
Proof. unfold total, bytes_of. simpl. rewrite length_app. lia. Qed.

Lemma total_nonneg l : 0 ≤ total l.
Proof. unfold total. lia. Qed.

Lemma msgdsize_loop_spec n h mp l count :
  chain h mp l None → (length l ≤ n)%nat → 0 ≤ count → count + total l < W32 →
  msgdsize_loop n h mp count =
    Ok (count + total (filter (λ b : Z * Z * list Z, b.1.2 = M_DATA) l)).
Proof.
  revert mp count n. induction l as [|[[i t] bs] l IH]; intros mp count n; simpl.
  - intros -> _ Hc Hw. destruct n; simpl; f_equal; unfold total, bytes_of; simpl; lia.
  - intros (-> & m & d & Em & Ed & Et & Ew & Eb & Hch) Hn Hc Hw. destruct n as [|n]; [lia|]. simpl.
    unfold get_datap, get_mblk, get_dblk. rewrite Em. simpl. rewrite Ed. simpl. rewrite Et.
    rewrite total_cons in Hw. pose proof (total_nonneg l).
    assert (Eu : u32 (b_wptr m - b_rptr m) = Z.of_nat (length bs))
      by (rewrite u32_small; unfold is_u32; lia).
    rewrite Eu. rewrite filter_cons. simpl. destruct (Z.eqb_spec t M_DATA) as [E|E].
    + rewrite decide_True by done. rewrite total_cons, add32_small by lia.
      rewrite IH by (done || lia). f_equal. lia.
    + rewrite decide_False by done. by rewrite IH by (done || lia).
Qed.

Lemma last_blk_spec h i t bs l tl mp :
  chain h (Some mp) (l ++ [(i, t, bs)]) tl → tl = None → ∀ n, (length l ≤ n)%nat →
  last_blk n h mp = Ok i.
Proof.
  intros Hc ->. revert mp Hc. induction l as [|[[j t'] bs'] l IH]; intros mp; simpl.
  - intros ([= ->] & m & d & Em & _ & _ & _ & _ & Hc) n _. destruct n; simpl; unfold get_mblk;
      rewrite Em; simpl; by rewrite Hc.
  - intros ([= ->] & m & d & Em & _ & _ & _ & _ & Hc) n Hn. destruct n as [|n]; [lia|]. simpl.
    unfold get_mblk at 1. rewrite Em. simpl.
    assert (∃ c, b_cont m = Some c) as [c Ec].
    { destruct l as [|[[j' t''] bs''] l]; simpl in Hc; destruct Hc as [-> _]; by eexists. }
    rewrite Ec in *. apply (IH _ Hc). lia.
Qed.

(** Setting [b_cont] of the last block of a chain. *)
Lemma chain_relink h mp l i t bs m tl tl' :
  chain h mp (l ++ [(i, t, bs)]) tl → NoDup (ids (l ++ [(i, t, bs)])) → h_mblk h !! i = Some m →
  chain (put_mblk h i (set_b_cont tl' m)) mp (l ++ [(i, t, bs)]) tl'.
Proof.
  intros Hc Hnd Hm. unfold ids in Hnd. rewrite map_app in Hnd. apply list.NoDup_app in Hnd as (_ & Hni & _).
  apply chain_app in Hc as (mid & H1 & H2). apply chain_app. exists mid. split.
  - apply chain_frame; [done|]. intros Hi. apply (Hni i Hi). apply list_elem_of_here.
  - simpl in *. destruct H2 as (-> & m' & d & Em & Ed & Et & Ew & Eb & _). rewrite Hm in Em. simplify_eq.
    split; [done|]. exists (set_b_cont tl' m'), d. rewrite lookup_insert_eq. done.
Qed.

Lemma linkb_chain h mp bp l1 l2 :
  msg h (Some mp) l1 → l1 ≠ [] → msg h (Some bp) l2 → ids l1 ## ids l2 →
  ∃ h', linkb h mp bp = Ok h' ∧ msg h' (Some mp) (l1 ++ l2).
Proof.
  intros [H1 N1] Hne [H2 N2] Hd. destruct (unsnoc l1) as [[l [[i t] bs]]|] eqn:E;
    [|by apply unsnoc_None in E]. apply unsnoc_Some in E. subst l1. unfold linkb.
  rewrite (last_blk_spec h i t bs l None mp H1 eq_refl).
  2: { pose proof (chain_fuel _ _ _ _ H1 N1) as Hf. rewrite length_app in Hf. lia. }
  simpl. unfold upd_mblk, get_mblk.
  assert (Hi : i ∈ ids (l ++ [(i, t, bs)])).
  { unfold ids. rewrite map_app. apply elem_of_app. right. apply list_elem_of_here. }
  destruct (chain_in _ _ _ _ _ H1 Hi) as [m Hm]. rewrite Hm. simpl. eexists. split; [done|].
  split.
  - apply chain_app. exists (Some bp). split; [by apply (chain_relink h _ _ _ _ _ _ None)|].
    apply chain_frame; [done|]. intros Hi2. by apply (Hd i).
  - unfold ids in *. rewrite map_app. apply list.NoDup_app. split_and!; [done| |done].
    intros x Hx1 Hx2. by apply (Hd x).
Qed.

(** ** Messages and memory *)

(** A chain whose bytes stay: memory changes only outside the blocks' data. *)
Lemma chain_mem h h' mp l tl :
  chain h mp l tl → (∀ i, i ∈ ids l → h_mblk h' !! i = h_mblk h !! i) →
  (∀ i m d, i ∈ ids l → h_mblk h !! i = Some m → h_dblk h !! b_datap m = Some d →
    (∃ d', h_dblk h' !! b_datap m = Some d' ∧ db_type d' = db_type d) ∧
    ∀ q, b_rptr m ≤ q < b_wptr m → h_mem h' !! q = h_mem h !! q) → chain h' mp l tl.
Proof.
  revert mp. induction l as [|[[i t] bs] l IH]; intros mp Hc Hm Hd; simpl in *; [done|].
  destruct Hc as (-> & m & d & Em & Ed & Et & Ew & Eb & Hc).
  destruct (Hd i m d) as ((d' & Ed' & Et') & Hq); [apply list_elem_of_here|done|done|].
  split; [done|]. exists m, d'. split_and!; try done.
  - rewrite Hm; [done|]. apply list_elem_of_here.
  - by rewrite Et'.
  - apply (has_agree (h_mem h)); [|done]. intros q Hr. apply Hq. lia.
  - apply IH; [done|..].
    + intros j Hj. apply Hm. by apply list_elem_of_further.
    + intros j m' d0 Hj. apply Hd. by apply list_elem_of_further.
Qed.

(** Freeing a block leaves the chains it is not part of. *)
Lemma freed_chain h i m d h' mp l tl :
  heap_ok h → h_mblk h !! i = Some m → h_dblk h !! b_datap m = Some d → freed h i m d h' →
  chain h mp l tl → i ∉ ids l → chain h' mp l tl.
Proof.
  intros Hok Hm Hd Hf Hc Hi. unfold freed in Hf.
  destruct (Nat.leb_spec 2 (refs (h_mblk h) (b_datap m))) as [H2|H1].
  - subst h'. apply (chain_cong h); simpl; auto.
    + intros j Hj. apply lookup_delete_ne. by intros ->.
    + intros j d0 Hj. destruct (decide (b_datap m = j)) as [<-|Hne].
      * rewrite lookup_insert_eq. eexists. split; [done|]. rewrite Hd in Hj. by simplify_eq.
      * rewrite lookup_insert_ne by done. by exists d0.
  - assert (Hr : refs (h_mblk h) (b_datap m) = 1%nat) by (pose proof (refs_pos _ _ _ Hm); lia).
    assert (Hother : ∀ i' m', i' ≠ i → h_mblk h !! i' = Some m' → b_datap m' ≠ b_datap m).
    { intros i' m' Hne Hi'. apply (refs_zero (delete i (h_mblk h)) _ i').
      - pose proof (refs_delete _ _ _ (b_datap m) Hm) as Hrd. rewrite decide_True in Hrd by done. lia.
      - by rewrite lookup_delete_ne. }
    assert (Hgen : ∀ mem fr ca, (∀ q, ¬ db_base d ≤ q < db_lim d → mem !! q = h_mem h !! q) →
      chain (MkHeap (delete i (h_mblk h)) (delete (b_datap m) (h_dblk h)) mem fr ca) mp l tl).
    { intros mem fr ca Hmem. apply (chain_mem h); simpl; [done|..].
      - intros j Hj. apply lookup_delete_ne. by intros ->.
      - intros j m' d0 Hj Hm' Hd0. assert (Hne : b_datap m' ≠ b_datap m)
          by (apply (Hother j); [by intros ->|done]).
        split; [exists d0; by rewrite lookup_delete_ne|]. intros q Hq. apply Hmem.
        destruct (ok_mblk _ Hok _ _ Hm') as (d1 & Hd1 & Hr1 & Hr2). rewrite Hd0 in Hd1. simplify_eq.
        apply (ok_disj _ Hok (b_datap m') (b_datap m) d1 d q); done || lia. }
    destruct (db_lastfree d); [done| | | |].
    + subst h'. apply Hgen. intros q Hq. pose proof (ok_lim _ _ _ (ok_dblk _ Hok _ _ Hd)).
      rewrite del_bytes_lookup, Z2Nat.id, decide_False by lia. done.
    + subst h'. by apply Hgen.
    + subst h'. apply Hgen. intros q Hq. pose proof (ok_lim _ _ _ (ok_dblk _ Hok _ _ Hd)).
      rewrite del_bytes_lookup, Z2Nat.id, decide_False by lia. done.
    + subst h'. apply (chain_cong h); simpl; auto.
      intros j d0 Hj. destruct (decide (b_datap m = j)) as [<-|Hne].
      * rewrite lookup_insert_eq. eexists. split; [done|]. rewrite Hd in Hj. by simplify_eq.
      * rewrite lookup_insert_ne by done. by exists d0.
Qed.

(** [freemsg] releases every block of a message and nothing else of it. *)
Lemma freed_mblk h i m d h' j :
  freed h i m d h' → j ≠ i → h_mblk h' !! j = h_mblk h !! j.
Proof.
  unfold freed. intros Hf Hne. case_if_in Hf; [subst; simpl; by rewrite lookup_delete_ne|].
  destruct (db_lastfree d); [done|..]; subst; simpl; by rewrite ?lookup_delete_ne.
Qed.

Lemma freemsg_loop_spec n h mp l :
  heap_ok h → chain h mp l None → NoDup (ids l) → (length l ≤ n)%nat →
  ∃ h', freemsg_loop n h mp = Ok h' ∧ heap_ok h' ∧
    (∀ j, j ∉ ids l → h_mblk h' !! j = h_mblk h !! j).
Proof.
  revert h mp n. induction l as [|[[i t] bs] l IH]; intros h mp n Hok Hc Hnd Hn; simpl in *.
  - subst. exists h. by destruct n.
  - destruct Hc as (-> & m & d & Em & Ed & _ & _ & _ & Hc). destruct n as [|n]; [lia|]. simpl.
    unfold get_mblk. rewrite Em. simpl. destruct (freeb_spec h i m d Hok Em Ed) as (h1 & -> & Hok1 & Hf).
    simpl. apply list.NoDup_cons in Hnd as [Hi Hnd].
    destruct (IH h1 (b_cont m) n Hok1) as (h2 & E & Hok2 & Hrest);
      [by apply (freed_chain h i m d h1 (b_cont m) l None)|done|lia|]. exists h2. split_and!; [done|done|].
    intros j Hj. rewrite Hrest.
    + apply (freed_mblk _ _ _ _ _ _ Hf). intros ->. apply Hj, list_elem_of_here.
    + intros Hin. apply Hj. by apply list_elem_of_further.
Qed.

(** ** Pulling up *)

(** The leading blocks of type [t]. *)
Fixpoint same_type (t : Z) (l : list (Z * Z * list Z)) : list (Z * Z * list Z) :=
  match l with
  | [] => []
  | b :: l => if b.1.2 =? t then b :: same_type t l else []
  end.

Lemma same_type_total t l : total (same_type t l) ≤ total l.
Proof.
  induction l as [|[[i t'] bs] l IH]; simpl; [done|]. rewrite total_cons. pose proof (total_nonneg l).
  case_if; [rewrite total_cons; lia|]. change (total []) with 0. lia.
Qed.

Lemma xmsgsize_loop_spec n h t mp l count :
  chain h mp l None → (length l ≤ n)%nat → 0 ≤ count → count + total l < W32 →
  xmsgsize_loop n h t mp count = Ok (count + total (same_type t l)).
Proof.
  revert mp count n. induction l as [|[[i t'] bs] l IH]; intros mp count n; simpl.
  - intros -> _ _ _. destruct n; simpl; f_equal; unfold total, bytes_of; simpl; lia.
  - intros (-> & m & d & Em & Ed & Et & Ew & Eb & Hch) Hn Hc Hw. destruct n as [|n]; [lia|]. simpl.
    unfold get_datap, get_mblk, get_dblk. rewrite Em. simpl. rewrite Ed. simpl. rewrite Et.
    rewrite (Z.eqb_sym t'). rewrite total_cons in Hw. pose proof (total_nonneg l).
    destruct (t =? t'); simpl.
    + assert (Eu : u32 (b_wptr m - b_rptr m) = Z.of_nat (length bs))
        by (rewrite u32_small; unfold is_u32; lia).
      rewrite Eu, total_cons, add32_small by lia. rewrite IH by (done || lia). f_equal. lia.
    + f_equal. unfold total, bytes_of. simpl. lia.
Qed.

Lemma xmsgsize_spec h mp t bs l :
  msg h (Some mp) ((mp, t, bs) :: l) → total ((mp, t, bs) :: l) < W32 →
  xmsgsize h mp = Ok (total (same_type t ((mp, t, bs) :: l))).
Proof.
  intros [Hc Hnd] Hw. pose proof Hc as (_ & m & d & Em & Ed & Et & _).
  assert (E : get_datap h mp = Ok (m, d)) by (unfold get_datap, get_mblk, get_dblk; rewrite Em; simpl; by rewrite Ed).
  unfold xmsgsize. rewrite E. cbn [mbind res_bind]. rewrite Et.
  pose proof (chain_fuel _ _ _ _ Hc Hnd) as Hf.
  rewrite (xmsgsize_loop_spec _ h t (Some mp) ((mp, t, bs) :: l) 0); [done|done|lia|lia|lia].
Qed.

(** The block being filled: its bytes so far, and room for [n] more. *)
Definition filling (h : heap) (mp t : Z) (acc : list Z) (n : Z) : Prop :=
  ∃ m d, h_mblk h !! mp = Some m ∧ h_dblk h !! b_datap m = Some d ∧ db_type d = t ∧
    (b_rptr m = db_base d ∧ (4 | db_base d)) ∧ b_wptr m = b_rptr m + Z.of_nat (length acc) ∧
    has (h_mem h) (b_rptr m) acc ∧ b_wptr m + n ≤ db_lim d ∧ refs (h_mblk h) (b_datap m) = 1%nat.

Lemma filling_chain h mp t acc n : filling h mp t acc n → ∃ tl, chain h (Some mp) [(mp, t, acc)] tl.
Proof. intros (m & d & ? & ? & ? & ? & ? & ? & _). exists (b_cont m). simpl. split; [done|]. by exists m, d. Qed.

Lemma filling_other h mp t acc n i m m0 :
  filling h mp t acc n → h_mblk h !! mp = Some m0 → i ≠ mp → h_mblk h !! i = Some m →
  b_datap m ≠ b_datap m0.
Proof.
  intros (m1 & d & Hm & _ & _ & _ & _ & _ & _ & Hr) Hm0 Hne Hi. rewrite Hm0 in Hm. simplify_eq.
  apply (refs_zero (delete mp (h_mblk h)) _ i).
  - pose proof (refs_delete _ _ _ (b_datap m1) Hm0) as Hrd. rewrite decide_True in Hrd by done. lia.
  - by rewrite lookup_delete_ne.
Qed.

Lemma store_dom m p bs m' q : store_bytes m p bs = Ok m' → is_Some (m !! q) → is_Some (m' !! q).
Proof.
  revert m p. induction bs as [|b bs IH]; intros m p; simpl; [by intros [= ->]|].
  intros H1 Hq. apply bind_ok in H1 as (x & _ & H1). eapply IH; [exact H1|].
  destruct (decide (q = p)) as [->|]; [rewrite lookup_insert_eq; by eexists|by rewrite lookup_insert_ne].
Qed.

(** Only bytes of memory change. *)
Lemma heap_ok_mem h mem :
  heap_ok h → (∀ q, is_Some (h_mem h !! q) → is_Some (mem !! q)) → heap_ok (with_hmem h mem).
Proof.
  intros [[Hm Hd Hdj] Hat] Hmem. split; [|exact Hat]. split; simpl; [done| |done].
  intros j d Hj. destruct (Hd _ _ Hj). split; simpl; auto.
Qed.

(** A block moves its pointers within its buffer, or is relinked. *)
Lemma heap_ok_mblk h i m m' d :
  heap_ok h → h_mblk h !! i = Some m → h_dblk h !! b_datap m = Some d → b_datap m' = b_datap m →
  db_base d ≤ b_rptr m' ≤ b_wptr m' → b_wptr m' ≤ db_lim d → heap_ok (put_mblk h i m').
Proof.
  intros [[Hm Hd Hdj] Hat] Hi Hj E Hr Hw. split; [split; simpl; [| |done]|].
  - intros i' m0 H1. apply lookup_insert_Some in H1 as [[<- <-]|[_ H1]]; [exists d; by rewrite E|by apply Hm in H1].
  - intros j d0 Hj0. destruct (Hd _ _ Hj0).
    assert (Hrefs : refs (<[i := m']> (h_mblk h)) j = refs (h_mblk h) j) by (by apply (refs_update _ _ m)).
    split; simpl; rewrite ?Hrefs; auto.
  - intros i' m0 d0 H1 H2 Hf. simpl in *. apply lookup_insert_Some in H1 as [[<- <-]|[_ H1]]; [rewrite E in H2|]; by eapply Hat.
Qed.

Lemma has_app_r m p a b : has m p a → has m (p + Z.of_nat (length a)) b → has m p (a ++ b).
Proof. intros. by apply has_app. Qed.

(** Copying [bs] to the end of the block being filled. *)
Lemma fill_step h mp t acc n bs m d :
  heap_ok h → filling h mp t acc n → h_mblk h !! mp = Some m → h_dblk h !! b_datap m = Some d →
  Z.of_nat (length bs) ≤ n →
  ∃ mem, store_bytes (h_mem h) (b_wptr m) bs = Ok mem ∧
    let h' := put_mblk (with_hmem h mem) mp (set_b_wptr (b_wptr m + Z.of_nat (length bs)) m) in
    heap_ok h' ∧ filling h' mp t (acc ++ bs) (n - Z.of_nat (length bs)) ∧
    (∀ x l tl, chain h x l tl → mp ∉ ids l → chain h' x l tl).
Proof.
  intros Hok Hfill Hm Hd Hlen. pose proof Hfill as (m1 & d1 & Hm1 & Hd1 & Ht & [Hr Hr4] & Hw & Hacc & Hroom & Hrefs).
  assert (m1 = m) as -> by congruence. assert (d1 = d) as -> by congruence. clear Hm1 Hd1.
  pose proof (ok_dblk _ Hok _ _ Hd) as Hdok.
  assert (Hold : ∃ old, length old = length bs ∧ has (h_mem h) (b_wptr m) old).
  { apply mapped_has. intros q Hq. apply (ok_bytes _ _ _ Hdok). lia. }
  destruct Hold as (old & Hol & Hold).
  destruct (store_has _ _ _ bs Hold) as (mem & Hs & Hbs & Hout); [by rewrite Hol|].
  exists mem. split; [done|]. simpl.
  assert (Hokm : heap_ok (with_hmem h mem)) by (apply heap_ok_mem; [done|intros q; by apply (store_dom _ _ _ _ _ Hs)]).
  split_and!.
  - apply (heap_ok_mblk _ _ m _ d); simpl; try done; lia.
  - exists (set_b_wptr (b_wptr m + Z.of_nat (length bs)) m), d. simpl. rewrite lookup_insert_eq.
    rewrite length_app. split_and!; try done; try lia.
    + apply has_app_r; [|by rewrite <- Hw]. apply (has_agree (h_mem h)); [|done]. intros q Hq. apply Hout. lia.
    + by rewrite (refs_update _ _ m).
  - intros x l tl Hc Hni. apply (chain_mem h); simpl; [done|..].
    + intros j Hj. apply lookup_insert_ne. by intros <-.
    + intros j m2 d2 Hj Hm2 Hd2. split; [by exists d2|]. intros q Hq.
      apply Hout. assert (Hne : b_datap m2 ≠ b_datap m)
        by (apply (filling_other h mp t acc n j); try done; by intros ->).
      destruct (ok_mblk _ Hok _ _ Hm2) as (d3 & Hd3 & Hr3 & Hw3). rewrite Hd2 in Hd3. simplify_eq.
      intros Hin. apply (ok_disj _ Hok (b_datap m2) (b_datap m) d3 d q); try done; lia.
Qed.

(** The block being filled depends on its own buffer only. *)
Lemma filling_cong h h' mp t acc n m d :
  filling h mp t acc n → h_mblk h !! mp = Some m → h_dblk h !! b_datap m = Some d → heap_ok h →
  h_mblk h' !! mp = Some m → h_dblk h' !! b_datap m = Some d →
  (∀ q, db_base d ≤ q < db_lim d → h_mem h' !! q = h_mem h !! q) →
  refs (h_mblk h') (b_datap m) = refs (h_mblk h) (b_datap m) → filling h' mp t acc n.
Proof.
  intros (m1 & d1 & Hm1 & Hd1 & Ht & [Hr Hr4] & Hw & Hacc & Hroom & Hrefs) Hm Hd Hok Hm' Hd' Hmem Hr'.
  assert (m1 = m) as -> by congruence. assert (d1 = d) as -> by congruence.
  exists m, d. split_and!; try done; [|by rewrite Hr'].
  destruct (ok_mblk _ Hok _ _ Hm) as (d2 & Hd2 & Hb & Hl). assert (d2 = d) as -> by congruence.
  apply (has_agree (h_mem h)); [|done]. intros q Hq. apply Hmem. lia.
Qed.

Lemma filling_freed h mp t acc n i m d h' :
  heap_ok h → filling h mp t acc n → i ≠ mp → h_mblk h !! i = Some m → h_dblk h !! b_datap m = Some d →
  freed h i m d h' → filling h' mp t acc n.
Proof.
  intros Hok Hfill Hne Hm Hd Hf. pose proof Hfill as (m1 & d1 & Hm1 & Hd1 & _).
  assert (Hnd : b_datap m ≠ b_datap m1) by by apply (filling_other h mp t acc n i).
  pose proof (refs_delete _ _ _ (b_datap m1) Hm) as Hrd. rewrite decide_False, Nat.add_0_r in Hrd by done.
  pose proof (ok_lim _ _ _ (ok_dblk _ Hok _ _ Hd)) as Hlim.
  assert (Hdis : ∀ q, db_base d1 ≤ q < db_lim d1 → ¬ db_base d ≤ q < db_lim d)
    by (intros q; by apply (ok_disj _ Hok (b_datap m1) (b_datap m))).
  assert (Hgen : ∀ mb db mem fr ca, h_mblk h !! mp = mb !! mp → db !! b_datap m1 = h_dblk h !! b_datap m1 →
    (∀ q, ¬ db_base d ≤ q < db_lim d → mem !! q = h_mem h !! q) →
    refs mb (b_datap m1) = refs (h_mblk h) (b_datap m1) → filling (MkHeap mb db mem fr ca) mp t acc n).
  { intros mb db mem fr ca E1 E2 E3 E4. apply (filling_cong h _ _ _ _ _ m1 d1); simpl; try done.
    - by rewrite <- E1.
    - by rewrite E2.
    - intros q Hq. by apply E3, Hdis. }
  unfold freed in Hf. case_if_in Hf; [|destruct (db_lastfree d); [done|..]];
    subst h'; apply Hgen; simpl;
    rewrite ?lookup_delete_ne, ?lookup_insert_ne by done; try done.
  - intros q Hq. rewrite del_bytes_lookup, Z2Nat.id, decide_False by lia. done.
  - intros q Hq. rewrite del_bytes_lookup, Z2Nat.id, decide_False by lia. done.
Qed.

Lemma filling_move h mp t acc n i m m' :
  heap_ok h → filling h mp t acc n → i ≠ mp → h_mblk h !! i = Some m → b_datap m' = b_datap m →
  filling (put_mblk h i m') mp t acc n.
Proof.
  intros Hok Hfill Hne Hm E. pose proof Hfill as (m1 & d1 & Hm1 & Hd1 & _).
  apply (filling_cong h _ _ _ _ _ m1 d1); simpl; try done; [by rewrite lookup_insert_ne|].
  by apply (refs_update _ _ m).
Qed.

(** One block of the message being pulled up. *)
Lemma pull_block h mp t acc len i t' bs l :
  heap_ok h → filling h mp t acc len → chain h (Some i) ((i, t', bs) :: l) None →
  NoDup (i :: ids l) → i ≠ mp → mp ∉ ids l → 0 ≤ len →
  let k := Z.min (Z.of_nat (length bs)) len in
  ∃ b d m mem,
    get_datap h i = Ok (b, d) ∧ get_mblk h mp = Ok m ∧ b_wptr b - b_rptr b = Z.of_nat (length bs) ∧
    load_bytes (h_mem h) (b_rptr b) (Z.to_nat k) = Ok (take (Z.to_nat k) bs) ∧
    store_bytes (h_mem h) (b_wptr m) (take (Z.to_nat k) bs) = Ok mem ∧
    let h' := put_mblk (put_mblk (with_hmem h mem) mp (set_b_wptr (b_wptr m + k) m)) i
                (set_b_rptr (b_rptr b + k) b) in
    heap_ok h' ∧ filling h' mp t (acc ++ take (Z.to_nat k) bs) (len - k) ∧
    chain h' (Some i) ((i, t', drop (Z.to_nat k) bs) :: l) None ∧
    h_mblk h' !! i = Some (set_b_rptr (b_rptr b + k) b) ∧
    h_dblk h' !! b_datap b = Some d ∧ chain h' (b_cont b) l None.
Proof.
  intros Hok Hfill (_ & b & d & Hb & Hd & Ht' & Hw & Hbs & Hc) Hnd Hne Hmp Hlen k.
  apply list.NoDup_cons in Hnd as [Hil Hnd].
  assert (Hk : 0 ≤ k ≤ Z.of_nat (length bs)) by lia. assert (Hkl : k ≤ len) by lia.
  assert (Etk : Z.of_nat (length (take (Z.to_nat k) bs)) = k) by (rewrite length_take; lia).
  pose proof Hfill as (m & dm & Hm & Hdm & _).
  destruct (fill_step h mp t acc len (take (Z.to_nat k) bs) m dm Hok Hfill Hm Hdm) as
    (mem & Hs & Hok1 & Hfill1 & Hch1); [lia|]. rewrite Etk in *.
  set (h1 := put_mblk _ mp _) in *. simpl in *.
  assert (Hb1 : h_mblk h1 !! i = Some b) by (simpl; by rewrite lookup_insert_ne).
  destruct (ok_mblk _ Hok1 _ _ Hb1) as (d1 & Hd1 & Hr1 & Hw1). assert (d1 = d) as -> by (simpl in Hd1; congruence).
  exists b, d, m, mem. unfold get_datap, get_mblk, get_dblk. rewrite Hb, Hm. simpl. rewrite Hd. simpl.
  assert (Hci : chain h1 (Some i) ((i, t', bs) :: l) None).
  { apply Hch1; [|simpl; intros [->|?]%list_elem_of_In; [done|by apply Hmp, list_elem_of_In]].
    split; [done|]. by exists b, d. }
  destruct Hci as (_ & b2 & d2 & Hb2 & Hd2 & _ & Hw2 & Hbs2 & Hc2). assert (b2 = b) as -> by congruence.
  assert (Hc' : chain (put_mblk h1 i (set_b_rptr (b_rptr b + k) b)) (b_cont b) l None) by by apply chain_frame.
  split_and!; try done; [lia| | | | |].
  - rewrite <- (take_drop (Z.to_nat k) bs) in Hbs. apply has_app in Hbs as [Hbs _].
    pose proof (load_has _ _ _ Hbs) as El. replace (length (take (Z.to_nat k) bs)) with (Z.to_nat k) in El by lia. done.
  - apply (heap_ok_mblk _ _ b _ d); simpl; try done; lia.
  - by apply (filling_move _ _ _ _ _ _ b).
  - exists (set_b_rptr (b_rptr b + k) b), d. simpl. rewrite lookup_insert_eq.
    split_and!; try done; [rewrite length_drop; lia|].
    rewrite <- (take_drop (Z.to_nat k) bs) in Hbs2. apply has_app in Hbs2 as [_ Hbs2]. simpl in Hbs2.
    by rewrite Etk in Hbs2.
  - simpl. by rewrite lookup_insert_eq.
Qed.

(** Using up the block: the rest of the message stays, the block goes. *)
Lemma pull_free h mp t acc len i b d l :
  heap_ok h → filling h mp t acc len → h_mblk h !! i = Some b → h_dblk h !! b_datap b = Some d →
  chain h (b_cont b) l None → i ∉ ids l → i ≠ mp →
  ∃ h', freeb h i = Ok h' ∧ heap_ok h' ∧ filling h' mp t acc len ∧ chain h' (b_cont b) l None.
Proof.
  intros Hok Hfill Hb Hd Hc Hi Hne. destruct (freeb_spec h i b d Hok Hb Hd) as (h' & E & Hok' & Hf).
  exists h'. split_and!; try done.
  - by apply (filling_freed h _ _ _ _ i b d).
  - by apply (freed_chain h i b d).
Qed.

Lemma pullup_loop_spec n h mp t acc len i t' bs l :
  heap_ok h → filling h mp t acc len → chain h (Some i) ((i, t', bs) :: l) None →
  NoDup (i :: ids l) → i ≠ mp → mp ∉ ids l → 0 ≤ len ≤ total ((i, t', bs) :: l) →
  (length l ≤ n)%nat →
  ∃ tl h' got rest, pullup_loop n h mp i len = Ok (tl, h') ∧ heap_ok h' ∧
    filling h' mp t (acc ++ got) 0 ∧ chain h' tl rest None ∧ NoDup (ids rest) ∧ mp ∉ ids rest ∧
    got ++ bytes_of rest = bs ++ bytes_of l ∧ Z.of_nat (length got) = len.
Proof.
  revert n h acc len i t' bs. induction l as [|[[i2 t2] bs2] l IH];
    intros n h acc len i t' bs Hok Hfill Hc Hnd Hne Hmp Hlen Hn; rewrite total_cons in Hlen;
    destruct (pull_block _ _ _ _ _ _ _ _ _ Hok Hfill Hc Hnd Hne Hmp ltac:(lia)) as
      (b & d & m & mem & E1 & E2 & E3 & E4 & E5 & Hok' & Hfill' & Hc' & Hb' & Hd' & Hcc);
    apply list.NoDup_cons in Hnd as [Hil Hnd];
    set (k := Z.min (Z.of_nat (length bs)) len) in *;
    set (h1 := put_mblk (put_mblk _ _ _) _ _) in *;
    (assert (E : pullup_loop n h mp i len =
      (if negb (b_rptr b + k =? b_wptr b) then Ok (Some i, h1)
      else h' ← freeb h1 i;
        match b_cont b, n with
        | None, _ => Ok (None, h')
        | Some bp, O => if len - k =? 0 then Ok (Some bp, h') else Fault
        | Some bp, S n => if len - k =? 0 then Ok (Some bp, h') else pullup_loop n h' mp bp (len - k)
        end));
      [destruct n; simpl; rewrite E1; simpl; rewrite E2; simpl; rewrite E3; fold k; rewrite E4; simpl;
        rewrite E5; done|]); rewrite E; clear E;
    (destruct (Z.eqb_spec (b_rptr b + k) (b_wptr b)) as [Ek|Ek]; simpl;
      [|eexists _, _, (take (Z.to_nat k) bs), (_ :: _);
        split_and!; [done|done| |exact Hc'| | | |];
        [assert (len - k = 0) as <- by lia; done|by apply list.NoDup_cons
        |by apply not_elem_of_cons|
        unfold bytes_of; simpl; by rewrite app_assoc, take_drop|rewrite length_take; lia]]);
    destruct (pull_free _ _ _ _ _ _ _ _ _ Hok' Hfill' Hb' Hd' Hcc Hil Hne) as (h2 & -> & Hok2 & Hfill2 & Hc2);
    simpl; rewrite (take_ge bs) in Hfill2 by lia.
  - change (b_cont b = None) in Hc2. rewrite Hc2. change (total []) with 0 in Hlen.
    exists None, h2, bs, []. assert (len - k = 0) as E by lia. rewrite E in Hfill2.
    split_and!; try done; first [lia | by constructor].
  - pose proof Hc2 as [Hcont _]. change (b_cont b = Some i2) in Hcont. rewrite Hcont in *.
    change (chain h2 (b_cont b) ((i2, t2, bs2) :: l) None) in Hc2. rewrite Hcont in Hc2.
    destruct n as [|n]; [simpl in Hn; lia|].
    destruct (Z.eqb_spec (len - k) 0) as [E|E].
    + exists (Some i2), h2, bs, ((i2, t2, bs2) :: l). rewrite E in Hfill2.
      split_and!; try done. lia.
    + simpl in Hil, Hmp, Hnd. apply not_elem_of_cons in Hil as [_ Hil]. apply not_elem_of_cons in Hmp as [Hmp2 Hmp].
      destruct (IH n h2 (acc ++ bs) (len - k) i2 t2 bs2) as (tl & h' & got & rest & ER & ? & Hf & ? & ? & ? & Hby & Hgl);
        try done; [lia|simpl in Hn; lia|].
      exists tl, h', (bs ++ got), rest. rewrite <- app_assoc in Hf. split_and!; try done.
      * rewrite <- app_assoc, Hby. done.
      * rewrite length_app. lia.
Qed.

(** ** Exchanging the data of two blocks *)

Lemma refs_replace mb i m m' k :
  mb !! i = Some m →
  (refs (<[i := m']> mb) k + (if decide (b_datap m = k) then 1 else 0) =
    refs mb k + (if decide (b_datap m' = k) then 1 else 0))%nat.
Proof.
  intros Hi. rewrite <- insert_delete_eq, refs_insert by apply lookup_delete_eq.
  rewrite (refs_delete mb i m k Hi). lia.
Qed.

Lemma heap_wf_swap h i j mi mj mi' mj' dj :
  heap_wf h → h_mblk h !! i = Some mi → h_mblk h !! j = Some mj → i ≠ j →
  b_datap mi' = b_datap mj → h_dblk h !! b_datap mj = Some dj → db_base dj ≤ b_rptr mi' ≤ b_wptr mi' → b_wptr mi' ≤ db_lim dj →
  b_datap mj' = b_datap mi → b_rptr mj' = b_rptr mi → b_wptr mj' = b_wptr mi →
  heap_wf (put_mblk (put_mblk h j mj') i mi').
Proof.
  intros [Hm Hd Hdj] Hi Hj Hne E1 Edj E2 E3 E4 E5 E6. split; simpl; [| |done].
  - intros x mx Hx. apply lookup_insert_Some in Hx as [[<- <-]|[_ Hx]].
    + exists dj. by rewrite E1.
    + apply lookup_insert_Some in Hx as [[<- <-]|[_ Hx]]; [|by apply (Hm x)].
      rewrite E4, E5, E6. by apply (Hm i).
  - intros k dk Hk.
    assert (Hrefs : refs (<[i := mi']> (<[j := mj']> (h_mblk h))) k = refs (h_mblk h) k).
    { pose proof (refs_replace (<[j := mj']> (h_mblk h)) i mi mi' k) as R1.
      rewrite lookup_insert_ne in R1 by done. specialize (R1 Hi).
      pose proof (refs_replace (h_mblk h) j mj mj' k Hj) as R2. rewrite E1 in R1. rewrite E4 in R2. lia. }
    destruct (Hd _ _ Hk). split; simpl; rewrite ?Hrefs; auto.
Qed.

(** The heap after [swap_blocks]: [mp] has the data block of [bp] and [bp] that of [mp]. *)
Definition swapped (h : heap) (mp bp : Z) (m b : mblk) (md d : dblk) : heap :=
  put_dblk
    (put_mblk (put_mblk (put_dblk h (b_datap b) (set_db_mblk mp (set_db_type (db_type md) d))) bp m)
       mp (MkMblk (b_cont m) (db_base d) (db_base d) (b_datap b) (b_band m) (b_flag m)))
    (b_datap m) (set_db_mblk bp md).

Lemma swap_blocks_ok h mp bp m b md d :
  heap_ok h → get_datap h mp = Ok (m, md) → get_datap h bp = Ok (b, d) → bp ≠ mp → b_datap m ≠ b_datap b →
  swap_blocks h mp bp = Ok (swapped h mp bp m b md d) ∧ heap_ok (swapped h mp bp m b md d).
Proof.
  intros Hok Em Eb Hne Hd. unfold get_datap, get_mblk, get_dblk in Em, Eb.
  apply bind_ok in Em as (m' & Hm%deref_ok & Em). apply bind_ok in Em as (md' & Hmd%deref_ok & [= -> ->]).
  apply bind_ok in Eb as (b' & Hb%deref_ok & Eb). apply bind_ok in Eb as (d' & Hbd%deref_ok & [= -> ->]).
  unfold swap_blocks, get_datap, get_mblk, get_dblk. rewrite Hb, Hm. cbn [deref mbind res_bind]. rewrite Hbd, Hmd. cbn [deref mbind res_bind].
  unfold put_mblk, put_dblk, with_mblk, with_dblk. cbn [h_dblk h_mblk]. rewrite lookup_insert_ne, Hmd by done. cbn [deref mbind res_bind].
  split; [done|]. split.
  - assert (Hwf : heap_wf (put_dblk (put_dblk h (b_datap b) (set_db_mblk mp (set_db_type (db_type md) d))) (b_datap m) (set_db_mblk bp md))).
    { apply (heap_wf_retag (put_dblk h (b_datap b) _) _ md); simpl; try done; [|by rewrite lookup_insert_ne|by left].
      apply (heap_wf_retag h _ d); simpl; try done; [apply Hok|by left]. }
    pose proof (ok_lim _ _ _ (ok_dblk _ Hok _ _ Hbd)) as Hlim.
    apply (heap_wf_swap _ mp bp m b (MkMblk (b_cont m) (db_base d) (db_base d) (b_datap b) (b_band m) (b_flag m)) m
      (set_db_mblk mp (set_db_type (db_type md) d)) Hwf); simpl; try done; try lia.
    by rewrite lookup_insert_ne, lookup_insert_eq by done.
  - intros i x dx Hi Hx Hf. simpl in *. apply lookup_insert_Some in Hi as [[<- <-]|[Hi1 Hi]]; simpl in Hx.
    { rewrite lookup_insert_ne, lookup_insert_eq in Hx by done. by simplify_eq. }
    apply lookup_insert_Some in Hi as [[<- <-]|[Hi2 Hi]]; [rewrite lookup_insert_eq in Hx; by simplify_eq|].
    apply lookup_insert_Some in Hx as [[E <-]|[Hx1 Hx]]; simpl in *.
    + exfalso. apply Hi1. rewrite <- (ok_att _ Hok mp m md Hm Hmd Hf). eapply (ok_att _ Hok i x md); [done|by rewrite <- E|done].
    + apply lookup_insert_Some in Hx as [[E <-]|[Hx2 Hx]]; simpl in *; [|by eapply (ok_att _ Hok)].
      exfalso. apply Hi2. rewrite <- (ok_att _ Hok bp b d Hb Hbd Hf). eapply (ok_att _ Hok i x d); [done|by rewrite <- E|done].
Qed.

(** An allocation leaves the messages there are. *)
Lemma alloced_chain h size bp h' mp l tl :
  0 ≤ size → alloced h size bp h' → chain h mp l tl → chain h' mp l tl ∧ bp ∉ ids l.
Proof.
  intros Hs (dbp & base & n & fn & frtn & c & -> & _ & Hn & _ & _ & _ & _ & Hm & Hd & Hfree & _) Hc.
  assert (Hni : bp ∉ ids l).
  { intros Hi. destruct (chain_in _ _ _ _ _ Hc Hi) as [m Hm']. congruence. }
  split; [|done]. apply (chain_cong h); simpl; [done|..].
  - intros j Hj. apply lookup_insert_ne. by intros <-.
  - intros j d Hj. exists d. rewrite lookup_insert_ne; [done|congruence].
  - intros q b Hq. rewrite add_bytes_lookup by lia. case_decide; [|done]. by rewrite Hfree in Hq.
Qed.

(** The heap [pullupmsg] works on. *)
Lemma swapped_ok h size mp bp t bs l h1 :
  heap_ok h → 0 ≤ size → alloced h size bp h1 → msg h (Some mp) ((mp, t, bs) :: l) →
  ∃ m d h2, swap_blocks h1 mp bp = Ok h2 ∧ heap_ok h2 ∧ filling h2 mp t [] size ∧ chain h2 (Some bp) ((bp, t, bs) :: l) None ∧
    NoDup (bp :: ids l) ∧ bp ≠ mp ∧ mp ∉ ids l ∧ (4 | db_base d) ∧
    h_mblk h1 !! mp = Some m ∧
    (∀ i, is_Some (h_mblk h !! i) → is_Some (h_mblk h2 !! i)).
Proof.
  intros Hok Hs Hal [Hc Hnd]. pose proof (alloced_ok _ _ _ _ Hok Hs Hal) as Hok1.
  destruct (alloced_chain _ _ _ _ _ _ _ Hs Hal Hc) as [Hc1 Hbp].
  destruct Hal as (dbp & base & n & fn & frtn & c & Eh1 & Hfn & Hn & _ & H4 & _ & _ & Hfb & Hfd & _).
  destruct Hc1 as (_ & m & md & Hm & Hmd & Ht & Hw & Hbs & Hcl).
  assert (Hne : bp ≠ mp) by (intros ->; apply Hbp, list_elem_of_here).
  simpl in Hnd, Hbp. apply list.NoDup_cons in Hnd as [Hmp Hnd]. apply not_elem_of_cons in Hbp as [_ Hbp].
  set (b := MkMblk None base base dbp 0 0). set (d := MkDblk base (base + n) 1 M_DATA 0 bp fn fn frtn c).
  assert (Hb : h_mblk h1 !! bp = Some b) by (rewrite Eh1; apply lookup_insert_eq).
  assert (Hd : h_dblk h1 !! dbp = Some d) by (rewrite Eh1; apply lookup_insert_eq).
  assert (Hold : ∀ j mj, j ≠ bp → h_mblk h1 !! j = Some mj → b_datap mj ≠ dbp).
  { intros j mj Hj Hmj. destruct (ok_mblk _ Hok j mj) as (d0 & Hd0 & _); [|congruence].
    rewrite Eh1 in Hmj. simpl in Hmj. by rewrite lookup_insert_ne in Hmj. }
  assert (Hmb : b_datap m ≠ dbp) by by apply (Hold mp).
  destruct (swap_blocks_ok h1 mp bp m b md d Hok1) as [Esw Hok2]; [| |done|done|].
  { unfold get_datap, get_mblk, get_dblk. rewrite Hm. cbn [deref mbind res_bind]. by rewrite Hmd. }
  { unfold get_datap, get_mblk, get_dblk. rewrite Hb. cbn [deref mbind res_bind b_datap b]. by rewrite Hd. }
  exists m, d. set (h2 := swapped h1 mp bp m b md d) in *. exists h2.
  assert (Hrefs : refs (h_mblk h2) dbp = 1%nat).
  { assert (R : refs (h_mblk h1) dbp = 1%nat) by (apply (ok_once _ _ _ (ok_dblk _ Hok1 _ _ Hd)); done).
    pose proof (refs_replace (<[bp := m]> (h_mblk h1)) mp m (MkMblk (b_cont m) base base dbp (b_band m) (b_flag m)) dbp) as R1.
    rewrite lookup_insert_ne in R1 by done. specialize (R1 Hm).
    pose proof (refs_replace (h_mblk h1) bp b m dbp Hb) as R2. simpl in *.
    rewrite decide_False in R1, R2 by done. rewrite decide_True in R1, R2 by done. lia. }
  split; [exact Esw|]. split; [exact Hok2|]. split; [|split; [|split; [by apply list.NoDup_cons|split; [done|split; [done|split; [done|split; [done|]]]]]]].
  - exists (MkMblk (b_cont m) base base dbp (b_band m) (b_flag m)), (set_db_mblk mp (set_db_type (db_type md) d)).
    simpl. rewrite lookup_insert_eq, lookup_insert_ne, lookup_insert_eq by done.
    split_and!; try first [done|apply has_nil|simpl; lia].
  - split; [done|]. exists m, (set_db_mblk bp md). simpl.
    rewrite lookup_insert_ne, !lookup_insert_eq by done. split_and!; try done.
    apply (chain_mem h1); simpl; [done|..].
    + intros j Hj. by rewrite !lookup_insert_ne by (intros ->; done).
    + intros j m' d0 Hj Hm' Hd0. split; [|done].
      assert (Hnj : b_datap m' ≠ dbp) by (apply (Hold j); [by intros ->|done]).
      destruct (decide (b_datap m = b_datap m')) as [E|?].
      * rewrite <- E, lookup_insert_eq. eexists. split; [done|]. simpl. congruence.
      * rewrite !lookup_insert_ne by done. by exists d0.
  - intros i Hi. simpl. destruct (decide (i = mp)) as [->|?]; [rewrite lookup_insert_eq; by eexists|].
    rewrite lookup_insert_ne by done. destruct (decide (i = bp)) as [->|?]; [rewrite lookup_insert_eq; by eexists|].
    rewrite lookup_insert_ne by done. rewrite Eh1. simpl. by rewrite lookup_insert_ne.
Qed.

End props.

(** The largest key, or 0. *)
Definition top {A} (m : gmap Z A) : Z := map_fold (λ k _ acc, Z.max k acc) 0 m.

Lemma top_spec {A} (m : gmap Z A) : 0 ≤ top m ∧ ∀ k, is_Some (m !! k) → k ≤ top m.
Proof.
  unfold top. apply (map_fold_weak_ind (λ r m, 0 ≤ r ∧ ∀ k, is_Some (m !! k) → k ≤ r)).
  - split; [done|]. intros k [x Hx]. by rewrite lookup_empty in Hx.
  - intros k x m' r _ [Hr IH]. split; [lia|]. intros j Hj. destruct (decide (j = k)) as [->|Hne]; [lia|].
    rewrite lookup_insert_ne in Hj by done. specialize (IH j Hj). lia.
Qed.

Lemma above_top {A} (m : gmap Z A) k : top m < k → m !! k = None.
Proof.
  intros Hk. destruct (m !! k) as [x|] eqn:E; [|done].
  pose proof (proj2 (top_spec m) k ltac:(by eexists)). lia.
Qed.

Definition new_buf (h : heap) (n : Z) : option Z :=
  let p := 4 * (top (h_mem h) / 4 + 1) in
  if (0 <=? n) && (p + n <? W31) then Some p else None.

(** An object from a cache whose constructor has just run; the rest of it is stale. *)
Definition stale (mp : Z) : dblk := MkDblk 0 0 7 7 7 mp DECREF DECREF 7 KC_ESB.
Definition stale_mblk (dbp : Z) : mblk := MkMblk (Some 7) 7 7 dbp 7 7.

(** The data block [dbp] with [n] bytes of data behind its header of [hdr] bytes. *)
Definition fresh_data (hdr dbp n mp : Z) : dblk :=
  MkDblk (dbp + hdr) (dbp + hdr + n) 7 7 7 mp LASTFREE LASTFREE 7 (KC_DATA n).

(** A data block is put behind all data blocks and bytes in use. *)
Definition new_dblk (h : heap) : Z := 32 * (Z.max (top (h_dblk h)) (top (h_mem h)) / 32 + 1).

#[export] Instance bump : Kmem := {
  sizeof_dblk := 64;
  kc_mblk h := Some (top (h_mblk h) + 1);
  kc_dblk h n :=
    let dbp := new_dblk h in
    let mp := top (h_mblk h) + 1 in
    if (0 <=? n) && (dbp + 64 + n <? W31) then Some (dbp, fresh_data 64 dbp n mp, stale_mblk dbp) else None;
  kc_esb h :=
    let dbp := new_dblk h in Some (dbp, stale (top (h_mblk h) + 1), stale_mblk dbp);
  k_alloc h n := new_buf h n
}.

Lemma new_dblk_spec h : 0 ≤ new_dblk h ∧ (4 | new_dblk h) ∧ top (h_dblk h) < new_dblk h ∧ top (h_mem h) < new_dblk h.
Proof.
  unfold new_dblk. pose proof (proj1 (top_spec (h_dblk h))). pose proof (proj1 (top_spec (h_mem h))).
  set (t := Z.max (top (h_dblk h)) (top (h_mem h))) in *. assert (0 ≤ t) by lia.
  pose proof (Z.div_mod t 32 ltac:(lia)). pose proof (Z.mod_pos_bound t 32 ltac:(lia)).
  split_and!; [lia|exists (8 * (t / 32 + 1)); lia|lia|lia].
Qed.

Lemma new_buf_spec h n p : new_buf h n = Some p → 0 < p ∧ p + n < W31 ∧ (4 | p) ∧
  ∀ q, p ≤ q < p + n → h_mem h !! q = None.
Proof.
  unfold new_buf. case_if; [|done]. prop_bool. intros [= <-].
  pose proof (proj1 (top_spec (h_mem h))).
  pose proof (Z.div_mod (top (h_mem h)) 4 ltac:(lia)).
  pose proof (Z.mod_pos_bound (top (h_mem h)) 4 ltac:(lia)).
  split_and!; [lia|done|exists (top (h_mem h) / 4 + 1); lia|].
  intros q Hq. apply above_top. lia.
Qed.

#[export] Instance bump_spec : KmemSpec.
Proof.
  split.
  - split; [simpl; lia|by exists 8].
  - simpl. intros h mp [= <-]. apply above_top. lia.
  - simpl. intros h n dbp d m. case_if; [|done]. prop_bool. intros [= <- <- <-]. pose proof (new_dblk_spec h) as (Hn0 & Hn4 & Hd & Hm).
    split; [by apply above_top|]. split; [apply above_top; simpl; lia|]. split; [done|].
    split; [unfold constructed; simpl; by rewrite bool_decide_true|]. split; [done|]. split; [done|]. split; [done|]. split; [done|].
    intros q Hq. apply above_top. lia.
  - simpl. intros h dbp d m [= <- <- <-]. pose proof (new_dblk_spec h) as (Hn0 & Hn4 & Hd & Hm).
    split; [by apply above_top|]. split; [apply above_top; simpl; lia|]. split; [done|]. split; [|done].
    unfold constructed. simpl. by rewrite bool_decide_true.
  - simpl. intros h n p. apply new_buf_spec.
Qed.

Definition no_heap : heap := MkHeap ∅ ∅ ∅ [] [].

(** ** Deciding the invariant *)

Definition mblk_okb (h : heap) (i : Z) (m : mblk) : bool :=
  match h_dblk h !! b_datap m with
  | Some d => (db_base d <=? b_rptr m) && (b_rptr m <=? b_wptr m) && (b_wptr m <=? db_lim d) &&
      (bool_decide (db_free d = DECREF) || (db_mblk d =? i))
  | None => false
  end.

Definition madeb `{Kmem} (j : Z) (d : dblk) : bool :=
  match db_cache d with
  | KC_ESB => true
  | KC_DATA n => (db_base d =? j + sizeof_dblk) && (db_lim d =? j + sizeof_dblk + n) && bool_decide (db_lastfree d = LASTFREE)
  end.

Definition dblk_okb `{Kmem} (h : heap) (j : Z) (d : dblk) : bool :=
  (db_ref d =? Z.of_nat (refs (h_mblk h) j) + refmin d) &&
  (1 <=? Z.of_nat (refs (h_mblk h) j)) && (db_ref d <=? 255) &&
  bool_decide (db_lastfree d ≠ DECREF) &&
  (bool_decide (db_free d = DECREF) ||
    (bool_decide (db_free d = db_lastfree d) && (Z.of_nat (refs (h_mblk h) j) =? 1))) &&
  (0 <=? db_base d) && (db_base d <=? db_lim d) && (db_lim d <? W32) &&
  forallb (λ q, match h_mem h !! q with Some _ => true | None => false end)
    (seqZ (db_base d) (db_lim d - db_base d)) && madeb j d.

Definition disjb (p1 p2 : Z * dblk) : bool :=
  (p1.1 =? p2.1) || (db_lim p1.2 <=? db_base p2.2) || (db_lim p2.2 <=? db_base p1.2) ||
  (db_lim p1.2 <=? db_base p1.2).

Definition heap_okb `{Kmem} (h : heap) : bool :=
  forallb (λ p, mblk_okb h p.1 p.2) (map_to_list (h_mblk h)) &&
  forallb (λ p, dblk_okb h p.1 p.2) (map_to_list (h_dblk h)) &&
  forallb (λ p1, forallb (disjb p1) (map_to_list (h_dblk h))) (map_to_list (h_dblk h)).

Lemma forallb_map {A} (f : Z * A → bool) (m : gmap Z A) k x :
  forallb f (map_to_list m) = true → m !! k = Some x → f (k, x) = true.
Proof.
  intros Hf Hk. rewrite forallb_forall in Hf. apply Hf.
  apply list_elem_of_In. by apply elem_of_map_to_list.
Qed.

Lemma heap_okb_ok `{Kmem} h : heap_okb h = true → heap_ok h.
Proof.
  unfold heap_okb. rewrite !andb_true_iff. intros [[Hbm Hbd] Hbj]. split; [split|].
  - intros i m Hm. pose proof (forallb_map _ _ _ _ Hbm Hm) as Hx. unfold mblk_okb in Hx. simpl in Hx.
    destruct (h_dblk h !! b_datap m) as [d|]; [|done]. rewrite !andb_true_iff, !Z.leb_le in Hx. exists d. tauto.
  - intros j d Hd. pose proof (forallb_map _ _ _ _ Hbd Hd) as Hx. unfold dblk_okb in Hx. simpl in Hx.
    rewrite !andb_true_iff, !Z.leb_le, !Z.eqb_eq, !Z.ltb_lt, orb_true_iff, andb_true_iff, !bool_decide_eq_true, !Z.eqb_eq in Hx.
    destruct Hx as [[[[[[[[[Hc Hr] Hm] Hl] Hf] Hb1] Hb2] Hb3] Hby] Hmd]. split; try done; try lia.
    + tauto.
    + intros Hnd. destruct Hf as [|[_ Hf]]; [done|lia].
    + intros q Hq. rewrite forallb_forall in Hby. specialize (Hby q).
      destruct (h_mem h !! q); [by eexists|]. discriminate Hby. apply list_elem_of_In, elem_of_seqZ. lia.
    + unfold made, madeb in *. destruct (db_cache d); [done|]. rewrite !andb_true_iff, !Z.eqb_eq, bool_decide_eq_true in Hmd. tauto.
  - intros j1 j2 d1 d2 q H1' H2' Hne Hq Hq'. pose proof (forallb_map _ _ _ _ Hbj H1') as Hx.
    pose proof (forallb_map _ _ _ _ Hx H2') as Hy. unfold disjb in Hy. simpl in Hy.
    rewrite !orb_true_iff, Z.eqb_eq, !Z.leb_le in Hy. lia.
  - intros i m d Hm Hd Hf. pose proof (forallb_map _ _ _ _ Hbm Hm) as Hx. unfold mblk_okb in Hx. simpl in Hx. rewrite Hd in Hx.
    rewrite !andb_true_iff, orb_true_iff, bool_decide_eq_true, Z.eqb_eq in Hx. tauto.
Qed.

(** The message at [mp], read off the heap. *)
Fixpoint reads (n : nat) (h : heap) (mp : option Z) : option (list (Z * Z * list Z)) :=
  match mp, n with
  | None, _ => Some []
  | Some _, O => None
  | Some i, S n =>
    match h_mblk h !! i with
    | Some m =>
      match h_dblk h !! b_datap m, load_bytes (h_mem h) (b_rptr m) (Z.to_nat (b_wptr m - b_rptr m)) with
      | Some d, Ok bs =>
        if b_rptr m <=? b_wptr m then
          match reads n h (b_cont m) with
          | Some l => Some ((i, db_type d, bs) :: l)
          | None => None
          end
        else None
      | _, _ => None
      end
    | None => None
    end
  end.

Lemma load_bytes_has m p n bs : load_bytes m p n = Ok bs → length bs = n ∧ has m p bs.
Proof.
  revert p bs. induction n as [|n IH]; simpl; intros p bs E.
  - simplify_eq. split; [done|apply has_nil].
  - apply bind_ok in E as (b & Hb & E). apply bind_ok in E as (bs' & E & [= <-]).
    apply IH in E as [Hl Hbs]. split; [simpl; lia|]. apply has_cons. split; [|done]. by apply deref_ok.
Qed.

Lemma reads_chain n h mp l : reads n h mp = Some l → chain h mp l None.
Proof.
  revert mp l. induction n as [|n IH]; intros [i|] l; simpl; intros E; simplify_eq; try done.
  destruct (h_mblk h !! i) as [m|] eqn:Em; [|done]. destruct (h_dblk h !! b_datap m) as [d|] eqn:Ed; [|done].
  destruct (load_bytes _ _ _) as [bs| |] eqn:Eb; try done. case_if_in E; [|done].
  destruct (reads n h (b_cont m)) as [l'|] eqn:Er; [|done]. simplify_eq.
  apply load_bytes_has in Eb as [Hl Hbs]. split; [done|]. exists m, d. split_and!; try done; [lia|].
  by apply IH.
Qed.

Lemma reads_msg n h mp l : reads n h mp = Some l → bool_decide (NoDup (ids l)) = true → msg h mp l.
Proof. intros E Hnd. split; [by apply (reads_chain n)|]. by apply bool_decide_eq_true in Hnd. Qed.

(** A message of two blocks, the first one not word-aligned. *)
Definition two_blocks : heap :=
  MkHeap {[1 := MkMblk (Some 2) 101 103 11 0 0; 2 := MkMblk None 200 203 12 0 0]}
    {[11 := MkDblk 100 104 1 0 0 1 LASTFREE_OVERSIZE LASTFREE_OVERSIZE 0 KC_ESB;
      12 := MkDblk 200 204 1 0 0 2 LASTFREE_OVERSIZE LASTFREE_OVERSIZE 0 KC_ESB]}
    (list_to_map [(100, 0); (101, 7); (102, 8); (103, 0); (200, 9); (201, 10); (202, 11); (203, 0)]) [] [].

Lemma two_blocks_ok : heap_ok two_blocks.
Proof. apply heap_okb_ok. by vm_compute. Qed.

Lemma two_blocks_msg : msg two_blocks (Some 1) [(1, 0, [7; 8]); (2, 0, [9; 10; 11])].
Proof. apply (reads_msg 3); by vm_compute. Qed.
