(* ===== verification/StrmMsg.v ===== *)
(** * What the message routines promise

    The theorems about [pullupmsg], [dupmsg], [freemsg], [linkb], [msgdsize] and
    the reference counts, each with an instance on the concrete allocator of
    StrmProps.v. *)

From S2P Require Import Prelude Strm StrmProps.

Section pullup.
Context `{KS : KmemSpec}.

#[local] Arguments pullup_loop : simpl never.
#[local] Arguments xmsgsize : simpl never.

(** The length [pullupmsg] asks for, and what it settles without copying. *)
Lemma pullup_len_spec h mp t bs l len m :
  msg h (Some mp) ((mp, t, bs) :: l) → total ((mp, t, bs) :: l) < W31 → is_s32 len →
  h_mblk h !! mp = Some m →
  let n := total (same_type t ((mp, t, bs) :: l)) in
  let want := if len =? -1 then n else len in
  match pullup_len h mp len with
  | Ok (inl v) =>
    (v = 1 ∧ b_rptr m mod 4 = 0 ∧ want ≤ Z.of_nat (length bs)) ∨ (v = 0 ∧ n < len)
  | Ok (inr k) => 0 ≤ k ≤ n ∧ want ≤ k
  | _ => False
  end.
Proof.
  intros Hmsg Hw Hlen Hm n want. pose proof Hmsg as [(_ & m' & d & Hm' & Hd & _ & Hwp & Hbs & Hc) _].
  assert (m' = m) as -> by congruence.
  assert (Hn : Z.of_nat (length bs) ≤ n ≤ total ((mp, t, bs) :: l)).
  { unfold n. simpl. rewrite Z.eqb_refl, !total_cons. pose proof (same_type_total t l).
    pose proof (total_nonneg (same_type t l)). lia. }
  unfold pullup_len, get_mblk. rewrite Hm. simpl.
  rewrite (xmsgsize_spec h mp t bs l Hmsg) by (unfold W31, W32 in *; lia). fold n. simpl.
  replace (b_wptr m - b_rptr m) with (Z.of_nat (length bs)) by lia.
  unfold want. destruct (Z.eqb_spec len (-1)) as [->|Hne].
  - destruct (bool_decide_reflect (b_cont m = None)) as [Hc0|Hc0]; simpl.
    + assert (l = []) as El by (destruct l as [|[[? ?] ?] l]; [done|simpl in Hc; destruct Hc; congruence]).
      assert (En : n = Z.of_nat (length bs)).
      { unfold n. rewrite El. simpl. rewrite Z.eqb_refl, total_cons. unfold total, bytes_of. simpl. lia. }
      destruct (Z.eqb_spec (b_rptr m mod 4) 0); simpl; [left; lia|].
      rewrite s32_small by (unfold is_s32, W31 in *; lia). lia.
    + rewrite s32_small by (unfold is_s32, W31 in *; lia). lia.
  - destruct (Z.leb_spec len (Z.of_nat (length bs))).
    + destruct (Z.eqb_spec (b_rptr m mod 4) 0); simpl; [left|]; lia.
    + rewrite u32_small by (unfold is_u32, is_s32, W31, W32 in *; lia). case_if; simpl; [right|]; lia.
Qed.

(** C33: [pullupmsg] never touches memory it does not own, and either leaves the
    heap as it is and returns 0, because the leading blocks of the type hold less
    than [len] bytes or there is no memory, or returns 1 with the same bytes in
    the message and at least [len] of them (all of the leading type when [len] is
    -1) contiguous and word-aligned in the first block.  The heap stays well-formed: counts are
    right, and every data block that is not duplicated has its message block attached, which
    [freeb] of the blocks that are used up relies on. *)
Theorem pullupmsg_spec h mp t bs l len :
  heap_ok h → msg h (Some mp) ((mp, t, bs) :: l) → total ((mp, t, bs) :: l) < W31 → is_s32 len →
  let n := total (same_type t ((mp, t, bs) :: l)) in
  ∃ r h', pullupmsg h mp len = Ok (r, h') ∧ heap_ok h' ∧
    ((r = 0 ∧ h' = h ∧ (n < len ∨ ∃ size, 0 ≤ size ≤ n ∧ (allocb h size).1 = None)) ∨
     (r = 1 ∧ ∃ m bs' l', msg h' (Some mp) ((mp, t, bs') :: l') ∧
        bs' ++ bytes_of l' = bs ++ bytes_of l ∧
        (if len =? -1 then n else len) ≤ Z.of_nat (length bs') ∧
        h_mblk h' !! mp = Some m ∧ b_rptr m mod 4 = 0)).
Proof.
  intros Hok Hmsg Hw Hlen n. pose proof Hmsg as [(_ & m & md & Hm & Hmd & Ht & Hwp & Hbs & Hc) Hnd].
  pose proof (pullup_len_spec h mp t bs l len m Hmsg Hw Hlen Hm) as Hpl. simpl in Hpl.
  fold (same_type t ((mp, t, bs) :: l)) in Hpl. change (total (if t =? t then _ else _)) with n in Hpl.
  assert (Hn : n ≤ total ((mp, t, bs) :: l)) by apply same_type_total.
  unfold pullupmsg. destruct (pullup_len h mp len) as [[v|k]| |]; [| |done..]; simpl.
  - exists v, h. split; [done|]. split; [done|]. destruct Hpl as [(-> & Hal & Hwant)|(-> & Hlt)].
    + right. split; [done|]. exists m, bs, l. done.
    + left. split_and!; auto.
  - destruct Hpl as [Hk Hwant].
    rewrite u32_small by (unfold is_u32, W31, W32 in *; lia).
    destruct (allocb h k) as [[bp|] h1] eqn:Ea.
    + apply allocb_spec in Ea; [|lia|pose proof sizeof_dblk_ok; unfold W31, W32 in *; lia].
      destruct (swapped_ok h k mp bp t bs l h1 Hok ltac:(lia) Ea Hmsg) as
        (m1 & d & h2 & -> & Hok2 & Hfill & Hc2 & Hnd2 & Hne & Hmp & H4 & Hm1 & _).
      cbn [mbind res_bind].
      assert (Hfu : (length l ≤ fuel h2)%nat).
      { pose proof (chain_fuel h2 (Some bp) ((bp, t, bs) :: l) None Hc2 Hnd2). simpl in *. lia. }
      destruct (pullup_loop_spec (fuel h2) h2 mp t [] k bp t bs l Hok2 Hfill Hc2 Hnd2 Hne Hmp ltac:(rewrite total_cons in *; lia) Hfu)
        as (tl & h3 & got & rest & -> & Hok3 & Hfill3 & Hc3 & Hnd3 & Hmp3 & Hby & Hgl).
      simpl. pose proof Hfill3 as (m3 & d3 & Hm3 & Hd3 & Ht3 & Hr3 & Hw3 & Hb3 & _).
      unfold upd_mblk, get_mblk. rewrite Hm3. simpl. simpl in Hb3, Hw3.
      destruct (ok_mblk _ Hok3 _ _ Hm3) as (d3' & Hd3' & Hr3' & Hw3'). assert (d3' = d3) as -> by congruence.
      eexists 1, _. split; [done|]. split; [by apply (heap_ok_mblk _ _ m3 _ d3)|]. right. split; [done|].
      exists (set_b_cont tl m3), got, rest. split_and!; [|done|lia| |].
      * split; [|by apply list.NoDup_cons]. split; [done|]. exists (set_b_cont tl m3), d3. simpl.
        rewrite lookup_insert_eq. split_and!; try done. by apply chain_frame.
      * simpl. by rewrite lookup_insert_eq.
      * simpl. destruct Hr3 as [-> Hal]. by apply Z.mod_divide.
    + assert (h1 = h) as -> by by apply (allocb_none _ k). exists 0, h. split; [done|]. split; [done|].
      left. split_and!; [done|done|right]. exists k. by rewrite Ea.
Qed.

End pullup.

Lemma pullupmsg_spec_witness :
  ∃ r h', pullupmsg two_blocks 1 4 = Ok (r, h') ∧ heap_ok h' ∧
    ((r = 0 ∧ h' = two_blocks ∧ (5 < 4 ∨ ∃ size, 0 ≤ size ≤ 5 ∧ (allocb two_blocks size).1 = None)) ∨
     (r = 1 ∧ ∃ m bs' l', msg h' (Some 1) ((1, 0, bs') :: l') ∧ bs' ++ bytes_of l' = [7; 8; 9; 10; 11] ∧
        4 ≤ Z.of_nat (length bs') ∧ h_mblk h' !! 1 = Some m ∧ b_rptr m mod 4 = 0)).
Proof.
  apply (pullupmsg_spec two_blocks 1 0 [7; 8] [(2, 0, [9; 10; 11])] 4).
  - exact two_blocks_ok.
  - exact two_blocks_msg.
  - by vm_compute.
  - by vm_compute.
Defined.

(** ** Duplicating *)

Section dup.
Context `{KS : KmemSpec}.

#[local] Arguments dupb : simpl never.
#[local] Arguments freeb : simpl never.

Lemma refs_two mb i o m mo :
  mb !! i = Some m → mb !! o = Some mo → i ≠ o → b_datap mo = b_datap m → (2 ≤ refs mb (b_datap m))%nat.
Proof.
  intros Hi Ho Hne E. pose proof (refs_delete _ _ _ (b_datap m) Hi) as Hr. rewrite decide_True in Hr by done.
  assert (1 ≤ refs (delete i mb) (b_datap m))%nat; [|lia].
  rewrite <- E. apply (refs_pos _ o). by rewrite lookup_delete_ne.
Qed.

(** Data blocks keep their types. *)
Definition types_kept (h h' : heap) : Prop :=
  ∀ j d, h_dblk h !! j = Some d → ∃ d', h_dblk h' !! j = Some d' ∧ db_type d' = db_type d.

Lemma types_kept_trans h1 h2 h3 : types_kept h1 h2 → types_kept h2 h3 → types_kept h1 h3.
Proof.
  intros H1 H2 j d Hj. destruct (H1 _ _ Hj) as (d2 & E2 & <-). destruct (H2 _ _ E2) as (d3 & E3 & <-).
  by exists d3.
Qed.

Lemma types_kept_put h j d d' mb mem fr ca :
  h_dblk h !! j = Some d → db_type d' = db_type d → types_kept h (MkHeap mb (<[j := d']> (h_dblk h)) mem fr ca).
Proof.
  intros Hj Ht k dk Hk. simpl. destruct (decide (j = k)) as [<-|Hne].
  - rewrite lookup_insert_eq. exists d'. split; [done|]. congruence.
  - rewrite lookup_insert_ne by done. by exists dk.
Qed.

(** Freeing a message each block of which shares its data with a block outside. *)
Lemma freemsg_dups n h mp l :
  heap_ok h → chain h mp l None → NoDup (ids l) → (length l ≤ n)%nat →
  (∀ i m, i ∈ ids l → h_mblk h !! i = Some m → ∃ o mo, o ∉ ids l ∧ h_mblk h !! o = Some mo ∧ b_datap mo = b_datap m) →
  ∃ h', freemsg_loop n h mp = Ok h' ∧ heap_ok h' ∧ h_mem h' = h_mem h ∧ types_kept h h' ∧
    (∀ j, h_mblk h' !! j = if decide (j ∈ ids l) then None else h_mblk h !! j).
Proof.
  revert h mp n. induction l as [|[[i t] bs] l IH]; intros h mp n Hok Hc Hnd Hn Hdup.
  - simpl in Hc. subst. exists h. split_and!; try done; [by destruct n|intros j d ?; by exists d].
  - destruct Hc as (-> & m & d & Em & Ed & _ & _ & _ & Hc). destruct n as [|n]; [simpl in Hn; lia|]. simpl.
    unfold get_mblk. rewrite Em. simpl. destruct (freeb_spec h i m d Hok Em Ed) as (h1 & -> & Hok1 & Hf).
    simpl. simpl in Hnd. apply list.NoDup_cons in Hnd as [Hi Hnd].
    destruct (Hdup i m) as (o & mo & Ho & Hmo & Eo); [apply list_elem_of_here|done|].
    simpl in Ho. apply not_elem_of_cons in Ho as [Hoi Ho].
    assert (H2 : (2 ≤ refs (h_mblk h) (b_datap m))%nat) by (by apply (refs_two _ i o m mo)).
    pose proof (freed_chain h i m d h1 (b_cont m) l None Hok Em Ed Hf Hc Hi) as Hc1.
    unfold freed in Hf. rewrite (proj2 (Nat.leb_le _ _) H2) in Hf.
    destruct (IH h1 (b_cont m) n Hok1 Hc1 Hnd) as (h' & E & Hok' & Hmem & Hty & Hmb); [simpl in Hn; lia| |].
    + intros j mj Hj Hmj. subst h1. simpl in *. apply lookup_delete_Some in Hmj as [Hji Hmj].
      destruct (Hdup j mj) as (o' & mo' & Ho' & Hmo' & Eo'); [by apply list_elem_of_further|done|].
      apply not_elem_of_cons in Ho' as [Hoi' Ho'].
      exists o', mo'. rewrite lookup_delete_ne by done. done.
    + exists h'. split_and!; try done.
      * rewrite Hmem. by subst.
      * apply (types_kept_trans _ h1); [|done]. subst h1. by apply (types_kept_put h _ d).
      * intros j. rewrite Hmb. subst h1. simpl. destruct (decide (j ∈ ids l)) as [Hj|Hj].
        -- rewrite decide_True; [done|]. by apply list_elem_of_further.
        -- destruct (decide (j = i)) as [->|Hji].
           ++ rewrite lookup_delete_eq, decide_True; [done|]. apply list_elem_of_here.
           ++ rewrite lookup_delete_ne, decide_False; [done| |done]. by apply not_elem_of_cons.
Qed.

(** The heap of [dupmsg] under way: [new] are the duplicates so far. *)
Record dup_inv (h0 : heap) (head : Z) (new : list (Z * Z * list Z)) (h : heap) : Prop := {
  di_ok : heap_ok h;
  di_mem : h_mem h = h_mem h0;
  di_old i : is_Some (h_mblk h0 !! i) → h_mblk h !! i = h_mblk h0 !! i;
  di_types : types_kept h0 h;
  di_new : chain h (Some head) new None;
  di_nodup : NoDup (ids new);
  di_fresh i m : i ∈ ids new → h_mblk h !! i = Some m → h_mblk h0 !! i = None ∧
    ∃ o mo, h_mblk h0 !! o = Some mo ∧ b_datap mo = b_datap m;
  di_all i : h_mblk h0 !! i = None → i ∉ ids new → h_mblk h !! i = None
}.

Lemma dup_inv_chain h0 head new h mp l tl :
  dup_inv h0 head new h → chain h0 mp l tl → chain h mp l tl.
Proof.
  intros [] Hc. apply (chain_cong h0); try done.
  - intros i Hi. apply di_old0. by eapply chain_in.
  - intros q b Hq. by rewrite di_mem0.
Qed.

Lemma dup_inv_free h0 head new h :
  dup_inv h0 head new h →
  ∃ h', freemsg h (Some head) = Ok h' ∧ heap_ok h' ∧ h_mem h' = h_mem h0 ∧ types_kept h0 h' ∧
    h_mblk h' = h_mblk h0.
Proof.
  intros []. pose proof (chain_fuel _ _ _ _ di_new0 di_nodup0) as Hf.
  destruct (freemsg_dups (fuel h) h (Some head) new) as (h' & E & Hok & Hm & Ht & Hmb);
    [done|done|done|lia| |].
  - intros i m Hi Hmi. destruct (di_fresh0 i m Hi Hmi) as (_ & o & mo & Ho & Eo). exists o, mo.
    split_and!; [|rewrite di_old0 by (by eexists); done|done].
    intros Hin. destruct (chain_in _ _ _ _ _ di_new0 Hin) as [mx Hmx].
    destruct (di_fresh0 o mx Hin Hmx) as [Hnone _]. congruence.
  - exists h'. split_and!; try done; [by rewrite Hm|by apply (types_kept_trans _ h)|].
    apply map_eq. intros i. rewrite Hmb. destruct (h_mblk h0 !! i) as [m0|] eqn:E0.
    + assert (Hi : i ∉ ids new).
      { intros Hin. destruct (chain_in _ _ _ _ _ di_new0 Hin) as [mx Hmx].
        destruct (di_fresh0 i mx Hin Hmx) as [Hnone _]. congruence. }
      rewrite decide_False by done. rewrite di_old0; [done|by eexists].
    + case_decide; [done|]. by apply di_all0.
Qed.

(** One more block. *)
Lemma dup_inv_step h0 head new nbp t bs h c mc dc bsc :
  dup_inv h0 head (new ++ [(nbp, t, bs)]) h → h_mblk h0 !! c = Some mc → h_dblk h0 !! b_datap mc = Some dc →
  b_wptr mc = b_rptr mc + Z.of_nat (length bsc) → has (h_mem h0) (b_rptr mc) bsc →
  ∃ x h1 h2, dupb h c = Ok (x, h1) ∧ upd_mblk (set_b_cont x) h1 nbp = Ok h2 ∧
    match x with
    | None => dup_inv h0 head (new ++ [(nbp, t, bs)]) h2
    | Some nb => dup_inv h0 head ((new ++ [(nbp, t, bs)]) ++ [(nb, db_type dc, bsc)]) h2
    end.
Proof.
  intros Hinv Hc Hdc Hwc Hbsc. pose proof Hinv as [].
  assert (Hc1 : h_mblk h !! c = Some mc) by (rewrite di_old0; [done|by eexists]).
  destruct (di_types0 _ _ Hdc) as (d1 & Hd1 & Et1).
  destruct (dupb_spec h c mc d1 di_ok0 Hc1 Hd1) as (x & h1 & E & Hok1 & Hm1 & Hx).
  assert (Hin : nbp ∈ ids (new ++ [(nbp, t, bs)])).
  { unfold ids. rewrite map_app. apply elem_of_app. right. apply list_elem_of_here. }
  destruct (chain_in _ _ _ _ _ di_new0 Hin) as [mn Hmn].
  destruct (di_fresh0 _ _ Hin Hmn) as (Hn0 & on & mon & Hon & Eon).
  exists x, h1. destruct x as [nb|].
  - destruct Hx as (Hnb & Hmb & Hdb). set (nm := MkMblk _ _ _ _ _ _) in Hmb.
    set (d2 := set_db_ref _ _) in Hdb.
    assert (Hne : nb ≠ nbp) by congruence.
    assert (Hni : nb ∉ ids (new ++ [(nbp, t, bs)])).
    { intros Hi. destruct (chain_in _ _ _ _ _ di_new0 Hi). congruence. }
    assert (Hmn1 : h_mblk h1 !! nbp = Some mn) by (rewrite Hmb; by rewrite lookup_insert_ne).
    unfold upd_mblk, get_mblk. rewrite Hmn1. simpl. eexists. split; [done|]. split; [done|].
    destruct (ok_mblk _ Hok1 _ _ Hmn1) as (dn & Hdn & Hrn & Hwn).
    assert (Ht : types_kept h h1).
    { intros j d Hj. rewrite Hdb. destruct (decide (b_datap mc = j)) as [<-|Hj'].
      - rewrite lookup_insert_eq. exists d2. split; [done|]. unfold d2. simpl. congruence.
      - rewrite lookup_insert_ne by done. by exists d. }
    assert (Hc2 : chain h1 (Some head) (new ++ [(nbp, t, bs)]) None).
    { apply (chain_cong h); [done| |exact Ht|by rewrite Hm1].
      intros i Hi. rewrite Hmb, lookup_insert_ne; [done|]. by intros ->. }
    split; simpl.
    + by apply (heap_ok_mblk _ _ mn _ dn).
    + by rewrite Hm1.
    + intros i Hi. rewrite lookup_insert_ne; [|intros <-; rewrite Hn0 in Hi; by destruct Hi].
      rewrite Hmb, lookup_insert_ne; [by apply di_old0|]. intros <-.
      rewrite <- (di_old0 nb Hi) in Hi. rewrite Hnb in Hi. by destruct Hi.
    + by apply (types_kept_trans _ h).
    + apply chain_app. exists (Some nb). split; [by apply (chain_relink h1 _ _ _ _ _ _ None)|].
      split; [done|]. exists nm, d2. simpl. rewrite lookup_insert_ne, Hmb, lookup_insert_eq by done.
      rewrite Hdb, lookup_insert_eq. split_and!; try done.
      rewrite Hm1, di_mem0. done.
    + unfold ids. rewrite map_app. apply list.NoDup_app. split_and!; [done| |apply NoDup_singleton].
      intros i Hi Hi2. apply list_elem_of_singleton in Hi2 as ->. done.
    + intros i m Hi Hmi. unfold ids in Hi. rewrite map_app in Hi. apply elem_of_app in Hi as [Hi|Hi].
      * destruct (decide (i = nbp)) as [->|Hin2].
        -- rewrite lookup_insert_eq in Hmi. simplify_eq. split; [done|]. by exists on, mon.
        -- rewrite lookup_insert_ne in Hmi by done. rewrite Hmb, lookup_insert_ne in Hmi by (intros ->; done).
           by apply di_fresh0.
      * apply list_elem_of_singleton in Hi as ->. simpl in Hmi.
        rewrite lookup_insert_ne, Hmb, lookup_insert_eq in Hmi by done. simplify_eq. simpl. split; [|by exists c, mc].
        destruct (h_mblk h0 !! nb) eqn:E0; [|done]. rewrite <- (di_old0 nb) in E0; [congruence|by eexists].
    + intros i Hi Hi2. unfold ids in Hi2. rewrite map_app in Hi2. apply not_elem_of_app in Hi2 as [Hi2 Hi3].
      rewrite lookup_insert_ne by (intros <-; done).
      rewrite Hmb, lookup_insert_ne; [by apply di_all0|]. intros <-. apply Hi3, list_elem_of_here.
  - subst h1. unfold upd_mblk, get_mblk. rewrite Hmn. simpl. eexists. split; [done|]. split; [done|].
    assert (Ec : set_b_cont None mn = mn).
    { apply chain_app in di_new0 as (mid & _ & (_ & m' & _ & Em' & _ & _ & _ & _ & Ec)).
      assert (m' = mn) as -> by congruence. destruct mn. simpl in *. by subst. }
    rewrite Ec. replace (put_mblk h nbp mn) with h; [done|].
    destruct h. unfold put_mblk, with_mblk. simpl in *. by rewrite insert_id.
Qed.

(** What is left of the original, block by block. *)
Lemma dup_rest_spec n h0 head new nbp t bs h c mc l :
  dup_inv h0 head (new ++ [(nbp, t, bs)]) h → h_mblk h0 !! c = Some mc → chain h0 (b_cont mc) l None →
  (length l ≤ n)%nat →
  ∃ ok h' new', dup_rest dupb n h nbp c = Ok (ok, h') ∧ dup_inv h0 head new' h' ∧
    (ok = true → map (λ b, (b.1.2, b.2)) new' = map (λ b, (b.1.2, b.2)) ((new ++ [(nbp, t, bs)]) ++ l)).
Proof.
  revert n new nbp t bs h c mc. induction l as [|[[i ti] bi] l IH]; intros n new nbp t bs h c mc Hinv Hc Hch Hn.
  - exists true, h, (new ++ [(nbp, t, bs)]). rewrite app_nil_r. split_and!; try done.
    simpl in Hch. destruct n; simpl; unfold get_mblk; rewrite (di_old _ _ _ _ Hinv) by (by eexists);
      rewrite Hc; simpl; by rewrite Hch.
  - destruct Hch as (Ec & mi & di & Hmi & Hdi & Hti & Hwi & Hbi & Hch). destruct n as [|n]; [simpl in Hn; lia|].
    destruct (dup_inv_step h0 head new nbp t bs h i mi di bi Hinv Hmi Hdi Hwi Hbi) as (x & h1 & h2 & E1 & E2 & Hx).
    simpl. unfold get_mblk at 1. rewrite (di_old _ _ _ _ Hinv) by (by eexists). rewrite Hc. simpl. rewrite Ec.
    rewrite E1. simpl. rewrite E2. simpl. destruct x as [nb|].
    + destruct (IH n (new ++ [(nbp, t, bs)]) nb (db_type di) bi h2 i mi Hx Hmi Hch) as (ok & h' & new' & E & Hinv' & Heq);
        [simpl in Hn; lia|]. exists ok, h', new'. split_and!; try done. intros Hok. rewrite (Heq Hok).
      rewrite !map_app, <- !app_assoc. simpl. by rewrite Hti.
    + by exists false, h2, (new ++ [(nbp, t, bs)]).
Qed.

(** [dupmsg] either returns a message with the blocks' types and bytes in the
    same order, made of new blocks that share the data (memory is not written),
    or, when it cannot have a block, NULL with every block it had made freed; the
    original message stays what it was. *)
Theorem dupmsg_spec h bp l :
  heap_ok h → msg h bp l →
  ∃ r h', dupmsg h bp = Ok (r, h') ∧ heap_ok h' ∧ msg h' bp l ∧ h_mem h' = h_mem h ∧
    match r with
    | Some head => ∃ l', msg h' (Some head) l' ∧ map (λ b, (b.1.2, b.2)) l' = map (λ b, (b.1.2, b.2)) l ∧
        Forall (λ i, h_mblk h !! i = None) (ids l')
    | None => h_mblk h' = h_mblk h
    end.
Proof.
  intros Hok [Hc Hnd]. unfold dupmsg, dup_msg_with. destruct bp as [bp|]; [|by exists None, h].
  destruct l as [|[[i t] bs] l]; [done|]. pose proof Hc as ([= <-] & m & d & Hm & Hd & Ht & Hw & Hb & Hcl).
  destruct (dupb_spec h bp m d Hok Hm Hd) as (x & h1 & -> & Hok1 & Hm1 & Hx). cbn [mbind res_bind].
  destruct x as [head|]; [|subst h1; by exists None, h]. cbn [mbind res_bind].
  destruct Hx as (Hh & Hmb & Hdb). set (nm := MkMblk _ _ _ _ _ _) in Hmb. set (d2 := set_db_ref _ _) in Hdb.
  assert (Hinv : dup_inv h head ([] ++ [(head, t, bs)]) h1).
  { split; try done.
    - intros j Hj. rewrite Hmb, lookup_insert_ne; [done|]. intros <-. rewrite Hh in Hj. by destruct Hj.
    - intros j dj Hj. rewrite Hdb. destruct (decide (b_datap m = j)) as [<-|Hne].
      + rewrite lookup_insert_eq. exists d2. split; [done|]. unfold d2. simpl. congruence.
      + rewrite lookup_insert_ne by done. by exists dj.
    - simpl. split; [done|]. exists nm, d2. rewrite Hmb, Hdb, !lookup_insert_eq, Hm1. split_and!; done.
    - apply NoDup_singleton.
    - intros j mj Hj Hmj. apply list_elem_of_singleton in Hj as ->. simpl in *. split; [done|].
      rewrite Hmb, lookup_insert_eq in Hmj. simplify_eq. by exists bp, m.
    - intros j Hj Hj2. rewrite Hmb, lookup_insert_ne; [done|]. intros <-. apply Hj2, list_elem_of_here. }
  assert (Hfu : (length l ≤ fuel h)%nat) by (pose proof (chain_fuel h _ _ None Hc Hnd); simpl in *; lia).
  destruct (dup_rest_spec (fuel h) h head [] head t bs h1 bp m l Hinv Hm Hcl Hfu) as (ok & h2 & new & -> & Hinv2 & Heq).
  cbn [mbind res_bind]. destruct ok.
  - exists (Some head), h2. pose proof (dup_inv_chain _ _ _ _ _ _ _ Hinv2 Hc). destruct Hinv2.
    split_and!; try done. exists new. split_and!; [done|by apply Heq|].
    apply Forall_forall. intros j Hj. apply list_elem_of_In in Hj.
    destruct (chain_in _ _ _ _ _ di_new0 Hj) as [mj Hmj]. by destruct (di_fresh0 _ _ Hj Hmj).
  - destruct (dup_inv_free _ _ _ _ Hinv2) as (h3 & -> & Hok3 & Hm3 & Ht3 & Hmb3). simpl.
    exists None, h3. split_and!; try done. split; [|done].
    apply (chain_cong h); [done|..]; [intros; by rewrite Hmb3|done|by rewrite Hm3].
Qed.

End dup.

Lemma dupmsg_spec_witness :
  ∃ r h', dupmsg two_blocks (Some 1) = Ok (r, h') ∧ heap_ok h' ∧
    msg h' (Some 1) [(1, 0, [7; 8]); (2, 0, [9; 10; 11])] ∧ h_mem h' = h_mem two_blocks ∧
    match r with
    | Some head => ∃ l', msg h' (Some head) l' ∧
        map (λ b, (b.1.2, b.2)) l' = [(0, [7; 8]); (0, [9; 10; 11])] ∧
        Forall (λ i, h_mblk two_blocks !! i = None) (ids l')
    | None => h_mblk h' = h_mblk two_blocks
    end.
Proof. apply (dupmsg_spec two_blocks (Some 1)); [exact two_blocks_ok|exact two_blocks_msg]. Defined.

(** ** Linking *)

Section link.
Context `{KS : KmemSpec}.

(** [linkb] makes of two messages one with the blocks of both in order; its
    [msgdsize] is the number of bytes of the data blocks of both, and [freemsg]
    releases the blocks of the whole without touching any other message block. *)
Theorem linkb_joins h mp bp l1 l2 :
  heap_ok h → msg h (Some mp) l1 → msg h (Some bp) l2 → ids l1 ## ids l2 → total (l1 ++ l2) < W32 →
  ∃ h' h'', linkb h mp bp = Ok h' ∧ msg h' (Some mp) (l1 ++ l2) ∧
    msgdsize h' (Some mp) = Ok (total (filter (λ b : Z * Z * list Z, b.1.2 = M_DATA) (l1 ++ l2))) ∧
    freemsg h' (Some mp) = Ok h'' ∧ heap_ok h'' ∧
    (∀ j, j ∉ ids (l1 ++ l2) → h_mblk h'' !! j = h_mblk h !! j).
Proof.
  intros Hok H1 H2 Hdis Hw.
  assert (Hne : l1 ≠ []) by (intros ->; by destruct H1).
  destruct (linkb_chain h mp bp l1 l2 H1 Hne H2 Hdis) as (h' & E & Hmsg).
  assert (Hupd : ∃ i, i ∈ ids l1 ∧ upd_mblk (set_b_cont (Some bp)) h i = Ok h').
  { unfold linkb in E. destruct (unsnoc l1) as [[l [[i t] bs]]|] eqn:Eu; [|by apply unsnoc_None in Eu].
    apply unsnoc_Some in Eu. subst l1. exists i. split.
    - unfold ids. rewrite map_app. apply elem_of_app. right. apply list_elem_of_here.
    - destruct H1 as [H1 N1]. rewrite (last_blk_spec h i t bs l None mp H1 eq_refl) in E; [done|].
      pose proof (chain_fuel _ _ _ _ H1 N1) as Hf. rewrite length_app in Hf. lia. }
  destruct Hupd as (i & Hi & Eu). unfold upd_mblk, get_mblk in Eu. apply bind_ok in Eu as (m & Hm & [= <-]).
  apply deref_ok in Hm. destruct (ok_mblk _ Hok _ _ Hm) as (d & Hd & Hr & Hwp).
  assert (Hok' : heap_ok (put_mblk h i (set_b_cont (Some bp) m))) by by apply (heap_ok_mblk _ _ m _ d).
  destruct Hmsg as [Hc Hnd]. pose proof (chain_fuel _ _ _ _ Hc Hnd) as Hf.
  destruct (freemsg_loop_spec (fuel (put_mblk h i (set_b_cont (Some bp) m))) _ (Some mp) _ Hok' Hc Hnd ltac:(lia))
    as (h'' & E2 & Hok'' & Hrest).
  eexists _, h''. split_and!; try done.
  - unfold msgdsize. rewrite (msgdsize_loop_spec _ _ _ (l1 ++ l2) 0); [done|done|lia|lia|lia].
  - intros j Hj. rewrite Hrest by done. simpl. apply lookup_insert_ne. intros <-.
    apply Hj. unfold ids. rewrite map_app. apply elem_of_app. by left.
Qed.

End link.

(** Two one-block messages. *)
Definition two_msgs : heap :=
  MkHeap {[1 := MkMblk None 101 103 11 0 0; 2 := MkMblk None 200 203 12 0 0]} (h_dblk two_blocks)
    (h_mem two_blocks) [] [].

Lemma linkb_joins_witness :
  ∃ h' h'', linkb two_msgs 1 2 = Ok h' ∧ msg h' (Some 1) [(1, 0, [7; 8]); (2, 0, [9; 10; 11])] ∧
    msgdsize h' (Some 1) = Ok 5 ∧ freemsg h' (Some 1) = Ok h'' ∧ heap_ok h''.
Proof.
  destruct (linkb_joins two_msgs 1 2 [(1, 0, [7; 8])] [(2, 0, [9; 10; 11])])
    as (h' & h'' & E & Hm & Hs & Hf & Hok & _).
  - apply heap_okb_ok. by vm_compute.
  - apply (reads_msg 2); by vm_compute.
  - apply (reads_msg 2); by vm_compute.
  - unfold ids. simpl. intros x Hx1 Hx2. apply list_elem_of_singleton in Hx1, Hx2. lia.
  - by vm_compute.
  - by exists h', h''.
Defined.

(** ** [msgpullup] when blocks run out *)

(** The allocator with the cache of message blocks empty. *)
Definition starved : Kmem := {|
  sizeof_dblk := @sizeof_dblk bump;
  kc_mblk _ := None;
  kc_dblk := @kc_dblk bump;
  kc_esb := @kc_esb bump;
  k_alloc := @k_alloc bump
|}.

(** A data block followed by one of another type. *)
Definition mixed : heap :=
  MkHeap (h_mblk two_blocks) (<[12 := MkDblk 200 204 1 1 0 2 LASTFREE_OVERSIZE LASTFREE_OVERSIZE 0 KC_ESB]> (h_dblk two_blocks))
    (h_mem two_blocks) [] [].

(** When [dupmsg] of the blocks after the leading ones fails, [msgpullup] does
    not fail: it returns the copy of the leading blocks alone, so that the rest of
    the message is lost. *)
Theorem msgpullup_drops_rest :
  msg mixed (Some 1) [(1, 0, [7; 8]); (2, 1, [9; 10; 11])] ∧
  (∃ nb h', @msgpullup bump mixed 1 (-1) = Ok (Some nb, h') ∧
    reads 9 h' (Some nb) = Some [(nb, 0, [7; 8]); (nb + 1, 1, [9; 10; 11])]) ∧
  (∃ nb h', @msgpullup starved mixed 1 (-1) = Ok (Some nb, h') ∧
    reads 9 h' (Some nb) = Some [(nb, 0, [7; 8])]).
Proof.
  split; [apply (reads_msg 3); by vm_compute|].
  split; eexists _, _; (split; [vm_compute; reflexivity|by vm_compute]).
Qed.
