(* ===== verification/StrmRefs.v ===== *)
(** * Reference counts, buffers and the free routines of STREAMS blocks

    The operations on message blocks as a step relation on heaps, its invariant,
    and the theorems on allocation and on the release of the last reference. *)

From S2P Require Import Prelude Strm StrmProps.

Section refs.
Context `{KS : KmemSpec}.

#[local] Arguments dupb : simpl never.
#[local] Arguments freeb : simpl never.
#[local] Arguments allocb : simpl never.

(** ** The blocks waiting for their free routine *)

(** The block is queued by [freebs_enqueue]: it is the only reference left. *)
Definition queued (h : heap) (mp : Z) : Prop :=
  ∃ m d, h_mblk h !! mp = Some m ∧ h_dblk h !! b_datap m = Some d ∧ refs (h_mblk h) (b_datap m) = 1%nat ∧ db_free d ≠ DECREF.

Record strm_ok (h : heap) : Prop := {
  so_heap : heap_ok h;
  so_queue mp : mp ∈ h_freebs h → queued h mp;
  so_nodup : NoDup (h_freebs h)
}.

(** A block in use: allocated and not given to [freeb]. *)
Definition in_use (h : heap) (mp : Z) : Prop := is_Some (h_mblk h !! mp) ∧ mp ∉ h_freebs h.

(** The buffer that a caller of [esballoc] brings: bytes there are, of no other data block. *)
Definition own_buffer (h : heap) (base size : Z) : Prop :=
  0 ≤ base ∧ 0 ≤ size ∧ base + size < W32 ∧
  ∀ q, base ≤ q < base + size → is_Some (h_mem h !! q) ∧ ∀ j d, h_dblk h !! j = Some d → ¬ db_base d ≤ q < db_lim d.

(** The steps: the calls on blocks in use, what callers do themselves to a block (move its
    pointers within its buffer, set its link, band, flags and type) and to bytes, and the
    callback thread.  [st_swap] is the exchange that [pullupmsg] makes after [allocb]. *)
Inductive strm_step (h : heap) : heap → Prop :=
  | st_allocb size r h' :
      0 ≤ size → sizeof_dblk - 1 + size < W32 → allocb h size = (r, h') → strm_step h h'
  | st_esballoc base size (unsafe : bool) frp r h' :
      own_buffer h base size →
      esballoc h base size unsafe frp = (r, h') ∨ desballoc h base size frp = (r, h') ∨
      esballoca h base size frp = (r, h') ∨ desballoca h base size frp = (r, h') → strm_step h h'
  | st_dupb mp r h' : in_use h mp → dupb h mp = Ok (r, h') → strm_step h h'
  | st_freeb mp h' : in_use h mp → freeb h mp = Ok h' → strm_step h h'
  | st_copyb bp m d r h' :
      in_use h bp → get_datap h bp = Ok (m, d) → sizeof_dblk + (db_lim d - db_base d) + 3 < W32 →
      copyb h bp = Ok (r, h') → strm_step h h'
  | st_swap mp bp m b md d h' :
      in_use h mp → in_use h bp → bp ≠ mp → get_datap h mp = Ok (m, md) → get_datap h bp = Ok (b, d) → b_datap m ≠ b_datap b →
      swap_blocks h mp bp = Ok h' → strm_step h h'
  | st_linkb mp bp h' : linkb h mp bp = Ok h' → strm_step h h'
  | st_unlinkb bp r h' : unlinkb h bp = Ok (r, h') → strm_step h h'
  | st_rmvb mp bp r h' : rmvb h mp bp = Ok (r, h') → strm_step h h'
  | st_block mp m d cont r w band flag :
      in_use h mp → get_datap h mp = Ok (m, d) → db_base d ≤ r ≤ w → w ≤ db_lim d →
      strm_step h (put_mblk h mp (MkMblk cont r w (b_datap m) band flag))
  | st_type mp m d type :
      in_use h mp → get_datap h mp = Ok (m, d) → strm_step h (put_dblk h (b_datap m) (set_db_type type d))
  | st_write p bs mem : store_bytes (h_mem h) p bs = Ok mem → strm_step h (with_hmem h mem)
  | st_freebs h' : freebs_round h = Ok h' → strm_step h h'.

Lemma get_datap_ok h mp m d : get_datap h mp = Ok (m, d) → h_mblk h !! mp = Some m ∧ h_dblk h !! b_datap m = Some d.
Proof.
  unfold get_datap, get_mblk, get_dblk. intros E. apply bind_ok in E as (m' & Hm%deref_ok & E).
  by apply bind_ok in E as (d' & Hd%deref_ok & [= -> ->]).
Qed.

(** Blocks that change in place, their data blocks' counts the same. *)
Lemma queued_upd h mp i m m' :
  h_mblk h !! i = Some m → b_datap m' = b_datap m → queued h mp → queued (put_mblk h i m') mp.
Proof.
  intros Hi E (mq & d & Hq & Hd & Hr & Hf). unfold queued. simpl.
  destruct (decide (mp = i)) as [->|Hne].
  - assert (mq = m) as -> by congruence. exists m', d. rewrite lookup_insert_eq, E.
    split_and!; try done. by rewrite (refs_update _ _ m).
  - exists mq, d. rewrite lookup_insert_ne by done. split_and!; try done. by rewrite (refs_update _ _ m).
Qed.

Lemma strm_ok_link h i h' v : strm_ok h → upd_mblk (set_b_cont v) h i = Ok h' → strm_ok h'.
Proof.
  intros [Hok Hq Hnd] E. unfold upd_mblk, get_mblk in E. apply bind_ok in E as (m & Hm & [= <-]).
  apply deref_ok in Hm. destruct (ok_mblk _ Hok _ _ Hm) as (d & Hd & Hr & Hw). split; simpl; [|intros mp Hmp|done].
  - by apply (heap_ok_mblk _ _ m _ d).
  - apply (queued_upd _ _ _ m); auto.
Qed.

Lemma strm_ok_rmvb n h mp bp tmp lastp r h' : strm_ok h → rmvb_loop n h mp bp tmp lastp = Ok (r, h') → strm_ok h'.
Proof.
  revert tmp lastp. induction n as [|n IH]; intros tmp lastp Hs E; (destruct tmp as [tmp|]; [|by simplify_eq/=]); [done|]. cbn [rmvb_loop] in E.
  apply bind_ok in E as (t & _ & E). case_if_in E; [|by eapply IH]. destruct lastp as [l|].
  - apply bind_ok in E as (h1 & E1 & E). apply bind_ok in E as (h2 & E2 & [= _ <-]). eapply strm_ok_link; [|exact E2]. by eapply strm_ok_link.
  - apply bind_ok in E as (h1 & E1 & [= _ <-]). by eapply strm_ok_link.
Qed.

(** A block of one's own is changed in place. *)
Lemma strm_ok_block h mp m d m' : strm_ok h → h_mblk h !! mp = Some m → h_dblk h !! b_datap m = Some d → b_datap m' = b_datap m →
  db_base d ≤ b_rptr m' ≤ b_wptr m' → b_wptr m' ≤ db_lim d → strm_ok (put_mblk h mp m').
Proof.
  intros [Hok Hq Hnd] Hm Hd E Hr Hw. split; simpl; [by apply (heap_ok_mblk _ _ m _ d)| |done].
  intros q Hin. apply (queued_upd _ _ _ m); auto.
Qed.

Lemma strm_ok_write h p bs mem : strm_ok h → store_bytes (h_mem h) p bs = Ok mem → strm_ok (with_hmem h mem).
Proof. intros [Hok Hq Hnd] E. split; [|exact Hq|done]. apply heap_ok_mem; [done|]. intros q. by apply (store_dom _ _ _ _ _ E). Qed.

(** A new block with a new data block. *)
Lemma queued_new h mp i j m d mem :
  queued h mp → h_mblk h !! i = None → h_dblk h !! j = None → b_datap m = j →
  queued (put_mblk (put_dblk (with_hmem h mem) j d) i m) mp.
Proof.
  intros (mq & dq & Hq & Hdq & Hr & Hf) Hi Hj E. exists mq, dq. simpl.
  assert (b_datap mq ≠ j) by congruence. assert (i ≠ mp) by congruence.
  rewrite !lookup_insert_ne by done. split_and!; try done.
  rewrite refs_insert by done. rewrite decide_False by congruence. lia.
Qed.

(** Queued blocks have data blocks of their own. *)
Lemma queued_other h mp q m : heap_ok h → in_use h mp → q ∈ h_freebs h → queued h q →
  h_mblk h !! mp = Some m →
  ∃ mq d, h_mblk h !! q = Some mq ∧ h_dblk h !! b_datap mq = Some d ∧
    refs (h_mblk h) (b_datap mq) = 1%nat ∧ db_free d ≠ DECREF ∧ b_datap mq ≠ b_datap m ∧ q ≠ mp.
Proof.
  intros Hok [_ Hni] Hin (mq & d & Hq & Hd & Hr & Hf) Hm. exists mq, d.
  assert (Hne : q ≠ mp) by (by intros ->). split_and!; try done. intros E.
  apply Hne. symmetry. by apply (refs_unique (h_mblk h) q mp mq m).
Qed.

Lemma strm_ok_type h mp m d type : strm_ok h → in_use h mp → h_mblk h !! mp = Some m → h_dblk h !! b_datap m = Some d →
  strm_ok (put_dblk h (b_datap m) (set_db_type type d)).
Proof.
  intros [Hok Hq Hnd] Hu Hm Hd. split; simpl; [| |done].
  - apply (heap_ok_retag h _ d); try done; [by left|]. intros Hf i x Hi E. apply (ok_att _ Hok i x d); [done|by rewrite E|done].
  - intros q Hin. destruct (queued_other h mp q m Hok Hu Hin (Hq q Hin) Hm) as (mq & dq & Hmq & Hdq & Hr1 & Hf & Hne & Hqp).
    exists mq, dq. simpl. by rewrite lookup_insert_ne.
Qed.

Lemma strm_ok_alloced h size mp h' : strm_ok h → 0 ≤ size → alloced h size mp h' → strm_ok h' ∧ in_use h' mp.
Proof.
  intros [Hok Hq Hnd] Hs Ha. pose proof (alloced_ok _ _ _ _ Hok Hs Ha) as Hok'.
  destruct Ha as (dbp & b & n & fn & frtn & c & -> & _ & _ & _ & _ & _ & _ & Hm & Hd & _). split; [split; simpl; [done| |done]|].
  - intros q Hin. apply queued_new; auto.
  - split; simpl; [rewrite lookup_insert_eq; by eexists|]. intros Hin. destruct (Hq mp Hin) as (mq & _ & Hmq & _). congruence.
Qed.

Lemma strm_ok_dupb h mp r h' : strm_ok h → in_use h mp → dupb h mp = Ok (r, h') → strm_ok h'.
Proof.
  intros [Hok Hq Hnd] Hu E. pose proof Hu as [[m Hm] _].
  destruct (ok_mblk _ Hok _ _ Hm) as (d & Hd & _).
  destruct (dupb_spec h mp m d Hok Hm Hd) as (r' & h1 & E' & Hok1 & Hmem & Hr).
  assert (r' = r ∧ h1 = h') as [-> ->] by (rewrite E in E'; by simplify_eq).
  assert (Hf : h_freebs h' = h_freebs h).
  { unfold dupb, get_datap, get_mblk, get_dblk in E. rewrite Hm in E. simpl in E. rewrite Hd in E. simpl in E.
    repeat case_match; simplify_eq; done. }
  destruct r as [new|]; [|by subst]. destruct Hr as (Hn & Hmb & Hdb). split; rewrite ?Hf; try done.
  intros q Hin. destruct (queued_other h mp q m Hok Hu Hin (Hq q Hin) Hm) as (mq & dq & Hmq & Hdq & Hr1 & Hfr & Hne & Hqp).
  exists mq, dq. rewrite Hmb, Hdb, !lookup_insert_ne by congruence. split_and!; try done.
  rewrite refs_insert, decide_False by (simpl; congruence). lia.
Qed.

Lemma strm_ok_freeb h mp h' : strm_ok h → in_use h mp → freeb h mp = Ok h' → strm_ok h'.
Proof.
  intros [Hok Hq Hnd] Hu E. pose proof Hu as [[m Hm] Hni].
  destruct (ok_mblk _ Hok _ _ Hm) as (d & Hd & _).
  destruct (freeb_spec h mp m d Hok Hm Hd) as (h1 & E' & Hok1 & Hf).
  assert (h1 = h') as -> by (rewrite E in E'; by simplify_eq).
  assert (Hkeep : ∀ mb db mem fr ca, mb = delete mp (h_mblk h) →
    (∀ j, j ≠ b_datap m → db !! j = h_dblk h !! j) → 
    ∀ q, q ∈ h_freebs h → queued (MkHeap mb db mem fr ca) q).
  { intros mb db mem fr ca -> Hdb q Hin.
    destruct (queued_other h mp q m Hok Hu Hin (Hq q Hin) Hm) as (mq & dq & Hmq & Hdq & Hr1 & Hfr & Hne & Hqp).
    exists mq, dq. simpl. rewrite lookup_delete_ne, Hdb by done. split_and!; try done.
    pose proof (refs_delete _ _ _ (b_datap mq) Hm) as Hrd. rewrite decide_False in Hrd by done. lia. }
  unfold freed in Hf. case_if_in Hf.
  - subst h'. split; simpl; [done| |done]. apply Hkeep; [done|]. intros j Hj. simpl. by rewrite lookup_insert_ne.
  - apply Nat.leb_gt in Heqb. pose proof (ok_lastfree _ _ _ (ok_dblk _ Hok _ _ Hd)) as Hlf. destruct (db_lastfree d) eqn:El; [done|..];
      [subst h'; split; simpl; [done| |done]; apply Hkeep; [done|]; intros j Hj; simpl; by rewrite lookup_delete_ne..|].
    subst h'. split; simpl; [done| |by apply list.NoDup_cons].
    intros q Hin. apply elem_of_cons in Hin as [->|Hin].
    + exists m, (last_ref mp d). simpl. rewrite lookup_insert_eq. split_and!; try done; [|by rewrite El].
      pose proof (refs_pos _ _ _ Hm). lia.
    + destruct (queued_other h mp q m Hok Hu Hin (Hq q Hin) Hm) as (mq & dq & Hmq & Hdq & Hr1 & Hfr & Hne & Hqp).
      exists mq, dq. simpl. by rewrite lookup_insert_ne.
Qed.

Lemma freebs_round_spec h mp rest :
  strm_ok h → h_freebs h = mp :: rest →
  ∃ m d, h_mblk h !! mp = Some m ∧ h_dblk h !! b_datap m = Some d ∧
    freebs_round h = Ok (MkHeap (delete mp (h_mblk h)) (delete (b_datap m) (h_dblk h)) (h_mem h) rest
      (db_frtn d :: h_called h)).
Proof.
  intros [Hok Hq Hnd] E. destruct (Hq mp) as (m & d & Hm & Hd & Hr & Hf); [rewrite E; apply list_elem_of_here|].
  exists m, d. split_and!; try done. unfold freebs_round, get_datap, get_mblk, get_dblk.
  rewrite E, Hm. cbn [deref mbind res_bind]. rewrite Hd. cbn [deref mbind res_bind].
  pose proof (ok_att _ Hok _ _ _ Hm Hd Hf) as Ha. unfold assert_attached. rewrite Ha, Z.eqb_refl. cbn [mbind res_bind].
  pose proof (ok_dblk _ Hok _ _ Hd) as Hdok. rewrite (dblk_release_spec _ mp m d); try done; [by apply (ok_made _ _ _ Hdok)|].
  by destruct (ok_free _ _ _ Hdok).
Qed.

Lemma strm_ok_freebs h h' : strm_ok h → freebs_round h = Ok h' → strm_ok h'.
Proof.
  intros Hs E. destruct (h_freebs h) as [|mp rest] eqn:Ef.
  - unfold freebs_round in E. rewrite Ef in E. by simplify_eq.
  - destruct (freebs_round_spec h mp rest Hs Ef) as (m & d & Hm & Hd & E').
    rewrite E in E'. simplify_eq.
    destruct Hs as [Hok Hq Hnd]. rewrite Ef in Hnd. apply list.NoDup_cons in Hnd as [Hni Hnd].
    destruct (Hq mp) as (m' & d' & Hm' & Hd' & Hr & _); [rewrite Ef; apply list_elem_of_here|].
    assert (m' = m) as -> by congruence. split; simpl; [by apply (heap_ok_release h mp m d)| |done].
    intros q Hin. destruct (Hq q) as (mq & dq & Hmq & Hdq & Hr1 & Hf1); [rewrite Ef; by apply list_elem_of_further|].
    assert (Hqp : q ≠ mp) by (by intros ->).
    assert (Hne : b_datap m ≠ b_datap mq).
    { intros Eq. apply Hqp. symmetry. by apply (refs_unique (h_mblk h) q mp mq m). }
    exists mq, dq. simpl. rewrite !lookup_delete_ne by done. split_and!; try done.
    pose proof (refs_delete _ _ _ (b_datap mq) Hm) as Hrd. rewrite decide_False in Hrd by done. lia.
Qed.

Lemma strm_ok_gesballoc h base size ref flags frp lastfree r h' :
  strm_ok h → own_buffer h base size → (∀ d, refmin (set_rtfu ref M_DATA flags d) = ref - 1) → lastfree ≠ DECREF →
  gesballoc h base size ref flags frp lastfree = (r, h') → strm_ok h'.
Proof.
  intros Hs (Hb & Hsz & Htop & Hown) Href Hlf E. unfold gesballoc in E.
  destruct (kc_esb h) as [[[dbp d] m]|] eqn:Ek; [|by simplify_eq]. apply kc_esb_fresh in Ek as (Hd & Hm & Hc & _ & Hbm). injection E as <- <-.
  destruct Hs as [Hok Hq Hnd]. assert (Eh : h = with_hmem h (h_mem h)) by (by destruct h). rewrite Eh at 1. split; simpl; [| |done].
  - apply heap_ok_new; simpl; try done; try lia.
    + unfold made. simpl. by rewrite Hc.
    + specialize (Href (MkDblk base (base + size) (db_ref d) (db_type d) (db_flags d) (db_mblk d) lastfree lastfree frp (db_cache d))). simpl in *. lia.
    + intros q Hqq. by apply Hown.
    + intros j' d' q Hj' Hqq. destruct (Hown q Hqq) as [_ Hx]. by apply (Hx j').
  - intros q Hin. apply queued_new; auto.
Qed.

Lemma strm_ok_copyb h bp m d r h' : strm_ok h → get_datap h bp = Ok (m, d) → sizeof_dblk + (db_lim d - db_base d) + 3 < W32 →
  copyb h bp = Ok (r, h') → strm_ok h'.
Proof.
  intros Hs Eg Hw E. pose proof (get_datap_ok _ _ _ _ Eg) as [Hm Hd]. pose proof (so_heap _ Hs) as Hok.
  destruct (ok_mblk _ Hok _ _ Hm) as (d0 & Hd0 & Hr1 & Hr2). assert (d0 = d) as -> by congruence.
  pose proof (Z.mod_pos_bound (db_base d) 4 ltac:(lia)) as Hmod. destruct sizeof_dblk_ok as [Hsz _].
  unfold copyb in E. rewrite Eg in E. cbn [mbind res_bind] in E. set (size := db_lim d - db_base d + db_base d mod 4) in *.
  assert (0 ≤ size) as Hsize by (unfold size; lia). rewrite u32_small in E by (unfold is_u32; lia).
  destruct (allocb h size) as [[nbp|] h1] eqn:Ea; [|apply allocb_none in Ea; by simplify_eq].
  apply allocb_spec in Ea; [|done|unfold size; lia]. destruct (strm_ok_alloced _ _ _ _ Hs Hsize Ea) as [Hs1 Hu1].
  destruct Ea as (dbp & base & n & fn & frtn & c & Eh1 & _ & Hn & _). set (nd := MkDblk base (base + n) 1 M_DATA 0 nbp fn fn frtn c) in *.
  assert (h_mblk h1 !! nbp = Some (MkMblk None base base dbp 0 0)) as Hnb by (rewrite Eh1; apply lookup_insert_eq).
  assert (h_dblk h1 !! dbp = Some nd) as Hnd by (rewrite Eh1; apply lookup_insert_eq).
  unfold get_datap, get_mblk, get_dblk in E. rewrite Hnb in E. cbn [deref mbind res_bind b_datap] in E. rewrite Hnd in E. cbn [deref mbind res_bind] in E.
  cbv zeta in E. apply bind_ok in E as (bs & _ & E). apply bind_ok in E as (mem & Est & [= _ <-]).
  eapply strm_ok_write; [|exact Est].
  apply (strm_ok_block _ _ (MkMblk None base base dbp 0 0) (set_db_type (db_type d) nd)); simpl; try done; [| |lia|lia].
  - by apply (strm_ok_type h1 nbp (MkMblk None base base dbp 0 0) nd).
  - apply lookup_insert_eq.
Qed.

Lemma strm_ok_swap h mp bp m b md d h' : strm_ok h → in_use h mp → in_use h bp → bp ≠ mp →
  get_datap h mp = Ok (m, md) → get_datap h bp = Ok (b, d) → b_datap m ≠ b_datap b → swap_blocks h mp bp = Ok h' → strm_ok h'.
Proof.
  intros [Hok Hq Hnd] Hu Hub Hne Em Eb Hd E. destruct (swap_blocks_ok h mp bp m b md d Hok Em Eb Hne Hd) as [E' Hok'].
  rewrite E' in E. injection E as <-. apply get_datap_ok in Em as [Hm Hmd], Eb as [Hb Hbd]. split; [done| |done].
  intros q Hin. simpl in Hin. destruct (queued_other h mp q m Hok Hu Hin (Hq q Hin) Hm) as (mq & dq & Hmq & Hdq & Hr1 & Hf & Hn1 & Hqp).
  destruct (queued_other h bp q b Hok Hub Hin (Hq q Hin) Hb) as (mq' & _ & Hmq' & _ & _ & _ & Hn2 & Hqb). assert (mq' = mq) as -> by congruence.
  exists mq, dq. simpl. rewrite !lookup_insert_ne by done. split_and!; try done. rewrite <- Hr1.
  pose proof (refs_replace (<[bp := m]> (h_mblk h)) mp m (MkMblk (b_cont m) (db_base d) (db_base d) (b_datap b) (b_band m) (b_flag m)) (b_datap mq)) as R1.
  rewrite lookup_insert_ne in R1 by done. specialize (R1 Hm). pose proof (refs_replace (h_mblk h) bp b m (b_datap mq) Hb) as R2. simpl in *.
  rewrite !decide_False in R1, R2 by done. lia.
Qed.

Lemma strm_step_ok h h' : strm_ok h → strm_step h h' → strm_ok h'.
Proof.
  intros Hs Hst. pose proof Hs as [Hok Hq Hnd].
  destruct Hst as [size r h' Hs0 Hw E|base size unsafe frp r h' Hown E|mp r h' Hu E|mp h' Hu E|bp m d r h' Hu Eg Hw E|mp bp m b md d h' Hu Hub Hne Em Eb Hd E
    |mp bp h' E|bp r h' E|mp bp r h' E|mp m d cont r w band flag Hu Eg Hr Hw|mp m d type Hu Eg|p bs mem E|h' E].
  - destruct r as [mp|]; [|apply allocb_none in E; by subst]. apply allocb_spec in E; [|done..]. by apply (strm_ok_alloced h size mp).
  - destruct E as [E|[E|[E|E]]]; (eapply strm_ok_gesballoc; [exact Hs|exact Hown| | |exact E]); try done; intros d; unfold refmin; simpl; by destruct unsafe.
  - by apply (strm_ok_dupb h mp r).
  - by apply (strm_ok_freeb h mp).
  - by apply (strm_ok_copyb h bp m d r).
  - by apply (strm_ok_swap h mp bp m b md d).
  - unfold linkb in E. apply bind_ok in E as (i & _ & E). by apply (strm_ok_link h i _ (Some bp)).
  - unfold unlinkb in E. apply bind_ok in E as (m & Hm & [= <- <-]).
    apply (strm_ok_link h bp _ None); [done|]. unfold upd_mblk. by rewrite Hm.
  - by eapply strm_ok_rmvb.
  - apply get_datap_ok in Eg as [Hm Hdm]. by apply (strm_ok_block h mp m d).
  - apply get_datap_ok in Eg as [Hm Hdm]. by apply (strm_ok_type h mp m d).
  - by apply (strm_ok_write h p bs).
  - by apply (strm_ok_freebs h).
Qed.

(** C35: Take any run of [allocb], the four flavours of [esballoc] (with a buffer of the
    caller's), [dupb], [copyb] and [freeb] of blocks in use, [linkb], [unlinkb], [rmvb], the exchange
    of [pullupmsg], the callback thread, and what callers do themselves: move the
    pointers of a block in use within its buffer, set its link, band, flags or type, and write
    bytes of buffers.  ([freemsg], [dupmsg] and the other routines of whole messages, which are made
    of these, are not steps of their own.)  The sizes asked for must leave room for the header below 2^32.  Then every block in
    use has its data block and its buffer; the count of a data block is the number of message blocks that
    refer to it, one more for a buffer of [esballoca] and [desballoca]; a data block that is not
    duplicated has the block that refers to it attached ([db_mblk]); and [dupb], [freeb] and the
    callback thread return: no stale pointer is followed, no assertion fails, and a data
    block goes back to its cache with a message block attached, as it was constructed. *)
Theorem strm_refcounts h0 h :
  strm_ok h0 → rtc strm_step h0 h →
  (∀ mp, in_use h mp → ∃ m d, get_datap h mp = Ok (m, d) ∧
    db_ref d = Z.of_nat (refs (h_mblk h) (b_datap m)) + refmin d ∧
    (db_free d ≠ DECREF → db_mblk d = mp) ∧
    db_base d ≤ b_rptr m ≤ b_wptr m ∧ b_wptr m ≤ db_lim d ∧
    (∀ q, db_base d ≤ q < db_lim d → is_Some (h_mem h !! q)) ∧
    (∃ r h', dupb h mp = Ok (r, h')) ∧ (∃ h', freeb h mp = Ok h')) ∧
  (∃ h', freebs_round h = Ok h').
Proof.
  intros H0 Hr. assert (Hs : strm_ok h) by (induction Hr; eauto using strm_step_ok). split.
  - intros mp Hu. pose proof Hs as [Hok _ _]. pose proof Hu as [[m Hm] _].
    destruct (ok_mblk _ Hok _ _ Hm) as (d & Hd & Hrw & Hw). pose proof (ok_dblk _ Hok _ _ Hd) as [].
    exists m, d. split; [unfold get_datap, get_mblk, get_dblk; rewrite Hm; cbn [deref mbind res_bind]; by rewrite Hd|].
    split; [done|]. split; [by apply (ok_att _ Hok mp m)|]. split; [done|]. split; [done|]. split; [done|]. split.
    + destruct (dupb_spec h mp m d Hok Hm Hd) as (r & h' & E & _). by exists r, h'.
    + destruct (freeb_spec h mp m d Hok Hm Hd) as (h' & E & _). by exists h'.
  - destruct (h_freebs h) as [|mp rest] eqn:Ef.
    + exists h. unfold freebs_round. by rewrite Ef.
    + destruct (freebs_round_spec h mp rest Hs Ef) as (m & d & _ & _ & E). by eexists.
Qed.

(** [freeb] of one of several references only drops the reference; [freeb] of
    the last one runs the free routine of the data block exactly once: the buffer
    of [allocb] is given back, the routine of [desballoc] is called at once, and
    that of [esballoc] by the next round of the callback thread, which also frees
    the block. *)
Theorem freeb_last_reference h mp m d :
  strm_ok h → in_use h mp → get_datap h mp = Ok (m, d) →
  ∃ h1, freeb h mp = Ok h1 ∧ strm_ok h1 ∧
  if (2 <=? refs (h_mblk h) (b_datap m))%nat then
    h_mblk h1 = delete mp (h_mblk h) ∧ h_mem h1 = h_mem h ∧ h_called h1 = h_called h ∧
    h_dblk h1 = <[b_datap m := set_db_ref (db_ref d - 1) d]> (h_dblk h)
  else
    let gone := λ h', h_mblk h' = delete mp (h_mblk h) ∧ h_dblk h' = delete (b_datap m) (h_dblk h) in
    match db_lastfree d with
    | LASTFREE | LASTFREE_OVERSIZE =>
      gone h1 ∧ h_called h1 = h_called h ∧
      ∀ q, h_mem h1 !! q = if decide (db_base d ≤ q < db_lim d) then None else h_mem h !! q
    | LASTFREE_DESB => gone h1 ∧ h_called h1 = db_frtn d :: h_called h ∧ h_mem h1 = h_mem h
    | FREEBS_ENQUEUE =>
      h_called h1 = h_called h ∧
      ∃ h2, freebs_round h1 = Ok h2 ∧ gone h2 ∧ h_called h2 = db_frtn d :: h_called h ∧
        h_freebs h2 = h_freebs h ∧ h_mem h2 = h_mem h
    | DECREF => False
    end.
Proof.
  intros Hs Hu E. unfold get_datap, get_mblk, get_dblk in E. apply bind_ok in E as (m' & Hm & E).
  apply bind_ok in E as (d' & Hd & E). simplify_eq. apply deref_ok in Hm, Hd.
  destruct (freeb_spec h mp m d (so_heap _ Hs) Hm Hd) as (h1 & E & Hok1 & Hf).
  exists h1. pose proof (strm_ok_freeb h mp h1 Hs Hu E) as Hs1. split_and!; [done|done|].
  unfold freed in Hf. case_if; [by subst|].
  pose proof (ok_lim _ _ _ (ok_dblk _ (so_heap _ Hs) _ _ Hd)) as Hlim.
  destruct (db_lastfree d); [done|..]; [subst h1; simpl; split_and!; try done..|].
  - intros q. rewrite del_bytes_lookup, Z2Nat.id by lia. by rewrite Zplus_minus.
  - intros q. rewrite del_bytes_lookup, Z2Nat.id by lia. by rewrite Zplus_minus.
  - subst h1. split; [done|].
    destruct (freebs_round_spec _ mp (h_freebs h) Hs1 eq_refl) as (m1 & d1 & Hm1 & Hd1 & ->). simpl in *.
    assert (m1 = m) as -> by congruence. rewrite lookup_insert_eq in Hd1. simplify_eq.
    eexists. split; [done|]. simpl. rewrite delete_insert_eq.
    split_and!; try done.
Qed.

(** [allocb] fails without a trace or returns a block with one reference to a
    fresh, word-aligned buffer of at least [size] bytes, [b_rptr] and [b_wptr] at
    its base; this holds for every size the addition of the header does not wrap. *)
Theorem allocb_size h size :
  heap_ok h → 0 ≤ size → sizeof_dblk - 1 + size < W32 →
  (∃ mp h' m d, allocb h size = (Some mp, h') ∧ heap_ok h' ∧ h_mblk h !! mp = None ∧
    get_datap h' mp = Ok (m, d) ∧ db_ref d = 1 ∧ b_cont m = None ∧
    b_rptr m = db_base d ∧ b_wptr m = db_base d ∧ size ≤ db_lim d - db_base d ∧ (4 | db_base d) ∧
    (∀ q, db_base d ≤ q < db_lim d → h_mem h !! q = None) ∧
    (∀ q, ¬ db_base d ≤ q < db_lim d → h_mem h' !! q = h_mem h !! q)) ∨
  allocb h size = (None, h).
Proof.
  intros Hok Hs Hw. destruct (allocb h size) as [[mp|] h'] eqn:E; [left|right].
  - pose proof (allocb_spec h size mp h' Hs Hw E) as Ha.
    pose proof (alloced_ok _ _ _ _ Hok Hs Ha) as Hok'.
    destruct Ha as (dbp & b & n & fn & frtn & c & -> & Hfn & Hn & H4n & H4 & Hb & Ht & Hm & Hd & Hfree & _).
    eexists mp, _, _, _. split; [done|]. split; [done|]. split; [done|].
    unfold get_datap, get_mblk, get_dblk. simpl. rewrite lookup_insert_eq. simpl. rewrite lookup_insert_eq. simpl.
    split; [done|]. split_and!; try done; [simpl; lia|].
    intros q Hq. simpl in *. rewrite add_bytes_lookup by lia. by rewrite decide_False by done.
  - f_equal. by apply (allocb_none h size).
Qed.

End refs.

(** A heap with a block of [esballoc], one reference. *)
Definition one_esb : heap :=
  MkHeap {[1 := MkMblk None 100 100 11 0 0]}
    {[11 := MkDblk 100 104 1 0 0 1 FREEBS_ENQUEUE FREEBS_ENQUEUE 77 KC_ESB]}
    (list_to_map [(100, 0); (101, 7); (102, 8); (103, 0)]) [] [].

Lemma one_esb_ok : strm_ok one_esb.
Proof.
  split; [apply heap_okb_ok; by vm_compute| |constructor].
  intros mp Hin. by apply elem_of_nil in Hin.
Qed.

Lemma one_esb_use : in_use one_esb 1.
Proof. split; [by eexists|apply not_elem_of_nil]. Qed.

(** The block is duplicated and freed, so that the duplicate is the last reference; that is freed
    too, the callback thread runs, and a block of [allocb] is used and copied. *)
Definition after (r : res heap) : heap := match r with Ok h => h | _ => no_heap end.
Definition after_two {A} (r : res (A * heap)) : heap := match r with Ok (_, h) => h | _ => no_heap end.

Definition ex_dup : heap := after_two (dupb one_esb 1).
Definition ex_free : heap := after (freeb ex_dup 1).
Definition ex_last : heap := after (freeb ex_free 2).
Definition ex_called : heap := after (freebs_round ex_last).
Definition ex_alloc : heap := (allocb ex_called 10).2.
Definition ex_copy : heap := after_two (copyb ex_alloc 1).

#[local] Instance in_use_dec h mp : Decision (in_use h mp).
Proof. unfold in_use. apply _. Defined.

Ltac run_use := apply (bool_decide_unpack _); vm_compute; exact I.

Lemma ex_steps : rtc strm_step one_esb ex_copy.
Proof.
  apply rtc_l with ex_dup; [eapply (st_dupb _ 1); [run_use|vm_compute; reflexivity]|].
  apply rtc_l with ex_free; [eapply (st_freeb _ 1); [run_use|vm_compute; reflexivity]|].
  apply rtc_l with ex_last; [eapply (st_freeb _ 2); [run_use|vm_compute; reflexivity]|].
  apply rtc_l with ex_called; [apply st_freebs; vm_compute; reflexivity|].
  apply rtc_l with ex_alloc; [eapply (st_allocb _ 10); [lia|vm_compute; reflexivity|vm_compute; reflexivity]|].
  apply rtc_once. eapply (st_copyb _ 1); [run_use|vm_compute; reflexivity|vm_compute; reflexivity|vm_compute; reflexivity].
Qed.

Lemma strm_refcounts_witness :
  h_called ex_copy = [77] ∧ in_use ex_copy 2 ∧
    ((∀ mp, in_use ex_copy mp → ∃ m d, get_datap ex_copy mp = Ok (m, d) ∧
    db_ref d = Z.of_nat (refs (h_mblk ex_copy) (b_datap m)) + refmin d ∧
    (db_free d ≠ DECREF → db_mblk d = mp) ∧
    db_base d ≤ b_rptr m ≤ b_wptr m ∧ b_wptr m ≤ db_lim d ∧
    (∀ q, db_base d ≤ q < db_lim d → is_Some (h_mem ex_copy !! q)) ∧
    (∃ r h', dupb ex_copy mp = Ok (r, h')) ∧ (∃ h', freeb ex_copy mp = Ok h')) ∧
    (∃ h', freebs_round ex_copy = Ok h')).
Proof.
  split; [vm_compute; reflexivity|]. split; [run_use|].
  apply (strm_refcounts one_esb ex_copy one_esb_ok). exact ex_steps.
Defined.

Lemma freeb_last_reference_witness :
  ∃ h1, freeb one_esb 1 = Ok h1 ∧ strm_ok h1 ∧ h_called h1 = [] ∧
    ∃ h2, freebs_round h1 = Ok h2 ∧ h_called h2 = [77].
Proof.
  destruct (freeb_last_reference one_esb 1 (MkMblk None 100 100 11 0 0)
    (MkDblk 100 104 1 0 0 1 FREEBS_ENQUEUE FREEBS_ENQUEUE 77 KC_ESB) one_esb_ok one_esb_use eq_refl)
    as (h1 & E & Hs & Hc & h2 & E2 & _ & Hc2 & _).
  exists h1. split; [exact E|]. split; [exact Hs|]. split; [exact Hc|]. by exists h2.
Defined.

Lemma allocb_size_witness :
  ∃ mp h' m d, allocb no_heap 100 = (Some mp, h') ∧ get_datap h' mp = Ok (m, d) ∧
    100 ≤ db_lim d - db_base d.
Proof.
  destruct (allocb_size no_heap 100) as [(mp & h' & m & d & E & _ & _ & Ed & _ & _ & _ & _ & Hs & _)|E].
  - by apply heap_okb_ok.
  - done.
  - by vm_compute.
  - by exists mp, h', m, d.
  - by vm_compute in E.
Defined.

(** The size is added to that of the header in 32 bits: for a request within
    the header's size of 2^32 the sum wraps and [allocb] hands out a buffer of the
    smallest cache. *)
Theorem allocb_size_wraps :
  ∃ mp h' m d, allocb no_heap (W32 - 32) = (Some mp, h') ∧ get_datap h' mp = Ok (m, d) ∧
    db_lim d - db_base d = 32.
Proof. eexists _, _, _, _. split_and!; by vm_compute. Qed.
