(* ===== verification/XdrMblk.v ===== *)
(** * XDR on STREAMS messages (uts/common/rpc/xdr_mblk.c)

    The operations vector whose buffer is a chain of message blocks.  The handle is
    the fields of [XDR] that xdr_mblk.c uses, with the heap they point into.

    - [xb_base] is [x_base], the block the stream is at or NULL; [xb_handy] the bytes
      of it that are left; [xb_private] the size of the blocks to allocate.
    - When [allocb] has no memory [strwaitbuf] sleeps: [xb_waits] says what the other
      threads do to the heap during each sleep that ends well; with none left
      [strwaitbuf] returns an error (a signal).
    - The loops over [b_cont] have fuel, one more than there are message blocks. *)

From S2P Require Import Prelude Xdr XdrMem Strm.

Record XDRmblk := MkXDRmblk {
  xb_op : xdr_op;
  xb_base : option Z;
  xb_handy : Z;
  xb_private : Z;
  xb_heap : heap;
  xb_waits : list (heap → heap)
}.

Definition set_base (v : option Z) (s : XDRmblk) :=
  MkXDRmblk (xb_op s) v (xb_handy s) (xb_private s) (xb_heap s) (xb_waits s).
Definition set_handy (v : Z) (s : XDRmblk) :=
  MkXDRmblk (xb_op s) (xb_base s) v (xb_private s) (xb_heap s) (xb_waits s).
Definition set_heap (v : heap) (s : XDRmblk) :=
  MkXDRmblk (xb_op s) (xb_base s) (xb_handy s) (xb_private s) v (xb_waits s).

(** [m->b_wptr - m->b_rptr] and [bpsize (m)], as [int]s. *)
Definition blk_len (m : mblk) : Z := s32 (b_wptr m - b_rptr m).
Definition bpsize (d : dblk) : Z := s32 (db_lim d - db_base d).

Definition xdrmblk_init (h : heap) (waits : list (heap → heap)) (mp : Z) (op : xdr_op) (sz : Z) : res XDRmblk :=
  handy ← match op with
          | XDR_DECODE => m ← get_mblk h mp; Ok (blk_len m)
          | _ => '(_, d) ← get_datap h mp; Ok (bpsize d)
          end;
  Ok (MkXDRmblk op (Some mp) handy sz h waits).

(** ** Decoding *)

(** The next block, or the end of the message. *)
Definition next_blk (s : XDRmblk) (mp : Z) : res (option Z * XDRmblk) :=
  m ← get_mblk (xb_heap s) mp;
  match b_cont m with
  | None => Ok (None, set_handy 0 (set_base None s))
  | Some mp => m ← get_mblk (xb_heap s) mp; Ok (Some mp, set_handy (blk_len m) (set_base (Some mp) s))
  end.

(** [m->b_rptr += len]. *)
Definition move_rptr (s : XDRmblk) (mp len : Z) : res XDRmblk :=
  h ← upd_mblk (λ m, set_b_rptr (add32 (b_rptr m) len) m) (xb_heap s) mp; Ok (set_heap h s).

Fixpoint getlong_loop (n : nat) (s : XDRmblk) (mp : Z) : res (option Z * XDRmblk) :=
  let s := set_handy (s32 (xb_handy s - sizeof_long)) s in
  if xb_handy s <? 0 then
    if negb (xb_handy s =? - sizeof_long) then Ok (None, s)
    else
      '(o, s) ← next_blk s mp;
      match o, n with
      | None, _ => Ok (None, s)
      | Some _, O => Fault
      | Some mp, S n => getlong_loop n s mp
      end
  else
    m ← get_mblk (xb_heap s) mp;
    l ← load_long (h_mem (xb_heap s)) (b_rptr m);
    s ← move_rptr s mp sizeof_long;
    Ok (Some l, s).

Definition xdrmblk_getlong (s : XDRmblk) : res (option Z * XDRmblk) :=
  match xb_base s with
  | None => Ok (None, s)
  | Some mp => getlong_loop (fuel (xb_heap s)) s mp
  end.

(** The rest of a block, which [len] exceeds: [f] of its bytes, and the next block. *)
Definition pass_blk (copy : bool) (s : XDRmblk) (mp len : Z) : res (list Z * Z * option Z * XDRmblk) :=
  let handy := s32 (xb_handy s + len) in
  let s := set_handy handy s in
  '(got, len, s) ← (if 0 <? handy then
      m ← get_mblk (xb_heap s) mp;
      got ← (if copy then bcopy_from (h_mem (xb_heap s)) (b_rptr m) handy else Ok []);
      s ← move_rptr s mp handy;
      Ok (got, s32 (len - handy), s)
    else Ok ([], len, s));
  '(o, s) ← next_blk s mp;
  Ok (got, len, o, s).

(** [xdrmblk_getbytes], and without [copy] the loop of [XDR_SKIPBYTES]. *)
Fixpoint getbytes_loop (copy : bool) (n : nat) (s : XDRmblk) (mp len : Z) : res (bool * list Z * XDRmblk) :=
  let s := set_handy (s32 (xb_handy s - len)) s in
  if xb_handy s <? 0 then
    '(got, len, o, s) ← pass_blk copy s mp len;
    match o, n with
    | None, _ => Ok (false, got, s)
    | Some _, O => Fault
    | Some mp, S n => '(ok, rest, s) ← getbytes_loop copy n s mp len; Ok (ok, got ++ rest, s)
    end
  else
    m ← get_mblk (xb_heap s) mp;
    got ← (if copy then bcopy_from (h_mem (xb_heap s)) (b_rptr m) len else Ok []);
    s ← move_rptr s mp len;
    Ok (true, got, s).

Definition xdrmblk_getbytes (s : XDRmblk) (len : Z) : res (bool * list Z * XDRmblk) :=
  match xb_base s with
  | None => Ok (false, [], s)
  | Some mp => getbytes_loop true (fuel (xb_heap s)) s mp len
  end.

(** The bytes in a message. *)
Fixpoint mblk_bytes (n : nat) (h : heap) (mp : option Z) (len : Z) : res Z :=
  match mp, n with
  | None, _ => Ok len
  | Some _, O => Fault
  | Some mp, S n => m ← get_mblk h mp; mblk_bytes n h (b_cont m) (s32 (len + blk_len m))
  end.

(** The rest of the stream as a message: its length, its first block, and the stream
    at its end. *)
Definition xdrmblk_getmblk (s : XDRmblk) : res (bool * option Z * Z * XDRmblk) :=
  '(o, s) ← xdrmblk_getlong s;
  match o with
  | None => Ok (false, None, 0, s)
  | Some llen =>
    let m := xb_base s in
    len ← mblk_bytes (fuel (xb_heap s)) (xb_heap s) m 0;
    if len <? llen then Ok (false, m, u32 llen, s)
    else Ok (true, m, u32 llen, set_handy 0 (set_base None s))
  end.

(** ** Encoding *)

Section xdrmblk.
Context `{Kmem}.

(** [xdrmblk_alloc]. *)
Fixpoint alloc_loop (waits : list (heap → heap)) (h : heap) (sz : Z) : option Z * heap * list (heap → heap) :=
  match allocb h (u32 sz) with
  | (Some mp, h) => (Some mp, h, waits)
  | (None, h) =>
    match waits with
    | [] => (None, h, [])
    | w :: waits => alloc_loop waits (w h) sz
    end
  end.

Definition xdrmblk_alloc (s : XDRmblk) (sz : Z) : option Z * XDRmblk :=
  if sz =? 0 then (None, s)
  else
    let '(o, h, waits) := alloc_loop (xb_waits s) (xb_heap s) sz in
    (o, MkXDRmblk (xb_op s) (xb_base s) (xb_handy s) (xb_private s) h waits).

(** [XDRMBLK_SETHANDY]. *)
Definition XDRMBLK_SETHANDY (s : XDRmblk) (mp blen adjust : Z) : res XDRmblk :=
  '(m, d) ← get_datap (xb_heap s) mp;
  let mpsize := bpsize d in
  let m := (if Z.shiftr mpsize 1 <=? blen then
              let p := add32 (b_rptr m) (mpsize - blen) in set_b_wptr p (set_b_rptr p m)
            else m) in
  Ok (set_handy (s32 (db_lim d - b_rptr m - adjust)) (set_heap (put_mblk (xb_heap s) mp m) s)).

(** On to the next block of the message, or to a new one. *)
Definition room_blk (s : XDRmblk) (mp adjust : Z) : res (option Z * XDRmblk) :=
  m ← get_mblk (xb_heap s) mp;
  match b_cont m with
  | None =>
    let '(o, s) := xdrmblk_alloc s (xb_private s) in
    h ← upd_mblk (set_b_cont o) (xb_heap s) mp;
    let s := set_base o (set_heap h s) in
    match o with
    | None => Ok (None, set_handy 0 s)
    | Some mp => s ← XDRMBLK_SETHANDY s mp (xb_private s) adjust; Ok (Some mp, s)
    end
  | Some mp =>
    '(m, d) ← get_datap (xb_heap s) mp;
    Ok (Some mp, set_handy (s32 (db_lim d - b_rptr m - adjust)) (set_base (Some mp) s))
  end.

(** [bytes] at [m->b_wptr], which moves on. *)
Definition put_wptr (s : XDRmblk) (mp : Z) (buf : list Z) (len : Z) : res XDRmblk :=
  m ← get_mblk (xb_heap s) mp;
  mem ← bcopy_to (h_mem (xb_heap s)) (b_wptr m) buf len;
  Ok (set_heap (put_mblk (with_hmem (xb_heap s) mem) mp (set_b_wptr (add32 (b_wptr m) len) m)) s).

Definition xdrmblk_putlong (s : XDRmblk) (l : Z) : res (bool * XDRmblk) :=
  match xb_base s with
  | None => Ok (false, s)
  | Some mp =>
    let s := set_handy (s32 (xb_handy s - sizeof_long)) s in
    '(o, s) ← (if xb_handy s <? 0 then room_blk s mp sizeof_long else Ok (Some mp, s));
    match o with
    | None => Ok (false, s)
    | Some mp => s ← put_wptr s mp (be32 l) sizeof_long; Ok (true, s)
    end
  end.

(** The loop of [xdrmblk_putbytes].  Short pieces are copied a byte at a time, to the
    same effect. *)
Fixpoint putbytes_loop (n : nat) (s : XDRmblk) (mp : Z) (addr : list Z) (len : Z) : res (bool * XDRmblk) :=
  let s := set_handy (s32 (xb_handy s - len)) s in
  if xb_handy s <? 0 then
    let handy := s32 (xb_handy s + len) in
    let s := set_handy handy s in
    '(addr, len, s) ← (if 0 <? handy then
        s ← put_wptr s mp addr handy; Ok (drop (Z.to_nat handy) addr, s32 (len - handy), s)
      else Ok (addr, len, s));
    '(o, s) ← room_blk s mp 0;
    match o, n with
    | None, _ => Ok (false, s)
    | Some _, O => Fault
    | Some mp, S n => putbytes_loop n s mp addr len
    end
  else s ← put_wptr s mp addr len; Ok (true, s).

Definition xdrmblk_putbytes (s : XDRmblk) (buf : list Z) (len : Z) : res (bool * XDRmblk) :=
  match xb_base s with
  | None => Ok (false, s)
  | Some mp => putbytes_loop (fuel (xb_heap s) + Z.to_nat len) s mp buf len
  end.

(** A message of the caller becomes the rest of the stream's. *)
Definition xdrmblk_putmblk (s : XDRmblk) (mp len : Z) : res (bool * XDRmblk) :=
  m ← get_mblk (xb_heap s) mp;
  if negb (u32 (b_wptr m - b_rptr m) mod BYTES_PER_XDR_UNIT =? 0) then Ok (false, s)
  else
    '(ok, s) ← xdrmblk_putlong s (s32 len);
    if negb ok then Ok (false, s)
    else
      b ← deref (xb_base s);
      h ← upd_mblk (set_b_cont (Some mp)) (xb_heap s) b;
      Ok (true, set_handy 0 (set_base (Some mp) (set_heap h s))).

(** ** Positions *)

Definition xdrmblk_getpos (s : XDRmblk) : res Z :=
  mp ← deref (xb_base s);
  '(m, d) ← get_datap (xb_heap s) mp;
  Ok (sub32 (match xb_op s with XDR_DECODE => b_rptr m | _ => b_wptr m end) (db_base d)).

Definition xdrmblk_setpos (s : XDRmblk) (pos : Z) : res (bool * XDRmblk) :=
  match xb_base s with
  | None => Ok (false, s)
  | Some mp =>
    '(m, d) ← get_datap (xb_heap s) mp;
    let newaddr := add32 (db_base d) pos in
    match xb_op s with
    | XDR_DECODE =>
      if b_wptr m <? newaddr then Ok (false, s)
      else Ok (true, set_handy (s32 (b_wptr m - newaddr)) (set_heap (put_mblk (xb_heap s) mp (set_b_rptr newaddr m)) s))
    | _ =>
      if db_lim d <? newaddr then Ok (false, s)
      else Ok (true, set_handy (s32 (db_lim d - newaddr)) (set_heap (put_mblk (xb_heap s) mp (set_b_wptr newaddr m)) s))
    end
  end.

(** A pointer into the block, if it has [len] bytes and nobody else refers to its data. *)
Definition xdrmblk_inline (s : XDRmblk) (len : Z) : res (option Z * XDRmblk) :=
  match xb_op s with
  | XDR_FREE => Ok (None, s)
  | op =>
    if xb_handy s <? len then Ok (None, s)
    else
      match xb_base s with
      | None => Ok (None, s)
      | Some mp =>
        '(m, d) ← get_datap (xb_heap s) mp;
        if negb (db_ref d =? 1) then Ok (None, s)
        else
          let s := set_handy (s32 (xb_handy s - len)) s in
          match op with
          | XDR_DECODE =>
            Ok (Some (b_rptr m), set_heap (put_mblk (xb_heap s) mp (set_b_rptr (add32 (b_rptr m) len) m)) s)
          | _ =>
            Ok (Some (b_wptr m), set_heap (put_mblk (xb_heap s) mp (set_b_wptr (add32 (b_wptr m) len) m)) s)
          end
      end
  end.

Definition xdrmblk_control (s : XDRmblk) (request info : Z) : res (option Z * XDRmblk) :=
  if request =? XDR_PEEK then
    if u32 (xb_handy s) <? sizeof_long then Ok (None, s)
    else
      match xb_base s with
      | None => Ok (None, s)
      | Some mp =>
        m ← get_mblk (xb_heap s) mp;
        l ← load_long (h_mem (xb_heap s)) (b_rptr m);
        Ok (Some l, s)
      end
  else if request =? XDR_SKIPBYTES then
    match xb_base s with
    | None => Ok (None, s)
    | Some mp =>
      '(ok, _, s) ← getbytes_loop false (fuel (xb_heap s)) s mp (RNDUP_int info);
      Ok (if ok : bool then Some info else None, s)
    end
  else Ok (None, s).

(** [xdrmblk_ops]: the vector of the message stream. *)
#[global] Instance xdrmblk_ops : XdrOps XDRmblk := {
  x_op := xb_op;
  x_getlong := xdrmblk_getlong;
  x_putlong := xdrmblk_putlong;
  x_getbytes := xdrmblk_getbytes;
  x_putbytes := xdrmblk_putbytes;
  x_getpostn := xdrmblk_getpos;
  x_setpostn := xdrmblk_setpos;
  x_inline := xdrmblk_inline;
  x_control := xdrmblk_control;
  x_set_op s op := MkXDRmblk op (xb_base s) (xb_handy s) (xb_private s) (xb_heap s) (xb_waits s);
  x_load s p len := bcopy_from (h_mem (xb_heap s)) p len;
  x_store s p bs := m ← store_bytes (h_mem (xb_heap s)) p bs; Ok (set_heap (with_hmem (xb_heap s) m) s)
}.
End xdrmblk.
