(* ===== verification/XdrMblkProps.v ===== *)
(** * Message streams keep the promises of XDR streams

    The laws of [XdrStream] for [XDRmblk], so that every theorem about the filters and
    the RPC messages holds for messages that are chains of blocks.  Decoding works on a
    message cut anywhere between words; encoding is promised as far as the current
    block has room, and the theorems of XdrMblkThms go on to new blocks. *)

From S2P Require Import Prelude Xdr XdrCodec XdrMem Strm StrmProps XdrMblk.

Section decode.
Context `{KS : KmemSpec}.

(** ** Decoding *)

(** At the first byte of [bs], the rest of the block [i]. *)
Record reading (s : XDRmblk) (i t : Z) (bs : list Z) (ll : list (Z * Z * list Z)) : Prop := {
  rd_heap : heap_ok (xb_heap s);
  rd_base : xb_base s = Some i;
  rd_msg : msg (xb_heap s) (Some i) ((i, t, bs) :: ll);
  rd_handy : xb_handy s = Z.of_nat (length bs);
  rd_total : StrmProps.total ((i, t, bs) :: ll) < W31
}.

Definition whole (b : Z * Z * list Z) : Prop := (4 | Z.of_nat (length b.2)).

Definition m_dec (s : XDRmblk) (l : list Z) : Prop :=
  xb_op s = XDR_DECODE ∧
  ∃ i t bs ll, reading s i t bs ll ∧ Forall whole ll ∧ l = bs ++ bytes_of ll.

Lemma reading_mblk s i t bs ll : reading s i t bs ll →
  ∃ m d, h_mblk (xb_heap s) !! i = Some m ∧ h_dblk (xb_heap s) !! b_datap m = Some d ∧ db_type d = t ∧
    b_wptr m = b_rptr m + Z.of_nat (length bs) ∧ has (h_mem (xb_heap s)) (b_rptr m) bs ∧
    chain (xb_heap s) (b_cont m) ll None ∧
    0 ≤ b_rptr m ∧ b_wptr m < W32 ∧ db_base d ≤ b_rptr m ∧ b_wptr m ≤ db_lim d.
Proof.
  intros [Hok _ [(_ & m & d & Em & Ed & Et & Ew & Hb & Hc) _] _ _]. exists m, d.
  destruct (ok_mblk _ Hok _ _ Em) as (d' & Ed' & Hr & Hl). assert (d' = d) as -> by congruence.
  pose proof (ok_lim _ _ _ (ok_dblk _ Hok _ _ Ed)). split_and!; try done; lia.
Qed.

(** The first block after the bytes [a] of it are passed. *)
Lemma read_on s i t a b ll m len : reading s i t (a ++ b) ll → h_mblk (xb_heap s) !! i = Some m →
  len = Z.of_nat (length a) → ∀ s', xb_base s' = Some i → xb_handy s' = Z.of_nat (length b) →
    xb_heap s' = put_mblk (xb_heap s) i (set_b_rptr (add32 (b_rptr m) len) m) → reading s' i t b ll.
Proof.
  intros Hrd Hm -> s' Eb Ey Eh.
  destruct (reading_mblk _ _ _ _ _ Hrd) as (m' & d & Em & Ed & Et & Ew & Hb & Hc & Hr & Hw & Hdb & Hdl).
  assert (m' = m) as -> by congruence. destruct Hrd as [Hok _ [_ Hnd] _ Ht].
  rewrite length_app in Ew. apply has_app in Hb as [_ Hb].
  rewrite add32_small in Eh by lia. split; [|done| |done|].
  - rewrite Eh. apply (heap_ok_mblk _ _ m _ d); simpl; try done; lia.
  - rewrite Eh. split; [|done]. split; [done|]. exists (set_b_rptr (b_rptr m + Z.of_nat (length a)) m), d. simpl. rewrite lookup_insert_eq.
    split; [done|]. split; [done|]. split; [done|]. split; [lia|]. split; [done|].
    apply chain_frame; [done|]. by apply list.NoDup_cons in Hnd as [Hi _].
  - rewrite total_cons, length_app in Ht. rewrite total_cons. lia.
Qed.

Lemma move_rptr_eq s i len m : h_mblk (xb_heap s) !! i = Some m →
  move_rptr s i len = Ok (set_heap (put_mblk (xb_heap s) i (set_b_rptr (add32 (b_rptr m) len) m)) s).
Proof. intros Hm. unfold move_rptr, upd_mblk, get_mblk. by rewrite Hm. Qed.

Lemma reading_tail s i t bs j t' bs' ll : reading s i t bs ((j, t', bs') :: ll) →
  ∃ m m', h_mblk (xb_heap s) !! i = Some m ∧ b_cont m = Some j ∧ h_mblk (xb_heap s) !! j = Some m' ∧
    blk_len m' = Z.of_nat (length bs') ∧
    ∀ s', xb_heap s' = xb_heap s → xb_base s' = Some j → xb_handy s' = Z.of_nat (length bs') → reading s' j t' bs' ll.
Proof.
  intros Hrd. destruct (reading_mblk _ _ _ _ _ Hrd) as (m & d & Em & _ & _ & _ & _ & Hc & _).
  destruct Hrd as [Hok _ [_ Hnd] _ Ht]. rewrite total_cons in Ht. pose proof (total_nonneg ll).
  destruct Hc as [Ec (m' & d' & Em' & Ed' & Et' & Ew & Hb & Hc)].
  exists m, m'. split; [done|]. split; [done|]. split; [done|]. rewrite total_cons in Ht.
  split; [unfold blk_len; rewrite Ew, s32_small by (unfold is_s32, W31 in *; lia); lia|].
  intros s' Eh Eb Ey. split; [by rewrite Eh|done| |done|rewrite total_cons; lia].
  rewrite Eh. apply list.NoDup_cons in Hnd as [_ Hnd]. split; [|done]. split; [done|]. by exists m', d'.
Qed.

(** [next_blk] in a message. *)
Lemma next_blk_ok s i t bs ll s0 : reading s0 i t bs ll → xb_heap s = xb_heap s0 →
  match ll with
  | [] => next_blk s i = Ok (None, set_handy 0 (set_base None s))
  | (j, t', bs') :: ll =>
    next_blk s i = Ok (Some j, set_handy (Z.of_nat (length bs')) (set_base (Some j) s)) ∧
    reading (set_handy (Z.of_nat (length bs')) (set_base (Some j) s)) j t' bs' ll
  end.
Proof.
  intros Hrd Eh. unfold next_blk, get_mblk. rewrite Eh. destruct ll as [|[[j t'] bs'] ll].
  - destruct (reading_mblk _ _ _ _ _ Hrd) as (m & d & Em & _ & _ & _ & _ & Hc & _).
    rewrite Em. simpl. by rewrite Hc.
  - destruct (reading_tail _ _ _ _ _ _ _ _ Hrd) as (m & m' & Em & Ec & Em' & El & Hr).
    rewrite Em. simpl. rewrite Ec, Em'. simpl. rewrite El. split; [done|]. by apply Hr.
Qed.

Lemma bytes_units ll : Forall whole ll → units (bytes_of ll).
Proof.
  induction 1 as [|[[i t] bs] ll Hb Hll IH]; [apply units_nil|].
  unfold bytes_of. simpl. by apply units_app.
Qed.

Lemma units_app_l a b : units (a ++ b) → units b → units a.
Proof. unfold units. rewrite length_app, Nat2Z.inj_add. intros H1 H2. eapply Z.divide_add_cancel_r; [exact H2|]. by rewrite Z.add_comm. Qed.

Lemma getlong_eq n s mp : getlong_loop n s mp =
  let s := set_handy (s32 (xb_handy s - sizeof_long)) s in
  if xb_handy s <? 0 then
    if negb (xb_handy s =? - sizeof_long) then Ok (None, s)
    else
      '(o, s) ← next_blk s mp;
      match o, n with
      | None, _ => Ok (None, s)
      | Some _, O => Fault
      | Some mp, S n => getlong_loop n s mp
      end
  else
    m ← get_mblk (xb_heap s) mp;
    l ← load_long (h_mem (xb_heap s)) (b_rptr m);
    s ← move_rptr s mp sizeof_long;
    Ok (Some l, s).
Proof. by destruct n. Qed.

#[local] Arguments next_blk : simpl never.
#[local] Arguments move_rptr : simpl never.
#[local] Arguments s32 : simpl never.

(** The word is in the block. *)
Lemma getlong_here n s i t b ll v : reading s i t (be32 v ++ b) ll →
  ∃ s', getlong_loop n s i = Ok (Some (s32 v), s') ∧ reading s' i t b ll ∧ xb_op s' = xb_op s.
Proof.
  intros Hrd. destruct (reading_mblk _ _ _ _ _ Hrd) as (m & d & Em & _ & _ & _ & Hb & _).
  pose proof (rd_handy _ _ _ _ _ Hrd) as Hh. pose proof (rd_total _ _ _ _ _ Hrd) as Ht. rewrite total_cons in Ht.
  pose proof (total_nonneg ll). rewrite length_app, length_be32 in *. apply has_app in Hb as [Hb _].
  assert (s32 (xb_handy s - sizeof_long) = Z.of_nat (length b)) as Eh
    by (unfold sizeof_long; rewrite s32_small by (unfold is_s32, W31 in *; lia); lia).
  exists (set_heap (put_mblk (xb_heap s) i (set_b_rptr (add32 (b_rptr m) 4) m)) (set_handy (Z.of_nat (length b)) s)).
  split; [|split; [|done]].
  - rewrite getlong_eq, Eh. simpl. rewrite (proj2 (Z.ltb_ge _ _)) by lia.
    unfold get_mblk. rewrite Em. cbn [mbind res_bind deref]. unfold load_long.
    rewrite (load_has _ _ (be32 v) Hb : load_bytes _ _ 4 = _). cbn [mbind res_bind]. rewrite of_be32_be32.
    cbn [mbind res_bind deref]. by rewrite (move_rptr_eq _ _ _ m).
  - eapply (read_on s i t (be32 v) b ll m 4); rewrite ?length_be32; try done. apply Hrd.
Qed.

(** The block is at its end. *)
Lemma getlong_next n s i t ll : reading s i t [] ll →
  getlong_loop n s i =
    match ll with
    | [] => Ok (None, set_handy 0 (set_base None (set_handy (-4) s)))
    | (j, _, bs) :: _ =>
      match n with
      | O => Fault
      | S n => getlong_loop n (set_handy (Z.of_nat (length bs)) (set_base (Some j) (set_handy (-4) s))) j
      end
    end.
Proof.
  intros Hrd. pose proof (rd_handy _ _ _ _ _ Hrd) as Hh. change (Z.of_nat (length [])) with 0 in Hh.
  pose proof (next_blk_ok (set_handy (-4) s) i t [] ll s Hrd eq_refl) as Hn.
  rewrite getlong_eq, Hh. change (s32 (0 - sizeof_long)) with (-4). simpl.
  destruct ll as [|[[j t'] bs'] ll]; [by rewrite Hn|]. destruct Hn as [-> _]. simpl. by destruct n.
Qed.

Lemma getlong_word bs (ll : list (Z * Z * list Z)) v r : units bs → bs ≠ [] → bs ++ bytes_of ll = be32 v ++ r →
  ∃ b, bs = be32 v ++ b ∧ r = b ++ bytes_of ll.
Proof.
  intros [z Hu] Hne E. apply app_eq_inv in E as [(b & -> & ->)|(b & E & E')]; [by exists b|].
  pose proof (f_equal length E) as El. rewrite length_app, length_be32 in El.
  destruct bs as [|b0 bs]; [done|]. simpl in Hu, El. assert (length b = 0%nat) as ->%nil_length_inv by lia.
  exists []. rewrite app_nil_r in *. simpl in E'. by rewrite E, E'.
Qed.

(** Less than a word is left in the block. *)
Lemma getlong_part n s i t bs ll : reading s i t bs ll → (0 < length bs < 4)%nat →
  ∃ s', getlong_loop n s i = Ok (None, s') ∧ xb_op s' = xb_op s.
Proof.
  intros Hrd Hl. rewrite getlong_eq, (rd_handy _ _ _ _ _ Hrd).
  assert (s32 (Z.of_nat (length bs) - sizeof_long) = Z.of_nat (length bs) - 4) as ->
    by (unfold sizeof_long; rewrite s32_small by (unfold is_s32, W31; lia); lia).
  unfold sizeof_long. simpl. rewrite (proj2 (Z.ltb_lt _ _)), (proj2 (Z.eqb_neq _ _)) by lia. by eexists.
Qed.

Lemma getlong_ends n s i t b ll v : reading s i t (be32 v ++ b) ll → xb_op s = XDR_DECODE → Forall whole ll →
  ∃ s', getlong_loop n s i = Ok (Some (s32 v), s') ∧ m_dec s' (b ++ bytes_of ll).
Proof.
  intros Hrd Ho Hwh. destruct (getlong_here n s i t b ll v Hrd) as (s' & Es & Hrd' & Eo).
  exists s'. split; [done|]. split; [congruence|]. by exists i, t, b, ll.
Qed.

Lemma getlong_loop_ok n s i t bs ll v r :
  reading s i t bs ll → xb_op s = XDR_DECODE → Forall whole ll → (length ll ≤ n)%nat →
  bs ++ bytes_of ll = be32 v ++ r → units r →
  ∃ s', getlong_loop n s i = Ok (Some (s32 v), s') ∧ m_dec s' r.
Proof.
  revert s i t bs ll. induction n as [|n IH]; intros s i t bs ll Hrd Ho Hwh Hn E Hr.
  all: assert (units bs) as Hu by (apply (units_app_l bs (bytes_of ll)); [rewrite E; apply units_app; [apply units_be32|done]|by apply bytes_units]).
  all: destruct (decide (bs = [])) as [->|Hne].
  1, 3: rewrite getlong_next with (t := t) (ll := ll) by done; destruct ll as [|[[j t'] bs'] ll].
  1, 3: by apply (f_equal length) in E; rewrite !length_app, length_be32 in E.
  - simpl in Hn. lia.
  - pose proof (next_blk_ok (set_handy (-4) s) i t [] ((j, t', bs') :: ll) s Hrd eq_refl) as [_ Hrd'].
    apply Forall_cons_iff in Hwh as [_ Hwh]. simpl in Hn.
    eapply (IH _ j t' bs' ll); [exact Hrd'|done|done|lia|done|done].
  - destruct (getlong_word bs ll v r Hu Hne E) as (b & -> & ->). by apply (getlong_ends _ _ i t).
  - destruct (getlong_word bs ll v r Hu Hne E) as (b & -> & ->). by apply (getlong_ends _ _ i t).
Qed.

(** Too few bytes for a word. *)
Lemma getlong_loop_short n s i t bs ll :
  reading s i t bs ll → Forall whole ll → (length ll ≤ n)%nat → (length (bs ++ bytes_of ll) < 4)%nat →
  ∃ s', getlong_loop n s i = Ok (None, s') ∧ xb_op s' = xb_op s.
Proof.
  revert s i t bs ll. induction n as [|n IH]; intros s i t bs ll Hrd Hwh Hn Hl; rewrite length_app in Hl;
    (destruct bs as [|b0 bs];
      [rewrite getlong_next with (t := t) (ll := ll) by done; destruct ll as [|[[j t'] bs'] ll]; [by eexists|]|]).
  - simpl in Hn. lia.
  - apply (getlong_part _ s i t (b0 :: bs) ll); [done|simpl in *; lia].
  - pose proof (next_blk_ok (set_handy (-4) s) i t [] ((j, t', bs') :: ll) s Hrd eq_refl) as [_ Hrd'].
    apply Forall_cons_iff in Hwh as [_ Hwh]. simpl in Hn.
    destruct (IH _ j t' bs' ll Hrd' Hwh ltac:(lia)) as (s' & -> & Es); [exact Hl|]. by exists s'.
  - apply (getlong_part _ s i t (b0 :: bs) ll); [done|simpl in *; lia].
Qed.
(** *** Bytes *)

Lemma getbytes_eq copy n s mp len : getbytes_loop copy n s mp len =
  let s := set_handy (s32 (xb_handy s - len)) s in
  if xb_handy s <? 0 then
    '(got, len, o, s) ← pass_blk copy s mp len;
    match o, n with
    | None, _ => Ok (false, got, s)
    | Some _, O => Fault
    | Some mp, S n => '(ok, rest, s) ← getbytes_loop copy n s mp len; Ok (ok, got ++ rest, s)
    end
  else
    m ← get_mblk (xb_heap s) mp;
    got ← (if copy then bcopy_from (h_mem (xb_heap s)) (b_rptr m) len else Ok []);
    s ← move_rptr s mp len;
    Ok (true, got, s).
Proof. by destruct n. Qed.

#[local] Arguments pass_blk : simpl never.

(** What the routine copies of the bytes it passes. *)
Definition copied (copy : bool) (bs : list Z) : list Z := if copy then bs else [].

Lemma copied_app copy a b : copied copy (a ++ b) = copied copy a ++ copied copy b.
Proof. by destruct copy. Qed.

Lemma copy_bytes (copy : bool) mem p bs : has mem p bs → Z.of_nat (length bs) < W31 →
  (if copy then bcopy_from mem p (Z.of_nat (length bs)) else Ok []) = Ok (copied copy bs).
Proof. destruct copy; [apply bcopy_from_has|done]. Qed.

Lemma getbytes_here copy n s i t a b ll : reading s i t (a ++ b) ll →
  ∃ s', getbytes_loop copy n s i (Z.of_nat (length a)) = Ok (true, copied copy a, s') ∧
    reading s' i t b ll ∧ xb_op s' = xb_op s.
Proof.
  intros Hrd. destruct (reading_mblk _ _ _ _ _ Hrd) as (m & d & Em & _ & _ & _ & Hb & _).
  pose proof (rd_handy _ _ _ _ _ Hrd) as Hh. pose proof (rd_total _ _ _ _ _ Hrd) as Ht. rewrite total_cons in Ht.
  pose proof (total_nonneg ll). rewrite length_app in *. apply has_app in Hb as [Hb _].
  assert (s32 (xb_handy s - Z.of_nat (length a)) = Z.of_nat (length b)) as Eh
    by (rewrite s32_small by (unfold is_s32, W31 in *; lia); lia).
  eexists. split; [|split].
  - rewrite getbytes_eq, Eh. simpl. rewrite (proj2 (Z.ltb_ge _ _)) by lia.
    unfold get_mblk. rewrite Em. cbn [mbind res_bind deref].
    rewrite copy_bytes by (done || lia). cbn [mbind res_bind].
    rewrite (move_rptr_eq _ _ _ m) by done. cbn [mbind res_bind]. reflexivity.
  - eapply (read_on s i t a b ll m); try done. apply Hrd.
  - done.
Qed.

Lemma set_handy_twice a b s : set_handy a (set_handy b s) = set_handy a s.
Proof. done. Qed.

Lemma pass_blk_ok copy s i t bs ll len : reading s i t bs ll → Z.of_nat (length bs) < len < W31 →
  ∃ o s', pass_blk copy (set_handy (s32 (xb_handy s - len)) s) i len =
      Ok (copied copy bs, len - Z.of_nat (length bs), o, s') ∧ xb_op s' = xb_op s ∧
    match ll with
    | [] => o = None
    | (j, t', bs') :: ll => o = Some j ∧ reading s' j t' bs' ll
    end.
Proof.
  intros Hrd Hl. destruct (reading_mblk _ _ _ _ _ Hrd) as (m & d & Em & _ & _ & _ & Hb & _).
  pose proof (rd_handy _ _ _ _ _ Hrd) as Hh. unfold pass_blk. cbn [xb_handy set_handy]. rewrite Hh.
  assert (s32 (s32 (Z.of_nat (length bs) - len) + len) = Z.of_nat (length bs)) as ->.
  { rewrite (s32_small (_ - _)) by (unfold is_s32, W31 in *; lia). rewrite s32_small by (unfold is_s32, W31 in *; lia). lia. }
  assert (∃ s1, (if 0 <? Z.of_nat (length bs) then
      m ← get_mblk (xb_heap (set_handy (Z.of_nat (length bs)) s)) i;
      got ← (if copy then bcopy_from (h_mem (xb_heap (set_handy (Z.of_nat (length bs)) s))) (b_rptr m) (Z.of_nat (length bs)) else Ok []);
      s ← move_rptr (set_handy (Z.of_nat (length bs)) s) i (Z.of_nat (length bs));
      Ok (got, s32 (len - Z.of_nat (length bs)), s)
    else Ok ([], len, set_handy (Z.of_nat (length bs)) s)) = Ok (copied copy bs, len - Z.of_nat (length bs), s1) ∧
    xb_op s1 = xb_op s ∧ reading (set_handy 0 s1) i t [] ll) as (s1 & E1 & Eo & Hrd1).
  { destruct (Z.ltb_spec 0 (Z.of_nat (length bs))).
    - change (xb_heap (set_handy (Z.of_nat (length bs)) s)) with (xb_heap s). unfold get_mblk. rewrite Em.
      cbn [mbind res_bind deref]. rewrite copy_bytes by (done || lia). cbn [mbind res_bind].
      rewrite (move_rptr_eq _ _ _ m) by done. cbn [mbind res_bind]. rewrite s32_small by (unfold is_s32, W31 in *; lia).
      eexists. split; [done|]. split; [done|].
      apply (read_on s i t bs [] ll m (Z.of_nat (length bs))); rewrite ?app_nil_r; try done. apply Hrd.
    - assert (bs = []) as -> by (apply nil_length_inv; lia). exists (set_handy 0 s). split; [|split; [done|]].
      + change (Z.of_nat (length [])) with 0. rewrite Z.sub_0_r. destruct copy; reflexivity.
      + destruct Hrd as [? ? ? ? ?]. by split. }
  rewrite set_handy_twice. cbv zeta. rewrite E1. cbn [mbind res_bind].
  pose proof (next_blk_ok s1 i t [] ll (set_handy 0 s1) Hrd1 eq_refl) as Hn.
  destruct ll as [|[[j t'] bs'] ll].
  - rewrite Hn. cbn [mbind res_bind]. by do 2 eexists.
  - destruct Hn as [-> Hr]. cbn [mbind res_bind]. by do 2 eexists.
Qed.

Lemma getbytes_ends copy n s i t a b ll : reading s i t (a ++ b) ll → xb_op s = XDR_DECODE → Forall whole ll →
  ∃ s', getbytes_loop copy n s i (Z.of_nat (length a)) = Ok (true, copied copy a, s') ∧ m_dec s' (b ++ bytes_of ll).
Proof.
  intros Hrd Ho Hwh. destruct (getbytes_here copy n s i t a b ll Hrd) as (s' & Es & Hrd' & Eo).
  exists s'. split; [done|]. split; [congruence|]. by exists i, t, b, ll.
Qed.

(** Past the end of the block. *)
Lemma getbytes_on copy n s i t bs ll len : reading s i t bs ll → Z.of_nat (length bs) < len < W31 →
  ∃ s', xb_op s' = xb_op s ∧
    match ll, n with
    | [], _ => getbytes_loop copy n s i len = Ok (false, copied copy bs, s')
    | _, O => True
    | (j, t', bs') :: ll, S n => reading s' j t' bs' ll ∧
        getbytes_loop copy (S n) s i len =
          ('(ok, rest, s) ← getbytes_loop copy n s' j (len - Z.of_nat (length bs)); Ok (ok, copied copy bs ++ rest, s))
    end.
Proof.
  intros Hrd Hl. destruct (pass_blk_ok copy s i t bs ll len Hrd Hl) as (o & s' & E & Eo & Hll). exists s'. split; [done|].
  assert (∀ n, getbytes_loop copy n s i len =
    match o, n with
    | None, _ => Ok (false, copied copy bs, s')
    | Some _, O => Fault
    | Some mp, S n => '(ok, rest, s) ← getbytes_loop copy n s' mp (len - Z.of_nat (length bs)); Ok (ok, copied copy bs ++ rest, s)
    end) as Eg.
  { intros k. rewrite getbytes_eq. cbv zeta. rewrite E, (rd_handy _ _ _ _ _ Hrd).
    assert (s32 (Z.of_nat (length bs) - len) = Z.of_nat (length bs) - len) as -> by (apply s32_small; unfold is_s32, W31 in *; lia).
    simpl. by rewrite (proj2 (Z.ltb_lt _ _)) by lia. }
  destruct ll as [|[[j t'] bs'] ll]; [by rewrite Eg, Hll|]. destruct n as [|n]; [done|].
  destruct Hll as [-> Hrd']. split; [done|]. by rewrite Eg.
Qed.

Lemma total_bytes (i t : Z) (bs : list Z) ll : StrmProps.total ((i, t, bs) :: ll) = Z.of_nat (length (bs ++ bytes_of ll)).
Proof. done. Qed.

Lemma getbytes_loop_ok copy n s i t bs ll a r :
  reading s i t bs ll → xb_op s = XDR_DECODE → Forall whole ll → (length ll ≤ n)%nat →
  bs ++ bytes_of ll = a ++ r →
  ∃ s', getbytes_loop copy n s i (Z.of_nat (length a)) = Ok (true, copied copy a, s') ∧ m_dec s' r.
Proof.
  revert s i t bs ll a. induction n as [|n IH]; intros s i t bs ll a Hrd Ho Hwh Hn E.
  all: pose proof (rd_total _ _ _ _ _ Hrd) as Ht; rewrite total_bytes, E, length_app in Ht.
  all: destruct (app_eq_inv _ _ _ _ E) as [(b & -> & ->)|(b & -> & Er)]; [by apply (getbytes_ends _ _ _ _ t)|].
  all: destruct b as [|b0 b]; [rewrite app_nil_r; simpl in Er; subst r; apply (getbytes_ends _ _ _ _ t _ []); by rewrite ?app_nil_r|].
  all: destruct ll as [|[[j t'] bs'] ll]; [done|]; simpl in Hn.
  1: lia.
  rewrite length_app in *. simpl in Ht.
  destruct (getbytes_on copy (S n) s i t bs ((j, t', bs') :: ll) (Z.of_nat (length bs + length (b0 :: b))) Hrd)
    as (s' & Eo & Hrd' & ->); [simpl; lia|].
  apply Forall_cons_iff in Hwh as [_ Hwh].
  destruct (IH s' j t' bs' ll (b0 :: b) Hrd') as (s2 & E2 & Hs2); [congruence|done|lia|done|].
  replace (Z.of_nat (length bs + length (b0 :: b)) - Z.of_nat (length bs)) with (Z.of_nat (length (b0 :: b))) by lia.
  rewrite E2. exists s2. split; [|done]. simpl. by rewrite copied_app.
Qed.

(** The message is too short. *)
Lemma getbytes_loop_short copy n s i t bs ll len :
  reading s i t bs ll → (length ll ≤ n)%nat → Z.of_nat (length (bs ++ bytes_of ll)) < len < W31 →
  ∃ s', getbytes_loop copy n s i len = Ok (false, copied copy (bs ++ bytes_of ll), s') ∧ xb_op s' = xb_op s.
Proof.
  revert s i t bs ll len. induction n as [|n IH]; intros s i t bs ll len Hrd Hn Hl; rewrite length_app in Hl.
  all: destruct ll as [|[[j t'] bs'] ll]; simpl in Hn; [|try lia].
  1: destruct (getbytes_on copy 0 s i t bs [] len Hrd) as (s2 & Eo2 & ->); [lia|];
     exists s2; by rewrite app_nil_r.
  1: destruct (getbytes_on copy (S n) s i t bs [] len Hrd) as (s2 & Eo2 & ->); [lia|];
     exists s2; by rewrite app_nil_r.
  destruct (getbytes_on copy (S n) s i t bs ((j, t', bs') :: ll) len Hrd) as (s' & Eo & Hrd' & ->); [lia|].
  unfold bytes_of in Hl |- *. simpl in Hl |- *. fold (bytes_of ll) in *.
  destruct (IH s' j t' bs' ll (len - Z.of_nat (length bs)) Hrd') as (s2 & E2 & Eo2); [lia|lia|].
  rewrite E2. exists s2. split; [|congruence]. simpl. by rewrite !copied_app.
Qed.

(** *** Decoding leaves the bytes alone *)

Lemma move_rptr_mem s mp len s' : move_rptr s mp len = Ok s' → h_mem (xb_heap s') = h_mem (xb_heap s).
Proof. unfold move_rptr, upd_mblk. intros (h & (m & _ & [= <-])%bind_ok & [= <-])%bind_ok. done. Qed.

Lemma next_blk_mem s mp o s' : next_blk s mp = Ok (o, s') → h_mem (xb_heap s') = h_mem (xb_heap s).
Proof.
  unfold next_blk. intros (m & _ & E)%bind_ok. destruct (b_cont m); [|by simplify_eq/=].
  apply bind_ok in E as (m' & _ & E). by simplify_eq/=.
Qed.

Lemma getlong_mem n s mp q s' : getlong_loop n s mp = Ok (q, s') → h_mem (xb_heap s') = h_mem (xb_heap s).
Proof.
  revert s mp. induction n as [|n IH]; intros s mp; rewrite getlong_eq; cbv zeta.
  all: case_match; [case_match; [by intros [= _ <-]|]|].
  all: try (intros (m & _ & (l & _ & (s2 & Em & [= _ <-])%bind_ok)%bind_ok)%bind_ok; by rewrite (move_rptr_mem _ _ _ _ Em)).
  all: intros ([o s2] & En & E)%bind_ok; apply next_blk_mem in En; destruct o; simplify_eq/=; try done.
  by rewrite (IH _ _ E), En.
Qed.

Lemma pass_blk_mem copy s mp len g l o s' : pass_blk copy s mp len = Ok (g, l, o, s') → h_mem (xb_heap s') = h_mem (xb_heap s).
Proof.
  unfold pass_blk. intros ([[g1 l1] s1] & E1 & ([o1 s2] & E2 & E)%bind_ok)%bind_ok. injection E as <- <- <- <-.
  apply next_blk_mem in E2. rewrite E2. case_match; [|by injection E1 as <- <- <-].
  apply bind_ok in E1 as (m & _ & (g2 & _ & (s3 & Em & [= <- <- <-])%bind_ok)%bind_ok). by apply move_rptr_mem in Em.
Qed.

Lemma getbytes_mem copy n s mp len ok g s' : getbytes_loop copy n s mp len = Ok (ok, g, s') → h_mem (xb_heap s') = h_mem (xb_heap s).
Proof.
  revert s mp len ok g s'. induction n as [|n IH]; intros s mp len ok g s'; rewrite getbytes_eq; cbv zeta.
  all: case_match; [intros ([[[g1 l1] o] s1] & E1 & E)%bind_ok; apply pass_blk_mem in E1|].
  all: try (intros (m & _ & (l & _ & (s2 & Em & [= _ _ <-])%bind_ok)%bind_ok)%bind_ok; by rewrite (move_rptr_mem _ _ _ _ Em)).
  all: destruct o; simplify_eq/=; try done.
  apply bind_ok in E as ([[ok2 r2] s2] & E2 & [= _ _ <-]). by rewrite (IH _ _ _ _ _ _ E2), E1.
Qed.

Definition m_view (s : XDRmblk) (p : Z) (bs : list Z) : Prop :=
  has (h_mem (xb_heap s)) p bs ∧ Z.of_nat (length bs) < W31.

Lemma m_view_mono s s' p bs : h_mem (xb_heap s') = h_mem (xb_heap s) → m_view s p bs → m_view s' p bs.
Proof. unfold m_view. by intros ->. Qed.

Lemma m_dec_inline s l len : m_dec s l → 0 ≤ len < W31 →
  ∃ q s', xdrmblk_inline s len = Ok (q, s') ∧
    match q with
    | None => m_dec s' l
    | Some p => ∃ bs r, l = bs ++ r ∧ Z.of_nat (length bs) = len ∧ m_dec s' r ∧ m_view s' p bs
    end.
Proof.
  intros (Ho & i & t & bs & ll & Hrd & Hwh & ->) Hlen. unfold xdrmblk_inline. rewrite Ho, (rd_handy _ _ _ _ _ Hrd).
  assert (m_dec s (bs ++ bytes_of ll)) as Hs by (split; [done|]; by exists i, t, bs, ll).
  case_if; [by eexists _, _|]. rewrite (rd_base _ _ _ _ _ Hrd).
  destruct (reading_mblk _ _ _ _ _ Hrd) as (m & d & Em & Ed & _ & _ & Hb & _).
  unfold get_datap, get_mblk, get_dblk. rewrite Em. cbn [mbind res_bind deref]. rewrite Ed. cbn [mbind res_bind deref].
  case_if; [by eexists _, _|].
  set (a := take (Z.to_nat len) bs). set (b := drop (Z.to_nat len) bs).
  assert (bs = a ++ b) as Eab by (symmetry; apply take_drop).
  assert (Z.of_nat (length a) = len) as Ea by (unfold a; rewrite length_take; lia).
  assert (Z.of_nat (length bs) - len = Z.of_nat (length b)) as Eb by (unfold b; rewrite length_drop; lia).
  pose proof (rd_total _ _ _ _ _ Hrd) as Ht. rewrite total_cons in Ht. pose proof (total_nonneg ll).
  eexists _, _. split; [done|]. exists a, (b ++ bytes_of ll).
  split; [by rewrite Eab at 1; rewrite <- app_assoc|]. split; [done|]. split.
  - split; [done|]. exists i, t, b, ll. split; [|done].
    eapply (read_on s i t a b ll m); [by rewrite <- Eab|done|symmetry; exact Ea|apply Hrd| |done].
    simpl. rewrite s32_small by (unfold is_s32, W31 in *; lia). done.
  - split; [|unfold a; rewrite length_take; lia]. rewrite Eab in Hb. by apply has_app in Hb as [Hb _].
Qed.

(** ** Encoding *)

(** A message being written: the blocks before the current one, [i], and its bytes. *)
Record writing (h : heap) (k i t : Z) (pre : list (Z * Z * list Z)) (cur : list Z) (m : mblk) (d : dblk) : Prop := {
  wr_heap : heap_ok h;
  wr_pre : chain h (Some k) pre (Some i);
  wr_nodup : NoDup (ids pre ++ [i]);
  wr_mblk : h_mblk h !! i = Some m;
  wr_dblk : h_dblk h !! b_datap m = Some d;
  wr_type : db_type d = t;
  wr_wptr : b_wptr m = b_rptr m + Z.of_nat (length cur);
  wr_cur : has (h_mem h) (b_rptr m) cur;
  wr_own j mj : j ∈ ids pre → h_mblk h !! j = Some mj → b_datap mj ≠ b_datap m
}.

Lemma writing_bounds h k i t pre cur m d : writing h k i t pre cur m d →
  0 ≤ db_base d ≤ b_rptr m ∧ b_wptr m ≤ db_lim d < W32 ∧ b_rptr m ≤ b_wptr m.
Proof.
  intros [Hok _ _ Em Ed _ Ew _ _]. destruct (ok_mblk _ Hok _ _ Em) as (d' & Ed' & Hr & Hl).
  assert (d' = d) as -> by congruence. pose proof (ok_lim _ _ _ (ok_dblk _ Hok _ _ Ed)). lia.
Qed.

(** The whole message. *)
Lemma writing_chain h k i t pre cur m d : writing h k i t pre cur m d →
  chain h (Some k) (pre ++ [(i, t, cur)]) (b_cont m) ∧ NoDup (ids (pre ++ [(i, t, cur)])).
Proof.
  intros [_ Hp Hnd Em Ed Et Ew Hb _]. split; [|by unfold ids; rewrite map_app].
  apply chain_app. exists (Some i). split; [done|]. split; [done|]. by exists m, d.
Qed.

(** The block takes [n] more bytes of its room, as they are. *)
Lemma writing_extend h k i t pre cur m d n : writing h k i t pre cur m d → 0 ≤ n → b_wptr m + n ≤ db_lim d →
  ∃ old, Z.of_nat (length old) = n ∧
    writing (put_mblk h i (set_b_wptr (b_wptr m + n) m)) k i t pre (cur ++ old) (set_b_wptr (b_wptr m + n) m) d.
Proof.
  intros Hw Hn Hl. pose proof (writing_bounds _ _ _ _ _ _ _ _ Hw) as Hbd. destruct Hw as [Hok Hp Hnd Em Ed Et Ew Hb Ho].
  destruct (mapped_has (h_mem h) (b_wptr m) (Z.to_nat n)) as (old & Elen & Hold).
  { intros q Hq. apply (ok_bytes _ _ _ (ok_dblk _ Hok _ _ Ed)). lia. }
  exists old. split; [lia|]. assert (i ∉ ids pre) as Hi.
  { apply list.NoDup_app in Hnd as (_ & Hd & _). intros Hi. apply (Hd i Hi). by apply list_elem_of_singleton. }
  split; simpl; try done.
  - apply (heap_ok_mblk _ _ m _ d); simpl; try done; lia.
  - by apply chain_frame.
  - by rewrite lookup_insert_eq.
  - rewrite length_app. lia.
  - apply has_app. split; [done|]. by rewrite <- Ew.
  - intros j mj Hj Hmj. rewrite lookup_insert_ne in Hmj by (intros ->; done). by apply (Ho j).
Qed.

(** Bytes of the current block are overwritten. *)
Lemma writing_store h k i t pre a b c b' m d : writing h k i t pre (a ++ b ++ c) m d → length b' = length b →
  ∃ mem, store_bytes (h_mem h) (b_rptr m + Z.of_nat (length a)) b' = Ok mem ∧
    writing (with_hmem h mem) k i t pre (a ++ b' ++ c) m d.
Proof.
  intros Hw Hl. pose proof (writing_bounds _ _ _ _ _ _ _ _ Hw) as Hbd. destruct Hw as [Hok Hp Hnd Em Ed Et Ew Hb Ho].
  apply has_app in Hb as [Ha Hb]. apply has_app in Hb as [Hb Hc]. rewrite !length_app in Ew.
  destruct (store_has _ _ _ b' Hb Hl) as (mem & E & Hb' & Hout). exists mem. split; [done|].
  split; simpl; try done.
  - apply heap_ok_mem; [done|]. intros q. by apply (store_dom _ _ _ _ _ E).
  - apply (chain_mem h); [done|done|]. intros j mj dj Hj Hmj Hdj. split; [by exists dj|]. intros q Hq.
    apply Hout. destruct (ok_mblk _ Hok _ _ Hmj) as (dj' & Edj & Hrj & Hlj). assert (dj' = dj) as -> by congruence.
    pose proof (ok_disj _ Hok _ _ dj d q Hdj Ed (Ho j mj Hj Hmj)). lia.
  - rewrite !length_app, Hl. lia.
  - rewrite !has_app, Hl. split_and!; [|done|].
    + apply (has_agree (h_mem h)); [|done]. intros q Hq. apply Hout. lia.
    + apply (has_agree (h_mem h)); [|done]. intros q Hq. apply Hout. lia.
Qed.

(** Bytes are put at the end of the block. *)
Lemma put_wptr_ok s k i t pre cur m d buf len :
  writing (xb_heap s) k i t pre cur m d → 0 ≤ len < W31 → len ≤ Z.of_nat (length buf) → b_wptr m + len ≤ db_lim d →
  ∃ h m', put_wptr s i buf len = Ok (set_heap h s) ∧
    writing h k i t pre (cur ++ take (Z.to_nat len) buf) m' d ∧ b_wptr m' = b_wptr m + len ∧ b_cont m' = b_cont m.
Proof.
  intros Hw Hlen Hbuf Hl. pose proof (writing_bounds _ _ _ _ _ _ _ _ Hw) as Hbd.
  destruct (writing_extend _ _ _ _ _ _ _ _ len Hw ltac:(lia) Hl) as (old & Eold & Hw2).
  assert (length (take (Z.to_nat len) buf) = length old) as El by (rewrite length_take; lia).
  rewrite <- (app_nil_r old) in Hw2. destruct (writing_store _ _ _ _ _ _ _ _ _ _ _ Hw2 El) as (mem & E & Hw3).
  simpl in E. rewrite <- (wr_wptr _ _ _ _ _ _ _ _ Hw) in E.
  unfold put_wptr, get_mblk. rewrite (wr_mblk _ _ _ _ _ _ _ _ Hw). cbn [mbind res_bind deref].
  unfold bcopy_to. rewrite u32_small by (unfold is_u32, W31, W32 in *; lia).
  rewrite (proj2 (Z.leb_gt _ _)), (proj2 (Z.ltb_ge _ _)) by lia. rewrite E. cbn [mbind res_bind].
  rewrite add32_small by lia. do 2 eexists. split; [done|]. rewrite app_nil_r in Hw3. split; [exact Hw3|]. done.
Qed.

#[local] Arguments put_wptr : simpl never.
#[local] Arguments room_blk : simpl never.

(** The handle of an encoding stream. *)
Definition encoding (s : XDRmblk) (i n : Z) : Prop :=
  xb_op s = XDR_ENCODE ∧ xb_base s = Some i ∧ xb_handy s = n ∧ 0 ≤ n < W31.

(** Where a stream writes: the first block of its message, the blocks before the
    current one, and the block after it. *)
Record mloc := MkLoc { ml_head : Z; ml_pre : list (Z * Z * list Z); ml_next : option Z }.

Definition m_enc (k : mloc) (s : XDRmblk) (o : list Z) (n : Z) : Prop :=
  ∃ i t cur m d, encoding s i n ∧ writing (xb_heap s) (ml_head k) i t (ml_pre k) cur m d ∧
    o = bytes_of (ml_pre k) ++ cur ∧ b_wptr m + n ≤ db_lim d ∧ b_cont m = ml_next k.

Definition m_hole (k : mloc) (s : XDRmblk) (o : list Z) (p : Z) (old : list Z) (n : Z) : Prop :=
  ∃ i t cur m d, encoding s i n ∧ writing (xb_heap s) (ml_head k) i t (ml_pre k) (cur ++ old) m d ∧
    o = bytes_of (ml_pre k) ++ cur ∧ b_wptr m + n ≤ db_lim d ∧ b_cont m = ml_next k ∧ p = b_rptr m + Z.of_nat (length cur).

Lemma m_enc_putlong k s o n v : m_enc k s o n → 4 ≤ n →
  ∃ s', xdrmblk_putlong s v = Ok (true, s') ∧ m_enc k s' (o ++ be32 v) (n - 4).
Proof.
  intros (i & t & cur & m & d & (Ho & Hb & Hh & Hn) & Hw & -> & Hl & Hc) H4.
  unfold xdrmblk_putlong. rewrite Hb. cbv zeta. rewrite Hh. unfold sizeof_long.
  rewrite s32_small by (unfold is_s32, W31 in *; lia). simpl. rewrite (proj2 (Z.ltb_ge _ _)) by lia.
  cbn [mbind res_bind].
  destruct (put_wptr_ok (set_handy (n - 4) s) _ i t _ cur m d (be32 v) 4 Hw) as (h & m' & -> & Hw' & Ew & Ec);
    [unfold W31; lia|by rewrite length_be32|lia|].
  cbn [mbind res_bind]. eexists. split; [done|].
  exists i, t, (cur ++ be32 v), m', d. split; [by split_and!; simpl; try lia|].
  change (take (Z.to_nat 4) (be32 v)) with (take 4 (be32 v)) in Hw'.
  rewrite (take_ge (be32 v)) in Hw' by (by rewrite length_be32).
  split; [exact Hw'|]. split; [by rewrite app_assoc|]. split; [lia|congruence].
Qed.

Lemma putbytes_eq n s mp addr len : putbytes_loop n s mp addr len =
  let s := set_handy (s32 (xb_handy s - len)) s in
  if xb_handy s <? 0 then
    let handy := s32 (xb_handy s + len) in
    let s := set_handy handy s in
    '(addr, len, s) ← (if 0 <? handy then
        s ← put_wptr s mp addr handy; Ok (drop (Z.to_nat handy) addr, s32 (len - handy), s)
      else Ok (addr, len, s));
    '(o, s) ← room_blk s mp 0;
    match o, n with
    | None, _ => Ok (false, s)
    | Some _, O => Fault
    | Some mp, S n => putbytes_loop n s mp addr len
    end
  else s ← put_wptr s mp addr len; Ok (true, s).
Proof. by destruct n. Qed.

Lemma putbytes_here k i t pre cur m d f s n buf len :
  encoding s i n → writing (xb_heap s) k i t pre cur m d → b_wptr m + n ≤ db_lim d → 0 ≤ len ≤ n →
  len ≤ Z.of_nat (length buf) →
  ∃ s' m', putbytes_loop f s i buf len = Ok (true, s') ∧ encoding s' i (n - len) ∧
    writing (xb_heap s') k i t pre (cur ++ take (Z.to_nat len) buf) m' d ∧ b_wptr m' = b_wptr m + len ∧ b_cont m' = b_cont m.
Proof.
  intros (Ho & Hb & Hh & Hn) Hw Hl Hlen Hbuf. rewrite putbytes_eq. cbv zeta. rewrite Hh.
  rewrite s32_small by (unfold is_s32, W31 in *; lia). simpl. rewrite (proj2 (Z.ltb_ge _ _)) by lia.
  destruct (put_wptr_ok (set_handy (n - len) s) k i t pre cur m d buf len Hw) as (h & m' & -> & Hw' & Ew & Ec); [lia..|].
  cbn [mbind res_bind]. do 2 eexists. split; [done|]. split; [by split_and!; simpl; try lia|]. done.
Qed.

Lemma m_enc_putbytes k s o n buf len : m_enc k s o n → 0 ≤ len ≤ n → len ≤ Z.of_nat (length buf) →
  ∃ s', xdrmblk_putbytes s buf len = Ok (true, s') ∧ m_enc k s' (o ++ take (Z.to_nat len) buf) (n - len).
Proof.
  intros (i & t & cur & m & d & He & Hw & -> & Hl & Hc) Hlen Hbuf.
  destruct (putbytes_here _ i t _ cur m d (fuel (xb_heap s) + Z.to_nat len) s n buf len He Hw Hl Hlen Hbuf)
    as (s' & m' & E & He' & Hw' & Ew & Ec).
  exists s'. unfold xdrmblk_putbytes. destruct He as (_ & -> & _). split; [done|].
  exists i, t, (cur ++ take (Z.to_nat len) buf), m', d. split; [done|]. split; [done|]. split; [by rewrite app_assoc|].
  split; [lia|congruence].
Qed.

Lemma m_enc_inline k s o n len : m_enc k s o n → 0 ≤ len < W31 →
  ∃ q s', xdrmblk_inline s len = Ok (q, s') ∧
    match q with
    | None => m_enc k s' o n
    | Some p => len ≤ n ∧ ∃ old, Z.of_nat (length old) = len ∧ m_hole k s' o p old (n - len)
    end.
Proof.
  intros Henc Hlen. pose proof Henc as (i & t & cur & m & d & (Ho & Hb & Hh & Hn) & Hw & -> & Hl & Hc).
  pose proof (writing_bounds _ _ _ _ _ _ _ _ Hw) as Hbd.
  unfold xdrmblk_inline. rewrite Ho, Hh. case_if; [by eexists _, _|]. rewrite Hb.
  unfold get_datap, get_mblk, get_dblk. rewrite (wr_mblk _ _ _ _ _ _ _ _ Hw). cbn [mbind res_bind deref].
  rewrite (wr_dblk _ _ _ _ _ _ _ _ Hw). cbn [mbind res_bind deref]. case_if; [by eexists _, _|].
  destruct (writing_extend _ _ _ _ _ _ _ _ len Hw ltac:(lia) ltac:(lia)) as (old & Eold & Hw2).
  rewrite add32_small by lia. eexists _, _. split; [done|]. split; [lia|]. exists old. split; [done|].
  exists i, t, cur, (set_b_wptr (b_wptr m + len) m), d. split.
  - split_and!; simpl; try done; [|lia..]. apply s32_small. unfold is_s32, W31 in *. lia.
  - split; [exact Hw2|]. split; [done|]. simpl. split; [lia|]. split; [done|]. apply (wr_wptr _ _ _ _ _ _ _ _ Hw).
Qed.

Lemma m_hole_store k s o p a b b' c n : m_hole k s o p (a ++ b ++ c) n → length b' = length b →
  ∃ mem, store_bytes (h_mem (xb_heap s)) (p + Z.of_nat (length a)) b' = Ok mem ∧
    m_hole k (set_heap (with_hmem (xb_heap s) mem) s) o p (a ++ b' ++ c) n.
Proof.
  intros (i & t & cur & m & d & He & Hw & -> & Hl & Hc & ->) Hlb. rewrite app_assoc in Hw.
  destruct (writing_store _ _ _ _ _ _ _ _ _ _ _ Hw Hlb) as (mem & E & Hw2). exists mem.
  rewrite length_app, Nat2Z.inj_add, Z.add_assoc in E. split; [done|].
  exists i, t, cur, m, d. split; [done|]. split; [by rewrite app_assoc|]. done.
Qed.

Lemma reading_fuel s i t bs ll : reading s i t bs ll → (length ll ≤ fuel (xb_heap s))%nat.
Proof.
  intros [_ _ [Hc Hnd] _ _]. pose proof (chain_fuel _ _ _ _ Hc Hnd) as Hf. simpl in Hf. lia.
Qed.

Lemma inline_mem s len q s' : xdrmblk_inline s len = Ok (q, s') → h_mem (xb_heap s') = h_mem (xb_heap s).
Proof.
  unfold xdrmblk_inline. intros E. destruct (xb_op s); [..|by simplify_eq].
  all: case_if_in E; [by simplify_eq|]; destruct (xb_base s); [|by simplify_eq].
  all: apply bind_ok in E as ([m d] & _ & E); case_if_in E; by simplify_eq/=.
Qed.

(** The message stream keeps the promises of the interface. *)
#[export] Instance xdrmblk_stream : XdrStream XDRmblk.
Proof.
  refine {| dec := m_dec; sloc := mloc; enc := m_enc; hole := m_hole; view := m_view |}; simpl.
  - by intros s l (? & _).
  - by intros k s o n (i & t & cur & m & d & (? & _) & _).
  - intros s v r (Ho & i & t & bs & ll & Hrd & Hwh & E) Hr. unfold xdrmblk_getlong. rewrite (rd_base _ _ _ _ _ Hrd).
    eapply getlong_loop_ok; [exact Hrd|done|done|by apply (reading_fuel _ _ _ _ _ Hrd)|by symmetry|done].
  - intros s l (Ho & i & t & bs & ll & Hrd & Hwh & ->) Hl. unfold xdrmblk_getlong. rewrite (rd_base _ _ _ _ _ Hrd).
    destruct (getlong_loop_short (fuel (xb_heap s)) s i t bs ll Hrd Hwh) as (s' & -> & Eo); [by apply (reading_fuel _ _ _ _ _ Hrd)|done|].
    exists s'. split; [done|]. congruence.
  - intros s bs r len (Ho & i & t & b & ll & Hrd & Hwh & E) -> Hlen. unfold xdrmblk_getbytes. rewrite (rd_base _ _ _ _ _ Hrd).
    apply (getbytes_loop_ok true _ s i t b ll); [done|done|done|by apply (reading_fuel _ _ _ _ _ Hrd)|by symmetry].
  - intros s l len (Ho & i & t & b & ll & Hrd & Hwh & ->) Hlen. unfold xdrmblk_getbytes. rewrite (rd_base _ _ _ _ _ Hrd).
    destruct (getbytes_loop_short true (fuel (xb_heap s)) s i t b ll len Hrd) as (s' & -> & Eo);
      [by apply (reading_fuel _ _ _ _ _ Hrd)|done|].
    do 2 eexists. split; [done|]. split; [congruence|]. simpl. lia.
  - intros k s o n v Hs Hn _. by apply m_enc_putlong.
  - intros k s o n buf len Hs Hn Hb. apply m_enc_putbytes; [done|lia|done].
  - by intros k s o n (i & t & cur & m & d & (_ & _ & _ & ?) & _).
  - apply m_dec_inline.
  - intros s p a b c [Hm Hl]. rewrite !length_app in Hl. apply has_app in Hm as [_ Hm].
    apply has_app in Hm as [Hm _]. apply bcopy_from_has; [done|lia].
  - unfold xdrmblk_getlong. intros s q s' p bs Hg. apply m_view_mono. case_match; [by eapply getlong_mem|by simplify_eq].
  - unfold xdrmblk_getbytes. intros s len q got s' p bs Hg. apply m_view_mono.
    case_match; [by eapply getbytes_mem|by simplify_eq].
  - intros s len q s' p bs Hg. apply m_view_mono. by eapply inline_mem.
  - apply m_enc_inline.
  - intros k s o p a b b' c n Hs Hl. destruct (m_hole_store _ _ _ _ _ _ _ _ _ Hs Hl) as (mem & E & ?).
    rewrite E. simpl. by eexists.
  - intros k s o p old n (i & t & cur & m & d & He & Hw & -> & Hl & Hc & _).
    exists i, t, (cur ++ old), m, d. by rewrite app_assoc.
Defined.
End decode.
