(* ===== verification/XdrMblkThms.v ===== *)
(** * Theorems about XDR on STREAMS messages *)

From S2P Require Import Prelude Xdr XdrCodec XdrMem Strm StrmProps XdrMblk XdrMblkProps.

Section thms.
Context `{KS : KmemSpec}.

(** ** New blocks *)

(** What a sleeping thread may rely on: the others leave its message alone. *)
Definition quiet (w : heap → heap) : Prop :=
  ∀ h k i t pre cur m d, writing h k i t pre cur m d → writing (w h) k i t pre cur m d.

Lemma alloc_loop_ok ws h sz k i t pre cur m d :
  Forall quiet ws → writing h k i t pre cur m d → 0 ≤ sz → sizeof_dblk + sz < W32 →
  ∃ o h' ws', alloc_loop ws h sz = (o, h', ws') ∧ Forall quiet ws' ∧
    match o with
    | None => ws' = [] ∧ writing h' k i t pre cur m d
    | Some j => ∃ h0, writing h0 k i t pre cur m d ∧ alloced h0 sz j h'
    end.
Proof.
  intros Hq. revert h. induction Hq as [|w ws Hw Hq IH]; intros h Hwr Hs Hb; simpl;
    destruct sizeof_dblk_ok as [Hd _]; rewrite u32_small by (unfold is_u32; lia);
    destruct (allocb h sz) as [[j|] h'] eqn:E.
  - do 3 eexists. split; [done|]. split; [done|]. exists h. split; [done|]. apply allocb_spec; [lia|lia|done].
  - apply allocb_none in E as ->. by do 3 eexists.
  - do 3 eexists. split; [done|]. split; [by constructor|]. exists h. split; [done|]. apply allocb_spec; [lia|lia|done].
  - apply allocb_none in E as ->. apply IH; [by apply Hw|done|done].
Qed.

(** The message with a new block at its end. *)
Lemma writing_new h k i t pre cur m d sz j h' r :
  writing h k i t pre cur m d → 0 ≤ sz → alloced h sz j h' →
  ∃ dbp base n fn frtn c,
    let m2 := MkMblk None (base + r) (base + r) dbp 0 0 in
    let d2 := MkDblk base (base + n) 1 M_DATA 0 j fn fn frtn c in
    h_mblk h' !! j = Some (MkMblk None base base dbp 0 0) ∧ h_mblk h' !! i = Some m ∧
    h_dblk h' !! dbp = Some d2 ∧ i ≠ j ∧
    sz ≤ n ∧ 0 < base ∧ base + n < W31 ∧
    (0 ≤ r ≤ n → writing (put_mblk (put_mblk h' i (set_b_cont (Some j) m)) j m2) k j M_DATA (pre ++ [(i, t, cur)]) [] m2 d2).
Proof.
  intros Hw Hs Ha. pose proof (alloced_ok _ _ _ _ (wr_heap _ _ _ _ _ _ _ _ Hw) Hs Ha) as Hok'.
  destruct (writing_chain _ _ _ _ _ _ _ _ Hw) as [Hch Hnd].
  destruct (alloced_chain _ _ _ _ _ _ _ Hs Ha Hch) as [Hch' Hj].
  pose proof (wr_heap _ _ _ _ _ _ _ _ Hw) as Hok.
  destruct Ha as (dbp & base & n & fn & frtn & c & Eh & Hfn & Hn & _ & _ & Hb & Ht & Hmj & Hdj & _).
  pose proof (wr_mblk _ _ _ _ _ _ _ _ Hw) as Hm. pose proof (wr_dblk _ _ _ _ _ _ _ _ Hw) as Hd.
  assert (i ≠ j) as Hij by (intros ->; congruence).
  exists dbp, base, n, fn, frtn, c. cbv zeta.
  assert (h_mblk h' !! j = Some (MkMblk None base base dbp 0 0)) as Ej by (subst h'; simpl; by rewrite lookup_insert_eq).
  assert (h_mblk h' !! i = Some m) as Ei by (subst h'; simpl; by rewrite lookup_insert_ne).
  assert (h_dblk h' !! dbp = Some (MkDblk base (base + n) 1 M_DATA 0 j fn fn frtn c)) as Edb by (subst h'; simpl; by rewrite lookup_insert_eq).
  assert (h_dblk h' !! b_datap m = Some d) as Ed' by (subst h'; simpl; rewrite lookup_insert_ne; [done|intros E; congruence]).
  assert (∀ x mx, h_mblk h !! x = Some mx → b_datap mx ≠ dbp) as Hfresh.
  { intros x mx Hx E. destruct (ok_mblk _ Hok _ _ Hx) as (dx & Edx & _). congruence. }
  destruct (writing_bounds _ _ _ _ _ _ _ _ Hw) as (Hb1 & Hb2 & Hb3).
  split; [done|]. split; [done|]. split; [done|]. split; [done|]. split; [done|]. split; [done|]. split; [done|].
  intros Hr. split; simpl; try done.
  - eapply (heap_ok_mblk _ _ (MkMblk None base base dbp 0 0)); simpl; [|by rewrite lookup_insert_ne|done|done|simpl; lia|simpl; lia].
    apply (heap_ok_mblk _ _ m _ d); simpl; try done; lia.
  - apply chain_frame; [|done]. by apply (chain_relink h' _ pre i t cur m (b_cont m)).
  - apply list.NoDup_app. split; [done|]. split; [|apply NoDup_singleton].
    by intros x Hx ->%list_elem_of_singleton.
  - by rewrite lookup_insert_eq.
  - lia.
  - intros x mx Hx. rewrite lookup_insert_ne by (intros ->; done).
    destruct (decide (x = i)) as [->|Hxi]; [rewrite lookup_insert_eq; intros [= <-]; simpl; by apply (Hfresh i)|].
    rewrite lookup_insert_ne by done. subst h'. simpl. rewrite lookup_insert_ne by (intros ->; done). apply Hfresh.
Qed.

(** ** A stream that grows *)

(** A stream at the last block of its message, which starts with block [k]; [sz] is the
    size of the blocks it allocates. *)
Record growing (k sz : Z) (s : XDRmblk) (o : list Z) (i n : Z) : Prop := {
  gr_size : xb_private s = sz ∧ 4 ≤ sz < 1073741824;
  gr_quiet : Forall quiet (xb_waits s);
  gr_enc : encoding s i n;
  gr_writing : ∃ t pre cur m d, writing (xb_heap s) k i t pre cur m d ∧ o = bytes_of pre ++ cur ∧
    b_wptr m + n ≤ db_lim d ∧ b_cont m = None
}.

Definition m_last (k sz : Z) (s : XDRmblk) (o : list Z) : Prop := ∃ i n, growing k sz s o i n.

(** A stream that has run out of memory. *)
Definition m_failed (s : XDRmblk) : Prop := xb_base s = None ∧ xb_waits s = [].

Lemma bytes_snoc pre i t cur : bytes_of (pre ++ [(i, t, cur)]) = bytes_of pre ++ cur.
Proof. unfold bytes_of. rewrite map_app, concat_app. simpl. by rewrite app_nil_r. Qed.

(** A new block, or none: [s] may be in the middle of an operation. *)
Lemma room_blk_ok k sz s o i n s0 adjust :
  growing k sz s o i n → (∃ y, s0 = set_handy y s) → 0 ≤ adjust ≤ 4 →
  ∃ q s', room_blk s0 i adjust = Ok (q, s') ∧
    match q with
    | None => m_failed s'
    | Some j => ∃ n', sz ≤ n' ∧ xb_handy s' = n' - adjust ∧ growing k sz (set_handy n' s') o j n'
    end.
Proof.
  intros [[Hp Hsz] Hq (Ho & Hb & Hh & Hn) (t & pre & cur & m & d & Hw & -> & Hl & Hc)] [y ->] Hadj.
  unfold room_blk, get_mblk. cbn [xb_heap set_handy]. rewrite (wr_mblk _ _ _ _ _ _ _ _ Hw).
  cbn [mbind res_bind deref]. rewrite Hc. unfold xdrmblk_alloc. cbn [xb_private set_handy xb_waits xb_heap]. rewrite Hp.
  rewrite (proj2 (Z.eqb_neq sz 0)) by lia. destruct sizeof_dblk_ok as [Hsd _].
  destruct (alloc_loop_ok (xb_waits s) (xb_heap s) sz k i t pre cur m d Hq Hw) as (q & h' & ws & -> & Hq' & Hr);
    [lia|unfold W32; lia|].
  cbn [mbind res_bind xb_heap]. destruct q as [j|].
  - destruct Hr as (h0 & Hw0 & Ha).
    destruct (writing_new _ _ _ _ _ _ _ _ sz j h' (let n := 0 in n) Hw0 ltac:(lia) Ha) as
      (dbp & base & bn & fn & frtn & c & Ej & Ei & Edb & Hij & Hbn & Hb0 & Hbt & _).
    assert (∃ r, 0 ≤ r ≤ bn ∧ sz ≤ bn - r ∧
      XDRMBLK_SETHANDY (set_base (Some j) (set_heap (put_mblk h' i (set_b_cont (Some j) m))
        (MkXDRmblk (xb_op s) (xb_base s) y sz h' ws))) j sz adjust =
      Ok (set_handy (bn - r - adjust) (set_heap (put_mblk (put_mblk h' i (set_b_cont (Some j) m)) j
            (MkMblk None (base + r) (base + r) dbp 0 0)) (set_base (Some j)
            (MkXDRmblk (xb_op s) (xb_base s) y sz h' ws))))) as (r & Hr & Hroom & Eset).
    { unfold XDRMBLK_SETHANDY, get_datap, get_mblk, get_dblk. simpl. rewrite lookup_insert_ne by done. rewrite Ej.
      simpl. rewrite Edb. simpl. unfold bpsize. simpl.
      rewrite (s32_small (base + bn - base)) by (unfold is_s32, W31 in *; lia).
      replace (base + bn - base) with bn by lia. destruct (Z.shiftr bn 1 <=? sz) eqn:Es; simpl.
      - exists (bn - sz). split; [lia|]. split; [lia|]. rewrite add32_small by (unfold W31, W32 in *; lia).
        rewrite s32_small by (unfold is_s32, W31 in *; lia).
        replace (base + bn - (base + (bn - sz)) - adjust) with (bn - (bn - sz) - adjust) by lia. done.
      - exists 0. split; [lia|]. split; [lia|]. rewrite s32_small by (unfold is_s32, W31 in *; lia).
        rewrite Z.add_0_r. replace (base + bn - base - adjust) with (bn - 0 - adjust) by lia. done. }
    destruct (writing_new _ _ _ _ _ _ _ _ sz j h' r Hw0 ltac:(lia) Ha) as
      (dbp' & base' & bn' & fn' & frtn' & c' & Ej' & _ & Edb' & _ & _ & _ & _ & Hwr).
    assert (dbp' = dbp ∧ base' = base) as [-> ->] by (split; congruence).
    assert (bn' = bn) as -> by (rewrite Edb in Edb'; injection Edb'; lia).
    unfold upd_mblk, get_mblk. cbn [xb_heap]. rewrite Ei. cbn [mbind res_bind deref]. cbn [xb_private].
    match type of Eset with ?x = _ => match goal with |- context [XDRMBLK_SETHANDY ?a ?b ?c ?e] =>
      change (XDRMBLK_SETHANDY a b c e) with x end end.
    rewrite Eset. cbn [mbind res_bind]. do 2 eexists. split; [done|]. exists (bn - r).
    split; [done|]. split; [done|]. split; simpl; [done|done|by split_and!; simpl; try (done || lia)|].
    eexists M_DATA, (pre ++ [(i, t, cur)]), [], _, _. split; [by apply Hwr|].
    split; [by rewrite bytes_snoc, app_nil_r|]. simpl. split; [lia|done].
  - destruct Hr as [-> Hw0]. unfold upd_mblk, get_mblk. cbn [xb_heap]. rewrite (wr_mblk _ _ _ _ _ _ _ _ Hw0).
    cbn [mbind res_bind deref]. do 2 eexists. split; [done|]. done.
Qed.

Lemma growing_put k sz s o i n buf len y :
  growing k sz s o i n → 0 ≤ len ≤ n → len ≤ Z.of_nat (length buf) →
  ∃ s', put_wptr (set_handy y s) i buf len = Ok s' ∧ xb_handy s' = y ∧
    growing k sz (set_handy (n - len) s') (o ++ take (Z.to_nat len) buf) i (n - len).
Proof.
  intros [[Hp Hsz] Hq (Ho & Hb & Hh & Hn) (t & pre & cur & m & d & Hw & -> & Hl & Hc)] Hlen Hbuf.
  destruct (put_wptr_ok (set_handy y s) k i t pre cur m d buf len Hw) as (h & m' & E & Hw' & Ew & Ec); [lia..|].
  exists (set_heap h (set_handy y s)). split; [done|]. split; [done|].
  split; simpl; [done|done|by split_and!; simpl; try (done || lia)|].
  exists t, pre, (cur ++ take (Z.to_nat len) buf), m', d. split; [done|]. split; [by rewrite app_assoc|]. split; [lia|congruence].
Qed.

Lemma growing_handy k sz s o i n : growing k sz s o i n → xb_handy s = n ∧ xb_base s = Some i ∧ 0 ≤ n < W31.
Proof. intros [_ _ (_ & ? & ? & ?) _]. done. Qed.

Lemma set_handy_id s : set_handy (xb_handy s) s = s.
Proof. by destruct s. Qed.

Lemma putlong_grows k sz s o v : m_last k sz s o → is_s32 v →
  ∃ ok s', xdrmblk_putlong s v = Ok (ok, s') ∧ if ok : bool then m_last k sz s' (o ++ be32 v) else m_failed s'.
Proof.
  intros (i & n & Hg) Hv. destruct (growing_handy _ _ _ _ _ _ Hg) as (Hh & Hb & Hn).
  unfold xdrmblk_putlong. rewrite Hb. cbv zeta. rewrite Hh. unfold sizeof_long.
  rewrite s32_small by (unfold is_s32, W31 in *; lia). change (xb_handy (set_handy (n - 4) s)) with (n - 4).
  assert (take (Z.to_nat 4) (be32 v) = be32 v) as Etk by (apply take_ge; by rewrite length_be32).
  destruct (Z.ltb_spec (n - 4) 0) as [Hlt|Hge].
  - destruct (room_blk_ok k sz s o i n (set_handy (n - 4) s) 4 Hg) as (q & s1 & -> & Hr); [by exists (n - 4)|lia|].
    cbn [mbind res_bind]. destruct q as [j|]; [|by eexists _, _].
    destruct Hr as (n' & Hn' & Hy & Hg1). pose proof (gr_size _ _ _ _ _ _ Hg) as [_ Hsz].
    destruct (growing_put k sz _ o j n' (be32 v) 4 (n' - 4) Hg1) as (s2 & E2 & Ey & Hg2); [lia|by rewrite length_be32|].
    rewrite set_handy_twice, <- Hy, set_handy_id in E2. rewrite E2. cbn [mbind res_bind]. eexists _, _. split; [done|].
    rewrite Etk, <- Ey, set_handy_id in Hg2. by eexists _, _.
  - cbn [mbind res_bind]. destruct (growing_put k sz s o i n (be32 v) 4 (n - 4) Hg) as (s2 & -> & Ey & Hg2);
      [lia|by rewrite length_be32|].
    cbn [mbind res_bind]. eexists _, _. split; [done|]. rewrite Etk, <- Ey, set_handy_id in Hg2. by eexists _, _.
Qed.

Lemma putbytes_loop_grows f k sz s o i n buf len :
  growing k sz s o i n → 0 ≤ len < W31 → len ≤ Z.of_nat (length buf) →
  (0 < n ∧ len ≤ Z.of_nat f ∨ len < Z.of_nat f) →
  ∃ ok s', putbytes_loop f s i buf len = Ok (ok, s') ∧
    if ok : bool then m_last k sz s' (o ++ take (Z.to_nat len) buf) else m_failed s'.
Proof.
  revert s o i n buf len. induction f as [|f IH]; intros s o i n buf len Hg Hlen Hbuf Hf;
    destruct (growing_handy _ _ _ _ _ _ Hg) as (Hh & Hb & Hn);
    rewrite putbytes_eq; cbv zeta; rewrite Hh; rewrite (s32_small (n - len)) by (unfold is_s32, W31 in *; lia);
    change (xb_handy (set_handy (n - len) s)) with (n - len); destruct (Z.ltb_spec (n - len) 0) as [Hlt|Hge].
  2, 4: destruct (growing_put k sz s o i n buf len (n - len) Hg) as (s2 & -> & Ey & Hg2); [lia|lia|];
    cbn [mbind res_bind]; eexists _, _; split; [done|]; rewrite <- Ey, set_handy_id in Hg2; by eexists _, _.
  - lia.
  - rewrite (s32_small (n - len + len)) by (unfold is_s32, W31 in *; lia). rewrite set_handy_twice.
    replace (n - len + len) with n by lia.
    assert (∃ s1, (if 0 <? n then s ← put_wptr (set_handy n s) i buf n; Ok (drop (Z.to_nat n) buf, s32 (len - n), s)
        else Ok (buf, len, set_handy n s)) = Ok (drop (Z.to_nat n) buf, len - n, s1) ∧
      growing k sz (set_handy 0 s1) (o ++ take (Z.to_nat n) buf) i 0) as (s1 & -> & Hg1).
    { destruct (Z.ltb_spec 0 n) as [Hpos|Hz].
      - destruct (growing_put k sz s o i n buf n n Hg) as (s2 & -> & Ey & Hg2); [lia|lia|]. cbn [mbind res_bind].
        rewrite s32_small by (unfold is_s32, W31 in *; lia). rewrite Z.sub_diag in Hg2. by exists s2.
      - assert (n = 0) as -> by lia. exists s. rewrite Z.sub_0_r. change (Z.to_nat 0) with 0%nat.
        rewrite take_0, app_nil_r, drop_0. rewrite <- Hh at 1. rewrite set_handy_id. split; [done|].
        rewrite <- Hh at 1. by rewrite set_handy_id. }
    cbn [mbind res_bind].
    destruct (room_blk_ok k sz _ _ i 0 s1 0 Hg1) as (q & s2 & -> & Hr); [exists (xb_handy s1); by rewrite set_handy_twice, set_handy_id|lia|].
    cbn [mbind res_bind]. destruct q as [j|]; [|by eexists _, _].
    destruct Hr as (n' & Hn' & Hy & Hg2). rewrite Z.sub_0_r in Hy. rewrite <- Hy, set_handy_id in Hg2.
    pose proof (gr_size _ _ _ _ _ _ Hg) as [_ Hsz].
    destruct (IH s2 _ j (xb_handy s2) (drop (Z.to_nat n) buf) (len - n) Hg2) as (ok & s' & E & Hr);
      [lia|rewrite length_drop; lia|lia|].
    exists ok, s'. split; [done|]. destruct ok; [|done].
    replace (o ++ take (Z.to_nat len) buf) with ((o ++ take (Z.to_nat n) buf) ++ take (Z.to_nat (len - n)) (drop (Z.to_nat n) buf)); [done|].
    rewrite <- app_assoc, take_take_drop. do 2 f_equal. lia.
Qed.

(** A call of an encoding operation. *)
Inductive put := PLong (v : Z) | PBytes (buf : list Z).

Definition put_ok (p : put) : Prop :=
  match p with PLong v => is_s32 v | PBytes buf => Z.of_nat (length buf) < W31 end.

Definition put_bytes (p : put) : list Z := match p with PLong v => be32 v | PBytes buf => buf end.

(** A sequence of them, until one fails. *)
Fixpoint run_puts (ps : list put) (s : XDRmblk) : res (bool * XDRmblk) :=
  match ps with
  | [] => Ok (true, s)
  | p :: ps =>
    '(ok, s) ← match p with
              | PLong v => xdrmblk_putlong s v
              | PBytes buf => xdrmblk_putbytes s buf (Z.of_nat (length buf))
              end;
    if ok : bool then run_puts ps s else Ok (false, s)
  end.

(** Encoding over as many blocks as it takes: a sequence of [xdrmblk_putlong] and
    [xdrmblk_putbytes] on a message either puts exactly those bytes, in order, at the end
    of the message, or fails because there is no memory and the wait for it was
    interrupted.  No call touches memory outside the message. *)
Theorem xdrmblk_grows k sz s o ps : m_last k sz s o → Forall put_ok ps →
  ∃ ok s', run_puts ps s = Ok (ok, s') ∧
    if ok : bool then m_last k sz s' (o ++ flat_map put_bytes ps) else m_failed s'.
Proof.
  intros Hs Hps. revert s o Hs. induction Hps as [|p ps Hp Hps IH]; intros s o Hs; simpl.
  { eexists _, _. split; [done|]. by rewrite app_nil_r. }
  assert (∃ ok s', match p with
      | PLong v => xdrmblk_putlong s v
      | PBytes buf => xdrmblk_putbytes s buf (Z.of_nat (length buf))
      end = Ok (ok, s') ∧ if ok : bool then m_last k sz s' (o ++ put_bytes p) else m_failed s') as (ok & s1 & -> & Hr).
  { destruct p as [v|buf]; [by apply putlong_grows|]. destruct Hs as (i & n & Hg). unfold xdrmblk_putbytes.
    destruct (growing_handy _ _ _ _ _ _ Hg) as (_ & -> & _). simpl in Hp.
    destruct (putbytes_loop_grows (fuel (xb_heap s) + Z.to_nat (Z.of_nat (length buf))) k sz s o i n buf (Z.of_nat (length buf)) Hg)
      as (ok & s' & E & Hr); [lia|lia|right; unfold fuel; lia|].
    exists ok, s'. split; [done|]. rewrite Nat2Z.id, take_ge in Hr by done. done. }
  cbn [mbind res_bind]. destruct ok; [|by eexists _, _].
  rewrite app_assoc. by apply IH.
Qed.

(** ** Whole messages *)

(** A block from [allocb], ready to be encoded into. *)
Lemma init_encode h size mp h1 ws sz : heap_ok h → 0 ≤ size → sizeof_dblk + size < W32 → allocb h size = (Some mp, h1) →
  ∃ s n, xdrmblk_init h1 ws mp XDR_ENCODE sz = Ok s ∧ size ≤ n ∧ m_enc (MkLoc mp [] None) s [] n ∧
    (4 ≤ sz < 1073741824 → Forall quiet ws → m_last mp sz s []).
Proof.
  intros Hok Hs Hb Ha. destruct sizeof_dblk_ok as [Hsd _]. apply allocb_spec in Ha; [|lia|lia].
  pose proof (alloced_ok _ _ _ _ Hok Hs Ha) as Hok1.
  destruct Ha as (dbp & base & n & fn & frtn & c & -> & Hfn & Hn & _ & _ & Hbase & Ht & Hm & Hd & Hfree & _).
  set (h1 := put_mblk _ _ _) in *. set (m := MkMblk None base base dbp 0 0) in *.
  set (d := MkDblk base (base + n) 1 M_DATA 0 mp fn fn frtn c) in *.
  assert (h_mblk h1 !! mp = Some m) as Em by apply lookup_insert_eq.
  assert (h_dblk h1 !! dbp = Some d) as Ed by apply lookup_insert_eq.
  assert (writing h1 mp mp M_DATA [] [] m d) as Hw.
  { split; simpl; try done; [apply NoDup_singleton|lia|intros j mj Hj; by apply elem_of_nil in Hj]. }
  assert (xdrmblk_init h1 ws mp XDR_ENCODE sz = Ok (MkXDRmblk XDR_ENCODE (Some mp) n sz h1 ws)) as E.
  { unfold xdrmblk_init, get_datap, get_mblk, get_dblk. rewrite Em. cbn [mbind res_bind deref].
    change (b_datap m) with dbp. rewrite Ed. cbn [mbind res_bind deref]. unfold bpsize. cbn [d db_lim db_base].
    rewrite s32_small by (unfold is_s32, W31 in *; lia). by replace (base + n - base) with n by lia. }
  assert (encoding (MkXDRmblk XDR_ENCODE (Some mp) n sz h1 ws) mp n) as He by (split_and!; simpl; try done; lia).
  do 2 eexists. split; [exact E|]. split; [done|]. split.
  - exists mp, M_DATA, [], m, d. split; [done|]. split; [done|]. split; [done|]. split; [simpl; lia|done].
  - intros Hsz Hq. exists mp, n. split; [done|done|done|].
    exists M_DATA, [], [], m, d. split; [done|]. split; [done|]. split; [simpl; lia|done].
Qed.

(** A message of whole words, ready to be decoded. *)
Lemma init_decode h mp t bs ll ws : heap_ok h → msg h (Some mp) ((mp, t, bs) :: ll) → Forall whole ll →
  StrmProps.total ((mp, t, bs) :: ll) < W31 →
  ∃ s, xdrmblk_init h ws mp XDR_DECODE 0 = Ok s ∧ dec s (bs ++ bytes_of ll).
Proof.
  intros Hok Hmsg Hwh Ht. pose proof Hmsg as [(_ & m & d & Em & Ed & _ & Ew & _) _]. rewrite total_cons in Ht.
  pose proof (total_nonneg ll). unfold xdrmblk_init, get_mblk. rewrite Em. simpl. unfold blk_len. rewrite Ew.
  rewrite s32_small by (unfold is_s32, W31 in *; lia). replace (b_rptr m + _ - b_rptr m) with (Z.of_nat (length bs)) by lia.
  eexists. split; [done|]. split; [done|]. exists mp, t, bs, ll. split; [|done]. split; [done..|]. rewrite total_cons. lia.
Qed.

(** C37: XDR over a message: what any of the proved filters encodes into a new block is a
    message with exactly the bytes of the specification, and decoding any message with
    those bytes, however it was cut between words on the way, gives the object back. *)
Theorem mblk_codec_roundtrip {T} (proc : xdrproc XDRmblk T) spec ok init h size mp h1 t ws :
  codec proc spec ok init → heap_ok h → ok t → Z.of_nat (length (spec t)) ≤ size → sizeof_dblk + size < W31 →
  allocb h size = (Some mp, h1) →
  ∃ s s', xdrmblk_init h1 ws mp XDR_ENCODE 0 = Ok s ∧ proc s t = Ok (true, t, s') ∧
    heap_ok (xb_heap s') ∧ (∃ ty, msg (xb_heap s') (Some mp) [(mp, ty, spec t)]) ∧
    ∀ h2 i ty bs ll rest t0, heap_ok h2 → msg h2 (Some i) ((i, ty, bs) :: ll) → bs ++ bytes_of ll = spec t ++ rest →
      Forall whole ll → units rest → StrmProps.total ((i, ty, bs) :: ll) < W31 → init t0 t →
      ∃ r r', xdrmblk_init h2 ws i XDR_DECODE 0 = Ok r ∧ proc r t0 = Ok (true, t, r').
Proof.
  intros Hc Hok Ht Hsz Hb Ha.
  destruct (init_encode h size mp h1 ws 0 Hok) as (s & n & Es & Hn & Henc & _); [lia|unfold W31, W32 in *; lia|done|].
  destruct (codec_enc _ _ _ _ Hc (k := MkLoc mp [] None) s [] n t Ht Henc) as (s' & Ep & Henc'); [lia|].
  exists s, s'. split; [done|]. split; [done|].
  destruct Henc' as (i & ty & cur & m & d & _ & Hw & E & _ & En). simpl in Hw, E, En. subst cur.
  pose proof (wr_pre _ _ _ _ _ _ _ _ Hw) as Hpre. injection Hpre as <-.
  split; [apply Hw|]. split.
  - exists ty. destruct (writing_chain _ _ _ _ _ _ _ _ Hw) as [Hch Hnd]. rewrite En in Hch. done.
  - intros h2 j ty2 bs ll rest t0 Hok2 Hmsg Eb Hwh Hu Htot Hi.
    destruct (init_decode h2 j ty2 bs ll ws Hok2 Hmsg Hwh Htot) as (r & Er & Hr). rewrite Eb in Hr.
    destruct (codec_dec _ _ _ _ Hc r t t0 rest Ht Hi Hr Hu) as (r' & E & _). by exists r, r'.
Qed.

(** ** The rest of the message *)

Lemma mblk_bytes_ok n h mp ll len : chain h mp ll None → (length ll ≤ n)%nat → 0 ≤ len → len + StrmProps.total ll < W31 →
  mblk_bytes n h mp len = Ok (len + StrmProps.total ll).
Proof.
  revert mp ll len. induction n as [|n IH]; intros mp [|[[i t] bs] ll] len Hc Hn Hl Ht; simpl in *; try lia.
  - rewrite Hc. unfold StrmProps.total. simpl. by rewrite Z.add_0_r.
  - rewrite Hc. unfold StrmProps.total. simpl. by rewrite Z.add_0_r.
  - destruct Hc as (-> & m & d & Em & _ & _ & Ew & _ & Hc). unfold get_mblk. rewrite Em. simpl. unfold blk_len.
    rewrite total_cons in *. pose proof (total_nonneg ll). rewrite Ew.
    replace (b_rptr m + _ - b_rptr m) with (Z.of_nat (length bs)) by lia.
    rewrite (s32_small (Z.of_nat _)) by (unfold is_s32, W31 in *; lia).
    rewrite s32_small by (unfold is_s32, W31 in *; lia). rewrite (IH _ ll); [f_equal; lia|done|lia|lia|lia].
Qed.

(** [xdrmblk_getmblk] gives the rest of the stream away as a message, without a copy: it
    answers TRUE exactly when the length that comes first in the stream, as a [long], is
    at most the number of bytes that follow, and the message it returns holds those; and
    [XDR_SKIPBYTES] passes exactly the bytes [xdrmblk_getbytes] would have copied. *)
Theorem xdrmblk_rest s n r : m_dec s (be32 n ++ r) → units r →
  (∃ ok mp s', xdrmblk_getmblk s = Ok (ok, Some mp, u32 n, s') ∧ (ok = true ↔ s32 n ≤ Z.of_nat (length r)) ∧
    ∃ ll, msg (xb_heap s') (Some mp) ll ∧ bytes_of ll = r) ∧
  ∀ a b info, be32 n ++ r = a ++ b → RNDUP_int info = Z.of_nat (length a) →
    ∃ s', xdrmblk_control s XDR_SKIPBYTES info = Ok (Some info, s') ∧ m_dec s' b.
Proof.
  intros Hs Hr. split.
  - assert (dec s (be32 n ++ r)) as Hd by exact Hs.
    destruct (dec_getlong s n r Hd Hr) as (s1 & E1 & Ho & i & t & bs & ll & Hrd & Hwh & ->). simpl in E1.
    unfold xdrmblk_getmblk. rewrite E1. cbn [mbind res_bind]. rewrite (rd_base _ _ _ _ _ Hrd).
    pose proof (reading_fuel _ _ _ _ _ Hrd) as Hf. pose proof (rd_msg _ _ _ _ _ Hrd) as Hmsg. pose proof Hmsg as [Hch Hnd].
    pose proof (chain_fuel _ _ _ _ Hch Hnd) as Hfu. pose proof (rd_total _ _ _ _ _ Hrd) as Ht.
    rewrite (mblk_bytes_ok _ _ _ _ _ Hch) by (simpl in *; lia). cbn [mbind res_bind]. rewrite Z.add_0_l, total_bytes.
    rewrite u32_s32. destruct (Z.ltb_spec (Z.of_nat (length (bs ++ bytes_of ll))) (s32 n)).
    + do 3 eexists. split; [done|]. split; [split; [done|lia]|]. by exists ((i, t, bs) :: ll).
    + do 3 eexists. split; [done|]. split; [split; [lia|done]|]. by exists ((i, t, bs) :: ll).
  - intros a b info E Ei. destruct Hs as (Ho & i & t & bs & ll & Hrd & Hwh & El).
    unfold xdrmblk_control. change (XDR_SKIPBYTES =? XDR_PEEK) with false.
    change (XDR_SKIPBYTES =? XDR_SKIPBYTES) with true. cbn match. rewrite (rd_base _ _ _ _ _ Hrd), Ei.
    destruct (getbytes_loop_ok false (fuel (xb_heap s)) s i t bs ll a b Hrd Ho Hwh) as (s' & -> & Hs');
      [by apply (reading_fuel _ _ _ _ _ Hrd)|congruence|].
    by exists s'.
Qed.
(** [XDR_PEEK] after a word that the message does not have whole: the count is negative,
    the comparison unsigned, and the bytes after the end of the block are read. *)
Theorem mblk_peek_past_end s i t bs : reading s i t bs [] → (0 < length bs < 4)%nat →
  ∃ s' m, xdrmblk_getlong s = Ok (None, s') ∧ h_mblk (xb_heap s') !! i = Some m ∧ xb_handy s' < 0 ∧
    xdrmblk_control s' XDR_PEEK 0 = ('l ← load_long (h_mem (xb_heap s')) (b_rptr m); Ok (Some l, s')).
Proof.
  intros Hrd Hl. destruct (reading_mblk _ _ _ _ _ Hrd) as (m & d & Em & _).
  unfold xdrmblk_getlong. rewrite (rd_base _ _ _ _ _ Hrd), getlong_eq. cbv zeta. rewrite (rd_handy _ _ _ _ _ Hrd).
  set (z := Z.of_nat (length bs)). assert (0 < z < 4) by (unfold z; lia).
  rewrite s32_small by (unfold is_s32, W31, sizeof_long; lia).
  change (xb_handy (set_handy (z - sizeof_long) s)) with (z - sizeof_long). unfold sizeof_long at 2 4.
  rewrite (proj2 (Z.ltb_lt _ _)) by (unfold sizeof_long; lia).
  rewrite (proj2 (Z.eqb_neq _ _)) by (unfold sizeof_long; lia). simpl.
  do 2 eexists. split; [done|]. split; [exact Em|]. split; [unfold sizeof_long; simpl; lia|].
  unfold xdrmblk_control. simpl. rewrite (proj2 (Z.ltb_ge _ _)).
  - rewrite (rd_base _ _ _ _ _ Hrd). unfold get_mblk. by rewrite Em.
  - unfold u32, W32, sizeof_long. rewrite <- (Z_mod_plus_full _ 1). rewrite Z.mod_small; lia.
Qed.
End thms.

(** ** Examples *)

Lemma quiet_id : quiet id.
Proof. by intros h k i t pre cur m d. Qed.

(** A block for 8 bytes, and 3 words to put. *)
Lemma xdrmblk_grows_witness :
  ∃ s ok s', xdrmblk_init (allocb no_heap 8).2 [id] 1 XDR_ENCODE 64 = Ok s ∧
    run_puts [PLong 7; PBytes (replicate 30 1); PBytes (replicate 90 2)] s = Ok (ok, s') ∧
    (ok = true → ∃ i n, growing 1 64 s' (be32 7 ++ replicate 30 1 ++ replicate 90 2) i n).
Proof.
  destruct (init_encode no_heap 8 1 (allocb no_heap 8).2 [id] 64) as (s & n & E & _ & _ & Hl);
    [by apply heap_okb_ok|done|done|by vm_compute|].
  destruct (xdrmblk_grows 1 64 s [] [PLong 7; PBytes (replicate 30 1); PBytes (replicate 90 2)]) as (ok & s' & E' & Hr).
  - apply Hl; [done|]. constructor; [apply quiet_id|constructor].
  - repeat constructor; vm_compute; congruence.
  - exists s, ok, s'. split; [exact E|]. split; [exact E'|]. intros ->. exact Hr.
Defined.

(** The string "abcde", cut after its first word and a half. *)
Definition cut_string : heap :=
  MkHeap {[1 := MkMblk (Some 2) 100 108 11 0 0; 2 := MkMblk None 200 204 12 0 0]}
    {[11 := MkDblk 100 108 1 0 0 1 LASTFREE_OVERSIZE LASTFREE_OVERSIZE 0 KC_ESB;
      12 := MkDblk 200 204 1 0 0 2 LASTFREE_OVERSIZE LASTFREE_OVERSIZE 0 KC_ESB]}
    (list_to_map [(100, 0); (101, 0); (102, 0); (103, 5); (104, 97); (105, 98); (106, 99); (107, 100);
                  (200, 101); (201, 0); (202, 0); (203, 0)]) [] [].

Lemma cut_string_ok : heap_ok cut_string.
Proof. apply heap_okb_ok. by vm_compute. Qed.

Lemma cut_string_msg : msg cut_string (Some 1) [(1, 0, [0; 0; 0; 5; 97; 98; 99; 100]); (2, 0, [101; 0; 0; 0])].
Proof. apply (reads_msg 3); by vm_compute. Qed.

Definition abcde : option (list Z) := Some [97; 98; 99; 100; 101; 0].

Lemma mblk_codec_roundtrip_witness :
  ∃ s s' r r', xdrmblk_init (allocb no_heap 20).2 [] 1 XDR_ENCODE 0 = Ok s ∧
    xdr_string 255 s abcde = Ok (true, abcde, s') ∧ (∃ ty, msg (xb_heap s') (Some 1) [(1, ty, spec_string abcde)]) ∧
    xdrmblk_init cut_string [] 1 XDR_DECODE 0 = Ok r ∧ xdr_string 255 r None = Ok (true, abcde, r').
Proof.
  destruct (mblk_codec_roundtrip (xdr_string 255) spec_string (string_ok 255) string_init no_heap 20 1 (allocb no_heap 20).2
    abcde [] (xdr_string_codec 255)) as (s & s' & Es & Ep & _ & Hm & Hd).
  - by apply heap_okb_ok.
  - exists [97; 98; 99; 100; 101]. repeat split; [repeat constructor; lia|vm_compute; congruence].
  - vm_compute. congruence.
  - by vm_compute.
  - reflexivity.
  - destruct (Hd cut_string 1 0 [0; 0; 0; 5; 97; 98; 99; 100] [(2, 0, [101; 0; 0; 0])] [] None) as (r & r' & Er & Er').
    + apply cut_string_ok.
    + apply cut_string_msg.
    + reflexivity.
    + repeat constructor. by exists 1.
    + apply units_nil.
    + by vm_compute.
    + done.
    + exists s, s', r, r'. done.
Defined.

Lemma xdrmblk_rest_witness :
  ∃ s ok mp s', xdrmblk_init cut_string [] 1 XDR_DECODE 0 = Ok s ∧ xdrmblk_getmblk s = Ok (ok, Some mp, 5, s') ∧
    ∃ ll, msg (xb_heap s') (Some mp) ll ∧ bytes_of ll = [97; 98; 99; 100; 101; 0; 0; 0].
Proof.
  destruct (init_decode cut_string 1 0 [0; 0; 0; 5; 97; 98; 99; 100] [(2, 0, [101; 0; 0; 0])] [] cut_string_ok cut_string_msg)
    as (s & E & Hs); [repeat constructor; by exists 1|by vm_compute|].
  destruct (xdrmblk_rest s 5 [97; 98; 99; 100; 101; 0; 0; 0]) as [(ok & mp & s' & E' & _ & Hll) _]; [exact Hs|by exists 2|].
  exists s, ok, mp, s'. done.
Defined.

Lemma mblk_peek_past_end_witness :
  let s := MkXDRmblk XDR_DECODE (Some 1) 2 0 (put_mblk two_blocks 1 (MkMblk None 101 103 11 0 0)) [] in
  ∃ s', xdrmblk_getlong s = Ok (None, s') ∧ xb_handy s' < 0 ∧
    xdrmblk_control s' XDR_PEEK 0 = Fault.
Proof.
  intros s. destruct (mblk_peek_past_end s 1 0 [7; 8]) as (s' & m & E & Em & Hh & Ep).
  - split; try done; [by apply heap_okb_ok; vm_compute|apply (reads_msg 3); by vm_compute].
  - simpl. lia.
  - exists s'. split; [exact E|]. split; [exact Hh|]. rewrite Ep. vm_compute in E. injection E as <-.
    vm_compute in Em. injection Em as <-. reflexivity.
Defined.
