(* ===== verification/Callout.v ===== *)
(** * Callout tables (uts/common/os/callout.c, sys/callo.h)

    A callout table: 256 buckets, each a circular singly linked list of callouts,
    and a free list.  A list is the sequence of the addresses of its callouts in
    the order of [c_next]; the structures themselves are in [cs_callouts].

    - Each operation is what happens while [cs_lock] is held; [callout_execute]
      drops the lock to call the function, so it is [callout_execute] up to the
      first call and [callout_finish] from the return of a call to the next one.
    - Times are [long]: 32-bit and compared by their difference, which wraps.
    - The allocator ([kmem_perm_alloc], [kmem_alloc]) is the argument [fresh] of
      the operations that insert: [None] when every attempt failed.
    - Not modelled: the condition variables (a waiting [callout_delete] is the
      outcome [DelWait]), tracing and the [unsafe_driver] lock. *)

From S2P Require Import Prelude.

Definition CALLOUT_EXECUTING : Z := 2147483648.
Definition CALLOUT_UNSAFE_DRIVER : Z := 1073741824.
Definition CALLOUT_REALTIME : Z := 536870912.
Definition CALLOUT_NORMAL : Z := 268435456.
Definition CALLOUT_LONGTERM : Z := 134217728.
Definition CALLOUT_TABLE_ID_MASK : Z := Z.lor CALLOUT_REALTIME CALLOUT_NORMAL.
Definition CALLOUT_AUX_ID_MASK : Z := Z.lor CALLOUT_TABLE_ID_MASK CALLOUT_LONGTERM.
Definition CALLOUT_BUCKET_ID_MASK : Z := CALLOUT_LONGTERM - 1.
Definition CALLOUT_ID_MASK : Z := Z.lor CALLOUT_AUX_ID_MASK CALLOUT_BUCKET_ID_MASK.
Definition CALLOUT_LONGTERM_TICKS : Z := 16384.
Definition CALLOUT_BUCKETS : Z := 256.
Definition CALLOUT_BUCKET_MASK : Z := CALLOUT_BUCKETS - 1.

(** [callout_t]: [c_xid] is the bit pattern of the [int]. *)
Record callout := MkCallout {
  c_xid : Z;
  c_runtime : Z;
  c_func : Z;
  c_arg : Z;
  c_executor : Z
}.

Record callout_bucket := MkBucket {
  b_first : list Z;
  b_short_id : Z;
  b_long_id : Z
}.

Record callout_state := MkState {
  cs_callouts : gmap Z callout;
  cs_freelist : list Z;
  cs_curtime : Z;
  cs_runtime : Z;
  cs_ncallout : Z;
  cs_busyticks : Z;
  cs_bucket : list callout_bucket
}.

Definition set_c_xid (v : Z) (c : callout) := MkCallout v (c_runtime c) (c_func c) (c_arg c) (c_executor c).
Definition set_b_first (v : list Z) (b : callout_bucket) := MkBucket v (b_short_id b) (b_long_id b).

Definition with_callouts (cs : callout_state) v :=
  MkState v (cs_freelist cs) (cs_curtime cs) (cs_runtime cs) (cs_ncallout cs) (cs_busyticks cs) (cs_bucket cs).
Definition with_freelist (cs : callout_state) v :=
  MkState (cs_callouts cs) v (cs_curtime cs) (cs_runtime cs) (cs_ncallout cs) (cs_busyticks cs) (cs_bucket cs).
Definition with_curtime (cs : callout_state) v :=
  MkState (cs_callouts cs) (cs_freelist cs) v (cs_runtime cs) (cs_ncallout cs) (cs_busyticks cs) (cs_bucket cs).
Definition with_runtime (cs : callout_state) v :=
  MkState (cs_callouts cs) (cs_freelist cs) (cs_curtime cs) v (cs_ncallout cs) (cs_busyticks cs) (cs_bucket cs).
Definition with_busyticks (cs : callout_state) v :=
  MkState (cs_callouts cs) (cs_freelist cs) (cs_curtime cs) (cs_runtime cs) (cs_ncallout cs) v (cs_bucket cs).
Definition with_bucket (cs : callout_state) v :=
  MkState (cs_callouts cs) (cs_freelist cs) (cs_curtime cs) (cs_runtime cs) (cs_ncallout cs) (cs_busyticks cs) v.

Definition get_callout (cs : callout_state) (cp : Z) : res callout := deref (cs_callouts cs !! cp).

(** [&cs->cs_bucket[v & CALLOUT_BUCKET_MASK]]. *)
Definition bucket_no (v : Z) : nat := Z.to_nat (Z.land v CALLOUT_BUCKET_MASK).
Definition get_bucket (cs : callout_state) (i : nat) : res callout_bucket := deref (cs_bucket cs !! i).
Definition put_bucket (cs : callout_state) (i : nat) (b : callout_bucket) : callout_state :=
  with_bucket cs (<[i := b]> (cs_bucket cs)).

Definition executing (c : callout) : bool := negb (Z.land (c_xid c) CALLOUT_EXECUTING =? 0).

(** ** Setting up *)

Definition callout_setup (table_id lbolt : Z) : callout_state :=
  MkState ∅ [] lbolt lbolt 0 0
    (map (λ i, let i := Z.of_nat i in
            MkBucket [] (Z.lor i table_id) (Z.lor (Z.lor i table_id) CALLOUT_LONGTERM))
       (seq 0 (Z.to_nat CALLOUT_BUCKETS))).

(** ** Inserting *)

(** A zeroed structure at [fresh]. *)
Definition callout_alloc (cs : callout_state) (fresh : option Z) : res (Z * callout_state) :=
  match fresh with
  | None => Panic "Timeout table overflow"
  | Some cp =>
    Ok (cp, MkState (<[cp := MkCallout 0 0 0 0 0]> (cs_callouts cs)) (cs_freelist cs) (cs_curtime cs)
              (cs_runtime cs) (s32 (cs_ncallout cs + 1)) (cs_busyticks cs) (cs_bucket cs))
  end.

(** The first callout of the free list, or a new one; [cs_freelist] becomes its
    [c_next]. *)
Definition callout_take (cs : callout_state) (fresh : option Z) : res (Z * callout_state) :=
  match cs_freelist cs with
  | [] => callout_alloc cs fresh
  | cp :: rest => Ok (cp, with_freelist cs rest)
  end.

Definition run_time (lbolt delta curtime : Z) : Z :=
  let runtime := s32 (lbolt + delta) in
  if s32 (runtime - curtime) <=? 0 then s32 (curtime + 1) else runtime.

(** The next ID of the bucket, and the bucket with it. *)
Definition next_id (b : callout_bucket) (ticks : Z) : Z * callout_bucket :=
  if CALLOUT_LONGTERM_TICKS <? ticks then
    let id := Z.lor (b_long_id b - CALLOUT_LONGTERM + CALLOUT_BUCKETS) CALLOUT_LONGTERM in
    (id, MkBucket (b_first b) (b_short_id b) id)
  else
    let id := Z.land (b_short_id b + CALLOUT_BUCKETS) (Z.lnot CALLOUT_LONGTERM) in
    (id, MkBucket (b_first b) id (b_long_id b)).

(** [callout_insert]; [unsafe] is [UNSAFE_DRIVER_LOCK_HELD ()]. *)
Definition callout_insert (cs : callout_state) (fresh : option Z) (unsafe : bool) (lbolt func arg delta : Z) :
    res (Z * callout_state) :=
  '(cp, cs) ← callout_take cs fresh;
  c ← get_callout cs cp;
  let curtime := cs_curtime cs in
  let runtime := run_time lbolt delta curtime in
  b ← get_bucket cs (bucket_no runtime);
  let '(id, b) := next_id b (s32 (runtime - curtime)) in
  let xid := if unsafe then Z.lor id CALLOUT_UNSAFE_DRIVER else id in
  let c := MkCallout xid runtime func arg (c_executor c) in
  Ok (id, put_bucket (with_callouts cs (<[cp := c]> (cs_callouts cs))) (bucket_no runtime)
            (set_b_first (cp :: b_first b) b)).

(** ** Deleting *)

(** What [callout_delete] comes to: a value to return, or waiting for the callout
    [cp] to have another [c_xid] before it returns -1. *)
Inductive del_result := DelRet (time_left : Z) | DelWait (cp xid : Z).

(** The search of a bucket: the callouts before, the callout found and the ones
    after. *)
Fixpoint find_id (cs : callout_state) (id : Z) (l : list Z) : res (option (list Z * Z * list Z)) :=
  match l with
  | [] => Ok None
  | cp :: rest =>
    c ← get_callout cs cp;
    if negb (Z.land (c_xid c) CALLOUT_ID_MASK =? id) then
      r ← find_id cs id rest;
      Ok (match r with
          | Some (pre, x, post) => Some (cp :: pre, x, post)
          | None => None
          end)
    else Ok (Some ([], cp, rest))
  end.

Definition callout_delete (cs : callout_state) (curthread id : Z) : res (del_result * callout_state) :=
  b ← get_bucket cs (bucket_no id);
  r ← find_id cs id (b_first b);
  match r with
  | None => Ok (DelRet (-1), cs)
  | Some (pre, cp, post) =>
    c ← get_callout cs cp;
    if executing c then
      if c_executor c =? curthread then Ok (DelRet (-1), cs)
      else Ok (DelWait cp (c_xid c), cs)
    else
      let time_left := s32 (c_runtime c - cs_curtime cs) in
      Ok (DelRet (if time_left <? 0 then 0 else time_left),
          with_freelist (put_bucket cs (bucket_no id) (set_b_first (pre ++ post) b))
            (cp :: cs_freelist cs))
  end.

(** ** The clock *)

(** The first callout of a bucket to run at [runtime] and not executing. *)
Fixpoint find_due (cs : callout_state) (runtime : Z) (l : list Z) : res (option Z) :=
  match l with
  | [] => Ok None
  | cp :: rest =>
    c ← get_callout cs cp;
    if negb (c_runtime c =? runtime) || executing c then find_due cs runtime rest
    else Ok (Some cp)
  end.

(** The loop of [callout_schedule]; [true] when a callout is due: it signals the
    thread pool or the soft interrupt. *)
Fixpoint schedule_loop (n : nat) (cs : callout_state) : res (bool * callout_state) :=
  let runtime := cs_runtime cs in
  if 0 <? s32 (runtime - cs_curtime cs) then Ok (false, cs)
  else
    b ← get_bucket cs (bucket_no runtime);
    r ← find_due cs runtime (b_first b);
    match r, n with
    | Some cp, _ => Ok (true, with_busyticks cs (s32 (cs_busyticks cs + 1)))
    | None, O => Fault
    | None, S n => schedule_loop n (with_runtime cs (s32 (runtime + 1)))
    end.

(** The ticks from [cs_runtime] to [cs_curtime], which the loops go through, and a few more: as
    many as there are between two times, however far they have wrapped. *)
Definition ticks_left (cs : callout_state) : nat :=
  Z.to_nat (3 - Z.min (s32 (cs_runtime cs - cs_curtime cs)) (s32 (cs_runtime cs + 1 - cs_curtime cs))).

Definition callout_schedule (cs : callout_state) (lbolt : Z) : res (bool * callout_state) :=
  let cs := with_curtime cs lbolt in schedule_loop (ticks_left cs) cs.

(** ** Executing *)

(** Marks the callout as executing; then the lock is dropped and the function
    called. *)
Definition callout_start (cs : callout_state) (curthread cp : Z) : res callout_state :=
  c ← get_callout cs cp;
  Ok (with_callouts cs (<[cp := MkCallout (Z.lor (c_xid c) CALLOUT_EXECUTING) (c_runtime c) (c_func c)
                                  (c_arg c) curthread]> (cs_callouts cs))).

(** [callout_execute] from the callouts [l] of the bucket of [runtime] on: up to
    the next call, [Some (runtime, cp)], or to its end. *)
Fixpoint execute_from (n : nat) (cs : callout_state) (curthread runtime : Z) (l : list Z) :
    res (option (Z * Z) * callout_state) :=
  r ← find_due cs runtime l;
  match r with
  | Some cp => cs ← callout_start cs curthread cp; Ok (Some (runtime, cp), cs)
  | None =>
    let cs := if cs_runtime cs =? runtime then with_runtime cs (s32 (runtime + 1)) else cs in
    if 0 <? s32 (cs_runtime cs - cs_curtime cs) then Ok (None, cs)
    else
      match n with
      | O => Fault
      | S n =>
        b ← get_bucket cs (bucket_no (cs_runtime cs));
        execute_from n cs curthread (cs_runtime cs) (b_first b)
      end
  end.

Definition callout_execute (cs : callout_state) (curthread : Z) : res (option (Z * Z) * callout_state) :=
  if 0 <? s32 (cs_runtime cs - cs_curtime cs) then Ok (None, cs)
  else
    b ← get_bucket cs (bucket_no (cs_runtime cs));
    execute_from (ticks_left cs) cs curthread (cs_runtime cs) (b_first b).

(** The callouts before and after [cp]. *)
Fixpoint split_at_cp (cp : Z) (l : list Z) : option (list Z * list Z) :=
  match l with
  | [] => None
  | x :: rest =>
    if x =? cp then Some ([], rest)
    else match split_at_cp cp rest with
         | Some (pre, post) => Some (x :: pre, post)
         | None => None
         end
  end.

(** From the return of the function of [cp] on: the callout goes to the free list
    and the search goes on after it.  A bucket without [cp] would be searched for
    ever. *)
Definition callout_finish (cs : callout_state) (curthread runtime cp : Z) :
    res (option (Z * Z) * callout_state) :=
  b ← get_bucket cs (bucket_no runtime);
  match split_at_cp cp (b_first b) with
  | None => Fault
  | Some (pre, next) =>
    c ← get_callout cs cp;
    let cs := put_bucket cs (bucket_no runtime) (set_b_first (pre ++ next) b) in
    let cs := with_freelist (with_callouts cs (<[cp := set_c_xid 0 c]> (cs_callouts cs))) (cp :: cs_freelist cs) in
    execute_from (ticks_left cs) cs curthread runtime next
  end.

(** ** The two tables *)

Record tables := MkTables { callout_table : callout_state; rt_callout_table : callout_state }.

Definition timeout (ts : tables) (fresh : option Z) (unsafe : bool) (lbolt func arg delta : Z) : res (Z * tables) :=
  '(id, cs) ← callout_insert (callout_table ts) fresh unsafe lbolt func arg delta;
  Ok (id, MkTables cs (rt_callout_table ts)).

Definition realtime_timeout (ts : tables) (fresh : option Z) (unsafe : bool) (lbolt func arg delta : Z) :
    res (Z * tables) :=
  '(id, cs) ← callout_insert (rt_callout_table ts) fresh unsafe lbolt func arg delta;
  Ok (id, MkTables (callout_table ts) cs).

Definition untimeout (ts : tables) (curthread id : Z) : res (del_result * tables) :=
  if negb (Z.land id CALLOUT_REALTIME =? 0) then
    '(r, cs) ← callout_delete (rt_callout_table ts) curthread id; Ok (r, MkTables (callout_table ts) cs)
  else
    '(r, cs) ← callout_delete (callout_table ts) curthread id; Ok (r, MkTables cs (rt_callout_table ts)).

(** ** Checkpoint and resume *)

(** One bucket of [callout_save]: what stays and what moves to the head of the
    save bucket. *)
Fixpoint save_bucket (cs : callout_state) (l saved : list Z) : res (list Z * list Z) :=
  match l with
  | [] => Ok ([], saved)
  | cp :: rest =>
    c ← get_callout cs cp;
    if negb (Z.lor (c_xid c) CALLOUT_EXECUTING =? 0) then
      '(stay, saved) ← save_bucket cs rest saved; Ok (cp :: stay, saved)
    else save_bucket cs rest (cp :: saved)
  end.

Fixpoint save_buckets (cs : callout_state) (bs : list callout_bucket) :
    res (list callout_bucket * list callout_bucket) :=
  match bs with
  | [] => Ok ([], [])
  | b :: bs =>
    '(stay, saved) ← save_bucket cs (b_first b) [];
    '(bs, obs) ← save_buckets cs bs;
    Ok (set_b_first stay b :: bs, set_b_first saved b :: obs)
  end.

(** The current table and the save table. *)
Definition callout_save (cs : callout_state) : res (callout_state * callout_state) :=
  '(bs, obs) ← save_buckets cs (cs_bucket cs);
  Ok (with_bucket (with_busyticks cs 0) bs, with_bucket cs obs).

Definition callout_restore (cs ocs : callout_state) : callout_state :=
  with_runtime
    (with_busyticks
       (with_bucket cs
          (zip_with (λ b ob, set_b_first (rev (b_first ob) ++ b_first b) b) (cs_bucket cs) (cs_bucket ocs)))
       (s32 (cs_busyticks cs + cs_busyticks ocs)))
    (cs_runtime ocs).
