(* ===== verification/CalloutProps.v ===== *)
(** * Invariants of callout tables

    IDs, the shape of a table, and the lemmas on the searches; the table with its
    threads as a step relation is in [CalloutSys]. *)

From S2P Require Import Prelude Callout.

(** ** Times *)

Lemma s32_add x j : is_s32 (s32 x + j) → s32 (x + j) = s32 x + j.
Proof.
  intros H. assert (E : s32 (x + j) = s32 (s32 x + j)).
  { rewrite <- s32_u32, <- (s32_u32 (s32 x + j)). f_equal. unfold u32.
    rewrite <- (Zplus_mod_idemp_l x), <- (Zplus_mod_idemp_l (s32 x)). do 2 f_equal. apply (eq_sym (u32_s32 x)). }
  rewrite E. by apply s32_small.
Qed.

Lemma s32_sub_l a b : s32 (s32 a - b) = s32 (a - b).
Proof.
  rewrite <- s32_u32, <- (s32_u32 (a - b)). f_equal. unfold u32.
  rewrite <- (Zminus_mod_idemp_l (s32 a)), <- (Zminus_mod_idemp_l a). do 2 f_equal. apply u32_s32.
Qed.

Lemma s32_sub_r a b : s32 (a - s32 b) = s32 (a - b).
Proof.
  rewrite <- s32_u32, <- (s32_u32 (a - b)). f_equal. unfold u32.
  rewrite <- (Zminus_mod_idemp_r a (s32 b)), <- (Zminus_mod_idemp_r a b). do 2 f_equal. apply u32_s32.
Qed.

Lemma s32_diff_0 a b : is_s32 a → is_s32 b → s32 (a - b) = 0 → a = b.
Proof.
  intros Ha Hb E. destruct (Z.eq_dec (a - b) 0); [lia|]. unfold_words.
  destruct (Z_lt_ge_dec (a - b + 2147483648) 0).
  - rewrite (Z.mod_eq (a - b + 2147483648)) in E by lia.
    replace ((a - b + 2147483648) / 4294967296) with (-1) in E; [lia|].
    apply Z.div_unique_pos with (r := a - b + 2147483648 + 4294967296); lia.
  - destruct (Z_lt_ge_dec (a - b + 2147483648) 4294967296); [rewrite Z.mod_small in E; lia|].
    rewrite (Z.mod_eq (a - b + 2147483648)) in E by lia.
    replace ((a - b + 2147483648) / 4294967296) with 1 in E; [lia|].
    apply Z.div_unique_pos with (r := a - b + 2147483648 - 4294967296); lia.
Qed.

Lemma s32_opp x : s32 x ≠ - W31 → s32 (- x) = - s32 x.
Proof.
  intros H. pose proof (s32_range x) as Hr.
  rewrite <- (Z.add_0_l (- x)). rewrite Z.add_opp_r, <- s32_sub_r. apply s32_small.
  unfold is_s32 in *. lia.
Qed.

(** ** Bits of IDs *)

Lemma land_pow2 x n : 0 ≤ n → Z.land x (2 ^ n) = if Z.testbit x n then 2 ^ n else 0.
Proof.
  intros Hn. apply Z.bits_inj'. intros m Hm. rewrite Z.land_spec, Z.pow2_bits_eqb by done.
  destruct (Z.eqb_spec n m) as [<-|Hne].
  - rewrite andb_true_r. destruct (Z.testbit x n); [by rewrite Z.pow2_bits_true|by rewrite Z.bits_0].
  - rewrite andb_false_r. destruct (Z.testbit x n); [by rewrite Z.pow2_bits_false|by rewrite Z.bits_0].
Qed.

Lemma land_lnot_pow2 x n : 0 ≤ n → Z.land x (Z.lnot (2 ^ n)) = x - (if Z.testbit x n then 2 ^ n else 0).
Proof.
  intros Hn. assert (E : Z.land x (Z.lnot (2 ^ n)) + Z.land x (2 ^ n) = x).
  { rewrite Z.add_nocarry_lxor.
    - apply Z.bits_inj'. intros m Hm.
      rewrite Z.lxor_spec, !Z.land_spec, Z.lnot_spec by done. destruct (Z.testbit x m), (Z.testbit (2 ^ n) m); done.
    - apply Z.bits_inj'. intros m Hm. rewrite !Z.land_spec, Z.lnot_spec, Z.bits_0 by done.
      destruct (Z.testbit x m), (Z.testbit (2 ^ n) m); done. }
  rewrite land_pow2 in E by done. lia.
Qed.

Lemma lor_pow2 x n : 0 ≤ n → Z.lor x (2 ^ n) = x + (if Z.testbit x n then 0 else 2 ^ n).
Proof.
  intros Hn. destruct (Z.testbit x n) eqn:E.
  - rewrite Z.add_0_r. apply Z.bits_inj'. intros m Hm. rewrite Z.lor_spec, Z.pow2_bits_eqb by done.
    destruct (Z.eqb_spec n m) as [<-|]; [by rewrite E|by rewrite orb_false_r].
  - rewrite Z.add_nocarry_lxor; [|rewrite land_pow2, E by done; done].
    apply eq_sym, Z.lxor_lor. by rewrite land_pow2, E.
Qed.

Lemma testbit_div x n b q r :
  0 ≤ n → x = (2 * q + b) * 2 ^ n + r → 0 ≤ r < 2 ^ n → b = 0 ∨ b = 1 → Z.testbit x n = (b =? 1).
Proof.
  intros Hn -> Hr Hb. rewrite Z.testbit_eqb by done. rewrite Z.div_add_l by lia.
  rewrite (Z.div_small r) by done. rewrite Z.add_0_r.
  replace ((2 * q + b) mod 2) with b; [done|]. apply Z.mod_unique_pos with (q := q); lia.
Qed.

Lemma land_255 v : Z.land v CALLOUT_BUCKET_MASK = v mod 256.
Proof. exact (Z.land_ones v 8 ltac:(lia)). Qed.

Lemma bucket_no_lt v : (bucket_no v < 256)%nat.
Proof. unfold bucket_no. rewrite land_255. pose proof (Z.mod_pos_bound v 256). lia. Qed.

Lemma land_id v : Z.land v CALLOUT_ID_MASK = v mod 1073741824.
Proof. exact (Z.land_ones v 30 ltac:(lia)). Qed.

(** The tables: [CALLOUT_NORMAL] and [CALLOUT_REALTIME]. *)
Definition is_table (tbl : Z) : Prop := tbl = CALLOUT_NORMAL ∨ tbl = CALLOUT_REALTIME.

(** The ID number [ctr] of class [long] of bucket [i]. *)
Definition mk_id (tbl : Z) (long : bool) (ctr : Z) (i : nat) : Z :=
  tbl + (if long then CALLOUT_LONGTERM else 0) + 256 * ctr + Z.of_nat i.

Definition id_wrap : Z := 524288.

Lemma next_ctr c : 0 ≤ c < id_wrap →
  0 ≤ (c + 1) mod id_wrap < id_wrap ∧
  ((c + 1 < id_wrap ∧ (c + 1) mod id_wrap = c + 1) ∨ (c + 1 = id_wrap ∧ (c + 1) mod id_wrap = 0)).
Proof.
  intros Hc. unfold id_wrap in *. split; [apply Z.mod_pos_bound; lia|].
  destruct (decide (c + 1 < 524288)); [left; split; [done|]; apply Z.mod_small; lia|right].
  assert (c + 1 = 524288) as -> by lia. done.
Qed.

Lemma next_short_id tbl c i :
  is_table tbl → 0 ≤ c < id_wrap → (i < 256)%nat →
  Z.land (mk_id tbl false c i + CALLOUT_BUCKETS) (Z.lnot CALLOUT_LONGTERM) =
    mk_id tbl false ((c + 1) mod id_wrap) i.
Proof.
  intros Ht Hc Hi. change CALLOUT_LONGTERM with (2 ^ 27) at 1. rewrite land_lnot_pow2 by lia.
  destruct (next_ctr c Hc) as [_ [[Hl ->]|[Hl ->]]]; unfold id_wrap, mk_id, CALLOUT_BUCKETS in *;
    destruct Ht as [-> | ->]; unfold CALLOUT_NORMAL, CALLOUT_REALTIME.
  - rewrite (testbit_div _ 27 0 1 (256 * (c + 1) + Z.of_nat i)) by lia. simpl. lia.
  - rewrite (testbit_div _ 27 0 2 (256 * (c + 1) + Z.of_nat i)) by lia. simpl. lia.
  - rewrite (testbit_div _ 27 1 1 (Z.of_nat i)) by lia. simpl. lia.
  - rewrite (testbit_div _ 27 1 2 (Z.of_nat i)) by lia. simpl. lia.
Qed.

Lemma next_long_id tbl c i :
  is_table tbl → 0 ≤ c < id_wrap → (i < 256)%nat →
  Z.lor (mk_id tbl true c i - CALLOUT_LONGTERM + CALLOUT_BUCKETS) CALLOUT_LONGTERM =
    mk_id tbl true ((c + 1) mod id_wrap) i.
Proof.
  intros Ht Hc Hi. change CALLOUT_LONGTERM with (2 ^ 27) at 2. rewrite lor_pow2 by lia.
  destruct (next_ctr c Hc) as [_ [[Hl ->]|[Hl ->]]]; unfold id_wrap, mk_id, CALLOUT_BUCKETS, CALLOUT_LONGTERM in *;
    destruct Ht as [-> | ->]; unfold CALLOUT_NORMAL, CALLOUT_REALTIME.
  - rewrite (testbit_div _ 27 0 1 (256 * (c + 1) + Z.of_nat i)) by lia. simpl. lia.
  - rewrite (testbit_div _ 27 0 2 (256 * (c + 1) + Z.of_nat i)) by lia. simpl. lia.
  - rewrite (testbit_div _ 27 1 1 (Z.of_nat i)) by lia. simpl. lia.
  - rewrite (testbit_div _ 27 1 2 (Z.of_nat i)) by lia. simpl. lia.
Qed.

Lemma mk_id_range tbl long c i :
  is_table tbl → 0 ≤ c < id_wrap → (i < 256)%nat →
  0 < mk_id tbl long c i < 1073741824 ∧ mk_id tbl long c i mod 256 = Z.of_nat i ∧
  mk_id tbl long c i / 268435456 = tbl / 268435456.
Proof.
  intros Ht Hc Hi. unfold mk_id, id_wrap, CALLOUT_LONGTERM in *.
  split; [destruct Ht as [-> | ->], long; unfold CALLOUT_NORMAL, CALLOUT_REALTIME; lia|split].
  - destruct Ht as [-> | ->], long; unfold CALLOUT_NORMAL, CALLOUT_REALTIME; symmetry.
    + apply Z.mod_unique_pos with (q := 1048576 + 524288 + c); lia.
    + apply Z.mod_unique_pos with (q := 1048576 + c); lia.
    + apply Z.mod_unique_pos with (q := 2097152 + 524288 + c); lia.
    + apply Z.mod_unique_pos with (q := 2097152 + c); lia.
  - destruct Ht as [-> | ->], long; unfold CALLOUT_NORMAL, CALLOUT_REALTIME; 
      try change (268435456 / 268435456) with 1; try change (536870912 / 268435456) with 2; symmetry.
    + apply Z.div_unique_pos with (r := 134217728 + 256 * c + Z.of_nat i); simpl; lia.
    + apply Z.div_unique_pos with (r := 256 * c + Z.of_nat i); simpl; lia.
    + apply Z.div_unique_pos with (r := 134217728 + 256 * c + Z.of_nat i); simpl; lia.
    + apply Z.div_unique_pos with (r := 256 * c + Z.of_nat i); simpl; lia.
Qed.

Lemma executing_bit c : executing c = Z.testbit (c_xid c) 31.
Proof.
  unfold executing. change CALLOUT_EXECUTING with (2 ^ 31). rewrite land_pow2 by lia.
  by destruct (Z.testbit (c_xid c) 31).
Qed.

Lemma small_not_executing x : 0 ≤ x < W31 → Z.testbit x 31 = false.
Proof.
  intros Hx. rewrite (testbit_div x 31 0 0 x); unfold W31 in *; [done|lia|lia|simpl; lia|by left].
Qed.

(** ** Well-formed tables *)

Definition xid_ok (tbl : Z) (i : nat) (xid : Z) : Prop :=
  0 ≤ xid < W32 ∧ xid mod 256 = Z.of_nat i ∧ (xid mod 1073741824) / 268435456 = tbl / 268435456.

Record co_wf (tbl : Z) (cs : callout_state) : Prop := {
  wf_len : length (cs_bucket cs) = 256%nat;
  wf_ids i b : cs_bucket cs !! i = Some b → ∃ s l, 0 ≤ s < id_wrap ∧ 0 ≤ l < id_wrap ∧
    b_short_id b = mk_id tbl false s i ∧ b_long_id b = mk_id tbl true l i;
  wf_in i b cp : cs_bucket cs !! i = Some b → cp ∈ b_first b → ∃ c, cs_callouts cs !! cp = Some c ∧
    bucket_no (c_runtime c) = i ∧ is_s32 (c_runtime c) ∧ xid_ok tbl i (c_xid c);
  wf_nodup i b : cs_bucket cs !! i = Some b → NoDup (b_first b);
  wf_free cp : cp ∈ cs_freelist cs → is_Some (cs_callouts cs !! cp) ∧
    ∀ i b, cs_bucket cs !! i = Some b → cp ∉ b_first b;
  wf_free_nodup : NoDup (cs_freelist cs);
  wf_curtime : is_s32 (cs_curtime cs);
  wf_runtime : is_s32 (cs_runtime cs)
}.

Lemma wf_bucket tbl cs v : co_wf tbl cs → ∃ b, cs_bucket cs !! bucket_no v = Some b.
Proof.
  intros Hwf. apply lookup_lt_is_Some. rewrite (wf_len _ _ Hwf). apply bucket_no_lt.
Qed.

(** A callout is in one bucket only. *)
Lemma wf_one tbl cs i j bi bj cp :
  co_wf tbl cs → cs_bucket cs !! i = Some bi → cs_bucket cs !! j = Some bj →
  cp ∈ b_first bi → cp ∈ b_first bj → i = j.
Proof.
  intros Hwf Hi Hj H1 H2. destruct (wf_in _ _ Hwf _ _ _ Hi H1) as (c & Hc & <- & _).
  destruct (wf_in _ _ Hwf _ _ _ Hj H2) as (c' & Hc' & <- & _). congruence.
Qed.

(** The callout is waiting for its time. *)
Definition pending (cs : callout_state) (cp : Z) (c : callout) : Prop :=
  cs_callouts cs !! cp = Some c ∧ executing c = false ∧
  ∃ b, cs_bucket cs !! bucket_no (c_runtime c) = Some b ∧ cp ∈ b_first b.

(** No callout of [l] is to be started at [runtime]. *)
Definition clean (cs : callout_state) (runtime : Z) (l : list Z) : Prop :=
  ∀ cp c, cp ∈ l → cs_callouts cs !! cp = Some c → executing c = false → c_runtime c ≠ runtime.

Lemma clean_cons cs runtime cp l :
  clean cs runtime [cp] → clean cs runtime l → clean cs runtime (cp :: l).
Proof.
  intros H1 H2 x c Hx. apply elem_of_cons in Hx as [->|Hx]; [|by apply H2].
  apply H1, list_elem_of_here.
Qed.

Lemma clean_app cs runtime l1 l2 :
  clean cs runtime (l1 ++ l2) ↔ clean cs runtime l1 ∧ clean cs runtime l2.
Proof.
  split.
  - intros H. split; intros x c Hx; apply H, elem_of_app; auto.
  - intros [H1 H2] x c Hx. apply elem_of_app in Hx as [Hx|Hx]; [by apply H1|by apply H2].
Qed.

Lemma find_due_spec cs runtime l :
  (∀ cp, cp ∈ l → is_Some (cs_callouts cs !! cp)) →
  (find_due cs runtime l = Ok None ∧ clean cs runtime l) ∨
  (∃ pre cp post c, find_due cs runtime l = Ok (Some cp) ∧ l = pre ++ cp :: post ∧ clean cs runtime pre ∧
    cs_callouts cs !! cp = Some c ∧ executing c = false ∧ c_runtime c = runtime).
Proof.
  induction l as [|cp l IH]; intros Hl.
  - left. split; [done|]. intros x c Hx. by apply elem_of_nil in Hx.
  - destruct (Hl cp) as [c Hc]; [apply list_elem_of_here|]. simpl. unfold get_callout. rewrite Hc. simpl.
    destruct (Z.eqb_spec (c_runtime c) runtime) as [Er|Er]; [destruct (executing c) eqn:Ex|]; simpl.
    2: { right. exists [], cp, l, c. split_and!; try done. intros x c' Hx. by apply elem_of_nil in Hx. }
    all: assert (H1 : clean cs runtime [cp]) by
      (intros x c' Hx Hc'; apply list_elem_of_singleton in Hx as ->; congruence).
    all: destruct IH as [[E Hcl]|(pre & cp' & post & c' & E & El & Hpre & Hrest)];
      [intros x Hx; by apply Hl, list_elem_of_further|left; split; [done|by apply clean_cons]|
       right; exists (cp :: pre), cp', post, c'; split; [done|]; split; [by rewrite El|];
       split; [by apply clean_cons|done]].
Qed.

(** Every pending callout is yet to come. *)
Definition ahead (cs : callout_state) : Prop :=
  ∀ cp c, pending cs cp c → 0 ≤ s32 (c_runtime c - cs_runtime cs).

Definition clock_ok (cs : callout_state) : Prop := 0 ≤ s32 (cs_curtime cs + 1 - cs_runtime cs).

(** The clock hand may move on when nothing is due in its bucket. *)
Lemma ahead_advance tbl cs b :
  co_wf tbl cs → ahead cs → cs_bucket cs !! bucket_no (cs_runtime cs) = Some b →
  clean cs (cs_runtime cs) (b_first b) → ahead (with_runtime cs (s32 (cs_runtime cs + 1))).
Proof.
  intros Hwf Ha Hb Hcl cp c (Hc & Hx & b' & Hb' & Hin). simpl in *.
  assert (Hp : 0 ≤ s32 (c_runtime c - cs_runtime cs)) by (apply (Ha cp); split_and!; eauto).
  destruct (wf_in _ _ Hwf _ _ _ Hb' Hin) as (c' & Hc' & Hbn & Hs & _).
  assert (c' = c) as -> by congruence.
  rewrite s32_sub_r. replace (c_runtime c - (cs_runtime cs + 1)) with (c_runtime c - cs_runtime cs + -1) by lia.
  pose proof (s32_range (c_runtime c - cs_runtime cs)) as Hr. unfold is_s32, W31 in Hr.
  assert (s32 (c_runtime c - cs_runtime cs) ≠ 0).
  { intros E. apply s32_diff_0 in E; [|done|apply (wf_runtime _ _ Hwf)].
    rewrite E in Hb'. simplify_eq. by apply (Hcl cp c). }
  rewrite s32_add; unfold is_s32, W31; lia.
Qed.

Lemma with_runtime_wf tbl cs r : co_wf tbl cs → is_s32 r → co_wf tbl (with_runtime cs r).
Proof. intros [] Hr. by split. Qed.

Lemma with_curtime_wf tbl cs r : co_wf tbl cs → is_s32 r → co_wf tbl (with_curtime cs r).
Proof. intros [] Hr. by split. Qed.

(** The callout can be started. *)
Definition due (cs : callout_state) (runtime cp : Z) (c : callout) : Prop :=
  cs_callouts cs !! cp = Some c ∧ executing c = false ∧ c_runtime c = runtime ∧
  0 ≤ s32 (cs_curtime cs - runtime) ∧
  ∃ b pre post, cs_bucket cs !! bucket_no runtime = Some b ∧ b_first b = pre ++ cp :: post ∧ clean cs runtime pre.

Definition started (c : callout) (tid : Z) : callout :=
  MkCallout (Z.lor (c_xid c) CALLOUT_EXECUTING) (c_runtime c) (c_func c) (c_arg c) tid.

Lemma advance_facts cs :
  0 ≤ s32 (cs_curtime cs - cs_runtime cs) →
  s32 (s32 (cs_runtime cs + 1) - cs_curtime cs) = 1 - s32 (cs_curtime cs - cs_runtime cs) ∧
  clock_ok (with_runtime cs (s32 (cs_runtime cs + 1))).
Proof.
  intros Hc. pose proof (s32_range (cs_curtime cs - cs_runtime cs)) as Hr. unfold is_s32, W31 in Hr. split.
  - rewrite s32_sub_l. replace (cs_runtime cs + 1 - cs_curtime cs) with (- (cs_curtime cs - cs_runtime cs) + 1) by lia.
    rewrite s32_add; rewrite s32_opp; unfold is_s32, W31; lia.
  - unfold clock_ok. simpl. rewrite s32_sub_r. by replace (cs_curtime cs + 1 - (cs_runtime cs + 1)) with (cs_curtime cs - cs_runtime cs) by lia.
Qed.

Lemma behind_facts cs :
  0 ≤ s32 (cs_curtime cs + 1 - cs_runtime cs) →
  s32 (cs_runtime cs - cs_curtime cs) = - s32 (cs_curtime cs - cs_runtime cs) ∧
  -1 ≤ s32 (cs_curtime cs - cs_runtime cs).
Proof.
  intros Hc. set (x := cs_curtime cs - cs_runtime cs) in *.
  replace (cs_curtime cs + 1 - cs_runtime cs) with (x + 1) in Hc by lia.
  replace (cs_runtime cs - cs_curtime cs) with (- x) by lia.
  pose proof (s32_range x) as Hr. unfold is_s32, W31 in Hr.
  destruct (decide (s32 x = 2147483647)) as [E|Hne].
  - split; [|lia]. apply s32_opp. unfold W31. lia.
  - rewrite s32_add in Hc by (unfold is_s32, W31; lia). split; [|lia]. apply s32_opp. unfold W31. lia.
Qed.

(** The search for a callout to execute: it always ends; it leaves behind nothing
    due, moves only [cs_runtime], and stops at a due callout or past the clock. *)
Lemma execute_from_spec tbl n cs tid runtime b pre l :
  co_wf tbl cs → ahead cs → clock_ok cs → is_s32 runtime →
  cs_bucket cs !! bucket_no runtime = Some b → b_first b = pre ++ l → clean cs runtime pre →
  0 ≤ s32 (cs_curtime cs - runtime) →
  s32 (cs_curtime cs - cs_runtime cs) + (if runtime =? cs_runtime cs then 0 else 1) ≤ Z.of_nat n →
  ∃ r rt, is_s32 rt ∧ let cs1 := with_runtime cs rt in ahead cs1 ∧ clock_ok cs1 ∧
    match r with
    | None => execute_from n cs tid runtime l = Ok (None, cs1) ∧ 0 < s32 (rt - cs_curtime cs)
    | Some (rt', cp) => ∃ c, due cs1 rt' cp c ∧
        execute_from n cs tid runtime l =
          Ok (Some (rt', cp), with_callouts cs1 (<[cp := started c tid]> (cs_callouts cs)))
    end.
Proof.
  revert cs runtime b pre l. induction n as [|n IH]; intros cs runtime b pre l Hwf Ha Hck Hrt Hb El Hpre Hcur Hn;
    (destruct (find_due_spec cs runtime l) as [[E Hcl]|(p2 & cp & post & c & E & El2 & Hp2 & Hc & Hx & Hr)];
      [intros x Hx; destruct (wf_in _ _ Hwf _ _ x Hb) as (c & Hc & _); [rewrite El; apply elem_of_app; by right|by eexists]| |]).
  2,4: (exists (Some (runtime, cp)), (cs_runtime cs);
    replace (with_runtime cs (cs_runtime cs)) with cs by (by destruct cs);
    split; [apply (wf_runtime _ _ Hwf)|]; split; [done|]; split; [done|]; exists c; split;
    [split_and!; try done; exists b, (pre ++ p2), post; split_and!; [done|by rewrite El, El2, <- app_assoc|by apply clean_app]|
     simpl; rewrite E; simpl; unfold callout_start, get_callout; rewrite Hc; simpl; by destruct cs]).
  all: assert (Hall : clean cs runtime (b_first b)) by (rewrite El; by apply clean_app).
  all: pose proof (s32_range (cs_curtime cs - cs_runtime cs)) as Hd; unfold clock_ok, is_s32, W31 in Hck, Hd.
  all: destruct (Z.eqb_spec runtime (cs_runtime cs)) as [->|Hne];
    [destruct (advance_facts cs Hcur) as [Hend Hck']|destruct (behind_facts cs Hck) as [Hend Hneg]].
  - exists None, (s32 (cs_runtime cs + 1)). split; [apply s32_range|]. split; [by apply (ahead_advance tbl cs b)|].
    split; [exact Hck'|]. simpl. rewrite E. simpl. rewrite Z.eqb_refl. simpl. rewrite Hend. eval_cmp. split; [done|lia].
  - exists None, (cs_runtime cs). replace (with_runtime cs (cs_runtime cs)) with cs by (by destruct cs).
    split; [apply (wf_runtime _ _ Hwf)|]. split; [done|]. split; [done|]. simpl. rewrite E. simpl.
    rewrite (proj2 (Z.eqb_neq _ _)) by done. eval_cmp. split; [done|lia].
  - simpl. rewrite E. simpl. rewrite Z.eqb_refl. simpl.
    set (cs1 := with_runtime cs (s32 (cs_runtime cs + 1))) in *.
    destruct (Z.ltb_spec 0 (s32 (s32 (cs_runtime cs + 1) - cs_curtime cs))) as [He|He].
    + exists None, (s32 (cs_runtime cs + 1)). split; [apply s32_range|].
      split; [by apply (ahead_advance tbl cs b)|]. split; [exact Hck'|]. done.
    + assert (Hwf1 : co_wf tbl cs1) by (apply with_runtime_wf; [done|apply s32_range]).
      destruct (wf_bucket tbl cs1 (cs_runtime cs1) Hwf1) as [b1 Hb1].
      unfold get_bucket. simpl in *. rewrite Hb1. simpl.
      assert (Hcur1 : 0 ≤ s32 (cs_curtime cs1 - cs_runtime cs1) ≤ Z.of_nat n).
      { simpl. rewrite s32_sub_r. replace (cs_curtime cs - (cs_runtime cs + 1)) with (cs_curtime cs - cs_runtime cs + -1) by lia.
        rewrite Hend in He. rewrite s32_add; unfold is_s32, W31; lia. }
      destruct (IH cs1 (cs_runtime cs1) b1 [] (b_first b1)) as (r & rt & Hrt' & Ha' & Hck2 & Hr); try done.
      * by apply (ahead_advance tbl cs b).
      * apply s32_range.
      * intros x c Hx. by apply elem_of_nil in Hx.
      * lia.
      * rewrite Z.eqb_refl. lia.
      * exists r, rt. done.
  - simpl. rewrite E. simpl. rewrite (proj2 (Z.eqb_neq (cs_runtime cs) _)) by done.
    destruct (Z.ltb_spec 0 (s32 (cs_runtime cs - cs_curtime cs))) as [He|He].
    + exists None, (cs_runtime cs). replace (with_runtime cs (cs_runtime cs)) with cs by (by destruct cs).
      split; [apply (wf_runtime _ _ Hwf)|]. done.
    + destruct (wf_bucket tbl cs (cs_runtime cs) Hwf) as [b1 Hb1]. unfold get_bucket. rewrite Hb1. simpl.
      apply (IH cs (cs_runtime cs) b1 [] (b_first b1)); try done.
      * apply (wf_runtime _ _ Hwf).
      * intros x c Hx. by apply elem_of_nil in Hx.
      * lia.
      * rewrite Z.eqb_refl. lia.
Qed.
