(* ===== verification/CalloutSys.v ===== *)
(** * Callout tables and the threads that execute callouts

    The table and the calls in progress as a step relation: insertions,
    deletions, clock ticks, threads that start a callout and threads whose
    callout has returned, in any order. *)

From S2P Require Import Prelude Callout CalloutProps.

(** [cy_run]: what each thread in a callout is executing: the tick and the
    callout. *)
Record csys := MkSys { cy_cs : callout_state; cy_run : gmap Z (Z * Z) }.

Definition set_run (run : gmap Z (Z * Z)) (tid : Z) (r : option (Z * Z)) : gmap Z (Z * Z) :=
  match r with
  | Some x => <[tid := x]> run
  | None => delete tid run
  end.

(** With [timed] the times that a step carries are limited: a callout is inserted less than
    2^31 ticks after [cs_runtime], the clock is at most 2^31 ticks ahead of it, and no function
    runs for 2^31 ticks.  Without, the steps are all that callers, the clock and the threads can
    do. *)
Inductive cy_step (timed : bool) (s : csys) : csys → Prop :=
  | cy_insert fresh unsafe lbolt func arg delta id cs' :
      (∀ cp, fresh = Some cp → cs_callouts (cy_cs s) !! cp = None) →
      (timed = true → s32 (run_time lbolt delta (cs_curtime (cy_cs s)) - cs_curtime (cy_cs s)) +
        s32 (cs_curtime (cy_cs s) - cs_runtime (cy_cs s)) < W31) →
      callout_insert (cy_cs s) fresh unsafe lbolt func arg delta = Ok (id, cs') →
      cy_step timed s (MkSys cs' (cy_run s))
  | cy_delete tid id r cs' :
      callout_delete (cy_cs s) tid id = Ok (r, cs') → cy_step timed s (MkSys cs' (cy_run s))
  | cy_clock lbolt due cs' :
      is_s32 lbolt →
      (timed = true → 0 ≤ s32 (lbolt + 1 - cs_runtime (cy_cs s)) ∧
        ∀ tid rt cp, cy_run s !! tid = Some (rt, cp) → 0 ≤ s32 (lbolt - rt)) →
      callout_schedule (cy_cs s) lbolt = Ok (due, cs') → cy_step timed s (MkSys cs' (cy_run s))
  | cy_execute tid r cs' :
      cy_run s !! tid = None → callout_execute (cy_cs s) tid = Ok (r, cs') →
      cy_step timed s (MkSys cs' (set_run (cy_run s) tid r))
  | cy_finish tid rt cp r cs' :
      cy_run s !! tid = Some (rt, cp) → callout_finish (cy_cs s) tid rt cp = Ok (r, cs') →
      cy_step timed s (MkSys cs' (set_run (cy_run s) tid r)).

(** ** The invariant *)

(** What the thread [tid] is executing: the callout is in its bucket, marked, and
    what precedes it there is not to be started at that tick. *)
Definition run_ok (cs : callout_state) (tid rt cp : Z) : Prop :=
  is_s32 rt ∧ 0 ≤ s32 (cs_curtime cs - rt) ∧
  ∃ b pre post c, cs_bucket cs !! bucket_no rt = Some b ∧ b_first b = pre ++ cp :: post ∧ clean cs rt pre ∧
    cs_callouts cs !! cp = Some c ∧ executing c = true ∧ c_executor c = tid ∧ c_runtime c = rt.

Record cy_ok (tbl : Z) (cs : callout_state) (run : gmap Z (Z * Z)) : Prop := {
  cy_wf : co_wf tbl cs;
  cy_ahead : ahead cs;
  cy_clk : clock_ok cs;
  cy_runs tid rt cp : run !! tid = Some (rt, cp) → run_ok cs tid rt cp;
  cy_exec i b cp c : cs_bucket cs !! i = Some b → cp ∈ b_first b → cs_callouts cs !! cp = Some c →
    executing c = true → run !! c_executor c = Some (c_runtime c, cp)
}.

Lemma cy_exclusive tbl cs run tid1 tid2 rt1 rt2 cp :
  cy_ok tbl cs run → run !! tid1 = Some (rt1, cp) → run !! tid2 = Some (rt2, cp) → tid1 = tid2.
Proof.
  intros [_ _ _ Hr _] H1 H2. destruct (Hr _ _ _ H1) as (_ & _ & _ & _ & _ & c1 & _ & _ & _ & E1 & _ & <- & _).
  destruct (Hr _ _ _ H2) as (_ & _ & _ & _ & _ & c2 & _ & _ & _ & E2 & _ & <- & _). congruence.
Qed.

Lemma set_run_runtime tbl cs run rt :
  cy_ok tbl cs run → is_s32 rt → ahead (with_runtime cs rt) → clock_ok (with_runtime cs rt) →
  cy_ok tbl (with_runtime cs rt) run.
Proof. intros [] H1 H2 H3. split; [by apply with_runtime_wf|done|done|done|done]. Qed.

(** Removing a callout from its bucket. *)
Lemma split_filter (pre post : list Z) (cp : Z) :
  NoDup (pre ++ cp :: post) → filter (λ x, x ≠ cp) (pre ++ cp :: post) = pre ++ post.
Proof.
  intros Hnd. apply list.NoDup_app in Hnd as (_ & H1 & H2). apply list.NoDup_cons in H2 as [H2 _].
  assert (Hf : ∀ l : list Z, cp ∉ l → filter (λ x, x ≠ cp) l = l).
  { induction l as [|x l IH]; [done|]. intros Hn. apply not_elem_of_cons in Hn as [Hx Hn].
    rewrite filter_cons_True by congruence. by rewrite IH. }
  rewrite list.filter_app, filter_cons_False by (by intros []). rewrite !Hf; [done|done|].
  intros Hin. apply (H1 _ Hin), list_elem_of_here.
Qed.

Definition removed (cs : callout_state) (i : nat) (b : callout_bucket) (cp : Z) (c : callout) : callout_state :=
  with_freelist (with_callouts (put_bucket cs i (set_b_first (filter (λ x, x ≠ cp) (b_first b)) b))
    (<[cp := c]> (cs_callouts cs))) (cp :: cs_freelist cs).

Lemma removed_bucket cs i b cp c j bj :
  (i < length (cs_bucket cs))%nat → cs_bucket (removed cs i b cp c) !! j = Some bj →
  (j = i ∧ bj = set_b_first (filter (λ x, x ≠ cp) (b_first b)) b) ∨ (j ≠ i ∧ cs_bucket cs !! j = Some bj).
Proof.
  intros Hi. simpl. destruct (decide (j = i)) as [->|Hne].
  - rewrite list_lookup_insert_eq by done. intros [= <-]. by left.
  - rewrite list_lookup_insert_ne by done. by right.
Qed.

(** The blocks of the table after a removal are among those before, [cp] apart. *)
Lemma removed_in cs i b cp c j bj x :
  (i < length (cs_bucket cs))%nat → cs_bucket cs !! i = Some b →
  cs_bucket (removed cs i b cp c) !! j = Some bj → x ∈ b_first bj →
  ∃ b0, cs_bucket cs !! j = Some b0 ∧ x ∈ b_first b0 ∧ (j = i → x ≠ cp).
Proof.
  intros Hi Hb Hj Hx. destruct (removed_bucket _ _ _ _ _ _ _ Hi Hj) as [[-> ->]|[Hne Hj']].
  - simpl in Hx. apply list_elem_of_filter in Hx as [Hx Hin]. by exists b.
  - by exists bj.
Qed.

Lemma removed_ne tbl cs b cp c c' j bj x :
  co_wf tbl cs → cs_bucket cs !! bucket_no (c_runtime c) = Some b → cp ∈ b_first b →
  cs_bucket (removed cs (bucket_no (c_runtime c)) b cp c') !! j = Some bj → x ∈ b_first bj →
  x ≠ cp ∧ ∃ b0, cs_bucket cs !! j = Some b0 ∧ x ∈ b_first b0.
Proof.
  intros Hwf Hb Hin Hj Hx. assert (Hi : (bucket_no (c_runtime c) < length (cs_bucket cs))%nat) by (apply lookup_lt_is_Some; by exists b).
  destruct (removed_in _ _ _ _ _ _ _ _ Hi Hb Hj Hx) as (b0 & Hb0 & Hx0 & Himp). split; [|by exists b0].
  intros ->. apply (Himp (wf_one _ _ _ _ _ _ _ Hwf Hb0 Hb Hx0 Hin)). done.
Qed.

(** The others stay where they are. *)
Lemma removed_keeps cs i b cp c' j bj x :
  cs_bucket cs !! i = Some b → cs_bucket cs !! j = Some bj → x ∈ b_first bj → x ≠ cp →
  ∃ bj', cs_bucket (removed cs i b cp c') !! j = Some bj' ∧ x ∈ b_first bj'.
Proof.
  intros Hi Hj Hx Hne. assert ((i < length (cs_bucket cs))%nat) as Hlt by (apply lookup_lt_is_Some; by exists b). simpl.
  destruct (decide (j = i)) as [->|Hji].
  - assert (bj = b) as -> by congruence. rewrite list_lookup_insert_eq by done. eexists. split; [done|]. simpl.
    by apply list_elem_of_filter.
  - rewrite list_lookup_insert_ne by done. by exists bj.
Qed.

Lemma wf_removed tbl cs b cp c c' :
  co_wf tbl cs → cs_bucket cs !! bucket_no (c_runtime c) = Some b → cp ∈ b_first b → cs_callouts cs !! cp = Some c →
  co_wf tbl (removed cs (bucket_no (c_runtime c)) b cp c').
Proof.
  intros Hwf Hb Hin Hc. set (i := bucket_no (c_runtime c)) in *.
  assert (Hi : (i < length (cs_bucket cs))%nat) by (apply lookup_lt_is_Some; by exists b).
  set (cs' := removed cs i b cp c').
  assert (Hne' : ∀ j bj x, cs_bucket cs' !! j = Some bj → x ∈ b_first bj → x ≠ cp ∧ ∃ b0, cs_bucket cs !! j = Some b0 ∧ x ∈ b_first b0)
    by (intros j bj x; by apply (removed_ne tbl cs b cp c c')).
  assert (Hlk : ∀ x, x ≠ cp → cs_callouts cs' !! x = cs_callouts cs !! x)
    by (intros x Hxc; simpl; by rewrite lookup_insert_ne).
  destruct Hwf as []. split.
  - simpl. by rewrite length_insert.
  - intros j bj Hj. destruct (removed_bucket _ _ _ _ _ _ _ Hi Hj) as [[-> ->]|[_ Hj']]; [by apply (wf_ids i b)|by apply (wf_ids j bj)].
  - intros j bj x Hj Hxj. destruct (Hne' j bj x Hj Hxj) as (Hxc & b0 & Hb0 & Hx0). rewrite Hlk by done.
    by apply (wf_in j b0).
  - intros j bj Hj. destruct (removed_bucket _ _ _ _ _ _ _ Hi Hj) as [[-> ->]|[_ Hj']]; [|by apply (wf_nodup j)].
    simpl. apply list.NoDup_filter. by apply (wf_nodup i).
  - intros x Hxf. simpl in Hxf. destruct (decide (x = cp)) as [->|Hxc].
    + split; [simpl; rewrite lookup_insert_eq; by eexists|]. intros j bj Hj Hxj. by destruct (Hne' j bj cp Hj Hxj).
    + apply elem_of_cons in Hxf as [?|Hxf]; [done|]. destruct (wf_free x Hxf) as [Hs Hni].
      rewrite Hlk by done. split; [done|]. intros j bj Hj Hxj. destruct (Hne' j bj x Hj Hxj) as (_ & b0 & Hb0 & Hx0).
      by apply (Hni j b0).
  - simpl. apply list.NoDup_cons. split; [|done]. intros Hf. destruct (wf_free cp Hf) as [_ Hni]. by apply (Hni i b).
  - done.
  - done.
Qed.

Lemma cy_remove tbl cs run run' b cp c c' :
  cy_ok tbl cs run → cs_bucket cs !! bucket_no (c_runtime c) = Some b → cp ∈ b_first b →
  cs_callouts cs !! cp = Some c →
  (∀ tid rt x, run' !! tid = Some (rt, x) ↔ run !! tid = Some (rt, x) ∧ x ≠ cp) →
  cy_ok tbl (removed cs (bucket_no (c_runtime c)) b cp c') run'.
Proof.
  intros [Hwf Ha Hck Hr Hx] Hb Hin Hc Hrun. pose proof Hwf as [].
  set (i := bucket_no (c_runtime c)) in *.
  assert (Hi : (i < length (cs_bucket cs))%nat) by (apply lookup_lt_is_Some; by exists b).
  set (cs' := removed cs i b cp c').
  assert (Hne : ∀ j bj x, cs_bucket cs' !! j = Some bj → x ∈ b_first bj → x ≠ cp ∧ ∃ b0, cs_bucket cs !! j = Some b0 ∧ x ∈ b_first b0)
    by (intros j bj x; by apply (removed_ne tbl cs b cp c c')).
  assert (Hlk : ∀ x, x ≠ cp → cs_callouts cs' !! x = cs_callouts cs !! x)
    by (intros x Hxc; simpl; by rewrite lookup_insert_ne).
  assert (Hclean : ∀ rt l, clean cs rt l → clean cs' rt (filter (λ x, x ≠ cp) l)).
  { intros rt l Hcl x cx Hxl Hcx. apply list_elem_of_filter in Hxl as [Hxc Hxl].
    rewrite Hlk in Hcx by done. by apply (Hcl x). }
  split.
  - by apply wf_removed.
  - intros x cx (Hcx & Hex & bx & Hbx & Hxb). destruct (Hne _ _ _ Hbx Hxb) as (Hxc & b0 & Hb0 & Hx0).
    rewrite Hlk in Hcx by done. apply (Ha x). split_and!; [done|done|]. by exists b0.
  - done.
  - intros tid rt x Hrx. apply Hrun in Hrx as [Hrx Hxc].
    destruct (Hr _ _ _ Hrx) as (Hs & Ht & bx & pre & post & cx & Hbx & Ebx & Hcl & Hcx & Hex & Hexe & Hrt).
    split; [done|]. split; [done|].
    assert (Hsplit : ∃ bx', cs_bucket cs' !! bucket_no rt = Some bx' ∧
      (b_first bx' = filter (λ x, x ≠ cp) (b_first bx) ∨ b_first bx' = b_first bx ∧ cp ∉ pre)).
    { destruct (decide (bucket_no rt = i)) as [E|E].
      - rewrite E in *. assert (bx = b) as -> by congruence.
        eexists. simpl. rewrite list_lookup_insert_eq by done. split; [done|by left].
      - exists bx. simpl. rewrite list_lookup_insert_ne by congruence. split; [done|]. right. split; [done|].
        intros Hcp. apply E. apply (wf_one _ _ _ _ _ _ cp Hwf Hbx Hb); [rewrite Ebx; apply elem_of_app; by left|done]. }
    destruct Hsplit as (bx' & Hbx' & [Ef|[Ef Hni]]); [exists bx', (filter (λ x, x ≠ cp) pre), (filter (λ x, x ≠ cp) post), cx|
      exists bx', pre, post, cx].
    + split_and!; try done; [|by apply Hclean|by rewrite Hlk].
      rewrite Ef, Ebx, list.filter_app, filter_cons_True by done. done.
    + split_and!; try done; [by rewrite Ef| |by rewrite Hlk].
      intros y cy Hy Hcy. rewrite Hlk in Hcy by (by intros ->). by apply (Hcl y).
  - intros j bj x cx Hj Hxj Hcx Hex. destruct (Hne j bj x Hj Hxj) as (Hxc & b0 & Hb0 & Hx0).
    rewrite Hlk in Hcx by done. apply Hrun. split; [|done]. by apply (Hx j b0).
Qed.

(** Starting a due callout. *)
Lemma executing_started c tid : executing (started c tid) = true.
Proof.
  rewrite executing_bit. unfold started. cbn [c_xid]. change CALLOUT_EXECUTING with (2 ^ 31).
  rewrite Z.lor_spec, Z.pow2_bits_true by lia. apply orb_true_r.
Qed.

Lemma wf_begin tbl cs tid b cp c :
  co_wf tbl cs → cs_callouts cs !! cp = Some c → executing c = false → cs_bucket cs !! bucket_no (c_runtime c) = Some b → cp ∈ b_first b →
  co_wf tbl (with_callouts cs (<[cp := started c tid]> (cs_callouts cs))).
Proof.
  intros Hwf Hc Hnx Hb Hin. set (cs' := with_callouts _ _).
  assert (Hlk : ∀ x, x ≠ cp → cs_callouts cs' !! x = cs_callouts cs !! x)
    by (intros x Hxc; simpl; by rewrite lookup_insert_ne).
  assert (Hcp : cs_callouts cs' !! cp = Some (started c tid)) by (simpl; by rewrite lookup_insert_eq).
  assert (Hxid : ∀ i, xid_ok tbl i (c_xid c) → xid_ok tbl i (Z.lor (c_xid c) CALLOUT_EXECUTING)).
  { intros i (Hr1 & Hr2 & Hr3). change CALLOUT_EXECUTING with (2 ^ 31). rewrite lor_pow2 by lia.
    rewrite <- executing_bit, Hnx. assert (Hlt : c_xid c < W31).
    { rewrite executing_bit in Hnx. destruct (decide (c_xid c < W31)); [done|].
      rewrite (testbit_div (c_xid c) 31 1 0 (c_xid c - W31)) in Hnx; unfold W31, W32 in *; [done|lia|lia|simpl; lia|by right]. }
    unfold W31, W32 in *. split; [simpl; change (2 ^ 31) with 2147483648; unfold W32; lia|]. change (2 ^ 31) with (8388608 * 256) at 1.
    rewrite Z.mod_add by lia. split; [done|]. change (2 ^ 31) with (2 * 1073741824). by rewrite Z.mod_add by lia. }
  destruct Hwf as []. split; try done.
  - intros i bi x Hi Hxi. destruct (decide (x = cp)) as [->|Hxc]; [|rewrite Hlk by done; by apply (wf_in i bi)].
    destruct (wf_in i bi cp Hi Hxi) as (c0 & Hc0 & ? & ? & Hxo). assert (c0 = c) as -> by congruence.
    exists (started c tid). split_and!; try done. by apply Hxid.
  - intros x Hxf. destruct (wf_free x Hxf) as [Hsx Hni]. split; [|done].
    rewrite Hlk; [done|]. intros ->. by apply (Hni (bucket_no (c_runtime c)) b).
Qed.

Lemma cy_begin tbl cs run tid rt cp c :
  cy_ok tbl cs run → run !! tid = None → is_s32 rt → due cs rt cp c →
  cy_ok tbl (with_callouts cs (<[cp := started c tid]> (cs_callouts cs))) (<[tid := (rt, cp)]> run).
Proof.
  intros [Hwf Ha Hck Hr Hx] Htid Hs (Hc & Hnx & Hrt & Hcur & b & pre & post & Hb & Eb & Hpre). pose proof Hwf as [].
  assert (Hin : cp ∈ b_first b) by (rewrite Eb; apply elem_of_app; right; apply list_elem_of_here).
  set (cs' := with_callouts _ _).
  assert (Hlk : ∀ x, x ≠ cp → cs_callouts cs' !! x = cs_callouts cs !! x)
    by (intros x Hxc; simpl; by rewrite lookup_insert_ne).
  assert (Hcp : cs_callouts cs' !! cp = Some (started c tid)) by (simpl; by rewrite lookup_insert_eq).
  pose proof (executing_started c tid) as Hex.
  assert (Hclean : ∀ t l, clean cs t l → clean cs' t l).
  { intros t l Hcl x cx Hxl Hcx Hxx. destruct (decide (x = cp)) as [->|Hxc]; [congruence|].
    rewrite Hlk in Hcx by done. by apply (Hcl x). }
  split.
  - apply (wf_begin tbl cs tid b cp c); try done. by rewrite Hrt.
  - intros x cx (Hcx & Hxx & bx & Hbx & Hxb). destruct (decide (x = cp)) as [->|Hxc]; [congruence|].
    rewrite Hlk in Hcx by done. apply (Ha x). split_and!; [done|done|]. by exists bx.
  - done.
  - intros t r x Hrx. destruct (decide (t = tid)) as [->|Htt].
    + rewrite lookup_insert_eq in Hrx. simplify_eq. split; [done|]. split; [done|].
      exists b, pre, post, (started c tid). split_and!; try done. by apply Hclean.
    + rewrite lookup_insert_ne in Hrx by done.
      destruct (Hr _ _ _ Hrx) as (Hs' & Ht & bx & p & q & cx & Hbx & Ebx & Hcl & Hcx & Hexx & Hexe & Hrtx).
      split; [done|]. split; [done|]. exists bx, p, q, cx. split_and!; try done; [by apply Hclean|].
      rewrite Hlk; [done|]. intros ->. congruence.
  - intros i bi x cx Hi Hxi Hcx Hxx. destruct (decide (x = cp)) as [->|Hxc].
    + rewrite Hcp in Hcx. simplify_eq. simpl. by rewrite lookup_insert_eq.
    + rewrite Hlk in Hcx by done. pose proof (Hx i bi x cx Hi Hxi Hcx Hxx) as Hrun.
      rewrite lookup_insert_ne; [done|]. congruence.
Qed.

(** ** Inserting *)

Lemma s32_plus x y : is_s32 (s32 x + s32 y) → s32 (x + y) = s32 x + s32 y.
Proof.
  intros H. pose proof (s32_add x (s32 y) H) as E. rewrite <- E.
  rewrite <- s32_u32, <- (s32_u32 (x + s32 y)). f_equal. unfold u32.
  rewrite <- (Zplus_mod_idemp_r y), <- (Zplus_mod_idemp_r (s32 y)). do 2 f_equal. apply (eq_sym (u32_s32 y)).
Qed.

(** A callout runs at least one tick in the future. *)
Lemma run_time_spec lbolt delta cur :
  let rt := run_time lbolt delta cur in is_s32 rt ∧ 0 < s32 (rt - cur) ∧
  (0 < s32 (s32 (lbolt + delta) - cur) → rt = s32 (lbolt + delta)).
Proof.
  unfold run_time. simpl. case_if; (split; [apply s32_range|]).
  - split; [|lia]. rewrite s32_sub_l. by replace (cur + 1 - cur) with 1 by lia.
  - done.
Qed.

Lemma next_id_spec tbl i b ticks s l :
  is_table tbl → 0 ≤ s < id_wrap → 0 ≤ l < id_wrap → (i < 256)%nat →
  b_short_id b = mk_id tbl false s i → b_long_id b = mk_id tbl true l i →
  let long := CALLOUT_LONGTERM_TICKS <? ticks in
  let c := (if long then l else s) in
  next_id b ticks = (mk_id tbl long ((c + 1) mod id_wrap) i,
    if long then MkBucket (b_first b) (b_short_id b) (mk_id tbl true ((l + 1) mod id_wrap) i)
    else MkBucket (b_first b) (mk_id tbl false ((s + 1) mod id_wrap) i) (b_long_id b)).
Proof.
  intros Ht Hs Hl Hi Es El. unfold next_id. case_if; simpl.
  - by rewrite El, next_long_id.
  - by rewrite Es, next_short_id.
Qed.

Lemma xid_of_id tbl long c i (unsafe : bool) :
  is_table tbl → 0 ≤ c < id_wrap → (i < 256)%nat →
  let id := mk_id tbl long c i in
  let xid := if unsafe then Z.lor id CALLOUT_UNSAFE_DRIVER else id in
  xid_ok tbl i xid ∧ Z.testbit xid 31 = false ∧ xid mod 1073741824 = id.
Proof.
  intros Ht Hc Hi id xid. destruct (mk_id_range tbl long c i Ht Hc Hi) as (Hr & Hm & Hd).
  fold id in Hr, Hm, Hd.
  assert (E : xid = id + (if unsafe then 1073741824 else 0)).
  { unfold xid. destruct unsafe; [|lia]. change CALLOUT_UNSAFE_DRIVER with (2 ^ 30). rewrite lor_pow2 by lia.
    rewrite (testbit_div id 30 0 0 id); [done|lia|lia|simpl; lia|by left]. }
  assert (Em : xid mod 1073741824 = id).
  { rewrite E. destruct unsafe; [|rewrite Z.add_0_r; apply Z.mod_small; lia].
    symmetry. apply Z.mod_unique_pos with (q := 1); lia. }
  split_and!; [split_and!|..|done].
  - destruct unsafe; lia.
  - unfold W32. destruct unsafe; lia.
  - rewrite E. destruct unsafe; [|by rewrite Z.add_0_r]. change 1073741824 with (4194304 * 256).
    by rewrite Z.mod_add by lia.
  - by rewrite Em.
  - apply small_not_executing. unfold W31. destruct unsafe; lia.
Qed.

Lemma callout_take_spec tbl cs fresh :
  co_wf tbl cs → (∀ cp, fresh = Some cp → cs_callouts cs !! cp = None) →
  match callout_take cs fresh with
  | Ok (cp, cs1) =>
    (∀ i b, cs_bucket cs !! i = Some b → cp ∉ b_first b) ∧
    (∃ c, cs_callouts cs1 !! cp = Some c) ∧ (∀ x, x ≠ cp → cs_callouts cs1 !! x = cs_callouts cs !! x) ∧
    cs_bucket cs1 = cs_bucket cs ∧ cs_curtime cs1 = cs_curtime cs ∧ cs_runtime cs1 = cs_runtime cs ∧
    NoDup (cp :: cs_freelist cs1) ∧ (∀ x, x ∈ cs_freelist cs1 → x ∈ cs_freelist cs) ∧
    (∀ x, is_Some (cs_callouts cs !! x) → is_Some (cs_callouts cs1 !! x))
  | Panic _ => cs_freelist cs = [] ∧ fresh = None
  | Fault => False
  end.
Proof.
  intros Hwf Hfr. unfold callout_take. destruct (cs_freelist cs) as [|cp rest] eqn:Ef.
  - unfold callout_alloc. destruct fresh as [cp|]; simpl; [|done]. specialize (Hfr cp eq_refl).
    split_and!; try done.
    + intros i b Hb Hin. destruct (wf_in _ _ Hwf _ _ _ Hb Hin) as (c & Hc & _). congruence.
    + eexists. apply lookup_insert_eq.
    + intros x Hx. by apply lookup_insert_ne.
    + rewrite Ef. apply NoDup_singleton.
    + rewrite Ef. done.
    + intros x [c Hc]. exists c. rewrite lookup_insert_ne; [done|congruence].
  - destruct (wf_free _ _ Hwf cp) as [[c Hc] Hni]; [rewrite Ef; apply list_elem_of_here|]. simpl.
    pose proof (wf_free_nodup _ _ Hwf) as Hnd. rewrite Ef in Hnd.
    split_and!; try done; [by exists c|]. intros x Hx. by apply list_elem_of_further.
Qed.

(** What [callout_insert] does to a table. *)
Lemma callout_insert_spec tbl cs fresh unsafe lbolt func arg delta :
  is_table tbl → co_wf tbl cs → (∀ cp, fresh = Some cp → cs_callouts cs !! cp = None) →
  let rt := run_time lbolt delta (cs_curtime cs) in
  let i := bucket_no rt in
  match callout_insert cs fresh unsafe lbolt func arg delta with
  | Ok (id, cs') => ∃ cp c cs1 b b' ctr,
      callout_take cs fresh = Ok (cp, cs1) ∧ cs_bucket cs !! i = Some b ∧
      let long := CALLOUT_LONGTERM_TICKS <? s32 (rt - cs_curtime cs) in
      (if long then b_long_id b else b_short_id b) = mk_id tbl long ctr i ∧ 0 ≤ ctr < id_wrap ∧
      id = mk_id tbl long ((ctr + 1) mod id_wrap) i ∧
      c_runtime c = rt ∧ c_func c = func ∧ c_arg c = arg ∧ executing c = false ∧
      xid_ok tbl i (c_xid c) ∧ c_xid c mod 1073741824 = id ∧
      b_first b' = cp :: b_first b ∧
      (∃ s l, 0 ≤ s < id_wrap ∧ 0 ≤ l < id_wrap ∧ b_short_id b' = mk_id tbl false s i ∧ b_long_id b' = mk_id tbl true l i) ∧
      cs' = put_bucket (with_callouts cs1 (<[cp := c]> (cs_callouts cs1))) i b'
  | Panic _ => cs_freelist cs = [] ∧ fresh = None
  | Fault => False
  end.
Proof.
  intros Ht Hwf Hfr rt i. pose proof (callout_take_spec tbl cs fresh Hwf Hfr) as Htake.
  unfold callout_insert. destruct (callout_take cs fresh) as [[cp cs1]|m|]; simpl; [|done|done].
  destruct Htake as (Hni & [c0 Hc0] & Hlk & Eb & Ec & Er & Hnd & Hfl & Hdom).
  unfold get_callout. rewrite Hc0. simpl. rewrite Ec. fold rt. fold i.
  destruct (wf_bucket tbl cs rt Hwf) as [b Hb]. unfold get_bucket. rewrite Eb.
  change (bucket_no (run_time lbolt delta (cs_curtime cs))) with i. fold i in Hb. rewrite Hb. simpl.
  destruct (wf_ids _ _ Hwf _ _ Hb) as (s & l & Hs & Hl & Es & El).
  pose proof (bucket_no_lt rt) as Hi. fold i in Hi.
  change (run_time lbolt delta (cs_curtime cs)) with rt.
  rewrite (next_id_spec tbl i b (s32 (rt - cs_curtime cs)) s l Ht Hs Hl Hi Es El).
  set (long := CALLOUT_LONGTERM_TICKS <? s32 (rt - cs_curtime cs)).
  set (ctr := if long then l else s).
  assert (Hctr : 0 ≤ ctr < id_wrap) by (unfold ctr; by destruct long).
  pose proof (proj1 (next_ctr ctr Hctr)) as Hn.
  destruct (xid_of_id tbl long ((ctr + 1) mod id_wrap) i unsafe Ht Hn Hi) as (Hx & Hnx & Hid).
  eexists cp, _, cs1, b, _, ctr. split; [done|]. split; [done|]. simpl.
  split; [unfold ctr; by destruct long|]. split; [done|]. split; [done|].
  split; [|split; [|split; [|split; [|split; [|split; [|split; [|split]]]]]]].
  9: reflexivity.
  all: simpl; try done.
  - by rewrite executing_bit.
  - by destruct long.
  - destruct long; simpl.
    + exists s, ((l + 1) mod id_wrap). pose proof (proj1 (next_ctr l Hl)). done.
    + exists ((s + 1) mod id_wrap), l. pose proof (proj1 (next_ctr s Hs)). done.
Qed.

(** The table with one callout more, at the head of its bucket. *)
Lemma insert_facts tbl cs fresh unsafe lbolt func arg delta id cs' :
  is_table tbl → co_wf tbl cs → (∀ cp, fresh = Some cp → cs_callouts cs !! cp = None) →
  callout_insert cs fresh unsafe lbolt func arg delta = Ok (id, cs') →
  let rt := run_time lbolt delta (cs_curtime cs) in
  ∃ cp c b b', co_wf tbl cs' ∧ cs_curtime cs' = cs_curtime cs ∧ cs_runtime cs' = cs_runtime cs ∧
    (∀ j bj, cs_bucket cs !! j = Some bj → cp ∉ b_first bj) ∧ cs_bucket cs !! bucket_no rt = Some b ∧
    b_first b' = cp :: b_first b ∧ cs_bucket cs' = <[bucket_no rt := b']> (cs_bucket cs) ∧
    cs_callouts cs' !! cp = Some c ∧ c_runtime c = rt ∧ executing c = false ∧
    (∀ x, x ≠ cp → cs_callouts cs' !! x = cs_callouts cs !! x) ∧
    ∀ j bj x, cs_bucket cs' !! j = Some bj → x ∈ b_first bj →
      (x = cp ∧ j = bucket_no rt) ∨ (x ≠ cp ∧ ∃ b0, cs_bucket cs !! j = Some b0 ∧ x ∈ b_first b0).
Proof.
  intros Ht Hwf Hfr E rt.
  pose proof (callout_insert_spec tbl cs fresh unsafe lbolt func arg delta Ht Hwf Hfr) as Hsp.
  rewrite E in Hsp. simpl in Hsp. fold rt in Hsp.
  destruct Hsp as (cp & c & cs1 & b & b' & ctr & Etake & Hb & _ & _ & _ & Hcrt & _ & _ & Hnx & Hxid & _ & Eb' & Hids & ->).
  pose proof (callout_take_spec tbl cs fresh Hwf Hfr) as Htake. rewrite Etake in Htake.
  destruct Htake as (Hni & _ & Hlk & Ebk & Ec & Er & Hnd & Hfl & Hdom).
  pose proof (run_time_spec lbolt delta (cs_curtime cs)) as (Hrs & _ & _). fold rt in Hrs.
  set (i := bucket_no rt) in *. set (cs' := put_bucket _ _ _). pose proof Hwf as [].
  assert (Hi : (i < length (cs_bucket cs))%nat) by (apply lookup_lt_is_Some; by exists b).
  assert (Hbk : ∀ j bj, cs_bucket cs' !! j = Some bj →
    (j = i ∧ bj = b') ∨ (j ≠ i ∧ cs_bucket cs !! j = Some bj)).
  { intros j bj. simpl. rewrite Ebk. destruct (decide (j = i)) as [->|Hne].
    - rewrite list_lookup_insert_eq by done. intros [= <-]. by left.
    - rewrite list_lookup_insert_ne by done. by right. }
  assert (Hlk' : ∀ x, x ≠ cp → cs_callouts cs' !! x = cs_callouts cs !! x)
    by (intros x Hxc; simpl; rewrite lookup_insert_ne by done; by apply Hlk).
  assert (Hcp : cs_callouts cs' !! cp = Some c) by (simpl; by rewrite lookup_insert_eq).
  assert (Hin : ∀ j bj x, cs_bucket cs' !! j = Some bj → x ∈ b_first bj →
    (x = cp ∧ j = i) ∨ (x ≠ cp ∧ ∃ b0, cs_bucket cs !! j = Some b0 ∧ x ∈ b_first b0)).
  { intros j bj x Hj Hxj. destruct (Hbk j bj Hj) as [[-> ->]|[Hne Hj']].
    - rewrite Eb' in Hxj. apply elem_of_cons in Hxj as [->|Hxj]; [by left|right].
      split; [intros ->; by apply (Hni i b)|by exists b].
    - right. split; [intros ->; by apply (Hni j bj)|by exists bj]. }
  exists cp, c, b, b'. split; [|split; [exact Ec|]; split; [exact Er|]; do 3 (split; [done|]); split; [by rewrite <- Ebk|done]]. split.
  - simpl. by rewrite length_insert, Ebk.
  - intros j bj Hj. destruct (Hbk j bj Hj) as [[-> ->]|[_ Hj']]; [done|by apply (wf_ids j bj)].
  - intros j bj x Hj Hxj. destruct (Hin j bj x Hj Hxj) as [[-> ->]|(Hxc & b0 & Hb0 & Hx0)].
    + exists c. rewrite Hcrt. done.
    + rewrite Hlk' by done. by apply (wf_in j b0).
  - intros j bj Hj. destruct (Hbk j bj Hj) as [[-> ->]|[_ Hj']]; [|by apply (wf_nodup j)].
    rewrite Eb'. apply list.NoDup_cons. split; [by apply (Hni i)|by apply (wf_nodup i)].
  - intros x Hxf. simpl in Hxf. apply list.NoDup_cons in Hnd as [Hcf _].
    assert (Hxc : x ≠ cp) by (by intros ->). destruct (wf_free x (Hfl x Hxf)) as [Hs Hnx'].
    rewrite Hlk' by done. split; [done|]. intros j bj Hj Hxj.
    destruct (Hin j bj x Hj Hxj) as [[-> _]|(_ & b0 & Hb0 & Hx0)]; [done|by apply (Hnx' j b0)].
  - simpl. by apply list.NoDup_cons in Hnd as [_ Hnd].
  - simpl. by rewrite Ec.
  - simpl. by rewrite Er.
Qed.

Lemma cy_insert_ok tbl cs run fresh unsafe lbolt func arg delta id cs' :
  is_table tbl → cy_ok tbl cs run → (∀ cp, fresh = Some cp → cs_callouts cs !! cp = None) →
  s32 (run_time lbolt delta (cs_curtime cs) - cs_curtime cs) + s32 (cs_curtime cs - cs_runtime cs) < W31 →
  callout_insert cs fresh unsafe lbolt func arg delta = Ok (id, cs') → cy_ok tbl cs' run.
Proof.
  intros Ht [Hwf Ha Hck Hr Hx] Hfr Hfar E.
  destruct (insert_facts tbl cs fresh unsafe lbolt func arg delta id cs' Ht Hwf Hfr E) as
    (cp & c & b & b' & Hwf' & Ec & Er & Hni & Hb & Eb' & Ebk & Hcp & Hcrt & Hnx & Hlk' & Hin).
  pose proof (run_time_spec lbolt delta (cs_curtime cs)) as (Hrs & Hrc & _).
  set (rt := run_time lbolt delta (cs_curtime cs)) in *. set (i := bucket_no rt) in *.
  assert (Hi : (i < length (cs_bucket cs))%nat) by (apply lookup_lt_is_Some; by exists b).
  assert (Hclk : -1 ≤ s32 (cs_curtime cs - cs_runtime cs)) by by apply behind_facts.
  split; [done|..].
  - intros x cx (Hcx & Hex & bx & Hbx & Hxb). rewrite Er.
    destruct (Hin _ _ _ Hbx Hxb) as [[-> _]|(Hxc & b0 & Hb0 & Hx0)].
    + assert (cx = c) as -> by congruence. rewrite Hcrt.
      replace (rt - cs_runtime cs) with ((rt - cs_curtime cs) + (cs_curtime cs - cs_runtime cs)) by lia.
      pose proof (s32_range (rt - cs_curtime cs)) as Hr1. unfold is_s32 in Hr1. 
      rewrite s32_plus; unfold is_s32; lia.
    + rewrite Hlk' in Hcx by done. apply (Ha x). split_and!; [done|done|]. by exists b0.
  - unfold clock_ok. by rewrite Ec, Er.
  - intros tid t x Hrx.
    destruct (Hr _ _ _ Hrx) as (Hs & Hcur & bx & pre & post & cx & Hbx & Ebx & Hcl & Hcx & Hex & Hexe & Hrt).
    assert (Hxc : x ≠ cp).
    { intros ->. apply (Hni _ _ Hbx). rewrite Ebx. apply elem_of_app. right. apply list_elem_of_here. }
    split; [done|]. split; [by rewrite Ec|].
    assert (Hcl' : clean cs' t pre).
    { intros y cy Hy Hcy. rewrite Hlk' in Hcy; [by apply (Hcl y)|]. intros ->.
      apply (Hni _ _ Hbx). rewrite Ebx. apply elem_of_app. by left. }
    destruct (decide (bucket_no t = i)) as [Ei|Ei].
    + assert (bx = b) as -> by congruence. exists b', (cp :: pre), post, cx.
      split; [rewrite Ei, Ebk; by apply list_lookup_insert_eq|].
      split; [by rewrite Eb', Ebx|]. split; [|by rewrite Hlk'].
      apply clean_cons; [|done]. intros y cy Hy Hcy _. apply list_elem_of_singleton in Hy as ->.
      assert (cy = c) as -> by congruence. rewrite Hcrt. intros Et.
      replace (rt - cs_curtime cs) with (- (cs_curtime cs - t)) in Hrc by lia.
      rewrite s32_opp in Hrc; [lia|]. unfold W31. lia.
    + exists bx, pre, post, cx. rewrite Hlk' by done. split; [|done].
      rewrite Ebk. by rewrite list_lookup_insert_ne.
  - intros j bj x cx Hj Hxj Hcx Hex. destruct (Hin j bj x Hj Hxj) as [[-> _]|(Hxc & b0 & Hb0 & Hx0)]; [congruence|].
    rewrite Hlk' in Hcx by done. by apply (Hx j b0).
Qed.

(** ** Deleting, the clock, executing *)

Lemma find_id_spec cs id l :
  (∀ cp, cp ∈ l → is_Some (cs_callouts cs !! cp)) →
  (find_id cs id l = Ok None ∧
    ∀ cp c, cp ∈ l → cs_callouts cs !! cp = Some c → Z.land (c_xid c) CALLOUT_ID_MASK ≠ id) ∨
  (∃ pre cp post c, find_id cs id l = Ok (Some (pre, cp, post)) ∧ l = pre ++ cp :: post ∧
    cs_callouts cs !! cp = Some c ∧ Z.land (c_xid c) CALLOUT_ID_MASK = id).
Proof.
  induction l as [|cp l IH]; intros Hl.
  - left. split; [done|]. intros x c Hx. by apply elem_of_nil in Hx.
  - destruct (Hl cp) as [c Hc]; [apply list_elem_of_here|]. simpl. unfold get_callout. rewrite Hc. simpl.
    destruct (Z.eqb_spec (Z.land (c_xid c) CALLOUT_ID_MASK) id) as [E|E]; simpl.
    + right. by exists [], cp, l, c.
    + destruct IH as [[-> Hn]|(pre & x & post & cx & -> & El & Hx)];
        [intros x Hx; by apply Hl, list_elem_of_further|left|right].
      * split; [done|]. intros x cx Hx Hcx. apply elem_of_cons in Hx as [->|Hx]; [congruence|by apply (Hn x)].
      * exists (cp :: pre), x, post, cx. split; [done|]. by rewrite El.
Qed.

Lemma removed_eq cs i b pre cp post c :
  b_first b = pre ++ cp :: post → NoDup (b_first b) → cs_callouts cs !! cp = Some c →
  with_freelist (put_bucket cs i (set_b_first (pre ++ post) b)) (cp :: cs_freelist cs) = removed cs i b cp c.
Proof.
  intros Eb Hnd Hc. unfold removed, put_bucket, with_bucket, with_callouts, with_freelist. simpl.
  rewrite insert_id by done. rewrite Eb in Hnd |- *. by rewrite split_filter.
Qed.

Lemma bucket_found tbl cs id pre cp post b c :
  co_wf tbl cs → cs_bucket cs !! bucket_no id = Some b → b_first b = pre ++ cp :: post →
  cs_callouts cs !! cp = Some c → bucket_no (c_runtime c) = bucket_no id ∧ cp ∈ b_first b.
Proof.
  intros Hwf Hb Eb Hc. assert (Hin : cp ∈ b_first b) by (rewrite Eb; apply elem_of_app; right; apply list_elem_of_here).
  split; [|done]. destruct (wf_in _ _ Hwf _ _ _ Hb Hin) as (c' & Hc' & <- & _). congruence.
Qed.

(** The outcomes of [callout_delete]. *)
Definition deletes (cs : callout_state) (tid id : Z) (r : del_result) (cs' : callout_state) : Prop :=
  ∃ b, cs_bucket cs !! bucket_no id = Some b ∧
  ((r = DelRet (-1) ∧ cs' = cs ∧
     ∀ cp c, cp ∈ b_first b → cs_callouts cs !! cp = Some c → Z.land (c_xid c) CALLOUT_ID_MASK ≠ id) ∨
   (∃ cp c, cp ∈ b_first b ∧ cs_callouts cs !! cp = Some c ∧ Z.land (c_xid c) CALLOUT_ID_MASK = id ∧
     bucket_no (c_runtime c) = bucket_no id ∧
     if executing c then
       cs' = cs ∧ r = (if c_executor c =? tid then DelRet (-1) else DelWait cp (c_xid c))
     else
       r = DelRet (Z.max 0 (s32 (c_runtime c - cs_curtime cs))) ∧
       cs' = removed cs (bucket_no (c_runtime c)) b cp c)).

Lemma callout_delete_cases tbl cs tid id :
  co_wf tbl cs → ∃ r cs', callout_delete cs tid id = Ok (r, cs') ∧ deletes cs tid id r cs'.
Proof.
  intros Hwf. destruct (wf_bucket tbl cs id Hwf) as [b Hb].
  unfold callout_delete, get_bucket. rewrite Hb. simpl.
  destruct (find_id_spec cs id (b_first b)) as [[-> Hn]|(pre & cp & post & c & -> & Eb & Hc & Hid)].
  - intros x Hx. destruct (wf_in _ _ Hwf _ _ _ Hb Hx) as (c & Hc & _). by eexists.
  - simpl. exists (DelRet (-1)), cs. split; [done|]. exists b. split; [done|]. by left.
  - simpl. unfold get_callout. rewrite Hc. simpl.
    destruct (bucket_found tbl cs id pre cp post b c Hwf Hb Eb Hc) as [Ebn Hin].
    destruct (executing c) eqn:Hx.
    + exists (if c_executor c =? tid then DelRet (-1) else DelWait cp (c_xid c)), cs.
      split; [by case_if|]. exists b. split; [done|]. right. exists cp, c. by rewrite Hx.
    + eexists _, _. split; [done|]. rewrite (removed_eq cs _ b pre cp post c Eb (wf_nodup _ _ Hwf _ _ Hb) Hc).
      rewrite <- Ebn. exists b. rewrite <- Ebn in Hb. split; [by rewrite <- Ebn|]. right. exists cp, c. rewrite Hx.
      split_and!; try done. f_equal. case_if; lia.
Qed.

Lemma callout_delete_spec tbl cs run tid id :
  cy_ok tbl cs run → ∃ r cs', callout_delete cs tid id = Ok (r, cs') ∧ cy_ok tbl cs' run ∧ deletes cs tid id r cs'.
Proof.
  intros Hok. destruct (callout_delete_cases tbl cs tid id (cy_wf _ _ _ Hok)) as (r & cs' & E & Hd).
  exists r, cs'. split; [done|]. split; [|done]. destruct Hd as (b & Hb & [(_ & -> & _)|(cp & c & Hin & Hc & _ & Ebn & Hd)]); [done|].
  destruct (executing c) eqn:Hx; [by destruct Hd as [-> _]|]. destruct Hd as [_ ->]. rewrite <- Ebn in Hb.
  apply (cy_remove tbl cs run run); try done. intros t rt x. split; [|by intros []]. intros Hrx. split; [done|].
  intros ->. destruct (cy_runs _ _ _ Hok _ _ _ Hrx) as (_ & _ & _ & _ & _ & c1 & _ & _ & _ & E1 & E2 & _). congruence.
Qed.

Lemma schedule_loop_spec tbl n cs :
  co_wf tbl cs → ahead cs → clock_ok cs →
  s32 (cs_curtime cs - cs_runtime cs) + 1 ≤ Z.of_nat n →
  ∃ r rt, is_s32 rt ∧ let cs1 := with_runtime cs rt in ahead cs1 ∧ clock_ok cs1 ∧
    schedule_loop n cs = Ok (r, if r : bool then with_busyticks cs1 (s32 (cs_busyticks cs + 1)) else cs1) ∧
    if r : bool then ∃ cp c, due cs1 rt cp c else 0 < s32 (rt - cs_curtime cs).
Proof.
  revert cs. induction n as [|n IH]; intros cs Hwf Ha Hck Hn;
    (destruct (wf_bucket tbl cs (cs_runtime cs) Hwf) as [b Hb]);
    (destruct (behind_facts cs Hck) as [Hend Hneg]);
    (assert (Hself : with_runtime cs (cs_runtime cs) = cs) by (by destruct cs));
    simpl; unfold get_bucket; rewrite Hb;
    (destruct (Z.ltb_spec 0 (s32 (cs_runtime cs - cs_curtime cs))) as [He|He];
      [exists false, (cs_runtime cs); rewrite Hself; split; [apply (wf_runtime _ _ Hwf)|done]|]); simpl;
    (destruct (find_due_spec cs (cs_runtime cs) (b_first b)) as [[-> Hcl]|(pre & cp & post & c & -> & Eb & Hp & Hc & Hx & Hr)];
      [intros x Hx; destruct (wf_in _ _ Hwf _ _ _ Hb Hx) as (c & Hc & _); by eexists| |
       simpl; exists true, (cs_runtime cs); rewrite Hself; split; [apply (wf_runtime _ _ Hwf)|];
       split; [done|]; split; [done|]; split; [done|]; exists cp, c; split_and!; try done; [lia|by exists b, pre, post]]).
  - lia.
  - destruct (advance_facts cs ltac:(lia)) as [Hend' Hck']. simpl.
    destruct (IH (with_runtime cs (s32 (cs_runtime cs + 1)))) as (r & rt & Hrt & Ha' & Hck2 & E & Hr).
    + apply with_runtime_wf; [done|apply s32_range].
    + by apply (ahead_advance tbl cs b).
    + done.
    + simpl. rewrite s32_sub_r. replace (cs_curtime cs - (cs_runtime cs + 1)) with (cs_curtime cs - cs_runtime cs + -1) by lia.
      rewrite s32_add; [lia|]. pose proof (s32_range (cs_curtime cs - cs_runtime cs)) as Hr. unfold is_s32, W31 in *. lia.
    + exists r, rt. done.
Qed.

(** The fuel is enough for the loops. *)
Lemma ticks_left_ok cs : 1 - Z.min (s32 (cs_runtime cs - cs_curtime cs)) (s32 (cs_runtime cs + 1 - cs_curtime cs)) ≤ Z.of_nat (ticks_left cs).
Proof. unfold ticks_left. lia. Qed.

(** What a thread does with the lock held, up to the next call. *)
Definition run_result (tbl : Z) (cs : callout_state) (run : gmap Z (Z * Z)) (tid : Z)
    (r : option (Z * Z)) (cs' : callout_state) : Prop :=
  cy_ok tbl cs' (set_run run tid r) ∧ cs_curtime cs' = cs_curtime cs ∧
  match r with
  | None => 0 < s32 (cs_runtime cs' - cs_curtime cs)
  | Some (rt, cp) => ∃ c, 0 ≤ s32 (cs_curtime cs - rt) ∧ cs_callouts cs !! cp = Some c ∧
      executing c = false ∧ c_runtime c = rt ∧ cs_callouts cs' !! cp = Some (started c tid)
  end.

Lemma run_from tbl cs run tid runtime b pre l :
  cy_ok tbl cs run → run !! tid = None → is_s32 runtime →
  cs_bucket cs !! bucket_no runtime = Some b → b_first b = pre ++ l → clean cs runtime pre →
  0 ≤ s32 (cs_curtime cs - runtime) →
  ∃ r cs', execute_from (ticks_left cs) cs tid runtime l = Ok (r, cs') ∧ run_result tbl cs run tid r cs'.
Proof.
  intros Hok Ht Hs Hb El Hp Hcur. pose proof Hok as [Hwf Ha Hck _ _].
  destruct (behind_facts cs Hck) as [Hend Hneg].
  destruct (execute_from_spec tbl (ticks_left cs) cs tid runtime b pre l Hwf Ha Hck Hs Hb El Hp Hcur) as
    (r & rt & Hrt & Ha' & Hck' & Hr).
  - pose proof (ticks_left_ok cs). case_if; lia.
  - pose proof (set_run_runtime tbl cs run rt Hok Hrt Ha' Hck') as Hok1. destruct r as [[rt' cp]|].
    + destruct Hr as (c & Hdue & ->). eexists _, _. split; [done|]. pose proof Hdue as (Hc & Hx & Hcr & Hcu & _).
      split; [|split; [done|]].
      * apply (cy_begin tbl (with_runtime cs rt) run tid rt' cp c); try done.
        simpl in Hc. rewrite <- Hcr. destruct Hdue as (_ & _ & _ & _ & b' & p & q & Hb' & Eb' & _).
        destruct (wf_in _ _ Hwf _ _ cp Hb') as (c1 & Hc1 & _ & Hs1 & _); [|congruence].
        rewrite Eb'. apply elem_of_app. right. apply list_elem_of_here.
      * exists c. split_and!; try done. simpl. apply lookup_insert_eq.
    + destruct Hr as [-> Hpast]. eexists _, _. split; [done|]. split; [|done]. simpl. by rewrite delete_id.
Qed.

Lemma callout_execute_spec tbl cs run tid :
  cy_ok tbl cs run → run !! tid = None →
  ∃ r cs', callout_execute cs tid = Ok (r, cs') ∧ run_result tbl cs run tid r cs'.
Proof.
  intros Hok Ht. pose proof Hok as [Hwf _ Hck _ _]. destruct (behind_facts cs Hck) as [Hend Hneg].
  unfold callout_execute. destruct (Z.ltb_spec 0 (s32 (cs_runtime cs - cs_curtime cs))) as [He|He].
  - eexists _, _. split; [done|]. split; [|done]. simpl. by rewrite delete_id.
  - destruct (wf_bucket tbl cs (cs_runtime cs) Hwf) as [b Hb]. unfold get_bucket. rewrite Hb. simpl.
    apply (run_from tbl cs run tid _ b []); try done; [apply (wf_runtime _ _ Hwf)| |lia].
    intros x c Hx. by apply elem_of_nil in Hx.
Qed.

Lemma split_at_cp_spec cp pre post :
  cp ∉ pre → split_at_cp cp (pre ++ cp :: post) = Some (pre, post).
Proof.
  induction pre as [|x pre IH]; simpl; intros Hn.
  - by rewrite Z.eqb_refl.
  - apply not_elem_of_cons in Hn as [Hx Hn]. rewrite (proj2 (Z.eqb_neq _ _)) by congruence. by rewrite IH.
Qed.

(** A callout that has returned leaves its bucket, and the search goes on after it. *)
Lemma callout_finish_eq tbl cs tid b cp c :
  co_wf tbl cs → cs_bucket cs !! bucket_no (c_runtime c) = Some b → cp ∈ b_first b → cs_callouts cs !! cp = Some c →
  ∃ pre post, b_first b = pre ++ cp :: post ∧ (cp ∉ pre) ∧
    let cs1 := removed cs (bucket_no (c_runtime c)) b cp (set_c_xid 0 c) in
    cs_bucket cs1 !! bucket_no (c_runtime c) = Some (set_b_first (pre ++ post) b) ∧
    callout_finish cs tid (c_runtime c) cp = execute_from (ticks_left cs1) cs1 tid (c_runtime c) post.
Proof.
  intros Hwf Hb Hin Hc. pose proof (wf_nodup _ _ Hwf _ _ Hb) as Hnd.
  apply list_elem_of_split in Hin as (pre & post & Eb). exists pre, post. split; [done|]. rewrite Eb in Hnd.
  assert (Hcp : cp ∉ pre).
  { apply list.NoDup_app in Hnd as (_ & Hd & _). intros Hp. apply (Hd cp Hp), list_elem_of_here. }
  split; [done|]. unfold callout_finish, get_bucket, get_callout, removed, put_bucket. rewrite Hb, Hc. simpl. rewrite Eb.
  rewrite split_at_cp_spec, split_filter by done. split; [|done].
  apply list_lookup_insert_eq. apply lookup_lt_is_Some. by exists b.
Qed.

Lemma callout_finish_spec tbl cs run tid rt cp :
  cy_ok tbl cs run → run !! tid = Some (rt, cp) →
  ∃ r cs' c, callout_finish cs tid rt cp = Ok (r, cs') ∧ cs_callouts cs !! cp = Some c ∧
    run_result tbl (removed cs (bucket_no rt) (default (MkBucket [] 0 0) (cs_bucket cs !! bucket_no rt)) cp (set_c_xid 0 c))
      (delete tid run) tid r cs'.
Proof.
  intros Hok Hrun. pose proof (cy_runs _ _ _ Hok _ _ _ Hrun) as
    (Hs & Hcur & b & pre0 & post0 & c & Hb & Eb & Hcl & Hc & Hx & Hexe & Hcr). rewrite <- Hcr in *.
  assert (Hin : cp ∈ b_first b) by (rewrite Eb; apply elem_of_app; right; apply list_elem_of_here).
  destruct (callout_finish_eq tbl cs tid b cp c (cy_wf _ _ _ Hok) Hb Hin Hc) as (pre & post & Eb2 & Hcp & Hb1 & ->).
  set (cs1 := removed cs (bucket_no (c_runtime c)) b cp (set_c_xid 0 c)) in *.
  assert (Hok1 : cy_ok tbl cs1 (delete tid run)).
  { apply (cy_remove tbl cs run); try done.
    intros t r x. destruct (decide (t = tid)) as [->|Hne].
    - rewrite lookup_delete_eq, Hrun. split; [done|]. intros [[= <- <-] ?]. done.
    - rewrite lookup_delete_ne by done. split; [|by intros []]. intros Hrx. split; [done|]. intros ->.
      by apply Hne, (cy_exclusive tbl cs run t tid r (c_runtime c) cp). }
  assert (pre0 = pre) as ->.
  { pose proof (wf_nodup _ _ (cy_wf _ _ _ Hok) _ _ Hb) as Hnd. rewrite Eb in Hnd. apply list.NoDup_app in Hnd as (_ & Hd & _).
    rewrite Eb2 in Eb. apply not_elem_of_app_cons_inv_l in Eb as (-> & _ & _); [done| |done].
    intros Hp. apply (Hd cp Hp), list_elem_of_here. }
  destruct (run_from tbl cs1 (delete tid run) tid (c_runtime c) (set_b_first (pre ++ post) b) pre post) as (r & cs' & E & Hr);
    try done; [apply lookup_delete_eq| |].
  - intros y cy Hy Hcy. simpl in Hcy. rewrite lookup_insert_ne in Hcy by (by intros ->). by apply (Hcl y).
  - exists r, cs', c. split; [exact E|]. split; [done|]. rewrite Hb. exact Hr.
Qed.

(** ** The step relation keeps the invariant *)

Lemma callout_schedule_spec tbl cs run lbolt :
  cy_ok tbl cs run → is_s32 lbolt → 0 ≤ s32 (lbolt + 1 - cs_runtime cs) →
  (∀ tid rt cp, run !! tid = Some (rt, cp) → 0 ≤ s32 (lbolt - rt)) →
  ∃ r cs', callout_schedule cs lbolt = Ok (r, cs') ∧ cy_ok tbl cs' run ∧ cs_curtime cs' = lbolt ∧
    cs_callouts cs' = cs_callouts cs ∧ cs_bucket cs' = cs_bucket cs ∧
    if r : bool then ∃ cp c, due cs' (cs_runtime cs') cp c else 0 < s32 (cs_runtime cs' - lbolt).
Proof.
  intros Hok Hs Hck Hrun. pose proof Hok as [Hwf Ha _ Hr Hx]. set (cs0 := with_curtime cs lbolt).
  assert (Hwf0 : co_wf tbl cs0) by by apply with_curtime_wf.
  destruct (behind_facts cs0 Hck) as [Hend Hneg].
  destruct (schedule_loop_spec tbl (ticks_left cs0) cs0 Hwf0 Ha Hck) as (r & rt & Hrt & Ha' & Hck' & E & Hd).
  - pose proof (ticks_left_ok cs0). lia.
  - assert (Hok0 : cy_ok tbl cs0 run).
    { split; try done. intros tid t cp Hrx. destruct (Hr _ _ _ Hrx) as (? & _ & Hrest).
      split; [done|]. split; [by apply (Hrun tid t cp)|done]. }
    pose proof (set_run_runtime tbl cs0 run rt Hok0 Hrt Ha' Hck') as Hok1.
    unfold callout_schedule. fold cs0. rewrite E. eexists r, _. split; [done|].
    destruct r; [|done]. split; [|done]. destruct Hok1. split; try done. destruct cy_wf0. by split.
Qed.

Lemma cy_step_ok tbl s s' :
  is_table tbl → cy_ok tbl (cy_cs s) (cy_run s) → cy_step true s s' → cy_ok tbl (cy_cs s') (cy_run s').
Proof.
  intros Ht Hok Hst. destruct Hst as [fresh unsafe lbolt func arg delta id cs' Hf Hfar E|tid id r cs' E|
    lbolt d cs' Hs Hck E|tid r cs' Hrun E|tid rt cp r cs' Hrun E]; simpl.
  - apply (cy_insert_ok tbl (cy_cs s) (cy_run s) fresh unsafe lbolt func arg delta id); auto.
  - destruct (callout_delete_spec tbl (cy_cs s) (cy_run s) tid id Hok) as (r1 & cs1 & E1 & Hok1 & _). congruence.
  - destruct (Hck eq_refl) as [Hc Hrun]. destruct (callout_schedule_spec tbl _ _ lbolt Hok Hs Hc Hrun) as (r1 & cs1 & E1 & Hok1 & _). congruence.
  - destruct (callout_execute_spec tbl _ _ tid Hok Hrun) as (r1 & cs1 & E1 & Hok1 & _). congruence.
  - destruct (callout_finish_spec tbl _ _ tid rt cp Hok Hrun) as (r1 & cs1 & c & E1 & _ & Hok1 & _).
    rewrite E in E1. simplify_eq. unfold set_run in *. destruct r1 as [[]|].
    + by rewrite insert_delete_eq in Hok1.
    + rewrite delete_id in Hok1; [done|apply lookup_delete_eq].
Qed.

(** A new table is well-formed. *)
Lemma callout_setup_ok tbl lbolt : is_table tbl → is_s32 lbolt → cy_ok tbl (callout_setup tbl lbolt) ∅.
Proof.
  intros Ht Hs. set (cs := callout_setup tbl lbolt).
  assert (Hb : ∀ i b, cs_bucket cs !! i = Some b → b_first b = [] ∧ (i < 256)%nat ∧
    b_short_id b = mk_id tbl false 0 i ∧ b_long_id b = mk_id tbl true 0 i).
  { intros i b Hi. unfold cs, callout_setup in Hi. cbn [cs_bucket] in Hi.
    change (Z.to_nat CALLOUT_BUCKETS) with 256%nat in Hi.
    rewrite list_lookup_fmap in Hi. apply fmap_Some in Hi as (j & Hj & ->).
    apply lookup_seq in Hj as [-> Hj]. simpl. split; [done|]. split; [done|].
    assert (E : Z.lor (Z.of_nat i) tbl = tbl + Z.of_nat i).
    { destruct Ht as [-> | ->].
      - change CALLOUT_NORMAL with (2 ^ 28). rewrite lor_pow2 by lia.
        rewrite (testbit_div (Z.of_nat i) 28 0 0 (Z.of_nat i)); [simpl; lia|lia|lia|simpl; lia|by left].
      - change CALLOUT_REALTIME with (2 ^ 29). rewrite lor_pow2 by lia.
        rewrite (testbit_div (Z.of_nat i) 29 0 0 (Z.of_nat i)); [simpl; lia|lia|lia|simpl; lia|by left]. }
    rewrite E. unfold mk_id. split; [lia|]. change CALLOUT_LONGTERM with (2 ^ 27). rewrite lor_pow2 by lia.
    destruct Ht as [-> | ->]; unfold CALLOUT_NORMAL, CALLOUT_REALTIME.
    - rewrite (testbit_div _ 27 0 1 (Z.of_nat i)); [simpl; lia|lia|lia|simpl; lia|by left].
    - rewrite (testbit_div _ 27 0 2 (Z.of_nat i)); [simpl; lia|lia|lia|simpl; lia|by left]. }
  split.
  - split; try done.
    + intros i b Hi. destruct (Hb i b Hi) as (_ & _ & -> & ->). exists 0, 0. by unfold id_wrap.
    + intros i b cp Hi. destruct (Hb i b Hi) as (-> & _). intros Hin. by apply elem_of_nil in Hin.
    + intros i b Hi. destruct (Hb i b Hi) as (-> & _). constructor.
    + intros cp Hin. by apply elem_of_nil in Hin.
    + constructor.
  - intros cp c (Hc & _). done.
  - unfold clock_ok. simpl. by replace (lbolt + 1 - lbolt) with 1 by lia.
  - done.
  - intros i b cp c Hi. destruct (Hb i b Hi) as (-> & _). intros Hin. by apply elem_of_nil in Hin.
Qed.

(** ** Whatever the times are

    That a callout is with one thread, and that every routine returns, does not depend on the
    times: it follows from what the table and the threads say of each other. *)

Record cy_core (tbl : Z) (cs : callout_state) (run : gmap Z (Z * Z)) : Prop := {
  cc_wf : co_wf tbl cs;
  cc_runs tid rt cp : run !! tid = Some (rt, cp) → ∃ b c, cs_bucket cs !! bucket_no rt = Some b ∧ cp ∈ b_first b ∧
    cs_callouts cs !! cp = Some c ∧ executing c = true ∧ c_executor c = tid ∧ c_runtime c = rt;
  cc_exec i b cp c : cs_bucket cs !! i = Some b → cp ∈ b_first b → cs_callouts cs !! cp = Some c →
    executing c = true → run !! c_executor c = Some (c_runtime c, cp)
}.

Lemma ok_core tbl cs run : cy_ok tbl cs run → cy_core tbl cs run.
Proof.
  intros [Hwf _ _ Hr Hx]. split; [done| |done]. intros tid rt cp Hrun.
  destruct (Hr _ _ _ Hrun) as (_ & _ & b & pre & post & c & Hb & Eb & _ & Hc & H1 & H2 & H3). exists b, c.
  split; [done|]. split; [rewrite Eb; apply elem_of_app; right; apply list_elem_of_here|done].
Qed.

Lemma core_exclusive tbl cs run tid1 tid2 rt1 rt2 cp :
  cy_core tbl cs run → run !! tid1 = Some (rt1, cp) → run !! tid2 = Some (rt2, cp) → tid1 = tid2.
Proof.
  intros [_ Hr _] H1 H2. destruct (Hr _ _ _ H1) as (_ & c1 & _ & _ & E1 & _ & <- & _).
  destruct (Hr _ _ _ H2) as (_ & c2 & _ & _ & E2 & _ & <- & _). congruence.
Qed.

(** The table keeps what it has of some callouts, and has no others that execute. *)
Lemma core_keep tbl cs cs' run run' :
  cy_core tbl cs run → co_wf tbl cs' →
  (∀ tid rt cp b, run' !! tid = Some (rt, cp) → run !! tid = Some (rt, cp) ∧
    (cs_bucket cs !! bucket_no rt = Some b → cp ∈ b_first b →
      cs_callouts cs' !! cp = cs_callouts cs !! cp ∧ ∃ b', cs_bucket cs' !! bucket_no rt = Some b' ∧ cp ∈ b_first b')) →
  (∀ j b' cp c, cs_bucket cs' !! j = Some b' → cp ∈ b_first b' → cs_callouts cs' !! cp = Some c → executing c = true →
    cs_callouts cs !! cp = Some c ∧ (∃ b, cs_bucket cs !! j = Some b ∧ cp ∈ b_first b) ∧
    (run !! c_executor c = Some (c_runtime c, cp) → run' !! c_executor c = Some (c_runtime c, cp))) →
  cy_core tbl cs' run'.
Proof.
  intros [Hwf Hr Hx] Hwf' Hruns Hexec. split; [done|..].
  - intros tid rt cp H. destruct (Hruns _ _ _ (MkBucket [] 0 0) H) as [H1 _].
    destruct (Hr _ _ _ H1) as (b & c & Hb & Hin & Hc & Hrest). destruct (Hruns _ _ _ b H) as [_ H2].
    destruct (H2 Hb Hin) as (E & b' & Hb' & Hin'). exists b', c. rewrite E. done.
  - intros j b' cp c Hj Hin Hc Hex. destruct (Hexec j b' cp c Hj Hin Hc Hex) as (Hc0 & (b & Hb & Hin0) & Himp).
    apply Himp. by apply (Hx j b).
Qed.

Lemma core_remove tbl cs run run' b cp c c' :
  cy_core tbl cs run → cs_bucket cs !! bucket_no (c_runtime c) = Some b → cp ∈ b_first b →
  cs_callouts cs !! cp = Some c → (∀ tid rt x, run' !! tid = Some (rt, x) ↔ run !! tid = Some (rt, x) ∧ x ≠ cp) →
  cy_core tbl (removed cs (bucket_no (c_runtime c)) b cp c') run'.
Proof.
  intros Hok Hb Hin Hc Hrun. pose proof (cc_wf _ _ _ Hok) as Hwf.
  apply (core_keep tbl cs _ run run'); [done|by apply wf_removed|..].
  - intros tid rt x bx [H Hne]%Hrun. split; [done|]. intros Hbx Hx. split; [simpl; by rewrite lookup_insert_ne|].
    by apply (removed_keeps cs _ b cp c' _ bx).
  - intros j b' x cx Hj Hx Hcx Hex. destruct (removed_ne tbl cs b cp c c' j b' x Hwf Hb Hin Hj Hx) as (Hne & b0 & Hb0 & Hx0).
    simpl in Hcx. rewrite lookup_insert_ne in Hcx by done. split; [done|]. split; [by exists b0|]. intros H. by apply Hrun.
Qed.

Lemma core_begin tbl cs run tid b cp c :
  cy_core tbl cs run → run !! tid = None → cs_callouts cs !! cp = Some c → executing c = false →
  cs_bucket cs !! bucket_no (c_runtime c) = Some b → cp ∈ b_first b →
  cy_core tbl (with_callouts cs (<[cp := started c tid]> (cs_callouts cs))) (<[tid := (c_runtime c, cp)]> run).
Proof.
  intros [Hwf Hr Hx] Ht Hc Hnx Hb Hin. split; [by apply (wf_begin tbl cs tid b cp c)|..].
  - intros t rt x H. destruct (decide (t = tid)) as [->|Hne].
    + rewrite lookup_insert_eq in H. simplify_eq. exists b, (started c tid). simpl. rewrite lookup_insert_eq.
      split; [done|]. split; [done|]. split; [done|]. split; [apply executing_started|done].
    + rewrite lookup_insert_ne in H by done. destruct (Hr _ _ _ H) as (bx & cx & H1 & H2 & H3 & H4 & H5). exists bx, cx.
      simpl. rewrite lookup_insert_ne; [done|]. intros ->. congruence.
  - intros i bi x cx Hi Hxi Hcx Hex. simpl in Hcx. destruct (decide (x = cp)) as [->|Hne].
    + rewrite lookup_insert_eq in Hcx. simplify_eq. simpl. by rewrite lookup_insert_eq.
    + rewrite lookup_insert_ne in Hcx by done. pose proof (Hx i bi x cx Hi Hxi Hcx Hex) as Hrun.
      rewrite lookup_insert_ne; [done|]. congruence.
Qed.

Lemma core_insert tbl cs run fresh unsafe lbolt func arg delta id cs' :
  is_table tbl → cy_core tbl cs run → (∀ cp, fresh = Some cp → cs_callouts cs !! cp = None) →
  callout_insert cs fresh unsafe lbolt func arg delta = Ok (id, cs') → cy_core tbl cs' run.
Proof.
  intros Ht Hok Hfr E. pose proof (cc_wf _ _ _ Hok) as Hwf.
  destruct (insert_facts tbl cs fresh unsafe lbolt func arg delta id cs' Ht Hwf Hfr E) as
    (cp & c & b & b' & Hwf' & _ & _ & Hni & Hb & Eb' & Ebk & Hcp & _ & Hnx & Hlk & Hin).
  apply (core_keep tbl cs _ run run); [done|done|..].
  - intros tid rt x bx Hr. split; [done|]. intros Hbx Hx. assert (Hxc : x ≠ cp) by (intros ->; by apply (Hni (bucket_no rt) bx)).
    split; [by apply Hlk|]. rewrite Ebk. destruct (decide (bucket_no rt = bucket_no (run_time lbolt delta (cs_curtime cs)))) as [Eq|Hne].
    + assert (bx = b) as -> by congruence. exists b'. rewrite Eq, list_lookup_insert_eq by (apply lookup_lt_is_Some; by exists b).
      split; [done|]. rewrite Eb'. by apply list_elem_of_further.
    + exists bx. by rewrite list_lookup_insert_ne.
  - intros j bj x cx Hj Hxj Hcx Hex. destruct (Hin j bj x Hj Hxj) as [[-> _]|(Hxc & Hb0)]; [congruence|].
    rewrite Hlk in Hcx by done. done.
Qed.

Lemma core_delete tbl cs run tid id r cs' :
  cy_core tbl cs run → callout_delete cs tid id = Ok (r, cs') → cy_core tbl cs' run.
Proof.
  intros Hok E. destruct (callout_delete_cases tbl cs tid id (cc_wf _ _ _ Hok)) as (r1 & cs1 & E1 & Hd).
  rewrite E in E1. simplify_eq. destruct Hd as (b & Hb & [(_ & -> & _)|(cp & c & Hin & Hc & _ & Ebn & Hd)]); [done|].
  destruct (executing c) eqn:Hx; [by destruct Hd as [-> _]|]. destruct Hd as [_ ->]. rewrite <- Ebn in Hb.
  apply (core_remove tbl cs run run); try done. intros t rt x. split; [|by intros []]. intros Hrx. split; [done|].
  intros ->. destruct (cc_runs _ _ _ Hok _ _ _ Hrx) as (_ & c1 & _ & _ & E1 & E2 & _). congruence.
Qed.

(** The clock hand moves on at most once for each tick there is. *)
Lemma tick_on r cur : s32 (r - cur) ≤ 0 → s32 (s32 (r + 1) - cur) = s32 (r - cur) + 1.
Proof.
  intros H. rewrite s32_sub_l. replace (r + 1 - cur) with (r - cur + 1) by lia. apply s32_add.
  pose proof (s32_range (r - cur)). unfold is_s32, W31 in *. lia.
Qed.

Lemma schedule_returns tbl n cs :
  co_wf tbl cs → 1 - s32 (cs_runtime cs - cs_curtime cs) ≤ Z.of_nat n →
  ∃ r rt b, is_s32 rt ∧ schedule_loop n cs = Ok (r, with_busyticks (with_runtime cs rt) b).
Proof.
  revert cs. induction n as [|n IH]; intros cs Hwf Hn; (destruct (wf_bucket tbl cs (cs_runtime cs) Hwf) as [b Hb]);
    assert (with_busyticks (with_runtime cs (cs_runtime cs)) (cs_busyticks cs) = cs) as Hself by (by destruct cs);
    simpl; unfold get_bucket; rewrite Hb;
    (destruct (Z.ltb_spec 0 (s32 (cs_runtime cs - cs_curtime cs))) as [He|He];
      [exists false, (cs_runtime cs), (cs_busyticks cs); rewrite Hself; split; [apply (wf_runtime _ _ Hwf)|done]|]); simpl; [lia|].
  destruct (find_due_spec cs (cs_runtime cs) (b_first b)) as [[-> Hcl]|(pre & cp & post & c & -> & _)];
    [intros x Hx; destruct (wf_in _ _ Hwf _ _ _ Hb Hx) as (c & Hc & _); by eexists|simpl|].
  - destruct (IH (with_runtime cs (s32 (cs_runtime cs + 1)))) as (r & rt & bt & Hrt & E).
    + apply with_runtime_wf; [done|apply s32_range].
    + simpl. rewrite tick_on by lia. lia.
    + exists r, rt, bt. done.
  - simpl. exists true, (cs_runtime cs), (s32 (cs_busyticks cs + 1)). split; [apply (wf_runtime _ _ Hwf)|]. by destruct cs.
Qed.

Lemma core_schedule tbl cs run lbolt :
  cy_core tbl cs run → is_s32 lbolt → ∃ r cs', callout_schedule cs lbolt = Ok (r, cs') ∧ cy_core tbl cs' run.
Proof.
  intros [Hwf Hr Hx] Hs. unfold callout_schedule. set (cs0 := with_curtime cs lbolt).
  destruct (schedule_returns tbl (ticks_left cs0) cs0) as (r & rt & b & Hrt & ->); [by apply with_curtime_wf|pose proof (ticks_left_ok cs0); lia|].
  eexists _, _. split; [done|]. split; [|done|done]. destruct (with_runtime_wf tbl cs0 rt (with_curtime_wf tbl cs lbolt Hwf Hs) Hrt). by split.
Qed.

(** What the search of [callout_execute] finds: nothing, or a callout of a bucket that is not
    executing, for its time. *)
Definition finds (cs : callout_state) (tid : Z) (r : option (Z * Z)) (cs' : callout_state) : Prop :=
  ∃ rt, is_s32 rt ∧ match r with
  | None => cs' = with_runtime cs rt
  | Some (rt', cp) => ∃ b c, cs_bucket cs !! bucket_no rt' = Some b ∧ cp ∈ b_first b ∧ cs_callouts cs !! cp = Some c ∧
      executing c = false ∧ c_runtime c = rt' ∧ cs' = with_callouts (with_runtime cs rt) (<[cp := started c tid]> (cs_callouts cs))
  end.

(** One bucket: the search finds a callout, or is past the clock, or goes on with the next. *)
Lemma execute_bucket tbl n cs tid runtime b l :
  co_wf tbl cs → cs_bucket cs !! bucket_no runtime = Some b → (∀ x, x ∈ l → x ∈ b_first b) →
  let rt := if cs_runtime cs =? runtime then s32 (runtime + 1) else cs_runtime cs in
  (∃ r cs', execute_from n cs tid runtime l = Ok (r, cs') ∧ finds cs tid r cs') ∨
  (is_s32 rt ∧ s32 (rt - cs_curtime cs) ≤ 0 ∧ ∃ b', cs_bucket cs !! bucket_no rt = Some b' ∧
    execute_from n cs tid runtime l = match n with O => Fault | S n => execute_from n (with_runtime cs rt) tid rt (b_first b') end).
Proof.
  intros Hwf Hb Hl rt.
  assert (Hu : execute_from n cs tid runtime l =
    r ← find_due cs runtime l;
    match r with
    | Some cp => cs ← callout_start cs tid cp; Ok (Some (runtime, cp), cs)
    | None =>
      let cs := if cs_runtime cs =? runtime then with_runtime cs (s32 (runtime + 1)) else cs in
      if 0 <? s32 (cs_runtime cs - cs_curtime cs) then Ok (None, cs)
      else match n with
           | O => Fault
           | S n => b ← get_bucket cs (bucket_no (cs_runtime cs)); execute_from n cs tid (cs_runtime cs) (b_first b)
           end
    end) by by destruct n.
  rewrite Hu. clear Hu. pose proof (wf_runtime _ _ Hwf) as Hrs.
  assert (Hself : with_runtime cs (cs_runtime cs) = cs) by by destruct cs.
  destruct (find_due_spec cs runtime l) as [[-> _]|(pre & cp & post & c & -> & El & _ & Hc & Hx & Hr)].
  - intros x Hx. destruct (wf_in _ _ Hwf _ _ x Hb (Hl x Hx)) as (c & Hc & _). by eexists.
  - cbn [mbind res_bind]. assert (is_s32 rt) as Hrt by (unfold rt; case_if; [apply s32_range|done]).
    assert ((if cs_runtime cs =? runtime then with_runtime cs (s32 (runtime + 1)) else cs) = with_runtime cs rt) as -> by (unfold rt; by case_if).
    simpl. case_if; [left; eexists _, _; split; [done|]; by exists rt|right].
    split; [done|]. split; [lia|]. destruct (wf_bucket tbl cs rt Hwf) as [b' Hb']. exists b'. split; [done|].
    destruct n; [done|]. unfold get_bucket. simpl. by rewrite Hb'.
  - cbn [mbind res_bind]. left. unfold callout_start, get_callout. rewrite Hc. cbn [mbind res_bind deref].
    eexists _, _. split; [done|]. exists (cs_runtime cs). split; [done|]. exists b, c. split; [done|].
    split; [apply Hl; rewrite El; apply elem_of_app; right; apply list_elem_of_here|]. do 3 (split; [done|]). by rewrite Hself.
Qed.

Lemma execute_hand tbl n cs tid b :
  co_wf tbl cs → cs_bucket cs !! bucket_no (cs_runtime cs) = Some b → s32 (cs_runtime cs - cs_curtime cs) ≤ 0 →
  - s32 (cs_runtime cs - cs_curtime cs) ≤ Z.of_nat n →
  ∃ r cs', execute_from n cs tid (cs_runtime cs) (b_first b) = Ok (r, cs') ∧ finds cs tid r cs'.
Proof.
  revert cs b. induction n as [|n IH]; intros cs b Hwf Hb Hle Hn;
    [pose proof (execute_bucket tbl O cs tid _ b (b_first b) Hwf Hb (λ x H, H)) as Hbk
    |pose proof (execute_bucket tbl (S n) cs tid _ b (b_first b) Hwf Hb (λ x H, H)) as Hbk];
    cbv zeta in Hbk; rewrite Z.eqb_refl in Hbk; (destruct Hbk as [H|(Hs & Hle' & b' & Hb' & E)]; [exact H|]);
    rewrite (tick_on _ _ Hle) in Hle'; [lia|].
  rewrite E. apply (IH (with_runtime cs (s32 (cs_runtime cs + 1))) b'); simpl; [by apply with_runtime_wf|done|rewrite tick_on; lia..].
Qed.

Lemma execute_returns tbl cs tid runtime b l :
  co_wf tbl cs → cs_bucket cs !! bucket_no runtime = Some b → (∀ x, x ∈ l → x ∈ b_first b) →
  ∃ r cs', execute_from (ticks_left cs) cs tid runtime l = Ok (r, cs') ∧ finds cs tid r cs'.
Proof.
  intros Hwf Hb Hl. pose proof (ticks_left_ok cs) as Hn.
  destruct (execute_bucket tbl (ticks_left cs) cs tid _ b l Hwf Hb Hl) as [H|(Hs & Hle & b' & Hb' & E)]; [exact H|].
  assert (Z.min (s32 (cs_runtime cs - cs_curtime cs)) (s32 (cs_runtime cs + 1 - cs_curtime cs)) ≤
    s32 ((if cs_runtime cs =? runtime then s32 (runtime + 1) else cs_runtime cs) - cs_curtime cs)) as Hmin.
  { destruct (Z.eqb_spec (cs_runtime cs) runtime) as [->|]; [rewrite s32_sub_l|]; lia. }
  rewrite E. destruct (ticks_left cs) as [|n]; [lia|]. set (rt := if cs_runtime cs =? runtime then s32 (runtime + 1) else cs_runtime cs) in *.
  apply (execute_hand tbl n (with_runtime cs rt) tid b'); simpl; [by apply with_runtime_wf|done|done|lia].
Qed.

Lemma core_finds tbl cs run tid r cs' :
  cy_core tbl cs run → run !! tid = None → finds cs tid r cs' → cy_core tbl cs' (set_run run tid r).
Proof.
  intros [Hwf Hr Hx] Ht (rt & Hrt & Hf). assert (cy_core tbl (with_runtime cs rt) run) as Hok by (split; [by apply with_runtime_wf|done|done]).
  destruct r as [[rt' cp]|]; simpl.
  - destruct Hf as (b & c & Hb & Hin & Hc & Hex & <- & ->). by apply (core_begin tbl (with_runtime cs rt) run tid b cp c).
  - subst. by rewrite delete_id.
Qed.

Lemma core_execute tbl cs run tid :
  cy_core tbl cs run → run !! tid = None → ∃ r cs', callout_execute cs tid = Ok (r, cs') ∧ cy_core tbl cs' (set_run run tid r).
Proof.
  intros Hok Ht. pose proof (cc_wf _ _ _ Hok) as Hwf. unfold callout_execute. case_if.
  - eexists _, _. split; [done|]. simpl. by rewrite delete_id.
  - destruct (wf_bucket tbl cs (cs_runtime cs) Hwf) as [b Hb]. unfold get_bucket. rewrite Hb. cbn [mbind res_bind deref].
    destruct (execute_returns tbl cs tid _ b (b_first b) Hwf Hb (λ x H, H)) as (r & cs' & E & Hf).
    exists r, cs'. split; [done|]. by apply (core_finds tbl cs).
Qed.

Lemma core_finish tbl cs run tid rt cp :
  cy_core tbl cs run → run !! tid = Some (rt, cp) → ∃ r cs', callout_finish cs tid rt cp = Ok (r, cs') ∧ cy_core tbl cs' (set_run run tid r).
Proof.
  intros Hok Hrun. destruct (cc_runs _ _ _ Hok _ _ _ Hrun) as (b & c & Hb & Hin & Hc & Hx & Hexe & <-).
  pose proof (cc_wf _ _ _ Hok) as Hwf.
  destruct (callout_finish_eq tbl cs tid b cp c Hwf Hb Hin Hc) as (pre & post & Eb & _ & Hb1 & ->).
  set (cs1 := removed cs (bucket_no (c_runtime c)) b cp (set_c_xid 0 c)) in *.
  assert (cy_core tbl cs1 (delete tid run)) as Hok1.
  { apply (core_remove tbl cs run); try done. intros t r x. destruct (decide (t = tid)) as [->|Hne].
    - rewrite lookup_delete_eq, Hrun. split; [done|]. intros [[= <- <-] ?]. done.
    - rewrite lookup_delete_ne by done. split; [|by intros []]. intros Hrx. split; [done|]. intros ->.
      by apply Hne, (core_exclusive tbl cs run t tid r (c_runtime c) cp). }
  destruct (execute_returns tbl cs1 tid (c_runtime c) (set_b_first (pre ++ post) b) post (cc_wf _ _ _ Hok1) Hb1) as (r & cs' & E & Hf).
  - intros x Hp. simpl. apply elem_of_app. by right.
  - exists r, cs'. split; [done|]. pose proof (core_finds tbl cs1 _ tid r cs' Hok1 (lookup_delete_eq _ _) Hf) as H.
    destruct r as [[]|]; simpl in *; [by rewrite insert_delete_eq in H|]. by rewrite delete_id in H by apply lookup_delete_eq.
Qed.

Lemma core_step timed tbl s s' :
  is_table tbl → cy_core tbl (cy_cs s) (cy_run s) → cy_step timed s s' → cy_core tbl (cy_cs s') (cy_run s').
Proof.
  intros Ht Hok Hst. destruct Hst as [fresh unsafe lbolt func arg delta id cs' Hf _ E|tid id r cs' E|
    lbolt d cs' Hs _ E|tid r cs' Hrun E|tid rt cp r cs' Hrun E]; simpl.
  - by apply (core_insert tbl (cy_cs s) (cy_run s) fresh unsafe lbolt func arg delta id).
  - by apply (core_delete tbl (cy_cs s) (cy_run s) tid id r).
  - destruct (core_schedule tbl _ _ lbolt Hok Hs) as (r1 & cs1 & E1 & Hok1). congruence.
  - destruct (core_execute tbl _ _ tid Hok Hrun) as (r1 & cs1 & E1 & Hok1). congruence.
  - destruct (core_finish tbl _ _ tid rt cp Hok Hrun) as (r1 & cs1 & E1 & Hok1). congruence.
Qed.
