(* ===== verification/CalloutThms.v ===== *)
(** * What the callout tables promise

    The theorems about [timeout], [untimeout], the clock and the threads that
    execute callouts. *)

From S2P Require Import Prelude Callout CalloutProps CalloutSys.

(** C34: In every state that insertions, deletions, clock ticks and the callout
    threads reach, in any order and whatever the times are (also times that wrap
    around, and functions that run for any number of ticks), no two threads
    execute the same callout; a callout is marked as executing exactly while a
    thread executes it; and deleting any ID, the clock interrupt at any time,
    executing from an idle thread and finishing in a busy one all return (the
    searches of the lists end and find what they look for). *)
Theorem callout_threads tbl lbolt s :
  is_table tbl → is_s32 lbolt → rtc (cy_step false) (MkSys (callout_setup tbl lbolt) ∅) s →
  let cs := cy_cs s in
  let run := cy_run s in
  (∀ tid1 tid2 rt1 rt2 cp, run !! tid1 = Some (rt1, cp) → run !! tid2 = Some (rt2, cp) → tid1 = tid2) ∧
  (∀ i b cp c, cs_bucket cs !! i = Some b → cp ∈ b_first b → cs_callouts cs !! cp = Some c →
    (executing c = true ↔ ∃ tid, run !! tid = Some (c_runtime c, cp))) ∧
  (∀ tid id, ∃ r cs', callout_delete cs tid id = Ok (r, cs')) ∧
  (∀ lbolt', is_s32 lbolt' → ∃ r cs', callout_schedule cs lbolt' = Ok (r, cs')) ∧
  (∀ tid, run !! tid = None → ∃ r cs', callout_execute cs tid = Ok (r, cs')) ∧
  (∀ tid rt cp, run !! tid = Some (rt, cp) → ∃ r cs', callout_finish cs tid rt cp = Ok (r, cs')).
Proof.
  intros Ht Hs Hst cs run. assert (Hok : cy_core tbl cs run).
  { unfold cs, run. pose proof (ok_core _ _ _ (callout_setup_ok tbl lbolt Ht Hs)) as H0.
    remember (MkSys (callout_setup tbl lbolt) ∅) as s0 eqn:E0.
    assert (H0' : cy_core tbl (cy_cs s0) (cy_run s0)) by by rewrite E0. clear E0 H0.
    induction Hst as [|x y z Hxy _ IH]; [done|]. apply IH. by apply (core_step false tbl x). }
  split; [|split; [|split; [|split; [|split]]]].
  - intros. by eapply (core_exclusive tbl cs run).
  - intros i b cp c Hb Hin Hc. split.
    + intros Hx. exists (c_executor c). by apply (cc_exec _ _ _ Hok i b).
    + intros [tid Hr]. destruct (cc_runs _ _ _ Hok _ _ _ Hr) as (_ & c' & _ & _ & E & Hx & _). congruence.
  - intros tid id. destruct (callout_delete_cases tbl cs tid id (cc_wf _ _ _ Hok)) as (r & cs' & E & _). by exists r, cs'.
  - intros l Hl. destruct (core_schedule tbl cs run l Hok Hl) as (r & cs' & E & _). by exists r, cs'.
  - intros tid Hr. destruct (core_execute tbl cs run tid Hok Hr) as (r & cs' & E & _). by exists r, cs'.
  - intros tid rt cp Hr. destruct (core_finish tbl cs run tid rt cp Hok Hr) as (r & cs' & E & _). by exists r, cs'.
Qed.

(** [callout_execute] starts only a callout whose time has come and that no
    thread has started, and it gives up only when no pending callout is due: all
    of them are to run after the current time. *)
Theorem callout_execute_due tbl cs run tid :
  cy_ok tbl cs run → run !! tid = None →
  ∃ r cs', callout_execute cs tid = Ok (r, cs') ∧
    match r with
    | Some (rt, cp) => ∃ c, cs_callouts cs !! cp = Some c ∧ executing c = false ∧ c_runtime c = rt ∧
        0 ≤ s32 (cs_curtime cs - rt) ∧ cs_callouts cs' !! cp = Some (started c tid)
    | None => ∀ cp c, pending cs' cp c → 0 ≤ s32 (c_runtime c - (cs_curtime cs + 1))
    end.
Proof.
  intros Hok Hr. destruct (callout_execute_spec tbl cs run tid Hok Hr) as (r & cs' & E & Hok' & Hcur & Hres).
  exists r, cs'. split; [done|]. destruct r as [[rt cp]|].
  - destruct Hres as (c & H1 & H2 & H3 & H4 & H5). by exists c.
  - intros cp c Hp. pose proof (cy_ahead _ _ _ Hok' cp c Hp) as Ha.
    pose proof (cy_clk _ _ _ Hok') as Hck. unfold clock_ok in Hck. rewrite Hcur in Hck.
    destruct (behind_facts cs') as [Hend Hneg]; [by rewrite Hcur|]. rewrite Hcur in Hend, Hneg.
    assert (E1 : cs_runtime cs' = s32 (cs_curtime cs + 1)).
    { apply s32_diff_0; [apply (wf_runtime _ _ (cy_wf _ _ _ Hok'))|apply s32_range|].
      rewrite s32_sub_r. replace (cs_runtime cs' - (cs_curtime cs + 1)) with (cs_runtime cs' - cs_curtime cs + -1) by lia.
      rewrite s32_add; [lia|]. pose proof (s32_range (cs_runtime cs' - cs_curtime cs)) as H1. unfold is_s32, W31 in *. lia. }
    rewrite E1, s32_sub_r in Ha. done.
Qed.

(** The lists of a table. *)
Definition lists (cs : callout_state) : list (list Z) := map b_first (cs_bucket cs).

Lemma land_table tbl long c i :
  is_table tbl → 0 ≤ c < id_wrap → (i < 256)%nat →
  (Z.land (mk_id tbl long c i) CALLOUT_REALTIME =? 0) = bool_decide (tbl = CALLOUT_NORMAL).
Proof.
  intros Ht Hc Hi. change CALLOUT_REALTIME with (2 ^ 29) at 1. rewrite land_pow2 by lia. unfold mk_id, id_wrap in *.
  destruct Ht as [-> | ->], long; unfold CALLOUT_NORMAL, CALLOUT_REALTIME, CALLOUT_LONGTERM.
  - rewrite (testbit_div _ 29 0 0 (268435456 + 134217728 + 256 * c + Z.of_nat i)); [done|lia|lia|simpl; lia|by left].
  - rewrite (testbit_div _ 29 0 0 (268435456 + 256 * c + Z.of_nat i)); [done|lia|lia|simpl; lia|by left].
  - rewrite (testbit_div _ 29 1 0 (134217728 + 256 * c + Z.of_nat i)); [done|lia|lia|simpl; lia|by right].
  - rewrite (testbit_div _ 29 1 0 (256 * c + Z.of_nat i)); [done|lia|lia|simpl; lia|by right].
Qed.

(** Inserting and deleting at once. *)
Lemma insert_delete_lists tbl cs run fresh unsafe lbolt func arg delta tid id cs' :
  is_table tbl → cy_ok tbl cs run → (∀ cp, fresh = Some cp → cs_callouts cs !! cp = None) →
  s32 (run_time lbolt delta (cs_curtime cs) - cs_curtime cs) + s32 (cs_curtime cs - cs_runtime cs) < W31 →
  callout_insert cs fresh unsafe lbolt func arg delta = Ok (id, cs') →
  ∃ cs'', callout_delete cs' tid id =
      Ok (DelRet (s32 (run_time lbolt delta (cs_curtime cs) - cs_curtime cs)), cs'') ∧
    lists cs'' = lists cs ∧ cy_ok tbl cs'' run.
Proof.
  intros Ht Hok Hf Hfar E. pose proof (cy_insert_ok _ _ _ _ _ _ _ _ _ _ _ Ht Hok Hf Hfar E) as Hok'.
  pose proof (callout_insert_spec tbl cs fresh unsafe lbolt func arg delta Ht (cy_wf _ _ _ Hok) Hf) as Hsp.
  rewrite E in Hsp. simpl in Hsp. set (rt := run_time lbolt delta (cs_curtime cs)) in *.
  destruct Hsp as (cp & c & cs1 & b & b' & ctr & Etake & Hb & Hold & Hctr & Eid & Hcrt & _ & _ & Hnx & Hxid & Hxi & Eb' & _ & Ecs).
  pose proof (callout_take_spec tbl cs fresh (cy_wf _ _ _ Hok) Hf) as Htake. rewrite Etake in Htake.
  destruct Htake as (Hni & _ & Hlk & Ebk & Ec & Er & Hnd & Hfl & Hdom).
  pose proof (bucket_no_lt rt) as Hi. pose proof (proj1 (next_ctr ctr Hctr)) as Hctr'.
  destruct (mk_id_range tbl (CALLOUT_LONGTERM_TICKS <? s32 (rt - cs_curtime cs)) _ (bucket_no rt) Ht Hctr' Hi) as (Hr & Hm & Hd).
  rewrite <- Eid in Hr, Hm, Hd.
  assert (Ebn : bucket_no id = bucket_no rt) by (unfold bucket_no at 1; rewrite land_255, Hm; apply Nat2Z.id).
  assert (Hlen : (bucket_no rt < length (cs_bucket cs))%nat) by (apply lookup_lt_is_Some; by exists b).
  assert (Hcp : cs_callouts cs' !! cp = Some c) by (rewrite Ecs; simpl; apply lookup_insert_eq).
  assert (Hbk : cs_bucket cs' !! bucket_no rt = Some b')
    by (rewrite Ecs; simpl; rewrite Ebk; by apply list_lookup_insert_eq).
  assert (Hcur : cs_curtime cs' = cs_curtime cs) by (by rewrite Ecs).
  assert (Hbks : cs_bucket cs' = <[bucket_no rt := b']> (cs_bucket cs)) by (rewrite Ecs; simpl; by rewrite Ebk).
  clear Ecs. destruct (callout_delete_spec tbl cs' run tid id Hok') as (r & cs'' & Ed & Hok'' & _).
  exists cs''. assert (Hdel : callout_delete cs' tid id =
    Ok (DelRet (s32 (rt - cs_curtime cs)),
      with_freelist (put_bucket cs' (bucket_no id) (set_b_first (b_first b) b')) (cp :: cs_freelist cs'))).
  { unfold callout_delete, get_bucket. rewrite Ebn, Hbk. simpl. rewrite Eb'. simpl. unfold get_callout. rewrite Hcp. simpl.
    rewrite land_id, Hxi, Z.eqb_refl. simpl. rewrite Hcp. simpl. rewrite Hnx, Hcur, Hcrt.
    pose proof (run_time_spec lbolt delta (cs_curtime cs)) as (_ & Hpos & _). fold rt in Hpos. eval_cmp. done. }
  rewrite Hdel in Ed. simplify_eq. split; [done|]. split; [|done].
  unfold lists. simpl. rewrite Ebn, Hbks, list_insert_insert_eq, list_fmap_insert. simpl.
  apply list_insert_id. by rewrite list_lookup_fmap, Hb.
Qed.

(** Both tables, with the callouts their threads execute. *)
Record tables_ok (ts : tables) (run rt_run : gmap Z (Z * Z)) : Prop := {
  to_normal : cy_ok CALLOUT_NORMAL (callout_table ts) run;
  to_rt : cy_ok CALLOUT_REALTIME (rt_callout_table ts) rt_run
}.

(** The table [timeout] ([false]) or [realtime_timeout] ([true]) inserts into. *)
Definition table_of (rt : bool) (ts : tables) : callout_state :=
  if rt then rt_callout_table ts else callout_table ts.

Definition some_timeout (rt : bool) := if rt then realtime_timeout else timeout.

(** The value of [timeout] or [realtime_timeout] given to [untimeout] at once
    finds the callout, in the right table, returns the ticks left (at least one,
    and [delta] ticks after [lbolt] when that is in the future), and leaves the
    callouts of every bucket of both tables as they were. *)
Theorem timeout_untimeout rt ts run rt_run fresh unsafe lbolt func arg delta tid id ts' :
  let cs := table_of rt ts in
  let left := s32 (run_time lbolt delta (cs_curtime cs) - cs_curtime cs) in
  tables_ok ts run rt_run → (∀ cp, fresh = Some cp → cs_callouts cs !! cp = None) →
  left + s32 (cs_curtime cs - cs_runtime cs) < W31 →
  some_timeout rt ts fresh unsafe lbolt func arg delta = Ok (id, ts') →
  0 < left ∧ (0 < s32 (s32 (lbolt + delta) - cs_curtime cs) → left = s32 (lbolt + delta - cs_curtime cs)) ∧
  ∃ ts'', untimeout ts' tid id = Ok (DelRet left, ts'') ∧ tables_ok ts'' run rt_run ∧
    lists (callout_table ts'') = lists (callout_table ts) ∧
    lists (rt_callout_table ts'') = lists (rt_callout_table ts).
Proof.
  intros cs left [Hn Hrt] Hf Hfar E.
  pose proof (run_time_spec lbolt delta (cs_curtime cs)) as (_ & Hpos & Heq).
  split; [done|]. split; [intros H; unfold left; by rewrite (Heq H), s32_sub_l|].
  destruct rt; simpl in *; unfold realtime_timeout, timeout in E; apply bind_ok in E as ([id' cs'] & E & [= -> <-]).
  - change (rt_callout_table ts) with cs in E. destruct (insert_delete_lists CALLOUT_REALTIME cs rt_run fresh unsafe lbolt func arg delta tid id cs')
      as (cs'' & Ed & Hl & Hok); try done; [by right|].
    exists (MkTables (callout_table ts) cs''). split; [|done]. unfold untimeout.
    pose proof (callout_insert_spec CALLOUT_REALTIME cs fresh unsafe lbolt func arg delta ltac:(by right)
      (cy_wf _ _ _ Hrt) Hf) as Hsp. rewrite E in Hsp. simpl in Hsp.
    destruct Hsp as (cp & c & cs1 & b & b' & ctr & _ & _ & _ & Hctr & Eid & _). rewrite Eid at 1.
    rewrite (land_table CALLOUT_REALTIME); [|by right|by apply next_ctr|apply bucket_no_lt]. simpl.
    by rewrite Ed.
  - change (callout_table ts) with cs in E. destruct (insert_delete_lists CALLOUT_NORMAL cs run fresh unsafe lbolt func arg delta tid id cs')
      as (cs'' & Ed & Hl & Hok); try done; [by left|].
    exists (MkTables cs'' (rt_callout_table ts)). split; [|done]. unfold untimeout.
    pose proof (callout_insert_spec CALLOUT_NORMAL cs fresh unsafe lbolt func arg delta ltac:(by left)
      (cy_wf _ _ _ Hn) Hf) as Hsp. rewrite E in Hsp. simpl in Hsp.
    destruct Hsp as (cp & c & cs1 & b & b' & ctr & _ & _ & _ & Hctr & Eid & _). rewrite Eid at 1.
    rewrite (land_table CALLOUT_NORMAL); [|by left|by apply next_ctr|apply bucket_no_lt]. simpl.
    by rewrite Ed.
Qed.

Lemma timeout_untimeout_witness :
  let ts := MkTables (callout_setup CALLOUT_NORMAL 100) (callout_setup CALLOUT_REALTIME 100) in
  ∃ id ts', timeout ts (Some 1) false 100 7 8 50 = Ok (id, ts') ∧
  0 < 50 ∧ (0 < s32 (s32 (100 + 50) - 100) → 50 = s32 (100 + 50 - 100)) ∧
  ∃ ts'', untimeout ts' 9 id = Ok (DelRet 50, ts'') ∧ tables_ok ts'' ∅ ∅ ∧
    lists (callout_table ts'') = lists (callout_table ts) ∧
    lists (rt_callout_table ts'') = lists (rt_callout_table ts).
Proof.
  intros ts. destruct (timeout ts (Some 1) false 100 7 8 50) as [[id ts']| |] eqn:E; [|by vm_compute in E..].
  exists id, ts'. split; [done|].
  apply (timeout_untimeout false ts ∅ ∅ (Some 1) false 100 7 8 50 9 id ts').
  - split; apply callout_setup_ok; (by left) || (by right) || (unfold is_s32, W31; lia).
  - intros cp [= <-]. by vm_compute.
  - by vm_compute.
  - exact E.
Defined.

(** The ID [timeout] returns tells the table, the bucket and whether the
    callout is long-term (more than [CALLOUT_LONGTERM_TICKS] ahead), is never 0,
    and continues the count of that class in that bucket: it differs from the IDs
    of the next 2^19 - 1 callouts of the class in the bucket. *)
Theorem callout_insert_id tbl cs fresh unsafe lbolt func arg delta id cs' :
  is_table tbl → co_wf tbl cs → (∀ cp, fresh = Some cp → cs_callouts cs !! cp = None) →
  callout_insert cs fresh unsafe lbolt func arg delta = Ok (id, cs') →
  let rt := run_time lbolt delta (cs_curtime cs) in
  let long := CALLOUT_LONGTERM_TICKS <? s32 (rt - cs_curtime cs) in
  ∃ ctr, 0 ≤ ctr < id_wrap ∧ id = mk_id tbl long ctr (bucket_no rt) ∧ 0 < id < CALLOUT_UNSAFE_DRIVER ∧
    bucket_no id = bucket_no rt ∧ (Z.land id CALLOUT_REALTIME =? 0) = bool_decide (tbl = CALLOUT_NORMAL) ∧
    (∀ b', cs_bucket cs' !! bucket_no rt = Some b' → (if long then b_long_id b' else b_short_id b') = id) ∧
    (∀ n, 0 < n < id_wrap → mk_id tbl long ((ctr + n) mod id_wrap) (bucket_no rt) ≠ id).
Proof.
  intros Ht Hwf Hf E rt long.
  pose proof (callout_insert_spec tbl cs fresh unsafe lbolt func arg delta Ht Hwf Hf) as Hsp.
  rewrite E in Hsp. simpl in Hsp. fold rt in Hsp. fold long in Hsp.
  destruct Hsp as (cp & c & cs1 & b & b' & ctr & Etake & Hb & _ & Hctr & Eid & _ & _ & _ & _ & _ & _ & _ & Hids & Ecs).
  pose proof (callout_take_spec tbl cs fresh Hwf Hf) as Htake. rewrite Etake in Htake.
  destruct Htake as (_ & _ & _ & Ebk & _).
  pose proof (bucket_no_lt rt) as Hi. pose proof (proj1 (next_ctr ctr Hctr)) as Hc'.
  set (ctr' := (ctr + 1) mod id_wrap) in *.
  destruct (mk_id_range tbl long ctr' (bucket_no rt) Ht Hc' Hi) as (Hr & Hm & Hd).
  assert (Hlen : (bucket_no rt < length (cs_bucket cs))%nat) by (apply lookup_lt_is_Some; by exists b).
  exists ctr'. split; [done|]. split; [done|]. split; [rewrite Eid; exact Hr|].
  split; [unfold bucket_no at 1; rewrite Eid, land_255, Hm; apply Nat2Z.id|].
  split; [rewrite Eid; by apply land_table|]. split.
  - intros b2 Hb2. unfold callout_insert in E. rewrite Etake in E. simpl in E.
    apply bind_ok in E as (c0 & _ & E). apply bind_ok in E as (b0 & Hb0 & E).
    destruct (next_id b0 _) as [id0 b1] eqn:En in E. injection E as <- <-. simpl in Hb2.
    pose proof (callout_take_spec tbl cs fresh Hwf Hf) as Htk. rewrite Etake in Htk.
    destruct Htk as (_ & _ & _ & _ & Ecur & _). rewrite Ecur in *. fold rt in Hb2, En.
    rewrite Ebk, list_lookup_insert_eq in Hb2 by done. simplify_eq. simpl.
    unfold next_id in En. fold long in En. destruct long; by simplify_eq.
  - intros n Hn. rewrite Eid. unfold mk_id. intros Heq.
    assert (Hmod : (ctr' + n) mod id_wrap = ctr') by lia. unfold id_wrap in *.
    pose proof (Z.div_mod (ctr' + n) 524288 ltac:(lia)). assert (n = 524288 * ((ctr' + n) / 524288)) by lia.
    pose proof (Z.div_pos (ctr' + n) 524288 ltac:(lia) ltac:(lia)). nia.
Qed.

Lemma callout_insert_id_witness :
  ∃ id cs', callout_insert (callout_setup CALLOUT_NORMAL 0) (Some 1) false 0 7 8 50 = Ok (id, cs') ∧
  ∃ ctr, 0 ≤ ctr < id_wrap ∧ id = mk_id CALLOUT_NORMAL false ctr 50 ∧ 0 < id < CALLOUT_UNSAFE_DRIVER.
Proof.
  destruct (callout_insert (callout_setup CALLOUT_NORMAL 0) (Some 1) false 0 7 8 50) as [[id cs']| |] eqn:E;
    [|by vm_compute in E..].
  exists id, cs'. split; [done|].
  destruct (callout_insert_id CALLOUT_NORMAL (callout_setup CALLOUT_NORMAL 0) (Some 1) false 0 7 8 50 id cs')
    as (ctr & H1 & H2 & H3 & _).
  - by left.
  - apply (cy_wf _ _ ∅). apply callout_setup_ok; [by left|unfold is_s32, W31; lia].
  - intros cp [= <-]. by vm_compute.
  - exact E.
  - by exists ctr.
Defined.

(** [callout_delete] on any ID: -1 with nothing changed when no callout of the
    bucket has it or the caller is the one that executes it; a wait, while another
    thread executes it; and otherwise the ticks left (0 when late), the callout
    out of its bucket and on the free list, all other callouts and threads as they
    were. *)
Theorem callout_delete_outcomes tbl cs run tid id :
  cy_ok tbl cs run →
  ∃ r cs' b, callout_delete cs tid id = Ok (r, cs') ∧ cy_ok tbl cs' run ∧ cs_bucket cs !! bucket_no id = Some b ∧
  ((r = DelRet (-1) ∧ cs' = cs ∧
     ∀ cp c, cp ∈ b_first b → cs_callouts cs !! cp = Some c → Z.land (c_xid c) CALLOUT_ID_MASK ≠ id) ∨
   (∃ cp c, cp ∈ b_first b ∧ cs_callouts cs !! cp = Some c ∧ Z.land (c_xid c) CALLOUT_ID_MASK = id ∧
     if executing c then
       cs' = cs ∧ run !! c_executor c = Some (c_runtime c, cp) ∧
       r = (if c_executor c =? tid then DelRet (-1) else DelWait cp (c_xid c))
     else
       r = DelRet (Z.max 0 (s32 (c_runtime c - cs_curtime cs))) ∧
       cs_bucket cs' = <[bucket_no id := set_b_first (filter (λ x, x ≠ cp) (b_first b)) b]> (cs_bucket cs) ∧
       cs_freelist cs' = cp :: cs_freelist cs ∧ cs_callouts cs' = cs_callouts cs)).
Proof.
  intros Hok. destruct (callout_delete_spec tbl cs run tid id Hok) as (r & cs' & E & Hok' & b & Hb & Hres).
  exists r, cs', b. split; [done|]. split; [done|]. split; [done|].
  destruct Hres as [Hn|(cp & c & Hin & Hc & Hid & _ & Hres)]; [by left|right].
  exists cp, c. split; [done|]. split; [done|]. split; [done|]. destruct (executing c) eqn:Hx.
  - destruct Hres as [-> ->]. split; [done|]. split; [|done]. by apply (cy_exec _ _ _ Hok (bucket_no id) b).
  - destruct Hres as [-> ->]. destruct (wf_in _ _ (cy_wf _ _ _ Hok) _ _ _ Hb Hin) as (c' & Hc' & Ebn & _).
    assert (c' = c) as -> by congruence. split; [done|]. rewrite Ebn. simpl. by rewrite insert_id.
Qed.

Lemma callout_delete_outcomes_witness :
  ∃ r cs' b, callout_delete (callout_setup CALLOUT_NORMAL 0) 9 5 = Ok (r, cs') ∧
    cs_bucket (callout_setup CALLOUT_NORMAL 0) !! bucket_no 5 = Some b ∧ r = DelRet (-1).
Proof.
  destruct (callout_delete_outcomes CALLOUT_NORMAL (callout_setup CALLOUT_NORMAL 0) ∅ 9 5)
    as (r & cs' & b & E & _ & Hb & _).
  - apply callout_setup_ok; [by left|unfold is_s32, W31; lia].
  - exists r, cs', b. split; [done|]. split; [done|]. vm_compute in E. by simplify_eq.
Defined.

(** ** Checkpoint *)

Lemma save_bucket_id cs l :
  (∀ cp, cp ∈ l → is_Some (cs_callouts cs !! cp)) → save_bucket cs l [] = Ok (l, []).
Proof.
  induction l as [|cp l IH]; [done|]. intros Hl. simpl. unfold get_callout.
  destruct (Hl cp) as [c Hc]; [apply list_elem_of_here|]. rewrite Hc. simpl.
  assert (Hx : Z.lor (c_xid c) CALLOUT_EXECUTING ≠ 0).
  { intros E. apply Z.lor_eq_0_iff in E as [_ E]. done. }
  rewrite (proj2 (Z.eqb_neq _ _)) by done. simpl. rewrite IH; [done|].
  intros x Hx'. apply Hl. by apply list_elem_of_further.
Qed.

(** [callout_save] moves nothing: the test of the executing bit is written
    with [|], which holds for every callout, so that the save table is empty,
    every callout stays in the current one, and [callout_restore] afterwards only
    restores [cs_runtime] and [cs_busyticks]. *)
Theorem callout_save_moves_nothing tbl cs :
  co_wf tbl cs →
  ∃ ocs, callout_save cs = Ok (with_busyticks cs 0, ocs) ∧ Forall (λ b, b_first b = []) (cs_bucket ocs) ∧
    cs_callouts ocs = cs_callouts cs ∧
    cs_bucket (callout_restore (with_busyticks cs 0) ocs) = cs_bucket cs.
Proof.
  intros Hwf. assert (Hall : ∀ bs, (∀ b, b ∈ bs → ∀ cp, cp ∈ b_first b → is_Some (cs_callouts cs !! cp)) →
    save_buckets cs bs = Ok (bs, map (set_b_first []) bs)).
  { induction bs as [|b bs IH]; [done|]. intros H. simpl.
    rewrite save_bucket_id by (apply H, list_elem_of_here). simpl.
    rewrite IH; [|intros b' Hb'; apply H; by apply list_elem_of_further]. simpl. by destruct b. }
  unfold callout_save. rewrite Hall.
  2: { intros b Hb cp Hcp. apply list_elem_of_lookup in Hb as [i Hi].
       destruct (wf_in _ _ Hwf _ _ _ Hi Hcp) as (c & Hc & _). by eexists. }
  simpl. eexists. split; [by destruct cs|]. split; [|split; [done|]].
  - simpl. apply Forall_forall. intros b Hb. by apply in_map_iff in Hb as (b0 & <- & _).
  - simpl. clear. induction (cs_bucket cs) as [|b bs IH]; [done|]. simpl. rewrite IH. by destruct b.
Qed.

Lemma callout_save_moves_nothing_witness :
  ∃ id cs ocs, callout_insert (callout_setup CALLOUT_NORMAL 0) (Some 1) false 0 7 8 50 = Ok (id, cs) ∧
    callout_save cs = Ok (with_busyticks cs 0, ocs) ∧ Forall (λ b, b_first b = []) (cs_bucket ocs) ∧
    1 ∈ concat (lists cs).
Proof.
  destruct (callout_insert (callout_setup CALLOUT_NORMAL 0) (Some 1) false 0 7 8 50) as [[id cs]| |] eqn:E;
    [|by vm_compute in E..].
  destruct (callout_save_moves_nothing CALLOUT_NORMAL cs) as (ocs & H1 & H2 & _).
  - apply (cy_wf _ _ ∅). apply (cy_insert_ok CALLOUT_NORMAL (callout_setup CALLOUT_NORMAL 0) ∅ (Some 1) false 0 7 8 50 id).
    + by left.
    + apply callout_setup_ok; [by left|unfold is_s32, W31; lia].
    + intros cp [= <-]. by vm_compute.
    + by vm_compute.
    + exact E.
  - exists id, cs, ocs. split; [done|]. split; [done|]. split; [done|].
    vm_compute in E. simplify_eq. vm_compute. apply list_elem_of_here.
Defined.

Lemma callout_execute_due_witness :
  ∃ r cs', callout_execute (callout_setup CALLOUT_NORMAL 0) 9 = Ok (r, cs') ∧
    match r with
    | Some (rt, cp) => ∃ c, cs_callouts (callout_setup CALLOUT_NORMAL 0) !! cp = Some c ∧ executing c = false ∧
        c_runtime c = rt ∧ 0 ≤ s32 (0 - rt) ∧ cs_callouts cs' !! cp = Some (started c 9)
    | None => ∀ cp c, pending cs' cp c → 0 ≤ s32 (c_runtime c - (0 + 1))
    end.
Proof.
  apply (callout_execute_due CALLOUT_NORMAL (callout_setup CALLOUT_NORMAL 0) ∅ 9).
  - apply callout_setup_ok; [by left|unfold is_s32, W31; lia].
  - done.
Defined.

(** A callout is inserted one tick ahead, the clock ticks and the thread 9 starts it: from there
    on another thread that deletes it waits, and the thread 9 can finish. *)
Definition ran : res (Z * csys) :=
  '(id, cs) ← callout_insert (callout_setup CALLOUT_NORMAL 0) (Some 4096) false 0 7 8 1;
  '(_, cs) ← callout_schedule cs 1;
  '(r, cs) ← callout_execute cs 9;
  Ok (id, MkSys cs (set_run ∅ 9 r)).

Lemma callout_threads_witness :
  ∃ id s, ran = Ok (id, s) ∧ cy_run s !! 9 = Some (1, 4096) ∧ rtc (cy_step false) (MkSys (callout_setup CALLOUT_NORMAL 0) ∅) s ∧
  (∀ tid rt, cy_run s !! tid = Some (rt, 4096) → tid = 9) ∧
  (∃ xid cs', callout_delete (cy_cs s) 3 id = Ok (DelWait 4096 xid, cs')) ∧
  ∃ cs', callout_finish (cy_cs s) 9 1 4096 = Ok (None, cs').
Proof.
  destruct ran as [[id s]| |] eqn:E; [|by vm_compute in E..]. exists id, s. split; [done|]. unfold ran in E.
  destruct (callout_insert _ _ _ _ _ _ _) as [[i cs1]| |] eqn:E1; try done. cbn [mbind res_bind] in E.
  destruct (callout_schedule cs1 1) as [[d cs2]| |] eqn:E2; try done. cbn [mbind res_bind] in E.
  destruct (callout_execute cs2 9) as [[r cs3]| |] eqn:E3; try done. cbn [mbind res_bind] in E.
  injection E as <- <-. assert (rtc (cy_step false) (MkSys (callout_setup CALLOUT_NORMAL 0) ∅) (MkSys cs3 (set_run ∅ 9 r))) as Hst.
  { eapply rtc_l; [apply (cy_insert false _ (Some 4096) false 0 7 8 1 i cs1); [by intros cp [= <-]|done|exact E1]|].
    eapply rtc_l; [apply (cy_clock false _ 1 d cs2); [by vm_compute|done|exact E2]|].
    apply rtc_once, (cy_execute false (MkSys cs2 ∅) 9 r cs3); [done|exact E3]. }
  assert (r = Some (1, 4096) ∧ ∃ xid cs', callout_delete cs3 3 i = Ok (DelWait 4096 xid, cs') ∧
    ∃ cs', callout_finish cs3 9 1 4096 = Ok (None, cs')) as (-> & xid & cs' & Hd & Hf).
  { vm_compute in E1. injection E1 as <- <-. vm_compute in E2. injection E2 as <- <-. vm_compute in E3. injection E3 as <- <-.
    split; [done|]. eexists _, _. split; [by vm_compute|]. eexists. by vm_compute. }
  destruct (callout_threads CALLOUT_NORMAL 0 _ (or_introl eq_refl) ltac:(by vm_compute) Hst) as (Hx & _).
  split; [done|]. split; [exact Hst|]. split; [|split; [by exists xid, cs'|done]].
  intros tid rt Hr. by apply (Hx tid 9 rt 1 4096).
Defined.
