(* ===== verification/Strq.v ===== *)
(** * STREAMS queues (uts/common/io/stream.c, os/strsubr.c, sys/stream.h)

    A queue with its priority bands and the routines that put messages on it and
    take them off, with their flow control.

    - The doubly linked list from [q_first] to [q_last] is the sequence [q_msgs] of
      its messages; [qb_first] and [qb_last] are addresses of messages.  A loop that
      runs off the end of the list dereferences NULL and is [Fault].
    - A message is what the queue routines see of it: its address, band, type, the
      [MSGNOGET] flag and the sizes [b_wptr - b_rptr] of its blocks.
    - The effects outside the queue are events, in the order they happen: the
      service procedure is enabled, the queue behind is back-enabled for a band, the
      stream head is woken, a message is freed.
    - [avail] is how many times [allocband] succeeds in a call of [putq], [putbq] or
      [insq].
    - Not modelled: the queue lock and [freezestr]; a routine is what happens under
      the lock, and [flushq], [flushband] and [rmvq], which drop it, run without
      others in between. *)

From S2P Require Import Prelude.

Definition QENAB : Z := 1.
Definition QWANTR : Z := 2.
Definition QWANTW : Z := 4.
Definition QFULL : Z := 8.
Definition QNOENB : Z := 64.
Definition QBACK : Z := 256.
Definition QINSERVICE : Z := 65536.
Definition QWCLOSE : Z := 131072.
Definition QWANTWSYNC : Z := 524288.
Definition QB_FULL : Z := 1.
Definition QB_WANTW : Z := 2.
Definition QB_BACK : Z := 4.

Definition QNORM : Z := 0.
Definition QPCTL : Z := 128.
Definition M_DATA : Z := 0.
Definition M_PROTO : Z := 1.
Definition M_DELAY : Z := 12.
Definition M_PCPROTO : Z := 131.

Record qmsg := MkMsg {
  m_id : Z;
  m_band : Z;
  m_noget : bool;
  m_type : Z;
  m_sizes : list Z
}.

Record qband := MkBand {
  qb_first : option Z;
  qb_last : option Z;
  qb_count : Z;
  qb_hiwat : Z;
  qb_lowat : Z;
  qb_flag : Z
}.

Record queue := MkQueue {
  q_msgs : list qmsg;
  q_flag : Z;
  q_count : Z;
  q_hiwat : Z;
  q_lowat : Z;
  q_minpsz : Z;
  q_maxpsz : Z;
  q_struiot : Z;
  q_nband : Z;
  q_bandp : list qband
}.

Inductive event :=
  | EvEnable
  | EvBack (band : Z)
  | EvWakeSync
  | EvFree (m : qmsg).

(** ** Fields *)

Definition set_m_band (v : Z) (m : qmsg) := MkMsg (m_id m) v (m_noget m) (m_type m) (m_sizes m).

Definition set_qb_first (v : option Z) (b : qband) :=
  MkBand v (qb_last b) (qb_count b) (qb_hiwat b) (qb_lowat b) (qb_flag b).
Definition set_qb_last (v : option Z) (b : qband) :=
  MkBand (qb_first b) v (qb_count b) (qb_hiwat b) (qb_lowat b) (qb_flag b).
Definition set_qb_count (v : Z) (b : qband) :=
  MkBand (qb_first b) (qb_last b) v (qb_hiwat b) (qb_lowat b) (qb_flag b).
Definition set_qb_flag (v : Z) (b : qband) :=
  MkBand (qb_first b) (qb_last b) (qb_count b) (qb_hiwat b) (qb_lowat b) v.

Definition set_q_msgs (v : list qmsg) (q : queue) :=
  MkQueue v (q_flag q) (q_count q) (q_hiwat q) (q_lowat q) (q_minpsz q) (q_maxpsz q) (q_struiot q) (q_nband q) (q_bandp q).
Definition set_q_flag (v : Z) (q : queue) :=
  MkQueue (q_msgs q) v (q_count q) (q_hiwat q) (q_lowat q) (q_minpsz q) (q_maxpsz q) (q_struiot q) (q_nband q) (q_bandp q).
Definition set_q_count (v : Z) (q : queue) :=
  MkQueue (q_msgs q) (q_flag q) v (q_hiwat q) (q_lowat q) (q_minpsz q) (q_maxpsz q) (q_struiot q) (q_nband q) (q_bandp q).
Definition set_q_bands (n : Z) (v : list qband) (q : queue) :=
  MkQueue (q_msgs q) (q_flag q) (q_count q) (q_hiwat q) (q_lowat q) (q_minpsz q) (q_maxpsz q) (q_struiot q) n v.

Definition set_q_bandp (v : list qband) (q : queue) := set_q_bands (q_nband q) v q.

Definition queclass (m : qmsg) : Z := if QPCTL <=? m_type m then QPCTL else QNORM.

Definition datamsg (type : Z) : bool :=
  (type =? M_DATA) || (type =? M_PROTO) || (type =? M_PCPROTO) || (type =? M_DELAY).

Definition canenable (q : queue) : bool := negb (has_bit (q_flag q) QNOENB).

(** ** Bands *)

(** [allocband], its water marks and its place at the end of [q_bandp]. *)
Definition new_band (q : queue) : qband := MkBand None None 0 (q_hiwat q) (q_lowat q) 0.

Fixpoint alloc_bands (n avail : nat) (q : queue) : bool * queue :=
  match n, avail with
  | O, _ => (true, q)
  | S n, O => (false, q)
  | S n, S avail => alloc_bands n avail (set_q_bands (q_nband q + 1) (q_bandp q ++ [new_band q]) q)
  end.

(** The bands up to [pri] exist, or cannot be allocated ([false]). *)
Definition need_band (pri : Z) (avail : nat) (q : queue) : bool * queue :=
  alloc_bands (Z.to_nat (pri - q_nband q)) avail q.

(** Walking [qb_next] to the band [pri]. *)
Definition get_band (q : queue) (pri : Z) : res qband := deref (q_bandp q !! Z.to_nat (pri - 1)).
Definition put_band (q : queue) (pri : Z) (b : qband) : queue :=
  set_q_bandp (<[Z.to_nat (pri - 1) := b]> (q_bandp q)) q.

(** ** Counting *)

(** The loops over [b_cont] that add or subtract the sizes. *)
Definition add_sizes (c : Z) (sizes : list Z) : Z := fold_left add32 sizes c.
Definition sub_sizes (c : Z) (sizes : list Z) : Z := fold_left sub32 sizes c.

(** The message comes on the queue: its size in the count of its band. *)
Definition count_in (q : queue) (bp : qmsg) (band : bool) : res queue :=
  if band then
    qbp ← get_band q (m_band bp);
    let c := add_sizes (qb_count qbp) (m_sizes bp) in
    let qbp := set_qb_count c qbp in
    Ok (put_band q (m_band bp)
          (if qb_hiwat qbp <=? c then set_qb_flag (set_bit (qb_flag qbp) QB_FULL) qbp else qbp))
  else
    let c := add_sizes (q_count q) (m_sizes bp) in
    let q := set_q_count c q in
    Ok (if q_hiwat q <=? c then set_q_flag (set_bit (q_flag q) QFULL) q else q).

(** It leaves the queue. *)
Definition count_out (q : queue) (bp : qmsg) : res queue :=
  if m_band bp =? 0 then
    let c := sub_sizes (q_count q) (m_sizes bp) in
    let q := set_q_count c q in
    Ok (if c <? q_hiwat q then set_q_flag (clr_bit (q_flag q) QFULL) q else q)
  else
    qbp ← get_band q (m_band bp);
    let c := sub_sizes (qb_count qbp) (m_sizes bp) in
    let qbp := set_qb_count c qbp in
    Ok (put_band q (m_band bp)
          (if c <? qb_hiwat qbp then set_qb_flag (clr_bit (qb_flag qbp) QB_FULL) qbp else qbp)).

(** ** Places on the list *)

(** The messages a [while] loop passes, and the rest. *)
Fixpoint skip_while (p : qmsg → bool) (l : list qmsg) : list qmsg * list qmsg :=
  match l with
  | [] => ([], [])
  | m :: rest => if p m then let '(a, b) := skip_while p rest in (m :: a, b) else ([], l)
  end.

(** A loop that must stop at a message. *)
Definition pass (p : qmsg → bool) (l : list qmsg) : res (list qmsg * list qmsg) :=
  match skip_while p l with
  | (_, []) => Fault
  | r => Ok r
  end.

(** Past the high priority messages, then past those whose band satisfies [p]. *)
Definition pass_bands (p : Z → bool) (l : list qmsg) : res (list qmsg * list qmsg) :=
  '(a, r) ← pass (λ m, QPCTL <=? m_type m) l;
  '(b, r) ← pass (λ m, p (m_band m)) r;
  Ok (a ++ b, r).

(** The list at the message with address [id]. *)
Fixpoint find_msg (id : Z) (l : list qmsg) : res (list qmsg * qmsg * list qmsg) :=
  match l with
  | [] => Fault
  | m :: rest =>
    if m_id m =? id then Ok ([], m, rest)
    else '(a, x, b) ← find_msg id rest; Ok (m :: a, x, b)
  end.

Definition last_msg (l : list qmsg) : res qmsg := deref (list.last l).

(** ** Putting *)

(** Where [putq] puts [bp], and the pointers of its band. *)
Definition putq_place (q : queue) (bp : qmsg) (qbp : option qband) : res (list qmsg * option qband) :=
  let l := q_msgs q in
  let id := Some (m_id bp) in
  match l, qbp with
  | [], None => Ok ([bp], None)
  | [], Some b => Ok ([bp], Some (set_qb_last id (set_qb_first id b)))
  | _, None =>
    tmp ← last_msg l;
    if queclass bp <=? queclass tmp then Ok (l ++ [bp], None)
    else '(a, r) ← pass (λ m, queclass bp <=? queclass m) l; Ok (a ++ bp :: r, None)
  | _, Some b =>
    match qb_first b with
    | Some _ =>
      lst ← deref (qb_last b);
      '(a, tmp, r) ← find_msg lst l;
      Ok (a ++ tmp :: bp :: r, Some (set_qb_last id b))
    | None =>
      tmp ← last_msg l;
      if (queclass bp <? queclass tmp) || (m_band bp <=? m_band tmp) then
        Ok (l ++ [bp], Some (set_qb_last id (set_qb_first id b)))
      else
        '(a, r) ← pass_bands (λ band, m_band bp <=? band) l;
        Ok (a ++ bp :: r, Some (set_qb_last id (set_qb_first id b)))
    end
  end.

(** The same for [putbq]. *)
Definition putbq_place (q : queue) (bp : qmsg) (qbp : option qband) : res (list qmsg * option qband) :=
  let l := q_msgs q in
  let id := Some (m_id bp) in
  if bool_decide (l = []) || (queclass bp =? QPCTL) then
    Ok (bp :: l, match qbp with Some b => Some (set_qb_last id (set_qb_first id b)) | None => None end)
  else
    match qbp with
    | Some b =>
      match qb_first b with
      | Some fst =>
        '(a, tmp, r) ← find_msg fst l; Ok (a ++ bp :: tmp :: r, Some (set_qb_first id b))
      | None =>
        tmp ← last_msg l;
        let b := set_qb_first id (set_qb_last id b) in
        if (queclass bp <? queclass tmp) || (m_band bp <? m_band tmp) then Ok (l ++ [bp], Some b)
        else '(a, r) ← pass_bands (λ band, m_band bp <? band) l; Ok (a ++ bp :: r, Some b)
      end
    | None =>
      tmp ← last_msg l;
      if (queclass bp <? queclass tmp) || (m_band bp <? m_band tmp) then Ok (l ++ [bp], None)
      else '(a, r) ← pass_bands (λ band, m_band bp <? band) l; Ok (a ++ bp :: r, None)
    end.

(** A high priority message has no band. *)
Definition force_band (bp : qmsg) : qmsg :=
  if queclass bp =? QPCTL then (if negb (m_band bp =? 0) then set_m_band 0 bp else bp) else bp.

(** What the two have in common: the band, the place, the count; [enab] tells
    whether the service procedure is to be enabled. *)
Definition put_with (place : queue → qmsg → option qband → res (list qmsg * option qband))
    (enab : queue → qmsg → bool) (q : queue) (bp : qmsg) (avail : nat) : res (Z * queue * list event) :=
  let bp := force_band bp in
  let band := negb (m_band bp =? 0) in
  let '(ok, q) := (if band then need_band (m_band bp) avail q else (true, q)) in
  if negb ok then Ok (0, q, [])
  else
    qbp ← (if band then b ← get_band q (m_band bp); Ok (Some b) else Ok None);
    '(l, qbp) ← place q bp qbp;
    let q := set_q_msgs l q in
    let q := match qbp with Some b => put_band q (m_band bp) b | None => q end in
    q ← count_in q bp band;
    Ok (1, q, if enab q bp then [EvEnable] else []).

Definition putq : queue → qmsg → nat → res (Z * queue * list event) :=
  put_with putq_place
    (λ q bp, (QNORM <? queclass bp) ||
      (canenable q && (has_bit (q_flag q) QWANTR || negb (m_band bp =? 0)))).

Definition putbq : queue → qmsg → nat → res (Z * queue * list event) :=
  put_with putbq_place
    (λ q bp, (QNORM <? queclass bp) || (canenable q && has_bit (q_flag q) QWANTR)).

(** ** Inserting before a message *)

(** The order [insq] demands; [emp] is the message after. *)
Definition insq_order (l : list qmsg) (emp : option (list qmsg * qmsg)) (mp : qmsg) : bool :=
  match emp with
  | Some (prev, e) =>
    let p := list.last prev in
    negb
      (((queclass mp =? QPCTL) && match p with Some p => m_type p <? QPCTL | None => false end) ||
       (((queclass mp =? QNORM) && (m_band mp <? m_band e)) ||
        match p with Some p => (m_type p <? QPCTL) && (m_band p <? m_band mp) | None => false end))
  | None =>
    negb match list.last l with
         | Some tmp => (queclass mp =? QNORM) && (m_band tmp <? m_band mp)
         | None => false
         end
  end.

(** The band's pointers after the insertion between [prev] and [next]. *)
Definition insq_band (b : qband) (prev next : option qmsg) (mp : qmsg) : qband :=
  let other := λ o, match o with Some p => negb (m_band p =? m_band mp) | None => true end in
  let id := Some (m_id mp) in
  match qb_first b with
  | None => set_qb_last id (set_qb_first id b)
  | Some _ =>
    if other prev then set_qb_first id b else if other next then set_qb_last id b else b
  end.

Definition insq (q : queue) (emp : option Z) (mp : qmsg) (avail : nat) : res (Z * queue * list event) :=
  let mp := force_band mp in
  '(a, r) ← match emp with
            | Some id => '(a, e, b) ← find_msg id (q_msgs q); Ok (a, e :: b)
            | None => Ok (q_msgs q, [])
            end;
  let at_ := match r with e :: _ => Some (a, e) | [] => None end in
  if negb (insq_order (q_msgs q) at_ mp) then Ok (0, q, [])
  else
    let band := negb (m_band mp =? 0) in
    let '(ok, q) := (if band then need_band (m_band mp) avail q else (true, q)) in
    if negb ok then Ok (0, q, [])
    else
      q ← (if band then
             b ← get_band q (m_band mp); Ok (put_band q (m_band mp) (insq_band b (list.last a) (head r) mp))
           else Ok q);
      q ← count_in (set_q_msgs (a ++ mp :: r) q) mp band;
      Ok (1, q, if canenable q && has_bit (q_flag q) QWANTR then [EvEnable] else []).

(** ** Taking *)

Definition rmvq_noenab (q : queue) (id : Z) : res queue :=
  '(a, mp, r) ← find_msg id (q_msgs q);
  let same := λ o, match o with
                   | Some p => if m_band mp =? m_band p then Some (m_id p) else None
                   | None => None
                   end in
  q ← (if negb (m_band mp =? 0) then
         b ← get_band q (m_band mp);
         let b := if bool_decide (qb_first b = Some id) then set_qb_first (same (head r)) b else b in
         let b := if bool_decide (qb_last b = Some id) then set_qb_last (same (list.last a)) b else b in
         Ok (put_band q (m_band mp) b)
       else Ok q);
  count_out (set_q_msgs (a ++ r) q) mp.

Definition qbackenable (q : queue) (band : Z) : res (queue * list event) :=
  if (band =? 0) && negb (has_bit (q_flag q) (Z.lor QWANTW QWANTWSYNC)) then Ok (q, [])
  else if band =? 0 then
    if (q_count q <? q_lowat q) || (q_lowat q =? 0) then
      let sync := has_bit (q_flag q) QWANTWSYNC in
      let want := has_bit (q_flag q) QWANTW in
      let f := if sync then clr_bit (q_flag q) QWANTWSYNC else q_flag q in
      let f := if want then clr_bit f QWANTW else f in
      Ok (set_q_flag f q, (if sync then [EvWakeSync] else []) ++ (if want then [EvBack 0] else []))
    else Ok (q, [])
  else
    b ← get_band q band;
    if ((qb_count b <? qb_lowat b) || (qb_lowat b =? 0)) && has_bit (qb_flag b) QB_WANTW then
      Ok (put_band q band (set_qb_flag (clr_bit (qb_flag b) QB_WANTW) b), [EvBack band])
    else Ok (q, []).

(** The first message without [MSGNOGET]. *)
Fixpoint first_get (l : list qmsg) : option qmsg :=
  match l with
  | [] => None
  | m :: l => if m_noget m then first_get l else Some m
  end.

Definition getq_noenab (q : queue) : res (option qmsg * queue) :=
  match q_msgs q with
  | [] => Ok (None, set_q_flag (set_bit (q_flag q) QWANTR) q)
  | bp :: rest =>
    if m_noget bp then
      match first_get rest with
      | Some bp => q ← rmvq_noenab q (m_id bp); Ok (Some bp, q)
      | None => Ok (None, q)
      end
    else
      let q := set_q_msgs rest q in
      q ← (if m_band bp =? 0 then Ok q
           else
             b ← get_band q (m_band bp);
             Ok (put_band q (m_band bp)
                   (if bool_decide (qb_first b = qb_last b) then set_qb_last None (set_qb_first None b)
                    else set_qb_first (m_id <$> head rest) b)));
      q ← count_out q bp;
      Ok (Some bp, set_q_flag (clr_bit (q_flag q) QWANTR) q)
  end.

Definition getq (q : queue) : res (option qmsg * queue * list event) :=
  '(bp, q) ← getq_noenab q;
  let band := match bp with Some bp => m_band bp | None => 0 end in
  '(q, ev) ← qbackenable q band;
  Ok (bp, q, ev).

Definition rmvq (q : queue) (id : Z) : res (queue * list event) :=
  '(_, mp, _) ← find_msg id (q_msgs q);
  q ← rmvq_noenab q id;
  qbackenable q (m_band mp).

(** ** Flushing *)

Definition empty_band (b : qband) : qband :=
  set_qb_flag (clr_bit (qb_flag b) QB_FULL) (set_qb_count 0 (set_qb_last None (set_qb_first None b))).

(** The queue and its bands emptied. *)
Definition empty_queue (q : queue) : queue :=
  let q := set_q_bandp (map empty_band (q_bandp q)) (set_q_count 0 (set_q_msgs [] q)) in
  set_q_flag (clr_bit (q_flag q) QFULL) q.

(** The messages taken off, freed or put back; the result of [putq] is not
    looked at. *)
Fixpoint flush_msgs (free : qmsg → bool) (avail : nat) (q : queue) (l : list qmsg) : res (queue * list event) :=
  match l with
  | [] => Ok (q, [])
  | mp :: l =>
    if free mp then '(q, ev) ← flush_msgs free avail q l; Ok (q, EvFree mp :: ev)
    else
      '(_, q, ev1) ← putq q mp avail;
      '(q, ev) ← flush_msgs free avail q l; Ok (q, ev1 ++ ev)
  end.

(** The bands a writer waits for and that fell below their low water mark, from
    band [pri] on, with the request cleared. *)
Fixpoint flush_wants (pri : Z) (bs : list qband) : list qband * list Z :=
  match bs with
  | [] => ([], [])
  | b :: bs =>
    let '(bs, qbf) := flush_wants (pri + 1) bs in
    if has_bit (qb_flag b) QB_WANTW && ((qb_count b <? qb_lowat b) || (qb_lowat b =? 0)) then
      (set_qb_flag (clr_bit (qb_flag b) QB_WANTW) b :: bs, pri :: qbf)
    else (b :: bs, qbf)
  end.

Definition flushq (q : queue) (flag : bool) (avail : nat) : res (queue * list event) :=
  match q_msgs q with
  | [] => Ok (q, [])
  | l =>
    '(q, ev) ← flush_msgs (λ mp, flag || datamsg (m_type mp)) avail (empty_queue q) l;
    let '(bs, qbf) := flush_wants 1 (q_bandp q) in
    let q := set_q_bandp bs q in
    let want := has_bit (q_flag q) QWANTW && ((q_lowat q =? 0) || (q_count q <? q_lowat q)) in
    let q := if want then set_q_flag (clr_bit (q_flag q) QWANTW) q else q in
    Ok (q, ev ++ map EvBack (rev qbf) ++ (if want then [EvBack 0] else []))
  end.

(** The loop of [flushband] for a band above 0: [rmvq] of each message of the band
    from [mp] on, up to and with the one at [lst]. *)
Fixpoint flushband_loop (q : queue) (pri : Z) (flag : bool) (lst : option Z) (l : list qmsg) :
    res (queue * list event) :=
  match l with
  | [] => match lst with Some _ => Fault | None => Ok (q, []) end
  | mp :: rest =>
    let stop := bool_decide (Some (m_id mp) = lst) in
    '(q, ev) ← (if (m_band mp =? pri) && (flag || datamsg (m_type mp)) then
                  '(q, ev) ← rmvq q (m_id mp); Ok (q, ev ++ [EvFree mp])
                else Ok (q, []));
    if stop then Ok (q, ev)
    else '(q, ev') ← flushband_loop q pri flag lst rest; Ok (q, ev ++ ev')
  end.

Definition flushband (q : queue) (pri : Z) (flag : bool) (avail : nat) : res (queue * list event) :=
  if q_nband q <? pri then Ok (q, [])
  else if pri =? 0 then
    '(q, ev) ← flush_msgs (λ mp, (m_band mp =? 0) && (flag || datamsg (m_type mp))) avail (empty_queue q) (q_msgs q);
    if has_bit (q_flag q) QWANTW && ((q_lowat q =? 0) || (q_count q <? q_lowat q)) then
      Ok (set_q_flag (clr_bit (q_flag q) QWANTW) q, ev ++ [EvBack 0])
    else Ok (q, ev)
  else
    b ← get_band q pri;
    match qb_first b with
    | None => Ok (q, [])
    | Some fst =>
      '(_, mp, r) ← find_msg fst (q_msgs q);
      let lst := if bool_decide (qb_last b = Some fst) then m_id <$> head r else qb_last b in
      flushband_loop q pri flag lst (mp :: r)
    end.

(** ** Flow control *)

(** [canput] and [bcanput], on [q_nfsrv]. *)
Definition canput (q : queue) : Z * queue :=
  if negb (has_bit (q_flag q) QFULL) then (1, q) else (0, set_q_flag (set_bit (q_flag q) QWANTW) q).

Definition bcanput (q : queue) (pri : Z) : res (Z * queue) :=
  if pri =? 0 then Ok (canput q)
  else if q_nband q <? pri then Ok (1, q)
  else
    b ← get_band q pri;
    if has_bit (qb_flag b) QB_FULL then
      Ok (0, put_band q pri (set_qb_flag (set_bit (qb_flag b) QB_WANTW) b))
    else Ok (1, q).

Definition qsize (q : queue) : Z := Z.of_nat (length (q_msgs q)).
Definition noenable (q : queue) : queue := set_q_flag (set_bit (q_flag q) QNOENB) q.
Definition enableok (q : queue) : queue := set_q_flag (clr_bit (q_flag q) QNOENB) q.

(** [setqback]; a band that cannot be allocated is only warned about. *)
Definition setqback (q : queue) (pri : Z) (avail : nat) : res queue :=
  if negb (pri =? 0) then
    let '(ok, q) := need_band pri avail q in
    if negb ok then Ok q
    else b ← get_band q pri; Ok (put_band q pri (set_qb_flag (set_bit (qb_flag b) QB_BACK) b))
  else Ok (set_q_flag (set_bit (q_flag q) QBACK) q).

(** [set_qfull] and [clr_qfull], on [q_nfsrv]. *)
Definition set_qfull (q : queue) : queue := set_q_flag (set_bit (q_flag q) QFULL) q.

Definition clr_qfull (q : queue) : queue * list event :=
  if negb (has_bit (q_flag q) (Z.lor QFULL QWANTW)) then (q, [])
  else if q_count q <? q_hiwat q then
    let q := set_q_flag (clr_bit (q_flag q) QFULL) q in
    if has_bit (q_flag q) QWANTW && ((q_count q <? q_lowat q) || (q_lowat q =? 0)) then
      (set_q_flag (clr_bit (q_flag q) QWANTW) q, [EvBack 0])
    else (q, [])
  else (q, []).

(** ** Queue fields *)

Inductive qfields :=
  | QHIWAT | QLOWAT | QMAXPSZ | QMINPSZ | QCOUNT | QFIRST | QLAST | QFLAG | QSTRUIOT | QBAD.

Definition INFPSZ : Z := -1.
Definition PIPE_BUF : Z := 5120.

(** What [strqset] touches of the stream head: the sizes it keeps of the queue below,
    whether the stream is a FIFO, and whether the queue is the one below. *)
Record strhead := MkHead {
  sd_qn_minpsz : Z;
  sd_qn_maxpsz : Z;
  sd_fifo : bool;
  sd_below : bool
}.

Definition set_qb_hiwat (v : Z) (b : qband) :=
  MkBand (qb_first b) (qb_last b) (qb_count b) v (qb_lowat b) (qb_flag b).
Definition set_qb_lowat (v : Z) (b : qband) :=
  MkBand (qb_first b) (qb_last b) (qb_count b) (qb_hiwat b) v (qb_flag b).
Definition set_q_hiwat (v : Z) (q : queue) :=
  MkQueue (q_msgs q) (q_flag q) (q_count q) v (q_lowat q) (q_minpsz q) (q_maxpsz q) (q_struiot q) (q_nband q) (q_bandp q).
Definition set_q_lowat (v : Z) (q : queue) :=
  MkQueue (q_msgs q) (q_flag q) (q_count q) (q_hiwat q) v (q_minpsz q) (q_maxpsz q) (q_struiot q) (q_nband q) (q_bandp q).
Definition set_q_minpsz (v : Z) (q : queue) :=
  MkQueue (q_msgs q) (q_flag q) (q_count q) (q_hiwat q) (q_lowat q) v (q_maxpsz q) (q_struiot q) (q_nband q) (q_bandp q).
Definition set_q_maxpsz (v : Z) (q : queue) :=
  MkQueue (q_msgs q) (q_flag q) (q_count q) (q_hiwat q) (q_lowat q) (q_minpsz q) v (q_struiot q) (q_nband q) (q_bandp q).
Definition set_q_struiot (v : Z) (q : queue) :=
  MkQueue (q_msgs q) (q_flag q) (q_count q) (q_hiwat q) (q_lowat q) (q_minpsz q) (q_maxpsz q) v (q_nband q) (q_bandp q).

(** The size the stream head keeps, bounded by the tunable [strmsgsz]. *)
Definition head_maxpsz (strmsgsz : Z) (sd : strhead) (val : Z) : Z :=
  if negb (strmsgsz =? 0) then
    if val =? INFPSZ then strmsgsz
    else if sd_fifo sd then Z.min PIPE_BUF val else Z.min strmsgsz val
  else val.

(** The band [pri], allocated if need be: [None] is band 0, an error is [EAGAIN]. *)
Definition field_band (q : queue) (pri : Z) (avail : nat) : res (bool * option qband * queue) :=
  if negb (pri =? 0) then
    let '(ok, q) := need_band pri avail q in
    if negb ok then Ok (false, None, q) else b ← get_band q pri; Ok (true, Some b, q)
  else Ok (true, None, q).

Definition strqset (strmsgsz : Z) (sd : strhead) (q : queue) (what : qfields) (pri val : Z) (avail : nat) :
    res (Z * queue * strhead) :=
  match what with
  | QBAD => Ok (EINVAL, q, sd)
  | _ =>
    '(ok, qbp, q) ← field_band q pri avail;
    if negb ok then Ok (EAGAIN, q, sd)
    else
      let field := λ (set : queue), match qbp with Some _ => (EINVAL, q) | None => (0, set) end in
      Ok match what with
      | QHIWAT =>
        (0, match qbp with Some b => put_band q pri (set_qb_hiwat (u32 val) b) | None => set_q_hiwat (u32 val) q end, sd)
      | QLOWAT =>
        (0, match qbp with Some b => put_band q pri (set_qb_lowat (u32 val) b) | None => set_q_lowat (u32 val) q end, sd)
      | QMAXPSZ =>
        (field (set_q_maxpsz val q),
         if sd_below sd then MkHead (sd_qn_minpsz sd) (head_maxpsz strmsgsz sd val) (sd_fifo sd) (sd_below sd) else sd)
      | QMINPSZ =>
        (field (set_q_minpsz val q),
         if sd_below sd then MkHead val (sd_qn_maxpsz sd) (sd_fifo sd) (sd_below sd) else sd)
      | QSTRUIOT => (field (set_q_struiot ((val + 32768) mod 65536 - 32768) q), sd)
      | QCOUNT | QFIRST | QLAST | QFLAG => (EPERM, q, sd)
      | QBAD => (EINVAL, q, sd)
      end
  end.

(** A value [strqget] stores. *)
Inductive qvalue := QNum (z : Z) | QMsg (id : option Z).

Definition strqget (q : queue) (what : qfields) (pri : Z) (avail : nat) : res (Z * option qvalue * queue) :=
  match what with
  | QBAD => Ok (EINVAL, None, q)
  | _ =>
    '(ok, qbp, q) ← field_band q pri avail;
    if negb ok then Ok (EAGAIN, None, q)
    else
      let both := λ (b : qband → qvalue) (v : qvalue),
        (0, Some match qbp with Some x => b x | None => v end, q) in
      let queue_only := λ (v : Z),
        match qbp with Some _ => (EINVAL, None, q) | None => (0, Some (QNum v), q) end in
      Ok match what with
      | QHIWAT => both (λ b, QNum (qb_hiwat b)) (QNum (q_hiwat q))
      | QLOWAT => both (λ b, QNum (qb_lowat b)) (QNum (q_lowat q))
      | QMAXPSZ => queue_only (q_maxpsz q)
      | QMINPSZ => queue_only (q_minpsz q)
      | QCOUNT => both (λ b, QNum (qb_count b)) (QNum (q_count q))
      | QFIRST => both (λ b, QMsg (qb_first b)) (QMsg (m_id <$> head (q_msgs q)))
      | QLAST => both (λ b, QMsg (qb_last b)) (QMsg (m_id <$> list.last (q_msgs q)))
      | QFLAG => both (λ b, QNum (qb_flag b)) (QNum (q_flag q))
      | QSTRUIOT => queue_only (q_struiot q)
      | QBAD => (EINVAL, None, q)
      end
  end.
