(* ===== verification/StrqProps.v ===== *)
(** * The invariant of STREAMS queues

    Queues as priority queues: the order of the messages, the pointers of the
    bands, the counts of the flow control, and what the steps of the queue routines
    do to them. *)

From stdpp Require Import sorting.
From S2P Require Import Prelude Strq.

(** ** The abstract queue *)

(** The rank of a message: high priority before the bands, bands in descending
    order. *)
Definition prio (m : qmsg) : Z := if QPCTL <=? m_type m then 256 else m_band m.

Definition before (a b : qmsg) : Prop := prio b ≤ prio a.

(** The messages of rank at least [k], and those below. *)
Definition above (k : Z) (l : list qmsg) : list qmsg := filter (λ m, k ≤ prio m) l.
Definition below (k : Z) (l : list qmsg) : list qmsg := filter (λ m, prio m < k) l.

(** After all messages of its rank, and before all messages of its rank. *)
Definition put_last (m : qmsg) (l : list qmsg) : list qmsg :=
  above (prio m) l ++ m :: below (prio m) l.
Definition put_first (m : qmsg) (l : list qmsg) : list qmsg :=
  above (prio m + 1) l ++ m :: below (prio m + 1) l.

Definition in_band (i : Z) (l : list qmsg) : list qmsg := filter (λ m, m_band m = i) l.

Definition sum (l : list Z) : Z := foldr Z.add 0 l.
Definition msize (m : qmsg) : Z := sum (m_sizes m).
Definition total (l : list qmsg) : Z := sum (msize <$> l).

(** ** Sums *)

Lemma sum_app l1 l2 : sum (l1 ++ l2) = sum l1 + sum l2.
Proof. induction l1; simpl; lia. Qed.

Lemma total_app l1 l2 : total (l1 ++ l2) = total l1 + total l2.
Proof. unfold total. by rewrite fmap_app, sum_app. Qed.

Lemma band_total_cons m l : total (m :: l) = msize m + total l.
Proof. done. Qed.

#[global] Instance sum_Permutation : Proper ((≡ₚ) ==> (=)) sum.
Proof. intros l1 l2 H. induction H; simpl; lia. Qed.

#[global] Instance total_Permutation : Proper ((≡ₚ) ==> (=)) total.
Proof. intros l1 l2 H. unfold total. by rewrite H. Qed.

Lemma sum_nonneg l : Forall (λ n, 0 ≤ n) l → 0 ≤ sum l.
Proof. induction 1; simpl; lia. Qed.

(** A message whose blocks have a size. *)
Definition sized (m : qmsg) : Prop := Forall (λ n, 0 ≤ n) (m_sizes m).

Lemma msize_nonneg m : sized m → 0 ≤ msize m.
Proof. apply sum_nonneg. Qed.

Lemma band_total_nonneg l : Forall sized l → 0 ≤ total l.
Proof. induction 1; [done|]. rewrite band_total_cons. pose proof (msize_nonneg x H). lia. Qed.

Lemma total_filter (P : qmsg → Prop) `{∀ m, Decision (P m)} l :
  Forall sized l → total (filter P l) ≤ total l.
Proof.
  induction 1 as [|m l Hm _ IH]; [done|]. rewrite filter_cons.
  pose proof (msize_nonneg m Hm). case_decide; rewrite ?band_total_cons; lia.
Qed.

Lemma add_sizes_sum c l :
  0 ≤ c → Forall (λ n, 0 ≤ n) l → c + sum l < W32 → add_sizes c l = c + sum l.
Proof.
  unfold add_sizes. revert c. induction l as [|n l IH]; simpl; intros c Hc Hl Hs; [lia|].
  inversion Hl; subst. pose proof (sum_nonneg l ltac:(done)).
  rewrite add32_small by lia. rewrite IH; [lia|lia|done|lia].
Qed.

Lemma sub_sizes_sum c l :
  c < W32 → Forall (λ n, 0 ≤ n) l → sum l ≤ c → sub_sizes c l = c - sum l.
Proof.
  unfold sub_sizes. revert c. induction l as [|n l IH]; simpl; intros c Hc Hl Hs; [lia|].
  inversion Hl; subst. pose proof (sum_nonneg l ltac:(done)).
  unfold sub32. rewrite u32_small by (unfold is_u32; lia). rewrite IH; [lia|lia|done|lia].
Qed.

(** ** Order *)

Lemma above_below k l : StronglySorted before l → above k l ++ below k l = l.
Proof.
  unfold above, below. induction 1 as [|m l _ IH Hm]; [done|]. rewrite !filter_cons.
  destruct (decide (k ≤ prio m)) as [Hk|Hk].
  - rewrite decide_False by lia. simpl. by rewrite IH.
  - rewrite decide_True by lia.
    assert (filter (λ m, k ≤ prio m) l = []) as E.
    { apply filter_none. intros x Hx. rewrite list.Forall_forall in Hm.
      apply Hm in Hx. unfold before in Hx. lia. }
    rewrite E in *. simpl in *. by rewrite IH.
Qed.

Lemma elem_above k m l : m ∈ above k l ↔ k ≤ prio m ∧ m ∈ l.
Proof. unfold above, below. by rewrite list_elem_of_filter. Qed.

Lemma elem_below k m l : m ∈ below k l ↔ prio m < k ∧ m ∈ l.
Proof. unfold above, below. by rewrite list_elem_of_filter. Qed.

Lemma above_app k a b : above k (a ++ b) = above k a ++ above k b.
Proof. apply list.filter_app. Qed.

Lemma below_app k a b : below k (a ++ b) = below k a ++ below k b.
Proof. apply list.filter_app. Qed.

Lemma in_band_app i a b : in_band i (a ++ b) = in_band i a ++ in_band i b.
Proof. apply list.filter_app. Qed.

Lemma sorted_filter (P : qmsg → Prop) `{∀ m, Decision (P m)} l :
  StronglySorted before l → StronglySorted before (filter P l).
Proof.
  induction 1 as [|m l _ IH Hm]; [constructor|]. rewrite filter_cons. case_decide; [|done].
  constructor; [done|]. rewrite list.Forall_forall in *. intros x [_ Hx]%list_elem_of_filter.
  by apply Hm.
Qed.

Lemma prio_range n m : 0 ≤ m_band m ≤ n → n ≤ 255 → 0 ≤ prio m ≤ 256.
Proof. unfold prio. case_if; lia. Qed.

(** The loops over the list find the place of a rank. *)
Lemma skip_while_above (p : qmsg → bool) k l :
  StronglySorted before l → (∀ m, m ∈ l → p m = true ↔ k ≤ prio m) →
  skip_while p l = (above k l, below k l).
Proof.
  intros Hs. unfold above, below. induction Hs as [|m l Hs IH Hm]; intros Hp; [done|].
  simpl. specialize (Hp m ltac:(left)) as Hpm. rewrite !filter_cons.
  destruct (p m) eqn:E.
  - rewrite decide_True by tauto. rewrite decide_False by (assert (k ≤ prio m) by tauto; lia).
    rewrite IH; [done|]. intros x Hx. apply Hp. by right.
  - assert (prio m < k) by (apply Z.lt_nge; intros ?; assert (false = true) by tauto; done).
    rewrite decide_False, decide_True by lia.
    assert (∀ x, x ∈ l → prio x ≤ prio m) as Hl.
    { rewrite list.Forall_forall in Hm. apply Hm. }
    rewrite filter_none, filter_all; [done| |]; intros x Hx; apply Hl in Hx; lia.
Qed.

Lemma pass_above (p : qmsg → bool) k l m :
  StronglySorted before l → (∀ m, m ∈ l → p m = true ↔ k ≤ prio m) →
  m ∈ l → prio m < k → pass p l = Ok (above k l, below k l).
Proof.
  intros Hs Hp Hm Hk. unfold pass. rewrite (skip_while_above p k) by done.
  assert (m ∈ below k l) as Hin by (apply elem_below; done).
  destruct (below k l); [by apply elem_of_nil in Hin|done].
Qed.

Lemma pass_bands_above (p : Z → bool) k l m :
  StronglySorted before l → k ≤ 256 →
  (∀ m, m ∈ l → m_type m < QPCTL → p (m_band m) = true ↔ k ≤ m_band m) →
  (∀ m, m ∈ l → m_band m ≤ 255) →
  m ∈ l → prio m < k → pass_bands p l = Ok (above k l, below k l).
Proof.
  intros Hs Hk Hp Hb Hm Hlt. unfold pass_bands.
  assert (∀ x, x ∈ l → (QPCTL <=? m_type x) = true ↔ 256 ≤ prio x) as H1.
  { intros x Hx. specialize (Hb x Hx). unfold prio. destruct (QPCTL <=? m_type x); split; try done; lia. }
  rewrite (pass_above _ 256 l m) by (done || lia). cbn [mbind res_bind].
  assert (∀ x, x ∈ below 256 l → x ∈ l ∧ m_type x < QPCTL ∧ prio x = m_band x) as H2.
  { intros x [Hx Hxl]%elem_below. split; [done|].
    destruct (QPCTL <=? m_type x) eqn:E; [apply (H1 x Hxl) in E; lia|].
    unfold prio. rewrite E. prop_bool. done. }
  rewrite (pass_above _ k (below 256 l) m).
  - cbn [mbind res_bind]. f_equal. f_equal.
    + assert (above k (above 256 l ++ below 256 l) = above k l) as <- by (by rewrite above_below).
      rewrite above_app. f_equal. symmetry. apply filter_all. intros x [Hx _]%elem_above. lia.
    + unfold below. apply list_filter_filter_l. intros x ?; lia.
  - by apply sorted_filter.
  - intros x Hx. destruct (H2 x Hx) as (Hxl & Ht & ->). by apply Hp.
  - apply elem_below. split; [lia|done].
  - done.
Qed.

(** ** Places *)

(** A message a queue with [n] bands may hold. *)
Record msg_ok (n : Z) (m : qmsg) : Prop := {
  mo_band : 0 ≤ m_band m ≤ n;
  mo_class : QPCTL ≤ m_type m → m_band m = 0;
  mo_sized : sized m
}.

Lemma msg_ok_mono n n' m : n ≤ n' → msg_ok n m → msg_ok n' m.
Proof. intros ? []. split; [lia|done|done]. Qed.

Lemma prio_band n m : msg_ok n m → m_band m ≠ 0 → prio m = m_band m ∧ m_type m < QPCTL.
Proof.
  intros [_ Hc _] Hb. unfold prio. destruct (QPCTL <=? m_type m) eqn:E; prop_bool; [|done].
  by rewrite Hc in Hb.
Qed.

Lemma prio_of n m : n ≤ 255 → msg_ok n m → 0 ≤ prio m ≤ 256.
Proof. intros ? []. by eapply prio_range. Qed.

Lemma queclass_prio n m m' : n ≤ 255 → msg_ok n m → msg_ok n m' →
  m_band m = 0 → (queclass m ≤ queclass m' ↔ prio m ≤ prio m').
Proof.
  intros Hn Hm [Hb Hc _] H0. unfold queclass, prio. rewrite H0.
  unfold QPCTL, QNORM. repeat case_if; lia.
Qed.

Lemma put_last_split m l : StronglySorted before l →
  ∃ a b, l = a ++ b ∧ put_last m l = a ++ m :: b.
Proof. intros Hs. exists (above (prio m) l), (below (prio m) l). by rewrite above_below. Qed.

Lemma put_first_split m l : StronglySorted before l →
  ∃ a b, l = a ++ b ∧ put_first m l = a ++ m :: b.
Proof. intros Hs. exists (above (prio m + 1) l), (below (prio m + 1) l). by rewrite above_below. Qed.

Lemma sorted_insert k m l : StronglySorted before l → prio m ≤ k → k ≤ prio m + 1 →
  StronglySorted before (above k l ++ m :: below k l).
Proof.
  intros Hs H1 H2. apply StronglySorted_app. split.
  - intros x y [Hx _]%elem_above Hy. unfold before.
    apply elem_of_cons in Hy as [->|[Hy _]%elem_below]; lia.
  - split; [by apply sorted_filter|]. constructor; [by apply sorted_filter|].
    apply list.Forall_forall. intros x [Hx _]%elem_below. unfold before. lia.
Qed.

Lemma put_last_sorted m l : StronglySorted before l → StronglySorted before (put_last m l).
Proof. intros. apply sorted_insert; [done|lia|lia]. Qed.

Lemma put_first_sorted m l : StronglySorted before l → StronglySorted before (put_first m l).
Proof. intros. apply sorted_insert; [done|lia|lia]. Qed.

Lemma in_band_cons i m l : in_band i (m :: l) = if decide (m_band m = i) then m :: in_band i l else in_band i l.
Proof. unfold in_band. by rewrite filter_cons. Qed.

Lemma elem_in_band i m l : m ∈ in_band i l ↔ m_band m = i ∧ m ∈ l.
Proof. unfold in_band. by rewrite list_elem_of_filter. Qed.

(** The messages of a band and the rank of the band. *)
Lemma in_band_below n i k l : Forall (msg_ok n) l → 0 < i → k ≤ i → in_band i (below k l) = [].
Proof.
  intros Hl Hi Hk. apply filter_none. intros x [Hx Hxl]%elem_below Hb.
  rewrite list.Forall_forall in Hl. destruct (prio_band n x) as [E _]; [by apply Hl|lia|lia].
Qed.

Lemma in_band_above n i k l : Forall (msg_ok n) l → 0 < i → i < k → in_band i (above k l) = [].
Proof.
  intros Hl Hi Hk. apply filter_none. intros x [Hx Hxl]%elem_above Hb.
  rewrite list.Forall_forall in Hl. destruct (prio_band n x) as [E _]; [by apply Hl|lia|lia].
Qed.

Lemma in_band_put_last n i m l : StronglySorted before l → Forall (msg_ok n) l → msg_ok n m → 0 < i →
  in_band i (put_last m l) = in_band i l ++ (if decide (m_band m = i) then [m] else []).
Proof.
  intros Hs Hl Hm Hi. rewrite <- (above_below (prio m) l) at 2 by done. unfold put_last.
  rewrite !in_band_app, in_band_cons. case_decide as Hb; [|by rewrite app_nil_r].
  destruct (prio_band n m) as [E _]; [done|lia|].
  rewrite (in_band_below n) by (done || lia). by rewrite app_nil_r.
Qed.

Lemma in_band_put_first n i m l : StronglySorted before l → Forall (msg_ok n) l → msg_ok n m → 0 < i →
  in_band i (put_first m l) = (if decide (m_band m = i) then [m] else []) ++ in_band i l.
Proof.
  intros Hs Hl Hm Hi. rewrite <- (above_below (prio m + 1) l) at 2 by done. unfold put_first.
  rewrite !in_band_app, in_band_cons. case_decide as Hb; [|done].
  destruct (prio_band n m) as [E _]; [done|lia|].
  rewrite (in_band_above n i) by (done || lia). done.
Qed.

(** ** Pointers of the bands *)

Definition ptr_ok (l : list qmsg) (i : Z) (b : qband) : Prop :=
  qb_first b = m_id <$> head (in_band i l) ∧ qb_last b = m_id <$> list.last (in_band i l).

Definition set_ptrs (l : list qmsg) (i : Z) (b : qband) : qband :=
  set_qb_last (m_id <$> list.last (in_band i l)) (set_qb_first (m_id <$> head (in_band i l)) b).

Lemma set_ptrs_ok l i b : ptr_ok l i (set_ptrs l i b).
Proof. done. Qed.

Lemma find_msg_ok a m r : NoDup (m_id <$> a ++ m :: r) → find_msg (m_id m) (a ++ m :: r) = Ok (a, m, r).
Proof.
  induction a as [|x a IH]; simpl; intros Hn.
  - by rewrite Z.eqb_refl.
  - apply list.NoDup_cons in Hn as [Hx Hn]. destruct (Z.eqb_spec (m_id x) (m_id m)) as [E|_].
    + destruct Hx. rewrite E, fmap_app. simpl. set_solver.
    + by rewrite IH.
Qed.

(** A sorted queue around the messages of a band. *)
Lemma band_split n i l : StronglySorted before l → Forall (msg_ok n) l → 0 < i ≤ 255 →
  l = above (i + 1) l ++ in_band i l ++ below i l.
Proof.
  intros Hs Hl Hi. rewrite <- (above_below (i + 1) l) at 1 by done. f_equal.
  rewrite <- (above_below i (below (i + 1) l)) by (by apply sorted_filter). f_equal.
  - unfold above, below, in_band. rewrite list_filter_filter. apply filter_ext_in.
    rewrite list.Forall_forall in *. intros x Hx. specialize (Hl x Hx). split.
    + intros [H1 H2]. assert (prio x = i) as H by lia. unfold prio in H. case_if_in H; lia.
    + intros Hb. destruct (prio_band n x) as [E _]; [done|lia|lia].
  - unfold below. apply list_filter_filter_l. intros; lia.
Qed.

Lemma in_band_last l i m : list.last (in_band i l) = Some m → ∃ B, in_band i l = B ++ [m].
Proof. intros H. by apply last_Some in H. Qed.

Lemma last_in_band l i m : list.last (in_band i l) = Some m → m_band m = i ∧ m ∈ l.
Proof.
  intros [B E]%in_band_last. apply elem_in_band. rewrite E. apply elem_of_app. right. by left.
Qed.

Lemma last_elem (l : list qmsg) m : list.last l = Some m → m ∈ l.
Proof. intros [l' ->]%last_Some. apply elem_of_app. right. by left. Qed.

Lemma sorted_last l m x : StronglySorted before l → list.last l = Some m → x ∈ l → prio m ≤ prio x.
Proof.
  intros Hs [l' ->]%last_Some Hx. apply elem_of_app in Hx as [Hx|Hx].
  - apply StronglySorted_app in Hs as [Hs _]. apply (Hs x m Hx). by left.
  - apply list_elem_of_singleton in Hx as ->. lia.
Qed.

Lemma above_all k l : (∀ x, x ∈ l → k ≤ prio x) → above k l = l ∧ below k l = [].
Proof.
  intros H. split; [by apply filter_all|]. apply filter_none. intros x Hx. apply H in Hx. lia.
Qed.

Lemma match_nonempty {A B} (l : list A) (x y : B) : l ≠ [] → match l with [] => x | _ :: _ => y end = y.
Proof. by destruct l. Qed.

Section places.
Context (q : queue) (bp : qmsg) (n : Z).
Hypothesis Hn : n ≤ 255.
Hypothesis Hs : StronglySorted before (q_msgs q).
Hypothesis Hl : Forall (msg_ok n) (q_msgs q).
Hypothesis Hd : NoDup (m_id <$> q_msgs q).
Hypothesis Hbp : msg_ok n bp.

#[local] Abbreviation l := (q_msgs q).

Lemma msgs_ok x : x ∈ l → msg_ok n x.
Proof. by apply list.Forall_forall. Qed.

Lemma list_last_ex : l ≠ [] → ∃ m, list.last l = Some m.
Proof. intros H. destruct (list.last l) eqn:E; [eauto|]. by apply last_None in E. Qed.

(** Appending is putting after or before the rank when no message is below. *)
Lemma append_rank k tmp : list.last l = Some tmp → k ≤ prio tmp → above k l = l ∧ below k l = [].
Proof.
  intros Ht Hk. apply above_all. intros x Hx. pose proof (sorted_last l tmp x Hs Ht Hx). lia.
Qed.

(** The two loops, for a band. *)
Lemma pass_rank (p : Z → bool) k tmp :
  list.last l = Some tmp → k ≤ 256 → prio tmp < k → (∀ z, p z = true ↔ k ≤ z) →
  pass_bands p l = Ok (above k l, below k l).
Proof.
  intros Ht Hk Hlt Hp. pose proof (last_elem l tmp Ht).
  apply (pass_bands_above p k l tmp); try done.
  intros m Hm. pose proof (msgs_ok m Hm) as []. lia.
Qed.

Lemma putq_place_0 : m_band bp = 0 → putq_place q bp None = Ok (put_last bp l, None).
Proof.
  intros Hb. unfold putq_place, put_last, last_msg. destruct (decide (l = [])) as [E|E]; [by rewrite E|].
  rewrite match_nonempty by done. destruct (list_last_ex E) as [tmp Ht]. rewrite Ht. cbn [deref mbind res_bind].
  pose proof (last_elem l tmp Ht) as Htl. pose proof (msgs_ok tmp Htl) as Htm.
  pose proof (queclass_prio n bp tmp Hn Hbp Htm Hb) as Hq.
  destruct (queclass bp <=? queclass tmp) eqn:Ec; prop_bool.
  - apply Hq in Ec. by destruct (append_rank (prio bp) tmp Ht Ec) as [-> ->].
  - rewrite (pass_above _ (prio bp) l tmp); [done|done| |done|].
    + intros m Hm. rewrite Z.leb_le. by apply (queclass_prio n); [| |apply msgs_ok|].
    + apply Z.nle_gt. intros ?%Hq. lia.
Qed.

(** A band keeps its pointers to its first and last messages. *)
Section band.
Context (b : qband).
Hypothesis Hb : 0 < m_band bp.
Hypothesis Hpb : ptr_ok l (m_band bp) b.

Lemma bp_prio : prio bp = m_band bp ∧ m_type bp < QPCTL ∧ queclass bp = QNORM.
Proof.
  destruct (prio_band n bp) as [E Ht]; [done|lia|]. split; [done|]. split; [done|].
  unfold queclass. by rewrite (proj2 (Z.leb_gt _ _)).
Qed.

Lemma set_ptrs_new : in_band (m_band bp) l = [] →
  ∀ put, in_band (m_band bp) (put bp l) = [bp] →
  set_qb_last (Some (m_id bp)) (set_qb_first (Some (m_id bp)) b) = set_ptrs (put bp l) (m_band bp) b.
Proof. intros _ put E. unfold set_ptrs. by rewrite E. Qed.

(** The rank of the last message decides as the code's tests do. *)
Lemma last_test tmp : list.last l = Some tmp →
  ((queclass bp <? queclass tmp) || (m_band bp <=? m_band tmp) = true → m_band bp ≤ prio tmp) ∧
  ((queclass bp <? queclass tmp) || (m_band bp <=? m_band tmp) = false → prio tmp < m_band bp) ∧
  ((queclass bp <? queclass tmp) || (m_band bp <? m_band tmp) = true → m_band bp + 1 ≤ prio tmp) ∧
  ((queclass bp <? queclass tmp) || (m_band bp <? m_band tmp) = false → prio tmp < m_band bp + 1).
Proof.
  intros Ht. pose proof (msgs_ok tmp (last_elem l tmp Ht)) as [Htb Htc _].
  destruct Hbp as [Hbb _ _]. destruct bp_prio as (_ & _ & ->). unfold queclass, prio, QPCTL, QNORM in *.
  destruct (128 <=? m_type tmp) eqn:E; simpl; prop_bool;
    (split; [|split; [|split]]); intros; prop_bool; try lia; done.
Qed.

Lemma putq_place_band :
  putq_place q bp (Some b) = Ok (put_last bp l, Some (set_ptrs (put_last bp l) (m_band bp) b)).
Proof.
  destruct bp_prio as (Hp & Ht & Hc). destruct Hpb as [Hf Hl'].
  pose proof (in_band_put_last n (m_band bp) bp l Hs Hl Hbp Hb) as Hin. rewrite decide_True in Hin by done.
  unfold putq_place, last_msg. destruct (decide (l = [])) as [E|E].
  { rewrite E in *. simpl. unfold set_ptrs. rewrite Hin. done. }
  rewrite match_nonempty by done. rewrite Hf.
  destruct (head (in_band (m_band bp) l)) as [x|] eqn:Eh; simpl.
  - destruct (list.last (in_band (m_band bp) l)) as [y|] eqn:Ey.
    2:{ apply last_None in Ey. by rewrite Ey in Eh. }
    rewrite Hl'. simpl. destruct (in_band_last _ _ _ Ey) as [B EB].
    pose proof (band_split n (m_band bp) l Hs Hl) as Hsp. rewrite EB in Hsp.
    replace (above (m_band bp + 1) l ++ (B ++ [y]) ++ below (m_band bp) l)
      with ((above (m_band bp + 1) l ++ B) ++ y :: below (m_band bp) l) in Hsp by (by rewrite <- !app_assoc).
    assert (Hsp' : l = (above (m_band bp + 1) l ++ B) ++ y :: below (m_band bp) l)
      by (apply Hsp; destruct Hbp; lia).
    rewrite Hsp' at 1. rewrite find_msg_ok by (by rewrite <- Hsp'). cbn [mbind res_bind].
    f_equal. f_equal.
    + unfold put_last. rewrite Hp.
      assert (above (m_band bp) l = (above (m_band bp + 1) l ++ B) ++ [y]) as ->; [|by rewrite <- !app_assoc].
      apply (app_inv_tail (below (m_band bp) l)). rewrite above_below by done.
      rewrite Hsp' at 1. by rewrite <- !app_assoc.
    + f_equal. unfold set_ptrs. rewrite Hin. rewrite last_snoc, EB.
      rewrite EB in Eh. rewrite <- app_assoc, head_app in *. destruct b; unfold set_qb_last, set_qb_first; simpl in *.
      rewrite Hf. f_equal. destruct B; simpl in *; congruence.
  - apply head_None in Eh. rewrite Eh in Hin. simpl in Hin.
    destruct (list_last_ex E) as [tmp Htmp]. rewrite Htmp. cbn [deref mbind res_bind].
    destruct (last_test tmp Htmp) as (Ht1 & Ht2 & _). rewrite (set_ptrs_new Eh put_last Hin).
    unfold put_last. rewrite Hp. case_if.
    + by destruct (append_rank (m_band bp) tmp Htmp (Ht1 eq_refl)) as [-> ->].
    + rewrite (pass_rank _ (m_band bp) tmp); [done|done|destruct Hbp; lia|by apply Ht2|].
      intros z. by rewrite Z.leb_le.
Qed.

Lemma putbq_place_band :
  putbq_place q bp (Some b) = Ok (put_first bp l, Some (set_ptrs (put_first bp l) (m_band bp) b)).
Proof.
  destruct bp_prio as (Hp & Ht & Hc). destruct Hpb as [Hf Hl'].
  pose proof (in_band_put_first n (m_band bp) bp l Hs Hl Hbp Hb) as Hin. rewrite decide_True in Hin by done.
  unfold putbq_place, last_msg. rewrite Hc. change (QNORM =? QPCTL) with false. rewrite orb_false_r.
  destruct (decide (l = [])) as [E|E].
  { rewrite bool_decide_true by done. rewrite E in *. simpl. unfold set_ptrs. rewrite Hin. done. }
  rewrite bool_decide_false by done. rewrite Hf.
  destruct (head (in_band (m_band bp) l)) as [x|] eqn:Eh; simpl.
  - destruct (head_Some_cons _ _ Eh) as [B EB].
    pose proof (band_split n (m_band bp) l Hs Hl) as Hsp. rewrite EB in Hsp. simpl in Hsp.
    assert (Hsp' : l = above (m_band bp + 1) l ++ x :: B ++ below (m_band bp) l)
      by (apply Hsp; destruct Hbp; lia).
    rewrite Hsp' at 1. rewrite find_msg_ok by (by rewrite <- Hsp'). cbn [mbind res_bind].
    f_equal. f_equal.
    + unfold put_first. rewrite Hp. f_equal. f_equal.
      apply (app_inv_head (above (m_band bp + 1) l)). by rewrite above_below.
    + f_equal. unfold set_ptrs. rewrite Hin, EB. rewrite EB in Hl'.
      destruct b; unfold set_qb_last, set_qb_first; simpl in *. by rewrite Hl'.
  - apply head_None in Eh. rewrite Eh in Hin. simpl in Hin.
    destruct (list_last_ex E) as [tmp Htmp]. rewrite Htmp. cbn [deref mbind res_bind].
    destruct (last_test tmp Htmp) as (_ & _ & Ht1 & Ht2). rewrite Hc in Ht1, Ht2.
    change (set_qb_first (Some (m_id bp)) (set_qb_last (Some (m_id bp)) b))
      with (set_qb_last (Some (m_id bp)) (set_qb_first (Some (m_id bp)) b)).
    rewrite (set_ptrs_new Eh put_first Hin). unfold put_first. rewrite Hp. case_if.
    + by destruct (append_rank (m_band bp + 1) tmp Htmp (Ht1 eq_refl)) as [-> ->].
    + rewrite (pass_rank _ (m_band bp + 1) tmp); [done|done|destruct Hbp; lia|by apply Ht2|].
      intros z. rewrite Z.ltb_lt. lia.
Qed.
End band.

Lemma putbq_place_0 : m_band bp = 0 → putbq_place q bp None = Ok (put_first bp l, None).
Proof.
  intros Hb. unfold putbq_place, put_first, last_msg.
  destruct (decide (l = [])) as [E|E]; [by rewrite bool_decide_true, E by done|].
  rewrite bool_decide_false by done. simpl. unfold queclass at 1.
  destruct (QPCTL <=? m_type bp) eqn:Et; simpl.
  - assert (prio bp = 256) as -> by (unfold prio; by rewrite Et).
    assert (∀ x, x ∈ l → prio x < 257) as H256 by (intros x Hx; pose proof (prio_of n x Hn (msgs_ok x Hx)); lia).
    unfold above, below. rewrite filter_none, filter_all; [done| |]; intros x Hx; apply H256 in Hx; lia.
  - assert (prio bp = 0) as -> by (unfold prio; by rewrite Et, Hb). change (0 + 1) with 1.
    destruct (list_last_ex E) as [tmp Htmp]. rewrite Htmp. cbn [deref mbind res_bind].
    pose proof (msgs_ok tmp (last_elem l tmp Htmp)) as [Htb Htc _].
    unfold queclass. rewrite Et, Hb. unfold QPCTL, QNORM in *.
    pose proof (append_rank 1 tmp Htmp) as Ha. pose proof (pass_rank (λ band, 0 <? band) 1 tmp Htmp) as Hps.
    unfold prio, QPCTL in Ha, Hps. case_if.
    + destruct Ha as [-> ->]; [|done]. destruct (128 <=? m_type tmp); simpl in *; prop_bool; lia.
    + rewrite Hps; [done|lia| |].
      * destruct (128 <=? m_type tmp); simpl in *; prop_bool; [done|lia].
      * intros z. rewrite Z.ltb_lt. lia.
Qed.
End places.

(** ** The invariant *)

(** A flow control record that counts [n] bytes.  A waiting writer means that the
    band is not empty, but in the band [getq] has just taken a message from. *)
Definition cnt_ok (c h lo : Z) (full want : bool) (ex : Prop) (n : Z) : Prop :=
  c = n ∧ 0 ≤ lo ∧ (0 < h → full = (h <=? c) ∧ (want = true → ex ∨ 0 < c)).

Definition band_cnt_ok (ex : Prop) (n : Z) (b : qband) : Prop :=
  cnt_ok (qb_count b) (qb_hiwat b) (qb_lowat b) (has_bit (qb_flag b) QB_FULL) (has_bit (qb_flag b) QB_WANTW) ex n.

Record counts (ex : Z → Prop) (q : queue) (l : list qmsg) : Prop := {
  c_queue : cnt_ok (q_count q) (q_hiwat q) (q_lowat q) (has_bit (q_flag q) QFULL) (has_bit (q_flag q) QWANTW)
              (ex 0) (total (in_band 0 l));
  c_bands : ∀ i b, q_bandp q !! i = Some b →
              band_cnt_ok (ex (Z.of_nat i + 1)) (total (in_band (Z.of_nat i + 1) l)) b
}.

Definition ptrs (q : queue) (l : list qmsg) : Prop :=
  ∀ i b, q_bandp q !! i = Some b → ptr_ok l (Z.of_nat i + 1) b.

Record msgs_inv (n : Z) (l : list qmsg) : Prop := {
  mi_ids : NoDup (m_id <$> l);
  mi_msgs : Forall (msg_ok n) l;
  mi_sorted : StronglySorted before l;
  mi_total : total l < W32
}.

Definition bands_ok (q : queue) : Prop := q_nband q = Z.of_nat (length (q_bandp q)) ∧ q_nband q ≤ 255.

Record q_inv (ex : Z → Prop) (q : queue) : Prop := {
  qi_bands : bands_ok q;
  qi_msgs : msgs_inv (q_nband q) (q_msgs q);
  qi_ptrs : ptrs q (q_msgs q);
  qi_counts : counts ex q (q_msgs q)
}.

(** No band is exempt. *)
Definition none : Z → Prop := λ _, False.

Definition q_ok : queue → Prop := q_inv none.

(** What the routines leave alone: the water marks and all flags but those of the
    flow control. *)
Record keeps (q q' : queue) : Prop := {
  kp_hiwat : q_hiwat q' = q_hiwat q;
  kp_lowat : q_lowat q' = q_lowat q;
  kp_flag c : Z.land (Z.lor QFULL (Z.lor QWANTW QWANTWSYNC)) c = 0 → has_bit (q_flag q') c = has_bit (q_flag q) c
}.

(** The same, and no band is added or has its water marks changed. *)
Record frame (q q' : queue) : Prop := {
  fr_keeps : keeps q q';
  fr_nband : q_nband q' = q_nband q;
  fr_marks : (λ b, (qb_hiwat b, qb_lowat b)) <$> q_bandp q' = (λ b, (qb_hiwat b, qb_lowat b)) <$> q_bandp q
}.

#[global] Instance keeps_preorder : PreOrder keeps.
Proof.
  split; [by split|]. intros q1 q2 q3 [H1 L1 F1] [H2 L2 F2]. split; try congruence.
  intros c Hc. rewrite <- F1 by done. by apply F2.
Qed.

#[global] Instance frame_preorder : PreOrder frame.
Proof.
  split; [by split|]. intros q1 q2 q3 [H1 L1 F1] [H2 L2 F2].
  split; [by trans q2|by rewrite L2|by rewrite F2].
Qed.

Lemma frame_bands q q' : frame q q' → bands_ok q → bands_ok q'.
Proof.
  intros [_ En El] [Hn Hm]. apply (f_equal length) in El. rewrite !length_fmap in El. split; congruence.
Qed.

Lemma band_index i k : 0 < i → Z.to_nat (i - 1) = k ↔ i = Z.of_nat k + 1.
Proof. lia. Qed.

Lemma get_band_ok q i : bands_ok q → 0 < i ≤ q_nband q → ∃ b, get_band q i = Ok b ∧ q_bandp q !! Z.to_nat (i - 1) = Some b.
Proof.
  intros [Hn _] Hi. destruct (lookup_lt_is_Some_2 (q_bandp q) (Z.to_nat (i - 1))) as [b Hb]; [lia|].
  exists b. unfold get_band. by rewrite Hb.
Qed.

Lemma put_band_frame q i b b' : q_bandp q !! Z.to_nat (i - 1) = Some b →
  qb_hiwat b' = qb_hiwat b → qb_lowat b' = qb_lowat b → frame q (put_band q i b').
Proof.
  intros Hb E1 E2. split; simpl; [by split|done|]. rewrite list_fmap_insert. rewrite E1, E2.
  apply list_insert_id. by rewrite list_lookup_fmap, Hb.
Qed.

Lemma set_msgs_frame q x : frame q (set_q_msgs x q).
Proof. split; [by split|done|done]. Qed.

(** A property of each band, after an update of one. *)
Lemma put_band_forall (P : Z → qband → Prop) q i b b0 :
  q_bandp q !! Z.to_nat (i - 1) = Some b0 → 0 < i →
  (∀ k b, q_bandp q !! k = Some b → Z.of_nat k + 1 ≠ i → P (Z.of_nat k + 1) b) → P i b →
  ∀ k b', q_bandp (put_band q i b) !! k = Some b' → P (Z.of_nat k + 1) b'.
Proof.
  intros Hb0 Hi Hold Hnew k b' Hk. simpl in Hk. apply list_lookup_insert_Some in Hk as [(<- & <- & _)|[Hne Hk]].
  - by rewrite Z2Nat.id, Z.sub_add by lia.
  - apply Hold; [done|]. lia.
Qed.

Lemma total_in_band_perm i l l' : l ≡ₚ l' → total (in_band i l) = total (in_band i l').
Proof. intros H. unfold in_band. by rewrite H. Qed.

Lemma total_in_band_le i l : Forall sized l → total (in_band i l) ≤ total l.
Proof. apply total_filter. Qed.

Lemma in_band_sized i l : Forall sized l → Forall sized (in_band i l).
Proof. rewrite !list.Forall_forall. intros H x [_ Hx]%elem_in_band. by apply H. Qed.

(** ** Counting *)

Lemma cnt_in c h lo full want ex n s :
  cnt_ok c h lo full want ex n → 0 ≤ s → cnt_ok (c + s) h lo (if h <=? c + s then true else full) want ex (n + s).
Proof.
  intros (-> & Hlo & Hf) Hs. split; [done|]. split; [done|]. intros Hh. destruct (Hf Hh) as [-> Hw]. split.
  - destruct (h <=? n + s) eqn:E; [done|]. prop_bool. apply Z.leb_gt. lia.
  - intros ?. destruct Hw as [?|?]; [done|by left|right; lia].
Qed.

Lemma cnt_out c h lo full want ex n s :
  cnt_ok c h lo full want ex n → 0 ≤ s → cnt_ok (c - s) h lo (if c - s <? h then false else full) want True (n - s).
Proof.
  intros (-> & Hlo & Hf) Hs. split; [done|]. split; [done|]. intros Hh. destruct (Hf Hh) as [-> Hw]. split; [|by left].
  destruct (n - s <? h) eqn:E; prop_bool; [symmetry; apply Z.leb_gt; lia|].
  rewrite !(proj2 (Z.leb_le _ _)) by lia. done.
Qed.

Lemma cnt_weaken c h lo full want (ex ex' : Prop) n :
  (ex → ex') → cnt_ok c h lo full want ex n → cnt_ok c h lo full want ex' n.
Proof. intros He (-> & Hlo & Hf). split; [done|]. split; [done|]. intros Hh. destruct (Hf Hh) as [-> Hw]. split; [done|]. tauto. Qed.

Lemma counts_weaken (ex ex' : Z → Prop) q l : (∀ i, ex i → ex' i) → counts ex q l → counts ex' q l.
Proof.
  intros He [Hq Hb]. split.
  - eapply cnt_weaken; [|exact Hq]. apply He.
  - intros i b Hi. eapply cnt_weaken; [|exact (Hb i b Hi)]. apply He.
Qed.

Lemma counts_msgs ex q l x : counts ex q l → counts ex (set_q_msgs x q) l.
Proof. intros []. by split. Qed.

Lemma counts_perm ex q l l' : l ≡ₚ l' → counts ex q l → counts ex q l'.
Proof.
  intros Hp [Hq Hb]. split.
  - by rewrite <- (total_in_band_perm 0 l l').
  - intros i b Hi. rewrite <- (total_in_band_perm _ l l') by done. by apply Hb.
Qed.

(** The flag of a full queue and that of a full band. *)
Lemma full_set f (b : bool) bit c : bit ≠ 0 → Z.land bit c = 0 →
  has_bit (if b then set_bit f bit else f) bit = (if b then true else has_bit f bit) ∧
  has_bit (if b then set_bit f bit else f) c = has_bit f c.
Proof. intros. destruct b; [|done]. by rewrite has_set_same, has_set_other. Qed.

Lemma full_clr f (b : bool) bit c : Z.land bit c = 0 →
  has_bit (if b then clr_bit f bit else f) bit = (if b then false else has_bit f bit) ∧
  has_bit (if b then clr_bit f bit else f) c = has_bit f c.
Proof. intros. destruct b; [|done]. by rewrite has_clr_same, has_clr_other. Qed.

Lemma qfull_other c : Z.land (Z.lor QFULL (Z.lor QWANTW QWANTWSYNC)) c = 0 →
  Z.land QFULL c = 0 ∧ Z.land QWANTW c = 0 ∧ Z.land QWANTWSYNC c = 0.
Proof. rewrite !Z.land_lor_distr_l. rewrite !Z.lor_eq_0_iff. tauto. Qed.

(** The totals of the bands when a message is added. *)
Lemma total_in_band_cons i m l :
  total (in_band i (m :: l)) = (if decide (m_band m = i) then msize m else 0) + total (in_band i l).
Proof. rewrite in_band_cons. by case_decide. Qed.

Lemma msgs_sized n l : Forall (msg_ok n) l → Forall sized l.
Proof. rewrite !list.Forall_forall. intros H x Hx. by destruct (H x Hx). Qed.

(** What a band counts lies between nothing and everything. *)
Lemma total_in_band_range n i l : Forall (msg_ok n) l → 0 ≤ total (in_band i l) ≤ total l.
Proof.
  intros Hl%msgs_sized. split; [by apply band_total_nonneg, in_band_sized|by apply total_in_band_le].
Qed.

(** A flow control record with its flag word, when a message is counted in or out. *)
Lemma flow_in f FULL WANT c h lo ex n bp :
  FULL ≠ 0 → Z.land FULL WANT = 0 → cnt_ok c h lo (has_bit f FULL) (has_bit f WANT) ex n →
  sized bp → 0 ≤ n → n + msize bp < W32 →
  let c' := add_sizes c (m_sizes bp) in
  let f' := if h <=? c' then set_bit f FULL else f in
  cnt_ok c' h lo (has_bit f' FULL) (has_bit f' WANT) ex (n + msize bp).
Proof.
  intros HF HW Hc Hs Hn Ht c' f'. assert (c' = c + msize bp) as E.
  { destruct Hc as [-> _]. unfold c'. by rewrite add_sizes_sum. }
  pose proof (full_set f (h <=? c') FULL WANT HF HW) as [E1 E2]. unfold f'. rewrite E1, E2, E.
  apply cnt_in; [done|by apply msize_nonneg].
Qed.

Lemma flow_out f FULL WANT c h lo ex n bp :
  Z.land FULL WANT = 0 → cnt_ok c h lo (has_bit f FULL) (has_bit f WANT) ex n →
  sized bp → msize bp ≤ n → n < W32 →
  let c' := sub_sizes c (m_sizes bp) in
  let f' := if c' <? h then clr_bit f FULL else f in
  cnt_ok c' h lo (has_bit f' FULL) (has_bit f' WANT) True (n - msize bp).
Proof.
  intros HW Hc Hs Hn Ht c' f'. assert (c' = c - msize bp) as E.
  { destruct Hc as [-> _]. unfold c'. by rewrite sub_sizes_sum. }
  pose proof (full_clr f (c' <? h) FULL WANT HW) as [E1 E2]. unfold f'. rewrite E1, E2, E.
  eapply cnt_out; [done|by apply msize_nonneg].
Qed.

(** An update of one band's counters and flags. *)
Lemma put_band_counts ex q l l' i b b' :
  counts ex q l → 0 < i → q_bandp q !! Z.to_nat (i - 1) = Some b →
  band_cnt_ok (ex i) (total (in_band i l')) b' →
  (∀ k, k ≠ i → total (in_band k l') = total (in_band k l)) →
  counts ex (put_band q i b') l'.
Proof.
  intros [Hq Hbs] Hi Hb Hb' Hk. split.
  - rewrite Hk by lia. exact Hq.
  - apply (put_band_forall (λ i b, band_cnt_ok (ex i) (total (in_band i l')) b) q i b' b); try done.
    intros k b0 Hk0 Hne. rewrite Hk by done. by apply Hbs.
Qed.

Lemma put_band_ptrs q l i b b' :
  ptrs q l → 0 < i → q_bandp q !! Z.to_nat (i - 1) = Some b →
  qb_first b' = qb_first b → qb_last b' = qb_last b → ptrs (put_band q i b') l.
Proof.
  intros Hp Hi Hb E1 E2. refine (put_band_forall (ptr_ok l) q i b' b Hb Hi _ _); [by intros; apply Hp|].
  specialize (Hp _ _ Hb). rewrite Z2Nat.id, Z.sub_add in Hp by lia. unfold ptr_ok. by rewrite E1, E2.
Qed.

(** What a change of the count and of the flag [QFULL] keeps. *)
Lemma set_count_frame q c (b : bool) (upd : Z → Z → Z) :
  (∀ f k, Z.land QFULL k = 0 → has_bit (upd f QFULL) k = has_bit f k) →
  let q' := set_q_count c q in
  let q'' := if b then set_q_flag (upd (q_flag q') QFULL) q' else q' in
  q_msgs q'' = q_msgs q ∧ frame q q'' ∧ ∀ l, ptrs q l → ptrs q'' l.
Proof.
  intros Hu q' q''. unfold q'', q'. destruct b; (split; [done|split; [|by intros l Hp]]); (split; [split|done|done]); try done; simpl.
  intros k Hk%qfull_other. apply Hu. tauto.
Qed.

(** The goal and [H] make the same test. *)
Ltac same_if H := revert H; cbv zeta; simpl; case_if; intros H; exact H.

Section counting.
Context (q : queue) (l : list qmsg) (bp : qmsg).
Hypothesis Hbo : bands_ok q.
Hypothesis Hl : Forall (msg_ok (q_nband q)) (bp :: l).
Hypothesis Ht : total (bp :: l) < W32.

Lemma bp_ok : msg_ok (q_nband q) bp.
Proof. by apply Forall_cons_iff in Hl as [? _]. Qed.

Lemma bp_room i : 0 ≤ total (in_band i l) ∧ total (in_band i l) + msize bp < W32 ∧ 0 ≤ msize bp.
Proof.
  pose proof (proj2 (Forall_cons_1 _ _ _ Hl)) as Hl'. rewrite band_total_cons in Ht.
  pose proof (total_in_band_range _ i l Hl'). pose proof (msize_nonneg bp (mo_sized _ _ bp_ok)). lia.
Qed.

Lemma count_in_ok ex : counts ex q l →
  ∃ q', count_in q bp (negb (m_band bp =? 0)) = Ok q' ∧ counts ex q' (bp :: l) ∧
        q_msgs q' = q_msgs q ∧ frame q q' ∧ ∀ l0, ptrs q l0 → ptrs q' l0.
Proof.
  intros Hcs. pose proof Hcs as [Hq Hbs]. pose proof bp_ok as [Hbb _ Hsz].
  unfold count_in. destruct (Z.eqb_spec (m_band bp) 0) as [E0|E0]; simpl.
  - eexists. split; [done|]. split; [|apply (set_count_frame q _ _ set_bit); intros; by apply has_set_other].
    pose proof (flow_in (q_flag q) QFULL QWANTW _ _ _ _ _ bp ltac:(done) ltac:(done) Hq Hsz (proj1 (bp_room 0)) (proj1 (proj2 (bp_room 0)))) as H.
    split.
    + rewrite total_in_band_cons, decide_True, Z.add_comm by done. same_if H.
    + intros i b Hi. rewrite total_in_band_cons, decide_False by lia. apply Hbs. by case_if_in Hi.
  - destruct (get_band_ok q (m_band bp)) as (b & -> & Hbk); [done|lia|]. cbn [mbind res_bind].
    pose proof (Hbs _ _ Hbk) as Hb'. rewrite Z2Nat.id, Z.sub_add in Hb' by lia.
    pose proof (flow_in (qb_flag b) QB_FULL QB_WANTW _ _ _ _ _ bp ltac:(done) ltac:(done) Hb' Hsz (proj1 (bp_room _)) (proj1 (proj2 (bp_room _)))) as H.
    eexists. split; [done|]. split; [|split; [done|split; [apply (put_band_frame _ _ b); [done|by case_if..]|]]].
    + apply (put_band_counts _ _ l _ _ b); [done|lia|done| |].
      * rewrite total_in_band_cons, decide_True, Z.add_comm by done. same_if H.
      * intros k Hk. by rewrite total_in_band_cons, decide_False by done.
    + intros l0 Hp. apply (put_band_ptrs _ _ _ b); [done|lia|done|..]; simpl; by case_if.
Qed.

Lemma count_out_ok : counts none q (bp :: l) →
  ∃ q', count_out q bp = Ok q' ∧ counts (eq (m_band bp)) q' l ∧
        q_msgs q' = q_msgs q ∧ frame q q' ∧ ∀ l0, ptrs q l0 → ptrs q' l0.
Proof.
  intros Hcs. pose proof Hcs as [Hq Hbs]. pose proof bp_ok as [Hbb _ Hsz].
  assert (∀ i, m_band bp = i → total (in_band i (bp :: l)) = total (in_band i l) + msize bp) as Hi.
  { intros i <-. by rewrite total_in_band_cons, decide_True, Z.add_comm by done. }
  assert (∀ i, m_band bp ≠ i → total (in_band i (bp :: l)) = total (in_band i l)) as Hi'.
  { intros i Hne. by rewrite total_in_band_cons, decide_False by done. }
  unfold count_out. destruct (Z.eqb_spec (m_band bp) 0) as [E0|E0].
  - eexists. split; [done|]. split; [|apply (set_count_frame q _ _ clr_bit); intros; by apply has_clr_other].
    rewrite Hi in Hq by done. pose proof (bp_room 0).
    pose proof (flow_out (q_flag q) QFULL QWANTW _ _ _ _ _ bp ltac:(done) Hq Hsz ltac:(lia) ltac:(lia)) as Hf. rewrite Z.add_simpl_r in Hf.
    split.
    + rewrite E0. eapply cnt_weaken; [|same_if Hf]. done.
    + intros i b Hb. rewrite <- Hi' by lia. eapply cnt_weaken; [|apply Hbs; by case_if_in Hb]. done.
  - destruct (get_band_ok q (m_band bp)) as (b & -> & Hbk); [done|lia|]. cbn [mbind res_bind].
    pose proof (Hbs _ _ Hbk) as Hb'. rewrite Z2Nat.id, Z.sub_add, Hi in Hb' by (lia || done). pose proof (bp_room (m_band bp)).
    pose proof (flow_out (qb_flag b) QB_FULL QB_WANTW _ _ _ _ _ bp ltac:(done) Hb' Hsz ltac:(lia) ltac:(lia)) as Hf. rewrite Z.add_simpl_r in Hf.
    eexists. split; [done|]. split; [|split; [done|split; [apply (put_band_frame _ _ b); [done|by case_if..]|]]].
    + apply (put_band_counts _ _ (bp :: l) _ _ b); [by apply (counts_weaken none); [intros i []|]|lia|done| |].
      * eapply cnt_weaken; [|same_if Hf]. done.
      * intros k Hk. by rewrite Hi' by done.
    + intros l0 Hp. apply (put_band_ptrs _ _ _ b); [done|lia|done|..]; simpl; by case_if.
Qed.
End counting.

(** ** Waiting writers *)

(** A writer waits for the band. *)
Definition wants (q : queue) (band : Z) : bool :=
  if band =? 0 then has_bit (q_flag q) QWANTW
  else match q_bandp q !! Z.to_nat (band - 1) with
       | Some b => has_bit (qb_flag b) QB_WANTW
       | None => false
       end.

Lemma wants_put_band q i b b' k : 0 < i → 0 ≤ k → q_bandp q !! Z.to_nat (i - 1) = Some b →
  wants (put_band q i b') k = if decide (k = i) then has_bit (qb_flag b') QB_WANTW else wants q k.
Proof.
  intros Hi Hk Hb. unfold wants. simpl. destruct (Z.eqb_spec k 0) as [->|Hk0].
  - by rewrite decide_False by lia.
  - case_decide as E.
    + subst. by rewrite list_lookup_insert_eq by (by eapply lookup_lt_Some).
    + by rewrite list_lookup_insert_ne by lia.
Qed.

Lemma wants_same q i b b' k : 0 < i → 0 ≤ k → q_bandp q !! Z.to_nat (i - 1) = Some b →
  has_bit (qb_flag b') QB_WANTW = has_bit (qb_flag b) QB_WANTW → wants (put_band q i b') k = wants q k.
Proof.
  intros Hi Hk Hb E. rewrite (wants_put_band _ _ b) by done. case_decide as Ek; [|done].
  subst. unfold wants. rewrite (proj2 (Z.eqb_neq i 0)) by lia. by rewrite Hb.
Qed.

Lemma get_band_lookup q i b : get_band q i = Ok b → q_bandp q !! Z.to_nat (i - 1) = Some b.
Proof. apply deref_ok. Qed.

Lemma count_in_wants q m q' k : count_in q m (negb (m_band m =? 0)) = Ok q' → 0 ≤ m_band m → 0 ≤ k →
  wants q' k = wants q k.
Proof.
  unfold count_in. intros E Hm Hk. destruct (Z.eqb_spec (m_band m) 0) as [E0|E0]; simpl in E.
  - injection E as <-. case_if; [|done]. unfold wants. simpl. by rewrite has_set_other.
  - apply bind_ok in E as (b & Hb%get_band_lookup & [= <-]).
    apply (wants_same _ _ b); [lia|done|done|]. case_if; [|done]. simpl. by rewrite has_set_other.
Qed.

Definition hiwat_of (q : queue) (band : Z) : Z :=
  if band =? 0 then q_hiwat q
  else match q_bandp q !! Z.to_nat (band - 1) with Some b => qb_hiwat b | None => 0 end.

Lemma hiwat_frame q q' band : frame q q' → hiwat_of q' band = hiwat_of q band.
Proof.
  intros [Hk _ Hm]. unfold hiwat_of. destruct (band =? 0); [by apply Hk|].
  apply (f_equal (λ l, l !! Z.to_nat (band - 1))) in Hm. rewrite !list_lookup_fmap in Hm.
  destruct (q_bandp q !! _), (q_bandp q' !! _); simpl in Hm; simplify_eq; done.
Qed.

(** A waiting writer's band is not empty, when its high water mark is above 0. *)
Lemma waits_nonempty ex q band : q_inv ex q → 0 ≤ band → ¬ ex band → wants q band = true →
  0 < hiwat_of q band → 0 < total (in_band band (q_msgs q)).
Proof.
  intros [_ _ _ [(Ec & _ & Hf) Hcb]] Hb Hex Hw Hh. unfold wants, hiwat_of in *.
  destruct (Z.eqb_spec band 0) as [->|Hne].
  - destruct (Hf Hh) as [_ Hpos]. destruct (Hpos Hw); [done|lia].
  - destruct (q_bandp q !! Z.to_nat (band - 1)) as [b|] eqn:El; [|done].
    pose proof (Hcb _ _ El) as (Ecb & _ & Hfb). rewrite Z2Nat.id, Z.sub_add in * by lia.
    destruct (Hfb Hh) as [_ Hpos]. destruct (Hpos Hw); [done|lia].
Qed.

Lemma q_inv_waits ex q : q_inv ex q →
  (∀ band, 0 ≤ band → wants q band = true → 0 < hiwat_of q band → 0 < total (in_band band (q_msgs q))) → q_ok q.
Proof.
  intros [Hbo Hmi Hp [(Ec & Hlo & Hf) Hcb]] Hw. split; [done|done|done|]. split.
  - split; [done|]. split; [done|]. intros Hh. split; [by apply Hf|]. intros Hw0. right.
    rewrite Ec. by apply (Hw 0).
  - intros i b Hi. destruct (Hcb i b Hi) as (Ecb & Hlob & Hfb). split; [done|]. split; [done|].
    intros Hh. split; [by apply Hfb|]. intros Hw0. right. rewrite Ecb.
    apply Hw; [lia| |]; unfold wants, hiwat_of; rewrite (proj2 (Z.eqb_neq _ _)) by lia;
      replace (Z.to_nat (Z.of_nat i + 1 - 1)) with i by lia; by rewrite Hi.
Qed.

(** ** Deciding the invariant *)

#[global] Instance before_dec : RelDecision before.
Proof. intros a b. unfold before. apply _. Defined.

#[global] Instance msg_ok_dec n m : Decision (msg_ok n m).
Proof.
  refine (cast_if (decide (0 ≤ m_band m ≤ n ∧ (QPCTL ≤ m_type m → m_band m = 0) ∧ Forall (λ n, 0 ≤ n) (m_sizes m)))).
  - abstract (by destruct_and!).
  - abstract (intros []; tauto).
Defined.

#[global] Instance cnt_ok_dec c h lo full want ex n : Decision ex → Decision (cnt_ok c h lo full want ex n).
Proof. intros ?. unfold cnt_ok. apply _. Defined.

Definition all_bands (P : Z → qband → bool) (q : queue) : bool :=
  forallb (λ '(i, b), P (Z.of_nat i + 1) b) (imap pair (q_bandp q)).

Lemma all_bands_spec (P : Z → qband → bool) q :
  all_bands P q = true → ∀ i b, q_bandp q !! i = Some b → P (Z.of_nat i + 1) b = true.
Proof.
  unfold all_bands. rewrite forallb_forall. intros H i b Hi.
  apply (H (i, b)). apply list_elem_of_In, list_elem_of_lookup. exists i.
  by rewrite list_lookup_imap, Hi.
Qed.

Definition q_okb (q : queue) : bool :=
  bool_decide (q_nband q = Z.of_nat (length (q_bandp q)) ∧ q_nband q ≤ 255 ∧
    NoDup (m_id <$> q_msgs q) ∧ Forall (msg_ok (q_nband q)) (q_msgs q) ∧
    StronglySorted before (q_msgs q) ∧ total (q_msgs q) < W32 ∧
    cnt_ok (q_count q) (q_hiwat q) (q_lowat q) (has_bit (q_flag q) QFULL) (has_bit (q_flag q) QWANTW) False
      (total (in_band 0 (q_msgs q)))) &&
  all_bands (λ i b, bool_decide (qb_first b = m_id <$> head (in_band i (q_msgs q)) ∧
    qb_last b = m_id <$> list.last (in_band i (q_msgs q)) ∧
    cnt_ok (qb_count b) (qb_hiwat b) (qb_lowat b) (has_bit (qb_flag b) QB_FULL) (has_bit (qb_flag b) QB_WANTW) False
      (total (in_band i (q_msgs q))))) q.

Lemma q_okb_ok q : q_okb q = true → q_ok q.
Proof.
  unfold q_okb. intros [H Hb]%andb_true_iff. apply bool_decide_eq_true in H as (? & ? & ? & ? & ? & ? & Hc).
  pose proof (all_bands_spec _ _ Hb) as Hb'.
  split; [done|done| |split].
  - intros i b Hi. specialize (Hb' i b Hi). apply bool_decide_eq_true in Hb' as (? & ? & _). done.
  - eapply cnt_weaken; [|exact Hc]. done.
  - intros i b Hi. specialize (Hb' i b Hi). apply bool_decide_eq_true in Hb' as (_ & _ & Hb').
    eapply cnt_weaken; [|exact Hb']. done.
Qed.

(** A queue with a high priority message, one of band 1 and two of band 0. *)
Definition example_q : queue :=
  MkQueue [MkMsg 1 0 false M_PCPROTO [4]; MkMsg 2 1 false M_DATA [30; 20]; MkMsg 3 0 false M_DATA [10]; MkMsg 4 0 true M_PROTO [8; 2]]
    (Z.lor QFULL QWANTR) 24 20 10 0 1024 0 1 [MkBand (Some 2) (Some 2) 50 60 10 QB_WANTW].

Lemma example_q_ok : q_ok example_q.
Proof. apply q_okb_ok. vm_compute. reflexivity. Defined.
