(* ===== verification/StrqPut.v ===== *)
(** * Putting messages on a queue

    [putq], [putbq] and [insq] keep the invariant and put the message where the
    abstract priority queue has it. *)

From stdpp Require Import sorting.
From S2P Require Import Prelude Strq StrqProps.

(** ** Bands *)

(** The bands up to [pri] can be had. *)
Definition band_avail (q : queue) (pri : Z) (avail : nat) : bool := pri - q_nband q <=? Z.of_nat avail.

Lemma new_band_ok q n : 0 ≤ q_lowat q → band_cnt_ok False (total []) (new_band q) ∧ ptr_ok [] n (new_band q).
Proof.
  intros Hlo. split; [|done]. split; [done|]. split; [done|]. simpl. intros H. split; [|done].
  symmetry. apply Z.leb_gt. done.
Qed.

Lemma no_band n i l : Forall (msg_ok n) l → n < i → in_band i l = [].
Proof.
  intros Hl Hi. apply filter_none. intros x Hx Hb. rewrite list.Forall_forall in Hl.
  pose proof (Hl x Hx) as [Hr _ _]. lia.
Qed.

Lemma add_band_ok ex q : q_inv ex q → q_nband q < 255 →
  q_inv ex (set_q_bands (q_nband q + 1) (q_bandp q ++ [new_band q]) q).
Proof.
  intros [[Hn Hm] [Hd Hl Hs Ht] Hp [Hc Hb]] Hlt.
  assert (in_band (q_nband q + 1) (q_msgs q) = []) as Hnil by (apply (no_band (q_nband q)); [done|lia]).
  assert (∀ i b, (q_bandp q ++ [new_band q]) !! i = Some b →
    q_bandp q !! i = Some b ∨ Z.of_nat i + 1 = q_nband q + 1 ∧ b = new_band q) as Hcase.
  { intros i b [Hi|[Hge Hi]]%lookup_app_Some; [by left|right].
    apply list_lookup_singleton_Some in Hi as [Hi ->]. split; [lia|done]. }
  destruct (new_band_ok q (q_nband q + 1)) as [Hc0 Hp0]; [apply Hc|].
  split; [split; simpl; [rewrite length_app; simpl; lia|lia]|split; try done| |split; [done|]]; simpl.
  - eapply Forall_impl; [|exact Hl]. intros m. apply msg_ok_mono. lia.
  - intros i b [Hi|[-> ->]]%Hcase; [by apply Hp|]. unfold ptr_ok. rewrite Hnil. exact Hp0.
  - intros i b [Hi|[-> ->]]%Hcase; [by apply Hb|]. rewrite Hnil. eapply cnt_weaken; [|exact Hc0]. done.
Qed.

Lemma add_band_keeps q n bs : keeps q (set_q_bands n bs q).
Proof. by split. Qed.

Lemma alloc_bands_ok ex n avail q :
  q_inv ex q → q_nband q + Z.of_nat n ≤ 255 →
  ∃ q', alloc_bands n avail q = ((n <=? avail)%nat, q') ∧ q_inv ex q' ∧ q_msgs q' = q_msgs q ∧
    keeps q q' ∧ q_nband q ≤ q_nband q' ∧ ((n ≤ avail)%nat → q_nband q' = q_nband q + Z.of_nat n).
Proof.
  revert avail q. induction n as [|n IH]; intros avail q Hq Hn; simpl.
  { exists q. split; [done|]. split; [done|]. split; [done|]. split; [done|]. lia. }
  destruct avail as [|avail].
  { exists q. split; [done|]. split; [done|]. split; [done|]. split; [done|]. lia. }
  destruct (IH avail _ (add_band_ok ex q Hq ltac:(lia))) as (q' & -> & Hq' & Hm & Hk & Hle & Hn').
  { simpl. lia. }
  exists q'. split; [done|]. split; [done|]. split; [done|]. split; [|simpl in *; lia].
  etrans; [apply add_band_keeps|exact Hk].
Qed.

Lemma need_band_ok ex q pri avail : q_inv ex q → pri ≤ 255 →
  ∃ q', need_band pri avail q = (band_avail q pri avail, q') ∧ q_inv ex q' ∧ q_msgs q' = q_msgs q ∧
    keeps q q' ∧ q_nband q ≤ q_nband q' ∧ (band_avail q pri avail = true → pri ≤ q_nband q').
Proof.
  intros Hq Hp. unfold need_band, band_avail. pose proof (qi_bands _ _ Hq) as [_ Hm].
  destruct (alloc_bands_ok ex (Z.to_nat (pri - q_nband q)) avail q Hq) as (q' & E & Hq' & Hms & Hk & Hle & Hn); [lia|].
  exists q'. rewrite E. split; [|split; [done|split; [done|split; [done|split; [done|]]]]].
  - f_equal. apply eq_true_iff_eq. rewrite Nat.leb_le, Z.leb_le. lia.
  - rewrite Z.leb_le. lia.
Qed.

Lemma if_need_band q m avail : bands_ok q →
  (if negb (m_band m =? 0) then need_band (m_band m) avail q else (true, q)) = need_band (m_band m) avail q.
Proof.
  intros [Hn _]. destruct (Z.eqb_spec (m_band m) 0) as [->|]; [|done]. unfold need_band.
  by replace (Z.to_nat (0 - q_nband q)) with O by lia.
Qed.

Lemma need_band_none q pri avail : pri ≤ q_nband q → need_band pri avail q = (true, q).
Proof. intros H. unfold need_band. by replace (Z.to_nat (pri - q_nband q)) with O by lia. Qed.

Lemma force_band_ok m : 0 ≤ m_band m ≤ 255 → sized m →
  msg_ok 255 (force_band m) ∧ m_id (force_band m) = m_id m ∧ msize (force_band m) = msize m.
Proof.
  intros Hb Hs. unfold force_band, queclass. destruct (QPCTL <=? m_type m) eqn:E; simpl; prop_bool.
  - destruct (Z.eqb_spec (m_band m) 0); (split; [split; simpl; try done; lia|done]).
  - split; [split; [done|lia|done]|done].
Qed.

(** ** What the two ways of putting have in common *)

Section put.
Context (place : queue → qmsg → option qband → res (list qmsg * option qband)).
Context (put : qmsg → list qmsg → list qmsg).
Context (enab : queue → qmsg → bool).

Hypothesis place_none : ∀ q bp n, n ≤ 255 → StronglySorted before (q_msgs q) →
  Forall (msg_ok n) (q_msgs q) → msg_ok n bp → m_band bp = 0 →
  place q bp None = Ok (put bp (q_msgs q), None).
Hypothesis place_band : ∀ q bp n, n ≤ 255 → StronglySorted before (q_msgs q) →
  Forall (msg_ok n) (q_msgs q) → NoDup (m_id <$> q_msgs q) → msg_ok n bp → ∀ b, 0 < m_band bp →
  ptr_ok (q_msgs q) (m_band bp) b →
  place q bp (Some b) = Ok (put bp (q_msgs q), Some (set_ptrs (put bp (q_msgs q)) (m_band bp) b)).
Hypothesis put_split : ∀ m l, StronglySorted before l → ∃ a b, l = a ++ b ∧ put m l = a ++ m :: b.
Hypothesis put_sorted : ∀ m l, StronglySorted before l → StronglySorted before (put m l).
Hypothesis enab_keeps : ∀ q q' m, keeps q q' → enab q' m = enab q m.

Lemma put_perm m l : StronglySorted before l → put m l ≡ₚ m :: l.
Proof. intros (a & b & -> & ->)%(put_split m). symmetry. apply Permutation_middle. Qed.

Lemma in_band_put i m l : StronglySorted before l → m_band m ≠ i → in_band i (put m l) = in_band i l.
Proof.
  intros (a & b & -> & ->)%(put_split m) Hi. rewrite !in_band_app, in_band_cons.
  by rewrite decide_False.
Qed.

Lemma put_msgs_inv n m l : msgs_inv n l → msg_ok n m → m_id m ∉ m_id <$> l → total (m :: l) < W32 →
  msgs_inv n (put m l).
Proof.
  intros [Hd Hl Hs Ht] Hm Hid Htot. pose proof (put_perm m l Hs) as Hp. split.
  - rewrite Hp. simpl. by apply list.NoDup_cons.
  - rewrite Hp. by constructor.
  - by apply put_sorted.
  - by rewrite Hp.
Qed.

(** The message in its place, before it is counted. *)
Lemma put_placed ex q m n : q_inv ex q → n = q_nband q → msg_ok n m → m_id m ∉ m_id <$> q_msgs q →
  ∃ q', (qbp ← (if negb (m_band m =? 0) then b ← get_band q (m_band m); Ok (Some b) else Ok None);
         '(l, qbp) ← place q m qbp;
         let q := set_q_msgs l q in
         Ok (match qbp with Some b => put_band q (m_band m) b | None => q end)) = Ok q' ∧
    q_msgs q' = put m (q_msgs q) ∧ ptrs q' (put m (q_msgs q)) ∧ counts ex q' (q_msgs q) ∧ frame q q' ∧
    ∀ k, 0 ≤ k → wants q' k = wants q k.
Proof.
  intros [Hbo [Hd Hl Hs Ht] Hp Hc] -> Hm Hid.
  destruct (Z.eqb_spec (m_band m) 0) as [E|E]; cbn [negb mbind res_bind].
  - rewrite (place_none _ _ (q_nband q)) by (done || apply Hbo). eexists. split; [done|]. split; [done|].
    split; [|split; [by apply counts_msgs|split; [apply set_msgs_frame|done]]].
    intros i b Hi. unfold ptr_ok. rewrite in_band_put by (done || lia). by apply Hp.
  - destruct Hm as [Hmb Hmc Hms]. destruct (get_band_ok q (m_band m)) as (b & -> & Hb); [done|lia|].
    pose proof (Hp _ _ Hb) as Hpb. rewrite Z2Nat.id, Z.sub_add in Hpb by lia. cbn [mbind res_bind].
    rewrite (place_band _ _ (q_nband q)) by (done || lia || apply Hbo). eexists. split; [done|]. split; [done|].
    split; [|split; [|split; [etrans; [apply set_msgs_frame|by apply (put_band_frame _ _ b)]|]]].
    + refine (put_band_forall (ptr_ok _) (set_q_msgs _ q) _ _ b Hb _ _ _); [lia| |apply set_ptrs_ok].
      intros k b' Hk Hne. unfold ptr_ok. rewrite in_band_put by (done || lia). by apply Hp.
    + apply (put_band_counts _ (set_q_msgs _ q) (q_msgs q) _ _ b); [by apply counts_msgs|lia|exact Hb| |done].
      destruct Hc as [_ Hc]. specialize (Hc _ _ Hb). rewrite Z2Nat.id, Z.sub_add in Hc by lia. exact Hc.
    + intros k Hk. by apply (wants_same (set_q_msgs _ q) _ b); [lia| | |].
Qed.

Lemma put_with_ok ex q bp avail :
  q_inv ex q → 0 ≤ m_band bp ≤ 255 → sized bp → m_id bp ∉ m_id <$> q_msgs q →
  msize bp + total (q_msgs q) < W32 →
  let m := force_band bp in
  let ok := band_avail q (m_band m) avail in
  ∃ q', put_with place enab q bp avail
          = Ok ((if ok then 1 else 0), q', if ok && enab q m then [EvEnable] else []) ∧
    q_inv ex q' ∧ q_msgs q' = (if ok then put m (q_msgs q) else q_msgs q) ∧ keeps q q' ∧
    (m_band m ≤ q_nband q → frame q q' ∧ ∀ k, 0 ≤ k → wants q' k = wants q k).
Proof.
  intros Hq Hb Hsz Hid Ht m ok. destruct (force_band_ok bp Hb Hsz) as (Hm & Eid & Esz). fold m in Hm, Eid, Esz.
  destruct (need_band_ok ex q (m_band m) avail Hq) as (q1 & En & Hq1 & Em1 & Hk1 & Hle & Hband); [by destruct Hm as [[]]|].
  fold ok in En, Hband.
  assert (m_band m ≤ q_nband q → q1 = q) as Hsame.
  { intros H. rewrite need_band_none in En by done. by injection En as _ <-. }
  unfold put_with. fold m. rewrite if_need_band, En by apply Hq. destruct ok; cbn [negb andb].
  2:{ exists q1. split; [done|]. split; [done|]. split; [done|]. split; [done|]. by intros ->%Hsame. }
  destruct (put_placed ex q1 m (q_nband q1)) as (q2 & E2 & Em2 & Hp2 & Hc2 & Hf2 & Hw2); [done|done| |by rewrite Em1, Eid|].
  { destruct Hm. split; [|done|done]. specialize (Hband eq_refl). lia. }
  apply bind_ok in E2 as (qbp & Eq & E2). apply bind_ok in E2 as ([l' qbp'] & Epl & E2).
  rewrite Eq. cbn [mbind res_bind]. rewrite Epl. cbn [mbind res_bind]. injection E2 as ->.
  pose proof (frame_bands _ _ Hf2 (qi_bands _ _ Hq1)) as Hbo2. rewrite Em1 in *.
  assert (msg_ok (q_nband q1) m) as Hm1 by (destruct Hm; split; [specialize (Hband eq_refl); lia|done|done]).
  pose proof (qi_msgs _ _ Hq1) as Hmi1. rewrite Em1 in Hmi1.
  edestruct (count_in_ok q2 (q_msgs q) m) as (q3 & E3 & Hc3 & Em3 & Hf3 & Hp3); [done| |by rewrite band_total_cons, Esz|exact Hc2|].
  { rewrite (fr_nband _ _ Hf2). constructor; [done|]. by destruct Hmi1. }
  rewrite E3. cbn [mbind res_bind]. exists q3.
  assert (keeps q q3) as Hk3 by (trans q1; [done|]; trans q2; [apply Hf2|apply Hf3]).
  rewrite (enab_keeps q q3) by done. split; [done|]. split; [|split; [by rewrite Em3|split; [done|]]].
  2:{ intros ->%Hsame. split; [by trans q2|]. intros k Hk. rewrite (count_in_wants _ _ _ _ E3) by (done || apply Hm). by apply Hw2. }
  assert (frame q1 q3) as Hf by by trans q2. rewrite Em2 in Em3.
  split; [by apply (frame_bands q1), Hq1| | |]; rewrite Em3.
  - rewrite (fr_nband _ _ Hf). apply put_msgs_inv; [done|done|by rewrite Eid|by rewrite band_total_cons, Esz].
  - by apply Hp3.
  - eapply counts_perm; [|exact Hc3]. symmetry. apply put_perm, Hmi1.
Qed.
End put.

(** ** Inserting *)

Section insert.
Context (n : Z) (a r : list qmsg) (m : qmsg).
Hypothesis Hs : StronglySorted before (a ++ m :: r).
Hypothesis Hl : Forall (msg_ok n) (a ++ m :: r).
Hypothesis Hn : n ≤ 255.
Hypothesis Hb : 0 < m_band m.

Lemma ins_ok x : x ∈ a ++ m :: r → msg_ok n x.
Proof. by apply list.Forall_forall. Qed.

Lemma in_prev x : x ∈ a → x ∈ a ++ m :: r.
Proof. intros Hx. apply elem_of_app. by left. Qed.

Lemma in_next x : x ∈ r → x ∈ a ++ m :: r.
Proof. intros Hx. apply elem_of_app. right. by right. Qed.

Lemma in_new : m ∈ a ++ m :: r.
Proof. apply elem_of_app. right. left. Qed.

Lemma ins_prio x : x ∈ a ++ m :: r → prio x = m_band m ↔ m_band x = m_band m.
Proof.
  intros Hx%ins_ok. pose proof Hx as [Hr Hc _]. pose proof (ins_ok m in_new) as [Hrm _ _]. split.
  - intros E. unfold prio in E. case_if_in E; lia.
  - intros E. destruct (prio_band n x) as [-> _]; [done|lia|done].
Qed.

(** The message before the new one is of its band, or the band has none there. *)
Lemma prev_band :
  match list.last a with
  | Some p => m_band p = m_band m ∧ list.last (in_band (m_band m) a) = Some p
  | None => False
  end ∨ in_band (m_band m) a = [] ∧ match list.last a with Some p => negb (m_band p =? m_band m) | None => true end = true.
Proof.
  destruct (list.last a) as [p|] eqn:E; [|right; apply last_None in E; by rewrite E].
  apply last_Some in E as [a' E]. rewrite E. destruct (decide (m_band p = m_band m)) as [Ep|Ep].
  - left. split; [done|]. rewrite in_band_app, in_band_cons, decide_True by done. apply last_snoc.
  - right. split; [|by apply negb_true_iff, Z.eqb_neq].
    apply filter_none. intros x Hx Exb. apply Ep. rewrite <- E in Hx.
    assert (p ∈ a) as Hpa by (rewrite E; apply elem_of_app; right; left). apply ins_prio; [by apply in_prev|].
    assert (prio m = m_band m) by (apply ins_prio; [apply in_new|done]).
    assert (prio x = m_band m) by (apply ins_prio; [by apply in_prev|done]).
    pose proof (StronglySorted_app_1_elem_of _ _ _ p m Hs Hpa ltac:(left)) as H1.
    pose proof (StronglySorted_app_1_l _ _ _ Hs) as Hsa. rewrite E in Hsa, Hx.
    apply elem_of_app in Hx as [Hx|Hx%list_elem_of_singleton]; [|by subst].
    pose proof (StronglySorted_app_1_elem_of _ _ _ x p Hsa Hx ltac:(left)) as H2.
    unfold before in *. lia.
Qed.

Lemma next_band :
  match head r with
  | Some p => m_band p = m_band m ∧ head (in_band (m_band m) r) = Some p
  | None => False
  end ∨ in_band (m_band m) r = [] ∧ match head r with Some p => negb (m_band p =? m_band m) | None => true end = true.
Proof.
  destruct (head r) as [p|] eqn:E; [|right; apply head_None in E; by rewrite E].
  apply head_Some_cons in E as [r' E]. rewrite E. destruct (decide (m_band p = m_band m)) as [Ep|Ep].
  - left. split; [done|]. by rewrite in_band_cons, decide_True.
  - right. split; [|by apply negb_true_iff, Z.eqb_neq].
    apply filter_none. intros x Hx Exb. apply Ep. rewrite <- E in Hx.
    assert (p ∈ r) as Hpr by (rewrite E; left). apply ins_prio; [by apply in_next|].
    assert (prio m = m_band m) by (apply ins_prio; [apply in_new|done]).
    assert (prio x = m_band m) by (apply ins_prio; [by apply in_next|done]).
    pose proof Hs as (_ & _ & Hs')%StronglySorted_app. rewrite E in Hs', Hx. apply StronglySorted_cons in Hs' as [H1 H2].
    apply StronglySorted_cons in H2 as [H2 _]. rewrite list.Forall_forall in H1, H2.
    specialize (H1 p ltac:(left)). apply elem_of_cons in Hx as [->|Hx]; [done|]. specialize (H2 x Hx).
    unfold before in *. lia.
Qed.

Lemma insq_band_ok b : ptr_ok (a ++ r) (m_band m) b →
  insq_band b (list.last a) (head r) m = set_ptrs (a ++ m :: r) (m_band m) b.
Proof.
  intros [Hf Hlst]. unfold insq_band, set_ptrs. rewrite in_band_app in Hf, Hlst.
  rewrite in_band_app, in_band_cons, decide_True by done.
  destruct b as [f l c h lo fl]. unfold set_qb_first, set_qb_last in *. simpl in *.
  rewrite last_app_cons. destruct prev_band as [Hp|[Ea ->]].
  - destruct (list.last a) as [p|]; [|done]. destruct Hp as [-> Elp]. rewrite Z.eqb_refl. simpl.
    apply last_Some in Elp as [B Elp]. rewrite Elp in *.
    destruct next_band as [Hr|[Er ->]].
    + destruct (head r) as [p'|]; [|done]. destruct Hr as [-> Ehr]. rewrite Z.eqb_refl. simpl.
      apply head_Some_cons in Ehr as [C Ehr]. rewrite Ehr, last_app_cons in *. subst. by destruct B.
    + rewrite Er, app_nil_r, last_snoc in *. subst. by destruct B.
  - rewrite Ea in *. simpl in *. subst. destruct (in_band (m_band m) r) as [|x C] eqn:Er; [done|]. simpl.
    destruct C; done.
Qed.
End insert.

(** A message of a band that would follow a high priority message at the end of the
    queue: [insq] compares its band with the band 0 of that message. *)
Definition behind_high (a r : list qmsg) (m : qmsg) : bool :=
  match r, list.last a with
  | [], Some p => (QPCTL <=? m_type p) && (0 <? m_band m)
  | _, _ => false
  end.

Definition at_msg (a r : list qmsg) : option (list qmsg * qmsg) :=
  match r with e :: _ => Some (a, e) | [] => None end.

Lemma prio_ge_band n x : n ≤ 255 → msg_ok n x → m_band x ≤ prio x ∧ (m_type x < QPCTL → prio x = m_band x).
Proof.
  intros Hn [Hr Hc _]. unfold prio. destruct (QPCTL <=? m_type x) eqn:E; prop_bool; lia.
Qed.

Lemma insq_order_ok n a r m :
  n ≤ 255 → StronglySorted before (a ++ m :: r) → Forall (msg_ok n) (a ++ m :: r) →
  insq_order (a ++ r) (at_msg a r) m = negb (behind_high a r m).
Proof.
  intros Hn Hs Hl. rewrite list.Forall_forall in Hl.
  assert (∀ p, list.last a = Some p → prio m ≤ prio p ∧ msg_ok n p) as Ha.
  { intros p Hp%last_elem. split; [|by apply Hl, in_prev].
    by apply (StronglySorted_app_1_elem_of _ _ _ p m Hs Hp ltac:(left)). }
  pose proof (Hl m (in_new a r m)) as Hm. pose proof (prio_ge_band n m Hn Hm) as [Hm1 Hm2].
  assert (QPCTL ≤ m_type m → prio m = 256) as Hm3.
  { intros H. unfold prio. by rewrite (proj2 (Z.leb_le _ _) H). }
  unfold insq_order, behind_high, queclass. destruct r as [|e r']; simpl.
  - rewrite app_nil_r. destruct (list.last a) as [p|] eqn:Ep; [|done]. destruct (Ha p eq_refl) as [Hpm Hp].
    pose proof (prio_ge_band n p Hn Hp) as [Hp1 Hp2]. f_equal. destruct Hm as [Hmb Hmc _], Hp as [Hpb Hpc _].
    unfold QPCTL, QNORM in *.
    destruct (128 <=? m_type m) eqn:E1, (128 <=? m_type p) eqn:E2; simpl; prop_bool; symmetry;
      rewrite ?Z.ltb_ge; lia.
  - apply negb_true_iff.
    assert (prio e ≤ prio m) as He.
    { apply StronglySorted_app in Hs as (_ & _ & Hs). apply StronglySorted_cons in Hs as [Hs _].
      rewrite list.Forall_forall in Hs. apply (Hs e). left. }
    pose proof (prio_ge_band n e Hn (Hl e ltac:(apply in_next; left))) as [He1 He2].
    destruct (list.last a) as [p|] eqn:Ep.
    + destruct (Ha p eq_refl) as [Hpm Hp]. pose proof (prio_ge_band n p Hn Hp) as [Hp1 Hp2].
      destruct Hm as [Hmb Hmc _], Hp as [Hpb Hpc _].
      unfold QPCTL, QNORM in *. rewrite !orb_false_iff, !andb_false_iff.
      destruct (128 <=? m_type m) eqn:E1; simpl; prop_bool; rewrite ?Z.ltb_ge; lia.
    + unfold QPCTL, QNORM in *. destruct (128 <=? m_type m) eqn:E1; simpl; prop_bool; [done|].
      rewrite orb_false_r. apply Z.ltb_ge. lia.
Qed.

Lemma find_head a r : NoDup (m_id <$> a ++ r) →
  match m_id <$> head r with
  | Some id => '(a, e, b) ← find_msg id (a ++ r); Ok (a, e :: b)
  | None => Ok (a ++ r, [])
  end = Ok (a, r).
Proof.
  intros Hd. destruct r as [|e r']; simpl; [by rewrite app_nil_r|]. by rewrite find_msg_ok.
Qed.

(** The band's pointers, set for the inserted message. *)
Lemma insq_linked q a r m : q_inv none q → q_msgs q = a ++ r → msg_ok (q_nband q) m →
  StronglySorted before (a ++ m :: r) →
  ∃ q', (if negb (m_band m =? 0)
         then b ← get_band q (m_band m); Ok (put_band q (m_band m) (insq_band b (list.last a) (head r) m))
         else Ok q) = Ok q' ∧
    q_msgs q' = a ++ r ∧ ptrs q' (a ++ m :: r) ∧ counts none q' (a ++ r) ∧ frame q q'.
Proof.
  intros [Hbo [Hd Hl Hs Ht] Hp Hc] E Hm Hs'. rewrite E in *.
  assert (∀ i, m_band m ≠ i → in_band i (a ++ m :: r) = in_band i (a ++ r)) as Hoth.
  { intros i Hi. by rewrite !in_band_app, in_band_cons, decide_False. }
  assert (Forall (msg_ok (q_nband q)) (a ++ m :: r)) as Hl' by (rewrite <- Permutation_middle; by constructor).
  destruct (Z.eqb_spec (m_band m) 0) as [E0|E0]; cbn [negb].
  - exists q. split; [done|]. split; [done|]. split; [|by split].
    intros i b Hi. unfold ptr_ok. rewrite Hoth by lia. by apply Hp.
  - pose proof Hm as [Hmb _ _]. destruct (get_band_ok q (m_band m)) as (b & -> & Hb); [done|lia|].
    pose proof (Hp _ _ Hb) as Hpb. rewrite Z2Nat.id, Z.sub_add in Hpb by lia. cbn [mbind res_bind].
    rewrite (insq_band_ok (q_nband q)) by (done || lia || apply Hbo). eexists. split; [done|]. split; [done|].
    split; [|split; [|by apply (put_band_frame _ _ b)]].
    + refine (put_band_forall (ptr_ok _) q _ _ b Hb _ _ _); [lia| |apply set_ptrs_ok].
      intros k b' Hk Hne. unfold ptr_ok. rewrite Hoth by done. by apply Hp.
    + apply (put_band_counts _ q (a ++ r) _ _ b); [done|lia|done| |done].
      destruct Hc as [_ Hc]. specialize (Hc _ _ Hb). rewrite Z2Nat.id, Z.sub_add in Hc by lia. exact Hc.
Qed.

Lemma insq_count q2 n a r m : bands_ok q2 → q_nband q2 = n → msgs_inv n (a ++ r) → msg_ok n m →
  StronglySorted before (a ++ m :: r) → m_id m ∉ m_id <$> a ++ r → msize m + total (a ++ r) < W32 →
  ptrs q2 (a ++ m :: r) → counts none q2 (a ++ r) →
  ∃ q', count_in (set_q_msgs (a ++ m :: r) q2) m (negb (m_band m =? 0)) = Ok q' ∧ q_ok q' ∧
    q_msgs q' = a ++ m :: r ∧ frame q2 q'.
Proof.
  intros Hbo <- [Hd Hl Hs Ht] Hm Hs' Hid Htot Hp Hc.
  edestruct (count_in_ok (set_q_msgs (a ++ m :: r) q2) (a ++ r) m) as (q3 & E3 & Hc3 & Em3 & Hf3 & Hp3);
    [done|by constructor|by rewrite band_total_cons|by apply counts_msgs, Hc|].
  exists q3. split; [done|]. pose proof (Permutation_middle a r m) as Hperm.
  assert (frame q2 q3) as Hf by (etrans; [apply set_msgs_frame|exact Hf3]).
  split; [|done]. split; [by apply (frame_bands q2)| | |]; rewrite Em3; simpl.
  - rewrite (fr_nband _ _ Hf). split; [| |done|by rewrite <- Hperm, band_total_cons].
    + rewrite <- Hperm. simpl. by apply list.NoDup_cons.
    + rewrite <- Hperm. by constructor.
  - by apply Hp3.
  - by eapply counts_perm.
Qed.

Lemma insq_ok q a r bp avail :
  q_ok q → q_msgs q = a ++ r → 0 ≤ m_band bp ≤ 255 → sized bp → m_id bp ∉ m_id <$> q_msgs q →
  msize bp + total (q_msgs q) < W32 → StronglySorted before (a ++ force_band bp :: r) →
  let m := force_band bp in
  let ok := negb (behind_high a r m) && band_avail q (m_band m) avail in
  ∃ q', insq q (m_id <$> head r) bp avail
          = Ok ((if ok then 1 else 0), q',
                if ok && (canenable q && has_bit (q_flag q) QWANTR) then [EvEnable] else []) ∧
    q_ok q' ∧ q_msgs q' = (if ok then a ++ m :: r else a ++ r) ∧ keeps q q'.
Proof.
  intros Hq E Hb Hsz Hid Ht Hs m ok. destruct (force_band_ok bp Hb Hsz) as (Hm & Eid & Esz).
  fold m in Hm, Eid, Esz, Hs. pose proof (qi_msgs _ _ Hq) as Hmi. rewrite E in *. pose proof Hmi as [Hd Hl _ _].
  assert (Forall (msg_ok 255) (a ++ m :: r)) as Hl255.
  { rewrite <- Permutation_middle. constructor; [done|]. eapply Forall_impl; [|exact Hl].
    intros x. apply msg_ok_mono. apply Hq. }
  unfold insq. rewrite E, find_head by done. fold m. cbn [mbind res_bind].
  fold (at_msg a r).
  rewrite (insq_order_ok 255) by done. rewrite negb_involutive.
  destruct (behind_high a r m); cbn [negb andb] in *; [by exists q|].
  rewrite if_need_band by apply Hq.
  destruct (need_band_ok none q (m_band m) avail Hq) as (q1 & En & Hq1 & Em1 & Hk1 & Hle & Hband); [by destruct Hm as [[]]|].
  fold ok in En, Hband. rewrite En. rewrite E in Em1. destruct ok; cbn [negb andb]; [|by exists q1].
  assert (msg_ok (q_nband q1) m) as Hm1 by (destruct Hm; split; [specialize (Hband eq_refl); lia|done|done]).
  destruct (insq_linked q1 a r m Hq1 Em1 Hm1 Hs) as (q2 & -> & Em2 & Hp2 & Hc2 & Hf2).
  cbn [mbind res_bind]. pose proof (qi_msgs _ _ Hq1) as Hmi1. rewrite Em1 in Hmi1.
  destruct (insq_count q2 (q_nband q1) a r m) as (q3 & -> & Hq3 & Em3 & Hf3); try done;
    [by apply (frame_bands q1), Hq1|apply Hf2|by rewrite Eid|by rewrite Esz|].
  cbn [mbind res_bind]. exists q3.
  assert (keeps q q3) as Hk by (trans q1; [done|]; trans q2; [apply Hf2|apply Hf3]).
  split; [|done]. unfold canenable. by rewrite !(kp_flag _ _ Hk).
Qed.

(** ** Theorems *)

Lemma putq_enab q q' m : keeps q q' →
  (QNORM <? queclass m) || (canenable q' && (has_bit (q_flag q') QWANTR || negb (m_band m =? 0))) =
  (QNORM <? queclass m) || (canenable q && (has_bit (q_flag q) QWANTR || negb (m_band m =? 0))).
Proof. intros Hk. unfold canenable. by rewrite !(kp_flag _ _ Hk). Qed.

Lemma putbq_enab q q' m : keeps q q' →
  (QNORM <? queclass m) || (canenable q' && has_bit (q_flag q') QWANTR) =
  (QNORM <? queclass m) || (canenable q && has_bit (q_flag q) QWANTR).
Proof. intros Hk. unfold canenable. by rewrite !(kp_flag _ _ Hk). Qed.

(** C1: [putq] implements the insertion of the abstract priority queue: on a well-formed
    queue it never faults; when the bands can be allocated the message, its band set
    to 0 if it is of high priority, follows every message of its rank or a higher one
    and precedes all others, and the queue stays well formed: its order, the first
    and last pointers of every band, the byte counts and the full flags.  Otherwise
    it returns 0 and the messages are as before.  The service procedure is enabled
    for a high priority message always, and unless [noenable] was called for a
    message of a band or when the service procedure waits for messages. *)
Theorem putq_refines q bp avail :
  q_ok q → 0 ≤ m_band bp ≤ 255 → sized bp → m_id bp ∉ m_id <$> q_msgs q →
  msize bp + total (q_msgs q) < W32 →
  let m := force_band bp in
  let ok := band_avail q (m_band m) avail in
  let enab := (QPCTL <=? m_type m) || (negb (has_bit (q_flag q) QNOENB) && (has_bit (q_flag q) QWANTR || negb (m_band m =? 0))) in
  ∃ q', putq q bp avail = Ok ((if ok then 1 else 0), q', if ok && enab then [EvEnable] else []) ∧
    q_ok q' ∧ q_msgs q' = (if ok then put_last m (q_msgs q) else q_msgs q) ∧ keeps q q'.
Proof.
  intros Hq Hb Hsz Hid Ht m ok enab.
  destruct (put_with_ok putq_place put_last
    (λ q bp, (QNORM <? queclass bp) || (canenable q && (has_bit (q_flag q) QWANTR || negb (m_band bp =? 0))))
    putq_place_0 putq_place_band put_last_split put_last_sorted putq_enab none q bp avail) as (q' & E & H1 & H2 & H3 & _); try done.
  exists q'. split; [|done]. unfold putq. rewrite E. fold m. unfold ok, enab, queclass.
  by destruct (QPCTL <=? m_type m).
Qed.

(** [putbq] is the same with the message put before the messages of its rank. *)
Theorem putbq_refines q bp avail :
  q_ok q → 0 ≤ m_band bp ≤ 255 → sized bp → m_id bp ∉ m_id <$> q_msgs q →
  msize bp + total (q_msgs q) < W32 →
  let m := force_band bp in
  let ok := band_avail q (m_band m) avail in
  let enab := (QPCTL <=? m_type m) || (negb (has_bit (q_flag q) QNOENB) && has_bit (q_flag q) QWANTR) in
  ∃ q', putbq q bp avail = Ok ((if ok then 1 else 0), q', if ok && enab then [EvEnable] else []) ∧
    q_ok q' ∧ q_msgs q' = (if ok then put_first m (q_msgs q) else q_msgs q) ∧ keeps q q'.
Proof.
  intros Hq Hb Hsz Hid Ht m ok enab.
  destruct (put_with_ok putbq_place put_first
    (λ q bp, (QNORM <? queclass bp) || (canenable q && has_bit (q_flag q) QWANTR))
    (λ q bp n H1 H2 H3 _, putbq_place_0 q bp n H1 H2 H3) putbq_place_band put_first_split put_first_sorted putbq_enab none q bp avail) as (q' & E & H1 & H2 & H3 & _); try done.
  exists q'. split; [|done]. unfold putbq. rewrite E. fold m. unfold ok, enab, queclass.
  by destruct (QPCTL <=? m_type m).
Qed.

(** The shared side conditions of the three at a concrete message. *)
Ltac put_example :=
  first [exact example_q_ok | reflexivity | unfold sized; apply (bool_decide_eq_true _); vm_compute; reflexivity
        | vm_compute; split; congruence].

Lemma putq_refines_witness :
  ∃ q', putq example_q (MkMsg 9 1 false M_DATA [7]) 0 = Ok (1, q', [EvEnable]) ∧ q_ok q' ∧
    m_id <$> q_msgs q' = [1; 2; 9; 3; 4].
Proof.
  destruct (putq_refines example_q (MkMsg 9 1 false M_DATA [7]) 0) as (q' & E & Hq & Hm & _); [put_example..|].
  exists q'. split; [rewrite E; reflexivity|]. split; [done|]. rewrite Hm. reflexivity.
Defined.

Lemma putbq_refines_witness :
  ∃ q', putbq example_q (MkMsg 9 3 false M_DATA [7]) 1 = Ok (0, q', []) ∧ q_ok q' ∧
    m_id <$> q_msgs q' = [1; 2; 3; 4].
Proof.
  destruct (putbq_refines example_q (MkMsg 9 3 false M_DATA [7]) 1) as (q' & E & Hq & Hm & _); [put_example..|].
  exists q'. split; [rewrite E; reflexivity|]. split; [done|]. rewrite Hm. reflexivity.
Defined.

(** [insq] before a message, or at the end, where the order has the place for the new
    message: it is accepted and the invariant kept, with one exception, a message of a
    band after the last message when that is of high priority ([behind_high]). *)
Theorem insq_in_order q a r bp avail :
  q_ok q → q_msgs q = a ++ r → 0 ≤ m_band bp ≤ 255 → sized bp → m_id bp ∉ m_id <$> q_msgs q →
  msize bp + total (q_msgs q) < W32 → StronglySorted before (a ++ force_band bp :: r) →
  let m := force_band bp in
  let ok := negb (behind_high a r m) && band_avail q (m_band m) avail in
  ∃ q', insq q (m_id <$> head r) bp avail
          = Ok ((if ok then 1 else 0), q',
                if ok && (canenable q && has_bit (q_flag q) QWANTR) then [EvEnable] else []) ∧
    q_ok q' ∧ q_msgs q' = (if ok then a ++ m :: r else a ++ r) ∧ keeps q q'.
Proof. apply insq_ok. Qed.

Lemma insq_in_order_witness :
  ∃ q', insq example_q (Some 3) (MkMsg 9 1 false M_DATA [7]) 0 = Ok (1, q', [EvEnable]) ∧ q_ok q' ∧
    m_id <$> q_msgs q' = [1; 2; 9; 3; 4].
Proof.
  destruct (insq_in_order example_q (take 2 (q_msgs example_q)) (drop 2 (q_msgs example_q))
    (MkMsg 9 1 false M_DATA [7]) 0) as (q' & E & Hq & Hm & _); [put_example..|].
  exists q'. split; [etrans; [|exact E]; reflexivity|]. split; [done|]. rewrite Hm. reflexivity.
Defined.

(** A message between its neighbours is in order. *)
Lemma sorted_between a m r : StronglySorted before (a ++ r) →
  (∀ p, list.last a = Some p → prio m ≤ prio p) → (∀ e, head r = Some e → prio e ≤ prio m) →
  StronglySorted before (a ++ m :: r).
Proof.
  intros Hs Hp He. pose proof Hs as (Har & Ha & Hr)%StronglySorted_app.
  assert (∀ x, x ∈ a → prio m ≤ prio x) as Ham.
  { intros x Hx. destruct (list.last a) as [p|] eqn:E.
    - specialize (Hp p eq_refl). pose proof (sorted_last a p x Ha E Hx). lia.
    - apply last_None in E. subst. by apply elem_of_nil in Hx. }
  assert (∀ x, x ∈ r → prio x ≤ prio m) as Hrm.
  { intros x Hx. destruct r as [|e r']; [by apply elem_of_nil in Hx|]. specialize (He e eq_refl).
    apply StronglySorted_cons in Hr as [Hr _]. rewrite list.Forall_forall in Hr.
    apply elem_of_cons in Hx as [->|Hx]; [done|]. specialize (Hr x Hx). unfold before in Hr. lia. }
  apply StronglySorted_app. split.
  - intros x y Hx [->|Hy]%elem_of_cons; [by apply Ham|by apply Har].
  - split; [done|]. apply StronglySorted_cons. split; [|done]. by apply list.Forall_forall.
Qed.

(** The two places that [insq] takes although they are out of order: a high priority message at
    the end, behind one that is not, and a message that is not before one that is. *)
Definition place_ok (a r : list qmsg) (m : qmsg) : Prop :=
  match r with
  | [] => QPCTL ≤ m_type m → ∀ p, list.last a = Some p → QPCTL ≤ m_type p
  | e :: _ => QPCTL ≤ m_type e → QPCTL ≤ m_type m
  end.

(** Where [insq] takes a message but for these, it is in order. *)
Lemma insq_accepted n a r m : n ≤ 255 → StronglySorted before (a ++ r) → Forall (msg_ok n) (a ++ r) → msg_ok 255 m →
  place_ok a r m → insq_order (a ++ r) (at_msg a r) m = true → StronglySorted before (a ++ m :: r).
Proof.
  intros Hn Hs Hl Hm Hpl Ho. rewrite list.Forall_forall in Hl. pose proof (prio_ge_band 255 m ltac:(done) Hm) as [Hm1 Hm2].
  assert (∀ x, QPCTL ≤ m_type x → prio x = 256) as Hh by (intros x H; unfold prio; by rewrite (proj2 (Z.leb_le _ _) H)).
  pose proof (Hh m) as Hm3. pose proof (mo_class _ _ Hm) as Hmc. destruct (mo_band _ _ Hm) as [Hmb Hmb2].
  assert (∀ x, x ∈ a ++ r → m_band x ≤ prio x ≤ 256 ∧ 0 ≤ m_band x ∧ (m_type x < QPCTL → prio x = m_band x) ∧ (QPCTL ≤ m_type x → prio x = 256 ∧ m_band x = 0)) as Hx.
  { intros x Hx%Hl. destruct (prio_ge_band n x Hn Hx) as [H1 H2]. destruct Hx as [Hb Hc _]. split; [|split; [lia|split; [done|by auto]]].
    destruct (Z.le_gt_cases QPCTL (m_type x)) as [H|H]; [rewrite (Hh x H); split; [lia|done]|rewrite (H2 H); lia]. }
  assert (∀ p, list.last a = Some p → p ∈ a ++ r) as Hlast by (intros p Hp%last_elem; apply elem_of_app; by left).
  unfold insq_order, at_msg, queclass, place_ok in *. unfold QNORM in *. apply sorted_between; [done|intros p Ep|intros e Ee].
  - destruct (Hx p (Hlast p Ep)) as (H1 & H2 & H3 & H4). destruct r as [|e r'].
    + rewrite app_nil_r, Ep in Ho. unfold QPCTL in *. destruct (Z.leb_spec 128 (m_type m)) as [Hmt|Hmt]; simpl in Ho.
      * specialize (Hpl Hmt p Ep). lia.
      * rewrite (Hm2 Hmt). destruct (Z.ltb_spec (m_band p) (m_band m)); [done|]. lia.
    + rewrite Ep in Ho. unfold QPCTL in *. destruct (Z.leb_spec 128 (m_type m)) as [Hmt|Hmt]; simpl in Ho.
      * destruct (Z.ltb_spec (m_type p) 128) as [Hp|Hp]; [done|]. lia.
      * rewrite (Hm2 Hmt). destruct (Z.ltb_spec (m_type p) 128) as [Hp|Hp], (Z.ltb_spec (m_band p) (m_band m)); simpl in Ho;
          rewrite ?orb_true_r in Ho; try done; try lia.
  - apply head_Some_cons in Ee as [r' ->]. destruct (Hx e) as (H1 & H2 & H3 & H4); [apply elem_of_app; right; left|].
    unfold QPCTL in *. destruct (Z.leb_spec 128 (m_type m)) as [Hmt|Hmt]; [rewrite Hm3 by lia; lia|]. simpl in Ho.
    assert (m_type e < 128) as He by lia. rewrite (H3 He), (Hm2 Hmt). destruct (Z.ltb_spec (m_band m) (m_band e)); [done|lia].
Qed.

(** Normal messages are refused where they would be out of order, and the queue is as
    it was. *)
Theorem insq_out_of_order q a r bp avail :
  q_ok q → q_msgs q = a ++ r → 0 ≤ m_band bp ≤ 255 →
  (∀ x, x ∈ bp :: q_msgs q → m_type x < QPCTL) → ¬ StronglySorted before (a ++ bp :: r) →
  insq q (m_id <$> head r) bp avail = Ok (0, q, []).
Proof.
  intros [_ [Hd _ Hs _] _ _] E Hb Ht Hns.
  assert (∀ x, x ∈ bp :: q_msgs q → queclass x = QNORM ∧ prio x = m_band x) as Hx.
  { intros x Hx%Ht. unfold queclass, prio. by rewrite (proj2 (Z.leb_gt _ _)). }
  destruct (Hx bp ltac:(left)) as [Hc Hp]. unfold insq, force_band. rewrite Hc. simpl.
  rewrite E in *. rewrite find_head by done. cbn [mbind res_bind].
  destruct (insq_order (a ++ r) _ bp) eqn:Eo; [|done]. destruct Hns.
  assert (∀ p, list.last a = Some p → m_type p < QPCTL ∧ prio p = m_band p) as Hlast.
  { intros p Hpl%last_elem. assert (p ∈ bp :: a ++ r) as Hin by (right; apply elem_of_app; by left).
    split; [by apply Ht|by apply Hx]. }
  apply sorted_between; [done| |].
  - intros p El. destruct (Hlast p El) as [Htp ->]. rewrite Hp. unfold insq_order in Eo. rewrite Hc in Eo.
    destruct r as [|e r']; simpl in Eo; rewrite ?app_nil_r, El in Eo; [prop_bool; lia|].
    rewrite (proj2 (Z.ltb_lt _ _) Htp) in Eo. simpl in Eo. prop_bool. lia.
  - intros e Ee. apply head_Some_cons in Ee as [r' ->]. unfold insq_order in Eo. rewrite Hc in Eo. simpl in Eo.
    assert (prio e = m_band e) as -> by (apply Hx; right; apply elem_of_app; right; left).
    rewrite Hp. prop_bool. lia.
Qed.

Lemma insq_out_of_order_witness :
  let q := set_q_msgs (drop 1 (q_msgs example_q)) example_q in
  insq (set_q_count 20 q) (Some 3) (MkMsg 9 2 false M_DATA [7]) 9 = Ok (0, set_q_count 20 q, []).
Proof.
  intros q. apply (insq_out_of_order (set_q_count 20 q) (take 1 (q_msgs q)) (drop 1 (q_msgs q))
    (MkMsg 9 2 false M_DATA [7]) 9).
  - apply q_okb_ok. vm_compute. reflexivity.
  - reflexivity.
  - vm_compute. split; congruence.
  - apply list.Forall_forall. apply (bool_decide_eq_true _). vm_compute. reflexivity.
  - apply (bool_decide_eq_true _). vm_compute. reflexivity.
Defined.

(** A message of a band cannot be inserted at the end of a queue whose last message is
    of high priority, though its place is there. *)
Theorem insq_behind_high_refused q m e avail :
  m_type m < QPCTL → 0 < m_band m → list.last (q_msgs q) = Some e → QPCTL ≤ m_type e → m_band e = 0 →
  insq q None m avail = Ok (0, q, []).
Proof.
  intros Ht Hb Hl He Heb. unfold insq, force_band, insq_order, queclass.
  rewrite (proj2 (Z.leb_gt _ _) Ht). cbn -[Z.ltb list.last]. rewrite Hl, Heb.
  by rewrite (proj2 (Z.ltb_lt _ _) Hb), !(proj2 (Z.leb_gt _ _) Ht).
Qed.

Lemma insq_behind_high_refused_witness :
  let q := set_q_msgs (take 1 (q_msgs example_q)) example_q in
  insq q None (MkMsg 9 1 false M_DATA [7]) 9 = Ok (0, q, []).
Proof.
  intros q. eapply (insq_behind_high_refused q (MkMsg 9 1 false M_DATA [7]) (MkMsg 1 0 false M_PCPROTO [4]) 9);
    first [reflexivity | vm_compute; congruence].
Defined.

(** A high priority message with no message named is taken behind messages of lower
    priority: the order of the queue is lost. *)
Theorem insq_high_last q m x avail :
  q_msgs q = [x] → m_type x < QPCTL → 0 ≤ m_band x ≤ 255 → QPCTL ≤ m_type m →
  ∃ q' ev, insq q None m avail = Ok (1, q', ev) ∧ ¬ StronglySorted before (q_msgs q').
Proof.
  intros Hq Hx Hxb Hm. unfold insq, insq_order, force_band, queclass. rewrite Hq.
  rewrite (proj2 (Z.leb_le _ _) Hm). simpl.
  assert (m_band (if negb (m_band m =? 0) then set_m_band 0 m else m) = 0 ∧
    m_type (if negb (m_band m =? 0) then set_m_band 0 m else m) = m_type m) as [Eb Et].
  { destruct (Z.eqb_spec (m_band m) 0); done. }
  set (m' := if negb (m_band m =? 0) then set_m_band 0 m else m) in *.
  rewrite Eb, Et, (proj2 (Z.leb_le _ _) Hm). simpl. do 2 eexists. split; [done|].
  assert (∀ q0 : queue, q_msgs q0 = [x; m'] → ¬ StronglySorted before (q_msgs q0)) as Hns.
  { intros q0 ->. rewrite StronglySorted_cons. intros [[Hf _]%Forall_cons_iff _].
    unfold before, prio in Hf. rewrite Et, (proj2 (Z.leb_le _ _) Hm), (proj2 (Z.leb_gt _ _) Hx) in Hf. lia. }
  apply Hns. by case_if.
Qed.

Lemma insq_high_last_witness :
  let q := set_q_msgs [MkMsg 3 0 false M_DATA [10]] example_q in
  ∃ q' ev, insq q None (MkMsg 9 0 false M_PCPROTO [7]) 0 = Ok (1, q', ev) ∧ ¬ StronglySorted before (q_msgs q').
Proof.
  intros q. apply (insq_high_last q (MkMsg 9 0 false M_PCPROTO [7]) (MkMsg 3 0 false M_DATA [10]));
    first [reflexivity | vm_compute; split; congruence | vm_compute; congruence].
Defined.
