(* ===== verification/StrqGet.v ===== *)
(** * Taking messages off a queue

    [getq], [rmvq] and [qbackenable] on well-formed queues. *)

From stdpp Require Import sorting.
From S2P Require Import Prelude Strq StrqProps StrqPut.

(** ** Unlinking *)

Lemma NoDup_middle a m r : NoDup (m_id <$> a ++ m :: r) →
  NoDup (m_id <$> a ++ r) ∧ m_id m ∉ m_id <$> a ++ r.
Proof.
  rewrite <- Permutation_middle. simpl. intros [H1 H2]%list.NoDup_cons. done.
Qed.

Section unlink.
Context (n : Z) (a r : list qmsg) (m : qmsg).
Hypothesis Hs : StronglySorted before (a ++ m :: r).
Hypothesis Hl : Forall (msg_ok n) (a ++ m :: r).
Hypothesis Hd : NoDup (m_id <$> a ++ m :: r).
Hypothesis Hn : n ≤ 255.
Hypothesis Hb : 0 < m_band m.

(** The pointers [rmvq_noenab] computes. *)
Definition unlink_band (b : qband) : qband :=
  let same := λ o, match o with
                   | Some p => if m_band m =? m_band p then Some (m_id p) else None
                   | None => None
                   end in
  let b := if bool_decide (qb_first b = Some (m_id m)) then set_qb_first (same (head r)) b else b in
  if bool_decide (qb_last b = Some (m_id m)) then set_qb_last (same (list.last a)) b else b.

Lemma id_in_band x (l : list qmsg) : m_id m ∉ m_id <$> l → x ∈ l → m_id x ≠ m_id m.
Proof. intros Hid Hx E. apply Hid. rewrite <- E. by apply list_elem_of_fmap_2. Qed.

Lemma next_same :
  match head r with
  | Some p => if m_band m =? m_band p then Some (m_id p) else None
  | None => None
  end = m_id <$> head (in_band (m_band m) r).
Proof.
  destruct (next_band n a r m Hs Hl Hn Hb) as [H|[-> H]]; destruct (head r) as [p|]; try done.
  - destruct H as [-> ->]. by rewrite Z.eqb_refl.
  - rewrite Z.eqb_sym. by apply negb_true_iff in H as ->.
Qed.

Lemma prev_same :
  match list.last a with
  | Some p => if m_band m =? m_band p then Some (m_id p) else None
  | None => None
  end = m_id <$> list.last (in_band (m_band m) a).
Proof.
  destruct (prev_band n a r m Hs Hl Hn Hb) as [H|[-> H]]; destruct (list.last a) as [p|]; try done.
  - destruct H as [-> ->]. by rewrite Z.eqb_refl.
  - rewrite Z.eqb_sym. by apply negb_true_iff in H as ->.
Qed.

Lemma unlink_band_ok b : ptr_ok (a ++ m :: r) (m_band m) b →
  unlink_band b = set_ptrs (a ++ r) (m_band m) b.
Proof.
  intros [Hf Hlst]. unfold unlink_band. rewrite next_same, prev_same. unfold set_ptrs.
  destruct (NoDup_middle a m r Hd) as [_ Hid].
  rewrite in_band_app, in_band_cons, decide_True in Hf, Hlst by done. rewrite in_band_app.
  destruct b as [f l c h lo fl]. unfold set_qb_first, set_qb_last in *. simpl in *.
  assert (∀ x, x ∈ in_band (m_band m) a ++ in_band (m_band m) r → m_id x ≠ m_id m) as Hne.
  { intros x Hx. apply (id_in_band x (a ++ r) Hid). rewrite <- in_band_app in Hx. by apply elem_in_band in Hx as [_ ?]. }
  assert (∀ x, x ∈ in_band (m_band m) a ++ in_band (m_band m) r →
    bool_decide (Some (m_id x) = Some (m_id m)) = false) as Hne'.
  { intros x Hx. apply bool_decide_false. intros [=]. by apply (Hne x). }
  assert (bool_decide (Some (m_id m) = Some (m_id m)) = true) as Et by (by apply bool_decide_true).
  rewrite last_app_cons in Hlst.
  destruct (list.last (in_band (m_band m) r)) as [y|] eqn:Er.
  - apply last_Some in Er as [C Er]. rewrite Er in *. rewrite app_comm_cons, last_snoc in Hlst. subst l.
    rewrite app_assoc, last_snoc. assert (bool_decide (m_id <$> Some y = Some (m_id m)) = false) as Ey.
    { apply Hne'. apply elem_of_app. right. apply elem_of_app. right. left. }
    destruct (in_band (m_band m) a) as [|x A]; simpl in Hf; subst f.
    + rewrite Et. cbn [qb_last]. by rewrite Ey.
    + rewrite (Hne' x) by left. cbn [qb_last]. by rewrite Ey.
  - apply last_None in Er. rewrite Er in *. simpl in Hlst. subst l. rewrite app_nil_r.
    destruct (in_band (m_band m) a) as [|x A]; simpl in Hf; subst f.
    + rewrite Et. cbn [qb_last]. by rewrite Et.
    + rewrite (Hne' x) by left. cbn [qb_last]. by rewrite Et.
Qed.
End unlink.

(** The queue without a message, its band's pointers set, when the message is counted
    out. *)
Lemma count_out_removed q2 n a m r : bands_ok q2 → q_nband q2 = n → msgs_inv n (a ++ m :: r) →
  ptrs q2 (a ++ r) → counts none q2 (a ++ m :: r) →
  ∃ q', count_out (set_q_msgs (a ++ r) q2) m = Ok q' ∧ q_inv (eq (m_band m)) q' ∧
    q_msgs q' = a ++ r ∧ frame q2 q'.
Proof.
  intros Hbo <- [Hd Hl Hs Ht] Hp Hc. pose proof (Permutation_middle a r m) as Hperm. rewrite <- Hperm in Hl, Ht.
  destruct (count_out_ok (set_q_msgs (a ++ r) q2) (a ++ r) m) as (q3 & E3 & Hc3 & Em3 & Hf3 & Hp3);
    [done|exact Hl|exact Ht|by apply counts_msgs, (counts_perm _ _ (a ++ m :: r))|].
  exists q3. split; [done|]. assert (frame q2 q3) as Hf by (etrans; [apply set_msgs_frame|exact Hf3]).
  split; [|done]. split; [by apply (frame_bands q2)| | |]; rewrite Em3; simpl; [|by apply Hp3|done].
  rewrite (fr_nband _ _ Hf). apply Forall_cons_iff in Hl as [Hm Hl]. split.
  - by apply (NoDup_middle a m r).
  - done.
  - pose proof Hs as (H1 & H2 & [_ H3]%StronglySorted_cons)%StronglySorted_app. apply StronglySorted_app.
    split; [|done]. intros x y Hx Hy. apply H1; [done|by right].
  - rewrite band_total_cons in Ht. pose proof (msize_nonneg m (mo_sized _ _ Hm)). lia.
Qed.

Lemma removed_ptrs q a m r : bands_ok q → msgs_inv (q_nband q) (a ++ m :: r) → ptrs q (a ++ m :: r) →
  (m_band m = 0 → ptrs q (a ++ r)) ∧
  (∀ b, m_band m ≠ 0 → q_bandp q !! Z.to_nat (m_band m - 1) = Some b →
    ptr_ok (a ++ m :: r) (m_band m) b ∧ ptrs (put_band q (m_band m) (set_ptrs (a ++ r) (m_band m) b)) (a ++ r)).
Proof.
  intros Hbo [_ Hl _ _] Hp.
  assert (∀ i, m_band m ≠ i → in_band i (a ++ m :: r) = in_band i (a ++ r)) as Hoth.
  { intros i Hi. by rewrite !in_band_app, in_band_cons, decide_False. }
  assert (0 ≤ m_band m) as Hm.
  { rewrite list.Forall_forall in Hl. destruct (Hl m ltac:(apply elem_of_app; right; left)). lia. }
  split.
  - intros E i b Hi. unfold ptr_ok. rewrite <- Hoth by lia. by apply Hp.
  - intros b E Hb. pose proof (Hp _ _ Hb) as Hpb. rewrite Z2Nat.id, Z.sub_add in Hpb by lia. split; [done|].
    refine (put_band_forall (ptr_ok _) q _ _ b Hb _ _ _); [lia| |apply set_ptrs_ok].
    intros k b' Hk Hne. unfold ptr_ok. rewrite <- Hoth by done. by apply Hp.
Qed.

Lemma rmvq_noenab_ok q a m r : q_ok q → q_msgs q = a ++ m :: r →
  ∃ q', rmvq_noenab q (m_id m) = Ok q' ∧ q_inv (eq (m_band m)) q' ∧ q_msgs q' = a ++ r ∧ frame q q'.
Proof.
  intros [Hbo Hmi Hp Hc] E. rewrite E in *. pose proof Hmi as [Hd Hl Hs _].
  assert (msg_ok (q_nband q) m) as [Hmb _ _] by (rewrite list.Forall_forall in Hl; apply Hl, in_new).
  destruct (removed_ptrs q a m r Hbo Hmi Hp) as [Hp0 Hpb].
  unfold rmvq_noenab. rewrite E, find_msg_ok by done. cbn [mbind res_bind].
  destruct (Z.eqb_spec (m_band m) 0) as [E0|E0]; cbn [negb mbind res_bind].
  - by apply (count_out_removed q (q_nband q)); [| | |apply Hp0|].
  - destruct (get_band_ok q (m_band m)) as (b & -> & Hb); [done|lia|]. destruct (Hpb b E0 Hb) as [Hpm Hpm'].
    cbn [mbind res_bind]. fold (unlink_band a r m b). rewrite (unlink_band_ok (q_nband q)) by (done || lia || apply Hbo).
    destruct (count_out_removed (put_band q (m_band m) (set_ptrs (a ++ r) (m_band m) b)) (q_nband q) a m r)
      as (q' & Eq & Hq' & Em & Hf); try done.
    + by apply (frame_bands q); [by apply (put_band_frame _ _ b)|].
    + apply (put_band_counts _ q (a ++ m :: r) _ _ b); [done|lia|done| |done].
      destruct Hc as [_ Hc]. specialize (Hc _ _ Hb). rewrite Z2Nat.id, Z.sub_add in Hc by lia. exact Hc.
    + exists q'. split; [done|]. split; [done|]. split; [done|]. etrans; [|exact Hf]. by apply (put_band_frame _ _ b).
Qed.

(** ** Back-enabling *)

(** A writer waits for the band and the band is below its low water mark. *)
Definition back_ready (q : queue) (band : Z) : bool :=
  if band =? 0 then has_bit (q_flag q) QWANTW && ((q_count q <? q_lowat q) || (q_lowat q =? 0))
  else
    match q_bandp q !! Z.to_nat (band - 1) with
    | Some b => has_bit (qb_flag b) QB_WANTW && ((qb_count b <? qb_lowat b) || (qb_lowat b =? 0))
    | None => false
    end.

(** The synchronous writers sleeping on the stream head. *)
Definition sync_ready (q : queue) (band : Z) : bool :=
  (band =? 0) && has_bit (q_flag q) QWANTWSYNC && ((q_count q <? q_lowat q) || (q_lowat q =? 0)).

Definition back_events (q : queue) (band : Z) : list event :=
  (if sync_ready q band then [EvWakeSync] else []) ++ (if back_ready q band then [EvBack band] else []).

(** The exemption ends when the request is granted or there is no reason to. *)
Lemma cnt_served c h lo full want ex n : cnt_ok c h lo full want ex n → 0 ≤ n →
  (want = true → ¬ (c < lo ∨ lo = 0)) → cnt_ok c h lo full want False n.
Proof.
  intros (-> & Hlo & Hf) Hn Hw. split; [done|]. split; [done|]. intros Hh. destruct (Hf Hh) as [-> _].
  split; [done|]. intros E. specialize (Hw E). right. lia.
Qed.

Lemma total_in_band_pos n i l : Forall (msg_ok n) l → 0 ≤ total (in_band i l).
Proof. intros Hl. by apply (total_in_band_range n). Qed.

Lemma counts_serve q l q' (band : Z) :
  counts (eq band) q l → q_bandp q' = q_bandp q → q_count q' = q_count q → q_hiwat q' = q_hiwat q →
  q_lowat q' = q_lowat q → band = 0 →
  has_bit (q_flag q') QFULL = has_bit (q_flag q) QFULL →
  (has_bit (q_flag q') QWANTW = true → has_bit (q_flag q) QWANTW = true ∧ ¬ (q_count q < q_lowat q ∨ q_lowat q = 0)) →
  0 ≤ total (in_band 0 l) → counts none q' l.
Proof.
  intros [(Ec & Hlo & Hf) Hb] E1 E2 E3 E4 -> E5 Hw Hn. split.
  - rewrite E2, E3, E4, E5. eapply (cnt_weaken _ _ _ _ _ False); [done|].
    eapply (cnt_served _ _ _ _ _ True); [|done|intros Hw'; by apply Hw].
    split; [done|]. split; [done|]. intros Hh. destruct (Hf Hh) as [-> _]. split; [done|]. by left.
  - rewrite E1. intros i b Hi. eapply cnt_weaken; [|by apply Hb]. intros E; unfold none in *; lia.
Qed.

Lemma qbackenable_0_ok q : q_inv (eq 0) q →
  ∃ q', qbackenable q 0 = Ok (q', back_events q 0) ∧ q_ok q' ∧ q_msgs q' = q_msgs q ∧ frame q q'.
Proof.
  intros [Hbo Hmi Hp Hc]. pose proof Hmi as [_ Hl _ _]. pose proof (total_in_band_pos _ 0 _ Hl) as Hn.
  unfold qbackenable, back_events, sync_ready, back_ready. rewrite has_or. cbn [Z.eqb andb].
  assert (∀ q', q_bandp q' = q_bandp q → q_nband q' = q_nband q → q_msgs q' = q_msgs q → q_count q' = q_count q →
    q_hiwat q' = q_hiwat q → q_lowat q' = q_lowat q →
    (∀ c, Z.land (Z.lor QWANTW QWANTWSYNC) c = 0 → has_bit (q_flag q') c = has_bit (q_flag q) c) →
    (has_bit (q_flag q') QWANTW = true → has_bit (q_flag q) QWANTW = true ∧ ¬ (q_count q < q_lowat q ∨ q_lowat q = 0)) →
    q_ok q' ∧ q_msgs q' = q_msgs q ∧ frame q q') as Hgen.
  { intros q' E1 E2 E3 E4 E5 E6 Hk Hw. assert (frame q q') as Hf.
    { split; [split|done|by rewrite E1]; try done. intros c Hc'%qfull_other. apply Hk. rewrite Z.land_lor_distr_l.
      apply Z.lor_eq_0_iff. tauto. }
    split; [|done]. split; [by apply (frame_bands q)|by rewrite E2, E3| |].
    - intros i b. rewrite E1, E3. apply Hp.
    - rewrite E3. apply (counts_serve q _ q' 0); try done. by apply Hk. }
  destruct ((q_count q <? q_lowat q) || (q_lowat q =? 0)) eqn:El;
    destruct (has_bit (q_flag q) QWANTW) eqn:Ew, (has_bit (q_flag q) QWANTWSYNC) eqn:Es; simpl;
    eexists; (split; [reflexivity|]); apply Hgen; try done; simpl;
    try (intros c Hk; rewrite Z.land_lor_distr_l in Hk; apply Z.lor_eq_0_iff in Hk as [H1 H2];
         by rewrite ?has_clr_other);
    rewrite ?has_clr_same, ?(has_clr_other _ QWANTWSYNC QWANTW), ?Ew by done; try done;
    intros _; (split; [done|]); prop_bool; lia.
Qed.

Lemma qbackenable_band_ok q band : q_inv (eq band) q → 0 < band ≤ q_nband q →
  ∃ q', qbackenable q band = Ok (q', back_events q band) ∧ q_ok q' ∧ q_msgs q' = q_msgs q ∧ frame q q'.
Proof.
  intros [Hbo Hmi Hp Hc] Hr. pose proof Hmi as [_ Hl _ _]. pose proof (total_in_band_pos _ band _ Hl) as Hn.
  destruct (get_band_ok q band) as (b & Eg & Hb); [done|lia|].
  pose proof Hc as [Hq Hbs]. pose proof (Hbs _ _ Hb) as Hcb. rewrite Z2Nat.id, Z.sub_add in Hcb by lia.
  unfold qbackenable, back_events, sync_ready, back_ready. rewrite (proj2 (Z.eqb_neq band 0)) by lia. simpl.
  rewrite Eg, Hb. cbn [mbind res_bind].
  assert (∀ b', qb_first b' = qb_first b → qb_last b' = qb_last b →
    qb_hiwat b' = qb_hiwat b → qb_lowat b' = qb_lowat b → band_cnt_ok False (total (in_band band (q_msgs q))) b' →
    q_ok (put_band q band b')) as Hput.
  { intros b' E1 E2 E3 E4 Hb'. split.
    - by apply (frame_bands q); [by apply (put_band_frame _ _ b)|].
    - done.
    - by apply (put_band_ptrs q _ band b); [|lia| | |].
    - split.
      + eapply cnt_weaken; [|exact Hq]. intros E; unfold none in *; lia.
      + refine (put_band_forall (λ i b, band_cnt_ok (none i) (total (in_band i (q_msgs q))) b) q band b' b Hb _ _ _); [lia| |].
        * intros k b0 Hk Hne. eapply cnt_weaken; [|by apply Hbs]. intros E; unfold none in *; lia.
        * eapply cnt_weaken; [|exact Hb']. done. }
  assert (¬ (has_bit (qb_flag b) QB_WANTW = true ∧ (qb_count b < qb_lowat b ∨ qb_lowat b = 0)) →
    band_cnt_ok False (total (in_band band (q_msgs q))) b) as Hno.
  { intros Hno. eapply cnt_served; [exact Hcb|done|tauto]. }
  destruct (((qb_count b <? qb_lowat b) || (qb_lowat b =? 0)) && has_bit (qb_flag b) QB_WANTW) eqn:E.
  - rewrite andb_comm in E. rewrite E. eexists. split; [reflexivity|].
    split; [|split; [done|by apply (put_band_frame _ _ b)]]. apply Hput; [done|done|done|done|].
    destruct Hcb as (Ec & Hlo & Hf). split; [done|]. split; [done|]. simpl. intros Hh. destruct (Hf Hh) as [Hfull _].
    rewrite has_clr_same, has_clr_other by done. done.
  - rewrite andb_comm in E. rewrite E. exists q. split; [done|]. split; [|done].
    assert (put_band q band b = q) as <-.
    { unfold put_band, set_q_bandp, set_q_bands. rewrite list_insert_id by done. by destruct q. }
    apply Hput; [done|done|done|done|]. apply Hno. intros [Ew [Hlt|Hz]]; rewrite Ew in E; simpl in E; prop_bool; lia.
Qed.

Lemma qbackenable_ok q band : q_inv (eq band) q → 0 ≤ band ≤ q_nband q →
  ∃ q', qbackenable q band = Ok (q', back_events q band) ∧ q_ok q' ∧ q_msgs q' = q_msgs q ∧ frame q q'.
Proof.
  intros Hq Hr. destruct (decide (band = 0)) as [->|Hne].
  - by apply qbackenable_0_ok.
  - apply qbackenable_band_ok; [done|lia].
Qed.

(** ** Taking the next message *)

Lemma q_inv_weaken ex q : q_ok q → q_inv ex q.
Proof. intros [? ? ? ?]. split; try done. by apply (counts_weaken none); [intros i []|]. Qed.

Lemma set_flag_ok q f : q_ok q → has_bit f QFULL = has_bit (q_flag q) QFULL →
  has_bit f QWANTW = has_bit (q_flag q) QWANTW → q_ok (set_q_flag f q).
Proof.
  intros [? ? ? [Hq Hb]] E1 E2. split; [done|done|done|]. split; [|done]. simpl. by rewrite E1, E2.
Qed.

(** The list at the first message without [MSGNOGET]. *)
Definition next_get (l : list qmsg) : list qmsg * list qmsg := skip_while m_noget l.

Lemma skip_while_app p l : fst (skip_while p l) ++ snd (skip_while p l) = l.
Proof.
  induction l as [|m l IH]; [done|]. simpl. destruct (p m); [|done].
  destruct (skip_while p l). simpl in *. by rewrite IH.
Qed.

Lemma first_get_next l : first_get l = head (snd (next_get l)).
Proof.
  induction l as [|m l IH]; [done|]. unfold next_get in *. simpl. destruct (m_noget m); [|done].
  rewrite IH. by destruct (skip_while m_noget l).
Qed.

(** The band of the first message of the queue, when it is taken. *)
Lemma head_ptrs n m r b : StronglySorted before (m :: r) → Forall (msg_ok n) (m :: r) →
  NoDup (m_id <$> m :: r) → n ≤ 255 → 0 < m_band m → ptr_ok (m :: r) (m_band m) b →
  (if bool_decide (qb_first b = qb_last b) then set_qb_last None (set_qb_first None b)
   else set_qb_first (m_id <$> head r) b) = set_ptrs r (m_band m) b.
Proof.
  intros Hs Hl Hd Hn Hb [Hf Hlst]. pose proof (next_same n [] r m Hs Hl Hn Hb) as Hns.
  rewrite in_band_cons, decide_True in Hf, Hlst by done.
  destruct b as [f l c h lo fl]. unfold set_ptrs, set_qb_first, set_qb_last. simpl in *. subst f.
  simpl in Hd. apply list.NoDup_cons in Hd as [Hid _].
  destruct (list.last (in_band (m_band m) r)) as [y|] eqn:Er.
  - pose proof (last_in_band _ _ _ Er) as [_ Hy]. apply in_band_last in Er as [B Er].
    assert (l = Some (m_id y)) as -> by (rewrite Hlst, Er; by rewrite app_comm_cons, last_snoc).
    rewrite bool_decide_false.
    2:{ intros [=]. by apply (id_in_band m y r Hid Hy). }
    rewrite <- Hns. f_equal. destruct (head r) as [p|]; [|by rewrite Er in Hns; destruct B].
    destruct (m_band m =? m_band p) eqn:E; [done|]. rewrite Er in Hns. by destruct B.
  - apply last_None in Er. rewrite Er in *. simpl in Hlst. subst l. by rewrite bool_decide_true.
Qed.

Lemma getq_head_ok q m r : q_ok q → q_msgs q = m :: r → m_noget m = false →
  ∃ q', getq_noenab q = Ok (Some m, q') ∧ q_inv (eq (m_band m)) q' ∧ q_msgs q' = r ∧
    has_bit (q_flag q') QWANTR = false ∧ q_nband q' = q_nband q.
Proof.
  intros [Hbo Hmi Hp Hc] E Hg. unfold getq_noenab. rewrite E, Hg in *. pose proof Hmi as [Hd Hl Hs _].
  assert (msg_ok (q_nband q) m) as [Hmb _ _] by (rewrite list.Forall_forall in Hl; apply Hl; left).
  destruct (removed_ptrs q [] m r Hbo Hmi Hp) as [Hp0 Hpb].
  assert (∀ q2, bands_ok q2 → q_nband q2 = q_nband q → ptrs q2 r → counts none q2 (m :: r) →
    ∃ q', (q ← count_out (set_q_msgs r q2) m; Ok (Some m, set_q_flag (clr_bit (q_flag q) QWANTR) q)) = Ok (Some m, q') ∧
      q_inv (eq (m_band m)) q' ∧ q_msgs q' = r ∧ has_bit (q_flag q') QWANTR = false ∧ q_nband q' = q_nband q) as Hout.
  { intros q2 Hbo2 Hn2 Hp2 Hc2.
    destruct (count_out_removed q2 (q_nband q) [] m r) as (q' & Eq & [? ? ? [Hcq Hcb]] & Em & Hf); try done.
    simpl in Eq. rewrite Eq. cbn [mbind res_bind]. eexists. split; [done|].
    split; [|split; [done|split; [apply has_clr_same|simpl; by rewrite (fr_nband _ _ Hf)]]].
    split; [done|done|done|]. split; [|done]. simpl. by rewrite !has_clr_other. }
  destruct (Z.eqb_spec (m_band m) 0) as [E0|E0]; cbn [mbind res_bind].
  - by apply Hout; [| |apply Hp0|].
  - destruct (get_band_ok q (m_band m)) as (b & Eg & Hb); [done|lia|]. destruct (Hpb b E0 Hb) as [Hpm Hpm'].
    unfold get_band in *. simpl q_bandp. rewrite Eg. cbn [mbind res_bind].
    rewrite (head_ptrs (q_nband q) m r b) by (done || lia || apply Hbo).
    apply (Hout (put_band q (m_band m) (set_ptrs r (m_band m) b))); [|done|done|].
    + by apply (frame_bands q); [by apply (put_band_frame _ _ b)|].
    + apply (put_band_counts _ q (m :: r) _ _ b); [done|lia|done| |done].
      destruct Hc as [_ Hc]. specialize (Hc _ _ Hb). rewrite Z2Nat.id, Z.sub_add in Hc by lia. exact Hc.
Qed.

Definition band_of (o : option qmsg) : Z := match o with Some m => m_band m | None => 0 end.

Lemma getq_noenab_ok q : q_ok q →
  let a := fst (next_get (q_msgs q)) in
  let r := snd (next_get (q_msgs q)) in
  ∃ q', getq_noenab q = Ok (head r, q') ∧ q_inv (eq (band_of (head r))) q' ∧ q_msgs q' = a ++ tail r ∧
    q_nband q' = q_nband q ∧
    has_bit (q_flag q') QWANTR =
      match q_msgs q with [] => true | m :: _ => if m_noget m then has_bit (q_flag q) QWANTR else false end.
Proof.
  intros Hq a r. pose proof (skip_while_app m_noget (q_msgs q)) as Hsp. fold (next_get (q_msgs q)) in Hsp. fold a r in Hsp.
  destruct (q_msgs q) as [|m l] eqn:El.
  - exists (set_q_flag (set_bit (q_flag q) QWANTR) q). unfold getq_noenab. rewrite El. split; [done|].
    split; [|split; [exact El|split; [done|by apply has_set_same]]].
    apply q_inv_weaken, set_flag_ok; [done| |]; by apply has_set_other.
  - destruct (m_noget m) eqn:Em.
    + assert (first_get l = head r) as Hfg.
      { unfold r. rewrite <- first_get_next. simpl. by rewrite Em. }
      unfold getq_noenab. rewrite El, Em, Hfg. destruct r as [|x r'] eqn:Er; simpl.
      * exists q. split; [done|]. split; [by apply q_inv_weaken|]. split; [|done]. by rewrite El, Hsp.
      * destruct (rmvq_noenab_ok q a x r') as (q' & -> & Hq' & Em' & Hf); [done|by rewrite El|].
        exists q'. split; [done|]. split; [done|]. split; [done|]. split; [apply Hf|].
        by apply (fr_keeps _ _ Hf).
    + assert (a = [] ∧ r = m :: l) as [-> ->] by (unfold a, r, next_get; simpl; by rewrite Em).
      destruct (getq_head_ok q m l) as (q' & E & Hq' & Em' & Hw & Hn); [done|done|done|].
      exists q'. done.
Qed.

(** ** No lost back-enabling *)

Lemma count_out_wants q m q' k : count_out q m = Ok q' → 0 ≤ m_band m → 0 ≤ k → wants q' k = wants q k.
Proof.
  unfold count_out. intros E Hm Hk. destruct (Z.eqb_spec (m_band m) 0) as [E0|E0].
  - injection E as <-. case_if; [|done]. unfold wants. simpl. by rewrite has_clr_other.
  - apply bind_ok in E as (b & Hb%get_band_lookup & [= <-]).
    apply (wants_same _ _ b); [lia|done|done|]. case_if; [|done]. simpl. by rewrite has_clr_other.
Qed.

Lemma find_msg_split id l a m r : find_msg id l = Ok (a, m, r) → l = a ++ m :: r ∧ m_id m = id.
Proof.
  revert a. induction l as [|x l IH]; intros a E; simpl in E; [done|].
  destruct (Z.eqb_spec (m_id x) id) as [Ei|_]; [by simplify_eq|].
  apply bind_ok in E as ([[a' m'] r'] & E' & [= <- -> ->]). by destruct (IH _ E') as [-> ?].
Qed.

Lemma rmvq_noenab_wants q id q' k : rmvq_noenab q id = Ok q' → Forall (msg_ok (q_nband q)) (q_msgs q) → 0 ≤ k →
  wants q' k = wants q k.
Proof.
  unfold rmvq_noenab. intros E Hl Hk. apply bind_ok in E as ([[a m] r] & Ef & E).
  assert (0 ≤ m_band m) as Hm.
  { apply find_msg_split in Ef as [El _]. rewrite El, list.Forall_forall in Hl. destruct (Hl m ltac:(apply in_new)). lia. }
  apply bind_ok in E as (q1 & E1 & E). rewrite (count_out_wants _ _ _ _ E Hm Hk).
  destruct (Z.eqb_spec (m_band m) 0) as [E0|E0]; simpl in E1; [by injection E1 as <-|].
  apply bind_ok in E1 as (b & Hb%get_band_lookup & [= <-]).
  transitivity (wants q k); [|done].
  apply (wants_same _ _ b); [lia|done|done|]. by repeat case_if.
Qed.

Lemma getq_noenab_wants q o q' k : q_ok q → getq_noenab q = Ok (o, q') → 0 ≤ k → wants q' k = wants q k.
Proof.
  intros [_ [_ Hl _ _] _ _] E Hk. unfold getq_noenab in E. destruct (q_msgs q) as [|m r] eqn:El.
  { injection E as <- <-. unfold wants. simpl. by rewrite has_set_other. }
  destruct (m_noget m).
  - destruct (first_get r) as [x|]; [|by injection E as <- <-].
    apply bind_ok in E as (q1 & E1 & [= <- <-]). eapply rmvq_noenab_wants; [exact E1| |done]. by rewrite El.
  - assert (0 ≤ m_band m) as Hm by (apply Forall_cons_iff in Hl as [[] _]; lia).
    apply bind_ok in E as (q1 & E1 & E). apply bind_ok in E as (q2 & E2 & [= <- <-]).
    transitivity (wants q2 k); [unfold wants; simpl; by rewrite has_clr_other|].
    rewrite (count_out_wants _ _ _ _ E2 Hm Hk).
    destruct (Z.eqb_spec (m_band m) 0) as [E0|E0]; [by injection E1 as <-|].
    apply bind_ok in E1 as (b & Hb%get_band_lookup & [= <-]).
    transitivity (wants q k); [|done].
    apply (wants_same (set_q_msgs r q) _ b); [lia|done|done|]. by case_if.
Qed.

(** A request [qbackenable] clears is a writer it enables. *)
Lemma qbackenable_wants q band q' ev k : qbackenable q band = Ok (q', ev) → 0 ≤ band → 0 ≤ k →
  wants q k = true → wants q' k = true ∨ EvBack k ∈ ev.
Proof.
  unfold qbackenable. intros E Hb Hk Hw. destruct (Z.eqb_spec band 0) as [->|Hne]; simpl in E.
  - destruct (negb _); [injection E as <- <-; by left|]. case_if_in E; [|injection E as <- <-; by left].
    injection E as <- <-. unfold wants in *. simpl. destruct (Z.eqb_spec k 0) as [->|Hk0]; [|by left].
    rewrite Hw. right. apply elem_of_app. right. left.
  - apply bind_ok in E as (b & Hbk%get_band_lookup & E). case_if_in E; [|injection E as <- <-; by left].
    injection E as <- <-. rewrite (wants_put_band _ _ b) by (done || lia).
    case_decide as Ek; [|by left]. subst. right. left.
Qed.

Lemma band_of_range q a r : msgs_inv (q_nband q) (a ++ r) → bands_ok q → 0 ≤ band_of (head r) ≤ q_nband q.
Proof.
  intros [_ Hl _ _] [Hn _]. rewrite list.Forall_forall in Hl. destruct r as [|m r]; simpl; [lia|].
  by destruct (Hl m ltac:(apply elem_of_app; right; left)).
Qed.

(** A whole [getq], with the state between its two halves. *)
Lemma getq_ok q : q_ok q →
  let a := fst (next_get (q_msgs q)) in
  let r := snd (next_get (q_msgs q)) in
  ∃ q1 q', getq_noenab q = Ok (head r, q1) ∧ getq q = Ok (head r, q', back_events q1 (band_of (head r))) ∧
    q_ok q' ∧ q_msgs q' = a ++ tail r ∧
    has_bit (q_flag q') QWANTR =
      match q_msgs q with [] => true | m :: _ => if m_noget m then has_bit (q_flag q) QWANTR else false end.
Proof.
  intros Hq a r. destruct (getq_noenab_ok q Hq) as (q1 & E1 & Hq1 & Em1 & Hn1 & Hw1). fold a r in E1, Hq1, Em1.
  exists q1. destruct (qbackenable_ok q1 (band_of (head r)) Hq1) as (q' & E' & Hq' & Em' & Hf).
  { rewrite Hn1. apply (band_of_range q a r); [|apply Hq].
    unfold a, r, next_get. rewrite skip_while_app. apply Hq. }
  exists q'. split; [done|]. split; [|split; [done|split; [by rewrite Em'|]]].
  - unfold getq. rewrite E1. cbn [mbind res_bind]. fold (band_of (head r)). by rewrite E'.
  - rewrite <- Hw1. by apply (fr_keeps _ _ Hf).
Qed.

(** C12: [getq] takes the first message that is not marked [MSGNOGET]: without such marks
    the oldest message of the highest rank.  The others stay in order and the queue
    well formed.  [QWANTR], the request for the next [putq] to enable the service
    procedure, is set when the queue was empty and cleared when its first message is
    taken, and not touched when that is passed over. *)
Theorem getq_takes_first q : q_ok q →
  let a := fst (next_get (q_msgs q)) in
  let r := snd (next_get (q_msgs q)) in
  (∀ m, m ∈ a → m_noget m = true) ∧ (∀ m, head r = Some m → m_noget m = false) ∧ q_msgs q = a ++ r ∧
  ∃ q' ev, getq q = Ok (head r, q', ev) ∧ q_ok q' ∧ q_msgs q' = a ++ tail r ∧
    (∀ m x, head r = Some m → a = [] → x ∈ q_msgs q' → prio x ≤ prio m) ∧
    has_bit (q_flag q') QWANTR =
      match q_msgs q with [] => true | m :: _ => if m_noget m then has_bit (q_flag q) QWANTR else false end.
Proof.
  intros Hq a r. pose proof (skip_while_app m_noget (q_msgs q)) as Hsp. fold (next_get (q_msgs q)) in Hsp. fold a r in Hsp.
  split; [|split; [|split; [done|]]].
  - unfold a, next_get. clear. induction (q_msgs q) as [|y l IH]; simpl; [by intros m ?%elem_of_nil|].
    destruct (m_noget y) eqn:E; [|by intros m ?%elem_of_nil]. destruct (skip_while m_noget l). simpl.
    intros m [->|Hm]%elem_of_cons; [done|by apply IH].
  - unfold r, next_get. clear. induction (q_msgs q) as [|y l IH]; simpl; [done|].
    destruct (m_noget y) eqn:E; [|by intros m [= <-]]. by destruct (skip_while m_noget l).
  - destruct (getq_ok q Hq) as (q1 & q' & _ & E & Hq' & Em & Hw). fold a r in E, Em.
    exists q', (back_events q1 (band_of (head r))). split; [done|]. split; [done|]. split; [done|]. split; [|done].
    intros m x Hm Ha Hx. apply head_Some_cons in Hm as [r' Er]. rewrite Em, Ha, Er in Hx. simpl in Hx.
    pose proof (mi_sorted _ _ (qi_msgs _ _ Hq)) as Hs. rewrite <- Hsp, Ha, Er in Hs. simpl in Hs.
    apply StronglySorted_cons in Hs as [Hs _]. rewrite list.Forall_forall in Hs. by apply Hs.
Qed.

Lemma getq_takes_first_witness :
  ∃ q' ev, getq example_q = Ok (Some (MkMsg 1 0 false M_PCPROTO [4]), q', ev) ∧ q_ok q' ∧
    m_id <$> q_msgs q' = [2; 3; 4] ∧ has_bit (q_flag q') QWANTR = false.
Proof.
  destruct (getq_takes_first example_q example_q_ok) as (_ & _ & _ & q' & ev & E & Hq & Em & _ & Hw).
  exists q', ev. split; [exact E|]. split; [done|]. rewrite Em, Hw. done.
Defined.

(** No back-enabling is lost: a writer waiting for room in a band still waits after
    [getq], or it was enabled.  And a writer never waits on a band that is empty (with
    a high water mark above 0): so when the last message of the band is taken, it is
    enabled. *)
Theorem getq_backenables q o q' ev band :
  q_ok q → getq q = Ok (o, q', ev) → 0 ≤ band ≤ q_nband q → wants q band = true →
  (wants q' band = true ∨ EvBack band ∈ ev) ∧
  (wants q' band = true → 0 < hiwat_of q' band → in_band band (q_msgs q') ≠ []).
Proof.
  intros Hq E Hb Hw. destruct (getq_ok q Hq) as (q1 & q2 & E1 & E2 & Hq2 & _).
  rewrite E2 in E. injection E as <- <- <-. split.
  - unfold getq in E2. rewrite E1 in E2. cbn [mbind res_bind] in E2.
    apply bind_ok in E2 as ([q3 ev3] & E3 & [= -> ->]). eapply qbackenable_wants; [exact E3| |lia|].
    + destruct (band_of_range q (fst (next_get (q_msgs q))) (snd (next_get (q_msgs q)))) as [H _]; [|apply Hq|exact H].
      unfold next_get. rewrite skip_while_app. apply Hq.
    + by rewrite (getq_noenab_wants q _ q1 band Hq E1) by lia.
  - intros Hw' Hh Hnil. pose proof (waits_nonempty _ q2 band Hq2 ltac:(lia) (λ H, H) Hw' Hh) as Hpos.
    rewrite Hnil in Hpos. done.
Qed.

Lemma getq_backenables_witness :
  let q := set_q_msgs (drop 1 (q_msgs example_q)) (set_q_count 20 example_q) in
  ∃ o q' ev, getq q = Ok (o, q', ev) ∧ wants q 1 = true ∧ (wants q' 1 = true ∨ EvBack 1 ∈ ev).
Proof.
  intros q. do 3 eexists. split; [reflexivity|]. split; [reflexivity|].
  eapply (getq_backenables q); [|reflexivity|vm_compute; split; congruence|reflexivity].
  apply q_okb_ok. vm_compute. reflexivity.
Defined.

(** The messages freed by a sequence of events. *)
Definition frees (ev : list event) : list qmsg :=
  omap (λ e, match e with EvFree m => Some m | _ => None end) ev.

Lemma frees_back q band : frees (back_events q band) = [].
Proof. unfold back_events. by repeat case_if. Qed.

Lemma rmvq_ok q a m r : q_ok q → q_msgs q = a ++ m :: r →
  ∃ q' ev, rmvq q (m_id m) = Ok (q', ev) ∧ q_ok q' ∧ q_msgs q' = a ++ r ∧ frame q q' ∧ frees ev = [] ∧
    ∀ band, 0 ≤ band → wants q band = true → wants q' band = true ∨ EvBack band ∈ ev.
Proof.
  intros Hq E. destruct (rmvq_noenab_ok q a m r Hq E) as (q1 & E1 & Hq1 & Em1 & Hf1).
  pose proof (qi_msgs _ _ Hq) as Hmi. rewrite E in Hmi.
  pose proof (band_of_range q a (m :: r) Hmi ltac:(apply Hq)) as Hb. simpl in Hb.
  destruct (qbackenable_ok q1 (m_band m) Hq1) as (q' & E' & Hq' & Em' & Hf'); [by rewrite (fr_nband _ _ Hf1)|].
  exists q', (back_events q1 (m_band m)).
  split; [|split; [done|split; [by rewrite Em'|split; [by trans q1|split; [apply frees_back|]]]]].
  - unfold rmvq. rewrite E, find_msg_ok by apply Hmi. cbn [mbind res_bind]. by rewrite E1.
  - intros band Hband Hw. eapply qbackenable_wants; [exact E'|lia|done|].
    rewrite (rmvq_noenab_wants q (m_id m)); [done|done|apply Hq|done].
Qed.

(** [rmvq] of a message on the queue removes it and nothing else, keeps the invariant,
    and back-enables as [getq] does. *)
Theorem rmvq_removes q a m r : q_ok q → q_msgs q = a ++ m :: r →
  ∃ q' ev, rmvq q (m_id m) = Ok (q', ev) ∧ q_ok q' ∧ q_msgs q' = a ++ r ∧ frame q q' ∧ frees ev = [] ∧
    ∀ band, 0 ≤ band → wants q band = true → wants q' band = true ∨ EvBack band ∈ ev.
Proof. apply rmvq_ok. Qed.

Lemma rmvq_removes_witness :
  ∃ q' ev, rmvq example_q 3 = Ok (q', ev) ∧ q_ok q' ∧ m_id <$> q_msgs q' = [1; 2; 4].
Proof.
  destruct (rmvq_removes example_q (take 2 (q_msgs example_q)) (MkMsg 3 0 false M_DATA [10]) (drop 3 (q_msgs example_q)))
    as (q' & ev & E & Hq & Em & _); [apply example_q_ok|reflexivity|].
  exists q', ev. split; [exact E|]. split; [done|]. by rewrite Em.
Defined.
