(* ===== verification/StrqFlush.v ===== *)
(** * Flushing queues

    [flushq] and [flushband]: which messages are freed, what stays on the queue and
    in which order, and who is back-enabled. *)

From stdpp Require Import sorting.
From S2P Require Import Prelude Strq StrqProps StrqPut StrqGet.

(** ** Emptying and refilling *)

(** Every band may have a waiting writer. *)
Definition any : Z → Prop := λ _, True.

Lemma empty_queue_ok q : q_ok q →
  q_inv any (empty_queue q) ∧ frame q (empty_queue q) ∧ ∀ k, 0 ≤ k → wants (empty_queue q) k = wants q k.
Proof.
  intros [Hbo [_ _ _ _] _ [(_ & Hlo & _) Hcb]].
  assert (frame q (empty_queue q)) as Hf.
  { split; simpl; [split; try done|done|].
    - intros c Hc%qfull_other. simpl. rewrite has_clr_other; tauto.
    - change (map empty_band (q_bandp q)) with (empty_band <$> q_bandp q). by rewrite <- list_fmap_compose. }
  split; [|split; [done|]].
  - split; [by apply (frame_bands q)|split; simpl; [constructor|constructor|constructor|done]| |].
    + intros i b Hi. simpl in Hi. apply list_lookup_fmap_Some in Hi as (b0 & -> & Hi). done.
    + split; simpl.
      * split; [done|]. split; [done|]. rewrite has_clr_same. intros Hh. split; [|by left].
        symmetry. apply Z.leb_gt. done.
      * intros i b Hi. apply list_lookup_fmap_Some in Hi as (b0 & -> & Hi). destruct (Hcb i b0 Hi) as (_ & Hlob & _).
        split; [done|]. split; [done|]. simpl. rewrite has_clr_same. intros Hh. split; [|by left].
        symmetry. apply Z.leb_gt. done.
  - intros k Hk. unfold wants. simpl. rewrite has_clr_other by done. destruct (k =? 0); [done|].
    change (map empty_band (q_bandp q)) with (empty_band <$> q_bandp q). rewrite list_lookup_fmap.
    destruct (q_bandp q !! Z.to_nat (k - 1)) as [b|]; simpl; [|done]. by rewrite has_clr_other.
Qed.

(** The service procedure is enabled by [putq] for this message. *)
Definition putq_enables (q : queue) (m : qmsg) : bool :=
  (QPCTL <=? m_type m) || (negb (has_bit (q_flag q) QNOENB) && (has_bit (q_flag q) QWANTR || negb (m_band m =? 0))).

Lemma putq_enables_keeps q q' m : keeps q q' → putq_enables q' m = putq_enables q m.
Proof. intros Hk. unfold putq_enables. by rewrite !(kp_flag _ _ Hk). Qed.

(** A message of no higher rank goes to the end. *)
Lemma putq_behind ex q m l avail : q_inv ex q → msgs_inv (q_nband q) (q_msgs q ++ m :: l) →
  ∃ q', putq q m avail = Ok (1, q', if putq_enables q m then [EvEnable] else []) ∧ q_inv ex q' ∧
    q_msgs q' = q_msgs q ++ [m] ∧ frame q q' ∧ ∀ k, 0 ≤ k → wants q' k = wants q k.
Proof.
  intros Hq [Hd Hl Hs Ht]. pose proof Hl as [Hl1 [Hm Hl2]%Forall_cons_iff]%Forall_app.
  destruct (NoDup_middle (q_msgs q) m l Hd) as [_ Hid]. pose proof (qi_bands _ _ Hq) as [Hn1 Hn2].
  assert (force_band m = m) as Efb.
  { unfold force_band, queclass. destruct (QPCTL <=? m_type m) eqn:E; [|done]. prop_bool. by rewrite (mo_class _ _ Hm). }
  destruct (put_with_ok putq_place put_last
    (λ q bp, (QNORM <? queclass bp) || (canenable q && (has_bit (q_flag q) QWANTR || negb (m_band bp =? 0))))
    putq_place_0 putq_place_band put_last_split put_last_sorted putq_enab
    ex q m avail) as (q' & E & Hq' & Em & _ & Hf); try done.
  - destruct Hm. lia.
  - apply Hm.
  - rewrite fmap_app in Hid. intros Hin. apply Hid, elem_of_app. by left.
  - rewrite total_app, band_total_cons in Ht.
    assert (0 ≤ total l) by (apply band_total_nonneg; eapply msgs_sized; exact Hl2). lia.
  - rewrite Efb in *. assert (band_avail q (m_band m) avail = true) as Ha.
    { unfold band_avail. apply Z.leb_le. destruct Hm. lia. }
    rewrite Ha in *. simpl in *. exists q'. split; [|split; [done|split; [|by apply Hf; destruct Hm; lia]]].
    + unfold putq. rewrite E. unfold putq_enables, queclass, canenable. by destruct (QPCTL <=? m_type m).
    + rewrite Em. unfold put_last.
      destruct (above_all (prio m) (q_msgs q)) as [-> ->]; [|done].
      intros x Hx. by apply (StronglySorted_app_1_elem_of _ _ _ x m Hs Hx ltac:(left)).
Qed.

(** What happens to the messages of a flushed queue, in order. *)
Definition flush_events (free : qmsg → bool) (q : queue) (l : list qmsg) : list event :=
  flat_map (λ m, if free m then [EvFree m] else if putq_enables q m then [EvEnable] else []) l.

Definition kept (free : qmsg → bool) (l : list qmsg) : list qmsg := filter (λ m, free m = false) l.

Lemma msgs_inv_drop n a m l : msgs_inv n (a ++ m :: l) → msgs_inv n (a ++ l).
Proof.
  intros [Hd Hl Hs Ht]. pose proof (Permutation_middle a l m) as Hp. rewrite <- Hp in Hl, Ht.
  apply Forall_cons_iff in Hl as [Hm Hl]. split; [by apply (NoDup_middle a m l)|done| |].
  - pose proof Hs as (H1 & H2 & [_ H3]%StronglySorted_cons)%StronglySorted_app. apply StronglySorted_app.
    split; [|done]. intros x y Hx Hy. apply H1; [done|by right].
  - rewrite band_total_cons in Ht. pose proof (msize_nonneg m (mo_sized _ _ Hm)). lia.
Qed.

Lemma flush_msgs_ok free avail ex l q : q_inv ex q → msgs_inv (q_nband q) (q_msgs q ++ l) →
  ∃ q', flush_msgs free avail q l = Ok (q', flush_events free q l) ∧ q_inv ex q' ∧
    q_msgs q' = q_msgs q ++ kept free l ∧ frame q q' ∧ ∀ k, 0 ≤ k → wants q' k = wants q k.
Proof.
  revert q. induction l as [|m l IH]; intros q Hq Hl; simpl.
  { exists q. rewrite app_nil_r. done. }
  unfold kept. rewrite filter_cons. destruct (free m) eqn:Ef.
  - destruct (IH q Hq) as (q' & -> & H); [by eapply msgs_inv_drop|].
    rewrite decide_False by done. by exists q'.
  - rewrite decide_True by done. destruct (putq_behind ex q m l avail Hq Hl) as (q1 & -> & Hq1 & Em1 & Hf1 & Hw1).
    cbn [mbind res_bind]. destruct (IH q1 Hq1) as (q' & -> & Hq' & Em & Hf & Hw).
    { rewrite Em1, (fr_nband _ _ Hf1), <- app_assoc. exact Hl. }
    cbn [mbind res_bind]. exists q'. split; [|split; [done|split; [|split; [by trans q1|]]]].
    + f_equal. f_equal. f_equal. unfold flush_events. apply flat_map_ext. intros x.
      by rewrite (putq_enables_keeps q q1) by apply Hf1.
    + by rewrite Em, Em1, <- app_assoc.
    + intros k Hk. by rewrite Hw, Hw1.
Qed.

Lemma refill_ok free avail q : q_ok q →
  ∃ q', flush_msgs free avail (empty_queue q) (q_msgs q) = Ok (q', flush_events free q (q_msgs q)) ∧
    q_inv any q' ∧ q_msgs q' = kept free (q_msgs q) ∧ frame q q' ∧ ∀ k, 0 ≤ k → wants q' k = wants q k.
Proof.
  intros Hq. destruct (empty_queue_ok q Hq) as (He & Hf & Hw).
  destruct (flush_msgs_ok free avail any (q_msgs q) (empty_queue q) He) as (q' & E & Hq' & Em & Hf' & Hw').
  { rewrite (fr_nband _ _ Hf). apply Hq. }
  exists q'. split; [|split; [done|split; [done|split; [by trans (empty_queue q)|]]]].
  - rewrite E. f_equal. f_equal. unfold flush_events. apply flat_map_ext. intros x.
    by rewrite (putq_enables_keeps q (empty_queue q)) by apply Hf.
  - intros k Hk. by rewrite Hw', Hw.
Qed.

(** ** Serving the writers *)

Definition band_ready (b : qband) : bool :=
  has_bit (qb_flag b) QB_WANTW && ((qb_count b <? qb_lowat b) || (qb_lowat b =? 0)).

Definition served (b : qband) : qband :=
  if band_ready b then set_qb_flag (clr_bit (qb_flag b) QB_WANTW) b else b.

Lemma flush_wants_bands pri bs : fst (flush_wants pri bs) = served <$> bs.
Proof.
  revert pri. induction bs as [|b bs IH]; intros pri; [done|]. rewrite fmap_cons, <- (IH (pri + 1)). simpl.
  destruct (flush_wants (pri + 1) bs) as [bs' qbf]. unfold served, band_ready. by case_if.
Qed.

Lemma flush_wants_list pri bs k :
  k ∈ snd (flush_wants pri bs) ↔ ∃ i b, bs !! i = Some b ∧ band_ready b = true ∧ k = pri + Z.of_nat i.
Proof.
  revert pri. induction bs as [|b bs IH]; intros pri; simpl.
  { split; [by intros ?%elem_of_nil|]. by intros (i & b & ? & _). }
  specialize (IH (pri + 1)). destruct (flush_wants (pri + 1) bs) as [bs' qbf]. simpl in IH. fold (band_ready b).
  assert (k ∈ qbf ↔ ∃ i b0, (b :: bs) !! S i = Some b0 ∧ band_ready b0 = true ∧ k = pri + Z.of_nat (S i)) as IH'.
  { rewrite IH. split; intros (i & b0 & Hi & Hb & Hk); exists i, b0; (split; [done|]); (split; [done|]); lia. }
  transitivity ((band_ready b = true ∧ k = pri) ∨ k ∈ qbf).
  - destruct (band_ready b); simpl; rewrite ?elem_of_cons; intuition congruence.
  - rewrite IH'. split.
    + intros [[Hb ->]|(i & b0 & Hi & Hb & Hk)]; [exists O, b|by exists (S i), b0].
      split; [done|]. split; [done|]. lia.
    + intros ([|i] & b0 & Hi & Hb & Hk); [left|right; by exists i, b0].
      simplify_eq/=. split; [done|]. lia.
Qed.

Lemma served_ok ex n b : band_cnt_ok ex n b → 0 ≤ n → band_cnt_ok False n (served b).
Proof.
  intros Hb Hn. unfold served. destruct (band_ready b) eqn:E.
  - destruct Hb as (Ec & Hlo & Hf). split; [done|]. split; [done|]. simpl. intros Hh. destruct (Hf Hh) as [Hfull _].
    rewrite has_clr_same, has_clr_other by done. done.
  - eapply cnt_served; [exact Hb|done|]. intros Ew [Hlt|Hz]; unfold band_ready in E; rewrite Ew in E; simpl in E; prop_bool; lia.
Qed.

Lemma served_marks b : qb_hiwat (served b) = qb_hiwat b ∧ qb_lowat (served b) = qb_lowat b ∧
  qb_first (served b) = qb_first b ∧ qb_last (served b) = qb_last b.
Proof. unfold served. by case_if. Qed.

(** The queue after the flags of the served bands, and of band 0, are cleared. *)
Definition flush_served (q : queue) : queue :=
  let q := set_q_bandp (served <$> q_bandp q) q in
  if has_bit (q_flag q) QWANTW && ((q_lowat q =? 0) || (q_count q <? q_lowat q))
  then set_q_flag (clr_bit (q_flag q) QWANTW) q else q.

Lemma back_ready_0 q : back_ready q 0 = has_bit (q_flag q) QWANTW && ((q_lowat q =? 0) || (q_count q <? q_lowat q)).
Proof. unfold back_ready. simpl. by rewrite (orb_comm (q_lowat q =? 0)). Qed.

Lemma flush_served_fields q : q_msgs (flush_served q) = q_msgs q ∧ q_bandp (flush_served q) = served <$> q_bandp q ∧
  q_nband (flush_served q) = q_nband q ∧ q_count (flush_served q) = q_count q ∧
  q_flag (flush_served q) = (if back_ready q 0 then clr_bit (q_flag q) QWANTW else q_flag q) ∧
  q_hiwat (flush_served q) = q_hiwat q ∧ q_lowat (flush_served q) = q_lowat q.
Proof. unfold flush_served. rewrite back_ready_0. simpl. by case_if. Qed.

Lemma flush_served_ok q : q_inv any q → q_ok (flush_served q) ∧ frame q (flush_served q).
Proof.
  intros [Hbo Hmi Hp [Hcq Hcb]]. pose proof Hmi as [_ Hl _ _].
  destruct (flush_served_fields q) as (E1 & E2 & E3 & E4 & E5 & E6 & E7).
  assert (frame q (flush_served q)) as Hf.
  { split; [split|done|]; [done|done| |].
    - rewrite E5. intros c Hc%qfull_other. case_if; [|done]. apply has_clr_other. tauto.
    - rewrite E2, <- list_fmap_compose. apply list_fmap_ext. intros i b _. simpl.
      by destruct (served_marks b) as (-> & -> & _). }
  split; [|done]. split; [by apply (frame_bands q)|by rewrite E1, E3| |]; rewrite E1.
  - intros i b. rewrite E2. intros (b0 & -> & Hi)%list_lookup_fmap_Some. unfold ptr_ok.
    destruct (served_marks b0) as (_ & _ & -> & ->). by apply Hp.
  - split.
    + rewrite E4, E5, E6, E7. destruct Hcq as (Ec & Hlo & Hf0). split; [done|]. split; [done|].
      intros Hh. destruct (Hf0 Hh) as [Hfull _]. rewrite back_ready_0.
      pose proof (total_in_band_pos _ 0 _ Hl) as Hn.
      destruct (has_bit (q_flag q) QWANTW) eqn:Ew; simpl.
      * destruct ((q_lowat q =? 0) || (q_count q <? q_lowat q)) eqn:El.
        -- rewrite has_clr_same, has_clr_other by done. done.
        -- split; [done|]. intros _. right. prop_bool. lia.
      * by rewrite Ew.
    + intros i b. rewrite E2. intros (b0 & -> & Hi)%list_lookup_fmap_Some.
      apply (served_ok _ _ _ (Hcb i b0 Hi)). by apply (total_in_band_pos (q_nband q)).
Qed.

(** ** Theorems *)

(** A band's request and its service. *)
Lemma wants_served q band : 0 ≤ band → wants (flush_served q) band = wants q band && negb (back_ready q band).
Proof.
  intros Hb. destruct (flush_served_fields q) as (_ & E2 & _ & _ & E5 & _). unfold wants. rewrite E2, E5.
  destruct (Z.eqb_spec band 0) as [->|Hne].
  - unfold back_ready. simpl. destruct (has_bit (q_flag q) QWANTW) eqn:Ew; simpl; [|by rewrite Ew].
    case_if; [by rewrite has_clr_same|by rewrite Ew].
  - rewrite list_lookup_fmap. unfold back_ready. rewrite (proj2 (Z.eqb_neq band 0)) by done.
    destruct (q_bandp q !! Z.to_nat (band - 1)) as [b|]; simpl; [|done]. unfold served, band_ready.
    destruct (has_bit (qb_flag b) QB_WANTW) eqn:Ew; simpl; [|by rewrite Ew].
    case_if; simpl; [by rewrite has_clr_same|by rewrite Ew].
Qed.

Lemma elem_of_rev {A} (x : A) l : x ∈ rev l ↔ x ∈ l.
Proof. by rewrite !list_elem_of_In, <- in_rev. Qed.

Lemma back_list q band : 0 ≤ band →
  (band ∈ rev (snd (flush_wants 1 (q_bandp q))) ++ (if back_ready q 0 then [0] else []) ↔ back_ready q band = true).
Proof.
  intros Hb. rewrite elem_of_app, elem_of_rev, flush_wants_list.
  assert ((∃ i b, q_bandp q !! i = Some b ∧ band_ready b = true ∧ band = 1 + Z.of_nat i) ↔ band ≠ 0 ∧ back_ready q band = true) as ->.
  { unfold back_ready. split.
    - intros (i & b & Hi & Hr & ->). rewrite (proj2 (Z.eqb_neq _ _)) by lia.
      replace (Z.to_nat (1 + Z.of_nat i - 1)) with i by lia. rewrite Hi. split; [lia|done].
    - intros [Hne Hr]. rewrite (proj2 (Z.eqb_neq _ _)) in Hr by done.
      destruct (q_bandp q !! Z.to_nat (band - 1)) as [b|] eqn:Eb; [|done].
      exists (Z.to_nat (band - 1)), b. split; [done|]. split; [done|lia]. }
  destruct (decide (band = 0)) as [->|Hne].
  - destruct (back_ready q 0); [|rewrite elem_of_nil; intuition congruence].
    rewrite list_elem_of_singleton. tauto.
  - destruct (back_ready q 0); rewrite ?list_elem_of_singleton, ?elem_of_nil; tauto.
Qed.

Definition flushes (flag : bool) (m : qmsg) : bool := flag || datamsg (m_type m).

Lemma flushq_ok q flag avail : q_ok q → q_msgs q ≠ [] →
  ∃ q1, q_inv any q1 ∧ q_msgs q1 = kept (flushes flag) (q_msgs q) ∧ frame q q1 ∧ (∀ k, 0 ≤ k → wants q1 k = wants q k) ∧
    flushq q flag avail = Ok (flush_served q1, flush_events (flushes flag) q (q_msgs q) ++
      map EvBack (rev (snd (flush_wants 1 (q_bandp q1))) ++ (if back_ready q1 0 then [0] else []))).
Proof.
  intros Hq Hne. destruct (refill_ok (flushes flag) avail q Hq) as (q1 & E & Hq1 & Em & Hf & Hw).
  exists q1. split; [done|]. split; [done|]. split; [done|]. split; [done|].
  unfold flushq. destruct (q_msgs q) as [|m0 l0] eqn:El; [done|].
  change (λ mp, flag || datamsg (m_type mp)) with (flushes flag). rewrite E. cbn [mbind res_bind].
  pose proof (flush_wants_bands 1 (q_bandp q1)) as Hfw. destruct (flush_wants 1 (q_bandp q1)) as [bs qbf]. simpl in Hfw.
  subst bs. f_equal. f_equal. f_equal. rewrite map_app. f_equal. rewrite back_ready_0. simpl. by case_if.
Qed.

(** C38: [flushq] frees every message, or with a zero flag the data messages, each once and
    in the order of the queue; the others stay on the queue in their order, and it is
    well formed.  The bands enabled are those a writer waited for and no longer does,
    after all messages have been freed; a writer that still waits has messages of its
    band ahead of it. *)
Theorem flushq_spec q flag avail : q_ok q →
  ∃ q' bs, flushq q flag avail = Ok (q', flush_events (flushes flag) q (q_msgs q) ++ map EvBack bs) ∧
    q_ok q' ∧ q_msgs q' = kept (flushes flag) (q_msgs q) ∧ frame q q' ∧
    (∀ band, 0 ≤ band → band ∈ bs ↔ wants q band = true ∧ wants q' band = false).
Proof.
  intros Hq. destruct (decide (q_msgs q = [])) as [E|Hne].
  - exists q, []. unfold flushq. rewrite E. split; [done|]. split; [done|]. split; [done|]. split; [done|].
    intros band _. split; [by intros ?%elem_of_nil|]. intros [H1 H2]. congruence.
  - destruct (flushq_ok q flag avail Hq Hne) as (q1 & Hq1 & Em & Hf & Hw & E).
    destruct (flush_served_ok q1 Hq1) as [Hs Hfs]. destruct (flush_served_fields q1) as (Ems & _).
    do 2 eexists. split; [exact E|]. split; [done|]. split; [by rewrite Ems|]. split; [by trans q1|].
    intros band Hb. rewrite back_list, wants_served, Hw by done.
    assert (back_ready q1 band = true → wants q band = true) as Hbw.
    { rewrite <- (Hw band Hb). unfold back_ready, wants. destruct (band =? 0); [by intros [??]%andb_true_iff|].
      destruct (q_bandp q1 !! _); [by intros [??]%andb_true_iff|done]. }
    destruct (wants q band), (back_ready q1 band); simpl; intuition congruence.
Qed.

Lemma flushq_spec_witness :
  ∃ q' bs, flushq example_q false 0 = Ok (q', [EvFree (MkMsg 1 0 false M_PCPROTO [4]); EvFree (MkMsg 2 1 false M_DATA [30; 20]);
      EvFree (MkMsg 3 0 false M_DATA [10]); EvFree (MkMsg 4 0 true M_PROTO [8; 2])] ++ map EvBack bs) ∧
    q_ok q' ∧ q_msgs q' = [] ∧ 1 ∈ bs.
Proof.
  destruct (flushq_spec example_q false 0 example_q_ok) as (q' & bs & E & Hq & Em & _ & Hb).
  exists q', bs. split; [exact E|]. split; [done|]. split; [exact Em|].
  apply Hb; [done|]. split; [reflexivity|]. vm_compute in E. injection E as <- _. reflexivity.
Defined.

(** ** Flushing one band *)

Definition hit (pri : Z) (flag : bool) (m : qmsg) : bool := (m_band m =? pri) && flushes flag m.

Definition freed (free : qmsg → bool) (l : list qmsg) : list qmsg := filter (λ m, free m = true) l.

Lemma frees_app e1 e2 : frees (e1 ++ e2) = frees e1 ++ frees e2.
Proof. apply omap_app. Qed.

Lemma frees_flush free q l : frees (flush_events free q l) = freed free l.
Proof.
  unfold freed. induction l as [|m l IH]; [done|]. simpl. rewrite frees_app, IH, filter_cons.
  destruct (free m); simpl; [done|]. by case_if.
Qed.

Lemma kept_app free a b : kept free (a ++ b) = kept free a ++ kept free b.
Proof. apply list.filter_app. Qed.

Lemma freed_app free a b : freed free (a ++ b) = freed free a ++ freed free b.
Proof. apply list.filter_app. Qed.

Lemma kept_cons free m l : kept free (m :: l) = if free m then kept free l else m :: kept free l.
Proof. unfold kept. rewrite filter_cons. by destruct (free m). Qed.

Lemma freed_cons free m l : freed free (m :: l) = if free m then m :: freed free l else freed free l.
Proof. unfold freed. rewrite filter_cons. by destruct (free m). Qed.

(** The messages of another band are not hit. *)
Lemma kept_other pri flag l : (∀ m, m ∈ l → m_band m ≠ pri) → kept (hit pri flag) l = l ∧ freed (hit pri flag) l = [].
Proof.
  intros H. assert (∀ m, m ∈ l → hit pri flag m = false) as Hf.
  { intros m Hm%H. unfold hit. by rewrite (proj2 (Z.eqb_neq _ _)). }
  split; [by apply filter_all|]. apply filter_none. intros m Hm%Hf. congruence.
Qed.

Definition waits_or_back (q q' : queue) (ev : list event) : Prop :=
  ∀ band, 0 ≤ band → wants q band = true → wants q' band = true ∨ EvBack band ∈ ev.

Lemma waits_or_back_trans q1 q2 q3 e1 e2 :
  waits_or_back q1 q2 e1 → waits_or_back q2 q3 e2 → waits_or_back q1 q3 (e1 ++ e2).
Proof.
  intros H1 H2 band Hb Hw. destruct (H1 band Hb Hw) as [Hw2|Hin].
  - destruct (H2 band Hb Hw2); [by left|right; apply elem_of_app; by right].
  - right. apply elem_of_app. by left.
Qed.

(** One round of the loop: the message is removed and freed, or stays. *)
Lemma flushband_step q a m r pri flag : q_ok q → q_msgs q = a ++ m :: r →
  ∃ q' ev, (if (m_band m =? pri) && (flag || datamsg (m_type m)) then '(q, ev) ← rmvq q (m_id m); Ok (q, ev ++ [EvFree m])
            else Ok (q, [])) = Ok (q', ev) ∧
    q_ok q' ∧ q_msgs q' = (if hit pri flag m then a ++ r else a ++ m :: r) ∧ frame q q' ∧
    frees ev = (if hit pri flag m then [m] else []) ∧ waits_or_back q q' ev.
Proof.
  intros Hq E. fold (flushes flag m). fold (hit pri flag m). destruct (hit pri flag m).
  - destruct (rmvq_ok q a m r Hq E) as (q' & ev & -> & Hq' & Em & Hf & Hfr & Hw). cbn [mbind res_bind].
    exists q', (ev ++ [EvFree m]). split; [done|]. split; [done|]. split; [done|]. split; [done|].
    rewrite frees_app, Hfr. split; [done|]. intros band Hb Hwb. destruct (Hw band Hb Hwb); [by left|].
    right. apply elem_of_app. by left.
  - exists q, []. split; [done|]. split; [done|]. split; [done|]. split; [done|]. split; [done|]. by left.
Qed.

Lemma flushband_loop_ok pri flag y B a C q : q_ok q → q_msgs q = a ++ (B ++ [y]) ++ C →
  ∃ q' ev, flushband_loop q pri flag (Some (m_id y)) ((B ++ [y]) ++ C) = Ok (q', ev) ∧
    q_ok q' ∧ q_msgs q' = a ++ kept (hit pri flag) (B ++ [y]) ++ C ∧ frame q q' ∧
    frees ev = freed (hit pri flag) (B ++ [y]) ∧ waits_or_back q q' ev.
Proof.
  revert a q. induction B as [|x B IH]; intros a q Hq E; simpl in *.
  - destruct (flushband_step q a y C pri flag Hq E) as (q' & ev & -> & Hq' & Em & Hf & Hfr & Hw).
    cbn [mbind res_bind]. rewrite bool_decide_true by done. exists q', ev. rewrite kept_cons, freed_cons.
    split; [done|]. split; [done|]. rewrite Em. by destruct (hit pri flag y).
  - destruct (flushband_step q a x ((B ++ [y]) ++ C) pri flag Hq E) as (q1 & ev1 & -> & Hq1 & Em1 & Hf1 & Hfr1 & Hw1).
    cbn [mbind res_bind]. rewrite bool_decide_false.
    2:{ pose proof (mi_ids _ _ (qi_msgs _ _ Hq)) as Hd. rewrite E in Hd. destruct (NoDup_middle a x _ Hd) as [_ Hid].
        intros [= Hxy]. apply Hid. rewrite Hxy. apply list_elem_of_fmap_2. rewrite !elem_of_app.
        right. left. right. by left. }
    destruct (IH (if hit pri flag x then a else a ++ [x]) q1 Hq1) as (q' & ev & -> & Hq' & Em & Hf & Hfr & Hw).
    { rewrite Em1. destruct (hit pri flag x); by rewrite <- ?app_assoc. }
    cbn [mbind res_bind]. exists q', (ev1 ++ ev). rewrite kept_cons, freed_cons, frees_app, Hfr1, Hfr, Em.
    split; [done|]. split; [done|]. split; [by destruct (hit pri flag x); rewrite <- ?app_assoc|].
    split; [by trans q1|]. split; [by destruct (hit pri flag x)|]. by eapply waits_or_back_trans.
Qed.

Lemma flushband_n_ok q pri flag avail : q_ok q → 0 < pri ≤ q_nband q →
  ∃ q' ev, flushband q pri flag avail = Ok (q', ev) ∧ q_ok q' ∧ q_msgs q' = kept (hit pri flag) (q_msgs q) ∧
    frame q q' ∧ frees ev = freed (hit pri flag) (q_msgs q) ∧ waits_or_back q q' ev.
Proof.
  intros Hq Hp. pose proof Hq as [Hbo [Hd Hl Hs _] Hptr _].
  destruct (get_band_ok q pri Hbo Hp) as (b & Eg & Hb).
  pose proof (Hptr _ _ Hb) as [Hfst Hlst]. rewrite Z2Nat.id, Z.sub_add in Hfst, Hlst by lia.
  unfold flushband. rewrite (proj2 (Z.ltb_ge _ _)), (proj2 (Z.eqb_neq _ _)), Eg by lia. cbn [mbind res_bind].
  pose proof (band_split (q_nband q) pri (q_msgs q) Hs Hl ltac:(destruct Hbo; lia)) as Hsp.
  set (A := above (pri + 1) (q_msgs q)) in *. set (C := below pri (q_msgs q)) in *.
  assert (∀ m, m ∈ A ∨ m ∈ C → m_band m ≠ pri) as Hother.
  { intros m Hm E. assert (m ∈ q_msgs q) as Hin.
    { destruct Hm as [Hm|Hm]; [apply elem_above in Hm|apply elem_below in Hm]; tauto. }
    rewrite list.Forall_forall in Hl. destruct (prio_band (q_nband q) m) as [Epr _]; [by apply Hl|lia|].
    destruct Hm as [[Hm _]%elem_above|[Hm _]%elem_below]; lia. }
  destruct (kept_other pri flag A) as [KA FA]; [by intros m Hm; apply Hother; left|].
  destruct (kept_other pri flag C) as [KC FC]; [by intros m Hm; apply Hother; right|].
  assert (kept (hit pri flag) (q_msgs q) = A ++ kept (hit pri flag) (in_band pri (q_msgs q)) ++ C) as ->
    by (rewrite Hsp at 1; by rewrite !kept_app, KA, KC).
  assert (freed (hit pri flag) (q_msgs q) = freed (hit pri flag) (in_band pri (q_msgs q))) as ->
    by (rewrite Hsp at 1; by rewrite !freed_app, FA, FC, app_nil_r).
  destruct (in_band pri (q_msgs q)) as [|mp B] eqn:EB; simpl in Hfst; rewrite Hfst.
  { exists q, []. rewrite Hsp. split; [done|]. split; [done|]. split; [done|]. split; [done|]. split; [done|]. by left. }
  rewrite Hsp. simpl. rewrite find_msg_ok by (by rewrite Hsp in Hd). cbn [mbind res_bind].
  destruct (list.last B) as [y|] eqn:Ey.
  - apply last_Some in Ey as [B' ->]. rewrite app_comm_cons, last_snoc in Hlst. rewrite Hlst.
    assert (bool_decide (m_id <$> Some y = Some (m_id mp)) = false) as ->.
    { apply bool_decide_false. intros [= E]. rewrite Hsp in Hd. destruct (NoDup_middle A mp ((B' ++ [y]) ++ C) Hd) as [_ Hid].
        apply Hid. rewrite <- E. apply list_elem_of_fmap_2. rewrite !elem_of_app. right. left. right. by left. }
    apply (flushband_loop_ok pri flag y (mp :: B') A C q Hq Hsp).
  - apply last_None in Ey. subst B. simpl in Hlst. rewrite Hlst.
    rewrite (bool_decide_true (Some (m_id mp) = Some (m_id mp))) by done. simpl in *.
    destruct (flushband_step q A mp C pri flag Hq Hsp) as (q1 & ev1 & -> & Hq1 & Em1 & Hf1 & Hfr1 & Hw1).
    cbn [mbind res_bind]. rewrite kept_cons, freed_cons.
    assert (bool_decide (Some (m_id mp) = m_id <$> head C) = false) as ->.
    { apply bool_decide_false. destruct C as [|z C']; simpl; [done|]. intros [= E]. rewrite Hsp in Hd.
      destruct (NoDup_middle A mp (z :: C') Hd) as [_ Hid]. apply Hid. rewrite E. apply list_elem_of_fmap_2.
      rewrite !elem_of_app. right. left. }
    assert (flushband_loop q1 pri flag (m_id <$> head C) C = Ok (q1, [])) as ->.
    { destruct C as [|z C'] eqn:EC; simpl; [done|]. rewrite (proj2 (Z.eqb_neq (m_band z) pri)).
      - simpl. by rewrite bool_decide_true.
      - apply Hother. right. left. }
    cbn [mbind res_bind]. exists q1, (ev1 ++ []). rewrite app_nil_r.
    split; [done|]. split; [done|]. split; [rewrite Em1; by destruct (hit pri flag mp)|].
    split; [done|]. split; [rewrite Hfr1; by destruct (hit pri flag mp)|done].
Qed.

(** The request for band 0 granted, after band 0 was flushed. *)
Lemma flushband_0_ok q flag avail : q_ok q →
  ∃ q' ev, flushband q 0 flag avail = Ok (q', ev) ∧ q_ok q' ∧ q_msgs q' = kept (hit 0 flag) (q_msgs q) ∧
    frame q q' ∧ frees ev = freed (hit 0 flag) (q_msgs q) ∧ waits_or_back q q' ev.
Proof.
  intros Hq. destruct (refill_ok (hit 0 flag) avail q Hq) as (q1 & E & Hq1 & Em & Hf & Hw).
  pose proof (qi_bands _ _ Hq) as [Hn _].
  unfold flushband. rewrite (proj2 (Z.ltb_ge _ _)) by lia. simpl.
  change (λ mp, (m_band mp =? 0) && (flag || datamsg (m_type mp))) with (hit 0 flag). rewrite E. cbn [mbind res_bind].
  rewrite <- back_ready_0.
  set (q2 := if back_ready q1 0 then set_q_flag (clr_bit (q_flag q1) QWANTW) q1 else q1).
  assert (q_inv any q2 ∧ frame q1 q2 ∧ q_msgs q2 = q_msgs q1) as (Hq2 & Hf2 & Em2).
  { unfold q2. destruct (back_ready q1 0); [|done]. destruct Hq1 as [? ? ? [(Ec & Hlo & Hfl) Hcb]].
    split; [split; [done|done|done|split; [|done]]|split; [|done]].
    - split; [done|]. split; [done|]. simpl. intros Hh. rewrite has_clr_other by done. split; [by apply Hfl|by left].
    - split; [split|done|done]; simpl; try done. intros c Hc%qfull_other. apply has_clr_other. tauto. }
  assert (∀ k, 0 ≤ k → wants q2 k = wants q k && negb ((k =? 0) && back_ready q1 0)) as Hw2.
  { intros k Hk. rewrite <- Hw by done. unfold q2. destruct (back_ready q1 0); [|by rewrite andb_false_r, andb_true_r].
    unfold wants. simpl. destruct (k =? 0); simpl; [by rewrite has_clr_same, andb_false_r|by rewrite andb_true_r]. }
  assert (q_ok q2) as Hok.
  { apply (q_inv_waits any); [done|]. intros band Hb Hwb Hh. rewrite Hw2 in Hwb by done.
    apply andb_true_iff in Hwb as [Hwb Hnb]. rewrite Em2, Em. destruct (Z.eqb_spec band 0) as [->|Hne].
    - simpl in Hnb. apply negb_true_iff in Hnb. rewrite <- Em.
      destruct Hq1 as [_ [_ Hl1 _ _] _ [(Ec & Hlo & _) _]]. pose proof (total_in_band_pos _ 0 _ Hl1).
      unfold back_ready in Hnb. simpl in Hnb. rewrite <- Hw in Hwb by lia. unfold wants in Hwb. simpl in Hwb.
      rewrite Hwb in Hnb. simpl in Hnb. prop_bool. lia.
    - assert (in_band band (kept (hit 0 flag) (q_msgs q)) = in_band band (q_msgs q)) as ->.
      { unfold in_band, kept. apply list_filter_filter_l. intros m Hm. unfold hit.
        by rewrite (proj2 (Z.eqb_neq (m_band m) 0)) by lia. }
      apply (waits_nonempty none q); [done|done|by intros []|done|].
      by rewrite (hiwat_frame q1 q2), (hiwat_frame q q1) in Hh. }
  exists q2, (flush_events (hit 0 flag) q (q_msgs q) ++ (if back_ready q1 0 then [EvBack 0] else [])).
  split; [unfold q2; destruct (back_ready q1 0); by rewrite ?app_nil_r|].
  split; [done|]. split; [by rewrite Em2|]. split; [by trans q1|]. split.
  - rewrite frees_app, frees_flush. destruct (back_ready q1 0); simpl; by rewrite app_nil_r.
  - intros band Hb Hwb. rewrite Hw2, Hwb by done. destruct (Z.eqb_spec band 0) as [->|]; [|by left].
    destruct (back_ready q1 0); [|by left]. right. apply elem_of_app. right. left.
Qed.

(** [flushband] frees the messages of one band, or with a zero flag its data messages,
    each once and in order; all other messages stay on the queue in their order, and it
    is well formed.  A writer that waited for a band still waits, with messages of the
    band ahead of it, or was enabled. *)
Theorem flushband_spec q pri flag avail : q_ok q → 0 ≤ pri →
  ∃ q' ev, flushband q pri flag avail = Ok (q', ev) ∧ q_ok q' ∧ q_msgs q' = kept (hit pri flag) (q_msgs q) ∧
    frame q q' ∧ frees ev = freed (hit pri flag) (q_msgs q) ∧
    ∀ band, 0 ≤ band → wants q band = true → wants q' band = true ∨ EvBack band ∈ ev.
Proof.
  intros Hq Hp. destruct (decide (q_nband q < pri)) as [Hlt|Hge].
  - exists q, []. unfold flushband. rewrite (proj2 (Z.ltb_lt _ _)) by done.
    destruct (kept_other pri flag (q_msgs q)) as [-> ->].
    { intros m Hm. pose proof (mi_msgs _ _ (qi_msgs _ _ Hq)) as Hl. rewrite list.Forall_forall in Hl.
      destruct (Hl m Hm). lia. }
    split; [done|]. split; [done|]. split; [done|]. split; [done|]. split; [done|]. by left.
  - destruct (decide (pri = 0)) as [->|Hne]; [by apply flushband_0_ok|]. apply flushband_n_ok; [done|lia].
Qed.

Lemma flushband_spec_witness :
  ∃ q' ev, flushband example_q 1 false 0 = Ok (q', ev) ∧ q_ok q' ∧ m_id <$> q_msgs q' = [1; 3; 4] ∧
    frees ev = [MkMsg 2 1 false M_DATA [30; 20]].
Proof.
  destruct (flushband_spec example_q 1 false 0 example_q_ok ltac:(done)) as (q' & ev & E & Hq & Em & _ & Hf & _).
  exists q', ev. split; [exact E|]. split; [done|]. rewrite Em, Hf. done.
Defined.
