(* ===== verification/StrqThms.v ===== *)
(** * Flow control, queue fields and sequences of operations *)

From stdpp Require Import sorting.
From S2P Require Import Prelude Strq StrqProps StrqPut StrqGet StrqFlush.

(** ** Flow control *)

(** The bytes a band holds. *)
Definition band_bytes (q : queue) (band : Z) : Z := total (in_band band (q_msgs q)).

Lemma want_band_ok q f : q_ok q → has_bit f QFULL = has_bit (q_flag q) QFULL →
  (has_bit f QWANTW = true → 0 < q_hiwat q → 0 < band_bytes q 0) → q_ok (set_q_flag f q).
Proof.
  intros [? ? ? [(Ec & Hlo & Hf) Hb]] E1 E2. split; [done|done|done|]. split; [|done]. simpl.
  split; [done|]. split; [done|]. intros Hh. rewrite E1. split; [by apply Hf|].
  intros Hw. right. rewrite Ec. by apply E2.
Qed.

(** [canput] answers 1 exactly when the queue holds fewer bytes in band 0 than its
    high water mark; when it answers 0 it leaves the request for back-enabling.  The
    queue stays well formed: in particular the waiting writer has bytes ahead of it. *)
Theorem canput_spec q : q_ok q → 0 < q_hiwat q →
  ∃ r q', canput q = (r, q') ∧ q_ok q' ∧ q_msgs q' = q_msgs q ∧
    (r = 1 ↔ band_bytes q 0 < q_hiwat q) ∧ (r = 0 ∨ r = 1) ∧ (r = 0 → wants q' 0 = true) ∧ (r = 1 → q' = q).
Proof.
  intros Hq Hh. destruct (qi_counts _ _ Hq) as [(Ec & _ & Hf) _]. destruct (Hf Hh) as [Hfull _].
  unfold canput, band_bytes. rewrite Hfull. destruct (q_hiwat q <=? q_count q) eqn:E; simpl; prop_bool.
  - do 2 eexists. split; [done|]. split; [|split; [done|split; [split; [done|lia]|split; [by left|split; [|done]]]]].
    + apply want_band_ok; [done|by apply has_set_other|]. intros _ _. unfold band_bytes. lia.
    + intros _. unfold wants. simpl. by apply has_set_same.
  - do 2 eexists. split; [done|]. split; [done|]. split; [done|]. split; [split; [lia|done]|].
    split; [by right|]. done.
Qed.

Lemma canput_spec_witness :
  ∃ q', canput example_q = (0, q') ∧ q_ok q' ∧ wants q' 0 = true.
Proof.
  destruct (canput_spec example_q example_q_ok ltac:(done)) as (r & q' & E & Hq & _ & Hr & Hr01 & Hw & _).
  destruct Hr01 as [->| ->].
  - exists q'. split; [exact E|]. split; [done|by apply Hw].
  - assert (band_bytes example_q 0 < q_hiwat example_q) as H by (by apply Hr). vm_compute in H. done.
Defined.

(** [bcanput] for a band: 1 when the band does not exist yet or holds fewer bytes than
    its high water mark. *)
Theorem bcanput_spec q pri : q_ok q → 0 < pri → 0 < hiwat_of q pri ∨ q_nband q < pri →
  ∃ r q', bcanput q pri = Ok (r, q') ∧ q_ok q' ∧ q_msgs q' = q_msgs q ∧
    (r = 1 ↔ q_nband q < pri ∨ band_bytes q pri < hiwat_of q pri) ∧ (r = 0 ∨ r = 1) ∧
    (r = 0 → wants q' pri = true) ∧ (r = 1 → q' = q).
Proof.
  intros Hq Hp Hh. unfold bcanput. rewrite (proj2 (Z.eqb_neq pri 0)) by lia.
  destruct (q_nband q <? pri) eqn:En; prop_bool.
  { exists 1, q. split; [done|]. split; [done|]. split; [done|]. split; [tauto|]. split; [by right|]. done. }
  pose proof Hq as [Hbo Hmi Hptr [Hcq Hcb]].
  destruct (get_band_ok q pri Hbo) as (b & -> & Hb); [lia|]. cbn [mbind res_bind].
  assert (hiwat_of q pri = qb_hiwat b) as Eh.
  { unfold hiwat_of. rewrite (proj2 (Z.eqb_neq pri 0)) by lia. by rewrite Hb. }
  rewrite Eh in *. pose proof (Hcb _ _ Hb) as (Ec & Hlo & Hf). rewrite Z2Nat.id, Z.sub_add in * by lia.
  destruct (Hf ltac:(lia)) as [Hfull _]. unfold band_bytes. rewrite Hfull.
  destruct (qb_hiwat b <=? qb_count b) eqn:E; prop_bool.
  - do 2 eexists. split; [done|]. split; [|split; [done|split; [split; [done|lia]|split; [by left|split; [|done]]]]].
    + split; [by apply (frame_bands q); [by apply (put_band_frame _ _ b)|]|done| |].
      * by apply (put_band_ptrs q _ pri b).
      * apply (put_band_counts none q (q_msgs q) _ pri b); [done|done|done| |done].
        split; [done|]. split; [done|]. simpl. intros _. rewrite has_set_other by done. split; [|right; lia].
        rewrite Hfull. symmetry. by apply Z.leb_le.
    + intros _. rewrite (wants_put_band _ _ b) by (done || lia). rewrite decide_True by done. by apply has_set_same.
  - exists 1, q. split; [done|]. split; [done|]. split; [done|]. split; [split; [lia|done]|]. split; [by right|]. done.
Qed.

Lemma bcanput_spec_witness :
  ∃ q', bcanput example_q 1 = Ok (1, q') ∧ q_ok q'.
Proof.
  destruct (bcanput_spec example_q 1 example_q_ok ltac:(done) ltac:(left; done)) as (r & q' & E & Hq & _ & Hr & _).
  assert (r = 1) as -> by (apply Hr; right; reflexivity). by exists q'.
Defined.

(** ** Fields *)

(** [strqget] of a field [strqset] has set: the value of the field, at its width. *)
Definition field_value (what : qfields) (val : Z) : Z :=
  match what with
  | QHIWAT | QLOWAT => u32 val
  | QSTRUIOT => (val + 32768) mod 65536 - 32768
  | _ => val
  end.

Definition settable (what : qfields) (pri : Z) : bool :=
  match what with
  | QHIWAT | QLOWAT => true
  | QMAXPSZ | QMINPSZ | QSTRUIOT => pri =? 0
  | _ => false
  end.

Lemma field_band_ok q pri avail : q_ok q → 0 ≤ pri ≤ 255 → band_avail q pri avail = true →
  ∃ q' o, field_band q pri avail = Ok (true, o, q') ∧ q_ok q' ∧ pri ≤ q_nband q' ∧
    (pri = 0 → o = None) ∧ (pri ≠ 0 → ∃ b, o = Some b ∧ q_bandp q' !! Z.to_nat (pri - 1) = Some b).
Proof.
  intros Hq Hp Ha. unfold field_band. destruct (Z.eqb_spec pri 0) as [->|Hne]; simpl.
  - exists q, None. split; [done|]. split; [done|]. destruct (qi_bands _ _ Hq). split; [lia|]. done.
  - destruct (need_band_ok none q pri avail Hq ltac:(lia)) as (q' & -> & Hq' & _ & _ & _ & Hn).
    rewrite Ha. simpl. specialize (Hn Ha).
    destruct (get_band_ok q' pri (qi_bands _ _ Hq')) as (b & -> & Hb); [lia|]. cbn [mbind res_bind].
    exists q', (Some b). split; [done|]. split; [done|]. split; [done|]. split; [lia|]. intros _. by exists b.
Qed.

Lemma field_band_found q pri avail b : q_bandp q !! Z.to_nat (pri - 1) = Some b → 0 < pri ≤ q_nband q →
  field_band q pri avail = Ok (true, Some b, q).
Proof.
  intros Hb Hp. unfold field_band. rewrite (proj2 (Z.eqb_neq pri 0)) by lia. simpl.
  rewrite need_band_none by lia. simpl. unfold get_band. by rewrite Hb.
Qed.

(** What [strqset] accepts [strqget] returns, at the width of the field. *)
Theorem strqset_strqget msgsz sd q what pri val avail avail' :
  q_ok q → 0 ≤ pri ≤ 255 → band_avail q pri avail = true → settable what pri = true →
  ∃ q' sd', strqset msgsz sd q what pri val avail = Ok (0, q', sd') ∧
    strqget q' what pri avail' = Ok (0, Some (QNum (field_value what val)), q').
Proof.
  intros Hq Hp Ha Hs.
  destruct (field_band_ok q pri avail Hq Hp Ha) as (q1 & o & E & Hq1 & Hn & H0 & H1).
  unfold strqset. rewrite E. cbn [mbind res_bind negb].
  destruct (decide (pri = 0)) as [->|Hne].
  - rewrite H0 by done. destruct what; try done; do 2 eexists; (split; [reflexivity|]); reflexivity.
  - destruct (H1 Hne) as (b & -> & Hb).
    destruct what; try done; try (simpl in Hs; lia); do 2 eexists; (split; [reflexivity|]); unfold strqget.
    + rewrite (field_band_found _ _ _ (set_qb_hiwat (u32 val) b)); [done| |simpl; lia].
      simpl. apply list_lookup_insert_eq. by eapply lookup_lt_Some.
    + rewrite (field_band_found _ _ _ (set_qb_lowat (u32 val) b)); [done| |simpl; lia].
      simpl. apply list_lookup_insert_eq. by eapply lookup_lt_Some.
Qed.

Lemma strqset_strqget_witness :
  ∃ q' sd', strqset 65536 (MkHead 0 512 false true) example_q QSTRUIOT 0 65535 0 = Ok (0, q', sd') ∧
    strqget q' QSTRUIOT 0 0 = Ok (0, Some (QNum (-1)), q').
Proof.
  apply (strqset_strqget 65536 (MkHead 0 512 false true) example_q QSTRUIOT 0 65535 0 0);
    first [exact example_q_ok | reflexivity | vm_compute; split; congruence].
Defined.

(** The packet sizes are not fields of a band: [strqset] answers [EINVAL], and yet
    changes the size the stream head keeps for the queue below it. *)
Theorem strqset_invalid_changes_head msgsz sd q pri val avail :
  q_ok q → 0 < pri ≤ 255 → band_avail q pri avail = true → sd_below sd = true →
  (∃ q', strqset msgsz sd q QMINPSZ pri val avail =
    Ok (EINVAL, q', MkHead val (sd_qn_maxpsz sd) (sd_fifo sd) true) ∧ q_minpsz q' = q_minpsz q) ∧
  (∃ q', strqset msgsz sd q QMAXPSZ pri val avail =
    Ok (EINVAL, q', MkHead (sd_qn_minpsz sd) (head_maxpsz msgsz sd val) (sd_fifo sd) true) ∧ q_maxpsz q' = q_maxpsz q).
Proof.
  intros Hq Hp Ha Hsd.
  assert (∀ n a q1, q_minpsz (alloc_bands n a q1).2 = q_minpsz q1 ∧ q_maxpsz (alloc_bands n a q1).2 = q_maxpsz q1) as Hab.
  { intros n. induction n as [|n IH]; intros [|a] q1; simpl; try done.
    exact (IH a (set_q_bands (q_nband q1 + 1) (q_bandp q1 ++ [new_band q1]) q1)). }
  destruct (field_band_ok q pri avail Hq ltac:(lia) Ha) as (q1 & o & E & Hq1 & Hn & H0 & H1).
  destruct (H1 ltac:(lia)) as (b & -> & Hb).
  assert (q_minpsz q1 = q_minpsz q ∧ q_maxpsz q1 = q_maxpsz q) as [Em1 Em2].
  { unfold field_band in E. rewrite (proj2 (Z.eqb_neq pri 0)) in E by lia. simpl in E. unfold need_band in E.
    destruct (alloc_bands _ _ _) as [ok q2] eqn:Ea. pose proof (Hab (Z.to_nat (pri - q_nband q)) avail q) as Hq2.
    rewrite Ea in Hq2. destruct ok; simpl in E; [|done]. apply bind_ok in E as (b' & _ & [= _ <-]). done. }
  unfold strqset. rewrite E. simpl. rewrite Hsd. split; exists q1; done.
Qed.

Lemma strqset_invalid_changes_head_witness :
  ∃ q', strqset 65536 (MkHead 0 512 false true) example_q QMAXPSZ 1 100 0 = Ok (EINVAL, q', MkHead 0 100 false true).
Proof.
  destruct (strqset_invalid_changes_head 65536 (MkHead 0 512 false true) example_q 1 100 0) as [_ (q' & E & _)];
    [apply example_q_ok|vm_compute; split; congruence|reflexivity|reflexivity|]. by exists q'.
Defined.

(** ** Sequences of operations *)

(** A producer that calls [putq] and a consumer that calls [getq], in any order. *)
Inductive qop := OPut (m : qmsg) (avail : nat) | OGet.

(** The queue at the end, the messages [putq] accepted and those [getq] returned. *)
Fixpoint run_ops (ops : list qop) (q : queue) : res (queue * list qmsg * list qmsg) :=
  match ops with
  | [] => Ok (q, [], [])
  | OPut m avail :: ops =>
    '(ok, q, _) ← putq q m avail;
    '(q, puts, gets) ← run_ops ops q;
    Ok (q, (if ok =? 1 then force_band m :: puts else puts), gets)
  | OGet :: ops =>
    '(o, q, _) ← getq q;
    '(q, puts, gets) ← run_ops ops q;
    Ok (q, puts, match o with Some m => m :: gets | None => gets end)
  end.

Definition rank (k : Z) (l : list qmsg) : list qmsg := filter (λ m, prio m = k) l.

Definition op_msgs (ops : list qop) : list qmsg :=
  flat_map (λ o, match o with OPut m _ => [m] | OGet => [] end) ops.

Definition plain (m : qmsg) : Prop := 0 ≤ m_band m ≤ 255 ∧ sized m ∧ m_noget m = false.

Lemma rank_app k a b : rank k (a ++ b) = rank k a ++ rank k b.
Proof. apply list.filter_app. Qed.

Lemma rank_cons k m l : rank k (m :: l) = rank k [m] ++ rank k l.
Proof. by rewrite <- rank_app. Qed.

Lemma rank_put_last k m l : StronglySorted before l → rank k (put_last m l) = rank k l ++ rank k [m].
Proof.
  intros Hs. unfold put_last. rewrite rank_app, rank_cons.
  rewrite <- (above_below (prio m) l) at 3 by done. rewrite rank_app.
  destruct (decide (prio m = k)) as [E|E].
  - assert (rank k (below (prio m) l) = []) as ->.
    { apply filter_none. intros x [Hx _]%elem_below. lia. }
    by rewrite !app_nil_r.
  - assert (rank k [m] = []) as -> by (unfold rank; by rewrite filter_cons_False).
    by rewrite app_nil_r.
Qed.

Lemma next_get_plain m l : m_noget m = false → next_get (m :: l) = ([], m :: l).
Proof. intros E. unfold next_get. simpl. by rewrite E. Qed.

Lemma run_ops_ok ops q :
  q_ok q → Forall plain (op_msgs ops) → (∀ m, m ∈ q_msgs q → m_noget m = false) →
  NoDup (m_id <$> q_msgs q ++ op_msgs ops) → total (q_msgs q ++ op_msgs ops) < W32 →
  ∃ q' puts gets, run_ops ops q = Ok (q', puts, gets) ∧ q_ok q' ∧
    ∀ k, rank k (q_msgs q) ++ rank k puts = rank k gets ++ rank k (q_msgs q').
Proof.
  revert q. induction ops as [|o ops IH]; intros q Hq Hpl Hng Hd Ht.
  { exists q, [], []. split; [done|]. split; [done|]. intros k. by rewrite app_nil_r. }
  destruct o as [m avail|]; simpl in *.
  - apply Forall_cons_iff in Hpl as [(Hb & Hsz & Hg) Hpl].
    destruct (NoDup_middle (q_msgs q) m (op_msgs ops) Hd) as [Hd' Hid].
    rewrite <- Permutation_middle, band_total_cons, total_app in Ht.
    assert (0 ≤ total (op_msgs ops)) as Hpos.
    { apply band_total_nonneg. eapply Forall_impl; [|exact Hpl]. by intros x (_ & ? & _). }
    assert (m_id m ∉ m_id <$> q_msgs q) as Hidq.
    { rewrite fmap_app in Hid. intros H. apply Hid, elem_of_app. by left. }
    destruct (force_band_ok m Hb Hsz) as (Hfb & Eid & Esz).
    destruct (put_with_ok putq_place put_last
      (λ q bp, (QNORM <? queclass bp) || (canenable q && (has_bit (q_flag q) QWANTR || negb (m_band bp =? 0))))
      putq_place_0 putq_place_band put_last_split put_last_sorted putq_enab
      none q m avail) as (q1 & E1 & Hq1 & Em1 & _); [done|done|done|done|lia|].
    unfold putq. rewrite E1. cbn [mbind res_bind]. set (ok := band_avail _ _ _) in *.
    pose proof (mi_sorted _ _ (qi_msgs _ _ Hq)) as Hs.
    destruct (IH q1 Hq1 Hpl) as (q' & puts & gets & -> & Hq' & Hr).
    + rewrite Em1. destruct ok; [|done]. intros x Hx.
      destruct (put_last_split (force_band m) (q_msgs q) Hs) as (a & b & El & Ep). rewrite Ep in Hx.
      rewrite <- Permutation_middle, <- El in Hx. apply elem_of_cons in Hx as [->|Hx]; [|by apply Hng].
      unfold force_band. by repeat case_if.
    + rewrite Em1. destruct ok; [|done].
      destruct (put_last_split (force_band m) (q_msgs q) Hs) as (a & b & El & ->).
      rewrite <- Permutation_middle, <- El. simpl. rewrite Eid. by apply list.NoDup_cons.
    + rewrite Em1. destruct ok; [|rewrite total_app; pose proof (msize_nonneg m Hsz); lia].
      destruct (put_last_split (force_band m) (q_msgs q) Hs) as (a & b & El & ->).
      rewrite <- Permutation_middle, <- El. simpl. rewrite band_total_cons, total_app, Esz. lia.
    + cbn [mbind res_bind]. do 3 eexists. split; [reflexivity|]. split; [done|]. intros k.
      rewrite <- Hr, Em1. destruct ok; simpl; [|done].
      rewrite rank_put_last by done. by rewrite (rank_cons k (force_band m)), <- app_assoc.
  - destruct (getq_ok q Hq) as (q1 & q2 & _ & E2 & Hq2 & Em2 & _). rewrite E2. cbn [mbind res_bind].
    destruct (q_msgs q) as [|m l] eqn:El; simpl in *.
    + destruct (IH q2 Hq2 Hpl) as (q' & puts & gets & -> & Hq' & Hr); rewrite ?Em2; try done.
      do 3 eexists. split; [reflexivity|]. split; [done|]. intros k. rewrite <- Hr, Em2. done.
    + rewrite next_get_plain in * by (apply Hng; left). simpl in *.
      apply list.NoDup_cons in Hd as [_ Hd]. rewrite band_total_cons in Ht.
      pose proof (mi_msgs _ _ (qi_msgs _ _ Hq)) as Hl. rewrite El in Hl. apply Forall_cons_iff in Hl as [[_ _ Hsz] _].
      pose proof (msize_nonneg m Hsz).
      destruct (IH q2 Hq2 Hpl) as (q' & puts & gets & -> & Hq' & Hr); rewrite ?Em2; try done; [|lia|].
      { intros x Hx. apply Hng. by right. }
      do 3 eexists. split; [reflexivity|]. split; [done|]. intros k. rewrite (rank_cons k m l), (rank_cons k m gets).
      rewrite <- !app_assoc, <- Hr, Em2. done.
Qed.

(** Whatever the order of [putq] and [getq] calls on an empty queue, none of them
    faults, and within each rank (high priority, or a band) the messages come out in
    the order they were put in: those put are those got followed by those still on
    the queue. *)
Theorem queue_fifo ops q :
  q_ok q → q_msgs q = [] → Forall plain (op_msgs ops) → NoDup (m_id <$> op_msgs ops) → total (op_msgs ops) < W32 →
  ∃ q' puts gets, run_ops ops q = Ok (q', puts, gets) ∧ q_ok q' ∧
    ∀ k, rank k puts = rank k gets ++ rank k (q_msgs q').
Proof.
  intros Hq E Hpl Hd Ht. destruct (run_ops_ok ops q Hq Hpl) as (q' & puts & gets & Er & Hq' & Hr); rewrite ?E; try done.
  - by intros m ?%elem_of_nil.
  - exists q', puts, gets. split; [done|]. split; [done|]. intros k. specialize (Hr k). by rewrite E in Hr.
Qed.

Lemma queue_fifo_witness :
  let q := MkQueue [] 0 0 100 20 0 1024 0 0 [] in
  ∃ q' puts gets, run_ops [OPut (MkMsg 1 0 false M_DATA [10]) 0; OPut (MkMsg 2 2 false M_DATA [5]) 2; OGet; OPut (MkMsg 3 0 false M_DATA [7]) 0; OGet] q
      = Ok (q', puts, gets) ∧ q_ok q' ∧ rank 0 puts = rank 0 gets ++ rank 0 (q_msgs q').
Proof.
  intros q.
  destruct (queue_fifo [OPut (MkMsg 1 0 false M_DATA [10]) 0; OPut (MkMsg 2 2 false M_DATA [5]) 2; OGet; OPut (MkMsg 3 0 false M_DATA [7]) 0; OGet] q)
    as (q' & puts & gets & E & Hq & Hr).
  - apply q_okb_ok. vm_compute. reflexivity.
  - reflexivity.
  - unfold plain, sized. apply (bool_decide_eq_true _). vm_compute. reflexivity.
  - apply (bool_decide_eq_true _). vm_compute. reflexivity.
  - reflexivity.
  - exists q', puts, gets. split; [exact E|]. split; [done|]. apply Hr.
Defined.

(** ** Every call *)

















