(* ===== verification/StrSched.v ===== *)
(** * The STREAMS queue scheduler (uts/common/io/stream.c, os/strsubr.c)

    [qenable] puts a queue on the run list, the threads that run [queuerun] or
    [background] take queues off it and call their service procedures, and a thread
    that closes a queue disables it, takes it off the list and waits.

    - A step is what one thread does under one lock; between them any other thread may
      run.  The list from [qhead] to [qtail] is [s_run]; the flag words of the queues
      are [s_flag].
    - A thread in [queuerun] or [background] is between two rounds ([TIdle]), has
      taken a queue off the list ([TPicked]), has marked it in service ([TRun], the
      label [again] of [runservice]) or has called its service procedure ([TServing]).
    - A thread in [remove_runlist] that has taken a queue off the list and has not yet
      reset [QENAB] is a member of [s_removing].
    - [s_want] and [s_log] are ghosts: the queues that a call of [qenable] asked for since
      their service procedure was last called, and the calls made, last first.  No
      routine looks at them, and [s_want] is kept by the steps, from the calls alone
      ([note_enable], [note_call], [note_removed]).
    - Not modelled: the synchronization queues that [entersq] enters, the band flags
      [QB_BACK], and [runbufcalls]. *)

From S2P Require Import Prelude Strq.

Inductive pc := TIdle | TPicked (q : Z) | TRun (q : Z) | TServing (q : Z).

Record sched := MkSched {
  s_flag : gmap Z Z;
  s_run : list Z;
  s_qrunflag : bool;
  s_threads : list pc;
  s_removing : list Z;
  s_want : gset Z;
  s_log : list Z
}.

Definition flag (s : sched) (q : Z) : Z := default 0 (s_flag s !! q).

Definition set_flag (q v : Z) (s : sched) : sched :=
  MkSched (<[q := v]> (s_flag s)) (s_run s) (s_qrunflag s) (s_threads s) (s_removing s) (s_want s) (s_log s).
Definition set_run (v : list Z) (s : sched) : sched :=
  MkSched (s_flag s) v (s_qrunflag s) (s_threads s) (s_removing s) (s_want s) (s_log s).
Definition set_qrunflag (v : bool) (s : sched) : sched :=
  MkSched (s_flag s) (s_run s) v (s_threads s) (s_removing s) (s_want s) (s_log s).
Definition set_threads (v : list pc) (s : sched) : sched :=
  MkSched (s_flag s) (s_run s) (s_qrunflag s) v (s_removing s) (s_want s) (s_log s).
Definition set_removing (v : list Z) (s : sched) : sched :=
  MkSched (s_flag s) (s_run s) (s_qrunflag s) (s_threads s) v (s_want s) (s_log s).
Definition set_want (v : gset Z) (s : sched) : sched :=
  MkSched (s_flag s) (s_run s) (s_qrunflag s) (s_threads s) (s_removing s) v (s_log s).
Definition set_log (v : list Z) (s : sched) : sched :=
  MkSched (s_flag s) (s_run s) (s_qrunflag s) (s_threads s) (s_removing s) (s_want s) v.

(** ** The routines, a locked section at a time *)

Section sched.
Context (srvp : Z → bool).

(** [qenable_locked]; [srvp] tells which queues have a service procedure. *)
Definition qenable_locked (q : Z) (s : sched) : sched :=
  if negb (srvp q) then s
  else if has_bit (flag s q) (Z.lor QWCLOSE QENAB) then s
  else
    let s := set_flag q (set_bit (flag s q) QENAB) s in
    if has_bit (flag s q) QINSERVICE then s
    else set_qrunflag true (set_run (s_run s ++ [q]) s).

(** The first queue of the list that is not in service. *)
Fixpoint dq_find (s : sched) (l : list Z) : option (Z * list Z) :=
  match l with
  | [] => None
  | q :: l =>
    if has_bit (flag s q) QINSERVICE then
      match dq_find s l with Some (q', l) => Some (q', q :: l) | None => None end
    else Some (q, l)
  end.

Definition dq_service (s : sched) : option Z * sched :=
  match dq_find s (s_run s) with
  | None => (None, s)
  | Some (q, l) =>
    let s := set_run l s in
    (Some q, match l with [] => set_qrunflag false s | _ => s end)
  end.

(** [rmv_qp]. *)
Fixpoint rmv_qp (l : list Z) (qp : Z) : bool * list Z :=
  match l with
  | [] => (false, [])
  | q :: l => if q =? qp then (true, l) else let '(found, l) := rmv_qp l qp in (found, q :: l)
  end.

(** A queue taken off the list is marked in service ([queuerun], [background]). *)
Definition svc_begin (q : Z) (s : sched) : sched :=
  set_flag q (set_bit (clr_bit (flag s q) QENAB) QINSERVICE) s.

(** [runservice]: the service procedure is called, unless the queue is closing; *)
Definition svc_call (q : Z) (s : sched) : sched :=
  if has_bit (flag s q) QWCLOSE then s else set_log (q :: s_log s) s.

(** and when it has returned, whether it is to be called again. *)
Definition svc_end (q : Z) (s : sched) : bool * sched :=
  if has_bit (flag s q) QENAB then (true, set_flag q (clr_bit (flag s q) QENAB) s)
  else (false, set_flag q (clr_bit (clr_bit (flag s q) QINSERVICE) QBACK) s).

(** [disable_svc] and [enable_svc], for one of the two queues. *)
Definition disable_svc (q : Z) (s : sched) : sched := set_flag q (set_bit (flag s q) QWCLOSE) s.
Definition enable_svc (q : Z) (s : sched) : sched := set_flag q (clr_bit (flag s q) QWCLOSE) s.

(** [remove_runlist], for one of the two queues: under the lock of the list, *)
Definition remove_locked (q : Z) (s : sched) : bool * sched :=
  if has_bit (flag s q) QENAB then
    let '(did, l) := rmv_qp (s_run s) q in (did, set_run l s)
  else (false, s).

(** and under the queue's lock. *)
Definition remove_end (q : Z) (s : sched) : sched := set_flag q (clr_bit (flag s q) QENAB) s.

(** The loop of [wait_svc] ends. *)
Definition svc_quiet (q : Z) (s : sched) : bool := negb (has_bit (flag s q) (Z.lor QINSERVICE QENAB)).

(** ** One thread alone *)

Context (svc : Z → list Z).

(** [runservice], when the service procedure of a queue enables the queues [svc]. *)
Fixpoint runservice (fuel : nat) (q : Z) (s : sched) : option sched :=
  match fuel with
  | O => None
  | S fuel =>
    let s' := svc_call q s in
    let s' := if has_bit (flag s q) QWCLOSE then s' else fold_left (λ s q', qenable_locked q' s) (svc q) s' in
    let '(again, s') := svc_end q s' in
    if again then runservice fuel q s' else Some s'
  end.

(** [queuerun], and [background] until it sleeps. *)
Fixpoint queuerun (fuel : nat) (s : sched) : option sched :=
  match fuel with
  | O => None
  | S fuel =>
    match dq_service s with
    | (None, s) => Some s
    | (Some q, s) =>
      match runservice fuel q (svc_begin q s) with
      | Some s => queuerun fuel s
      | None => None
      end
    end
  end.

(** ** Steps *)

Inductive label :=
  | LEnable (q : Z) | LPick (q : Z) | LBegin (q : Z) | LCall (q : Z) | LEnd (q : Z)
  | LDisable (q : Z) | LOpen (q : Z) | LRemove (q : Z) | LRemoved (q : Z).

(** The ghost: a queue with a service procedure that is not closing is asked for, whatever
    [qenable] does about it, until the service procedure is called (or is not, because the
    queue is closing) or a thread that closes the queue has taken it off. *)
Definition note_enable (q : Z) (s s' : sched) : sched :=
  if srvp q && negb (has_bit (flag s q) QWCLOSE) then set_want ({[q]} ∪ s_want s') s' else s'.
Definition note_call (q : Z) (s s' : sched) : sched :=
  if has_bit (flag s q) QWCLOSE || bool_decide (s_log s' = q :: s_log s) then set_want (s_want s' ∖ {[q]}) s' else s'.
Definition note_removed (q : Z) (s' : sched) : sched := set_want (s_want s' ∖ {[q]}) s'.

Inductive sched_step : sched → label → sched → Prop :=
  | st_enable s q :
      sched_step s (LEnable q) (note_enable q s (qenable_locked q s))
  | st_pick s s' q t1 t2 :
      s_threads s = t1 ++ TIdle :: t2 → dq_service s = (Some q, s') →
      sched_step s (LPick q) (set_threads (t1 ++ TPicked q :: t2) s')
  | st_begin s q t1 t2 :
      s_threads s = t1 ++ TPicked q :: t2 →
      sched_step s (LBegin q) (set_threads (t1 ++ TRun q :: t2) (svc_begin q s))
  | st_call s q t1 t2 :
      s_threads s = t1 ++ TRun q :: t2 →
      sched_step s (LCall q) (set_threads (t1 ++ TServing q :: t2) (note_call q s (svc_call q s)))
  | st_end s q t1 t2 again s' :
      s_threads s = t1 ++ TServing q :: t2 → svc_end q s = (again, s') →
      sched_step s (LEnd q) (set_threads (t1 ++ (if again then TRun q else TIdle) :: t2) s')
  | st_disable s q :
      sched_step s (LDisable q) (disable_svc q s)
  | st_open s q :
      sched_step s (LOpen q) (enable_svc q s)
  | st_remove s q did s' :
      has_bit (flag s q) QWCLOSE = true → remove_locked q s = (did, s') →
      sched_step s (LRemove q) (if did then set_removing (q :: s_removing s) s' else s')
  | st_removed s q r1 r2 :
      s_removing s = r1 ++ q :: r2 →
      sched_step s (LRemoved q) (set_removing (r1 ++ r2) (note_removed q (remove_end q s))).

(** ** The invariant *)

Definition at_pc (p : pc) : option Z :=
  match p with TIdle => None | TPicked q | TRun q | TServing q => Some q end.

(** The places where a queue waits or is served. *)
Definition places (s : sched) : list Z := s_run s ++ omap at_pc (s_threads s) ++ s_removing s.

Definition enab (s : sched) (q : Z) : bool := has_bit (flag s q) QENAB.
Definition insvc (s : sched) (q : Z) : bool := has_bit (flag s q) QINSERVICE.

(** One queue: its flags, where it is, and whether it was enabled since the last call.
    On the list, picked or being removed it is enabled and not in service; with a
    thread that runs it, it is in service; with one of the flags it is somewhere. *)
Definition queue_ok (s : sched) (q : Z) : Prop :=
  (q ∈ s_run s ∨ TPicked q ∈ s_threads s ∨ q ∈ s_removing s → enab s q = true ∧ insvc s q = false) ∧
  (TRun q ∈ s_threads s ∨ TServing q ∈ s_threads s → insvc s q = true) ∧
  (enab s q = true ∨ insvc s q = true → q ∈ places s) ∧
  (q ∈ s_want s → enab s q = true ∨ TRun q ∈ s_threads s).

Record sched_ok (s : sched) : Prop := {
  so_places : NoDup (places s);
  so_qrunflag : s_run s ≠ [] → s_qrunflag s = true;
  so_queue q : queue_ok s q
}.
End sched.
