(* ===== verification/StrSchedProps.v ===== *)
(** * The scheduler's invariant is kept, and what follows from it *)

From S2P Require Import Prelude Strq StrSched.

(** ** Places *)

Lemma flag_set q v s q' : flag (set_flag q v s) q' = if decide (q = q') then v else flag s q'.
Proof.
  unfold flag, set_flag. simpl. case_decide; [subst; by rewrite lookup_insert_eq|by rewrite lookup_insert_ne].
Qed.

Lemma elem_threads (p p' : pc) t1 t2 : p ∈ t1 ++ p' :: t2 ↔ p = p' ∨ p ∈ t1 ++ t2.
Proof. rewrite !elem_of_app, elem_of_cons. tauto. Qed.

Lemma at_threads t1 p t2 : omap at_pc (t1 ++ p :: t2) ≡ₚ option_list (at_pc p) ++ omap at_pc (t1 ++ t2).
Proof.
  rewrite !omap_app. simpl. destruct (at_pc p); simpl; [|done]. symmetry. apply Permutation_middle.
Qed.

Lemma elem_at (q : Z) (l : list pc) : q ∈ omap at_pc l ↔ TPicked q ∈ l ∨ TRun q ∈ l ∨ TServing q ∈ l.
Proof.
  rewrite list_elem_of_omap. split.
  - intros ([|x|x|x] & Hx & E); simplify_eq/=; tauto.
  - intros [H|[H|H]]; eauto.
Qed.

Lemma elem_places s q : q ∈ places s ↔
  q ∈ s_run s ∨ (TPicked q ∈ s_threads s ∨ TRun q ∈ s_threads s ∨ TServing q ∈ s_threads s) ∨ q ∈ s_removing s.
Proof. unfold places. by rewrite !elem_of_app, elem_at. Qed.

(** Nothing changes for a queue but its flags' word, at most. *)
Record same_view (s s' : sched) (q : Z) : Prop := {
  sv_enab : enab s' q = enab s q;
  sv_insvc : insvc s' q = insvc s q;
  sv_run : q ∈ s_run s' ↔ q ∈ s_run s;
  sv_picked : TPicked q ∈ s_threads s' ↔ TPicked q ∈ s_threads s;
  sv_runs : TRun q ∈ s_threads s' ↔ TRun q ∈ s_threads s;
  sv_serving : TServing q ∈ s_threads s' ↔ TServing q ∈ s_threads s;
  sv_removing : q ∈ s_removing s' ↔ q ∈ s_removing s;
  sv_want : q ∈ s_want s' ↔ q ∈ s_want s
}.

Lemma same_view_ok s s' q : same_view s s' q → queue_ok s q → queue_ok s' q.
Proof.
  intros [E1 E2 H1 H2 H3 H4 H5 H6]. unfold queue_ok. rewrite !elem_places, E1, E2. tauto.
Qed.

(** A step that concerns the queue [q]. *)
Lemma step_ok s s' q : sched_ok s → NoDup (places s') → (s_run s' ≠ [] → s_qrunflag s' = true) →
  (∀ q', q' ≠ q → same_view s s' q') → queue_ok s' q → sched_ok s'.
Proof.
  intros [_ _ Hs] Hd Hf Hv Hq. split; [done|done|]. intros q'. destruct (decide (q' = q)) as [->|Hne]; [done|].
  by apply (same_view_ok s); [apply Hv|].
Qed.

(** A queue that is with a thread is nowhere else. *)
Lemma thread_unique s q t1 p t2 : sched_ok s → s_threads s = t1 ++ p :: t2 → at_pc p = Some q →
  (q ∉ s_run s) ∧ (q ∉ s_removing s) ∧ (TPicked q ∉ t1 ++ t2) ∧ (TRun q ∉ t1 ++ t2) ∧ (TServing q ∉ t1 ++ t2).
Proof.
  intros [Hd _ _] E Ep. unfold places in Hd. rewrite E, at_threads, Ep in Hd. simpl in Hd.
  rewrite (Permutation_app_comm (s_run s)) in Hd. simpl in Hd. apply list.NoDup_cons in Hd as [Hd _].
  rewrite !elem_of_app, elem_at in Hd. tauto.
Qed.

Lemma removing_unique s q r1 r2 : sched_ok s → s_removing s = r1 ++ q :: r2 →
  (q ∉ s_run s) ∧ (q ∉ r1 ++ r2) ∧ (TPicked q ∉ s_threads s) ∧ (TRun q ∉ s_threads s) ∧ (TServing q ∉ s_threads s).
Proof.
  intros [Hd _ _] E. unfold places in Hd. rewrite E in Hd.
  rewrite <- !Permutation_middle in Hd. apply list.NoDup_cons in Hd as [H _].
  rewrite !elem_of_app, elem_at in H. rewrite elem_of_app. tauto.
Qed.

Lemma run_unique s q l : sched_ok s → s_run s ≡ₚ q :: l →
  (q ∉ l) ∧ (q ∉ s_removing s) ∧ (TPicked q ∉ s_threads s) ∧ (TRun q ∉ s_threads s) ∧ (TServing q ∉ s_threads s).
Proof.
  intros [Hd _ _] E. unfold places in Hd. rewrite E in Hd. simpl in Hd. apply list.NoDup_cons in Hd as [H _].
  rewrite !elem_of_app, elem_at in H. tauto.
Qed.

(** Flags after an update of one queue's. *)
Lemma flags_set_eq s q v : enab (set_flag q v s) q = has_bit v QENAB ∧ insvc (set_flag q v s) q = has_bit v QINSERVICE.
Proof. unfold enab, insvc. by rewrite flag_set, decide_True. Qed.

Lemma flags_set_ne s q v q' : q' ≠ q → enab (set_flag q v s) q' = enab s q' ∧ insvc (set_flag q v s) q' = insvc s q'.
Proof. intros. unfold enab, insvc. by rewrite flag_set, decide_False. Qed.

(** The parts other steps set do not matter for the flags. *)
Lemma flags_of s s' : s_flag s' = s_flag s → ∀ q, enab s' q = enab s q ∧ insvc s' q = insvc s q.
Proof. intros E q. unfold enab, insvc, flag. by rewrite E. Qed.

(** ** The steps *)

(** The other queues: their flags are not touched, and neither are their places. *)
Ltac other_flags :=
  intros ? ?;
  split; simpl;
  [ unfold enab, flag; simpl; rewrite ?lookup_insert_ne by congruence; reflexivity
  | unfold insvc, flag; simpl; rewrite ?lookup_insert_ne by congruence; reflexivity
  | .. ].

Ltac elems :=
  rewrite ?elem_threads, ?elem_of_app, ?list_elem_of_singleton, ?elem_of_cons, ?elem_of_union,
    ?elem_of_difference, ?elem_of_singleton;
  intuition congruence.

Section steps.
Context (srvp : Z → bool).

(** Asking for a queue that is enabled, or is none to enable, changes nothing else. *)
Lemma want_ok s q : sched_ok s → enab s q = true → sched_ok (set_want ({[q]} ∪ s_want s) s).
Proof.
  intros Hs En. pose proof Hs as [Hd Hf Hq]. pose proof (Hq q) as (Q1 & Q2 & Q3 & Q4).
  apply (step_ok s _ q Hs); [exact Hd|exact Hf|other_flags; elems|].
  unfold queue_ok, enab, insvc, flag in *. rewrite elem_places in *. simpl. intuition congruence.
Qed.

(** Once asked for, a queue that has a service procedure and is not closing is enabled. *)
Lemma qenable_enab s q : srvp q = true → has_bit (flag s q) QWCLOSE = false → enab (qenable_locked srvp q s) q = true.
Proof.
  intros Hp Hw. unfold qenable_locked. rewrite Hp, has_or, Hw. simpl. destruct (has_bit (flag s q) QENAB) eqn:En; [done|].
  set (s1 := set_flag _ _ s). assert (enab s1 q = true) as E.
  { unfold s1. destruct (flags_set_eq s q (set_bit (flag s q) QENAB)) as [-> _]. by apply has_set_same. }
  by case_if.
Qed.

Lemma qenable_keeps s q : sched_ok s → sched_ok (qenable_locked srvp q s).
Proof.
  intros Hs. unfold qenable_locked. destruct (srvp q); simpl; [|done]. rewrite has_or.
  destruct (has_bit (flag s q) QWCLOSE); simpl; [done|].
  destruct (has_bit (flag s q) QENAB) eqn:En; [done|].
  set (s1 := set_flag q (set_bit (flag s q) QENAB) s).
  assert (enab s1 q = true ∧ insvc s1 q = insvc s q) as [Ee Ei].
  { unfold s1. destruct (flags_set_eq s q (set_bit (flag s q) QENAB)) as [-> ->]. by rewrite has_set_same, has_set_other. }
  fold (insvc s1 q). rewrite Ei. pose proof Hs as [Hd Hf Hq]. pose proof (Hq q) as (Q1 & Q2 & Q3 & Q4).
  fold (enab s q) in En. destruct (insvc s q) eqn:Is.
  - apply (step_ok s _ q Hs); [exact Hd|exact Hf|other_flags; elems|].
    unfold queue_ok. rewrite Ee, Ei, elem_places in *. simpl. intuition congruence.
  - set (s2 := set_qrunflag true (set_run (s_run s ++ [q]) s1)).
    assert (enab s2 q = true ∧ insvc s2 q = false) as [Ee2 Ei2] by done.
    assert (q ∉ places s) as Hnp.
    { rewrite elem_places. intros [H|[[H|[H|H]]|H]]; intuition congruence. }
    apply (step_ok s _ q Hs); [|done|other_flags; elems|].
    + unfold places, s2. simpl. rewrite <- app_assoc. simpl. rewrite <- Permutation_middle.
      by apply list.NoDup_cons.
    + unfold queue_ok. rewrite Ee2, Ei2, !elem_places in *. simpl. rewrite elem_of_app, list_elem_of_singleton.
      intuition congruence.
Qed.

Lemma qenable_ok s q : sched_ok s → sched_ok (note_enable srvp q s (qenable_locked srvp q s)).
Proof.
  intros Hs. pose proof (qenable_keeps s q Hs) as H. unfold note_enable.
  destruct (srvp q) eqn:Hp; [|done]. destruct (has_bit (flag s q) QWCLOSE) eqn:Hw; [done|].
  apply want_ok; [done|by apply qenable_enab].
Qed.

Lemma dq_find_head s : sched_ok s →
  dq_find s (s_run s) = match s_run s with [] => None | q :: l => Some (q, l) end.
Proof.
  intros [_ _ Hq]. destruct (s_run s) as [|q l] eqn:E; simpl; [done|].
  assert (insvc s q = false) as Hi.
  { destruct (Hq q) as [H _]. apply H. left. rewrite E. left. }
  unfold insvc in Hi. by rewrite Hi.
Qed.

Lemma pick_ok s s' q t1 t2 : sched_ok s → s_threads s = t1 ++ TIdle :: t2 → dq_service s = (Some q, s') →
  sched_ok (set_threads (t1 ++ TPicked q :: t2) s').
Proof.
  intros Hs Et E. unfold dq_service in E. rewrite dq_find_head in E by done.
  destruct (s_run s) as [|q0 l] eqn:Er; [done|]. injection E as -> <-.
  pose proof Hs as [Hd Hf Hq]. pose proof (Hq q) as (Q1 & Q2 & Q3 & Q4).
  destruct (run_unique s q l Hs ltac:(by rewrite Er)) as (U1 & U2 & U3 & U4 & U5).
  rewrite Et, !elem_threads in *.
  set (s1 := match l with [] => set_qrunflag false (set_run l s) | _ => set_run l s end).
  assert (s_flag s1 = s_flag s ∧ s_run s1 = l ∧ s_threads s1 = s_threads s ∧ s_removing s1 = s_removing s ∧
    s_want s1 = s_want s ∧ (l ≠ [] → s_qrunflag s1 = s_qrunflag s)) as (E1 & E2 & E3 & E4 & E5 & E6) by (by destruct l).
  set (s2 := set_threads (t1 ++ TPicked q :: t2) s1).
  assert (∀ q', enab s2 q' = enab s q' ∧ insvc s2 q' = insvc s q') as Hfl by (apply flags_of; exact E1).
  apply (step_ok s _ q Hs); simpl.
  - unfold places. simpl. rewrite E2, E4, at_threads. unfold places in Hd. rewrite Er, Et, at_threads in Hd. simpl in *.
    by rewrite <- Permutation_middle.
  - rewrite E2. intros Hl. rewrite E6 by done. apply Hf. by rewrite Er.
  - intros q' Hne. destruct (Hfl q') as [F1 F2]. split; [exact F1|exact F2|..]; simpl;
      rewrite ?E2, ?E4, ?E5, ?Er, ?Et, ?elem_threads, ?elem_of_cons; intuition congruence.
  - destruct (Hfl q) as [F1 F2]. unfold queue_ok. rewrite F1, F2, elem_places in *. simpl.
    rewrite E2, E4, E5, !elem_threads. rewrite Er, elem_of_cons in *. intuition congruence.
Qed.

Lemma begin_ok s q t1 t2 : sched_ok s → s_threads s = t1 ++ TPicked q :: t2 →
  sched_ok (set_threads (t1 ++ TRun q :: t2) (svc_begin q s)).
Proof.
  intros Hs Et. pose proof Hs as [Hd Hf Hq]. pose proof (Hq q) as (Q1 & Q2 & Q3 & Q4).
  destruct (thread_unique s q t1 _ t2 Hs Et eq_refl) as (U1 & U2 & U3 & U4 & U5).
  rewrite Et, !elem_threads in *. set (s1 := set_threads (t1 ++ TRun q :: t2) (svc_begin q s)).
  assert (enab s1 q = false ∧ insvc s1 q = true) as [Ee Ei].
  { unfold enab, insvc. assert (flag s1 q = set_bit (clr_bit (flag s q) QENAB) QINSERVICE) as ->
      by (etrans; [apply flag_set|by rewrite decide_True]).
    by rewrite has_set_same, has_set_other, has_clr_same. }
  apply (step_ok s _ q Hs); simpl.
  - unfold places in *. simpl. rewrite at_threads. rewrite Et, at_threads in Hd. exact Hd.
  - exact Hf.
  - unfold s1, svc_begin. other_flags; rewrite ?Et; elems.
  - unfold queue_ok. rewrite Ee, Ei, elem_places in *. simpl. rewrite !elem_threads in *. intuition congruence.
Qed.

Lemma call_ok s q t1 t2 : sched_ok s → s_threads s = t1 ++ TRun q :: t2 →
  sched_ok (set_threads (t1 ++ TServing q :: t2) (note_call q s (svc_call q s))).
Proof.
  intros Hs Et. pose proof Hs as [Hd Hf Hq]. pose proof (Hq q) as (Q1 & Q2 & Q3 & Q4).
  destruct (thread_unique s q t1 _ t2 Hs Et eq_refl) as (U1 & U2 & U3 & U4 & U5).
  rewrite Et, !elem_threads in *. set (s1 := note_call q s (svc_call q s)).
  assert (s_flag s1 = s_flag s ∧ s_run s1 = s_run s ∧ s_removing s1 = s_removing s ∧
    s_want s1 = s_want s ∖ {[q]} ∧ s_qrunflag s1 = s_qrunflag s) as (E1 & E2 & E3 & E4 & E5)
    by (unfold s1, note_call, svc_call; destruct (has_bit (flag s q) QWCLOSE); simpl; by rewrite ?bool_decide_true by done).
  set (s2 := set_threads (t1 ++ TServing q :: t2) s1).
  assert (∀ q', enab s2 q' = enab s q' ∧ insvc s2 q' = insvc s q') as Hfl by (apply flags_of; exact E1).
  apply (step_ok s _ q Hs); simpl.
  - unfold places in *. simpl. rewrite E2, E3, at_threads. rewrite Et, at_threads in Hd. exact Hd.
  - by rewrite E2, E5.
  - intros q' Hne. destruct (Hfl q') as [F1 F2]. split; [exact F1|exact F2|..]; simpl;
      rewrite ?E2, ?E3, ?E4, ?Et; elems.
  - destruct (Hfl q) as [F1 F2]. unfold queue_ok. rewrite F1, F2, elem_places in *. simpl.
    rewrite E2, E3, E4, !elem_threads, elem_of_difference, elem_of_singleton in *. intuition congruence.
Qed.

Lemma end_ok s q t1 t2 again s' : sched_ok s → s_threads s = t1 ++ TServing q :: t2 → svc_end q s = (again, s') →
  sched_ok (set_threads (t1 ++ (if again then TRun q else TIdle) :: t2) s').
Proof.
  intros Hs Et E. pose proof Hs as [Hd Hf Hq]. pose proof (Hq q) as (Q1 & Q2 & Q3 & Q4).
  destruct (thread_unique s q t1 _ t2 Hs Et eq_refl) as (U1 & U2 & U3 & U4 & U5).
  rewrite Et, !elem_threads in *. unfold svc_end in E. fold (enab s q) in E.
  assert (insvc s q = true) as Hi by (apply Q2; tauto).
  destruct (enab s q) eqn:En; injection E as <- <-.
  - set (s1 := set_threads _ _). assert (enab s1 q = false ∧ insvc s1 q = true) as [Ee Ei].
    { unfold enab, insvc. assert (flag s1 q = clr_bit (flag s q) QENAB) as ->
        by (etrans; [apply flag_set|by rewrite decide_True]).
      by rewrite has_clr_same, has_clr_other. }
    apply (step_ok s _ q Hs); simpl.
    + unfold places in *. simpl. rewrite at_threads. rewrite Et, at_threads in Hd. exact Hd.
    + exact Hf.
    + unfold s1. other_flags; rewrite ?Et; elems.
    + unfold queue_ok. rewrite Ee, Ei, elem_places in *. simpl. rewrite !elem_threads in *. intuition congruence.
  - set (s1 := set_threads _ _). assert (enab s1 q = false ∧ insvc s1 q = false) as [Ee Ei].
    { unfold enab, insvc. assert (flag s1 q = clr_bit (clr_bit (flag s q) QINSERVICE) QBACK) as ->
        by (etrans; [apply flag_set|by rewrite decide_True]).
      split; [by rewrite !has_clr_other|by rewrite has_clr_other, has_clr_same]. }
    apply (step_ok s _ q Hs); simpl.
    + unfold places in *. simpl. rewrite at_threads. rewrite Et, at_threads in Hd. simpl in Hd.
      rewrite <- Permutation_middle in Hd. by apply list.NoDup_cons in Hd as [_ Hd].
    + exact Hf.
    + unfold s1. other_flags; rewrite ?Et; elems.
    + unfold queue_ok. rewrite Ee, Ei, elem_places in *. simpl. rewrite !elem_threads in *. intuition congruence.
Qed.

Lemma close_ok s q f : sched_ok s → has_bit f QENAB = enab s q → has_bit f QINSERVICE = insvc s q →
  sched_ok (set_flag q f s).
Proof.
  intros Hs Ee Ei. pose proof Hs as [Hd Hf Hq]. apply (step_ok s _ q Hs); simpl; [exact Hd|exact Hf| |].
  - other_flags; elems.
  - destruct (flags_set_eq s q f) as [F1 F2]. pose proof (Hq q) as H. unfold queue_ok in *.
    by rewrite F1, F2, Ee, Ei.
Qed.

Lemma rmv_qp_spec l q : match rmv_qp l q with
  | (true, l') => l ≡ₚ q :: l'
  | (false, l') => (q ∉ l) ∧ l' = l
  end.
Proof.
  induction l as [|x l IH]; simpl; [split; [apply not_elem_of_nil|done]|].
  destruct (Z.eqb_spec x q) as [->|Hne]; [done|]. destruct (rmv_qp l q) as [[] l'].
  - rewrite IH. apply Permutation_swap.
  - destruct IH as [H ->]. split; [|done]. rewrite elem_of_cons. intuition congruence.
Qed.

Lemma remove_ok s q did s' : sched_ok s → remove_locked q s = (did, s') →
  sched_ok (if did then set_removing (q :: s_removing s) s' else s').
Proof.
  intros Hs E. pose proof Hs as [Hd Hf Hq]. pose proof (Hq q) as (Q1 & Q2 & Q3 & Q4).
  unfold remove_locked in E. fold (enab s q) in E. destruct (enab s q) eqn:En; [|by injection E as <- <-].
  pose proof (rmv_qp_spec (s_run s) q) as Hr. destruct (rmv_qp (s_run s) q) as [[] l]; injection E as <- <-.
  - destruct (run_unique s q l Hs Hr) as (U1 & U2 & U3 & U4 & U5).
    assert (∀ x, x ∈ s_run s ↔ x = q ∨ x ∈ l) as Hel by (intros x; rewrite Hr; apply elem_of_cons).
    apply (step_ok s _ q Hs); simpl.
    + unfold places in *. simpl. rewrite Hr in Hd. simpl in Hd. by rewrite <- !Permutation_middle.
    + intros _. apply Hf. intros Hn. rewrite Hn in Hr. by apply Permutation_nil_cons in Hr.
    + other_flags; rewrite ?Hel; elems.
    + unfold queue_ok, enab, insvc in *. unfold flag in *. rewrite elem_places, Hel in *. simpl in *.
      rewrite elem_of_cons in *. intuition congruence.
  - destruct Hr as [_ ->]. by assert (set_run (s_run s) s = s) as -> by (by destruct s).
Qed.

Lemma removed_ok s q r1 r2 : sched_ok s → s_removing s = r1 ++ q :: r2 →
  sched_ok (set_removing (r1 ++ r2) (note_removed q (remove_end q s))).
Proof.
  intros Hs Er. pose proof Hs as [Hd Hf Hq]. pose proof (Hq q) as (Q1 & Q2 & Q3 & Q4).
  destruct (removing_unique s q r1 r2 Hs Er) as (U1 & U2 & U3 & U4 & U5).
  set (s1 := set_removing (r1 ++ r2) (note_removed q (remove_end q s))).
  assert (enab s q = true ∧ insvc s q = false) as [_ Hi].
  { apply Q1. rewrite Er. right. right. apply elem_of_app. right. left. }
  assert (enab s1 q = false ∧ insvc s1 q = false) as [Ee Ei].
  { unfold enab, insvc. assert (flag s1 q = clr_bit (flag s q) QENAB) as ->
      by (etrans; [apply flag_set|by rewrite decide_True]).
    by rewrite has_clr_same, has_clr_other. }
  apply (step_ok s _ q Hs); simpl.
  - unfold places in *. simpl. rewrite Er in Hd. rewrite <- !Permutation_middle in Hd.
    by apply list.NoDup_cons in Hd as [_ Hd].
  - exact Hf.
  - unfold s1. other_flags; rewrite ?Er; elems.
  - unfold queue_ok. rewrite Ee, Ei, elem_places. simpl.
    rewrite elem_of_difference, elem_of_singleton in *. rewrite !elem_of_app in *. intuition congruence.
Qed.

Lemma sched_step_ok s l s' : sched_ok s → sched_step srvp s l s' → sched_ok s'.
Proof.
  intros Hs Hst. revert Hs. destruct Hst; intros Hs.
  - by apply qenable_ok.
  - by eapply pick_ok.
  - by apply begin_ok.
  - by apply call_ok.
  - by eapply end_ok.
  - apply close_ok; [done| |]; by apply has_set_other.
  - apply close_ok; [done| |]; by apply has_clr_other.
  - by apply remove_ok.
  - by apply removed_ok.
Qed.
End steps.
