(* ===== verification/StrSchedThms.v ===== *)
(** * Theorems about the queue scheduler *)

From S2P Require Import Prelude Strq StrSched StrSchedProps.

(** Runs of the system. *)
Inductive sched_run (srvp : Z → bool) : sched → list label → sched → Prop :=
  | run_nil s : sched_run srvp s [] s
  | run_cons s l s' ls s'' : sched_step srvp s l s' → sched_run srvp s' ls s'' → sched_run srvp s (l :: ls) s''.

(** At boot: [n] threads, no queue enabled or in service. *)
Definition sched_init (fl : gmap Z Z) (n : nat) : sched :=
  MkSched fl [] false (replicate n TIdle) [] ∅ [].

Definition quiet_flags (fl : gmap Z Z) : Prop :=
  map_Forall (λ _ f, has_bit f QENAB = false ∧ has_bit f QINSERVICE = false) fl.

Lemma init_ok fl n : quiet_flags fl → sched_ok (sched_init fl n).
Proof.
  intros Hfl. assert (omap at_pc (replicate n TIdle) = []) as Ht by (induction n; done).
  assert (∀ q, enab (sched_init fl n) q = false ∧ insvc (sched_init fl n) q = false) as Hq.
  { intros q. unfold enab, insvc, flag. simpl. destruct (fl !! q) as [f|] eqn:E; [|done]. by apply (Hfl q f). }
  split.
  - unfold places. simpl. rewrite Ht. constructor.
  - done.
  - intros q. destruct (Hq q) as [E1 E2]. unfold queue_ok. rewrite E1, E2, elem_places. simpl.
    rewrite !elem_of_replicate, elem_of_empty, !elem_of_nil. intuition congruence.
Qed.

Lemma run_ok srvp s ls s' : sched_ok s → sched_run srvp s ls s' → sched_ok s'.
Proof. intros Hs H. induction H; [done|]. by eapply IHsched_run, sched_step_ok. Qed.

Lemma at_middle (l : list pc) i p : l !! i = Some p → l = take i l ++ p :: drop (S i) l.
Proof. intros H. symmetry. by apply take_drop_middle. Qed.

(** C18: Service procedures are not re-entered: in every reachable state at most one thread
    has a given queue, picked, in service or called; it is then not on the run list,
    and no queue is there twice.  So [dq_service] never has to skip a queue in service:
    it takes the head of the list. *)
Theorem service_exclusive srvp fl n ls s :
  quiet_flags fl → sched_run srvp (sched_init fl n) ls s →
  (∀ i j p p' q, s_threads s !! i = Some p → s_threads s !! j = Some p' →
    at_pc p = Some q → at_pc p' = Some q → i = j) ∧
  NoDup (s_run s) ∧ (∀ q p, q ∈ s_run s → p ∈ s_threads s → at_pc p ≠ Some q) ∧
  dq_service s = match s_run s with
                 | [] => (None, s)
                 | q :: l => (Some q, match l with [] => set_qrunflag false (set_run l s) | _ => set_run l s end)
                 end.
Proof.
  intros Hfl Hrun. pose proof (run_ok _ _ _ _ (init_ok fl n Hfl) Hrun) as Hs. clear Hrun.
  pose proof (so_places _ Hs) as Hd. unfold places in Hd. apply list.NoDup_app in Hd as (Hd1 & Hd2 & _).
  split; [|split; [done|split]].
  - intros i j p p' q Hi Hj Ep Ep'. destruct (decide (i = j)) as [|Hne]; [done|]. exfalso.
    pose proof (at_middle _ _ _ Hi) as Et. destruct (thread_unique s q _ _ _ Hs Et Ep) as (_ & _ & H1 & H2 & H3).
    assert (p' ∈ take i (s_threads s) ++ drop (S i) (s_threads s)) as Hin.
    { apply elem_of_app. destruct (decide (j < i)%nat).
      - left. apply list_elem_of_lookup. exists j. by rewrite lookup_take_lt.
      - right. apply list_elem_of_lookup. exists (j - S i)%nat. rewrite lookup_drop.
        by replace (S i + (j - S i))%nat with j by lia. }
    destruct p'; simplify_eq/=; done.
  - intros q p Hq Hp Ep. apply (Hd2 q Hq). apply elem_of_app. left. apply list_elem_of_omap. eauto.
  - unfold dq_service. rewrite dq_find_head by done. by destruct (s_run s).
Qed.

Lemma service_exclusive_witness :
  ∃ ls s, sched_run (λ _, true) (sched_init ∅ 2) ls s ∧ s_threads s = [TServing 7; TIdle] ∧ s_run s = [8] ∧
    NoDup (s_run s).
Proof.
  assert (∃ s, sched_run (λ _, true) (sched_init ∅ 2) [LEnable 7; LEnable 8; LPick 7; LBegin 7; LCall 7] s ∧
    s_threads s = [TServing 7; TIdle] ∧ s_run s = [8]) as (s & Hr & Ht & Hrn).
  { eexists. split; [|split].
    - eapply run_cons; [apply st_enable|]. eapply run_cons; [apply st_enable|].
      eapply run_cons; [eapply (st_pick _ _ _ 7 [] [TIdle]); vm_compute; reflexivity|].
      eapply run_cons; [eapply (st_begin _ _ 7 [] [TIdle]); reflexivity|].
      eapply run_cons; [eapply (st_call _ _ 7 [] [TIdle]); reflexivity|]. apply run_nil.
    - reflexivity.
    - reflexivity. }
  do 2 eexists. split; [exact Hr|]. split; [done|]. split; [done|].
  eapply (service_exclusive (λ _, true) ∅ 2); [|exact Hr]. by intros k x ?%lookup_empty_Some.
Defined.

(** C14: No call of [qenable] is lost.  A queue with a service procedure for which [qenable]
    was called, while the queue was not closing, and whose service procedure has not been
    called since, is on the run list, or with a thread that will call it (again: a thread
    that serves it finds [QENAB] set), or was taken off by a thread that closes it.  What
    counts is the call of [qenable], whatever it finds in the flags; a queue that closes
    is not called for.  When no thread is at work and none closes queues, all such queues
    are on the list and the scheduler is asked to run. *)
Theorem no_lost_enable srvp fl n ls s q :
  quiet_flags fl → sched_run srvp (sched_init fl n) ls s → q ∈ s_want s →
  (q ∈ s_run s ∨ TPicked q ∈ s_threads s ∨ TRun q ∈ s_threads s ∨
   (TServing q ∈ s_threads s ∧ enab s q = true) ∨ q ∈ s_removing s) ∧
  ((∀ p, p ∈ s_threads s → p = TIdle) → s_removing s = [] →
   q ∈ s_run s ∧ s_qrunflag s = true ∧ ∃ q' s', dq_service s = (Some q', s')).
Proof.
  intros Hfl Hrun Hw. pose proof (run_ok _ _ _ _ (init_ok fl n Hfl) Hrun) as Hs. clear Hrun.
  destruct (so_queue _ Hs q) as (Q1 & Q2 & Q3 & Q4). specialize (Q4 Hw). rewrite elem_places in Q3.
  assert (q ∈ s_run s ∨ TPicked q ∈ s_threads s ∨ TRun q ∈ s_threads s ∨
    (TServing q ∈ s_threads s ∧ enab s q = true) ∨ q ∈ s_removing s) as Hq by (intuition congruence).
  split; [exact Hq|]. intros Hidle Hnil.
  assert (q ∈ s_run s) as Hr.
  { destruct Hq as [H|[H|[H|[[H _]|H]]]]; [done|apply Hidle in H; done..|]. rewrite Hnil in H. by apply elem_of_nil in H. }
  split; [done|]. assert (s_run s ≠ []) as Hne by (intros E; rewrite E in Hr; by apply elem_of_nil in Hr).
  split; [by apply (so_qrunflag _ Hs)|]. unfold dq_service. rewrite dq_find_head by done.
  destruct (s_run s) as [|q0 l]; [done|]. eauto.
Qed.

Lemma no_lost_enable_witness :
  ∃ ls s, sched_run (λ _, true) (sched_init ∅ 1) ls s ∧ 7 ∈ s_want s ∧
    (7 ∈ s_run s ∨ TPicked 7 ∈ s_threads s ∨ TRun 7 ∈ s_threads s ∨
     (TServing 7 ∈ s_threads s ∧ enab s 7 = true) ∨ 7 ∈ s_removing s).
Proof.
  assert (∃ s, sched_run (λ _, true) (sched_init ∅ 1) [LEnable 7; LPick 7; LBegin 7; LCall 7; LEnable 7] s ∧
    7 ∈ s_want s) as (s & Hr & Hw).
  { eexists. split.
    - eapply run_cons; [apply st_enable|].
      eapply run_cons; [eapply (st_pick _ _ _ 7 [] []); vm_compute; reflexivity|].
      eapply run_cons; [eapply (st_begin _ _ 7 [] []); reflexivity|].
      eapply run_cons; [eapply (st_call _ _ 7 [] []); reflexivity|].
      eapply run_cons; [apply st_enable|]. apply run_nil.
    - apply (bool_decide_eq_true _). vm_compute. reflexivity. }
  do 2 eexists. split; [exact Hr|]. split; [exact Hw|].
  eapply (no_lost_enable (λ _, true) ∅ 1); [|exact Hr|exact Hw]. by intros k x ?%lookup_empty_Some.
Defined.

(** ** Closing *)

Definition closed (s : sched) (q : Z) : Prop :=
  has_bit (flag s q) QWCLOSE = true ∧ enab s q = false ∧ insvc s q = false.

Lemma closed_nowhere s q : sched_ok s → enab s q = false → insvc s q = false → q ∉ places s.
Proof.
  intros Hs E1 E2. destruct (so_queue _ Hs q) as (Q1 & Q2 & _ & _). rewrite elem_places. intuition congruence.
Qed.

Lemma closed_flag s s' q : flag s' q = flag s q → closed s q → closed s' q.
Proof. unfold closed, enab, insvc. by intros ->. Qed.

Lemma closed_set s q v q' : q' ≠ q → closed s q → closed (set_flag q' v s) q.
Proof. intros Hne. apply closed_flag. by rewrite flag_set, decide_False. Qed.

Lemma closed_step srvp s l s' q : sched_ok s → closed s q → sched_step srvp s l s' → l ≠ LOpen q →
  closed s' q ∧ l ≠ LCall q ∧ l ≠ LPick q.
Proof.
  intros Hs Hc Hst Hl. pose proof Hc as (C1 & C2 & C3).
  pose proof (closed_nowhere s q Hs C2 C3) as Hnp. rewrite elem_places in Hnp.
  assert (∀ p t1 t2 q', s_threads s = t1 ++ p :: t2 → at_pc p = Some q' → q' ≠ q) as Hth.
  { intros p t1 t2 q' E Ep ->. apply Hnp. right. left. rewrite E, !elem_threads. destruct p; simplify_eq/=; tauto. }
  revert Hs Hc C1 C2 C3 Hnp Hth Hl. destruct Hst as [s q0|s s' q0 t1 t2 Et E|s q0 t1 t2 Et|s q0 t1 t2 Et|s q0 t1 t2 again s' Et E|s q0|s q0|s q0 did s' Hw E|s q0 r1 r2 Er];
    intros Hs Hc C1 C2 C3 Hnp Hth Hl.
  - split; [|done]. apply (closed_flag (qenable_locked srvp q0 s)); [unfold note_enable; by case_if|].
    destruct (decide (q0 = q)) as [->|Hne].
    + unfold qenable_locked. destruct (srvp q); [|done]. simpl. by rewrite has_or, C1.
    + unfold qenable_locked. destruct (srvp q0); [|done]. simpl. case_if; [done|].
      apply (closed_set s q (set_bit (flag s q0) QENAB) q0 Hne) in Hc. by case_if.
  - unfold dq_service in E. rewrite dq_find_head in E by done.
    destruct (s_run s) as [|q1 l]; [done|]. injection E as -> <-.
    assert (q0 ≠ q) as Hne by (intros ->; apply Hnp; left; left).
    split; [|by split; [|congruence]]. destruct l; exact Hc.
  - split; [|done]. by apply (closed_set s q _ q0); [eapply Hth|].
  - assert (q0 ≠ q) by (by eapply Hth). split; [|by split; [congruence|]].
    apply (closed_flag s); [|exact Hc]. unfold note_call, svc_call. by destruct (has_bit (flag s q0) QWCLOSE); simpl; [|case_if].
  - split; [|done]. assert (q0 ≠ q) as Hne by (by eapply Hth). unfold svc_end in E.
    case_if_in E; injection E as <- <-; by apply (closed_set s q _ q0).
  - split; [|done]. destruct (decide (q0 = q)) as [->|Hne]; [|by apply (closed_set s q _ q0)].
    unfold closed, enab, insvc in *. unfold disable_svc. rewrite flag_set, decide_True by done.
    by rewrite has_set_same, !has_set_other.
  - split; [|done]. by apply (closed_set s q _ q0); [congruence|].
  - split; [|done]. unfold remove_locked in E. case_if_in E; [|by injection E as <- <-].
    destruct (rmv_qp (s_run s) q0) as [d l]. injection E as <- <-. destruct d; exact Hc.
  - split; [|done]. apply (closed_set s q _ q0); [|exact Hc].
    intros ->. apply Hnp. right. right. rewrite Er. apply elem_of_app. right. left.
Qed.

(** Once a queue is disabled and [wait_svc] has found it neither enabled nor in service
    ([svc_quiet]), no thread has it, it is on no list, and until it is enabled again
    its service procedure is never called and the scheduler never touches it: the
    queue may be freed. *)
Theorem closed_queue_unused srvp fl n ls s q ls' s' :
  quiet_flags fl → sched_run srvp (sched_init fl n) ls s →
  has_bit (flag s q) QWCLOSE = true → svc_quiet q s = true →
  sched_run srvp s ls' s' → LOpen q ∉ ls' →
  (q ∉ places s') ∧ (LCall q ∉ ls') ∧ (LPick q ∉ ls').
Proof.
  intros Hfl Hrun Hw Hq Hrun' Hopen. pose proof (run_ok _ _ _ _ (init_ok fl n Hfl) Hrun) as Hs. clear Hrun.
  assert (closed s q) as Hc.
  { unfold svc_quiet in Hq. rewrite has_or in Hq. apply negb_true_iff, orb_false_iff in Hq as [H1 H2]. done. }
  clear Hw Hq. induction Hrun' as [s|s l s1 ls1 s2 Hst Hrun' IH].
  - split; [|split; apply not_elem_of_nil]. by apply closed_nowhere; [|apply Hc..].
  - apply not_elem_of_cons in Hopen as [Ho1 Ho2].
    destruct (closed_step srvp s l s1 q Hs Hc Hst) as (Hc1 & H1 & H2); [congruence|].
    destruct (IH Ho2) as (I1 & I2 & I3); [by eapply sched_step_ok|done|].
    split; [done|]. rewrite !not_elem_of_cons. split; split; [congruence|done|congruence|done].
Qed.

Lemma closed_queue_unused_witness :
  ∃ s', sched_run (λ _, true) (sched_init {[7 := QWCLOSE]} 1) [LEnable 7; LEnable 8] s' ∧ 7 ∉ places s'.
Proof.
  assert (∃ s', sched_run (λ _, true) (sched_init {[7 := QWCLOSE]} 1) [LEnable 7; LEnable 8] s') as [s' Hr].
  { eexists. eapply run_cons; [apply st_enable|]. eapply run_cons; [apply st_enable|]. apply run_nil. }
  exists s'. split; [exact Hr|].
  apply (closed_queue_unused (λ _, true) {[7 := QWCLOSE]} 1 [] (sched_init {[7 := QWCLOSE]} 1) 7 [LEnable 7; LEnable 8] s').
  - intros k f [<- <-]%lookup_singleton_Some. done.
  - apply run_nil.
  - reflexivity.
  - reflexivity.
  - exact Hr.
  - intros H. do 2 (apply elem_of_cons in H as [H|H]; [done|]). by apply elem_of_nil in H.
Defined.

(** ** Termination *)

Section drain.
Context (srvp : Z → bool) (svc : Z → list Z) (w : Z → nat).

Definition weight (l : list Z) : nat := sum_list_with w l.

(** No queue in service, exactly the queues on the list are enabled. *)
Record resting (s : sched) : Prop := {
  re_nodup : NoDup (s_run s);
  re_enab q : enab s q = true ↔ q ∈ s_run s;
  re_insvc q : insvc s q = false
}.

(** The queue [q] alone is in service. *)
Record busy (q : Z) (s : sched) : Prop := {
  bu_nodup : NoDup (s_run s);
  bu_enab q' : enab s q' = true ↔ q' ∈ s_run s;
  bu_insvc q' : insvc s q' = bool_decide (q' = q);
  bu_off : q ∉ s_run s
}.

(** The service procedures enable queues of less weight in all than their own. *)
Hypothesis Hw : ∀ q, (weight (svc q) < w q)%nat.

Lemma weight_app l1 l2 : weight (l1 ++ l2) = (weight l1 + weight l2)%nat.
Proof. apply sum_list_with_app. Qed.

Lemma weight_elem q l : q ∈ l → (w q ≤ weight l)%nat.
Proof. apply sum_list_with_in. Qed.

Lemma svc_other q q' : q' ∈ svc q → q' ≠ q.
Proof. intros H%weight_elem ->. specialize (Hw q). lia. Qed.

Lemma qenable_busy q q' s : busy q s → q' ≠ q →
  let s' := qenable_locked srvp q' s in
  busy q s' ∧ (weight (s_run s') ≤ weight (s_run s) + w q')%nat ∧ s_log s' = s_log s ∧
  (∀ x, x ∈ s_run s → x ∈ s_run s') ∧ (∀ x, has_bit (flag s' x) QWCLOSE = has_bit (flag s x) QWCLOSE).
Proof.
  intros [Hn He Hi Ho] Hne. unfold qenable_locked. destruct (srvp q'); simpl; [|split; [done|split; [lia|done]]].
  rewrite has_or. destruct (has_bit (flag s q') QWCLOSE) eqn:Ec; simpl; [split; [done|split; [lia|done]]|].
  fold (enab s q'). destruct (enab s q') eqn:En; [split; [done|split; [lia|done]]|].
  set (f := set_bit (flag s q') QENAB).
  assert (∀ s1, s_flag s1 = s_flag (set_flag q' f s) → ∀ x, enab s1 x = (if decide (q' = x) then true else enab s x) ∧
    insvc s1 x = insvc s x ∧ has_bit (flag s1 x) QWCLOSE = has_bit (flag s x) QWCLOSE) as Hfl.
  { intros s1 E x. assert (flag s1 x = flag (set_flag q' f s) x) as Ef by (unfold flag; by rewrite E).
    unfold enab, insvc. rewrite Ef, flag_set. case_decide; [subst x|done]. unfold f.
    by rewrite has_set_same, !has_set_other. }
  destruct (Hfl (set_flag q' f s) ltac:(done) q') as (_ & Ei & _). unfold insvc in Ei.
  rewrite Ei. fold (insvc s q'). rewrite Hi, bool_decide_false by done.
  set (s1 := set_qrunflag true _). assert (q' ∉ s_run s) as Hnr by (rewrite <- He; congruence).
  split; [|split; [|split; [done|split]]].
  - split.
    + simpl. apply list.NoDup_app. split; [done|]. split; [|apply NoDup_singleton].
      intros x Hx Hx'%list_elem_of_singleton. by subst.
    + intros x. destruct (Hfl s1 ltac:(done) x) as (-> & _). simpl. rewrite elem_of_app, list_elem_of_singleton.
      case_decide; [subst; tauto|]. rewrite He. intuition congruence.
    + intros x. destruct (Hfl s1 ltac:(done) x) as (_ & -> & _). apply Hi.
    + simpl. rewrite elem_of_app, list_elem_of_singleton. intuition congruence.
  - simpl. rewrite weight_app. simpl. lia.
  - intros x Hx. simpl. apply elem_of_app. by left.
  - intros x. by apply (Hfl s1 ltac:(done) x).
Qed.

Lemma qenables_busy q qs s : busy q s → (∀ x, x ∈ qs → x ≠ q) →
  let s' := fold_left (λ s q', qenable_locked srvp q' s) qs s in
  busy q s' ∧ (weight (s_run s') ≤ weight (s_run s) + weight qs)%nat ∧ s_log s' = s_log s ∧
  (∀ x, x ∈ s_run s → x ∈ s_run s') ∧ (∀ x, has_bit (flag s' x) QWCLOSE = has_bit (flag s x) QWCLOSE).
Proof.
  revert s. induction qs as [|x qs IH]; intros s Hb Hne; simpl; [split; [done|split; [lia|done]]|].
  destruct (qenable_busy q x s Hb) as (Hb1 & Hw1 & Hl1 & Hr1 & Hc1); [apply Hne; left|].
  destruct (IH _ Hb1) as (Hb2 & Hw2 & Hl2 & Hr2 & Hc2); [intros y Hy; apply Hne; by right|].
  split; [done|]. split; [lia|]. split; [congruence|]. split; [by auto|]. intros y. by rewrite Hc2.
Qed.

Lemma flags_busy_call q s : busy q s → busy q (svc_call q s) ∧ s_run (svc_call q s) = s_run s ∧
  s_flag (svc_call q s) = s_flag s ∧
  s_log (svc_call q s) = (if has_bit (flag s q) QWCLOSE then s_log s else q :: s_log s).
Proof.
  intros [H1 H2 H3 H4]. unfold svc_call.   case_if; (split; [by split|done]).
Qed.

(** The service of one queue: the list loses no queue, and grows by at most the weight
    of what the service procedure enables. *)
Lemma runservice_ok q s fuel : busy q s → (0 < fuel)%nat →
  ∃ s', runservice srvp svc fuel q s = Some s' ∧ resting s' ∧
    (weight (s_run s') ≤ weight (s_run s) + weight (svc q))%nat ∧
    (∀ x, x ∈ s_run s → x ∈ s_run s') ∧ (∀ x, has_bit (flag s' x) QWCLOSE = has_bit (flag s x) QWCLOSE) ∧
    s_log s' = (if has_bit (flag s q) QWCLOSE then s_log s else q :: s_log s).
Proof.
  intros Hb Hf. destruct fuel as [|fuel]; [lia|]. simpl.
  destruct (flags_busy_call q s Hb) as (Hb1 & Er1 & Ef1 & El1).
  set (s1 := svc_call q s) in *.
  set (s2 := if has_bit (flag s q) QWCLOSE then s1 else fold_left (λ s q', qenable_locked srvp q' s) (svc q) s1).
  assert (busy q s2 ∧ (weight (s_run s2) ≤ weight (s_run s) + weight (svc q))%nat ∧ s_log s2 = s_log s1 ∧
    (∀ x, x ∈ s_run s → x ∈ s_run s2) ∧ (∀ x, has_bit (flag s2 x) QWCLOSE = has_bit (flag s x) QWCLOSE)) as (Hb2 & Hw2 & El2 & Hr2 & Hc2).
  { assert (∀ x, flag s1 x = flag s x) as Efl by (intros x; unfold flag; by rewrite Ef1).
    unfold s2. destruct (has_bit (flag s q) QWCLOSE).
    - rewrite Er1. split; [done|]. split; [lia|]. split; [done|]. split; [done|]. intros x. by rewrite Efl.
    - destruct (qenables_busy q (svc q) s1 Hb1 (svc_other q)) as (H1 & H2 & H3 & H4 & H5).
      rewrite Er1 in *. split; [done|]. split; [done|]. split; [done|]. split; [done|]. intros x. by rewrite H5, Efl. }
  unfold svc_end. fold (enab s2 q). destruct Hb2 as [Hn He Hi Ho].
  assert (enab s2 q = false) as En by (destruct (enab s2 q) eqn:E; [by apply He in E|done]). rewrite En.
  set (f := clr_bit (clr_bit (flag s2 q) QINSERVICE) QBACK).
  eexists. split; [reflexivity|]. split; [|split; [done|split; [done|split; [|by rewrite <- El1]]]].
  - split; simpl; [done| |].
    + intros x. destruct (decide (x = q)) as [->|Hne].
      * destruct (flags_set_eq s2 q f) as [-> _]. unfold f. rewrite !has_clr_other by done. fold (enab s2 q).
        rewrite En. intuition congruence.
      * destruct (flags_set_ne s2 q f x Hne) as [-> _]. apply He.
    + intros x. destruct (decide (x = q)) as [->|Hne].
      * destruct (flags_set_eq s2 q f) as [_ ->]. unfold f. by rewrite has_clr_other, has_clr_same.
      * destruct (flags_set_ne s2 q f x Hne) as [_ ->]. rewrite Hi. by apply bool_decide_false.
  - intros x. rewrite flag_set. case_decide; [subst x|done]. unfold f. by rewrite !has_clr_other.
Qed.

Lemma begin_busy s q l : resting s → s_run s = q :: l →
  busy q (svc_begin q (set_run l s)) ∧ busy q (svc_begin q (set_qrunflag false (set_run l s))) ∧
  ∀ x, has_bit (flag (svc_begin q (set_run l s)) x) QWCLOSE = has_bit (flag s x) QWCLOSE.
Proof.
  intros [Hn He Hi] E. rewrite E in *. apply list.NoDup_cons in Hn as [Hq Hn].
  set (f := set_bit (clr_bit (flag s q) QENAB) QINSERVICE).
  assert (∀ s1, s_flag s1 = s_flag (set_flag q f s) → s_run s1 = l → busy q s1) as Hb.
  { intros s1 E1 E2. assert (∀ x, flag s1 x = flag (set_flag q f s) x) as Ef by (intros x; unfold flag; by rewrite E1).
    split; rewrite ?E2; [done| | |done]; intros x.
    - unfold enab. rewrite Ef, flag_set. case_decide; [subst x; unfold f|].
      + rewrite has_set_other, has_clr_same by done. intuition congruence.
      + fold (enab s x). rewrite He, elem_of_cons. intuition congruence.
    - unfold insvc. rewrite Ef, flag_set. case_decide; [subst x; unfold f|].
      + by rewrite has_set_same, bool_decide_true.
      + fold (insvc s x). rewrite Hi. by rewrite bool_decide_false by congruence. }
  split; [by apply Hb|]. split; [by apply Hb|]. intros x. unfold svc_begin. rewrite flag_set.
  case_decide; [subst x|done]. by rewrite has_set_other, has_clr_other.
Qed.

Lemma queuerun_ok fuel s : resting s → (weight (s_run s) < fuel)%nat →
  ∃ s', queuerun srvp svc fuel s = Some s' ∧ resting s' ∧ s_run s' = [] ∧
    (∀ q, q ∈ s_run s → has_bit (flag s q) QWCLOSE = false → q ∈ s_log s') ∧
    (∀ q, q ∈ s_log s → q ∈ s_log s') ∧
    ∀ x, has_bit (flag s' x) QWCLOSE = has_bit (flag s x) QWCLOSE.
Proof.
  revert s. induction fuel as [|fuel IH]; intros s Hre Hf; [lia|]. simpl. unfold dq_service.
  assert (dq_find s (s_run s) = match s_run s with [] => None | q :: l => Some (q, l) end) as ->.
  { destruct (s_run s) as [|q l]; simpl; [done|]. fold (insvc s q). by rewrite (re_insvc _ Hre q). }
  destruct (s_run s) as [|q l] eqn:Er.
  { exists s. split; [done|]. split; [done|]. split; [done|]. split; [by intros q ?%elem_of_nil|]. done. }
  destruct (begin_busy s q l Hre Er) as (B1 & B2 & Bc).
  assert (∃ s1, busy q (svc_begin q s1) ∧ match l with [] => set_qrunflag false (set_run l s) | _ => set_run l s end = s1 ∧
    s_run (svc_begin q s1) = l ∧ s_log (svc_begin q s1) = s_log s ∧
    (∀ x, has_bit (flag (svc_begin q s1) x) QWCLOSE = has_bit (flag s x) QWCLOSE)) as (s1 & Hb & -> & E1 & E2 & E3).
  { destruct l; eexists; (split; [|split; [reflexivity|]]); done. }
  simpl in Hf. pose proof (Hw q).
  destruct (runservice_ok q (svc_begin q s1) fuel Hb) as (s2 & -> & Hre2 & Hw2 & Hr2 & Hc2 & Hl2); [lia|].
  rewrite E1 in *. rewrite E2, E3 in Hl2.
  destruct (IH s2 Hre2) as (s3 & -> & Hre3 & Hn3 & Hr3 & Hl3 & Hc3); [lia|].
  exists s3. split; [done|]. split; [done|]. split; [done|]. split; [|split].
  - intros x [->|Hx]%elem_of_cons Hx2.
    + apply Hl3. rewrite Hl2, Hx2. left.
    + apply Hr3; [by apply Hr2|]. by rewrite Hc2, E3.
  - intros x Hx. apply Hl3. rewrite Hl2. case_if; [done|by right].
  - intros x. by rewrite Hc3, Hc2, E3.
Qed.

(** [queuerun] returns: alone, with service procedures that enable only queues of less
    weight in all than their own (as when queues enable those downstream), its loop
    ends with the list empty and no queue enabled or in service, and every queue that
    was on the list and not closing has been served. *)
Theorem queuerun_terminates s :
  resting s →
  ∃ fuel s', queuerun srvp svc fuel s = Some s' ∧ s_run s' = [] ∧
    (∀ q, enab s' q = false ∧ insvc s' q = false) ∧
    (∀ q, q ∈ s_run s → has_bit (flag s q) QWCLOSE = false → q ∈ s_log s').
Proof.
  intros Hre. destruct (queuerun_ok (S (weight (s_run s))) s Hre) as (s' & E & Hre' & Hn & Hs & _); [lia|].
  exists (S (weight (s_run s))), s'. split; [done|]. split; [done|]. split; [|done]. intros q.
  split; [|apply Hre']. destruct (enab s' q) eqn:Ee; [|done]. apply Hre' in Ee. rewrite Hn in Ee.
  by apply elem_of_nil in Ee.
Qed.
End drain.

(** Three queues of a stream: 9 enables 8, 8 enables 7. *)
Lemma queuerun_terminates_witness :
  let s := qenable_locked (λ _, true) 9 (qenable_locked (λ _, true) 8 (sched_init ∅ 0)) in
  let svc := λ q, if q =? 9 then [8] else if q =? 8 then [7] else [] in
  ∃ fuel s', queuerun (λ _, true) svc fuel s = Some s' ∧ s_run s' = [] ∧ 8 ∈ s_log s' ∧ 9 ∈ s_log s'.
Proof.
  intros s svc.
  destruct (queuerun_terminates (λ _, true) svc (λ q, if q =? 9 then 3%nat else if q =? 8 then 2%nat else 1%nat))
    with (s := s) as (fuel & s' & E & Hn & _ & Hl).
  - intros q. unfold svc, weight. destruct (q =? 9); [simpl; lia|]. destruct (q =? 8); simpl; lia.
  - assert (∀ q, flag s q = if decide (q = 9) then 1 else if decide (q = 8) then 1 else 0) as Hfl.
    { intros q. unfold s, flag. change (s_flag _) with (<[9 := 1]> (<[8 := 1]> (∅ : gmap Z Z))).
      repeat case_decide; subst; rewrite ?lookup_insert_eq, ?lookup_insert_ne by done; try done; by rewrite lookup_empty. }
    split; [apply (bool_decide_eq_true _); vm_compute; reflexivity| |].
    + intros q. unfold enab. rewrite Hfl. change (s_run s) with [8; 9]. rewrite !elem_of_cons, elem_of_nil.
      repeat case_decide; vm_compute has_bit; intuition congruence.
    + intros q. unfold insvc. rewrite Hfl. by repeat case_decide.
  - exists fuel, s'. split; [exact E|]. split; [done|].
    split; apply Hl; first [reflexivity | apply (bool_decide_eq_true _); vm_compute; reflexivity].
Defined.
