(* ===== verification/Share.v ===== *)
(** * DOS share reservations (uts/common/os/share.c, fs/fs_subr.c)

    A vnode carries the reservations made on its file, the newest first; the oldest is
    the first share.  A reservation names the accesses its owner wants and those it
    denies to others, or is in compatibility mode ([F_COMPAT]), where the rules depend on
    the first share.

    - [own_len] and the bytes at [owner] are one list.
    - The lock of the vnode is the atomicity of an operation; memory allocation sleeps
      until it succeeds. *)

From stdpp Require Import sorting.
From S2P Require Import Prelude.

Definition F_RDACC : Z := 1.
Definition F_WRACC : Z := 2.
Definition F_RWACC : Z := 3.
Definition F_NODNY : Z := 0.
Definition F_RDDNY : Z := 1.
Definition F_WRDNY : Z := 2.
Definition F_RWDNY : Z := 3.
Definition F_COMPAT : Z := 8.

Record shrlock := MkShr { sh_access : Z; sh_deny : Z; sh_sysid : Z; sh_pid : Z; sh_owner : list Z }.

Inductive vtype := VNON | VREG | VDIR | VBLK | VCHR | VLNK | VFIFO | VDOOR | VPROC | VSOCK | VBAD.

#[global] Instance vtype_eq_dec : EqDecision vtype.
Proof. solve_decision. Defined.

(** What the routines see of a vnode: its type, whether its file system is mounted
    read-only, and its reservations. *)
Record vnode := MkVnode { v_type : vtype; v_rdonly : bool; v_shrlocks : list shrlock }.

Definition set_shrlocks (l : list shrlock) (vp : vnode) : vnode := MkVnode (v_type vp) (v_rdonly vp) l.

Definition isreadonly (vp : vnode) : bool :=
  negb (bool_decide (v_type vp = VCHR)) && negb (bool_decide (v_type vp = VBLK)) &&
  negb (bool_decide (v_type vp = VFIFO)) && v_rdonly vp.

Definition compat (s : shrlock) : bool := has_bit (sh_deny s) F_COMPAT.
Definition same_owner (a b : shrlock) : bool :=
  (sh_sysid a =? sh_sysid b) && (sh_pid a =? sh_pid b) && bool_decide (sh_owner a = sh_owner b).

(** The loop over the reservations; 0 is leaving it to make the new one. *)
Fixpoint add_loop (ro : bool) (l : list shrlock) (shr : shrlock) : Z :=
  match l with
  | [] => 0
  | e :: next =>
    let first := bool_decide (next = []) in
    if same_owner e shr && ((sh_access e =? sh_access shr) && (sh_deny e =? sh_deny shr)) then EEXIST
    else if same_owner e shr && (compat e && compat shr && (first || has_bit (sh_access e) F_WRACC)) then 0
    else if compat e && first then
      if negb (compat shr) then
        if has_bit (sh_access shr) F_WRACC || has_bit (sh_deny shr) F_RDDNY || has_bit (sh_access e) F_WRACC then EAGAIN
        else if ro then 0
        else EAGAIN
      else if (sh_access shr =? F_RDACC) && (sh_access e =? F_RDACC) then 0
      else EAGAIN
    else if compat e && compat shr then add_loop ro next shr
    else if compat shr then
      if has_bit (sh_access shr) F_WRACC || has_bit (sh_deny e) F_RDDNY || has_bit (sh_access e) F_WRACC then EAGAIN
      else if first then (if (sh_access e =? F_RDACC) && ro then 0 else EAGAIN)
      else add_loop ro next shr
    else if has_bit (sh_access shr) (sh_deny e) || has_bit (sh_deny shr) (sh_access e) then EAGAIN
    else add_loop ro next shr
  end.

(** The reservation as it is kept: no other deny modes with [F_COMPAT]. *)
Definition kept_share (shr : shrlock) : shrlock :=
  if compat shr then MkShr (sh_access shr) F_COMPAT (sh_sysid shr) (sh_pid shr) (sh_owner shr) else shr.

Definition bad_options (shr : shrlock) : bool :=
  (sh_access shr =? 0) || has_bit (sh_access shr) (Z.lnot (Z.lor F_RDACC (Z.lor F_WRACC F_RWACC))) ||
  has_bit (sh_deny shr) (Z.lnot (Z.lor F_NODNY (Z.lor F_RDDNY (Z.lor F_WRDNY (Z.lor F_RWDNY F_COMPAT))))).

Definition add_share (vp : vnode) (shr : shrlock) : Z * vnode :=
  if bad_options shr then (EINVAL, vp)
  else
    let r := add_loop (isreadonly vp) (v_shrlocks vp) shr in
    if negb (r =? 0) then (r, vp) else (0, set_shrlocks (kept_share shr :: v_shrlocks vp) vp).

(** The reservations [del_share] takes away. *)
Definition del_match (shr e : shrlock) : bool :=
  bool_decide (sh_owner shr = sh_owner e) ||
  (bool_decide (sh_owner shr = []) &&
   (((sh_sysid shr =? 0) && (sh_pid shr =? sh_pid e)) ||
    (negb (sh_sysid shr =? 0) && (sh_sysid shr =? sh_sysid e)))).

Fixpoint del_loop (shr : shrlock) (l : list shrlock) : Z * list shrlock :=
  match l with
  | [] => (0, [])
  | e :: l =>
    let '(found, l) := del_loop shr l in
    if del_match shr e then (found + 1, l) else (found, e :: l)
  end.

Definition del_share (vp : vnode) (shr : shrlock) : Z * vnode :=
  let '(found, l) := del_loop shr (v_shrlocks vp) in
  ((if negb (found =? 0) then 0 else EINVAL), set_shrlocks l vp).

Definition cleanshares (vp : vnode) (pid : Z) : vnode :=
  match v_shrlocks vp with
  | [] => vp
  | _ => (del_share vp (MkShr 0 0 0 pid [])).2
  end.

Fixpoint shr_has_remote_shares (l : list shrlock) (sysid : Z) : Z :=
  match l with
  | [] => 0
  | e :: l =>
    if (negb (sysid =? 0) && (sh_sysid e =? sysid)) || ((sysid =? 0) && negb (sh_sysid e =? 0)) then 1
    else shr_has_remote_shares l sysid
  end.

Definition F_SHARE : Z := 40.
Definition F_UNSHARE : Z := 41.
Definition F_HASREMOTELOCKS : Z := 26.
Definition FREAD : Z := 1.
Definition FWRITE : Z := 2.

(** [fs_shrlock], the vnode operation: the error, the vnode, and [shr->access]. *)
Definition fs_shrlock (vp : vnode) (cmd : Z) (shr : shrlock) (flag : Z) : Z * vnode * Z :=
  if has_bit cmd F_SHARE &&
     ((has_bit (sh_access shr) F_RDACC && negb (has_bit flag FREAD)) ||
      ((sh_access shr =? F_WRACC) && negb (has_bit flag FWRITE))) then (EBADF, vp, sh_access shr)
  else if cmd =? F_SHARE then (add_share vp shr, sh_access shr)
  else if cmd =? F_UNSHARE then (del_share vp shr, sh_access shr)
  else if cmd =? F_HASREMOTELOCKS then (0, vp, shr_has_remote_shares (v_shrlocks vp) (sh_sysid shr))
  else (EINVAL, vp, sh_access shr).

(** ** What the reservations on a file promise *)

(** Neither has an access the other denies. *)
Definition agrees (a b : shrlock) : Prop :=
  has_bit (sh_access a) (sh_deny b) = false ∧ has_bit (sh_deny a) (sh_access b) = false.

Definition plain_agree (a b : shrlock) : Prop := compat a = false → compat b = false → agrees a b.

Record shares_ok (ro : bool) (l : list shrlock) : Prop := {
  sk_agree : StronglySorted plain_agree l;
  sk_writer e : e ∈ l → compat e = true → has_bit (sh_access e) F_WRACC = true →
    ∃ f, list.last l = Some f ∧ compat f = true ∧ same_owner e f = true;
  sk_mode : ro = false → (∀ e, e ∈ l → compat e = true) ∨ (∀ e, e ∈ l → compat e = false)
}.

Lemma same_owner_spec a b : same_owner a b = true ↔ sh_sysid a = sh_sysid b ∧ sh_pid a = sh_pid b ∧ sh_owner a = sh_owner b.
Proof. unfold same_owner. rewrite !andb_true_iff, !Z.eqb_eq, bool_decide_eq_true. tauto. Qed.

Lemma agrees_sym a b : agrees a b → agrees b a.
Proof. unfold agrees, has_bit. rewrite (Z.land_comm (sh_access b)), (Z.land_comm (sh_deny b)). tauto. Qed.

Lemma kept_access shr : sh_access (kept_share shr) = sh_access shr.
Proof. unfold kept_share. by case_if. Qed.

Lemma kept_compat shr : compat (kept_share shr) = compat shr.
Proof. unfold kept_share. destruct (compat shr) eqn:E; [done|exact E]. Qed.

Lemma kept_owner shr e : same_owner (kept_share shr) e = same_owner shr e.
Proof. unfold kept_share. by case_if. Qed.

Lemma kept_plain shr : compat shr = false → kept_share shr = shr.
Proof. unfold kept_share. by intros ->. Qed.

(** ** The loop *)


(** A plain reservation is compatible with all plain ones there, and with a first share
    in compatibility mode only on a read-only file. *)
Lemma add_loop_plain ro l shr : compat shr = false → add_loop ro l shr = 0 →
  (∀ e, e ∈ l → compat e = false → agrees shr e) ∧
  (∀ f, list.last l = Some f → compat f = true → ro = true).
Proof.
  intros Hp. induction l as [|e l IH]; [intros _; split; [by intros e ?%elem_of_nil|done]|].
  cbn [add_loop]. rewrite Hp, !andb_false_r. intros E.
  destruct (same_owner e shr && ((sh_access e =? sh_access shr) && (sh_deny e =? sh_deny shr))); [done|].
  simpl in E. destruct (decide (l = [])) as [->|Hne].
  - rewrite bool_decide_true in E by done. destruct (compat e) eqn:Ec; simpl in E.
    + destruct (_ || _) in E; [done|]. destruct ro; [|done].
      split; [intros x ->%list_elem_of_singleton; congruence|by intros].
    + destruct (_ || _) eqn:Eb in E; [done|]. apply orb_false_iff in Eb as [E1 E2].
      split; [|intros f [= <-]; congruence]. intros x ->%list_elem_of_singleton _. by split.
  - rewrite bool_decide_false, andb_false_r in E by done.
    assert (list.last (e :: l) = list.last l) as -> by (by destruct l).
    destruct (_ || _) eqn:Eb in E; [done|]. apply orb_false_iff in Eb as [E1 E2].
    destruct (IH E) as [H1 H2]. split; [|done]. intros x [->|Hx]%elem_of_cons Hxc; [by split|by apply H1].
Qed.

(** A writer in compatibility mode finds one of its owner. *)
Lemma add_loop_writer ro l shr : compat shr = true → has_bit (sh_access shr) F_WRACC = true → l ≠ [] →
  add_loop ro l shr = 0 →
  ∃ a e b, l = a ++ e :: b ∧ same_owner e shr = true ∧ compat e = true ∧ (b = [] ∨ has_bit (sh_access e) F_WRACC = true).
Proof.
  intros Hc Hw. induction l as [|e l IH]; [done|]. intros _. cbn [add_loop]. rewrite Hc, Hw, !andb_true_r. intros E.
  destruct (same_owner e shr && ((sh_access e =? sh_access shr) && (sh_deny e =? sh_deny shr))); [done|].
  destruct (same_owner e shr && (compat e && (bool_decide (l = []) || has_bit (sh_access e) F_WRACC))) eqn:Eo.
  - apply andb_true_iff in Eo as [Eo [Ec Ef]%andb_true_iff]. exists [], e, l. split; [done|]. split; [done|]. split; [done|].
    apply orb_true_iff in Ef as [Ef|Ef]; [left; by apply bool_decide_eq_true in Ef|by right].
  - assert ((sh_access shr =? F_RDACC) = false) as Hr.
    { apply Z.eqb_neq. intros Er. by rewrite Er in Hw. }
    simpl in E. rewrite Hr in E. simpl in E. destruct (compat e) eqn:Ec; simpl in E; [|done].
    destruct (decide (l = [])) as [->|Hne]; [by rewrite bool_decide_true in E by done|].
    rewrite bool_decide_false in E by done.
    destruct (IH Hne E) as (a & x & b & -> & Hx). by exists (e :: a), x, b.
Qed.

(** On a writable file the modes do not mix. *)
Lemma add_loop_mode l shr : add_loop false l shr = 0 → l ≠ [] →
  (∀ e, e ∈ l → compat e = negb (compat shr)) → False.
Proof.
  induction l as [|e l IH]; [done|]. cbn [add_loop]. intros E _ Hm.
  rewrite (Hm e ltac:(left)) in E. destruct (same_owner e shr && ((sh_access e =? sh_access shr) && (sh_deny e =? sh_deny shr))); [done|].
  assert (l ≠ [] → add_loop false l shr = 0 → False) as Hl.
  { intros Hne E'. apply IH; [done|done|]. intros x Hx. apply Hm. by right. }
  destruct (compat shr); simpl in E; rewrite ?andb_false_r in E; simpl in E.
  - destruct (_ || _) in E; [done|]. rewrite ?andb_false_r in E.
    destruct (decide (l = [])) as [->|Hne]; [by rewrite bool_decide_true in E by done|].
    rewrite bool_decide_false in E by done. by apply Hl.
  - destruct (decide (l = [])) as [->|Hne].
    + rewrite bool_decide_true in E by done. simpl in E. by destruct (_ || _) in E.
    + rewrite bool_decide_false in E by done. simpl in E. destruct (_ || _) in E; [done|]. by apply Hl.
Qed.

(** ** Operations keep the promise *)

Lemma add_keeps ro l shr : shares_ok ro l → add_loop ro l shr = 0 → shares_ok ro (kept_share shr :: l).
Proof.
  intros [Hs Hw Hm] E. split.
  - apply StronglySorted_cons. split; [|done]. apply list.Forall_forall. intros e He Hp Hc.
    rewrite kept_compat in Hp. rewrite kept_plain by done.
    destruct (add_loop_plain ro l shr Hp E) as [Ha _]. by apply Ha.
  - intros e He Hc Hwr. apply elem_of_cons in He as [->|He].
    + rewrite kept_compat in Hc. rewrite kept_access in Hwr. destruct (decide (l = [])) as [->|Hne].
      * exists (kept_share shr). split; [done|]. rewrite kept_compat. split; [done|]. by apply same_owner_spec.
      * destruct (add_loop_writer ro l shr Hc Hwr Hne E) as (a & x & b & -> & Eo & Ex & Hb).
        assert (∃ f, list.last (a ++ x :: b) = Some f ∧ compat f = true ∧ same_owner x f = true) as (f & Hf & Hfc & Hfo).
        { destruct Hb as [->|Hxw]; [exists x; rewrite list.last_snoc; split_and!; [done|done|by apply same_owner_spec]|].
          apply Hw; [apply elem_of_app; right; left|done|done]. }
        exists f. split; [by destruct (a ++ x :: b)|]. split; [done|]. rewrite kept_owner.
        apply same_owner_spec in Eo as (? & ? & ?). apply same_owner_spec in Hfo as (? & ? & ?).
        apply same_owner_spec. split_and!; congruence.
    + destruct (Hw e He Hc Hwr) as (f & Hf & ?). exists f. split; [|done]. by destruct l.
  - intros ->. destruct (decide (l = [])) as [->|Hne].
    { destruct (compat shr) eqn:Ec; [left|right]; intros e ->%list_elem_of_singleton; by rewrite kept_compat. }
    pose proof (add_loop_mode l shr E Hne) as Hx. destruct (Hm eq_refl) as [Hall|Hall]; [left|right];
      intros e [->|He]%elem_of_cons; try (by apply Hall); rewrite kept_compat.
    + destruct (compat shr) eqn:Ec; [done|]. destruct Hx. intros e He. by rewrite Hall.
    + destruct (compat shr) eqn:Ec; [|done]. destruct Hx. intros e He. by rewrite Hall.
Qed.

Lemma del_loop_filter shr l :
  del_loop shr l = (Z.of_nat (length (filter (λ e, del_match shr e = true) l)), filter (λ e, del_match shr e = false) l).
Proof.
  induction l as [|e l IH]; [done|]. simpl. rewrite IH, !filter_cons.
  destruct (del_match shr e); repeat case_decide; try done. simpl. f_equal. lia.
Qed.

(** Reservations of one owner go together. *)
Lemma del_match_owner shr a b : same_owner a b = true → del_match shr a = del_match shr b.
Proof. intros (Es & Ep & Eo)%same_owner_spec. unfold del_match. by rewrite Es, Ep, Eo. Qed.

Lemma last_filter (P : shrlock → Prop) `{∀ x, Decision (P x)} l f : list.last l = Some f → P f → list.last (filter P l) = Some f.
Proof.
  intros Hl Hf. apply last_Some in Hl as [a ->]. rewrite list.filter_app, filter_cons_True by done.
  by rewrite filter_nil, list.last_snoc.
Qed.

Lemma sorted_filter_agree (P : shrlock → Prop) `{∀ x, Decision (P x)} l :
  StronglySorted plain_agree l → StronglySorted plain_agree (filter P l).
Proof.
  induction l as [|e l IH]; [done|]. intros [Hf Hs]%StronglySorted_cons. rewrite filter_cons. case_decide; [|by apply IH].
  apply StronglySorted_cons. split; [|by apply IH]. apply list.Forall_forall. intros x [_ Hx]%list_elem_of_filter.
  rewrite list.Forall_forall in Hf. by apply Hf.
Qed.

Lemma del_keeps ro l shr : shares_ok ro l → shares_ok ro (filter (λ e, del_match shr e = false) l).
Proof.
  intros [Hs Hw Hm]. split.
  - by apply sorted_filter_agree.
  - intros e [Hd He]%list_elem_of_filter Hc Hwr. destruct (Hw e He Hc Hwr) as (f & Hf & Hfc & Ho).
    exists f. split; [|done]. apply last_filter; [done|]. by rewrite <- (del_match_owner _ e).
  - intros Hro. destruct (Hm Hro) as [Hall|Hall]; [left|right]; intros e [_ He]%list_elem_of_filter; by apply Hall.
Qed.

(** ** Theorems *)

Inductive share_op := OAdd (shr : shrlock) | ODel (shr : shrlock) | OClean (pid : Z).

Definition do_share (vp : vnode) (o : share_op) : vnode :=
  match o with
  | OAdd shr => (add_share vp shr).2
  | ODel shr => (del_share vp shr).2
  | OClean pid => cleanshares vp pid
  end.

Lemma del_share_keeps vp shr : shares_ok (isreadonly vp) (v_shrlocks vp) →
  shares_ok (isreadonly (del_share vp shr).2) (v_shrlocks (del_share vp shr).2).
Proof. intros Hok. unfold del_share. rewrite del_loop_filter. by apply del_keeps. Qed.

Lemma do_share_keeps vp o : shares_ok (isreadonly vp) (v_shrlocks vp) →
  shares_ok (isreadonly (do_share vp o)) (v_shrlocks (do_share vp o)).
Proof.
  intros Hok. destruct o as [shr|shr|pid]; simpl.
  - unfold add_share. destruct (bad_options shr); [done|]. destruct (add_loop _ _ shr =? 0) eqn:E; simpl; [|done].
    apply Z.eqb_eq in E. by apply add_keeps.
  - by apply del_share_keeps.
  - unfold cleanshares. destruct (v_shrlocks vp) eqn:E; [by rewrite E|]. apply del_share_keeps. by rewrite E.
Qed.

(** C21: Whatever reservations are made and given up on a file: no two of them that are not
    in compatibility mode conflict; a writer in compatibility mode always has the owner
    of the first share, which is in that mode too; and on a file that can be written the
    two modes never mix. *)
Theorem share_reservations vp ops : v_shrlocks vp = [] →
  let vp' := fold_left do_share ops vp in
  isreadonly vp' = isreadonly vp ∧ shares_ok (isreadonly vp) (v_shrlocks vp').
Proof.
  intros E. assert (shares_ok (isreadonly vp) (v_shrlocks vp)) as Hok.
  { rewrite E. split; [constructor|by intros e ?%elem_of_nil|]. intros _. left. by intros e ?%elem_of_nil. }
  clear E. revert vp Hok. induction ops as [|o ops IH]; intros vp Hok; simpl; [done|].
  assert (isreadonly (do_share vp o) = isreadonly vp) as Ero.
  { destruct o; simpl; unfold add_share, del_share, cleanshares.
    - by repeat case_match.
    - by destruct (del_loop _ _).
    - destruct (v_shrlocks vp); [done|]. unfold del_share. by destruct (del_loop _ _). }
  rewrite <- Ero. apply IH. by apply do_share_keeps.
Qed.

Lemma share_reservations_witness :
  let vp := MkVnode VREG false [] in
  let vp' := fold_left do_share [OAdd (MkShr 1 8 0 5 [1]); OAdd (MkShr 2 8 0 5 [1]); OAdd (MkShr 1 0 0 6 [2]); ODel (MkShr 0 0 0 7 [])] vp in
  length (v_shrlocks vp') = 2%nat ∧ shares_ok false (v_shrlocks vp').
Proof.
  intros vp vp'. split; [reflexivity|].
  apply (share_reservations vp [OAdd (MkShr 1 8 0 5 [1]); OAdd (MkShr 2 8 0 5 [1]); OAdd (MkShr 1 0 0 6 [2]); ODel (MkShr 0 0 0 7 [])]).
  reflexivity.
Defined.

(** Among reservations none of which is in compatibility mode [add_share] makes a new
    one exactly when it conflicts with none there and the same owner has not made the
    same already; it answers [EEXIST] or [EAGAIN] otherwise, with the file as it was. *)
Theorem add_share_exact vp shr : bad_options shr = false → compat shr = false →
  (∀ e, e ∈ v_shrlocks vp → compat e = false) →
  ∃ r vp', add_share vp shr = (r, vp') ∧
    v_shrlocks vp' = (if r =? 0 then shr :: v_shrlocks vp else v_shrlocks vp) ∧ (r = 0 ∨ r = EEXIST ∨ r = EAGAIN) ∧
    (r = 0 ↔ ∀ e, e ∈ v_shrlocks vp →
      agrees shr e ∧ ¬ (same_owner e shr = true ∧ sh_access e = sh_access shr ∧ sh_deny e = sh_deny shr)).
Proof.
  intros Hb Hc Hall. unfold add_share. rewrite Hb. generalize (isreadonly vp) as ro. intros ro.
  set (l := v_shrlocks vp) in *.
  assert ((add_loop ro l shr = 0 ∨ add_loop ro l shr = EEXIST ∨ add_loop ro l shr = EAGAIN) ∧
    (add_loop ro l shr = 0 ↔ ∀ e, e ∈ l →
      agrees shr e ∧ ¬ (same_owner e shr = true ∧ sh_access e = sh_access shr ∧ sh_deny e = sh_deny shr))) as [Hr Hiff].
  { clearbody l. induction l as [|e l IH].
    { split; [by left|]. split; [|done]. by intros _ e ?%elem_of_nil. }
    cbn [add_loop]. rewrite Hc, (Hall e ltac:(left)). rewrite !andb_false_r. simpl.
    destruct IH as [IH1 IH2]; [intros x Hx; apply Hall; by right|].
    destruct (same_owner e shr && ((sh_access e =? sh_access shr) && (sh_deny e =? sh_deny shr))) eqn:Ed.
    { split; [tauto|]. split; [done|]. intros H. destruct (H e ltac:(left)) as [_ Hn]. destruct Hn.
      rewrite !andb_true_iff, !Z.eqb_eq in Ed. tauto. }
    destruct (_ || _) eqn:Eb.
    { split; [tauto|]. split; [done|]. intros H. destruct (H e ltac:(left)) as [[H1 H2] _]. by rewrite H1, H2 in Eb. }
    apply orb_false_iff in Eb as [E1 E2]. split; [done|]. rewrite IH2. split.
    - intros H x [->|Hx]%elem_of_cons; [|by apply H]. split; [done|]. intros (H1 & H2 & H3).
      rewrite H1, H2, H3, !Z.eqb_refl in Ed. done.
    - intros H x Hx. apply H. by right. }
  destruct (Z.eqb_spec (add_loop ro l shr) 0) as [E|E]; simpl; do 2 eexists; (split; [done|]).
  - rewrite kept_plain by done. split; [done|]. split; [by left|]. rewrite <- Hiff. done.
  - rewrite (proj2 (Z.eqb_neq _ _) E). split; [done|]. done.
Qed.

Lemma add_share_exact_witness :
  ∃ vp', add_share (MkVnode VREG false [MkShr 1 2 0 5 [1]]) (MkShr 2 0 0 6 [2]) = (EAGAIN, vp') ∧
    v_shrlocks vp' = [MkShr 1 2 0 5 [1]].
Proof.
  destruct (add_share_exact (MkVnode VREG false [MkShr 1 2 0 5 [1]]) (MkShr 2 0 0 6 [2])) as (r & vp' & E & El & _ & _);
    [reflexivity|reflexivity|intros e ->%list_elem_of_singleton; reflexivity|].
  exists vp'. assert (r = EAGAIN) as -> by (vm_compute in E; injection E as <- _; reflexivity). split; [exact E|]. exact El.
Defined.

(** [del_share] looks at the owner only, not at the system and process: it takes away
    the reservation of another system whose owner has the same bytes. *)
Theorem del_share_any_system vp e shr : v_shrlocks vp = [e] → sh_owner shr = sh_owner e →
  del_share vp shr = (0, set_shrlocks [] vp).
Proof.
  intros El Eo. unfold del_share. rewrite El. simpl. unfold del_match. by rewrite Eo, bool_decide_true.
Qed.

Lemma del_share_any_system_witness :
  del_share (MkVnode VREG false [MkShr 1 2 9 0 [1; 2]]) (MkShr 0 0 0 77 [1; 2]) = (0, MkVnode VREG false []).
Proof. apply (del_share_any_system (MkVnode VREG false [MkShr 1 2 9 0 [1; 2]]) (MkShr 1 2 9 0 [1; 2])); reflexivity. Defined.

(** The permission check of [fs_shrlock] lets a file that is open for reading only be
    reserved for reading and writing; and it is made when a reservation is given up,
    which it can refuse. *)
Theorem fs_shrlock_permissions vp shr : sh_access shr = F_RWACC → isreadonly vp = false → v_shrlocks vp = [] →
  bad_options shr = false →
  (fs_shrlock vp F_SHARE shr FREAD).1.1 = 0 ∧ (fs_shrlock vp F_UNSHARE shr FWRITE).1.1 = EBADF.
Proof.
  intros Ea Hro El Hb. unfold fs_shrlock. rewrite Ea. simpl. unfold add_share. rewrite Hb, El. done.
Qed.

Lemma fs_shrlock_permissions_witness :
  (fs_shrlock (MkVnode VREG false []) F_SHARE (MkShr 3 0 0 5 [1]) FREAD).1.1 = 0.
Proof. apply (fs_shrlock_permissions (MkVnode VREG false []) (MkShr 3 0 0 5 [1])); reflexivity. Defined.
