(* ===== verification/Dsort.v ===== *)
(** * Disk request sorting (uts/common/os/bdev_dsort.c)

    The activity queue of a disk ([struct diskhd]) is the chain of buffers from [b_actf]
    along [av_forw], here a list, with the pointer [b_actl] to the last of them.
    [disksort] keeps it as a one-way scan: the requests at or after the cylinder of the
    active one, then those that the scan has passed.

    - [ap] of the C is a position in the chain: the functions below take the buffer at
      [ap] and the chain after it, and return the buffer they insert behind and the new
      chain after [ap]. *)

From stdpp Require Import sorting.
From S2P Require Import Prelude.

Record buf := MkBuf { b_id : Z; b_cylin : Z }.

Record diskhd := MkDisk { b_actf : list buf; b_actl : option Z }.

(** The search of the second request list, from [ap] whose successor is in it. *)
Fixpoint second_list (bp ap : buf) (forw : list buf) : buf * list buf :=
  match forw with
  | [] => (ap, [bp])
  | n :: forw' =>
    if b_cylin bp <? b_cylin n then (ap, bp :: forw)
    else let '(at_, r) := second_list bp n forw' in (at_, n :: r)
  end.

(** The walk to the inversion that starts the second list. *)
Fixpoint find_second (bp ap : buf) (forw : list buf) : buf * list buf :=
  match forw with
  | [] => (ap, [bp])
  | n :: forw' =>
    if b_cylin n <? b_cylin ap then second_list bp ap forw
    else let '(at_, r) := find_second bp n forw' in (at_, n :: r)
  end.

(** The search of the first request list. *)
Fixpoint first_list (bp ap : buf) (forw : list buf) : buf * list buf :=
  match forw with
  | [] => (ap, [bp])
  | n :: forw' =>
    if (b_cylin n <? b_cylin ap) || (b_cylin bp <? b_cylin n) then (ap, bp :: forw)
    else let '(at_, r) := first_list bp n forw' in (at_, n :: r)
  end.

Definition disksort (dp : diskhd) (bp : buf) : diskhd :=
  match b_actf dp with
  | [] => MkDisk [bp] (Some (b_id bp))
  | ap :: forw =>
    let '(at_, r) := if b_cylin bp <? b_cylin ap then find_second bp ap forw else first_list bp ap forw in
    MkDisk (ap :: r) (if bool_decide (b_actl dp = Some (b_id at_)) then Some (b_id bp) else b_actl dp)
  end.

(** What a driver does when the active request is done: the next one becomes active. *)
Definition next_request (dp : diskhd) : diskhd := MkDisk (tail (b_actf dp)) (b_actl dp).

(** ** The scan order *)

(** [scan_le h x y]: a head at cylinder [h] that only moves up, and then returns to the
    lowest cylinder asked for, is at [x] no later than at [y]. *)
Definition passed (h : Z) (x : buf) : bool := b_cylin x <? h.

Definition scan_le (h : Z) (x y : buf) : bool :=
  match passed h x, passed h y with
  | false, true => true
  | true, false => false
  | _, _ => b_cylin x <=? b_cylin y
  end.

(** The queue is in scan order from its first request, no two requests are one buffer,
    and [b_actl] is the last. *)
Record disk_ok (dp : diskhd) : Prop := {
  dk_sorted : match b_actf dp with [] => True | a :: _ => StronglySorted (scan_le (b_cylin a)) (b_actf dp) end;
  dk_nodup : NoDup (b_id <$> b_actf dp);
  dk_last : b_actf dp ≠ [] → b_actl dp = b_id <$> list.last (b_actf dp)
}.

(** Where a request goes: behind all that the scan reaches no later. *)
Definition scan_place (h : Z) (bp : buf) (q q' : list buf) : Prop :=
  ∃ a b, q = a ++ b ∧ q' = a ++ bp :: b ∧
    Forall (λ x, scan_le h x bp) a ∧ Forall (λ x, ¬ scan_le h x bp) b.

Lemma scan_le_spec h x y : scan_le h x y ↔
  (h ≤ b_cylin x ∧ (b_cylin y < h ∨ b_cylin x ≤ b_cylin y)) ∨ (b_cylin x < h ∧ b_cylin y < h ∧ b_cylin x ≤ b_cylin y).
Proof.
  unfold scan_le, passed.
  destruct (Z.ltb_spec (b_cylin x) h), (Z.ltb_spec (b_cylin y) h), (Z.leb_spec (b_cylin x) (b_cylin y)); simpl; split; try tauto; lia.
Qed.

Ltac scan := rewrite ?scan_le_spec in *; lia.

Lemma scan_le_trans h : Transitive (scan_le h).
Proof. intros x y z ??. scan. Qed.

Lemma scan_le_total h x y : ¬ scan_le h y x → scan_le h x y.
Proof. intros ?. scan. Qed.

(** A sorted list is sorted at its head. *)
Lemma sorted_head h a q x : StronglySorted (scan_le h) (a :: q) → x ∈ q → scan_le h a x.
Proof. intros [Hf _]%StronglySorted_cons Hx. rewrite list.Forall_forall in Hf. by apply Hf. Qed.

Lemma place_cons h bp x q q' : scan_le h x bp → scan_place h bp q q' → scan_place h bp (x :: q) (x :: q').
Proof. intros Hx (a & b & -> & -> & Ha & Hb). exists (x :: a), b. split_and!; [done|done|by constructor|done]. Qed.

Lemma place_here h bp q : StronglySorted (scan_le h) q → (∀ n q', q = n :: q' → ¬ scan_le h n bp) → scan_place h bp q (bp :: q).
Proof.
  intros Hs Hn. exists [], q. split_and!; [done|done|constructor|]. destruct q as [|n q]; [constructor|].
  specialize (Hn n q eq_refl). apply StronglySorted_cons in Hs as [Hf _]. constructor; [done|].
  eapply list.Forall_impl; [exact Hf|]. intros y Hy. simpl in *. intros Hyb. destruct Hn. by eapply scan_le_trans.
Qed.

(** What the three walks promise: the place of [bp] behind [ap], and which buffer they
    stopped at. *)
Definition placed (h : Z) (bp ap : buf) (forw : list buf) (res : buf * list buf) : Prop :=
  scan_place h bp forw res.2 ∧
  ∃ a b, ap :: forw = a ++ res.1 :: b ∧ ap :: res.2 = a ++ res.1 :: bp :: b.

Lemma placed_here h bp ap forw :
  StronglySorted (scan_le h) forw → (∀ n q', forw = n :: q' → ¬ scan_le h n bp) →
  placed h bp ap forw (ap, bp :: forw).
Proof. intros Hs Hn. split; [by apply place_here|]. by exists [], forw. Qed.

Lemma placed_next h bp ap n forw res : scan_le h n bp → placed h bp n forw res →
  placed h bp ap (n :: forw) (let '(at_, r) := res in (at_, n :: r)).
Proof.
  destruct res as [x r]. intros Hn [Hp (a & b & E1 & E2)]. split; [by apply place_cons|].
  exists (ap :: a), b. simpl in *. by rewrite E1, E2.
Qed.

Lemma second_placed h bp ap forw : b_cylin bp < h → StronglySorted (scan_le h) forw →
  Forall (λ x, b_cylin x < h) forw → placed h bp ap forw (second_list bp ap forw).
Proof.
  intros Hb. revert ap. induction forw as [|n forw IH]; intros ap Hs Hf; simpl; [by apply placed_here|].
  apply Forall_cons_1 in Hf as [Hn Hf]. destruct (Z.ltb_spec (b_cylin bp) (b_cylin n)).
  - apply placed_here; [done|]. intros ? ? [= <- <-]. scan.
  - apply placed_next; [scan|]. apply StronglySorted_cons in Hs as [_ Hs]. by apply IH.
Qed.

Lemma find_placed h bp ap forw : b_cylin bp < h → h ≤ b_cylin ap → StronglySorted (scan_le h) (ap :: forw) →
  placed h bp ap forw (find_second bp ap forw).
Proof.
  intros Hb. revert ap. induction forw as [|n forw IH]; intros ap Ha Hs; simpl; [apply placed_here; [constructor|done]|].
  pose proof (sorted_head h ap _ n Hs ltac:(left)) as Hn. pose proof Hs as [_ Hs']%StronglySorted_cons.
  destruct (Z.ltb_spec (b_cylin n) (b_cylin ap)).
  - apply second_placed; [done|done|]. apply list.Forall_forall. intros x Hx. apply elem_of_cons in Hx as [->|Hx]; [scan|].
    pose proof (sorted_head h n _ x Hs' Hx). scan.
  - apply placed_next; [scan|]. apply IH; [lia|done].
Qed.

Lemma first_placed h bp ap forw : h ≤ b_cylin bp → h ≤ b_cylin ap → StronglySorted (scan_le h) (ap :: forw) →
  placed h bp ap forw (first_list bp ap forw).
Proof.
  intros Hb. revert ap. induction forw as [|n forw IH]; intros ap Ha Hs; simpl; [apply placed_here; [constructor|done]|].
  pose proof (sorted_head h ap _ n Hs ltac:(left)) as Hn. pose proof Hs as [_ Hs']%StronglySorted_cons.
  destruct (Z.ltb_spec (b_cylin n) (b_cylin ap)); simpl.
  - apply placed_here; [done|]. intros ? ? [= <- <-]. scan.
  - destruct (Z.ltb_spec (b_cylin bp) (b_cylin n)).
    + apply placed_here; [done|]. intros ? ? [= <- <-]. scan.
    + apply placed_next; [scan|]. apply IH; [lia|done].
Qed.

Lemma place_sorted h bp q q' : StronglySorted (scan_le h) q → scan_place h bp q q' → StronglySorted (scan_le h) q'.
Proof.
  intros Hs (a & b & -> & -> & Ha & Hb). apply StronglySorted_app in Hs as (Hab & Hsa & Hsb).
  apply StronglySorted_app. split_and!; [|done|].
  - intros x y Hx [->|Hy]%elem_of_cons; [|by apply Hab]. rewrite list.Forall_forall in Ha. by apply Ha.
  - apply StronglySorted_cons. split; [|done]. eapply list.Forall_impl; [exact Hb|]. intros y Hy. by apply scan_le_total.
Qed.

Lemma place_perm h bp q q' : scan_place h bp q q' → q' ≡ₚ bp :: q.
Proof. intros (a & b & -> & -> & _). by rewrite Permutation_middle. Qed.

(** The walks together. *)
Lemma disksort_place dp bp ap forw : b_actf dp = ap :: forw → StronglySorted (scan_le (b_cylin ap)) (ap :: forw) →
  ∃ res, placed (b_cylin ap) bp ap forw res ∧
    disksort dp bp = MkDisk (ap :: res.2) (if bool_decide (b_actl dp = Some (b_id res.1)) then Some (b_id bp) else b_actl dp).
Proof.
  intros E Hs. unfold disksort. rewrite E. destruct (Z.ltb_spec (b_cylin bp) (b_cylin ap)).
  - exists (find_second bp ap forw). split; [by apply find_placed|]. by destruct (find_second _ _ _).
  - exists (first_list bp ap forw). split; [by apply first_placed|]. by destruct (first_list _ _ _).
Qed.

Lemma disk_ok_tail h a q : StronglySorted (scan_le h) (a :: q) → h = b_cylin a →
  match q with [] => True | a' :: _ => StronglySorted (scan_le (b_cylin a')) q end.
Proof.
  intros Hs ->. destruct q as [|a' q]; [done|]. pose proof (sorted_head _ a _ a' Hs ltac:(left)) as H1.
  pose proof Hs as [_ Hs']%StronglySorted_cons. clear Hs.
  assert (∀ x, x ∈ q → scan_le (b_cylin a) a' x) as Hx by (intros x; by apply sorted_head).
  apply StronglySorted_cons in Hs' as [_ Hs']. apply StronglySorted_cons. split.
  - apply list.Forall_forall. intros x Hq. specialize (Hx x Hq). scan.
  - induction q as [|x q IH]; [constructor|]. apply StronglySorted_cons in Hs' as [Hf Hs'].
    apply StronglySorted_cons. split; [|apply IH; try done; intros y Hy; apply Hx; by right].
    pose proof (Hx x ltac:(left)). rewrite list.Forall_forall in *. intros y Hy.
    specialize (Hf y Hy). pose proof (Hx y ltac:(by right)). scan.
Qed.

(** Where [b_actl] is after an insertion behind [x]. *)
Lemma last_insert a x bp b : NoDup (b_id <$> (a ++ x :: b)) →
  (if bool_decide (b_id <$> list.last (a ++ x :: b) = Some (b_id x)) then Some (b_id bp)
   else b_id <$> list.last (a ++ x :: b)) = b_id <$> list.last (a ++ x :: bp :: b).
Proof.
  intros Hn. induction b as [|y b _] using rev_ind.
  - rewrite list.last_snoc, bool_decide_true by done.
    replace (a ++ [x; bp]) with ((a ++ [x]) ++ [bp]) by (by rewrite <- app_assoc). by rewrite list.last_snoc.
  - rewrite !app_comm_cons, !app_assoc, !list.last_snoc. rewrite bool_decide_false; [done|].
    intros [= E]. rewrite !fmap_app in Hn. apply list.NoDup_app in Hn as (_ & _ & Hn). simpl in Hn.
    apply list.NoDup_cons in Hn as [Hx _]. apply Hx. rewrite fmap_app, elem_of_app. right. simpl. rewrite E. left.
Qed.

(** ** Theorems *)

Inductive disk_call := DStart (bp : buf) | DNext.

Definition do_disk (dp : diskhd) (c : disk_call) : diskhd :=
  match c with DStart bp => disksort dp bp | DNext => next_request dp end.

(** A buffer is not started while it is on the queue. *)
Definition may_disk (dp : diskhd) (c : disk_call) : Prop :=
  match c with DStart bp => b_id bp ∉ (b_id <$> b_actf dp) | DNext => True end.

Fixpoint disk_run (dp : diskhd) (cs : list disk_call) : Prop :=
  match cs with [] => True | c :: cs => may_disk dp c ∧ disk_run (do_disk dp c) cs end.

Lemma disksort_keeps dp bp : disk_ok dp → b_id bp ∉ (b_id <$> b_actf dp) → disk_ok (disksort dp bp).
Proof.
  intros [Hs Hn Hl] Hb. destruct (b_actf dp) as [|ap forw] eqn:E.
  { unfold disksort. rewrite E. split; simpl; [repeat constructor|apply NoDup_singleton|done]. }
  destruct (disksort_place dp bp ap forw E Hs) as ([x r] & [Hp (a & b & E1 & E2)] & ->). cbn [fst snd] in *.
  assert (scan_place (b_cylin ap) bp (ap :: forw) (ap :: r)) as Hp'.
  { apply place_cons; [|done]. rewrite scan_le_spec. lia. }
  split; cbn [b_actf b_actl].
  - by eapply place_sorted.
  - rewrite (place_perm _ _ _ _ Hp'). by apply list.NoDup_cons.
  - intros _. rewrite Hl by done. rewrite E2, E1. apply last_insert. by rewrite <- E1.
Qed.

Lemma next_keeps dp : disk_ok dp → disk_ok (next_request dp).
Proof.
  intros [Hs Hn Hl]. unfold next_request. destruct (b_actf dp) as [|a q] eqn:E; simpl in *; [by split|].
  split; simpl; [by eapply disk_ok_tail|by apply list.NoDup_cons in Hn as [_ Hn]|].
  intros Hq. rewrite Hl by done. by destruct q.
Qed.

(** Whatever requests come in, and whenever the active one is done: the activity queue
    is in the order of a one-way scan from its first request, the requests at or after
    that cylinder in ascending order and then those before it in ascending order, and
    [b_actl] is its last request. *)
Theorem disk_queue_scan cs dp : disk_ok dp → disk_run dp cs → disk_ok (fold_left do_disk cs dp).
Proof.
  revert dp. induction cs as [|c cs IH]; intros dp Hok; simpl; [done|]. intros [Hm Hr]. apply IH; [|done].
  destruct c; simpl in *; [by apply disksort_keeps|by apply next_keeps].
Qed.

Lemma disk_queue_scan_witness :
  let cs := [DStart (MkBuf 1 50); DStart (MkBuf 2 20); DStart (MkBuf 3 70); DStart (MkBuf 4 10); DNext; DStart (MkBuf 5 60)] in
  let dp := fold_left do_disk cs (MkDisk [] None) in
  b_id <$> b_actf dp = [3; 4; 2; 5] ∧ disk_ok dp.
Proof.
  intros cs dp. split; [reflexivity|]. apply (disk_queue_scan cs); [split; [done|constructor|done]|].
  repeat split; apply (bool_decide_unpack _); vm_compute; exact I.
Defined.

(** C22: [disksort] puts a request at its place in the scan, behind every request that the
    scan reaches no later, so that requests for one cylinder stay in the order of
    their arrival; nothing else moves and the active request stays first. *)
Theorem disksort_refines dp bp a q : disk_ok dp → b_actf dp = a :: q →
  scan_place (b_cylin a) bp (b_actf dp) (b_actf (disksort dp bp)) ∧ head (b_actf (disksort dp bp)) = Some a.
Proof.
  intros [Hs _ _] E. rewrite E in *. destruct (disksort_place dp bp a q E Hs) as ([x r] & [Hp _] & ->). simpl in *.
  split; [|done]. apply place_cons; [|done]. rewrite scan_le_spec. lia.
Qed.

Lemma disksort_refines_witness :
  let dp := MkDisk [MkBuf 1 50; MkBuf 3 70; MkBuf 2 20] (Some 2) in
  b_actf (disksort dp (MkBuf 9 20)) = [MkBuf 1 50; MkBuf 3 70; MkBuf 2 20; MkBuf 9 20] ∧
  scan_place 50 (MkBuf 9 20) (b_actf dp) (b_actf (disksort dp (MkBuf 9 20))).
Proof.
  intros dp. split; [reflexivity|].
  apply (disksort_refines dp (MkBuf 9 20) (MkBuf 1 50) [MkBuf 3 70; MkBuf 2 20]); [|reflexivity].
  split; [repeat constructor|apply (bool_decide_unpack _); vm_compute; exact I|done].
Defined.
