(* ===== verification/Pid.v ===== *)
(** * Process ids and the process table (uts/common/os/pid.c)

    The state of the process tables: the [pid] structures in their hash chains, the
    directory of process slots with its free list, the processes and the sessions.
    Pgrp.v has the routines that change process groups and sessions.

    - Pointers to [struct pid], [proc_t] and [sess_t] are keys of three tables: freeing
      a structure deletes its key, and a use of a key that is not there is a [Fault].
    - A chain of the hash table (along [pid_link]), the list of active processes (along
      [p_next]) and the children of a process (along [p_sibling]) are lists; the members
      of a process group are linked by the pointers [p_pglink] and [p_ppglink].
    - What [kmem_alloc] returns is an argument of the routine that calls it.
    - [pidlock] and [pidlinklock] make the routines atomic.  Reference counts are
      integers: there is no room in 2^32 bytes for 2^32 holders. *)

From S2P Require Import Prelude.

Definition MAXPID : Z := 30000.

Record pid := MkPid {
  pid_prinactive : bool;
  pid_pgorphaned : bool;
  pid_prslot : Z;
  pid_id : Z;
  pid_pglink : option Z;
  pid_ref : Z
}.

(** [pe_next] or [pe_proc]. *)
Inductive procent := PeNext (next : option Z) | PeProc (prp : Z).

Inductive pstat := SIDL | SRUN | SZOMB.

#[global] Instance pstat_eq_dec : EqDecision pstat.
Proof. solve_decision. Defined.

Record proc := MkProc {
  p_pidp : option Z;
  p_pgidp : option Z;
  p_pglink : option Z;
  p_ppglink : option Z;
  p_parent : option Z;
  p_child : list Z;
  p_sessp : option Z;
  p_stat : pstat;
  p_execed : bool
}.

Record sess := MkSess { s_ref : Z; s_sidp : option Z }.

Record psys := MkPs {
  ps_pid : gmap Z pid;
  ps_proc : gmap Z proc;
  ps_sess : gmap Z sess;
  pidhash : list (list Z);
  procdir : list procent;
  procentfree : option Z;
  mpid : Z;
  minpid : Z;
  practive : list Z;
  nproc : Z;
  ps_sigs : list (Z * Z)     (* the signals sent: process and number *)
}.

(** ** Updates *)

Definition set_inactive b p := MkPid b (pid_pgorphaned p) (pid_prslot p) (pid_id p) (pid_pglink p) (pid_ref p).
Definition set_orphaned b p := MkPid (pid_prinactive p) b (pid_prslot p) (pid_id p) (pid_pglink p) (pid_ref p).
Definition set_pid_pglink l p := MkPid (pid_prinactive p) (pid_pgorphaned p) (pid_prslot p) (pid_id p) l (pid_ref p).
Definition set_ref n p := MkPid (pid_prinactive p) (pid_pgorphaned p) (pid_prslot p) (pid_id p) (pid_pglink p) n.

Definition set_pidp x p := MkProc x (p_pgidp p) (p_pglink p) (p_ppglink p) (p_parent p) (p_child p) (p_sessp p) (p_stat p) (p_execed p).
Definition set_pgidp x p := MkProc (p_pidp p) x (p_pglink p) (p_ppglink p) (p_parent p) (p_child p) (p_sessp p) (p_stat p) (p_execed p).
Definition set_pglink x p := MkProc (p_pidp p) (p_pgidp p) x (p_ppglink p) (p_parent p) (p_child p) (p_sessp p) (p_stat p) (p_execed p).
Definition set_ppglink x p := MkProc (p_pidp p) (p_pgidp p) (p_pglink p) x (p_parent p) (p_child p) (p_sessp p) (p_stat p) (p_execed p).
Definition set_parent x p := MkProc (p_pidp p) (p_pgidp p) (p_pglink p) (p_ppglink p) x (p_child p) (p_sessp p) (p_stat p) (p_execed p).
Definition set_child x p := MkProc (p_pidp p) (p_pgidp p) (p_pglink p) (p_ppglink p) (p_parent p) x (p_sessp p) (p_stat p) (p_execed p).
Definition set_sessp x p := MkProc (p_pidp p) (p_pgidp p) (p_pglink p) (p_ppglink p) (p_parent p) (p_child p) x (p_stat p) (p_execed p).
Definition set_stat x p := MkProc (p_pidp p) (p_pgidp p) (p_pglink p) (p_ppglink p) (p_parent p) (p_child p) (p_sessp p) x (p_execed p).

Definition set_pids m s := MkPs m (ps_proc s) (ps_sess s) (pidhash s) (procdir s) (procentfree s) (mpid s) (minpid s) (practive s) (nproc s) (ps_sigs s).
Definition set_procs m s := MkPs (ps_pid s) m (ps_sess s) (pidhash s) (procdir s) (procentfree s) (mpid s) (minpid s) (practive s) (nproc s) (ps_sigs s).
Definition set_sesss m s := MkPs (ps_pid s) (ps_proc s) m (pidhash s) (procdir s) (procentfree s) (mpid s) (minpid s) (practive s) (nproc s) (ps_sigs s).
Definition set_hash h s := MkPs (ps_pid s) (ps_proc s) (ps_sess s) h (procdir s) (procentfree s) (mpid s) (minpid s) (practive s) (nproc s) (ps_sigs s).
Definition set_dir d f s := MkPs (ps_pid s) (ps_proc s) (ps_sess s) (pidhash s) d f (mpid s) (minpid s) (practive s) (nproc s) (ps_sigs s).
Definition set_mpid m s := MkPs (ps_pid s) (ps_proc s) (ps_sess s) (pidhash s) (procdir s) (procentfree s) m (minpid s) (practive s) (nproc s) (ps_sigs s).
Definition set_minpid m s := MkPs (ps_pid s) (ps_proc s) (ps_sess s) (pidhash s) (procdir s) (procentfree s) (mpid s) m (practive s) (nproc s) (ps_sigs s).
Definition set_active l n s := MkPs (ps_pid s) (ps_proc s) (ps_sess s) (pidhash s) (procdir s) (procentfree s) (mpid s) (minpid s) l n (ps_sigs s).
Definition set_sigs l s := MkPs (ps_pid s) (ps_proc s) (ps_sess s) (pidhash s) (procdir s) (procentfree s) (mpid s) (minpid s) (practive s) (nproc s) l.

(** Accesses through pointers, which may be null. *)
Definition get_pid (s : psys) (x : option Z) : res pid := a ← deref x; deref (ps_pid s !! a).
Definition get_proc (s : psys) (x : option Z) : res proc := a ← deref x; deref (ps_proc s !! a).
Definition get_sess (s : psys) (x : option Z) : res sess := a ← deref x; deref (ps_sess s !! a).

Definition upd_pid (x : option Z) (f : pid → pid) (s : psys) : res psys :=
  a ← deref x; p ← deref (ps_pid s !! a); Ok (set_pids (<[a := f p]> (ps_pid s)) s).
Definition upd_proc (x : option Z) (f : proc → proc) (s : psys) : res psys :=
  a ← deref x; p ← deref (ps_proc s !! a); Ok (set_procs (<[a := f p]> (ps_proc s)) s).

(** ** Lookup *)

Definition pid_hashsz (s : psys) : Z := Z.of_nat (length (pidhash s)).
Definition HASHPID (s : psys) (id : Z) : nat := Z.to_nat (Z.land id (pid_hashsz s - 1)).

Fixpoint lookup_chain (pids : gmap Z pid) (id : Z) (l : list Z) : res (option Z) :=
  match l with
  | [] => Ok None
  | x :: l =>
    p ← deref (pids !! x);
    if pid_id p =? id then Ok (Some x) else lookup_chain pids id l
  end.

Definition pid_lookup (s : psys) (id : Z) : res (option Z) :=
  l ← deref (pidhash s !! HASHPID s id);
  lookup_chain (ps_pid s) id l.

Definition pid_setmin (s : psys) : psys := set_minpid (mpid s + 1) s.

Definition prfind (s : psys) (id : Z) : res (option Z) :=
  pidp ← pid_lookup s id;
  match pidp with
  | None => Ok None
  | Some x =>
    p ← deref (ps_pid s !! x);
    if pid_prinactive p then Ok None
    else
      e ← deref (procdir s !! Z.to_nat (pid_prslot p));
      match e with PeProc prp => Ok (Some prp) | PeNext _ => Fault end
  end.

Definition pgfind (s : psys) (id : Z) : res (option Z) :=
  pidp ← pid_lookup s id;
  match pidp with
  | None => Ok None
  | Some x => p ← deref (ps_pid s !! x); Ok (pid_pglink p)
  end.

(** The test on the range of [pep] tells the arms of the union apart, but for the null at
    the end of the free list, which is then taken for a null [pe_proc]. *)
Definition pid_entry (s : psys) (slot : Z) : res (option Z) :=
  e ← deref (procdir s !! Z.to_nat slot);
  match e with
  | PeNext _ => Ok None
  | PeProc prp =>
    p ← deref (ps_proc s !! prp);
    if bool_decide (p_stat p = SIDL) then Ok None else Ok (Some prp)
  end.

(** ** Allocation *)

(** The loop that picks an id: [++mpid], back to [minpid] at [MAXPID], until one is not
    in use.  [fuel] bounds the ids tried. *)
Fixpoint next_pid (fuel : nat) (s : psys) (m : Z) : res Z :=
  match fuel with
  | O => Fault
  | S fuel =>
    let m := if m + 1 =? MAXPID then minpid s else m + 1 in
    used ← pid_lookup s m;
    match used with None => Ok m | Some _ => next_pid fuel s m end
  end.

Definition PID_FUEL : nat := Z.to_nat (MAXPID + 1).

(** [pidp] is the structure that [kmem_zalloc] gives. *)
Definition pid_assign (s : psys) (prp pidp : Z) : res (Z * psys) :=
  match procentfree s with
  | None => Ok (-1, s)
  | Some slot =>
    e ← deref (procdir s !! Z.to_nat slot);
    next ← match e with PeNext n => Ok n | PeProc _ => Fault end;
    let s := set_dir (<[Z.to_nat slot := PeProc prp]> (procdir s)) next s in
    s ← upd_proc (Some prp) (set_pidp (Some pidp)) s;
    newpid ← next_pid PID_FUEL s (mpid s);
    let s := set_mpid newpid s in
    l ← deref (pidhash s !! HASHPID s newpid);
    let s := set_hash (<[HASHPID s newpid := pidp :: l]> (pidhash s)) s in
    Ok (newpid, set_pids (<[pidp := MkPid false false slot newpid None 1]> (ps_pid s)) s)
  end.

(** The structure leaves its chain, where it must be, and is freed. *)
Definition pid_rele (s : psys) (pidp : Z) : res psys :=
  p ← deref (ps_pid s !! pidp);
  l ← deref (pidhash s !! HASHPID s (pid_id p));
  if bool_decide (pidp ∈ (l : list Z)) then
    Ok (set_pids (delete pidp (ps_pid s))
          (set_hash (<[HASHPID s (pid_id p) := filter (λ x, x ≠ pidp) l]> (pidhash s)) s))
  else Fault.

Definition PID_HOLD (s : psys) (pidp : option Z) : res psys := upd_pid pidp (λ p, set_ref (pid_ref p + 1) p) s.

Definition PID_RELE (s : psys) (pidp : option Z) : res psys :=
  a ← deref pidp;
  p ← deref (ps_pid s !! a);
  if 1 <? pid_ref p then Ok (set_pids (<[a := set_ref (pid_ref p - 1) p]> (ps_pid s)) s) else pid_rele s a.

Definition proc_entry_free (s : psys) (pidp : option Z) : res psys :=
  s ← upd_pid pidp (set_inactive true) s;
  p ← get_pid s pidp;
  _ ← deref (procdir s !! Z.to_nat (pid_prslot p));
  Ok (set_dir (<[Z.to_nat (pid_prslot p) := PeNext (procentfree s)]> (procdir s)) (Some (pid_prslot p)) s).

(** ** References that drivers hold *)

Definition proc_ref (s : psys) (curproc : Z) : res (option Z * psys) :=
  p ← deref (ps_proc s !! curproc);
  s ← PID_HOLD s (p_pidp p);
  Ok (p_pidp p, s).

Definition proc_unref (s : psys) (pref : option Z) : res psys := PID_RELE s pref.

Definition prsignal (s : psys) (pidp : option Z) (sig : Z) : res psys :=
  p ← get_pid s pidp;
  if pid_prinactive p then Ok s
  else
    e ← deref (procdir s !! Z.to_nat (pid_prslot p));
    match e with PeProc prp => Ok (set_sigs (ps_sigs s ++ [(prp, sig)]) s) | PeNext _ => Fault end.

Definition proc_signal (s : psys) (pref : option Z) (sig : Z) : res (Z * psys) :=
  s ← prsignal s pref sig;
  p ← get_pid s pref;
  Ok (if pid_prinactive p then -1 else 0, s).

(** ** The tables at boot *)

(** The static [pid0], [p0] and [session0]; their addresses. *)
Definition pid0 : Z := 0.
Definition proc_sched : Z := 0.
Definition session0 : Z := 0.

Definition free_entries (v_proc : Z) : list procent :=
  (λ i, PeNext (if Z.of_nat i =? v_proc - 1 then None else Some (Z.of_nat i + 1))) <$> seq 1 (Z.to_nat v_proc - 1).

(** [pid_init] with [v.v_proc] and the size of the hash table, and what startup does to
    the first process. *)
Definition pid_init (v_proc hashsz : Z) : psys :=
  MkPs {[pid0 := MkPid false true 0 0 (Some proc_sched) 3]}
    {[proc_sched := MkProc (Some pid0) (Some pid0) None None None [] (Some session0) SRUN false]}
    {[session0 := MkSess 1 (Some pid0)]}
    ([pid0] :: replicate (Z.to_nat hashsz - 1) [])
    (PeProc proc_sched :: free_entries v_proc) (Some 1) 0 0 [proc_sched] 1 [].

(** [pid_hashsz] for an average chain of [pid_hashlen]. *)
Definition pid_hashlen : Z := 4.
