(* ===== verification/PidProps.v ===== *)
(** * The tables of pid.c: hash chains, slots and the choice of an id

    [tab_ok]: every id structure is in the chain of its id and in no other, ids are
    different, and the slots of the directory are the free ones, on their list, and those
    of the running processes.  The map [act] gives the process of each active id. *)

From S2P Require Import Prelude Pid.

Fixpoint free_chain (dir : list procent) (x : option Z) (l : list Z) : Prop :=
  match l with
  | [] => x = None
  | i :: l => x = Some i ∧ 0 ≤ i ∧ ∃ n, dir !! Z.to_nat i = Some (PeNext n) ∧ free_chain dir n l
  end.

Record tab_ok (act : gmap Z Z) (s : psys) : Prop := {
  tb_size : ∃ k, 0 ≤ k ∧ pid_hashsz s = 2 ^ k;
  tb_nodup b l : pidhash s !! b = Some l → NoDup l;
  tb_mem b l x : pidhash s !! b = Some l → x ∈ l ↔ ∃ p, ps_pid s !! x = Some p ∧ HASHPID s (pid_id p) = b;
  tb_ids x y p q : ps_pid s !! x = Some p → ps_pid s !! y = Some q → pid_id p = pid_id q → x = y;
  tb_range x p : ps_pid s !! x = Some p → 0 ≤ pid_id p < MAXPID;
  tb_free : ∃ fl, free_chain (procdir s) (procentfree s) fl ∧ NoDup fl ∧
    ∀ i n, procdir s !! i = Some (PeNext n) → Z.of_nat i ∈ fl;
  tb_dir i prp : procdir s !! i = Some (PeProc prp) →
    ∃ x p, act !! x = Some prp ∧ ps_pid s !! x = Some p ∧ pid_prslot p = Z.of_nat i;
  tb_act x prp : act !! x = Some prp → ∃ p, ps_pid s !! x = Some p ∧ 0 ≤ pid_prslot p ∧
    pid_prinactive p = false ∧ procdir s !! Z.to_nat (pid_prslot p) = Some (PeProc prp);
  tb_inactive x p : ps_pid s !! x = Some p → act !! x = None → pid_prinactive p = true;
  tb_inj x y prp : act !! x = Some prp → act !! y = Some prp → x = y
}.

(** ** What the tables depend on *)

Definition same_key (p q : pid) : Prop :=
  pid_id p = pid_id q ∧ pid_prslot p = pid_prslot q ∧ pid_prinactive p = pid_prinactive q.

(** A state with the same tables, whose ids have the same keys. *)
Record tab_same (s s' : psys) : Prop := {
  ts_hash : pidhash s' = pidhash s;
  ts_dir : procdir s' = procdir s;
  ts_free : procentfree s' = procentfree s;
  ts_pids x : match ps_pid s !! x, ps_pid s' !! x with
              | Some p, Some q => same_key p q
              | None, None => True
              | _, _ => False
              end
}.

#[global] Instance tab_same_refl : Reflexive tab_same.
Proof. intros s. split; [done..|]. intros x. by destruct (ps_pid s !! x). Qed.

#[global] Instance tab_same_trans : Transitive tab_same.
Proof.
  intros s1 s2 s3 [] []. split; try congruence. intros x. specialize (ts_pids0 x). specialize (ts_pids1 x).
  unfold same_key in *. repeat case_match; try done; intuition congruence.
Qed.

Lemma tab_same_sym s s' : tab_same s s' → tab_same s' s.
Proof.
  intros []. split; try congruence. intros x. specialize (ts_pids0 x). unfold same_key in *.
  repeat case_match; try done; intuition congruence.
Qed.

Lemma same_lookup s s' x p : tab_same s s' → ps_pid s !! x = Some p → ∃ q, ps_pid s' !! x = Some q ∧ same_key p q.
Proof. intros [_ _ _ H] E. specialize (H x). rewrite E in H. case_match; [eauto|done]. Qed.

Lemma tab_ok_same act s s' : tab_same s s' → tab_ok act s → tab_ok act s'.
Proof.
  intros Hs [H1 H2 H3 H4 H5 H6 H7 H8 H9 H10]. pose proof (tab_same_sym _ _ Hs) as Hr.
  pose proof Hs as [Eh Ed Ef _].
  assert (∀ id, HASHPID s' id = HASHPID s id) as EH by (intros id; unfold HASHPID, pid_hashsz; by rewrite Eh).
  split; rewrite ?Eh, ?Ed, ?Ef; [|done| | | |done| | | |done].
  - unfold pid_hashsz. by rewrite Eh.
  - intros b l x Hb. rewrite (H3 b l x Hb). split; intros (p & E & Eb).
    + destruct (same_lookup _ _ _ _ Hs E) as (q & Eq & Ei & _). exists q. rewrite EH, <- Ei. done.
    + destruct (same_lookup _ _ _ _ Hr E) as (q & Eq & Ei & _). exists q. rewrite <- EH, <- Ei. done.
  - intros x y p q Ex Ey Ei. destruct (same_lookup _ _ _ _ Hr Ex) as (p' & Ep & Ep' & _).
    destruct (same_lookup _ _ _ _ Hr Ey) as (q' & Eq & Eq' & _). eapply H4; [done|done|congruence].
  - intros x p Ex. destruct (same_lookup _ _ _ _ Hr Ex) as (p' & Ep & Ep' & _). rewrite Ep'. by eapply H5.
  - intros i prp Ei. destruct (H7 i prp Ei) as (x & p & Ea & Ep & Eslot).
    destruct (same_lookup _ _ _ _ Hs Ep) as (q & Eq & _ & Eq' & _). exists x, q. split_and!; [done|done|congruence].
  - intros x prp Ea. destruct (H8 x prp Ea) as (p & Ep & Hp & Hi & Hd).
    destruct (same_lookup _ _ _ _ Hs Ep) as (q & Eq & _ & Eq' & Eq''). exists q. rewrite <- Eq', <- Eq''. done.
  - intros x p Ex Ea. destruct (same_lookup _ _ _ _ Hr Ex) as (p' & Ep & _ & _ & Ei). rewrite Ei. by eapply H9.
Qed.

(** ** Lookup *)

Lemma hash_bucket act s id : tab_ok act s → ∃ l, pidhash s !! HASHPID s id = Some l.
Proof.
  intros Hok. destruct (tb_size _ _ Hok) as (k & Hk & E). apply lookup_lt_is_Some.
  unfold HASHPID. rewrite E. replace (2 ^ k - 1) with (Z.ones k) by (rewrite Z.ones_equiv; lia).
  rewrite Z.land_ones by done. unfold pid_hashsz in E.
  pose proof (Z.mod_pos_bound id (2 ^ k) ltac:(apply Z.pow_pos_nonneg; lia)). lia.
Qed.

Lemma lookup_chain_spec pids id l : (∀ x, x ∈ l → is_Some (pids !! x)) →
  ∃ r, lookup_chain pids id l = Ok r ∧
    match r with
    | Some x => x ∈ l ∧ ∃ p, pids !! x = Some p ∧ pid_id p = id
    | None => ∀ x p, x ∈ l → pids !! x = Some p → pid_id p ≠ id
    end.
Proof.
  induction l as [|y l IH]; intros Hl; simpl.
  { exists None. split; [done|]. by intros x p ?%elem_of_nil. }
  destruct (Hl y ltac:(left)) as [p Ep]. rewrite Ep. cbn [mbind res_bind deref].
  destruct (Z.eqb_spec (pid_id p) id) as [E|E].
  - exists (Some y). split; [done|]. split; [left|]. by exists p.
  - destruct IH as (r & -> & Hr); [intros x Hx; apply Hl; by right|]. exists r. split; [done|].
    destruct r as [x|]; [destruct Hr as [Hx Hr]; split; [by right|done]|].
    intros x q [->|Hx]%elem_of_cons Eq; [congruence|by apply (Hr x)].
Qed.

Lemma pid_lookup_spec act s id : tab_ok act s →
  ∃ r, pid_lookup s id = Ok r ∧
    match r with
    | Some x => ∃ p, ps_pid s !! x = Some p ∧ pid_id p = id
    | None => ∀ x p, ps_pid s !! x = Some p → pid_id p ≠ id
    end.
Proof.
  intros Hok. unfold pid_lookup. destruct (hash_bucket act s id Hok) as [l El]. rewrite El. cbn [mbind res_bind deref].
  destruct (lookup_chain_spec (ps_pid s) id l) as (r & -> & Hr).
  { intros x Hx. apply (tb_mem _ _ Hok _ _ x El) in Hx as (p & -> & _). done. }
  exists r. split; [done|]. destruct r as [x|]; [apply Hr|].
  intros x p Ep E. apply (Hr x p); [|done|done]. apply (tb_mem _ _ Hok _ _ x El). exists p. by rewrite E.
Qed.

Lemma pid_lookup_ok act s x p : tab_ok act s → ps_pid s !! x = Some p → pid_lookup s (pid_id p) = Ok (Some x).
Proof.
  intros Hok Ep. destruct (pid_lookup_spec act s (pid_id p) Hok) as ([y|] & -> & Hr); [|by destruct (Hr x p Ep)].
  destruct Hr as (q & Eq & E). by rewrite (tb_ids _ _ Hok _ _ _ _ Eq Ep E).
Qed.

(** ** The choice of an id *)

Lemma next_pid_up act s f n : tab_ok act s → (∀ x p, ps_pid s !! x = Some p → pid_id p ≠ f) →
  f < MAXPID → ∀ m, minpid s - 1 ≤ m < f → f - m ≤ Z.of_nat n →
  ∃ r, next_pid n s m = Ok r ∧ minpid s ≤ r < MAXPID ∧ (∀ x p, ps_pid s !! x = Some p → pid_id p ≠ r).
Proof.
  intros Hok Hf Hlt. induction n as [|n IH]; intros m Hm Hn; [lia|]. cbn [next_pid].
  destruct (Z.eqb_spec (m + 1) MAXPID); [lia|]. destruct (pid_lookup_spec act s (m + 1) Hok) as ([x|] & -> & Hr);
    cbn [mbind res_bind].
  - destruct Hr as (p & Ep & E). apply IH; [|lia]. pose proof (Hf x p Ep). lia.
  - exists (m + 1). split; [done|]. split; [lia|done].
Qed.

Lemma next_pid_some act s f m : tab_ok act s → (∀ x p, ps_pid s !! x = Some p → pid_id p ≠ f) →
  0 ≤ minpid s → minpid s ≤ f < MAXPID → minpid s - 1 ≤ m < MAXPID →
  ∃ r, next_pid PID_FUEL s m = Ok r ∧ minpid s ≤ r < MAXPID ∧ (∀ x p, ps_pid s !! x = Some p → pid_id p ≠ r).
Proof.
  intros Hok Hf H0 Hr Hm. unfold PID_FUEL.
  assert (∀ n m, minpid s - 1 ≤ m < MAXPID → MAXPID - m + (f - minpid s) ≤ Z.of_nat n →
    ∃ r, next_pid n s m = Ok r ∧ minpid s ≤ r < MAXPID ∧ (∀ x p, ps_pid s !! x = Some p → pid_id p ≠ r)) as Hn.
  { clear m Hm. induction n as [|n IH]; intros m Hm Hn; [lia|].
    destruct (decide (m < f)) as [Hlt|Hge]; [apply (next_pid_up act s f); [done|done|lia|lia|lia]|].
    cbn [next_pid]. set (m' := if m + 1 =? MAXPID then minpid s else m + 1).
    destruct (pid_lookup_spec act s m' Hok) as ([x|] & -> & Hx); cbn [mbind res_bind].
    - destruct (Z.eqb_spec (m + 1) MAXPID) as [E|E]; subst m'; [|apply IH; lia].
      destruct Hx as (p & Ep & Ex). pose proof (Hf x p Ep).
      apply (next_pid_up act s f); [done|done|lia|lia|lia].
    - exists m'. split; [done|]. split; [|done]. subst m'. destruct (Z.eqb_spec (m + 1) MAXPID); lia. }
  destruct (decide (m < f)) as [Hlt|Hge]; [apply (next_pid_up act s f)|apply Hn]; rewrite ?Z2Nat.id by (unfold MAXPID; lia);
    unfold MAXPID in *; first [done|lia].
Qed.

(** With fewer structures than ids one is free. *)
Lemma free_id s : 0 ≤ minpid s → Z.of_nat (size (ps_pid s)) < MAXPID - minpid s →
  ∃ f, minpid s ≤ f < MAXPID ∧ ∀ x p, ps_pid s !! x = Some p → pid_id p ≠ f.
Proof.
  intros H0 Hlt. set (ids := (λ kv, pid_id kv.2) <$> map_to_list (ps_pid s)).
  destruct (decide (Forall (λ f, f ∈ ids) (seqZ (minpid s) (MAXPID - minpid s)))) as [Hall|Hno].
  - exfalso. pose proof (NoDup_submseteq _ ids (NoDup_seqZ (minpid s) (MAXPID - minpid s)) (proj1 (list.Forall_forall _ _) Hall)) as Hsub.
    apply submseteq_length in Hsub. unfold ids in Hsub.
    rewrite length_seqZ, length_fmap, length_map_to_list in Hsub. lia.
  - apply not_Forall_Exists in Hno; [|apply _].
    apply list.Exists_exists in Hno as (f & Hf & Hn). exists f. split; [apply elem_of_seqZ in Hf; lia|].
    intros x p Ex E. apply Hn. apply list_elem_of_fmap. exists (x, p). split; [done|]. by apply elem_of_map_to_list.
Qed.

(** ** Slots *)

Lemma free_chain_insert dir i e l x : i ∉ l → 0 ≤ i → free_chain dir x l → free_chain (<[Z.to_nat i := e]> dir) x l.
Proof.
  intros Hi H0. revert x. induction l as [|j l IH]; intros x; simpl; [done|]. intros (-> & Hj & n & En & Hl).
  split; [done|]. split; [done|]. exists n. rewrite list_lookup_insert_ne; [split; [done|]|].
  - apply IH; [|done]. intros Hin. apply Hi. by right.
  - intros E. apply Hi. apply elem_of_cons. left. lia.
Qed.

Lemma free_chain_next dir x l i : free_chain dir x l → i ∈ l → ∃ n, dir !! Z.to_nat i = Some (PeNext n) ∧ 0 ≤ i.
Proof.
  revert x. induction l as [|j l IH]; intros x; simpl; [by intros _ ?%elem_of_nil|].
  intros (-> & Hj & n & En & Hl) [->|Hi]%elem_of_cons; [by exists n|by eapply IH].
Qed.

(** A bucket with one more, or one fewer, structure. *)
Lemma hash_same_index s h id : length h = length (pidhash s) → HASHPID (set_hash h s) id = HASHPID s id.
Proof. intros E. unfold HASHPID, pid_hashsz. simpl. by rewrite E. Qed.

Lemma pid_assign_none s prp pidp : procentfree s = None → pid_assign s prp pidp = Ok (-1, s).
Proof. intros E. unfold pid_assign. by rewrite E. Qed.

(** The tables after a slot and an id are given to process [prp]. *)
Definition assigned (slot newpid prp pidp : Z) (pr : proc) (s s' : psys) : Prop :=
  ps_pid s' = <[pidp := MkPid false false slot newpid None 1]> (ps_pid s) ∧
  ps_proc s' = <[prp := set_pidp (Some pidp) pr]> (ps_proc s) ∧
  ps_sess s' = ps_sess s ∧ practive s' = practive s ∧ nproc s' = nproc s ∧ minpid s' = minpid s ∧ mpid s' = newpid.

Lemma pid_assign_ok act s prp pidp pr slot : tab_ok act s →
  ps_pid s !! pidp = None → ps_proc s !! prp = Some pr → (∀ x, act !! x ≠ Some prp) →
  procentfree s = Some slot → 0 ≤ minpid s → minpid s - 1 ≤ mpid s < MAXPID →
  Z.of_nat (size (ps_pid s)) < MAXPID - minpid s →
  ∃ newpid s', pid_assign s prp pidp = Ok (newpid, s') ∧ minpid s ≤ newpid < MAXPID ∧
    (∀ x p, ps_pid s !! x = Some p → pid_id p ≠ newpid) ∧
    tab_ok (<[pidp := prp]> act) s' ∧ assigned slot newpid prp pidp pr s s'.
Proof.
  intros Hok Hnew Epr Hact Ef H0 Hm Hsz. pose proof Hok as [T1 T2 T3 T4 T5 (fl & Hfl & Hnd & Hall) T7 T8 T9 T10].
  unfold pid_assign. rewrite Ef in *. destruct fl as [|i fl]; [done|]. destruct Hfl as ([= ->] & Hi & n & En & Hfl).
  apply list.NoDup_cons in Hnd as [Hni Hnd]. rewrite En. cbn [mbind res_bind deref].
  unfold upd_proc. cbn [deref mbind res_bind ps_proc set_dir]. rewrite Epr. cbn [mbind res_bind deref].
  set (s1 := set_procs _ _).
  assert (∀ m, next_pid PID_FUEL s1 m = next_pid PID_FUEL s m) as Enp.
  { generalize PID_FUEL. intros k. induction k as [|k IH]; intros m; [done|]. cbn [next_pid].
    change (pid_lookup s1) with (pid_lookup s). change (minpid s1) with (minpid s).
    destruct (pid_lookup s _) as [[y|]| |]; cbn [mbind res_bind]; [by rewrite IH|done..]. }
  change (mpid s1) with (mpid s). rewrite Enp.
  destruct (free_id s H0 Hsz) as (f & Hf & Hff).
  destruct (next_pid_some act s f (mpid s) Hok Hff H0 Hf Hm) as (r & -> & Hr & Hrf). cbn [mbind res_bind].
  destruct (hash_bucket act s r Hok) as [b Eb].
  change (pidhash (set_mpid r s1)) with (pidhash s). change (HASHPID (set_mpid r s1) r) with (HASHPID s r).
  rewrite Eb. cbn [mbind res_bind deref]. do 2 eexists. split; [done|]. split; [done|]. split; [done|].
  set (s' := set_pids _ _). split; [|done].
  assert (∀ id, HASHPID s' id = HASHPID s id) as EH.
  { intros id. unfold HASHPID, pid_hashsz. subst s' s1. simpl. by rewrite length_insert. }
  assert (pidp ∉ b) as Hpb. { intros Hin. apply (T3 _ _ _ Eb) in Hin as (p & Ep & _). congruence. }
  assert (procdir s' = <[Z.to_nat i := PeProc prp]> (procdir s)) as Ed by done.
  assert (ps_pid s' = <[pidp := MkPid false false i r None 1]> (ps_pid s)) as Ep by done.
  assert (act !! pidp = None) as Eap.
  { destruct (act !! pidp) eqn:E; [|done]. destruct (T8 _ _ E) as (p & Ep' & _). congruence. }
  split; rewrite ?EH.
  - destruct T1 as (k & Hk & Ek). exists k. split; [done|]. unfold pid_hashsz in *. subst s' s1. simpl.
    by rewrite length_insert.
  - subst s' s1. simpl. intros c l. rewrite list_lookup_insert_Some. intros [(<- & <- & _)|[_ El]]; [|by eapply T2].
    apply list.NoDup_cons. split; [done|by eapply T2].
  - intros c l x. rewrite Ep. setoid_rewrite EH. change (pidhash s') with (<[HASHPID s r := pidp :: b]> (pidhash s)).
    rewrite list_lookup_insert_Some. intros [(<- & <- & _)|[Hne El]].
    + rewrite elem_of_cons, (T3 _ _ x Eb). destruct (decide (x = pidp)) as [->|Hx].
      * rewrite lookup_insert_eq. split; [intros _; eexists; split; [done|done]|by left].
      * rewrite lookup_insert_ne by done. split; [intros [?|?]; [done|done]|by right].
    + rewrite (T3 _ _ x El). destruct (decide (x = pidp)) as [->|Hx]; [|by rewrite lookup_insert_ne].
      rewrite lookup_insert_eq, Hnew. split; [by intros (? & ? & _)|]. intros (p & [= <-] & E). by destruct Hne.
  - rewrite Ep. intros x y p q. destruct (decide (x = pidp)) as [->|Hx], (decide (y = pidp)) as [->|Hy];
      rewrite ?lookup_insert_eq, ?lookup_insert_ne by done; [done| | |apply T4].
    + intros [= <-] Eq E. by destruct (Hrf y q Eq).
    + intros Eq [= <-] E. by destruct (Hrf x p Eq).
  - rewrite Ep. intros x p. rewrite lookup_insert_Some. intros [(<- & <-)|[_ E]]; [simpl; lia|by eapply T5].
  - exists fl. rewrite Ed. change (procentfree s') with n. split; [by apply free_chain_insert|]. split; [done|].
    intros j m. rewrite list_lookup_insert_Some. intros [(_ & [=] & _)|[Hne E]].
    specialize (Hall _ _ E). apply elem_of_cons in Hall as [Hji|Hall]; [|done]. destruct Hne. lia.
  - intros j q. rewrite Ed, Ep, list_lookup_insert_Some. intros [(<- & [= <-] & _)|[Hne E]].
    + exists pidp. eexists. rewrite !lookup_insert_eq. split_and!; [done|done|simpl; lia].
    + destruct (T7 _ _ E) as (x & p & Ea & Ex & Es). exists x, p.
      rewrite !lookup_insert_ne by congruence. done.
  - intros x q. rewrite Ed, Ep, lookup_insert_Some. intros [(<- & <-)|[Hx E]].
    + eexists. rewrite lookup_insert_eq. split; [done|]. simpl. split; [done|]. split; [done|].
      apply list_lookup_insert_eq. by eapply lookup_lt_Some.
    + destruct (T8 _ _ E) as (p & Ex & Hp & Hi' & Hd). exists p. rewrite lookup_insert_ne by congruence.
      split_and!; [done|done|done|]. rewrite list_lookup_insert_ne; [done|]. intros Eq. rewrite Eq in En. congruence.
  - intros x p. rewrite Ep. destruct (decide (x = pidp)) as [->|Hx]; [by rewrite !lookup_insert_eq|].
    rewrite !lookup_insert_ne by done. apply T9.
  - intros x y q. rewrite !lookup_insert_Some. intros [(<- & <-)|[Hx E]] [(<- & E')|[Hy E']]; try done.
    + by destruct (Hact y).
    + subst. by destruct (Hact x).
    + by eapply T10.
Qed.

Lemma pid_rele_ok act s x p : tab_ok act s → ps_pid s !! x = Some p → act !! x = None →
  ∃ s', pid_rele s x = Ok s' ∧ tab_ok act s' ∧ ps_pid s' = delete x (ps_pid s) ∧
    s' = set_pids (ps_pid s') (set_hash (pidhash s') s).
Proof.
  intros Hok Ep Ea. pose proof Hok as [T1 T2 T3 T4 T5 T6 T7 T8 T9 T10].
  unfold pid_rele. rewrite Ep. cbn [mbind res_bind deref]. destruct (hash_bucket act s (pid_id p) Hok) as [b Eb].
  rewrite Eb. cbn [mbind res_bind deref].
  assert (x ∈ b) as Hxb by (apply (T3 _ _ x Eb); by exists p). rewrite bool_decide_true by exact Hxb.
  eexists. split; [done|]. set (s' := set_pids _ _). split; [|done].
  assert (∀ id, HASHPID s' id = HASHPID s id) as EH.
  { intros id. unfold HASHPID, pid_hashsz. subst s'. simpl. by rewrite length_insert. }
  assert (ps_pid s' = delete x (ps_pid s)) as Ep' by done.
  assert (∀ y q, delete x (ps_pid s) !! y = Some q → ps_pid s !! y = Some q) as Hd.
  { intros y q. rewrite lookup_delete_Some. by intros []. }
  split; rewrite ?Ep'.
  - destruct T1 as (k & Hk & Ek). exists k. split; [done|]. unfold pid_hashsz in *. subst s'. simpl. by rewrite length_insert.
  - subst s'. simpl. intros c l. rewrite list_lookup_insert_Some. intros [(<- & <- & _)|[_ El]]; [|by eapply T2].
    apply list.NoDup_filter. by eapply T2.
  - intros c l y. setoid_rewrite EH. change (pidhash s') with (<[HASHPID s (pid_id p) := filter (λ x', x' ≠ x) b]> (pidhash s)).
    rewrite list_lookup_insert_Some. setoid_rewrite lookup_delete_Some. intros [(<- & <- & _)|[Hne El]].
    + rewrite list_elem_of_filter, (T3 _ _ y Eb). naive_solver.
    + rewrite (T3 _ _ y El). split; [|naive_solver]. intros (q & Eq & Ec). exists q. split; [|done]. split; [|done].
      intros ->. assert (q = p) as -> by congruence. done.
  - intros y z q r ?%Hd ?%Hd. by apply T4.
  - intros y q ?%Hd. by eapply T5.
  - exact T6.
  - intros i q E. destruct (T7 _ _ E) as (y & r & E1 & E2 & E3). exists y, r. rewrite lookup_delete_ne; [done|congruence].
  - intros y q E. destruct (T8 _ _ E) as (r & E1 & E2). exists r. rewrite lookup_delete_ne; [done|congruence].
  - intros y q ?%Hd. by apply T9.
  - exact T10.
Qed.

Lemma proc_entry_free_ok act s x p prp : tab_ok act s → ps_pid s !! x = Some p → act !! x = Some prp →
  ∃ s', proc_entry_free s (Some x) = Ok s' ∧ tab_ok (delete x act) s' ∧
    ps_pid s' = <[x := set_inactive true p]> (ps_pid s) ∧
    s' = set_pids (ps_pid s') (set_dir (procdir s') (procentfree s') s).
Proof.
  intros Hok Ep Ea. pose proof Hok as [T1 T2 T3 T4 T5 (fl & Hfl & Hnd & Hall) T7 T8 T9 T10].
  destruct (T8 _ _ Ea) as (p' & Ep' & Hs & Hi & Hdir). assert (p' = p) as -> by congruence.
  unfold proc_entry_free, upd_pid, get_pid. cbn [deref mbind res_bind]. rewrite Ep.
  cbn [mbind res_bind deref ps_pid set_pids]. rewrite lookup_insert_eq. cbn [deref mbind res_bind pid_prslot set_inactive].
  change (procdir (set_pids _ s)) with (procdir s). rewrite Hdir. cbn [mbind res_bind deref].
  eexists. split; [done|]. set (s' := set_dir _ _ _). split; [|done].
  assert (ps_pid s' = <[x := set_inactive true p]> (ps_pid s)) as Eps by done.
  assert (procdir s' = <[Z.to_nat (pid_prslot p) := PeNext (procentfree s)]> (procdir s)) as Ed by done.
  assert (pid_prslot p ∉ fl) as Hsf.
  { intros Hin. destruct (free_chain_next _ _ _ _ Hfl Hin) as (n & En & _). congruence. }
  split; rewrite ?Eps.
  - exact T1.
  - exact T2.
  - intros c l y El. change (HASHPID s') with (HASHPID s). change (pidhash s') with (pidhash s) in El. rewrite (T3 _ _ y El).
    destruct (decide (y = x)) as [->|Hy]; [|by rewrite lookup_insert_ne]. rewrite lookup_insert_eq.
    split; intros (q & Eq & Ec); [exists (set_inactive true p)|exists p]; (split; [done|]); simplify_eq; done.
  - intros y z q r. rewrite !lookup_insert_Some. intros [(<- & <-)|[? E1]] [(<- & <-)|[? E2]]; simpl; try done; eauto.
  - intros y q. rewrite lookup_insert_Some. intros [(<- & <-)|[_ E]]; simpl; by eapply T5.
  - exists (pid_prslot p :: fl). rewrite Ed. split.
    { split; [done|]. split; [done|]. eexists. rewrite list_lookup_insert_eq by (by eapply lookup_lt_Some).
      split; [done|]. by apply free_chain_insert. }
    split; [by apply list.NoDup_cons|]. intros i n. rewrite list_lookup_insert_Some, elem_of_cons.
    intros [(<- & _)|[_ E]]; [left; lia|right; by eapply Hall].
  - intros i q. rewrite Ed, list_lookup_insert_Some. intros [(_ & [=] & _)|[Hne E]].
    destruct (T7 _ _ E) as (y & r & E1 & E2 & E3). assert (y ≠ x) as Hy.
    { intros ->. assert (r = p) as -> by congruence. apply Hne. lia. }
    exists y, r. by rewrite lookup_delete_ne, lookup_insert_ne by done.
  - intros y q. rewrite lookup_delete_Some. intros [Hy E]. destruct (T8 _ _ E) as (r & E1 & E2 & E3 & E4).
    exists r. rewrite lookup_insert_ne by done. split_and!; [done..|]. rewrite Ed, list_lookup_insert_ne; [done|].
    intros Eq. assert (q = prp) as -> by (rewrite Eq in Hdir; congruence). by destruct Hy; apply (T10 x y prp).
  - intros y q. destruct (decide (y = x)) as [->|Hy].
    + rewrite lookup_insert_eq, lookup_delete_eq. by intros [= <-] _.
    + rewrite lookup_insert_ne, lookup_delete_ne by done. apply T9.
  - intros y z q. rewrite !lookup_delete_Some. intros [_ E1] [_ E2]. by eapply T10.
Qed.
