(* ===== verification/Pgrp.v ===== *)
(** * Process groups and sessions (uts/common/os/pgrp.c, os/session.c, syscall/pgrpsys.c)

    A process group is the id structure of its leader: its members are linked from
    [pid_pglink], and [pid_pgorphaned] says that no member has a parent in another group of
    the session.  A session counts the processes in it and holds the id of its leader.
    The file also has the parts of fork, exit and wait (os/fork.c, os/exit.c) that make
    and destroy processes in these tables.

    - Signals are recorded in [ps_sigs].  Whether a process is stopped by job control
      ([jobstopped], os/sig.c) and the address of the init process are parameters.
    - The lists of orphans, of children with news and /proc's data are left out. *)

From S2P Require Import Prelude Pid.


Definition SIGHUP : Z := 1.
Definition SIGCONT : Z := 25.

(** ** pgrp.c *)

Definition pglinked (s : psys) (cp : Z) : res bool :=
  c ← deref (ps_proc s !! cp);
  match p_parent c with
  | None => Ok false
  | Some _ =>
    pp ← get_proc s (p_parent c);
    Ok (negb (bool_decide (p_pgidp pp = p_pgidp c)) && bool_decide (p_sessp pp = p_sessp c))
  end.

(** The chain from [x] along [p_pglink], as the loops over a group walk it. *)
Fixpoint group_from (fuel : nat) (s : psys) (x : option Z) : res (list Z) :=
  match x with
  | None => Ok []
  | Some a =>
    match fuel with
    | O => Fault
    | S fuel =>
      p ← deref (ps_proc s !! a);
      l ← group_from fuel s (p_pglink p);
      Ok (a :: l)
    end
  end.

Definition members (s : psys) (x : option Z) : res (list Z) := group_from (S (size (ps_proc s))) s x.

Definition sigtopg (s : psys) (pidp : option Z) (sig : Z) : res psys :=
  g ← get_pid s pidp;
  l ← members s (pid_pglink g);
  Ok (set_sigs (ps_sigs s ++ ((λ p, (p, sig)) <$> l)) s).

Definition pgsignal (s : psys) (pidp : option Z) (sig : Z) : res psys := sigtopg s pidp sig.

(** [signal] of pid.c, by the id of a group. *)
Definition signal (s : psys) (pgid sig : Z) : res psys :=
  pidp ← pid_lookup s pgid;
  if pgid =? 0 then Ok s
  else match pidp with None => Ok s | Some _ => sigtopg s pidp sig end.

Definition pgjoin (s : psys) (p : Z) (pgp : option Z) : res psys :=
  s ← upd_proc (Some p) (set_ppglink None) s;
  g ← get_pid s pgp;
  s ← upd_proc (Some p) (set_pglink (pid_pglink g)) s;
  s ← match pid_pglink g with None => Ok s | Some q => upd_proc (Some q) (set_ppglink (Some p)) s end;
  s ← upd_pid pgp (set_pid_pglink (Some p)) s;
  s ← upd_proc (Some p) (set_pgidp pgp) s;
  match pid_pglink g with
  | None =>
    s ← PID_HOLD s pgp;
    linked ← pglinked s p;
    upd_pid pgp (set_orphaned (negb linked)) s
  | Some _ =>
    if pid_pgorphaned g then
      linked ← pglinked s p;
      if (linked : bool) then upd_pid pgp (set_orphaned false) s else Ok s
    else Ok s
  end.

(** Whether one of the processes is linked; the loop stops at the first. *)
Fixpoint some_linked (s : psys) (l : list Z) : res bool :=
  match l with
  | [] => Ok false
  | p :: l => linked ← pglinked s p; if (linked : bool) then Ok true else some_linked s l
  end.

Definition pgexit (s : psys) (prp : Z) : res psys :=
  p ← deref (ps_proc s !! prp);
  let pgp := p_pgidp p in
  g ← get_pid s pgp;
  s ← (if bool_decide (pid_pglink g = Some prp) then upd_pid pgp (set_pid_pglink (p_pglink p)) s else Ok s);
  s ← match p_ppglink p with None => Ok s | Some q => upd_proc (Some q) (set_pglink (p_pglink p)) s end;
  s ← match p_pglink p with None => Ok s | Some q => upd_proc (Some q) (set_ppglink (p_ppglink p)) s end;
  s ← upd_proc (Some prp) (λ p, set_ppglink None (set_pglink None (set_pgidp None p))) s;
  g ← get_pid s pgp;
  match pid_pglink g with
  | None => PID_RELE s pgp
  | Some _ =>
    if pid_pgorphaned g then Ok s
    else
      l ← members s (pid_pglink g);
      linked ← some_linked s l;
      if (linked : bool) then Ok s else upd_pid pgp (set_orphaned true) s
  end.

Definition pgmembers (s : psys) (pgid : Z) : res bool :=
  q ← pgfind s pgid;
  l ← members s q;
  (fix go (l : list Z) : res bool :=
     match l with
     | [] => Ok false
     | prp :: l =>
       p ← deref (ps_proc s !! prp);
       d ← get_pid s (p_pidp p);
       if negb (pid_id d =? pgid) then Ok true else go l
     end) l.

Section detach.
Context (jobstopped : psys → Z → bool) (curproc : Z).

(** The walk over the group of a child of [pp]. *)
Fixpoint detach_walk (s : psys) (pp : Z) (pgp : option Z) (stopped : bool) (l : list Z) : res psys :=
  match l with
  | [] =>
    s ← upd_pid pgp (set_orphaned true) s;
    if stopped then s ← sigtopg s pgp SIGHUP; sigtopg s pgp SIGCONT else Ok s
  | mp :: l =>
    m ← deref (ps_proc s !! mp);
    linked ← pglinked s mp;
    if negb (bool_decide (mp = pp)) && negb (bool_decide (p_parent m = Some pp)) && linked then Ok s
    else
      let stopped := if negb stopped && negb (bool_decide (mp = curproc)) then jobstopped s mp else stopped in
      detach_walk s pp pgp stopped l
  end.

Fixpoint detach_children (s : psys) (pp : Z) (cps : list Z) : res psys :=
  match cps with
  | [] => Ok s
  | cp :: cps =>
    c ← deref (ps_proc s !! cp);
    g ← get_pid s (p_pgidp c);
    s ← (if pid_pgorphaned g then Ok s
         else
           _ ← deref (pid_pglink g);
           l ← members s (pid_pglink g);
           detach_walk s pp (p_pgidp c) false l);
    detach_children s pp cps
  end.

Definition pgdetach (s : psys) (pp : Z) : res psys :=
  p ← deref (ps_proc s !! pp);
  detach_children s pp (p_child p).
End detach.

(** ** session.c *)

Definition SESS_HOLD (s : psys) (sp : option Z) : res psys :=
  a ← deref sp; x ← deref (ps_sess s !! a);
  Ok (set_sesss (<[a := MkSess (s_ref x + 1) (s_sidp x)]> (ps_sess s)) s).

Definition sess_rele (s : psys) (sp : Z) : res psys :=
  if sp =? session0 then Panic "sp == &session0"
  else
    x ← deref (ps_sess s !! sp);
    s ← PID_RELE s (s_sidp x);
    Ok (set_sesss (delete sp (ps_sess s)) s).

Definition SESS_RELE (s : psys) (sp : option Z) : res psys :=
  a ← deref sp; x ← deref (ps_sess s !! a);
  let s := set_sesss (<[a := MkSess (s_ref x - 1) (s_sidp x)]> (ps_sess s)) s in
  if 0 <? s_ref x - 1 then Ok s else sess_rele s a.

(** [sp] is the structure that [kmem_zalloc] gives. *)
Definition sess_create (s : psys) (pp sp : Z) : res psys :=
  s ← pgexit s pp;
  p ← deref (ps_proc s !! pp);
  s ← SESS_RELE s (p_sessp p);
  let s := set_sesss (<[sp := MkSess 1 (p_pidp p)]> (ps_sess s)) s in
  s ← upd_proc (Some pp) (set_sessp (Some sp)) s;
  s ← pgjoin s pp (p_pidp p);
  PID_HOLD s (p_pidp p).

(** [p_sessp->s_sid], [p_pid] and [p_pgrp]. *)
Definition s_sid (s : psys) (sp : option Z) : res Z := x ← get_sess s sp; d ← get_pid s (s_sidp x); Ok (pid_id d).
Definition p_pid (s : psys) (p : proc) : res Z := d ← get_pid s (p_pidp p); Ok (pid_id d).
Definition p_pgrp (s : psys) (p : proc) : res Z := d ← get_pid s (p_pgidp p); Ok (pid_id d).

(** ** pgrpsys.c

    [curproc] is the caller; the result is the error, the value and the tables.  [pidlock]
    is not held from the test of the cases 1 and 3 to [sess_create]: [wants_session] is
    the part before. *)

(** The value of cases 1 and 3 before [sess_create]: the error, and whether it is called. *)
Definition wants_session (s : psys) (curproc flag : Z) : res (Z * bool) :=
  p ← deref (ps_proc s !! curproc);
  id ← p_pid s p;
  if flag =? 1 then
    x ← get_sess s (p_sessp p);
    if bool_decide (s_sidp x = p_pidp p) then Ok (0, false)
    else m ← pgmembers s id; Ok (0, negb m)
  else
    if bool_decide (p_pgidp p = p_pidp p) then Ok (EPERM, false)
    else
      m ← pgmembers s id;
      if (m : bool) then Ok (EPERM, false) else Ok (0, true).

Fixpoint find_child (s : psys) (id : Z) (l : list Z) : res (option Z) :=
  match l with
  | [] => Ok None
  | c :: l =>
    p ← deref (ps_proc s !! c);
    cid ← p_pid s p;
    if cid =? id then Ok (Some c) else find_child s id l
  end.

(** The process that [setpgid] is to move, or an error. *)
Definition setpgid_target (s : psys) (curproc pid : Z) : res (Z + Z * Z) :=
  cp ← deref (ps_proc s !! curproc);
  cid ← p_pid s cp;
  if pid =? 0 then Ok (inr (curproc, cid))
  else if (pid <? 0) || (MAXPID <=? pid) then Ok (inl EINVAL)
  else if negb (pid =? cid) then
    c ← find_child s pid (p_child cp);
    match c with
    | None => Ok (inl ESRCH)
    | Some c =>
      p ← deref (ps_proc s !! c);
      if p_execed p then Ok (inl EACCES)
      else if negb (bool_decide (p_sessp p = p_sessp cp)) then Ok (inl EPERM)
      else Ok (inr (c, pid))
    end
  else Ok (inr (curproc, pid)).

Definition setpgid (s : psys) (curproc pid pgid : Z) : res (Z * psys) :=
  t ← setpgid_target s curproc pid;
  match t with
  | inl e => Ok (e, s)
  | inr (t, pid) =>
    p ← deref (ps_proc s !! t);
    sid ← s_sid s (p_sessp p);
    if sid =? pid then Ok (EPERM, s)
    else
      id ← p_pid s p;
      if negb (pgid =? 0) && ((pgid <? 0) || (MAXPID <=? pgid)) then Ok (EINVAL, s)
      else
        let pgid := if pgid =? 0 then id else pgid in
        grp ← p_pgrp s p;
        if grp =? pgid then Ok (0, s)
        else if id =? pgid then
          s ← pgexit s t;
          s ← pgjoin s t (p_pidp p);
          Ok (0, s)
        else
          q ← pgfind s pgid;
          match q with
          | None => Ok (EPERM, s)
          | Some q =>
            qp ← deref (ps_proc s !! q);
            if negb (bool_decide (p_sessp qp = p_sessp p)) then Ok (EPERM, s)
            else
              s ← pgexit s t;
              qp ← deref (ps_proc s !! q);
              s ← pgjoin s t (p_pgidp qp);
              Ok (0, s)
          end
  end.

(** Cases 2 and 4. *)
Definition getpgid (s : psys) (curproc flag pid : Z) : res (Z * Z) :=
  if (pid <? 0) || (MAXPID <=? pid) then Ok (EINVAL, 0)
  else
    cp ← deref (ps_proc s !! curproc);
    cid ← p_pid s cp;
    t ← (if negb (pid =? 0) && negb (cid =? pid) then prfind s pid else Ok (Some curproc));
    match t with
    | None => Ok (ESRCH, 0)
    | Some t =>
      p ← deref (ps_proc s !! t);
      v ← (if flag =? 2 then s_sid s (p_sessp p) else p_pgrp s p);
      Ok (0, v)
    end.

Definition setpgrp (s : psys) (curproc flag pid pgid sp : Z) : res (Z * Z * psys) :=
  if (flag =? 1) || (flag =? 3) then
    '(e, create) ← wants_session s curproc flag;
    if negb (e =? 0) then Ok (e, 0, s)
    else
      s ← (if (create : bool) then sess_create s curproc sp else Ok s);
      p ← deref (ps_proc s !! curproc);
      v ← s_sid s (p_sessp p);
      Ok (0, v, s)
  else if flag =? 5 then
    '(e, s) ← setpgid s curproc pid pgid;
    Ok (e, 0, s)
  else if flag =? 0 then
    p ← deref (ps_proc s !! curproc);
    v ← p_pgrp s p;
    Ok (0, v, s)
  else if (flag =? 2) || (flag =? 4) then
    '(e, v) ← getpgid s curproc flag pid;
    Ok (e, v, s)
  else Ok (0, 0, s).

(** ** fork.c *)

(** [bzero] of a new process, in state [SIDL]. *)
Definition new_proc : proc := MkProc None None None None None [] None SIDL false.

(** [getproc] to the child's place among the processes.  [over] is the test of the
    user's limits; [cp] and [pidp] are what the allocators give. *)
Definition getproc (s : psys) (pp cp pidp : Z) (over : bool) : res (Z * psys) :=
  let s := set_procs (<[cp := new_proc]> (ps_proc s)) s in
  '(newpid, s) ← pid_assign s cp pidp;
  if newpid =? -1 then Ok (-1, set_procs (delete cp (ps_proc s)) s)
  else if over then
    s ← proc_entry_free s (Some pidp);
    s ← pid_rele s pidp;
    Ok (-1, set_procs (delete cp (ps_proc s)) s)
  else
    let s := set_active (cp :: practive s) (nproc s + 1) s in
    p ← deref (ps_proc s !! pp);
    s ← upd_proc (Some cp) (set_sessp (p_sessp p)) s;
    s ← SESS_HOLD s (p_sessp p);
    s ← upd_proc (Some cp) (set_parent (Some pp)) s;
    s ← upd_proc (Some pp) (λ p, set_child (cp :: p_child p) p) s;
    Ok (0, s).

(** The end of [cfork]. *)
Definition fork_join (s : psys) (p cp : Z) : res psys :=
  pp ← deref (ps_proc s !! p);
  s ← pgjoin s cp (p_pgidp pp);
  upd_proc (Some cp) (set_stat SRUN) s.

(** ** pid.c: the end of a process *)

Definition pid_exit (s : psys) (prp : Z) : res psys :=
  p ← deref (ps_proc s !! prp);
  s ← match p_pgidp p with None => Ok s | Some _ => pgexit s prp end;
  s ← SESS_RELE s (p_sessp p);
  s ← proc_entry_free s (p_pidp p);
  let s := set_active (filter (λ x, x ≠ prp) (practive s)) (nproc s) s in
  s ← PID_RELE s (p_pidp p);
  Ok (set_active (practive s) (nproc s - 1) (set_procs (delete prp (ps_proc s)) s)).

(** The processes after [cp] in a list of siblings. *)
Fixpoint siblings_after (cp : Z) (l : list Z) : list Z :=
  match l with
  | [] => []
  | c :: l => if bool_decide (c = cp) then l else siblings_after cp l
  end.

(** The failures of [cfork] after [getproc]. *)
Definition fork_abort (s : psys) (p cp : Z) : res psys :=
  s ← upd_proc (Some p) (λ p, set_child (siblings_after cp (p_child p)) p) s;
  pid_exit s cp.

(** [newproc], which makes a kernel process; [lwp] is whether [lwp_create] succeeds. *)
Definition newproc (s : psys) (curproc cp pidp : Z) (lwp : bool) : res (Z * psys) :=
  '(r, s) ← getproc s curproc cp pidp false;
  if r <? 0 then Ok (EAGAIN, s)
  else if negb lwp then
    s ← pid_exit s cp;
    Ok (EAGAIN, s)
  else
    s ← fork_join s curproc cp;
    Ok (0, s).

(** ** exit.c *)

Section exits.
Context (jobstopped : psys → Z → bool) (proc_init : Z).

(** The children go to init, each in front. *)
Fixpoint to_init (s : psys) (l : list Z) : res psys :=
  match l with
  | [] => Ok s
  | q :: l =>
    s ← upd_proc (Some q) (set_parent (Some proc_init)) s;
    s ← upd_proc (Some proc_init) (λ p, set_child (q :: p_child p) p) s;
    to_init s l
  end.

Definition proc_exit (s : psys) (p : Z) : res psys :=
  pr ← deref (ps_proc s !! p);
  s ← (if bool_decide (p_child pr = []) || bool_decide (p = proc_init) then Ok s
       else
         s ← pgdetach jobstopped p s p;
         s ← to_init s (p_child pr);
         upd_proc (Some p) (set_child []) s);
  upd_proc (Some p) (set_stat SZOMB) s.

(** [freeproc] of a zombie. *)
Definition freeproc (s : psys) (p : Z) : res psys :=
  if bool_decide (p = proc_init) then Ok s
  else
    pr ← deref (ps_proc s !! p);
    s ← upd_proc (p_parent pr) (λ q, set_child (filter (λ c, c ≠ p) (p_child q)) q) s;
    pid_exit s p.
End exits.
