(* ===== verification/PgrpProps.v ===== *)
(** * Process groups as lists, and what joining and leaving one does

    [is_group s g l]: the members of the group of [g] are [l], linked both ways from
    [pid_pglink].  [pgjoin] puts a process in front, [pgexit] takes it out from wherever
    it is. *)

From S2P Require Import Prelude Pid PidProps Pgrp.

(** [hd] and the links that follow are the list [l]; [prev] is before its first. *)
Fixpoint pg_list (m : gmap Z proc) (prev hd : option Z) (l : list Z) : Prop :=
  match l with
  | [] => hd = None
  | x :: l => hd = Some x ∧ ∃ p, m !! x = Some p ∧ p_ppglink p = prev ∧ pg_list m (Some x) (p_pglink p) l
  end.

Definition in_group (m : gmap Z proc) (g x : Z) : Prop := ∃ p, m !! x = Some p ∧ p_pgidp p = Some g.

Definition is_group (s : psys) (g : Z) (l : list Z) : Prop :=
  ∃ gp, ps_pid s !! g = Some gp ∧ pg_list (ps_proc s) None (pid_pglink gp) l ∧ NoDup l ∧
    ∀ x, x ∈ l ↔ in_group (ps_proc s) g x.

(** ** Links *)

Definition links (m : gmap Z proc) (x : Z) : option (option Z * option Z) := (λ p, (p_ppglink p, p_pglink p)) <$> m !! x.

Lemma pg_list_ext m m' prev hd l : (∀ x, x ∈ l → links m' x = links m x) → pg_list m prev hd l → pg_list m' prev hd l.
Proof.
  revert prev hd. induction l as [|x l IH]; intros prev hd Hl; simpl; [done|]. intros (-> & p & Ep & Epp & Hr).
  split; [done|]. specialize (Hl x ltac:(left)) as Hx. unfold links in Hx. rewrite Ep in Hx.
  destruct (m' !! x) as [p'|] eqn:Ep'; [|done]. simpl in Hx. injection Hx as E1 E2. exists p'.
  split; [done|]. split; [congruence|]. rewrite E2. apply IH; [|done]. intros y Hy. apply Hl. by right.
Qed.

Lemma pg_list_lookup m prev hd l x : pg_list m prev hd l → x ∈ l → is_Some (m !! x).
Proof.
  revert prev hd. induction l as [|y l IH]; intros prev hd; simpl; [by intros _ ?%elem_of_nil|].
  intros (-> & p & Ep & _ & Hr) [->|Hx]%elem_of_cons; [by exists p|by eapply IH].
Qed.

Lemma group_from_list s fuel prev hd l : pg_list (ps_proc s) prev hd l → (length l ≤ fuel)%nat → group_from fuel s hd = Ok l.
Proof.
  revert prev hd fuel. induction l as [|x l IH]; intros prev hd fuel; simpl.
  { intros -> _. by destruct fuel. }
  intros (-> & p & Ep & _ & Hr) Hf. destruct fuel as [|fuel]; [lia|]. simpl. rewrite Ep. cbn [deref mbind res_bind].
  rewrite (IH (Some x) (p_pglink p) fuel); [done|done|lia].
Qed.

Lemma in_map_length {A} (m : gmap Z A) l : NoDup l → (∀ x, x ∈ l → is_Some (m !! x)) → (length l ≤ size m)%nat.
Proof.
  intros Hn Hl. rewrite <- (size_dom (D := gset Z)). rewrite <- (size_list_to_set (C := gset Z) l Hn).
  apply subseteq_size. intros x Hx%elem_of_list_to_set. apply elem_of_dom. by apply Hl.
Qed.

Lemma members_list s prev hd l : pg_list (ps_proc s) prev hd l → NoDup l → members s hd = Ok l.
Proof.
  intros Hl Hn. apply (group_from_list _ _ _ _ _ Hl).
  enough (length l ≤ size (ps_proc s))%nat by lia. apply in_map_length; [done|]. intros x. by eapply pg_list_lookup.
Qed.

Lemma is_group_members s g l gp : is_group s g l → ps_pid s !! g = Some gp → members s (pid_pglink gp) = Ok l.
Proof. intros (gp' & E & Hl & Hn & _) E'. simplify_eq. by eapply members_list. Qed.

Lemma pg_list_nil m prev hd l : pg_list m prev hd l → hd = None ↔ l = [].
Proof. destruct l; simpl; [naive_solver|]. intros (-> & _). done. Qed.

(** ** Taking a member out *)

Definition fix_next (prev nxt : option Z) (m : gmap Z proc) : gmap Z proc :=
  match prev with None => m | Some q => alter (set_pglink nxt) q m end.
Definition fix_prev (nxt prev : option Z) (m : gmap Z proc) : gmap Z proc :=
  match nxt with None => m | Some q => alter (set_ppglink prev) q m end.

(** The member [x] of a list with its neighbours. *)
Lemma pg_list_split m prev hd l1 x l2 : pg_list m prev hd (l1 ++ x :: l2) →
  ∃ p, m !! x = Some p ∧ p_ppglink p = (match list.last l1 with Some y => Some y | None => prev end) ∧
    p_pglink p = head l2 ∧ pg_list m (Some x) (p_pglink p) l2 ∧ hd = (match l1 with [] => Some x | y :: _ => Some y end).
Proof.
  revert prev hd. induction l1 as [|y l1 IH]; intros prev hd; simpl.
  - intros (-> & p & Ep & Epp & Hr). exists p. split_and!; try done. destruct l2; [done|]. simpl in Hr. by destruct Hr.
  - intros (-> & p & Ep & Epp & Hr). destruct (IH _ _ Hr) as (q & Eq & Eqq & En & Hl & _). exists q.
    split_and!; try done. rewrite Eqq. destruct l1 as [|z l1]; [done|].
    change (list.last (y :: z :: l1)) with (list.last (z :: l1)).
    destruct (list.last (z :: l1)) eqn:E; [done|]. by apply last_None in E.
Qed.

Lemma links_alter_ne m q x f : x ≠ q → links (alter f q m) x = links m x.
Proof. intros. unfold links. by rewrite lookup_alter_ne. Qed.

Lemma links_insert_ne m q x p : x ≠ q → links (<[q := p]> m) x = links m x.
Proof. intros. unfold links. by rewrite lookup_insert_ne. Qed.

Lemma pg_list_fix_prev m prev0 nxt prev l : NoDup l → pg_list m prev0 nxt l →
  pg_list (fix_prev nxt prev m) prev nxt l.
Proof.
  intros Hn. destruct l as [|y l]; simpl; [by intros ->|]. intros (-> & p & Ep & Epp & Hr). split; [done|].
  unfold fix_prev. exists (set_ppglink prev p). rewrite lookup_alter_eq, Ep. split; [done|]. split; [done|].
  simpl. eapply pg_list_ext; [|exact Hr]. intros z Hz. apply links_alter_ne. intros ->.
  by apply list.NoDup_cons in Hn as [Hn _].
Qed.

Lemma pg_list_remove m prev hd l1 x l2 p : NoDup (l1 ++ x :: l2) → pg_list m prev hd (l1 ++ x :: l2) → m !! x = Some p →
  pg_list (fix_prev (p_pglink p) (match l1 with [] => prev | _ => p_ppglink p end)
            (match l1 with [] => m | _ => fix_next (p_ppglink p) (p_pglink p) m end))
          prev (match l1 with [] => p_pglink p | _ => hd end) (l1 ++ l2).
Proof.
  intros Hn Hl Ep. destruct (pg_list_split _ _ _ _ _ _ Hl) as (p' & Ep' & Epp & En & Hl2 & _).
  assert (p' = p) as -> by congruence. clear Ep'. destruct l1 as [|y l1].
  { simpl in *. apply list.NoDup_cons in Hn as [_ Hn]. by eapply pg_list_fix_prev. }
  assert (∃ q, list.last (y :: l1) = Some q) as [q Eq].
  { destruct (list.last (y :: l1)) eqn:E; [eauto|]. by apply last_None in E. }
  rewrite Eq in Epp. rewrite Epp. simpl fix_next.
  apply list.NoDup_app in Hn as (Hn1 & Hd & Hn2).
  assert (∀ z, z ∈ l2 → z ≠ x ∧ z ∉ y :: l1) as Hz2.
  { intros z Hz. split; [intros ->; by apply list.NoDup_cons in Hn2 as [? _]|].
    intros Hz1. apply (Hd z Hz1). by right. }
  remember (y :: l1) as k eqn:Ek. assert (k ≠ []) as Hk by (by subst). clear y l1 Ek.
  revert prev hd Hl. induction k as [|y k IH]; intros prev hd Hl; [done|].
  simpl in Hl. destruct Hl as (-> & r & Er & Err & Hr). simpl app. cbn [pg_list]. split; [done|].
  apply list.NoDup_cons in Hn1 as [Hyk Hn1].
  assert (y ≠ x ∧ y ∉ l2) as [Hyx Hyl].
  { split; [intros E; apply (Hd y); [left|rewrite E; left]|]. intros Hy. apply (proj2 (Hz2 y Hy)). left. }
  assert (p_pglink p ≠ Some y) as Hny.
  { rewrite En. destruct l2 as [|z l2]; [done|]. simpl. intros [= ->]. apply Hyl. left. }
  assert (∀ m', (fix_prev (p_pglink p) (Some q) m') !! y = m' !! y) as Efp.
  { intros m'. unfold fix_prev. destruct (p_pglink p); [|done]. apply lookup_alter_ne. congruence. }
  rewrite Efp. destruct k as [|z k].
  - simpl in Eq. injection Eq as ->. exists (set_pglink (p_pglink p) r).
    rewrite lookup_alter_eq, Er. split; [done|]. split; [done|]. simpl.
    apply list.NoDup_cons in Hn2 as [Hx2 Hn2']. apply (pg_list_fix_prev _ (Some x)); [done|]. eapply pg_list_ext; [|exact Hl2].
    intros z Hz. apply links_alter_ne. intros ->. done.
  - assert (q ∈ z :: k) as Hq. { apply last_Some in Eq as [k' Ek']. destruct k' as [|? k']; [done|].
      simpl in Ek'. injection Ek' as <- ->. apply elem_of_app. right. left. }
    exists r. rewrite lookup_alter_ne by (intros ->; done). split; [done|]. split; [done|].
    apply IH; try done; intros w Hw; [apply Hd; by right|]. destruct (Hz2 w Hw) as [? Hw2]. split; [done|].
    intros ?. apply Hw2. by right.
Qed.

(** ** What is left alone *)

(** A process but for its links in a group. *)
Definition pview (p : proc) := (p_pidp p, p_pgidp p, p_parent p, p_child p, p_sessp p, p_stat p, p_execed p).

Definition same_view (m m' : gmap Z proc) : Prop := ∀ x, pview <$> m !! x = pview <$> m' !! x.

#[global] Instance same_view_equiv : Equivalence same_view.
Proof. split; [intros m x; done|intros m m' H x; by rewrite H|intros m1 m2 m3 H1 H2 x; by rewrite H1, H2]. Qed.

Lemma view_lookup m m' x p : same_view m m' → m !! x = Some p → ∃ p', m' !! x = Some p' ∧ pview p' = pview p.
Proof. intros H E. specialize (H x). rewrite E in H. simpl in H. destruct (m' !! x) as [p'|]; [|done]. exists p'. split; [done|]. by apply (inj Some) in H. Qed.

Lemma view_alter m q f : (∀ p, pview (f p) = pview p) → same_view (alter f q m) m.
Proof.
  intros Hf x. destruct (decide (x = q)) as [->|]; [|by rewrite lookup_alter_ne].
  rewrite lookup_alter_eq. destruct (m !! q); simpl; [by rewrite Hf|done].
Qed.

Lemma view_insert m m' q p p' : same_view m m' → pview p = pview p' → same_view (<[q := p]> m) (<[q := p']> m').
Proof.
  intros H E x. destruct (decide (x = q)) as [->|]; [rewrite !lookup_insert_eq; simpl; by rewrite E|].
  rewrite !lookup_insert_ne by done. apply H.
Qed.

Lemma view_fix_next prev nxt m : same_view (fix_next prev nxt m) m.
Proof. destruct prev; simpl; [by apply view_alter|done]. Qed.

Lemma view_fix_prev nxt prev m : same_view (fix_prev nxt prev m) m.
Proof. destruct nxt; simpl; [by apply view_alter|done]. Qed.

Lemma view_in_group m m' g x : same_view m m' → in_group m g x → in_group m' g x.
Proof. intros H (p & E & Eg). destruct (view_lookup _ _ _ _ H E) as (p' & E' & Ev). exists p'. split; [done|]. unfold pview in Ev. congruence. Qed.

(** ** Links to a parent in another group *)

Definition parents_ok (m : gmap Z proc) : Prop := ∀ x p q, m !! x = Some p → p_parent p = Some q → is_Some (m !! q).

Definition linkedp (m : gmap Z proc) (x : Z) : bool :=
  match m !! x with
  | Some c =>
    match p_parent c ≫= (λ q, m !! q) with
    | Some pp => negb (bool_decide (p_pgidp pp = p_pgidp c)) && bool_decide (p_sessp pp = p_sessp c)
    | None => false
    end
  | None => false
  end.

Lemma view_parents m m' : same_view m m' → parents_ok m → parents_ok m'.
Proof.
  intros H Hp x p q E Eq. destruct (view_lookup m' m x p ltac:(by symmetry) E) as (p' & E' & Ev).
  assert (p_parent p' = Some q) as Eq' by (unfold pview in Ev; congruence).
  destruct (Hp _ _ _ E' Eq') as [r Er]. destruct (view_lookup _ _ _ _ H Er) as (r' & -> & _). done.
Qed.

Lemma pglinked_eq s x : parents_ok (ps_proc s) → is_Some (ps_proc s !! x) → pglinked s x = Ok (linkedp (ps_proc s) x).
Proof.
  intros Hp [p Ep]. unfold pglinked, linkedp. rewrite Ep. cbn [deref mbind res_bind].
  destruct (p_parent p) as [q|] eqn:Eq; [|done]. destruct (Hp _ _ _ Ep Eq) as [r Er].
  unfold get_proc. cbn [deref mbind res_bind option_bind]. by rewrite Er.
Qed.

Lemma some_linked_eq s l : parents_ok (ps_proc s) → (∀ x, x ∈ l → is_Some (ps_proc s !! x)) →
  some_linked s l = Ok (existsb (linkedp (ps_proc s)) l).
Proof.
  intros Hp. induction l as [|x l IH]; intros Hl; simpl; [done|]. rewrite pglinked_eq by (done || (apply Hl; left)).
  cbn [mbind res_bind]. destruct (linkedp _ x); [done|]. apply IH. intros y Hy. apply Hl. by right.
Qed.

(** ** Joining *)

Lemma upd_proc_ok s a p f : ps_proc s !! a = Some p → upd_proc (Some a) f s = Ok (set_procs (<[a := f p]> (ps_proc s)) s).
Proof. intros E. unfold upd_proc. cbn [deref mbind res_bind]. by rewrite E. Qed.

Lemma upd_pid_ok s a p f : ps_pid s !! a = Some p → upd_pid (Some a) f s = Ok (set_pids (<[a := f p]> (ps_pid s)) s).
Proof. intros E. unfold upd_pid. cbn [deref mbind res_bind]. by rewrite E. Qed.

Lemma get_pid_ok s a p : ps_pid s !! a = Some p → get_pid s (Some a) = Ok p.
Proof. intros E. unfold get_pid. cbn [deref mbind res_bind]. by rewrite E. Qed.

Lemma insert_as_alter {A} (m : gmap Z A) q a f : m !! q = Some a → <[q := f a]> m = alter f q m.
Proof.
  intros E. apply map_eq. intros i. destruct (decide (i = q)) as [->|].
  - by rewrite lookup_insert_eq, lookup_alter_eq, E.
  - by rewrite lookup_insert_ne, lookup_alter_ne.
Qed.

(** The updates of the neighbours. *)
Lemma upd_next_ok s prev nxt : (∀ q, prev = Some q → is_Some (ps_proc s !! q)) →
  (match prev with None => Ok s | Some q => upd_proc (Some q) (set_pglink nxt) s end) =
    Ok (set_procs (fix_next prev nxt (ps_proc s)) s).
Proof.
  intros H. destruct prev as [q|]; simpl; [|by destruct s]. destruct (H q eq_refl) as [p E].
  by rewrite (upd_proc_ok s q p _ E), (insert_as_alter _ _ _ _ E).
Qed.

Lemma upd_prev_ok s prev nxt : (∀ q, nxt = Some q → is_Some (ps_proc s !! q)) →
  (match nxt with None => Ok s | Some q => upd_proc (Some q) (set_ppglink prev) s end) =
    Ok (set_procs (fix_prev nxt prev (ps_proc s)) s).
Proof.
  intros H. destruct nxt as [q|]; simpl; [|by destruct s]. destruct (H q eq_refl) as [p E].
  by rewrite (upd_proc_ok s q p _ E), (insert_as_alter _ _ _ _ E).
Qed.

Lemma view_some m m' q : same_view m m' → is_Some (m !! q) → is_Some (m' !! q).
Proof. intros H [p E]. destruct (view_lookup _ _ _ _ H E) as (p' & -> & _). done. Qed.

(** The state after a change of the processes and of the id [g]. *)
Definition regroup (s : psys) (m : gmap Z proc) (g : Z) (gp : pid) : psys := set_pids (<[g := gp]> (ps_pid s)) (set_procs m s).

(** The links when [p] is put in front of the group whose head is [hd]. *)
Definition push_links (m : gmap Z proc) (p : Z) (pr : proc) (g : Z) (hd : option Z) : gmap Z proc :=
  <[p := set_pgidp (Some g) (set_pglink hd (set_ppglink None pr))]> (fix_prev hd (Some p) m).

Lemma pgjoin_eq s p pr g gp l : parents_ok (ps_proc s) → ps_proc s !! p = Some pr → p_pgidp pr = None → is_group s g l →
  ps_pid s !! g = Some gp →
  let m := push_links (ps_proc s) p pr g (pid_pglink gp) in
  pgjoin s p (Some g) = Ok (regroup s m g (MkPid (pid_prinactive gp)
    (if bool_decide (l = []) then negb (linkedp m p) else pid_pgorphaned gp && negb (linkedp m p))
    (pid_prslot gp) (pid_id gp) (Some p) (pid_ref gp + (if bool_decide (l = []) then 1 else 0)))).
Proof.
  intros Hp Epr Eg (gp' & Egp & Hl & Hn & Hm) Egp'. assert (gp' = gp) as -> by congruence. clear Egp'. intros m.
  assert (p ∉ l) as Hpl. { rewrite Hm. intros (x & Ex & Eg'). congruence. }
  unfold pgjoin. rewrite (upd_proc_ok _ _ _ _ Epr). cbn [mbind res_bind].
  rewrite (get_pid_ok _ g gp) by done. cbn [mbind res_bind].
  rewrite (upd_proc_ok _ p (set_ppglink None pr)) by apply lookup_insert_eq. cbn [mbind res_bind].
  set (s1 := set_procs _ _).
  assert (∀ q, pid_pglink gp = Some q → is_Some (ps_proc s !! q) ∧ q ≠ p) as Hhd.
  { intros q Eq. rewrite Eq in Hl. destruct l as [|q' l]; [done|]. destruct Hl as ([= <-] & qr & Eqr & _).
    split; [by exists qr|]. intros ->. apply Hpl. left. }
  rewrite upd_prev_ok by (intros q Eq; destruct (Hhd q Eq) as [? ?]; subst s1; simpl; by rewrite !lookup_insert_ne).
  cbn [mbind res_bind]. set (s2 := set_procs _ s1).
  assert (s2 = set_procs (<[p := set_pglink (pid_pglink gp) (set_ppglink None pr)]> (fix_prev (pid_pglink gp) (Some p) (ps_proc s))) s) as ->.
  { subst s2 s1. unfold set_procs. simpl. f_equal. rewrite insert_insert_eq. unfold fix_prev.
    destruct (pid_pglink gp) as [q|]; [|done]. by rewrite alter_insert_ne by (by apply Hhd). }
  clear s1. rewrite (upd_pid_ok _ g gp) by done. cbn [mbind res_bind].
  rewrite (upd_proc_ok _ p (set_pglink (pid_pglink gp) (set_ppglink None pr))) by apply lookup_insert_eq.
  cbn [mbind res_bind]. set (s3 := set_procs _ _).
  assert (ps_proc s3 = m) as E3 by (subst s3 m; simpl; apply insert_insert_eq).
  assert (ps_pid s3 = <[g := set_pid_pglink (Some p) gp]> (ps_pid s)) as E3' by done.
  assert (parents_ok m) as Hpm.
  { intros x r q. unfold m, push_links. intros Ex Eq.
    assert (∃ r', ps_proc s !! x = Some r' ∧ p_parent r' = Some q) as (r' & Ex' & Eq').
    { revert Ex. rewrite lookup_insert_Some. intros [(<- & <-)|[_ Ex]]; [by exists pr|].
      destruct (view_lookup _ _ _ _ (view_fix_prev _ _ _) Ex) as (r' & E' & Ev). exists r'. split; [done|]. unfold pview in Ev. congruence. }
    destruct (Hp _ _ _ Ex' Eq') as [w Ew]. destruct (decide (q = p)) as [->|]; [by rewrite lookup_insert_eq|].
    rewrite lookup_insert_ne by done.
    destruct (view_lookup _ (fix_prev (pid_pglink gp) (Some p) (ps_proc s)) _ _ ltac:(symmetry; apply view_fix_prev) Ew) as (w' & -> & _). done. }
  assert (∀ s', ps_proc s' = m → pglinked s' p = Ok (linkedp m p)) as Hlk.
  { intros s' <-. apply pglinked_eq; [done|]. rewrite <- E3. subst s3. simpl. rewrite lookup_insert_eq. done. }
  pose proof (pg_list_nil _ _ _ _ Hl) as Hnil.
  destruct (pid_pglink gp) as [q|] eqn:Eq.
  - rewrite bool_decide_false by (intros ->; by destruct Hnil as [_ Hx]; specialize (Hx eq_refl)).
    destruct (pid_pgorphaned gp) eqn:Eo; cbn [andb].
    + rewrite Hlk by done. cbn [mbind res_bind]. destruct (linkedp m p); simpl.
      * rewrite (upd_pid_ok _ g (set_pid_pglink (Some p) gp)) by (rewrite E3'; apply lookup_insert_eq).
        unfold regroup, set_pids, set_procs. rewrite E3, E3'. simpl. by rewrite insert_insert_eq, Z.add_0_r.
      * unfold regroup, set_pids, set_procs. subst s3. simpl. rewrite Z.add_0_r, insert_insert_eq.
        unfold set_pid_pglink. by rewrite Eo.
    + unfold regroup, set_pids, set_procs. subst s3. simpl. rewrite Z.add_0_r, insert_insert_eq.
      unfold set_pid_pglink. by rewrite Eo.
  - rewrite bool_decide_true by (by apply Hnil). unfold PID_HOLD.
    rewrite (upd_pid_ok _ g (set_pid_pglink (Some p) gp)) by (rewrite E3'; apply lookup_insert_eq). cbn [mbind res_bind].
    rewrite Hlk by done. cbn [mbind res_bind].
    erewrite upd_pid_ok by (simpl; apply lookup_insert_eq).
    unfold regroup, set_pids, set_procs. rewrite E3, E3'. simpl. by rewrite !insert_insert_eq.
Qed.

(** A list keeps its links when no member is touched. *)
Lemma other_group m m' g l : (∀ x, x ∈ l ↔ in_group m g x) → (∀ x, links m' x ≠ links m x → ¬ in_group m g x) →
  ∀ prev hd, pg_list m prev hd l → pg_list m' prev hd l.
Proof.
  intros Hm Hd prev hd. apply pg_list_ext. intros x Hx.
  destruct (decide (links m' x = links m x)) as [|Hne]; [done|]. apply Hm in Hx. by destruct (Hd x Hne).
Qed.

Lemma push_view m p pr g hd : same_view (push_links m p pr g hd) (<[p := set_pgidp (Some g) pr]> m).
Proof. apply view_insert; [apply view_fix_prev|done]. Qed.

(** The groups after a process joined. *)
Lemma push_is_group s p pr g gp gp' l : ps_proc s !! p = Some pr → p_pgidp pr = None → is_group s g l →
  ps_pid s !! g = Some gp → pid_pglink gp' = Some p →
  is_group (regroup s (push_links (ps_proc s) p pr g (pid_pglink gp)) g gp') g (p :: l).
Proof.
  intros Epr Eg (gp1 & Egp & Hl & Hn & Hm) Egp' Ehd. assert (gp1 = gp) as -> by congruence. clear Egp'.
  assert (p ∉ l) as Hpl. { rewrite Hm. intros (x & Ex & Eg'). congruence. }
  exists gp'. split; [apply lookup_insert_eq|]. rewrite Ehd. set (m := push_links _ _ _ _ _). change (ps_proc _) with m.
  split; [|split; [by apply list.NoDup_cons|]].
  - split; [done|]. eexists. split; [apply lookup_insert_eq|]. split; [done|]. simpl.
    eapply pg_list_ext; [|by eapply pg_list_fix_prev]. intros z Hz. apply links_insert_ne. intros ->. done.
  - intros x. rewrite elem_of_cons, Hm. split.
    + intros [->|Hx]; [eexists; split; [apply lookup_insert_eq|done]|].
      eapply view_in_group; [symmetry; apply push_view|]. destruct Hx as (r & Er & Egr). exists r.
      rewrite lookup_insert_ne by congruence. done.
    + intros Hx. eapply view_in_group in Hx; [|apply push_view]. destruct Hx as (r & Er & Egr).
      rewrite lookup_insert_Some in Er. destruct Er as [(<- & <-)|[Hne Er]]; [by left|right; by exists r].
Qed.

Lemma push_other_group s p pr g gp gp' l g' l' : ps_proc s !! p = Some pr → p_pgidp pr = None → is_group s g l →
  ps_pid s !! g = Some gp → g' ≠ g → is_group s g' l' →
  is_group (regroup s (push_links (ps_proc s) p pr g (pid_pglink gp)) g gp') g' l'.
Proof.
  intros Epr Eg (gp1 & Egp & Hl & Hn & Hm) Egp' Hne (hp & Ehp & Hl' & Hn' & Hm').
  assert (gp1 = gp) as -> by congruence. exists hp. split; [simpl; by rewrite lookup_insert_ne|].
  split; [|split; [done|]].
  - eapply other_group; [exact Hm'| |exact Hl']. intros x Hx (r & Er & Egr). apply Hx. simpl. unfold push_links.
    rewrite links_insert_ne by congruence. destruct l as [|q l]; [by rewrite Hl|]. destruct Hl as (-> & _). simpl.
    apply links_alter_ne. intros ->. destruct (proj1 (Hm q) ltac:(left)) as (w & Ew & Egw). congruence.
  - intros x. rewrite Hm'. split; intros Hx.
    + eapply view_in_group; [symmetry; apply push_view|]. destruct Hx as (r & Er & Egr). exists r.
      rewrite lookup_insert_ne by congruence. done.
    + eapply view_in_group in Hx; [|apply push_view]. destruct Hx as (r & Er & Egr).
      rewrite lookup_insert_Some in Er. destruct Er as [(<- & <-)|[_ Er]]; [simpl in Egr; congruence|by exists r].
Qed.

(** ** Leaving *)

Definition out_of_group (p : proc) : proc := set_ppglink None (set_pglink None (set_pgidp None p)).

Definition pull_links (m : gmap Z proc) (p : Z) (pr : proc) : gmap Z proc :=
  <[p := out_of_group pr]> (fix_prev (p_pglink pr) (p_ppglink pr) (fix_next (p_ppglink pr) (p_pglink pr) m)).

Lemma pull_view m p pr : same_view (pull_links m p pr) (<[p := set_pgidp None pr]> m).
Proof. apply view_insert; [|done]. etrans; [apply view_fix_prev|apply view_fix_next]. Qed.

(** The neighbours of a member are members. *)
Lemma neighbours m prev hd l1 p l2 pr : pg_list m prev hd (l1 ++ p :: l2) → m !! p = Some pr → prev = None →
  (∀ q, p_ppglink pr = Some q → q ∈ l1 ++ l2) ∧ (∀ q, p_pglink pr = Some q → q ∈ l1 ++ l2).
Proof.
  intros Hl Ep ->. destruct (pg_list_split _ _ _ _ _ _ Hl) as (p' & Ep' & Epp & En & _ & _).
  assert (p' = pr) as -> by congruence. split; intros q Eq; apply elem_of_app.
  - left. rewrite Epp in Eq. destruct (list.last l1) as [y|] eqn:E; [|done]. injection Eq as ->.
    apply last_Some in E as [k ->]. apply elem_of_app. right. left.
  - right. rewrite En in Eq. apply head_Some_cons in Eq as [k ->]. left.
Qed.

Lemma pull_list m p pr hd l1 l2 : NoDup (l1 ++ p :: l2) → pg_list m None hd (l1 ++ p :: l2) → m !! p = Some pr →
  pg_list (pull_links m p pr) None (match l1 with [] => p_pglink pr | _ => hd end) (l1 ++ l2).
Proof.
  intros Hn Hl Ep. pose proof (pg_list_remove _ _ _ _ _ _ _ Hn Hl Ep) as Hr.
  destruct (pg_list_split _ _ _ _ _ _ Hl) as (p' & Ep' & Epp & _). assert (p' = pr) as -> by congruence.
  assert (p ∉ l1 ++ l2) as Hp. { rewrite elem_of_app. apply list.NoDup_app in Hn as (_ & Hd & Hn).
    apply list.NoDup_cons in Hn as [Hn _]. intros [H|H]; [|done]. apply (Hd p H). left. }
  eapply pg_list_ext; [intros x Hx; apply links_insert_ne; intros ->; done|].
  destruct l1 as [|y l1]; [|exact Hr]. simpl in *. rewrite Epp in *. exact Hr.
Qed.

Lemma pull_parents m p pr : m !! p = Some pr → parents_ok m → parents_ok (pull_links m p pr).
Proof.
  intros Ep Hp. eapply view_parents; [symmetry; apply pull_view|]. intros x r q. rewrite lookup_insert_Some.
  assert (∀ q, is_Some (m !! q) → is_Some (<[p := set_pgidp None pr]> m !! q)) as Hi.
  { intros z Hz. destruct (decide (z = p)) as [->|]; [by rewrite lookup_insert_eq|by rewrite lookup_insert_ne]. }
  intros [(<- & <-)|[_ Ex]] Eq; apply Hi; by eapply Hp.
Qed.

(** What [pgexit] leaves: the group without [p], and released when it is empty. *)
Lemma pgexit_eq s p pr g gp l1 l2 : parents_ok (ps_proc s) → ps_proc s !! p = Some pr → p_pgidp pr = Some g →
  is_group s g (l1 ++ p :: l2) → ps_pid s !! g = Some gp →
  let m := pull_links (ps_proc s) p pr in
  let hd := match l1 with [] => p_pglink pr | _ => pid_pglink gp end in
  pgexit s p =
    match hd with
    | None => PID_RELE (regroup s m g (set_pid_pglink None gp)) (Some g)
    | Some _ => Ok (regroup s m g (set_orphaned (pid_pgorphaned gp || negb (existsb (linkedp m) (l1 ++ l2))) (set_pid_pglink hd gp)))
    end.
Proof.
  intros Hp Epr Eg (gp' & Egp & Hl & Hn & Hm) Egp' m hd. assert (gp' = gp) as -> by congruence. clear Egp'.
  destruct (neighbours _ _ _ _ _ _ _ Hl Epr eq_refl) as [Hprev Hnext].
  assert (p ∉ l1 ++ l2) as Hpl. { rewrite elem_of_app. apply list.NoDup_app in Hn as (_ & Hd & Hn').
    apply list.NoDup_cons in Hn' as [Hn' _]. intros [H|H]; [|done]. apply (Hd p H). left. }
  assert (∀ x, x ∈ l1 ++ l2 → is_Some (ps_proc s !! x)) as Hin.
  { intros x Hx. eapply pg_list_lookup; [exact Hl|]. rewrite elem_of_app in Hx. rewrite elem_of_app, elem_of_cons. tauto. }
  pose proof (pull_list _ _ _ _ _ _ Hn Hl Epr) as Hpull. fold m hd in Hpull.
  destruct (pg_list_split _ _ _ _ _ _ Hl) as (p' & Ep' & Epp & _ & _ & Ehd). assert (p' = pr) as -> by congruence. clear Ep'.
  unfold pgexit. rewrite Epr. cbn [deref mbind res_bind]. rewrite Eg, (get_pid_ok _ g gp) by done. cbn [mbind res_bind].
  assert ((if bool_decide (pid_pglink gp = Some p) then upd_pid (Some g) (set_pid_pglink (p_pglink pr)) s else Ok s) =
    Ok (set_pids (<[g := set_pid_pglink hd gp]> (ps_pid s)) s)) as ->.
  { subst hd. destruct l1 as [|y l1].
    - rewrite bool_decide_true by done. by rewrite (upd_pid_ok _ _ _ _ Egp).
    - rewrite bool_decide_false by (rewrite Ehd; intros [= ->]; apply Hpl; left). f_equal.
      assert (set_pid_pglink (pid_pglink gp) gp = gp) as -> by (by destruct gp). rewrite insert_id by done. by destruct s. }
  cbn [mbind res_bind]. set (s1 := set_pids _ _).
  rewrite upd_next_ok by (intros q Eq; apply Hin; auto). cbn [mbind res_bind]. set (s2 := set_procs _ s1).
  rewrite upd_prev_ok by (intros q Eq; eapply view_some; [symmetry; apply view_fix_next|apply Hin; auto]).
  cbn [mbind res_bind]. set (s3 := set_procs _ s2).
  assert (ps_proc s3 !! p = Some pr) as E3.
  { subst s3 s2. simpl. unfold fix_prev, fix_next. destruct (p_pglink pr) as [q1|], (p_ppglink pr) as [q2|];
      rewrite ?lookup_alter_ne; try done; intros ->; apply Hpl; auto. }
  rewrite (upd_proc_ok s3 p pr) by done. cbn [mbind res_bind].
  rewrite (get_pid_ok _ g (set_pid_pglink hd gp)) by apply lookup_insert_eq. cbn [mbind res_bind pid_pglink set_pid_pglink].
  set (s4 := set_procs _ s3). assert (s4 = regroup s m g (set_pid_pglink hd gp)) as -> by done.
  clear s1 s2 s3 E3. destruct hd as [q|] eqn:Eh; [|done]. cbn [pid_pgorphaned set_pid_pglink].
  destruct (pid_pgorphaned gp) eqn:Eo; [by unfold set_orphaned; simpl; rewrite <- Eo; destruct gp|].
  rewrite (members_list (regroup s m g _) None (Some q) (l1 ++ l2)); [|exact Hpull|].
  2: { apply list.NoDup_app in Hn as (Hn1 & Hd & Hn2). apply list.NoDup_cons in Hn2 as [_ Hn2].
       apply list.NoDup_app. split_and!; [done| |done]. intros x Hx Hx2. apply (Hd x Hx). by right. }
  cbn [mbind res_bind]. rewrite some_linked_eq.
  - cbn [mbind res_bind]. change (ps_proc (regroup s m g _)) with m. destruct (existsb (linkedp m) (l1 ++ l2)); simpl.
    + unfold set_orphaned. simpl. by rewrite <- Eo.
    + rewrite (upd_pid_ok _ g (set_pid_pglink (Some q) gp)) by apply lookup_insert_eq.
      unfold regroup, set_pids, set_procs. simpl. by rewrite insert_insert_eq.
  - by apply pull_parents.
  - intros x Hx. change (ps_proc _) with m. by eapply pg_list_lookup.
Qed.

(** The groups after a process left. *)
Lemma pull_is_group s p pr g gp gp' l1 l2 : ps_proc s !! p = Some pr → p_pgidp pr = Some g → is_group s g (l1 ++ p :: l2) →
  ps_pid s !! g = Some gp → pid_pglink gp' = (match l1 with [] => p_pglink pr | _ => pid_pglink gp end) →
  is_group (regroup s (pull_links (ps_proc s) p pr) g gp') g (l1 ++ l2).
Proof.
  intros Epr Eg (gp1 & Egp & Hl & Hn & Hm) Egp' Ehd. assert (gp1 = gp) as -> by congruence. clear Egp'.
  exists gp'. split; [apply lookup_insert_eq|]. rewrite Ehd. split; [by apply pull_list|].
  apply list.NoDup_app in Hn as (Hn1 & Hd & Hn2). apply list.NoDup_cons in Hn2 as [Hp Hn2].
  split; [apply list.NoDup_app; split_and!; [done| |done]; intros x Hx Hx2; apply (Hd x Hx); by right|].
  intros x. specialize (Hm x). rewrite elem_of_app, elem_of_cons in Hm. rewrite elem_of_app. split.
  - intros Hx. destruct (proj1 Hm ltac:(tauto)) as (r & Er & Egr). eapply view_in_group; [symmetry; apply pull_view|].
    exists r. rewrite lookup_insert_ne; [done|]. intros ->. destruct Hx as [Hx|]; [|done]. apply (Hd x Hx). left.
  - intros Hx. eapply view_in_group in Hx; [|apply pull_view]. destruct Hx as (r & Er & Egr).
    rewrite lookup_insert_Some in Er. destruct Er as [(<- & <-)|[Hne Er]]; [simpl in Egr; done|].
    destruct (proj2 Hm ltac:(by exists r)) as [|[->|]]; tauto.
Qed.

Lemma pull_other_group s p pr g gp' l1 l2 g' l' : ps_proc s !! p = Some pr → p_pgidp pr = Some g →
  is_group s g (l1 ++ p :: l2) → g' ≠ g → is_group s g' l' →
  is_group (regroup s (pull_links (ps_proc s) p pr) g gp') g' l'.
Proof.
  intros Epr Eg (gp1 & Egp & Hl & Hn & Hm) Hne (hp & Ehp & Hl' & Hn' & Hm').
  exists hp. split; [simpl; by rewrite lookup_insert_ne|].
  destruct (neighbours _ _ _ _ _ _ _ Hl Epr eq_refl) as [Hprev Hnext].
  assert (∀ q, q ∈ l1 ++ l2 → in_group (ps_proc s) g q) as Hq.
  { intros q Hq. apply Hm. rewrite elem_of_app in *. rewrite elem_of_cons. tauto. }
  split; [|split; [done|]].
  - eapply other_group; [exact Hm'| |exact Hl']. intros x Hx (r & Er & Egr). apply Hx. simpl. unfold pull_links.
    rewrite links_insert_ne by congruence.
    assert (∀ q, q ∈ l1 ++ l2 → x ≠ q) as Hxq by (intros q Hi ->; destruct (Hq _ Hi) as (w & Ew & Egw); congruence).
    unfold fix_prev, fix_next. destruct (p_pglink pr) as [q1|], (p_ppglink pr) as [q2|];
      rewrite ?links_alter_ne by auto; done.
  - intros x. rewrite Hm'. split; intros Hx.
    + eapply view_in_group; [symmetry; apply pull_view|]. destruct Hx as (r & Er & Egr). exists r.
      rewrite lookup_insert_ne by congruence. done.
    + eapply view_in_group in Hx; [|apply pull_view]. destruct Hx as (r & Er & Egr).
      rewrite lookup_insert_Some in Er. destruct Er as [(<- & <-)|[_ Er]]; [simpl in Egr; congruence|by exists r].
Qed.
