(* ===== verification/PgrpInv.v ===== *)
(** * The invariant of the process tables

    [ps_inv act d e s]: the tables of pid.c are in order, every id has the list of its
    group, pointers lead to structures that exist, and reference counts are the number of
    holders: an id is held by its process, by its group when that has members, by the
    sessions it leads, and [d] more times; a session by the processes in it, and [e] more
    times.  Between the steps of a routine [d] and [e] are the references in flight;
    between routines [d] is what drivers hold. *)

From S2P Require Import Prelude Pid PidProps Pgrp PgrpProps.

Definition o2z {A} (o : option A) : Z := match o with Some _ => 1 | None => 0 end.

Definition sid_count (m : gmap Z sess) (x : Z) : Z := msum (λ se, b2z (bool_decide (s_sidp se = Some x))) m.
Definition sess_count (m : gmap Z proc) (x : Z) : Z := msum (λ p, b2z (bool_decide (p_sessp p = Some x))) m.

Record ps_inv (act : gmap Z Z) (d e : Z → Z) (s : psys) : Prop := {
  pi_tab : tab_ok act s;
  pi_group g gp : ps_pid s !! g = Some gp → ∃ l, is_group s g l;
  pi_pgidp p pr g : ps_proc s !! p = Some pr → p_pgidp pr = Some g → is_Some (ps_pid s !! g);
  pi_parents : parents_ok (ps_proc s);
  pi_sessp p pr x : ps_proc s !! p = Some pr → p_sessp pr = Some x → is_Some (ps_sess s !! x);
  pi_sidp x se : ps_sess s !! x = Some se → ∃ y, s_sidp se = Some y ∧ is_Some (ps_pid s !! y);
  pi_pref x pd : ps_pid s !! x = Some pd →
    1 ≤ pid_ref pd ∧ pid_ref pd = o2z (act !! x) + o2z (pid_pglink pd) + sid_count (ps_sess s) x + d x;
  pi_sref x se : ps_sess s !! x = Some se → 1 ≤ s_ref se ∧ s_ref se = sess_count (ps_proc s) x + e x;
  pi_base : ∃ pr, ps_proc s !! proc_sched = Some pr ∧ p_sessp pr = Some session0;
  pi_min : 0 ≤ minpid s ∧ minpid s - 1 ≤ mpid s < MAXPID;
  pi_dnone x : ps_pid s !! x = None → d x = 0
}.

Lemma ps_inv_ext act d e d' e' s : (∀ x, d x = d' x) → (∀ x, e x = e' x) → ps_inv act d e s → ps_inv act d' e' s.
Proof. intros Hd He [I1 I2 I3 I4 I5 I6 I7 I8 I9 I10 I11]. split; try done; intros; rewrite <- ?Hd, <- ?He; eauto. Qed.

Lemma sid_count_nonneg m x : 0 ≤ sid_count m x.
Proof. apply msum_nonneg. auto with kern. Qed.

Lemma sess_count_nonneg m x : 0 ≤ sess_count m x.
Proof. apply msum_nonneg. auto with kern. Qed.

Lemma sid_count_pos m x k se : m !! k = Some se → s_sidp se = Some x → 1 ≤ sid_count m x.
Proof.
  intros E Es. assert (b2z (bool_decide (s_sidp se = Some x)) ≤ sid_count m x) as H.
  { apply (msum_member (λ se, b2z (bool_decide (s_sidp se = Some x))) m k se); [auto with kern|done]. }
  by rewrite bool_decide_true in H.
Qed.

Lemma sess_count_pos m x k p : m !! k = Some p → p_sessp p = Some x → 1 ≤ sess_count m x.
Proof.
  intros E Es. assert (b2z (bool_decide (p_sessp p = Some x)) ≤ sess_count m x) as H.
  { apply (msum_member (λ p, b2z (bool_decide (p_sessp p = Some x))) m k p); [auto with kern|done]. }
  by rewrite bool_decide_true in H.
Qed.

Lemma o2z_nonneg {A} (o : option A) : 0 ≤ o2z o.
Proof. by destruct o. Qed.

(** What the routines on ids and sessions leave alone. *)
Record keeps_procs (s s' : psys) : Prop := {
  kp_proc : ps_proc s' = ps_proc s;
  kp_active : practive s' = practive s;
  kp_nproc : nproc s' = nproc s;
  kp_minpid : minpid s' = minpid s;
  kp_mpid : mpid s' = mpid s
}.

#[global] Instance keeps_procs_refl : Reflexive keeps_procs.
Proof. by split. Qed.

#[global] Instance keeps_procs_trans : Transitive keeps_procs.
Proof. intros ? ? ? [] []. split; congruence. Qed.

(** ** A change of an id that keeps its key and group *)

Lemma tab_same_pid s x pd pd' : ps_pid s !! x = Some pd → same_key pd pd' → tab_same s (set_pids (<[x := pd']> (ps_pid s)) s).
Proof.
  intros E Hk. split; [done..|]. intros y. simpl. destruct (decide (y = x)) as [->|].
  - by rewrite E, lookup_insert_eq.
  - rewrite lookup_insert_ne by done. by destruct (ps_pid s !! y).
Qed.

Lemma is_group_pid s x pd pd' g l : ps_pid s !! x = Some pd → pid_pglink pd' = pid_pglink pd →
  is_group s g l → is_group (set_pids (<[x := pd']> (ps_pid s)) s) g l.
Proof.
  intros E El (gp & Eg & Hl & Hn & Hm). destruct (decide (g = x)) as [->|].
  - exists pd'. rewrite El. assert (gp = pd) as -> by congruence. split; [apply lookup_insert_eq|done].
  - exists gp. split; [simpl; by rewrite lookup_insert_ne|done].
Qed.

Lemma is_Some_insert {A} (m : gmap Z A) x a y : is_Some (m !! y) → is_Some (<[x := a]> m !! y).
Proof. intros H. destruct (decide (y = x)) as [->|]; [by rewrite lookup_insert_eq|by rewrite lookup_insert_ne]. Qed.

#[export] Hint Resolve is_Some_insert : kern.

Lemma inv_set_pid act d e s x pd pd' : ps_inv act d e s → ps_pid s !! x = Some pd → same_key pd pd' →
  pid_pglink pd' = pid_pglink pd → 1 ≤ pid_ref pd' →
  ps_inv act (plus_at d x (pid_ref pd' - pid_ref pd)) e (set_pids (<[x := pd']> (ps_pid s)) s).
Proof.
  intros [I1 I2 I3 I4 I5 I6 I7 I8 I9 I10 I11] E Hk El Hr. split; try done.
  - eapply tab_ok_same; [by eapply tab_same_pid|done].
  - intros g gp Eg. assert (∃ gp0, ps_pid s !! g = Some gp0) as [gp0 Eg0].
    { destruct (decide (g = x)) as [->|]; [by exists pd|]. simpl in Eg. rewrite lookup_insert_ne in Eg by done. eauto. }
    destruct (I2 _ _ Eg0) as [l Hl]. exists l. by eapply is_group_pid.
  - intros p pr g Ep Eg. simpl. eauto with kern.
  - intros y se Es. destruct (I6 _ _ Es) as (z & Ez & Hz). exists z. simpl. eauto with kern.
  - intros y p. simpl. unfold plus_at. destruct (decide (y = x)) as [->|].
    + rewrite lookup_insert_eq. intros [= <-]. destruct (I7 _ _ E) as [_ ->]. rewrite El. lia.
    + rewrite lookup_insert_ne by done. intros Ep. rewrite Z.add_0_r. by apply I7.
  - intros y. simpl. rewrite lookup_insert_None. intros [E1 E2]. unfold plus_at. rewrite decide_False by done.
    rewrite I11 by done. lia.
Qed.

Lemma PID_HOLD_ok act d e s x pd : ps_inv act d e s → ps_pid s !! x = Some pd →
  ∃ s', PID_HOLD s (Some x) = Ok s' ∧ ps_inv act (plus_at d x 1) e s' ∧ keeps_procs s s' ∧ ps_sess s' = ps_sess s.
Proof.
  intros Hi E. unfold PID_HOLD. rewrite (upd_pid_ok _ _ _ _ E). eexists. split; [done|]. split; [|done].
  eapply ps_inv_ext; [| |eapply (inv_set_pid _ _ _ _ x pd); try done].
  - intros y. unfold plus_at. simpl. case_decide; lia.
  - done.
  - destruct (pi_pref _ _ _ _ Hi _ _ E) as [? _]. simpl. lia.
Qed.

(** The last holder gone, nothing points at the id. *)
Lemma inv_free_pid act d e s x pd : ps_inv act d e s → ps_pid s !! x = Some pd → 1 ≤ d x → pid_ref pd ≤ 1 →
  ∃ s', pid_rele s x = Ok s' ∧ ps_inv act (plus_at d x (-1)) e s' ∧ keeps_procs s s' ∧ ps_sess s' = ps_sess s.
Proof.
  intros [I1 I2 I3 I4 I5 I6 I7 I8 I9 I10 I11] E Hd Hr. destruct (I7 _ _ E) as [H1 H2].
  pose proof (sid_count_nonneg (ps_sess s) x). pose proof (o2z_nonneg (act !! x)). pose proof (o2z_nonneg (pid_pglink pd)).
  assert (act !! x = None) as Ea by (destruct (act !! x); [simpl in *; lia|done]).
  assert (pid_pglink pd = None) as El by (destruct (pid_pglink pd); [simpl in *; lia|done]).
  assert (sid_count (ps_sess s) x = 0) as Es by lia.
  assert (∀ p pr, ps_proc s !! p = Some pr → p_pgidp pr ≠ Some x) as Hg.
  { intros p pr Ep Eg. destruct (I2 _ _ E) as (l & gp & Eg' & Hl & _ & Hm). assert (gp = pd) as -> by congruence.
    apply (pg_list_nil _ _ _ _ Hl) in El as ->. assert (p ∈ []) as ?%elem_of_nil by (apply Hm; by exists pr). done. }
  assert (∀ k se, ps_sess s !! k = Some se → s_sidp se ≠ Some x) as Hs.
  { intros k se Ek Eq. pose proof (sid_count_pos _ _ _ _ Ek Eq). lia. }
  destruct (pid_rele_ok act s x pd I1 E Ea) as (s' & -> & Ht & Ep & Es'). exists s'. split; [done|].
  split; [|by rewrite Es'; split].
  assert (ps_proc s' = ps_proc s) as Epr by (by rewrite Es'). assert (ps_sess s' = ps_sess s) as Ese by (by rewrite Es').
  split; rewrite ?Epr, ?Ese; try done.
  - intros g gp. rewrite Ep, lookup_delete_Some. intros [Hne Eg]. destruct (I2 _ _ Eg) as (l & gp' & Eg' & Hl). exists l, gp'.
    rewrite Ep, Epr, lookup_delete_ne by done. done.
  - intros p pr g Epp Eg. rewrite Ep, lookup_delete_ne; [eauto|]. intros ->. by destruct (Hg p pr).
  - intros k se Ek. destruct (I6 _ _ Ek) as (y & Ey & Hy). exists y. rewrite Ep, lookup_delete_ne; [done|].
    intros ->. by destruct (Hs k se).
  - intros y p. rewrite Ep, lookup_delete_Some. intros [Hne Ey]. unfold plus_at. rewrite decide_False by done.
    rewrite Z.add_0_r. by apply I7.
  - by rewrite Es'.
  - intros y. rewrite Ep, lookup_delete_None. unfold plus_at. intros [->|Ey]; [rewrite decide_True by done; lia|].
    rewrite I11 by done. rewrite decide_False; [done|]. intros ->. congruence.
Qed.

Lemma PID_RELE_ok act d e s x pd : ps_inv act d e s → ps_pid s !! x = Some pd → 1 ≤ d x →
  ∃ s', PID_RELE s (Some x) = Ok s' ∧ ps_inv act (plus_at d x (-1)) e s' ∧ keeps_procs s s' ∧ ps_sess s' = ps_sess s.
Proof.
  intros Hi E Hd. unfold PID_RELE. cbn [deref mbind res_bind]. rewrite E. cbn [deref mbind res_bind].
  destruct (Z.ltb_spec 1 (pid_ref pd)) as [Hr|Hr]; [|by eapply inv_free_pid].
  eexists. split; [done|]. split; [|done].
  eapply ps_inv_ext; [| |eapply (inv_set_pid _ _ _ _ x pd); try done].
  - intros y. unfold plus_at. simpl. case_decide; lia.
  - done.
  - simpl. lia.
Qed.

(** ** Sessions *)

Lemma pid_rele_sess m s x : pid_rele (set_sesss m s) x = (s' ← pid_rele s x; Ok (set_sesss m s')).
Proof.
  unfold pid_rele. change (ps_pid (set_sesss m s)) with (ps_pid s). destruct (ps_pid s !! x) as [p|]; [|done].
  cbn [deref mbind res_bind]. change (HASHPID (set_sesss m s)) with (HASHPID s). change (pidhash (set_sesss m s)) with (pidhash s).
  destruct (pidhash s !! _); [|done]. cbn [deref mbind res_bind]. by case_bool_decide.
Qed.

Lemma PID_RELE_sess m s o : PID_RELE (set_sesss m s) o = (s' ← PID_RELE s o; Ok (set_sesss m s')).
Proof.
  unfold PID_RELE. destruct o as [x|]; [|done]. cbn [deref mbind res_bind]. change (ps_pid (set_sesss m s)) with (ps_pid s).
  destruct (ps_pid s !! x) as [p|]; [|done]. cbn [deref mbind res_bind]. destruct (1 <? pid_ref p); [done|].
  apply pid_rele_sess.
Qed.

Lemma is_group_sess m s g l : is_group s g l → is_group (set_sesss m s) g l.
Proof. done. Qed.

(** A change of the sessions that leaves those which processes are in. *)
Lemma inv_sess act d e s m d' e' : ps_inv act d e s →
  (∀ p pr x, ps_proc s !! p = Some pr → p_sessp pr = Some x → is_Some (m !! x)) →
  (∀ x se, m !! x = Some se → (∃ y, s_sidp se = Some y ∧ is_Some (ps_pid s !! y)) ∧ 1 ≤ s_ref se ∧ s_ref se = sess_count (ps_proc s) x + e' x) →
  (∀ x, is_Some (ps_pid s !! x) → sid_count m x + d' x = sid_count (ps_sess s) x + d x) →
  (∀ x, ps_pid s !! x = None → d' x = d x) →
  ps_inv act d' e' (set_sesss m s).
Proof.
  intros [I1 I2 I3 I4 I5 I6 I7 I8 I9 I10 I11] Hp Hm Hd Hn. split; try done.
  - eapply tab_ok_same; [|exact I1]. split; [done..|]. intros x. simpl. by destruct (ps_pid s !! x).
  - intros x se Es. by destruct (Hm _ _ Es).
  - intros x pd Ex. destruct (I7 _ _ Ex) as [? Er]. split; [done|]. simpl. specialize (Hd x ltac:(by exists pd)). lia.
  - intros x se Es. by destruct (Hm _ _ Es).
  - intros x Ex. rewrite Hn by done. by apply I11.
Qed.

Lemma sid_count_same_sidp m k se n x : m !! k = Some se → sid_count (<[k := MkSess n (s_sidp se)]> m) x = sid_count m x.
Proof. intros E. unfold sid_count. rewrite (msum_update _ _ _ _ _ E). simpl. lia. Qed.

Lemma inv_sess_ref act d e s k se n : ps_inv act d e s → ps_sess s !! k = Some se → 1 ≤ n →
  ps_inv act d (plus_at e k (n - s_ref se)) (set_sesss (<[k := MkSess n (s_sidp se)]> (ps_sess s)) s).
Proof.
  intros Hi E Hn. pose proof Hi as [I1 I2 I3 I4 I5 I6 I7 I8 I9 I10 I11]. apply (inv_sess act d e); [done| | | |done].
  - intros p pr x Ep Ex. eauto with kern.
  - intros x se'. rewrite lookup_insert_Some. unfold plus_at. intros [(<- & <-)|[Hne Ex]].
    + destruct (I8 _ _ E) as [_ H2]. split; [by apply (I6 _ _ E)|]. simpl. rewrite decide_True by done. lia.
    + rewrite decide_False by done. destruct (I8 _ _ Ex). split; [by apply (I6 _ _ Ex)|]. lia.
  - intros x _. by rewrite sid_count_same_sidp.
Qed.

Lemma SESS_HOLD_ok act d e s x se : ps_inv act d e s → ps_sess s !! x = Some se →
  ∃ s', SESS_HOLD s (Some x) = Ok s' ∧ ps_inv act d (plus_at e x 1) s' ∧ keeps_procs s s'.
Proof.
  intros Hi E. unfold SESS_HOLD. cbn [deref mbind res_bind]. rewrite E. cbn [deref mbind res_bind].
  eexists. split; [done|]. split; [|done]. destruct (pi_sref _ _ _ _ Hi _ _ E).
  eapply ps_inv_ext; [done| |by apply (inv_sess_ref act d e s x se (s_ref se + 1)); [..|lia]].
  intros y. unfold plus_at. case_decide; lia.
Qed.

Lemma SESS_RELE_ok act d e s x se : ps_inv act d e s → (∀ y, 0 ≤ d y) → ps_sess s !! x = Some se → 1 ≤ e x →
  ∃ s', SESS_RELE s (Some x) = Ok s' ∧ ps_inv act d (plus_at e x (-1)) s' ∧ keeps_procs s s' ∧
    ∀ z, ps_sess s !! z = None → ps_sess s' !! z = None.
Proof.
  intros Hi Hd E He. pose proof Hi as [I1 I2 I3 I4 I5 I6 I7 I8 I9 I10 I11]. destruct (I8 _ _ E) as [H1 H2].
  unfold SESS_RELE. cbn [deref mbind res_bind]. rewrite E. cbn [deref mbind res_bind].
  destruct (Z.ltb_spec 0 (s_ref se - 1)) as [Hr|Hr].
  { eexists. split; [done|]. split; [|split; [done|]].
    - eapply ps_inv_ext; [done| |by apply (inv_sess_ref act d e s x se (s_ref se - 1)); [..|lia]].
      intros y. unfold plus_at. case_decide; lia.
    - intros z Ez. simpl. rewrite lookup_insert_ne; [done|congruence]. }
  pose proof (sess_count_nonneg (ps_proc s) x). unfold sess_rele.
  destruct (Z.eqb_spec x session0) as [->|Hx].
  { destruct I9 as (pr & Epr & Es). pose proof (sess_count_pos _ _ _ _ Epr Es). lia. }
  change (ps_sess (set_sesss _ s)) with (<[x := MkSess (s_ref se - 1) (s_sidp se)]> (ps_sess s)).
  rewrite lookup_insert_eq. cbn [deref mbind res_bind s_sidp]. rewrite PID_RELE_sess.
  destruct (I6 _ _ E) as (y & Ey & [pd Epd]). rewrite Ey.
  set (s1 := set_sesss (delete x (ps_sess s)) s).
  assert (ps_inv act (plus_at d y 1) (plus_at e x (-1)) s1) as Hi1.
  { apply (inv_sess act d e); [done| | | |].
    - intros p pr z Ep Ez. rewrite lookup_delete_ne; [eauto|]. intros ->. pose proof (sess_count_pos _ _ _ _ Ep Ez). lia.
    - intros z se'. rewrite lookup_delete_Some. unfold plus_at. intros [Hne Ez]. rewrite decide_False by done.
      destruct (I8 _ _ Ez). split; [by apply (I6 _ _ Ez)|]. lia.
    - intros z _. unfold sid_count. rewrite (msum_delete _ _ _ _ E). unfold plus_at. rewrite Ey.
      destruct (decide (z = y)) as [->|]; [rewrite bool_decide_true by done; simpl; lia|].
      rewrite bool_decide_false by congruence. simpl. lia.
    - intros z Ez. unfold plus_at. rewrite decide_False; [lia|]. intros ->. congruence. }
  destruct (PID_RELE_ok act _ _ s1 y pd Hi1 Epd) as (s2 & Er & Hi2 & Hk & Eks).
  { unfold plus_at. rewrite decide_True by done. specialize (Hd y). lia. }
  subst s1. rewrite PID_RELE_sess in Er. destruct (PID_RELE s (Some y)) as [s3| |]; [|done..].
  cbn [mbind res_bind] in *. injection Er as <-. eexists. split; [done|]. split; [|split; [by destruct Hk; split|]].
  2: { intros z Ez. simpl. apply lookup_delete_None. destruct (decide (x = z)) as [|Hxz]; [by left|right].
       simpl in Eks. by rewrite lookup_insert_ne. }
  change (ps_inv act d (plus_at e x (-1)) (set_sesss (delete x (<[x := MkSess (s_ref se - 1) (Some y)]> (ps_sess s))) s3)).
  rewrite delete_insert_eq. eapply ps_inv_ext; [|done|exact Hi2]. intros z. unfold plus_at. case_decide; lia.
Qed.

(** ** Groups *)

Lemma view_sess_count m m' x : same_view m m' → sess_count m x = sess_count m' x.
Proof.
  intros H. unfold sess_count.
  assert (msum (λ p, b2z (bool_decide (p_sessp p = Some x))) m =
    msum (λ v : _ * _ * _ * _ * _ * _ * _, b2z (bool_decide (v.1.1.2 = Some x))) (pview <$> m)) as ->.
  { clear H. induction m as [|k p m Ek IH] using map_ind; [by rewrite fmap_empty, !msum_empty|].
    rewrite fmap_insert, !msum_insert_new; [by rewrite IH| |done]. by rewrite lookup_fmap, Ek. }
  assert (msum (λ p, b2z (bool_decide (p_sessp p = Some x))) m' =
    msum (λ v : _ * _ * _ * _ * _ * _ * _, b2z (bool_decide (v.1.1.2 = Some x))) (pview <$> m')) as ->.
  { clear H. induction m' as [|k p m' Ek IH] using map_ind; [by rewrite fmap_empty, !msum_empty|].
    rewrite fmap_insert, !msum_insert_new; [by rewrite IH| |done]. by rewrite lookup_fmap, Ek. }
  f_equal. apply map_eq. intros i. rewrite !lookup_fmap. apply H.
Qed.

Lemma sess_count_update m p pr pr' x : m !! p = Some pr →
  sess_count (<[p := pr']> m) x = sess_count m x - b2z (bool_decide (p_sessp pr = Some x)) + b2z (bool_decide (p_sessp pr' = Some x)).
Proof. intros E. unfold sess_count. by rewrite (msum_update _ _ _ _ _ E). Qed.

(** The processes after one changed its group, and the rest as it was. *)
Record regrouped (s s' : psys) (m : gmap Z proc) : Prop := {
  rg_view : same_view (ps_proc s') m;
  rg_sess : ps_sess s' = ps_sess s;
  rg_active : practive s' = practive s;
  rg_nproc : nproc s' = nproc s;
  rg_minpid : minpid s' = minpid s;
  rg_mpid : mpid s' = mpid s
}.

Lemma inv_regroup act d e s p pr o m g gp gp' : ps_inv act d e s → ps_proc s !! p = Some pr → ps_pid s !! g = Some gp →
  same_view m (<[p := set_pgidp o pr]> (ps_proc s)) → (∀ g', o = Some g' → g' = g) → same_key gp gp' → 1 ≤ pid_ref gp' →
  (∀ g' l, ps_pid s !! g' ≠ None → g' ≠ g → is_group s g' l → is_group (regroup s m g gp') g' l) →
  (∃ l, is_group (regroup s m g gp') g l) →
  ps_inv act (plus_at d g (pid_ref gp' - o2z (pid_pglink gp') - (pid_ref gp - o2z (pid_pglink gp)))) e (regroup s m g gp').
Proof.
  intros [I1 I2 I3 I4 I5 I6 I7 I8 I9 I10 I11] Ep Eg Hv Ho Hk Hr Hoth Hown.
  assert (∀ x r, m !! x = Some r → ∃ r0, ps_proc s !! x = Some r0 ∧ p_parent r0 = p_parent r ∧ p_sessp r0 = p_sessp r ∧
    (p_pgidp r = p_pgidp r0 ∨ p_pgidp r = o)) as Hm.
  { intros x r Er. destruct (view_lookup _ _ _ _ Hv Er) as (r' & Er' & Ev). unfold pview in Ev.
    rewrite lookup_insert_Some in Er'. destruct Er' as [(<- & <-)|[_ Er']].
    - exists pr. simpl in Ev. split_and!; [done|congruence|congruence|right; congruence].
    - exists r'. split_and!; [done|congruence|congruence|left; congruence]. }
  assert (∀ x, is_Some (ps_proc s !! x) → is_Some (m !! x)) as Hm'.
  { intros x Hx. eapply view_some; [by symmetry|auto with kern]. }
  split; try done.
  - eapply tab_ok_same; [|exact I1]. etrans; [by apply (tab_same_pid s g gp gp')|]. split; [done..|].
    intros x. simpl. by case_match.
  - intros g' q. simpl. destruct (decide (g' = g)) as [->|Hne]; [done|]. rewrite lookup_insert_ne by done. intros Eg'.
    destruct (I2 _ _ Eg') as [l Hl]. exists l. apply Hoth; [congruence|done|done].
  - intros x r g' Er Eg'. simpl. destruct (Hm _ _ Er) as (r0 & Er0 & _ & _ & [Eo|Eo]).
    + apply is_Some_insert. apply (I3 x r0); [done|congruence].
    + rewrite (Ho g') by congruence. by rewrite lookup_insert_eq.
  - intros x r q Er Eq. destruct (Hm _ _ Er) as (r0 & Er0 & Ep0 & _). apply Hm'. apply (I4 x r0); [done|congruence].
  - intros x r y Er Ey. destruct (Hm _ _ Er) as (r0 & Er0 & _ & Es & _). apply (I5 x r0); [done|congruence].
  - intros x se Es. destruct (I6 _ _ Es) as (y & Ey & Hy). exists y. simpl. auto with kern.
  - intros x pd. simpl. unfold plus_at. destruct (decide (x = g)) as [->|].
    + rewrite lookup_insert_eq. intros [= <-]. destruct (I7 _ _ Eg) as [_ E7]. split; [done|lia].
    + rewrite lookup_insert_ne by done. rewrite Z.add_0_r. apply I7.
  - intros x se Es. simpl. destruct (I8 _ _ Es) as [? E8]. split; [done|].
    rewrite (view_sess_count _ _ x Hv), (sess_count_update _ _ pr) by done. simpl. lia.
  - destruct I9 as (r & Er & Es). destruct (Hm' proc_sched ltac:(by exists r)) as [r' Er']. exists r'. split; [done|].
    destruct (Hm _ _ Er') as (r0 & Er0 & _ & Es' & _). congruence.
  - intros x. simpl. rewrite lookup_insert_None. intros [E1 E2]. unfold plus_at. rewrite decide_False by done.
    rewrite I11 by done. lia.
Qed.

Lemma pgjoin_ok act d e s p pr g gp : ps_inv act d e s → ps_proc s !! p = Some pr → p_pgidp pr = None → ps_pid s !! g = Some gp →
  ∃ s', pgjoin s p (Some g) = Ok s' ∧ ps_inv act d e s' ∧ regrouped s s' (<[p := set_pgidp (Some g) pr]> (ps_proc s)).
Proof.
  intros Hi Ep Eg Egp. destruct (pi_group _ _ _ _ Hi _ _ Egp) as [l Hl].
  rewrite (pgjoin_eq s p pr g gp l (pi_parents _ _ _ _ Hi) Ep Eg Hl Egp). eexists. split; [done|].
  split; [|split; try done; apply push_view].
  pose proof Hl as (gp1 & Egp1 & Hpl & _). assert (gp1 = gp) as -> by congruence.
  eapply ps_inv_ext; [| |eapply (inv_regroup _ _ _ s p pr (Some g) _ g gp); try done].
  - intros x. unfold plus_at. case_decide; [|lia]. simpl. pose proof (pg_list_nil _ _ _ _ Hpl) as Hnil.
    case_bool_decide as Hb; [apply Hnil in Hb as ->; simpl; lia|].
    destruct (pid_pglink gp); [simpl; lia|]. destruct Hb. by apply Hnil.
  - done.
  - apply push_view.
  - by intros ? [= ->].
  - simpl. destruct (pi_pref _ _ _ _ Hi _ _ Egp). case_bool_decide; lia.
  - intros g' l' _ Hne Hg'. by eapply push_other_group.
  - exists (p :: l). by eapply push_is_group.
Qed.

Lemma pgexit_ok act d e s p pr g : ps_inv act d e s → (∀ x, 0 ≤ d x) → ps_proc s !! p = Some pr → p_pgidp pr = Some g →
  ∃ s', pgexit s p = Ok s' ∧ ps_inv act d e s' ∧ regrouped s s' (<[p := set_pgidp None pr]> (ps_proc s)).
Proof.
  intros Hi Hd Ep Eg. destruct (pi_pgidp _ _ _ _ Hi _ _ _ Ep Eg) as [gp Egp].
  destruct (pi_group _ _ _ _ Hi _ _ Egp) as [l Hl]. pose proof Hl as (gp1 & Egp1 & Hpl & Hn & Hm).
  assert (gp1 = gp) as -> by congruence. assert (p ∈ l) as Hin by (apply Hm; by exists pr).
  apply list_elem_of_split in Hin as (l1 & l2 & ->).
  rewrite (pgexit_eq s p pr g gp l1 l2 (pi_parents _ _ _ _ Hi) Ep Eg Hl Egp).
  set (m := pull_links (ps_proc s) p pr). set (hd := match l1 with [] => p_pglink pr | _ => pid_pglink gp end).
  assert (∀ o' : bool, ps_inv act (plus_at d g (1 - o2z hd)) e (regroup s m g (set_orphaned o' (set_pid_pglink hd gp)))) as Hr.
  { intros o'. destruct (pi_pref _ _ _ _ Hi _ _ Egp) as [H1 _].
    eapply ps_inv_ext; [| |eapply (inv_regroup _ _ _ s p pr None _ g gp); try done].
    - intros x. unfold plus_at. case_decide; [|lia]. simpl.
      assert (o2z (pid_pglink gp) = 1) as ->; [|lia]. destruct (decide (pid_pglink gp = None)) as [Egl|]; [|by destruct (pid_pglink gp)].
      apply (pg_list_nil _ _ _ _ Hpl) in Egl as E. by destruct l1.
    - done.
    - apply pull_view.
    - intros g' l' _ Hne Hg'. by eapply pull_other_group.
    - exists (l1 ++ l2). by eapply pull_is_group. }
  destruct hd as [q|] eqn:Eh.
  - eexists. split; [done|]. split; [|split; try done; apply pull_view].
    eapply ps_inv_ext; [| |apply Hr]; [|done]. intros x. unfold plus_at. simpl. case_decide; lia.
  - specialize (Hr (pid_pgorphaned gp)).
    assert (set_orphaned (pid_pgorphaned gp) (set_pid_pglink None gp) = set_pid_pglink None gp) as Eo by done.
    rewrite Eo in Hr. simpl in Hr.
    destruct (PID_RELE_ok act _ e _ g (set_pid_pglink None gp) Hr) as (s' & -> & Hi' & [] & Hks).
    { apply lookup_insert_eq. } { unfold plus_at. rewrite decide_True by done. specialize (Hd g). lia. }
    exists s'. split; [done|]. split.
    + eapply ps_inv_ext; [| |exact Hi']; [|done]. intros x. unfold plus_at. case_decide; lia.
    + split; [rewrite kp_proc0; apply pull_view|done..].
Qed.

(** ** Changes of a process that keep its group *)

(** The process but for fields that neither groups nor reference counts look at. *)
Definition same_links (p q : proc) : Prop :=
  p_pgidp p = p_pgidp q ∧ p_pglink p = p_pglink q ∧ p_ppglink p = p_ppglink q.

Lemma is_group_procs s m g l : (∀ x, x ∈ l → ∃ p q, ps_proc s !! x = Some p ∧ m !! x = Some q ∧ same_links p q) →
  (∀ x q, m !! x = Some q → p_pgidp q = Some g → in_group (ps_proc s) g x) →
  is_group s g l → is_group (set_procs m s) g l.
Proof.
  intros Hl Hm (gp & Eg & Hp & Hn & Hi). exists gp. split; [done|]. split; [|split; [done|]].
  - eapply pg_list_ext; [|exact Hp]. intros x Hx. destruct (Hl x Hx) as (p & q & Ep & Eq & E). unfold links.
    simpl. rewrite Ep, Eq. simpl. destruct E as (_ & -> & ->). done.
  - intros x. rewrite Hi. split; [|intros (q & Eq & Eg'); by eapply Hm].
    intros Hx. destruct (Hl x ltac:(by apply Hi)) as (p & q & Ep & Eq & E). destruct Hx as (p' & Ep' & Eg').
    exists q. split; [done|]. destruct E as (<- & _). congruence.
Qed.

Lemma tab_ok_procs act s m : tab_ok act s → tab_ok act (set_procs m s).
Proof. intros H. eapply tab_ok_same; [|exact H]. split; [done..|]. intros x. simpl. by case_match. Qed.

Lemma inv_upd act d e s p pr pr' : ps_inv act d e s → ps_proc s !! p = Some pr → same_links pr pr' →
  (∀ q, p_parent pr' = Some q → is_Some (ps_proc s !! q)) →
  (∀ x, p_sessp pr' = Some x → is_Some (ps_sess s !! x)) →
  (p = proc_sched → p_sessp pr' = p_sessp pr) →
  ps_inv act d (λ x, e x + b2z (bool_decide (p_sessp pr = Some x)) - b2z (bool_decide (p_sessp pr' = Some x)))
    (set_procs (<[p := pr']> (ps_proc s)) s).
Proof.
  intros [I1 I2 I3 I4 I5 I6 I7 I8 I9 I10 I11] Ep Hl Hpar Hs Hb. pose proof Hl as (El & _). split; try done.
  - by apply tab_ok_procs.
  - intros g gp Eg. destruct (I2 _ _ Eg) as [l Hgl]. exists l. apply is_group_procs; [| |done].
    + intros x Hx. destruct Hgl as (_ & _ & _ & _ & Hi). apply Hi in Hx as (q & Eq & Eqg).
      destruct (decide (x = p)) as [->|]; [exists pr, pr'; by rewrite lookup_insert_eq|].
      exists q, q. rewrite lookup_insert_ne by done. done.
    + intros x q. rewrite lookup_insert_Some. intros [(<- & <-)|[_ E]] Eqg; [exists pr; split; [done|congruence]|by exists q].
  - intros x q g. simpl. rewrite lookup_insert_Some. intros [(<- & <-)|[_ E]] Eqg; [apply (I3 p pr); [done|congruence]|eauto].
  - intros x q y. simpl. rewrite lookup_insert_Some. intros [(<- & <-)|[_ E]] Ey; apply is_Some_insert; eauto.
  - intros x q y. simpl. rewrite lookup_insert_Some. intros [(<- & <-)|[_ E]] Ey; eauto.
  - intros x se Es. destruct (I8 _ _ Es) as [? E8]. split; [done|]. simpl. rewrite (sess_count_update _ _ pr) by done. lia.
  - destruct I9 as (r & Er & Es). simpl. destruct (decide (proc_sched = p)) as [<-|].
    + exists pr'. rewrite lookup_insert_eq, Hb by done. split; [done|congruence].
    + exists r. by rewrite lookup_insert_ne.
Qed.

(** The same for the routine. *)
Lemma inv_upd_proc act d e s p pr f : ps_inv act d e s → ps_proc s !! p = Some pr → same_links pr (f pr) →
  (∀ q, p_parent (f pr) = Some q → is_Some (ps_proc s !! q)) → p_sessp (f pr) = p_sessp pr →
  ∃ s', upd_proc (Some p) f s = Ok s' ∧ ps_inv act d e s' ∧ s' = set_procs (<[p := f pr]> (ps_proc s)) s.
Proof.
  intros Hi Ep Hl Hpar Hs. rewrite (upd_proc_ok _ _ _ _ Ep). eexists. split; [done|]. split; [|done].
  eapply ps_inv_ext; [done| |eapply inv_upd; try done].
  - intros x. simpl. rewrite Hs. lia.
  - rewrite Hs. intros x. by eapply pi_sessp.
Qed.

(** A process without group, session and parent is not seen. *)
Lemma inv_new_proc act d e s p : ps_inv act d e s → ps_proc s !! p = None → ps_inv act d e (set_procs (<[p := new_proc]> (ps_proc s)) s).
Proof.
  intros [I1 I2 I3 I4 I5 I6 I7 I8 I9 I10 I11] Ep.
  assert (∀ x q, ps_proc s !! x = Some q → <[p := new_proc]> (ps_proc s) !! x = Some q) as Hx.
  { intros x q E. rewrite lookup_insert_ne; [done|]. congruence. }
  split; try done.
  - by apply tab_ok_procs.
  - intros g gp Eg. destruct (I2 _ _ Eg) as [l Hgl]. exists l. apply is_group_procs; [| |done].
    + intros x Hin. destruct Hgl as (_ & _ & _ & _ & Hi). apply Hi in Hin as (q & Eq & _). exists q, q. by rewrite (Hx _ _ Eq).
    + intros x q. rewrite lookup_insert_Some. intros [(<- & <-)|[_ E]] Eqg; [done|by exists q].
  - intros x q g. simpl. rewrite lookup_insert_Some. intros [(<- & <-)|[_ E]]; [done|by eapply I3].
  - intros x q y. simpl. rewrite lookup_insert_Some. intros [(<- & <-)|[_ E]] Ey; [done|]. apply is_Some_insert. eauto.
  - intros x q y. simpl. rewrite lookup_insert_Some. intros [(<- & <-)|[_ E]]; [done|by eapply I5].
  - intros x se Es. destruct (I8 _ _ Es) as [? E8]. split; [done|]. simpl. unfold sess_count in *.
    rewrite msum_insert_new by done. rewrite bool_decide_false by done. simpl. lia.
  - destruct I9 as (r & Er & Es). exists r. simpl. by rewrite (Hx _ _ Er).
Qed.

Lemma inv_del_proc act d e s p pr : ps_inv act d e s → ps_proc s !! p = Some pr → p_pgidp pr = None → p ≠ proc_sched →
  (∀ c cr, ps_proc s !! c = Some cr → p_parent cr ≠ Some p) →
  ps_inv act d (λ x, e x + b2z (bool_decide (p_sessp pr = Some x))) (set_procs (delete p (ps_proc s)) s).
Proof.
  intros [I1 I2 I3 I4 I5 I6 I7 I8 I9 I10 I11] Ep Eg Hb Hc.
  assert (∀ x q, delete p (ps_proc s) !! x = Some q → ps_proc s !! x = Some q) as Hx by (intros x q; rewrite lookup_delete_Some; by intros []).
  split; try done.
  - by apply tab_ok_procs.
  - intros g gp Egp. destruct (I2 _ _ Egp) as [l Hgl]. exists l. apply is_group_procs; [| |done].
    + intros x Hin. destruct Hgl as (_ & _ & _ & _ & Hi). apply Hi in Hin as (q & Eq & Eqg). exists q, q.
      rewrite lookup_delete_ne by congruence. done.
    + intros x q ?%Hx Eqg. by exists q.
  - intros x q g ?%Hx. by eapply I3.
  - intros x q y ?%Hx Ey. simpl. rewrite lookup_delete_ne; [eauto|]. intros ->. by eapply Hc.
  - intros x q y ?%Hx. by eapply I5.
  - intros x se Es. destruct (I8 _ _ Es) as [? E8]. split; [done|]. simpl. unfold sess_count in *.
    rewrite (msum_delete _ _ _ _ Ep). lia.
  - destruct I9 as (r & Er & Es). exists r. simpl. by rewrite lookup_delete_ne.
Qed.

(** The id of an exiting process. *)
Lemma proc_entry_free_inv act d e s x p : ps_inv act d e s → act !! x = Some p →
  ∃ s' pd, proc_entry_free s (Some x) = Ok s' ∧ ps_inv (delete x act) (plus_at d x 1) e s' ∧ keeps_procs s s' ∧
    ps_sess s' = ps_sess s ∧ ps_pid s !! x = Some pd ∧ ps_pid s' = <[x := set_inactive true pd]> (ps_pid s).
Proof.
  intros [I1 I2 I3 I4 I5 I6 I7 I8 I9 I10 I11] Ea. destruct (tb_act _ _ I1 _ _ Ea) as (pd & Epd & _).
  destruct (proc_entry_free_ok act s x pd p I1 Epd Ea) as (s' & -> & Ht & Ep & Es). exists s', pd. split; [done|].
  assert (ps_proc s' = ps_proc s) as Epr by (by rewrite Es). assert (ps_sess s' = ps_sess s) as Ese by (by rewrite Es).
  split; [|rewrite Ep, Es; done]. split; rewrite ?Epr, ?Ese, ?Ep; try done.
  - intros g gp. intros Eg. assert (∃ gp0, ps_pid s !! g = Some gp0) as [gp0 Eg0].
    { rewrite lookup_insert_Some in Eg. destruct Eg as [(<- & _)|[_ Eg]]; eauto. }
    destruct (I2 _ _ Eg0) as [l Hl]. exists l. destruct (is_group_pid s x pd (set_inactive true pd) g l Epd eq_refl Hl) as (gp' & Eg' & Hg').
    exists gp'. rewrite Ep, Epr. done.
  - intros q pr g Eq Eg. eauto with kern.
  - intros k se Ek. destruct (I6 _ _ Ek) as (y & Ey & Hy). exists y. auto with kern.
  - intros y q. unfold plus_at. rewrite lookup_insert_Some. intros [(<- & <-)|[Hne Ey]].
    + destruct (I7 _ _ Epd) as [? E7]. rewrite decide_True, lookup_delete_eq by done. rewrite Ea in E7. simpl in *. split; [done|lia].
    + rewrite decide_False, lookup_delete_ne by done. rewrite Z.add_0_r. by apply I7.
  - by rewrite Es.
  - intros y. rewrite lookup_insert_None. intros [E1 E2]. unfold plus_at. rewrite decide_False by done. rewrite I11 by done. lia.
Qed.

(** A new process gets its id. *)
Lemma pid_assign_inv act d e s p pr pidp slot : ps_inv act d e s → ps_proc s !! p = Some pr → ps_pid s !! pidp = None →
  (∀ x, act !! x ≠ Some p) → procentfree s = Some slot → Z.of_nat (size (ps_pid s)) < MAXPID - minpid s →
  ∃ newpid s', pid_assign s p pidp = Ok (newpid, s') ∧ minpid s ≤ newpid < MAXPID ∧
    (∀ x q, ps_pid s !! x = Some q → pid_id q ≠ newpid) ∧
    ps_inv (<[pidp := p]> act) d e s' ∧ assigned slot newpid p pidp pr s s'.
Proof.
  intros [I1 I2 I3 I4 I5 I6 I7 I8 I9 I10 I11] Epr Enew Hact Ef Hsz.
  destruct (pid_assign_ok act s p pidp pr slot I1 Enew Epr Hact Ef (proj1 I10) (proj2 I10) Hsz)
    as (newpid & s' & -> & Hr & Hu & Ht & Ha). exists newpid, s'. split; [done|]. split; [done|]. split; [done|]. split; [|done].
  destruct Ha as (Ep & Em & Es & _ & _ & Emin & Empid).
  assert (∀ x, is_Some (ps_pid s !! x) → is_Some (ps_pid s' !! x)) as Hpid by (intros x Hx; rewrite Ep; auto with kern).
  assert (∀ x q, ps_proc s' !! x = Some q → ∃ q0, ps_proc s !! x = Some q0 ∧ same_links q0 q ∧ p_parent q0 = p_parent q ∧ p_sessp q0 = p_sessp q) as Hm.
  { intros x q. rewrite Em, lookup_insert_Some. intros [(<- & <-)|[_ E]]; [by exists pr|by exists q]. }
  assert (∀ x q, ps_proc s !! x = Some q → ∃ q', ps_proc s' !! x = Some q' ∧ same_links q q' ∧ p_sessp q' = p_sessp q) as Hm'.
  { intros x q Eq. rewrite Em. destruct (decide (x = p)) as [->|].
    - eexists. rewrite lookup_insert_eq. split; [done|]. assert (q = pr) as -> by congruence. done.
    - exists q. by rewrite lookup_insert_ne. }
  split; rewrite ?Es, ?Emin, ?Empid; try done.
  - intros g gp. rewrite Ep, lookup_insert_Some. intros [(<- & <-)|[Hne Eg]].
    + exists []. eexists. rewrite Ep, lookup_insert_eq. split; [done|]. split; [done|]. split; [constructor|].
      intros x. rewrite elem_of_nil. split; [done|]. intros (q & Eq & Eqg). destruct (Hm _ _ Eq) as (q0 & Eq0 & (Eg0 & _) & _).
      destruct (I3 _ _ pidp Eq0 ltac:(congruence)). congruence.
    + destruct (I2 _ _ Eg) as [l (gp' & Eg' & Hl & Hn & Hi)]. exists l, gp'. rewrite Ep, lookup_insert_ne by done.
      split; [done|]. split; [|split; [done|]].
      * eapply pg_list_ext; [|exact Hl]. intros x Hx. apply Hi in Hx as (q & Eq & _).
        destruct (Hm' _ _ Eq) as (q' & Eq' & (_ & E1 & E2) & _). unfold links. rewrite Eq, Eq'. simpl. by rewrite E1, E2.
      * intros x. rewrite Hi. split; intros (q & Eq & Eqg).
        -- destruct (Hm' _ _ Eq) as (q' & Eq' & (E1 & _) & _). exists q'. split; [done|congruence].
        -- destruct (Hm _ _ Eq) as (q' & Eq' & (E1 & _) & _). exists q'. split; [done|congruence].
  - intros x q g Eq Eg. destruct (Hm _ _ Eq) as (q0 & Eq0 & (E & _) & _). apply Hpid. apply (I3 x q0); [done|congruence].
  - intros x q y Eq Ey. destruct (Hm _ _ Eq) as (q0 & Eq0 & _ & E & _). destruct (I4 x q0 y) as [w Ew]; [done|congruence|].
    destruct (Hm' _ _ Ew) as (w' & -> & _). done.
  - intros x q y Eq Ey. destruct (Hm _ _ Eq) as (q0 & Eq0 & _ & _ & E). apply (I5 x q0); [done|congruence].
  - intros k se Ek. destruct (I6 _ _ Ek) as (y & Ey & Hy). exists y. auto.
  - intros x pd. rewrite Ep. destruct (decide (x = pidp)) as [->|].
    + rewrite !lookup_insert_eq. intros [= <-]. simpl. split; [done|]. rewrite I11 by done.
      unfold sid_count. rewrite msum_zero; [lia|]. intros k se Ek. rewrite bool_decide_false; [done|]. intros Eq.
      destruct (I6 _ _ Ek) as (y & Ey & [z Hy]). congruence.
    + rewrite !lookup_insert_ne by done. apply I7.
  - intros x se Ex. destruct (I8 _ _ Ex) as [? E8]. split; [done|]. rewrite Em, (sess_count_update _ _ pr) by done. simpl. lia.
  - destruct I9 as (r & Er & Ers). destruct (Hm' _ _ Er) as (r' & Er' & _ & E). exists r'. split; [done|congruence].
  - destruct I10. lia.
  - intros x. rewrite Ep, lookup_insert_None. intros [? ?]. by apply I11.
Qed.
