(* ===== verification/PgrpOps.v ===== *)
(** * The routines of the process tables keep the invariant

    [ps_ok refs s]: [ps_inv] between the routines, with [refs] the references of drivers,
    and what the processes promise: parents know their children, every process has an id
    and a session, and all but those that fork is making are in a group. *)

From S2P Require Import Prelude Pid PidProps Pgrp PgrpProps PgrpInv.

Definition act_ok (act : gmap Z Z) (m : gmap Z proc) : Prop :=
  ∀ x p, act !! x = Some p ↔ ∃ pr, m !! p = Some pr ∧ p_pidp pr = Some x.

Record procs_ok (m : gmap Z proc) : Prop := {
  po_kind p pr : m !! p = Some pr →
    is_Some (p_pidp pr) ∧ is_Some (p_sessp pr) ∧ (p_stat pr = SIDL ↔ p_pgidp pr = None) ∧ (p_stat pr = SIDL → p_child pr = []);
  po_child c cr q : m !! c = Some cr → p_parent cr = Some q → ∃ qr, m !! q = Some qr ∧ c ∈ p_child qr;
  po_parent q qr c : m !! q = Some qr → c ∈ p_child qr → ∃ cr, m !! c = Some cr ∧ p_parent cr = Some q;
  po_nodup q qr : m !! q = Some qr → NoDup (p_child qr)
}.

Record ps_ok (refs : Z → Z) (s : psys) : Prop := {
  pk_inv : ∃ act, ps_inv act refs (λ _, 0) s ∧ act_ok act (ps_proc s);
  pk_refs x : 0 ≤ refs x;
  pk_procs : procs_ok (ps_proc s);
  pk_active : NoDup (practive s) ∧ (∀ x, x ∈ practive s ↔ is_Some (ps_proc s !! x)) ∧ nproc s = Z.of_nat (length (practive s))
}.

(** ** Views *)

Ltac view H := unfold pview in H; injection H as ?Epid ?Epg ?Epar ?Ech ?Ese ?Est ?Eex.

Lemma act_ok_view act m m' : same_view m m' → act_ok act m → act_ok act m'.
Proof.
  intros Hv H x p. rewrite (H x p). split; intros (pr & E & Ep).
  - destruct (view_lookup _ _ _ _ Hv E) as (pr' & E' & Ev). view Ev. exists pr'. split; [done|congruence].
  - destruct (view_lookup m' m p pr ltac:(by symmetry) E) as (pr' & E' & Ev). view Ev. exists pr'. split; [done|congruence].
Qed.

Lemma procs_ok_view m m' : same_view m m' → procs_ok m → procs_ok m'.
Proof.
  intros Hv [P1 P2 P3 P4]. assert (same_view m' m) as Hr by (by symmetry). split.
  - intros p pr E. destruct (view_lookup _ _ _ _ Hr E) as (pr' & E' & Ev). view Ev.
    rewrite <- Epid, <- Epg, <- Ech, <- Ese, <- Est. by eapply P1.
  - intros c cr q E Eq. destruct (view_lookup _ _ _ _ Hr E) as (cr' & E' & Ev). view Ev.
    destruct (P2 _ _ q E' ltac:(congruence)) as (qr & Eqr & Hin). destruct (view_lookup _ _ _ _ Hv Eqr) as (qr' & E'' & Ev').
    view Ev'. exists qr'. split; [done|congruence].
  - intros q qr c E Hin. destruct (view_lookup _ _ _ _ Hr E) as (qr' & E' & Ev). view Ev.
    destruct (P3 _ _ c E' ltac:(congruence)) as (cr & Ecr & Ep). destruct (view_lookup _ _ _ _ Hv Ecr) as (cr' & E'' & Ev').
    view Ev'. exists cr'. split; [done|congruence].
  - intros q qr E. destruct (view_lookup _ _ _ _ Hr E) as (qr' & E' & Ev). view Ev. rewrite <- Ech. eauto.
Qed.

Lemma dom_view m m' x : same_view m m' → is_Some (m !! x) ↔ is_Some (m' !! x).
Proof. intros H. split; apply view_some; [done|by symmetry]. Qed.

(** A change of one process. *)
Lemma act_ok_insert act m p pr pr' : m !! p = Some pr → p_pidp pr' = p_pidp pr → act_ok act m → act_ok act (<[p := pr']> m).
Proof.
  intros E Ep H x q. rewrite (H x q). setoid_rewrite lookup_insert_Some. split.
  - intros (r & Er & Ex). destruct (decide (p = q)) as [->|]; [exists pr'; split; [by left|congruence]|exists r; split; [by right|done]].
  - intros (r & [(-> & ->)|(? & Er)] & Ex); [exists pr; split; [done|congruence]|by exists r].
Qed.

(** A change that leaves parents and children. *)
Lemma procs_ok_insert m p pr pr' : m !! p = Some pr → p_parent pr' = p_parent pr → p_child pr' = p_child pr →
  is_Some (p_pidp pr') → is_Some (p_sessp pr') → (p_stat pr' = SIDL ↔ p_pgidp pr' = None) → (p_stat pr' = SIDL → p_child pr' = []) →
  procs_ok m → procs_ok (<[p := pr']> m).
Proof.
  intros E E1 E2 H1 H2 H3 H4 [P1 P2 P3 P4]. split.
  - intros q qr. rewrite lookup_insert_Some. intros [(<- & <-)|[_ Eq]]; [done|by eapply P1].
  - intros c cr q. rewrite lookup_insert_Some. intros Hc Eq.
    assert (∃ cr0, m !! c = Some cr0 ∧ p_parent cr0 = Some q) as (cr0 & Ec & Ecq).
    { destruct Hc as [(<- & <-)|[_ Hc]]; [exists pr; split; [done|congruence]|by exists cr]. }
    destruct (P2 _ _ _ Ec Ecq) as (qr & Eqr & Hin). destruct (decide (q = p)) as [->|].
    + exists pr'. rewrite lookup_insert_eq, E2. split; [done|]. by simplify_eq.
    + exists qr. by rewrite lookup_insert_ne.
  - intros q qr c. rewrite lookup_insert_Some. intros Hq Hin.
    assert (∃ qr0, m !! q = Some qr0 ∧ c ∈ p_child qr0) as (qr0 & Eq & Hin0).
    { destruct Hq as [(<- & <-)|[_ Hq]]; [exists pr; split; [done|congruence]|by exists qr]. }
    destruct (P3 _ _ _ Eq Hin0) as (cr & Ecr & Ep). destruct (decide (c = p)) as [->|].
    + exists pr'. rewrite lookup_insert_eq, E1. split; [done|]. by simplify_eq.
    + exists cr. by rewrite lookup_insert_ne.
  - intros q qr. rewrite lookup_insert_Some. intros [(<- & <-)|[_ Eq]]; [rewrite E2|]; by eapply P4.
Qed.

(** ** Routines that do not look at the processes *)

Lemma pid_rele_procs m s x : pid_rele (set_procs m s) x = (s' ← pid_rele s x; Ok (set_procs m s')).
Proof.
  unfold pid_rele. change (ps_pid (set_procs m s)) with (ps_pid s). destruct (ps_pid s !! x) as [p|]; [|done].
  cbn [deref mbind res_bind]. change (HASHPID (set_procs m s)) with (HASHPID s). change (pidhash (set_procs m s)) with (pidhash s).
  destruct (pidhash s !! _); [|done]. cbn [deref mbind res_bind]. by case_bool_decide.
Qed.

Lemma PID_RELE_procs m s o : PID_RELE (set_procs m s) o = (s' ← PID_RELE s o; Ok (set_procs m s')).
Proof.
  unfold PID_RELE. destruct o as [x|]; [|done]. cbn [deref mbind res_bind]. change (ps_pid (set_procs m s)) with (ps_pid s).
  destruct (ps_pid s !! x) as [p|]; [|done]. cbn [deref mbind res_bind]. destruct (1 <? pid_ref p); [done|].
  apply pid_rele_procs.
Qed.

Lemma SESS_RELE_procs m s o : SESS_RELE (set_procs m s) o = (s' ← SESS_RELE s o; Ok (set_procs m s')).
Proof.
  unfold SESS_RELE. destruct o as [x|]; [|done]. cbn [deref mbind res_bind]. change (ps_sess (set_procs m s)) with (ps_sess s).
  destruct (ps_sess s !! x) as [se|]; [|done]. cbn [deref mbind res_bind]. destruct (0 <? s_ref se - 1); [done|].
  unfold sess_rele. destruct (x =? session0); [done|].
  change (ps_sess (set_sesss ?a (set_procs m s))) with a. change (ps_sess (set_sesss ?a s)) with a.
  rewrite lookup_insert_eq. cbn [deref mbind res_bind s_sidp].
  change (set_sesss ?a (set_procs m s)) with (set_procs m (set_sesss a s)). rewrite PID_RELE_procs.
  by destruct (PID_RELE _ _).
Qed.

Lemma proc_entry_free_procs m s o : proc_entry_free (set_procs m s) o = (s' ← proc_entry_free s o; Ok (set_procs m s')).
Proof.
  unfold proc_entry_free, upd_pid, get_pid. destruct o as [x|]; [|done]. cbn [deref mbind res_bind].
  change (ps_pid (set_procs m s)) with (ps_pid s). destruct (ps_pid s !! x) as [p|]; [|done]. cbn [deref mbind res_bind].
  change (ps_pid (set_pids ?a (set_procs m s))) with a. change (ps_pid (set_pids ?a s)) with a. rewrite lookup_insert_eq.
  cbn [deref mbind res_bind]. change (procdir (set_pids ?a (set_procs m s))) with (procdir s). change (procdir (set_pids ?a s)) with (procdir s).
  by destruct (procdir s !! _).
Qed.

(** ** The end of a process *)

Lemma inv_active act d e s l n : ps_inv act d e s → ps_inv act d e (set_active l n s).
Proof.
  intros [I1 I2 I3 I4 I5 I6 I7 I8 I9 I10 I11]. split; try done.
  eapply tab_ok_same; [|exact I1]. split; [done..|]. intros x. simpl. by case_match.
Qed.

Lemma bind_procs (f : psys → res psys) m s s' : (∀ s, f (set_procs m s) = (s' ← f s; Ok (set_procs m s'))) →
  f (set_procs m s) = Ok s' → ∃ s1, f s = Ok s1 ∧ s' = set_procs m s1.
Proof. intros Hf E. rewrite Hf in E. destruct (f s) as [s1| |]; [|done..]. injection E as <-. by exists s1. Qed.

Lemma kept_procs (f : psys → res psys) s s' : (∀ m s, f (set_procs m s) = (s' ← f s; Ok (set_procs m s'))) →
  f s = Ok s' → ps_proc s' = ps_proc s.
Proof.
  intros Hf E. assert (set_procs (ps_proc s) s = s) as Es by (by destruct s). rewrite <- Es in E.
  rewrite Hf in E. destruct (f s) as [s1| |]; [|done..]. injection E as <-. done.
Qed.

(** The first step of [pid_exit], whether or not the process is in a group. *)
Lemma exit_group act d s p pr : ps_inv act d (λ _, 0) s → (∀ x, 0 ≤ d x) → ps_proc s !! p = Some pr →
  ∃ s1 pr1, (match p_pgidp pr with None => Ok s | Some _ => pgexit s p end) = Ok s1 ∧ ps_inv act d (λ _, 0) s1 ∧
    ps_proc s1 !! p = Some pr1 ∧ p_pgidp pr1 = None ∧ p_sessp pr1 = p_sessp pr ∧
    same_view (delete p (ps_proc s1)) (delete p (ps_proc s)) ∧ practive s1 = practive s ∧ nproc s1 = nproc s ∧
    (∀ c cr, ps_proc s1 !! c = Some cr → ∃ cr0, ps_proc s !! c = Some cr0 ∧ p_parent cr0 = p_parent cr).
Proof.
  intros Hi Hd Ep. destruct (p_pgidp pr) as [g|] eqn:Eg; [|exists s, pr; split_and!; try done; intros c cr Ec; by exists cr].
  destruct (pgexit_ok act d _ s p pr g Hi Hd Ep Eg) as (s1 & E1 & Hi1 & [Hv _ Ha Hn _ _]).
  destruct (view_lookup _ _ p (set_pgidp None pr) (symmetry Hv) (lookup_insert_eq _ _ _)) as (pr1 & Epr1 & Ev).
  view Ev. exists s1, pr1. split_and!; try done.
  - intros x. specialize (Hv x). destruct (decide (x = p)) as [->|]; [by rewrite !lookup_delete_eq|].
    rewrite !lookup_delete_ne by done. by rewrite lookup_insert_ne in Hv.
  - intros c cr Ec. destruct (view_lookup _ _ _ _ Hv Ec) as (cr' & Ec' & Ev'). view Ev'.
    rewrite lookup_insert_Some in Ec'. destruct Ec' as [(<- & <-)|[_ Ec']]; [exists pr|exists cr']; by split.
Qed.

Lemma pid_exit_ok act d s p pr x y : ps_inv act d (λ _, 0) s → (∀ z, 0 ≤ d z) → ps_proc s !! p = Some pr →
  p_pidp pr = Some x → act !! x = Some p → p_sessp pr = Some y → p ≠ proc_sched →
  (∀ c cr, ps_proc s !! c = Some cr → p_parent cr ≠ Some p) →
  ∃ s', pid_exit s p = Ok s' ∧ ps_inv (delete x act) d (λ _, 0) s' ∧ same_view (ps_proc s') (delete p (ps_proc s)) ∧
    practive s' = filter (λ z, z ≠ p) (practive s) ∧ nproc s' = nproc s - 1.
Proof.
  intros Hi Hd Ep Epid Ea Esess Hb Hc. unfold pid_exit. rewrite Ep. cbn [deref mbind res_bind].
  destruct (exit_group act d s p pr Hi Hd Ep) as (s1 & pr1 & -> & Hi1 & Ep1 & Eg1 & Es1 & Hv1 & Hact1 & Hn1 & Hpar).
  cbn [mbind res_bind]. rewrite Esess in *. set (m := delete p (ps_proc s1)) in *.
  assert (ps_inv act d (λ x, 0 + b2z (bool_decide (p_sessp pr1 = Some x))) (set_procs m s1)) as Hi2.
  { apply (inv_del_proc _ _ _ s1 p pr1); try done. intros c cr Ec. destruct (Hpar _ _ Ec) as (cr0 & Ec0 & <-). by eapply Hc. }
  destruct (pi_sessp _ _ _ _ Hi1 p pr1 y Ep1 Es1) as [se Ese].
  destruct (SESS_RELE_ok act d _ (set_procs m s1) y se Hi2 Hd Ese) as (s2' & E2 & Hi3 & [Kp2 Ka2 Kn2 _ _] & _).
  { rewrite Es1, bool_decide_true by done. simpl. lia. }
  destruct (bind_procs (λ s, SESS_RELE s (Some y)) m s1 s2' (λ s, SESS_RELE_procs m s _) E2) as (s2 & E2' & ->).
  rewrite E2'.
  cbn [mbind res_bind].
  destruct (proc_entry_free_inv act d _ (set_procs m s2) x p Hi3 Ea) as (s3' & pd & E3 & Hi4 & [Kp3 Ka3 Kn3 _ _] & _ & Epd & Ep3).
  destruct (bind_procs (λ s, proc_entry_free s (Some x)) m s2 s3' (λ s, proc_entry_free_procs m s _) E3) as (s3 & E3' & ->).
  rewrite Epid, E3'. cbn [mbind res_bind]. set (s4 := set_active _ _ s3).
  apply (inv_active _ _ _ _ (filter (λ z, z ≠ p) (practive s3)) (nproc s3)) in Hi4.
  change (set_active _ _ (set_procs m s3)) with (set_procs m s4) in Hi4.
  destruct (PID_RELE_ok _ _ _ (set_procs m s4) x (set_inactive true pd) Hi4) as (s5' & E5 & Hi5 & [Kp5 Ka5 Kn5 _ _] & _).
  { change (ps_pid (set_procs m s4)) with (ps_pid (set_procs m s3)). rewrite Ep3. apply lookup_insert_eq. }
  { unfold plus_at. rewrite decide_True by done. specialize (Hd x). lia. }
  destruct (bind_procs (λ s, PID_RELE s (Some x)) m s4 s5' (λ s, PID_RELE_procs m s _) E5) as (s5 & E5' & ->).
  rewrite E5'.
  cbn [mbind res_bind]. eexists. split; [done|].
  apply (kept_procs (λ s, SESS_RELE s (Some y))) in E2'; [|intros; apply SESS_RELE_procs].
  apply (kept_procs (λ s, proc_entry_free s (Some x))) in E3'; [|intros; apply proc_entry_free_procs].
  apply (kept_procs (λ s, PID_RELE s (Some x))) in E5'; [|intros; apply PID_RELE_procs].
  assert (ps_proc s5 = ps_proc s1) as Eps by (rewrite E5'; change (ps_proc s4) with (ps_proc s3); congruence).
  simpl in *. split; [|split; [|split]].
  - rewrite Eps. eapply ps_inv_ext; [| |apply (inv_active _ _ _ _ (practive s5) (nproc s5 - 1) Hi5)].
    + intros z. unfold plus_at. case_decide; lia.
    + intros z. unfold plus_at. rewrite Es1. case_decide as Ez; [rewrite Ez, bool_decide_true by done; simpl; lia|].
      rewrite bool_decide_false by congruence. simpl. lia.
  - by rewrite Eps.
  - rewrite Ka5. simpl. by rewrite Ka3, Ka2, Hact1.
  - rewrite Kn5. simpl. by rewrite Kn3, Kn2, Hn1.
Qed.

(** ** Fork *)

Lemma procs_ok_fork m pp ppr cp c : procs_ok m → m !! pp = Some ppr → m !! cp = None → p_stat ppr ≠ SIDL →
  is_Some (p_pidp c) → is_Some (p_sessp c) → p_stat c = SIDL → p_pgidp c = None → p_child c = [] → p_parent c = Some pp →
  procs_ok (<[pp := set_child (cp :: p_child ppr) ppr]> (<[cp := c]> m)).
Proof.
  intros [P1 P2 P3 P4] Epp Ecp Hst H1 H2 H3 H4 H5 H6. assert (pp ≠ cp) as Hne by congruence.
  assert (∀ q qr, m !! q = Some qr → cp ∉ p_child qr) as Hno.
  { intros q qr Eq Hin. destruct (P3 _ _ _ Eq Hin) as (? & ? & _). congruence. }
  split.
  - intros q qr. rewrite !lookup_insert_Some. intros [(<- & <-)|[_ [(<- & <-)|[_ Eq]]]].
    + destruct (P1 _ _ Epp) as (? & ? & ? & ?). simpl. by split_and!.
    + by rewrite H3, H4, H5.
    + by eapply P1.
  - intros x cr q. rewrite !lookup_insert_Some. intros Hx Eq.
    assert ((x = cp ∧ q = pp) ∨ ∃ cr0, m !! x = Some cr0 ∧ p_parent cr0 = Some q) as [[-> ->]|(cr0 & Ex & Ep)].
    { destruct Hx as [(<- & <-)|[_ [(<- & <-)|[_ Ex]]]]; [right; by exists ppr|left; split; congruence|right; by exists cr]. }
    { eexists. rewrite lookup_insert_eq. split; [done|left]. }
    destruct (P2 _ _ _ Ex Ep) as (qr & Eqr & Hin). destruct (decide (q = pp)) as [->|].
    + eexists. rewrite lookup_insert_eq. split; [done|]. simplify_eq. by right.
    + exists qr. rewrite !lookup_insert_ne by congruence. done.
  - intros q qr x. rewrite !lookup_insert_Some. intros [(<- & <-)|[_ [(<- & <-)|[_ Eq]]]] Hin.
    + apply elem_of_cons in Hin as [->|Hin]; [exists c; by rewrite lookup_insert_ne, lookup_insert_eq|].
      destruct (P3 _ _ _ Epp Hin) as (xr & Ex & Ep). destruct (decide (x = pp)) as [->|].
      * eexists. rewrite lookup_insert_eq. split; [done|]. by simplify_eq.
      * exists xr. rewrite !lookup_insert_ne by congruence. done.
    + rewrite H5 in Hin. by apply elem_of_nil in Hin.
    + destruct (P3 _ _ _ Eq Hin) as (xr & Ex & Ep). destruct (decide (x = pp)) as [->|].
      * eexists. rewrite lookup_insert_eq. split; [done|]. by simplify_eq.
      * exists xr. rewrite !lookup_insert_ne by congruence. done.
  - intros q qr. rewrite !lookup_insert_Some. intros [(<- & <-)|[_ [(<- & <-)|[_ Eq]]]].
    + simpl. apply list.NoDup_cons. split; [by eapply Hno|by eapply P4].
    + rewrite H5. constructor.
    + by eapply P4.
Qed.

Lemma act_ok_new act m cp c x : act_ok act m → m !! cp = None → p_pidp c = Some x → act !! x = None →
  act_ok (<[x := cp]> act) (<[cp := c]> m).
Proof.
  intros H Ecp Ex Ea y p. rewrite lookup_insert_Some. setoid_rewrite lookup_insert_Some. split.
  - intros [(<- & <-)|[Hne Ey]]; [exists c; split; [by left|done]|]. apply H in Ey as (pr & Ep & Ey). exists pr.
    split; [right|done]. split; [congruence|done].
  - intros (pr & [(-> & ->)|(Hne & Ep)] & Ey); [left; split; congruence|]. right.
    assert (act !! y = Some p) as Ey' by (apply H; by exists pr). split; [congruence|done].
Qed.

Section fork.
Context (refs : Z → Z) (s : psys) (pp cp pidp : Z) (ppr : proc).
Hypothesis Hok : ps_ok refs s.
Hypothesis Epp : ps_proc s !! pp = Some ppr.
Hypothesis Hst : p_stat ppr ≠ SIDL.
Hypothesis Ecp : ps_proc s !! cp = None.
Hypothesis Epid : ps_pid s !! pidp = None.
Hypothesis Hroom : Z.of_nat (size (ps_pid s)) < MAXPID - minpid s.

Lemma getproc_full over : procentfree s = None → getproc s pp cp pidp over = Ok (-1, s).
Proof.
  intros Ef. unfold getproc. rewrite pid_assign_none by done. cbn [mbind res_bind]. simpl.
  unfold set_procs at 1. simpl. rewrite delete_insert_id by done. by destruct s.
Qed.

(** The table with the new process and its id. *)
Lemma getproc_assign slot : procentfree s = Some slot → ∃ act newpid s1,
  pid_assign (set_procs (<[cp := new_proc]> (ps_proc s)) s) cp pidp = Ok (newpid, s1) ∧ 0 ≤ newpid ∧
  ps_inv (<[pidp := cp]> act) refs (λ _, 0) s1 ∧ act_ok act (ps_proc s) ∧ act !! pidp = None ∧
  ps_proc s1 = <[cp := set_pidp (Some pidp) new_proc]> (ps_proc s) ∧ ps_sess s1 = ps_sess s ∧
  ps_pid s1 = <[pidp := MkPid false false slot newpid None 1]> (ps_pid s) ∧
  practive s1 = practive s ∧ nproc s1 = nproc s.
Proof.
  intros Ef. destruct Hok as [(act & Hi & Hact) Hrefs Hp Ha]. exists act.
  assert (∀ x, act !! x ≠ Some cp) as Hcp. { intros x (pr & E & _)%Hact. congruence. }
  assert (act !! pidp = None) as Eap.
  { destruct (act !! pidp) eqn:E; [|done]. destruct (tb_act _ _ (pi_tab _ _ _ _ Hi) _ _ E) as (? & ? & _). congruence. }
  destruct (pid_assign_inv act refs (λ _, 0) (set_procs (<[cp := new_proc]> (ps_proc s)) s) cp new_proc pidp slot)
    as (newpid & s1 & -> & Hr & _ & Hi1 & Has); try done; [by apply inv_new_proc|apply lookup_insert_eq|].
  exists newpid, s1. destruct Has as (E1 & E2 & E3 & E4 & E5 & _).
  assert (0 ≤ newpid) as H0 by (pose proof (pi_min _ _ _ _ Hi); simpl in *; lia).
  split; [done|]. split; [done|]. split; [done|]. split; [done|]. split; [done|].
  split; [rewrite E2; simpl; by rewrite insert_insert_eq|]. by rewrite E1, E3, E4, E5.
Qed.

Lemma getproc_over : ∃ s', getproc s pp cp pidp true = Ok (-1, s') ∧ ps_ok refs s' ∧ ps_proc s' = ps_proc s.
Proof.
  destruct (procentfree s) as [slot|] eqn:Ef; [|exists s; by rewrite getproc_full].
  destruct (getproc_assign slot Ef) as (act & newpid & s1 & E1 & Hn & Hi1 & Hact & Eap & Ep1 & Es1 & Epd1 & Ea1 & En1).
  unfold getproc. rewrite E1. cbn [mbind res_bind]. rewrite (proj2 (Z.eqb_neq newpid (-1))) by lia.
  pose proof (pk_refs _ _ Hok) as Hrefs.
  destruct (proc_entry_free_inv _ _ _ s1 pidp cp Hi1 (lookup_insert_eq _ _ _)) as (s2 & pd & -> & Hi2 & [Kp2 Ka2 Kn2 _ _] & Ks2 & Epd & Ep2).
  cbn [mbind res_bind]. rewrite delete_insert_id in Hi2 by done. rewrite Epd1, lookup_insert_eq in Epd. injection Epd as <-.
  destruct (inv_free_pid _ _ _ s2 pidp (set_inactive true (MkPid false false slot newpid None 1)) Hi2)
    as (s3 & -> & Hi3 & [Kp3 Ka3 Kn3 _ _] & Ks3); [rewrite Ep2; apply lookup_insert_eq| |done|].
  { unfold plus_at. rewrite decide_True by done. specialize (Hrefs pidp). lia. }
  cbn [mbind res_bind]. eexists. split; [done|].
  assert (ps_proc s3 = <[cp := set_pidp (Some pidp) new_proc]> (ps_proc s)) as Ep3 by congruence.
  assert (delete cp (ps_proc s3) = ps_proc s) as Ed by (rewrite Ep3; by apply delete_insert_id).
  split; [|exact Ed]. split; simpl; rewrite ?Ed.
  - exists act. split; [|done]. rewrite <- Ed.
    eapply ps_inv_ext; [| |eapply (inv_del_proc _ _ _ s3 cp); [exact Hi3|rewrite Ep3; apply lookup_insert_eq|done| |]].
    + intros z. unfold plus_at. case_decide; lia.
    + done.
    + intros ->. destruct (pk_inv _ _ Hok) as (a & Hi & _). destruct (pi_base _ _ _ _ Hi) as (? & ? & _). congruence.
    + intros c cr. rewrite Ep3, lookup_insert_Some. intros [(<- & <-)|[_ Ec]]; [done|]. intros Epar.
      destruct (po_child _ (pk_procs _ _ Hok) _ _ _ Ec Epar) as (? & ? & _). congruence.
  - done.
  - by destruct Hok.
  - rewrite Ka3, Ka2, Ea1, Kn3, Kn2, En1. apply (pk_active _ _ Hok).
Qed.

Lemma getproc_ok : (procentfree s = None ∧ getproc s pp cp pidp false = Ok (-1, s)) ∨
  ∃ s' c, getproc s pp cp pidp false = Ok (0, s') ∧ ps_ok refs s' ∧
    ps_proc s' = <[pp := set_child (cp :: p_child ppr) ppr]> (<[cp := c]> (ps_proc s)) ∧
    p_stat c = SIDL ∧ p_parent c = Some pp ∧ p_sessp c = p_sessp ppr ∧ p_pidp c = Some pidp ∧ p_pgidp c = None.
Proof.
  destruct (procentfree s) as [slot|] eqn:Ef; [right|left; split; [done|by apply getproc_full]].
  destruct (getproc_assign slot Ef) as (act & newpid & s1 & E1 & Hn & Hi1 & Hact & Eap & Ep1 & Es1 & Epd1 & Ea1 & En1).
  assert (pp ≠ cp) as Hne by congruence. pose proof (pk_procs _ _ Hok) as Hp. destruct (po_kind _ Hp _ _ Epp) as (_ & [y Ey] & _).
  unfold getproc. rewrite E1. cbn [mbind res_bind]. rewrite (proj2 (Z.eqb_neq newpid (-1))) by lia.
  apply (inv_active _ _ _ _ (cp :: practive s1) (nproc s1 + 1)) in Hi1. set (s2 := set_active _ _ s1) in *.
  assert (ps_proc s2 = ps_proc s1) as Ep2 by done.
  rewrite Ep2, Ep1, lookup_insert_ne, Epp by done. cbn [mbind res_bind deref].
  destruct (pk_inv _ _ Hok) as (act0 & Hi0 & _). destruct (pi_sessp _ _ _ _ Hi0 _ _ _ Epp Ey) as [se Ese].
  assert (ps_proc s2 !! cp = Some (set_pidp (Some pidp) new_proc)) as Ec2 by (rewrite Ep2, Ep1; apply lookup_insert_eq).
  assert (cp ≠ proc_sched) as Hb. { intros ->. destruct (pi_base _ _ _ _ Hi0) as (? & ? & _). congruence. }
  pose proof (inv_upd _ _ _ s2 cp _ (set_sessp (Some y) (set_pidp (Some pidp) new_proc)) Hi1 Ec2) as Hi3.
  rewrite (upd_proc_ok _ _ _ _ Ec2), Ey. cbn [mbind res_bind]. set (s3 := set_procs _ s2) in *.
  assert (ps_sess s3 !! y = Some se) as Ese3 by (change (ps_sess s3) with (ps_sess s1); by rewrite Es1).
  destruct (SESS_HOLD_ok _ _ _ s3 y se (Hi3 ltac:(done) ltac:(done) ltac:(by intros x [= <-]) ltac:(done)) Ese3)
    as (s4 & -> & Hi4 & [Kp4 Ka4 Kn4 _ _]).
  cbn [mbind res_bind]. clear Hi3.
  assert (ps_inv (<[pidp := cp]> act) refs (λ _, 0) s4) as Hi5.
  { eapply ps_inv_ext; [done| |exact Hi4]. intros x. unfold plus_at. simpl.
    case_decide as Ex; [rewrite Ex, bool_decide_true by done; simpl; lia|]. rewrite bool_decide_false by congruence. simpl. lia. }
  clear Hi4. set (c1 := set_sessp (Some y) (set_pidp (Some pidp) new_proc)) in *.
  assert (ps_proc s4 = <[cp := c1]> (ps_proc s)) as Ep4.
  { rewrite Kp4. change (ps_proc s3) with (<[cp := c1]> (ps_proc s1)). by rewrite Ep1, insert_insert_eq. }
  destruct (inv_upd_proc _ _ _ s4 cp c1 (set_parent (Some pp)) Hi5) as (s5 & -> & Hi6 & Es5); try done.
  { rewrite Ep4. apply lookup_insert_eq. }
  { intros q [= <-]. rewrite Ep4, lookup_insert_ne by done. by rewrite Epp. }
  cbn [mbind res_bind]. clear Hi5.
  assert (ps_proc s5 = <[cp := set_parent (Some pp) c1]> (ps_proc s)) as Ep5 by (rewrite Es5; simpl; by rewrite Ep4, insert_insert_eq).
  destruct (inv_upd_proc _ _ _ s5 pp ppr (λ p, set_child (cp :: p_child p) p) Hi6) as (s6 & -> & Hi7 & Es6); try done.
  { rewrite Ep5, lookup_insert_ne by done. done. }
  { intros q Eq. destruct (pi_parents _ _ _ _ Hi0 _ _ _ Epp Eq) as [w Ew]. rewrite Ep5. apply is_Some_insert. by rewrite Ew. }
  cbn [mbind res_bind]. exists s6, (set_parent (Some pp) c1). split; [done|].
  assert (ps_proc s6 = <[pp := set_child (cp :: p_child ppr) ppr]> (<[cp := set_parent (Some pp) c1]> (ps_proc s))) as Ep6.
  { rewrite Es6. simpl. by rewrite Ep5. }
  split; [|done]. split; rewrite ?Ep6; [|apply (pk_refs _ _ Hok)|by apply procs_ok_fork|].
  - exists (<[pidp := cp]> act). split; [done|]. eapply act_ok_insert; [by rewrite lookup_insert_ne|done|]. by apply act_ok_new.
  - destruct (pk_active _ _ Hok) as (A1 & A2 & A3).
    assert (practive s6 = cp :: practive s) as -> by (rewrite Es6; simpl; rewrite Es5; simpl; rewrite Ka4; simpl; congruence).
    assert (nproc s6 = nproc s + 1) as -> by (rewrite Es6; simpl; rewrite Es5; simpl; rewrite Kn4; simpl; congruence).
    split; [apply list.NoDup_cons; split; [|done]; rewrite A2, Ecp; by intros [? ?]|]. split; [|simpl length; lia].
    intros x. rewrite elem_of_cons, A2. destruct (decide (x = cp)) as [->|].
    + rewrite lookup_insert_ne, lookup_insert_eq by done. split; [done|by left].
    + destruct (decide (x = pp)) as [->|]; [rewrite lookup_insert_eq, Epp; split; [done|by right]|].
      rewrite !lookup_insert_ne by done. split; [intros [?|?]; done|by right].
Qed.
End fork.

(** A routine that changes one process, but for its group links, and no table. *)
Lemma ps_ok_change refs s s' act p pr pr' : ps_ok refs s → act_ok act (ps_proc s) → ps_inv act refs (λ _, 0) s' →
  ps_proc s !! p = Some pr → same_view (ps_proc s') (<[p := pr']> (ps_proc s)) →
  p_pidp pr' = p_pidp pr → p_parent pr' = p_parent pr → p_child pr' = p_child pr → is_Some (p_sessp pr') →
  (p_stat pr' = SIDL ↔ p_pgidp pr' = None) → (p_stat pr' = SIDL → p_child pr' = []) →
  practive s' = practive s → nproc s' = nproc s → ps_ok refs s'.
Proof.
  intros [_ Hr Hp Ha] Hact Hi Ep Hv E1 E2 E3 H1 H2 H3 Eact En. symmetry in Hv. split; [| done | |].
  - exists act. split; [done|]. eapply act_ok_view; [exact Hv|]. by eapply act_ok_insert.
  - eapply procs_ok_view; [exact Hv|]. destruct (po_kind _ Hp _ _ Ep) as (? & _). eapply procs_ok_insert; try done. by rewrite E1.
  - rewrite Eact, En. destruct Ha as (A1 & A2 & A3). split; [done|]. split; [|done]. intros x.
    rewrite A2, <- (dom_view _ _ x Hv). destruct (decide (x = p)) as [->|].
    + rewrite lookup_insert_eq, Ep. split; [by eexists|done].
    + by rewrite lookup_insert_ne.
Qed.

Lemma fork_join_ok refs s p pr cp c : ps_ok refs s → ps_proc s !! p = Some pr → p_stat pr ≠ SIDL →
  ps_proc s !! cp = Some c → p_stat c = SIDL →
  ∃ s' g, fork_join s p cp = Ok s' ∧ ps_ok refs s' ∧ p_pgidp pr = Some g ∧
    same_view (ps_proc s') (<[cp := set_stat SRUN (set_pgidp (Some g) c)]> (ps_proc s)).
Proof.
  intros Hok Ep Hst Ec Hcst. pose proof Hok as [(act & Hi & Hact) Hr Hp Ha].
  destruct (po_kind _ Hp _ _ Ep) as (_ & _ & Hpg & _). destruct (po_kind _ Hp _ _ Ec) as (Hcpid & Hcs & Hcg & Hcc).
  destruct (p_pgidp pr) as [g|] eqn:Eg; [|by destruct Hst; apply Hpg].
  destruct (pi_pgidp _ _ _ _ Hi _ _ _ Ep Eg) as [gp Egp].
  unfold fork_join. rewrite Ep. cbn [deref mbind res_bind]. rewrite Eg.
  destruct (pgjoin_ok act refs _ s cp c g gp Hi Ec (proj1 Hcg Hcst) Egp) as (s1 & -> & Hi1 & [Hv _ Ea En _ _]).
  cbn [mbind res_bind].
  destruct (view_lookup _ _ cp (set_pgidp (Some g) c) (symmetry Hv) (lookup_insert_eq _ _ _)) as (c1 & Ec1 & Ev). view Ev.
  destruct (inv_upd_proc _ _ _ s1 cp c1 (set_stat SRUN) Hi1 Ec1) as (s2 & -> & Hi2 & Es2); [done| |done|].
  { intros q Eq. by apply (pi_parents _ _ _ _ Hi1 cp c1). }
  assert (same_view (ps_proc s2) (<[cp := set_stat SRUN (set_pgidp (Some g) c)]> (ps_proc s))) as Hv2.
  { rewrite Es2. simpl. intros x. destruct (decide (x = cp)) as [->|].
    - rewrite !lookup_insert_eq. simpl. unfold pview. simpl. congruence.
    - rewrite !lookup_insert_ne by done. specialize (Hv x). by rewrite lookup_insert_ne in Hv. }
  exists s2, g. split; [done|]. split; [|done].
  eapply (ps_ok_change refs s s2 act cp c _ Hok Hact Hi2 Ec Hv2); try done; rewrite Es2; simpl; congruence.
Qed.

(** ** The end of a process *)

(** The tables without a process that nothing points at. *)
Lemma ps_ok_delete refs s s' act x p pr m : ps_ok refs s → act_ok act (ps_proc s) → ps_inv (delete x act) refs (λ _, 0) s' →
  ps_proc s !! p = Some pr → p_pidp pr = Some x → act !! x = Some p → procs_ok m → same_view (ps_proc s') m →
  (∀ q, is_Some (m !! q) ↔ q ≠ p ∧ is_Some (ps_proc s !! q)) →
  (∀ q qr, m !! q = Some qr → ∃ qr0, ps_proc s !! q = Some qr0 ∧ p_pidp qr = p_pidp qr0) →
  practive s' = filter (λ z, z ≠ p) (practive s) → nproc s' = nproc s - 1 → ps_ok refs s'.
Proof.
  intros [_ Hr Hp (A1 & A2 & A3)] Hact Hi Ep Ex Ea Hm Hv Hdom Hpid Eact En. symmetry in Hv. split; [|done| |].
  - exists (delete x act). split; [done|]. eapply act_ok_view; [exact Hv|]. intros y q. rewrite lookup_delete_Some. split.
    + intros [Hne Ey]. pose proof Ey as (qr & Eq & Eqx)%Hact.
      destruct (proj2 (Hdom q)) as [qr' Eq'].
      { split; [|by eexists]. intros ->. congruence. }
      exists qr'. split; [done|]. destruct (Hpid _ _ Eq') as (? & ? & ?). congruence.
    + intros (qr & Eq & Ey). destruct (Hpid _ _ Eq) as (qr0 & Eq0 & Epid). split.
      * intros <-. assert (act !! x = Some q) as Eaq by (apply Hact; exists qr0; split; [done|congruence]).
        destruct (proj1 (Hdom q) ltac:(by eexists)). congruence.
      * apply Hact. exists qr0. split; [done|congruence].
  - by eapply procs_ok_view.
  - rewrite Eact, En. split; [by apply list.NoDup_filter|]. split.
    + intros q. rewrite list_elem_of_filter, A2, <- (dom_view _ _ q Hv), Hdom. done.
    + rewrite A3. assert (p ∈ practive s) as Hin by (apply A2; by eexists). clear -A1 Hin.
      induction (practive s) as [|z l IH]; [by apply elem_of_nil in Hin|]. apply list.NoDup_cons in A1 as [Hz A1].
      rewrite filter_cons. apply elem_of_cons in Hin as [<-|Hin].
      * rewrite decide_False by (intros ?; done). rewrite filter_all; [simpl; lia|]. intros y Hy ->. done.
      * rewrite decide_True by (intros ->; done). simpl length. specialize (IH A1 Hin). lia.
Qed.

Lemma procs_ok_remove m p pr q qr : procs_ok m → m !! p = Some pr → p_parent pr = Some q → m !! q = Some qr → p_child pr = [] →
  procs_ok (delete p (<[q := set_child (filter (λ c, c ≠ p) (p_child qr)) qr]> m)).
Proof.
  intros [P1 P2 P3 P4] Ep Epar Eq Ech.
  assert (q ≠ p) as Hqp. { intros ->. destruct (P2 _ _ _ Ep Epar) as (r & Er & Hin). simplify_eq. rewrite Ech in Hin. by apply elem_of_nil in Hin. }
  split.
  - intros x xr. rewrite lookup_delete_Some, lookup_insert_Some. intros [_ [(<- & <-)|[_ Ex]]]; [|by eapply P1].
    destruct (P1 _ _ Eq) as (? & ? & ? & Hc). simpl. split_and!; try done. intros Hs. by rewrite (Hc Hs).
  - intros c cr x. rewrite lookup_delete_Some, lookup_insert_Some. intros [Hcp Hc] Ex.
    assert (∃ cr0, m !! c = Some cr0 ∧ p_parent cr0 = Some x) as (cr0 & Ec & Ecp).
    { destruct Hc as [(<- & <-)|[_ Hc]]; [by exists qr|by exists cr]. }
    destruct (P2 _ _ _ Ec Ecp) as (xr & Exr & Hin).
    assert (x ≠ p) as Hxp. { intros ->. simplify_eq. rewrite Ech in Hin. by apply elem_of_nil in Hin. }
    rewrite lookup_delete_ne by done. destruct (decide (x = q)) as [->|].
    + eexists. rewrite lookup_insert_eq. split; [done|]. simplify_eq. simpl. apply list_elem_of_filter. split; [congruence|done].
    + exists xr. by rewrite lookup_insert_ne.
  - intros x xr c. rewrite lookup_delete_Some, lookup_insert_Some. intros [Hxp Hx] Hin.
    assert (∃ xr0, m !! x = Some xr0 ∧ c ∈ p_child xr0 ∧ (c = p → x = q → False)) as (xr0 & Ex & Hin0 & Hne).
    { destruct Hx as [(<- & <-)|[Hne Hx]].
      - simpl in Hin. apply list_elem_of_filter in Hin as [? Hin]. exists qr. done.
      - exists xr. split_and!; [done|done|congruence]. }
    destruct (P3 _ _ _ Ex Hin0) as (cr & Ec & Ecp).
    assert (c ≠ p) as Hcp. { intros ->. simplify_eq. apply Hne; congruence. }
    rewrite lookup_delete_ne by done. destruct (decide (c = q)) as [->|].
    + eexists. rewrite lookup_insert_eq. split; [done|]. by simplify_eq.
    + exists cr. by rewrite lookup_insert_ne.
  - intros x xr. rewrite lookup_delete_Some, lookup_insert_Some. intros [_ [(<- & <-)|[_ Ex]]]; [|by eapply P4].
    apply list.NoDup_filter. by eapply P4.
Qed.

(** A childless process leaves its parent and goes. *)
Lemma reap_ok refs s p pr q qr : ps_ok refs s → ps_proc s !! p = Some pr → p_parent pr = Some q → ps_proc s !! q = Some qr →
  p_child pr = [] → p ≠ proc_sched →
  ∃ s', pid_exit (set_procs (<[q := set_child (filter (λ c, c ≠ p) (p_child qr)) qr]> (ps_proc s)) s) p = Ok s' ∧ ps_ok refs s' ∧
    same_view (ps_proc s') (delete p (<[q := set_child (filter (λ c, c ≠ p) (p_child qr)) qr]> (ps_proc s))).
Proof.
  intros Hok Ep Epar Eq Ech Hb. pose proof Hok as [(act & Hi & Hact) Hr Hp Ha].
  pose proof (procs_ok_remove _ _ _ _ _ Hp Ep Epar Eq Ech) as Hp'.
  assert (q ≠ p) as Hqp. { intros ->. destruct (po_child _ Hp _ _ _ Ep Epar) as (r & Er & Hin). simplify_eq. rewrite Ech in Hin. by apply elem_of_nil in Hin. }
  destruct (po_kind _ Hp _ _ Ep) as ([x Ex] & [y Ey] & _). assert (act !! x = Some p) as Ea by (apply Hact; by exists pr).
  set (m := <[q := _]> (ps_proc s)) in *.
  destruct (inv_upd_proc _ _ _ s q qr (set_child (filter (λ c, c ≠ p) (p_child qr))) Hi Eq) as (s1 & _ & Hi1 & Es1); [done| |done|].
  { intros z Ez. by apply (pi_parents _ _ _ _ Hi q qr). }
  change (s1 = set_procs m s) in Es1. subst s1.
  assert (m !! p = Some pr) as Emp by (unfold m; by rewrite lookup_insert_ne).
  destruct (pid_exit_ok act refs (set_procs m s) p pr x y Hi1 Hr Emp Ex Ea Ey Hb) as (s' & E' & Hi' & Hv' & Ea' & En').
  { intros c cr Ec Ecp. unfold m in Ec. simpl in Ec. rewrite lookup_insert_Some in Ec.
    assert (∃ cr0, ps_proc s !! c = Some cr0 ∧ p_parent cr0 = Some p) as (cr0 & Ec0 & Ecp0).
    { destruct Ec as [(<- & <-)|[_ Ec]]; [by exists qr|by exists cr]. }
    destruct (po_child _ Hp _ _ _ Ec0 Ecp0) as (r & Er & Hin). simplify_eq. rewrite Ech in Hin. by apply elem_of_nil in Hin. }
  exists s'. split; [done|]. split; [|done].
  eapply (ps_ok_delete refs s s' act x p pr (delete p m)); try done.
  - intros z. destruct (decide (z = p)) as [->|]; [rewrite lookup_delete_eq; split; [by intros [? ?]|by intros []]|].
    rewrite lookup_delete_ne by done. unfold m. destruct (decide (z = q)) as [->|].
    + rewrite lookup_insert_eq, Eq. split; [by split|by eexists].
    + rewrite lookup_insert_ne by done. split; [by split|by intros []].
  - intros z zr. rewrite lookup_delete_Some. unfold m. rewrite lookup_insert_Some.
    intros [_ [(<- & <-)|[_ Ez]]]; [by exists qr|by exists zr].
Qed.

Lemma freeproc_ok refs proc_init s p pr q : ps_ok refs s → ps_proc s !! p = Some pr → p_parent pr = Some q → p_child pr = [] →
  p ≠ proc_sched → p ≠ proc_init →
  ∃ s' qr, freeproc proc_init s p = Ok s' ∧ ps_ok refs s' ∧ ps_proc s !! q = Some qr ∧
    same_view (ps_proc s') (delete p (<[q := set_child (filter (λ c, c ≠ p) (p_child qr)) qr]> (ps_proc s))).
Proof.
  intros Hok Ep Epar Ech Hb Hin. destruct (po_child _ (pk_procs _ _ Hok) _ _ _ Ep Epar) as (qr & Eq & _).
  destruct (reap_ok refs s p pr q qr Hok Ep Epar Eq Ech Hb) as (s' & E' & Hok' & Hv). exists s', qr.
  unfold freeproc. rewrite bool_decide_false by done. rewrite Ep. cbn [deref mbind res_bind]. rewrite Epar.
  rewrite (upd_proc_ok _ _ _ _ Eq). cbn [mbind res_bind]. by rewrite E'.
Qed.

Lemma fork_abort_ok refs s q qr p pr l : ps_ok refs s → ps_proc s !! p = Some pr → p_parent pr = Some q → ps_proc s !! q = Some qr →
  p_child qr = p :: l → p_stat pr = SIDL → p ≠ proc_sched →
  ∃ s', fork_abort s q p = Ok s' ∧ ps_ok refs s' ∧ same_view (ps_proc s') (delete p (<[q := set_child l qr]> (ps_proc s))).
Proof.
  intros Hok Ep Epar Eq Ech Hst Hb. pose proof (pk_procs _ _ Hok) as Hp.
  destruct (po_kind _ Hp _ _ Ep) as (_ & _ & _ & Hc).
  destruct (reap_ok refs s p pr q qr Hok Ep Epar Eq (Hc Hst) Hb) as (s' & E' & Hok' & Hv).
  assert (filter (λ c, c ≠ p) (p_child qr) = l) as El.
  { pose proof (po_nodup _ Hp _ _ Eq) as Hn. rewrite Ech in *. apply list.NoDup_cons in Hn as [Hn _].
    rewrite filter_cons_False by (intros ?; done). apply filter_all. intros x Hx ->. done. }
  rewrite El in *. exists s'. split; [|done]. unfold fork_abort. rewrite (upd_proc_ok _ _ _ _ Eq), Ech. simpl siblings_after.
  rewrite bool_decide_true by done. cbn [mbind res_bind]. done.
Qed.

(** ** References of drivers *)

Lemma ps_ok_refs refs refs' s s' : ps_ok refs s → (∀ act, ps_inv act refs (λ _, 0) s → ps_inv act refs' (λ _, 0) s') →
  (∀ x, 0 ≤ refs' x) → keeps_procs s s' → ps_ok refs' s'.
Proof.
  intros [(act & Hi & Hact) Hr Hp Ha] Hinv Hr' [Kp Ka Kn _ _]. split; rewrite ?Kp, ?Ka, ?Kn; try done. exists act. eauto.
Qed.

Lemma proc_ref_ok refs s p pr : ps_ok refs s → ps_proc s !! p = Some pr →
  ∃ x s', p_pidp pr = Some x ∧ proc_ref s p = Ok (Some x, s') ∧ ps_ok (plus_at refs x 1) s' ∧ ps_proc s' = ps_proc s.
Proof.
  intros Hok Ep. pose proof Hok as [(act & Hi & Hact) Hr Hp Ha]. destruct (po_kind _ Hp _ _ Ep) as ([x Ex] & _).
  assert (act !! x = Some p) as Ea by (apply Hact; by exists pr).
  destruct (tb_act _ _ (pi_tab _ _ _ _ Hi) _ _ Ea) as (pd & Epd & _).
  destruct (PID_HOLD_ok _ _ _ s x pd Hi Epd) as (s' & E & _ & Hk & _). exists x, s'. split; [done|].
  unfold proc_ref. rewrite Ep. cbn [deref mbind res_bind]. rewrite Ex, E. split; [done|]. split; [|by destruct Hk].
  eapply (ps_ok_refs refs); [done| |intros y; unfold plus_at; specialize (Hr y); case_decide; lia|done].
  intros a Ha'. destruct (PID_HOLD_ok _ _ _ s x pd Ha' Epd) as (s'' & E'' & ? & _). congruence.
Qed.

Lemma proc_unref_ok refs s x : ps_ok refs s → 1 ≤ refs x →
  ∃ s', proc_unref s (Some x) = Ok s' ∧ ps_ok (plus_at refs x (-1)) s' ∧ ps_proc s' = ps_proc s.
Proof.
  intros Hok Hx. pose proof Hok as [(act & Hi & Hact) Hr Hp Ha].
  destruct (ps_pid s !! x) as [pd|] eqn:Epd; [|pose proof (pi_dnone _ _ _ _ Hi _ Epd); lia].
  destruct (PID_RELE_ok _ _ _ s x pd Hi Epd Hx) as (s' & E & _ & Hk & _). exists s'. split; [done|]. split; [|by destruct Hk].
  eapply (ps_ok_refs refs); [done| |intros y; unfold plus_at; specialize (Hr y); case_decide; subst; lia|done].
  intros a Ha'. destruct (PID_RELE_ok _ _ _ s x pd Ha' Epd Hx) as (s'' & E'' & ? & _). unfold proc_unref in *. congruence.
Qed.

(** A driver's reference tells a process that is there from one that went. *)
Lemma proc_signal_ok refs s x sig : ps_ok refs s → 1 ≤ refs x →
  ∃ pd, ps_pid s !! x = Some pd ∧
    proc_signal s (Some x) sig = Ok (if pid_prinactive pd then (-1, s) else
      (0, match procdir s !! Z.to_nat (pid_prslot pd) with Some (PeProc p) => set_sigs (ps_sigs s ++ [(p, sig)]) s | _ => s end)) ∧
    (pid_prinactive pd = true ↔ ∀ p pr, ps_proc s !! p = Some pr → p_pidp pr ≠ Some x).
Proof.
  intros Hok Hx. pose proof Hok as [(act & Hi & Hact) Hr Hp Ha].
  destruct (ps_pid s !! x) as [pd|] eqn:Epd; [|pose proof (pi_dnone _ _ _ _ Hi _ Epd); lia].
  exists pd. split; [done|]. unfold proc_signal, prsignal. rewrite (get_pid_ok _ _ _ Epd). cbn [mbind res_bind].
  destruct (act !! x) as [p|] eqn:Ea.
  - destruct (tb_act _ _ (pi_tab _ _ _ _ Hi) _ _ Ea) as (pd' & Epd' & _ & Ei & Ed). assert (pd' = pd) as -> by congruence.
    rewrite Ei, Ed. cbn [deref mbind res_bind]. rewrite (get_pid_ok _ _ pd) by done. cbn [mbind res_bind]. rewrite Ei.
    split; [done|]. split; [done|]. intros H. apply Hact in Ea as (pr & Ep & Ex). by destruct (H p pr).
  - rewrite (tb_inactive _ _ (pi_tab _ _ _ _ Hi) _ _ Epd Ea). cbn [mbind res_bind]. rewrite (get_pid_ok _ _ _ Epd).
    cbn [mbind res_bind]. rewrite (tb_inactive _ _ (pi_tab _ _ _ _ Hi) _ _ Epd Ea). split; [done|]. split; [|done].
    intros _ p pr Ep Ex. assert (act !! x = Some p) by (apply Hact; by exists pr). congruence.
Qed.

(** ** Sessions *)

Lemma sess_create_ok refs s pp pr sp : ps_ok refs s → ps_proc s !! pp = Some pr → p_stat pr ≠ SIDL → pp ≠ proc_sched →
  ps_sess s !! sp = None →
  ∃ s' x, sess_create s pp sp = Ok s' ∧ ps_ok refs s' ∧ p_pidp pr = Some x ∧
    same_view (ps_proc s') (<[pp := set_pgidp (Some x) (set_sessp (Some sp) pr)]> (ps_proc s)).
Proof.
  intros Hok Ep Hst Hb Hnew. pose proof Hok as [(act & Hi & Hact) Hr Hp Ha].
  destruct (po_kind _ Hp _ _ Ep) as ([x Ex] & [y Ey] & Hg & Hch).
  destruct (p_pgidp pr) as [g|] eqn:Eg; [|by destruct Hst; apply Hg].
  assert (act !! x = Some pp) as Ea by (apply Hact; by exists pr).
  unfold sess_create. destruct (pgexit_ok act refs _ s pp pr g Hi Hr Ep Eg) as (s1 & -> & Hi1 & [Hv1 Es1 Ea1 En1 _ _]).
  cbn [mbind res_bind].
  destruct (view_lookup _ _ pp (set_pgidp None pr) (symmetry Hv1) (lookup_insert_eq _ _ _)) as (pr1 & Ep1 & Ev). view Ev. simpl in *.
  rewrite Ep1. cbn [deref mbind res_bind]. rewrite Ese, Ey, Epid, Ex.
  pose proof (inv_upd _ _ _ s1 pp pr1 (set_sessp None pr1) Hi1 Ep1 ltac:(done)
    (λ q, pi_parents _ _ _ _ Hi1 pp pr1 q Ep1) ltac:(done) ltac:(done)) as Hi2.
  set (m1 := <[pp := set_sessp None pr1]> (ps_proc s1)) in *.
  assert (is_Some (ps_sess s !! y)) as [se Esy] by (by eapply pi_sessp).
  destruct (SESS_RELE_ok _ _ _ (set_procs m1 s1) y se Hi2 Hr) as (s2' & E2 & Hi3 & [Kp2 Ka2 Kn2 _ _] & Hnone).
  { simpl. by rewrite Es1. } { simpl. rewrite bool_decide_true by congruence. simpl. lia. }
  destruct (bind_procs (λ s, SESS_RELE s (Some y)) m1 s1 s2' (λ s, SESS_RELE_procs m1 s _) E2) as (s2 & E2' & ->).
  rewrite E2'. apply (kept_procs (λ s, SESS_RELE s (Some y))) in E2' as Eq2; [|intros; apply SESS_RELE_procs].
  cbn [mbind res_bind]. set (s3 := set_sesss _ s2).
  assert (ps_sess s2 !! sp = None) as Hnew2 by (apply Hnone; simpl; by rewrite Es1).
  assert (ps_inv act (plus_at refs x (-1)) (plus_at (λ _, 0) sp 1) (set_procs m1 s3)) as Hi4.
  { apply (inv_sess act refs _ _ (<[sp := MkSess 1 (Some x)]> (ps_sess s2)) (plus_at refs x (-1)) _ Hi3).
    - intros q qr z Eq Ez. apply is_Some_insert. by eapply (pi_sessp _ _ _ _ Hi3).
    - intros z se'. rewrite lookup_insert_Some. intros [(<- & <-)|[Hne Ez]].
      + simpl. split; [exists x; split; [done|]; destruct (tb_act _ _ (pi_tab _ _ _ _ Hi3) _ _ Ea) as (? & Ed & _); by eexists|].
        split; [done|]. unfold plus_at. rewrite decide_True by done. unfold sess_count. rewrite msum_zero; [done|].
        intros q qr Eq. rewrite bool_decide_false; [done|]. intros Eqs. destruct (pi_sessp _ _ _ _ Hi3 _ _ _ Eq Eqs). simpl in *. congruence.
      + destruct (pi_sref _ _ _ _ Hi3 _ _ Ez) as [? E3]. split; [by eapply (pi_sidp _ _ _ _ Hi3)|]. split; [done|].
        rewrite E3. f_equal. unfold plus_at. rewrite (decide_False (P := z = sp)) by done.
        rewrite Ese, Ey. simpl. case_decide as Ez'; [subst; rewrite bool_decide_true by done; simpl; lia|].
        rewrite bool_decide_false by congruence. simpl. lia.
    - intros z [zd Ez]. unfold sid_count. rewrite msum_insert_new by done. unfold plus_at. simpl.
      case_decide as Ezx; [subst; rewrite bool_decide_true by done; simpl; lia|]. rewrite bool_decide_false by congruence. simpl. lia.
    - intros z Ez. unfold plus_at. rewrite decide_False; [lia|]. intros ->.
      destruct (tb_act _ _ (pi_tab _ _ _ _ Hi3) _ _ Ea) as (? & Ed & _). congruence. }
  rewrite (upd_proc_ok s3 pp pr1) by (change (ps_proc s3) with (ps_proc s2); congruence). cbn [mbind res_bind].
  pose proof (inv_upd _ _ _ (set_procs m1 s3) pp _ (set_sessp (Some sp) pr1) Hi4 (lookup_insert_eq _ _ _) ltac:(done)) as Hi5.
  set (s4 := set_procs (<[pp := set_sessp (Some sp) pr1]> (ps_proc s3)) s3).
  assert (set_procs (<[pp := set_sessp (Some sp) pr1]> (ps_proc (set_procs m1 s3))) (set_procs m1 s3) = s4) as E4.
  { unfold s4, m1, set_procs. simpl. rewrite insert_insert_eq. by rewrite Eq2. }
  rewrite E4 in Hi5. specialize (Hi5 ltac:(intros q Eq; apply (pi_parents _ _ _ _ Hi4 pp (set_sessp None pr1) q); [apply lookup_insert_eq|done])
    ltac:(intros z [= <-]; simpl; rewrite lookup_insert_eq; done) ltac:(done)).
  assert (∃ xd, ps_pid s4 !! x = Some xd) as [xd Exd] by (destruct (tb_act _ _ (pi_tab _ _ _ _ Hi5) _ _ Ea) as (? & ? & _); eauto).
  assert (ps_proc s4 !! pp = Some (set_sessp (Some sp) pr1)) as Ep4 by apply lookup_insert_eq.
  destruct (pgjoin_ok _ _ _ s4 pp _ x xd Hi5 Ep4) as (s5 & -> & Hi6 & [Hv5 Es5 Ea5 En5 _ _]); [done|done|]. cbn [mbind res_bind].
  destruct (tb_act _ _ (pi_tab _ _ _ _ Hi6) _ _ Ea) as (xd5 & Exd5 & _).
  destruct (PID_HOLD_ok _ _ _ s5 x xd5 Hi6 Exd5) as (s6 & -> & Hi7 & [Kp6 Ka6 Kn6 _ _] & _).
  exists s6, x. split; [done|].
  assert (same_view (ps_proc s6) (<[pp := set_pgidp (Some x) (set_sessp (Some sp) pr)]> (ps_proc s))) as Hv.
  { rewrite Kp6, Hv5. unfold s4. simpl. rewrite Eq2. intros z. destruct (decide (z = pp)) as [->|].
    - rewrite !lookup_insert_eq. simpl. unfold pview. simpl. congruence.
    - rewrite !lookup_insert_ne by done. specialize (Hv1 z). by rewrite lookup_insert_ne in Hv1. }
  split; [|done]. eapply (ps_ok_change refs s s6 act pp pr _ Hok Hact); [|exact Ep|exact Hv|done..| | | | ].
  - eapply ps_inv_ext; [| |exact Hi7].
    + intros z. unfold plus_at. case_decide; lia.
    + intros z. unfold plus_at. simpl. case_decide as Ez; [subst; rewrite bool_decide_true by done; simpl; lia|].
      rewrite bool_decide_false by congruence. simpl. lia.
  - simpl. split; [intros Hs; by destruct Hst|done].
  - simpl. intros Hs. by destruct Hst.
  - rewrite Ka6, Ea5. unfold s4. simpl in *. congruence.
  - rewrite Kn6, En5. unfold s4. simpl in *. congruence.
Qed.
