(* ===== verification/PgrpThms.v ===== *)
(** * What holds of the process tables

    Every call keeps the invariant; then what holds of every state that calls reach. *)

From S2P Require Import Prelude Pid PidProps Pgrp PgrpProps PgrpInv PgrpOps.

Section calls.
Context (refs : Z → Z) (s : psys).
Hypothesis Hok : ps_ok refs s.

(** ** Ids *)

Lemma pidp_ok p pr : ps_proc s !! p = Some pr → ∃ x pd, p_pidp pr = Some x ∧ ps_pid s !! x = Some pd ∧
  pid_prinactive pd = false ∧ procdir s !! Z.to_nat (pid_prslot pd) = Some (PeProc p).
Proof using Hok.
  intros Ep. destruct Hok as [(act & Hi & Hact) _ Hp _]. destruct (po_kind _ Hp _ _ Ep) as ([x Ex] & _).
  assert (act !! x = Some p) as Ea by (apply Hact; by exists pr).
  destruct (tb_act _ _ (pi_tab _ _ _ _ Hi) _ _ Ea) as (pd & Epd & _ & Ei & Ed). by exists x, pd.
Qed.

Lemma p_pid_ok p pr : ps_proc s !! p = Some pr → ∃ x pd, p_pidp pr = Some x ∧ ps_pid s !! x = Some pd ∧ p_pid s pr = Ok (pid_id pd).
Proof using Hok.
  intros Ep. destruct (pidp_ok p pr Ep) as (x & pd & Ex & Epd & _). exists x, pd. unfold p_pid.
  by rewrite Ex, (get_pid_ok _ _ _ Epd).
Qed.

Lemma p_pgrp_ok p pr : ps_proc s !! p = Some pr → p_stat pr ≠ SIDL →
  ∃ g gd, p_pgidp pr = Some g ∧ ps_pid s !! g = Some gd ∧ p_pgrp s pr = Ok (pid_id gd).
Proof using Hok.
  intros Ep Hst. destruct Hok as [(act & Hi & Hact) _ Hp _]. destruct (po_kind _ Hp _ _ Ep) as (_ & _ & Hg & _).
  destruct (p_pgidp pr) as [g|] eqn:Eg; [|by destruct Hst; apply Hg].
  destruct (pi_pgidp _ _ _ _ Hi _ _ _ Ep Eg) as [gd Egd]. exists g, gd. unfold p_pgrp. by rewrite Eg, (get_pid_ok _ _ _ Egd).
Qed.

Lemma s_sid_ok p pr : ps_proc s !! p = Some pr →
  ∃ y se x xd, p_sessp pr = Some y ∧ ps_sess s !! y = Some se ∧ s_sidp se = Some x ∧ ps_pid s !! x = Some xd ∧
    s_sid s (p_sessp pr) = Ok (pid_id xd).
Proof using Hok.
  intros Ep. destruct Hok as [(act & Hi & Hact) _ Hp _]. destruct (po_kind _ Hp _ _ Ep) as (_ & [y Ey] & _).
  destruct (pi_sessp _ _ _ _ Hi _ _ _ Ep Ey) as [se Ese]. destruct (pi_sidp _ _ _ _ Hi _ _ Ese) as (x & Ex & [xd Exd]).
  exists y, se, x, xd. split_and!; try done. unfold s_sid, get_sess. rewrite Ey. cbn [deref mbind res_bind]. rewrite Ese.
  cbn [deref mbind res_bind]. by rewrite Ex, (get_pid_ok _ _ _ Exd).
Qed.

Lemma ids_inj x y xd yd : ps_pid s !! x = Some xd → ps_pid s !! y = Some yd → pid_id xd = pid_id yd → x = y.
Proof using Hok. destruct Hok as [(act & Hi & _) _ _ _]. apply (tb_ids _ _ (pi_tab _ _ _ _ Hi)). Qed.

Lemma prfind_ok id : ∃ r, prfind s id = Ok r ∧
  match r with
  | Some p => ∃ pr x xd, ps_proc s !! p = Some pr ∧ p_pidp pr = Some x ∧ ps_pid s !! x = Some xd ∧ pid_id xd = id
  | None => ∀ p pr x xd, ps_proc s !! p = Some pr → p_pidp pr = Some x → ps_pid s !! x = Some xd → pid_id xd ≠ id
  end.
Proof using Hok.
  pose proof Hok as [(act & Hi & Hact) _ _ _]. unfold prfind.
  destruct (pid_lookup_spec act s id (pi_tab _ _ _ _ Hi)) as ([x|] & -> & Hx); cbn [mbind res_bind].
  - destruct Hx as (xd & Exd & E). rewrite Exd. cbn [deref mbind res_bind]. destruct (pid_prinactive xd) eqn:Ein.
    + exists None. split; [done|]. intros p pr z zd Ep Ez Ezd Eid. rewrite <- E in Eid.
      rewrite (ids_inj _ _ _ _ Ezd Exd Eid) in *. destruct (pidp_ok p pr Ep) as (w & wd & Ew & Ewd & Hin & _). congruence.
    + destruct (act !! x) as [p|] eqn:Ea; [|by rewrite (tb_inactive _ _ (pi_tab _ _ _ _ Hi) _ _ Exd Ea) in Ein].
      pose proof Ea as (pr & Ep & Ex)%Hact. destruct (pidp_ok p pr Ep) as (w & wd & Ew & Ewd & _ & Ed).
      assert (w = x) as -> by congruence. assert (wd = xd) as -> by congruence. rewrite Ed. cbn [deref mbind res_bind].
      exists (Some p). split; [done|]. by exists pr, x, xd.
  - exists None. split; [done|]. intros p pr x xd _ _ Exd. by eapply Hx.
Qed.

Lemma pgfind_ok id : ∃ r, pgfind s id = Ok r ∧
  match r with
  | Some q => ∃ qr x xd l, ps_proc s !! q = Some qr ∧ p_pgidp qr = Some x ∧ ps_pid s !! x = Some xd ∧ pid_id xd = id ∧
      is_group s x (q :: l)
  | None => ∀ q qr x xd, ps_proc s !! q = Some qr → p_pgidp qr = Some x → ps_pid s !! x = Some xd → pid_id xd ≠ id
  end.
Proof using Hok.
  pose proof Hok as [(act & Hi & Hact) _ _ _]. unfold pgfind.
  destruct (pid_lookup_spec act s id (pi_tab _ _ _ _ Hi)) as ([x|] & -> & Hx); cbn [mbind res_bind].
  - destruct Hx as (xd & Exd & E). rewrite Exd. cbn [deref mbind res_bind]. exists (pid_pglink xd). split; [done|].
    destruct (pi_group _ _ _ _ Hi _ _ Exd) as [l Hl]. pose proof Hl as (xd' & Exd' & Hpl & _ & Hm).
    assert (xd' = xd) as -> by congruence. destruct l as [|q l].
    + simpl in Hpl. rewrite Hpl. intros q qr z zd Eq Eg Ezd Eid. rewrite <- E in Eid.
      rewrite (ids_inj _ _ _ _ Ezd Exd Eid) in *. assert (q ∈ []) as ?%elem_of_nil by (apply Hm; by exists qr). done.
    + destruct Hpl as (-> & qr & Eq & _). destruct (proj1 (Hm q) ltac:(left)) as (qr' & Eq' & Eg).
      assert (qr' = qr) as -> by congruence. by exists qr, x, xd, l.
  - exists None. split; [done|]. intros q qr x xd _ _ Exd. by eapply Hx.
Qed.

Lemma find_child_ok id l : (∀ c, c ∈ l → is_Some (ps_proc s !! c)) →
  ∃ r, find_child s id l = Ok r ∧ match r with
    | Some c => c ∈ l ∧ ∃ cr x xd, ps_proc s !! c = Some cr ∧ p_pidp cr = Some x ∧ ps_pid s !! x = Some xd ∧ pid_id xd = id
    | None => True end.
Proof using Hok.
  induction l as [|c l IH]; intros Hl; simpl; [by exists None|]. destruct (Hl c ltac:(left)) as [cr Ec]. rewrite Ec.
  cbn [deref mbind res_bind]. destruct (p_pid_ok c cr Ec) as (x & xd & Ex & Exd & ->). cbn [mbind res_bind].
  destruct (Z.eqb_spec (pid_id xd) id).
  - exists (Some c). split; [done|]. split; [left|]. by exists cr, x, xd.
  - destruct IH as (r & -> & Hr); [intros d Hd; apply Hl; by right|]. exists r. split; [done|].
    destruct r as [d|]; [|done]. destruct Hr. split; [by right|done].
Qed.

(** ** Moving a process to another group *)

Lemma move_ok t tr g : ps_proc s !! t = Some tr → p_stat tr ≠ SIDL →
  p_pidp tr = Some g ∨ (∃ q qr, q ≠ t ∧ ps_proc s !! q = Some qr ∧ p_pgidp qr = Some g) →
  ∃ s1 s2, pgexit s t = Ok s1 ∧ pgjoin s1 t (Some g) = Ok s2 ∧ ps_ok refs s2 ∧
    same_view (ps_proc s1) (<[t := set_pgidp None tr]> (ps_proc s)) ∧
    same_view (ps_proc s2) (<[t := set_pgidp (Some g) tr]> (ps_proc s)).
Proof using Hok.
  intros Et Hst Hg. pose proof Hok as [(act & Hi & Hact) Hr Hp Ha].
  destruct (po_kind _ Hp _ _ Et) as ([x Ex] & [y Ey] & Hgt & _).
  destruct (p_pgidp tr) as [g0|] eqn:Eg0; [|by destruct Hst; apply Hgt].
  destruct (pgexit_ok act refs _ s t tr g0 Hi Hr Et Eg0) as (s1 & E1 & Hi1 & [Hv1 _ Ea1 En1 _ _]). exists s1.
  assert (∃ gd, ps_pid s1 !! g = Some gd) as [gd Egd].
  { destruct Hg as [Hg|(q & qr & Hqt & Eq & Eqg)].
    - assert (act !! g = Some t) as Ea by (apply Hact; by exists tr).
      destruct (tb_act _ _ (pi_tab _ _ _ _ Hi1) _ _ Ea) as (gd & ? & _). by exists gd.
    - assert (<[t := set_pgidp None tr]> (ps_proc s) !! q = Some qr) as Eq' by (by rewrite lookup_insert_ne).
      destruct (view_lookup _ _ _ _ (symmetry Hv1) Eq') as (qr1 & Eq1 & Ev). view Ev.
      destruct (pi_pgidp _ _ _ _ Hi1 q qr1 g Eq1 ltac:(congruence)) as [gd ?]. by exists gd. }
  destruct (view_lookup _ _ t (set_pgidp None tr) (symmetry Hv1) (lookup_insert_eq _ _ _)) as (t1 & Et1 & Ev). view Ev.
  destruct (pgjoin_ok act refs _ s1 t t1 g gd Hi1 Et1 Epg Egd) as (s2 & E2 & Hi2 & [Hv2 _ Ea2 En2 _ _]).
  exists s2. split; [done|]. split; [done|].
  assert (same_view (ps_proc s2) (<[t := set_pgidp (Some g) tr]> (ps_proc s))) as Hv.
  { rewrite Hv2. intros z. destruct (decide (z = t)) as [->|].
    - rewrite !lookup_insert_eq. simpl. unfold pview. simpl in *. congruence.
    - rewrite !lookup_insert_ne by done. specialize (Hv1 z). by rewrite lookup_insert_ne in Hv1. }
  split; [|done]. eapply (ps_ok_change refs s s2 act t tr _ Hok Hact Hi2 Et Hv); try done; congruence.
Qed.

(** The children of a process that has no fork under way. *)
Definition no_fork (pr : proc) : Prop := ∀ c cr, c ∈ p_child pr → ps_proc s !! c = Some cr → p_stat cr ≠ SIDL.

Lemma setpgid_target_ok cur pr id : ps_proc s !! cur = Some pr → p_stat pr ≠ SIDL → no_fork pr →
  ∃ r, setpgid_target s cur id = Ok r ∧ match r with
    | inl e => e ≠ 0
    | inr (t, tid) => ∃ tr x xd, ps_proc s !! t = Some tr ∧ p_stat tr ≠ SIDL ∧ p_pidp tr = Some x ∧ ps_pid s !! x = Some xd ∧
        tid = pid_id xd ∧ p_sessp tr = p_sessp pr ∧ (t = cur ∨ t ∈ p_child pr ∧ p_execed tr = false)
    end.
Proof using Hok.
  intros Ep Hst Hnf. unfold setpgid_target. rewrite Ep. cbn [deref mbind res_bind].
  destruct (p_pid_ok cur pr Ep) as (x & xd & Ex & Exd & ->). cbn [mbind res_bind].
  destruct (Z.eqb_spec id 0); [eexists; split; [done|]; by exists pr, x, xd; split_and!; try done; left|].
  destruct (_ || _); [by eexists|]. destruct (Z.eqb_spec id (pid_id xd)) as [->|]; simpl.
  { eexists; split; [done|]. exists pr, x, xd. split_and!; try done. by left. }
  destruct (find_child_ok id (p_child pr)) as (r & -> & Hr).
  { intros c Hc. destruct (po_parent _ (pk_procs _ _ Hok) _ _ _ Ep Hc) as (cr & -> & _). done. }
  cbn [mbind res_bind]. destruct r as [c|]; [|by eexists]. destruct Hr as (Hc & cr & z & zd & Ec & Ez & Ezd & Eid).
  rewrite Ec. cbn [deref mbind res_bind]. destruct (p_execed cr) eqn:Eex; [by eexists|].
  case_bool_decide as Hs; simpl; [|by eexists]. eexists. split; [done|]. exists cr, z, zd.
  split_and!; try done; [by eapply Hnf|by right].
Qed.

(** What [setpgid] does when it succeeds: nothing, or the target moves to its own group
    or to one of a process of its session. *)
Definition setpgid_moves (cur : Z) (pr : proc) (s' : psys) : Prop :=
  s' = s ∨ ∃ t tr g, ps_proc s !! t = Some tr ∧ p_sessp tr = p_sessp pr ∧ (t = cur ∨ t ∈ p_child pr ∧ p_execed tr = false) ∧
    p_pgidp tr ≠ Some g ∧ same_view (ps_proc s') (<[t := set_pgidp (Some g) tr]> (ps_proc s)) ∧
    (p_pidp tr = Some g ∨ ∃ q qr, ps_proc s !! q = Some qr ∧ p_pgidp qr = Some g ∧ p_sessp qr = p_sessp tr).

Lemma setpgid_ok cur pr id pgid : ps_proc s !! cur = Some pr → p_stat pr ≠ SIDL → no_fork pr →
  ∃ e s', setpgid s cur id pgid = Ok (e, s') ∧ ps_ok refs s' ∧ (e ≠ 0 → s' = s) ∧ setpgid_moves cur pr s'.
Proof using Hok.
  intros Ep Hst Hnf. unfold setpgid. destruct (setpgid_target_ok cur pr id Ep Hst Hnf) as (r & -> & Hr). cbn [mbind res_bind].
  destruct r as [e|[t tid]]; [exists e, s; split_and!; try done; by left|].
  destruct Hr as (tr & x & xd & Et & Htst & Ex & Exd & -> & Hses & Hrel). rewrite Et. cbn [deref mbind res_bind].
  destruct (s_sid_ok t tr Et) as (y & se & z & zd & _ & _ & _ & Ezd & ->). cbn [mbind res_bind].
  destruct (_ =? _); [eexists _, s; split_and!; try done; by left|].
  assert (p_pid s tr = Ok (pid_id xd)) as -> by (unfold p_pid; by rewrite Ex, (get_pid_ok _ _ _ Exd)). cbn [mbind res_bind].
  destruct (_ && _); [eexists _, s; split_and!; try done; by left|].
  set (pg := if pgid =? 0 then pid_id xd else pgid). destruct (p_pgrp_ok t tr Et Htst) as (g & gd & Eg & Egd & ->). cbn [mbind res_bind].
  destruct (Z.eqb_spec (pid_id gd) pg) as [|Hne]; [eexists _, s; split_and!; try done; by left|].
  destruct (Z.eqb_spec (pid_id xd) pg) as [E|Hne2].
  - destruct (move_ok t tr x Et Htst (or_introl Ex)) as (s1 & s2 & -> & E2 & Hok2 & _ & Hv). cbn [mbind res_bind].
    rewrite Ex, E2. cbn [mbind res_bind]. exists 0, s2. split_and!; try done. right. exists t, tr, x.
    split_and!; try done; [congruence|by left].
  - destruct (pgfind_ok pg) as (q & -> & Hq). cbn [mbind res_bind]. destruct q as [q|]; [|eexists _, s; split_and!; try done; by left].
    destruct Hq as (qr & w & wd & l & Eq & Ew & Ewd & Eid & _). rewrite Eq. cbn [deref mbind res_bind].
    case_bool_decide as Hs; simpl; [|eexists _, s; split_and!; try done; by left].
    assert (w ≠ g) as Hwg by (intros ->; congruence).
    assert (q ≠ t) as Hqt by (intros ->; congruence).
    destruct (move_ok t tr w Et Htst) as (s1 & s2 & -> & E2 & Hok2 & Hv1 & Hv); [right; by exists q, qr|]. cbn [mbind res_bind].
    assert (<[t := set_pgidp None tr]> (ps_proc s) !! q = Some qr) as Eq' by (by rewrite lookup_insert_ne).
    destruct (view_lookup _ _ _ _ (symmetry Hv1) Eq') as (qr1 & -> & Ev). view Ev. cbn [deref mbind res_bind].
    rewrite Epg, Ew, E2. cbn [mbind res_bind]. exists 0, s2. split_and!; try done. right. exists t, tr, w.
    split_and!; try done; [congruence|]. right. by exists q, qr.
Qed.
End calls.

(** ** Exit *)

Lemma inv_sigs act d e s l : ps_inv act d e s → ps_inv act d e (set_sigs l s).
Proof.
  intros [I1 I2 I3 I4 I5 I6 I7 I8 I9 I10 I11]. split; try done.
  eapply tab_ok_same; [|exact I1]. split; [done..|]. intros x. simpl. by case_match.
Qed.

Lemma set_orphaned_ok act d e s g gd b : ps_inv act d e s → ps_pid s !! g = Some gd →
  ∃ s', upd_pid (Some g) (set_orphaned b) s = Ok s' ∧ ps_inv act d e s' ∧ keeps_procs s s' ∧ is_Some (ps_pid s' !! g).
Proof.
  intros Hi Eg. rewrite (upd_pid_ok _ _ _ _ Eg). eexists. split; [done|]. split; [|split; [done|simpl; by rewrite lookup_insert_eq]].
  eapply ps_inv_ext; [| |eapply (inv_set_pid _ _ _ _ g gd); try done].
  - intros x. unfold plus_at. simpl. case_decide; lia.
  - done.
  - by destruct (pi_pref _ _ _ _ Hi _ _ Eg).
Qed.

Lemma sigtopg_ok act d e s g sig : ps_inv act d e s → is_Some (ps_pid s !! g) →
  ∃ s', sigtopg s (Some g) sig = Ok s' ∧ ps_inv act d e s' ∧ keeps_procs s s' ∧ is_Some (ps_pid s' !! g).
Proof.
  intros Hi [gd Eg]. unfold sigtopg. rewrite (get_pid_ok _ _ _ Eg). cbn [mbind res_bind].
  destruct (pi_group _ _ _ _ Hi _ _ Eg) as [l Hl]. rewrite (is_group_members _ _ _ _ Hl Eg). cbn [mbind res_bind].
  eexists. split; [done|]. split; [by apply inv_sigs|]. split; [done|]. simpl. by rewrite Eg.
Qed.

Section exits.
Context (jobstopped : psys → Z → bool) (proc_init : Z).

Lemma detach_walk_ok act d e curproc pp g l : ∀ s stopped, ps_inv act d e s → is_Some (ps_pid s !! g) →
  (∀ x, x ∈ l → is_Some (ps_proc s !! x)) →
  ∃ s', detach_walk jobstopped curproc s pp (Some g) stopped l = Ok s' ∧ ps_inv act d e s' ∧ keeps_procs s s'.
Proof.
  induction l as [|mp l IH]; intros s stopped Hi [gd Eg] Hl; simpl.
  - destruct (set_orphaned_ok act d e s g gd true Hi Eg) as (s1 & -> & Hi1 & Hk1 & Eg1). cbn [mbind res_bind].
    destruct stopped; [|by exists s1].
    destruct (sigtopg_ok act d e s1 g SIGHUP Hi1 Eg1) as (s2 & -> & Hi2 & Hk2 & Eg2). cbn [mbind res_bind].
    destruct (sigtopg_ok act d e s2 g SIGCONT Hi2 Eg2) as (s3 & -> & Hi3 & Hk3 & _).
    exists s3. split; [done|]. split; [done|]. by etrans; [|etrans].
  - destruct (Hl mp ltac:(left)) as [mr Emp]. rewrite Emp. cbn [deref mbind res_bind].
    rewrite (pglinked_eq s mp) by first [exact (pi_parents _ _ _ _ Hi) | by rewrite Emp]. cbn [mbind res_bind].
    destruct (_ && _); [by exists s|]. apply IH; [done|by exists gd|]. intros x Hx. apply Hl. by right.
Qed.

Lemma detach_children_ok act d e curproc pp cps : ∀ s, ps_inv act d e s →
  (∀ c, c ∈ cps → ∃ cr g, ps_proc s !! c = Some cr ∧ p_pgidp cr = Some g) →
  ∃ s', detach_children jobstopped curproc s pp cps = Ok s' ∧ ps_inv act d e s' ∧ keeps_procs s s'.
Proof.
  induction cps as [|c cps IH]; intros s Hi Hc; simpl; [by exists s|].
  destruct (Hc c ltac:(left)) as (cr & g & Ec & Eg). rewrite Ec. cbn [deref mbind res_bind]. rewrite Eg.
  destruct (pi_pgidp _ _ _ _ Hi _ _ _ Ec Eg) as [gd Egd]. rewrite (get_pid_ok _ _ _ Egd). cbn [mbind res_bind].
  assert (∃ s1, (if pid_pgorphaned gd then Ok s else
    _ ← deref (pid_pglink gd); l ← members s (pid_pglink gd); detach_walk jobstopped curproc s pp (Some g) false l) = Ok s1 ∧
    ps_inv act d e s1 ∧ keeps_procs s s1) as (s1 & -> & Hi1 & Hk1).
  { destruct (pid_pgorphaned gd); [by exists s|]. destruct (pi_group _ _ _ _ Hi _ _ Egd) as [l Hl].
    rewrite (is_group_members _ _ _ _ Hl Egd). pose proof Hl as (gd' & Egd' & Hpl & _ & Hm).
    assert (gd' = gd) as -> by congruence.
    assert (c ∈ l) as Hin by (apply Hm; by exists cr). destruct l as [|q l]; [by apply elem_of_nil in Hin|].
    pose proof Hpl as Hpl'. destruct Hpl as (-> & _). cbn [deref mbind res_bind]. apply detach_walk_ok; [done|by exists gd|].
    intros x. by eapply pg_list_lookup. }
  cbn [mbind res_bind]. destruct (IH s1 Hi1) as (s2 & -> & Hi2 & Hk2).
  { intros x Hx. rewrite (kp_proc _ _ Hk1). apply Hc. by right. }
  exists s2. split; [done|]. split; [done|]. by etrans.
Qed.

(** A process after the children [l] of another went to init. *)
Definition adopted (l : list Z) (x : Z) (p : proc) : proc :=
  let p := if decide (x ∈ l) then set_parent (Some proc_init) p else p in
  if decide (x = proc_init) then set_child (reverse l ++ p_child p) p else p.

Lemma to_init_ok act d e l : ∀ s ir, ps_inv act d e s → ps_proc s !! proc_init = Some ir →
  (∀ c, c ∈ l → is_Some (ps_proc s !! c)) →
  ∃ s', to_init proc_init s l = Ok s' ∧ ps_inv act d e s' ∧ practive s' = practive s ∧ nproc s' = nproc s ∧
    ∀ x, ps_proc s' !! x = adopted l x <$> ps_proc s !! x.
Proof.
  induction l as [|q l IH]; intros s ir Hi Ei Hl; simpl.
  { exists s. split_and!; try done. intros x. unfold adopted. destruct (ps_proc s !! x) as [p|]; [|done]. simpl.
    destruct (decide (x ∈ [])) as [[]%elem_of_nil|_]. case_decide; [by destruct p|done]. }
  destruct (Hl q ltac:(left)) as [qr Eq].
  destruct (inv_upd_proc _ _ _ s q qr (set_parent (Some proc_init)) Hi Eq) as (s1 & -> & Hi1 & Es1); [done| |done|].
  { intros z [= <-]. by rewrite Ei. }
  cbn [mbind res_bind]. assert (∃ ir1, ps_proc s1 !! proc_init = Some ir1) as [ir1 Ei1].
  { rewrite Es1. simpl. apply (is_Some_insert _ q). by rewrite Ei. }
  destruct (inv_upd_proc _ _ _ s1 proc_init ir1 (λ p, set_child (q :: p_child p) p) Hi1 Ei1) as (s2 & -> & Hi2 & Es2); [done| |done|].
  { intros z Ez. by apply (pi_parents _ _ _ _ Hi1 proc_init ir1). }
  cbn [mbind res_bind]. destruct (IH s2 (set_child (q :: p_child ir1) ir1) Hi2) as (s3 & -> & Hi3 & Ea3 & En3 & Ex3).
  { rewrite Es2. simpl. apply lookup_insert_eq. }
  { intros c Hc. rewrite Es2, Es1. simpl. do 2 apply is_Some_insert. apply Hl. by right. }
  exists s3. split; [done|]. split; [done|]. split; [rewrite Ea3, Es2; simpl; by rewrite Es1|].
  split; [rewrite En3, Es2; simpl; by rewrite Es1|]. intros x. rewrite Ex3.
  assert (ps_proc s2 !! x = (λ p, let p := if decide (x = q) then set_parent (Some proc_init) p else p in
    if decide (x = proc_init) then set_child (q :: p_child p) p else p) <$> ps_proc s !! x) as ->.
  { rewrite Es2, Es1. simpl. rewrite Es1 in Ei1. simpl in Ei1. destruct (decide (x = proc_init)) as [->|Hxi].
    - rewrite lookup_insert_eq. destruct (decide (proc_init = q)) as [<-|].
      + rewrite lookup_insert_eq in Ei1. injection Ei1 as <-. by rewrite Eq.
      + rewrite lookup_insert_ne in Ei1 by done. by rewrite Ei1.
    - rewrite lookup_insert_ne by done. destruct (decide (x = q)) as [->|]; [by rewrite lookup_insert_eq, Eq|].
      rewrite lookup_insert_ne by done. by destruct (ps_proc s !! x). }
  destruct (ps_proc s !! x) as [p|]; [|done]. simpl. f_equal. unfold adopted.
  destruct (decide (x = q)), (decide (x ∈ l)), (decide (x ∈ q :: l)) as [Hx|Hx], (decide (x = proc_init)); try done;
    try (exfalso; rewrite elem_of_cons in Hx; tauto);
    unfold set_child, set_parent; simpl; by rewrite ?reverse_cons, <- ?app_assoc.
Qed.

(** A process after [p], with children [l], exited. *)
Definition exited (p : Z) (l : list Z) (x : Z) (r : proc) : proc :=
  let r := adopted l x r in if decide (x = p) then set_stat SZOMB (set_child [] r) else r.

Lemma procs_ok_exit m m' p pr ir : procs_ok m → m !! p = Some pr → m !! proc_init = Some ir → p ≠ proc_init →
  p_stat pr ≠ SIDL → p_stat ir ≠ SIDL → (∀ x, m' !! x = exited p (p_child pr) x <$> m !! x) → procs_ok m'.
Proof.
  intros [P1 P2 P3 P4] Ep Ei Hpi Hst Hsti Hm. set (l := p_child pr) in *.
  assert (∀ x r', m' !! x = Some r' → ∃ r, m !! x = Some r ∧ r' = exited p l x r) as Hinv.
  { intros x r'. rewrite Hm. destruct (m !! x) as [r|]; [|done]. intros [= <-]. by exists r. }
  assert (∀ x r, p_pidp (exited p l x r) = p_pidp r ∧ p_sessp (exited p l x r) = p_sessp r ∧ p_pgidp (exited p l x r) = p_pgidp r) as Hf.
  { intros x r. unfold exited, adopted. by repeat case_decide. }
  assert (∀ x r, p_parent (exited p l x r) = if decide (x ∈ l) then Some proc_init else p_parent r) as Hpar.
  { intros x r. unfold exited, adopted. by repeat case_decide. }
  assert (∀ x r, p_child (exited p l x r) = if decide (x = p) then [] else if decide (x = proc_init) then reverse l ++ p_child r else p_child r) as Hch.
  { intros x r. unfold exited, adopted. by repeat case_decide. }
  assert (∀ x r, p_stat (exited p l x r) = if decide (x = p) then SZOMB else p_stat r) as Hs.
  { intros x r. unfold exited, adopted. by repeat case_decide. }
  assert (∀ c, c ∈ l → ∃ cr, m !! c = Some cr ∧ p_parent cr = Some p) as Hl by (intros c; by apply P3).
  split.
  - intros x r' (r & Er & ->)%Hinv. destruct (Hf x r) as (-> & -> & ->). rewrite Hs, Hch. destruct (P1 _ _ Er) as (? & ? & Hg & Hc).
    destruct (decide (x = p)) as [->|]; [split_and!; try done; assert (r = pr) as -> by congruence; split; [done|by intros ?%Hg]|].
    split_and!; try done. destruct (decide (x = proc_init)) as [->|]; [|done]. assert (r = ir) as -> by congruence. done.
  - intros c cr' q (cr & Ec & ->)%Hinv. rewrite Hpar. destruct (decide (c ∈ l)) as [Hcl|Hcl].
    + intros [= <-]. exists (exited p l proc_init ir). rewrite Hm, Ei. split; [done|].
      rewrite Hch, decide_False, decide_True by done. apply elem_of_app. left. by apply elem_of_reverse.
    + intros Eq. destruct (P2 _ _ _ Ec Eq) as (qr & Eqr & Hin). exists (exited p l q qr). rewrite Hm, Eqr. split; [done|].
      rewrite Hch. destruct (decide (q = p)) as [->|]; [destruct Hcl; unfold l; congruence|].
      case_decide; [|done]. apply elem_of_app. by right.
  - intros q qr' c (qr & Eq & ->)%Hinv. rewrite Hch. intros Hin.
    assert (c ∈ l ∧ q = proc_init ∨ c ∈ p_child qr ∧ q ≠ p) as [[Hcl ->]|[Hc Hqp]].
    { destruct (decide (q = p)) as [->|]; [by apply elem_of_nil in Hin|]. case_decide as Hqi; [|by right].
      apply elem_of_app in Hin as [Hin|Hin]; [left|by right]. rewrite elem_of_reverse in Hin. done. }
    + destruct (Hl _ Hcl) as (cr & Ec & _). exists (exited p l c cr). rewrite Hm, Ec. split; [done|]. by rewrite Hpar, decide_True.
    + destruct (P3 _ _ _ Eq Hc) as (cr & Ec & Ecq). exists (exited p l c cr). rewrite Hm, Ec. split; [done|].
      rewrite Hpar, decide_False; [done|]. intros Hcl. destruct (Hl _ Hcl) as (cr' & Ec' & Ecp). congruence.
  - intros q qr' (qr & Eq & ->)%Hinv. rewrite Hch. case_decide; [constructor|]. case_decide as Hqi; [|by eapply P4].
    apply list.NoDup_app. split_and!; [rewrite reverse_Permutation; by apply (P4 p)| |by eapply P4].
    intros c Hc Hc2. rewrite elem_of_reverse in Hc. destruct (Hl _ Hc) as (cr & Ec & Ecp). destruct (P3 _ _ _ Eq Hc2) as (cr' & Ec' & Ecq). congruence.
Qed.

Lemma proc_exit_ok refs s p pr ir : ps_ok refs s → ps_proc s !! p = Some pr → p_stat pr ≠ SIDL → p ≠ proc_init →
  ps_proc s !! proc_init = Some ir → p_stat ir ≠ SIDL → no_fork s pr →
  ∃ s', proc_exit jobstopped proc_init s p = Ok s' ∧ ps_ok refs s' ∧
    ∀ x, ps_proc s' !! x = exited p (p_child pr) x <$> ps_proc s !! x.
Proof.
  intros Hok Ep Hst Hpi Ei Hsti Hnf. pose proof Hok as [(act & Hi & Hact) Hr Hp Ha].
  assert (∃ s1, (if bool_decide (p_child pr = []) || bool_decide (p = proc_init) then Ok s
      else s0 ← pgdetach jobstopped p s p; s0 ← to_init proc_init s0 (p_child pr); upd_proc (Some p) (set_child []) s0) = Ok s1 ∧
    ps_inv act refs (λ _, 0) s1 ∧ practive s1 = practive s ∧ nproc s1 = nproc s ∧
    ∀ x, ps_proc s1 !! x = (λ r, if decide (x = p) then set_child [] (adopted (p_child pr) x r) else adopted (p_child pr) x r) <$> ps_proc s !! x)
    as (s1 & E1 & Hi1 & Ea1 & En1 & Ex1).
  { rewrite (bool_decide_false (p = proc_init)) by done. rewrite orb_false_r. case_bool_decide as Hc.
    - exists s. split_and!; try done. intros x. rewrite Hc. destruct (ps_proc s !! x) as [r|] eqn:Er; [|done]. simpl. f_equal.
      unfold adopted. destruct (decide (x ∈ [])) as [[]%elem_of_nil|_]. destruct (decide (x = p)) as [->|].
      + rewrite decide_False by done. assert (r = pr) as -> by congruence. destruct pr. simpl in *. by subst.
      + case_decide; [by destruct r|done].
    - unfold pgdetach. rewrite Ep. cbn [deref mbind res_bind].
      destruct (detach_children_ok act refs (λ _, 0) p p (p_child pr) s Hi) as (s2 & -> & Hi2 & Hk2).
      { intros c Hc'. destruct (po_parent _ Hp _ _ _ Ep Hc') as (cr & Ec & _). exists cr.
        destruct (po_kind _ Hp _ _ Ec) as (_ & _ & Hg & _). destruct (p_pgidp cr) as [g|] eqn:Eg; [by exists g|].
        destruct (Hnf c cr Hc' Ec). by apply Hg. }
      cbn [mbind res_bind]. destruct (to_init_ok act refs (λ _, 0) (p_child pr) s2 ir Hi2) as (s3 & -> & Hi3 & Ea3 & En3 & Ex3).
      { by rewrite (kp_proc _ _ Hk2). }
      { intros c Hc'. rewrite (kp_proc _ _ Hk2). destruct (po_parent _ Hp _ _ _ Ep Hc') as (cr & -> & _). done. }
      cbn [mbind res_bind]. rewrite (kp_proc _ _ Hk2) in Ex3.
      assert (ps_proc s3 !! p = Some (adopted (p_child pr) p pr)) as Ep3 by (rewrite Ex3, Ep; done).
      destruct (inv_upd_proc _ _ _ s3 p _ (set_child []) Hi3 Ep3) as (s4 & -> & Hi4 & Es4); [done| |done|].
      { intros q Eq. by apply (pi_parents _ _ _ _ Hi3 p _ q Ep3). }
      exists s4. split; [done|]. split; [done|]. rewrite Es4. simpl. rewrite Ea3, En3, (kp_active _ _ Hk2), (kp_nproc _ _ Hk2).
      split; [done|]. split; [done|]. intros x. destruct (decide (x = p)) as [->|].
      + by rewrite lookup_insert_eq, Ep.
      + rewrite lookup_insert_ne, Ex3 by done. done. }
  unfold proc_exit. rewrite Ep. cbn [deref mbind res_bind]. rewrite E1. cbn [mbind res_bind].
  assert (∃ p1, ps_proc s1 !! p = Some p1) as [p1 Ep1] by (rewrite Ex1, Ep; simpl; eauto).
  destruct (inv_upd_proc _ _ _ s1 p p1 (set_stat SZOMB) Hi1 Ep1) as (s2 & -> & Hi2 & Es2); [done| |done|].
  { intros q Eq. by apply (pi_parents _ _ _ _ Hi1 p p1). }
  assert (∀ x, ps_proc s2 !! x = exited p (p_child pr) x <$> ps_proc s !! x) as Hx.
  { intros x. rewrite Es2. simpl. unfold exited. destruct (decide (x = p)) as [->|].
    - rewrite lookup_insert_eq. rewrite Ex1, Ep in Ep1. simpl in Ep1. rewrite decide_True in Ep1 by done. injection Ep1 as <-.
      by rewrite Ep.
    - rewrite lookup_insert_ne, Ex1 by done. destruct (ps_proc s !! x); simpl; [|done]. by rewrite decide_False. }
  exists s2. split; [done|]. split; [|done]. split; [| done | |].
  - exists act. split; [done|]. intros y q. rewrite (Hact y q). setoid_rewrite Hx. split.
    + intros (r & Er & Ey). exists (exited p (p_child pr) q r). rewrite Er. split; [done|]. unfold exited, adopted. by repeat case_decide.
    + intros (r' & Er' & Ey). destruct (ps_proc s !! q) as [r|]; [|done]. injection Er' as <-. exists r. split; [done|].
      revert Ey. unfold exited, adopted. by repeat case_decide.
  - apply (procs_ok_exit (ps_proc s) _ p pr ir); done.
  - rewrite Es2. simpl. rewrite Ea1, En1. destruct Ha as (A1 & A2 & A3). split; [done|]. split; [|done].
    intros x. rewrite A2. specialize (Hx x). rewrite Es2 in Hx. simpl in Hx. rewrite Hx. by rewrite fmap_is_Some.
Qed.
End exits.

(** The critical sections under [pidlock].  [GSess] is [sess_create] by itself, as
    [setpgrp] calls it after it dropped the lock and took it again. *)
Inductive gop :=
  | GFork (pp cp pidp : Z) (over : bool)
  | GJoin (p cp : Z)
  | GAbort (p cp : Z)
  | GSess (pp sp : Z)
  | GSetpgid (cur pid pgid : Z)
  | GExit (p : Z)
  | GWait (p : Z)
  | GRef (p : Z)
  | GUnref (x : Z)
  | GSignal (x sig : Z).

Section system.
Context (jobstopped : psys → Z → bool) (proc_init : Z).

(** The tables after a section, with the references that drivers hold. *)
Definition do_gop (st : (Z → Z) * psys) (o : gop) : res ((Z → Z) * psys) :=
  let '(refs, s) := st in
  match o with
  | GFork pp cp pidp over => '(_, s) ← getproc s pp cp pidp over; Ok (refs, s)
  | GJoin p cp => s ← fork_join s p cp; Ok (refs, s)
  | GAbort p cp => s ← fork_abort s p cp; Ok (refs, s)
  | GSess pp sp => s ← sess_create s pp sp; Ok (refs, s)
  | GSetpgid cur pid pgid => '(_, s) ← setpgid s cur pid pgid; Ok (refs, s)
  | GExit p => s ← proc_exit jobstopped proc_init s p; Ok (refs, s)
  | GWait p => s ← freeproc proc_init s p; Ok (refs, s)
  | GRef p => '(x, s) ← proc_ref s p; x ← deref x; Ok (plus_at refs x 1, s)
  | GUnref x => s ← proc_unref s (Some x); Ok (plus_at refs x (-1), s)
  | GSignal x sig => '(_, s) ← proc_signal s (Some x) sig; Ok (refs, s)
  end.

(** A process that runs, and is not the first one. *)
Definition running (s : psys) (p : Z) : Prop := ∃ pr, ps_proc s !! p = Some pr ∧ p_stat pr ≠ SIDL ∧ p ≠ proc_sched.

Definition may_gop (st : (Z → Z) * psys) (o : gop) : Prop :=
  let '(refs, s) := st in
  match o with
  | GFork pp cp pidp _ => (∃ pr, ps_proc s !! pp = Some pr ∧ p_stat pr ≠ SIDL) ∧ ps_proc s !! cp = None ∧ ps_pid s !! pidp = None ∧
      Z.of_nat (size (ps_pid s)) < MAXPID - minpid s
  | GJoin p cp => ∃ pr c, ps_proc s !! p = Some pr ∧ p_stat pr ≠ SIDL ∧ ps_proc s !! cp = Some c ∧ p_stat c = SIDL ∧ p_parent c = Some p
  | GAbort p cp => ∃ pr c l, ps_proc s !! p = Some pr ∧ p_child pr = cp :: l ∧ ps_proc s !! cp = Some c ∧ p_stat c = SIDL ∧ cp ≠ proc_sched
  | GSess pp sp => running s pp ∧ ps_sess s !! sp = None
  | GSetpgid cur _ _ => ∃ pr, ps_proc s !! cur = Some pr ∧ p_stat pr ≠ SIDL ∧ no_fork s pr
  | GExit p => (∃ pr, ps_proc s !! p = Some pr ∧ p_stat pr ≠ SIDL ∧ no_fork s pr) ∧ p ≠ proc_init ∧
      ∃ ir, ps_proc s !! proc_init = Some ir ∧ p_stat ir ≠ SIDL
  | GWait p => (∃ pr q, ps_proc s !! p = Some pr ∧ p_stat pr = SZOMB ∧ p_child pr = [] ∧ p_parent pr = Some q) ∧
      p ≠ proc_sched ∧ p ≠ proc_init
  | GRef p => is_Some (ps_proc s !! p)
  | GUnref x | GSignal x _ => 1 ≤ refs x
  end.

Fixpoint may_run (st : (Z → Z) * psys) (os : list gop) : Prop :=
  match os with
  | [] => True
  | o :: os => may_gop st o ∧ ∀ st', do_gop st o = Ok st' → may_run st' os
  end.

Fixpoint do_run (st : (Z → Z) * psys) (os : list gop) : res ((Z → Z) * psys) :=
  match os with [] => Ok st | o :: os => st ← do_gop st o; do_run st os end.

Lemma do_gop_ok refs s o : ps_ok refs s → may_gop (refs, s) o →
  ∃ refs' s', do_gop (refs, s) o = Ok (refs', s') ∧ ps_ok refs' s'.
Proof.
  intros Hok Hm. destruct o; simpl in *.
  - destruct Hm as ((pr & Ep & Hst) & Ec & Ex & Hroom). destruct over.
    + destruct (getproc_over refs s pp cp pidp pr Hok Ep Ec Ex Hroom) as (s' & -> & Hok' & _). by exists refs, s'.
    + destruct (getproc_ok refs s pp cp pidp pr Hok Ep Hst Ec Ex Hroom) as [[_ ->]|(s' & c & -> & Hok' & _)]; [by exists refs, s|by exists refs, s'].
  - destruct Hm as (pr & c & Ep & Hst & Ec & Hc & _).
    destruct (fork_join_ok refs s p pr cp c Hok Ep Hst Ec Hc) as (s' & g & -> & Hok' & _). by exists refs, s'.
  - destruct Hm as (pr & c & l & Ep & El & Ec & Hc & Hb). destruct (po_parent _ (pk_procs _ _ Hok) _ _ cp Ep) as (c' & Ec' & Epar); [rewrite El; left|].
    assert (c' = c) as -> by congruence.
    destruct (fork_abort_ok refs s p pr cp c l Hok Ec Epar Ep El Hc Hb) as (s' & -> & Hok' & _). by exists refs, s'.
  - destruct Hm as ((pr & Ep & Hst & Hb) & Hnew).
    destruct (sess_create_ok refs s pp pr sp Hok Ep Hst Hb Hnew) as (s' & x & -> & Hok' & _). by exists refs, s'.
  - destruct Hm as (pr & Ep & Hst & Hnf).
    destruct (setpgid_ok refs s Hok cur pr pid pgid Ep Hst Hnf) as (e & s' & -> & Hok' & _). by exists refs, s'.
  - destruct Hm as ((pr & Ep & Hst & Hnf) & Hpi & ir & Ei & Hsti).
    destruct (proc_exit_ok jobstopped proc_init refs s p pr ir Hok Ep Hst Hpi Ei Hsti Hnf) as (s' & -> & Hok' & _). by exists refs, s'.
  - destruct Hm as ((pr & q & Ep & Hst & Ech & Epar) & Hb & Hpi).
    destruct (freeproc_ok refs proc_init s p pr q Hok Ep Epar Ech Hb Hpi) as (s' & qr & -> & Hok' & _). by exists refs, s'.
  - destruct Hm as [pr Ep]. destruct (proc_ref_ok refs s p pr Hok Ep) as (x & s' & _ & -> & Hok' & _). by exists (plus_at refs x 1), s'.
  - destruct (proc_unref_ok refs s x Hok Hm) as (s' & -> & Hok' & _). by exists (plus_at refs x (-1)), s'.
  - destruct (proc_signal_ok refs s x sig Hok Hm) as (pd & _ & -> & _). cbn [mbind res_bind].
    assert (∀ l, ps_ok refs (set_sigs l s)) as Hs.
    { intros l. destruct Hok as [(act & Hi & Hact) Hr Hp Ha]. split; try done. exists act. split; [by apply inv_sigs|done]. }
    destruct (pid_prinactive pd); [by exists refs, s|]. cbn [mbind res_bind]. eexists refs, _. split; [done|].
    repeat case_match; done.
Qed.

(** C27: Processes fork, join their groups, move to others, make sessions, exit and are
    waited for, and drivers take, use and release references, in any order: no routine
    uses a process, id or session that was freed or panics, every count is the number
    of holders, nothing that is held is freed and nothing that is not is kept; and
    [sess_create] may come at any time after [setpgrp] dropped its lock. *)
Theorem proc_tables_safe os refs s : ps_ok refs s → may_run (refs, s) os →
  ∃ refs' s', do_run (refs, s) os = Ok (refs', s') ∧ ps_ok refs' s'.
Proof.
  revert refs s. induction os as [|o os IH]; intros refs s Hok; [by exists refs, s|]. intros [Hm Hr].
  destruct (do_gop_ok refs s o Hok Hm) as (refs1 & s1 & E1 & Hok1). specialize (Hr _ E1). cbn [do_run].
  rewrite E1. cbn [mbind res_bind]. by apply IH.
Qed.
End system.

(** ** Boot *)

Lemma hash_lt h id : 0 < h → (∃ k, 0 ≤ k ∧ h = 2 ^ k) → 0 ≤ Z.land id (h - 1) < h.
Proof.
  intros Hh (k & Hk & ->). replace (2 ^ k - 1) with (Z.ones k) by (rewrite Z.ones_equiv; lia).
  rewrite Z.land_ones by done. apply Z.mod_pos_bound. lia.
Qed.

Lemma free_entries_lookup v i e : free_entries v !! i = Some e →
  (Z.of_nat i < v - 1) ∧ e = PeNext (if Z.of_nat i + 1 =? v - 1 then None else Some (Z.of_nat i + 2)).
Proof.
  unfold free_entries. rewrite list_lookup_fmap. intros (j & Ej & ->)%fmap_Some_1.
  apply lookup_seq in Ej as [-> Hj]. split; [lia|].
  replace (Z.of_nat (1 + i)) with (Z.of_nat i + 1) by lia. by replace (Z.of_nat i + 1 + 1) with (Z.of_nat i + 2) by lia.
Qed.

Lemma boot_free_chain v : 2 ≤ v → ∀ n i, 1 ≤ i → i + Z.of_nat n = v →
  free_chain (PeProc proc_sched :: free_entries v) (if i =? v then None else Some i) (seqZ i (Z.of_nat n)).
Proof.
  intros Hv n. induction n as [|n IH]; intros i Hi E.
  - simpl. rewrite Z.add_0_r in E. by rewrite E, Z.eqb_refl.
  - rewrite (proj2 (Z.eqb_neq i v)) by lia. rewrite seqZ_cons by lia. rewrite Nat2Z.inj_succ, Z.pred_succ. cbn [free_chain].
    split; [done|]. split; [lia|]. exists (if i + 1 =? v then None else Some (i + 1)). split; [|rewrite <- Z.add_1_r; apply IH; lia].
    destruct (Z.to_nat i) as [|j] eqn:Ej; [lia|]. simpl. unfold free_entries. rewrite list_lookup_fmap.
    rewrite lookup_seq_lt by lia. cbn [fmap option_fmap option_map]. replace (Z.of_nat (1 + j)) with i by lia.
    by destruct (Z.eqb_spec (i + 1) v), (Z.eqb_spec i (v - 1)); try lia.
Qed.

Lemma boot_hash h b l : ([pid0] :: replicate h []) !! b = Some l → l = if decide (b = 0%nat) then [pid0] else [].
Proof. destruct b as [|b]; [by intros [= <-]|]. simpl. intros E. apply lookup_replicate in E as [-> _]. done. Qed.

(** The tables at boot are in order. *)
Lemma boot_tables v k : 2 ≤ v → 0 ≤ k < 31 → ps_ok (λ _, 0) (pid_init v (2 ^ k)).
Proof.
  intros Hv Hk. assert (0 < 2 ^ k) as H2 by lia.
  assert (∀ x p, ps_pid (pid_init v (2 ^ k)) !! x = Some p → x = pid0 ∧ p = MkPid false true 0 0 (Some proc_sched) 3) as Hpid.
  { intros x p. simpl. by intros [<- <-]%lookup_singleton_Some. }
  assert (∀ x p, ps_proc (pid_init v (2 ^ k)) !! x = Some p →
    x = proc_sched ∧ p = MkProc (Some pid0) (Some pid0) None None None [] (Some session0) SRUN false) as Hproc.
  { intros x p. simpl. by intros [<- <-]%lookup_singleton_Some. }
  assert (∀ x p, ps_sess (pid_init v (2 ^ k)) !! x = Some p → x = session0 ∧ p = MkSess 1 (Some pid0)) as Hsess.
  { intros x p. simpl. by intros [<- <-]%lookup_singleton_Some. }
  assert (is_group (pid_init v (2 ^ k)) pid0 [proc_sched]) as Hgrp.
  { eexists. split; [apply lookup_singleton_eq|]. split.
    - split; [done|]. eexists. split; [apply lookup_singleton_eq|]. done.
    - split; [apply NoDup_singleton|]. intros x. rewrite list_elem_of_singleton. split.
      + intros ->. eexists. split; [apply lookup_singleton_eq|done].
      + by intros (p & [-> _]%Hproc & _). }
  split; [|done| |].
  - exists {[pid0 := proc_sched]}. split.
    2: { intros x p. rewrite lookup_singleton_Some. split.
         - intros [<- <-]. eexists. split; [apply lookup_singleton_eq|done].
         - intros (pr & [-> ->]%Hproc & [= <-]). done. }
    split; try done.
    + split; try done.
      * exists k. split; [lia|]. unfold pid_hashsz. cbn [pidhash pid_init length]. rewrite length_replicate. lia.
      * intros b l E. apply boot_hash in E as ->. case_decide; [apply NoDup_singleton|constructor].
      * intros b l x E. apply boot_hash in E as ->. unfold HASHPID. split.
        -- case_decide as Eb; [|by intros ?%elem_of_nil]. intros ->%list_elem_of_singleton. eexists.
           split; [apply lookup_singleton_eq|]. by rewrite Eb.
        -- intros (p & [-> ->]%Hpid & <-). left.
      * by intros x y p q [-> _]%Hpid [-> _]%Hpid _.
      * by intros x p [-> ->]%Hpid.
      * exists (seqZ 1 (v - 1)). split; [|split; [apply NoDup_seqZ|]].
        -- pose proof (boot_free_chain v Hv (Z.to_nat (v - 1)) 1 ltac:(lia) ltac:(lia)) as H.
           rewrite Z2Nat.id in H by lia. rewrite (proj2 (Z.eqb_neq 1 v)) in H by lia. exact H.
        -- intros [|i] n; [done|]. simpl. intros [Hi _]%free_entries_lookup. apply elem_of_seqZ. lia.
      * intros [|i] p; simpl; [|by intros [_ ?]%free_entries_lookup]. intros [= <-]. exists pid0. eexists.
        split; [apply lookup_singleton_eq|]. split; [apply lookup_singleton_eq|done].
      * intros x p [<- <-]%lookup_singleton_Some. eexists. split; [apply lookup_singleton_eq|done].
      * intros x p [-> ->]%Hpid. rewrite lookup_singleton_eq. done.
      * by intros x y p [<- _]%lookup_singleton_Some [<- _]%lookup_singleton_Some.
    + intros g gp [-> _]%Hpid. by exists [proc_sched].
    + intros p pr g [-> ->]%Hproc [= <-]. simpl. by rewrite lookup_singleton_eq.
    + by intros x p q [-> ->]%Hproc.
    + intros p pr x [-> ->]%Hproc [= <-]. simpl. by rewrite lookup_singleton_eq.
    + intros x se [-> ->]%Hsess. exists pid0. simpl. by rewrite lookup_singleton_eq.
    + intros x pd [-> ->]%Hpid. by vm_compute.
    + intros x se [-> ->]%Hsess. by vm_compute.
    + eexists. split; [apply lookup_singleton_eq|done].
  - split.
    + intros p pr [-> ->]%Hproc. simpl. split_and!; [done|done|done|done].
    + by intros c cr q [-> ->]%Hproc.
    + intros q qr c [-> ->]%Hproc. by intros ?%elem_of_nil.
    + intros q qr [-> ->]%Hproc. constructor.
  - split; [apply NoDup_singleton|]. split; [|done]. intros x. simpl. rewrite list_elem_of_singleton. split.
    + intros ->. by rewrite lookup_singleton_eq.
    + intros [p [<- _]%lookup_singleton_Some]. done.
Qed.

(** ** Runs from boot *)

(** A run whose sections are computed one by one. *)
Lemma may_run_step js init st o st1 os :
  may_gop init st o → do_gop js init st o = Ok st1 → may_run js init st1 os → may_run js init st (o :: os).
Proof. intros Hm E Hr. split; [done|]. intros st' E'. rewrite E in E'. by injection E' as <-. Qed.

Definition no_stops : psys → Z → bool := λ _ _, false.

(** The first process makes init (10), which makes a shell (11), with a driver's reference
    to it; the shell starts a session, exits and is waited for. *)
Definition boot_run : list gop :=
  [GFork 0 10 100 false; GJoin 0 10; GFork 10 11 101 false; GJoin 10 11; GSess 11 20; GRef 11;
   GFork 11 12 102 false; GAbort 11 12; GExit 11; GWait 11; GSignal 101 9; GUnref 101].

Ltac run_step :=
  eapply may_run_step;
  [ cbn [may_gop]; unfold running, no_fork, is_Some;
    repeat (eexists || split); try (vm_compute; reflexivity); try (vm_compute; discriminate); try done;
    try (by intros ? ? ?%elem_of_nil)
  | vm_compute; reflexivity | ].

Lemma proc_tables_safe_witness :
  ∃ refs s, do_run no_stops 10 (λ _, 0, pid_init 8 4) boot_run = Ok (refs, s) ∧ ps_ok refs s.
Proof.
  apply (proc_tables_safe no_stops 10 boot_run (λ _, 0) (pid_init 8 4)); [exact (boot_tables 8 2 ltac:(lia) ltac:(lia))|].
  unfold boot_run. do 12 run_step. exact I.
Defined.
