(* ===== verification/PgrpSession.v ===== *)
(** * A process group lies in one session; edges of the process tables

    With [setpgrp] taken as one critical section, the processes of a group are in one session.
    Then new ids, what is seen of a process that fork is making, what happens when another
    process comes between the two critical sections of [setpgrp], and the other ways in which
    the code departs from what its comments and its other routines expect. *)

From S2P Require Import Prelude Pid PidProps Pgrp PgrpProps PgrpInv PgrpOps PgrpThms.

(** Members of one group are in one session, that of the process whose id the group has;
    and a child that fork is making is in the session of its parent. *)
Record one_session (m : gmap Z proc) : Prop := {
  os_group p q pr qr g : m !! p = Some pr → m !! q = Some qr → p_pgidp pr = Some g → p_pgidp qr = Some g → p_sessp pr = p_sessp qr;
  os_leader t q tr qr g : m !! t = Some tr → m !! q = Some qr → p_pidp tr = Some g → p_pgidp qr = Some g → p_sessp tr = p_sessp qr;
  os_idle c q cr qr : m !! c = Some cr → m !! q = Some qr → p_stat cr = SIDL → p_parent cr = Some q → p_sessp cr = p_sessp qr
}.

Lemma one_session_sub m m' : one_session m →
  (∀ x r', m' !! x = Some r' → ∃ r, m !! x = Some r ∧ p_pidp r' = p_pidp r ∧ p_pgidp r' = p_pgidp r ∧ p_sessp r' = p_sessp r ∧
    (p_stat r' = SIDL → p_stat r = SIDL ∧ p_parent r' = p_parent r)) → one_session m'.
Proof.
  intros [O1 O2 O3] H. split.
  - intros p q pr' qr' g (pr & Ep & ? & ? & ? & _)%H (qr & Eq & ? & ? & ? & _)%H ? ?.
    assert (p_sessp pr = p_sessp qr) by (apply (O1 p q pr qr g); congruence). congruence.
  - intros p q pr' qr' g (pr & Ep & ? & ? & ? & _)%H (qr & Eq & ? & ? & ? & _)%H ? ?.
    assert (p_sessp pr = p_sessp qr) by (apply (O2 p q pr qr g); congruence). congruence.
  - intros p q pr' qr' (pr & Ep & ? & ? & ? & Hi)%H (qr & Eq & ? & ? & ? & _)%H Hs ?. destruct (Hi Hs) as [? ?].
    assert (p_sessp pr = p_sessp qr) by (apply (O3 p q pr qr); congruence). congruence.
Qed.

Lemma one_session_view m m' : same_view m' m → one_session m → one_session m'.
Proof.
  intros Hv H. eapply one_session_sub; [done|]. intros x r' Er'. destruct (view_lookup _ _ _ _ Hv Er') as (r & Er & Ev). view Ev.
  exists r. split_and!; try congruence. intros Hs. split; congruence.
Qed.

(** A process in no group and with no child being made enters [g], whose members and
    leader are in session [y]. *)
Lemma one_session_enter m t tr tr' g : one_session m → m !! t = Some tr → p_pidp tr' = p_pidp tr → p_pgidp tr' = Some g →
  p_stat tr' ≠ SIDL → (p_sessp tr' = p_sessp tr ∨ ∀ c cr, m !! c = Some cr → p_parent cr = Some t → p_stat cr ≠ SIDL) →
  (∀ q qr, m !! q = Some qr → q ≠ t → p_pgidp qr = Some g ∨ p_pidp qr = Some g → p_sessp qr = p_sessp tr') →
  (∀ q qr, m !! q = Some qr → q ≠ t → p_pgidp qr = p_pidp tr → p_sessp qr = p_sessp tr') →
  one_session (<[t := tr']> m).
Proof.
  intros [O1 O2 O3] Et Epid Epg Hst Hc Hm Hl. split.
  - intros p q pr qr g'. rewrite !lookup_insert_Some. intros [(<- & <-)|[? Ep]] [(<- & <-)|[? Eq]] E1 E2; [done| | |by eapply (O1 p q)].
    + symmetry. apply (Hm q qr); [done|done|left; congruence].
    + apply (Hm p pr); [done|done|left; congruence].
  - intros p q pr qr g'. rewrite !lookup_insert_Some. intros [(<- & <-)|[? Ep]] [(<- & <-)|[? Eq]] E1 E2; [done| | |by eapply (O2 p q)].
    + symmetry. apply (Hl q qr); [done|done|congruence].
    + apply (Hm p pr); [done|done|right; congruence].
  - intros c q cr qr. rewrite !lookup_insert_Some. intros [(<- & <-)|[? Ec]] Hq Hs Epar; [done|].
    destruct Hq as [(<- & <-)|[? Eq]]; [|by eapply (O3 c q)].
    destruct Hc as [->|Hc]; [by eapply (O3 c t)|by destruct (Hc c cr)].
Qed.

(** ** What [wants_session] finds out *)

Lemma pgmembers_false refs s pgid x xd : ps_ok refs s → ps_pid s !! x = Some xd → pid_id xd = pgid → pgmembers s pgid = Ok false →
  ∀ q qr, ps_proc s !! q = Some qr → p_pgidp qr = Some x → p_pidp qr = Some x.
Proof.
  intros Hok Ex Eid. unfold pgmembers. destruct (pgfind_ok refs s Hok pgid) as (r & -> & Hr). cbn [mbind res_bind].
  destruct r as [q0|].
  - destruct Hr as (qr0 & y & yd & l & _ & _ & Eyd & Eyid & Hgr).
    assert (y = x) as -> by (apply (ids_inj refs s Hok _ _ _ _ Eyd Ex); congruence).
    pose proof Hgr as (gd & Egd & Hl & Hn & Hm). assert (gd = xd) as -> by congruence.
    destruct Hl as (Ehd & Hl). assert (members s (Some q0) = Ok (q0 :: l)) as ->.
    { apply (members_list s None); [by split|done]. }
    cbn [mbind res_bind]. set (go := fix go (l : list Z) : res bool := _).
    assert (∀ k, (∀ z, z ∈ k → in_group (ps_proc s) x z) → go k = Ok false → ∀ z zr, z ∈ k → ps_proc s !! z = Some zr → p_pidp zr = Some x) as Hgo.
    { induction k as [|z k IH]; intros Hk Eg w wr Hw Ew; [by apply elem_of_nil in Hw|]. simpl in Eg.
      destruct (Hk z ltac:(left)) as (zr & Ez & _). rewrite Ez in Eg. cbn [deref mbind res_bind] in Eg.
      destruct (pidp_ok refs s Hok z zr Ez) as (v & vd & Ev & Evd & _). rewrite Ev, (get_pid_ok _ _ _ Evd) in Eg.
      cbn [mbind res_bind] in Eg. destruct (Z.eqb_spec (pid_id vd) pgid) as [E|]; [|done]. simpl in Eg.
      apply elem_of_cons in Hw as [->|Hw]; [|apply (IH (λ z Hz, Hk z ltac:(by right)) Eg w wr Hw Ew)].
      assert (wr = zr) as -> by congruence. rewrite Ev. f_equal. apply (ids_inj refs s Hok _ _ _ _ Evd Ex). congruence. }
    intros Eg q qr Eq Epg. eapply (Hgo (q0 :: l)); [by intros z; apply Hm|exact Eg|apply Hm; by exists qr|done].
  - intros _ q qr Eq Epg. destruct (Hr q qr x xd Eq Epg Ex Eid).
Qed.

Lemma wants_session_alone refs s pp pr flag x : ps_ok refs s → ps_proc s !! pp = Some pr → p_pidp pr = Some x →
  wants_session s pp flag = Ok (0, true) → ∀ q qr, ps_proc s !! q = Some qr → p_pgidp qr = Some x → q = pp.
Proof.
  intros Hok Ep Ex Ew q qr Eq Eg. destruct (pidp_ok refs s Hok pp pr Ep) as (x' & xd & Ex' & Exd & _).
  assert (x' = x) as -> by congruence.
  assert (pgmembers s (pid_id xd) = Ok false) as Hp.
  { unfold wants_session in Ew. rewrite Ep in Ew. cbn [deref mbind res_bind] in Ew. unfold p_pid in Ew.
    rewrite Ex, (get_pid_ok _ _ _ Exd) in Ew. cbn [mbind res_bind] in Ew. destruct (flag =? 1).
    - destruct (get_sess s (p_sessp pr)); [|done..]. cbn [mbind res_bind] in Ew. case_bool_decide; [done|].
      destruct (pgmembers s (pid_id xd)) as [[]| |]; done.
    - case_bool_decide; [done|]. destruct (pgmembers s (pid_id xd)) as [[]| |]; done. }
  pose proof (pgmembers_false refs s _ x xd Hok Exd eq_refl Hp q qr Eq Eg) as Eqx.
  destruct Hok as [(act & Hi & Hact) _ _ _].
  assert (act !! x = Some q) as E1 by (apply Hact; by exists qr).
  assert (act !! x = Some pp) as E2 by (apply Hact; by exists pr). congruence.
Qed.

(** The section of [setpgrp] with its test, taken as one. *)
Definition alone (s : psys) (o : gop) : Prop :=
  match o with
  | GSess pp _ => (∃ flag, wants_session s pp flag = Ok (0, true)) ∧ ∀ pr, ps_proc s !! pp = Some pr → no_fork s pr
  | _ => True
  end.

(** ** Each section keeps groups in sessions *)

Lemma one_session_fork m pp ppr cp c : one_session m → m !! pp = Some ppr → m !! cp = None →
  p_stat c = SIDL → p_parent c = Some pp → p_sessp c = p_sessp ppr → p_pgidp c = None →
  (∀ g, p_pidp c = Some g → ∀ q qr, m !! q = Some qr → p_pgidp qr ≠ Some g) →
  (∀ x xr, m !! x = Some xr → p_parent xr ≠ Some cp) →
  one_session (<[pp := set_child (cp :: p_child ppr) ppr]> (<[cp := c]> m)).
Proof.
  intros [O1 O2 O3] Epp Ecp Hs Epar Eses Epg Hnew Hnopar.
  assert (pp ≠ cp) as Hne by congruence.
  assert (∀ x r', <[pp := set_child (cp :: p_child ppr) ppr]> (<[cp := c]> m) !! x = Some r' →
    (x = cp ∧ r' = c) ∨ ∃ r, m !! x = Some r ∧ x ≠ cp ∧ p_pidp r' = p_pidp r ∧ p_pgidp r' = p_pgidp r ∧ p_sessp r' = p_sessp r ∧
      p_stat r' = p_stat r ∧ p_parent r' = p_parent r) as H.
  { intros x r'. rewrite !lookup_insert_Some. intros [(<- & <-)|[? [(<- & <-)|[? E]]]]; [right; by exists ppr|by left|right].
    exists r'. done. }
  split.
  - intros p q pr' qr' g [(-> & ->)|(pr & Ep & ? & ? & ? & ? & _)]%H [(-> & ->)|(qr & Eq & ? & ? & ? & ? & _)]%H E1 E2; try congruence.
    assert (p_sessp pr = p_sessp qr) by (apply (O1 p q pr qr g); congruence). congruence.
  - intros p q pr' qr' g [(-> & ->)|(pr & Ep & ? & ? & ? & ? & _)]%H [(-> & ->)|(qr & Eq & ? & ? & ? & ? & _)]%H E1 E2; try congruence.
    + destruct (Hnew g E1 q qr Eq). congruence.
    + assert (p_sessp pr = p_sessp qr) by (apply (O2 p q pr qr g); congruence). congruence.
  - intros x q xr' qr' [(-> & ->)|(xr & Ex & ? & ? & ? & ? & ? & ?)]%H [(-> & ->)|(qr & Eq & ? & ? & ? & ? & ? & ?)]%H E1 E2; try congruence.
    + destruct (Hnopar x xr Ex). congruence.
    + assert (p_sessp xr = p_sessp qr) by (apply (O3 x q xr qr); congruence). congruence.
Qed.

Lemma one_session_delete m p q qr l : one_session m → m !! q = Some qr → one_session (delete p (<[q := set_child l qr]> m)).
Proof.
  intros H Eq. eapply one_session_sub; [done|]. intros x r'. rewrite lookup_delete_Some, lookup_insert_Some.
  intros [_ [(<- & <-)|[_ E]]]; [by exists qr|by exists r'].
Qed.

Section sessions.
Context (jobstopped : psys → Z → bool) (proc_init : Z).

Lemma session_gop refs s o : ps_ok refs s → one_session (ps_proc s) → may_gop proc_init (refs, s) o → alone s o →
  ∃ refs' s', do_gop jobstopped proc_init (refs, s) o = Ok (refs', s') ∧ ps_ok refs' s' ∧ one_session (ps_proc s').
Proof.
  intros Hok Ho Hm Hal. pose proof (pk_procs _ _ Hok) as Hp. destruct o; simpl in Hm |- *.
  - destruct Hm as ((pr & Ep & Hst) & Ec & Ex & Hroom). destruct over.
    + destruct (getproc_over refs s pp cp pidp pr Hok Ep Ec Ex Hroom) as (s' & -> & Hok' & E'). exists refs, s'. by rewrite E'.
    + destruct (getproc_ok refs s pp cp pidp pr Hok Ep Hst Ec Ex Hroom) as [[_ ->]|(s' & c & -> & Hok' & E' & C1 & C2 & C3 & C4 & C5)];
        [by exists refs, s|]. exists refs, s'. split; [done|]. split; [done|]. rewrite E'.
      apply one_session_fork; try done.
      * intros g Eg q qr Eq Eqg. destruct (pk_inv _ _ Hok) as (act & Hi & _).
        destruct (pi_pgidp _ _ _ _ Hi _ _ _ Eq Eqg) as [? ?]. congruence.
      * intros x xr Exr Epar. destruct (po_child _ Hp _ _ _ Exr Epar) as (? & ? & _). congruence.
  - destruct Hm as (pr & c & Ep & Hst & Ec & Hc & Epar).
    destruct (fork_join_ok refs s p pr cp c Hok Ep Hst Ec Hc) as (s' & g & -> & Hok' & Eg & Hv). exists refs, s'.
    split; [done|]. split; [done|]. eapply one_session_view; [exact Hv|].
    assert (p_sessp c = p_sessp pr) as Es by (eapply (os_idle _ Ho cp p); done).
    destruct (pk_inv _ _ Hok) as (act & Hi & _). destruct (po_kind _ Hp _ _ Ec) as ([z Ez] & _).
    apply (one_session_enter _ _ c _ g Ho Ec); try done.
    + by left.
    + intros q qr Eq Hne [Eqg|Eqg]; simpl; rewrite Es; [eapply (os_group _ Ho q p)|eapply (os_leader _ Ho q p)]; done.
    + intros q qr Eq Hne Eqg. simpl. symmetry. eapply (os_leader _ Ho cp q); [done|done|done|congruence].
  - destruct Hm as (pr & c & l & Ep & El & Ec & Hc & Hb). destruct (po_parent _ Hp _ _ cp Ep) as (c' & Ec' & Epar); [rewrite El; left|].
    assert (c' = c) as -> by congruence.
    destruct (fork_abort_ok refs s p pr cp c l Hok Ec Epar Ep El Hc Hb) as (s' & -> & Hok' & Hv). exists refs, s'.
    split; [done|]. split; [done|]. eapply one_session_view; [exact Hv|]. by apply one_session_delete.
  - destruct Hm as ((pr & Ep & Hst & Hb) & Hnew). destruct Hal as ((flag & Hw) & Hnf).
    destruct (sess_create_ok refs s pp pr sp Hok Ep Hst Hb Hnew) as (s' & x & -> & Hok' & Ex & Hv). exists refs, s'.
    split; [done|]. split; [done|]. eapply one_session_view; [exact Hv|].
    assert (∀ q qr, ps_proc s !! q = Some qr → q ≠ pp → p_pgidp qr = Some x → False) as Halone.
    { intros q qr Eq Hne Eg. apply Hne. by eapply (wants_session_alone refs s pp pr flag x). }
    apply (one_session_enter _ _ pr _ x Ho Ep); try done.
    + right. intros c cr Ec Epar. destruct (po_child _ Hp _ _ _ Ec Epar) as (pr' & Ep' & Hin). assert (pr' = pr) as -> by congruence.
      by eapply (Hnf pr).
    + intros q qr Eq Hne [Eg|Eg]; [by destruct (Halone q qr)|]. destruct (pk_inv _ _ Hok) as (act & _ & Hact).
      assert (act !! x = Some q) by (apply Hact; by exists qr). assert (act !! x = Some pp) by (apply Hact; by exists pr). congruence.
    + intros q qr Eq Hne Eg. destruct (Halone q qr Eq Hne). congruence.
  - destruct Hm as (pr & Ep & Hst & Hnf).
    destruct (setpgid_ok refs s Hok cur pr pid pgid Ep Hst Hnf) as (e & s' & -> & Hok' & _ & Hmv). exists refs, s'.
    split; [done|]. split; [done|]. destruct Hmv as [->|(t & tr & g & Et & Ets & Hrel & Hng & Hv & Hg)]; [done|].
    eapply one_session_view; [exact Hv|].
    assert (p_stat tr ≠ SIDL) as Htst.
    { destruct Hrel as [->|[Hin _]]; [congruence|by eapply Hnf]. }
    apply (one_session_enter _ _ tr _ g Ho Et); try done.
    + by left.
    + intros q qr Eq Hne Hq. simpl. destruct Hg as [Hg|(w & wr & Ew & Ewg & Ews)].
      * destruct Hq as [Hq|Hq]; [symmetry; eapply (os_leader _ Ho t q); done|].
        destruct (pk_inv _ _ Hok) as (act & _ & Hact).
        assert (act !! g = Some q) by (apply Hact; by exists qr). assert (act !! g = Some t) by (apply Hact; by exists tr). congruence.
      * simpl. rewrite <- Ews. destruct Hq as [Hq|Hq]; [eapply (os_group _ Ho q w); done|eapply (os_leader _ Ho q w); done].
    + intros q qr Eq Hne Eqg. destruct (po_kind _ Hp _ _ Et) as ([z Ez] & _). simpl. symmetry.
      eapply (os_leader _ Ho t q); [done|done|done|congruence].
  - destruct Hm as ((pr & Ep & Hst & Hnf) & Hpi & ir & Ei & Hsti).
    destruct (proc_exit_ok jobstopped proc_init refs s p pr ir Hok Ep Hst Hpi Ei Hsti Hnf) as (s' & -> & Hok' & Hx). exists refs, s'.
    split; [done|]. split; [done|]. eapply one_session_sub; [done|]. intros x r' Er'. rewrite Hx in Er'.
    destruct (ps_proc s !! x) as [r|] eqn:Er; [|done]. injection Er' as <-. exists r. split; [done|]. unfold exited, adopted.
    destruct (decide (x ∈ p_child pr)) as [Hin|Hin]; [|by repeat case_decide].
    pose proof (Hnf x r Hin Er). by repeat case_decide.
  - destruct Hm as ((pr & q & Ep & Hst & Ech & Epar) & Hb & Hpi).
    destruct (freeproc_ok refs proc_init s p pr q Hok Ep Epar Ech Hb Hpi) as (s' & qr & -> & Hok' & Eq & Hv). exists refs, s'.
    split; [done|]. split; [done|]. eapply one_session_view; [exact Hv|]. by apply one_session_delete.
  - destruct Hm as [pr Ep]. destruct (proc_ref_ok refs s p pr Hok Ep) as (x & s' & _ & -> & Hok' & E'). exists (plus_at refs x 1), s'. by rewrite E'.
  - destruct (proc_unref_ok refs s x Hok Hm) as (s' & -> & Hok' & E'). exists (plus_at refs x (-1)), s'. by rewrite E'.
  - destruct (do_gop_ok jobstopped proc_init refs s (GSignal x sig) Hok Hm) as (refs' & s' & E & Hok'). exists refs', s'. split; [done|].
    split; [done|]. destruct (proc_signal_ok refs s x sig Hok Hm) as (pd & _ & E' & _). simpl in E. rewrite E' in E. cbn [mbind res_bind] in E.
    destruct (pid_prinactive pd); injection E as <- <-; [done|]. by repeat case_match.
Qed.

Fixpoint alone_run (st : (Z → Z) * psys) (os : list gop) : Prop :=
  match os with
  | [] => True
  | o :: os => (may_gop proc_init st o ∧ alone st.2 o) ∧ ∀ st', do_gop jobstopped proc_init st o = Ok st' → alone_run st' os
  end.

(** C28: With [setpgrp] as one critical section, the processes of a group are always in
    one session, that of the process with the group's id, whatever is forked, moved,
    made a session, exited and waited for. *)
Theorem group_in_one_session os refs s : ps_ok refs s → one_session (ps_proc s) → alone_run (refs, s) os →
  ∃ refs' s', do_run jobstopped proc_init (refs, s) os = Ok (refs', s') ∧ one_session (ps_proc s').
Proof.
  revert refs s. induction os as [|o os IH]; intros refs s Hok Ho; [by exists refs, s|]. intros [[Hm Ha] Hr].
  destruct (session_gop refs s o Hok Ho Hm Ha) as (refs1 & s1 & E1 & Hok1 & Ho1). specialize (Hr _ E1). cbn [do_run].
  rewrite E1. cbn [mbind res_bind]. by apply IH.
Qed.
End sessions.

(** ** Runs from boot *)

Lemma alone_run_step js init st o st1 os :
  may_gop init st o → alone st.2 o → do_gop js init st o = Ok st1 → alone_run js init st1 os → alone_run js init st (o :: os).
Proof. intros Hm Ha E Hr. split; [done|]. intros st' E'. rewrite E in E'. by injection E' as <-. Qed.

Lemma boot_one_session v h : one_session (ps_proc (pid_init v h)).
Proof.
  split; simpl.
  - by intros p q pr qr g [_ <-]%lookup_singleton_Some [_ <-]%lookup_singleton_Some.
  - by intros p q pr qr g [_ <-]%lookup_singleton_Some [_ <-]%lookup_singleton_Some.
  - by intros c q cr qr [_ <-]%lookup_singleton_Some.
Qed.

(** Init (10) makes two shells; one leads a group, the other joins it and then starts a
    session; the first is moved back, exits and is waited for. *)
Definition session_run : list gop :=
  [GFork 0 10 100 false; GJoin 0 10; GSess 10 20; GFork 10 11 101 false; GJoin 10 11; GFork 10 12 102 false; GJoin 10 12;
   GSetpgid 11 0 0; GSetpgid 12 0 2; GSess 12 21; GSetpgid 10 2 1; GExit 11; GWait 11].

(** [no_fork], computed. *)
Definition no_forkb (s : psys) (pr : proc) : bool :=
  forallb (λ c, match ps_proc s !! c with Some cr => negb (bool_decide (p_stat cr = SIDL)) | None => true end) (p_child pr).

Lemma no_forkb_ok s pr : no_forkb s pr = true → no_fork s pr.
Proof.
  unfold no_forkb. rewrite forallb_forall. intros H c cr Hin Ec. apply list_elem_of_In in Hin. specialize (H c Hin). rewrite Ec in H.
  by apply negb_true_iff, bool_decide_eq_false in H.
Qed.

Lemma alone_sess s pp sp flag : wants_session s pp flag = Ok (0, true) →
  match ps_proc s !! pp with Some pr => no_forkb s pr | None => true end = true → alone s (GSess pp sp).
Proof. intros Hw H. split; [by exists flag|]. intros pr E. rewrite E in H. by apply no_forkb_ok. Qed.

Ltac session_step :=
  eapply alone_run_step;
  [ cbn [may_gop]; unfold running, is_Some; repeat (eexists || split);
    try (apply no_forkb_ok); try (vm_compute; reflexivity); try (vm_compute; discriminate); try done
  | first [ exact I | apply (alone_sess _ _ _ 1); vm_compute; reflexivity ]
  | vm_compute; reflexivity | ].

Lemma group_in_one_session_witness :
  ∃ refs s, do_run no_stops 10 (λ _, 0, pid_init 8 4) session_run = Ok (refs, s) ∧ one_session (ps_proc s).
Proof.
  apply (group_in_one_session no_stops 10 session_run (λ _, 0) (pid_init 8 4));
    [exact (boot_tables 8 2 ltac:(lia) ltac:(lia))|apply boot_one_session|].
  unfold session_run. do 13 session_step. exact I.
Defined.

(** ** New ids *)

Lemma getproc_pids s pp cp pidp newpid s1 r s' :
  pid_assign (set_procs (<[cp := new_proc]> (ps_proc s)) s) cp pidp = Ok (newpid, s1) → newpid ≠ -1 →
  getproc s pp cp pidp false = Ok (r, s') → ps_pid s' = ps_pid s1.
Proof.
  intros E1 Hn. unfold getproc. rewrite E1. cbn [mbind res_bind]. rewrite (proj2 (Z.eqb_neq newpid (-1))) by done.
  unfold SESS_HOLD, upd_proc. intros H.
  repeat (match type of H with context [deref ?x] => destruct x; cbn [deref mbind res_bind] in H; [|done] end).
  injection H as _ <-. done.
Qed.

(** C29: As long as an id is free, the search of [pid_assign] ends, with an id that no
    structure has; and the new process is the one that [prfind] finds under it. *)
Theorem getproc_new_id refs s pp ppr cp pidp : ps_ok refs s → ps_proc s !! pp = Some ppr → p_stat ppr ≠ SIDL →
  ps_proc s !! cp = None → ps_pid s !! pidp = None → procentfree s ≠ None →
  Z.of_nat (size (ps_pid s)) < MAXPID - minpid s →
  ∃ id s1 s', pid_assign (set_procs (<[cp := new_proc]> (ps_proc s)) s) cp pidp = Ok (id, s1) ∧
    getproc s pp cp pidp false = Ok (0, s') ∧ minpid s ≤ id < MAXPID ∧
    (∀ x p, ps_pid s !! x = Some p → pid_id p ≠ id) ∧ prfind s' id = Ok (Some cp).
Proof.
  intros Hok Epp Hst Ecp Epid Hf Hroom. destruct (procentfree s) as [slot|] eqn:Ef; [|done]. clear Hf.
  destruct (getproc_ok refs s pp cp pidp ppr Hok Epp Hst Ecp Epid Hroom) as [[? ?]|(s' & c & E' & Hok' & Ep' & _ & _ & _ & Ec & _)]; [congruence|].
  pose proof Hok as [(act & Hi & Hact) _ _ _].
  assert (∀ x, act !! x ≠ Some cp) as Hcp. { intros x (pr & E & _)%Hact. congruence. }
  destruct (pid_assign_inv act refs (λ _, 0) (set_procs (<[cp := new_proc]> (ps_proc s)) s) cp new_proc pidp slot)
    as (id & s1 & E1 & Hr & Hu & _ & Ha); try done; [by apply inv_new_proc|apply lookup_insert_eq|].
  exists id, s1, s'. split; [done|]. split; [done|]. split; [done|]. split; [done|].
  pose proof (pi_min _ _ _ _ Hi). simpl in Hr.
  assert (ps_pid s' !! pidp = Some (MkPid false false slot id None 1)) as Epd.
  { rewrite (getproc_pids _ _ _ _ _ _ _ _ E1 ltac:(lia) E'). destruct Ha as (-> & _). apply lookup_insert_eq. }
  assert (ps_proc s' !! cp = Some c) as Ecp'. { rewrite Ep', lookup_insert_ne by congruence. apply lookup_insert_eq. }
  destruct (prfind_ok refs s' Hok' id) as ([q|] & -> & Hq); [|by destruct (Hq cp c pidp _ Ecp' Ec Epd)].
  destruct Hq as (qr & x & xd & Eq & Ex & Exd & Eid).
  assert (x = pidp) as -> by (apply (ids_inj refs s' Hok' _ _ _ _ Exd Epd); done).
  destruct (pk_inv _ _ Hok') as (act' & _ & Hact').
  assert (act' !! pidp = Some q) by (apply Hact'; by exists qr).
  assert (act' !! pidp = Some cp) by (apply Hact'; by exists c). congruence.
Qed.

Lemma getproc_new_id_witness :
  ∃ id s1 s', pid_assign (set_procs (<[10 := new_proc]> (ps_proc (pid_init 8 4))) (pid_init 8 4)) 10 100 = Ok (id, s1) ∧
    getproc (pid_init 8 4) 0 10 100 false = Ok (0, s') ∧ 0 ≤ id < MAXPID ∧
    (∀ x p, ps_pid (pid_init 8 4) !! x = Some p → pid_id p ≠ id) ∧ prfind s' id = Ok (Some 10).
Proof.
  exact (getproc_new_id (λ _, 0) (pid_init 8 4) 0 (MkProc (Some pid0) (Some pid0) None None None [] (Some session0) SRUN false)
    10 100 (boot_tables 8 2 ltac:(lia) ltac:(lia)) eq_refl ltac:(done) eq_refl eq_refl ltac:(done) ltac:(vm_compute; reflexivity)).
Defined.

(** ** Runs from boot that end badly *)

Definition after_boot (os : list gop) : res psys := '(_, s) ← do_run no_stops 10 (λ _, 0, pid_init 8 4) os; Ok s.

(** [prfind] finds a process that fork is still making, which is in no group: [getpgid]
    follows its null [p_pgidp], though [getsid] has an answer. *)
Definition sidl_run : list gop := [GFork 0 10 100 false; GJoin 0 10; GFork 10 11 101 false].

Example getpgid_of_idle : ∃ s, after_boot sidl_run = Ok s ∧ prfind s 2 = Ok (Some 11) ∧
  setpgrp s 10 2 2 0 0 = Ok (0, 0, s) ∧ setpgrp s 10 4 2 0 0 = Fault.
Proof. eexists. split; [vm_compute; reflexivity|]. split_and!; vm_compute; reflexivity. Qed.

(** [setpgrp] drops [pidlock] between its test and [sess_create].  11 has a group of its
    own but starts no session yet: its test succeeds, 12 is moved to its group, and
    [sess_create] leaves 12 in the group of 11 and not in its session. *)
Definition race_before : list gop :=
  [GFork 0 10 100 false; GJoin 0 10; GFork 10 11 101 false; GJoin 10 11; GFork 10 12 102 false; GJoin 10 12].
Definition race_after : list gop := [GSetpgid 11 0 0; GSetpgid 12 0 2; GSess 11 20].

(** [n] sections of a run. *)
Definition in_session_of (s : psys) (p q : Z) : res bool :=
  a ← deref (ps_proc s !! p); b ← deref (ps_proc s !! q); Ok (bool_decide (p_sessp a = p_sessp b)).
Definition in_group_of (s : psys) (p q : Z) : res bool :=
  a ← deref (ps_proc s !! p); b ← deref (ps_proc s !! q); Ok (bool_decide (p_pgidp a = p_pgidp b)).

Example setpgrp_race : ∃ s1 s2, after_boot (race_before ++ [GSetpgid 11 0 0]) = Ok s1 ∧ wants_session s1 11 1 = Ok (0, true) ∧
  after_boot (race_before ++ race_after) = Ok s2 ∧ in_group_of s2 11 12 = Ok true ∧ in_session_of s2 11 12 = Ok false.
Proof. do 2 eexists. split; [vm_compute; reflexivity|]. split; [vm_compute; reflexivity|]. split; [vm_compute; reflexivity|]. split; vm_compute; reflexivity. Qed.

(** The flag of a group, and whether one of its members keeps it from being orphaned. *)
Definition group_flag (s : psys) (g : Z) : res (bool * bool) :=
  d ← deref (ps_pid s !! g);
  l ← members s (pid_pglink d);
  linked ← some_linked s l;
  Ok (pid_pgorphaned d, linked).

(** Init starts a session, 11 is in its group and 12, a child of 11, has a group of its
    own, which is not orphaned.  11 starts a session: 12 loses its last link, and the
    group is not marked as orphaned. *)
Definition detach_run : list gop :=
  [GFork 0 10 100 false; GJoin 0 10; GSess 10 20; GFork 10 11 101 false; GJoin 10 11; GFork 11 12 102 false; GJoin 11 12;
   GSetpgid 12 0 0].

Example sess_create_orphans : ∃ s1 s2, after_boot detach_run = Ok s1 ∧ group_flag s1 102 = Ok (false, true) ∧
  wants_session s1 11 3 = Ok (0, true) ∧ after_boot (detach_run ++ [GSess 11 21]) = Ok s2 ∧ group_flag s2 102 = Ok (false, false).
Proof. do 2 eexists. split; [vm_compute; reflexivity|]. split; [vm_compute; reflexivity|]. split; [vm_compute; reflexivity|]. split; vm_compute; reflexivity. Qed.

(** 11 leads a session; 12, its child, has a group with its child 13, and 14, another child
    of 12, has a group; 11 exits and the group of 12 is orphaned.  12 moves to the group of
    14: now 13 is linked, though its group stays marked, and 14 is not linked any more,
    though its group is not marked. *)
Definition regroup_run : list gop :=
  [GFork 0 10 100 false; GJoin 0 10; GFork 10 11 101 false; GJoin 10 11; GSess 11 20; GFork 11 12 102 false; GJoin 11 12; GSetpgid 12 0 0;
   GFork 12 13 103 false; GJoin 12 13; GFork 12 14 104 false; GJoin 12 14; GSetpgid 14 0 0; GExit 11].

Example setpgid_flags : ∃ s1 s2, after_boot regroup_run = Ok s1 ∧ group_flag s1 102 = Ok (true, false) ∧ group_flag s1 104 = Ok (false, true) ∧
  after_boot (regroup_run ++ [GSetpgid 12 0 5]) = Ok s2 ∧ group_flag s2 102 = Ok (true, true) ∧ group_flag s2 104 = Ok (false, false).
Proof.
  do 2 eexists. split; [vm_compute; reflexivity|]. split; [vm_compute; reflexivity|]. split; [vm_compute; reflexivity|].
  split; [vm_compute; reflexivity|]. split; vm_compute; reflexivity.
Qed.

(** [newproc] fails: the process is freed, and still the first child of its parent. *)
Example newproc_failure_dangles : ∃ s1 s2 pr, after_boot [GFork 0 10 100 false; GJoin 0 10] = Ok s1 ∧
  newproc s1 0 11 101 false = Ok (EAGAIN, s2) ∧ ps_proc s2 !! 0 = Some pr ∧ p_child pr = [11; 10] ∧ ps_proc s2 !! 11 = None.
Proof. do 3 eexists. split; [vm_compute; reflexivity|]. split; [vm_compute; reflexivity|]. split; [vm_compute; reflexivity|]. split; vm_compute; reflexivity. Qed.
