(* ===== verification/Upcount.v ===== *)
(** * The number of processes of each user (uts/common/os/pid.c, upcount)

    A hash table of chains of counts; a user without processes has no entry.  Counts are
    integers: there are fewer than [MAXPID] processes.  When [upcount_inc] must sleep for
    memory it drops [pidlock] and starts again from the top, so that the walk that counts
    is a whole one: the retry is not modelled apart. *)

From S2P Require Import Prelude.

(** [up_uid] and [up_count] of the entries of a chain, along [up_next]. *)
Abbreviation upchain := (list (Z * Z)).

(** The mask is the number of buckets less one. *)
Definition UPC_HASH (h : list upchain) (x : Z) : nat :=
  Z.to_nat (Z.land (x mod 2 ^ 32) (Z.of_nat (length h) - 1)).

(** [upc_hashsize] empty chains. *)
Definition upcount_init (upc_hashsize : Z) : list upchain := replicate (Z.to_nat upc_hashsize) [].

Fixpoint inc_chain (uid : Z) (l : upchain) : option upchain :=
  match l with
  | [] => None
  | (u, n) :: l => if u =? uid then Some ((u, n + 1) :: l) else cons (u, n) <$> inc_chain uid l
  end.

Definition upcount_inc (h : list upchain) (uid : Z) : res (list upchain) :=
  l ← deref (h !! UPC_HASH h uid);
  Ok (<[UPC_HASH h uid := default ((uid, 1) :: l) (inc_chain uid l)]> h).

Fixpoint dec_chain (uid : Z) (l : upchain) : option upchain :=
  match l with
  | [] => None
  | (u, n) :: l =>
    if u =? uid then Some (if n - 1 =? 0 then l else (u, n - 1) :: l) else cons (u, n) <$> dec_chain uid l
  end.

Definition upcount_dec (h : list upchain) (uid : Z) : res (list upchain) :=
  l ← deref (h !! UPC_HASH h uid);
  match dec_chain uid l with
  | Some l' => Ok (<[UPC_HASH h uid := l']> h)
  | None => Panic "decr_upcount-off the end"
  end.

Fixpoint get_chain (uid : Z) (l : upchain) : Z :=
  match l with
  | [] => 0
  | (u, n) :: l => if u =? uid then n else get_chain uid l
  end.

Definition upcount_get (h : list upchain) (uid : Z) : res Z :=
  l ← deref (h !! UPC_HASH h uid);
  Ok (get_chain uid l).

(** ** The table as a function *)

(** [h] holds the counts [c]. *)
Record upc_ok (c : Z → Z) (h : list upchain) : Prop := {
  uo_size : ∃ k, 0 ≤ k ∧ Z.of_nat (length h) = 2 ^ k;
  uo_nodup b l : h !! b = Some l → NoDup l.*1;
  uo_pos b l u n : h !! b = Some l → (u, n) ∈ l → 1 ≤ n;
  uo_count u : ∃ l, h !! UPC_HASH h u = Some l ∧ get_chain u l = c u
}.

Lemma inc_chain_spec uid l : NoDup l.*1 →
  let l' := default ((uid, 1) :: l) (inc_chain uid l) in
  NoDup l'.*1 ∧ (∀ u, get_chain u l' = get_chain u l + (if u =? uid then 1 else 0)) ∧
  (∀ u n, (u, n) ∈ l' → (∃ m, n = m + 1 ∧ (u, m) ∈ l) ∨ (u, n) ∈ l ∨ n = 1).
Proof.
  intros Hl l'. destruct (inc_chain uid l) as [k|] eqn:E; subst l'; simpl.
  - assert ((k.*1 = l.*1) ∧ (∀ u, get_chain u k = get_chain u l + (if u =? uid then 1 else 0)) ∧
      (∀ u n, (u, n) ∈ k → (∃ m, n = m + 1 ∧ (u, m) ∈ l) ∨ (u, n) ∈ l ∨ n = 1)) as (E1 & H); [|by rewrite E1].
    clear Hl. revert k E. induction l as [|[v m] l IH]; intros k E; [done|]. simpl in E.
    destruct (Z.eqb_spec v uid) as [->|Hne].
    + injection E as <-. split; [done|]. split.
      * intros u. simpl. destruct (Z.eqb_spec uid u), (Z.eqb_spec u uid); lia.
      * intros u n [[= -> ->]|Hin]%elem_of_cons; [left; exists m; split; [done|left]|right; left; by right].
    + destruct (inc_chain uid l) as [k'|]; [|done]. injection E as <-. destruct (IH k' eq_refl) as (E1 & E2 & E3).
      split; [by rewrite !fmap_cons, E1|]. split.
      * intros u. simpl. rewrite E2. destruct (Z.eqb_spec v u), (Z.eqb_spec u uid); lia.
      * intros u n [[= -> ->]|Hin]%elem_of_cons; [right; left; left|].
        destruct (E3 u n Hin) as [(m' & -> & ?)|[?|?]]; [left; exists m'; split; [done|by right]|right; left; by right|right; by right].
  - assert ((uid ∉ l.*1) ∧ get_chain uid l = 0) as [Hni E0].
    { clear Hl. induction l as [|[v m] l IH]; [split; [apply not_elem_of_nil|done]|]. simpl in *.
      destruct (Z.eqb_spec v uid); [done|]. destruct (inc_chain uid l); [done|]. destruct (IH eq_refl) as [? ?].
      split; [|done]. apply not_elem_of_cons. by split; [intros ->|]. }
    split; [by apply list.NoDup_cons|]. split.
    + intros u. destruct (Z.eqb_spec uid u), (Z.eqb_spec u uid); subst; lia.
    + intros u n [[= -> ->]|Hin]%elem_of_cons; [right; by right|right; by left].
Qed.

Lemma get_chain_nonneg l u : (∀ v n, (v, n) ∈ l → 1 ≤ n) → 0 ≤ get_chain u l.
Proof.
  induction l as [|[v n] l IH]; intros Hp; simpl; [lia|]. case_match.
  - pose proof (Hp v n ltac:(left)). lia.
  - apply IH. intros w m Hin. apply (Hp w m). by right.
Qed.

Lemma get_chain_notin l u : u ∉ l.*1 → get_chain u l = 0.
Proof.
  induction l as [|[v n] l IH]; simpl; [done|]. intros [Hne Hni]%not_elem_of_cons. destruct (Z.eqb_spec v u); [congruence|auto].
Qed.

Lemma dec_chain_spec uid l : NoDup l.*1 → (∀ u n, (u, n) ∈ l → 1 ≤ n) →
  match dec_chain uid l with
  | Some l' => 1 ≤ get_chain uid l ∧ NoDup l'.*1 ∧ (∀ u, u ∈ l'.*1 → u ∈ l.*1) ∧
      (∀ u, get_chain u l' = get_chain u l - (if u =? uid then 1 else 0)) ∧ (∀ u n, (u, n) ∈ l' → 1 ≤ n)
  | None => get_chain uid l = 0
  end.
Proof.
  induction l as [|[v m] l IH]; intros Hl Hp; [done|]. simpl in Hl. apply list.NoDup_cons in Hl as [Hv Hl].
  pose proof (Hp v m ltac:(left)) as Hm.
  assert (∀ u n, (u, n) ∈ l → 1 ≤ n) as Hp' by (intros u n Hin; apply (Hp u n); by right).
  simpl. destruct (Z.eqb_spec v uid) as [Ev|Hne]; [subst v|].
  - split; [done|]. destruct (Z.eqb_spec (m - 1) 0) as [Em|Em].
    + split; [done|]. split; [intros u; by right|]. split; [|done]. intros u. destruct (Z.eqb_spec u uid) as [Eu|Hu].
      * subst u. rewrite Z.eqb_refl, get_chain_notin by done. lia.
      * rewrite (proj2 (Z.eqb_neq uid u)) by congruence. lia.
    + split; [by apply list.NoDup_cons|]. split; [done|]. split.
      * intros u. simpl. destruct (Z.eqb_spec uid u), (Z.eqb_spec u uid); lia.
      * intros u n [[= -> ->]|Hin]%elem_of_cons; [lia|by eapply Hp'].
  - specialize (IH Hl Hp'). destruct (dec_chain uid l) as [k|]; simpl; [|done]. destruct IH as (H1 & H2 & H3 & H4 & H5).
    split; [done|]. split; [apply list.NoDup_cons; split; [|done]; intros ?; auto|]. split.
    + intros u [->|Hin]%elem_of_cons; [left|right; auto].
    + split.
      * intros u. rewrite H4. destruct (Z.eqb_spec v u), (Z.eqb_spec u uid); lia.
      * intros u n [[= -> ->]|Hin]%elem_of_cons; [lia|by eapply H5].
Qed.

Section table.
Context (c : Z → Z) (h : list upchain).
Hypothesis Hok : upc_ok c h.

Lemma upc_nonneg u : 0 ≤ c u.
Proof using Hok. destruct (uo_count _ _ Hok u) as (l & El & <-). apply get_chain_nonneg. intros v n. by apply (uo_pos _ _ Hok _ _ v n El). Qed.

Lemma upcount_get_ok u : upcount_get h u = Ok (c u).
Proof using Hok. unfold upcount_get. destruct (uo_count _ _ Hok u) as (l & -> & <-). done. Qed.

(** A chain changes, and with it the count of one user. *)
Lemma upc_set uid l l' c' : h !! UPC_HASH h uid = Some l → NoDup l'.*1 → (∀ u n, (u, n) ∈ l' → 1 ≤ n) →
  (∀ u, UPC_HASH h u = UPC_HASH h uid → get_chain u l' = c' u) → (∀ u, UPC_HASH h u ≠ UPC_HASH h uid → c' u = c u) →
  upc_ok c' (<[UPC_HASH h uid := l']> h).
Proof using Hok.
  intros El Hn Hp Hc Hc'.
  assert (∀ u, UPC_HASH (<[UPC_HASH h uid := l']> h) u = UPC_HASH h u) as EH by (intros u; unfold UPC_HASH at 1; by rewrite length_insert).
  split.
  - rewrite length_insert. apply (uo_size _ _ Hok).
  - intros b k [(<- & -> & _)|[_ E]]%list_lookup_insert_Some; [done|by eapply uo_nodup].
  - intros b k u n [(<- & -> & _)|[_ E]]%list_lookup_insert_Some; [apply Hp|by eapply uo_pos].
  - intros u. rewrite EH. destruct (decide (UPC_HASH h u = UPC_HASH h uid)) as [E|E].
    + exists l'. rewrite E, list_lookup_insert_eq by (by eapply lookup_lt_Some). split; [done|by apply Hc].
    + rewrite list_lookup_insert_ne by done. rewrite Hc' by done. by apply (uo_count _ _ Hok).
Qed.

Lemma upcount_inc_ok uid : ∃ h', upcount_inc h uid = Ok h' ∧ upc_ok (λ u, c u + (if u =? uid then 1 else 0)) h'.
Proof using Hok.
  unfold upcount_inc. destruct (uo_count _ _ Hok uid) as (l & El & Ec). rewrite El. cbn [mbind res_bind deref].
  destruct (inc_chain_spec uid l (uo_nodup _ _ Hok _ _ El)) as (H1 & H2 & H3). eexists. split; [done|].
  apply (upc_set uid l); [done|done| | |].
  - intros u n Hin. destruct (H3 u n Hin) as [(m & -> & Hm)|[Hm| ->]]; [|by eapply uo_pos|lia].
    pose proof (uo_pos _ _ Hok _ _ _ _ El Hm). lia.
  - intros u E. rewrite H2. destruct (uo_count _ _ Hok u) as (k & Ek & <-). rewrite E, El in Ek. by injection Ek as <-.
  - intros u E. destruct (Z.eqb_spec u uid) as [->|]; [done|lia].
Qed.

Lemma upcount_dec_ok uid : 1 ≤ c uid → ∃ h', upcount_dec h uid = Ok h' ∧ upc_ok (λ u, c u - (if u =? uid then 1 else 0)) h'.
Proof using Hok.
  intros Hc. unfold upcount_dec. destruct (uo_count _ _ Hok uid) as (l & El & Ec). rewrite El. cbn [mbind res_bind deref].
  pose proof (dec_chain_spec uid l (uo_nodup _ _ Hok _ _ El) (λ u n, uo_pos _ _ Hok _ _ u n El)) as H.
  destruct (dec_chain uid l) as [l'|]; [|lia]. destruct H as (_ & H1 & _ & H2 & H3). eexists. split; [done|].
  apply (upc_set uid l); [done|done|done| |].
  - intros u E. rewrite H2. destruct (uo_count _ _ Hok u) as (k & Ek & <-). rewrite E, El in Ek. by injection Ek as <-.
  - intros u E. destruct (Z.eqb_spec u uid) as [->|]; [done|lia].
Qed.

Lemma upcount_dec_panics uid : c uid = 0 → upcount_dec h uid = Panic "decr_upcount-off the end".
Proof using Hok.
  intros Hc. unfold upcount_dec. destruct (uo_count _ _ Hok uid) as (l & El & Ec). rewrite El. cbn [mbind res_bind deref].
  pose proof (dec_chain_spec uid l (uo_nodup _ _ Hok _ _ El) (λ u n, uo_pos _ _ Hok _ _ u n El)) as H.
  destruct (dec_chain uid l); [lia|done].
Qed.
End table.

Lemma upcount_init_ok k : 0 ≤ k < 32 → upc_ok (λ _, 0) (upcount_init (2 ^ k)).
Proof.
  intros Hk. unfold upcount_init. assert (0 < 2 ^ k) by lia. split.
  - exists k. rewrite length_replicate. split; lia.
  - intros b l [-> _]%lookup_replicate_1. constructor.
  - intros b l u n [-> _]%lookup_replicate_1 Hin. by apply elem_of_nil in Hin.
  - intros u. exists []. split; [|done]. apply lookup_replicate_2. unfold UPC_HASH. rewrite length_replicate.
    replace (Z.of_nat (Z.to_nat (2 ^ k)) - 1) with (Z.ones k) by (rewrite Z.ones_equiv; lia).
    rewrite Z.land_ones by lia. pose proof (Z.mod_pos_bound (u mod 2 ^ 32) (2 ^ k)). lia.
Qed.

(** ** What the counts mean *)

Inductive upc_op := UInc (uid : Z) | UDec (uid : Z).

Fixpoint upc_run (h : list upchain) (os : list upc_op) : res (list upchain) :=
  match os with
  | [] => Ok h
  | UInc u :: os => h ← upcount_inc h u; upc_run h os
  | UDec u :: os => h ← upcount_dec h u; upc_run h os
  end.

(** The increments less the decrements of a user. *)
Fixpoint balance (u : Z) (os : list upc_op) : Z :=
  match os with
  | [] => 0
  | UInc v :: os => (if u =? v then 1 else 0) + balance u os
  | UDec v :: os => balance u os - (if u =? v then 1 else 0)
  end.

Lemma upc_run_ok c h os : upc_ok c h → (∀ k u, 0 ≤ c u + balance u (take k os)) →
  ∃ h', upc_run h os = Ok h' ∧ upc_ok (λ u, c u + balance u os) h'.
Proof.
  revert c h. induction os as [|o os IH]; intros c h Hok Hb.
  - exists h. split; [done|]. destruct Hok as [U1 U2 U3 U4]. split; try done. intros u. destruct (U4 u) as (l & El & E).
    exists l. split; [done|]. simpl. lia.
  - destruct o as [v|v]; simpl.
    + destruct (upcount_inc_ok c h Hok v) as (h1 & -> & H1). cbn [mbind res_bind].
      destruct (IH _ _ H1) as (h2 & -> & H2). { intros k u. pose proof (Hb (S k) u) as H. simpl in H. lia. }
      exists h2. split; [done|]. destruct H2 as [U1 U2 U3 U4]. split; try done. intros u. destruct (U4 u) as (l & El & E).
      exists l. split; [done|]. lia.
    + pose proof (Hb 1%nat v) as Hv. change (take 1 (UDec v :: os)) with [UDec v] in Hv. cbn [balance] in Hv. rewrite Z.eqb_refl in Hv.
      destruct (upcount_dec_ok c h Hok v) as (h1 & -> & H1); [lia|]. cbn [mbind res_bind].
      destruct (IH _ _ H1) as (h2 & -> & H2). { intros k u. pose proof (Hb (S k) u) as H. simpl in H. lia. }
      exists h2. split; [done|]. destruct H2 as [U1 U2 U3 U4]. split; try done. intros u. destruct (U4 u) as (l & El & E).
      exists l. split; [done|]. lia.
Qed.

(** From the table at boot, as long as no user is counted down more often than up, no
    call panics and [upcount_get] gives the difference for every user. *)
Theorem upcount_refines k os : 0 ≤ k < 32 → (∀ n u, 0 ≤ balance u (take n os)) →
  ∃ h, upc_run (upcount_init (2 ^ k)) os = Ok h ∧ ∀ u, upcount_get h u = Ok (balance u os).
Proof.
  intros Hk Hb. destruct (upc_run_ok (λ _, 0) (upcount_init (2 ^ k)) os (upcount_init_ok k Hk)) as (h & E & Hh).
  - intros n u. pose proof (Hb n u). lia.
  - exists h. split; [done|]. intros u. rewrite (upcount_get_ok _ _ Hh). f_equal.
Qed.

Lemma upcount_refines_witness :
  ∃ h, upc_run (upcount_init (2 ^ 2)) [UInc 4; UInc 0; UInc 4; UDec 0; UDec 4; UInc 8] = Ok h ∧
    ∀ u, upcount_get h u = Ok (balance u [UInc 4; UInc 0; UInc 4; UDec 0; UDec 4; UInc 8]).
Proof.
  apply (upcount_refines 2); [lia|]. intros n u. do 7 (destruct n as [|n]; [simpl; repeat case_match; lia|]).
  simpl. repeat case_match; lia.
Defined.
