(* ===== verification/Cred.v ===== *)
(** * Credentials (uts/common/os/cred.c, syscall/uid.c, gid.c, groups.c)

    A process and each of its threads point to credentials, which are shared: they count
    their references, and a change makes a copy.  A thread keeps what it had until it ends
    its call ([crset]) or starts the next ([pre_syscall]).

    - The fields after [cr_ref] are one record, for [bcopy] copies them together.
    - A call that changes ids has three critical sections: under [p_crlock] it changes the
      credentials of the process, under [pidlock] it moves the process from one user's
      count to another's, and then it sets those of the thread.  [p_moves] and [t_new]
      say what a thread has left to do.
    - What [kmem_cache_alloc] gives is an argument.  Uids and gids are 32-bit longs.
    - The accounting flag that [suser] sets and auditing are left out. *)

From S2P Require Import Prelude Upcount.

Definition MAXUID : Z := 2147483647.


Record ids := MkIds {
  i_uid : Z;
  i_gid : Z;
  i_ruid : Z;
  i_rgid : Z;
  i_suid : Z;
  i_sgid : Z;
  i_groups : list Z        (* the first [cr_ngroups] of [cr_groups] *)
}.

Record cred := MkCred { cr_ref : Z; cr_ids : ids }.

Definition set_uid u i := MkIds u (i_gid i) (i_ruid i) (i_rgid i) (i_suid i) (i_sgid i) (i_groups i).
Definition set_gid g i := MkIds (i_uid i) g (i_ruid i) (i_rgid i) (i_suid i) (i_sgid i) (i_groups i).
Definition set_ruid u i := MkIds (i_uid i) (i_gid i) u (i_rgid i) (i_suid i) (i_sgid i) (i_groups i).
Definition set_rgid g i := MkIds (i_uid i) (i_gid i) (i_ruid i) g (i_suid i) (i_sgid i) (i_groups i).
Definition set_suid u i := MkIds (i_uid i) (i_gid i) (i_ruid i) (i_rgid i) u (i_sgid i) (i_groups i).
Definition set_sgid g i := MkIds (i_uid i) (i_gid i) (i_ruid i) (i_rgid i) (i_suid i) g (i_groups i).
Definition set_grouplist l i := MkIds (i_uid i) (i_gid i) (i_ruid i) (i_rgid i) (i_suid i) (i_sgid i) l.

(** What the tables keep of a process: [p_cred], the flags [STRC] and [NOCD], and the
    threads that have still to move it from a user to another. *)
Record cproc := MkCProc { p_cred : Z; p_strc : bool; p_nocd : bool; p_moves : list (Z * (Z * Z)) }.

Record cthread := MkCThread { t_procp : Z; t_cred : Z; t_pre_sys : bool; t_new : option Z }.

Record csys := MkCs {
  cs_cred : gmap Z cred;
  cs_proc : gmap Z cproc;
  cs_thr : gmap Z cthread;
  upc_hash : list (list (Z * Z))
}.

Definition set_creds m s := MkCs m (cs_proc s) (cs_thr s) (upc_hash s).
Definition set_cprocs m s := MkCs (cs_cred s) m (cs_thr s) (upc_hash s).
Definition set_thrs m s := MkCs (cs_cred s) (cs_proc s) m (upc_hash s).
Definition set_upc h s := MkCs (cs_cred s) (cs_proc s) (cs_thr s) h.

Definition set_pcred c p := MkCProc c (p_strc p) (p_nocd p) (p_moves p).
Definition set_nocd p := MkCProc (p_cred p) (p_strc p) true (p_moves p).
Definition set_moves l p := MkCProc (p_cred p) (p_strc p) (p_nocd p) l.
Definition set_tcred c t := MkCThread (t_procp t) c (t_pre_sys t) (t_new t).
Definition set_pre_sys b t := MkCThread (t_procp t) (t_cred t) b (t_new t).
Definition set_new n t := MkCThread (t_procp t) (t_cred t) (t_pre_sys t) n.

Definition upd_cred (a : Z) (f : cred → cred) (s : csys) : res csys :=
  c ← deref (cs_cred s !! a); Ok (set_creds (<[a := f c]> (cs_cred s)) s).
Definition upd_cproc (a : Z) (f : cproc → cproc) (s : csys) : res csys :=
  p ← deref (cs_proc s !! a); Ok (set_cprocs (<[a := f p]> (cs_proc s)) s).
Definition upd_thr (a : Z) (f : cthread → cthread) (s : csys) : res csys :=
  t ← deref (cs_thr s !! a); Ok (set_thrs (<[a := f t]> (cs_thr s)) s).

(** Changes of the fields of credentials. *)
Definition upd_ids (a : Z) (f : ids → ids) : csys → res csys := upd_cred a (λ c, MkCred (cr_ref c) (f (cr_ids c))).

(** ** cred.c *)

Definition no_ids : ids := MkIds 0 0 0 0 0 0 [].

(** The address of [kcred]. *)
Definition kcred : Z := 0.

Definition crhold (s : csys) (cr : Z) : res csys := upd_cred cr (λ c, MkCred (cr_ref c + 1) (cr_ids c)) s.

Definition crfree (s : csys) (cr : Z) : res csys :=
  c ← deref (cs_cred s !! cr);
  if 0 <? cr_ref c - 1 then Ok (set_creds (<[cr := MkCred (cr_ref c - 1) (cr_ids c)]> (cs_cred s)) s)
  else if cr =? kcred then Panic "cr == kcred"
  else Ok (set_creds (delete cr (cs_cred s)) s).

Definition crget (s : csys) (cr : Z) : csys := set_creds (<[cr := MkCred 1 no_ids]> (cs_cred s)) s.

Definition bcopy_cred (s : csys) (cr newcr : Z) : res csys :=
  c ← deref (cs_cred s !! cr); upd_cred newcr (λ _, c) s.

Definition crcopy_to (s : csys) (oldcr newcr : Z) : res csys :=
  s ← bcopy_cred s oldcr newcr;
  s ← crfree s oldcr;
  upd_cred newcr (λ c, MkCred 2 (cr_ids c)) s.

Definition crcopy (s : csys) (cr newcr : Z) : res csys := crcopy_to (crget s newcr) cr newcr.

Definition crdup_to (s : csys) (oldcr newcr : Z) : res csys :=
  s ← bcopy_cred s oldcr newcr;
  upd_cred newcr (λ c, MkCred 1 (cr_ids c)) s.

Definition crdup (s : csys) (cr newcr : Z) : res csys := crdup_to (crget s newcr) cr newcr.

Definition crgetcred (s : csys) (p : Z) : res (Z * csys) :=
  pr ← deref (cs_proc s !! p);
  s ← crhold s (p_cred pr);
  Ok (p_cred pr, s).

(** [p_lwpcnt]. *)
Definition lwpcnt (s : csys) (p : Z) : Z := Z.of_nat (size (filter (λ x, t_procp x.2 = p) (cs_thr s))).

(** [t] is [curthread]. *)
Definition crset (s : csys) (p t cr : Z) : res csys :=
  th ← deref (cs_thr s !! t);
  s ← crfree s (t_cred th);
  s ← upd_thr t (set_tcred cr) s;
  if 1 <? lwpcnt s p then
    Ok (set_thrs (map_imap (λ x th, Some (if bool_decide (t_procp th = p) && negb (bool_decide (x = t)) then set_pre_sys true th else th)) (cs_thr s)) s)
  else Ok s.

Definition suser (i : ids) : bool := i_uid i =? 0.

Definition groupmember (gid : Z) (i : ids) : bool := (gid =? i_gid i) || existsb (λ g, g =? gid) (i_groups i).

Definition hasprocperm (t s : ids) : bool :=
  (i_uid s =? 0) || (i_uid s =? i_ruid t) || (i_ruid s =? i_ruid t) || (i_uid s =? i_suid t) || (i_ruid s =? i_suid t).

(** The addresses of the two are compared first; 0 is the same user. *)
Definition crcmp (s : csys) (cr1 cr2 : Z) : res Z :=
  if cr1 =? cr2 then Ok 0
  else
    a ← deref (cs_cred s !! cr1);
    b ← deref (cs_cred s !! cr2);
    let i := cr_ids a in let j := cr_ids b in
    if (i_uid i =? i_uid j) && (i_gid i =? i_gid j) && (i_ruid i =? i_ruid j) && (i_rgid i =? i_rgid j) &&
       (Z.of_nat (length (i_groups i)) =? Z.of_nat (length (i_groups j)))
    then Ok (if bool_decide (i_groups i = i_groups j) then 0 else 1)
    else Ok 1.

(** ** uid.c: the sections under [p_crlock]

    The result is the error, the old real uid (the new one if it stays) and the state. *)

Definition setuid_section (s : csys) (p newcr uid : Z) : res (Z * Z * csys) :=
  let s := crget s newcr in
  pr ← deref (cs_proc s !! p);
  let cr := p_cred pr in
  c ← deref (cs_cred s !! cr);
  let i := cr_ids c in
  if negb (i_uid i =? 0) && ((uid =? i_ruid i) || (uid =? i_suid i)) then
    s ← crcopy_to s cr newcr;
    s ← upd_cproc p (set_pcred newcr) s;
    s ← upd_ids newcr (set_uid uid) s;
    Ok (0, uid, s)
  else if suser i then
    s ← crcopy_to s cr newcr;
    s ← upd_cproc p (set_pcred newcr) s;
    s ← upd_ids newcr (set_ruid uid) s;
    s ← upd_ids newcr (set_suid uid) s;
    s ← upd_ids newcr (set_uid uid) s;
    Ok (0, i_ruid i, s)
  else
    s ← crfree s newcr;
    Ok (EPERM, uid, s).

Definition seteuid_section (s : csys) (p newcr uid : Z) : res (Z * csys) :=
  let s := crget s newcr in
  pr ← deref (cs_proc s !! p);
  let cr := p_cred pr in
  c ← deref (cs_cred s !! cr);
  let i := cr_ids c in
  if (uid =? i_ruid i) || (uid =? i_uid i) || (uid =? i_suid i) || suser i then
    s ← crcopy_to s cr newcr;
    s ← upd_cproc p (set_pcred newcr) s;
    s ← upd_ids newcr (set_uid uid) s;
    Ok (0, s)
  else
    s ← crfree s newcr;
    Ok (EPERM, s).

(** On an error [newcr] is freed at the end of the call, which has no other section. *)
Definition setreuid_section (s : csys) (p newcr ruid euid : Z) : res (Z * Z * csys) :=
  let s := crget s newcr in
  pr ← deref (cs_proc s !! p);
  let cr := p_cred pr in
  c ← deref (cs_cred s !! cr);
  let i := cr_ids c in
  if negb (ruid =? -1) && negb (ruid =? i_ruid i) && negb (ruid =? i_uid i) && negb (suser i) then
    s ← crfree s newcr; Ok (EPERM, ruid, s)
  else if negb (euid =? -1) && negb (euid =? i_ruid i) && negb (euid =? i_uid i) && negb (euid =? i_suid i) && negb (suser i) then
    s ← crfree s newcr; Ok (EPERM, ruid, s)
  else
    s ← crcopy_to s cr newcr;
    s ← upd_cproc p (set_pcred newcr) s;
    s ← (if negb (euid =? -1) then upd_ids newcr (set_uid euid) s else Ok s);
    n ← deref (cs_cred s !! newcr);
    let old := if negb (ruid =? -1) then i_ruid (cr_ids n) else ruid in
    s ← (if negb (ruid =? -1) then upd_ids newcr (set_ruid ruid) s else Ok s);
    n ← deref (cs_cred s !! newcr);
    s ← (if negb (ruid =? -1) || (negb (euid =? -1) && negb (i_uid (cr_ids n) =? i_ruid (cr_ids n)))
         then upd_ids newcr (set_suid (i_uid (cr_ids n))) s else Ok s);
    Ok (0, old, s).

(** ** gid.c: the sections under [p_crlock] *)

Definition setgid_section (s : csys) (p newcr gid : Z) : res (Z * csys) :=
  let s := crget s newcr in
  pr ← deref (cs_proc s !! p);
  let cr := p_cred pr in
  c ← deref (cs_cred s !! cr);
  let i := cr_ids c in
  if negb (i_uid i =? 0) && ((gid =? i_rgid i) || (gid =? i_sgid i)) then
    s ← crcopy_to s cr newcr;
    s ← upd_cproc p (set_pcred newcr) s;
    s ← upd_ids newcr (set_gid gid) s;
    Ok (0, s)
  else if suser i then
    s ← crcopy_to s cr newcr;
    s ← upd_cproc p (set_pcred newcr) s;
    s ← upd_ids newcr (set_gid gid) s;
    s ← upd_ids newcr (set_rgid gid) s;
    s ← upd_ids newcr (set_sgid gid) s;
    Ok (0, s)
  else
    s ← crfree s newcr;
    Ok (EPERM, s).

Definition setegid_section (s : csys) (p newcr gid : Z) : res (Z * csys) :=
  let s := crget s newcr in
  pr ← deref (cs_proc s !! p);
  let cr := p_cred pr in
  c ← deref (cs_cred s !! cr);
  let i := cr_ids c in
  if (gid =? i_rgid i) || (gid =? i_gid i) || (gid =? i_sgid i) || suser i then
    s ← crcopy_to s cr newcr;
    s ← upd_cproc p (set_pcred newcr) s;
    s ← upd_ids newcr (set_gid gid) s;
    Ok (0, s)
  else
    s ← crfree s newcr;
    Ok (EPERM, s).

Definition setregid_section (s : csys) (p newcr rgid egid : Z) : res (Z * csys) :=
  let s := crget s newcr in
  pr ← deref (cs_proc s !! p);
  let cr := p_cred pr in
  c ← deref (cs_cred s !! cr);
  let i := cr_ids c in
  if negb (rgid =? -1) && negb (rgid =? i_rgid i) && negb (rgid =? i_gid i) && negb (suser i) then
    s ← crfree s newcr; Ok (EPERM, s)
  else if negb (egid =? -1) && negb (egid =? i_rgid i) && negb (egid =? i_gid i) && negb (egid =? i_sgid i) && negb (suser i) then
    s ← crfree s newcr; Ok (EPERM, s)
  else
    s ← crcopy_to s cr newcr;
    s ← upd_cproc p (set_pcred newcr) s;
    s ← (if negb (egid =? -1) then upd_ids newcr (set_gid egid) s else Ok s);
    s ← (if negb (rgid =? -1) then upd_ids newcr (set_rgid rgid) s else Ok s);
    n ← deref (cs_cred s !! newcr);
    s ← (if negb (rgid =? -1) || (negb (egid =? -1) && negb (i_gid (cr_ids n) =? i_rgid (cr_ids n)))
         then upd_ids newcr (set_sgid (i_gid (cr_ids n))) s else Ok s);
    Ok (0, s).

(** ** groups.c *)

(** [n], a [u_short], is the size asked for; the result of [copyin] is the first [n] of the
    list [gidset] that is in the memory of the user, or a fault when it is too short. *)
Definition copyin_groups (n : Z) (gidset : list Z) : option (list Z) :=
  if Z.of_nat (length gidset) <? n then None else Some (take (Z.to_nat n) gidset).

Definition good_gid (g : Z) : bool := negb ((g <? 0) || (MAXUID <? g)).

(** [newcr] has two references when the section ends: [crset] gives one to the thread. *)
Definition setgroups_section (ngroups_max : Z) (s : csys) (p newcr gidsetsize : Z) (gidset : list Z) : res (Z * csys) :=
  let n := gidsetsize mod 2 ^ 16 in
  let small := negb (n =? 0) && (n <=? ngroups_max mod 2 ^ 16) in
  match (if small then copyin_groups n gidset else Some []) with
  | None => Ok (EFAULT, s)
  | Some groups =>
    let s := crget s newcr in
    pr ← deref (cs_proc s !! p);
    let cr := p_cred pr in
    c ← deref (cs_cred s !! cr);
    if negb (suser (cr_ids c)) then
      s ← crfree s newcr; Ok (EPERM, s)
    else if ngroups_max mod 2 ^ 16 <? n then
      s ← crfree s newcr; Ok (EINVAL, s)
    else
      s ← crdup_to s cr newcr;
      if negb (forallb good_gid groups) then
        s ← crfree s newcr; Ok (EINVAL, s)
      else
        s ← upd_ids newcr (set_grouplist groups) s;
        s ← upd_cproc p (set_pcred newcr) s;
        s ← crhold s newcr;
        s ← crfree s cr;
        Ok (0, s)
  end.

(** The number of groups, or an error, and what is copied out to the user; [writable] says
    whether [copyout] can write there. *)
Definition getgroups (writable : bool) (s : csys) (t gidsetsize : Z) : res (Z * Z * list Z) :=
  th ← deref (cs_thr s !! t);
  c ← deref (cs_cred s !! t_cred th);
  let groups := i_groups (cr_ids c) in
  let n := Z.of_nat (length groups) in
  if negb (gidsetsize =? 0) then
    if gidsetsize <? n then Ok (EINVAL, 0, []) else if negb writable then Ok (EFAULT, 0, []) else Ok (0, n, groups)
  else Ok (0, n, []).

Definition getuid (s : csys) (t : Z) : res (Z * Z) :=
  th ← deref (cs_thr s !! t); c ← deref (cs_cred s !! t_cred th); Ok (i_ruid (cr_ids c), i_uid (cr_ids c)).
Definition getgid (s : csys) (t : Z) : res (Z * Z) :=
  th ← deref (cs_thr s !! t); c ← deref (cs_cred s !! t_cred th); Ok (i_rgid (cr_ids c), i_gid (cr_ids c)).

(** ** The calls, section by section *)

(** What a thread has left to do after the section under [p_crlock]. *)
Definition call_move (s : csys) (t old new : Z) : res csys :=
  th ← deref (cs_thr s !! t);
  if negb (old =? new) then upd_cproc (t_procp th) (λ p, set_moves ((t, (old, new)) :: p_moves p) p) s else Ok s.
Definition call_crset (s : csys) (t e newcr : Z) : res csys :=
  if e =? 0 then upd_thr t (set_new (Some newcr)) s else Ok s.

Definition bad_id (u : Z) : bool := (u <? 0) || (MAXUID <? u).
Definition bad_optid (u : Z) : bool := negb (u =? -1) && ((u <? 0) || (MAXUID <? u)).

Definition setuid_call (s : csys) (t newcr uid : Z) : res (Z * csys) :=
  if bad_id uid then Ok (EINVAL, s)
  else
    th ← deref (cs_thr s !! t);
    '(e, old, s) ← setuid_section s (t_procp th) newcr uid;
    s ← call_move s t old uid;
    s ← call_crset s t e newcr;
    Ok (e, s).

Definition seteuid_call (s : csys) (t newcr uid : Z) : res (Z * csys) :=
  if bad_id uid then Ok (EINVAL, s)
  else
    th ← deref (cs_thr s !! t);
    '(e, s) ← seteuid_section s (t_procp th) newcr uid;
    s ← call_crset s t e newcr;
    Ok (e, s).

Definition setreuid_call (s : csys) (t newcr ruid euid : Z) : res (Z * csys) :=
  if bad_optid ruid || bad_optid euid then Ok (EINVAL, s)
  else
    th ← deref (cs_thr s !! t);
    '(e, old, s) ← setreuid_section s (t_procp th) newcr ruid euid;
    s ← call_move s t old ruid;
    s ← call_crset s t e newcr;
    Ok (e, s).

Definition setgid_call (s : csys) (t newcr gid : Z) : res (Z * csys) :=
  if bad_id gid then Ok (EINVAL, s)
  else
    th ← deref (cs_thr s !! t);
    '(e, s) ← setgid_section s (t_procp th) newcr gid;
    s ← call_crset s t e newcr;
    Ok (e, s).

Definition setegid_call (s : csys) (t newcr gid : Z) : res (Z * csys) :=
  if bad_id gid then Ok (EINVAL, s)
  else
    th ← deref (cs_thr s !! t);
    '(e, s) ← setegid_section s (t_procp th) newcr gid;
    s ← call_crset s t e newcr;
    Ok (e, s).

Definition setregid_call (s : csys) (t newcr rgid egid : Z) : res (Z * csys) :=
  if bad_optid rgid || bad_optid egid then Ok (EINVAL, s)
  else
    th ← deref (cs_thr s !! t);
    '(e, s) ← setregid_section s (t_procp th) newcr rgid egid;
    s ← call_crset s t e newcr;
    Ok (e, s).

Definition setgroups_call (ngroups_max : Z) (s : csys) (t newcr gidsetsize : Z) (gidset : list Z) : res (Z * csys) :=
  th ← deref (cs_thr s !! t);
  '(e, s) ← setgroups_section ngroups_max s (t_procp th) newcr gidsetsize gidset;
  s ← call_crset s t e newcr;
  Ok (e, s).

(** The section under [pidlock]: the thread's move, if it has one. *)
Definition find_move (t : Z) (l : list (Z * (Z * Z))) : option (Z * Z) := snd <$> head (filter (λ m, m.1 = t) l).

Definition do_move (s : csys) (t : Z) : res csys :=
  th ← deref (cs_thr s !! t);
  pr ← deref (cs_proc s !! t_procp th);
  match find_move t (p_moves pr) with
  | None => Ok s
  | Some (old, new) =>
    s ← upd_cproc (t_procp th) (λ p, set_moves (filter (λ m, m.1 ≠ t) (p_moves p)) p) s;
    h ← upcount_dec (upc_hash s) old;
    h ← upcount_inc h new;
    Ok (set_upc h s)
  end.

Definition do_crset (s : csys) (t : Z) : res csys :=
  th ← deref (cs_thr s !! t);
  match t_new th with
  | None => Ok s
  | Some cr => s ← upd_thr t (set_new None) s; crset s (t_procp th) t cr
  end.

(** The rest of a call. *)
Definition finish (s : csys) (t : Z) : res csys := s ← do_move s t; do_crset s t.

(** ** The system calls, without another thread in between *)

Definition setuid (s : csys) (t newcr uid : Z) : res (Z * csys) :=
  '(e, s) ← setuid_call s t newcr uid; s ← finish s t; Ok (e, s).
Definition seteuid (s : csys) (t newcr uid : Z) : res (Z * csys) :=
  '(e, s) ← seteuid_call s t newcr uid; s ← finish s t; Ok (e, s).
Definition setreuid (s : csys) (t newcr ruid euid : Z) : res (Z * csys) :=
  '(e, s) ← setreuid_call s t newcr ruid euid; s ← finish s t; Ok (e, s).
Definition setgid (s : csys) (t newcr gid : Z) : res (Z * csys) :=
  '(e, s) ← setgid_call s t newcr gid; s ← finish s t; Ok (e, s).
Definition setegid (s : csys) (t newcr gid : Z) : res (Z * csys) :=
  '(e, s) ← setegid_call s t newcr gid; s ← finish s t; Ok (e, s).
Definition setregid (s : csys) (t newcr rgid egid : Z) : res (Z * csys) :=
  '(e, s) ← setregid_call s t newcr rgid egid; s ← finish s t; Ok (e, s).
Definition setgroups (ngroups_max : Z) (s : csys) (t newcr gidsetsize : Z) (gidset : list Z) : res (Z * csys) :=
  '(e, s) ← setgroups_call ngroups_max s t newcr gidsetsize gidset; s ← finish s t; Ok (e, s).

(** ** Where else credentials change hands *)

(** The part of [pre_syscall] (sparc/os/syscall.c) on credentials; it is called when
    [t_pre_sys] is set, which it clears. *)
Definition pre_syscall (s : csys) (t : Z) : res csys :=
  s ← upd_thr t (set_pre_sys false) s;
  th ← deref (cs_thr s !! t);
  pr ← deref (cs_proc s !! t_procp th);
  if negb (t_cred th =? p_cred pr) then
    s ← crfree s (t_cred th);
    '(cr, s) ← crgetcred s (t_procp th);
    upd_thr t (set_tcred cr) s
  else Ok s.

(** A file to be executed: whether its file system disallows set-id files, whether [VSUID]
    and [VSGID] are set in its mode, and its owner and group. *)
Record execfile := MkFile { f_nosuid : bool; f_vsuid : bool; f_vsgid : bool; f_uid : Z; f_gid : Z }.

Definition execsetid (traced : bool) (i : ids) (f : execfile) : option (Z * Z) :=
  let uid := if negb (f_nosuid f) && f_vsuid f then f_uid f else i_uid i in
  let gid := if negb (f_nosuid f) && f_vsgid f then f_gid f else i_gid i in
  if (negb traced || (i_uid i =? 0)) &&
     (negb (i_uid i =? uid) || negb (i_gid i =? gid) || negb (i_suid i =? uid) || negb (i_sgid i =? gid))
  then Some (uid, gid) else None.

(** The part of [gexec] on credentials, at level 0.  [error] is what the handler of the
    file's format gives; [t] is the only thread of the process. *)
Definition gexec (s : csys) (t newcr : Z) (f : execfile) (error : Z) : res (Z * csys) :=
  th ← deref (cs_thr s !! t);
  let p := t_procp th in
  pr ← deref (cs_proc s !! p);
  c ← deref (cs_cred s !! p_cred pr);
  let i := cr_ids c in
  match execsetid (p_strc pr) i f with
  | None => Ok (error, s)
  | Some (uid, gid) =>
    s ← (if negb (i_suid i =? 0) && negb (i_uid i =? 0) &&
           ((f_vsuid f && negb (uid =? i_suid i) && negb (uid =? i_uid i)) ||
            (f_vsgid f && negb (gid =? i_sgid i) && negb (groupmember gid i)))
         then upd_cproc p set_nocd s else Ok s);
    s ← crdup s (p_cred pr) newcr;
    s ← upd_ids newcr (set_uid uid) s;
    s ← upd_ids newcr (set_gid gid) s;
    s ← upd_ids newcr (set_suid uid) s;
    s ← upd_ids newcr (set_sgid gid) s;
    if negb (error =? 0) then s ← crfree s newcr; Ok (error, s)
    else
      pr ← deref (cs_proc s !! p);
      s ← crfree s (p_cred pr);
      s ← upd_cproc p (set_pcred newcr) s;
      s ← crhold s newcr;
      th ← deref (cs_thr s !! t);
      s ← crfree s (t_cred th);
      s ← upd_thr t (set_tcred newcr) s;
      Ok (0, s)
  end.

(** [getproc] (os/fork.c): the count and the credentials of the child [cp]; [CRED] is the
    credentials of the thread. *)
Definition fork_cred (s : csys) (t cp : Z) : res csys :=
  th ← deref (cs_thr s !! t);
  c ← deref (cs_cred s !! t_cred th);
  h ← upcount_inc (upc_hash s) (i_ruid (cr_ids c));
  let s := set_upc h s in
  pr ← deref (cs_proc s !! t_procp th);
  s ← crhold s (p_cred pr);
  Ok (set_cprocs (<[cp := MkCProc (p_cred pr) false false []]> (cs_proc s)) s).

(** [fork_fail], when the child's process is then freed. *)
Definition fork_fail (s : csys) (cp : Z) : res csys :=
  pr ← deref (cs_proc s !! cp);
  s ← crfree s (p_cred pr);
  Ok (set_cprocs (delete cp (cs_proc s)) s).

(** [thread_create] and [thread_free] (disp/thread.c).  [thread_create] does not take [p_crlock]: it
    reads [p_cred], and holds what it has read; others may come in between. *)
Definition thread_read (s : csys) (p : Z) : res Z := pr ← deref (cs_proc s !! p); Ok (p_cred pr).

Definition thread_hold (s : csys) (p t cr : Z) : res csys :=
  s ← crhold s cr;
  Ok (set_thrs (<[t := MkCThread p cr false None]> (cs_thr s)) s).

Definition thread_free (s : csys) (t : Z) : res csys :=
  th ← deref (cs_thr s !! t);
  s ← crfree s (t_cred th);
  Ok (set_thrs (delete t (cs_thr s)) s).

(** [freeproc] (os/exit.c). *)
Definition freeproc_cred (s : csys) (p : Z) : res csys :=
  pr ← deref (cs_proc s !! p);
  c ← deref (cs_cred s !! p_cred pr);
  h ← upcount_dec (upc_hash s) (i_ruid (cr_ids c));
  let s := set_upc h s in
  s ← crfree s (p_cred pr);
  Ok (set_cprocs (delete p (cs_proc s)) s).

(** The state after [cred_init]: the first process and its thread have [kcred], whose one
    reference is that of [crget]. *)
Definition sched : Z := 0.
Definition cred_init (upc_hashsize : Z) : csys :=
  MkCs {[kcred := MkCred 1 no_ids]} {[sched := MkCProc kcred false false []]} {[sched := MkCThread sched kcred false None]}
    (upcount_init upc_hashsize).
