(* ===== verification/CredProps.v ===== *)
(** * Reference counts of credentials

    Every section on credentials either leaves the state as it is or replaces the
    credentials of a process by a changed copy: [change].  The invariant says that a
    structure exists while it is pointed to, and counts the pointers. *)

From S2P Require Import Prelude Upcount Cred.

(** ** The sections as one step *)

(** Process [p] gets the credentials [new], with ids [i] and two references, and drops its
    reference to its old ones. *)
Definition change (s : csys) (p new : Z) (i : ids) : res csys :=
  pr ← deref (cs_proc s !! p);
  crfree (MkCs (<[new := MkCred 2 i]> (cs_cred s)) (<[p := set_pcred new pr]> (cs_proc s)) (cs_thr s) (upc_hash s)) (p_cred pr).

Lemma crfree_creds s s' c : crfree s c = Ok s' → cs_proc s' = cs_proc s ∧ cs_thr s' = cs_thr s ∧ upc_hash s' = upc_hash s ∧
  ∀ x, x ≠ c → cs_cred s' !! x = cs_cred s !! x.
Proof.
  unfold crfree. destruct (cs_cred s !! c) as [cr|]; [|done]. cbn [deref mbind res_bind]. destruct (0 <? _).
  - intros [= <-]. split_and!; try done. intros x Hx. simpl. by rewrite lookup_insert_ne.
  - destruct (c =? kcred); [done|]. intros [= <-]. split_and!; try done. intros x Hx. simpl. by rewrite lookup_delete_ne.
Qed.

(** [crfree] leaves another structure to be changed before or after. *)
Lemma crfree_swap m procs procs' thr upc c new x : c ≠ new →
  (s ← crfree (MkCs m procs thr upc) c; Ok (MkCs (<[new := x]> (cs_cred s)) procs' (cs_thr s) (upc_hash s))) =
  crfree (MkCs (<[new := x]> m) procs' thr upc) c.
Proof.
  intros Hne. unfold crfree. simpl. rewrite lookup_insert_ne by done. destruct (m !! c) as [cr|]; [|done]. cbn [deref mbind res_bind].
  destruct (0 <? _); [|destruct (c =? kcred); [done|]]; cbn [mbind res_bind]; unfold set_creds; simpl.
  - by rewrite insert_insert_ne.
  - by rewrite delete_insert_ne.
Qed.

Section change.
Context (s : csys) (p new : Z) (pr : cproc) (c : cred).
Hypothesis Ep : cs_proc s !! p = Some pr.
Hypothesis Ec : cs_cred s !! p_cred pr = Some c.
Hypothesis Enew : cs_cred s !! new = None.

Lemma change_new i s' : change s p new i = Ok s' → cs_cred s' !! new = Some (MkCred 2 i) ∧
  cs_proc s' = <[p := set_pcred new pr]> (cs_proc s) ∧ cs_thr s' = cs_thr s ∧ upc_hash s' = upc_hash s ∧
  ∀ x, x ≠ new → x ≠ p_cred pr → cs_cred s' !! x = cs_cred s !! x.
Proof using Ep Ec Enew.
  unfold change. rewrite Ep. cbn [deref mbind res_bind]. intros (E1 & E2 & E3 & E4)%crfree_creds. simpl in *.
  assert (new ≠ p_cred pr) by congruence. rewrite E4, lookup_insert_eq by done. split_and!; try done.
  intros x Hx Hx'. rewrite E4 by done. by rewrite lookup_insert_ne.
Qed.

(** The copy and the new pointer. *)
Lemma change_copy {A} (k : csys → res A) :
  (s' ← crcopy_to (crget s new) (p_cred pr) new; s' ← upd_cproc p (set_pcred new) s'; k s') = (s' ← change s p new (cr_ids c); k s').
Proof using Ep Ec Enew.
  assert (p_cred pr ≠ new) as Hne by congruence.
  transitivity (s' ← (s' ← (s1 ← crcopy_to (crget s new) (p_cred pr) new; upd_cproc p (set_pcred new) s1); Ok s'); k s').
  { destruct (crcopy_to _ _ _) as [s1| |]; [|done..]. cbn [mbind res_bind]. by destruct (upd_cproc _ _ _). }
  assert ((s1 ← crcopy_to (crget s new) (p_cred pr) new; upd_cproc p (set_pcred new) s1) = change s p new (cr_ids c)) as ->.
  2: { by destruct (change s p new (cr_ids c)). }
  unfold change. rewrite Ep. cbn [deref mbind res_bind].
  rewrite <- (crfree_swap _ (cs_proc s)) by done.
  unfold crcopy_to, bcopy_cred, upd_cred, crget. cbn [cs_cred set_creds]. rewrite (lookup_insert_ne _ new (p_cred pr)), Ec by congruence.
  cbn [deref mbind res_bind]. rewrite lookup_insert_eq. cbn [deref mbind res_bind].
  assert (set_creds (<[new:=c]> (<[new:=MkCred 1 no_ids]> (cs_cred s))) (crget s new) =
    MkCs (<[new:=c]> (cs_cred s)) (cs_proc s) (cs_thr s) (upc_hash s)) as E by (unfold set_creds, crget; simpl; by rewrite insert_insert_eq).
  unfold crget in E. rewrite E. rewrite <- (crfree_swap (cs_cred s) (cs_proc s) (cs_proc s)) by done.
  destruct (crfree (MkCs (cs_cred s) (cs_proc s) (cs_thr s) (upc_hash s)) (p_cred pr)) as [s1| |] eqn:E1; [|done..].
  cbn [mbind res_bind cs_cred]. rewrite lookup_insert_eq. cbn [deref mbind res_bind]. unfold upd_cproc. simpl. rewrite Ep.
  cbn [deref mbind res_bind]. unfold set_cprocs, set_creds. simpl. by rewrite insert_insert_eq.
Qed.

Lemma change_upd {A} i f (k : csys → res A) :
  (s' ← change s p new i; s' ← upd_ids new f s'; k s') = (s' ← change s p new (f i); k s').
Proof using Ep Ec Enew.
  assert (p_cred pr ≠ new) as Hne by congruence.
  unfold change. rewrite Ep. cbn [deref mbind res_bind]. rewrite <- !(crfree_swap _ (cs_proc s)) by done.
  destruct (crfree (MkCs (cs_cred s) (cs_proc s) (cs_thr s) (upc_hash s)) (p_cred pr)) as [s1| |] eqn:E1; [|done..].
  cbn [mbind res_bind]. unfold upd_ids, upd_cred. cbn [cs_cred]. rewrite lookup_insert_eq. cbn [deref mbind res_bind].
  unfold set_creds. simpl. by rewrite insert_insert_eq.
Qed.

Lemma change_read {A} i (k : csys → cred → res A) :
  (s' ← change s p new i; n ← deref (cs_cred s' !! new); k s' n) = (s' ← change s p new i; k s' (MkCred 2 i)).
Proof using Ep Ec Enew.
  destruct (change s p new i) as [s'| |] eqn:E; [|done..]. cbn [mbind res_bind].
  apply change_new in E as (-> & _). done.
Qed.

End change.

(** The new structure is given back. *)
Lemma crfree_fresh s new : cs_cred s !! new = None → new ≠ kcred → crfree (crget s new) new = Ok s.
Proof.
  intros Enew Hk. unfold crfree, crget. cbn [cs_cred set_creds]. rewrite lookup_insert_eq. simpl.
  rewrite (proj2 (Z.eqb_neq new kcred)) by done. unfold set_creds. simpl. rewrite delete_insert_eq.
  rewrite delete_id by done. by destruct s.
Qed.

Lemma upd_ids_insert s m new r i f :
  upd_ids new f (set_creds (<[new := MkCred r i]> m) s) = Ok (set_creds (<[new := MkCred r (f i)]> m) s).
Proof.
  unfold upd_ids, upd_cred. cbn [cs_cred set_creds]. rewrite lookup_insert_eq. cbn [deref mbind res_bind]. unfold set_creds. simpl.
  by rewrite insert_insert_eq.
Qed.

(** ** What each section does to the ids *)

(** The new ids, or an error. *)
Definition setuid_ids (i : ids) (uid : Z) : Z + ids :=
  if negb (i_uid i =? 0) && ((uid =? i_ruid i) || (uid =? i_suid i)) then inr (set_uid uid i)
  else if suser i then inr (set_uid uid (set_suid uid (set_ruid uid i)))
  else inl EPERM.

Definition seteuid_ids (i : ids) (uid : Z) : Z + ids :=
  if (uid =? i_ruid i) || (uid =? i_uid i) || (uid =? i_suid i) || suser i then inr (set_uid uid i) else inl EPERM.

(** -1 leaves an id as it is; the saved id follows the effective one when the real id is
    given or the effective one is given and is not the real one. *)
Definition setreuid_ids (i : ids) (ruid euid : Z) : Z + ids :=
  if negb (ruid =? -1) && negb (ruid =? i_ruid i) && negb (ruid =? i_uid i) && negb (suser i) then inl EPERM
  else if negb (euid =? -1) && negb (euid =? i_ruid i) && negb (euid =? i_uid i) && negb (euid =? i_suid i) && negb (suser i) then inl EPERM
  else
    let e := if euid =? -1 then i_uid i else euid in
    let r := if ruid =? -1 then i_ruid i else ruid in
    let v := if negb (ruid =? -1) || (negb (euid =? -1) && negb (e =? r)) then e else i_suid i in
    inr (MkIds e (i_gid i) r (i_rgid i) v (i_sgid i) (i_groups i)).

Definition setgid_ids (i : ids) (gid : Z) : Z + ids :=
  if negb (i_uid i =? 0) && ((gid =? i_rgid i) || (gid =? i_sgid i)) then inr (set_gid gid i)
  else if suser i then inr (set_sgid gid (set_rgid gid (set_gid gid i)))
  else inl EPERM.

Definition setegid_ids (i : ids) (gid : Z) : Z + ids :=
  if (gid =? i_rgid i) || (gid =? i_gid i) || (gid =? i_sgid i) || suser i then inr (set_gid gid i) else inl EPERM.

Definition setregid_ids (i : ids) (rgid egid : Z) : Z + ids :=
  if negb (rgid =? -1) && negb (rgid =? i_rgid i) && negb (rgid =? i_gid i) && negb (suser i) then inl EPERM
  else if negb (egid =? -1) && negb (egid =? i_rgid i) && negb (egid =? i_gid i) && negb (egid =? i_sgid i) && negb (suser i) then inl EPERM
  else
    let e := if egid =? -1 then i_gid i else egid in
    let r := if rgid =? -1 then i_rgid i else rgid in
    let v := if negb (rgid =? -1) || (negb (egid =? -1) && negb (e =? r)) then e else i_sgid i in
    inr (MkIds (i_uid i) e (i_ruid i) r (i_suid i) v (i_groups i)).

Definition setgroups_ids (ngroups_max : Z) (i : ids) (gidsetsize : Z) (gidset : list Z) : Z + ids :=
  let n := gidsetsize mod 2 ^ 16 in
  let fits := n <=? ngroups_max mod 2 ^ 16 in
  if negb (n =? 0) && fits && (Z.of_nat (length gidset) <? n) then inl EFAULT
  else if negb (suser i) then inl EPERM
  else if negb fits then inl EINVAL
  else if forallb good_gid (take (Z.to_nat n) gidset) then inr (set_grouplist (take (Z.to_nat n) gidset) i)
  else inl EINVAL.

(** A section that changes ids as [f] says. *)
Definition by_spec (s : csys) (p new : Z) (r : Z + ids) : res (Z * csys) :=
  match r with inl e => Ok (e, s) | inr i => s ← change s p new i; Ok (0, s) end.

Section sections.
Context (s : csys) (p new : Z) (pr : cproc) (c : cred).
Hypothesis Ep : cs_proc s !! p = Some pr.
Hypothesis Ec : cs_cred s !! p_cred pr = Some c.
Hypothesis Enew : cs_cred s !! new = None.
Hypothesis Hk : new ≠ kcred.

Lemma crget_lookup : cs_cred (crget s new) !! p_cred pr = Some c.
Proof using Ec Enew. unfold crget. simpl. by rewrite lookup_insert_ne by congruence. Qed.

Ltac section_eq f :=
  unfold f; cbn [cs_proc crget set_creds] in *; rewrite Ep; cbn [deref mbind res_bind];
  rewrite crget_lookup; cbn [deref mbind res_bind].
Ltac rejected := rewrite (crfree_fresh s new Enew Hk); done.
Ltac copied :=
  rewrite (change_copy s p new pr c Ep Ec Enew);
  repeat (rewrite (change_upd s p new pr c Ep Ec Enew) || rewrite (change_read s p new pr c Ep Ec Enew)).

Lemma seteuid_section_eq uid : seteuid_section s p new uid = by_spec s p new (seteuid_ids (cr_ids c) uid).
Proof using Ep Ec Enew Hk. section_eq seteuid_section. unfold seteuid_ids. destruct (_ || suser _); [by copied|rejected]. Qed.

Lemma setegid_section_eq gid : setegid_section s p new gid = by_spec s p new (setegid_ids (cr_ids c) gid).
Proof using Ep Ec Enew Hk. section_eq setegid_section. unfold setegid_ids. destruct (_ || suser _); [by copied|rejected]. Qed.

Lemma setgid_section_eq gid : setgid_section s p new gid = by_spec s p new (setgid_ids (cr_ids c) gid).
Proof using Ep Ec Enew Hk.
  section_eq setgid_section. unfold setgid_ids. destruct (negb _ && _); [by copied|]. destruct (suser _); [by copied|rejected].
Qed.

(** The old real uid, or the new one if it stays. *)
Definition old_ruid (i : ids) (r : Z + ids) (uid : Z) : Z := match r with inl _ => uid | inr j => i_ruid i end.

Lemma setuid_section_eq uid : setuid_section s p new uid =
  ('(e, s') ← by_spec s p new (setuid_ids (cr_ids c) uid);
   Ok (e, if negb (i_uid (cr_ids c) =? 0) && ((uid =? i_ruid (cr_ids c)) || (uid =? i_suid (cr_ids c))) then uid
          else if suser (cr_ids c) then i_ruid (cr_ids c) else uid, s')).
Proof using Ep Ec Enew Hk.
  section_eq setuid_section. unfold setuid_ids. destruct (negb _ && _); [copied; cbn [by_spec]; by destruct (change _ _ _ _)|].
  destruct (suser _); [copied; cbn [by_spec]; by destruct (change _ _ _ _)|rejected].
Qed.

Lemma setreuid_section_eq ruid euid : setreuid_section s p new ruid euid =
  ('(e, s') ← by_spec s p new (setreuid_ids (cr_ids c) ruid euid);
   Ok (e, if (e =? 0) && negb (ruid =? -1) then i_ruid (cr_ids c) else ruid, s')).
Proof using Ep Ec Enew Hk.
  section_eq setreuid_section. unfold setreuid_ids. destruct (negb _ && _ && _ && _); [rejected|].
  destruct (negb _ && _ && _ && _ && _); [rejected|].
  rewrite (change_copy s p new pr c Ep Ec Enew). destruct (euid =? -1) eqn:Ee, (ruid =? -1) eqn:Er; simpl; cbn [mbind res_bind].
  all: repeat (rewrite (change_upd s p new pr c Ep Ec Enew) || rewrite (change_read s p new pr c Ep Ec Enew)); simpl.
  3: destruct (euid =? i_ruid (cr_ids c)); simpl; cbn [mbind res_bind]; rewrite ?(change_upd s p new pr c Ep Ec Enew).
  all: destruct (cr_ids c); simpl; by destruct (change _ _ _ _).
Qed.

Lemma setregid_section_eq rgid egid : setregid_section s p new rgid egid = by_spec s p new (setregid_ids (cr_ids c) rgid egid).
Proof using Ep Ec Enew Hk.
  section_eq setregid_section. unfold setregid_ids. destruct (negb _ && _ && _ && _); [rejected|].
  destruct (negb _ && _ && _ && _ && _); [rejected|].
  rewrite (change_copy s p new pr c Ep Ec Enew). destruct (egid =? -1) eqn:Ee, (rgid =? -1) eqn:Er; simpl; cbn [mbind res_bind].
  all: repeat (rewrite (change_upd s p new pr c Ep Ec Enew) || rewrite (change_read s p new pr c Ep Ec Enew)); simpl.
  3: destruct (egid =? i_rgid (cr_ids c)); simpl; cbn [mbind res_bind]; rewrite ?(change_upd s p new pr c Ep Ec Enew).
  all: destruct (cr_ids c); simpl; by destruct (change _ _ _ _).
Qed.

(** The copy with one reference. *)
Lemma crdup_eq : crdup s (p_cred pr) new = Ok (set_creds (<[new := MkCred 1 (cr_ids c)]> (cs_cred s)) s).
Proof using Ec Enew.
  unfold crdup, crdup_to, bcopy_cred. rewrite crget_lookup. cbn [deref mbind res_bind]. unfold upd_cred, crget, set_creds. simpl.
  rewrite lookup_insert_eq. cbn [deref mbind res_bind]. simpl. rewrite lookup_insert_eq. cbn [deref mbind res_bind].
  simpl. by rewrite !insert_insert_eq.
Qed.

(** A new structure with one reference that then is given to the process and held. *)
Lemma change_hold {A} i (k : csys → res A) :
  (s' ← upd_cproc p (set_pcred new) (set_creds (<[new := MkCred 1 i]> (cs_cred s)) s); s' ← crhold s' new; s' ← crfree s' (p_cred pr); k s') =
  (s' ← change s p new i; k s').
Proof using Ep Ec Enew.
  unfold upd_cproc, crhold, upd_cred. cbn [cs_proc set_creds]. rewrite Ep. cbn [deref mbind res_bind]. cbn [cs_cred set_cprocs set_creds].
  rewrite lookup_insert_eq. cbn [deref mbind res_bind]. unfold change. rewrite Ep. cbn [deref mbind res_bind].
  unfold set_creds, set_cprocs. simpl. by rewrite insert_insert_eq.
Qed.

Lemma setgroups_section_eq ngroups_max n gidset :
  setgroups_section ngroups_max s p new n gidset = by_spec s p new (setgroups_ids ngroups_max (cr_ids c) n gidset).
Proof using Ep Ec Enew Hk.
  unfold setgroups_section, setgroups_ids. set (k := n mod 2 ^ 16). set (fits := k <=? ngroups_max mod 2 ^ 16).
  assert ((ngroups_max mod 2 ^ 16 <? k) = negb fits) as -> by (unfold fits; apply Z.ltb_antisym).
  assert (0 ≤ k) as Hk0 by (apply Z.mod_pos_bound; lia).
  set (groups := take (Z.to_nat k) gidset).
  assert (match (if negb (k =? 0) && fits then copyin_groups k gidset else Some []) with
    | None => negb (k =? 0) && fits && (Z.of_nat (length gidset) <? k) = true
    | Some l => negb (k =? 0) && fits && (Z.of_nat (length gidset) <? k) = false ∧ (fits = true → l = groups)
    end) as Hc.
  { unfold copyin_groups. destruct (negb (k =? 0)) eqn:E0, fits; simpl.
    - by destruct (_ <? _).
    - split; done.
    - split; [done|]. intros _. apply negb_false_iff, Z.eqb_eq in E0. subst groups. by rewrite E0.
    - by split. }
  destruct (if negb (k =? 0) && fits then copyin_groups k gidset else Some []) as [l|]; [|by rewrite Hc].
  destruct Hc as [-> Hl]. cbn [cs_proc crget set_creds]. rewrite Ep. cbn [deref mbind res_bind]. rewrite crget_lookup. cbn [deref mbind res_bind].
  destruct (suser (cr_ids c)); simpl negb; cbn [by_spec]; [|rejected]. destruct fits; simpl negb; cbn [by_spec]; [|rejected].
  rewrite (Hl eq_refl). fold (crdup s (p_cred pr) new). rewrite crdup_eq. cbn [mbind res_bind].
  destruct (forallb good_gid groups); simpl negb; cbn [by_spec].
  - rewrite upd_ids_insert. cbn [mbind res_bind]. by rewrite change_hold.
  - unfold crfree. cbn [cs_cred set_creds]. rewrite lookup_insert_eq. simpl. rewrite (proj2 (Z.eqb_neq new kcred)) by done.
    unfold set_creds. simpl. rewrite delete_insert_eq, delete_id by done. by destruct s.
Qed.
End sections.

(** ** exec *)

Definition exec_ids (i : ids) (uid gid : Z) : ids := set_sgid gid (set_suid uid (set_gid gid (set_uid uid i))).

(** The state after the test for new ids. *)
Definition exec_nocd (s : csys) (p : Z) (pr : cproc) (i : ids) (f : execfile) (uid gid : Z) : csys :=
  if negb (i_suid i =? 0) && negb (i_uid i =? 0) &&
     ((f_vsuid f && negb (uid =? i_suid i) && negb (uid =? i_uid i)) || (f_vsgid f && negb (gid =? i_sgid i) && negb (groupmember gid i)))
  then set_cprocs (<[p := set_nocd pr]> (cs_proc s)) s else s.

Lemma exec_nocd_spec s p pr i f uid gid : cs_proc s !! p = Some pr → ∃ pr',
  exec_nocd s p pr i f uid gid = set_cprocs (<[p := pr']> (cs_proc s)) s ∧ p_cred pr' = p_cred pr ∧ p_strc pr' = p_strc pr ∧ p_moves pr' = p_moves pr.
Proof.
  intros Ep. unfold exec_nocd. case_match; [by exists (set_nocd pr)|]. exists pr. rewrite insert_id by done. split; [|done].
  unfold set_cprocs. by destruct s.
Qed.

Lemma gexec_eq s t new f error th pr c : cs_thr s !! t = Some th → cs_proc s !! t_procp th = Some pr → cs_cred s !! p_cred pr = Some c →
  cs_cred s !! new = None → new ≠ kcred →
  gexec s t new f error =
  match execsetid (p_strc pr) (cr_ids c) f with
  | None => Ok (error, s)
  | Some (uid, gid) =>
    let s1 := exec_nocd s (t_procp th) pr (cr_ids c) f uid gid in
    if error =? 0 then
      s2 ← change s1 (t_procp th) new (exec_ids (cr_ids c) uid gid);
      s2 ← crfree s2 (t_cred th);
      s2 ← upd_thr t (set_tcred new) s2;
      Ok (0, s2)
    else Ok (error, s1)
  end.
Proof.
  intros Et Ep Ec Enew Hk. unfold gexec. rewrite Et. cbn [deref mbind res_bind]. rewrite Ep. cbn [deref mbind res_bind]. rewrite Ec. cbn [deref mbind res_bind].
  destruct (execsetid _ _ _) as [[uid gid]|]; [|done]. cbv zeta.
  pose proof (exec_nocd_spec s (t_procp th) pr (cr_ids c) f uid gid Ep) as (pr' & Es1 & E1 & _ & _).
  match goal with |- (?a ≫= _) = _ => assert (a = Ok (exec_nocd s (t_procp th) pr (cr_ids c) f uid gid)) as -> end.
  { unfold exec_nocd. destruct (_ && _); [|done]. unfold upd_cproc. rewrite Ep. done. }
  cbn [mbind res_bind]. rewrite Es1. clear Es1. set (s1 := set_cprocs _ s).
  assert (cs_proc s1 !! t_procp th = Some pr') as Ep1 by (unfold s1; apply lookup_insert_eq).
  assert (cs_cred s1 = cs_cred s) as Es1 by done.
  assert (cs_cred s1 !! p_cred pr' = Some c) as Ec1 by (by rewrite E1).
  rewrite <- E1, (crdup_eq s1 new pr' c Ec1 Enew). cbn [mbind res_bind].
  set (m := cs_cred s1) in *.
  do 4 (rewrite upd_ids_insert; cbn [mbind res_bind]).
  fold (exec_ids (cr_ids c) uid gid). destruct (error =? 0) eqn:Ee; simpl negb; cbv iota.
  - cbn [cs_proc set_creds]. rewrite Ep1. cbn [deref mbind res_bind]. unfold change. rewrite Ep1. cbn [deref mbind res_bind].
    assert (p_cred pr' ≠ new) as Hne by (intros E; rewrite E, Es1 in Ec1; congruence).
    change (set_creds (<[new := MkCred 1 (exec_ids (cr_ids c) uid gid)]> m) s1) with
      (MkCs (<[new := MkCred 1 (exec_ids (cr_ids c) uid gid)]> m) (cs_proc s1) (cs_thr s1) (upc_hash s1)).
    rewrite <- !(crfree_swap m (cs_proc s1)) by done.
    destruct (crfree (MkCs m _ _ _) _) as [s3| |] eqn:E3; [|done..]. cbn [mbind res_bind].
    apply crfree_creds in E3 as (E3p & E3t & _). simpl in E3p, E3t.
    unfold upd_cproc. cbn [cs_proc]. rewrite Ep1. cbn [deref mbind res_bind]. unfold crhold, upd_cred. cbn [cs_cred set_cprocs].
    rewrite lookup_insert_eq. cbn [deref mbind res_bind]. cbn [cs_thr cs_cred set_creds set_cprocs]. rewrite E3t. change (cs_thr s1) with (cs_thr s). rewrite Et.
    cbn [deref mbind res_bind]. unfold set_cprocs, set_creds. simpl. by rewrite insert_insert_eq.
  - unfold crfree. cbn [cs_cred set_creds]. rewrite lookup_insert_eq. simpl. rewrite (proj2 (Z.eqb_neq new kcred)) by done.
    cbn [mbind res_bind]. unfold set_creds. simpl. rewrite delete_insert_eq, delete_id by (change (cs_cred s !! new = None); done). done.
Qed.
