(* ===== verification/CredInv.v ===== *)
(** * The invariant of credentials and its steps

    Each step is stated for a state in which [d] references are held by other than the
    process and thread tables. *)

From S2P Require Import Prelude Upcount Cred CredProps.

Definition holds_p (c : Z) (pr : cproc) : Z := b2z (bool_decide (p_cred pr = c)).
Definition holds_t (c : Z) (th : cthread) : Z := b2z (bool_decide (t_cred th = c)) + b2z (bool_decide (t_new th = Some c)).
Definition holders (s : csys) (c : Z) : Z := msum (holds_p c) (cs_proc s) + msum (holds_t c) (cs_thr s).

(** [cred_init] does not count the reference of the first thread. *)
Definition low (c : Z) : Z := if c =? kcred then -1 else 0.

Record cr_inv (d : Z → Z) (s : csys) : Prop := {
  ci_ref c x : cs_cred s !! c = Some x → 1 ≤ cr_ref x ∧ cr_ref x = holders s c + d c;
  ci_proc p pr : cs_proc s !! p = Some pr → is_Some (cs_cred s !! p_cred pr);
  ci_thr t th : cs_thr s !! t = Some th → is_Some (cs_cred s !! t_cred th) ∧ ∀ n, t_new th = Some n → is_Some (cs_cred s !! n);
  ci_none c : cs_cred s !! c = None → d c = 0;
  ci_sched : ∃ pr, cs_proc s !! sched = Some pr ∧ p_cred pr = kcred ∧ p_moves pr = [];
  ci_t0 : ∃ th, cs_thr s !! sched = Some th ∧ t_cred th = kcred ∧ t_procp th = sched ∧ t_new th = None;
  ci_kcred : cr_ids <$> cs_cred s !! kcred = Some no_ids
}.

Lemma cr_inv_ext d d' s : (∀ c, d c = d' c) → cr_inv d s → cr_inv d' s.
Proof. intros E [I1 I2 I3 I4 I5 I6 I7]. split; try done; intros; rewrite <- ?E; eauto. Qed.

Lemma holds_p_nonneg c pr : 0 ≤ holds_p c pr.
Proof. apply b2z_nonneg. Qed.

Lemma holds_t_nonneg c th : 0 ≤ holds_t c th.
Proof. unfold holds_t. pose proof (b2z_nonneg (bool_decide (t_cred th = c))). pose proof (b2z_nonneg (bool_decide (t_new th = Some c))). lia. Qed.

#[local] Hint Resolve holds_p_nonneg holds_t_nonneg : kern.

Lemma holders_nonneg s c : 0 ≤ holders s c.
Proof.
  unfold holders. pose proof (msum_nonneg (holds_p c) (cs_proc s) ltac:(auto with kern)).
  pose proof (msum_nonneg (holds_t c) (cs_thr s) ltac:(auto with kern)). lia.
Qed.

Lemma holders_p s p pr : cs_proc s !! p = Some pr → 1 ≤ holders s (p_cred pr).
Proof.
  intros E. unfold holders. pose proof (msum_nonneg (holds_t (p_cred pr)) (cs_thr s) ltac:(auto with kern)).
  pose proof (msum_member (holds_p (p_cred pr)) (cs_proc s) p pr ltac:(auto with kern) E) as H1.
  unfold holds_p in H1 at 1. rewrite b2z_decide_eq in H1. lia.
Qed.

Lemma holders_t s t th : cs_thr s !! t = Some th → holds_t (t_cred th) th ≤ holders s (t_cred th) ∧ ∀ n, t_new th = Some n → 1 ≤ holders s n.
Proof.
  intros E. unfold holders. split.
  - pose proof (msum_nonneg (holds_p (t_cred th)) (cs_proc s) ltac:(auto with kern)).
    pose proof (msum_member (holds_t (t_cred th)) (cs_thr s) t th ltac:(auto with kern) E). lia.
  - intros n En. pose proof (msum_nonneg (holds_p n) (cs_proc s) ltac:(auto with kern)).
    pose proof (msum_member (holds_t n) (cs_thr s) t th ltac:(auto with kern) E) as H1. unfold holds_t in H1 at 1.
    rewrite En, b2z_decide_eq in H1. pose proof (b2z_nonneg (bool_decide (t_cred th = n))). lia.
Qed.

(** Nobody points to a structure that does not exist. *)
Lemma holders_none d s c : cr_inv d s → cs_cred s !! c = None → holders s c = 0.
Proof.
  intros [_ I2 I3 _ _ _ _] E. unfold holders.
  rewrite (msum_zero (holds_p c)), (msum_zero (holds_t c)); [done| |].
  - intros t th Et. destruct (I3 t th Et) as [[x Hx] Hn]. unfold holds_t. rewrite !bool_decide_false; [done| |congruence].
    intros En. destruct (Hn c En). congruence.
  - intros p pr Ep. destruct (I2 p pr Ep). unfold holds_p. by rewrite bool_decide_false by congruence.
Qed.

(** The two that the first process and its thread hold. *)
Lemma holders_kcred d s : cr_inv d s → 2 ≤ holders s kcred.
Proof.
  intros [_ _ _ _ (pr & Ep & <- & _) (th & Et & Ek & _) _]. unfold holders.
  pose proof (msum_member (holds_p (p_cred pr)) (cs_proc s) _ pr ltac:(auto with kern) Ep) as H1.
  unfold holds_p in H1 at 1. rewrite b2z_decide_eq in H1.
  pose proof (msum_member (holds_t (p_cred pr)) (cs_thr s) _ th ltac:(auto with kern) Et) as H2.
  unfold holds_t in H2 at 1. rewrite bool_decide_true in H2 by congruence.
  pose proof (b2z_nonneg (bool_decide (t_new th = Some (p_cred pr)))). unfold b2z in H2 at 1. lia.
Qed.

(** ** What stays of the ids *)

Definition ids_at (s : csys) (c : Z) : option ids := cr_ids <$> cs_cred s !! c.

Definition ids_kept (s s' : csys) : Prop := ∀ c i, ids_at s' c = Some i → ids_at s c = Some i.

Lemma ids_kept_refl s s' : cs_cred s' = cs_cred s → ids_kept s s'.
Proof. intros E c i. unfold ids_at. by rewrite E. Qed.

Lemma ids_kept_trans s1 s2 s3 : ids_kept s1 s2 → ids_kept s2 s3 → ids_kept s1 s3.
Proof. intros H1 H2 c i Hc. auto. Qed.

Lemma ids_at_Some s c : is_Some (cs_cred s !! c) → ∃ i, ids_at s c = Some i.
Proof. intros [x E]. unfold ids_at. rewrite E. by exists (cr_ids x). Qed.

(** ** The steps *)

Lemma crfree_inv d s c : cr_inv d s → is_Some (cs_cred s !! c) → low c ≤ d c - 1 →
  ∃ s', crfree s c = Ok s' ∧ cr_inv (plus_at d c (-1)) s' ∧ ids_kept s s' ∧
    cs_proc s' = cs_proc s ∧ cs_thr s' = cs_thr s ∧ upc_hash s' = upc_hash s.
Proof.
  intros Hi [x Ex] Hd. pose proof Hi as [I1 I2 I3 I4 I5 I6 I7]. destruct (I1 c x Ex) as [H1 Href]. pose proof (holders_kcred d s Hi) as Hk.
  pose proof (holders_nonneg s c) as H0. unfold crfree. rewrite Ex. cbn [deref mbind res_bind]. destruct (Z.ltb_spec 0 (cr_ref x - 1)).
  - eexists. split; [done|]. split; [|split; [|done]].
    + assert (∀ y, is_Some (cs_cred s !! y) → is_Some (<[c := MkCred (cr_ref x - 1) (cr_ids x)]> (cs_cred s) !! y)) as Hd'.
      { intros y Hy. destruct (decide (y = c)) as [->|]; [rewrite lookup_insert_eq; by eexists|by rewrite lookup_insert_ne]. }
      split; simpl.
      * intros y z. rewrite lookup_insert_Some. unfold plus_at. intros [(<- & <-)|[Hne Ey]]; simpl.
        -- rewrite decide_True by done. split; [lia|]. unfold holders in *. simpl. lia.
        -- rewrite decide_False by done. destruct (I1 y z Ey). unfold holders in *. simpl. lia.
      * intros p pr Ep. eauto.
      * intros t th Et. destruct (I3 t th Et). eauto.
      * intros y. unfold plus_at. rewrite lookup_insert_None. intros [Ey Hne]. rewrite decide_False by done. rewrite I4 by done. lia.
      * done.
      * done.
      * destruct (decide (c = kcred)) as [->|]; [rewrite lookup_insert_eq; simpl; rewrite Ex in I7; done|by rewrite lookup_insert_ne].
    + intros y i. unfold ids_at. simpl. rewrite !fmap_Some. intros (z & Ez & ->). rewrite lookup_insert_Some in Ez.
      destruct Ez as [(<- & <-)|[_ Ez]]; [by exists x|by exists z].
  - unfold low in Hd. destruct (Z.eqb_spec c kcred) as [->|Hne]; [lia|].
    assert (holders s c = 0 ∧ d c = 1) as [Eh Ed] by lia. eexists. split; [done|]. split; [|split; [|done]].
    + split; simpl.
      * intros y z. rewrite lookup_delete_Some. unfold plus_at. intros [Hny Ey]. rewrite decide_False by done.
        destruct (I1 y z Ey). unfold holders in *. simpl. lia.
      * intros p pr Ep. rewrite lookup_delete_ne; [eauto|]. intros ->. pose proof (holders_p s p pr Ep). lia.
      * intros t th Et. destruct (I3 t th Et) as [Ht Hn]. destruct (holders_t s t th Et) as [Hh Hh']. split.
        -- rewrite lookup_delete_ne; [done|]. intros ->. unfold holds_t in Hh. rewrite b2z_decide_eq in Hh.
           pose proof (b2z_nonneg (bool_decide (t_new th = Some (t_cred th)))). lia.
        -- intros n En. rewrite lookup_delete_ne; [eauto|]. intros ->. pose proof (Hh' n En). lia.
      * intros y. unfold plus_at. rewrite lookup_delete_None. intros [<-|Ey]; [rewrite decide_True by done; lia|].
        case_decide as Hc; [subst; lia|]. rewrite I4 by done. lia.
      * done.
      * done.
      * by rewrite lookup_delete_ne.
    + intros y i. unfold ids_at. simpl. rewrite !fmap_Some. intros (z & Ez & ->). apply lookup_delete_Some in Ez as [_ Ez]. by exists z.
Qed.

Lemma crhold_inv d s c : cr_inv d s → is_Some (cs_cred s !! c) →
  ∃ s', crhold s c = Ok s' ∧ cr_inv (plus_at d c 1) s' ∧ ids_kept s s' ∧ (∀ x, ids_at s' x = ids_at s x) ∧
    cs_proc s' = cs_proc s ∧ cs_thr s' = cs_thr s ∧ upc_hash s' = upc_hash s.
Proof.
  intros [I1 I2 I3 I4 I5 I6 I7] [x Ex]. unfold crhold, upd_cred. rewrite Ex. cbn [deref mbind res_bind]. eexists. split; [done|].
  assert (∀ y, is_Some (cs_cred s !! y) → is_Some (<[c := MkCred (cr_ref x + 1) (cr_ids x)]> (cs_cred s) !! y)) as Hd'.
  { intros y Hy. destruct (decide (y = c)) as [->|]; [rewrite lookup_insert_eq; by eexists|by rewrite lookup_insert_ne]. }
  assert (∀ y, ids_at (set_creds (<[c := MkCred (cr_ref x + 1) (cr_ids x)]> (cs_cred s)) s) y = ids_at s y) as Hids.
  { intros y. unfold ids_at. simpl. destruct (decide (y = c)) as [->|]; [by rewrite lookup_insert_eq, Ex|by rewrite lookup_insert_ne]. }
  split; [|split; [intros y i; by rewrite Hids|done]].
  destruct (I1 c x Ex). split; simpl.
  - intros y z. rewrite lookup_insert_Some. unfold plus_at. intros [(<- & <-)|[Hne Ey]]; simpl.
    + rewrite decide_True by done. unfold holders in *. simpl. lia.
    + rewrite decide_False by done. destruct (I1 y z Ey). unfold holders in *. simpl. lia.
  - intros p pr Ep. eauto.
  - intros t th Et. destruct (I3 t th Et). eauto.
  - intros y. unfold plus_at. rewrite lookup_insert_None. intros [Ey Hne]. rewrite decide_False by done. rewrite I4 by done. lia.
  - done.
  - done.
  - specialize (Hids kcred). unfold ids_at in Hids. simpl in Hids. by rewrite Hids.
Qed.

(** A new structure, with [r] references. *)
Lemma cr_new_inv d s c r i : cr_inv d s → cs_cred s !! c = None → 1 ≤ r →
  cr_inv (plus_at d c r) (set_creds (<[c := MkCred r i]> (cs_cred s)) s).
Proof.
  intros Hi Ec Hr. pose proof Hi as [I1 I2 I3 I4 I5 I6 I7].
  assert (∀ y, is_Some (cs_cred s !! y) → is_Some (<[c := MkCred r i]> (cs_cred s) !! y)) as Hd'.
  { intros y Hy. destruct (decide (y = c)) as [->|]; [rewrite lookup_insert_eq; by eexists|by rewrite lookup_insert_ne]. }
  split; simpl.
  - intros y z. rewrite lookup_insert_Some. unfold plus_at. intros [(<- & <-)|[Hne Ey]]; simpl.
    + rewrite decide_True by done. pose proof (holders_none d s c Hi Ec). rewrite I4 by done. unfold holders in *. simpl. lia.
    + rewrite decide_False by done. destruct (I1 y z Ey). unfold holders in *. simpl. lia.
  - intros p pr Ep. eauto.
  - intros t th Et. destruct (I3 t th Et). eauto.
  - intros y. unfold plus_at. rewrite lookup_insert_None. intros [Ey Hne]. rewrite decide_False by done. rewrite I4 by done. lia.
  - done.
  - done.
  - rewrite lookup_insert_ne; [done|]. intros ->. by rewrite Ec in I7.
Qed.

(** Other tables of processes and threads, with the same references in all. *)
Lemma cr_tables_inv d d' s procs' thr' upc' : cr_inv d s →
  (∀ c, msum (holds_p c) procs' + msum (holds_t c) thr' + d' c = holders s c + d c) →
  (∀ c, cs_cred s !! c = None → d' c = 0) →
  (∀ p pr, procs' !! p = Some pr → is_Some (cs_cred s !! p_cred pr)) →
  (∀ t th, thr' !! t = Some th → is_Some (cs_cred s !! t_cred th) ∧ ∀ n, t_new th = Some n → is_Some (cs_cred s !! n)) →
  (∃ pr, procs' !! sched = Some pr ∧ p_cred pr = kcred ∧ p_moves pr = []) →
  (∃ th, thr' !! sched = Some th ∧ t_cred th = kcred ∧ t_procp th = sched ∧ t_new th = None) →
  cr_inv d' (MkCs (cs_cred s) procs' thr' upc').
Proof.
  intros [I1 I2 I3 I4 I5 I6 I7] Hh Hn Hp Ht Hs Hs0. split; simpl; try done.
  intros c x Ec. destruct (I1 c x Ec). split; [done|]. unfold holders at 1. simpl. specialize (Hh c). lia.
Qed.

Lemma decide_b2z {A} `{EqDecision A} (x y : A) : (if decide (x = y) then 1 else 0) = b2z (bool_decide (x = y)).
Proof. case_decide as E; [by rewrite bool_decide_true|by rewrite bool_decide_false]. Qed.

Lemma plus_at_ne d x k c : c ≠ x → plus_at d x k c = d c.
Proof. intros. unfold plus_at. rewrite decide_False by done. lia. Qed.

Lemma plus_holds d x k c : plus_at d x k c = d c + k * b2z (bool_decide (x = c)).
Proof. unfold plus_at, b2z. destruct (decide (c = x)) as [->|]; [rewrite bool_decide_true by done; lia|rewrite bool_decide_false by congruence; lia]. Qed.

Lemma b2z_absent {A} (m : gmap Z A) (x c : Z) : is_Some (m !! x) → m !! c = None → b2z (bool_decide (x = c)) = 0.
Proof. intros [? E] Ec. rewrite bool_decide_false; [done|]. congruence. Qed.

(** An entry of the process table changes, leaves or comes. *)
Lemma cr_proc_inv d s p pr pr' upc' : cr_inv d s → cs_proc s !! p = Some pr → p ≠ sched → is_Some (cs_cred s !! p_cred pr') →
  cr_inv (plus_at (plus_at d (p_cred pr) 1) (p_cred pr') (-1)) (MkCs (cs_cred s) (<[p := pr']> (cs_proc s)) (cs_thr s) upc').
Proof.
  intros Hi Ep Hne Hc. pose proof Hi as [I1 I2 I3 I4 I5 I6 I7]. apply (cr_tables_inv d); try done.
  - intros c. rewrite (msum_update _ _ _ _ _ Ep), !plus_holds. unfold holders, holds_p. lia.
  - intros c Ec. rewrite !plus_holds, I4 by done. rewrite (b2z_absent _ _ _ Hc Ec), (b2z_absent _ _ _ (I2 _ _ Ep) Ec). lia.
  - intros q qr. rewrite lookup_insert_Some. intros [(<- & <-)|[_ Eq]]; [done|eauto].
  - destruct I5 as (sr & Es & H). exists sr. by rewrite lookup_insert_ne.
Qed.

Lemma cr_proc_del_inv d s p pr upc' : cr_inv d s → cs_proc s !! p = Some pr → p ≠ sched →
  cr_inv (plus_at d (p_cred pr) 1) (MkCs (cs_cred s) (delete p (cs_proc s)) (cs_thr s) upc').
Proof.
  intros Hi Ep Hne. pose proof Hi as [I1 I2 I3 I4 I5 I6 I7]. apply (cr_tables_inv d); try done.
  - intros c. rewrite (msum_delete _ _ _ _ Ep), !plus_holds. unfold holders, holds_p. lia.
  - intros c Ec. rewrite !plus_holds, I4 by done. rewrite (b2z_absent _ _ _ (I2 _ _ Ep) Ec). lia.
  - intros q qr. rewrite lookup_delete_Some. intros [_ Eq]. eauto.
  - destruct I5 as (sr & Es & H). exists sr. by rewrite lookup_delete_ne.
Qed.

Lemma cr_proc_new_inv d s p pr upc' : cr_inv d s → cs_proc s !! p = None → is_Some (cs_cred s !! p_cred pr) →
  cr_inv (plus_at d (p_cred pr) (-1)) (MkCs (cs_cred s) (<[p := pr]> (cs_proc s)) (cs_thr s) upc').
Proof.
  intros Hi Ep Hc. pose proof Hi as [I1 I2 I3 I4 I5 I6 I7]. apply (cr_tables_inv d); try done.
  - intros c. rewrite (msum_insert_new _ _ _ _ Ep), !plus_holds. unfold holders, holds_p. lia.
  - intros c Ec. rewrite !plus_holds, I4 by done. rewrite (b2z_absent _ _ _ Hc Ec). lia.
  - intros q qr. rewrite lookup_insert_Some. intros [(<- & <-)|[_ Eq]]; [done|eauto].
  - destruct I5 as (sr & Es & H). exists sr. rewrite lookup_insert_ne; [done|]. congruence.
Qed.

(** The same for the threads. *)
Lemma cr_thr_inv d d' s t th th' upc' : cr_inv d s → cs_thr s !! t = Some th → t ≠ sched →
  is_Some (cs_cred s !! t_cred th') → (∀ n, t_new th' = Some n → is_Some (cs_cred s !! n)) →
  (∀ c, d' c = d c + holds_t c th - holds_t c th') →
  cr_inv d' (MkCs (cs_cred s) (cs_proc s) (<[t := th']> (cs_thr s)) upc').
Proof.
  intros Hi Et Hne Hc Hn Hd. pose proof Hi as [I1 I2 I3 I4 I5 I6 I7]. apply (cr_tables_inv d); try done.
  - intros c. rewrite (msum_update _ _ _ _ _ Et), Hd. unfold holders. lia.
  - intros c Ec. rewrite Hd, I4 by done. destruct (I3 t th Et) as [Ht Ht']. unfold holds_t.
    rewrite (b2z_absent _ _ _ Hc Ec), (b2z_absent _ _ _ Ht Ec). rewrite !bool_decide_false; [done| |].
    + intros E. destruct (Hn c E). congruence.
    + intros E. destruct (Ht' c E). congruence.
  - intros x xr. rewrite lookup_insert_Some. intros [(<- & <-)|[_ Ex]]; [done|eauto].
  - destruct I6 as (sr & Es & H). exists sr. by rewrite lookup_insert_ne.
Qed.

Lemma cr_thr_del_inv d d' s t th upc' : cr_inv d s → cs_thr s !! t = Some th → t ≠ sched → (∀ c, d' c = d c + holds_t c th) →
  cr_inv d' (MkCs (cs_cred s) (cs_proc s) (delete t (cs_thr s)) upc').
Proof.
  intros Hi Et Hne Hd. pose proof Hi as [I1 I2 I3 I4 I5 I6 I7]. apply (cr_tables_inv d); try done.
  - intros c. rewrite (msum_delete _ _ _ _ Et), Hd. unfold holders. lia.
  - intros c Ec. rewrite Hd, I4 by done. destruct (I3 t th Et) as [Ht Ht']. unfold holds_t.
    rewrite (b2z_absent _ _ _ Ht Ec). rewrite bool_decide_false; [done|]. intros E. destruct (Ht' c E). congruence.
  - intros x xr. rewrite lookup_delete_Some. intros [_ Ex]. eauto.
  - destruct I6 as (sr & Es & H). exists sr. by rewrite lookup_delete_ne.
Qed.

Lemma cr_thr_new_inv d d' s t th upc' : cr_inv d s → cs_thr s !! t = None →
  is_Some (cs_cred s !! t_cred th) → t_new th = None → (∀ c, d' c = d c - holds_t c th) →
  cr_inv d' (MkCs (cs_cred s) (cs_proc s) (<[t := th]> (cs_thr s)) upc').
Proof.
  intros Hi Et Hc Hn Hd. pose proof Hi as [I1 I2 I3 I4 I5 I6 I7]. apply (cr_tables_inv d); try done.
  - intros c. rewrite (msum_insert_new _ _ _ _ Et), Hd. unfold holders. lia.
  - intros c Ec. rewrite Hd, I4 by done. unfold holds_t. rewrite (b2z_absent _ _ _ Hc Ec), Hn. by rewrite bool_decide_false.
  - intros x xr. rewrite lookup_insert_Some. intros [(<- & <-)|[_ Ex]]; [|eauto]. split; [done|]. by rewrite Hn.
  - destruct I6 as (sr & Es & H). exists sr. rewrite lookup_insert_ne; [done|]. congruence.
Qed.

(** [crfree] does not look at the tables. *)
Lemma crfree_frame m procs thr upc procs' thr' upc' c :
  crfree (MkCs m procs' thr' upc') c = (s ← crfree (MkCs m procs thr upc) c; Ok (MkCs (cs_cred s) procs' thr' upc')).
Proof.
  unfold crfree. simpl. destruct (m !! c); [|done]. cbn [deref mbind res_bind]. destruct (0 <? _); [done|]. by destruct (c =? kcred).
Qed.

(** The process gets its new credentials, of which one reference is over. *)
Lemma change_inv d s p pr new i : cr_inv d s → (∀ c, low c ≤ d c) → cs_proc s !! p = Some pr → p ≠ sched → cs_cred s !! new = None →
  ∃ s', change s p new i = Ok s' ∧ cr_inv (plus_at d new 1) s' ∧ ids_at s' new = Some i ∧
    (∀ c, c ≠ new → ∀ j, ids_at s' c = Some j → ids_at s c = Some j) ∧
    cs_proc s' = <[p := set_pcred new pr]> (cs_proc s) ∧ cs_thr s' = cs_thr s ∧ upc_hash s' = upc_hash s.
Proof.
  intros Hi Hl Ep Hne Enew. pose proof (ci_proc _ _ Hi p pr Ep) as [x Ex].
  assert (p_cred pr ≠ new) as Hpn by congruence.
  pose proof (cr_new_inv d s new 2 i Hi Enew ltac:(lia)) as H1. set (s1 := set_creds _ s) in *.
  assert (is_Some (cs_cred s1 !! new)) as Hn1 by (unfold s1; simpl; rewrite lookup_insert_eq; by eexists).
  pose proof (cr_proc_inv _ s1 p pr (set_pcred new pr) (upc_hash s) H1 Ep Hne Hn1) as H2. simpl in H2.
  edestruct (crfree_inv _ _ (p_cred pr) H2) as (s' & E & H3 & Hk & Epr & Eth & Eup).
  { simpl. rewrite lookup_insert_ne by congruence. by eexists. }
  { rewrite plus_at_ne by done. unfold plus_at at 1. rewrite decide_True by done. rewrite plus_at_ne by done. pose proof (Hl (p_cred pr)). lia. }
  exists s'. unfold change. rewrite Ep. cbn [deref mbind res_bind]. split; [exact E|].
  pose proof (crfree_creds _ _ _ E) as (_ & _ & _ & Ecr). simpl in Ecr.
  split; [|split; [|split; [|done]]].
  - eapply cr_inv_ext; [|exact H3]. intros c. unfold plus_at. repeat case_decide; lia.
  - unfold ids_at. rewrite Ecr, lookup_insert_eq by done. done.
  - intros c Hc j Hj. specialize (Hk c j Hj). unfold ids_at in *. simpl in Hk. by rewrite lookup_insert_ne in Hk.
Qed.
