(* ===== verification/CredOps.v ===== *)
(** * What each operation on credentials does

    The operations keep the invariant, with the counts of processes per user, and do to
    the ids of processes and threads what [spec_op] says, which knows of no sharing. *)

From S2P Require Import Prelude Upcount Cred CredProps CredInv.

(** ** The specification: every process and thread has ids of its own *)

(** The ids of a process with its flag [STRC]; the process of a thread, its ids and those it
    is about to get. *)
Record view := MkView { v_proc : Z → option (ids * bool); v_thr : Z → option (Z * ids * option ids) }.

Definition fupd {A} (f : Z → A) (k : Z) (v : A) : Z → A := λ x, if decide (x = k) then v else f x.

Definition veq (v w : view) : Prop := (∀ p, v_proc v p = v_proc w p) ∧ ∀ t, v_thr v t = v_thr w t.

#[global] Instance veq_equiv : Equivalence veq.
Proof.
  split; [by split|intros v w [H1 H2]; by split|]. intros u v w [H1 H2] [H3 H4]. split; intros x; [by rewrite H1|by rewrite H2].
Qed.

Inductive cop :=
  | CSetuid (t new uid : Z)
  | CSeteuid (t new uid : Z)
  | CSetreuid (t new ruid euid : Z)
  | CSetgid (t new gid : Z)
  | CSetegid (t new gid : Z)
  | CSetregid (t new rgid egid : Z)
  | CSetgroups (t new n : Z) (gidset : list Z)
  | CMove (t : Z)
  | CCrset (t : Z)
  | CPreSys (t : Z)
  | CExec (t new : Z) (f : execfile) (error : Z)
  | CFork (t cp : Z)
  | CForkFail (cp : Z)
  | CThread (p t cr : Z)
  | CThreadEnd (t : Z)
  | CReap (p : Z)
  | CHold (c : Z)
  | CFree (c : Z).

(** The ids that a call asks for, as [setuid_ids] and its like say. *)
Definition spec_change (v : view) (t : Z) (r : ids → Z + ids) : Z * view :=
  match v_thr v t with
  | Some (p, i, _) =>
    match v_proc v p with
    | Some (ip, b) =>
      match r ip with
      | inl e => (e, v)
      | inr j => (0, MkView (fupd (v_proc v) p (Some (j, b))) (fupd (v_thr v) t (Some (p, i, Some j))))
      end
    | None => (0, v)
    end
  | None => (0, v)
  end.

Definition checked (bad : bool) (r : ids → Z + ids) (i : ids) : Z + ids := if bad then inl EINVAL else r i.

Section spec.
Context (ngroups_max : Z).

Definition spec_op (o : cop) (v : view) : Z * view :=
  match o with
  | CSetuid t _ uid => spec_change v t (checked (bad_id uid) (λ i, setuid_ids i uid))
  | CSeteuid t _ uid => spec_change v t (checked (bad_id uid) (λ i, seteuid_ids i uid))
  | CSetreuid t _ r e => spec_change v t (checked (bad_optid r || bad_optid e) (λ i, setreuid_ids i r e))
  | CSetgid t _ gid => spec_change v t (checked (bad_id gid) (λ i, setgid_ids i gid))
  | CSetegid t _ gid => spec_change v t (checked (bad_id gid) (λ i, setegid_ids i gid))
  | CSetregid t _ r e => spec_change v t (checked (bad_optid r || bad_optid e) (λ i, setregid_ids i r e))
  | CSetgroups t _ n l => spec_change v t (λ i, setgroups_ids ngroups_max i n l)
  | CCrset t =>
    (0, match v_thr v t with Some (p, _, Some j) => MkView (v_proc v) (fupd (v_thr v) t (Some (p, j, None))) | _ => v end)
  | CPreSys t =>
    (0, match v_thr v t with
        | Some (p, _, n) => match v_proc v p with Some (i, _) => MkView (v_proc v) (fupd (v_thr v) t (Some (p, i, n))) | None => v end
        | None => v
        end)
  | CExec t _ f error =>
    match v_thr v t with
    | Some (p, _, n) =>
      match v_proc v p with
      | Some (i, b) =>
        match execsetid b i f with
        | Some (uid, gid) =>
          if error =? 0 then
            let j := exec_ids i uid gid in
            (0, MkView (fupd (v_proc v) p (Some (j, b))) (fupd (v_thr v) t (Some (p, j, n))))
          else (error, v)
        | None => (error, v)
        end
      | None => (0, v)
      end
    | None => (0, v)
    end
  | CFork t cp =>
    (0, match v_thr v t with
        | Some (p, _, _) => match v_proc v p with Some (i, _) => MkView (fupd (v_proc v) cp (Some (i, false))) (v_thr v) | None => v end
        | None => v
        end)
  | CForkFail p | CReap p => (0, MkView (fupd (v_proc v) p None) (v_thr v))
  | CThread p t _ =>
    (0, match v_proc v p with Some (i, _) => MkView (v_proc v) (fupd (v_thr v) t (Some (p, i, None))) | None => v end)
  | CThreadEnd t => (0, MkView (v_proc v) (fupd (v_thr v) t None))
  | CMove _ | CHold _ | CFree _ => (0, v)
  end.

(** ** The operations of the code *)

(** References that others hold; the counts that stay too high; the tables. *)
Definition cstate : Type := (Z → Z) * (Z → Z) * csys.

Definition pure_op (st : cstate) (r : res (Z * csys)) : res (Z * cstate) := '(e, s) ← r; Ok (e, (st.1, s)).
Definition quiet_op (st : cstate) (r : res csys) : res (Z * cstate) := s ← r; Ok (0, (st.1, s)).

(** The real uid of credentials. *)
Definition ruid_at (s : csys) (c : Z) : Z := match ids_at s c with Some i => i_ruid i | None => 0 end.

Definition do_cop (st : cstate) (o : cop) : res (Z * cstate) :=
  let '(refs, leak, s) := st in
  match o with
  | CSetuid t new uid => pure_op st (setuid_call s t new uid)
  | CSeteuid t new uid => pure_op st (seteuid_call s t new uid)
  | CSetreuid t new r e => pure_op st (setreuid_call s t new r e)
  | CSetgid t new gid => pure_op st (setgid_call s t new gid)
  | CSetegid t new gid => pure_op st (setegid_call s t new gid)
  | CSetregid t new r e => pure_op st (setregid_call s t new r e)
  | CSetgroups t new n l => pure_op st (setgroups_call ngroups_max s t new n l)
  | CMove t => quiet_op st (do_move s t)
  | CCrset t => quiet_op st (do_crset s t)
  | CPreSys t => quiet_op st (pre_syscall s t)
  | CExec t new f error => pure_op st (gexec s t new f error)
  | CFork t cp => quiet_op st (fork_cred s t cp)
  | CForkFail cp =>
    pr ← deref (cs_proc s !! cp);
    s' ← fork_fail s cp;
    Ok (0, (refs, plus_at leak (ruid_at s (p_cred pr)) 1, s'))
  | CThread p t cr => quiet_op st (thread_hold s p t cr)
  | CThreadEnd t => quiet_op st (thread_free s t)
  | CReap p => quiet_op st (freeproc_cred s p)
  | CHold c => s ← crhold s c; Ok (0, (plus_at refs c 1, leak, s))
  | CFree c => s ← crfree s c; Ok (0, (plus_at refs c (-1), leak, s))
  end.

(** Thread [t] of another process than the first, not in a call that changes ids. *)
Definition idle (s : csys) (t : Z) : Prop :=
  ∃ th, cs_thr s !! t = Some th ∧ t ≠ sched ∧ t_procp th ≠ sched ∧ t_new th = None.

(** No thread of its process is to move it to another user. *)
Definition settled (s : csys) (t : Z) : Prop :=
  ∀ th pr, cs_thr s !! t = Some th → cs_proc s !! t_procp th = Some pr → p_moves pr = [].

Definition fresh (s : csys) (new : Z) : Prop := cs_cred s !! new = None ∧ new ≠ kcred.

Definition no_threads (s : csys) (p : Z) : Prop := ∀ t th, cs_thr s !! t = Some th → t_procp th ≠ p.

Definition may_cop (st : cstate) (o : cop) : Prop :=
  let '(refs, leak, s) := st in
  match o with
  | CSetuid t new _ | CSetreuid t new _ _ => idle s t ∧ fresh s new ∧ settled s t
  | CSeteuid t new _ | CSetgid t new _ | CSetegid t new _ | CSetregid t new _ _ | CSetgroups t new _ _ => idle s t ∧ fresh s new
  | CMove t | CCrset t => is_Some (cs_thr s !! t) ∧ t ≠ sched
  | CPreSys t => idle s t
  | CExec t new _ _ => idle s t ∧ fresh s new
  | CFork t cp => cs_proc s !! cp = None ∧ ∃ th pr, cs_thr s !! t = Some th ∧ cs_proc s !! t_procp th = Some pr ∧
      ruid_at s (t_cred th) = ruid_at s (p_cred pr)
  | CForkFail p | CReap p => is_Some (cs_proc s !! p) ∧ p ≠ sched ∧ no_threads s p
  | CThread p t cr => thread_read s p = Ok cr ∧ cs_thr s !! t = None
  | CThreadEnd t => idle s t ∧ settled s t
  | CHold c => is_Some (cs_cred s !! c)
  | CFree c => low c + 1 ≤ refs c ∧ is_Some (cs_cred s !! c)
  end.
End spec.

(** ** The invariant *)

(** The user whose count has the process. *)
Definition cuid (s : csys) (pr : cproc) : Z :=
  match p_moves pr with [] => ruid_at s (p_cred pr) | (_, (old, _)) :: _ => old end.

Definition counted (s : csys) (u : Z) : Z := msum (λ pr, b2z (bool_decide (cuid s pr = u))) (cs_proc s).

(** At most one thread is to move a process, from where it is counted to its real uid. *)
Definition moves_ok (s : csys) (p : Z) (pr : cproc) : Prop :=
  p_moves pr = [] ∨ ∃ t th old, p_moves pr = [(t, (old, ruid_at s (p_cred pr)))] ∧ cs_thr s !! t = Some th ∧ t_procp th = p.

Record cr_ok (refs leak : Z → Z) (s : csys) : Prop := {
  co_inv : cr_inv refs s;
  co_low c : low c ≤ refs c;
  co_upc : upc_ok (λ u, counted s u + leak u) (upc_hash s);
  co_leak u : (if u =? 0 then -1 else 0) ≤ leak u;
  co_moves p pr : cs_proc s !! p = Some pr → moves_ok s p pr;
  co_thr t th : cs_thr s !! t = Some th → is_Some (cs_proc s !! t_procp th)
}.

Definition pview (s : csys) (pr : cproc) : option (ids * bool) := (λ i, (i, p_strc pr)) <$> ids_at s (p_cred pr).
Definition tview (s : csys) (th : cthread) : option (Z * ids * option ids) :=
  i ← ids_at s (t_cred th);
  match t_new th with
  | None => Some (t_procp th, i, None)
  | Some n => j ← ids_at s n; Some (t_procp th, i, Some j)
  end.

(** What the tables say of ids. *)
Definition view_of (s : csys) : view := MkView (λ p, cs_proc s !! p ≫= pview s) (λ t, cs_thr s !! t ≫= tview s).

(** ** The calls that change ids *)

(** What is left of such a call when its section is done. *)
Definition by_call (s : csys) (t : Z) (th : cthread) (new : Z) (i : ids) (r : Z + ids) : res (Z * csys) :=
  match r with
  | inl e => Ok (e, s)
  | inr j =>
    s' ← change s (t_procp th) new j;
    s' ← call_move s' t (i_ruid i) (i_ruid j);
    s' ← upd_thr t (set_new (Some new)) s';
    Ok (0, s')
  end.

Lemma call_move_same s t th k : cs_thr s !! t = Some th → call_move s t k k = Ok s.
Proof. intros E. unfold call_move. rewrite E. cbn [deref mbind res_bind]. by rewrite Z.eqb_refl. Qed.

Section calls.
Context (s : csys) (t new : Z) (th : cthread) (pr : cproc) (c : cred).
Hypothesis Et : cs_thr s !! t = Some th.
Hypothesis Ep : cs_proc s !! t_procp th = Some pr.
Hypothesis Ec : cs_cred s !! p_cred pr = Some c.
Hypothesis Enew : cs_cred s !! new = None.
Hypothesis Hk : new ≠ kcred.

Lemma change_thr j s' : change s (t_procp th) new j = Ok s' → cs_thr s' !! t = Some th.
Proof using Et Ep Ec Enew. intros (_ & _ & -> & _)%(change_new s _ new pr c Ep Ec Enew). done. Qed.

(** The calls that keep the real uid. *)
Lemma by_spec_call r : (∀ e, r = inl e → e ≠ 0) → (∀ j, r = inr j → i_ruid j = i_ruid (cr_ids c)) →
  ('(e, s') ← by_spec s (t_procp th) new r; s' ← call_crset s' t e new; Ok (e, s')) = by_call s t th new (cr_ids c) r.
Proof using Et Ep Ec Enew.
  intros He Hj. destruct r as [e|j]; cbn [by_spec by_call mbind res_bind].
  - unfold call_crset. rewrite (proj2 (Z.eqb_neq e 0)) by auto. done.
  - destruct (change s _ new j) as [s'| |] eqn:E; cbn [mbind res_bind]; [|done..].
    rewrite (Hj j eq_refl), (call_move_same _ _ th) by (by eapply change_thr). done.
Qed.
End calls.

Ltac spec_cases := repeat case_match; simplify_eq; try done.

Section call_eqs.
Context (s : csys) (t new : Z) (th : cthread) (pr : cproc) (c : cred).
Hypothesis Et : cs_thr s !! t = Some th.
Hypothesis Ep : cs_proc s !! t_procp th = Some pr.
Hypothesis Ec : cs_cred s !! p_cred pr = Some c.
Hypothesis Enew : cs_cred s !! new = None.
Hypothesis Hk : new ≠ kcred.

Ltac call_eq call r eq :=
  unfold call, checked; case_match; [done|]; rewrite Et; cbn [deref mbind res_bind]; rewrite (eq s _ new pr c Ep Ec Enew Hk);
  apply (by_spec_call s t new th pr c Et Ep Ec Enew); unfold r; intros ? ?; spec_cases.

Lemma seteuid_call_eq uid : seteuid_call s t new uid = by_call s t th new (cr_ids c) (checked (bad_id uid) (λ i, seteuid_ids i uid) (cr_ids c)).
Proof using Et Ep Ec Enew Hk. call_eq seteuid_call seteuid_ids seteuid_section_eq. Qed.
Lemma setgid_call_eq gid : setgid_call s t new gid = by_call s t th new (cr_ids c) (checked (bad_id gid) (λ i, setgid_ids i gid) (cr_ids c)).
Proof using Et Ep Ec Enew Hk. call_eq setgid_call setgid_ids setgid_section_eq. Qed.
Lemma setegid_call_eq gid : setegid_call s t new gid = by_call s t th new (cr_ids c) (checked (bad_id gid) (λ i, setegid_ids i gid) (cr_ids c)).
Proof using Et Ep Ec Enew Hk. call_eq setegid_call setegid_ids setegid_section_eq. Qed.
Lemma setregid_call_eq r e : setregid_call s t new r e =
  by_call s t th new (cr_ids c) (checked (bad_optid r || bad_optid e) (λ i, setregid_ids i r e) (cr_ids c)).
Proof using Et Ep Ec Enew Hk. call_eq setregid_call setregid_ids setregid_section_eq. Qed.

Lemma setgroups_call_eq ng n l : setgroups_call ng s t new n l = by_call s t th new (cr_ids c) (setgroups_ids ng (cr_ids c) n l).
Proof using Et Ep Ec Enew Hk.
  unfold setgroups_call. rewrite Et. cbn [deref mbind res_bind]. rewrite (setgroups_section_eq s _ new pr c Ep Ec Enew Hk).
  apply (by_spec_call s t new th pr c Et Ep Ec Enew); unfold setgroups_ids; intros ? ?; spec_cases.
Qed.

Lemma setuid_call_eq uid : setuid_call s t new uid = by_call s t th new (cr_ids c) (checked (bad_id uid) (λ i, setuid_ids i uid) (cr_ids c)).
Proof using Et Ep Ec Enew Hk.
  unfold setuid_call, checked. case_match; [done|]. rewrite Et. cbn [deref mbind res_bind]. rewrite (setuid_section_eq s _ new pr c Ep Ec Enew Hk).
  unfold setuid_ids. destruct (negb _ && _); cbn [by_spec by_call mbind res_bind].
  - destruct (change s _ new _) as [s'| |] eqn:E; cbn [mbind res_bind]; [|done..].
    pose proof (change_thr s t new th pr c Et Ep Ec Enew _ _ E) as Et'.
    rewrite !(call_move_same _ _ th) by done. done.
  - destruct (suser _); cbn [by_spec by_call mbind res_bind].
    + destruct (change s _ new _) as [s'| |] eqn:E; cbn [mbind res_bind]; [|done..]. done.
    + rewrite (call_move_same _ _ th) by done. done.
Qed.

Lemma setreuid_call_eq r e : setreuid_call s t new r e =
  by_call s t th new (cr_ids c) (checked (bad_optid r || bad_optid e) (λ i, setreuid_ids i r e) (cr_ids c)).
Proof using Et Ep Ec Enew Hk.
  unfold setreuid_call, checked. case_match; [done|]. rewrite Et. cbn [deref mbind res_bind]. rewrite (setreuid_section_eq s _ new pr c Ep Ec Enew Hk).
  unfold setreuid_ids. destruct (negb _ && _ && _ && _); cbn [by_spec by_call mbind res_bind]; [by rewrite (call_move_same _ _ th)|].
  destruct (negb _ && _ && _ && _ && _); cbn [by_spec by_call mbind res_bind]; [by rewrite (call_move_same _ _ th)|].
  destruct (change s _ new _) as [s'| |] eqn:E; cbn [mbind res_bind]; [|done..].
  pose proof (change_thr s t new th pr c Et Ep Ec Enew _ _ E) as Et'. simpl. destruct (Z.eqb_spec r (-1)) as [->|]; simpl; [|done].
  rewrite !(call_move_same _ _ th) by done. done.
Qed.
End call_eqs.

(** ** Ids that stay *)

(** The credentials of [s] that are left have the ids they had. *)
Definition stable (s s' : csys) : Prop := ∀ c i j, ids_at s c = Some i → ids_at s' c = Some j → i = j.

Lemma kept_stable s s' : ids_kept s s' → stable s s'.
Proof. intros H c i j Hi Hj. apply H in Hj. congruence. Qed.

Lemma stable_trans s1 s2 s3 : stable s1 s2 → ids_kept s2 s3 → stable s1 s3.
Proof. intros H1 H2 c i j Hi Hj. eauto. Qed.

Lemma stable_eq s s' c : stable s s' → is_Some (cs_cred s !! c) → is_Some (cs_cred s' !! c) → ids_at s' c = ids_at s c.
Proof.
  intros Hs [i Hi]%ids_at_Some [j Hj]%ids_at_Some. rewrite Hi, Hj. f_equal. symmetry. by eapply Hs.
Qed.

Lemma ruid_stable s s' c : stable s s' → is_Some (cs_cred s !! c) → is_Some (cs_cred s' !! c) → ruid_at s' c = ruid_at s c.
Proof. intros H1 H2 H3. unfold ruid_at. by rewrite (stable_eq s s'). Qed.

Section stays.
Context (d d' : Z → Z) (s s' : csys).
Hypothesis Hi : cr_inv d s.
Hypothesis Hi' : cr_inv d' s'.
Hypothesis Hs : stable s s'.

(** A process that is in both states. *)
Lemma cuid_stays p pr : cs_proc s !! p = Some pr → cs_proc s' !! p = Some pr → cuid s' pr = cuid s pr ∧ pview s' pr = pview s pr.
Proof using Hi Hi' Hs.
  intros E E'. pose proof (ci_proc _ _ Hi _ _ E) as H. pose proof (ci_proc _ _ Hi' _ _ E') as H'. split.
  - unfold cuid. by rewrite (ruid_stable s s').
  - unfold pview. by rewrite (stable_eq s s').
Qed.

Lemma thread_stays t th : cs_thr s !! t = Some th → cs_thr s' !! t = Some th → tview s' th = tview s th.
Proof using Hi Hi' Hs.
  intros E E'. destruct (ci_thr _ _ Hi _ _ E) as [H Hn]. destruct (ci_thr _ _ Hi' _ _ E') as [H' Hn']. unfold tview.
  rewrite (stable_eq s s') by done. destruct (ids_at s (t_cred th)); [|done]. simpl. destruct (t_new th) as [n|]; [|done].
  by rewrite (stable_eq s s') by eauto.
Qed.

(** The counts when one entry of the table changes. *)
Lemma counted_update p pr pr' : cs_proc s !! p = Some pr → cs_proc s' = <[p := pr']> (cs_proc s) →
  ∀ u, counted s' u = counted s u - b2z (bool_decide (cuid s pr = u)) + b2z (bool_decide (cuid s' pr' = u)).
Proof using Hi Hi' Hs.
  intros Ep Ep' u. unfold counted at 1. rewrite Ep', (msum_update _ _ _ _ _ Ep).
  set (f := λ pr0, b2z (bool_decide (cuid s pr0 = u))). set (f' := λ pr0, b2z (bool_decide (cuid s' pr0 = u))).
  pose proof (msum_delete f _ _ _ Ep) as H1. pose proof (msum_delete f' _ _ _ Ep) as H2.
  assert (msum f' (delete p (cs_proc s)) = msum f (delete p (cs_proc s))) as H3.
  { apply msum_ext. intros q qr [Hne Eq]%lookup_delete_Some. unfold f, f'.
    destruct (cuid_stays q qr Eq) as [-> _]; [|done]. by rewrite Ep', lookup_insert_ne. }
  change (counted s u) with (msum f (cs_proc s)). subst f f'. simpl in *. lia.
Qed.

Lemma counted_delete p pr : cs_proc s !! p = Some pr → cs_proc s' = delete p (cs_proc s) →
  ∀ u, counted s' u = counted s u - b2z (bool_decide (cuid s pr = u)).
Proof using Hi Hi' Hs.
  intros Ep Ep' u. set (f := λ pr0, b2z (bool_decide (cuid s pr0 = u))).
  pose proof (msum_delete f _ _ _ Ep) as H1. change (counted s u) with (msum f (cs_proc s)).
  assert (counted s' u = msum f (delete p (cs_proc s))) as ->; [|subst f; simpl in *; lia]. unfold counted. rewrite Ep'.
  apply msum_ext. intros q qr Eq. pose proof Eq as [Hne Eq0]%lookup_delete_Some. unfold f.
  destruct (cuid_stays q qr Eq0) as [-> _]; [|done]. by rewrite Ep'.
Qed.

Lemma counted_new p pr : cs_proc s !! p = None → cs_proc s' = <[p := pr]> (cs_proc s) →
  ∀ u, counted s' u = counted s u + b2z (bool_decide (cuid s' pr = u)).
Proof using Hi Hi' Hs.
  intros Ep Ep' u. unfold counted at 1. rewrite Ep', msum_insert_new by done. unfold counted.
  rewrite (msum_ext _ (λ pr0, b2z (bool_decide (cuid s pr0 = u))) (cs_proc s)); [lia|].
  intros q qr Eq. destruct (cuid_stays q qr Eq) as [-> _]; [|done]. rewrite Ep', lookup_insert_ne; [done|]. congruence.
Qed.

Lemma counted_same : cs_proc s' = cs_proc s → ∀ u, counted s' u = counted s u.
Proof using Hi Hi' Hs.
  intros Ep' u. unfold counted. rewrite Ep'. apply msum_ext. intros q qr Eq. destruct (cuid_stays q qr Eq) as [-> _]; [|done]. by rewrite Ep'.
Qed.

Lemma moves_stay p pr : cs_proc s !! p = Some pr → cs_proc s' !! p = Some pr →
  (∀ t th, cs_thr s !! t = Some th → t_procp th = p → ∃ th', cs_thr s' !! t = Some th' ∧ t_procp th' = p) →
  moves_ok s p pr → moves_ok s' p pr.
Proof using Hi Hi' Hs.
  intros E E' Ht [H|(t & th & old & Em & Et & Epr)]; [by left|right]. destruct (Ht t th Et Epr) as (th' & Et' & Epr').
  exists t, th', old. rewrite (ruid_stable s s'); [done|done|by eapply ci_proc|by eapply ci_proc].
Qed.
End stays.

Lemma upc_ext c c' h : (∀ u, c u = c' u) → upc_ok c h → upc_ok c' h.
Proof. intros E [U1 U2 U3 U4]. split; try done. intros u. destruct (U4 u) as (l & El & Eg). exists l. split; [done|]. by rewrite <- E. Qed.
