(* ===== verification/CredSys.v ===== *)
(** * Each operation on credentials keeps the invariant and does what is specified *)

From S2P Require Import Prelude Upcount Cred CredProps CredInv CredOps.

Lemma low_low d c : (∀ x, low x ≤ d x) → low c ≤ plus_at d c 1 c - 1.
Proof. intros H. unfold plus_at. rewrite decide_True by done. specialize (H c). lia. Qed.

(** Views of tables with one changed entry. *)
Lemma view_thr_update d d' s s' t th th' v : cr_inv d s → cr_inv d' s' → stable s s' → cs_thr s !! t = Some th →
  cs_thr s' = <[t := th']> (cs_thr s) → tview s' th' = v → ∀ x, v_thr (view_of s') x = fupd (v_thr (view_of s)) t v x.
Proof.
  intros Hi Hi' Hs Et Et' Ev x. unfold fupd. simpl. rewrite Et'. case_decide as Hx; [subst x; rewrite lookup_insert_eq; done|].
  rewrite lookup_insert_ne by done. destruct (cs_thr s !! x) as [xr|] eqn:Ex; [|done]. simpl.
  apply (thread_stays d d' s s' Hi Hi' Hs x); [done|]. by rewrite Et', lookup_insert_ne.
Qed.

Lemma view_thr_same d d' s s' : cr_inv d s → cr_inv d' s' → stable s s' → cs_thr s' = cs_thr s →
  ∀ x, v_thr (view_of s') x = v_thr (view_of s) x.
Proof.
  intros Hi Hi' Hs Et' x. simpl. rewrite Et'. destruct (cs_thr s !! x) as [xr|] eqn:Ex; [|done]. simpl.
  apply (thread_stays d d' s s' Hi Hi' Hs x); [done|]. by rewrite Et'.
Qed.

Lemma view_thr_delete d d' s s' t : cr_inv d s → cr_inv d' s' → stable s s' → cs_thr s' = delete t (cs_thr s) →
  ∀ x, v_thr (view_of s') x = fupd (v_thr (view_of s)) t None x.
Proof.
  intros Hi Hi' Hs Et' x. unfold fupd. simpl. rewrite Et'. case_decide as Hx; [subst x; by rewrite lookup_delete_eq|].
  rewrite lookup_delete_ne by done. destruct (cs_thr s !! x) as [xr|] eqn:Ex; [|done]. simpl.
  apply (thread_stays d d' s s' Hi Hi' Hs x); [done|]. by rewrite Et', lookup_delete_ne.
Qed.

Lemma view_thr_new d d' s s' t th v : cr_inv d s → cr_inv d' s' → stable s s' → cs_thr s !! t = None →
  cs_thr s' = <[t := th]> (cs_thr s) → tview s' th = v → ∀ x, v_thr (view_of s') x = fupd (v_thr (view_of s)) t v x.
Proof.
  intros Hi Hi' Hs Et Et' Ev x. unfold fupd. simpl. rewrite Et'. case_decide as Hx; [subst x; rewrite lookup_insert_eq; done|].
  rewrite lookup_insert_ne by done. destruct (cs_thr s !! x) as [xr|] eqn:Ex; [|done]. simpl.
  apply (thread_stays d d' s s' Hi Hi' Hs x); [done|]. by rewrite Et', lookup_insert_ne.
Qed.

Lemma view_proc_update d d' s s' p pr' v : cr_inv d s → cr_inv d' s' → stable s s' →
  cs_proc s' = <[p := pr']> (cs_proc s) → pview s' pr' = v → ∀ x, v_proc (view_of s') x = fupd (v_proc (view_of s)) p v x.
Proof.
  intros Hi Hi' Hs Ep' Ev x. unfold fupd. simpl. rewrite Ep'. case_decide as Hx; [subst x; rewrite lookup_insert_eq; done|].
  rewrite lookup_insert_ne by done. destruct (cs_proc s !! x) as [xr|] eqn:Ex; [|done]. simpl.
  apply (cuid_stays d d' s s' Hi Hi' Hs x); [done|]. by rewrite Ep', lookup_insert_ne.
Qed.

Lemma view_proc_same d d' s s' : cr_inv d s → cr_inv d' s' → stable s s' → cs_proc s' = cs_proc s →
  ∀ x, v_proc (view_of s') x = v_proc (view_of s) x.
Proof.
  intros Hi Hi' Hs Ep' x. simpl. rewrite Ep'. destruct (cs_proc s !! x) as [xr|] eqn:Ex; [|done]. simpl.
  apply (cuid_stays d d' s s' Hi Hi' Hs x); [done|]. by rewrite Ep'.
Qed.

Lemma view_proc_delete d d' s s' p : cr_inv d s → cr_inv d' s' → stable s s' → cs_proc s' = delete p (cs_proc s) →
  ∀ x, v_proc (view_of s') x = fupd (v_proc (view_of s)) p None x.
Proof.
  intros Hi Hi' Hs Ep' x. unfold fupd. simpl. rewrite Ep'. case_decide as Hx; [subst x; by rewrite lookup_delete_eq|].
  rewrite lookup_delete_ne by done. destruct (cs_proc s !! x) as [xr|] eqn:Ex; [|done]. simpl.
  apply (cuid_stays d d' s s' Hi Hi' Hs x); [done|]. by rewrite Ep', lookup_delete_ne.
Qed.

(** ** Threads *)

Lemma crfree_thr s t th' cr :
  (s' ← crfree s cr; Ok (set_thrs (<[t := th']> (cs_thr s')) s')) = crfree (set_thrs (<[t := th']> (cs_thr s)) s) cr.
Proof.
  unfold set_thrs. rewrite (crfree_frame (cs_cred s) (cs_proc s) (cs_thr s) (upc_hash s)).
  replace (MkCs (cs_cred s) (cs_proc s) (cs_thr s) (upc_hash s)) with s by (by destruct s).
  destruct (crfree s cr) as [s1| |] eqn:E; [|done..]. cbn [mbind res_bind]. by apply crfree_creds in E as (-> & -> & -> & _).
Qed.

(** The thread takes the credentials [new], of which [d] has a reference, and drops its own. *)
Lemma thread_takes refs d s t th th' : (∀ c, low c ≤ refs c) → cr_inv d s → cs_thr s !! t = Some th → t ≠ sched → t_procp th' = t_procp th →
  is_Some (cs_cred s !! t_cred th') → t_new th' = None →
  (∀ c, d c + holds_t c th = refs c + b2z (bool_decide (t_cred th' = c)) + b2z (bool_decide (t_cred th = c))) →
  ∃ s', crfree (set_thrs (<[t := th']> (cs_thr s)) s) (t_cred th) = Ok s' ∧ cr_inv refs s' ∧ ids_kept s s' ∧
    cs_proc s' = cs_proc s ∧ cs_thr s' = <[t := th']> (cs_thr s) ∧ upc_hash s' = upc_hash s.
Proof.
  intros Hl Hi Et Hts Etp Hc Hn Hd. destruct (ci_thr _ _ Hi _ _ Et) as [Hct _].
  assert (cr_inv (plus_at refs (t_cred th) 1) (set_thrs (<[t := th']> (cs_thr s)) s)) as H1.
  { apply (cr_thr_inv d _ s t th th' (upc_hash s) Hi Et Hts Hc); [by rewrite Hn|]. intros c. rewrite plus_holds. specialize (Hd c).
    unfold holds_t at 2. rewrite Hn, (bool_decide_false (None = Some c)) by done. change (b2z false) with 0. lia. }
  destruct (crfree_inv _ _ (t_cred th) H1 Hct (low_low _ _ Hl)) as (s' & E & H2 & Hk & Ep & Eth & Eu).
  exists s'. split; [done|]. split; [|done]. eapply cr_inv_ext; [|exact H2]. intros c. unfold plus_at. case_decide; lia.
Qed.
Section ops.
Context (refs leak : Z → Z) (s : csys).
Hypothesis Hok : cr_ok refs leak s.

(** The entries of a thread and its process, and their ids. *)
Lemma thread_entries t th : cs_thr s !! t = Some th → ∃ pr c i,
  cs_proc s !! t_procp th = Some pr ∧ cs_cred s !! p_cred pr = Some c ∧ ids_at s (t_cred th) = Some i ∧
  v_proc (view_of s) (t_procp th) = Some (cr_ids c, p_strc pr) ∧
  (t_new th = None → v_thr (view_of s) t = Some (t_procp th, i, None)) ∧
  (∀ n, t_new th = Some n → ∃ j, ids_at s n = Some j ∧ v_thr (view_of s) t = Some (t_procp th, i, Some j)).
Proof using Hok.
  intros Et. destruct (co_thr _ _ _ Hok _ _ Et) as [pr Ep]. destruct (ci_proc _ _ (co_inv _ _ _ Hok) _ _ Ep) as [c Ec].
  destruct (ci_thr _ _ (co_inv _ _ _ Hok) _ _ Et) as [[i Hi]%ids_at_Some Hn]. exists pr, c, i. split; [done|]. split; [done|]. split; [done|].
  split; [simpl; rewrite Ep; simpl; unfold pview, ids_at; by rewrite Ec|]. split.
  - intros En. simpl. rewrite Et. simpl. unfold tview. rewrite Hi, En. done.
  - intros n En. pose proof (Hn n En) as [j Hj]%ids_at_Some. exists j. split; [done|]. simpl. rewrite Et. simpl. unfold tview. rewrite Hi, En. simpl. by rewrite Hj.
Qed.

(** A process and one of its threads change, and it is counted where it was. *)
Lemma process_changes s' pr pr2 t th th2 : cr_inv refs s' → stable s s' → cs_thr s !! t = Some th → cs_proc s !! t_procp th = Some pr →
  t_procp th2 = t_procp th → cs_proc s' = <[t_procp th := pr2]> (cs_proc s) → cs_thr s' = <[t := th2]> (cs_thr s) → upc_hash s' = upc_hash s →
  cuid s' pr2 = cuid s pr → moves_ok s' (t_procp th) pr2 → cr_ok refs leak s'.
Proof using Hok.
  intros H3 Hst Et Ep Etp Ep' Et' Eu Ecu Hmp. pose proof Hok as [Hi Hl Hu Hlk Hm Hth]. split; try done.
  - rewrite Eu. eapply upc_ext; [|exact Hu]. intros u. simpl.
    rewrite (counted_update refs refs s s' Hi H3 Hst _ pr pr2 Ep) by done. rewrite Ecu. lia.
  - intros q qr. rewrite Ep', lookup_insert_Some. intros [(<- & <-)|[Hne Eq]]; [done|].
    apply (moves_stay refs refs s s' Hi H3 Hst); [done|by rewrite Ep', lookup_insert_ne| |by apply Hm].
    intros x xr Ex Exq. rewrite Et'. destruct (decide (x = t)) as [->|]; [exists th2; rewrite lookup_insert_eq; split; [done|]|exists xr; by rewrite lookup_insert_ne].
    by assert (xr = th) as -> by congruence.
  - intros x xr. rewrite Ep', Et', lookup_insert_Some, lookup_insert_is_Some'. intros [(<- & <-)|[Hne Ex]]; [by left|right; eauto].
Qed.

Lemma by_call_ok t new th pr c r : cs_thr s !! t = Some th → t ≠ sched → t_procp th ≠ sched → t_new th = None →
  cs_proc s !! t_procp th = Some pr → cs_cred s !! p_cred pr = Some c → cs_cred s !! new = None →
  (∀ j, r (cr_ids c) = inr j → i_ruid j = i_ruid (cr_ids c) ∨ p_moves pr = []) →
  ∃ e s', by_call s t th new (cr_ids c) (r (cr_ids c)) = Ok (e, s') ∧ cr_ok refs leak s' ∧
    e = (spec_change (view_of s) t r).1 ∧ veq (view_of s') (spec_change (view_of s) t r).2.
Proof using Hok.
  intros Et Hts Hps Hn Ep Ec Enew Hr. destruct (thread_entries t th Et) as (pr' & c' & i & Ep' & Ec' & Ei & Vp & Vt & _).
  assert (pr' = pr) as -> by congruence. assert (c' = c) as -> by congruence. specialize (Vt Hn).
  unfold spec_change. rewrite Vt, Vp. destruct (r (cr_ids c)) as [e|j]; cbn [by_call].
  { exists e, s. split_and!; done. }
  specialize (Hr j eq_refl). pose proof Hok as [Hi Hl Hu Hlk Hm Hth].
  destruct (change_inv refs s _ pr new j Hi Hl Ep Hps Enew) as (s1 & -> & H1 & Hj & Hkeep & Ep1 & Et1 & Eu1). cbn [mbind res_bind].
  set (same := i_ruid (cr_ids c) =? i_ruid j).
  set (pr2 := if same then set_pcred new pr else set_moves ((t, (i_ruid (cr_ids c), i_ruid j)) :: p_moves pr) (set_pcred new pr)).
  set (s2 := MkCs (cs_cred s1) (<[t_procp th := pr2]> (cs_proc s)) (cs_thr s) (upc_hash s)).
  assert (call_move s1 t (i_ruid (cr_ids c)) (i_ruid j) = Ok s2) as ->.
  { unfold call_move. rewrite Et1, Et. cbn [deref mbind res_bind]. subst s2 pr2. fold same. destruct same; simpl negb; cbv iota.
    - f_equal. destruct s1; simpl in *. by subst.
    - unfold upd_cproc. rewrite Ep1, lookup_insert_eq. cbn [deref mbind res_bind]. unfold set_cprocs. f_equal.
      rewrite insert_insert_eq, Et1, Eu1. done. }
  cbn [mbind res_bind]. set (th2 := set_new (Some new) th).
  set (s3 := MkCs (cs_cred s1) (<[t_procp th := pr2]> (cs_proc s)) (<[t := th2]> (cs_thr s)) (upc_hash s)).
  assert (upd_thr t (set_new (Some new)) s2 = Ok s3) as -> by (unfold upd_thr; simpl; by rewrite Et).
  cbn [mbind res_bind]. assert (p_cred pr2 = new) as Epc by (subst pr2; by destruct same).
  assert (p_strc pr2 = p_strc pr) as Estrc by (subst pr2; by destruct same).
  assert (is_Some (cs_cred s1 !! new)) as Hnew. { unfold ids_at in Hj. destruct (cs_cred s1 !! new); [by eexists|done]. }
  assert (cr_inv refs s3) as H3.
  { pose proof (cr_proc_inv _ s1 (t_procp th) (set_pcred new pr) pr2 (upc_hash s) H1) as H2.
    rewrite Ep1, Epc, insert_insert_eq, Et1 in H2. specialize (H2 (lookup_insert_eq _ _ _) Hps Hnew).
    apply (cr_thr_inv _ refs s2 t th th2 (upc_hash s) H2 Et Hts).
    - simpl. destruct (ci_thr _ _ H2 t th Et) as [? _]. done.
    - intros n [= <-]. done.
    - intros x. unfold holds_t. simpl. rewrite Hn, !plus_holds. rewrite (bool_decide_false (None = Some x)) by done.
      replace (bool_decide (Some new = Some x)) with (bool_decide (new = x)) by (apply bool_decide_ext; split; congruence).
      change (b2z false) with 0. lia. }
  assert (stable s s3) as Hst.
  { intros x y z Hx Hz. destruct (decide (x = new)) as [->|Hne]; [unfold ids_at in Hx; by rewrite Enew in Hx|].
    apply (Hkeep x Hne) in Hz. congruence. }
  assert (ruid_at s (p_cred pr) = i_ruid (cr_ids c)) as Er by (unfold ruid_at, ids_at; by rewrite Ec).
  assert (ruid_at s3 new = i_ruid j) as Er3 by (unfold ruid_at; change (ids_at s3 new) with (ids_at s1 new); by rewrite Hj).
  assert (cuid s3 pr2 = cuid s pr) as Ecu.
  { unfold cuid. subst pr2. unfold same. destruct (Z.eqb_spec (i_ruid (cr_ids c)) (i_ruid j)) as [E|E]; simpl.
    - destruct (p_moves pr); [by rewrite Er3, Er|done].
    - destruct Hr as [Hr| ->]; [congruence|done]. }
  exists 0, s3. split; [done|]. split; [|split; [done|split]].
  - apply (process_changes s3 pr pr2 t th th2); try done. pose proof (Hm _ _ Ep) as Hmp. subst pr2. unfold same.
    destruct (Z.eqb_spec (i_ruid (cr_ids c)) (i_ruid j)) as [E|E]; simpl.
    + destruct Hmp as [Hmp|(x & xr & old & Em & Ex & Exp)]; [by left|right]. exists x, (if decide (x = t) then th2 else xr), old. simpl.
      rewrite Em, Er, Er3, E. split; [done|]. case_decide as Hx; [subst x; rewrite lookup_insert_eq; by assert (xr = th) as -> by congruence|by rewrite lookup_insert_ne].
    + right. destruct Hr as [Hr|Hr]; [congruence|]. exists t, th2, (i_ruid (cr_ids c)). rewrite Hr. simpl. rewrite Er3.
      split; [done|]. by rewrite lookup_insert_eq.
  - apply (view_proc_update refs refs s s3 (t_procp th) pr2); try done. unfold pview. rewrite Epc, Estrc.
    change (ids_at s3 new) with (ids_at s1 new). by rewrite Hj.
  - apply (view_thr_update refs refs s s3 t th th2); try done. unfold tview. simpl.
    assert (ids_at s3 (t_cred th) = Some i) as ->.
    { rewrite <- Ei. apply stable_eq; [done|by destruct (ci_thr _ _ Hi t th Et)|]. destruct (ci_thr _ _ H3 t th2) as [? _]; [simpl; by rewrite lookup_insert_eq|done]. }
    simpl. change (ids_at s3 new) with (ids_at s1 new). by rewrite Hj.
Qed.

(** When only threads and reference counts change. *)
Lemma threads_ok refs' s' : cr_inv refs' s' → (∀ c, low c ≤ refs' c) → stable s s' → cs_proc s' = cs_proc s → upc_hash s' = upc_hash s →
  (∀ t th, cs_thr s' !! t = Some th → is_Some (cs_proc s !! t_procp th)) →
  (∀ t th pr, cs_thr s !! t = Some th → cs_proc s !! t_procp th = Some pr → p_moves pr ≠ [] →
     ∃ th', cs_thr s' !! t = Some th' ∧ t_procp th' = t_procp th) →
  cr_ok refs' leak s'.
Proof using Hok.
  intros Hi' Hl' Hs Ep Eu Hd Hk. pose proof Hok as [Hi Hl Hu Hlk Hm Hth]. split; try done.
  - rewrite Eu. eapply upc_ext; [|exact Hu]. intros u. simpl. by rewrite (counted_same _ _ s s' Hi Hi' Hs Ep).
  - intros p pr. rewrite Ep. intros Epr. destruct (Hm p pr Epr) as [H|(t & th & old & Em & Et & Etp)]; [by left|right].
    destruct (Hk t th pr Et) as (th' & Et' & Etp'); [by rewrite Etp|by rewrite Em|]. exists t, th', old.
    rewrite (ruid_stable s s'); [split; [done|]; split; [done|congruence]|done|by eapply ci_proc|].
    apply (ci_proc _ _ Hi' p pr). by rewrite Ep.
  - intros t th Et. rewrite Ep. by eapply Hd.
Qed.

(** One thread changes. *)
Lemma thread_changes s' t th th2 : cr_inv refs s' → stable s s' → cs_proc s' = cs_proc s → upc_hash s' = upc_hash s →
  cs_thr s !! t = Some th → cs_thr s' = <[t := th2]> (cs_thr s) → t_procp th2 = t_procp th → cr_ok refs leak s'.
Proof using Hok.
  intros H1 Hst Ep Eu Et Et1 Etp. apply threads_ok; try done; [apply (co_low _ _ _ Hok)| |].
  - intros x xr. rewrite Et1, lookup_insert_Some. intros [(<- & <-)|[_ Ex]]; [rewrite Etp|]; by eapply (co_thr _ _ _ Hok).
  - intros x xr q Ex _ _. rewrite Et1. destruct (decide (x = t)) as [->|]; [exists th2; rewrite lookup_insert_eq; split; [done|]|exists xr; by rewrite lookup_insert_ne].
    by assert (xr = th) as -> by congruence.
Qed.

(** A process but the first is in the count of its user. *)
Lemma counted_pos p pr : cs_proc s !! p = Some pr → p ≠ sched → 1 ≤ counted s (cuid s pr) + leak (cuid s pr).
Proof using Hok.
  intros Ep Hp. pose proof Hok as [Hi Hl Hu Hlk Hm Hth]. set (u := cuid s pr).
  destruct (ci_sched _ _ Hi) as (sr & Es & Ek & Esm). set (f := λ pr0, b2z (bool_decide (cuid s pr0 = u))).
  pose proof (msum_delete f _ _ _ Ep) as H1. assert (f pr = 1) as H2 by apply b2z_decide_eq.
  assert (f sr ≤ msum f (delete p (cs_proc s))) as H3.
  { apply (msum_member f _ sched); [intros; apply b2z_nonneg|]. by rewrite lookup_delete_ne. }
  assert (f sr = b2z (bool_decide (u = 0))) as H4.
  { assert (cuid s sr = 0) as E0 by (unfold cuid, ruid_at, ids_at; by rewrite Esm, Ek, (ci_kcred _ _ Hi)).
    unfold f. f_equal. apply bool_decide_ext. rewrite E0. split; congruence. }
  pose proof (Hlk u). change (counted s u) with (msum f (cs_proc s)). unfold b2z in H4.
  destruct (Z.eqb_spec u 0); [rewrite bool_decide_true in H4 by done|rewrite bool_decide_false in H4 by done]; lia.
Qed.

Lemma do_move_ok t : is_Some (cs_thr s !! t) → ∃ s', do_move s t = Ok s' ∧ cr_ok refs leak s' ∧ veq (view_of s') (view_of s).
Proof using Hok.
  intros [th Et]. destruct (thread_entries t th Et) as (pr & c & _ & Ep & Ec & _ & _). pose proof Hok as [Hi Hl Hu Hlk Hm Hth].
  unfold do_move. rewrite Et. cbn [deref mbind res_bind]. rewrite Ep. cbn [deref mbind res_bind].
  destruct (Hm _ _ Ep) as [Em|(x & xr & old & Em & Ex & Exp)]; [rewrite Em; by exists s|]. rewrite Em.
  unfold find_move. rewrite filter_cons. simpl. case_decide as Hx; [subst x|by exists s]. simpl.
  set (new := ruid_at s (p_cred pr)) in *. unfold upd_cproc. rewrite Ep. cbn [deref mbind res_bind]. set (pr' := set_moves _ pr).
  assert (p_moves pr' = []) as Em'. { subst pr'. simpl. rewrite Em. rewrite filter_cons_False by (simpl; naive_solver). done. }
  assert (cuid s pr = old) as Ecu by (unfold cuid; by rewrite Em).
  assert (t_procp th ≠ sched) as Hns. { intros E. destruct (ci_sched _ _ Hi) as (sr & Es & _ & Esm). rewrite E in Ep. assert (sr = pr) as -> by congruence. congruence. }
  pose proof (counted_pos (t_procp th) pr Ep Hns) as Hpos. rewrite Ecu in Hpos.
  cbn [upc_hash set_cprocs]. destruct (upcount_dec_ok _ _ Hu old Hpos) as (h1 & -> & Hu1). cbn [mbind res_bind].
  destruct (upcount_inc_ok _ _ Hu1 new) as (h2 & -> & Hu2). cbn [mbind res_bind].
  set (s' := set_upc h2 _). assert (cr_inv refs s') as Hi'.
  { eapply cr_inv_ext; [|apply (cr_proc_inv refs s _ pr pr' h2 Hi Ep Hns)].
    - intros z. subst pr'. simpl. unfold plus_at. case_decide; lia.
    - subst pr'. simpl. by eexists. }
  assert (stable s s') as Hst by (apply kept_stable, ids_kept_refl; done).
  assert (cuid s' pr' = new) as Ecu' by (unfold cuid; by rewrite Em').
  exists s'. split; [done|]. split.
  - split; try done.
    + eapply upc_ext; [|exact Hu2]. intros u. simpl. rewrite (counted_update refs refs s s' Hi Hi' Hst _ pr pr' Ep) by done.
      rewrite Ecu, Ecu'. unfold b2z. destruct (Z.eqb_spec u old), (Z.eqb_spec u new); repeat case_bool_decide; try congruence; lia.
    + intros q qr. simpl. rewrite lookup_insert_Some. intros [(<- & <-)|[Hne Eq]]; [by left|].
      apply (moves_stay refs refs s s' Hi Hi' Hst); [done|simpl; by rewrite lookup_insert_ne| |by apply Hm]. intros y yr Ey Eyp. by exists yr.
    + intros y yr Ey. simpl. rewrite lookup_insert_is_Some'. right. eauto.
  - split.
    + intros x. rewrite (view_proc_update refs refs s s' (t_procp th) pr' (pview s' pr') Hi Hi' Hst) by done. unfold fupd.
      case_decide as Hx; [subst x|done]. simpl. rewrite Ep. done.
    + apply (view_thr_same refs refs s s'); done.
Qed.

End ops.

(** ** The rest of a call, and the start of the next *)

(** Marking the other threads changes nothing else of them. *)
Definition mark_threads (p t : Z) (m : gmap Z cthread) : gmap Z cthread :=
  map_imap (λ x th, Some (if bool_decide (t_procp th = p) && negb (bool_decide (x = t)) then set_pre_sys true th else th)) m.

Lemma mark_lookup p t m x th' : mark_threads p t m !! x = Some th' → ∃ th, m !! x = Some th ∧
  t_procp th' = t_procp th ∧ t_cred th' = t_cred th ∧ t_new th' = t_new th.
Proof.
  unfold mark_threads. rewrite map_lookup_imap. intros (th & Et & [= <-])%bind_Some. exists th. split; [done|]. by destruct (_ && _).
Qed.

Lemma mark_lookup_inv p t m x th : m !! x = Some th → ∃ th', mark_threads p t m !! x = Some th' ∧
  t_procp th' = t_procp th ∧ t_cred th' = t_cred th ∧ t_new th' = t_new th.
Proof. intros Et. unfold mark_threads. rewrite map_lookup_imap, Et. simpl. eexists. split; [done|]. by destruct (_ && _). Qed.

Lemma mark_inv d s p t : cr_inv d s → cr_inv d (set_thrs (mark_threads p t (cs_thr s)) s).
Proof.
  intros Hi. pose proof Hi as [I1 I2 I3 I4 I5 I6 I7]. apply (cr_tables_inv d); try done.
  - intros c. unfold holders, mark_threads. rewrite (msum_imap (holds_t c)); [lia|]. intros k a. by destruct (_ && _).
  - intros x th' (th & Et & _ & -> & ->)%mark_lookup. eauto.
  - destruct I6 as (th & Et & Ec & Ep & En). destruct (mark_lookup_inv p t _ _ _ Et) as (th' & Et' & E1 & E2 & E3).
    exists th'. split; [done|]. by rewrite E1, E2, E3.
Qed.

Lemma mark_view s p t : veq (view_of (set_thrs (mark_threads p t (cs_thr s)) s)) (view_of s).
Proof.
  split; intros x; [done|]. simpl. unfold mark_threads. rewrite map_lookup_imap. destruct (cs_thr s !! x); [|done]. simpl. by destruct (_ && _).
Qed.

(** The thread drops [a] and takes the credentials of its process. *)
Lemma take_current s sh t th pr a c : cs_proc s !! t_procp th = Some pr → cs_cred s !! p_cred pr = Some c → cs_thr s !! t = Some th →
  a ≠ p_cred pr → crhold s (p_cred pr) = Ok sh →
  (s' ← crfree (set_thrs (<[t := set_pre_sys false th]> (cs_thr s)) s) a;
   '(cr, s') ← crgetcred s' (t_procp th); upd_thr t (set_tcred cr) s') =
  crfree (set_thrs (<[t := set_tcred (p_cred pr) (set_pre_sys false th)]> (cs_thr sh)) sh) a.
Proof.
  intros Ep Ec Et Hne. unfold crhold at 1, upd_cred. rewrite Ec. intros [= <-]. unfold crfree. cbn [cs_cred set_thrs set_creds cs_thr].
  rewrite lookup_insert_ne by congruence. destruct (cs_cred s !! a) as [x|]; [|done]. cbn [deref mbind res_bind].
  destruct (0 <? _); [|destruct (a =? kcred); [done|]]; cbn [mbind res_bind]; unfold crgetcred; cbn [cs_proc set_thrs set_creds];
    rewrite Ep; cbn [deref mbind res_bind]; unfold crhold, upd_cred; cbn [cs_cred set_thrs set_creds].
  - rewrite lookup_insert_ne, Ec by done. cbn [deref mbind res_bind]. unfold upd_thr. simpl. rewrite lookup_insert_eq. cbn [deref mbind res_bind].
    unfold set_thrs, set_creds. simpl. by rewrite insert_insert_eq, insert_insert_ne.
  - rewrite lookup_delete_ne, Ec by done. cbn [deref mbind res_bind]. unfold upd_thr. simpl. rewrite lookup_insert_eq. cbn [deref mbind res_bind].
    unfold set_thrs, set_creds. simpl. by rewrite insert_insert_eq, delete_insert_ne.
Qed.

Section rest.
Context (refs leak : Z → Z) (s : csys).
Hypothesis Hok : cr_ok refs leak s.

Lemma do_crset_ok t : is_Some (cs_thr s !! t) → t ≠ sched → ∃ s', do_crset s t = Ok s' ∧ cr_ok refs leak s' ∧
  veq (view_of s') (match v_thr (view_of s) t with Some (p, _, Some j) => MkView (v_proc (view_of s)) (fupd (v_thr (view_of s)) t (Some (p, j, None))) | _ => view_of s end).
Proof using Hok.
  intros [th Et] Hts. destruct (thread_entries refs leak s Hok t th Et) as (pr & c & i & Ep & Ec & Ei & _ & V0 & V1).
  pose proof Hok as [Hi Hl Hu Hlk Hm Hth]. unfold do_crset. rewrite Et. cbn [deref mbind res_bind].
  destruct (t_new th) as [n|] eqn:En; [|rewrite (V0 eq_refl); by exists s]. destruct (V1 n eq_refl) as (j & Ej & ->).
  destruct (ci_thr _ _ Hi _ _ Et) as [_ Hn]. specialize (Hn n En).
  unfold upd_thr at 1. rewrite Et. cbn [deref mbind res_bind]. unfold crset. cbn [cs_thr set_thrs]. rewrite lookup_insert_eq.
  cbn [deref mbind res_bind]. cbn [t_cred set_new].
  set (th2 := set_tcred n (set_new None th)).
  destruct (thread_takes refs refs s t th th2 Hl Hi Et Hts eq_refl Hn eq_refl) as (s1 & E1 & H1 & Hk & Ep1 & Et1 & Eu1).
  { intros x. unfold holds_t. rewrite En. simpl. replace (bool_decide (Some n = Some x)) with (bool_decide (n = x)); [lia|].
    apply bool_decide_ext. split; congruence. }
  rewrite <- crfree_thr in E1. rewrite <- (crfree_thr s t (set_new None th)).
  destruct (crfree s (t_cred th)) as [s0| |] eqn:E0; [|done..]. cbn [mbind res_bind] in *. injection E1 as E1.
  assert (upd_thr t (set_tcred n) (set_thrs (<[t := set_new None th]> (cs_thr s0)) s0) = Ok s1) as ->.
  { rewrite <- E1. unfold upd_thr. simpl. rewrite lookup_insert_eq. cbn [deref mbind res_bind]. unfold set_thrs. simpl. by rewrite insert_insert_eq. }
  cbn [mbind res_bind].
  assert (stable s s1) as Hst by (by apply kept_stable).
  assert (veq (view_of s1) (MkView (v_proc (view_of s)) (fupd (v_thr (view_of s)) t (Some (t_procp th, j, None))))) as Hv.
  { split; [by apply (view_proc_same refs refs s s1)|]. apply (view_thr_update refs refs s s1 t th th2); try done. unfold tview. simpl.
    assert (ids_at s1 n = Some j) as ->; [|done]. rewrite <- Ej. apply stable_eq; [done|done|].
    destruct (ci_thr _ _ H1 t th2) as [? _]; [rewrite Et1; apply lookup_insert_eq|done]. }
  assert (cr_ok refs leak s1) as Hok1 by (by apply (thread_changes refs leak s Hok s1 t th th2)).
  destruct (1 <? lwpcnt s1 _); [|by exists s1].
  change (map_imap _ (cs_thr s1)) with (mark_threads (t_procp th) t (cs_thr s1)).
  eexists. split; [done|]. split; [|etrans; [apply mark_view|done]].
  apply (threads_ok refs leak s1 Hok1); try done; [by apply mark_inv|by apply kept_stable, ids_kept_refl| |].
  - intros x xr (y & Ey & -> & _)%mark_lookup. by eapply (co_thr _ _ _ Hok1).
  - intros x xr q Ex _ _. destruct (mark_lookup_inv (t_procp th) t _ _ _ Ex) as (y & Ey & ? & _). by exists y.
Qed.

Lemma pre_syscall_ok t : idle s t → ∃ s', pre_syscall s t = Ok s' ∧ cr_ok refs leak s' ∧
  veq (view_of s') (match v_thr (view_of s) t with
        | Some (p, _, n) => match v_proc (view_of s) p with Some (i, _) => MkView (v_proc (view_of s)) (fupd (v_thr (view_of s)) t (Some (p, i, n))) | None => view_of s end
        | None => view_of s end).
Proof using Hok.
  intros (th & Et & Hts & Hps & Hn). destruct (thread_entries refs leak s Hok t th Et) as (pr & c & i & Ep & Ec & Ei & Vp & V0 & _).
  rewrite (V0 Hn), Vp. pose proof Hok as [Hi Hl Hu Hlk Hm Hth].
  unfold pre_syscall. assert (upd_thr t (set_pre_sys false) s = Ok (set_thrs (<[t := set_pre_sys false th]> (cs_thr s)) s)) as ->.
  { unfold upd_thr. by rewrite Et. }
  cbn [mbind res_bind]. cbn [cs_thr set_thrs cs_proc]. rewrite lookup_insert_eq.
  cbn [deref mbind res_bind]. cbn [t_procp set_pre_sys t_cred]. rewrite Ep. cbn [deref mbind res_bind].
  assert (is_Some (cs_cred s !! p_cred pr)) as Hpc by (by eexists).
  destruct (Z.eqb_spec (t_cred th) (p_cred pr)) as [E|E]; simpl negb; cbv iota.
  - set (th2 := set_pre_sys false th). set (s1 := set_thrs _ s). exists s1. split; [done|].
    assert (cr_inv refs s1) as H1.
    { apply (cr_thr_inv refs refs s t th th2 (upc_hash s) Hi Et Hts); [by rewrite <- E in Hpc|intros n; simpl; by rewrite Hn|].
      intros x. unfold holds_t. simpl. lia. }
    assert (stable s s1) as Hst by (apply kept_stable, ids_kept_refl; done).
    split.
    + by apply (thread_changes refs leak s Hok s1 t th th2).
    + split; [by apply (view_proc_same refs refs s s1)|]. apply (view_thr_update refs refs s s1 t th th2); try done. unfold tview. simpl.
      rewrite E. change (ids_at s1 (p_cred pr)) with (ids_at s (p_cred pr)). unfold ids_at. rewrite Ec, Hn. done.
  - destruct (crhold_inv refs s (p_cred pr) Hi Hpc) as (sh & Eh & Hh & Hkh & Hih & Eph & Eth & Euh).
    set (th2 := set_tcred (p_cred pr) (set_pre_sys false th)).
    destruct (thread_takes refs _ sh t th th2 Hl Hh) as (s1 & E1 & H1 & Hk & Ep1 & Et1 & Eu1); try done; [by rewrite Eth| | |].
    { simpl. unfold crhold, upd_cred in Eh. rewrite Ec in Eh. injection Eh as <-. simpl. rewrite lookup_insert_eq. by eexists. }
    { intros x. rewrite plus_holds. unfold holds_t. simpl. rewrite Hn, (bool_decide_false (None = Some x)) by done. change (b2z false) with 0. lia. }
    rewrite (take_current s sh t th pr (t_cred th) c Ep Ec Et E Eh). fold th2. rewrite E1.
    exists s1. split; [done|].
    assert (stable s s1) as Hst. { apply kept_stable. eapply ids_kept_trans; [exact Hkh|exact Hk]. }
    assert (cs_proc s1 = cs_proc s) as Eps by congruence. assert (upc_hash s1 = upc_hash s) as Eus by congruence.
    rewrite Eth in Et1. split.
    + by apply (thread_changes refs leak s Hok s1 t th th2).
    + split; [by apply (view_proc_same refs refs s s1)|]. apply (view_thr_update refs refs s s1 t th th2); try done. unfold tview. simpl. rewrite Hn.
      assert (ids_at s1 (p_cred pr) = Some (cr_ids c)) as ->; [|done].
      rewrite (stable_eq s s1); [unfold ids_at; by rewrite Ec|done|done|].
      destruct (ci_thr _ _ H1 t th2) as [? _]; [rewrite Et1; apply lookup_insert_eq|done].
Qed.
End rest.
