(* ===== verification/CredThms.v ===== *)
(** * What holds of credentials

    First the operations that make and end processes and threads, then the theorems. *)

From S2P Require Import Prelude Upcount Cred CredProps CredInv CredOps CredSys.

Lemma crfree_upd_thr s t th f a : cs_thr s !! t = Some th →
  (s' ← crfree s a; upd_thr t f s') = crfree (set_thrs (<[t := f th]> (cs_thr s)) s) a.
Proof.
  intros Et. rewrite <- crfree_thr. destruct (crfree s a) as [s1| |] eqn:E; [|done..]. cbn [mbind res_bind].
  apply crfree_creds in E as (_ & E & _). unfold upd_thr. by rewrite E, Et.
Qed.

Section procs.
Context (refs leak : Z → Z) (s : csys).
Hypothesis Hok : cr_ok refs leak s.

(** ** exec *)

(** The flag [NOCD]. *)
Lemma proc_flag_ok p pr pr' : cs_proc s !! p = Some pr → p ≠ sched → p_cred pr' = p_cred pr → p_strc pr' = p_strc pr → p_moves pr' = p_moves pr →
  let s' := set_cprocs (<[p := pr']> (cs_proc s)) s in cr_ok refs leak s' ∧ veq (view_of s') (view_of s).
Proof using Hok.
  intros Ep Hp Ec Es Em s'. pose proof Hok as [Hi Hl Hu Hlk Hm Hth].
  assert (cr_inv refs s') as Hi'.
  { eapply cr_inv_ext; [|apply (cr_proc_inv refs s p pr pr' (upc_hash s) Hi Ep Hp)]; [|rewrite Ec; by eapply ci_proc].
    intros c. rewrite Ec. unfold plus_at. case_decide; lia. }
  assert (stable s s') as Hst by (apply kept_stable, ids_kept_refl; done).
  assert (cuid s' pr' = cuid s pr) as Ecu by (unfold cuid; by rewrite Em, Ec).
  split.
  - split; try done.
    + eapply upc_ext; [|exact Hu]. intros u. simpl. rewrite (counted_update refs refs s s' Hi Hi' Hst p pr pr' Ep) by done. rewrite Ecu. lia.
    + intros q qr. simpl. rewrite lookup_insert_Some. intros [(<- & <-)|[Hne Eq]].
      * destruct (Hm _ _ Ep) as [H|(t & th & old & Ep' & H)]; [left; congruence|right]. exists t, th, old. by rewrite Em, Ec.
      * apply (moves_stay refs refs s s' Hi Hi' Hst); [done|simpl; by rewrite lookup_insert_ne| |by apply Hm]. intros y yr Ey Eyp. by exists yr.
    + intros x xr Ex. simpl. rewrite lookup_insert_is_Some'. right. eauto.
  - split; [|by apply (view_thr_same refs refs s s')]. intros x.
    rewrite (view_proc_update refs refs s s' p pr' (pview s' pr') Hi Hi' Hst) by done. unfold fupd. case_decide as Hx; [subst x|done].
    simpl. rewrite Ep. simpl. unfold pview. by rewrite Ec, Es.
Qed.

(** The process and its thread take new credentials, with the real uid they had. *)
Lemma exec_change_ok t th pr c new j : cs_thr s !! t = Some th → t ≠ sched → t_procp th ≠ sched → t_new th = None →
  cs_proc s !! t_procp th = Some pr → cs_cred s !! p_cred pr = Some c → cs_cred s !! new = None → i_ruid j = i_ruid (cr_ids c) →
  ∃ s', (s2 ← change s (t_procp th) new j; s2 ← crfree s2 (t_cred th); s2 ← upd_thr t (set_tcred new) s2; Ok (0, s2)) = Ok (0, s') ∧
    cr_ok refs leak s' ∧
    veq (view_of s') (MkView (fupd (v_proc (view_of s)) (t_procp th) (Some (j, p_strc pr)))
                             (fupd (v_thr (view_of s)) t (Some (t_procp th, j, None)))).
Proof using Hok.
  intros Et Hts Hps Hn Ep Ec Enew Er. pose proof Hok as [Hi Hl Hu Hlk Hm Hth].
  destruct (change_inv refs s _ pr new j Hi Hl Ep Hps Enew) as (s1 & -> & H1 & Hj & Hkeep & Ep1 & Et1 & Eu1). cbn [mbind res_bind].
  set (th2 := set_tcred new th).
  assert (is_Some (cs_cred s1 !! new)) as Hnew. { unfold ids_at in Hj. destruct (cs_cred s1 !! new); [by eexists|done]. }
  destruct (thread_takes refs (plus_at refs new 1) s1 t th th2 Hl H1) as (s2 & E2 & H2 & Hk2 & Ep2 & Et2 & Eu2); try done; [by rewrite Et1| |].
  { intros x. rewrite plus_holds. unfold holds_t. simpl. rewrite Hn, (bool_decide_false (None = Some x)) by done. change (b2z false) with 0. lia. }
  assert ((s0 ← crfree s1 (t_cred th); s0 ← upd_thr t (set_tcred new) s0; Ok (0, s0)) = Ok (0, s2)) as ->.
  { rewrite <- (crfree_upd_thr s1 t th (set_tcred new)) in E2 by (by rewrite Et1). destruct (crfree s1 _) as [s0| |]; [|done..].
    cbn [mbind res_bind] in *. by rewrite E2. }
  exists s2. split; [done|].
  assert (stable s s2) as Hst.
  { intros x y z Hx Hz%Hk2. destruct (decide (x = new)) as [->|Hne]; [unfold ids_at in Hx; by rewrite Enew in Hx|].
    apply (Hkeep x Hne) in Hz. congruence. }
  assert (ids_at s2 new = Some j) as Hj2.
  { destruct (ci_thr _ _ H2 t th2) as [[i Hi2]%ids_at_Some _]; [rewrite Et2; apply lookup_insert_eq|]. simpl in Hi2. rewrite Hi2.
    apply Hk2 in Hi2. congruence. }
  assert (ruid_at s2 new = ruid_at s (p_cred pr)) as Er2 by (unfold ruid_at; rewrite Hj2; unfold ids_at; by rewrite Ec).
  split; [|split].
  - apply (process_changes refs leak s Hok s2 pr (set_pcred new pr) t th th2); try done; [by rewrite Ep2, Ep1|by rewrite Et2, Et1|by rewrite Eu2, Eu1| |].
    + unfold cuid. simpl. destruct (p_moves pr); [done|done].
    + destruct (Hm _ _ Ep) as [H|(x & xr & old & Em & Ex & Exp)]; [by left|right]. exists x, (if decide (x = t) then th2 else xr), old. simpl.
      rewrite Er2. split; [done|]. rewrite Et2, Et1. case_decide as Hx; [subst x; rewrite lookup_insert_eq; by assert (xr = th) as -> by congruence|by rewrite lookup_insert_ne].
  - apply (view_proc_update refs refs s s2 (t_procp th) (set_pcred new pr)); try done; [by rewrite Ep2, Ep1|]. unfold pview. simpl. by rewrite Hj2.
  - apply (view_thr_update refs refs s s2 t th th2); try done; [by rewrite Et2, Et1|]. unfold tview. simpl. by rewrite Hj2, Hn.
Qed.

(** ** fork *)

Lemma fork_cred_ok t cp : cs_proc s !! cp = None →
  (∃ th pr, cs_thr s !! t = Some th ∧ cs_proc s !! t_procp th = Some pr ∧ ruid_at s (t_cred th) = ruid_at s (p_cred pr)) →
  ∃ s', fork_cred s t cp = Ok s' ∧ cr_ok refs leak s' ∧
    veq (view_of s') (match v_thr (view_of s) t with
        | Some (p, _, _) => match v_proc (view_of s) p with Some (i, _) => MkView (fupd (v_proc (view_of s)) cp (Some (i, false))) (v_thr (view_of s)) | None => view_of s end
        | None => view_of s end).
Proof using Hok.
  intros Ecp (th & pr & Et & Ep & Er). destruct (thread_entries refs leak s Hok t th Et) as (pr' & c & i & Ep' & Ec & Ei & Vp & V0 & V1).
  assert (pr' = pr) as -> by congruence. pose proof Hok as [Hi Hl Hu Hlk Hm Hth].
  assert (match v_thr (view_of s) t with
    | Some (p, _, _) => match v_proc (view_of s) p with Some (i, _) => MkView (fupd (v_proc (view_of s)) cp (Some (i, false))) (v_thr (view_of s)) | None => view_of s end
    | None => view_of s end = MkView (fupd (v_proc (view_of s)) cp (Some (cr_ids c, false))) (v_thr (view_of s))) as ->.
  { destruct (t_new th) as [n|] eqn:En; [destruct (V1 n eq_refl) as (j & _ & ->)|rewrite (V0 eq_refl)]; by rewrite Vp. }
  unfold fork_cred. rewrite Et. cbn [deref mbind res_bind]. assert (∃ x, cs_cred s !! t_cred th = Some x) as [x Ex] by (by destruct (ci_thr _ _ Hi _ _ Et)).
  rewrite Ex. cbn [deref mbind res_bind]. destruct (upcount_inc_ok _ _ Hu (i_ruid (cr_ids x))) as (h & -> & Hu1). cbn [mbind res_bind].
  cbn [cs_proc set_upc]. rewrite Ep. cbn [deref mbind res_bind].
  assert (cr_inv refs (set_upc h s)) as Hih by (by destruct Hi; split).
  destruct (crhold_inv refs (set_upc h s) (p_cred pr) Hih ltac:(by eexists)) as (s1 & -> & H1 & Hk1 & Hids & Ep1 & Et1 & Eu1). cbn [mbind res_bind].
  set (cpr := MkCProc (p_cred pr) false false []). set (s2 := set_cprocs _ s1). exists s2. split; [done|].
  assert (is_Some (cs_cred s1 !! p_cred pr)) as Hpc. { apply (ci_proc _ _ H1 (t_procp th)). by rewrite Ep1. }
  assert (cr_inv refs s2) as H2.
  { eapply cr_inv_ext; [|apply (cr_proc_new_inv _ s1 cp cpr (upc_hash s1) H1)]; [|by rewrite Ep1|done].
    intros y. simpl. unfold plus_at. case_decide; lia. }
  assert (∀ y, ids_at s2 y = ids_at s y) as Hids2 by (intros y; change (ids_at s2 y) with (ids_at s1 y); apply Hids).
  assert (stable s s2) as Hst by (intros y a b Ha Hb; rewrite Hids2 in Hb; congruence).
  assert (cs_proc s2 = <[cp := cpr]> (cs_proc s)) as Ep2 by (unfold s2; simpl; by rewrite Ep1).
  assert (cuid s2 cpr = i_ruid (cr_ids x)) as Ecu.
  { unfold cuid. simpl. unfold ruid_at in *. rewrite Hids2. rewrite <- Er. unfold ids_at. by rewrite Ex. }
  split; [|split].
  - split; try done.
    + change (upc_hash s2) with (upc_hash s1). rewrite Eu1. eapply upc_ext; [|exact Hu1]. intros u. simpl.
      rewrite (counted_new refs refs s s2 Hi H2 Hst cp cpr Ecp Ep2). rewrite Ecu.
      unfold b2z. destruct (Z.eqb_spec u (i_ruid (cr_ids x))); case_bool_decide; try congruence; lia.
    + intros q qr. rewrite Ep2, lookup_insert_Some. intros [(<- & <-)|[Hne Eq]]; [by left|].
      apply (moves_stay refs refs s s2 Hi H2 Hst); [done|by rewrite Ep2, lookup_insert_ne| |by apply Hm].
      intros y yr Ey Eyp. exists yr. change (cs_thr s2) with (cs_thr s1). by rewrite Et1.
    + intros y yr. change (cs_thr s2) with (cs_thr s1). rewrite Et1. intros Ey. rewrite Ep2, lookup_insert_is_Some'. right. by eapply Hth.
  - apply (view_proc_update refs refs s s2 cp cpr); try done. unfold pview. simpl. rewrite Hids2. unfold ids_at. by rewrite Ec.
  - apply (view_thr_same refs refs s s2); try done.
Qed.

(** ** The end of a process *)

(** What is left when a process without threads is taken out. *)
Lemma process_gone p pr s' k h : cs_proc s !! p = Some pr → p ≠ sched → no_threads s p →
  cr_inv refs s' → ids_kept s s' → cs_proc s' = delete p (cs_proc s) → cs_thr s' = cs_thr s → upc_hash s' = h →
  (∀ u, 0 ≤ k u) → upc_ok (λ u, counted s u - b2z (bool_decide (ruid_at s (p_cred pr) = u)) + leak u + k u) h →
  cr_ok refs (λ u, leak u + k u) s' ∧ veq (view_of s') (MkView (fupd (v_proc (view_of s)) p None) (v_thr (view_of s))).
Proof using Hok.
  intros Ep Hp Hnt H' Hk Ep' Et' Eu Hk0 Hu'. pose proof Hok as [Hi Hl Hu Hlk Hm Hth]. pose proof (kept_stable _ _ Hk) as Hst.
  assert (p_moves pr = []) as Em. { destruct (Hm _ _ Ep) as [?|(t & th & old & _ & Et & Etp)]; [done|]. by destruct (Hnt t th). }
  assert (cuid s pr = ruid_at s (p_cred pr)) as Ecu by (unfold cuid; by rewrite Em).
  split; [split; try done|split].
  - rewrite Eu. eapply upc_ext; [|exact Hu']. intros u. simpl. rewrite (counted_delete refs refs s s' Hi H' Hst p pr Ep Ep'), Ecu. lia.
  - intros u. pose proof (Hlk u). pose proof (Hk0 u). lia.
  - intros q qr. rewrite Ep'. intros [Hne Eq]%lookup_delete_Some.
    apply (moves_stay refs refs s s' Hi H' Hst); [done|by rewrite Ep', lookup_delete_ne| |by apply Hm]. intros y yr Ey Eyp. exists yr. by rewrite Et'.
  - intros x xr. rewrite Et', Ep'. intros Ex. rewrite lookup_delete_ne; [eauto|]. intros E. by destruct (Hnt x xr).
  - by apply (view_proc_delete refs refs s s').
  - by apply (view_thr_same refs refs s s').
Qed.

(** The process drops its credentials. *)
Lemma drop_cred p pr h : cs_proc s !! p = Some pr → p ≠ sched →
  ∃ s', (s' ← crfree (set_upc h s) (p_cred pr); Ok (set_cprocs (delete p (cs_proc s')) s')) = Ok s' ∧ cr_inv refs s' ∧ ids_kept s s' ∧
    cs_proc s' = delete p (cs_proc s) ∧ cs_thr s' = cs_thr s ∧ upc_hash s' = h.
Proof using Hok.
  intros Ep Hp. pose proof Hok as [Hi Hl _ _ _ _]. pose proof (ci_proc _ _ Hi _ _ Ep) as Hc.
  pose proof (cr_proc_del_inv refs s p pr h Hi Ep Hp) as H1.
  destruct (crfree_inv _ _ (p_cred pr) H1 Hc (low_low _ _ Hl)) as (s2 & E & H2 & Hk & Ep2 & Et2 & Eu2). simpl in *.
  exists s2. split; [|split; [|done]].
  - rewrite <- E, (crfree_frame (cs_cred s) (cs_proc s) (cs_thr s) h). fold (set_upc h s).
    destruct (crfree (set_upc h s) (p_cred pr)) as [s1| |] eqn:E1; [|done..]. cbn [mbind res_bind].
    apply crfree_creds in E1 as (E1p & E1t & E1u & _). simpl in *. unfold set_cprocs. by rewrite E1p, E1t, E1u.
  - eapply cr_inv_ext; [|exact H2]. intros c. unfold plus_at. case_decide; lia.
Qed.

Lemma fork_fail_ok p pr : cs_proc s !! p = Some pr → p ≠ sched → no_threads s p →
  ∃ s', fork_fail s p = Ok s' ∧ cr_ok refs (plus_at leak (ruid_at s (p_cred pr)) 1) s' ∧
    veq (view_of s') (MkView (fupd (v_proc (view_of s)) p None) (v_thr (view_of s))).
Proof using Hok.
  intros Ep Hp Hnt. destruct (drop_cred p pr (upc_hash s) Ep Hp) as (s' & E & H1 & Hk & Ep1 & Et1 & Eu1). exists s'.
  unfold fork_fail. rewrite Ep. cbn [deref mbind res_bind]. replace (set_upc (upc_hash s) s) with s in E by (by destruct s). split; [exact E|].
  apply (process_gone p pr s' (λ u, if decide (u = ruid_at s (p_cred pr)) then 1 else 0) (upc_hash s)); try done.
  - intros u. case_decide; lia.
  - eapply upc_ext; [|exact (co_upc _ _ _ Hok)]. intros u. simpl. unfold b2z. repeat case_decide; case_bool_decide; try congruence; lia.
Qed.

Lemma freeproc_cred_ok p pr : cs_proc s !! p = Some pr → p ≠ sched → no_threads s p →
  ∃ s', freeproc_cred s p = Ok s' ∧ cr_ok refs leak s' ∧
    veq (view_of s') (MkView (fupd (v_proc (view_of s)) p None) (v_thr (view_of s))).
Proof using Hok.
  intros Ep Hp Hnt. pose proof Hok as [Hi Hl Hu Hlk Hm Hth].
  assert (cuid s pr = ruid_at s (p_cred pr)) as Ecu.
  { unfold cuid. destruct (Hm _ _ Ep) as [->|(t & th & old & _ & Et & Etp)]; [done|]. by destruct (Hnt t th). }
  pose proof (counted_pos refs leak s Hok p pr Ep Hp) as Hpos. rewrite Ecu in Hpos.
  unfold freeproc_cred. rewrite Ep. cbn [deref mbind res_bind]. destruct (ci_proc _ _ Hi _ _ Ep) as [c Ec]. rewrite Ec. cbn [deref mbind res_bind].
  assert (ruid_at s (p_cred pr) = i_ruid (cr_ids c)) as Er by (unfold ruid_at, ids_at; by rewrite Ec). rewrite <- Er.
  destruct (upcount_dec_ok _ _ Hu _ Hpos) as (h & -> & Hu1). cbn [mbind res_bind].
  destruct (drop_cred p pr h Ep Hp) as (s' & E & H1 & Hk & Ep1 & Et1 & Eu1). exists s'. split; [exact E|].
  destruct (process_gone p pr s' (λ _, 0) h) as [Hok' Hv]; try done.
  - eapply upc_ext; [|exact Hu1]. intros u. simpl. unfold b2z. destruct (Z.eqb_spec u (ruid_at s (p_cred pr))); case_bool_decide; try congruence; lia.
  - split; [|done]. destruct Hok' as [K1 K2 K3 K4 K5 K6]. split; try done. eapply upc_ext; [|exact K3]. intros u. simpl. lia.
Qed.
End procs.

(** ** Threads and other holders *)

Section others.
Context (refs leak : Z → Z) (s : csys).
Hypothesis Hok : cr_ok refs leak s.

Lemma thread_hold_ok p t pr : cs_proc s !! p = Some pr → cs_thr s !! t = None →
  ∃ s', thread_hold s p t (p_cred pr) = Ok s' ∧ cr_ok refs leak s' ∧
    veq (view_of s') (match v_proc (view_of s) p with Some (i, _) => MkView (v_proc (view_of s)) (fupd (v_thr (view_of s)) t (Some (p, i, None))) | None => view_of s end).
Proof using Hok.
  intros Ep Et. pose proof Hok as [Hi Hl Hu Hlk Hm Hth]. unfold thread_hold.
  pose proof (ci_proc _ _ Hi _ _ Ep) as Hc. pose proof Hc as [i Ei]%ids_at_Some.
  destruct (crhold_inv refs s (p_cred pr) Hi Hc) as (s1 & -> & H1 & Hk1 & Hids & Ep1 & Et1 & Eu1). cbn [mbind res_bind].
  set (th := MkCThread p (p_cred pr) false None). set (s2 := set_thrs _ s1). exists s2. split; [done|].
  assert (cr_inv refs s2) as H2.
  { apply (cr_thr_new_inv _ refs s1 t th (upc_hash s1) H1); [by rewrite Et1| |done|].
    - simpl. apply (ci_proc _ _ H1 p). by rewrite Ep1.
    - intros c. rewrite plus_holds. unfold holds_t, th. simpl. lia. }
  assert (∀ y, ids_at s2 y = ids_at s y) as Hids2 by (intros y; change (ids_at s2 y) with (ids_at s1 y); apply Hids).
  assert (stable s s2) as Hst by (intros y a b Ha Hb; rewrite Hids2 in Hb; congruence).
  assert (cs_thr s2 = <[t := th]> (cs_thr s)) as Et2 by (unfold s2; simpl; by rewrite Et1).
  assert (cs_proc s2 = cs_proc s) as Ep2 by exact Ep1.
  assert (v_proc (view_of s) p = Some (i, p_strc pr)) as -> by (simpl; rewrite Ep; simpl; unfold pview; by rewrite Ei).
  split; [|split].
  - apply (threads_ok refs leak s Hok); try done.
    + intros x xr. rewrite Et2, lookup_insert_Some. intros [(<- & <-)|[_ Ex]]; [by eexists|by eapply Hth].
    + intros x xr q Ex _ _. exists xr. rewrite Et2, lookup_insert_ne; [done|]. congruence.
  - by apply (view_proc_same refs refs s s2).
  - apply (view_thr_new refs refs s s2 t th); try done. unfold tview. simpl. by rewrite Hids2, Ei.
Qed.

Lemma thread_free_ok t : idle s t → settled s t →
  ∃ s', thread_free s t = Ok s' ∧ cr_ok refs leak s' ∧ veq (view_of s') (MkView (v_proc (view_of s)) (fupd (v_thr (view_of s)) t None)).
Proof using Hok.
  intros (th & Et & Hts & _ & Hn) Hset. pose proof Hok as [Hi Hl Hu Hlk Hm Hth]. unfold thread_free. rewrite Et. cbn [deref mbind res_bind].
  destruct (ci_thr _ _ Hi _ _ Et) as [Hc _].
  assert (cr_inv (plus_at refs (t_cred th) 1) (set_thrs (delete t (cs_thr s)) s)) as H1.
  { apply (cr_thr_del_inv refs _ s t th (upc_hash s) Hi Et Hts). intros c. rewrite plus_holds. unfold holds_t. rewrite Hn, (bool_decide_false (None = Some c)) by done.
    change (b2z false) with 0. lia. }
  destruct (crfree_inv _ _ (t_cred th) H1 Hc (low_low _ _ Hl)) as (s2 & E & H2 & Hk & Ep2 & Et2 & Eu2). simpl in *.
  exists s2. assert (cr_inv refs s2) as H2'. { eapply cr_inv_ext; [|exact H2]. intros c. unfold plus_at. case_decide; lia. }
  pose proof (kept_stable s s2 Hk) as Hst. split; [|split; [|split]].
  - rewrite <- E. unfold set_thrs at 2. rewrite (crfree_frame (cs_cred s) (cs_proc s) (cs_thr s) (upc_hash s)).
    replace (MkCs (cs_cred s) (cs_proc s) (cs_thr s) (upc_hash s)) with s by (by destruct s).
    destruct (crfree s (t_cred th)) as [s1| |] eqn:E1; [|done..]. cbn [mbind res_bind].
    apply crfree_creds in E1 as (E1p & E1t & E1u & _). unfold set_thrs. by rewrite E1p, E1t, E1u.
  - apply (threads_ok refs leak s Hok); try done.
    + intros x xr. rewrite Et2. intros [_ Ex]%lookup_delete_Some. by eapply Hth.
    + intros x xr q Ex Eq Hq. exists xr. rewrite Et2. destruct (decide (x = t)) as [->|]; [|by rewrite lookup_delete_ne].
      destruct Hq. by eapply Hset.
  - by apply (view_proc_same refs refs s s2).
  - by apply (view_thr_delete refs refs s s2).
Qed.

Lemma hold_ok c : is_Some (cs_cred s !! c) → ∃ s', crhold s c = Ok s' ∧ cr_ok (plus_at refs c 1) leak s' ∧ veq (view_of s') (view_of s).
Proof using Hok.
  intros Hc. pose proof Hok as [Hi Hl Hu Hlk Hm Hth]. destruct (crhold_inv refs s c Hi Hc) as (s' & -> & H1 & Hk & _ & Ep & Et & Eu).
  exists s'. split; [done|]. pose proof (kept_stable s s' Hk) as Hst. split; [|split; [by eapply view_proc_same|by eapply view_thr_same]].
  apply (threads_ok refs leak s Hok); try done.
  - intros x. unfold plus_at. pose proof (Hl x). case_decide; lia.
  - intros x xr. rewrite Et. by apply Hth.
  - intros x xr q Ex _ _. exists xr. by rewrite Et.
Qed.

Lemma free_ok c : low c + 1 ≤ refs c → is_Some (cs_cred s !! c) →
  ∃ s', crfree s c = Ok s' ∧ cr_ok (plus_at refs c (-1)) leak s' ∧ veq (view_of s') (view_of s).
Proof using Hok.
  intros Hc Hs. pose proof Hok as [Hi Hl Hu Hlk Hm Hth]. destruct (crfree_inv refs s c Hi Hs ltac:(lia)) as (s' & -> & H1 & Hk & Ep & Et & Eu).
  exists s'. split; [done|]. pose proof (kept_stable s s' Hk) as Hst. split; [|split; [by eapply view_proc_same|by eapply view_thr_same]].
  apply (threads_ok refs leak s Hok); try done.
  - intros x. unfold plus_at. pose proof (Hl x). case_decide as Hx; [subst x|]; lia.
  - intros x xr. rewrite Et. by apply Hth.
  - intros x xr q Ex _ _. exists xr. by rewrite Et.
Qed.
End others.

(** ** Every operation *)

Section system.
Context (ngroups_max : Z).

(** The state [st'] and the error are those of the specification. *)
Definition as_spec (st : cstate) (o : cop) (e : Z) (st' : cstate) : Prop :=
  cr_ok st'.1.1 st'.1.2 st'.2 ∧ e = (spec_op ngroups_max o (view_of st.2)).1 ∧ veq (view_of st'.2) (spec_op ngroups_max o (view_of st.2)).2.

(** A call that changes ids, from its equation. *)
Lemma call_op_ok refs leak s t new th pr c r : cr_ok refs leak s → cs_thr s !! t = Some th → t ≠ sched → t_procp th ≠ sched → t_new th = None →
  cs_proc s !! t_procp th = Some pr → cs_cred s !! p_cred pr = Some c → cs_cred s !! new = None →
  (∀ j, r (cr_ids c) = inr j → i_ruid j = i_ruid (cr_ids c) ∨ p_moves pr = []) →
  ∃ e st', pure_op (refs, leak, s) (by_call s t th new (cr_ids c) (r (cr_ids c))) = Ok (e, st') ∧
    cr_ok st'.1.1 st'.1.2 st'.2 ∧ e = (spec_change (view_of s) t r).1 ∧ veq (view_of st'.2) (spec_change (view_of s) t r).2.
Proof.
  intros Hok Et Hts Hps Hn Ep Ec Enew Hr. destruct (by_call_ok refs leak s Hok t new th pr c r) as (e & s' & -> & H); try done.
  by exists e, (refs, leak, s').
Qed.

Lemma quiet_op_ok refs leak s r v : (∃ s', r = Ok s' ∧ cr_ok refs leak s' ∧ veq (view_of s') v) →
  ∃ e st', quiet_op (refs, leak, s) r = Ok (e, st') ∧ cr_ok st'.1.1 st'.1.2 st'.2 ∧ e = 0 ∧ veq (view_of st'.2) v.
Proof. intros (s' & -> & H1 & H2). exists 0, (refs, leak, s'). by split_and!. Qed.

Lemma gexec_ok refs leak s t new f error th pr c : cr_ok refs leak s → cs_thr s !! t = Some th → t ≠ sched → t_procp th ≠ sched → t_new th = None →
  cs_proc s !! t_procp th = Some pr → cs_cred s !! p_cred pr = Some c → cs_cred s !! new = None → new ≠ kcred →
  ∃ e st', pure_op (refs, leak, s) (gexec s t new f error) = Ok (e, st') ∧ cr_ok st'.1.1 st'.1.2 st'.2 ∧
    e = (spec_op ngroups_max (CExec t new f error) (view_of s)).1 ∧ veq (view_of st'.2) (spec_op ngroups_max (CExec t new f error) (view_of s)).2.
Proof.
  intros Hok Et Hts Hps Hn Ep Ec Enew Hk. destruct (thread_entries refs leak s Hok t th Et) as (pr' & c' & i & Ep' & Ec' & Ei & Vp & Vt & _).
  assert (pr' = pr) as -> by congruence. assert (c' = c) as -> by congruence.
  rewrite (gexec_eq s t new f error th pr c) by done. cbn [spec_op]. rewrite (Vt Hn), Vp.
  destruct (execsetid (p_strc pr) (cr_ids c) f) as [[uid gid]|].
  2: { eexists _, _. by split_and!. }
  cbv zeta. destruct (exec_nocd_spec s (t_procp th) pr (cr_ids c) f uid gid Ep) as (pr1 & -> & E1 & E2 & E3).
  destruct (proc_flag_ok refs leak s Hok (t_procp th) pr pr1 Ep Hps E1 E2 E3) as [Hok1 Hv1]. set (s1 := set_cprocs _ s) in *.
  destruct (error =? 0).
  - destruct (exec_change_ok refs leak s1 Hok1 t th pr1 c new (exec_ids (cr_ids c) uid gid)) as (s' & -> & Hok' & Hv'); try done;
      [apply lookup_insert_eq|by rewrite E1|].
    eexists _, _. split; [done|]. split; [done|]. split; [done|]. etrans; [exact Hv'|]. destruct Hv1 as [V1 V2].
    split; intros x; cbn [v_proc v_thr snd]; unfold fupd; case_decide; rewrite ?E2; done.
  - eexists _, _. by split_and!.
Qed.

Ltac keeps r := intros ? ?; unfold checked, r in *; left; spec_cases.

Lemma do_cop_ok refs leak s o : cr_ok refs leak s → may_cop (refs, leak, s) o →
  ∃ e st', do_cop ngroups_max (refs, leak, s) o = Ok (e, st') ∧ as_spec (refs, leak, s) o e st'.
Proof.
  intros Hok Hm. unfold as_spec. cbn [snd].
  assert (∀ t, idle s t → ∃ th pr c, cs_thr s !! t = Some th ∧ t ≠ sched ∧ t_procp th ≠ sched ∧ t_new th = None ∧
    cs_proc s !! t_procp th = Some pr ∧ cs_cred s !! p_cred pr = Some c) as Hidle.
  { intros t (th & Et & ? & ? & ?). destruct (thread_entries refs leak s Hok t th Et) as (pr & c & _ & ? & ? & _). by exists th, pr, c. }
  destruct o as [t new uid|t new uid|t new r e|t new gid|t new gid|t new r e|t new n l|t|t|t|t new f error|t cp|cp|p t|t|p|c|c]; cbn [do_cop spec_op may_cop] in *.
  all: try (destruct Hm as (Hid & [Enew Hk] & Hset); destruct (Hidle t Hid) as (th & pr & c & Et & Hts & Hps & Hn & Ep & Ec)).
  all: try (destruct Hm as (Hid & [Enew Hk]); destruct (Hidle _ Hid) as (th & pr & c & Et & Hts & Hps & Hn & Ep & Ec)).
  - rewrite (setuid_call_eq s t new th pr c) by done. apply (call_op_ok refs leak s t new th pr c (checked _ (λ i, setuid_ids i uid))); try done.
    intros j _. right. by eapply Hset.
  - rewrite (seteuid_call_eq s t new th pr c) by done. apply (call_op_ok refs leak s t new th pr c (checked _ (λ i, seteuid_ids i uid))); try done. keeps seteuid_ids.
  - rewrite (setreuid_call_eq s t new th pr c) by done. apply (call_op_ok refs leak s t new th pr c (checked _ (λ i, setreuid_ids i r e))); try done.
    intros j _. right. by eapply Hset.
  - rewrite (setgid_call_eq s t new th pr c) by done. apply (call_op_ok refs leak s t new th pr c (checked _ (λ i, setgid_ids i gid))); try done. keeps setgid_ids.
  - rewrite (setegid_call_eq s t new th pr c) by done. apply (call_op_ok refs leak s t new th pr c (checked _ (λ i, setegid_ids i gid))); try done. keeps setegid_ids.
  - rewrite (setregid_call_eq s t new th pr c) by done. apply (call_op_ok refs leak s t new th pr c (checked _ (λ i, setregid_ids i r e))); try done. keeps setregid_ids.
  - rewrite (setgroups_call_eq s t new th pr c) by done. apply (call_op_ok refs leak s t new th pr c (λ i, setgroups_ids ngroups_max i n l)); try done. keeps setgroups_ids.
  - apply quiet_op_ok. apply (do_move_ok refs leak s Hok). by destruct Hm.
  - apply quiet_op_ok. apply (do_crset_ok refs leak s Hok); by destruct Hm.
  - apply quiet_op_ok. by apply (pre_syscall_ok refs leak s Hok).
  - by apply (gexec_ok refs leak s t new f error th pr c).
  - apply quiet_op_ok. apply (fork_cred_ok refs leak s Hok); by destruct Hm.
  - destruct Hm as ([pr Ep] & Hp & Hnt). rewrite Ep. cbn [deref mbind res_bind].
    destruct (fork_fail_ok refs leak s Hok cp pr Ep Hp Hnt) as (s' & -> & H1 & H2). cbn [mbind res_bind]. eexists _, _. by split_and!.
  - destruct Hm as [Er Et]. unfold thread_read in Er. apply bind_ok in Er as (pr & Ep & [= <-]). destruct (cs_proc s !! p) as [pr'|] eqn:Ep'; [|done]. injection Ep as ->.
    apply quiet_op_ok. by apply (thread_hold_ok refs leak s Hok p t pr).
  - apply quiet_op_ok. apply (thread_free_ok refs leak s Hok); by destruct Hm.
  - destruct Hm as ([pr Ep] & Hp & Hnt). apply quiet_op_ok. by apply (freeproc_cred_ok refs leak s Hok p pr).
  - destruct (hold_ok refs leak s Hok c Hm) as (s' & -> & H1 & H2). cbn [mbind res_bind]. eexists _, _. by split_and!.
  - destruct Hm as [Hl Hc]. destruct (free_ok refs leak s Hok c Hl Hc) as (s' & -> & H1 & H2). cbn [mbind res_bind]. eexists _, _. by split_and!.
Qed.

(** ** Runs *)

Fixpoint do_cops (st : cstate) (os : list cop) : res (list Z * cstate) :=
  match os with
  | [] => Ok ([], st)
  | o :: os => '(e, st) ← do_cop ngroups_max st o; '(es, st) ← do_cops st os; Ok (e :: es, st)
  end.

Fixpoint may_cops (st : cstate) (os : list cop) : Prop :=
  match os with
  | [] => True
  | o :: os => may_cop st o ∧ ∀ e st', do_cop ngroups_max st o = Ok (e, st') → may_cops st' os
  end.

Fixpoint spec_run (os : list cop) (v : view) : list Z * view :=
  match os with
  | [] => ([], v)
  | o :: os => let '(e, v) := spec_op ngroups_max o v in let '(es, v) := spec_run os v in (e :: es, v)
  end.

(** The specification does not see the difference between equal views. *)
#[global] Instance spec_op_proper o : Proper (veq ==> λ a b, a.1 = b.1 ∧ veq a.2 b.2) (spec_op ngroups_max o).
Proof.
  intros v w [Hp Ht]. destruct o; cbn [spec_op]; unfold spec_change; rewrite <- ?Ht, <- ?Hp.
  all: repeat (case_match; rewrite <- ?Ht, <- ?Hp).
  all: split; [done|split; intros x; cbn [v_proc v_thr snd]; unfold fupd; try case_decide; by rewrite ?Hp, ?Ht].
Qed.
End system.


(** ** Runs of the code *)

Section runs.
Context (ngroups_max : Z).

Lemma do_cops_ok st os : cr_ok st.1.1 st.1.2 st.2 → may_cops ngroups_max st os →
  ∃ es st', do_cops ngroups_max st os = Ok (es, st') ∧ cr_ok st'.1.1 st'.1.2 st'.2 ∧
    ∀ v, veq (view_of st.2) v → es = (spec_run ngroups_max os v).1 ∧ veq (view_of st'.2) (spec_run ngroups_max os v).2.
Proof.
  revert st. induction os as [|o os IH]; intros st Hok Hm; [by exists [], st|]. destruct Hm as [Hm Hr]. destruct st as [[refs leak] s].
  destruct (do_cop_ok ngroups_max refs leak s o Hok Hm) as (e & st1 & E & Hok1 & Ee & Hv1). cbn [do_cops]. rewrite E. cbn [mbind res_bind].
  destruct (IH st1 Hok1 (Hr _ _ E)) as (es & st2 & -> & Hok2 & Hs). cbn [mbind res_bind]. exists (e :: es), st2. split; [done|]. split; [done|].
  intros v Hv. destruct (spec_op_proper ngroups_max o _ _ Hv) as [He Hv']. cbn [snd] in *. cbn [spec_run].
  destruct (spec_op ngroups_max o v) as [e' v1]. cbn [fst snd] in *. destruct (Hs v1) as [-> Hv2]; [by etrans|].
  destruct (spec_run ngroups_max os v1) as [es' v2]. cbn [fst snd] in *. split; [congruence|done].
Qed.

(** C30: Whatever processes and threads change their ids, fork, execute, start threads, end and
    are waited for, with their sections in any order, under the conditions of [may_cop]: nothing
    uses freed credentials, no call panics, each structure counts the pointers to it and is freed
    with the last one, and the count of a user is that of its processes, with the forks that
    failed.

    A section is what the code does under [p_crlock] or [pidlock], or alone.  The conditions: the
    threads and processes of a step are there, new ones are not, and new credentials are free; a
    thread that changes ids, executes or ends has no such call under way and is not of the first
    process; while a thread is about to move its process to another user, no thread of the process
    starts [setuid] or [setreuid] or ends ([setreuid_race]); a fork is made with credentials of
    the real uid that the process has ([fork_stale_cred]); when [thread_create] holds the
    credentials that it has read, without [p_crlock], the process still has them: a thread that
    replaces them in between is excluded, and would leave freed credentials to be used
    ([thread_create_race]); a process that is waited for has no threads; and others free only what
    they hold. *)
Theorem creds_safe st os : cr_ok st.1.1 st.1.2 st.2 → may_cops ngroups_max st os →
  ∃ es st', do_cops ngroups_max st os = Ok (es, st') ∧ cr_ok st'.1.1 st'.1.2 st'.2 ∧
    ∀ u, upcount_get (upc_hash st'.2) u = Ok (counted st'.2 u + st'.1.2 u).
Proof.
  intros Hok Hm. destruct (do_cops_ok st os Hok Hm) as (es & st' & E & Hok' & _). exists es, st'. split; [done|]. split; [done|].
  intros u. apply (upcount_get_ok _ _ (co_upc _ _ _ Hok')).
Qed.


(** ** Processes without privilege *)

Section confined.
Context (A G : gset Z).



















End confined.
End runs.
