(* ===== verification/CredEdge.v ===== *)
(** * Credentials from boot, and edges of the code *)

From S2P Require Import Prelude Upcount Cred CredProps CredInv CredOps CredSys CredThms.

(** ** Boot *)

(** The first thread's reference is not counted, nor is the first process of the super-user. *)
Definition boot_refs (c : Z) : Z := if c =? kcred then -1 else 0.
Definition boot_leak (u : Z) : Z := if u =? 0 then -1 else 0.
Definition boot (k : Z) : cstate := (boot_refs, boot_leak, cred_init (2 ^ k)).

Lemma boot_ok k : 0 ≤ k < 32 → cr_ok boot_refs boot_leak (cred_init (2 ^ k)).
Proof.
  intros Hk. unfold cred_init. set (pr := MkCProc kcred false false []). set (th := MkCThread sched kcred false None).
  assert (∀ u, counted (MkCs {[kcred := MkCred 1 no_ids]} {[sched := pr]} {[sched := th]} (upcount_init (2 ^ k))) u = b2z (bool_decide (0 = u))) as Hc.
  { intros u. unfold counted. simpl. by rewrite msum_singleton. }
  split.
  - split; simpl.
    + intros c x [<- <-]%lookup_singleton_Some. split; [done|]. unfold holders. simpl.
      by rewrite !msum_singleton.
    + intros p q [<- <-]%lookup_singleton_Some. simpl. rewrite lookup_singleton_eq. by eexists.
    + intros p q [<- <-]%lookup_singleton_Some. simpl. rewrite lookup_singleton_eq. split; [by eexists|done].
    + intros c Hn%lookup_singleton_None. unfold boot_refs. by rewrite (proj2 (Z.eqb_neq c kcred)).
    + exists pr. by rewrite lookup_singleton_eq.
    + exists th. by rewrite lookup_singleton_eq.
    + done.
  - intros c. unfold low, boot_refs. lia.
  - simpl. eapply upc_ext; [|exact (upcount_init_ok k Hk)]. intros u. simpl. unfold cred_init in Hc. simpl in Hc. rewrite Hc. unfold boot_leak, b2z.
    destruct (Z.eqb_spec u 0); case_bool_decide; congruence || lia.
  - intros u. unfold boot_leak. lia.
  - simpl. intros p q [<- <-]%lookup_singleton_Some. by left.
  - simpl. intros p q [<- <-]%lookup_singleton_Some. simpl. rewrite lookup_singleton_eq. by eexists.
Qed.

(** ** A run *)

(** The properties of the steps of a run, computed. *)
Definition idle_b (s : csys) (t : Z) : bool :=
  match cs_thr s !! t with Some th => negb (t =? sched) && negb (t_procp th =? sched) && bool_decide (t_new th = None) | None => false end.
Definition settled_b (s : csys) (t : Z) : bool :=
  match cs_thr s !! t with
  | Some th => match cs_proc s !! t_procp th with Some pr => match p_moves pr with [] => true | _ => false end | None => true end
  | None => true
  end.
Definition fresh_b (s : csys) (new : Z) : bool := bool_decide (cs_cred s !! new = None) && negb (new =? kcred).
Definition no_threads_b (s : csys) (p : Z) : bool := forallb (λ x, negb (t_procp x.2 =? p)) (map_to_list (cs_thr s)).

Definition may_cop_b (st : cstate) (o : cop) : bool :=
  let '(refs, leak, s) := st in
  match o with
  | CSetuid t new _ | CSetreuid t new _ _ => idle_b s t && fresh_b s new && settled_b s t
  | CSeteuid t new _ | CSetgid t new _ | CSetegid t new _ | CSetregid t new _ _ | CSetgroups t new _ _ | CExec t new _ _ => idle_b s t && fresh_b s new
  | CMove t | CCrset t => bool_decide (is_Some (cs_thr s !! t)) && negb (t =? sched)
  | CPreSys t => idle_b s t
  | CFork t cp => bool_decide (cs_proc s !! cp = None) &&
      match cs_thr s !! t with
      | Some th => match cs_proc s !! t_procp th with Some pr => ruid_at s (t_cred th) =? ruid_at s (p_cred pr) | None => false end
      | None => false
      end
  | CForkFail p | CReap p => bool_decide (is_Some (cs_proc s !! p)) && negb (p =? sched) && no_threads_b s p
  | CThread p t cr => match thread_read s p with Ok c => c =? cr | _ => false end && bool_decide (cs_thr s !! t = None)
  | CThreadEnd t => idle_b s t && settled_b s t
  | CHold c => bool_decide (is_Some (cs_cred s !! c))
  | CFree c => (low c + 1 <=? refs c) && bool_decide (is_Some (cs_cred s !! c))
  end.

Lemma idle_b_ok s t : idle_b s t = true → idle s t.
Proof.
  unfold idle_b. destruct (cs_thr s !! t) as [th|] eqn:Et; [|done]. intros H.
  apply andb_true_iff in H as [[H1 H2]%andb_true_iff H3]. exists th. apply bool_decide_eq_true in H3.
  apply negb_true_iff, Z.eqb_neq in H1. apply negb_true_iff, Z.eqb_neq in H2. done.
Qed.

Lemma settled_b_ok s t : settled_b s t = true → settled s t.
Proof. unfold settled_b. intros H th pr Et Ep. rewrite Et, Ep in H. by destruct (p_moves pr). Qed.

Lemma fresh_b_ok s new : fresh_b s new = true → fresh s new.
Proof. intros [H1 H2]%andb_true_iff. apply bool_decide_eq_true in H1. by apply negb_true_iff, Z.eqb_neq in H2. Qed.

Lemma no_threads_b_ok s p : no_threads_b s p = true → no_threads s p.
Proof.
  unfold no_threads_b. rewrite forallb_forall. intros H t th Et. apply elem_of_map_to_list, list_elem_of_In in Et.
  specialize (H _ Et). by apply negb_true_iff, Z.eqb_neq in H.
Qed.

Lemma may_cop_b_ok st o : may_cop_b st o = true → may_cop st o.
Proof.
  destruct st as [[refs leak] s]. destruct o; cbn [may_cop_b may_cop]; rewrite ?andb_true_iff, ?bool_decide_eq_true, ?negb_true_iff, ?Z.eqb_neq, ?Z.leb_le.
  all: try (intros; destruct_and?; split_and?; eauto using idle_b_ok, settled_b_ok, fresh_b_ok, no_threads_b_ok; fail).
  2: { intros [H1 H2]. split; [|done]. destruct (thread_read s p) as [c| |]; [|done..]. by apply Z.eqb_eq in H1 as ->. }
  intros [H1 H2]. split; [done|]. destruct (cs_thr s !! t) as [th|]; [|done]. destruct (cs_proc s !! t_procp th) as [pr|] eqn:Ep; [|done].
  exists th, pr. by apply Z.eqb_eq in H2.
Qed.

Fixpoint may_cops_b (ng : Z) (st : cstate) (os : list cop) : bool :=
  match os with
  | [] => true
  | o :: os => may_cop_b st o && match do_cop ng st o with Ok (_, st') => may_cops_b ng st' os | _ => true end
  end.

Lemma may_cops_b_ok ng st os : may_cops_b ng st os = true → may_cops ng st os.
Proof.
  revert st. induction os as [|o os IH]; intros st H; [done|]. cbn [may_cops_b] in H. apply andb_true_iff in H as [H1 H2].
  split; [by apply may_cop_b_ok|]. intros e st' E. rewrite E in H2. auto.
Qed.

(** Init (1) makes a login (2), which takes user 100 and forks a shell (3); the login's call is
    cut by a fork of init, the shell cannot take another user, runs a set-id program of
    user 7 and gives it up again; it ends and is waited for. *)
Definition login_run : list cop :=
  [CFork 0 1; CThread 1 11 kcred; CFork 11 2; CThread 2 12 kcred; CSetgid 12 4 50; CCrset 12; CSetuid 12 5 100; CFork 11 4; CMove 12; CCrset 12;
   CFork 12 3; CThread 3 13 5; CSetuid 13 6 0].
Definition shell_run : list cop :=
  [CSetreuid 13 6 0 (-1); CExec 13 6 (MkFile false true false 7 7) 0; CSeteuid 13 8 100; CCrset 13; CFork 13 5; CForkFail 5;
   CHold 8; CThreadEnd 13; CReap 3; CFree 8].

Definition login_state : cstate := match do_cops 16 (boot 2) login_run with Ok (_, st) => st | _ => boot 2 end.

Lemma creds_safe_witness : ∃ es st', do_cops 16 (boot 2) (login_run ++ shell_run) = Ok (es, st') ∧ cr_ok st'.1.1 st'.1.2 st'.2 ∧
  ∀ u, upcount_get (upc_hash st'.2) u = Ok (counted st'.2 u + st'.1.2 u).
Proof.
  apply (creds_safe 16 (boot 2) (login_run ++ shell_run)); [exact (boot_ok 2 ltac:(lia))|].
  apply may_cops_b_ok. vm_compute. reflexivity.
Defined.


Example shell_errors : ∃ st, do_cops 16 login_state shell_run = Ok ([EPERM; 0; 0; 0; 0; 0; 0; 0; 0; 0], st).
Proof. eexists. vm_compute. reflexivity. Qed.

(** ** The login and its shell are confined *)










(** ** Where the code goes wrong *)

(** [setgroups] keeps its size in a [u_short]: 65536 groups are none, not too many. *)
Example setgroups_truncates i : setgroups_ids 16 (set_uid 0 i) 65536 [] = inr (set_grouplist [] (set_uid 0 i)) ∧
  setgroups_ids 16 (set_uid 0 i) 17 (replicate 17 1) = inl EINVAL.
Proof. done. Qed.

Definition two_threads : list cop := [CFork 0 1; CThread 1 11 kcred; CFork 11 2; CThread 2 12 kcred; CThread 2 14 kcred].

(** Two threads of a process of the super-user take users 100 and then 200: the second leaves
    the count of 100 before the first has entered it. *)
Example setreuid_race : do_cops 16 (boot 2) (two_threads ++ [CSetreuid 12 5 100 (-1); CSetreuid 14 6 200 (-1); CMove 14]) =
  Panic "decr_upcount-off the end".
Proof. vm_compute. reflexivity. Qed.

(** A thread that forks with the credentials it had before another thread took user 100: the
    child is counted for user 0, leaves the count of 100, and then its parent is not in it. *)
Example fork_stale_cred : do_cops 16 (boot 2) (two_threads ++
    [CSetuid 14 5 100; CMove 14; CCrset 14; CFork 12 3; CReap 3; CThreadEnd 12; CThreadEnd 14; CReap 2]) = Panic "decr_upcount-off the end".
Proof. vm_compute. reflexivity. Qed.

(** A fork that fails leaves its process in the count. *)
Example fork_fail_leaks : ∃ es st, do_cops 16 (boot 2) [CFork 0 1; CThread 1 11 kcred; CFork 11 2; CForkFail 2; CFork 11 2; CForkFail 2] = Ok (es, st) ∧
  upcount_get (upc_hash st.2) 0 = Ok 3.
Proof. eexists _, _. split; [vm_compute; reflexivity|]. vm_compute. reflexivity. Qed.

(** [thread_create] reads [p_cred] and holds it later, without [p_crlock]: in between another
    thread's two calls may free what it read. *)
Example thread_create_race : ∃ es st cr es' st', do_cops 16 (boot 2) (two_threads ++ [CSetuid 14 5 0; CMove 14; CCrset 14]) = Ok (es, st) ∧
  thread_read st.2 2 = Ok cr ∧ do_cops 16 st [CSetuid 14 6 0; CMove 14; CCrset 14] = Ok (es', st') ∧ do_cops 16 st' [CThread 2 15 cr] = Fault.
Proof.
  do 5 eexists. split; [vm_compute; reflexivity|]. split; [vm_compute; reflexivity|]. split; [vm_compute; reflexivity|]. vm_compute. reflexivity.
Qed.
