(* ===== verification/Dnlc.v ===== *)
(** * The directory name lookup cache (uts/common/fs/dnlc.c)

    A table of entries is hashed by directory and name; an entry holds the vnodes of the
    directory and of what the name refers to, and the credentials it was entered with.
    Entries without identity are on a free list; when it is empty one is stolen from a
    hash chain.

    - An entry is named by its index in [ncache], a hash chain is the list of its entries from
      [hash_next] on; [hash_next] of an entry is not null when it is in a chain.
    - The last hold of a vnode is given back to its file system ([VOP_INACTIVE]): the vnode
      leaves the table of those that exist, and using it is a fault.
    - The credentials are those of [Cred], with their counts.
    - [nc_name] is the first [namlen] bytes of [name]; the statistics and traces, which
      nothing reads, are left out.  The code between two locks is a step. *)

From S2P Require Import Prelude Bitmap Upcount Cred.

Definition NC_NAMLEN : Z := 31.
Definition NC_HASHAVELEN : Z := 2.
Definition NC_MOVETOFRONT : nat := 2.

(** What the cache looks at of a vnode; [v_pages] says whether it has pages. *)
Record vnode := MkVn { v_count : Z; v_op : Z; v_vfsp : Z; v_pages : bool }.

Record ncent := MkNc {
  nc_vp : option Z;
  nc_dp : option Z;
  nc_name : list Z;
  nc_cred : option Z;       (* [None] is [NOCRED] *)
  nc_sig : Z                (* [hash] *)
}.

Record dnlc := MkDn {
  doingcache : bool;
  ncsize : Z;
  ncache : gmap Z ncent;
  nc_hash : list (list Z);
  dnlc_freelist : list Z;
  dnlc_purge_rotor : Z;
  dnlc_free_rotor : Z;
  vnodes : gmap Z vnode;
  dn_cs : csys
}.

Definition set_ncache m s := MkDn (doingcache s) (ncsize s) m (nc_hash s) (dnlc_freelist s) (dnlc_purge_rotor s) (dnlc_free_rotor s) (vnodes s) (dn_cs s).
Definition set_hash h s := MkDn (doingcache s) (ncsize s) (ncache s) h (dnlc_freelist s) (dnlc_purge_rotor s) (dnlc_free_rotor s) (vnodes s) (dn_cs s).
Definition set_freelist l s := MkDn (doingcache s) (ncsize s) (ncache s) (nc_hash s) l (dnlc_purge_rotor s) (dnlc_free_rotor s) (vnodes s) (dn_cs s).
Definition set_purge_rotor r s := MkDn (doingcache s) (ncsize s) (ncache s) (nc_hash s) (dnlc_freelist s) r (dnlc_free_rotor s) (vnodes s) (dn_cs s).
Definition set_free_rotor r s := MkDn (doingcache s) (ncsize s) (ncache s) (nc_hash s) (dnlc_freelist s) (dnlc_purge_rotor s) r (vnodes s) (dn_cs s).
Definition set_vnodes m s := MkDn (doingcache s) (ncsize s) (ncache s) (nc_hash s) (dnlc_freelist s) (dnlc_purge_rotor s) (dnlc_free_rotor s) m (dn_cs s).
Definition set_dn_cs c s := MkDn (doingcache s) (ncsize s) (ncache s) (nc_hash s) (dnlc_freelist s) (dnlc_purge_rotor s) (dnlc_free_rotor s) (vnodes s) c.

(** [nc_rsize], the size of [nc_rele]. *)
Definition nc_rsize (s : dnlc) : Z := 2 * ncsize s.

(** ** Holds *)

Definition set_v_count n v := MkVn n (v_op v) (v_vfsp v) (v_pages v).

Definition VN_HOLD (v : Z) (s : dnlc) : res dnlc :=
  vn ← deref (vnodes s !! v);
  Ok (set_vnodes (<[v := set_v_count (v_count vn + 1) vn]> (vnodes s)) s).

(** [vn_rele] (fs/vnode.c). *)
Definition vn_rele (v : Z) (s : dnlc) : res dnlc :=
  vn ← deref (vnodes s !! v);
  if v_count vn =? 0 then Panic "vn_rele: vnode ref count 0"
  else if v_count vn =? 1 then Ok (set_vnodes (delete v (vnodes s)) s)
  else Ok (set_vnodes (<[v := set_v_count (v_count vn - 1) vn]> (vnodes s)) s).

(** [vn_rele] of a pointer read from an entry. *)
Definition VN_RELE (v : option Z) (s : dnlc) : res dnlc := v ← deref v; vn_rele v s.

(** [crhold] and [crfree] of credentials that may be [NOCRED]. *)
Definition nc_crhold (cred : option Z) (s : dnlc) : res dnlc :=
  match cred with Some c => cs ← crhold (dn_cs s) c; Ok (set_dn_cs cs s) | None => Ok s end.
Definition nc_crfree (cred : option Z) (s : dnlc) : res dnlc :=
  match cred with Some c => cs ← crfree (dn_cs s) c; Ok (set_dn_cs cs s) | None => Ok s end.

(** ** The hash chains *)

Definition s8 (c : Z) : Z := (c + 128) mod 256 - 128.

Definition DNLC_HASH (name : list Z) (vp : Z) : Z :=
  fold_left (λ hash Xc, s32 (Z.shiftl hash 4 + hash + s8 Xc)) name (Z.shiftr (s32 vp) 8).

(** The index of [nc_hash[hash & (nc_hashsz - 1)]]. *)
Definition nc_bucket (s : dnlc) (hash : Z) : nat := Z.to_nat (Z.land hash (Z.of_nat (length (nc_hash s)) - 1)).

Definition nc_inshash (i : Z) (b : nat) (s : dnlc) : res dnlc :=
  l ← deref (nc_hash s !! b); Ok (set_hash (<[b := i :: l]> (nc_hash s)) s).

(** Whether [hash_next] of the entry is not null. *)
Definition nc_hashed (s : dnlc) (i : Z) : bool := existsb (λ l, bool_decide (i ∈ (l : list Z))) (nc_hash s).

Definition nc_rmhash (i : Z) (s : dnlc) : res dnlc :=
  if nc_hashed s i then Ok (set_hash (map (filter (λ j, j ≠ i)) (nc_hash s)) s) else Fault.

Definition nc_move_to_front (b : nat) (i : Z) (s : dnlc) : res dnlc :=
  l ← deref (nc_hash s !! b); Ok (set_hash (<[b := i :: filter (λ j, j ≠ i) l]> (nc_hash s)) s).

(** The test of [dnlc_search] and [dnlc_lookup]; [None] is [ANYCRED]. *)
Definition nc_match (e : ncent) (dp : Z) (name : list Z) (hash : Z) (cred : option (option Z)) : bool :=
  (nc_sig e =? hash) && bool_decide (nc_dp e = Some dp) && (length (nc_name e) =? length name)%nat &&
  (match cred with None => true | Some c => bool_decide (nc_cred e = c) end) && bool_decide (nc_name e = name).

(** The first entry of a chain for which the test holds, and how many were looked at. *)
Fixpoint walk_chain (s : dnlc) (p : ncent → bool) (depth : nat) (l : list Z) : res (option (Z * nat)) :=
  match l with
  | [] => Ok None
  | i :: l => e ← deref (ncache s !! i); if p e then Ok (Some (i, S depth)) else walk_chain s p (S depth) l
  end.

Definition dnlc_search (s : dnlc) (dp : Z) (name : list Z) (hash : Z) (cred : option (option Z)) : res (option Z) :=
  l ← deref (nc_hash s !! nc_bucket s hash);
  o ← walk_chain s (λ e, nc_match e dp name hash cred) 0 l;
  match o with Some (i, _) => Ok (Some i) | None => Ok None end.

(** ** Entries without identity *)

Definition dnlc_free (i : Z) (s : dnlc) : res dnlc :=
  e ← deref (ncache s !! i);
  s ← nc_crfree (nc_cred e) s;
  let s := set_ncache (<[i := MkNc None None (nc_name e) None (nc_sig e)]> (ncache s)) s in
  Ok (set_freelist (i :: dnlc_freelist s) s).

(** The search of a chain from its tail for an entry whose vnode only the cache holds. *)
Fixpoint steal_walk (s : dnlc) (l : list Z) : res (option Z) :=
  match l with
  | [] => Ok None
  | i :: l =>
    e ← deref (ncache s !! i);
    v ← deref (nc_vp e);
    vn ← deref (vnodes s !! v);
    if negb (v_pages vn) && (v_count vn =? 1) then Ok (Some i) else steal_walk s l
  end.

(** The chains after [hp] in turn, up to [last]; [fuel] bounds their number. *)
Fixpoint steal_from (fuel : nat) (last hp : Z) (s : dnlc) : res (option Z * dnlc) :=
  match fuel with
  | O => Fault
  | S fuel =>
    let hp := if hp + 1 =? Z.of_nat (length (nc_hash s)) then 0 else hp + 1 in
    let s := set_free_rotor hp s in
    l ← deref (nc_hash s !! Z.to_nat hp);
    w ← steal_walk s (reverse l);
    match (match w with Some i => Some i | None => list.last l end) with
    | Some i =>
      e ← deref (ncache s !! i);
      s ← nc_rmhash i s;
      s ← nc_crfree (nc_cred e) s;
      s ← VN_RELE (nc_dp e) s;
      s ← VN_RELE (nc_vp e) s;
      Ok (Some i, s)
    | None => if hp =? last then Ok (None, s) else steal_from fuel last hp s
    end
  end.

Definition dnlc_get (s : dnlc) : res (option Z * dnlc) :=
  match dnlc_freelist s with
  | i :: l => Ok (Some i, set_freelist l s)
  | [] => steal_from (length (nc_hash s)) (dnlc_free_rotor s) (dnlc_free_rotor s) s
  end.

(** ** Entering a name *)

(** [dnlc_enter] up to the lock of the chain: the entry it got, if it goes on. *)
Definition enter_begin (s : dnlc) (dp : Z) (name : list Z) (vp : Z) (cred : option Z) : res (option Z * dnlc) :=
  if negb (doingcache s) then Ok (None, s)
  else if NC_NAMLEN <? Z.of_nat (length name) then Ok (None, s)
  else
    '(o, s) ← dnlc_get s;
    match o with
    | None => Ok (None, s)
    | Some i =>
      s ← VN_HOLD dp s;
      s ← VN_HOLD vp s;
      let s := set_ncache (<[i := MkNc (Some vp) (Some dp) name cred (DNLC_HASH name dp)]> (ncache s)) s in
      s ← nc_crhold cred s;
      Ok (Some i, s)
    end.

(** The rest, with the lock. *)
Definition enter_end (s : dnlc) (i dp : Z) (name : list Z) (vp : Z) (cred : option Z) : res dnlc :=
  let hash := DNLC_HASH name dp in
  o ← dnlc_search s dp name hash (Some cred);
  match o with
  | Some _ => s ← vn_rele dp s; s ← vn_rele vp s; dnlc_free i s
  | None => nc_inshash i (nc_bucket s hash) s
  end.

Definition dnlc_enter (s : dnlc) (dp : Z) (name : list Z) (vp : Z) (cred : option Z) : res dnlc :=
  '(o, s) ← enter_begin s dp name vp cred;
  match o with Some i => enter_end s i dp name vp cred | None => Ok s end.

(** ** Lookup and removal *)

Definition dnlc_lookup (s : dnlc) (dp : Z) (name : list Z) (cred : option Z) : res (option Z * dnlc) :=
  if negb (doingcache s) then Ok (None, s)
  else if NC_NAMLEN <? Z.of_nat (length name) then Ok (None, s)
  else
    let hash := DNLC_HASH name dp in
    let hp := nc_bucket s hash in
    l ← deref (nc_hash s !! hp);
    o ← walk_chain s (λ e, nc_match e dp name hash (Some cred)) 0 l;
    match o with
    | Some (i, depth) =>
      s ← (if (NC_MOVETOFRONT <? depth)%nat then nc_move_to_front hp i s else Ok s);
      e ← deref (ncache s !! i);
      vp ← deref (nc_vp e);
      s ← VN_HOLD vp s;
      Ok (Some vp, s)
    | None => Ok (None, s)
    end.

(** One turn: an entry of the name, if there is one, leaves its chain for the free list. *)
Definition remove_one (s : dnlc) (dp : Z) (name : list Z) (hash : Z) : res (bool * dnlc) :=
  o ← dnlc_search s dp name hash None;
  match o with
  | None => Ok (false, s)
  | Some i =>
    e ← deref (ncache s !! i);
    s ← nc_rmhash i s;
    s ← dnlc_free i s;
    s ← VN_RELE (nc_vp e) s;
    s ← VN_RELE (nc_dp e) s;
    Ok (true, s)
  end.

Fixpoint remove_loop (fuel : nat) (s : dnlc) (dp : Z) (name : list Z) (hash : Z) : res dnlc :=
  match fuel with
  | O => Fault
  | S fuel => '(b, s) ← remove_one s dp name hash; if (b : bool) then remove_loop fuel s dp name hash else Ok s
  end.

(** Each turn takes an entry from the chain: one more than there are entries is enough. *)
Definition dnlc_remove (s : dnlc) (dp : Z) (name : list Z) : res dnlc :=
  if negb (doingcache s) then Ok s
  else if NC_NAMLEN <? Z.of_nat (length name) then Ok s
  else remove_loop (S (Z.to_nat (ncsize s))) s dp name (DNLC_HASH name dp).

(** ** Purges *)

(** [nc_rele[index++] = vp]. *)
Definition nc_rele_add (s : dnlc) (v : option Z) (rele : list (option Z)) : res (list (option Z)) :=
  if Z.of_nat (length rele) <? nc_rsize s then Ok (rele ++ [v]) else Fault.

(** The walk of a chain that is in hand: the entries that [want] go to the free list and
    their vnodes to [nc_rele]; [n] counts them, and the walk is left when [stop]. *)
Fixpoint purge_walk (want : dnlc → ncent → res bool) (stop : Z → bool) (l : list Z) (n : Z) (rele : list (option Z)) (s : dnlc)
    : res (Z * list (option Z) * dnlc) :=
  match l with
  | [] => Ok (n, rele, s)
  | i :: l =>
    e ← deref (ncache s !! i);
    b ← want s e;
    if (b : bool) then
      rele ← nc_rele_add s (nc_vp e) rele;
      rele ← nc_rele_add s (nc_dp e) rele;
      s ← nc_rmhash i s;
      s ← dnlc_free i s;
      if stop (n + 1) then Ok (n + 1, rele, s) else purge_walk want stop l (n + 1) rele s
    else purge_walk want stop l n rele s
  end.

(** The loop over the chains, each under its lock. *)
Definition purge_chain want stop (b : nat) (n : Z) (rele : list (option Z)) (s : dnlc) : res (Z * list (option Z) * dnlc) :=
  l ← deref (nc_hash s !! b); purge_walk want stop l n rele s.

Fixpoint purge_chains want stop (bs : list nat) (n : Z) (rele : list (option Z)) (s : dnlc) : res (Z * list (option Z) * dnlc) :=
  match bs with
  | [] => Ok (n, rele, s)
  | b :: bs => '(n, rele, s) ← purge_chain want stop b n rele s; purge_chains want stop bs n rele s
  end.

Fixpoint release_all (rele : list (option Z)) (s : dnlc) : res dnlc :=
  match rele with
  | [] => Ok s
  | v :: rele => s ← VN_RELE v s; release_all rele s
  end.

Definition purge_with want stop (s : dnlc) : res (Z * dnlc) :=
  '(n, rele, s) ← purge_chains want stop (seq 0 (length (nc_hash s))) 0 [] s;
  s ← release_all rele s;
  Ok (n, s).

Definition want_all (s : dnlc) (e : ncent) : res bool := Ok true.

Definition want_vp (vp : Z) (s : dnlc) (e : ncent) : res bool := Ok (bool_decide (nc_dp e = Some vp) || bool_decide (nc_vp e = Some vp)).

(** [v != NULL && v->v_vfsp == vfsp]. *)
Definition in_vfs (s : dnlc) (vfsp : Z) (v : option Z) : res bool :=
  match v with None => Ok false | Some v => vn ← deref (vnodes s !! v); Ok (v_vfsp vn =? vfsp) end.

Definition want_vfs (vfsp : Z) (s : dnlc) (e : ncent) : res bool :=
  b ← in_vfs s vfsp (nc_dp e); if (b : bool) then Ok true else in_vfs s vfsp (nc_vp e).

Definition dnlc_purge (s : dnlc) : res dnlc :=
  if negb (doingcache s) then Ok s else '(_, s) ← purge_with want_all (λ _, false) s; Ok s.

Definition dnlc_purge_vp (s : dnlc) (vp : Z) : res dnlc :=
  if negb (doingcache s) then Ok s else '(_, s) ← purge_with (want_vp vp) (λ _, false) s; Ok s.

Definition dnlc_purge_vfsp (s : dnlc) (vfsp count : Z) : res (Z * dnlc) :=
  if negb (doingcache s) then Ok (0, s)
  else purge_with (want_vfs vfsp) (λ n, negb (count =? 0) && (count <=? n)) s.

(** The test of [dnlc_fs_purge1]. *)
Definition purgeable (s : dnlc) (vop : Z) (e : ncent) : res bool :=
  match nc_vp e with
  | None => Ok false
  | Some v => vn ← deref (vnodes s !! v); Ok ((v_op vn =? vop) && negb (v_pages vn) && (v_count vn =? 1))
  end.

Definition next_entry (s : dnlc) (i : Z) : Z := if i + 1 =? ncsize s then 0 else i + 1.

(** The test again, with the lock of the chain that [hash] led to; the entry is taken if it is
    still in a chain. *)
Definition purge1_take (vop current hash : Z) (s : dnlc) : res (bool * dnlc) :=
  e ← deref (ncache s !! current);
  b ← (if (hash =? nc_sig e) && nc_hashed s current then purgeable s vop e else Ok false);
  if (b : bool) then
    s ← nc_rmhash current s;
    s ← dnlc_free current s;
    s ← VN_RELE (nc_vp e) s;
    s ← VN_RELE (nc_dp e) s;
    Ok (true, set_purge_rotor (next_entry s current) s)
  else Ok (false, s).

(** The entries from [current] round to [finish]; the test is first made without the lock. *)
Fixpoint fs_purge_loop (fuel : nat) (vop finish current : Z) (s : dnlc) : res (Z * dnlc) :=
  match fuel with
  | O => Fault
  | S fuel =>
    e ← deref (ncache s !! current);
    b ← purgeable s vop e;
    '(taken, s) ← (if (b : bool) then purge1_take vop current (nc_sig e) s else Ok (false, s));
    if (taken : bool) then Ok (1, s)
    else
      let current := next_entry s current in
      if current =? finish then Ok (0, s) else fs_purge_loop fuel vop finish current s
  end.

Definition dnlc_fs_purge1 (s : dnlc) (vop : Z) : res (Z * dnlc) :=
  if negb (doingcache s) then Ok (0, s)
  else fs_purge_loop (Z.to_nat (ncsize s)) vop (dnlc_purge_rotor s) (dnlc_purge_rotor s) s.

(** [func] is that of the caller, applied to its argument. *)
Fixpoint iter_walk (func : ncent → bool) (l : list Z) (s : dnlc) : res (option dnlc) :=
  match l with
  | [] => Ok None
  | i :: l =>
    e ← deref (ncache s !! i);
    if bool_decide (is_Some (nc_vp e)) && func e then
      s ← nc_rmhash i s;
      s ← dnlc_free i s;
      s ← VN_RELE (nc_vp e) s;
      s ← VN_RELE (nc_dp e) s;
      Ok (Some s)
    else iter_walk func l s
  end.

Fixpoint iter_chains (func : ncent → bool) (bs : list nat) (s : dnlc) : res (Z * dnlc) :=
  match bs with
  | [] => Ok (0, s)
  | b :: bs =>
    l ← deref (nc_hash s !! b);
    o ← iter_walk func l s;
    match o with Some s => Ok (1, s) | None => iter_chains func bs s end
  end.

Definition dnlc_iter_purge (s : dnlc) (func : ncent → bool) : res (Z * dnlc) :=
  if negb (doingcache s) then Ok (0, s) else iter_chains func (seq 0 (length (nc_hash s))) s.

(** ** Initialization *)

Fixpoint free_entries (n : nat) (i : Z) (s : dnlc) : res dnlc :=
  match n with
  | O => Ok s
  | S n => s ← dnlc_free i s; free_entries n (i + 1) s
  end.

Definition nc_zero : ncent := MkNc None None [] None 0.

(** [vs] and [cs] are the vnodes and credentials there are; C rounds the quotient to 0. *)
Definition dnlc_init (size : Z) (vs : gmap Z vnode) (cs : csys) : res dnlc :=
  let nc_hashsz := Z.shiftl 1 (highbit (u32 (Z.quot size NC_HASHAVELEN))) in
  if size <=? 0 then Ok (MkDn false size ∅ [] [] 0 0 vs cs)
  else
    free_entries (Z.to_nat size) 0
      (MkDn true size (gset_to_gmap nc_zero (list_to_set (seqZ 0 size))) (replicate (Z.to_nat nc_hashsz) []) [] 0 0 vs cs).
