(* ===== verification/DnlcInv.v ===== *)
(** * The invariant of the name cache

    Every entry is in one place, a hash chain, the free list or the hands of a thread; the
    holds of vnodes and credentials are counted; the chains are a finite map. *)

From S2P Require Import Prelude Bitmap Upcount Cred CredProps CredInv Dnlc.

(** ** The chains *)

Lemma join_cons {A} (l : list A) (h : list (list A)) : mjoin (l :: h) = l ++ mjoin h.
Proof. done. Qed.

Lemma mjoin_insert {A} (h : list (list A)) b l l' : h !! b = Some l → mjoin (<[b := l']> h) ++ l ≡ₚ mjoin h ++ l'.
Proof.
  intros E. pose proof (lookup_lt_Some _ _ _ E) as Hb. rewrite <- (take_drop_middle h b l E) at 2. rewrite insert_take_drop by done.
  rewrite !join_app, !join_cons. solve_Permutation.
Qed.

Lemma mjoin_filter {A} (P : A → Prop) `{∀ x, Decision (P x)} (h : list (list A)) : mjoin (map (filter P) h) = filter P (mjoin h).
Proof. induction h as [|l h IH]; [done|]. cbn [map]. by rewrite !join_cons, list.filter_app, IH. Qed.

Lemma hashed_spec s i : nc_hashed s i = true ↔ i ∈ mjoin (nc_hash s).
Proof.
  unfold nc_hashed. rewrite existsb_exists, list_elem_of_join. split.
  - intros (l & Hl & Hi). exists l. apply bool_decide_eq_true in Hi. by apply list_elem_of_In in Hl.
  - intros (l & Hi & Hl). exists l. split; [by apply list_elem_of_In|]. by apply bool_decide_eq_true.
Qed.

(** [i] is an entry of a chain. *)
Definition live (s : dnlc) (i : Z) (e : ncent) : Prop := i ∈ mjoin (nc_hash s) ∧ ncache s !! i = Some e.

(** The entries in the hands of threads, and what they are if that is known. *)
Abbreviation hands := (list (Z * option ncent)).

Record tab_ok (busy : hands) (s : dnlc) : Prop := {
  to_on : doingcache s = true;
  to_size : ∃ k, 0 ≤ k ∧ Z.of_nat (length (nc_hash s)) = 2 ^ k;
  to_places : mjoin (nc_hash s) ++ dnlc_freelist s ++ busy.*1 ≡ₚ seqZ 0 (ncsize s);
  to_dom i : is_Some (ncache s !! i) ↔ 0 ≤ i < ncsize s;
  to_hashed b l i : nc_hash s !! b = Some l → i ∈ l → ∃ vp dp name cred,
    ncache s !! i = Some (MkNc (Some vp) (Some dp) name cred (DNLC_HASH name dp)) ∧ nc_bucket s (DNLC_HASH name dp) = b;
  to_keys i j e f : live s i e → live s j f → nc_dp e = nc_dp f → nc_name e = nc_name f → nc_cred e = nc_cred f → i = j;
  to_free i e : i ∈ dnlc_freelist s → ncache s !! i = Some e → nc_vp e = None ∧ nc_dp e = None ∧ nc_cred e = None;
  to_purge : 0 ≤ dnlc_purge_rotor s < ncsize s;
  to_rotor : 0 ≤ dnlc_free_rotor s < Z.of_nat (length (nc_hash s));
  to_hand i e : (i, Some e) ∈ busy → ncache s !! i = Some e
}.

(** The holds that the entries have of a vnode and of credentials. *)
Definition ent_holds (v : Z) (e : ncent) : Z := b2z (bool_decide (nc_vp e = Some v)) + b2z (bool_decide (nc_dp e = Some v)).
Definition ent_cred (c : Z) (e : ncent) : Z := b2z (bool_decide (nc_cred e = Some c)).
Definition holds (s : dnlc) (v : Z) : Z := msum (ent_holds v) (ncache s).
Definition cholds (s : dnlc) (c : Z) : Z := msum (ent_cred c) (ncache s).

(** [ext] and [d] are the holds of others. *)
Record cnt_ok (ext d : Z → Z) (s : dnlc) : Prop := {
  no_count v vn : vnodes s !! v = Some vn → 1 ≤ v_count vn ∧ v_count vn = ext v + holds s v;
  no_ent i e v : ncache s !! i = Some e → nc_vp e = Some v ∨ nc_dp e = Some v → is_Some (vnodes s !! v);
  no_ext v : 0 ≤ ext v;
  no_none v : vnodes s !! v = None → ext v = 0;
  no_creds : cr_inv (λ c, d c + cholds s c) (dn_cs s);
  no_cred i e c : ncache s !! i = Some e → nc_cred e = Some c → is_Some (cs_cred (dn_cs s) !! c);
  no_low c : low c ≤ d c
}.

Definition dn_ok (ext d : Z → Z) (busy : hands) (s : dnlc) : Prop := tab_ok busy s ∧ cnt_ok ext d s.

Lemma ent_holds_nonneg v e : 0 ≤ ent_holds v e.
Proof. unfold ent_holds. pose proof (b2z_nonneg (bool_decide (nc_vp e = Some v))). pose proof (b2z_nonneg (bool_decide (nc_dp e = Some v))). lia. Qed.
Lemma ent_cred_nonneg c e : 0 ≤ ent_cred c e.
Proof. apply b2z_nonneg. Qed.
#[export] Hint Resolve ent_holds_nonneg ent_cred_nonneg : kern.

Lemma holds_nonneg s v : 0 ≤ holds s v.
Proof. apply msum_nonneg. auto with kern. Qed.
Lemma cholds_nonneg s c : 0 ≤ cholds s c.
Proof. apply msum_nonneg. auto with kern. Qed.

(** ** Steps on the counts *)

Lemma cnt_ext_ext ext ext' d s : (∀ v, ext v = ext' v) → cnt_ok ext d s → cnt_ok ext' d s.
Proof. intros E [N1 N2 N3 N4 N5 N6 N7]. split; try done; intros; rewrite <- ?E; eauto. Qed.

(** What the counts do not look at. *)
Lemma cnt_same ext d s s' : ncache s' = ncache s → vnodes s' = vnodes s → dn_cs s' = dn_cs s → cnt_ok ext d s → cnt_ok ext d s'.
Proof.
  intros E1 E2 E3 [N1 N2 N3 N4 N5 N6 N7]. unfold holds, cholds in *. split; unfold holds, cholds; rewrite ?E1, ?E2, ?E3; done.
Qed.

Lemma vn_rele_ok ext d s v : cnt_ok ext d s → 1 ≤ ext v →
  ∃ m, vn_rele v s = Ok (set_vnodes m s) ∧ cnt_ok (plus_at ext v (-1)) d (set_vnodes m s).
Proof.
  intros [N1 N2 N3 N4 N5 N6 N7] Hv. assert (∃ vn, vnodes s !! v = Some vn) as [vn Ev].
  { destruct (vnodes s !! v) eqn:E; [eauto|]. apply N4 in E. lia. }
  destruct (N1 v vn Ev) as [Hc1 Hc2]. unfold vn_rele. rewrite Ev. cbn [deref mbind res_bind].
  rewrite (proj2 (Z.eqb_neq _ _)) by lia. pose proof (holds_nonneg s v) as Hh. destruct (Z.eqb_spec (v_count vn) 1) as [E1|Hn1].
  - eexists. split; [done|]. assert (ext v = 1 ∧ holds s v = 0) as [Ee Eh] by lia.
    split; unfold plus_at; simpl; try done.
    + intros w wn [Hne Ew]%lookup_delete_Some. rewrite decide_False by done. destruct (N1 w wn Ew). unfold holds in *. simpl. lia.
    + intros i e w Ei Hw. rewrite lookup_delete_ne; [by eapply N2|]. intros ->.
      pose proof (msum_zero_iff (ent_holds w) (ncache s) i e ltac:(auto with kern) Eh Ei) as E0. unfold ent_holds in E0.
      destruct Hw as [Hw|Hw]; rewrite Hw, b2z_decide_eq in E0; [pose proof (b2z_nonneg (bool_decide (nc_dp e = Some w)))|pose proof (b2z_nonneg (bool_decide (nc_vp e = Some w)))]; lia.
    + intros w. specialize (N3 w). case_decide; subst; lia.
    + intros w [<-|Ew]%lookup_delete_None; [rewrite decide_True by done; lia|]. rewrite (N4 w Ew).
      case_decide; [subst; congruence|done].
  - eexists. split; [done|]. split; unfold plus_at; simpl; try done.
    + intros w wn [[<- <-]|[Hne Ew]]%lookup_insert_Some; simpl.
      * rewrite decide_True by done. unfold holds in *. simpl. lia.
      * rewrite decide_False by done. destruct (N1 w wn Ew). unfold holds in *. simpl. lia.
    + intros i e w Ei Hw. destruct (decide (w = v)) as [->|]; [rewrite lookup_insert_eq; eauto|rewrite lookup_insert_ne by done; by eapply N2].
    + intros w. specialize (N3 w). case_decide; subst; lia.
    + intros w [Ew Hne]%lookup_insert_None. rewrite decide_False by done. rewrite (N4 w Ew). done.
Qed.

Lemma VN_HOLD_ok ext d s v : cnt_ok ext d s → is_Some (vnodes s !! v) →
  ∃ m, VN_HOLD v s = Ok (set_vnodes m s) ∧ cnt_ok (plus_at ext v 1) d (set_vnodes m s) ∧ (∀ w, is_Some (vnodes s !! w) → is_Some (m !! w)).
Proof.
  intros [N1 N2 N3 N4 N5 N6 N7] [vn Ev]. unfold VN_HOLD. rewrite Ev. cbn [deref mbind res_bind]. eexists. split; [done|].
  assert (∀ w, is_Some (vnodes s !! w) → is_Some (<[v := set_v_count (v_count vn + 1) vn]> (vnodes s) !! w)) as Hm.
  { intros w Hw. destruct (decide (w = v)) as [->|]; [rewrite lookup_insert_eq; eauto|by rewrite lookup_insert_ne by done]. }
  split; [|done]. split; unfold plus_at; simpl; try done.
  - intros w wn [[<- <-]|[Hne Ew]]%lookup_insert_Some; simpl.
    + rewrite decide_True by done. destruct (N1 v vn Ev). unfold holds in *. simpl. lia.
    + rewrite decide_False by done. destruct (N1 w wn Ew). unfold holds in *. simpl. lia.
  - intros i e w Ei Hw. apply Hm. by eapply N2.
  - intros w. specialize (N3 w). case_decide; lia.
  - intros w [Ew Hne]%lookup_insert_None. rewrite decide_False by done. rewrite (N4 w Ew). done.
Qed.

(** Credentials that the cache holds exist. *)
Lemma held_cred d cs (n c : Z) : cr_inv d cs → low c ≤ n → 1 ≤ d c - n → is_Some (cs_cred cs !! c).
Proof.
  intros Hi Hl Hn. destruct (cs_cred cs !! c) eqn:E; [done|]. pose proof (ci_none _ _ Hi c E) as Hd.
  unfold low in Hl. destruct (Z.eqb_spec c kcred) as [->|]; [|lia]. pose proof (ci_kcred _ _ Hi) as Hk. by rewrite E in Hk.
Qed.

Lemma cholds_entry s i e c : ncache s !! i = Some e → nc_cred e = Some c → 1 ≤ cholds s c.
Proof.
  intros Ei Ec. pose proof (msum_member (ent_cred c) (ncache s) i e ltac:(auto with kern) Ei) as H.
  unfold ent_cred in H at 1. rewrite Ec, b2z_decide_eq in H. done.
Qed.

Lemma cholds_update s s' i e e' c : ncache s !! i = Some e →
  cholds (set_ncache (<[i := e']> (ncache s)) s') c = cholds s c - ent_cred c e + ent_cred c e'.
Proof. intros Ei. unfold cholds. simpl. by rewrite (msum_update _ _ _ _ _ Ei). Qed.
Lemma holds_update s s' i e e' v : ncache s !! i = Some e →
  holds (set_ncache (<[i := e']> (ncache s)) s') v = holds s v - ent_holds v e + ent_holds v e'.
Proof. intros Ei. unfold holds. simpl. by rewrite (msum_update _ _ _ _ _ Ei). Qed.

(** An entry without identity. *)
Definition no_id (e : ncent) : Prop := nc_vp e = None ∧ nc_dp e = None ∧ nc_cred e = None.

Lemma no_id_holds e v : no_id e → ent_holds v e = 0.
Proof. intros (E1 & E2 & _). unfold ent_holds. by rewrite E1, E2. Qed.
Lemma no_id_cred e c : no_id e → ent_cred c e = 0.
Proof. intros (_ & _ & E3). unfold ent_cred. by rewrite E3. Qed.

(** [ext] with the holds of an entry. *)
Definition with_ent (ext : Z → Z) (e : ncent) : Z → Z := λ v, ext v + ent_holds v e.

(** An entry loses its identity: its credentials are freed, and its vnodes are others' to
    release. *)
Lemma clear_ok ext d s i e e' : cnt_ok ext d s → ncache s !! i = Some e → no_id e' →
  ∃ cs, nc_crfree (nc_cred e) s = Ok (set_dn_cs cs s) ∧ cnt_ok (with_ent ext e) d (set_ncache (<[i := e']> (ncache s)) (set_dn_cs cs s)).
Proof.
  intros [N1 N2 N3 N4 N5 N6 N7] Ei He'.
  assert (∃ cs, nc_crfree (nc_cred e) s = Ok (set_dn_cs cs s) ∧ cr_inv (λ c, d c + cholds s c - ent_cred c e) cs) as (cs & -> & Hcs).
  { destruct (nc_cred e) as [c|] eqn:Ec.
    - pose proof (cholds_entry s i e c Ei Ec) as Hc. specialize (N7 c) as Hl.
      destruct (crfree_inv (λ c, d c + cholds s c) (dn_cs s) c N5 (N6 i e c Ei Ec) ltac:(simpl; lia)) as (cs & E & Hi & _).
      exists cs. unfold nc_crfree. rewrite E. split; [done|]. eapply cr_inv_ext; [|exact Hi]. intros x. simpl. unfold plus_at, ent_cred. rewrite Ec.
      case_decide as Hx; [subst x; rewrite b2z_decide_eq; lia|]. rewrite bool_decide_false by congruence. simpl. lia.
    - exists (dn_cs s). split; [by destruct s|]. eapply cr_inv_ext; [|exact N5]. intros x. simpl. unfold ent_cred. rewrite Ec. simpl. lia. }
  exists cs. split; [done|]. split; unfold with_ent; try done.
  - intros v vn Ev. simpl in Ev. destruct (N1 v vn Ev) as [H1 H2]. rewrite (holds_update s (set_dn_cs cs s) i e e' v Ei), (no_id_holds e') by done.
    lia.
  - intros j f v Ej Hv. simpl in *. apply lookup_insert_Some in Ej as [[<- <-]|[_ Ej]]; [|by eapply N2].
    destruct He' as (E1 & E2 & _). rewrite E1, E2 in Hv. by destruct Hv.
  - intros v. specialize (N3 v). pose proof (ent_holds_nonneg v e). lia.
  - intros v Ev. simpl in Ev. rewrite N4 by done. unfold ent_holds. rewrite !bool_decide_false; [done| |]; intros E.
    + destruct (N2 i e v Ei (or_intror E)). congruence.
    + destruct (N2 i e v Ei (or_introl E)). congruence.
  - eapply cr_inv_ext; [|exact Hcs]. intros c. simpl. rewrite (cholds_update s (set_dn_cs cs s) i e e' c Ei), (no_id_cred e') by done.
    lia.
  - intros j f c Ej Ec. simpl in *. apply lookup_insert_Some in Ej as [[<- <-]|[Hne Ej]]; [destruct He' as (_ & _ & E3); congruence|].
    eapply (held_cred _ cs (d c)); [exact Hcs|done|]. simpl.
    pose proof (cholds_entry (set_ncache (<[i := e']> (ncache s)) s) j f c ltac:(simpl; by rewrite lookup_insert_ne) Ec) as H.
    rewrite (cholds_update s s i e e' c Ei), (no_id_cred e') in H by done. lia.
Qed.

(** An entry without identity is given one, the vnodes being held already. *)
Lemma fill_ok ext d s i e e' : cnt_ok (with_ent ext e') d s → ncache s !! i = Some e → no_id e → (∀ v, 0 ≤ ext v) →
  (∀ c, nc_cred e' = Some c → is_Some (cs_cred (dn_cs s) !! c)) →
  ∃ cs, nc_crhold (nc_cred e') (set_ncache (<[i := e']> (ncache s)) s) = Ok (set_ncache (<[i := e']> (ncache s)) (set_dn_cs cs s)) ∧
    cnt_ok ext d (set_ncache (<[i := e']> (ncache s)) (set_dn_cs cs s)).
Proof.
  intros [N1 N2 N3 N4 N5 N6 N7] Ei He He0 Hce. unfold with_ent in *.
  assert (∃ cs, nc_crhold (nc_cred e') (set_ncache (<[i := e']> (ncache s)) s) = Ok (set_ncache (<[i := e']> (ncache s)) (set_dn_cs cs s)) ∧
    cr_inv (λ c, d c + cholds s c + ent_cred c e') cs ∧ ∀ x, is_Some (cs_cred (dn_cs s) !! x) → is_Some (cs_cred cs !! x)) as (cs & -> & Hcs & Hk).
  { unfold nc_crhold. destruct (nc_cred e') as [c|] eqn:Ec.
    - destruct (crhold_inv (λ c, d c + cholds s c) (dn_cs s) c N5 (Hce c eq_refl)) as (cs & E & Hi & _ & Hids & _).
      exists cs. simpl. rewrite E. split; [done|]. split.
      + eapply cr_inv_ext; [|exact Hi]. intros x. simpl. unfold plus_at, ent_cred. rewrite Ec.
        case_decide as Hx; [subst x; by rewrite b2z_decide_eq|]. rewrite bool_decide_false by congruence. simpl. lia.
      + intros x [y Ey]. specialize (Hids x). unfold ids_at in Hids. rewrite Ey in Hids. destruct (cs_cred cs !! x); [eauto|done].
    - exists (dn_cs s). split; [by destruct s|]. split; [|done]. eapply cr_inv_ext; [|exact N5]. intros x. simpl. unfold ent_cred. rewrite Ec. simpl. lia. }
  exists cs. split; [done|].
  assert (∀ v, ext v + ent_holds v e' ≠ 0 → is_Some (vnodes s !! v)) as Hheld.
  { intros v Hv. destruct (vnodes s !! v) eqn:E; [eauto|]. by apply N4 in E. }
  assert (∀ v, nc_vp e' = Some v ∨ nc_dp e' = Some v → 1 ≤ ent_holds v e') as Hone.
  { intros v Hv. unfold ent_holds. pose proof (b2z_nonneg (bool_decide (nc_vp e' = Some v))). pose proof (b2z_nonneg (bool_decide (nc_dp e' = Some v))).
    destruct Hv as [Hv|Hv]; rewrite Hv in *; rewrite b2z_decide_eq in *; lia. }
  split; try done.
  - intros v vn Ev. simpl in Ev. destruct (N1 v vn Ev) as [H1 H2]. rewrite (holds_update s (set_dn_cs cs s) i e e' v Ei), (no_id_holds e) by done.
    lia.
  - intros j f v Ej Hv. simpl in *. apply lookup_insert_Some in Ej as [[<- <-]|[_ Ej]]; [|by eapply N2].
    apply Hheld. specialize (He0 v). specialize (Hone v Hv). lia.
  - intros v Ev. simpl in Ev. apply N4 in Ev. specialize (He0 v). pose proof (ent_holds_nonneg v e'). lia.
  - eapply cr_inv_ext; [|exact Hcs]. intros c. simpl. rewrite (cholds_update s (set_dn_cs cs s) i e e' c Ei), (no_id_cred e) by done.
    lia.
  - intros j f c Ej Ec. simpl in *. apply Hk. apply lookup_insert_Some in Ej as [[<- <-]|[Hne Ej]]; [auto|by eapply N6].
Qed.

(** ** Steps on the table *)

Lemma tab_vnodes busy s m : tab_ok busy s → tab_ok busy (set_vnodes m s).
Proof. intros [T1 T2 T3 T4 T5 T6 T7 T8 T9 T10]. by split. Qed.
Lemma tab_cs busy s cs : tab_ok busy s → tab_ok busy (set_dn_cs cs s).
Proof. intros [T1 T2 T3 T4 T5 T6 T7 T8 T9 T10]. by split. Qed.
#[export] Hint Resolve tab_vnodes tab_cs : kern.

Lemma tab_nodup busy s : tab_ok busy s → NoDup (mjoin (nc_hash s) ++ dnlc_freelist s ++ busy.*1).
Proof. intros Ht. rewrite (to_places _ _ Ht). apply NoDup_seqZ. Qed.

Lemma place_range busy s i : tab_ok busy s → i ∈ mjoin (nc_hash s) ++ dnlc_freelist s ++ busy.*1 ↔ 0 ≤ i < ncsize s.
Proof. intros Ht. rewrite (to_places _ _ Ht), elem_of_seqZ. lia. Qed.

Lemma place_entry busy s i : tab_ok busy s → i ∈ mjoin (nc_hash s) ++ dnlc_freelist s ++ busy.*1 → ∃ e, ncache s !! i = Some e.
Proof. intros Ht Hi. apply (place_range _ _ _ Ht) in Hi. by apply (to_dom _ _ Ht) in Hi as [e ?]; eauto. Qed.

Lemma dn_chain_in s b l i : nc_hash s !! b = Some l → i ∈ l → i ∈ mjoin (nc_hash s).
Proof. intros Eb Hi. apply list_elem_of_join. exists l. split; [done|]. by eapply list_elem_of_lookup_2. Qed.

Lemma in_chain s i : i ∈ mjoin (nc_hash s) → ∃ b l, nc_hash s !! b = Some l ∧ i ∈ l.
Proof. intros (l & Hi & Hl)%list_elem_of_join. apply list_elem_of_lookup_1 in Hl as [b Hb]. eauto. Qed.

(** What a live entry is. *)
Lemma live_entry busy s i : tab_ok busy s → i ∈ mjoin (nc_hash s) → ∃ vp dp name cred,
  ncache s !! i = Some (MkNc (Some vp) (Some dp) name cred (DNLC_HASH name dp)) ∧
  ∃ l, nc_hash s !! nc_bucket s (DNLC_HASH name dp) = Some l ∧ i ∈ l.
Proof.
  intros Ht (b & l & Eb & Hi)%in_chain. destruct (to_hashed _ _ Ht b l i Eb Hi) as (vp & dp & name & cred & Ei & <-). eauto 10.
Qed.

Lemma busy_not_hashed busy s i : tab_ok busy s → i ∈ busy.*1 → i ∉ mjoin (nc_hash s) ∧ i ∉ dnlc_freelist s.
Proof.
  intros Ht Hi. pose proof (tab_nodup _ _ Ht) as (_ & H1 & H2)%list.NoDup_app.
  apply list.NoDup_app in H2 as (_ & H2 & _). split; [intros H|intros H].
  - apply (H1 _ H). set_solver.
  - by apply (H2 _ H).
Qed.

Lemma filter_ne_perm (i : Z) (l : list Z) : NoDup l → i ∈ l → i :: filter (λ j, j ≠ i) l ≡ₚ l.
Proof.
  intros Hnd Hi. apply list_elem_of_split in Hi as (l1 & l2 & ->). apply list.NoDup_app in Hnd as (_ & H1 & [H2 _]%list.NoDup_cons).
  rewrite list.filter_app, filter_cons_False by auto. rewrite !filter_all; [by rewrite Permutation_middle| |].
  - intros x Hx ->. done.
  - intros x Hx ->. apply (H1 i Hx). left.
Qed.

Lemma rmhash_ok busy s i : tab_ok busy s → i ∈ mjoin (nc_hash s) →
  ∃ s', nc_rmhash i s = Ok s' ∧ s' = set_hash (map (filter (λ j, j ≠ i)) (nc_hash s)) s ∧ tab_ok ((i, None) :: busy) s' ∧
    (∀ j e, live s' j e ↔ live s j e ∧ j ≠ i).
Proof.
  intros Ht Hi. unfold nc_rmhash. rewrite (proj2 (hashed_spec s i) Hi). eexists. split; [done|]. split; [done|].
  pose proof (tab_nodup _ _ Ht) as (Hnd & _)%list.NoDup_app. assert (∀ j e, live (set_hash (map (filter (λ j, j ≠ i)) (nc_hash s)) s) j e ↔ live s j e ∧ j ≠ i) as Hlive.
  { intros j e. unfold live. simpl. rewrite mjoin_filter, list_elem_of_filter. tauto. }
  destruct Ht as [T1 T2 T3 T4 T5 T6 T7 T8 T9 T10]. split; [split; simpl; rewrite ?length_map; try done|done].
  - rewrite mjoin_filter. rewrite <- T3. rewrite <- (filter_ne_perm i (mjoin (nc_hash s))) at 2 by done. solve_Permutation.
  - intros b l j Eb Hj. unfold nc_bucket. simpl. rewrite length_map. rewrite list_lookup_fmap in Eb. apply fmap_Some in Eb as (l0 & Eb & ->).
    apply list_elem_of_filter in Hj as [_ Hj]. by apply (T5 b l0).
  - intros j k e f Hj Hk. apply Hlive in Hj as [Hj _]. apply Hlive in Hk as [Hk _]. by apply T6.
  - intros j e [[=]|Hj]%elem_of_cons. by apply T10.
Qed.

(** What an entry in the hands of a thread is does not matter. *)
Lemma tab_busy_entry busy s i x e : tab_ok ((i, x) :: busy) s → tab_ok ((i, None) :: busy) (set_ncache (<[i := e]> (ncache s)) s) ∧
  (∀ j f, live (set_ncache (<[i := e]> (ncache s)) s) j f ↔ live s j f).
Proof.
  intros Ht. destruct (busy_not_hashed _ _ i Ht) as [Hh Hf]; [left|].
  assert (∀ j f, live (set_ncache (<[i := e]> (ncache s)) s) j f ↔ live s j f) as Hlive.
  { intros j f. unfold live. simpl. split; intros [Hj Ej]; (split; [done|]).
    - rewrite lookup_insert_ne in Ej; [done|]. by intros ->.
    - rewrite lookup_insert_ne; [done|]. by intros ->. }
  split; [|done]. assert (0 ≤ i < ncsize s) as Hr by (apply (place_range _ _ _ Ht); simpl; set_solver).
  pose proof (tab_nodup _ _ Ht) as (_ & _ & (_ & _ & [Hni _]%list.NoDup_cons)%list.NoDup_app)%list.NoDup_app.
  destruct Ht as [T1 T2 T3 T4 T5 T6 T7 T8 T9 T10]. split; simpl; try done.
  - intros j. rewrite <- T4. destruct (decide (j = i)) as [->|]; [|by rewrite lookup_insert_ne].
    rewrite lookup_insert_eq, T4. split; [done|eauto].
  - intros b l j Eb Hj. rewrite lookup_insert_ne; [by apply (T5 b l)|]. intros ->. by eapply Hh, dn_chain_in.
  - intros j k f g Hj Hk. apply Hlive in Hj, Hk. by apply T6.
  - intros j f Hj. rewrite lookup_insert_ne; [by apply T7|]. by intros ->.
  - intros j f [[=]|Hj]%elem_of_cons. rewrite lookup_insert_ne; [apply T10; by right|]. intros ->. apply Hni. apply list_elem_of_fmap. by exists (j, Some f).
Qed.

Lemma tab_hand_know busy s i x e : tab_ok ((i, x) :: busy) s → ncache s !! i = Some e → tab_ok ((i, Some e) :: busy) s.
Proof.
  intros [T1 T2 T3 T4 T5 T6 T7 T8 T9 T10] Ei. split; try done. intros j f [[= -> ->]|Hj]%elem_of_cons; [done|]. apply T10. by right.
Qed.

Lemma tab_free busy s i x e : tab_ok ((i, x) :: busy) s → ncache s !! i = Some e → no_id e → tab_ok busy (set_freelist (i :: dnlc_freelist s) s).
Proof.
  intros [T1 T2 T3 T4 T5 T6 T7 T8 T9 T10] Ei He. split; simpl; try done.
  - rewrite <- T3. solve_Permutation.
  - intros j f [->|Hj]%elem_of_cons Ej; [simplify_eq; done|by eapply T7].
  - intros j f Hj. apply T10. by right.
Qed.

Lemma tab_take busy s i l : tab_ok busy s → dnlc_freelist s = i :: l → tab_ok ((i, None) :: busy) (set_freelist l s).
Proof.
  intros [T1 T2 T3 T4 T5 T6 T7 T8 T9 T10] El. split; simpl; try done.
  - rewrite <- T3, El. solve_Permutation.
  - intros j f Hj. apply T7. rewrite El. by right.
  - intros j f [[=]|Hj]%elem_of_cons. by apply T10.
Qed.

Lemma bucket_lt busy s h : tab_ok busy s → (nc_bucket s h < length (nc_hash s))%nat.
Proof.
  intros Ht. destruct (to_size _ _ Ht) as (k & Hk & E). unfold nc_bucket. rewrite E.
  replace (2 ^ k - 1) with (Z.ones k) by (rewrite Z.ones_equiv; lia). rewrite Z.land_ones by done.
  pose proof (Z.mod_pos_bound h (2 ^ k) ltac:(lia)). lia.
Qed.

Lemma bucket_some busy s h : tab_ok busy s → ∃ l, nc_hash s !! nc_bucket s h = Some l.
Proof. intros Ht. apply lookup_lt_is_Some_2. by eapply bucket_lt. Qed.

Lemma inshash_ok busy s i x vp dp name cred : tab_ok ((i, x) :: busy) s →
  let e := MkNc (Some vp) (Some dp) name cred (DNLC_HASH name dp) in ncache s !! i = Some e →
  (∀ j f, live s j f → nc_dp f = Some dp → nc_name f = name → nc_cred f = cred → False) →
  ∃ s', nc_inshash i (nc_bucket s (DNLC_HASH name dp)) s = Ok s' ∧ (∃ h, s' = set_hash h s) ∧ tab_ok busy s' ∧
    (∀ j f, live s' j f ↔ live s j f ∨ j = i ∧ f = e).
Proof.
  intros Ht e Ei Hnew. destruct (bucket_some _ _ (DNLC_HASH name dp) Ht) as [l El]. unfold nc_inshash. rewrite El. cbn [deref mbind res_bind].
  eexists. split; [done|]. split; [by eexists|]. set (b := nc_bucket s (DNLC_HASH name dp)) in *.
  assert (mjoin (<[b := i :: l]> (nc_hash s)) ≡ₚ i :: mjoin (nc_hash s)) as Hp.
  { apply (Permutation_app_inv_r l). rewrite (mjoin_insert _ _ _ (i :: l) El). solve_Permutation. }
  assert (∀ j f, live (set_hash (<[b := i :: l]> (nc_hash s)) s) j f ↔ live s j f ∨ j = i ∧ f = e) as Hlive.
  { intros j f. unfold live. simpl. rewrite Hp, elem_of_cons. naive_solver. }
  split; [|done]. pose proof (bucket_lt _ _ (DNLC_HASH name dp) Ht) as Hb. fold b in Hb. destruct Ht as [T1 T2 T3 T4 T5 T6 T7 T8 T9 T10].
  split; simpl; rewrite ?length_insert; try done.
  - rewrite Hp, <- T3. solve_Permutation.
  - intros b' l' j Eb Hj. unfold nc_bucket. simpl. rewrite length_insert. apply list_lookup_insert_Some in Eb as [(<- & <- & _)|[Hne Eb]].
    + apply elem_of_cons in Hj as [->|Hj]; [by exists vp, dp, name, cred|by apply (T5 b l)].
    + by apply (T5 b' l').
  - intros j k f g Hj Hk Ed En Ec. apply Hlive in Hj as [Hj|[-> ->]]; apply Hlive in Hk as [Hk|[-> ->]]; simpl in *.
    + by eapply T6.
    + exfalso. by eapply (Hnew j f).
    + exfalso. by eapply (Hnew k g).
    + done.
  - intros j f Hj. apply T10. by right.
Qed.

Lemma front_ok busy s b l i : tab_ok busy s → nc_hash s !! b = Some l → i ∈ l →
  ∃ s', nc_move_to_front b i s = Ok s' ∧ (∃ h, s' = set_hash h s) ∧ tab_ok busy s' ∧ (∀ j f, live s' j f ↔ live s j f).
Proof.
  intros Ht El Hi. unfold nc_move_to_front. rewrite El. cbn [deref mbind res_bind]. eexists. split; [done|]. split; [by eexists|].
  assert (NoDup l) as Hl.
  { pose proof (tab_nodup _ _ Ht) as (Hnd & _)%list.NoDup_app. rewrite <- (take_drop_middle _ _ _ El), join_app, join_cons in Hnd.
    apply list.NoDup_app in Hnd as (_ & _ & Hnd). by apply list.NoDup_app in Hnd as (? & _). }
  assert (mjoin (<[b := i :: filter (λ j, j ≠ i) l]> (nc_hash s)) ≡ₚ mjoin (nc_hash s)) as Hp.
  { apply (Permutation_app_inv_r l). rewrite (mjoin_insert _ _ _ _ El). by rewrite (filter_ne_perm i l). }
  assert (∀ j f, live (set_hash (<[b := i :: filter (λ j, j ≠ i) l]> (nc_hash s)) s) j f ↔ live s j f) as Hlive.
  { intros j f. unfold live. simpl. by rewrite Hp. }
  split; [|done]. destruct Ht as [T1 T2 T3 T4 T5 T6 T7 T8 T9 T10]. split; simpl; rewrite ?length_insert; try done.
  - by rewrite Hp.
  - intros b' l' j Eb Hj. unfold nc_bucket. simpl. rewrite length_insert. apply list_lookup_insert_Some in Eb as [(<- & <- & _)|[Hne Eb]].
    + apply (T5 b l); [done|]. by rewrite <- (filter_ne_perm i l).
    + by apply (T5 b' l').
  - intros j k f g Hj Hk. apply Hlive in Hj, Hk. by apply T6.
Qed.

Lemma tab_purge_rotor busy s r : tab_ok busy s → 0 ≤ r < ncsize s → tab_ok busy (set_purge_rotor r s).
Proof. intros [T1 T2 T3 T4 T5 T6 T7 T8 T9 T10] Hr. by split. Qed.
Lemma tab_free_rotor busy s r : tab_ok busy s → 0 ≤ r < Z.of_nat (length (nc_hash s)) → tab_ok busy (set_free_rotor r s).
Proof. intros [T1 T2 T3 T4 T5 T6 T7 T8 T9 T10] Hr. by split. Qed.
