(* ===== verification/DnlcOps.v ===== *)
(** * What the operations of the name cache do

    [names] is the cache as a finite map: the vnode for each directory, name and
    credentials.  Each operation keeps the invariant and changes [names] as stated. *)

From S2P Require Import Prelude Bitmap Upcount Cred CredProps CredInv Dnlc DnlcInv.

(** ** The cache as a map *)

Abbreviation nckey := (Z * list Z * option Z)%type.

Definition ent_kv (e : ncent) : option (nckey * Z) :=
  match nc_dp e, nc_vp e with Some dp, Some vp => Some ((dp, nc_name e, nc_cred e), vp) | _, _ => None end.

Definition names (s : dnlc) : gmap nckey Z := list_to_map (omap (λ i, ncache s !! i ≫= ent_kv) (mjoin (nc_hash s))).

Lemma ent_kv_key e f k v w : ent_kv e = Some (k, v) → ent_kv f = Some (k, w) → nc_dp e = nc_dp f ∧ nc_name e = nc_name f ∧ nc_cred e = nc_cred f.
Proof. unfold ent_kv. repeat case_match; naive_solver. Qed.

Lemma ent_kv_Some e dp name cred v : ent_kv e = Some ((dp, name, cred), v) ↔ nc_dp e = Some dp ∧ nc_name e = name ∧ nc_cred e = cred ∧ nc_vp e = Some v.
Proof. unfold ent_kv. repeat case_match; naive_solver. Qed.

Lemma names_spec busy s k v : tab_ok busy s → names s !! k = Some v ↔ ∃ i e, live s i e ∧ ent_kv e = Some (k, v).
Proof.
  intros Ht. assert (∀ k v, (k, v) ∈ omap (λ i, ncache s !! i ≫= ent_kv) (mjoin (nc_hash s)) ↔ ∃ i e, live s i e ∧ ent_kv e = Some (k, v)) as Hin.
  { intros k' v'. rewrite list_elem_of_omap. unfold live. split.
    - intros (i & Hi & (e & Ee & Hk)%bind_Some). eauto 10.
    - intros (i & e & [Hi Ee] & Hk). exists i. split; [done|]. by rewrite Ee. }
  unfold names. split.
  - intros H%elem_of_list_to_map_2. by apply Hin.
  - intros H. apply elem_of_list_to_map_1'; [|by apply Hin]. intros w Hw%Hin. destruct H as (i & e & Hi & Ek), Hw as (j & f & Hj & Fk).
    destruct (ent_kv_key _ _ _ _ _ Ek Fk) as (E1 & E2 & E3). assert (i = j) as -> by by eapply (to_keys _ _ Ht).
    destruct Hi, Hj. naive_solver.
Qed.

(** The same entries give the same names. *)
Lemma names_live b1 b2 s1 s2 : tab_ok b1 s1 → tab_ok b2 s2 → (∀ i e, live s2 i e ↔ live s1 i e) → names s2 = names s1.
Proof.
  intros H1 H2 Hl. apply map_eq. intros k. apply option_eq. intros v. rewrite (names_spec b2), (names_spec b1) by done. by setoid_rewrite Hl.
Qed.

Lemma names_remove b1 b2 s1 s2 i e k v : tab_ok b1 s1 → tab_ok b2 s2 → live s1 i e → ent_kv e = Some (k, v) →
  (∀ j f, live s2 j f ↔ live s1 j f ∧ j ≠ i) → names s2 = delete k (names s1).
Proof.
  intros H1 H2 Hi Hk Hl. apply map_eq. intros k'. apply option_eq. intros w.
  rewrite lookup_delete_Some, (names_spec b2), (names_spec b1) by done. setoid_rewrite Hl. split.
  - intros (j & f & [Hj Hne] & Fk). split; [|by eauto]. intros <-. destruct (ent_kv_key _ _ _ _ _ Hk Fk) as (E1 & E2 & E3).
    apply Hne. symmetry. by eapply (to_keys _ _ H1).
  - intros (Hne & j & f & Hj & Fk). exists j, f. split; [|done]. split; [done|]. intros ->. destruct Hi, Hj. naive_solver.
Qed.

Lemma names_add b1 b2 s1 s2 i e k v : tab_ok b1 s1 → tab_ok b2 s2 → ent_kv e = Some (k, v) → names s1 !! k = None →
  (∀ j f, live s2 j f ↔ live s1 j f ∨ j = i ∧ f = e) → names s2 = <[k := v]> (names s1).
Proof.
  intros H1 H2 Hk Hn Hl. apply map_eq. intros k'. apply option_eq. intros w.
  rewrite lookup_insert_Some, (names_spec b2), (names_spec b1) by done. setoid_rewrite Hl. split.
  - intros (j & f & [Hj|[-> ->]] & Fk); [|left; naive_solver]. right. split; [|eauto]. intros <-.
    assert (names s1 !! k = Some w) by (apply (names_spec b1); eauto). congruence.
  - intros [[<- <-]|(Hne & j & f & Hj & Fk)]; [exists i, e; tauto|]. exists j, f. tauto.
Qed.

(** ** Releasing *)

(** The steps between entries and vnodes leave the rest alone. *)
Definition same_table (s s' : dnlc) : Prop :=
  nc_hash s' = nc_hash s ∧ ncache s' = ncache s ∧ ncsize s' = ncsize s ∧ dnlc_freelist s' = dnlc_freelist s ∧ dnlc_purge_rotor s' = dnlc_purge_rotor s ∧
  dnlc_free_rotor s' = dnlc_free_rotor s ∧ doingcache s' = doingcache s.

Lemma same_names s s' : same_table s s' → names s' = names s.
Proof. intros (E1 & E2 & _). unfold names. by rewrite E1, E2. Qed.

Lemma same_live s s' : same_table s s' → ∀ i e, live s' i e ↔ live s i e.
Proof. intros (E1 & E2 & _) i e. unfold live. by rewrite E1, E2. Qed.

Lemma VN_RELE_ok ext d busy s v : dn_ok ext d busy s → 1 ≤ ext v →
  ∃ s', VN_RELE (Some v) s = Ok s' ∧ dn_ok (plus_at ext v (-1)) d busy s' ∧ same_table s s' ∧ dn_cs s' = dn_cs s.
Proof.
  intros [Ht Hc] Hv. destruct (vn_rele_ok ext d s v Hc Hv) as (m & E & Hc'). exists (set_vnodes m s). split; [done|]. split; [|done].
  split; [by apply tab_vnodes|done].
Qed.

Lemma with_ent_ge ext e v : 0 ≤ ext v → nc_vp e = Some v ∨ nc_dp e = Some v → 1 ≤ with_ent ext e v.
Proof.
  intros H0 Hv. unfold with_ent, ent_holds. pose proof (b2z_nonneg (bool_decide (nc_vp e = Some v))). pose proof (b2z_nonneg (bool_decide (nc_dp e = Some v))).
  destruct Hv as [Hv|Hv]; rewrite Hv in *; rewrite b2z_decide_eq in *; lia.
Qed.

Lemma some_eq_comm (a b : Z) : bool_decide (Some a = Some b) = bool_decide (b = a).
Proof. apply bool_decide_ext. naive_solver. Qed.

(** The holds of an entry, one by one in either order. *)
Lemma without_ent ext e vp dp v : nc_vp e = Some vp → nc_dp e = Some dp →
  plus_at (plus_at (with_ent ext e) vp (-1)) dp (-1) v = ext v ∧ plus_at (plus_at (with_ent ext e) dp (-1)) vp (-1) v = ext v.
Proof.
  intros Ev Ed. unfold plus_at, with_ent, ent_holds. rewrite Ev, Ed, !some_eq_comm. unfold b2z.
  repeat case_decide; repeat case_bool_decide; subst; try done; lia.
Qed.

Lemma dn_ext ext ext' d busy s : (∀ v, ext v = ext' v) → dn_ok ext d busy s → dn_ok ext' d busy s.
Proof. intros E [Ht Hc]. split; [done|]. by eapply cnt_ext_ext. Qed.

Lemma release_ent ext d busy s e vp dp : dn_ok (with_ent ext e) d busy s → (∀ v, 0 ≤ ext v) → nc_vp e = Some vp → nc_dp e = Some dp →
  (∃ s', (s ← VN_RELE (nc_vp e) s; VN_RELE (nc_dp e) s) = Ok s' ∧ dn_ok ext d busy s' ∧ same_table s s') ∧
  (∃ s', (s ← VN_RELE (nc_dp e) s; VN_RELE (nc_vp e) s) = Ok s' ∧ dn_ok ext d busy s' ∧ same_table s s').
Proof.
  intros Hok H0 Ev Ed. rewrite Ev, Ed. split.
  - destruct (VN_RELE_ok _ _ _ _ vp Hok) as (s1 & -> & Hok1 & Hs1 & _); [apply with_ent_ge; auto|]. cbn [mbind res_bind].
    destruct (VN_RELE_ok _ _ _ _ dp Hok1) as (s2 & -> & Hok2 & Hs2 & _).
    { destruct (without_ent ext e vp dp dp Ev Ed) as [W1 W2]. specialize (H0 dp). unfold plus_at in *. rewrite decide_True in * by done. lia. }
    exists s2. split; [done|]. split; [eapply dn_ext; [|exact Hok2]; intros v; exact (proj1 (without_ent ext e vp dp v Ev Ed))|]. unfold same_table in *. intuition congruence.
  - destruct (VN_RELE_ok _ _ _ _ dp Hok) as (s1 & -> & Hok1 & Hs1 & _); [apply with_ent_ge; auto|]. cbn [mbind res_bind].
    destruct (VN_RELE_ok _ _ _ _ vp Hok1) as (s2 & -> & Hok2 & Hs2 & _).
    { destruct (without_ent ext e vp dp vp Ev Ed) as [W1 W2]. specialize (H0 vp). unfold plus_at in *. rewrite decide_True in * by done. lia. }
    exists s2. split; [done|]. split; [eapply dn_ext; [|exact Hok2]; intros v; exact (proj2 (without_ent ext e vp dp v Ev Ed))|]. unfold same_table in *. intuition congruence.
Qed.

(** ** Freeing an entry *)

Lemma dnlc_free_ok ext d busy s i x e : dn_ok ext d ((i, x) :: busy) s → ncache s !! i = Some e →
  ∃ s', dnlc_free i s = Ok s' ∧ dn_ok (with_ent ext e) d busy s' ∧ (∀ j f, live s' j f ↔ live s j f) ∧
    nc_hash s' = nc_hash s ∧ vnodes s' = vnodes s ∧ ncsize s' = ncsize s ∧ (∀ v, holds s' v = holds s v - ent_holds v e).
Proof.
  intros [Ht Hc] Ei. set (e' := MkNc None None (nc_name e) None (nc_sig e)).
  destruct (clear_ok ext d s i e e' Hc Ei) as (cs & E & Hc'); [done|]. unfold dnlc_free. rewrite Ei. cbn [deref mbind res_bind]. rewrite E.
  eexists. split; [done|]. simpl. fold e'.
  destruct (tab_busy_entry _ (set_dn_cs cs s) i _ e' (tab_cs _ _ cs Ht) ) as [Ht' Hl].
  split; [|split; [intros j f; apply (Hl j f)|]; split_and!; try done].
  2: { intros v. change (holds (set_ncache (<[i := e']> (ncache s)) s) v = holds s v - ent_holds v e). rewrite (holds_update s s i e e' v Ei), (no_id_holds e'); [lia|done]. }
  split.
  - eapply (tab_free _ _ i _ e' Ht'); [apply lookup_insert_eq|done].
  - by eapply cnt_same; [..|exact Hc'].
Qed.

(** An entry leaves its chain for the free list. *)
Lemma unhash_ok ext d busy s i e k v : dn_ok ext d busy s → live s i e → ent_kv e = Some (k, v) →
  ∃ s1 s2, nc_rmhash i s = Ok s1 ∧ dnlc_free i s1 = Ok s2 ∧ dn_ok (with_ent ext e) d busy s2 ∧ names s2 = delete k (names s) ∧
    (∀ j f, live s2 j f ↔ live s j f ∧ j ≠ i) ∧ length (mjoin (nc_hash s)) = S (length (mjoin (nc_hash s2))) ∧
    length (nc_hash s2) = length (nc_hash s) ∧ vnodes s2 = vnodes s ∧ ncsize s2 = ncsize s ∧
    (∀ w, holds s2 w = holds s w - ent_holds w e).
Proof.
  intros [Ht Hc] [Hi Ei] Hk. destruct (rmhash_ok _ _ _ Ht Hi) as (s1 & E1 & Es1 & Ht1 & Hl1).
  assert (cnt_ok ext d s1) as Hc1 by (subst s1; by eapply cnt_same; [..|exact Hc]). assert (ncache s1 !! i = Some e) as Ei1 by by subst s1.
  destruct (dnlc_free_ok _ _ _ _ i _ e (conj Ht1 Hc1) Ei1) as (s2 & E2 & Hok & Hl2 & Eh & Ev & En & Hh). exists s1, s2.
  assert (∀ j f, live s2 j f ↔ live s j f ∧ j ≠ i) as Hl by (intros; by rewrite Hl2, Hl1).
  split; [done|]. split; [done|]. split; [done|]. split; [by eapply names_remove; [..|exact Hl]; [| |split|]; first [exact Ht|apply Hok|done]|].
  split; [done|]. rewrite Eh, Ev, En, Es1. simpl. rewrite length_map, mjoin_filter. split; [|split_and!; try done; intros w; rewrite Hh; by subst s1].
  pose proof (tab_nodup _ _ Ht) as (Hnd & _)%list.NoDup_app. rewrite <- (filter_ne_perm i (mjoin (nc_hash s))) at 1 by done. done.
Qed.

(** ... and its vnodes are released. *)
Lemma evict_ok ext d busy s i e k v : dn_ok ext d busy s → live s i e → ent_kv e = Some (k, v) →
  ∃ s', (s ← nc_rmhash i s; s ← dnlc_free i s; s ← VN_RELE (nc_vp e) s; VN_RELE (nc_dp e) s) = Ok s' ∧ dn_ok ext d busy s' ∧
    names s' = delete k (names s) ∧ (∀ j f, live s' j f ↔ live s j f ∧ j ≠ i) ∧
    length (mjoin (nc_hash s)) = S (length (mjoin (nc_hash s'))) ∧ ncsize s' = ncsize s ∧ (∀ w, holds s' w = holds s w - ent_holds w e).
Proof.
  intros Hok Hi Hk. destruct (unhash_ok _ _ _ _ _ _ _ _ Hok Hi Hk) as (s1 & s2 & -> & E2 & Hok2 & Hn & Hl & Hlen & Hlh & _ & Hsz & Hh).
  cbn [mbind res_bind]. rewrite E2. cbn [mbind res_bind]. destruct k as [[dp name] cred]. apply ent_kv_Some in Hk as (Ed & _ & _ & Ev).
  destruct (release_ent _ _ _ _ _ v dp Hok2 (no_ext _ _ _ (proj2 Hok)) Ev Ed) as [(s3 & -> & Hok3 & Hs) _]. exists s3. split; [done|]. split; [done|].
  split; [by rewrite (same_names _ _ Hs)|]. split; [intros; by rewrite (same_live _ _ Hs)|]. destruct Hs as (Eh & Ec & Esz & _).
  rewrite Eh, Esz. unfold holds in *. by rewrite Ec.
Qed.

(** ** Getting an entry *)

(** The state with the identity of an entry forgotten: [dnlc_get] leaves the fields of the
    entry that it steals for its caller to set. *)
Definition forget (i : Z) (s : dnlc) : dnlc := set_ncache (<[i := nc_zero]> (ncache s)) s.

Lemma VN_RELE_ncache m v s : VN_RELE v (set_ncache m s) = (s ← VN_RELE v s; Ok (set_ncache m s)).
Proof.
  unfold VN_RELE. destruct v as [v|]; [|done]. cbn [deref mbind res_bind]. unfold vn_rele. simpl.
  destruct (vnodes s !! v); [|done]. simpl. by repeat case_match.
Qed.

Lemma VN_HOLD_any m v s m1 : VN_HOLD v (set_ncache m s) = Ok (set_vnodes m1 (set_ncache m s)) → VN_HOLD v s = Ok (set_vnodes m1 s).
Proof.
  unfold VN_HOLD. change (vnodes (set_ncache m s)) with (vnodes s). destruct (vnodes s !! v); [|done]. cbn [deref mbind res_bind].
  intros E. injection E as E. by rewrite E.
Qed.

Lemma VN_RELE_frame v s s' : VN_RELE v s = Ok s' → ∃ m, s' = set_vnodes m s.
Proof.
  unfold VN_RELE. destruct v as [v|]; [|done]. cbn [deref mbind res_bind]. unfold vn_rele.
  destruct (vnodes s !! v); [|done]. cbn [deref mbind res_bind]. repeat case_match; intros; simplify_eq; eauto.
Qed.

Lemma steal_walk_ok ext d busy s l : dn_ok ext d busy s → (∀ i, i ∈ l → i ∈ mjoin (nc_hash s)) →
  ∃ o, steal_walk s l = Ok o ∧ ∀ i, o = Some i → i ∈ l.
Proof.
  intros [Ht Hc]. induction l as [|i l IH]; intros Hl; [by exists None|]. cbn [steal_walk].
  destruct (live_entry _ _ _ Ht (Hl i ltac:(left))) as (vp & dp & name & cred & Ei & _). rewrite Ei. cbn [deref mbind res_bind nc_vp].
  destruct (no_ent _ _ _ Hc _ _ vp Ei ltac:(by left)) as [vn Ev]. rewrite Ev. cbn [deref mbind res_bind].
  destruct IH as (o & E & Ho); [intros; apply Hl; by right|]. case_match; [eexists; split; [done|]; intros; simplify_eq; left|].
  exists o. split; [done|]. intros j Hj. right. auto.
Qed.

(** How many chains are before [b] after [hp]. *)
Definition chains_to (n hp b : Z) : Z := if hp <? b then b - hp - 1 else b - hp - 1 + n.

Lemma last_reverse_None {A} (l : list A) : list.last l = None → l = [].
Proof. apply last_None. Qed.

Lemma steal_from_ok ext d busy fuel last hp s : dn_ok ext d busy s → let n := Z.of_nat (length (nc_hash s)) in
  0 ≤ hp < n → 0 ≤ last < n → chains_to n hp last < Z.of_nat fuel →
  ∃ o s', steal_from fuel last hp s = Ok (o, s') ∧ ncsize s' = ncsize s ∧
    match o with
    | Some i => dn_ok ext d ((i, None) :: busy) (forget i s') ∧ ∃ k v, names s !! k = Some v ∧ names (forget i s') = delete k (names s)
    | None => dn_ok ext d busy s' ∧ names s' = names s ∧ ∀ b l, nc_hash s !! b = Some l → chains_to n hp (Z.of_nat b) ≤ chains_to n hp last → l = []
    end.
Proof.
  intros Hok n. revert hp s n Hok. induction fuel as [|fuel IH]; intros hp s n Hok Hhp Hlast Hf; [unfold chains_to in Hf; case_if_in Hf; lia|].
  cbn [steal_from]. change (Z.of_nat (length (nc_hash s))) with n. set (hp' := if hp + 1 =? n then 0 else hp + 1).
  assert (0 ≤ hp' < n) as Hhp' by (subst hp'; case_if; lia). set (s1 := set_free_rotor hp' s).
  assert (dn_ok ext d busy s1) as Hok1. { split; [apply tab_free_rotor; [apply Hok|done]|]. by eapply cnt_same; [..|apply Hok]. }
  assert (Z.to_nat hp' < length (nc_hash s))%nat as Hlt by lia. apply lookup_lt_is_Some_2 in Hlt as [l El].
  change (nc_hash s1) with (nc_hash s). rewrite El. cbn [deref mbind res_bind].
  destruct (steal_walk_ok ext d busy s1 (reverse l) Hok1) as (w & -> & Hw).
  { intros i Hi. rewrite elem_of_reverse in Hi. exact (dn_chain_in s _ l i El Hi). }
  cbn [mbind res_bind]. destruct (match w with Some i => Some i | None => list.last l end) as [i|] eqn:Ei.
  - assert (i ∈ mjoin (nc_hash s)) as Hi.
    { eapply dn_chain_in; [exact El|]. destruct w as [j|]; [rewrite <- elem_of_reverse; naive_solver|]. apply last_Some in Ei as [l0 ->]. set_solver. }
    destruct Hok1 as [Ht1 Hc1]. destruct (live_entry _ _ _ Ht1 Hi) as (vp & dp & name & cred & Ee & _). rewrite Ee. cbn [deref mbind res_bind].
    set (e := MkNc (Some vp) (Some dp) name cred (DNLC_HASH name dp)) in *.
    destruct (rmhash_ok _ _ _ Ht1 Hi) as (s2 & -> & Es2 & Ht2 & Hl2). cbn [mbind res_bind].
    assert (cnt_ok ext d s2) as Hc2 by (subst s2; by eapply cnt_same; [..|exact Hc1]). assert (ncache s2 !! i = Some e) as Ee2 by by subst s2.
    destruct (clear_ok ext d s2 i e nc_zero Hc2 Ee2) as (cs & -> & Hc3); [done|]. cbn [mbind res_bind].
    destruct (tab_busy_entry _ (set_dn_cs cs s2) i _ nc_zero (tab_cs _ _ cs Ht2) ) as [Ht3 Hl3].
    destruct (release_ent _ _ _ _ e vp dp (conj Ht3 Hc3) (no_ext _ _ _ Hc1) eq_refl eq_refl) as [_ (s4 & E4 & Hok4 & Hs4)].
    rewrite VN_RELE_ncache in E4. destruct (VN_RELE (nc_dp e) (set_dn_cs cs s2)) as [s5| |] eqn:E5; try done. cbn [mbind res_bind] in *.
    rewrite VN_RELE_ncache in E4. destruct (VN_RELE (nc_vp e) s5) as [s6| |] eqn:E6; try done. cbn [mbind res_bind] in *.
    apply VN_RELE_frame in E5 as [m5 ->], E6 as [m6 ->]. eexists _, _. split; [done|]. split; [by subst s2|].
    injection E4 as <-. split; [exact Hok4|]. exists (dp, name, cred), vp. assert (live s i e) as Hli by done.
    split; [apply (names_spec _ _ _ _ (proj1 Hok)); by exists i, e|]. eapply (names_remove busy ((i, None) :: busy) s); [apply Hok|apply Hok4|done|done|].
    intros j f. split.
    + intros H. apply (same_live _ _ Hs4), Hl3 in H. apply Hl2 in H. exact H.
    + intros H. apply (same_live _ _ Hs4), Hl3, Hl2. exact H.
  - assert (l = []) as -> by (destruct w; [done|]; by apply last_None).
    assert (∀ b, 0 ≤ b < n → b ≠ hp' → chains_to n hp b = chains_to n hp' b + 1) as Hstep.
    { intros b Hb Hne. unfold chains_to. subst hp'. repeat case_if; lia. }
    destruct (Z.eqb_spec hp' last) as [<-|Hne].
    + eexists _, _. split; [done|]. split; [done|]. split; [done|]. split; [done|]. intros b l Eb Hb.
      destruct (decide (Z.of_nat b = hp')) as [E|Hne]; [|].
      * rewrite <- E, Nat2Z.id in El. naive_solver.
      * pose proof (lookup_lt_Some _ _ _ Eb). unfold chains_to in Hb. subst hp'. repeat case_if_in Hb; lia.
    + specialize (Hstep last ltac:(lia) ltac:(done)) as Hd.
      destruct (IH hp' s1 Hok1 ltac:(done) ltac:(done) ltac:(change (Z.of_nat (length (nc_hash s1))) with n; lia)) as (o & s' & E & Hsz & Ho).
      exists o, s'. split; [done|]. split; [done|]. destruct o as [i|]; [exact Ho|]. destruct Ho as (H1 & H2 & H3). split; [done|]. split; [done|].
      intros b l Eb Hb. destruct (decide (Z.of_nat b = hp')) as [E'|Hne']; [rewrite <- E', Nat2Z.id in El; naive_solver|].
      apply (H3 b l Eb). change (Z.of_nat (length (nc_hash s1))) with n. pose proof (lookup_lt_Some _ _ _ Eb).
      specialize (Hstep (Z.of_nat b) ltac:(lia) Hne'). lia.
Qed.

(** An entry in hand, taken from the free list or, when that is empty, from a chain. *)
Lemma dnlc_get_ok ext d busy s : dn_ok ext d busy s →
  ∃ o s', dnlc_get s = Ok (o, s') ∧ ncsize s' = ncsize s ∧
    match o with
    | Some i => dn_ok ext d ((i, None) :: busy) (forget i s') ∧
      (names (forget i s') = names s ∨ dnlc_freelist s = [] ∧ ∃ k v, names s !! k = Some v ∧ names (forget i s') = delete k (names s))
    | None => dn_ok ext d busy s' ∧ names s' = names s ∧ seqZ 0 (ncsize s) ≡ₚ busy.*1
    end.
Proof.
  intros Hok. unfold dnlc_get. pose proof Hok as [Ht Hc]. destruct (dnlc_freelist s) as [|i l] eqn:El.
  - set (n := Z.of_nat (length (nc_hash s))). pose proof (to_rotor _ _ Ht) as Hr. fold n in Hr.
    destruct (steal_from_ok ext d busy (length (nc_hash s)) (dnlc_free_rotor s) (dnlc_free_rotor s) s Hok Hr Hr) as (o & s' & E & Hsz & Ho).
    { unfold chains_to. case_if; lia. }
    exists o, s'. split; [done|]. split; [done|]. destruct o as [i|].
    + destruct Ho as [H1 H2]. split; [done|]. right. done.
    + destruct Ho as (H1 & H2 & H3). split; [done|]. split; [done|]. rewrite <- (to_places _ _ Ht), El.
      assert (mjoin (nc_hash s) = []) as ->; [|done]. apply elem_of_nil_inv. intros i (b & l & Eb & Hi)%in_chain.
      rewrite (H3 b l Eb) in Hi; [set_solver|]. pose proof (lookup_lt_Some _ _ _ Eb). fold n. unfold chains_to. repeat case_if; lia.
  - eexists _, _. split; [done|]. split; [done|]. simpl. pose proof (tab_take _ _ _ _ Ht El) as Ht1.
    destruct (tab_busy_entry _ _ i _ nc_zero Ht1 ) as [Ht2 Hl2].
    destruct (place_entry _ _ i Ht) as [e Ei]; [rewrite El; set_solver|]. destruct (to_free _ _ Ht i e) as (E1 & E2 & E3); [rewrite El; left|done|].
    assert (no_id e) as He by done. destruct (clear_ok ext d (set_freelist l s) i e nc_zero) as (cs & E & Hc'); [by eapply cnt_same; [..|exact Hc]|done|done|].
    rewrite E3 in E. injection E as Ecs. split; [split; [done|]|].
    + eapply cnt_ext_ext; [|eapply cnt_same; [..|exact Hc']]; [|done|done|]; [|done].
      intros v. unfold with_ent. rewrite no_id_holds by done. lia.
    + left. by eapply names_live; [exact Ht|exact Ht2|].
Qed.

(** ** Search *)

Lemma walk_chain_ok busy s p depth l : tab_ok busy s → (∀ i, i ∈ l → i ∈ mjoin (nc_hash s)) →
  ∃ o, walk_chain s p depth l = Ok o ∧
    match o with
    | Some (i, _) => i ∈ l ∧ ∃ e, ncache s !! i = Some e ∧ p e = true
    | None => ∀ i e, i ∈ l → ncache s !! i = Some e → p e = false
    end.
Proof.
  intros Ht. revert depth. induction l as [|i l IH]; intros depth Hl; [exists None; split; [done|]; set_solver|]. cbn [walk_chain].
  destruct (live_entry _ _ _ Ht (Hl i ltac:(left))) as (vp & dp & name & cred & Ei & _). rewrite Ei. cbn [deref mbind res_bind].
  destruct (p _) eqn:Ep.
  - eexists. split; [done|]. simpl. split; [left|]. by eexists.
  - destruct (IH (S depth)) as (o & E & Ho); [intros; apply Hl; by right|]. exists o. split; [done|]. destruct o as [[j m]|].
    + destruct Ho as [Hj Ho]. split; [by right|done].
    + intros j e [->|Hj]%elem_of_cons Ej; [congruence|by eapply Ho].
Qed.

Lemma nc_match_key e dp name cred : nc_match e dp name (DNLC_HASH name dp) (Some cred) = true →
  nc_dp e = Some dp ∧ nc_name e = name ∧ nc_cred e = cred.
Proof. unfold nc_match. rewrite !andb_true_iff, !bool_decide_eq_true. tauto. Qed.

Lemma nc_match_any e dp name : nc_match e dp name (DNLC_HASH name dp) None = true → nc_dp e = Some dp ∧ nc_name e = name.
Proof. unfold nc_match. rewrite !andb_true_iff, !bool_decide_eq_true. tauto. Qed.

Lemma nc_match_intro vp dp name cred o : o = None ∨ o = Some cred →
  nc_match (MkNc (Some vp) (Some dp) name cred (DNLC_HASH name dp)) dp name (DNLC_HASH name dp) o = true.
Proof.
  intros Ho. unfold nc_match. cbn [nc_sig nc_dp nc_name nc_cred]. rewrite Z.eqb_refl, Nat.eqb_refl, !bool_decide_true by done.
  destruct Ho as [->| ->]; [done|]. by rewrite bool_decide_true.
Qed.

(** A live entry for the directory and name is in the chain of their hash. *)
Lemma live_in_bucket busy s l i e dp name : tab_ok busy s → nc_hash s !! nc_bucket s (DNLC_HASH name dp) = Some l → live s i e →
  nc_dp e = Some dp → nc_name e = name → i ∈ l ∧ ∃ vp, e = MkNc (Some vp) (Some dp) name (nc_cred e) (DNLC_HASH name dp).
Proof.
  intros Ht El [Hi Ei] Ed En. destruct (live_entry _ _ _ Ht Hi) as (vp & dp' & name' & cred & Ei' & l' & El' & Hl').
  rewrite Ei in Ei'. injection Ei' as ->. simpl in Ed, En. injection Ed as ->. subst name'. rewrite El in El'. injection El' as ->. eauto.
Qed.

Lemma search_ok busy s dp name cred : tab_ok busy s →
  ∃ o, dnlc_search s dp name (DNLC_HASH name dp) cred = Ok o ∧
    match o with
    | Some i => ∃ e, live s i e ∧ nc_match e dp name (DNLC_HASH name dp) cred = true
    | None => ∀ i e, live s i e → nc_dp e = Some dp → nc_name e = name → cred = None ∨ cred = Some (nc_cred e) → False
    end.
Proof.
  intros Ht. unfold dnlc_search. destruct (bucket_some _ _ (DNLC_HASH name dp) Ht) as [l El]. rewrite El. cbn [deref mbind res_bind].
  destruct (walk_chain_ok _ _ (λ e, nc_match e dp name (DNLC_HASH name dp) cred) 0 l Ht) as (o & -> & Ho); [intros; by eapply dn_chain_in|].
  cbn [mbind res_bind]. destruct o as [[i n]|]; (eexists; split; [done|]).
  - destruct Ho as (Hi & e & Ei & He). exists e. split; [split; [by eapply dn_chain_in|done]|done].
  - intros i e Hi Ed En Hc. destruct (live_in_bucket _ _ _ _ _ _ _ Ht El Hi Ed En) as (Hil & vp & Ee).
    specialize (Ho i e Hil (proj2 Hi)). simpl in Ho. rewrite Ee in Ho. rewrite nc_match_intro in Ho; [done|]. by destruct Hc; [left|right].
Qed.

Lemma names_None busy s dp name cred : tab_ok busy s →
  (∀ i e, live s i e → nc_dp e = Some dp → nc_name e = name → nc_cred e = cred → False) ↔ names s !! (dp, name, cred) = None.
Proof.
  intros Ht. split.
  - intros H. destruct (names s !! _) as [v|] eqn:E; [|done]. apply (names_spec _ _ _ _ Ht) in E as (i & e & Hi & (? & ? & ? & ?)%ent_kv_Some).
    exfalso. eauto.
  - intros E i e Hi Ed En Ec. destruct (live_entry _ _ _ Ht (proj1 Hi)) as (vp & dp' & name' & cred' & Ei & _). destruct Hi as [Hi Ee]. 
    assert (names s !! (dp, name, cred) = Some vp); [|congruence]. apply (names_spec _ _ _ _ Ht). exists i, e. split; [done|].
    apply ent_kv_Some. split_and!; try done. rewrite Ee in Ei. by injection Ei as ->.
Qed.

(** ** Entering *)

(** Credentials that the caller may enter: it holds them, or they are those of the kernel. *)
Definition usable (d : Z → Z) (cred : option Z) : Prop := ∀ c, cred = Some c → c = kcred ∨ 1 ≤ d c.

Lemma usable_exists ext d s c : cnt_ok ext d s → c = kcred ∨ 1 ≤ d c → is_Some (cs_cred (dn_cs s) !! c).
Proof.
  intros Hc. destruct (cs_cred (dn_cs s) !! c) eqn:E; [eauto|]. intros [->|Hd]; exfalso.
  - pose proof (ci_kcred _ _ (no_creds _ _ _ Hc)) as H. by rewrite E in H.
  - pose proof (ci_none _ _ (no_creds _ _ _ Hc) c E) as H. simpl in H. pose proof (cholds_nonneg s c). lia.
Qed.

Lemma held_exists ext d s v : cnt_ok ext d s → 1 ≤ ext v → is_Some (vnodes s !! v).
Proof. intros Hc Hv. destruct (vnodes s !! v) eqn:E; [eauto|]. pose proof (no_none _ _ _ Hc v E). lia. Qed.

Lemma hold_two ext e vp dp v : nc_vp e = Some vp → nc_dp e = Some dp → plus_at (plus_at ext dp 1) vp 1 v = with_ent ext e v.
Proof.
  intros Ev Ed. unfold plus_at, with_ent, ent_holds. rewrite Ev, Ed, !some_eq_comm. unfold b2z.
  repeat case_decide; repeat case_bool_decide; subst; try done; lia.
Qed.

(** The entry that was got is filled. *)
Lemma fill_hold_ok ext d busy s i dp name vp cred : dn_ok ext d ((i, None) :: busy) (forget i s) → 1 ≤ ext dp → 1 ≤ ext vp → usable d cred →
  let e := MkNc (Some vp) (Some dp) name cred (DNLC_HASH name dp) in
  ∃ s1 s2 s3, VN_HOLD dp s = Ok s1 ∧ VN_HOLD vp s1 = Ok s2 ∧ nc_crhold cred (set_ncache (<[i := e]> (ncache s2)) s2) = Ok s3 ∧
    dn_ok ext d ((i, Some e) :: busy) s3 ∧ names s3 = names (forget i s) ∧ ncsize s3 = ncsize s.
Proof.
  intros [Ht Hc] Hdp Hvp Hu e. set (m := <[i := nc_zero]> (ncache s)).
  destruct (VN_HOLD_ok _ _ _ dp Hc (held_exists _ _ _ _ Hc Hdp)) as (m1 & E1 & Hc1 & Hk1).
  destruct (VN_HOLD_ok _ _ _ vp Hc1) as (m2 & E2 & Hc2 & _); [apply Hk1; by eapply held_exists|].
  apply VN_HOLD_any in E1. change (set_vnodes m1 (forget i s)) with (set_ncache m (set_vnodes m1 s)) in E2. apply (VN_HOLD_any m _ (set_vnodes m1 s)) in E2.
  assert (cnt_ok (with_ent ext e) d (set_vnodes m2 (forget i s))) as Hc3 by (eapply cnt_ext_ext; [|exact Hc2]; intros; by apply hold_two).
  destruct (fill_ok ext d _ i nc_zero e Hc3) as (cs & E4 & Hc4); [apply lookup_insert_eq|done|apply (no_ext _ _ _ Hc)| |].
  { intros c Ec. eapply (usable_exists _ _ _ c Hc3). by apply Hu. }
  cbn [forget set_vnodes set_ncache ncache] in E4, Hc4. rewrite insert_insert_eq in E4, Hc4.
  eexists _, _, _. split; [exact E1|]. split; [exact E2|]. split; [exact E4|].
  destruct (tab_busy_entry _ _ i _ e Ht ) as [Ht' Hl']. cbn [forget set_ncache ncache] in Ht', Hl'. rewrite insert_insert_eq in Ht', Hl'.
  split; [split; [apply (tab_hand_know _ _ _ None e); [by apply (tab_cs _ _ cs), (tab_vnodes _ _ m2) in Ht'|apply lookup_insert_eq]|exact Hc4]|]. split; [|done].
  eapply names_live; [exact Ht|by apply (tab_cs _ _ cs), (tab_vnodes _ _ m2) in Ht'|]. intros j f. apply (Hl' j f).
Qed.

(** [m'] is [m] without at most one name. *)
Definition less_one (m m' : gmap nckey Z) : Prop := m' = m ∨ ∃ k v, m !! k = Some v ∧ m' = delete k m.

Lemma enter_begin_ok ext d busy s dp name vp cred : dn_ok ext d busy s → Z.of_nat (length name) ≤ NC_NAMLEN →
  1 ≤ ext dp → 1 ≤ ext vp → usable d cred →
  ∃ o s', enter_begin s dp name vp cred = Ok (o, s') ∧ ncsize s' = ncsize s ∧
    match o with
    | Some i => dn_ok ext d ((i, Some (MkNc (Some vp) (Some dp) name cred (DNLC_HASH name dp))) :: busy) s' ∧
      less_one (names s) (names s') ∧ (dnlc_freelist s ≠ [] → names s' = names s)
    | None => dn_ok ext d busy s' ∧ names s' = names s ∧ seqZ 0 (ncsize s) ≡ₚ busy.*1
    end.
Proof.
  intros Hok Hl Hdp Hvp Hu. unfold enter_begin. rewrite (to_on _ _ (proj1 Hok)). simpl. rewrite (proj2 (Z.ltb_ge _ _)) by done.
  destruct (dnlc_get_ok _ _ _ _ Hok) as (o & s1 & -> & Hsz & Ho). cbn [mbind res_bind]. destruct o as [i|]; [|by exists None, s1].
  destruct Ho as [Hok1 Hn]. destruct (fill_hold_ok _ _ _ _ _ dp name vp cred Hok1 Hdp Hvp Hu) as (s2 & s3 & s4 & -> & E3 & E4 & Hok4 & Hn4 & Hsz4).
  cbn [mbind res_bind]. rewrite E3. cbn [mbind res_bind]. rewrite E4. cbn [mbind res_bind]. exists (Some i), s4. split; [done|]. split; [congruence|].
  split; [done|]. rewrite Hn4. destruct Hn as [Hn|(Hf & k & v & Hk & Hn)]; (split; [|done]).
  - by left.
  - right. by exists k, v.
Qed.

(** Releases and credentials do not look at the table. *)
Lemma VN_RELE_any o s s' : VN_RELE o s = Ok s' → ∃ m, s' = set_vnodes m s ∧ ∀ t, vnodes t = vnodes s → VN_RELE o t = Ok (set_vnodes m t).
Proof.
  unfold VN_RELE. destruct o as [v|]; [|done]. cbn [deref mbind res_bind]. unfold vn_rele. destruct (vnodes s !! v) as [vn|] eqn:Ev; [|done].
  cbn [deref mbind res_bind]. destruct (v_count vn =? 0) eqn:E0; [done|]. destruct (v_count vn =? 1) eqn:E1; intros [= <-];
    (eexists; split; [done|]; intros t Et; rewrite Et, Ev; cbn [deref mbind res_bind]; by rewrite E0, E1).
Qed.

Lemma nc_crfree_any o s cs t : nc_crfree o s = Ok (set_dn_cs cs s) → dn_cs t = dn_cs s → nc_crfree o t = Ok (set_dn_cs cs t).
Proof.
  unfold nc_crfree. intros E Et. rewrite Et. destruct o as [c|].
  - destruct (crfree (dn_cs s) c); [|done..]. injection E as E. by subst.
  - injection E as E. apply (f_equal dn_cs) in E. simpl in E. rewrite <- E, <- Et. by destruct t.
Qed.

Lemma dup_enter_ok ext d busy s i x e vp dp : dn_ok ext d ((i, x) :: busy) s → ncache s !! i = Some e → nc_vp e = Some vp → nc_dp e = Some dp →
  ∃ s', (s ← vn_rele dp s; s ← vn_rele vp s; dnlc_free i s) = Ok s' ∧ dn_ok ext d busy s' ∧ ncsize s' = ncsize s ∧
    (∀ j f, live s' j f ↔ live s j f).
Proof.
  intros [Ht Hc] Ei Ev Ed. set (e' := MkNc None None (nc_name e) None (nc_sig e)).
  destruct (tab_busy_entry _ s i _ e' Ht ) as [Ht0 Hl0]. destruct (clear_ok ext d s i e e' Hc Ei) as (cs & Ecs & Hc0); [done|].
  destruct (release_ent ext d ((i, None) :: busy) (set_ncache (<[i := e']> (ncache s)) (set_dn_cs cs s)) e vp dp) as [_ (s3 & E3 & Hok3 & _)];
    [split; [by apply (tab_cs _ _ cs) in Ht0|exact Hc0]|apply (no_ext _ _ _ Hc)|done|done|]. rewrite Ev, Ed in E3.
  destruct (VN_RELE (Some dp) _) as [s1| |] eqn:E1; try done. cbn [mbind res_bind] in E3.
  apply VN_RELE_any in E1 as (m1 & -> & E1), E3 as (m2 & -> & E2). specialize (E1 s eq_refl). specialize (E2 (set_vnodes m1 s) eq_refl).
  change (vn_rele dp s) with (VN_RELE (Some dp) s). rewrite E1. cbn [mbind res_bind].
  change (vn_rele vp (set_vnodes m1 s)) with (VN_RELE (Some vp) (set_vnodes m1 s)). rewrite E2. cbn [mbind res_bind]. unfold dnlc_free. simpl. rewrite Ei. cbn [deref mbind res_bind].
  rewrite (nc_crfree_any _ _ _ (set_vnodes m2 (set_vnodes m1 s)) Ecs) by done. cbn [mbind res_bind]. eexists. split; [done|]. destruct Hok3 as [Ht3 Hc3].
  split; [split|split; [done|]].
  - apply (tab_free _ _ i _ e') in Ht3; [exact Ht3|apply lookup_insert_eq|done].
  - by eapply cnt_same; [..|exact Hc3].
  - intros j f. apply (Hl0 j f).
Qed.

(** The name is added unless it is there already: then the entry goes back to the free list. *)
Lemma enter_end_ok ext d busy s i dp name vp cred :
  dn_ok ext d ((i, Some (MkNc (Some vp) (Some dp) name cred (DNLC_HASH name dp))) :: busy) s →
  ∃ s', enter_end s i dp name vp cred = Ok s' ∧ dn_ok ext d busy s' ∧ ncsize s' = ncsize s ∧
    names s' = match names s !! (dp, name, cred) with Some _ => names s | None => <[(dp, name, cred) := vp]> (names s) end.
Proof.
  intros Hok. pose proof Hok as [Ht Hc]. pose proof (to_hand _ _ Ht _ _ ltac:(left)) as Ei. unfold enter_end.
  destruct (search_ok _ _ dp name (Some cred) Ht) as (o & -> & Ho). cbn [mbind res_bind]. destruct o as [j|].
  - destruct Ho as (f & Hj & (Fd & Fn & Fc)%nc_match_key). destruct (names s !! (dp, name, cred)) as [w|] eqn:E.
    + destruct (dup_enter_ok _ _ _ _ _ _ _ vp dp Hok Ei) as (s' & -> & Hok' & Hsz & Hl); [done|done|]. exists s'. split; [done|]. split; [done|]. split; [done|].
      eapply names_live; [exact Ht|apply Hok'|done].
    + exfalso. by eapply (proj2 (names_None _ _ _ _ _ Ht) E j f).
  - assert (names s !! (dp, name, cred) = None) as E by (apply (names_None _ _ _ _ _ Ht); intros j f Hj Fd Fn <-; eapply Ho; eauto). rewrite E.
    destruct (inshash_ok _ _ _ _ _ _ _ _ Ht Ei) as (s' & -> & (h & ->) & Ht' & Hl); [by apply (names_None _ _ _ _ _ Ht)|].
    eexists. split; [done|]. split; [split; [done|by eapply cnt_same; [..|exact Hc]]|]. split; [done|].
    eapply names_add; [exact Ht|exact Ht'| |done|exact Hl]. done.
Qed.

(** ** Lookup and removal *)

(** The lookup of the map: the vnode that is found is held once more. *)
Lemma lookup_ok ext d busy s dp name cred : dn_ok ext d busy s → Z.of_nat (length name) ≤ NC_NAMLEN →
  ∃ s', dnlc_lookup s dp name cred = Ok (names s !! (dp, name, cred), s') ∧ names s' = names s ∧ ncsize s' = ncsize s ∧
    dn_ok (match names s !! (dp, name, cred) with Some v => plus_at ext v 1 | None => ext end) d busy s'.
Proof.
  intros Hok Hlen. pose proof Hok as [Ht Hc]. unfold dnlc_lookup. rewrite (to_on _ _ Ht). simpl. rewrite (proj2 (Z.ltb_ge _ _)) by done.
  destruct (bucket_some _ _ (DNLC_HASH name dp) Ht) as [l El]. rewrite El. cbn [deref mbind res_bind].
  destruct (walk_chain_ok _ _ (λ e, nc_match e dp name (DNLC_HASH name dp) (Some cred)) 0 l Ht) as (o & -> & Ho); [intros; by eapply dn_chain_in|].
  cbn [mbind res_bind]. destruct o as [[i n]|].
  - destruct Ho as (Hi & e & Ei & (Ed & En & Ec)%nc_match_key).
    assert (live s i e) as Hli by (split; [by eapply dn_chain_in|done]).
    destruct (live_in_bucket _ _ _ _ _ _ _ Ht El Hli Ed En) as (_ & vp & Ee).
    assert (names s !! (dp, name, cred) = Some vp) as Hn.
    { apply (names_spec _ _ _ _ Ht). exists i, e. split; [done|]. apply ent_kv_Some. rewrite Ee at 4. done. }
    assert (∃ s1, (if (NC_MOVETOFRONT <? n)%nat then nc_move_to_front (nc_bucket s (DNLC_HASH name dp)) i s else Ok s) = Ok s1 ∧
      tab_ok busy s1 ∧ (∃ h, s1 = set_hash h s) ∧ (∀ j f, live s1 j f ↔ live s j f)) as (s1 & -> & Ht1 & [h ->] & Hl1).
    { case_if; [|by exists s; split_and!; [| |exists (nc_hash s); destruct s|]].
      destruct (front_ok _ _ _ _ _ Ht El Hi) as (s1 & E & Hh & Ht1 & Hl1). by exists s1. }
    cbn [mbind res_bind]. change (ncache (set_hash h s)) with (ncache s). rewrite Ei. cbn [deref mbind res_bind]. rewrite Ee. cbn [nc_vp deref mbind res_bind].
    assert (cnt_ok ext d (set_hash h s)) as Hc1 by (by eapply cnt_same; [..|exact Hc]).
    destruct (VN_HOLD_ok _ _ _ vp Hc1) as (m & -> & Hc2 & _); [eapply (no_ent _ _ _ Hc _ _ vp Ei); left; by rewrite Ee|].
    cbn [mbind res_bind]. rewrite Hn. eexists. split; [done|]. split; [|split; [done|]].
    + eapply names_live; [exact Ht|apply (tab_vnodes _ _ m Ht1)|]. intros j f. apply (Hl1 j f).
    + split; [by apply tab_vnodes|done].
  - assert (names s !! (dp, name, cred) = None) as ->.
    { apply (names_None _ _ _ _ _ Ht). intros i e Hi Ed En Ec. destruct (live_in_bucket _ _ _ _ _ _ _ Ht El Hi Ed En) as (Hil & vp & Ee).
      specialize (Ho i e Hil (proj2 Hi)). simpl in Ho. rewrite Ee, Ec in Ho. rewrite nc_match_intro in Ho; [done|by right]. }
    exists s. done.
Qed.

(** The names other than [name] in [dp]. *)
Definition not_named (dp : Z) (name : list Z) (x : nckey * Z) : Prop := ¬ (x.1.1.1 = dp ∧ x.1.1.2 = name).
#[export] Instance not_named_dec dp name x : Decision (not_named dp name x).
Proof. unfold not_named. apply _. Defined.

Lemma filter_delete_key (P : nckey * Z → Prop) `{∀ x, Decision (P x)} (m : gmap nckey Z) k v : m !! k = Some v → ¬ P (k, v) →
  filter P (delete k m) = filter P m.
Proof.
  intros Hk Hp. apply map_eq. intros k'. apply option_eq. intros w. rewrite !map_lookup_filter_Some, lookup_delete_Some.
  split; [tauto|]. intros [Hw HP]. split; [|done]. split; [|done]. intros <-. naive_solver.
Qed.

(** One turn takes a name of the directory out, or there is none. *)
Lemma remove_one_ok ext d busy s dp name : dn_ok ext d busy s →
  ∃ b s', remove_one s dp name (DNLC_HASH name dp) = Ok (b, s') ∧ dn_ok ext d busy s' ∧ ncsize s' = ncsize s ∧
    if (b : bool) then length (mjoin (nc_hash s)) = S (length (mjoin (nc_hash s'))) ∧ (∃ k v, names s !! k = Some v ∧ ¬ not_named dp name (k, v) ∧ names s' = delete k (names s))
    else s' = s ∧ ∀ k v, names s !! k = Some v → not_named dp name (k, v).
Proof.
  intros Hok. pose proof Hok as [Ht Hc]. unfold remove_one. destruct (search_ok _ _ dp name None Ht) as (o & -> & Ho). cbn [mbind res_bind]. destruct o as [i|].
  - destruct Ho as (e & Hi & (Ed & En)%nc_match_any). destruct Hi as [Hi Ei].
    destruct (live_entry _ _ _ Ht Hi) as (vp & dp' & name' & cred & Ei' & _). rewrite Ei in Ei'. injection Ei' as Ee.
    assert (ent_kv e = Some ((dp, name, nc_cred e), vp)) as Hk by (apply ent_kv_Some; rewrite Ee; subst e; simpl in *; naive_solver).
    rewrite Ei. cbn [deref mbind res_bind].
    destruct (evict_ok _ _ _ _ _ _ _ _ Hok (conj Hi Ei) Hk) as (s1 & E1 & Hok1 & Hn1 & Hl1 & Hlen & Hsz & _).
    destruct (nc_rmhash i s) as [sa| |]; try done. cbn [mbind res_bind] in *. destruct (dnlc_free i sa) as [sb| |]; try done. cbn [mbind res_bind] in *.
    destruct (VN_RELE (nc_vp e) sb) as [sc| |]; try done. cbn [mbind res_bind] in *. rewrite E1. cbn [mbind res_bind].
    exists true, s1. do 4 (split; [done|]). exists (dp, name, nc_cred e), vp. split; [apply (names_spec _ _ _ _ Ht); exists i, e; by split|].
    split; [unfold not_named; simpl; tauto|done].
  - exists false, s. do 4 (split; [done|]). intros [[dp' name'] cred] v Hv [Ed En]. simpl in Ed, En. subst.
    apply (names_spec _ _ _ _ Ht) in Hv as (i & e & Hi & (? & ? & ? & ?)%ent_kv_Some). eapply Ho; eauto.
Qed.

Lemma remove_loop_ok ext d busy fuel s dp name : dn_ok ext d busy s → (length (mjoin (nc_hash s)) < fuel)%nat →
  ∃ s', remove_loop fuel s dp name (DNLC_HASH name dp) = Ok s' ∧ dn_ok ext d busy s' ∧ ncsize s' = ncsize s ∧ names s' = filter (not_named dp name) (names s).
Proof.
  revert s. induction fuel as [|fuel IH]; intros s Hok Hf; [lia|]. cbn [remove_loop].
  destruct (remove_one_ok _ _ _ _ dp name Hok) as (b & s1 & -> & Hok1 & Hsz & Hb). cbn [mbind res_bind]. destruct b.
  - destruct Hb as (Hlen & k & v & Hk & Hnn & Hn1). destruct (IH s1 Hok1 ltac:(lia)) as (s' & -> & Hok' & Hsz' & Hn').
    exists s'. split; [done|]. split; [done|]. split; [congruence|]. rewrite Hn', Hn1. by eapply filter_delete_key.
  - destruct Hb as [-> Hno]. exists s. do 3 (split; [done|]). symmetry. apply map_filter_id. intros k v Hk. by apply Hno.
Qed.

Lemma chains_size busy s : tab_ok busy s → Z.of_nat (length (mjoin (nc_hash s))) ≤ ncsize s.
Proof.
  intros Ht. pose proof (Permutation_length (to_places _ _ Ht)) as H. rewrite !length_app, length_seqZ in H. 
  pose proof (to_purge _ _ Ht). lia.
Qed.

Lemma dn_remove_ok ext d busy s dp name : dn_ok ext d busy s → Z.of_nat (length name) ≤ NC_NAMLEN →
  ∃ s', dnlc_remove s dp name = Ok s' ∧ dn_ok ext d busy s' ∧ ncsize s' = ncsize s ∧ names s' = filter (not_named dp name) (names s).
Proof.
  intros Hok Hl. unfold dnlc_remove. rewrite (to_on _ _ (proj1 Hok)). cbn [negb]. rewrite (proj2 (Z.ltb_ge _ _)) by done.
  apply remove_loop_ok; [done|]. pose proof (chains_size _ _ (proj1 Hok)). lia.
Qed.
