(* ===== verification/DnlcPurge.v ===== *)
(** * Purges of the name cache

    A purge collects the vnodes of the entries it frees in [nc_rele], which has room for all
    of them, and releases them at the end. *)

From S2P Require Import Prelude Bitmap Upcount Cred CredProps CredInv Dnlc DnlcInv DnlcOps.

(** The holds that are to be released. *)
Definition pending (rele : list (option Z)) (v : Z) : Z := Z.of_nat (length (filter (λ o, o = Some v) rele)).

Lemma pending_two rele e vp dp v : nc_vp e = Some vp → nc_dp e = Some dp →
  pending (rele ++ [nc_vp e; nc_dp e]) v = pending rele v + ent_holds v e.
Proof.
  intros Ev Ed. unfold pending. rewrite list.filter_app, length_app, Ev, Ed, !filter_cons, filter_nil. unfold ent_holds. rewrite Ev, Ed. unfold b2z.
  repeat case_decide; repeat case_bool_decide; simpl; try congruence; lia.
Qed.

Lemma pending_nonneg rele v : 0 ≤ pending rele v.
Proof. unfold pending. lia. Qed.

(** [want] chooses entries by what they name, as long as the vnodes are as in [s0]. *)
Definition chooses (want : dnlc → ncent → res bool) (q : nckey * Z → bool) (s0 : dnlc) : Prop :=
  ∀ s i e k v, vnodes s = vnodes s0 → live s i e → ent_kv e = Some (k, v) → names s !! k = Some v → names s0 !! k = Some v → want s e = Ok (q (k, v)).

Section purge.
Context (ext d : Z → Z) (busy : hands) (want : dnlc → ncent → res bool) (stop : Z → bool) (q : nckey * Z → bool) (s0 : dnlc).
Hypothesis (Hq : chooses want q s0) (Hok0 : tab_ok busy s0).

(** A state of the purge: [n] names are gone, and their vnodes are in [rele]. *)
Record purging (n : Z) (rele : list (option Z)) (s : dnlc) : Prop := {
  pu_ok : dn_ok (λ v, ext v + pending rele v) d busy s;
  pu_vnodes : vnodes s = vnodes s0;
  pu_size : ncsize s = ncsize s0;
  pu_chains : length (nc_hash s) = length (nc_hash s0);
  pu_room : Z.of_nat (length rele) + 2 * Z.of_nat (length (mjoin (nc_hash s))) ≤ nc_rsize s0;
  pu_count : n + Z.of_nat (size (names s)) = Z.of_nat (size (names s0));
  pu_names : names s ⊆ names s0;
  pu_chosen k v : names s0 !! k = Some v → names s !! k = None → q (k, v) = true;
  pu_live i e : live s i e → live s0 i e;
  pu_some o : o ∈ rele → is_Some o
}.

(** The entries of [l] are done with. *)
Definition walked (l : list Z) (s : dnlc) : Prop := ∀ i e k v, i ∈ l → live s i e → ent_kv e = Some (k, v) → q (k, v) = false.

Lemma purge_walk_ok l n rele s : purging n rele s → (∀ i, i ∈ l → i ∈ mjoin (nc_hash s)) → NoDup l →
  ∃ n' rele' s', purge_walk want stop l n rele s = Ok (n', rele', s') ∧ purging n' rele' s' ∧ n ≤ n' ∧
    (∀ i e, live s' i e → live s i e) ∧ ((∀ m, n < m ≤ n' → stop m = false) → walked l s') ∧ (∀ m, n < m < n' → stop m = false).
Proof using Hq Hok0.
  revert n rele s. induction l as [|i l IH]; intros n rele s Hp Hl Hnd.
  { exists n, rele, s. split; [done|]. split; [done|]. split; [lia|]. split; [done|]. split; [|lia]. intros _ i e k v Hi. set_solver. }
  cbn [purge_walk]. apply list.NoDup_cons in Hnd as [Hnot Hnd]. pose proof Hp as [P1 P2 P3 P4 P5 P6 P7 P8 P9 P10]. pose proof P1 as [Ht Hc].
  destruct (live_entry _ _ _ Ht (Hl i ltac:(left))) as (vp & dp & name & cred & Ei & _). set (e := MkNc (Some vp) (Some dp) name cred (DNLC_HASH name dp)) in *.
  assert (live s i e) as Hi by (split; [apply Hl; left|done]). assert (ent_kv e = Some ((dp, name, cred), vp)) as Hk by done.
  assert (names s !! (dp, name, cred) = Some vp) as Hn by (apply (names_spec _ _ _ _ Ht); eauto).
  rewrite Ei. cbn [deref mbind res_bind]. rewrite (Hq s i e (dp, name, cred) vp) by (first [done|by eapply lookup_weaken]). cbn [mbind res_bind].
  destruct (q (dp, name, cred, vp)) eqn:Eq.
  - destruct (unhash_ok _ _ _ _ _ _ _ _ P1 Hi Hk) as (s1 & s2 & E1 & E2 & Hok2 & Hn2 & Hl2 & Hlen & Hlh & Hv2 & Hsz2 & _).
    unfold nc_rele_add. rewrite (proj2 (Z.ltb_lt _ _)) by (unfold nc_rsize in *; lia). cbn [mbind res_bind].
    rewrite (proj2 (Z.ltb_lt _ _)) by (unfold nc_rsize in *; rewrite length_app; simpl; lia). cbn [mbind res_bind]. rewrite E1. cbn [mbind res_bind].
    rewrite E2. cbn [mbind res_bind]. rewrite <- app_assoc. cbn [app].
    assert (purging (n + 1) (rele ++ [nc_vp e; nc_dp e]) s2) as Hp2.
    { split; try congruence.
      - eapply dn_ext; [|exact Hok2]. intros v. unfold with_ent. rewrite (pending_two _ _ vp dp) by done. lia.
      - rewrite length_app. simpl. lia.
      - rewrite Hn2, map_size_delete, Hn. assert (size (names s) ≠ 0)%nat by (apply map_size_non_empty_iff; intros E; by rewrite E in Hn). lia.
      - rewrite Hn2. etrans; [apply delete_subseteq|done].
      - intros k v Hk0. rewrite Hn2, lookup_delete_None. intros [<-|Hkn]; [|by eapply P8].
        assert (names s0 !! (dp, name, cred) = Some vp) by (by eapply lookup_weaken). naive_solver.
      - intros j f [Hj _]%Hl2. auto.
      - intros o [Ho|Ho]%elem_of_app; [auto|]. simpl in Ho. set_solver. }
    destruct (stop (n + 1)) eqn:Es.
    + exists (n + 1), (rele ++ [nc_vp e; nc_dp e]), s2. split; [done|]. split; [done|]. split; [lia|]. split; [intros j f [Hj _]%Hl2; done|].
      split; [|lia]. intros Hst. specialize (Hst (n + 1) ltac:(lia)). congruence.
    + destruct (IH (n + 1) (rele ++ [nc_vp e; nc_dp e]) s2 Hp2) as (n' & rele' & s' & E & Hp' & Hle & Hl' & Hw & Hm).
      { intros j Hj. destruct (live_entry _ _ j Ht (Hl j ltac:(by right))) as (vp' & dp' & name' & cred' & Ej & _). eapply proj1, Hl2.
        split; [split; [apply Hl; by right|exact Ej]|]. by intros ->. }
      { done. }
      exists n', rele', s'. split; [done|]. split; [done|]. split; [lia|]. split; [intros j f Hj; by apply Hl', Hl2 in Hj as [? _]|]. split.
      * intros Hst j f k v [->|Hj]%elem_of_cons Hlj Hkj; [apply Hl', Hl2 in Hlj as [_ ?]; done|]. eapply Hw; [|done..]. intros m Hm'. apply Hst. lia.
      * intros m Hm'. destruct (decide (m = n + 1)) as [->|]; [done|]. apply Hm. lia.
  - destruct (IH n rele s Hp) as (n' & rele' & s' & E & Hp' & Hle & Hl' & Hw & Hm); [intros; apply Hl; by right|done|].
    exists n', rele', s'. split; [done|]. split; [done|]. split; [done|]. split; [done|]. split; [|done].
    intros Hst j f k v [->|Hj]%elem_of_cons Hlj Hkj; [|by eapply Hw]. apply Hl' in Hlj. destruct Hi, Hlj. simplify_eq. done.
Qed.

(** The names of the chains [bs] are done with. *)
Definition chains_walked (bs : list nat) (s : dnlc) : Prop :=
  ∀ i e k v, live s i e → nc_bucket s0 (nc_sig e) ∈ bs → ent_kv e = Some (k, v) → q (k, v) = false.

Lemma purge_chains_ok bs n rele s : purging n rele s → (∀ b, b ∈ bs → (b < length (nc_hash s0))%nat) →
  ∃ n' rele' s', purge_chains want stop bs n rele s = Ok (n', rele', s') ∧ purging n' rele' s' ∧ n ≤ n' ∧
    (∀ i e, live s' i e → live s i e) ∧ ((∀ m, n < m ≤ n' → stop m = false) → chains_walked bs s').
Proof using Hq Hok0.
  revert n rele s. induction bs as [|b bs IH]; intros n rele s Hp Hb.
  { exists n, rele, s. split; [done|]. split; [done|]. split; [lia|]. split; [done|]. intros _ i e k v _ Hin. set_solver. }
  cbn [purge_chains]. unfold purge_chain. destruct (pu_ok _ _ _ Hp) as [Ht Hc].
  destruct (lookup_lt_is_Some_2 (nc_hash s) b) as [l El]; [rewrite (pu_chains _ _ _ Hp); apply Hb; left|]. rewrite El. cbn [deref mbind res_bind].
  destruct (purge_walk_ok l n rele s Hp) as (n1 & rele1 & s1 & -> & Hp1 & Hle1 & Hl1 & Hw1 & _).
  { intros i Hi. by eapply dn_chain_in. }
  { pose proof (tab_nodup _ _ Ht) as (Hnd & _)%list.NoDup_app. rewrite <- (take_drop_middle _ _ _ El), join_app, join_cons in Hnd.
    apply list.NoDup_app in Hnd as (_ & _ & Hnd). by apply list.NoDup_app in Hnd as (? & _). }
  cbn [mbind res_bind]. destruct (IH n1 rele1 s1 Hp1) as (n2 & rele2 & s2 & -> & Hp2 & Hle2 & Hl2 & Hw2); [intros; apply Hb; by right|].
  exists n2, rele2, s2. split; [done|]. split; [done|]. split; [lia|]. split; [auto|]. intros Hst i e k v Hi Hin Hk. apply elem_of_cons in Hin as [Eb|Hin].
  - apply Hw1 with i e; [intros; apply Hst; lia| |by apply Hl2|done]. apply Hl2, Hl1 in Hi. destruct (live_entry _ _ _ Ht (proj1 Hi)) as (vp & dp & name & cred & Ei & l' & El' & Hil).
    destruct Hi as [_ Ei']. rewrite Ei' in Ei. injection Ei as ->. cbn [nc_sig] in Eb. unfold nc_bucket in Eb, El'. rewrite (pu_chains _ _ _ Hp), Eb in El'. rewrite El in El'.
    by injection El' as ->.
  - eapply Hw2; [intros; apply Hst; lia|done..].
Qed.

Lemma release_all_ok rele s : dn_ok (λ v, ext v + pending rele v) d busy s → (∀ v, 0 ≤ ext v) → (∀ o, o ∈ rele → is_Some o) →
  ∃ s', release_all rele s = Ok s' ∧ dn_ok ext d busy s' ∧ same_table s s'.
Proof.
  clear. intros Hok H0. revert s Hok. induction rele as [|o rele IH]; intros s Hok Hs.
  { exists s. split; [done|]. split; [|done]. eapply dn_ext; [|exact Hok]. intros v. unfold pending. simpl. lia. }
  destruct (Hs o ltac:(left)) as [v ->]. cbn [release_all]. destruct (VN_RELE_ok _ _ _ _ v Hok) as (s1 & -> & Hok1 & Hs1 & _).
  { unfold pending. rewrite filter_cons_True by done. specialize (H0 v). simpl. lia. }
  cbn [mbind res_bind]. destruct (IH s1) as (s2 & -> & Hok2 & Hs2); [|intros; apply Hs; by right|].
  { eapply dn_ext; [|exact Hok1]. intros w. unfold plus_at, pending. rewrite filter_cons. repeat case_decide; simplify_eq; simpl; try congruence; lia. }
  exists s2. split; [done|]. split; [done|]. unfold same_table in *. intuition congruence.
Qed.
End purge.

Lemma start_purging ext d busy s q : dn_ok ext d busy s → purging ext d busy q s 0 [] s.
Proof.
  intros Hok. split; try done.
  - eapply dn_ext; [|exact Hok]. intros v. unfold pending. simpl. lia.
  - pose proof (chains_size _ _ (proj1 Hok)). unfold nc_rsize. simpl. lia.
  - intros k v E1 E2. congruence.
  - set_solver.
Qed.

(** A purge takes names that [q] chooses, and all of them unless it stops; their vnodes are
    released. *)
Lemma purge_with_ok ext d busy want stop q s : chooses want q s → dn_ok ext d busy s →
  ∃ n s', purge_with want stop s = Ok (n, s') ∧ dn_ok ext d busy s' ∧ ncsize s' = ncsize s ∧ 0 ≤ n ∧
    n + Z.of_nat (size (names s')) = Z.of_nat (size (names s)) ∧ names s' ⊆ names s ∧
    (∀ k v, names s !! k = Some v → names s' !! k = None → q (k, v) = true) ∧
    ((∀ m, 0 < m ≤ n → stop m = false) → names s' = filter (λ x, q x = false) (names s)).
Proof.
  intros Hq Hok. pose proof (start_purging ext d busy s q Hok) as Hp. unfold purge_with.
  destruct (purge_chains_ok ext d busy want stop q s Hq (proj1 Hok) (seq 0 (length (nc_hash s))) 0 [] s Hp) as (n & rele & s1 & -> & Hp1 & Hle & Hl & Hw).
  { intros b Hb%elem_of_seq. lia. }
  cbn [mbind res_bind]. destruct (release_all_ok ext d busy rele s1 (pu_ok _ _ _ _ _ _ _ _ Hp1) (no_ext _ _ _ (proj2 Hok)) (pu_some _ _ _ _ _ _ _ _ Hp1)) as (s2 & -> & Hok2 & Hs2).
  exists n, s2. split; [done|]. split; [done|]. rewrite (same_names _ _ Hs2). destruct Hs2 as (_ & _ & -> & _).
  split; [apply (pu_size _ _ _ _ _ _ _ _ Hp1)|]. split; [lia|]. split; [apply (pu_count _ _ _ _ _ _ _ _ Hp1)|]. split; [apply (pu_names _ _ _ _ _ _ _ _ Hp1)|].
  split; [apply (pu_chosen _ _ _ _ _ _ _ _ Hp1)|]. intros Hst. specialize (Hw Hst). destruct (pu_ok _ _ _ _ _ _ _ _ Hp1) as [Ht1 _].
  apply map_eq. intros k. apply option_eq. intros v. rewrite map_lookup_filter_Some. split.
  - intros E. split; [by eapply lookup_weaken; [|apply (pu_names _ _ _ _ _ _ _ _ Hp1)]|]. apply (names_spec _ _ _ _ Ht1) in E as (i & e & Hi & Hk).
    eapply Hw; [exact Hi| |exact Hk]. apply elem_of_seq. pose proof (bucket_lt _ _ (nc_sig e) (proj1 Hok)). lia.
  - intros [E Eq]. destruct (names s1 !! k) as [w|] eqn:E1.
    + pose proof (lookup_weaken _ _ _ _ E1 (pu_names _ _ _ _ _ _ _ _ Hp1)). congruence.
    + pose proof (pu_chosen _ _ _ _ _ _ _ _ Hp1 k v E E1). congruence.
Qed.

(** ** One chain of a purge that others come in between *)

(** The walk of a chain, with room in [nc_rele] for all that is in it. *)
Lemma purge_chain_walk ext d busy want stop q l n rele s : dn_ok (λ v, ext v + pending rele v) d busy s →
  (∀ s1 i e k v, vnodes s1 = vnodes s → live s1 i e → ent_kv e = Some (k, v) → names s !! k = Some v → want s1 e = Ok (q (k, v))) →
  (∀ i, i ∈ l → i ∈ mjoin (nc_hash s)) → NoDup l → Forall is_Some rele → Z.of_nat (length rele) + 2 * Z.of_nat (length l) ≤ nc_rsize s →
  ∃ n' rele' s', purge_walk want stop l n rele s = Ok (n', rele', s') ∧ dn_ok (λ v, ext v + pending rele' v) d busy s' ∧ Forall is_Some rele' ∧
    ncsize s' = ncsize s ∧ vnodes s' = vnodes s ∧ n ≤ n' ∧ (∀ j f, live s' j f → live s j f) ∧ names s' ⊆ names s ∧
    ((∀ m, n < m ≤ n' → stop m = false) → ∀ i e k v, i ∈ l → live s' i e → ent_kv e = Some (k, v) → q (k, v) = false).
Proof.
  revert n rele s. induction l as [|i l IH]; intros n rele s Hok Hq Hl Hnd Hs Hroom.
  { exists n, rele, s. do 8 (split; [done|]). intros _ i e k v Hi. by apply not_elem_of_nil in Hi. }
  cbn [purge_walk]. apply list.NoDup_cons in Hnd as [Hnot Hnd]. pose proof Hok as [Ht Hc].
  destruct (live_entry _ _ _ Ht (Hl i ltac:(left))) as (vp & dp & name & cred & Ei & _). set (e := MkNc (Some vp) (Some dp) name cred (DNLC_HASH name dp)) in *.
  assert (live s i e) as Hi by (split; [apply Hl; left|done]). assert (ent_kv e = Some ((dp, name, cred), vp)) as Hk by done.
  assert (names s !! (dp, name, cred) = Some vp) as Hn by (apply (names_spec _ _ _ _ Ht); eauto).
  rewrite Ei. cbn [deref mbind res_bind]. rewrite (Hq s i e (dp, name, cred) vp) by done. cbn [mbind res_bind]. cbn [length] in Hroom.
  destruct (q (dp, name, cred, vp)) eqn:Eq.
  - destruct (unhash_ok _ _ _ _ _ _ _ _ Hok Hi Hk) as (s1 & s2 & E1 & E2 & Hok2 & Hn2 & Hl2 & _ & _ & Hv2 & Hsz2 & _).
    unfold nc_rele_add. rewrite (proj2 (Z.ltb_lt _ _)) by lia. cbn [mbind res_bind].
    rewrite (proj2 (Z.ltb_lt _ _)) by (rewrite length_app; simpl; lia). cbn [mbind res_bind]. rewrite E1. cbn [mbind res_bind].
    rewrite E2. cbn [mbind res_bind]. rewrite <- app_assoc. cbn [app]. set (rele2 := rele ++ [nc_vp e; nc_dp e]).
    assert (dn_ok (λ v, ext v + pending rele2 v) d busy s2) as Hok2'.
    { eapply dn_ext; [|exact Hok2]. intros v. unfold with_ent, rele2. rewrite (pending_two _ _ vp dp) by done. lia. }
    assert (Forall is_Some rele2) as Hs2 by (apply list.Forall_app; split; [done|repeat constructor; by eexists]).
    assert (names s2 ⊆ names s) as Hsub by (rewrite Hn2; apply delete_subseteq). assert (∀ j f, live s2 j f → live s j f) as Hlv by (by intros j f [? _]%Hl2).
    destruct (stop (n + 1)) eqn:Es.
    + exists (n + 1), rele2, s2. do 5 (split; [done|]). split; [lia|]. do 2 (split; [done|]). intros Hst. specialize (Hst (n + 1) ltac:(lia)). congruence.
    + destruct (IH (n + 1) rele2 s2 Hok2') as (n' & rele' & s' & E & Hok' & Hs' & Hsz' & Hv' & Hle & Hl' & Hsub' & Hw); [ | |done|done| |].
      * intros s3 j f k v E3 Hj Hf Hkk. apply (Hq s3 j); [congruence|done|done|]. by eapply lookup_weaken.
      * intros j Hj. assert (j ∈ mjoin (nc_hash s)) as Hjs by (apply Hl; by right). destruct (live_entry _ _ _ Ht Hjs) as (? & ? & ? & ? & Ej & _).
        assert (j ≠ i) as Hji by (by intros ->). destruct (proj2 (Hl2 j _) (conj (conj Hjs Ej) Hji)) as [? _]. done.
      * unfold rele2. rewrite length_app. unfold nc_rsize in *. rewrite Hsz2. simpl. lia.
      * exists n', rele', s'. split; [done|]. split; [done|]. split; [done|]. split; [congruence|]. split; [congruence|]. split; [lia|].
        split; [auto|]. split; [by etrans|]. intros Hst j f k v [->|Hj]%elem_of_cons Hlj Hf.
        -- apply Hl' in Hlj. apply Hl2 in Hlj as [_ Hne]. done.
        -- eapply Hw; [|done..]. intros m Hm. apply Hst. lia.
  - destruct (IH n rele s) as (n' & rele' & s' & E & Hok' & Hs' & Hsz' & Hv' & Hle & Hl' & Hsub' & Hw); [done|done|intros; apply Hl; by right|done|done|lia|].
    exists n', rele', s'. do 8 (split; [done|]). intros Hst j f k v [->|Hj]%elem_of_cons Hlj Hf; [|by eapply Hw].
    apply Hl' in Hlj as [_ Ef]. rewrite Ei in Ef. injection Ef as <-. congruence.
Qed.

(** ** The purges *)

Lemma purge_ok ext d busy s : dn_ok ext d busy s →
  ∃ s', dnlc_purge s = Ok s' ∧ dn_ok ext d busy s' ∧ ncsize s' = ncsize s ∧ names s' = ∅.
Proof.
  intros Hok. unfold dnlc_purge. rewrite (to_on _ _ (proj1 Hok)). cbn [negb].
  destruct (purge_with_ok ext d busy want_all (λ _, false) (λ _, true) s) as (n & s' & -> & Hok' & Hsz & _ & _ & _ & _ & Hn); [done|done|].
  exists s'. split; [done|]. split; [done|]. split; [done|]. rewrite Hn by done. apply map_eq. intros k. rewrite lookup_empty.
  apply map_lookup_filter_None. right. intros v _. done.
Qed.

(** What [dnlc_purge_vp] takes. *)
Definition refers (vp : Z) (x : nckey * Z) : bool := bool_decide (x.1.1.1 = vp) || bool_decide (x.2 = vp).

Lemma purge_vp_ok ext d busy s vp : dn_ok ext d busy s →
  ∃ s', dnlc_purge_vp s vp = Ok s' ∧ dn_ok ext d busy s' ∧ ncsize s' = ncsize s ∧ names s' = filter (λ x, refers vp x = false) (names s).
Proof.
  intros Hok. unfold dnlc_purge_vp. rewrite (to_on _ _ (proj1 Hok)). cbn [negb].
  destruct (purge_with_ok ext d busy (want_vp vp) (λ _, false) (refers vp) s) as (n & s' & -> & Hok' & Hsz & _ & _ & _ & _ & Hn); [|done|].
  - intros s1 i e [[dp name] cred] v _ _ (Ed & _ & _ & Ev)%ent_kv_Some _ _. unfold want_vp, refers. rewrite Ed, Ev. simpl. f_equal.
    f_equal; apply bool_decide_ext; naive_solver.
  - exists s'. split; [done|]. split; [done|]. split; [done|]. by apply Hn.
Qed.

(** What [dnlc_purge_vfsp] takes. *)
Definition v_in_vfs (s : dnlc) (vfsp v : Z) : bool := match vnodes s !! v with Some vn => v_vfsp vn =? vfsp | None => false end.
Definition in_fs (s : dnlc) (vfsp : Z) (x : nckey * Z) : bool := v_in_vfs s vfsp x.1.1.1 || v_in_vfs s vfsp x.2.

Lemma purge_vfsp_ok ext d busy s vfsp count : dn_ok ext d busy s →
  ∃ n s', dnlc_purge_vfsp s vfsp count = Ok (n, s') ∧ dn_ok ext d busy s' ∧ ncsize s' = ncsize s ∧ 0 ≤ n ∧
    n + Z.of_nat (size (names s')) = Z.of_nat (size (names s)) ∧ names s' ⊆ names s ∧
    (∀ k v, names s !! k = Some v → names s' !! k = None → in_fs s vfsp (k, v) = true) ∧
    (count = 0 ∨ n < count → names s' = filter (λ x, in_fs s vfsp x = false) (names s)).
Proof.
  intros Hok. unfold dnlc_purge_vfsp. rewrite (to_on _ _ (proj1 Hok)). cbn [negb].
  destruct (purge_with_ok ext d busy (want_vfs vfsp) (λ n, negb (count =? 0) && (count <=? n)) (in_fs s vfsp) s) as (n & s' & -> & Hok' & Hsz & H0 & Hs & Hsub & Hc & Hn); [|done|].
  - intros s1 i e [[dp name] cred] v Ev1 Hi (Ed & _ & _ & Ev)%ent_kv_Some _ Hk. unfold want_vfs, in_fs, in_vfs, v_in_vfs. rewrite Ed, Ev, Ev1. simpl.
    apply (names_spec _ _ _ _ (proj1 Hok)) in Hk as (j & f & Hj & (Fd & _ & _ & Fv)%ent_kv_Some).
    destruct (no_ent _ _ _ (proj2 Hok) _ _ dp (proj2 Hj) ltac:(by right)) as [x Ex]. destruct (no_ent _ _ _ (proj2 Hok) _ _ v (proj2 Hj) ltac:(by left)) as [y Ey].
    rewrite Ex, Ey. simpl. by destruct (v_vfsp x =? vfsp).
  - exists n, s'. do 7 (split; [done|]). intros Hcn. apply Hn. intros m Hm. destruct (Z.eqb_spec count 0); [done|]. simpl. apply Z.leb_gt. lia.
Qed.

(** A vnode that [dnlc_fs_purge1] is to find. *)
Definition fs_purgeable (s : dnlc) (vop v : Z) : bool :=
  match vnodes s !! v with Some vn => (v_op vn =? vop) && negb (v_pages vn) && (v_count vn =? 1) | None => false end.

(** How many steps [i] is after [current]. *)
Definition ahead (n current i : Z) : Z := if current <=? i then i - current else i - current + n.

(** The test reads a vnode that the entry holds. *)
Lemma purgeable_ok ext d busy s vop i e : dn_ok ext d busy s → ncache s !! i = Some e →
  ∃ b, purgeable s vop e = Ok b ∧ ∀ v, nc_vp e = Some v → fs_purgeable s vop v = b.
Proof.
  intros [_ Hc] Ee. unfold purgeable, fs_purgeable. destruct (nc_vp e) as [v|] eqn:Ev; [|by exists false].
  destruct (no_ent _ _ _ Hc _ _ v Ee ltac:(by left)) as [vn Evn]. rewrite Evn. simpl. eexists. split; [done|]. intros w [= <-]. by rewrite Evn.
Qed.

Lemma purge1_take_ok ext d busy s vop current hash : dn_ok ext d busy s → 0 ≤ current < ncsize s →
  ∃ b s', purge1_take vop current hash s = Ok (b, s') ∧ dn_ok ext d busy s' ∧ ncsize s' = ncsize s ∧
    if (b : bool) then ∃ e k v, live s current e ∧ ent_kv e = Some (k, v) ∧ fs_purgeable s vop v = true ∧ names s' = delete k (names s) ∧ vnodes s' !! v = None
    else s' = s ∧ ∀ e k v, nc_sig e = hash → live s current e → ent_kv e = Some (k, v) → fs_purgeable s vop v = false.
Proof.
  intros Hok Hcur. pose proof Hok as [Ht Hc]. destruct (proj2 (to_dom _ _ Ht current) Hcur) as [e Ee]. unfold purge1_take. rewrite Ee. cbn [deref mbind res_bind].
  destruct (purgeable_ok ext d busy s vop current e Hok Ee) as (b & Eb & Hb).
  assert (∀ r, (r = true ↔ hash = nc_sig e ∧ current ∈ mjoin (nc_hash s)) → r && b = false → ∀ f k v, nc_sig f = hash → live s current f → ent_kv f = Some (k, v) → fs_purgeable s vop v = false) as Hno.
  { intros r Hr Hrb f [[dp name] cred] v Hf [Hi Ef] (_ & _ & _ & Ev)%ent_kv_Some. rewrite Ee in Ef. injection Ef as <-. rewrite (Hb v Ev). rewrite (proj2 Hr) in Hrb; [done|by split]. }
  destruct ((hash =? nc_sig e) && nc_hashed s current) eqn:Eh.
  2: { cbn [mbind res_bind]. exists false, s. do 4 (split; [done|]). apply (Hno false); [|done]. split; [done|]. intros [-> Hi%hashed_spec].
       by rewrite Z.eqb_refl, Hi in Eh. }
  rewrite Eb. cbn [mbind res_bind]. apply andb_true_iff in Eh as [Esig%Z.eqb_eq Hh%hashed_spec]. destruct b; [|exists false, s; do 4 (split; [done|]); by apply (Hno true)].
  destruct (live_entry _ _ _ Ht Hh) as (vp & dp & name & cred & Ei & _). rewrite Ee in Ei. injection Ei as Ei.
  assert (ent_kv e = Some ((dp, name, cred), vp)) as Hk by by subst e. assert (nc_vp e = Some vp) as Evp by by subst e.
  destruct (evict_ok _ _ _ _ _ _ _ _ Hok (conj Hh Ee) Hk) as (s1 & E1 & Hok1 & Hn1 & _ & _ & Hsz & Hho).
  destruct (nc_rmhash current s) as [sa| |]; try done. cbn [mbind res_bind] in *. destruct (dnlc_free current sa) as [sb| |]; try done. cbn [mbind res_bind] in *.
  destruct (VN_RELE (nc_vp e) sb) as [sc| |]; try done. cbn [mbind res_bind] in *. rewrite E1. cbn [mbind res_bind].
  eexists _, _. split; [done|]. split; [split; [apply tab_purge_rotor; [apply Hok1|]|by eapply cnt_same; [..|apply Hok1]]|].
  { unfold next_entry. rewrite Hsz. case_if; lia. }
  split; [done|]. exists e, (dp, name, cred), vp. specialize (Hb vp Evp). split; [by split|]. split; [done|]. split; [done|]. split; [done|].
  change (vnodes s1 !! vp = None). destruct (vnodes s1 !! vp) as [vn'|] eqn:E'; [|done]. exfalso.
  destruct (no_count _ _ _ (proj2 Hok1) _ _ E') as [H1 H2]. unfold fs_purgeable in Hb. destruct (vnodes s !! vp) as [vn|] eqn:Evn; [|done].
  destruct (no_count _ _ _ Hc _ _ Evn) as [H3 H4]. rewrite !andb_true_iff, Z.eqb_eq in Hb. destruct Hb as [_ Hb1].
  pose proof (with_ent_ge (λ _, 0) e vp ltac:(done) ltac:(by left)) as H5. unfold with_ent in H5. specialize (Hho vp). lia.
Qed.

Lemma fs_purge_loop_ok ext d busy vop finish fuel current s : dn_ok ext d busy s → 0 ≤ current < ncsize s → 0 ≤ finish < ncsize s →
  (if current =? finish then ncsize s else ahead (ncsize s) current finish) ≤ Z.of_nat fuel →
  ∃ r s', fs_purge_loop fuel vop finish current s = Ok (r, s') ∧ dn_ok ext d busy s' ∧ ncsize s' = ncsize s ∧
    ((r = 1 ∧ ∃ k v, names s !! k = Some v ∧ fs_purgeable s vop v = true ∧ names s' = delete k (names s) ∧ vnodes s' !! v = None) ∨
     (r = 0 ∧ s' = s ∧ ∀ i e k v, live s i e → ent_kv e = Some (k, v) →
        ahead (ncsize s) current i < (if current =? finish then ncsize s else ahead (ncsize s) current finish) → fs_purgeable s vop v = false)).
Proof.
  intros Hok Hcur Hfin. pose proof Hok as [Ht Hc]. revert current Hcur. induction fuel as [|fuel IH]; intros current Hcur Hf.
  { exfalso. unfold ahead in Hf. repeat case_if_in Hf; lia. }
  cbn [fs_purge_loop]. destruct (proj2 (to_dom _ _ Ht current) Hcur) as [e Ee]. rewrite Ee. cbn [deref mbind res_bind].
  destruct (purgeable_ok ext d busy s vop current e Hok Ee) as (b & -> & Hb). cbn [mbind res_bind]. set (next := next_entry s current).
  assert (0 ≤ next < ncsize s) as Hnext by (unfold next, next_entry; case_if; lia).
  assert (∃ taken s1, (if b then purge1_take vop current (nc_sig e) s else Ok (false, s)) = Ok (taken, s1) ∧ dn_ok ext d busy s1 ∧ ncsize s1 = ncsize s ∧
    if (taken : bool) then ∃ f k v, live s current f ∧ ent_kv f = Some (k, v) ∧ fs_purgeable s vop v = true ∧ names s1 = delete k (names s) ∧ vnodes s1 !! v = None
    else s1 = s ∧ ∀ k v, live s current e → ent_kv e = Some (k, v) → fs_purgeable s vop v = false) as (taken & s1 & -> & Hok1 & Hsz & Htk).
  { destruct b.
    - destruct (purge1_take_ok ext d busy s vop current (nc_sig e) Hok Hcur) as (taken & s1 & E & Hok1 & Hsz & Htk). exists taken, s1. do 3 (split; [done|]).
      destruct taken; [done|]. destruct Htk as [-> Htk]. split; [done|]. intros k v Hl Hk. by eapply Htk.
    - exists false, s. do 4 (split; [done|]). intros [[dp name] cred] v _ (_ & _ & _ & Ev)%ent_kv_Some. by apply Hb. }
  cbn [mbind res_bind]. destruct taken.
  - destruct Htk as (f & k & v & Hl & Hk & Hv & Hn & Hv'). eexists _, _. split; [done|]. split; [done|]. split; [done|]. left. split; [done|]. exists k, v.
    split; [apply (names_spec _ _ _ _ Ht); by exists current, f|done].
  - destruct Htk as [-> Hno]. fold next. cbv zeta. destruct (Z.eqb_spec next finish) as [Enf|Hne].
    + exists 0, s. split; [done|]. split; [done|]. split; [done|]. right. split; [done|]. split; [done|]. intros i f k v Hi Hk Ha.
      destruct (decide (i = current)) as [->|Hni]; [destruct Hi as [Hi Ei]; rewrite Ee in Ei; injection Ei as <-; by eapply Hno|]. exfalso.
      assert (0 ≤ i < ncsize s) as Hi' by (apply (to_dom _ _ Ht); destruct Hi as [_ ->]; by eexists).
      unfold ahead, next, next_entry in *. repeat case_if_in Ha; repeat case_if_in Enf; lia.
    + destruct (IH next Hnext) as (r & s' & E & Hok' & Hsz' & Hr).
      { rewrite (proj2 (Z.eqb_neq _ _)) by done. unfold ahead, next, next_entry in *. repeat case_if_in Hf; repeat case_if; lia. }
      exists r, s'. split; [done|]. split; [done|]. split; [done|]. destruct Hr as [Hr|(-> & -> & Hr)]; [by left|]. right. split; [done|]. split; [done|].
      intros i f k v Hi Hk Ha. destruct (decide (i = current)) as [->|Hni]; [destruct Hi as [Hi Ei]; rewrite Ee in Ei; injection Ei as <-; by eapply Hno|].
      assert (0 ≤ i < ncsize s) as Hi' by (apply (to_dom _ _ Ht); destruct Hi as [_ ->]; by eexists).
      apply (Hr i f k v Hi Hk). rewrite (proj2 (Z.eqb_neq _ _)) by done. unfold ahead, next, next_entry in *. repeat case_if_in Ha; repeat case_if; lia.
Qed.

Lemma fs_purge1_ok ext d busy s vop : dn_ok ext d busy s →
  ∃ r s', dnlc_fs_purge1 s vop = Ok (r, s') ∧ dn_ok ext d busy s' ∧ ncsize s' = ncsize s ∧
    ((r = 1 ∧ ∃ k v, names s !! k = Some v ∧ fs_purgeable s vop v = true ∧ names s' = delete k (names s) ∧ vnodes s' !! v = None) ∨
     (r = 0 ∧ s' = s ∧ ∀ k v, names s !! k = Some v → fs_purgeable s vop v = false)).
Proof.
  intros Hok. pose proof Hok as [Ht Hc]. unfold dnlc_fs_purge1. rewrite (to_on _ _ Ht). cbn [negb]. pose proof (to_purge _ _ Ht) as Hr.
  destruct (fs_purge_loop_ok ext d busy vop (dnlc_purge_rotor s) (Z.to_nat (ncsize s)) (dnlc_purge_rotor s) s Hok Hr Hr) as (r & s' & E & Hok' & Hsz & Ho).
  { rewrite Z.eqb_refl. lia. }
  exists r, s'. split; [done|]. split; [done|]. split; [done|]. destruct Ho as [Ho|(-> & -> & Ho)]; [by left|]. right. split; [done|]. split; [done|].
  intros k v Hk. apply (names_spec _ _ _ _ Ht) in Hk as (i & e & Hi & Hk). eapply (Ho i e); [done..|]. rewrite Z.eqb_refl.
  assert (0 ≤ i < ncsize s) as Hi' by (apply (to_dom _ _ Ht); destruct Hi as [_ ->]; by eexists). unfold ahead. case_if; lia.
Qed.

Lemma iter_walk_ok ext d busy func l s : dn_ok ext d busy s → (∀ i, i ∈ l → i ∈ mjoin (nc_hash s)) →
  ∃ o, iter_walk func l s = Ok o ∧
    match o with
    | Some s' => dn_ok ext d busy s' ∧ ncsize s' = ncsize s ∧ ∃ i e k v, live s i e ∧ ent_kv e = Some (k, v) ∧ func e = true ∧ names s' = delete k (names s)
    | None => ∀ i e, i ∈ l → live s i e → func e = false
    end.
Proof.
  intros Hok. pose proof Hok as [Ht Hc]. induction l as [|i l IH]; intros Hl; [exists None; split; [done|]; set_solver|]. cbn [iter_walk].
  destruct (live_entry _ _ _ Ht (Hl i ltac:(left))) as (vp & dp & name & cred & Ei & _). rewrite Ei. cbn [deref mbind res_bind].
  set (e := MkNc (Some vp) (Some dp) name cred (DNLC_HASH name dp)) in *. assert (live s i e) as Hi by (split; [apply Hl; left|done]).
  rewrite bool_decide_true by by eexists. rewrite andb_true_l. destruct (func e) eqn:Ef.
  - destruct (evict_ok _ _ _ _ _ _ (dp, name, cred) vp Hok Hi eq_refl) as (s1 & E1 & Hok1 & Hn1 & _ & _ & Hsz & _).
    destruct (nc_rmhash i s) as [sa| |]; try done. cbn [mbind res_bind] in *. destruct (dnlc_free i sa) as [sb| |]; try done. cbn [mbind res_bind] in *.
    destruct (VN_RELE (nc_vp e) sb) as [sc| |]; try done. cbn [mbind res_bind] in *. rewrite E1. cbn [mbind res_bind].
    exists (Some s1). split; [done|]. split; [done|]. split; [done|]. by exists i, e, (dp, name, cred), vp.
  - destruct IH as (o & E & Ho); [intros; apply Hl; by right|]. exists o. split; [done|]. destruct o; [done|].
    intros j f [->|Hj]%elem_of_cons Hlj; [|by eapply Ho]. destruct Hi, Hlj. naive_solver.
Qed.

Lemma iter_chains_ok ext d busy func bs s : dn_ok ext d busy s → (∀ b, b ∈ bs → (b < length (nc_hash s))%nat) →
  ∃ r s', iter_chains func bs s = Ok (r, s') ∧ dn_ok ext d busy s' ∧ ncsize s' = ncsize s ∧
    ((r = 1 ∧ ∃ i e k v, live s i e ∧ ent_kv e = Some (k, v) ∧ func e = true ∧ names s' = delete k (names s)) ∨
     (r = 0 ∧ s' = s ∧ ∀ b l i e, b ∈ bs → nc_hash s !! b = Some l → i ∈ l → live s i e → func e = false)).
Proof.
  intros Hok. induction bs as [|b bs IH]; intros Hb; [exists 0, s; split_and!; try done; right; split_and!; try done; set_solver|]. cbn [iter_chains].
  destruct (lookup_lt_is_Some_2 (nc_hash s) b) as [l El]; [apply Hb; left|]. rewrite El. cbn [deref mbind res_bind].
  destruct (iter_walk_ok ext d busy func l s Hok) as (o & -> & Ho); [intros; by eapply dn_chain_in|]. cbn [mbind res_bind]. destruct o as [s1|].
  - destruct Ho as (H1 & H2 & H3). exists 1, s1. split_and!; try done. by left.
  - destruct IH as (r & s' & -> & Hok' & Hsz & Hr); [intros; apply Hb; by right|]. exists r, s'. split; [done|]. split; [done|]. split; [done|].
    destruct Hr as [Hr|(-> & -> & Hr)]; [by left|]. right. split; [done|]. split; [done|]. intros b' l' i e [->|Hb']%elem_of_cons El' Hi Hli; [|by eapply Hr].
    rewrite El in El'. injection El' as <-. by eapply Ho.
Qed.

Lemma iter_purge_ok ext d busy s func : dn_ok ext d busy s →
  ∃ r s', dnlc_iter_purge s func = Ok (r, s') ∧ dn_ok ext d busy s' ∧ ncsize s' = ncsize s ∧
    ((r = 1 ∧ ∃ i e k v, live s i e ∧ ent_kv e = Some (k, v) ∧ func e = true ∧ names s' = delete k (names s)) ∨
     (r = 0 ∧ s' = s ∧ ∀ i e, live s i e → func e = false)).
Proof.
  intros Hok. unfold dnlc_iter_purge. rewrite (to_on _ _ (proj1 Hok)). cbn [negb].
  destruct (iter_chains_ok ext d busy func (seq 0 (length (nc_hash s))) s Hok) as (r & s' & E & Hok' & Hsz & Hr); [intros b Hb%elem_of_seq; lia|].
  exists r, s'. split; [done|]. split; [done|]. split; [done|]. destruct Hr as [Hr|(-> & -> & Hr)]; [by left|]. right. split; [done|]. split; [done|].
  intros i e [Hi Ei]. destruct (in_chain _ _ Hi) as (b & l & El & Hil). eapply (Hr b l i e); [|done|done|done].
  apply elem_of_seq. pose proof (lookup_lt_Some _ _ _ El). lia.
Qed.
