(* ===== verification/DnlcThms.v ===== *)
(** * Theorems on the name cache

    The calls of several threads, with those that wait for a lock; then what holds of every
    state that they reach.  The last part has runs that the theorems apply to, and those in
    which the code goes wrong. *)

From S2P Require Import Prelude Bitmap Upcount Cred CredProps CredInv CredOps CredEdge Dnlc DnlcInv DnlcOps DnlcPurge.

(** A [dnlc_enter] that waits for the lock of the chain. *)
Record flight := MkFl { fl_ent : Z; fl_dp : Z; fl_name : list Z; fl_vp : Z; fl_cred : option Z }.

Definition fl_full (f : flight) : ncent := MkNc (Some (fl_vp f)) (Some (fl_dp f)) (fl_name f) (fl_cred f) (DNLC_HASH (fl_name f) (fl_dp f)).
Definition fl_key (f : flight) : nckey := (fl_dp f, fl_name f, fl_cred f).

(** What changed the names, for [stands]. *)
Inductive event :=
  | EInsert (k : nckey) (v : Z)
  | ERemove (dp : Z) (name : list Z)
  | EPurge
  | EPurgeVp (vp : Z)
  | EPurgeVfs (inside : Z → bool)
  | EGone (q : nckey * Z → bool).

(** The history has the latest event first. *)
Fixpoint stands (h : list event) (k : nckey) (v : Z) : bool :=
  match h with
  | [] => false
  | EInsert k' v' :: h => (bool_decide (k' = k) && (v' =? v)) || stands h k v
  | ERemove dp name :: h => bool_decide (not_named dp name (k, v)) && stands h k v
  | EPurge :: h => false
  | EPurgeVp vp :: h => negb (refers vp (k, v)) && stands h k v
  | EPurgeVfs inside :: h => negb (inside k.1.1 || inside v) && stands h k v
  | EGone q :: h => negb (q (k, v)) && stands h k v
  end.

(** A purge that holds [nc_rele_lock]: what it wants, the chain it comes to, how many names it has
    taken and what is in [nc_rele]. *)
Inductive pkind := PAll | PVp (vp : Z) | PVfs (vfsp count : Z).
Record purge := MkPg { pg_kind : pkind; pg_next : nat; pg_n : Z; pg_rele : list (option Z) }.

Definition pk_want (k : pkind) : dnlc → ncent → res bool :=
  match k with PAll => want_all | PVp vp => want_vp vp | PVfs vfsp _ => want_vfs vfsp end.
Definition pk_stop (k : pkind) (n : Z) : bool :=
  match k with PVfs _ count => negb (count =? 0) && (count <=? n) | _ => false end.
Definition pk_chosen (k : pkind) (s : dnlc) (x : nckey * Z) : bool :=
  match k with PAll => true | PVp vp => refers vp x | PVfs vfsp _ => in_fs s vfsp x end.

(** The names of the chain [b]. *)
Definition in_chain_b (s : dnlc) (b : nat) (x : nckey * Z) : bool := (nc_bucket s (DNLC_HASH x.1.1.2 x.1.1.1) =? b)%nat.

(** A [dnlc_fs_purge1]: the entry it looks at, and its [hash] if it has passed the test that is made
    without the lock. *)
Record scan := MkSc { sc_vop : Z; sc_finish : Z; sc_current : Z; sc_hash : option Z }.

(** The holds of others, the waiting calls, the history, and the purge and scans under way. *)
Record nst := MkNst { n_ext : Z → Z; n_d : Z → Z; n_fly : gmap Z flight; n_hist : list event; n_s : dnlc; n_purge : option purge; n_scan : gmap Z scan }.

Definition with_s (st : nst) (s : dnlc) : nst := MkNst (n_ext st) (n_d st) (n_fly st) (n_hist st) s (n_purge st) (n_scan st).
Definition with_event (st : nst) (e : event) (s : dnlc) : nst := MkNst (n_ext st) (n_d st) (n_fly st) (e :: n_hist st) s (n_purge st) (n_scan st).
Definition with_ext (st : nst) (ext : Z → Z) (s : dnlc) : nst := MkNst ext (n_d st) (n_fly st) (n_hist st) s (n_purge st) (n_scan st).
Definition with_d (st : nst) (d : Z → Z) (s : dnlc) : nst := MkNst (n_ext st) d (n_fly st) (n_hist st) s (n_purge st) (n_scan st).
Definition with_purge (st : nst) (p : option purge) (s : dnlc) : nst := MkNst (n_ext st) (n_d st) (n_fly st) (n_hist st) s p (n_scan st).
Definition with_scan (st : nst) (m : gmap Z scan) (s : dnlc) : nst := MkNst (n_ext st) (n_d st) (n_fly st) (n_hist st) s (n_purge st) m.

Inductive nop :=
  | NEnter (t dp : Z) (name : list Z) (vp : Z) (cred : option Z)
  | NInsert (t : Z)
  | NLookup (dp : Z) (name : list Z) (cred : option Z)
  | NRemove (dp : Z) (name : list Z)
  | NPurge
  | NPurgeVp (vp : Z)
  | NPurgeVfs (vfsp count : Z)
  | NFsPurge (vop : Z)
  | NIter (func : ncent → bool)
  | NRemoveOne (dp : Z) (name : list Z)
  | NPurgeBegin (k : pkind)
  | NPurgeStep
  | NIterChain (func : ncent → bool) (b : nat)
  | NScanBegin (t vop : Z)
  | NScanStep (t : Z)
  | NNewVnode (v vop vfsp : Z)
  | NHold (v : Z)
  | NRele (v : Z)
  | NPages (v : Z) (pages : bool)
  | NCrHold (c : Z)
  | NCrFree (c : Z).

(** A purge at a chain, which it has the lock of, or at the end. *)
Definition purge_step (st : nst) : res (option Z * nst) :=
  let s := n_s st in
  p ← deref (n_purge st);
  if (pg_next p <? length (nc_hash s))%nat then
    '(n, rele, s') ← purge_chain (pk_want (pg_kind p)) (pk_stop (pg_kind p)) (pg_next p) (pg_n p) (pg_rele p) s;
    let st := if pk_stop (pg_kind p) n then with_s st s'
              else with_event st (EGone (λ x, in_chain_b s (pg_next p) x && pk_chosen (pg_kind p) s x)) s' in
    Ok (None, with_purge st (Some (MkPg (pg_kind p) (S (pg_next p)) n rele)) s')
  else
    match pg_rele p with
    | v :: rele => s ← VN_RELE v s; Ok (None, with_purge st (Some (MkPg (pg_kind p) (pg_next p) (pg_n p) rele)) s)
    | [] => Ok (Some (pg_n p), with_purge st None s)
    end.

(** A [dnlc_fs_purge1] at an entry, without and then with the lock. *)
Definition scan_next (st : nst) (t : Z) (c : scan) (s : dnlc) : option Z * nst :=
  let current := next_entry s (sc_current c) in
  if current =? sc_finish c then (Some 0, with_scan st (delete t (n_scan st)) s)
  else (None, with_scan st (<[t := MkSc (sc_vop c) (sc_finish c) current None]> (n_scan st)) s).

Definition scan_step (st : nst) (t : Z) : res (option Z * nst) :=
  let s := n_s st in
  c ← deref (n_scan st !! t);
  match sc_hash c with
  | None =>
    e ← deref (ncache s !! sc_current c);
    b ← purgeable s (sc_vop c) e;
    Ok (if (b : bool) then (None, with_scan st (<[t := MkSc (sc_vop c) (sc_finish c) (sc_current c) (Some (nc_sig e))]> (n_scan st)) s)
        else scan_next st t c s)
  | Some hash =>
    '(taken, s) ← purge1_take (sc_vop c) (sc_current c) hash s;
    Ok (if (taken : bool) then (Some 1, with_scan st (delete t (n_scan st)) s) else scan_next st t c s)
  end.

(** The answer is the vnode that a lookup found, or the number that a purge returns.  [dnlc_remove]
    and the purges are there as calls of their own, and as what they do between two locks. *)
Definition do_nop (st : nst) (o : nop) : res (option Z * nst) :=
  let s := n_s st in
  match o with
  | NEnter t dp name vp cred =>
    '(o, s) ← enter_begin s dp name vp cred;
    match o with
    | Some i => Ok (None, MkNst (n_ext st) (n_d st) (<[t := MkFl i dp name vp cred]> (n_fly st)) (n_hist st) s (n_purge st) (n_scan st))
    | None => Ok (None, with_s st s)
    end
  | NInsert t =>
    f ← deref (n_fly st !! t);
    s ← enter_end s (fl_ent f) (fl_dp f) (fl_name f) (fl_vp f) (fl_cred f);
    Ok (None, MkNst (n_ext st) (n_d st) (delete t (n_fly st)) (EInsert (fl_key f) (fl_vp f) :: n_hist st) s (n_purge st) (n_scan st))
  | NLookup dp name cred =>
    '(o, s) ← dnlc_lookup s dp name cred;
    Ok (o, with_ext st (match o with Some v => plus_at (n_ext st) v 1 | None => n_ext st end) s)
  | NRemove dp name => s ← dnlc_remove s dp name; Ok (None, if Z.of_nat (length name) <=? NC_NAMLEN then with_event st (ERemove dp name) s else with_s st s)
  | NPurge => s ← dnlc_purge s; Ok (None, with_event st EPurge s)
  | NPurgeVp vp => s ← dnlc_purge_vp s vp; Ok (None, with_event st (EPurgeVp vp) s)
  | NPurgeVfs vfsp count =>
    '(n, s') ← dnlc_purge_vfsp s vfsp count;
    Ok (Some n, if (count =? 0) || (n <? count) then with_event st (EPurgeVfs (v_in_vfs s vfsp)) s' else with_s st s')
  | NFsPurge vop => '(r, s) ← dnlc_fs_purge1 s vop; Ok (Some r, with_s st s)
  | NIter func => '(r, s) ← dnlc_iter_purge s func; Ok (Some r, with_s st s)
  | NRemoveOne dp name =>
    '(b, s) ← remove_one s dp name (DNLC_HASH name dp); Ok (None, if (b : bool) then with_s st s else with_event st (ERemove dp name) s)
  | NPurgeBegin k => Ok (None, with_purge st (Some (MkPg k 0 0 [])) s)
  | NPurgeStep => purge_step st
  | NIterChain func b => l ← deref (nc_hash s !! b); o ← iter_walk func l s; Ok (match o with Some s => (Some 1, with_s st s) | None => (None, st) end)
  | NScanBegin t vop => Ok (None, with_scan st (<[t := MkSc vop (dnlc_purge_rotor s) (dnlc_purge_rotor s) None]> (n_scan st)) s)
  | NScanStep t => scan_step st t
  | NNewVnode v vop vfsp =>
    Ok (None, with_ext st (plus_at (n_ext st) v 1) (set_vnodes (<[v := MkVn 1 vop vfsp false]> (vnodes s)) s))
  | NHold v => s ← VN_HOLD v s; Ok (None, with_ext st (plus_at (n_ext st) v 1) s)
  | NRele v => s ← vn_rele v s; Ok (None, with_ext st (plus_at (n_ext st) v (-1)) s)
  | NPages v pages =>
    vn ← deref (vnodes s !! v);
    Ok (None, with_s st (set_vnodes (<[v := MkVn (v_count vn) (v_op vn) (v_vfsp vn) pages]> (vnodes s)) s))
  | NCrHold c => cs ← crhold (dn_cs s) c; Ok (None, with_d st (plus_at (n_d st) c 1) (set_dn_cs cs s))
  | NCrFree c => cs ← crfree (dn_cs s) c; Ok (None, with_d st (plus_at (n_d st) c (-1)) (set_dn_cs cs s))
  end.

(** What callers are to keep: they hold the vnodes and credentials that they enter, and release
    what they hold.  And one purge is at work at a time, and finds room in [nc_rele] for the chain
    that it comes to. *)
Definition may_nop (st : nst) (o : nop) : Prop :=
  match o with
  | NEnter t dp name vp cred => n_fly st !! t = None ∧ 1 ≤ n_ext st dp ∧ 1 ≤ n_ext st vp ∧ usable (n_d st) cred
  | NInsert t => is_Some (n_fly st !! t)
  | NPurge | NPurgeVp _ | NPurgeVfs _ _ | NPurgeBegin _ => n_purge st = None
  | NPurgeStep => ∃ p, n_purge st = Some p ∧
      ∀ l, nc_hash (n_s st) !! pg_next p = Some l → Z.of_nat (length (pg_rele p)) + 2 * Z.of_nat (length l) ≤ nc_rsize (n_s st)
  | NIterChain _ b => (b < length (nc_hash (n_s st)))%nat
  | NScanBegin t _ => n_scan st !! t = None
  | NScanStep t => is_Some (n_scan st !! t)
  | NNewVnode v _ _ => vnodes (n_s st) !! v = None
  | NHold v | NPages v _ => is_Some (vnodes (n_s st) !! v)
  | NRele v => 1 ≤ n_ext st v
  | NCrHold c => is_Some (cs_cred (dn_cs (n_s st)) !! c)
  | NCrFree c => is_Some (cs_cred (dn_cs (n_s st)) !! c) ∧ low c ≤ n_d st c - 1
  | _ => True
  end.

Definition hand (f : flight) : Z * option ncent := (fl_ent f, Some (fl_full f)).
Definition hand_list (fly : gmap Z flight) : hands := (λ x, hand x.2) <$> map_to_list fly.

(** What others and [nc_rele] hold. *)
Definition n_rele (st : nst) : list (option Z) := match n_purge st with Some p => pg_rele p | None => [] end.
Definition n_held (st : nst) (v : Z) : Z := n_ext st v + pending (n_rele st) v.

Record calls_ok (st : nst) : Prop := {
  ca_ext v : 0 ≤ n_ext st v;
  ca_rele : Forall is_Some (n_rele st);
  ca_scan t c : n_scan st !! t = Some c → 0 ≤ sc_current c < ncsize (n_s st)
}.

(** The invariant, and that every name stands. *)
Definition nst_ok (st : nst) : Prop :=
  dn_ok (n_held st) (n_d st) (hand_list (n_fly st)) (n_s st) ∧ (∀ k v, names (n_s st) !! k = Some v → stands (n_hist st) k v = true) ∧ calls_ok st.

Lemma dn_perm ext d b1 b2 s : b1 ≡ₚ b2 → dn_ok ext d b1 s → dn_ok ext d b2 s.
Proof.
  intros Hp [[T1 T2 T3 T4 T5 T6 T7 T8 T9 T10] Hc]. split; [|done]. split; try done.
  - by rewrite <- T3, Hp.
  - intros i e. rewrite <- Hp. apply T10.
Qed.

Lemma hand_insert fly t f : fly !! t = None → hand_list (<[t := f]> fly) ≡ₚ hand f :: hand_list fly.
Proof. intros E. unfold hand_list. by rewrite map_to_list_insert. Qed.

Lemma hand_delete fly t f : fly !! t = Some f → hand_list fly ≡ₚ hand f :: hand_list (delete t fly).
Proof. intros E. unfold hand_list. by rewrite <- (map_to_list_delete _ _ _ E). Qed.

Lemma less_one_sub m m' : less_one m m' → m' ⊆ m.
Proof. intros [->|(k & v & _ & ->)]; [done|apply delete_subseteq]. Qed.

(** Steps that take names away at most. *)
Lemma nst_sub st s : nst_ok st → dn_ok (n_held st) (n_d st) (hand_list (n_fly st)) s → names s ⊆ names (n_s st) → ncsize s = ncsize (n_s st) →
  nst_ok (with_s st s).
Proof.
  intros (_ & Hs & [C1 C2 C3]) Hok Hsub Hsz. split; [done|]. split; [intros k v Hk; apply Hs; by eapply lookup_weaken|]. split; [done|done|]. simpl. rewrite Hsz. done.
Qed.

Lemma nst_event st e s : nst_ok st → dn_ok (n_held st) (n_d st) (hand_list (n_fly st)) s →
  (∀ k v, names s !! k = Some v → stands (n_hist st) k v = true → stands (e :: n_hist st) k v = true) → names s ⊆ names (n_s st) → ncsize s = ncsize (n_s st) →
  nst_ok (with_event st e s).
Proof.
  intros (_ & Hs & [C1 C2 C3]) Hok He Hsub Hsz. split; [done|]. split; [intros k v Hk; apply He; [done|]; apply Hs; by eapply lookup_weaken|]. split; [done|done|]. simpl. rewrite Hsz. done.
Qed.

Lemma nst_ext st ext s : nst_ok st → dn_ok (λ v, ext v + pending (n_rele st) v) (n_d st) (hand_list (n_fly st)) s → (∀ v, 0 ≤ ext v) → names s = names (n_s st) → ncsize s = ncsize (n_s st) →
  nst_ok (with_ext st ext s).
Proof.
  intros (_ & Hs & [C1 C2 C3]) Hok He Hn Hsz. split; [done|]. split; [simpl; by rewrite Hn|]. split; [done|done|]. simpl. rewrite Hsz. done.
Qed.

Lemma nst_d st d s : nst_ok st → dn_ok (n_held st) d (hand_list (n_fly st)) s → names s = names (n_s st) → ncsize s = ncsize (n_s st) →
  nst_ok (with_d st d s).
Proof.
  intros (_ & Hs & [C1 C2 C3]) Hok Hn Hsz. split; [done|]. split; [simpl; by rewrite Hn|]. split; [done|done|]. simpl. rewrite Hsz. done.
Qed.

Lemma nst_scan st m : nst_ok st → (∀ t c, m !! t = Some c → 0 ≤ sc_current c < ncsize (n_s st)) → nst_ok (with_scan st m (n_s st)).
Proof. intros (Hok & Hs & [C1 C2 C3]) Hm. split; [done|]. split; [done|]. by split. Qed.

(** One more or one less hold of others. *)
Lemma held_plus st v n w : plus_at (n_held st) v n w = plus_at (n_ext st) v n w + pending (n_rele st) w.
Proof. unfold n_held, plus_at. case_decide; lia. Qed.

Lemma long_name_enter s dp name vp cred : NC_NAMLEN < Z.of_nat (length name) → enter_begin s dp name vp cred = Ok (None, s).
Proof. intros H. unfold enter_begin. case_match; [done|]. by rewrite (proj2 (Z.ltb_lt _ _)). Qed.
Lemma long_name_lookup s dp name cred : NC_NAMLEN < Z.of_nat (length name) → dnlc_lookup s dp name cred = Ok (None, s).
Proof. intros H. unfold dnlc_lookup. case_match; [done|]. by rewrite (proj2 (Z.ltb_lt _ _)). Qed.
Lemma long_name_remove s dp name : NC_NAMLEN < Z.of_nat (length name) → dnlc_remove s dp name = Ok s.
Proof. intros H. unfold dnlc_remove. case_match; [done|]. by rewrite (proj2 (Z.ltb_lt _ _)). Qed.

Lemma enter_step st t dp name vp cred : nst_ok st → may_nop st (NEnter t dp name vp cred) → ∃ st', do_nop st (NEnter t dp name vp cred) = Ok (None, st') ∧ nst_ok st'.
Proof.
  intros Hst (Ht & Hdp & Hvp & Hu). pose proof Hst as (Hok & Hs & [C1 C2 C3]). unfold do_nop. destruct (decide (Z.of_nat (length name) ≤ NC_NAMLEN)) as [Hl|Hl].
  - destruct (enter_begin_ok _ _ _ _ dp name vp cred Hok Hl) as (o & s & -> & Hsz & Ho); [unfold n_held; pose proof (pending_nonneg (n_rele st) dp); lia|unfold n_held; pose proof (pending_nonneg (n_rele st) vp); lia|done|].
    cbn [mbind res_bind]. destruct o as [i|]; eexists; (split; [done|]).
    + destruct Ho as (Hok' & Hn & _). split; [|split; [|split; [done|done|simpl; by rewrite Hsz]]]; simpl.
      * eapply dn_perm; [by rewrite hand_insert|]. exact Hok'.
      * intros k v Hk. apply Hs. eapply lookup_weaken; [done|by apply less_one_sub].
    + destruct Ho as (Hok' & Hn & _). apply nst_sub; [done|done|by rewrite Hn|done].
  - rewrite long_name_enter by lia. eexists. split; [done|]. by apply nst_sub.
Qed.

Lemma insert_step st t : nst_ok st → may_nop st (NInsert t) → ∃ st', do_nop st (NInsert t) = Ok (None, st') ∧ nst_ok st'.
Proof.
  intros (Hok & Hs & [C1 C2 C3]) [f Ef]. unfold do_nop. rewrite Ef. cbn [deref mbind res_bind]. apply (dn_perm _ _ _ _ _ (hand_delete _ _ _ Ef)) in Hok.
  destruct (enter_end_ok _ _ _ _ _ _ _ _ _ Hok) as (s & -> & Hok' & Hsz & Hn). cbn [mbind res_bind]. eexists. split; [done|]. split; [done|]. split; [|split; [done|done|simpl; by rewrite Hsz]]. simpl.
  intros k v Hk. rewrite Hn in Hk. change (fl_dp f, fl_name f, fl_cred f) with (fl_key f) in Hk. destruct (names (n_s st) !! fl_key f).
  - rewrite Hs by done. apply orb_true_r.
  - apply lookup_insert_Some in Hk as [[<- <-]|[_ Hk]]; [by rewrite bool_decide_true, Z.eqb_refl|]. rewrite Hs by done. apply orb_true_r.
Qed.

Lemma lookup_step st dp name cred : nst_ok st →
  ∃ st', do_nop st (NLookup dp name cred) = Ok (if Z.of_nat (length name) <=? NC_NAMLEN then names (n_s st) !! (dp, name, cred) else None, st') ∧ nst_ok st' ∧
    n_hist st' = n_hist st ∧ names (n_s st') = names (n_s st).
Proof.
  intros Hst. pose proof Hst as (Hok & Hs & [C1 C2 C3]). unfold do_nop. destruct (Z.leb_spec (Z.of_nat (length name)) NC_NAMLEN) as [Hl|Hl].
  - destruct (lookup_ok _ _ _ _ dp name cred Hok Hl) as (s & -> & Hn & Hsz & Hok'). cbn [mbind res_bind]. eexists. split; [done|]. split; [|done].
    destruct (names (n_s st) !! (dp, name, cred)) as [v|]; apply nst_ext; try done.
    + eapply dn_ext; [|exact Hok']. intros w. apply held_plus.
    + intros w. unfold plus_at. specialize (C1 w). case_decide; lia.
  - rewrite long_name_lookup by lia. cbn [mbind res_bind]. eexists. split; [done|]. split; [by apply nst_ext|done].
Qed.

Lemma purge_vfs_step st vfsp count : nst_ok st → ∃ r st', do_nop st (NPurgeVfs vfsp count) = Ok (r, st') ∧ nst_ok st'.
Proof.
  intros Hst. pose proof Hst as (Hok & Hs & _). unfold do_nop.
  destruct (purge_vfsp_ok _ _ _ _ vfsp count Hok) as (n & s & -> & Hok' & Hsz & _ & _ & Hsub & _ & Hn). cbn [mbind res_bind]. eexists _, _. split; [done|]. case_if.
  - assert (names s = filter (λ x, in_fs (n_s st) vfsp x = false) (names (n_s st))) as En by (apply Hn; apply orb_true_iff in Heqb as [?|?]; prop_bool; lia).
    apply nst_event; try done. intros k v Hk Hst'. rewrite En, map_lookup_filter_Some in Hk. destruct Hk as [_ Hk]. cbn [stands].
    unfold in_fs in Hk. cbn [fst snd] in Hk. by rewrite Hk, Hst'.
  - by apply nst_sub.
Qed.

(** The names of a chain that a purge of a kind wants. *)
Lemma pk_want_ok ext d busy k s s1 i e key v : dn_ok ext d busy s → vnodes s1 = vnodes s → live s1 i e → ent_kv e = Some (key, v) → names s !! key = Some v →
  pk_want k s1 e = Ok (pk_chosen k s (key, v)).
Proof.
  intros Hok Ev1 Hi Hk Hn. destruct key as [[dp name] cred]. pose proof Hk as (Ed & _ & _ & Ev)%ent_kv_Some. destruct k as [|vp|vfsp count]; [done| |].
  - unfold pk_want, pk_chosen, want_vp, refers. rewrite Ed, Ev. simpl. f_equal. f_equal; apply bool_decide_ext; naive_solver.
  - unfold pk_want, pk_chosen, want_vfs, in_fs, in_vfs, v_in_vfs. rewrite Ed, Ev, Ev1. simpl.
    apply (names_spec _ _ _ _ (proj1 Hok)) in Hn as (j & f & Hj & (Fd & _ & _ & Fv)%ent_kv_Some).
    destruct (no_ent _ _ _ (proj2 Hok) _ _ dp (proj2 Hj) ltac:(by right)) as [x Ex]. destruct (no_ent _ _ _ (proj2 Hok) _ _ v (proj2 Hj) ltac:(by left)) as [y Ey].
    rewrite Ex, Ey. simpl. by destruct (v_vfsp x =? vfsp).
Qed.

Lemma pk_stop_mono k m n : m ≤ n → pk_stop k n = false → pk_stop k m = false.
Proof. destruct k; [done|done|]. simpl. intros Hm. destruct (count =? 0); [done|]. simpl. rewrite !Z.leb_gt. lia. Qed.

Lemma chain_nodup busy s b l : tab_ok busy s → nc_hash s !! b = Some l → NoDup l.
Proof.
  intros Ht El. pose proof (tab_nodup _ _ Ht) as (Hnd & _)%list.NoDup_app. rewrite <- (take_drop_middle _ _ _ El), join_app, join_cons in Hnd.
  apply list.NoDup_app in Hnd as (_ & _ & Hnd). by apply list.NoDup_app in Hnd as (? & _).
Qed.

Lemma purge_step_ok st : nst_ok st → may_nop st NPurgeStep → ∃ r st', do_nop st NPurgeStep = Ok (r, st') ∧ nst_ok st'.
Proof.
  intros Hst (p & Ep & Hroom). pose proof Hst as (Hok & Hs & [C1 C2 C3]). unfold do_nop, purge_step. rewrite Ep. cbn [deref mbind res_bind].
  assert (n_rele st = pg_rele p) as Er by (unfold n_rele; by rewrite Ep). destruct (Nat.ltb_spec (pg_next p) (length (nc_hash (n_s st)))) as [Hlt|Hge].
  - unfold purge_chain. apply lookup_lt_is_Some_2 in Hlt as [l El]. rewrite El. cbn [deref mbind res_bind]. specialize (Hroom l El).
    destruct (purge_chain_walk (n_ext st) (n_d st) (hand_list (n_fly st)) (pk_want (pg_kind p)) (pk_stop (pg_kind p)) (pk_chosen (pg_kind p) (n_s st)) l (pg_n p) (pg_rele p) (n_s st))
      as (n & rele & s' & -> & Hok' & Hs' & Hsz & _ & Hle & Hlv & Hsub & Hw); try done.
    { unfold n_held in Hok. by rewrite Er in Hok. }
    { intros s1 i e k v E1 Hi Hk Hn. by eapply pk_want_ok. }
    { intros i Hi. by eapply dn_chain_in. }
    { by eapply chain_nodup; [apply Hok|]. }
    { by rewrite <- Er. }
    cbn [mbind res_bind]. eexists _, _. split; [done|]. split; [|split].
    + by destruct (pk_stop (pg_kind p) n).
    + assert (∀ k v, names s' !! k = Some v → stands (n_hist st) k v = true) as Hold by (intros k v Hk; apply Hs; by eapply lookup_weaken).
      destruct (pk_stop (pg_kind p) n) eqn:Est; [done|]. intros k v Hk. cbn [stands with_purge with_event n_hist n_s] in *. rewrite (Hold k v Hk), andb_true_r.
      apply negb_true_iff, andb_false_iff. destruct (in_chain_b (n_s st) (pg_next p) (k, v)) eqn:Eb; [right|by left].
      apply (names_spec _ _ _ _ (proj1 Hok')) in Hk as (i & e & Hi & Hk). eapply (Hw ltac:(intros m Hm; by eapply pk_stop_mono; [|exact Est]; lia) i e); [|done|done].
      destruct k as [[dp name] cred]. apply ent_kv_Some in Hk as (Ed & En & _ & _). destruct (Hlv i e Hi) as [Hi0 Ei0].
      destruct (live_entry _ _ _ (proj1 Hok) Hi0) as (v0 & dp0 & n0 & c0 & Ei & l' & El' & Hil). rewrite Ei0 in Ei. injection Ei as Ee. subst e. simpl in Ed, En. simplify_eq.
      unfold in_chain_b in Eb. simpl in Eb. apply Nat.eqb_eq in Eb. rewrite Eb in El'. congruence.
    + destruct (pk_stop (pg_kind p) n); (split; [done|done|simpl; rewrite Hsz; done]).
  - destruct (pg_rele p) as [|o rele] eqn:Epr.
    + eexists _, _. split; [done|]. split; [|split; [done|split; [done|constructor|done]]]. eapply dn_ext; [|exact Hok]. intros v. unfold n_held. by rewrite Er.
    + rewrite Er in C2. apply list.Forall_cons in C2 as [[v ->] C2]. assert (∀ w, n_held st w = n_ext st w + pending (Some v :: rele) w) as Eh by (intros w; unfold n_held; by rewrite Er).
      assert (∀ w, pending (Some v :: rele) w = pending rele w + (if decide (w = v) then 1 else 0)) as Epd.
      { intros w. unfold pending. rewrite filter_cons. repeat case_decide; simplify_eq; simpl; lia. }
      destruct (VN_RELE_ok _ _ _ _ v Hok) as (s' & -> & Hok' & Hsm & _).
      { rewrite Eh, Epd, decide_True by done. specialize (C1 v). pose proof (pending_nonneg rele v). lia. }
      cbn [mbind res_bind]. eexists _, _. split; [done|]. split; [|split; [|split; [done|done|]]]; simpl.
      * eapply dn_ext; [|exact Hok']. intros w. unfold plus_at. rewrite Eh, Epd. unfold n_held. cbn [with_purge n_purge n_rele n_ext pg_rele]. case_decide; lia.
      * by rewrite (same_names _ _ Hsm).
      * destruct Hsm as (_ & _ & -> & _). done.
Qed.

Lemma scan_next_ok st t c s : nst_ok (with_s st s) → n_scan st !! t = Some c → nst_ok (scan_next st t c s).2.
Proof.
  intros Hst Ec. pose proof Hst as (_ & _ & [_ _ C3]). simpl in C3. unfold scan_next. case_if; simpl.
  - apply (nst_scan (with_s st s)); [done|]. intros t' c' [_ H]%lookup_delete_Some. by eapply C3.
  - apply (nst_scan (with_s st s)); [done|]. intros t' c' [[<- <-]|[_ H]]%lookup_insert_Some; [|by eapply C3]. simpl. pose proof (C3 t c Ec). unfold next_entry. case_if; lia.
Qed.

Lemma scan_step_ok st t : nst_ok st → is_Some (n_scan st !! t) → ∃ r st', do_nop st (NScanStep t) = Ok (r, st') ∧ nst_ok st'.
Proof.
  intros Hst [c Ec]. pose proof Hst as (Hok & Hs & [C1 C2 C3]). pose proof (C3 t c Ec) as Hcur. unfold do_nop, scan_step. rewrite Ec. cbn [deref mbind res_bind].
  assert (with_s st (n_s st) = st) as Est by by destruct st. destruct (sc_hash c) as [hash|].
  - destruct (purge1_take_ok _ _ _ _ (sc_vop c) (sc_current c) hash Hok Hcur) as (taken & s' & -> & Hok' & Hsz & Htk). cbn [mbind res_bind].
    assert (nst_ok (with_s st s')) as Hst'.
    { apply nst_sub; [done|done| |done]. destruct taken; [destruct Htk as (e & k & v & _ & _ & _ & -> & _); apply delete_subseteq|by destruct Htk as [-> _]]. }
    destruct taken.
    + eexists _, _. split; [done|]. apply (nst_scan (with_s st s')); [done|]. simpl. rewrite Hsz. intros t' c' [_ H]%lookup_delete_Some. by eapply C3.
    + pose proof (scan_next_ok st t c s' Hst' Ec) as Hn. destruct (scan_next st t c s') as [r st']. eauto.
  - destruct (proj2 (to_dom _ _ (proj1 Hok) (sc_current c)) Hcur) as [e Ee]. rewrite Ee. cbn [deref mbind res_bind].
    destruct (purgeable_ok _ _ _ _ (sc_vop c) _ _ Hok Ee) as (b & -> & _). cbn [mbind res_bind]. destruct b.
    + eexists _, _. split; [done|]. apply nst_scan; [done|]. intros t' c' [[<- <-]|[_ H]]%lookup_insert_Some; [done|by eapply C3].
    + pose proof (scan_next_ok st t c (n_s st) ltac:(by rewrite Est) Ec) as Hn. destruct (scan_next st t c (n_s st)) as [r st']. eauto.
Qed.

(** Vnodes that come to be, and pages. *)
Lemma new_vnode_ok ext d busy s v vop vfsp : dn_ok ext d busy s → vnodes s !! v = None → dn_ok (plus_at ext v 1) d busy (set_vnodes (<[v := MkVn 1 vop vfsp false]> (vnodes s)) s).
Proof.
  intros [Ht [N1 N2 N3 N4 N5 N6 N7]] Hm. split; [by apply tab_vnodes|]. assert (holds s v = 0) as Hh.
  { apply msum_zero. intros i e Ei. unfold ent_holds. rewrite !bool_decide_false; [done| |]; intros E.
    - destruct (N2 i e v Ei (or_intror E)). congruence.
    - destruct (N2 i e v Ei (or_introl E)). congruence. }
  split; unfold plus_at; simpl; try done.
  - intros w wn [[<- <-]|[Hne Ew]]%lookup_insert_Some; simpl.
    + rewrite decide_True, (N4 v Hm) by done. unfold holds in *. simpl in *. lia.
    + rewrite decide_False by done. destruct (N1 w wn Ew). unfold holds in *. simpl. lia.
  - intros i e w Ei Hw. destruct (decide (w = v)) as [->|]; [rewrite lookup_insert_eq; eauto|rewrite lookup_insert_ne by done; by eapply N2].
  - intros w. specialize (N3 w). case_decide; lia.
  - intros w [Ew Hne]%lookup_insert_None. rewrite decide_False by done. rewrite (N4 w Ew). done.
Qed.

Lemma pages_ok ext d busy s v vn pages : dn_ok ext d busy s → vnodes s !! v = Some vn → dn_ok ext d busy (set_vnodes (<[v := MkVn (v_count vn) (v_op vn) (v_vfsp vn) pages]> (vnodes s)) s).
Proof.
  intros [Ht [N1 N2 N3 N4 N5 N6 N7]] Ev. split; [by apply tab_vnodes|]. split; simpl; try done.
  - intros w wn [[<- <-]|[Hne Ew]]%lookup_insert_Some; simpl; unfold holds in *; simpl in *; [by apply (N1 v vn)|by apply N1].
  - intros i e w Ei Hw. destruct (decide (w = v)) as [->|]; [rewrite lookup_insert_eq; eauto|rewrite lookup_insert_ne by done; by eapply N2].
  - intros w [Ew Hne]%lookup_insert_None. by apply N4.
Qed.

(** Holds of credentials. *)
Lemma cr_hold_step st c : nst_ok st → is_Some (cs_cred (dn_cs (n_s st)) !! c) → ∃ r st', do_nop st (NCrHold c) = Ok (r, st') ∧ nst_ok st'.
Proof.
  intros Hst Hm. pose proof Hst as (Hok & _). unfold do_nop. destruct Hok as [Ht [N1 N2 N3 N4 N5 N6 N7]]. destruct (crhold_inv _ _ c N5 Hm) as (cs & -> & Hi & _ & Hids & _). cbn [mbind res_bind].
  eexists _, _. split; [done|]. apply nst_d; [done| |done..]. split; [by apply tab_cs|]. split; try done.
  - eapply cr_inv_ext; [|exact Hi]. intros x. unfold plus_at, cholds. simpl. lia.
  - intros i e x Ei Ex. destruct (N6 i e x Ei Ex) as [y Ey]. specialize (Hids x). unfold ids_at in Hids. rewrite Ey in Hids. simpl. destruct (cs_cred cs !! x); [eauto|done].
  - intros x. unfold plus_at. specialize (N7 x). case_decide; lia.
Qed.

Lemma cr_free_step st c : nst_ok st → may_nop st (NCrFree c) → ∃ r st', do_nop st (NCrFree c) = Ok (r, st') ∧ nst_ok st'.
Proof.
  intros Hst [Hc Hl]. pose proof Hst as (Hok & _). unfold do_nop. destruct Hok as [Ht [N1 N2 N3 N4 N5 N6 N7]]. pose proof (cholds_nonneg (n_s st) c).
  destruct (crfree_inv _ _ c N5 Hc ltac:(simpl; lia)) as (cs & -> & Hi & _). cbn [mbind res_bind].
  assert (cr_inv (λ x, plus_at (n_d st) c (-1) x + cholds (n_s st) x) cs) as Hi' by (eapply cr_inv_ext; [|exact Hi]; intros x; unfold plus_at; lia).
  eexists _, _. split; [done|]. apply nst_d; [done| |done..]. split; [by apply tab_cs|]. split; try done.
  - intros i e x Ei Ex. simpl in *. eapply (held_cred _ cs (plus_at (n_d st) c (-1) x)); [exact Hi'| |]; simpl.
    + unfold plus_at. case_decide as Hxc; [subst x; lia|]. specialize (N7 x). lia.
    + pose proof (cholds_entry _ _ _ _ Ei Ex). lia.
  - intros x. unfold plus_at. case_decide as Hxc; [subst x; lia|]. specialize (N7 x). lia.
Qed.

Lemma remove_step st dp name : nst_ok st → ∃ r st', do_nop st (NRemove dp name) = Ok (r, st') ∧ nst_ok st'.
Proof.
  intros Hst. pose proof Hst as (Hok & _). unfold do_nop. destruct (Z.leb_spec (Z.of_nat (length name)) NC_NAMLEN) as [Hl|Hl].
  - destruct (dn_remove_ok _ _ _ _ dp name Hok Hl) as (s & -> & Hok' & Hsz & Hn). cbn [mbind res_bind]. eexists _, _. split; [done|].
    apply nst_event; [done|done| |rewrite Hn; apply map_filter_subseteq|done]. intros k v Hk Hst'. rewrite Hn, map_lookup_filter_Some in Hk. destruct Hk as [_ Hk].
    cbn [stands]. by rewrite bool_decide_true, Hst'.
  - rewrite long_name_remove by lia. cbn [mbind res_bind]. eexists _, _. split; [done|]. by apply nst_sub.
Qed.

Lemma remove_one_step st dp name : nst_ok st → ∃ r st', do_nop st (NRemoveOne dp name) = Ok (r, st') ∧ nst_ok st'.
Proof.
  intros Hst. pose proof Hst as (Hok & _). unfold do_nop. destruct (remove_one_ok _ _ _ _ dp name Hok) as (b & s & -> & Hok' & Hsz & Hb). cbn [mbind res_bind].
  eexists _, _. split; [done|]. destruct b.
  - destruct Hb as (_ & k & v & _ & _ & Hn). apply nst_sub; [done|done|rewrite Hn; apply delete_subseteq|done].
  - destruct Hb as [-> Hno]. apply nst_event; try done. intros k v Hk Hst'. cbn [stands]. rewrite bool_decide_true by by apply Hno. by rewrite Hst'.
Qed.

Lemma iter_chain_step st func b : nst_ok st → (b < length (nc_hash (n_s st)))%nat → ∃ r st', do_nop st (NIterChain func b) = Ok (r, st') ∧ nst_ok st'.
Proof.
  intros Hst Hb. pose proof Hst as (Hok & _). unfold do_nop. destruct (lookup_lt_is_Some_2 _ _ Hb) as [l El]. rewrite El. cbn [deref mbind res_bind].
  destruct (iter_walk_ok _ _ _ func l _ Hok) as (o & -> & Ho); [intros; by eapply dn_chain_in|]. cbn [mbind res_bind].
  destruct o as [s|]; eexists _, _; (split; [done|]); [|done]. destruct Ho as (Hok' & Hsz & i & e & k & v & _ & _ & _ & Hn). apply nst_sub; [done|done|rewrite Hn; apply delete_subseteq|done].
Qed.

(** Each step returns and keeps the invariant. *)
Lemma do_nop_ok st o : nst_ok st → may_nop st o → ∃ r st', do_nop st o = Ok (r, st') ∧ nst_ok st'.
Proof.
  intros Hst Hm. pose proof Hst as (Hok & Hs & Hca). pose proof Hca as [C1 C2 C3].
  destruct o as [t dp name vp cred|t|dp name cred|dp name| |vp|vfsp count|vop|func|dp name|k| |func b|t vop|t|v vop vfsp|v|v|v pages|c|c].
  - destruct (enter_step _ _ _ _ _ _ Hst Hm) as (st' & E & H). eauto.
  - destruct (insert_step _ _ Hst Hm) as (st' & E & H). eauto.
  - destruct (lookup_step _ dp name cred Hst) as (st' & E & H & _). eauto.
  - by apply remove_step.
  - unfold do_nop. destruct (purge_ok _ _ _ _ Hok) as (s & -> & Hok' & Hsz & Hn). cbn [mbind res_bind]. eexists _, _. split; [done|].
    apply nst_event; [done|done| |rewrite Hn; apply map_empty_subseteq|done]. intros k v Hk. by rewrite Hn, lookup_empty in Hk.
  - unfold do_nop. destruct (purge_vp_ok _ _ _ _ vp Hok) as (s & -> & Hok' & Hsz & Hn). cbn [mbind res_bind]. eexists _, _. split; [done|].
    apply nst_event; [done|done| |rewrite Hn; apply map_filter_subseteq|done]. intros k v Hk Hst'. rewrite Hn, map_lookup_filter_Some in Hk. destruct Hk as [_ Hk].
    cbn [stands]. by rewrite Hk, Hst'.
  - by apply purge_vfs_step.
  - unfold do_nop. destruct (fs_purge1_ok _ _ _ _ vop Hok) as (r & s & -> & Hok' & Hsz & Hr). cbn [mbind res_bind]. eexists _, _. split; [done|].
    apply nst_sub; [done|done| |done]. destruct Hr as [(_ & k & v & _ & _ & -> & _)|(_ & -> & _)]; [apply delete_subseteq|done].
  - unfold do_nop. destruct (iter_purge_ok _ _ _ _ func Hok) as (r & s & -> & Hok' & Hsz & Hr). cbn [mbind res_bind]. eexists _, _. split; [done|].
    apply nst_sub; [done|done| |done]. destruct Hr as [(_ & i & e & k & v & _ & _ & _ & ->)|(_ & -> & _)]; [apply delete_subseteq|done].
  - by apply remove_one_step.
  - cbn [may_nop] in Hm. eexists _, _. split; [done|]. split; [|split; [done|split; [done|by constructor|done]]]. eapply dn_ext; [|exact Hok]. intros v. unfold n_held, n_rele. by rewrite Hm.
  - by apply purge_step_ok.
  - by apply iter_chain_step.
  - eexists _, _. split; [done|]. apply nst_scan; [done|]. intros t' c [[<- <-]|[_ H]]%lookup_insert_Some; [|by eapply C3]. exact (to_purge _ _ (proj1 Hok)).
  - by apply scan_step_ok.
  - eexists _, _. split; [done|]. cbn [may_nop] in Hm. apply nst_ext; [done| | |done|done].
    + eapply dn_ext; [|by apply new_vnode_ok]. intros w. apply held_plus.
    + intros w. unfold plus_at. specialize (C1 w). case_decide; lia.
  - unfold do_nop. destruct (VN_HOLD_ok _ _ _ v (proj2 Hok) Hm) as (m & -> & Hc' & _). cbn [mbind res_bind]. eexists _, _. split; [done|]. apply nst_ext; [done| | |done|done].
    + eapply dn_ext; [intros w; apply held_plus|]. split; [by apply tab_vnodes, Hok|done].
    + intros w. unfold plus_at. specialize (C1 w). case_decide; lia.
  - unfold do_nop. cbn [may_nop] in Hm. destruct (vn_rele_ok _ _ _ v (proj2 Hok)) as (m & -> & Hc').
    { unfold n_held. pose proof (pending_nonneg (n_rele st) v). lia. }
    cbn [mbind res_bind]. eexists _, _. split; [done|]. apply nst_ext; [done| | |done|done].
    + eapply dn_ext; [intros w; apply held_plus|]. split; [by apply tab_vnodes, Hok|done].
    + intros w. unfold plus_at. specialize (C1 w). case_decide; subst; lia.
  - unfold do_nop. destruct Hm as [vn Ev]. rewrite Ev. cbn [deref mbind res_bind]. eexists _, _. split; [done|]. apply nst_sub; [done|by apply pages_ok|done|done].
  - by apply cr_hold_step.
  - by apply cr_free_step.
Qed.

(** ** From the start *)

Lemma free_entries_eq n i s : (∀ j, i ≤ j < i + Z.of_nat n → ncache s !! j = Some nc_zero) →
  free_entries n i s = Ok (set_freelist (reverse (seqZ i (Z.of_nat n)) ++ dnlc_freelist s) s).
Proof.
  revert i s. induction n as [|n IH]; intros i s Hz; [by destruct s|]. cbn [free_entries]. unfold dnlc_free. rewrite (Hz i) by lia. cbn [deref mbind res_bind nc_cred nc_zero nc_crfree nc_name nc_sig].
  change (MkNc None None [] None 0) with nc_zero. rewrite insert_id by (apply Hz; lia). rewrite IH by (intros; apply Hz; lia). simpl. f_equal. unfold set_freelist, set_ncache. simpl. f_equal.
  rewrite (seqZ_cons i (Z.of_nat (S n))) by lia. rewrite reverse_cons, <- app_assoc. simpl. f_equal. f_equal. f_equal; lia.
Qed.

(** The holds at the start are those of others. *)
Definition v_holds (vs : gmap Z vnode) (v : Z) : Z := match vs !! v with Some vn => v_count vn | None => 0 end.

Definition start (d : Z → Z) (s : dnlc) : nst := MkNst (v_holds (vnodes s)) d ∅ [] s None ∅.

Record may_start (size : Z) (vs : gmap Z vnode) (d : Z → Z) (cs : csys) : Prop := {
  ms_size : 0 < size < W31;
  ms_vnodes v vn : vs !! v = Some vn → 1 ≤ v_count vn;
  ms_creds : cr_inv d cs;
  ms_low c : low c ≤ d c
}.

Lemma dnlc_init_ok size vs d cs : may_start size vs d cs → ∃ s, dnlc_init size vs cs = Ok s ∧ vnodes s = vs ∧ nst_ok (start d s) ∧ names s = ∅ ∧ ncsize s = size.
Proof.
  intros [Hs Hv Hc Hl]. unfold dnlc_init. rewrite (proj2 (Z.leb_gt _ _)) by lia. set (h := highbit (u32 (Z.quot size NC_HASHAVELEN))).
  assert (0 ≤ Z.quot size 2 < W31) as Hq.
  { rewrite Z.quot_div_nonneg by lia. split; [apply Z.div_pos; lia|]. apply Z.div_lt_upper_bound; unfold W31 in *; lia. }
  assert (0 ≤ h) as Hh.
  { subst h. unfold NC_HASHAVELEN. rewrite u32_small by (unfold is_u32, W31, W32 in *; lia). destruct (Z.eqb_spec (Z.quot size 2) 0) as [->|]; [done|].
    rewrite highbit_log2 by (unfold W31, W32 in *; lia). pose proof (Z.log2_nonneg (Z.quot size 2)). lia. }
  rewrite Z.shiftl_mul_pow2, Z.mul_1_l by done. set (hs := replicate (Z.to_nat (2 ^ h)) ([] : list Z)). set (nc := gset_to_gmap nc_zero (list_to_set (seqZ 0 size)) : gmap Z ncent).
  assert (∀ i, nc !! i = if decide (0 ≤ i < size) then Some nc_zero else None) as Hnc.
  { intros i. unfold nc. rewrite lookup_gset_to_gmap. case_decide as Hd.
    - rewrite option_guard_True; [done|]. apply elem_of_list_to_set, elem_of_seqZ. lia.
    - rewrite option_guard_False; [done|]. rewrite elem_of_list_to_set, elem_of_seqZ. lia. }
  rewrite free_entries_eq by (intros j Hj; simpl; rewrite Hnc, decide_True by lia; done). eexists. split; [done|]. cbn [dnlc_freelist set_freelist]. rewrite app_nil_r, Z2Nat.id by lia.

  assert (mjoin hs = []) as Hj by (apply elem_of_nil_inv; intros i (l & Hi & Hin)%list_elem_of_join; apply elem_of_replicate_inv in Hin; subst; set_solver).
  assert (length hs = Z.to_nat (2 ^ h)) as Hlen by apply length_replicate.
  assert (names (MkDn true size nc hs (reverse (seqZ 0 size)) 0 0 vs cs) = ∅) as Hn by (unfold names; simpl; by rewrite Hj).
  assert (∀ v, v_holds vs v = v_holds vs v + pending [] v) as Hv0 by (intros v; unfold pending; simpl; lia).
  assert (∀ v, 0 ≤ v_holds vs v) as Hv1 by (intros v; unfold v_holds; destruct (vs !! v) eqn:E; [apply Hv in E; lia|done]).
  split; [done|]. split; [split; [eapply dn_ext; [exact Hv0|]; split|split; [|split; [exact Hv1|constructor|done]]]|split; done].
  - split; simpl; try done.
    + exists h. split; [done|]. rewrite Hlen. lia.
    + rewrite Hj. simpl. rewrite app_nil_r. by rewrite reverse_Permutation.
    + intros i. rewrite Hnc. case_decide as Hd; split; intros H; [done|eauto|by destruct H|done].
    + intros b l i Eb Hi. exfalso. assert (l ∈ hs) as Hin by by eapply list_elem_of_lookup_2. apply elem_of_replicate_inv in Hin. subst. set_solver.
    + intros i j e f [Hi _]. simpl in Hi. rewrite Hj in Hi. set_solver.
    + intros i e _. rewrite Hnc. case_decide; [|done]. by intros [= <-].
    + lia.
    + rewrite Hlen. lia.
    + intros i e Hi. unfold hand_list in Hi. rewrite map_to_list_empty in Hi. set_solver.
  - assert (∀ i e, nc !! i = Some e → no_id e) as Hz by (intros i e; rewrite Hnc; case_decide; [by intros [= <-]|done]).
    split; simpl.
    + intros v vn Ev. split; [eauto|]. unfold v_holds, holds. simpl. rewrite Ev. rewrite msum_zero; [lia|]. intros i e Ei. apply no_id_holds. eauto.
    + intros i e v Ei Hvv. destruct (Hz i e Ei) as (E1 & E2 & _). rewrite E1, E2 in Hvv. by destruct Hvv.
    + exact Hv1.
    + intros v Ev. unfold v_holds. by rewrite Ev.
    + eapply cr_inv_ext; [|exact Hc]. intros c. simpl. unfold cholds. simpl. rewrite msum_zero; [lia|]. intros i e Ei. apply no_id_cred. eauto.
    + intros i e c Ei Ec. destruct (Hz i e Ei) as (_ & _ & E3). congruence.
    + done.
  - intros k v Hk. exfalso. revert Hk. change (names (MkDn true size nc hs (reverse (seqZ 0 size)) 0 0 vs cs) !! k = Some v → False). by rewrite Hn, lookup_empty.
Qed.

(** ** Runs *)

Fixpoint do_nops (st : nst) (os : list nop) : res (list (option Z) * nst) :=
  match os with
  | [] => Ok ([], st)
  | o :: os => '(r, st) ← do_nop st o; '(rs, st) ← do_nops st os; Ok (r :: rs, st)
  end.

Fixpoint may_nops (st : nst) (os : list nop) : Prop :=
  match os with
  | [] => True
  | o :: os => may_nop st o ∧ ∀ r st', do_nop st o = Ok (r, st') → may_nops st' os
  end.

Lemma do_nops_ok os st : nst_ok st → may_nops st os → ∃ rs st', do_nops st os = Ok (rs, st') ∧ nst_ok st'.
Proof.
  revert st. induction os as [|o os IH]; intros st Hok Hm; [by exists [], st|]. destruct Hm as [Hm Hms]. cbn [do_nops].
  destruct (do_nop_ok _ _ Hok Hm) as (r & st1 & E & Hok1). rewrite E. cbn [mbind res_bind].
  destruct (IH st1 Hok1 (Hms r st1 E)) as (rs & st2 & -> & Hok2). cbn [mbind res_bind]. eauto.
Qed.


(** C24: The cache answers what stands: a vnode that a lookup finds was entered under that
    very directory, name and credentials, and since then the name was not removed nor
    the cache, the vnode, the directory or the file system purged.  A removal that others come in
    between counts from its last turn, and each chain of such a purge from its walk.  And a name
    that is entered is found at once. *)
Theorem dnlc_coherent size vs d cs os : may_start size vs d cs →
  ∃ s0, dnlc_init size vs cs = Ok s0 ∧ (may_nops (start d s0) os →
    ∃ rs st', do_nops (start d s0) os = Ok (rs, st') ∧
      (∀ dp name cred v st2, do_nop st' (NLookup dp name cred) = Ok (Some v, st2) → stands (n_hist st') (dp, name, cred) v = true) ∧
      (∀ t f, n_fly st' !! t = Some f → Z.of_nat (length (fl_name f)) ≤ NC_NAMLEN →
        ∃ st2 v st3, do_nop st' (NInsert t) = Ok (None, st2) ∧ do_nop st2 (NLookup (fl_dp f) (fl_name f) (fl_cred f)) = Ok (Some v, st3) ∧
          (names (n_s st') !! fl_key f = None → v = fl_vp f))).
Proof.
  intros Hs. destruct (dnlc_init_ok _ _ _ _ Hs) as (s0 & E & _ & Hok & _). exists s0. split; [done|]. intros Hm.
  destruct (do_nops_ok _ _ Hok Hm) as (rs & st' & E' & Hok'). exists rs, st'. split; [done|]. split.
  - intros dp name cred v st2 E2. destruct (lookup_step st' dp name cred Hok') as (st2' & E2' & _). rewrite E2 in E2'. injection E2' as Ev _.
    apply (proj1 (proj2 Hok')). case_match; congruence.
  - intros t f Ef Hl. destruct (insert_step st' t Hok') as (st2 & E2 & Hok2); [by eexists|]. destruct (lookup_step st2 (fl_dp f) (fl_name f) (fl_cred f) Hok2) as (st3 & E3 & _).
    rewrite (proj2 (Z.leb_le _ _)) in E3 by done. 
    assert (∃ v, names (n_s st2) !! fl_key f = Some v ∧ (names (n_s st') !! fl_key f = None → v = fl_vp f)) as (v & Ev & Hv).
    { unfold do_nop in E2. rewrite Ef in E2. cbn [deref mbind res_bind] in E2. destruct Hok' as [Hok' _]. apply (dn_perm _ _ _ _ _ (hand_delete _ _ _ Ef)) in Hok'.
      destruct (enter_end_ok _ _ _ _ _ _ _ _ _ Hok') as (s & E4 & _ & _ & Hn). rewrite E4 in E2. cbn [mbind res_bind] in E2. injection E2 as <-. simpl. rewrite Hn.
      change (fl_dp f, fl_name f, fl_cred f) with (fl_key f). destruct (names (n_s st') !! fl_key f) as [w|] eqn:Ew; [by exists w|]. exists (fl_vp f). by rewrite lookup_insert_eq. }
    exists st2, v, st3. split; [done|]. split; [|done]. rewrite E3. f_equal. f_equal. exact Ev.
Qed.

Lemma lookup_ncache s dp name cred o s' : dnlc_lookup s dp name cred = Ok (o, s') → ncache s' = ncache s.
Proof.
  unfold dnlc_lookup. repeat case_match; try (intros [= _ <-]; done). destruct (nc_hash s !! _) as [l|]; [|done]. cbn [deref mbind res_bind].
  destruct (walk_chain _ _ _ _) as [[[i n]|]| |]; cbn [mbind res_bind]; [|by intros [= _ <-]|done..].
  assert (∀ s1, (if (NC_MOVETOFRONT <? n)%nat then nc_move_to_front (nc_bucket s (DNLC_HASH name dp)) i s else Ok s) = Ok s1 → ncache s1 = ncache s) as Hf.
  { intros s1. case_match; [|by intros [= <-]]. unfold nc_move_to_front. destruct (nc_hash s !! _); [|done]. by intros [= <-]. }
  destruct (if (NC_MOVETOFRONT <? n)%nat then _ else _) as [s1| |]; [|done..]. cbn [mbind res_bind]. specialize (Hf s1 eq_refl).
  destruct (ncache s1 !! i) as [e|]; [|done]. cbn [deref mbind res_bind]. destruct (nc_vp e) as [w|]; [|done]. cbn [deref mbind res_bind]. unfold VN_HOLD.
  destruct (vnodes s1 !! w); [|done]. cbn [deref mbind res_bind]. by intros [= _ <-].
Qed.

(** C25: Hashing, the order of the chains and moving entries to their front cannot be seen:
    [dnlc_lookup] is the lookup of a finite map, which it does not change, and the vnode it
    finds is held once more. *)
Theorem dnlc_lookup_is_map ext d busy s dp name cred : dn_ok ext d busy s → Z.of_nat (length name) ≤ NC_NAMLEN →
  ∃ s', dnlc_lookup s dp name cred = Ok (names s !! (dp, name, cred), s') ∧ names s' = names s ∧
    ∀ v, names s !! (dp, name, cred) = Some v → ∃ vn vn', vnodes s !! v = Some vn ∧ vnodes s' !! v = Some vn' ∧ v_count vn' = v_count vn + 1.
Proof.
  intros Hok Hl. destruct (lookup_ok _ _ _ _ dp name cred Hok Hl) as (s' & E & Hn & _ & Hok'). exists s'. split; [done|]. split; [done|].
  intros v Ev. rewrite Ev in Hok'. assert (is_Some (vnodes s !! v)) as [vn Evn].
  { apply (names_spec _ _ _ _ (proj1 Hok)) in Ev as (i & e & [_ Hi] & (_ & _ & _ & He)%ent_kv_Some). eapply (no_ent _ _ _ (proj2 Hok)); eauto. }
  destruct (no_count _ _ _ (proj2 Hok) v vn Evn) as [H1 H2]. destruct (vnodes s' !! v) as [vn'|] eqn:Evn'.
  - exists vn, vn'. split; [done|]. split; [done|]. destruct (no_count _ _ _ (proj2 Hok') v vn' Evn') as [_ H3]. unfold plus_at in H3. rewrite decide_True in H3 by done.
    apply lookup_ncache in E as Ec. unfold holds in *. rewrite Ec in H3. lia.
  - pose proof (no_none _ _ _ (proj2 Hok') v Evn') as H3. unfold plus_at in H3. rewrite decide_True in H3 by done. pose proof (no_ext _ _ _ (proj2 Hok) v). lia.
Qed.

(** After [dnlc_purge_vp] the cache does not refer to the vnode: what is not about it stays,
    and when no one else holds the vnode it has gone back to its file system. *)
Theorem dnlc_purge_vp_releases ext d s vp : dn_ok ext d [] s →
  ∃ s', dnlc_purge_vp s vp = Ok s' ∧ names s' = filter (λ x, refers vp x = false) (names s) ∧ holds s' vp = 0 ∧
    (ext vp = 0 → vnodes s' !! vp = None) ∧ (∀ vn, vnodes s' !! vp = Some vn → v_count vn = ext vp).
Proof.
  intros Hok. destruct (purge_vp_ok _ _ _ _ vp Hok) as (s' & E & [Ht Hc] & Hsz & Hn). exists s'. split; [done|]. split; [done|].
  assert (holds s' vp = 0) as Hh.
  { apply msum_zero. intros i e Ei. assert (0 ≤ i < ncsize s') as Hi by (apply (to_dom _ _ Ht); eauto).
    apply (place_range _ _ _ Ht) in Hi. rewrite app_nil_r in Hi. apply elem_of_app in Hi as [Hi|Hi].
    - destruct (live_entry _ _ _ Ht Hi) as (v & dp & name & cred & Ei' & _). rewrite Ei in Ei'. injection Ei' as Ee.
      assert (names s' !! (dp, name, cred) = Some v) as Hk by (apply (names_spec _ _ _ _ Ht); exists i, e; split; [done|by subst e]).
      rewrite Hn, map_lookup_filter_Some in Hk. destruct Hk as [_ Hr]. unfold refers in Hr. simpl in Hr. apply orb_false_iff in Hr as [Hr1 Hr2].
      apply bool_decide_eq_false in Hr1, Hr2. subst e. unfold ent_holds. simpl. rewrite !bool_decide_false by congruence. done.
    - apply no_id_holds. by eapply (to_free _ _ Ht). }
  split; [done|]. split.
  - intros H0. destruct (vnodes s' !! vp) as [vn|] eqn:Ev; [|done]. destruct (no_count _ _ _ Hc vp vn Ev). lia.
  - intros vn Ev. destruct (no_count _ _ _ Hc vp vn Ev). lia.
Qed.

(** ** The conditions of a run, decided *)

Definition usable_b (d : Z → Z) (cred : option Z) : bool := match cred with Some c => (c =? kcred) || (1 <=? d c) | None => true end.

Lemma usable_b_ok d cred : usable_b d cred = true → usable d cred.
Proof. intros H c ->. simpl in H. apply orb_true_iff in H as [H|H]; prop_bool; auto. Qed.

Definition may_nop_b (st : nst) (o : nop) : bool :=
  match o with
  | NEnter t dp name vp cred => bool_decide (n_fly st !! t = None) && (1 <=? n_ext st dp) && (1 <=? n_ext st vp) && usable_b (n_d st) cred
  | NInsert t => bool_decide (is_Some (n_fly st !! t))
  | NPurge | NPurgeVp _ | NPurgeVfs _ _ | NPurgeBegin _ => bool_decide (n_purge st = None)
  | NPurgeStep =>
    match n_purge st with
    | Some p => match nc_hash (n_s st) !! pg_next p with Some l => Z.of_nat (length (pg_rele p)) + 2 * Z.of_nat (length l) <=? nc_rsize (n_s st) | None => true end
    | None => false
    end
  | NIterChain _ b => (b <? length (nc_hash (n_s st)))%nat
  | NScanBegin t _ => bool_decide (n_scan st !! t = None)
  | NScanStep t => bool_decide (is_Some (n_scan st !! t))
  | NNewVnode v _ _ => bool_decide (vnodes (n_s st) !! v = None)
  | NHold v | NPages v _ => bool_decide (is_Some (vnodes (n_s st) !! v))
  | NRele v => 1 <=? n_ext st v
  | NCrHold c => bool_decide (is_Some (cs_cred (dn_cs (n_s st)) !! c))
  | NCrFree c => bool_decide (is_Some (cs_cred (dn_cs (n_s st)) !! c)) && (low c <=? n_d st c - 1)
  | _ => true
  end.

#[local] Instance flight_eq_dec : EqDecision flight.
Proof. solve_decision. Defined.
#[local] Instance pkind_eq_dec : EqDecision pkind.
Proof. solve_decision. Defined.
#[local] Instance purge_eq_dec : EqDecision purge.
Proof. solve_decision. Defined.
#[local] Instance scan_eq_dec : EqDecision scan.
Proof. solve_decision. Defined.
#[local] Instance vnode_eq_dec : EqDecision vnode.
Proof. solve_decision. Defined.

Lemma may_nop_b_ok st o : may_nop_b st o = true → may_nop st o.
Proof.
  destruct o; cbn [may_nop_b may_nop]; rewrite ?andb_true_iff, ?bool_decide_eq_true, ?Z.leb_le, ?Nat.ltb_lt; try tauto.
  - intros [[[? ?] ?] ?]. split_and!; try done. by apply usable_b_ok.
  - intros H. destruct (n_purge st) as [p|]; [|done]. exists p. split; [done|]. intros l El. rewrite El in H. by apply Z.leb_le.
Qed.

Fixpoint may_nops_b (st : nst) (os : list nop) : bool :=
  match os with
  | [] => true
  | o :: os => may_nop_b st o && match do_nop st o with Ok (_, st) => may_nops_b st os | _ => true end
  end.

Lemma may_nops_b_ok st os : may_nops_b st os = true → may_nops st os.
Proof.
  revert st. induction os as [|o os IH]; intros st H; [done|]. cbn [may_nops_b] in H. apply andb_true_iff in H as [H1 H2].
  split; [by apply may_nop_b_ok|]. intros r st' E. rewrite E in H2. auto.
Qed.

(** ** A run *)

(** Two file systems, 1 and 2; the directory 10 and its files, and the directory 11. *)
Definition ex_vnodes : gmap Z vnode :=
  list_to_map [(10, MkVn 3 7 1 false); (20, MkVn 1 7 1 false); (21, MkVn 1 7 1 false); (22, MkVn 1 7 1 true); (11, MkVn 1 8 2 false); (23, MkVn 1 8 2 false)].

Definition ex_cs : csys := cred_init (2 ^ 2).

Lemma ex_may_start : may_start 3 ex_vnodes boot_refs ex_cs.
Proof.
  pose proof (boot_ok 2 ltac:(lia)) as Hb. split; [done| |apply (co_inv _ _ _ Hb)|apply (co_low _ _ _ Hb)].
  intros v vn Ev. apply (map_Forall_lookup_1 (λ _ vn, 1 ≤ v_count vn) ex_vnodes v vn); [|done]. apply (bool_decide_unpack _). vm_compute. exact I.
Qed.

(** Names are entered at the same time, one of them twice; the files are released, so that the
    cache alone holds them; a name is stolen from its chain, others are removed and
    purged, and what is not is found. *)
Definition ex_run : list nop :=
  [NEnter 1 10 [97] 20 None; NEnter 2 10 [97] 21 None; NInsert 1; NInsert 2; NEnter 1 10 [98] 21 (Some kcred); NInsert 1;
   NRele 20; NRele 21; NLookup 10 [97] None; NRele 20; NEnter 3 11 [97; 98] 23 None; NInsert 3; NPages 22 true;
   NEnter 1 10 [99] 22 None; NInsert 1; NLookup 10 [98] (Some kcred); NRemove 10 [99]; NPurgeVfs 2 0; NEnter 1 10 [100] 22 None].

Definition ex_boot : dnlc := match dnlc_init 3 ex_vnodes ex_cs with Ok s => s | _ => MkDn false 0 ∅ [] [] 0 0 ∅ ex_cs end.
Definition ex_start : nst := start boot_refs ex_boot.

Lemma ex_boot_eq s0 : dnlc_init 3 ex_vnodes ex_cs = Ok s0 → start boot_refs s0 = ex_start.
Proof. unfold ex_start, ex_boot. by intros ->. Qed.

Lemma ex_may_run : may_nops ex_start ex_run.
Proof. apply may_nops_b_ok. vm_compute. reflexivity. Qed.




Lemma dnlc_coherent_witness : ∃ s0, dnlc_init 3 ex_vnodes ex_cs = Ok s0 ∧
    ∃ rs st', do_nops (start boot_refs s0) ex_run = Ok (rs, st') ∧
      (∀ dp name cred v st2, do_nop st' (NLookup dp name cred) = Ok (Some v, st2) → stands (n_hist st') (dp, name, cred) v = true) ∧
      (∀ t f, n_fly st' !! t = Some f → Z.of_nat (length (fl_name f)) ≤ NC_NAMLEN →
        ∃ st2 v st3, do_nop st' (NInsert t) = Ok (None, st2) ∧ do_nop st2 (NLookup (fl_dp f) (fl_name f) (fl_cred f)) = Ok (Some v, st3) ∧
          (names (n_s st') !! fl_key f = None → v = fl_vp f)).
Proof.
  destruct (dnlc_coherent 3 ex_vnodes boot_refs ex_cs ex_run ex_may_start) as (s0 & E & H). exists s0. split; [exact E|].
  apply H. rewrite (ex_boot_eq s0 E). exact ex_may_run.
Defined.

(** What the run answers: the second vnode entered for a name is not found, the first is. *)
Example ex_answers : ∃ st, do_nops ex_start ex_run =
  Ok ([None; None; None; None; None; None; None; None; Some 20; None; None; None; None; None; None; Some 21; None; Some 1; None], st).
Proof. eexists. vm_compute. reflexivity. Qed.

(** The state before the last call. *)
Definition ex_state : nst := match do_nops ex_start (removelast ex_run) with Ok (_, st) => st | _ => ex_start end.

Lemma ex_state_ok : nst_ok ex_state ∧ n_fly ex_state = ∅ ∧ n_purge ex_state = None.
Proof.
  destruct (dnlc_init_ok _ _ _ _ ex_may_start) as (s0 & E & _ & Hok & _). rewrite (ex_boot_eq s0 E) in Hok.
  destruct (do_nops_ok (removelast ex_run) ex_start Hok) as (rs & st & E' & Hok'); [apply may_nops_b_ok; vm_compute; reflexivity|].
  unfold ex_state. rewrite E'. split; [done|]. assert (match do_nops ex_start (removelast ex_run) with Ok (_, st) => map_to_list (n_fly st) = [] ∧ n_purge st = None | _ => False end) as H by (vm_compute; split; reflexivity).
  rewrite E' in H. destruct H as [H1 H2]. split; [by apply map_to_list_empty_iff|done].
Qed.

Lemma ex_state_dn : dn_ok (n_ext ex_state) (n_d ex_state) [] (n_s ex_state).
Proof.
  destruct ex_state_ok as ((H & _) & E & Ep). revert H. generalize ex_state E Ep. clear. intros st E Ep H. unfold hand_list in H. rewrite E, map_to_list_empty in H.
  eapply dn_ext; [|exact H]. intros v. unfold n_held, n_rele. rewrite Ep. unfold pending. simpl. lia.
Qed.

Lemma dnlc_lookup_is_map_witness : names (n_s ex_state) !! (10, [98], Some kcred) = Some 21 ∧
  ∃ s', dnlc_lookup (n_s ex_state) 10 [98] (Some kcred) = Ok (names (n_s ex_state) !! (10, [98], Some kcred), s') ∧ names s' = names (n_s ex_state) ∧
    ∀ v, names (n_s ex_state) !! (10, [98], Some kcred) = Some v →
      ∃ vn vn', vnodes (n_s ex_state) !! v = Some vn ∧ vnodes s' !! v = Some vn' ∧ v_count vn' = v_count vn + 1.
Proof.
  split; [vm_compute; reflexivity|]. apply (dnlc_lookup_is_map (n_ext ex_state) (n_d ex_state) [] (n_s ex_state) 10 [98] (Some kcred)); [exact ex_state_dn|].
  vm_compute. discriminate.
Defined.

Lemma dnlc_purge_vp_releases_witness : names (n_s ex_state) !! (10, [98], Some kcred) = Some 21 ∧
  ∃ s', dnlc_purge_vp (n_s ex_state) 21 = Ok s' ∧ names s' = filter (λ x, refers 21 x = false) (names (n_s ex_state)) ∧ holds s' 21 = 0 ∧
    (n_ext ex_state 21 = 0 → vnodes s' !! 21 = None) ∧ (∀ vn, vnodes s' !! 21 = Some vn → v_count vn = n_ext ex_state 21).
Proof.
  split; [vm_compute; reflexivity|]. apply (dnlc_purge_vp_releases (n_ext ex_state) (n_d ex_state) (n_s ex_state) 21). exact ex_state_dn.
Defined.

(** ** Where the code goes wrong *)

(** Three names of one file system, in the two chains. *)
Definition three_names : nst :=
  match do_nops ex_start [NEnter 1 10 [97] 20 None; NInsert 1; NEnter 1 10 [98] 21 None; NInsert 1; NEnter 1 10 [99] 22 None; NInsert 1] with
  | Ok (_, st) => st
  | _ => ex_start
  end.

(** [dnlc_purge_vfsp] leaves the walk of one chain when it has purged the number asked for, and
    goes on with the next chain: asked for one name it takes one of each. *)
Example purge_vfsp_over_count : ∃ s', dnlc_purge_vfsp (n_s three_names) 1 1 = Ok (2, s') ∧ size (names (n_s three_names)) = 3%nat ∧ size (names s') = 1%nat.
Proof. eexists. split; [vm_compute; reflexivity|]. split; vm_compute; reflexivity. Qed.

(** The entries that a purge has freed can be entered again before it has come to the last
    chain, and then there is no room for their vnodes in [nc_rele]. *)
Definition one_chain : nst :=
  match do_nops ex_start [NEnter 1 10 [98] 20 None; NInsert 1; NEnter 1 10 [100] 21 None; NInsert 1; NEnter 1 10 [102] 22 None; NInsert 1] with
  | Ok (_, st) => st
  | _ => ex_start
  end.

Example purge_overflows : nc_rsize (n_s one_chain) = 6 ∧
  ∃ n rele s1 s2, purge_chain want_all (λ _, false) 0 0 [] (n_s one_chain) = Ok (n, rele, s1) ∧ length rele = 6%nat ∧
    dnlc_enter s1 10 [97] 20 None = Ok s2 ∧ purge_chain want_all (λ _, false) 1 n rele s2 = Fault.
Proof.
  split; [vm_compute; reflexivity|]. do 4 eexists. split; [vm_compute; reflexivity|]. split; [vm_compute; reflexivity|].
  split; [vm_compute; reflexivity|]. vm_compute. reflexivity.
Qed.

(** [dnlc_get] releases the vnode of the entry it steals and leaves the pointer, which
    [dnlc_fs_purge1] follows without a lock. *)
Definition last_holds : nst := match do_nops three_names [NRele 20; NRele 21; NRele 22] with Ok (_, st) => st | _ => three_names end.

Example purge1_reads_stolen : ∃ i s, dnlc_get (n_s last_holds) = Ok (Some i, s) ∧ dnlc_fs_purge1 s 9 = Fault.
Proof. do 2 eexists. split; [vm_compute; reflexivity|]. vm_compute. reflexivity. Qed.
