(* ===== verification/As.v ===== *)
(** * The segments of an address space (uts/common/vm/vm_as.c, vm_seg.c)

    The segments are kept in a doubly linked list with a hint, and from [AS_MUTATION_THRESH]
    segments on in a skip list whose last search path is kept.

    - [s_next] is a union: in the linked list the next segment, in the skip list the
      address of the [seg_skiplist] of the segment.  [a_segs] and [a_cache] are unions as
      well: [a_seglast] is for the list, [a_spath], the path itself, for the skip list.
    - [as_gap] looks for a hole among the segments, [seg_alloc] makes a segment and [seg_free]
      takes it away; the checks of a range that they call are those of the sun4m.
    - What [kmem_cache_alloc] gives, and the address of a new segment, are parameters.
    - [caddr_t] arithmetic is that of 32 bits.  The lock of the address space makes a call a
      step. *)

From S2P Require Import Prelude.

Definition SSL_NLEVELS : nat := 4.
Definition SSL_BFACTOR : Z := 4.
Definition SSL_LOG2BF : Z := 2.
Definition AS_MUTATION_THRESH : Z := 225.

(** A pointer of a [seg_skiplist]. *)
Inductive sptr := SNull | SUnused | SSeg (x : Z).
#[export] Instance sptr_eq_dec : EqDecision sptr.
Proof. solve_decision. Defined.

Record seg := MkSeg { s_base : Z; s_size : Z; s_prev : option Z; s_next : option Z }.

(** The state of [ssl_random]. *)
Record randstate := MkRand { ssl_randtab : list Z; ssl_n1p : nat; ssl_n2p : nat }.

Record aspace := MkAs {
  is_kas : bool;
  segs : gmap Z seg;
  ssls : gmap Z (list sptr);        (* the [seg_skiplist] structures *)
  a_segs : option Z;
  a_tail : option Z;
  a_seglast : option Z;
  a_spath : list (option Z);
  a_lrep : bool;                    (* a skip list *)
  a_nsegs : Z;
  a_hilevel : nat;
  ssl_rand : randstate
}.

Definition set_segs m s := MkAs (is_kas s) m (ssls s) (a_segs s) (a_tail s) (a_seglast s) (a_spath s) (a_lrep s) (a_nsegs s) (a_hilevel s) (ssl_rand s).
Definition set_ssls m s := MkAs (is_kas s) (segs s) m (a_segs s) (a_tail s) (a_seglast s) (a_spath s) (a_lrep s) (a_nsegs s) (a_hilevel s) (ssl_rand s).
Definition set_a_segs x s := MkAs (is_kas s) (segs s) (ssls s) x (a_tail s) (a_seglast s) (a_spath s) (a_lrep s) (a_nsegs s) (a_hilevel s) (ssl_rand s).
Definition set_a_tail x s := MkAs (is_kas s) (segs s) (ssls s) (a_segs s) x (a_seglast s) (a_spath s) (a_lrep s) (a_nsegs s) (a_hilevel s) (ssl_rand s).
Definition set_seglast x s := MkAs (is_kas s) (segs s) (ssls s) (a_segs s) (a_tail s) x (a_spath s) (a_lrep s) (a_nsegs s) (a_hilevel s) (ssl_rand s).
Definition set_spath p s := MkAs (is_kas s) (segs s) (ssls s) (a_segs s) (a_tail s) (a_seglast s) p (a_lrep s) (a_nsegs s) (a_hilevel s) (ssl_rand s).
Definition set_lrep b s := MkAs (is_kas s) (segs s) (ssls s) (a_segs s) (a_tail s) (a_seglast s) (a_spath s) b (a_nsegs s) (a_hilevel s) (ssl_rand s).
Definition set_nsegs n s := MkAs (is_kas s) (segs s) (ssls s) (a_segs s) (a_tail s) (a_seglast s) (a_spath s) (a_lrep s) n (a_hilevel s) (ssl_rand s).
Definition set_hilevel n s := MkAs (is_kas s) (segs s) (ssls s) (a_segs s) (a_tail s) (a_seglast s) (a_spath s) (a_lrep s) (a_nsegs s) n (ssl_rand s).
Definition set_rand r s := MkAs (is_kas s) (segs s) (ssls s) (a_segs s) (a_tail s) (a_seglast s) (a_spath s) (a_lrep s) (a_nsegs s) (a_hilevel s) r.

Definition with_prev p g := MkSeg (s_base g) (s_size g) p (s_next g).
Definition with_next n g := MkSeg (s_base g) (s_size g) (s_prev g) n.

Definition upd_seg (x : Z) (f : seg → seg) (s : aspace) : res aspace :=
  g ← deref (segs s !! x); Ok (set_segs (<[x := f g]> (segs s)) s).

(** [seg->s_base + seg->s_size] *)
Definition s_end (g : seg) : Z := add32 (s_base g) (s_size g).

(** ** The levels *)

(** The generator as it is initialized. *)
Definition ssl_randtab0 : list Z :=
  [2100511330; 1665585733; 1596518329; 3384631013; 2206254447; 2854547963; 2374567988; 978005031;
   1247480487; 3976311054; 439597138; 1645875318; 1115449810; 684184073; 3682394951; 265430400;
   2280886409; 885409114; 608049744; 501719374; 733329935; 181984002; 3851131346; 3298083519;
   3369488778; 50213178; 503967147; 378833668; 3715757871; 2823064643; 672212275; 4092635110;
   3282885842; 4251172301; 3111474421; 3307937540; 731709485; 447243657; 769281972; 964155797;
   4055223967; 1281055373; 1834839692; 578372650; 1418812489; 3639993686; 2115573783; 3474048996;
   2131655444; 1555036791; 3889383798; 3186590445; 4070389865; 2155113093; 2268014490; 4039714809;
   1937245171; 1020332343; 2560039045; 3914991052; 3378843178; 2092187935; 2761497912; 934331004;
   3652331830; 2969940648; 2127173118; 844857882; 2255944086; 2206489272; 4123308816].
Definition ssl_rand0 : randstate := MkRand ssl_randtab0 0 35.

Definition ssl_random (r : randstate) : res (Z * randstate) :=
  a ← deref (ssl_randtab r !! ssl_n1p r);
  b ← deref (ssl_randtab r !! ssl_n2p r);
  let tab := <[ssl_n1p r := add32 a b]> (ssl_randtab r) in
  let n1p := if (71 <=? S (ssl_n1p r))%nat then O else S (ssl_n1p r) in
  let n2p := if (71 <=? S (ssl_n2p r))%nat then O else S (ssl_n2p r) in
  v ← deref (tab !! n1p);
  Ok (v, MkRand tab n1p n2p).

(** [fuel] bounds the levels. *)
Fixpoint newlevel_loop (fuel : nat) (r : Z) (newlev : nat) : nat :=
  match fuel with
  | O => newlev
  | S fuel => if (Z.land r (SSL_BFACTOR - 1) =? 0) && (newlev <? SSL_NLEVELS)%nat then newlevel_loop fuel (Z.shiftr r SSL_LOG2BF) (S newlev) else newlev
  end.

Definition ssl_newlevel (s : aspace) : res (nat * aspace) :=
  '(r, rs) ← ssl_random (ssl_rand s);
  Ok (newlevel_loop SSL_NLEVELS r 1 - 1, set_rand rs s)%nat.

(** ** The skip list *)

(** [ssl->segs[i]] *)
Definition get_ptr (s : aspace) (ssl : Z) (i : nat) : res sptr := nd ← deref (ssls s !! ssl); deref (nd !! i).
Definition set_ptr (s : aspace) (ssl : Z) (i : nat) (p : sptr) : res aspace :=
  nd ← deref (ssls s !! ssl); _ ← deref (nd !! i); Ok (set_ssls (<[ssl := <[i := p]> nd]> (ssls s)) s).

(** A segment that is to be looked at: [SSL_UNUSED] is never dereferenced. *)
Definition to_seg (p : sptr) : res (option Z) := match p with SNull => Ok None | SSeg x => Ok (Some x) | SUnused => Fault end.
Definition seg_at (s : aspace) (ssl : Z) (i : nat) : res (option Z) := p ← get_ptr s ssl i; to_seg p.

(** [spath.ssls[i]], as a pointer that is followed. *)
Definition path_at (s : aspace) (i : nat) : res Z := o ← deref (a_spath s !! i); deref o.

(** The walk of a level: how far, and the segment after. *)
Fixpoint ssl_walk (fuel : nat) (s : aspace) (addr : Z) (i : nat) (ssl : Z) : res (Z * option Z) :=
  match fuel with
  | O => Fault
  | S fuel =>
    o ← seg_at s ssl i;
    match o with
    | None => Ok (ssl, None)
    | Some x =>
      g ← deref (segs s !! x);
      if s_end g <=? addr then n ← deref (s_next g); ssl_walk fuel s addr i n else Ok (ssl, Some x)
    end
  end.

(** The levels from [i] down: the path, and the segment of level 0. *)
Fixpoint ssl_down (i : nat) (s : aspace) (addr ssl : Z) (spath : list (option Z)) : res (list (option Z) * option Z) :=
  '(ssl, o) ← ssl_walk (S (size (segs s))) s addr i ssl;
  let spath := <[i := Some ssl]> spath in
  match i with
  | O => Ok (spath, o)
  | S i => ssl_down i s addr ssl spath
  end.

(** The levels of a structure that are in use get it as their path. *)
Fixpoint path_patch (fuel i : nat) (s : aspace) (ssl : Z) (spath : list (option Z)) : res (list (option Z)) :=
  match fuel with
  | O => Ok spath
  | S fuel =>
    p ← get_ptr s ssl i;
    if bool_decide (p = SUnused) then Ok spath else path_patch fuel (S i) s ssl (<[i := Some ssl]> spath)
  end.

Definition ssl_search_head (s : aspace) (addr : Z) (tail : bool) : res (option Z * aspace) :=
  hd ← deref (a_segs s);
  '(spath, o) ← ssl_down (a_hilevel s) s addr hd (a_spath s);
  let s := set_spath spath s in
  Ok (match o with None => if tail then a_tail s else None | Some x => Some x end, s).

Definition ssl_search (s : aspace) (addr : Z) (tail : bool) : res (option Z * aspace) :=
  cssl ← deref (a_spath s !! 0%nat);
  match cssl with
  | None => ssl_search_head s addr tail
  | Some cssl =>
    o ← seg_at s cssl 0;
    match o with
    | None => ssl_search_head s addr tail
    | Some x =>
      g ← deref (segs s !! x);
      below ← (match s_prev g with None => Ok true | Some p => h ← deref (segs s !! p); Ok (s_end h <=? addr) end);
      if (addr <? s_end g) && below then Ok (Some x, s)
      else
        ssl ← deref (s_next g);
        o ← seg_at s ssl 0;
        match o with
        | None => ssl_search_head s addr tail
        | Some y =>
          h ← deref (segs s !! y);
          if (s_end g <=? addr) && (addr <? s_end h) then
            spath ← path_patch SSL_NLEVELS 0 s ssl (a_spath s);
            Ok (Some y, set_spath spath s)
          else ssl_search_head s addr tail
        end
    end
  end.

Section segments.
Context (alloc : gmap Z (list sptr) → Z).

(** The levels up to [newlev] that the path does not have are those of the head. *)
Fixpoint raise_path (n i : nat) (hd : Z) (spath : list (option Z)) : list (option Z) :=
  match n with O => spath | S n => raise_path n (S i) hd (<[i := Some hd]> spath) end.

(** The new segment enters the levels from [i] on. *)
Fixpoint ssl_link (n i : nat) (newseg ssl : Z) (s : aspace) : res aspace :=
  match n with
  | O => Ok s
  | S n =>
    p ← path_at s i;
    q ← get_ptr s p i;
    s ← set_ptr s ssl i q;
    s ← set_ptr s p i (SSeg newseg);
    ssl_link n (S i) newseg ssl s
  end.

(** The backward links and the tail, unless the new segment overlaps. *)
Definition ssl_place (s : aspace) (newseg addr eaddr : Z) (o : option Z) : res (option aspace) :=
  match o with
  | None => s ← upd_seg newseg (with_prev None) (set_a_tail (Some newseg) s); Ok (Some s)
  | Some x =>
    g ← deref (segs s !! x);
    if s_end g <=? addr then s ← upd_seg newseg (with_prev (Some x)) s; Ok (Some (set_a_tail (Some newseg) s))
    else if (s_base g <=? addr) || (s_base g <? eaddr) then Ok None
    else s ← upd_seg newseg (with_prev (s_prev g)) s; s ← upd_seg x (with_prev (Some newseg)) s; Ok (Some s)
  end.

Definition ssl_insert (s : aspace) (newseg : Z) : res (Z * aspace) :=
  new ← deref (segs s !! newseg);
  let addr := s_base new in
  let eaddr := s_end new in
  '(o, s) ← ssl_search s addr true;
  r ← ssl_place s newseg addr eaddr o;
  match r with
  | None => Ok (-1, s)
  | Some s =>
    '(newlev, s) ← ssl_newlevel s;
    hd ← deref (a_segs s);
    let hilev := a_hilevel s in
    let s := if (hilev <? newlev)%nat then set_hilevel newlev (set_spath (raise_path (newlev - hilev) (S hilev) hd (a_spath s)) s) else s in
    let ssl := alloc (ssls s) in
    let s := set_ssls (<[ssl := replicate SSL_NLEVELS SUnused]> (ssls s)) s in
    s ← upd_seg newseg (with_next (Some ssl)) s;
    s ← ssl_link (S newlev) 0 newseg ssl s;
    Ok (0, set_nsegs (a_nsegs s + 1) s)
  end.

(** The segment leaves the levels that it is in. *)
Fixpoint ssl_unlink (n i : nat) (x ssl : Z) (s : aspace) : res aspace :=
  match n with
  | O => Ok s
  | S n =>
    p ← path_at s i;
    q ← get_ptr s p i;
    if bool_decide (q = SSeg x) then
      q ← get_ptr s ssl i;
      s ← set_ptr s p i q;
      ssl_unlink n (S i) x ssl s
    else Ok s
  end.

(** [while (hilev > 0 && as->a_segs.skiplist->segs[hilev] == NULL) hilev--;] *)
Fixpoint lower_hilev (hilev : nat) (s : aspace) (hd : Z) : res nat :=
  match hilev with
  | O => Ok O
  | S h => p ← get_ptr s hd hilev; if bool_decide (p = SNull) then lower_hilev h s hd else Ok hilev
  end.

Definition ssl_remove (s : aspace) (addr : Z) : res (option Z * aspace) :=
  '(o, s) ← ssl_search s addr false;
  match o with
  | None => Ok (None, s)
  | Some x =>
    g ← deref (segs s !! x);
    if negb (s_base g =? addr) then Ok (None, s)
    else
      ssl ← deref (s_next g);
      let hilev := a_hilevel s in
      s ← ssl_unlink (S hilev) 0 x ssl s;
      o ← seg_at s ssl 0;
      s ← (match o with None => Ok (set_a_tail (s_prev g) s) | Some y => upd_seg y (with_prev (s_prev g)) s end);
      hd ← deref (a_segs s);
      hilev ← lower_hilev hilev s hd;
      let s := set_hilevel hilev s in
      let s := set_ssls (delete ssl (ssls s)) s in
      s ← upd_seg x (with_next None) s;
      Ok (Some x, set_nsegs (a_nsegs s - 1) s)
  end.

(** The insertions of [as_mutate_seglist], from the top down. *)
Fixpoint mutate_loop (fuel : nat) (cdr : option Z) (s : aspace) : res aspace :=
  match cdr with
  | None => Ok s
  | Some car =>
    match fuel with
    | O => Fault
    | S fuel =>
      g ← deref (segs s !! car);
      '(_, s) ← ssl_insert s car;
      mutate_loop fuel (s_prev g) s
    end
  end.

Definition as_mutate_seglist (s : aspace) : res aspace :=
  let cdr := a_tail s in
  let hd := alloc (ssls s) in
  let s := set_ssls (<[hd := replicate SSL_NLEVELS SNull]> (ssls s)) s in
  let s := set_nsegs 0 (set_lrep true (set_spath (replicate SSL_NLEVELS None) (set_a_segs (Some hd) (set_a_tail None s)))) in
  mutate_loop (size (segs s)) cdr s.

(** ** The list *)

Fixpoint forward_search (fuel : nat) (s : aspace) (addr x : Z) : res (Z * aspace) :=
  match fuel with
  | O => Fault
  | S fuel =>
    g ← deref (segs s !! x);
    if s_end g <=? addr then n ← deref (s_next g); forward_search fuel s addr n
    else Ok (x, if s_base g <=? addr then set_seglast (Some x) s else s)
  end.

(** [prev] is the last segment above [addr]; it is not set before the first. *)
Fixpoint reverse_search (fuel : nat) (s : aspace) (addr x : Z) (prev : option Z) : res (Z * aspace) :=
  match fuel with
  | O => Fault
  | S fuel =>
    g ← deref (segs s !! x);
    if addr <? s_base g then p ← deref (s_prev g); reverse_search fuel s addr p (Some x)
    else if addr <? s_end g then Ok (x, set_seglast (Some x) s)
    else prev ← deref prev; Ok (prev, s)
  end.

Definition list_search (s : aspace) (addr : Z) (tail : bool) (loseg : Z) : res (option Z * aspace) :=
  let fuel := S (size (segs s)) in
  let found (r : res (Z * aspace)) := '(x, s) ← r; Ok (Some x, s) in
  let x := default loseg (a_seglast s) in
  g ← deref (segs s !! x);
  let base := s_base g in
  if base <=? addr then
    if addr <? s_end g then Ok (Some x, s)
    else
      hiseg ← deref (a_tail s);
      h ← deref (segs s !! hiseg);
      let lastaddr := s_end h in
      if lastaddr <=? addr then Ok (if tail then Some hiseg else None, s)
      else if s32 (lastaddr - addr) <? s32 (addr - base) then found (reverse_search fuel s addr hiseg None)
      else n ← deref (s_next g); found (forward_search fuel s addr n)
  else
    lo ← deref (segs s !! loseg);
    if addr <? s_base lo then Ok (Some loseg, s)
    else if s32 (addr - s_base lo) <? s32 (base - addr) then found (forward_search fuel s addr loseg)
    else found (reverse_search fuel s addr x None).

Definition as_findseg (s : aspace) (addr : Z) (tail : bool) : res (option Z * aspace) :=
  if a_lrep s then ssl_search s addr tail
  else match a_segs s with None => Ok (None, s) | Some loseg => list_search s addr tail loseg end.

(** The links both ways, unless the new segment overlaps. *)
Definition list_place (s : aspace) (newseg addr eaddr : Z) (o : option Z) : res (option aspace) :=
  match o with
  | None =>
    let s := set_a_tail (Some newseg) (set_a_segs (Some newseg) s) in
    s ← upd_seg newseg (λ g, with_prev None (with_next None g)) s; Ok (Some s)
  | Some x =>
    g ← deref (segs s !! x);
    if s_end g <=? addr then
      s ← upd_seg newseg (λ n, with_next None (with_prev (Some x) n)) s;
      s ← upd_seg x (with_next (Some newseg)) s;
      Ok (Some (set_a_tail (Some newseg) s))
    else if (s_base g <=? addr) || (s_base g <? eaddr) then Ok None
    else
      s ← upd_seg newseg (λ n, with_prev (s_prev g) (with_next (Some x) n)) s;
      s ← upd_seg x (with_prev (Some newseg)) s;
      if bool_decide (a_segs s = Some x) then Ok (Some (set_a_segs (Some newseg) s))
      else p ← deref (s_prev g); s ← upd_seg p (with_next (Some newseg)) s; Ok (Some s)
  end.

Definition list_insert (s : aspace) (newseg : Z) : res (Z * aspace) :=
  new ← deref (segs s !! newseg);
  let addr := s_base new in
  let eaddr := s_end new in
  '(o, s) ← as_findseg s addr true;
  r ← list_place s newseg addr eaddr o;
  match r with
  | None => Ok (-1, s)
  | Some s => Ok (0, set_nsegs (a_nsegs s + 1) (set_seglast (Some newseg) s))
  end.

Definition as_addseg (s : aspace) (newseg : Z) : res (Z * aspace) :=
  s ← (if (AS_MUTATION_THRESH <=? a_nsegs s) && negb (a_lrep s) && negb (is_kas s) then as_mutate_seglist s else Ok s);
  if a_lrep s then ssl_insert s newseg else list_insert s newseg.

(** The neighbours of the segment are linked to each other. *)
Definition list_unlink (s : aspace) (x : Z) (g : seg) : res aspace :=
  s ← (if bool_decide (a_tail s = Some x) then Ok (set_a_tail (s_prev g) s) else n ← deref (s_next g); upd_seg n (with_prev (s_prev g)) s);
  if bool_decide (a_segs s = Some x) then Ok (set_a_segs (s_next g) s) else p ← deref (s_prev g); upd_seg p (with_next (s_next g)) s.

Definition list_remove (s : aspace) (addr : Z) : res (option Z * aspace) :=
  '(o, s) ← as_findseg s addr false;
  match o with
  | None => Ok (None, s)
  | Some x =>
    g ← deref (segs s !! x);
    if negb (s_base g =? addr) then Ok (None, s)
    else
      s ← list_unlink (set_seglast (s_next g) s) x g;
      Ok (Some x, set_nsegs (a_nsegs s - 1) s)
  end.

Definition as_removeseg (s : aspace) (addr : Z) : res (option Z * aspace) :=
  if a_lrep s then ssl_remove s addr else list_remove s addr.

Definition as_segat (s : aspace) (addr : Z) : res (option Z * aspace) :=
  '(o, s) ← as_findseg s addr false;
  match o with
  | None => Ok (None, s)
  | Some x => g ← deref (segs s !! x); Ok (if (s_base g <=? addr) && (addr <? s_end g) then Some x else None, s)
  end.

(** [AS_SEGP(as, as->a_segs)] and [AS_SEGP(as, seg->s_next)] *)
Definition AS_SEGP (s : aspace) (n : option Z) : res (option Z) :=
  if a_lrep s then ssl ← deref n; seg_at s ssl 0 else Ok n.
End segments.

Definition PAGEOFFSET : Z := 4095.
Definition PAGEMASK : Z := u32 (Z.lnot PAGEOFFSET).
Definition KERNELSIZE : Z := 256 * 1024 * 1024.
Definition USRSTACK : Z := u32 (- KERNELSIZE).
Definition AH_DIR : Z := 1.
Definition AH_LO : Z := 0.
Definition AH_HI : Z := 1.
Definition AH_CONTAIN : Z := 2.

(** The range as the call leaves it, if it is valid. *)
Definition valid_va_range (base len minlen : Z) : option (Z * Z) :=
  let lo := base in
  let hi := add32 lo len in
  if hi <? lo then
    if add32 (sub32 0 lo) hi <? minlen then None
    else if sub32 0 lo <? minlen then None
    else Some (base, sub32 0 lo)
  else if hi - lo <? minlen then None
  else Some (base, len).

Definition valid_usr_range (addr len : Z) : bool :=
  let eaddr := add32 addr len in
  negb ((eaddr <=? addr) || (USRSTACK <=? addr) || (USRSTACK <? eaddr)).

(** ** Holes *)

(** [fuel] bounds the holes. *)
Fixpoint gap_loop (fuel : nat) (s : aspace) (forward : bool) (minlen lobound hibound flags addr : Z) (lseg hseg : option Z) : res (option (Z * Z)) :=
  match fuel with
  | O => Fault
  | S fuel =>
    lo ← (match lseg with None => Ok 0 | Some x => g ← deref (segs s !! x); Ok (s_end g) end);
    hi ← (match hseg with None => Ok hibound | Some x => g ← deref (segs s !! x); Ok (s_base g) end);
    let cont :=
      if forward then
        match hseg with
        | None => Ok None
        | Some x => g ← deref (segs s !! x); n ← AS_SEGP s (s_next g); gap_loop fuel s forward minlen lobound hibound flags addr hseg n
        end
      else
        match lseg with
        | None => Ok None
        | Some x => g ← deref (segs s !! x); gap_loop fuel s forward minlen lobound hibound flags addr (s_prev g) lseg
        end in
    if (forward && (hibound <? lo)) || (negb forward && (hi <? lobound)) then Ok None
    else if (hibound <? lo) || (hi <? lobound) then cont
    else
      let lo := if lo <? lobound then lobound else lo in
      let hi := if hibound <? hi then hibound else hi in
      match valid_va_range lo (sub32 hi lo) minlen with
      | Some (b, l) => if (Z.land flags AH_CONTAIN =? 0) || ((b <=? addr) && (addr <? add32 b l)) then Ok (Some (b, l)) else cont
      | None => cont
      end
  end.

(** The hole found, or none (-1). *)
Definition as_gap (s : aspace) (minlen base len flags addr : Z) : res (option (Z * Z) * aspace) :=
  let lobound := base in
  let hibound := add32 lobound len in
  first ← AS_SEGP s (a_segs s);
  match first with
  | None => Ok (valid_va_range base len minlen, s)
  | Some _ =>
    let forward := Z.land flags AH_DIR =? AH_LO in
    '(lseg, hseg, s) ← (
      if forward then
        '(o, s) ← as_findseg s lobound true;
        hseg ← deref o; g ← deref (segs s !! hseg); Ok (s_prev g, Some hseg, s)
      else
        '(o, s) ← as_findseg s hibound true;
        hseg ← deref o; g ← deref (segs s !! hseg);
        if s_end g <? hibound then Ok (Some hseg, None, s) else Ok (s_prev g, Some hseg, s));
    r ← gap_loop (S (S (size (segs s)))) s forward minlen lobound hibound flags addr lseg hseg;
    Ok (r, s)
  end.

(** ** Segments made and freed *)

(** The pages of a range, if they are valid. *)
Definition seg_range (kas : bool) (base size : Z) : option (Z * Z) :=
  let segbase := Z.land base PAGEMASK in
  let segsize := sub32 (Z.land (add32 (add32 base size) PAGEOFFSET) PAGEMASK) segbase in
  match valid_va_range segbase segsize segsize with
  | None => None
  | Some (segbase, segsize) => if negb kas && negb (valid_usr_range segbase segsize) then None else Some (segbase, segsize)
  end.

Section segments.
Context (alloc : gmap Z (list sptr) → Z) (salloc : gmap Z seg → Z) (junk : option Z * option Z).

Definition seg_attach (s : aspace) (base size x : Z) : res (Z * aspace) :=
  s ← upd_seg x (λ g, MkSeg base size (s_prev g) (s_next g)) s;
  as_addseg alloc s x.

Definition seg_alloc (s : aspace) (base size : Z) : res (option Z * aspace) :=
  match seg_range (is_kas s) base size with
  | None => Ok (None, s)
  | Some (segbase, segsize) =>
    let new := salloc (segs s) in
    let s := set_segs (<[new := MkSeg 0 0 junk.1 junk.2]> (segs s)) s in
    '(r, s) ← seg_attach s segbase segsize new;
    if r <? 0 then Ok (None, set_segs (delete new (segs s)) s) else Ok (Some new, s)
  end.

Definition seg_free (s : aspace) (x : Z) : res aspace :=
  g ← deref (segs s !! x);
  '(_, s) ← as_removeseg s (s_base g);
  Ok (set_segs (delete x (segs s)) s).

(** A new address space. *)
Definition as_alloc (r : randstate) : aspace := MkAs false ∅ ∅ None None None [] false 0 0 r.
End segments.
