(* ===== verification/AsInv.v ===== *)
(** * The segments of an address space as a sorted list

    [L] lists the segments by address: name, base and size.  [as_list] and [as_skip] say how
    the linked list and the skip list represent it; [mem x i] says that segment [x] is in
    level [i], and [own x i] that its structure has a pointer for it.  The search goes down the
    levels, and gives the path of the segments before the address. *)

From S2P Require Import Prelude As.

Abbreviation aseg := (Z * (Z * Z))%type.
Definition sid (t : aseg) : Z := t.1.
Definition sbase (t : aseg) : Z := t.2.1.
Definition ssize (t : aseg) : Z := t.2.2.
Definition send (t : aseg) : Z := sbase t + ssize t.

(** ** Sorted and apart *)

Fixpoint apart (L : list aseg) : Prop :=
  match L with [] => True | t :: L => (∀ u, u ∈ L → send t ≤ sbase u) ∧ apart L end.

Lemma apart_app A B : apart (A ++ B) ↔ apart A ∧ apart B ∧ ∀ a b, a ∈ A → b ∈ B → send a ≤ sbase b.
Proof. induction A as [|t A IH]; simpl; [set_solver|]. rewrite IH. set_solver. Qed.

(** A segment has a size and does not wrap. *)
Definition seg_fits (t : aseg) : Prop := 0 ≤ sbase t ∧ 0 < ssize t ∧ send t < W32.

(** What ends at or before an address, and what is after. *)
Fixpoint below (addr : Z) (L : list aseg) : list aseg :=
  match L with [] => [] | t :: L => if send t <=? addr then t :: below addr L else [] end.
Fixpoint above (addr : Z) (L : list aseg) : list aseg :=
  match L with [] => [] | t :: L' => if send t <=? addr then above addr L' else L end.

Lemma below_above addr L : below addr L ++ above addr L = L.
Proof. induction L as [|t L IH]; simpl; [done|]. case_if; simpl; [by rewrite IH|done]. Qed.

Lemma below_ends addr L t : t ∈ below addr L → send t ≤ addr.
Proof. induction L as [|u L IH]; simpl; [set_solver|]. case_if; [|set_solver]. intros [->|?]%elem_of_cons; auto. Qed.

Lemma above_head addr L t B : above addr L = t :: B → addr < send t.
Proof. induction L as [|u L IH]; simpl; [done|]. case_if; [done|]. intros [= -> ->]. lia. Qed.

(** A split at an address is the only one. *)
Lemma split_unique addr A B : (∀ a, a ∈ A → send a ≤ addr) → (∀ t B', B = t :: B' → addr < send t) →
  below addr (A ++ B) = A ∧ above addr (A ++ B) = B.
Proof.
  intros HA HB. induction A as [|a A IH]; simpl.
  - destruct B as [|t B]; [done|]. simpl. specialize (HB t B eq_refl). by rewrite (proj2 (Z.leb_gt _ _)) by lia.
  - rewrite (proj2 (Z.leb_le _ _)) by (apply HA; left). destruct IH as [-> ->]; [|done]. intros x Hx. apply HA. by right.
Qed.

Lemma apart_ends L a b A B : apart L → Forall seg_fits L → L = A ++ a :: B → b ∈ A → send b < send a.
Proof.
  intros Ha Hf -> Hb. apply apart_app in Ha as (_ & _ & Hx). specialize (Hx b a Hb ltac:(left)).
  assert (seg_fits a) as (_ & H & _) by (apply (proj1 (list.Forall_forall _ _) Hf); set_solver). unfold send in *. lia.
Qed.

(** The specification of the searches. *)
Definition find_seg (addr : Z) (tail : bool) (L : list aseg) : option Z :=
  match above addr L with t :: _ => Some (sid t) | [] => if tail then sid <$> list.last L else None end.

(** ** The heap *)

(** The segments are where they are said to be, and linked backward. *)
Record as_common (L : list aseg) (s : aspace) : Prop := {
  ac_seg A t B : L = A ++ t :: B → ∃ g, segs s !! sid t = Some g ∧ s_base g = sbase t ∧ s_size g = ssize t ∧ s_prev g = sid <$> list.last A;
  ac_apart : apart L;
  ac_fits : Forall seg_fits L;
  ac_ids : NoDup (sid <$> L);
  ac_tail : a_tail s = sid <$> list.last L;
  ac_nsegs : a_nsegs s = Z.of_nat (length L);
  ac_rand : length (ssl_randtab (ssl_rand s)) = 71%nat ∧ (ssl_n1p (ssl_rand s) < 71)%nat ∧ (ssl_n2p (ssl_rand s) < 71)%nat;
  ac_hilevel : (a_hilevel s < SSL_NLEVELS)%nat
}.

Record as_list (L : list aseg) (s : aspace) : Prop := {
  al_rep : a_lrep s = false;
  al_first : a_segs s = sid <$> head L;
  al_next A t B : L = A ++ t :: B → ∃ g, segs s !! sid t = Some g ∧ s_next g = sid <$> head B;
  al_last x : a_seglast s = Some x → x ∈ sid <$> L;
  al_hilevel : a_hilevel s = 0%nat
}.

(** The next segment of a level. *)
Definition in_level (mem : Z → nat → bool) (i : nat) (t : aseg) : Prop := Is_true (mem (sid t) i).
#[export] Instance in_level_dec mem i t : Decision (in_level mem i t).
Proof. unfold in_level. apply _. Defined.

Definition nxt (mem : Z → nat → bool) (i : nat) (L : list aseg) : option Z := sid <$> head (filter (in_level mem i) L).
Definition ptr_of (o : option Z) : sptr := match o with Some x => SSeg x | None => SNull end.

Section nodes.
Context (mem own : Z → nat → bool) (na : Z → Z) (hd : Z).

(** The structure at the end of a prefix of the list. *)
Definition node_at (A : list aseg) : Z := match list.last A with Some t => na (sid t) | None => hd end.
(** The structure that points to the next segment of a level. *)
Definition pred_at (i : nat) (A : list aseg) : Z := node_at (filter (in_level mem i) A).

Record nodes_ok (L : list aseg) (m : gmap Z (list sptr)) : Prop := {
  nd_head : ∃ nd, m !! hd = Some nd ∧ ∀ i, (i < SSL_NLEVELS)%nat → nd !! i = Some (ptr_of (nxt mem i L));
  nd_seg A t B : L = A ++ t :: B → ∃ nd, m !! na (sid t) = Some nd ∧
    ∀ i, (i < SSL_NLEVELS)%nat → nd !! i = Some (if own (sid t) i then ptr_of (nxt mem i B) else SUnused);
  nd_distinct t u : t ∈ L → u ∈ L → na (sid t) = na (sid u) → sid t = sid u;
  nd_not_head t : t ∈ L → na (sid t) ≠ hd;
  nd_own t i : t ∈ L → mem (sid t) i = true → own (sid t) i = true
}.

(** The path at a prefix of the list. *)
Definition path_ok (hilev : nat) (A : list aseg) (spath : list (option Z)) : Prop :=
  ∀ i, (i ≤ hilev)%nat → spath !! i = Some (Some (pred_at i A)).
End nodes.

(** The levels below [lv x]. *)
Definition lev_mem (lv : Z → nat) (x : Z) (i : nat) : bool := (i <? lv x)%nat.

Record as_skip (lv : Z → nat) (na : Z → Z) (hd : Z) (L : list aseg) (s : aspace) : Prop := {
  sk_rep : a_lrep s = true;
  sk_head : a_segs s = Some hd;
  sk_nodes : nodes_ok (lev_mem lv) (lev_mem lv) na hd L (ssls s);
  sk_next t : t ∈ L → ∃ g, segs s !! sid t = Some g ∧ s_next g = Some (na (sid t));
  sk_lev t : t ∈ L → (1 ≤ lv (sid t) ≤ S (a_hilevel s))%nat;
  sk_path : length (a_spath s) = SSL_NLEVELS;
  sk_cached : a_spath s !! 0%nat = Some None ∨ ∃ A B, L = A ++ B ∧ path_ok (lev_mem lv) na hd (a_hilevel s) A (a_spath s)
}.

(** The two representations. *)
Definition as_ok (L : list aseg) (s : aspace) : Prop := as_common L s ∧ (as_list L s ∨ ∃ lv na hd, as_skip lv na hd L s).

(** ** Facts *)

Lemma seg_in L s t : as_common L s → t ∈ L → ∃ g, segs s !! sid t = Some g ∧ s_base g = sbase t ∧ s_size g = ssize t ∧ s_end g = send t.
Proof.
  intros Hc Ht. pose proof (proj1 (list.Forall_forall _ _) (ac_fits _ _ Hc) t Ht) as (H1 & H2 & H3).
  apply list_elem_of_split in Ht as (A & B & E). destruct (ac_seg _ _ Hc A t B E) as (g & Eg & Eb & Es & _). exists g. split_and!; try done.
  unfold s_end. rewrite Eb, Es. unfold send in *. apply add32_small; lia.
Qed.

Lemma length_segs L s : as_common L s → (length L ≤ size (segs s))%nat.
Proof.
  intros Hc. rewrite <- (length_fmap sid L), <- (size_dom (D:=gset Z)). rewrite <- (size_list_to_set (C:=gset Z)) by apply (ac_ids _ _ Hc).
  apply subseteq_size. intros x Hx. apply elem_of_list_to_set, list_elem_of_fmap in Hx as (t & -> & Ht).
  destruct (seg_in _ _ _ Hc Ht) as (g & Eg & _). apply elem_of_dom. eauto.
Qed.

Lemma seg_ids_inj L s t u : as_common L s → t ∈ L → u ∈ L → sid t = sid u → t = u.
Proof.
  intros Hc Ht Hu E. destruct (seg_in _ _ _ Hc Ht) as (g & Eg & E1 & E2 & _), (seg_in _ _ _ Hc Hu) as (h & Eh & E3 & E4 & _).
  rewrite E in Eg. assert (g = h) as <- by congruence. destruct t as [x [b n]], u as [y [c k]]. unfold sid, sbase, ssize in *. simpl in *. congruence.
Qed.

Lemma nxt_app mem i A B : filter (in_level mem i) A = [] → nxt mem i (A ++ B) = nxt mem i B.
Proof. intros E. unfold nxt. by rewrite list.filter_app, E. Qed.

Lemma nxt_app_some mem i A B x : nxt mem i A = Some x → nxt mem i (A ++ B) = Some x.
Proof. unfold nxt. rewrite list.filter_app. by destruct (filter (in_level mem i) A). Qed.

(** The segment of a level that is next. *)
Lemma nxt_split mem i L : (nxt mem i L = None ∧ filter (in_level mem i) L = []) ∨
  ∃ A t B, L = A ++ t :: B ∧ filter (in_level mem i) A = [] ∧ in_level mem i t ∧ nxt mem i L = Some (sid t).
Proof.
  induction L as [|t L IH]; [by left|]. unfold nxt in *. rewrite !filter_cons. destruct (decide (in_level mem i t)) as [Ht|Ht].
  - right. exists [], t, L. done.
  - destruct IH as [IH|(A & u & B & -> & E & Hu & Hn)]; [by left|]. right. exists (t :: A), u, B. split; [done|]. split; [|done]. by rewrite filter_cons_False.
Qed.

(** The last segment of a level in a prefix. *)
Lemma level_split mem i A : ∃ Q R, A = Q ++ R ∧ filter (in_level mem i) R = [] ∧ (Q = [] ∨ ∃ Q' t, Q = Q' ++ [t] ∧ in_level mem i t) ∧
  list.last (filter (in_level mem i) A) = list.last Q.
Proof.
  induction A as [|t A IH] using rev_ind; [exists [], []; split_and!; try done; by left|]. rewrite list.filter_app.
  destruct (decide (in_level mem i t)) as [Ht|Ht].
  - exists (A ++ [t]), []. rewrite app_nil_r, filter_cons_True, filter_nil, !last_snoc by done. split_and!; try done. right. by exists A, t.
  - destruct IH as (Q & R & -> & E & HQ & El). exists Q, (R ++ [t]). rewrite (filter_cons_False _ t), filter_nil, app_nil_r, app_assoc by done. split; [done|].
    split; [by rewrite list.filter_app, E, filter_cons_False|]. split; [done|]. done.
Qed.

Lemma pred_at_split mem na hd i A : ∃ Q R, A = Q ++ R ∧ filter (in_level mem i) R = [] ∧ (Q = [] ∨ ∃ Q' t, Q = Q' ++ [t] ∧ in_level mem i t) ∧
  pred_at mem na hd i A = node_at na hd Q.
Proof. destruct (level_split mem i A) as (Q & R & E & HR & HQ & El). exists Q, R. split_and!; try done. unfold pred_at, node_at. by rewrite El. Qed.

(** What the structure at the end of a prefix points to. *)
Lemma node_ptr mem own na hd L m Q R i : nodes_ok mem own na hd L m → L = Q ++ R → (i < SSL_NLEVELS)%nat → (Q = [] ∨ ∃ Q' t, Q = Q' ++ [t] ∧ in_level mem i t) →
  ∃ nd, m !! node_at na hd Q = Some nd ∧ nd !! i = Some (ptr_of (nxt mem i R)).
Proof.
  intros [H1 H2 H3 H4 H5] -> Hi [->|(Q' & t & -> & Ht)].
  - destruct H1 as (nd & E & Hnd). exists nd. split; [done|]. by apply Hnd.
  - destruct (H2 Q' t R) as (nd & E & Hnd); [by rewrite <- app_assoc|]. exists nd. unfold node_at. rewrite last_snoc. split; [done|].
    rewrite Hnd by done. by rewrite (H5 t i); [|set_solver|apply Is_true_true].
Qed.

(** What the path points to. *)
Lemma pred_ptr mem own na hd L m A B i : nodes_ok mem own na hd L m → L = A ++ B → (i < SSL_NLEVELS)%nat →
  ∃ nd, m !! pred_at mem na hd i A = Some nd ∧ nd !! i = Some (ptr_of (nxt mem i B)).
Proof.
  intros Hn -> Hi. destruct (pred_at_split mem na hd i A) as (Q & R & -> & HR & HQ & ->).
  destruct (node_ptr mem own na hd _ m Q (R ++ B) i Hn) as (nd & E & Hnd); [by rewrite app_assoc|done|done|].
  exists nd. split; [done|]. by rewrite nxt_app in Hnd.
Qed.

Lemma lev_mem_level lv i t : in_level (lev_mem lv) i t ↔ (i < lv (sid t))%nat.
Proof. unfold in_level, lev_mem. rewrite Is_true_true. apply Nat.ltb_lt. Qed.

(** Every segment is in level 0. *)
Lemma nxt_zero lv na hd L s B : as_skip lv na hd L s → (∀ t, t ∈ B → t ∈ L) → nxt (lev_mem lv) 0 B = sid <$> head B.
Proof.
  intros Hs HB. unfold nxt. rewrite filter_all; [done|]. intros t Ht. apply lev_mem_level. pose proof (sk_lev _ _ _ _ _ Hs t (HB t Ht)). lia.
Qed.

(** A prefix at whose end a level has a structure. *)
Definition at_level (mem : Z → nat → bool) (i : nat) (Q : list aseg) : Prop := Q = [] ∨ ∃ Q' t, Q = Q' ++ [t] ∧ in_level mem i t.

Lemma at_level_down lv i j Q : at_level (lev_mem lv) i Q → (j ≤ i)%nat → at_level (lev_mem lv) j Q.
Proof. intros [->|(Q' & t & -> & Ht)] Hj; [by left|]. right. exists Q', t. split; [done|]. apply lev_mem_level in Ht. apply lev_mem_level. lia. Qed.

Lemma pred_at_none mem na hd i Q R : filter (in_level mem i) R = [] → at_level mem i Q → pred_at mem na hd i (Q ++ R) = node_at na hd Q.
Proof.
  intros HR HQ. unfold pred_at, node_at. rewrite list.filter_app, HR, app_nil_r. destruct HQ as [->|(Q' & t & -> & Ht)]; [done|].
  by rewrite list.filter_app, filter_cons_True, filter_nil, !last_snoc.
Qed.

Lemma seg_at_ptr s ssl i nd o : ssls s !! ssl = Some nd → nd !! i = Some (ptr_of o) → seg_at s ssl i = Ok o.
Proof. intros E1 E2. unfold seg_at, get_ptr. rewrite E1. cbn [deref mbind res_bind]. rewrite E2. by destruct o. Qed.

(** ** The walk *)

Section search.
Context (lv : Z → nat) (na : Z → Z) (hd : Z) (L : list aseg) (s : aspace) (Hc : as_common L s) (Hs : as_skip lv na hd L s).

Lemma next_struct t : t ∈ L → ∃ g, segs s !! sid t = Some g ∧ s_end g = send t ∧ s_base g = sbase t ∧ s_next g = Some (na (sid t)).
Proof.
  intros Ht. destruct (seg_in _ _ _ Hc Ht) as (g & Eg & E1 & E2 & E3), (sk_next _ _ _ _ _ Hs t Ht) as (h & Eh & E4).
  assert (g = h) as <- by congruence. by exists g.
Qed.

Lemma seg_above_all addr t : t ∈ above addr L → addr < send t.
Proof.
  intros Ht. destruct (above addr L) as [|u B] eqn:E; [by apply not_elem_of_nil in Ht|]. pose proof (above_head _ _ _ _ E) as Hu.
  apply elem_of_cons in Ht as [->|Ht]; [done|]. pose proof (below_above addr L) as EL. rewrite E in EL.
  apply list_elem_of_split in Ht as (B1 & B2 & ->). pose proof (apart_ends L t u (below addr L ++ u :: B1) B2 (ac_apart _ _ Hc) (ac_fits _ _ Hc)) as Hlt.
  enough (send u < send t) by lia. apply Hlt; [|apply elem_of_app; right; left]. rewrite <- app_assoc. by symmetry.
Qed.

Lemma ssl_walk_ok addr i : (i < SSL_NLEVELS)%nat → ∀ fuel Q R, below addr L = Q ++ R → (length R < fuel)%nat → at_level (lev_mem lv) i Q →
  ssl_walk fuel s addr i (node_at na hd Q) = Ok (pred_at (lev_mem lv) na hd i (below addr L), nxt (lev_mem lv) i (above addr L)).
Proof.
  intros Hi. pose proof (below_above addr L) as EL. induction fuel as [|fuel IH]; intros Q R E Hf HQ; [lia|]. cbn [ssl_walk].
  destruct (node_ptr _ _ _ _ _ _ Q (R ++ above addr L) i (sk_nodes _ _ _ _ _ Hs)) as (nd & E1 & E2); [by rewrite app_assoc, <- E|done|done|].
  rewrite (seg_at_ptr _ _ _ _ _ E1 E2). cbn [mbind res_bind].
  destruct (nxt_split (lev_mem lv) i R) as [[_ HR]|(R1 & t & R2 & -> & HR & Ht & Hn)].
  - rewrite nxt_app by done. rewrite E, pred_at_none by done.
    destruct (nxt_split (lev_mem lv) i (above addr L)) as [[-> _]|(B1 & t & B2 & EB & _ & _ & ->)]; [done|].
    assert (t ∈ above addr L) as Hin by (rewrite EB; set_solver).
    destruct (next_struct t) as (g & Eg & Ee & _ & _); [rewrite <- EL; set_solver|]. rewrite Eg. cbn [deref mbind res_bind].
    rewrite Ee. pose proof (seg_above_all addr t Hin). by rewrite (proj2 (Z.leb_gt _ _)) by lia.
  - rewrite (nxt_app_some _ _ _ _ _ Hn).
    destruct (next_struct t) as (g & Eg & Ee & _ & En); [rewrite <- EL, E; set_solver|]. rewrite Eg. cbn [deref mbind res_bind].
    rewrite Ee, (proj2 (Z.leb_le _ _)) by (apply (below_ends addr L); rewrite E; set_solver). rewrite En. cbn [deref mbind res_bind].
    rewrite <- (IH (Q ++ R1 ++ [t]) R2).
    + f_equal. unfold node_at. by rewrite app_assoc, last_snoc.
    + rewrite E. by rewrite <- !app_assoc.
    + rewrite length_app in Hf. simpl in Hf. lia.
    + right. exists (Q ++ R1), t. by rewrite app_assoc.
Qed.

Lemma ssl_down_ok addr : ∀ i Q R p, (i < SSL_NLEVELS)%nat → length p = SSL_NLEVELS → below addr L = Q ++ R → at_level (lev_mem lv) i Q →
  ∃ p', ssl_down i s addr (node_at na hd Q) p = Ok (p', nxt (lev_mem lv) 0 (above addr L)) ∧ length p' = SSL_NLEVELS ∧
    path_ok (lev_mem lv) na hd i (below addr L) p' ∧ ∀ j, (i < j)%nat → p' !! j = p !! j.
Proof.
  induction i as [|i IH]; intros Q R p Hi Hp E HQ.
  - cbn [ssl_down]. rewrite (ssl_walk_ok addr 0 Hi _ Q R E); [|pose proof (length_segs _ _ Hc); pose proof (below_above addr L) as EL; apply (f_equal length) in EL, E; rewrite length_app in EL, E; lia|done].
    cbn [mbind res_bind]. eexists. split; [done|]. rewrite length_insert. split; [done|]. split.
    + intros j Hj. assert (j = 0%nat) as -> by lia. apply list_lookup_insert_eq. lia.
    + intros j Hj. by apply list_lookup_insert_ne; lia.
  - cbn [ssl_down]. rewrite (ssl_walk_ok addr (S i) Hi _ Q R E); [|pose proof (length_segs _ _ Hc); pose proof (below_above addr L) as EL; apply (f_equal length) in EL, E; rewrite length_app in EL, E; lia|done].
    cbn [mbind res_bind]. destruct (pred_at_split (lev_mem lv) na hd (S i) (below addr L)) as (Q1 & R1 & E1 & HR1 & HQ1 & Ep). rewrite Ep.
    destruct (IH Q1 R1 (<[S i := Some (node_at na hd Q1)]> p)) as (p' & Ed & Hl & Hok & Hr); [lia|by rewrite length_insert|done|by apply (at_level_down lv (S i)); [|lia]|].
    rewrite Ed. exists p'. split_and!; try done.
    + intros j Hj. destruct (decide (j = S i)) as [->|]; [|apply Hok; lia]. rewrite Hr by lia. rewrite list_lookup_insert_eq by lia. by rewrite Ep.
    + intros j Hj. rewrite Hr by lia. apply list_lookup_insert_ne. lia.
Qed.

Lemma common_spath p : as_common L (set_spath p s).
Proof using Hc. clear Hs. destruct Hc. by constructor. Qed.

Lemma skip_spath p A B : L = A ++ B → length p = SSL_NLEVELS → path_ok (lev_mem lv) na hd (a_hilevel s) A p → as_skip lv na hd L (set_spath p s).
Proof using Hs. clear Hc. intros E Hp Hok. destruct Hs. constructor; try done. right. by exists A, B. Qed.

Lemma found_above addr tail : nxt (lev_mem lv) 0 (above addr L) = sid <$> head (above addr L) →
  match nxt (lev_mem lv) 0 (above addr L) with None => if tail : bool then a_tail s else None | Some x => Some x end = find_seg addr tail L.
Proof. intros ->. unfold find_seg. destruct (above addr L); simpl; [|done]. destruct tail; [|done]. apply (ac_tail _ _ Hc). Qed.

Lemma nxt_above addr : nxt (lev_mem lv) 0 (above addr L) = sid <$> head (above addr L).
Proof. apply (nxt_zero lv na hd L s); [done|]. intros t Ht. rewrite <- (below_above addr L). set_solver. Qed.

Lemma ssl_search_head_ok addr tail : ∃ p, ssl_search_head s addr tail = Ok (find_seg addr tail L, set_spath p s) ∧ length p = SSL_NLEVELS ∧
  path_ok (lev_mem lv) na hd (a_hilevel s) (below addr L) p.
Proof.
  unfold ssl_search_head. rewrite (sk_head _ _ _ _ _ Hs). cbn [deref mbind res_bind].
  destruct (ssl_down_ok addr (a_hilevel s) [] (below addr L) (a_spath s)) as (p & E & Hl & Hok & _); [apply (ac_hilevel _ _ Hc)|apply (sk_path _ _ _ _ _ Hs)|done|by left|].
  change (node_at na hd []) with hd in E. rewrite E. cbn [mbind res_bind]. exists p. split_and!; try done.
  change (a_tail (set_spath p s)) with (a_tail s). by rewrite found_above by apply nxt_above.
Qed.

(** ** The cached path *)

Lemma path_patch_ok t nd : ssls s !! na (sid t) = Some nd →
  (∀ i, (i < SSL_NLEVELS)%nat → ∃ o, nd !! i = Some (if lev_mem lv (sid t) i then ptr_of o else SUnused)) →
  ∀ n i p, (i + n = SSL_NLEVELS)%nat → length p = SSL_NLEVELS → ∃ p', path_patch n i s (na (sid t)) p = Ok p' ∧ length p' = SSL_NLEVELS ∧
    ∀ j, (j < SSL_NLEVELS)%nat → p' !! j = if bool_decide (i ≤ j)%nat && lev_mem lv (sid t) j then Some (Some (na (sid t))) else p !! j.
Proof.
  intros End Hnd. induction n as [|n IH]; intros i p Hi Hp; cbn [path_patch].
  - exists p. split_and!; try done. intros j Hj. by rewrite bool_decide_false by lia.
  - unfold get_ptr. rewrite End. cbn [deref mbind res_bind]. destruct (Hnd i) as (o & ->); [lia|]. cbn [deref mbind res_bind].
    destruct (lev_mem lv (sid t) i) eqn:El.
    + rewrite bool_decide_false by (by destruct o). destruct (IH (S i) (<[i := Some (na (sid t))]> p)) as (p' & E & Hl & Hr); [lia|by rewrite length_insert|].
      exists p'. split_and!; try done. intros j Hj. rewrite Hr by done. destruct (decide (j = i)) as [->|].
      * rewrite El. rewrite list_lookup_insert_eq by lia. by rewrite bool_decide_false, bool_decide_true by lia.
      * rewrite list_lookup_insert_ne by done. by rewrite (bool_decide_ext (S i ≤ j)%nat (i ≤ j)%nat) by lia.
    + rewrite bool_decide_true by done. exists p. split_and!; try done. intros j Hj. case_bool_decide; [|done]. simpl.
      unfold lev_mem in *. apply Nat.ltb_ge in El. by rewrite (proj2 (Nat.ltb_ge _ _)) by lia.
Qed.

Lemma pred_at_step i A t : pred_at (lev_mem lv) na hd i (A ++ [t]) = if lev_mem lv (sid t) i then na (sid t) else pred_at (lev_mem lv) na hd i A.
Proof.
  unfold pred_at, node_at. rewrite list.filter_app. destruct (lev_mem lv (sid t) i) eqn:E.
  - by rewrite filter_cons_True, filter_nil, last_snoc by (by unfold in_level; rewrite E).
  - rewrite filter_cons_False, filter_nil, app_nil_r by (rewrite lev_mem_level; unfold lev_mem in E; apply Nat.ltb_ge in E; lia). done.
Qed.

Lemma path_patch_step A t B p : L = A ++ t :: B → length p = SSL_NLEVELS → path_ok (lev_mem lv) na hd (a_hilevel s) A p →
  ∃ p', path_patch SSL_NLEVELS 0 s (na (sid t)) p = Ok p' ∧ length p' = SSL_NLEVELS ∧ path_ok (lev_mem lv) na hd (a_hilevel s) (A ++ [t]) p'.
Proof.
  intros E Hp Hok. destruct (nd_seg _ _ _ _ _ _ (sk_nodes _ _ _ _ _ Hs) A t B E) as (nd & End & Hnd).
  destruct (path_patch_ok t nd End) with (n := SSL_NLEVELS) (i := 0%nat) (p := p) as (p' & Ep & Hl & Hr); [intros i Hi; eauto|done|done|].
  exists p'. split_and!; try done. intros j Hj. pose proof (ac_hilevel _ _ Hc). rewrite Hr by lia. rewrite bool_decide_true by lia. rewrite pred_at_step. simpl.
  destruct (lev_mem lv (sid t) j); [done|]. by apply Hok.
Qed.

Lemma prefix_ends A B addr : L = A ++ B → (∀ u, list.last A = Some u → send u ≤ addr) → ∀ a, a ∈ A → send a ≤ addr.
Proof using Hc.
  clear Hs. intros E Hu a Ha. destruct A as [|v A _] using rev_ind; [set_solver|]. rewrite last_snoc in Hu. specialize (Hu v eq_refl).
  apply elem_of_app in Ha as [Ha|Ha]; [|apply list_elem_of_singleton in Ha as ->; done].
  enough (send a < send v) by lia. apply (apart_ends L v a A B (ac_apart _ _ Hc) (ac_fits _ _ Hc)); [|done]. by rewrite <- app_assoc in E.
Qed.

Lemma node_at_zero A B : L = A ++ B → pred_at (lev_mem lv) na hd 0 A = node_at na hd A.
Proof using Hs.
  clear Hc. intros E. destruct A as [|t A _] using rev_ind; [done|]. rewrite pred_at_step. unfold node_at. rewrite last_snoc.
  pose proof (sk_lev _ _ _ _ _ Hs t ltac:(rewrite E; set_solver)). unfold lev_mem. by rewrite (proj2 (Nat.ltb_lt _ _)) by lia.
Qed.

Lemma next_seg A B : L = A ++ B → seg_at s (pred_at (lev_mem lv) na hd 0 A) 0 = Ok (sid <$> head B).
Proof using Hs.
  clear Hc. intros E. destruct (pred_ptr _ _ _ _ _ _ A B 0 (sk_nodes _ _ _ _ _ Hs) E) as (nd & E1 & E2); [unfold SSL_NLEVELS; lia|].
  rewrite (nxt_zero lv na hd L s) in E2; [|done|rewrite E; set_solver]. by apply (seg_at_ptr _ _ _ _ _ E1 E2).
Qed.
End search.

Lemma set_spath_same s : set_spath (a_spath s) s = s.
Proof. by destruct s. Qed.

Lemma ssl_search_ok lv na hd L s addr tail : as_common L s → as_skip lv na hd L s →
  ∃ p, ssl_search s addr tail = Ok (find_seg addr tail L, set_spath p s) ∧ length p = SSL_NLEVELS ∧ path_ok (lev_mem lv) na hd (a_hilevel s) (below addr L) p.
Proof.
  intros Hc Hs. pose proof (ssl_search_head_ok lv na hd L s Hc Hs addr tail) as Hhead. unfold ssl_search.
  destruct (sk_cached _ _ _ _ _ Hs) as [->|(A & B & E & Hok)]; [done|]. rewrite (Hok 0%nat) by lia. cbn [deref mbind res_bind].
  rewrite (next_seg lv na hd L s Hs A B E). cbn [mbind res_bind]. destruct B as [|t B]; [done|]. cbn [head fmap option_fmap option_map].
  destruct (ac_seg _ _ Hc A t B E) as (g & Eg & _ & _ & Epr). rewrite Eg. cbn [deref mbind res_bind].
  destruct (next_struct lv na hd L s Hc Hs t) as (g' & Eg' & Eend & _ & Enx); [rewrite E; set_solver|]. assert (g' = g) as -> by congruence.
  set (bl := match list.last A with None => true | Some u => send u <=? addr end).
  assert ((match s_prev g with None => Ok true | Some p => h ← deref (segs s !! p); Ok (s_end h <=? addr) end) = Ok bl) as ->.
  { rewrite Epr. unfold bl. destruct (list.last A) as [u|] eqn:Eu; [|done]. simpl.
    destruct (next_struct lv na hd L s Hc Hs u) as (h & -> & Eh & _); [rewrite E; apply last_Some_elem_of in Eu; set_solver|]. simpl. by rewrite Eh. }
  cbn [mbind res_bind]. rewrite Eend. destruct ((addr <? send t) && bl) eqn:Eb.
  { apply andb_prop in Eb as [E1 E2]. exists (a_spath s). rewrite set_spath_same.
    destruct (split_unique addr A (t :: B)) as [Ebl Eab].
    { apply (prefix_ends L s Hc A (t :: B)); [done|]. intros u Hu. unfold bl in E2. rewrite Hu in E2. lia. }
    { intros u B' [= <- <-]. lia. }
    rewrite <- E in Ebl, Eab. unfold find_seg. rewrite Eab, Ebl. split_and!; [done|apply (sk_path _ _ _ _ _ Hs)|done]. }
  rewrite Enx. cbn [deref mbind res_bind].
  assert (seg_at s (na (sid t)) 0 = Ok (sid <$> head B)) as ->.
  { assert (L = (A ++ [t]) ++ B) as E2 by (by rewrite <- app_assoc). rewrite <- (next_seg lv na hd L s Hs _ _ E2), (node_at_zero lv na hd L s Hs _ _ E2). unfold node_at. by rewrite last_snoc. }
  cbn [mbind res_bind]. destruct B as [|u B]; [done|]. cbn [head fmap option_fmap option_map].
  destruct (next_struct lv na hd L s Hc Hs u) as (h & -> & Eh & _); [rewrite E; set_solver|]. cbn [deref mbind res_bind]. rewrite Eh.
  destruct ((send t <=? addr) && (addr <? send u)) eqn:E2; [|done]. apply andb_prop in E2 as [E1 E2].
  destruct (path_patch_step lv na hd L s Hc Hs A t (u :: B) (a_spath s) E (sk_path _ _ _ _ _ Hs) Hok) as (p & -> & Hl & Hp). cbn [mbind res_bind].
  destruct (split_unique addr (A ++ [t]) (u :: B)) as [Ebl Eab].
  { apply (prefix_ends L s Hc (A ++ [t]) (u :: B)); [by rewrite <- app_assoc|]. intros v. rewrite last_snoc. intros [= <-]. lia. }
  { intros v B' [= <- <-]. lia. }
  rewrite <- app_assoc in Ebl, Eab. simpl in Ebl, Eab. rewrite <- E in Ebl, Eab. exists p. unfold find_seg. by rewrite Eab, Ebl.
Qed.
