(* ===== verification/AsSegs.v ===== *)
(** * The segments of an address space: the doubly linked part

    Adding a segment between two prefixes of the list, or taking it out: what has to be
    changed of its neighbours, for both representations, and the specification of the
    operations on the sorted list.  First the nodes of the skip list and their pointers. *)

From S2P Require Import Prelude As AsInv.

Definition fupd {A} (f : Z → A) (x : Z) (v : A) : Z → A := λ y, if bool_decide (y = x) then v else f y.
Definition fupd2 (f : Z → nat → bool) (x : Z) (i : nat) (b : bool) : Z → nat → bool := fupd f x (λ j, if (j =? i)%nat then b else f x j).

Lemma fupd_eq {A} (f : Z → A) x v : fupd f x v x = v.
Proof. unfold fupd. by rewrite bool_decide_true. Qed.
Lemma fupd_ne {A} (f : Z → A) x v y : y ≠ x → fupd f x v y = f y.
Proof. intros H. unfold fupd. by rewrite bool_decide_false. Qed.
Lemma fupd2_ne f x i b y j : y ≠ x ∨ j ≠ i → fupd2 f x i b y j = f y j.
Proof. intros H. unfold fupd2, fupd. case_bool_decide; [|done]. subst. destruct (Nat.eqb_spec j i); [naive_solver|done]. Qed.
Lemma fupd2_eq f x i b : fupd2 f x i b x i = b.
Proof. unfold fupd2. by rewrite fupd_eq, Nat.eqb_refl. Qed.

(** ** The next of a level *)

Lemma level_cons mem i t B : filter (in_level mem i) (t :: B) = if mem (sid t) i then t :: filter (in_level mem i) B else filter (in_level mem i) B.
Proof.
  destruct (mem (sid t) i) eqn:E.
  - rewrite filter_cons_True; [done|]. unfold in_level. by rewrite E.
  - rewrite filter_cons_False; [done|]. unfold in_level. rewrite E. by intros [].
Qed.

Lemma filter_level_ext mem mem' i (B : list aseg) : (∀ t, t ∈ B → mem (sid t) i = mem' (sid t) i) → filter (in_level mem i) B = filter (in_level mem' i) B.
Proof. intros H. induction B as [|t B IH]; [done|]. rewrite !level_cons, (H t), IH by set_solver. done. Qed.

Lemma nxt_ext mem mem' i (B : list aseg) : (∀ t, t ∈ B → mem (sid t) i = mem' (sid t) i) → nxt mem i B = nxt mem' i B.
Proof. intros H. unfold nxt. by rewrite (filter_level_ext mem mem'). Qed.

Lemma nxt_cons mem i t B : nxt mem i (t :: B) = if mem (sid t) i then Some (sid t) else nxt mem i B.
Proof. unfold nxt. rewrite level_cons. by destruct (mem (sid t) i). Qed.

Lemma nxt_app_eq mem i A B : nxt mem i (A ++ B) = match nxt mem i A with Some x => Some x | None => nxt mem i B end.
Proof. unfold nxt. rewrite list.filter_app. by destruct (filter (in_level mem i) A). Qed.

Lemma nxt_skip mem i A t B : mem (sid t) i = false → nxt mem i (A ++ t :: B) = nxt mem i (A ++ B).
Proof. intros H. by rewrite !nxt_app_eq, nxt_cons, H. Qed.

Lemma nxt_none mem i (A : list aseg) : nxt mem i A = None ↔ filter (in_level mem i) A = [].
Proof. unfold nxt. by destruct (filter (in_level mem i) A). Qed.

Lemma nxt_not_none mem i (A : list aseg) v : v ∈ A → in_level mem i v → nxt mem i A ≠ None.
Proof. intros H1 H2 E%nxt_none. assert (v ∈ filter (in_level mem i) A) as H by (by apply list_elem_of_filter). rewrite E in H. by apply not_elem_of_nil in H. Qed.

(** ** Splits *)

Lemma split_inj (L A A' B B' : list aseg) t u : NoDup (sid <$> L) → L = A ++ t :: B → L = A' ++ u :: B' → sid t = sid u → A = A' ∧ t = u ∧ B = B'.
Proof.
  intros Hn -> E Et. revert A' E. induction A as [|a A IH]; intros [|a' A'] E; simpl in *.
  - by injection E as -> ->.
  - injection E as -> ->. exfalso. apply list.NoDup_cons in Hn as [Hn _]. apply Hn. apply list_elem_of_fmap. exists u. split; [done|set_solver].
  - injection E as -> <-. exfalso. apply list.NoDup_cons in Hn as [Hn _]. apply Hn. apply list_elem_of_fmap. exists t. split; [done|set_solver].
  - injection E as -> E. apply list.NoDup_cons in Hn as [_ Hn]. by destruct (IH Hn A' E) as (-> & -> & ->).
Qed.

(** A segment is before another, is it, or is after it. *)
Lemma split_cases (A B A' B' : list aseg) t u : A ++ t :: B = A' ++ u :: B' →
  (∃ A2, A = A' ++ u :: A2 ∧ B' = A2 ++ t :: B) ∨ (A' = A ∧ u = t ∧ B' = B) ∨ ∃ B1, B = B1 ++ u :: B' ∧ A' = A ++ t :: B1.
Proof.
  revert A'. induction A as [|a A IH]; intros [|a' A'] E; simpl in *.
  - injection E as -> ->. right. by left.
  - injection E as -> ->. right. right. by exists A'.
  - injection E as -> <-. left. by exists A.
  - injection E as -> E. destruct (IH A' E) as [(A2 & -> & ->)|[(-> & -> & ->)|(B1 & -> & ->)]]; [left; by exists A2|right; by left|right; right; by exists B1].
Qed.

Lemma ids_mid (A B : list aseg) t : NoDup (sid <$> A ++ t :: B) → (∀ u, u ∈ A → sid u ≠ sid t) ∧ (∀ u, u ∈ B → sid u ≠ sid t).
Proof.
  intros Hn. split; intros u Hu E; apply list_elem_of_split in Hu as (C & D & ->).
  - destruct (split_inj _ (C ++ u :: D) C B (D ++ t :: B) t u Hn) as (E1 & _); [done|by rewrite <- app_assoc|done|].
    apply (f_equal length) in E1. rewrite length_app in E1. simpl in E1. lia.
  - destruct (split_inj _ A (A ++ t :: C) (C ++ u :: D) D t u Hn) as (E1 & _); [done|by rewrite <- app_assoc|done|].
    apply (f_equal length) in E1. rewrite length_app in E1. simpl in E1. lia.
Qed.

(** ** The structures *)

Lemma nodes_ext mem own na hd mem' own' na' L m : nodes_ok mem own na hd L m →
  (∀ t i, t ∈ L → (i < SSL_NLEVELS)%nat → mem (sid t) i = mem' (sid t) i ∧ own (sid t) i = own' (sid t) i) → (∀ t, t ∈ L → na (sid t) = na' (sid t)) →
  (∀ t i, t ∈ L → mem' (sid t) i = true → own' (sid t) i = true) → nodes_ok mem' own' na' hd L m.
Proof.
  intros [H1 H2 H3 H4 H5] He Hna H5'. constructor.
  - destruct H1 as (nd & E & Hnd). exists nd. split; [done|]. intros i Hi. rewrite Hnd by done. do 2 f_equal. apply nxt_ext. intros t Ht. by apply He.
  - intros A t B E. destruct (H2 A t B E) as (nd & Em & Hnd). assert (t ∈ L) as Ht by (rewrite E; set_solver). rewrite <- Hna by done. exists nd. split; [done|]. intros i Hi.
    rewrite Hnd by done. destruct (He t i Ht Hi) as [_ ->]. destruct (own' (sid t) i); [|done]. do 2 f_equal. apply nxt_ext.
    intros u Hu. apply He; [|done]. rewrite E. set_solver.
  - intros t u Ht Hu. rewrite <- !Hna by done. by apply H3.
  - intros t Ht. rewrite <- Hna by done. by apply H4.
  - done.
Qed.

(** A structure that is in no level. *)
Lemma nodes_add mem own na hd A t B m ssl : nodes_ok mem own na hd (A ++ B) m → NoDup (sid <$> A ++ t :: B) → m !! ssl = None →
  nodes_ok (fupd mem (sid t) (λ _, false)) (fupd own (sid t) (λ _, false)) (fupd na (sid t) ssl) hd (A ++ t :: B) (<[ssl := replicate SSL_NLEVELS SUnused]> m).
Proof.
  intros [H1 H2 H3 H4 H5] Hn Hssl. destruct (ids_mid _ _ _ Hn) as [HA HB].
  assert (∀ u, u ∈ A ++ B → sid u ≠ sid t) as Hne by (intros u [Hu|Hu]%elem_of_app; auto).
  assert (∀ C i, (∀ u, u ∈ C → u ∈ A ++ B) → nxt (fupd mem (sid t) (λ _, false)) i C = nxt mem i C) as Hx.
  { intros C i HC. apply nxt_ext. intros u Hu. by rewrite fupd_ne by auto. }
  assert (∀ u, u ∈ A ++ B → na (sid u) ≠ ssl) as Hna.
  { intros u Hu <-. apply list_elem_of_split in Hu as (C & D & E). destruct (H2 C u D E) as (nd & Ed & _). congruence. }
  assert (hd ≠ ssl) as Hhd by (destruct H1 as (nd & E & _); congruence).
  assert (∀ u, u ∈ A ++ t :: B → u = t ∨ u ∈ A ++ B) as Hin by set_solver.
  constructor.
  - destruct H1 as (nd & E & Hnd). exists nd. split; [by rewrite lookup_insert_ne|]. intros i Hi. rewrite Hnd by done.
    rewrite nxt_skip by (by rewrite fupd_eq). by rewrite Hx.
  - intros A' u B' [(A2 & -> & ->)|[(-> & -> & ->)|(B1 & -> & ->)]]%split_cases.
    + destruct (H2 A' u (A2 ++ B)) as (nd & E & Hnd); [by rewrite <- app_assoc|]. assert (u ∈ (A' ++ u :: A2) ++ B) as Hu by set_solver.
      rewrite !(fupd_ne _ _ _ _ (Hne u Hu)). exists nd. rewrite lookup_insert_ne by (apply not_eq_sym, Hna, Hu). split; [done|]. intros i Hi. rewrite Hnd by done.
      rewrite nxt_skip by (by rewrite fupd_eq). by rewrite Hx by set_solver.
    + rewrite !fupd_eq. exists (replicate SSL_NLEVELS SUnused). split; [by rewrite lookup_insert_eq|]. intros i Hi. by apply lookup_replicate_2.
    + destruct (H2 (A ++ B1) u B') as (nd & E & Hnd); [by rewrite <- app_assoc|]. assert (u ∈ A ++ B1 ++ u :: B') as Hu by set_solver.
      rewrite !(fupd_ne _ _ _ _ (Hne u Hu)). exists nd. rewrite lookup_insert_ne by (apply not_eq_sym, Hna, Hu). split; [done|]. intros i Hi. rewrite Hnd by done.
      by rewrite Hx by set_solver.
  - intros u v [->|Hu]%Hin [->|Hv]%Hin; [done| | |]; rewrite ?fupd_eq, ?fupd_ne by auto; auto.
    + intros E. by destruct (Hna v Hv).
    + intros E. by destruct (Hna u Hu).
  - intros u [->|Hu]%Hin; [by rewrite fupd_eq|]. rewrite fupd_ne by auto. auto.
  - intros u i [->|Hu]%Hin; [by rewrite fupd_eq|]. rewrite !fupd_ne by auto. auto.
Qed.

(** A structure that is in no level goes. *)
Lemma nodes_drop mem own na hd A t B m m' : nodes_ok mem own na hd (A ++ t :: B) m → NoDup (sid <$> A ++ t :: B) → (∀ i, (i < SSL_NLEVELS)%nat → mem (sid t) i = false) →
  (∀ y, y ≠ na (sid t) → m' !! y = m !! y) →
  nodes_ok mem own na hd (A ++ B) m'.
Proof.
  intros [H1 H2 H3 H4 H5] Hn Hm Hm'. destruct (ids_mid _ _ _ Hn) as [HA HB].
  assert (∀ u, u ∈ A ++ B → na (sid t) ≠ na (sid u)) as Hne.
  { intros u Hu E. apply H3 in E; [|set_solver..]. apply elem_of_app in Hu as [Hu|Hu]; [by destruct (HA u Hu)|by destruct (HB u Hu)]. }
  constructor.
  - destruct H1 as (nd & E & Hnd). exists nd. rewrite Hm' by (apply not_eq_sym, H4; set_solver). split; [done|]. intros i Hi. rewrite Hnd by done. by rewrite nxt_skip by auto.
  - intros A' u B' E. assert (u ∈ A ++ B) as Hu by (rewrite E; set_solver). rewrite Hm' by (apply not_eq_sym; auto).
    assert ((∃ A2, A = A' ++ u :: A2 ∧ B' = A2 ++ B) ∨ ∃ B1, B = B1 ++ u :: B' ∧ A' = A ++ B1) as [(A2 & -> & ->)|(B1 & -> & ->)].
    { apply app_eq_inv in E as [(C & E1 & E2)|(C & E1 & E2)].
      - destruct C as [|c C]; simpl in E2.
        + right. exists []. rewrite app_nil_r in E1. subst. by rewrite app_nil_r.
        + injection E2 as <- ->. left. by exists C.
      - right. by exists C. }
    + destruct (H2 A' u (A2 ++ t :: B)) as (nd & Ed & Hnd); [by rewrite <- app_assoc|]. exists nd. split; [done|]. intros i Hi. rewrite Hnd by done. by rewrite nxt_skip by auto.
    + destruct (H2 (A ++ t :: B1) u B') as (nd & Ed & Hnd); [by rewrite <- app_assoc|]. by exists nd.
  - intros u v Hu Hv. apply H3; set_solver.
  - intros u Hu. apply H4. set_solver.
  - intros u i Hu. apply H5. set_solver.
Qed.

(** A structure gets its pointer of a level. *)
Lemma nodes_own mem own na hd A t B m i nd : nodes_ok mem own na hd (A ++ t :: B) m → NoDup (sid <$> A ++ t :: B) → (i < SSL_NLEVELS)%nat → m !! na (sid t) = Some nd →
  nodes_ok mem (fupd2 own (sid t) i true) na hd (A ++ t :: B) (<[na (sid t) := <[i := ptr_of (nxt mem i B)]> nd]> m).
Proof.
  intros [H1 H2 H3 H4 H5] Hn Hi Hnd. constructor; try done.
  - destruct H1 as (n & E & Hh). exists n. rewrite lookup_insert_ne by (apply H4; set_solver). done.
  - intros A' u B' E. destruct (H2 A' u B' E) as (n & En & Hu). destruct (decide (sid u = sid t)) as [Eu|Hne].
    + destruct (split_inj _ A A' B B' t u Hn eq_refl E (eq_sym Eu)) as (<- & <- & <-). assert (n = nd) as -> by congruence.
      eexists. rewrite lookup_insert_eq. split; [done|]. intros j Hj. destruct (decide (j = i)) as [->|Hji].
      * rewrite list_lookup_insert_eq by (apply (lookup_lt_Some _ _ _ (Hu i Hi))). by rewrite fupd2_eq.
      * rewrite list_lookup_insert_ne by done. rewrite fupd2_ne by (by right). by apply Hu.
    + exists n. rewrite lookup_insert_ne by (intros Ena; apply Hne; symmetry; apply H3; [set_solver|rewrite E; set_solver|done]). split; [done|].
      intros j Hj. rewrite fupd2_ne by (by left). by apply Hu.
  - intros u j Hu Hm. specialize (H5 u j Hu Hm). destruct (decide (sid u = sid t ∧ j = i)) as [[E ->]|Hne]; [rewrite E; apply fupd2_eq|]. rewrite fupd2_ne; [done|]. destruct (decide (sid u = sid t)); [right; naive_solver|by left].
Qed.

(** The structure before a segment in a level points to it, or no more. *)
Section nodes_mem.
Context (mem own : Z → nat → bool) (na : Z → Z) (hd : Z) (A : list aseg) (t : aseg) (B : list aseg) (m : gmap Z (list sptr)) (i : nat) (b : bool) (nd : list sptr)
  (Hok : nodes_ok mem own na hd (A ++ t :: B) m) (Hn : NoDup (sid <$> A ++ t :: B)) (Hi : (i < SSL_NLEVELS)%nat) (Hb : b = true → own (sid t) i = true)
  (HA : ∀ u, u ∈ A → own (sid u) i = true → mem (sid u) i = true) (Hnd : m !! pred_at mem na hd i A = Some nd).

#[local] Abbreviation mem' := (fupd2 mem (sid t) i b).
#[local] Abbreviation p := (pred_at mem na hd i A).
#[local] Abbreviation m' := (<[p := <[i := ptr_of (if b then Some (sid t) else nxt mem i B)]> nd]> m).

Lemma mem'_nxt j (C : list aseg) : (j ≠ i ∨ ∀ u, u ∈ C → sid u ≠ sid t) → nxt mem' j C = nxt mem j C.
Proof. clear. intros H. apply nxt_ext. intros u Hu. apply fupd2_ne. destruct H as [H|H]; [by right|left; by apply H]. Qed.

Lemma mem'_rest (C : list aseg) : (∀ u, u ∈ C → sid u ≠ sid t) → filter (in_level mem i) C = [] →
  nxt mem' i (C ++ t :: B) = if b then Some (sid t) else nxt mem i B.
Proof.
  intros HC E. destruct (ids_mid _ _ _ Hn) as [_ HB]. rewrite nxt_app_eq, mem'_nxt by (by right). rewrite (proj2 (nxt_none mem i C) E), nxt_cons, fupd2_eq.
  by rewrite (mem'_nxt i B) by (by right).
Qed.

Lemma mem'_before (C : list aseg) j : (∀ u, u ∈ C → sid u ≠ sid t) → (j ≠ i ∨ nxt mem i C ≠ None) → nxt mem' j (C ++ t :: B) = nxt mem j (C ++ t :: B).
Proof.
  intros HC [H|H]; [apply mem'_nxt; by left|]. destruct (decide (j = i)) as [->|Hj]; [|apply mem'_nxt; by left].
  rewrite !nxt_app_eq, mem'_nxt by (by right). by destruct (nxt mem i C).
Qed.

(** A structure keeps its pointers, or is the one that changes. *)
Lemma mem'_keep ssl n R (o : nat → bool) : (∀ u, u ∈ R → sid u ≠ sid t) → m !! ssl = Some n →
  (∀ j, (j < SSL_NLEVELS)%nat → n !! j = Some (if o j then ptr_of (nxt mem j (R ++ t :: B)) else SUnused)) →
  (ssl = p → o i = true ∧ filter (in_level mem i) R = []) → (ssl ≠ p → o i = true → nxt mem i R ≠ None) →
  ∃ n, m' !! ssl = Some n ∧ ∀ j, (j < SSL_NLEVELS)%nat → n !! j = Some (if o j then ptr_of (nxt mem' j (R ++ t :: B)) else SUnused).
Proof using Hn Hi Hnd.
  clear HA Hok Hb. intros HR En Hp H1 H2. destruct (decide (ssl = p)) as [->|Hne].
  - destruct (H1 eq_refl) as [Ho Hf]. assert (n = nd) as -> by congruence. eexists. rewrite lookup_insert_eq. split; [done|]. intros j Hj.
    destruct (decide (j = i)) as [->|Hji].
    + rewrite list_lookup_insert_eq by (apply (lookup_lt_Some _ _ _ (Hp i Hi))). by rewrite Ho, mem'_rest.
    + rewrite list_lookup_insert_ne by done. rewrite Hp by done. by rewrite mem'_before by (done || by left).
  - exists n. rewrite lookup_insert_ne by done. split; [done|]. intros j Hj. rewrite Hp by done. destruct (o j) eqn:Ho; [|done]. do 2 f_equal. symmetry.
    apply mem'_before; [done|]. destruct (decide (j = i)) as [->|]; [right; auto|by left].
Qed.

Lemma nodes_mem : nodes_ok mem' own na hd (A ++ t :: B) m'.
Proof.
  destruct Hok as [H1 H2 H3 H4 H5]. destruct (ids_mid _ _ _ Hn) as [HnA HnB].
  destruct (pred_at_split mem na hd i A) as (Q & R & EA & HR & HQ & Ep). constructor; try done.
  - destruct H1 as (n & E & Hh). apply (mem'_keep hd n A (λ _, true) HnA E Hh).
    + intros Ehd. split; [done|]. rewrite EA, list.filter_app, HR, app_nil_r. destruct HQ as [->|(Q' & v & -> & Hv)]; [done|].
      rewrite Ep in Ehd. unfold node_at in Ehd. rewrite last_snoc in Ehd. destruct (H4 v); [rewrite EA; set_solver|done].
    + intros Hne _ E0%nxt_none. apply Hne. unfold pred_at. by rewrite E0.
  - intros A' u B' E. destruct (H2 A' u B' E) as (n & En & Hu). assert (u ∈ A ++ t :: B) as Hin by (rewrite E; set_solver).
    assert (u ∉ A → na (sid u) ≠ p) as Hnp.
    { intros HuA. rewrite Ep. destruct HQ as [->|(Q' & v & -> & Hv)]; [by apply H4|]. unfold node_at. rewrite last_snoc. intros Ena.
      apply H3 in Ena; [|done|rewrite EA; set_solver]. apply HuA. assert (v ∈ A) as HvA by (rewrite EA; set_solver).
      apply list_elem_of_split in HvA as (C & D & EC). assert (A ++ t :: B = C ++ v :: D ++ t :: B) as EL by (rewrite EC; by rewrite <- app_assoc).
      destruct (split_inj _ A' C B' _ u v Hn E EL Ena) as (_ & -> & _). rewrite EC. set_solver. }
    destruct (split_cases _ _ _ _ _ _ E) as [(A2 & E1 & ->)|[(-> & -> & ->)|(B1 & -> & ->)]].
    + apply (mem'_keep _ n A2 (own (sid u))); [intros w Hw; apply HnA; rewrite E1; set_solver|done|done| |].
      * intros Epu. rewrite Ep in Epu. destruct HQ as [->|(Q' & v & -> & Hv)]; [by apply H4 in Epu|]. unfold node_at in Epu. rewrite last_snoc in Epu.
        apply H3 in Epu; [|done|rewrite EA; set_solver]. assert (A ++ t :: B = Q' ++ v :: R ++ t :: B) as EL by (rewrite EA, <- !app_assoc; done).
        destruct (split_inj _ A' Q' _ _ u v Hn E EL Epu) as (-> & -> & ER). apply app_inv_tail in ER as ->. split; [|done].
        apply H5; [done|]. unfold in_level in Hv. by apply Is_true_true.
      * intros Hne Ho E0%nxt_none. apply Hne. assert (mem (sid u) i = true) as Hm by (apply HA; [rewrite E1; set_solver|done]).
        unfold pred_at, node_at. by rewrite E1, list.filter_app, level_cons, Hm, E0, last_snoc.
    + exists n. rewrite lookup_insert_ne by (apply not_eq_sym, Hnp; intros Hx; by destruct (HnA _ Hx)). split; [done|]. intros j Hj. rewrite Hu by done.
      by rewrite mem'_nxt by (by right).
    + assert (∀ w, w ∈ B' → sid w ≠ sid t) as HB' by (intros w Hw; apply HnB; set_solver).
      exists n. rewrite lookup_insert_ne; [split; [done|]; intros j Hj; rewrite Hu by done; by rewrite mem'_nxt by (by right)|].
      apply not_eq_sym, Hnp. intros Hx. rewrite fmap_app in Hn. apply list.NoDup_app in Hn as (_ & Hd & _).
      apply (Hd (sid u)); [by apply list_elem_of_fmap_2|]. apply list_elem_of_fmap_2. set_solver.
  - intros u j Hu. destruct (decide (sid u = sid t ∧ j = i)) as [[E ->]|Hne]; [rewrite E, fupd2_eq; auto|].
    rewrite fupd2_ne; [by apply H5|]. destruct (decide (sid u = sid t)); [right; naive_solver|by left].
Qed.
End nodes_mem.

(** ** The specification *)

(** A new segment enters where the search for its base ends, unless it overlaps. *)
Definition insert_seg (t : aseg) (L : list aseg) : option (list aseg) :=
  let clash := match above (sbase t) L with [] => false | u :: _ => (sbase u <=? sbase t) || (sbase u <? send t) end in
  if clash then None else Some (below (sbase t) L ++ t :: above (sbase t) L).

(** The segment that starts at an address goes. *)
Definition remove_seg (addr : Z) (L : list aseg) : option (Z * list aseg) :=
  match above addr L with
  | t :: B => if sbase t =? addr then Some (sid t, below addr L ++ B) else None
  | [] => None
  end.

Lemma apart_above addr L t u B : apart L → above addr L = t :: B → u ∈ B → send t ≤ sbase u.
Proof.
  intros Ha E Hu. rewrite <- (below_above addr L), E in Ha. apply apart_app in Ha as (_ & [H _] & _). by apply H.
Qed.

Lemma insert_seg_apart t L L' : apart L → Forall seg_fits L → seg_fits t → insert_seg t L = Some L' →
  L' = below (sbase t) L ++ t :: above (sbase t) L ∧ apart L' ∧ Forall seg_fits L'.
Proof.
  intros Ha Hf Ht E. unfold insert_seg in E. case_match eqn:Ec; [done|]. injection E as <-. split; [done|].
  pose proof (below_above (sbase t) L) as EL.
  assert (∀ u, u ∈ above (sbase t) L → send t ≤ sbase u) as HB.
  { intros u Hu. destruct (above (sbase t) L) as [|v B] eqn:E; [by apply not_elem_of_nil in Hu|]. apply orb_false_iff in Ec as [E1 E2].
    apply elem_of_cons in Hu as [->|Hu]; [lia|]. pose proof (apart_above _ _ _ _ _ Ha E Hu).
    assert (seg_fits v) as (_ & Hv & _) by (apply (proj1 (list.Forall_forall _ _) Hf); rewrite <- EL; set_solver). unfold send in *. lia. }
  rewrite <- EL in Ha, Hf. apply apart_app in Ha as (HA1 & HA2 & HA3). apply list.Forall_app in Hf as [Hf1 Hf2]. split.
  - apply apart_app. split_and!; [done|done|]. intros a b Hx [->|Hb]%elem_of_cons; [by apply (below_ends _ L)|auto].
  - apply list.Forall_app. split; [done|]. by apply list.Forall_cons.
Qed.

(** The insertion fails for what overlaps and for nothing else. *)
Lemma insert_seg_overlap t L : apart L → Forall seg_fits L → seg_fits t → insert_seg t L = None ↔ ∃ u, u ∈ L ∧ sbase u < send t ∧ sbase t < send u.
Proof.
  intros Ha Hf Ht. pose proof (below_above (sbase t) L) as EL. unfold insert_seg. split.
  - case_match eqn:Ec; [|done]. intros _. destruct (above (sbase t) L) as [|v B] eqn:E; [done|]. exists v. split; [rewrite <- EL; set_solver|].
    split; [|by apply (above_head _ L _ B)]. destruct Ht as (_ & Ht & _). unfold send at 1. apply orb_true_iff in Ec as [Ec|Ec]; unfold send in *; lia.
  - intros (u & Hu & H1 & H2). case_match eqn:Ec; [done|]. exfalso. rewrite <- EL in Hu. apply elem_of_app in Hu as [Hu|Hu].
    + pose proof (below_ends _ L u Hu). lia.
    + destruct (above (sbase t) L) as [|v B] eqn:E; [by apply not_elem_of_nil in Hu|]. apply orb_false_iff in Ec as [E1 E2].
      apply elem_of_cons in Hu as [->|Hu]; [lia|]. pose proof (apart_above _ _ _ _ _ Ha E Hu).
      assert (seg_fits v) as (_ & Hv & _) by (apply (proj1 (list.Forall_forall _ _) Hf); rewrite <- EL; set_solver). unfold send in *. lia.
Qed.

(** ** The links *)

Definition prevs_ok (L : list aseg) (m : gmap Z seg) : Prop :=
  ∀ A t B, L = A ++ t :: B → ∃ g, m !! sid t = Some g ∧ s_base g = sbase t ∧ s_size g = ssize t ∧ s_prev g = sid <$> list.last A.
Definition nexts_ok (L : list aseg) (m : gmap Z seg) : Prop :=
  ∀ A t B, L = A ++ t :: B → ∃ g, m !! sid t = Some g ∧ s_next g = sid <$> head B.

(** Whose backward, and whose forward link changes. *)
Definition follows (B : list aseg) (u : aseg) : bool := bool_decide (sid <$> head B = Some (sid u)).
Definition precedes (A : list aseg) (u : aseg) : bool := bool_decide (sid <$> list.last A = Some (sid u)).

Lemma follows_none (B : list aseg) u : (∀ w, w ∈ B → sid w ≠ sid u) → follows B u = false.
Proof. intros H. apply bool_decide_eq_false_2. intros (b & Eb & E)%fmap_Some. destruct B as [|c B]; [done|]. injection Eb as ->. destruct (H b); [left|done]. Qed.
Lemma precedes_none (A : list aseg) u : (∀ w, w ∈ A → sid w ≠ sid u) → precedes A u = false.
Proof. intros H. apply bool_decide_eq_false_2. intros E. apply fmap_Some in E as (a & Ea & E). apply last_Some_elem_of in Ea. by destruct (H a Ea). Qed.

Lemma ids_apart (A B : list aseg) u w : NoDup (sid <$> A ++ B) → u ∈ A → w ∈ B → sid w ≠ sid u.
Proof. rewrite fmap_app. intros (_ & H & _)%list.NoDup_app Hu Hw E. apply (H (sid u)); [by apply list_elem_of_fmap_2|]. rewrite <- E. by apply list_elem_of_fmap_2. Qed.

Lemma seg_last_app_cons {T} (A B : list T) t : list.last (A ++ t :: B) = Some (default t (list.last B)).
Proof. rewrite last_app, last_cons. by destruct (list.last B). Qed.

(** The cases of a segment of the list with one more in the middle, which the lemmas below
    share. *)
Lemma insert_cases (A B A' B' : list aseg) t u : NoDup (sid <$> A ++ t :: B) → A ++ t :: B = A' ++ u :: B' → sid u ≠ sid t →
  ∃ C D, A ++ B = C ++ u :: D ∧
    (sid <$> list.last A') = (if follows B u then Some (sid t) else sid <$> list.last C) ∧ (follows B u = true → (sid <$> list.last C) = (sid <$> list.last A)) ∧
    (sid <$> head B') = (if precedes A u then Some (sid t) else sid <$> head D) ∧ (precedes A u = true → (sid <$> head D) = (sid <$> head B)).
Proof.
  intros Hn E Hut. destruct (split_cases _ _ _ _ _ _ E) as [(A2 & -> & ->)|[(-> & -> & ->)|(B1 & -> & ->)]]; [|done|].
  - exists A', (A2 ++ B). rewrite <- app_assoc. split; [done|].
    rewrite (follows_none B u) by (intros w Hw; apply (ids_apart (A' ++ u :: A2) (t :: B)); [done|set_solver|by right]).
    split; [done|]. split; [done|]. unfold precedes. rewrite seg_last_app_cons. destruct A2 as [|a A2].
    + simpl. by rewrite bool_decide_true.
    + rewrite bool_decide_false; [done|]. intros [= E2]. rewrite <- app_assoc in Hn. simpl in Hn.
      assert (default u (list.last (a :: A2)) ∈ a :: A2) as Hin.
      { destruct (list.last (a :: A2)) eqn:E3; [by apply last_Some_elem_of in E3|by apply last_None in E3]. }
      apply (ids_apart (A' ++ [u]) ((a :: A2) ++ t :: B) u (default u (list.last (a :: A2)))); [by rewrite <- app_assoc|set_solver|set_solver|done].
  - exists (A ++ B1), B'. rewrite <- app_assoc. split; [done|].
    rewrite (precedes_none A u).
    2: { intros w Hw Ewu. symmetry in Ewu. revert Ewu. apply (ids_apart A (t :: B1 ++ u :: B')); [done|done|]. set_solver. }
    unfold follows. destruct B1 as [|b B1]; simpl.
    + rewrite bool_decide_true by done. rewrite app_nil_r, last_snoc. done.
    + rewrite bool_decide_false; [split_and!; try done; rewrite !seg_last_app_cons, last_cons; by destruct (list.last B1)|].
      intros [= E2]. revert E2. apply not_eq_sym. apply (ids_apart (A ++ t :: [b]) (B1 ++ u :: B')); [by rewrite <- app_assoc|set_solver|set_solver].
Qed.

Lemma prevs_insert A t B m m' : prevs_ok (A ++ B) m → NoDup (sid <$> A ++ t :: B) →
  (∃ g, m' !! sid t = Some g ∧ s_base g = sbase t ∧ s_size g = ssize t ∧ s_prev g = sid <$> list.last A) →
  (∀ u g, u ∈ A ++ B → m !! sid u = Some g → ∃ g', m' !! sid u = Some g' ∧ s_base g' = s_base g ∧ s_size g' = s_size g ∧
     s_prev g' = if follows B u then Some (sid t) else s_prev g) → prevs_ok (A ++ t :: B) m'.
Proof.
  intros Hm Hn Ht Hu A' u B' E. destruct (decide (sid u = sid t)) as [Eu|Hne].
  - destruct (split_inj _ A A' B B' t u Hn eq_refl E (eq_sym Eu)) as (<- & <- & <-). done.
  - destruct (insert_cases _ _ _ _ _ _ Hn E Hne) as (C & D & E2 & -> & _). destruct (Hm C u D E2) as (g & Eg & E3 & E4 & E5).
    destruct (Hu u g) as (g' & Eg' & E6 & E7 & E8); [rewrite E2; set_solver|done|]. exists g'. rewrite E6, E7, E8, E5. done.
Qed.

Lemma nexts_insert A t B m m' : nexts_ok (A ++ B) m → NoDup (sid <$> A ++ t :: B) →
  (∃ g, m' !! sid t = Some g ∧ s_next g = sid <$> head B) →
  (∀ u g, u ∈ A ++ B → m !! sid u = Some g → ∃ g', m' !! sid u = Some g' ∧ s_next g' = if precedes A u then Some (sid t) else s_next g) → nexts_ok (A ++ t :: B) m'.
Proof.
  intros Hm Hn Ht Hu A' u B' E. destruct (decide (sid u = sid t)) as [Eu|Hne].
  - destruct (split_inj _ A A' B B' t u Hn eq_refl E (eq_sym Eu)) as (<- & <- & <-). done.
  - destruct (insert_cases _ _ _ _ _ _ Hn E Hne) as (C & D & E2 & _ & _ & -> & _). destruct (Hm C u D E2) as (g & Eg & E5).
    destruct (Hu u g) as (g' & Eg' & E8); [rewrite E2; set_solver|done|]. exists g'. rewrite E8, E5. done.
Qed.

Lemma mid_cases (A B A' B' : list aseg) u : A ++ B = A' ++ u :: B' →
  (∃ A2, A = A' ++ u :: A2 ∧ B' = A2 ++ B) ∨ ∃ B1, B = B1 ++ u :: B' ∧ A' = A ++ B1.
Proof.
  intros E. apply app_eq_inv in E as [(C & E1 & E2)|(C & E1 & E2)].
  - destruct C as [|c C]; simpl in E2; [right; exists []; rewrite app_nil_r in E1; subst; by rewrite app_nil_r|]. injection E2 as <- ->. left. by exists C.
  - right. by exists C.
Qed.

Lemma remove_cases (A B A' B' : list aseg) t u : NoDup (sid <$> A ++ t :: B) → A ++ B = A' ++ u :: B' →
  ∃ C D, A ++ t :: B = C ++ u :: D ∧ (sid <$> list.last A') = (if follows B u then sid <$> list.last A else sid <$> list.last C) ∧
    (sid <$> head B') = (if precedes A u then sid <$> head B else sid <$> head D).
Proof.
  intros Hn E. destruct (mid_cases _ _ _ _ _ E) as [(A2 & -> & ->)|(B1 & -> & ->)].
  - exists A', (A2 ++ t :: B). rewrite <- app_assoc. split; [done|].
    rewrite (follows_none B u) by (intros w Hw; apply (ids_apart (A' ++ u :: A2) (t :: B)); [done|set_solver|by right]). split; [done|].
    unfold precedes. rewrite seg_last_app_cons. destruct A2 as [|a A2]; simpl; [by rewrite bool_decide_true|].
    rewrite bool_decide_false; [done|]. intros [= E2]. rewrite <- app_assoc in Hn. simpl in Hn.
    assert (default u (list.last (a :: A2)) ∈ a :: A2) as Hin.
    { destruct (list.last (a :: A2)) eqn:E3; [by apply last_Some_elem_of in E3|by apply last_None in E3]. }
    apply (ids_apart (A' ++ [u]) ((a :: A2) ++ t :: B) u (default u (list.last (a :: A2)))); [by rewrite <- app_assoc|set_solver|set_solver|done].
  - exists (A ++ t :: B1), B'. rewrite <- app_assoc. split; [done|].
    rewrite (precedes_none A u).
    2: { intros w Hw Ewu. symmetry in Ewu. revert Ewu. apply (ids_apart A (t :: B1 ++ u :: B')); [done|done|]. set_solver. }
    split; [|done]. unfold follows. destruct B1 as [|b B1]; simpl; [by rewrite bool_decide_true, app_nil_r|].
    rewrite bool_decide_false; [rewrite !seg_last_app_cons, last_cons; by destruct (list.last B1)|].
    intros [= E2]. revert E2. apply not_eq_sym. apply (ids_apart (A ++ t :: [b]) (B1 ++ u :: B')); [by rewrite <- app_assoc|set_solver|set_solver].
Qed.

Lemma prevs_remove A t B m m' : prevs_ok (A ++ t :: B) m → NoDup (sid <$> A ++ t :: B) →
  (∀ u g, u ∈ A ++ B → m !! sid u = Some g → ∃ g', m' !! sid u = Some g' ∧ s_base g' = s_base g ∧ s_size g' = s_size g ∧
     s_prev g' = if follows B u then sid <$> list.last A else s_prev g) → prevs_ok (A ++ B) m'.
Proof.
  intros Hm Hn Hu A' u B' E. destruct (remove_cases _ _ _ _ t u Hn E) as (C & D & E2 & -> & _). destruct (Hm C u D E2) as (g & Eg & E3 & E4 & E5).
  destruct (Hu u g) as (g' & Eg' & E6 & E7 & E8); [rewrite E; set_solver|done|]. exists g'. rewrite E6, E7, E8, E5. done.
Qed.

Lemma nexts_remove A t B m m' : nexts_ok (A ++ t :: B) m → NoDup (sid <$> A ++ t :: B) →
  (∀ u g, u ∈ A ++ B → m !! sid u = Some g → ∃ g', m' !! sid u = Some g' ∧ s_next g' = if precedes A u then sid <$> head B else s_next g) → nexts_ok (A ++ B) m'.
Proof.
  intros Hm Hn Hu A' u B' E. destruct (remove_cases _ _ _ _ t u Hn E) as (C & D & E2 & _ & ->). destruct (Hm C u D E2) as (g & Eg & E5).
  destruct (Hu u g) as (g' & Eg' & E8); [rewrite E; set_solver|done|]. exists g'. rewrite E8, E5. done.
Qed.

(** ** The state that both representations share *)

Definition rand_ok (r : randstate) : Prop := length (ssl_randtab r) = 71%nat ∧ (ssl_n1p r < 71)%nat ∧ (ssl_n2p r < 71)%nat.

Lemma common_intro L s : prevs_ok L (segs s) → apart L → Forall seg_fits L → NoDup (sid <$> L) → a_tail s = sid <$> list.last L →
  a_nsegs s = Z.of_nat (length L) → rand_ok (ssl_rand s) → (a_hilevel s < SSL_NLEVELS)%nat → as_common L s.
Proof. intros. by constructor. Qed.

Lemma common_mid_nodup L s t : as_common L s → ∀ A B, L = A ++ B → (sid t ∉ sid <$> L) → NoDup (sid <$> A ++ t :: B).
Proof.
  intros Hc A B -> Hx. pose proof (ac_ids _ _ Hc) as Hn. rewrite fmap_app in *. simpl. apply NoDup_Permutation_proper with (sid t :: (sid <$> A) ++ (sid <$> B)).
  - symmetry. apply Permutation_middle.
  - apply list.NoDup_cons. by split.
Qed.


Lemma upd_seg_ok x f s g : segs s !! x = Some g → upd_seg x f s = Ok (set_segs (<[x := f g]> (segs s)) s).
Proof. intros E. unfold upd_seg. by rewrite E. Qed.
