(* ===== verification/AsOps.v ===== *)
(** * The skip list of an address space: insertion and removal

    The search leaves the path at the address, so that each level is entered and left at the
    structure that the path gives for it. *)

From S2P Require Import Prelude As AsInv AsSegs.

(** ** Levels *)

Lemma get_ptr_ok s ssl i nd q : ssls s !! ssl = Some nd → nd !! i = Some q → get_ptr s ssl i = Ok q.
Proof. intros E1 E2. unfold get_ptr. rewrite E1. cbn [deref mbind res_bind]. by rewrite E2. Qed.

Lemma set_ptr_ok s ssl i nd q p : ssls s !! ssl = Some nd → nd !! i = Some q → set_ptr s ssl i p = Ok (set_ssls (<[ssl := <[i := p]> nd]> (ssls s)) s).
Proof. intros E1 E2. unfold set_ptr. rewrite E1. cbn [deref mbind res_bind]. by rewrite E2. Qed.

Lemma set_ssls_twice m m' s : set_ssls m (set_ssls m' s) = set_ssls m s.
Proof. done. Qed.
Lemma set_ssls_same s : set_ssls (ssls s) s = s.
Proof. by destruct s. Qed.

Lemma pred_at_ext mem mem' na na' hd i (A : list aseg) : (∀ t, t ∈ A → mem (sid t) i = mem' (sid t) i ∧ na (sid t) = na' (sid t)) → pred_at mem na hd i A = pred_at mem' na' hd i A.
Proof.
  intros H. unfold pred_at, node_at. rewrite (filter_level_ext mem mem') by (intros t Ht; by apply H).
  destruct (list.last _) as [t|] eqn:E; [|done]. apply last_Some_elem_of, list_elem_of_filter in E as [_ E]. by apply H.
Qed.

Lemma lev_mem_fupd lv x n y i : lev_mem (fupd lv x n) y i = if bool_decide (y = x) then (i <? n)%nat else lev_mem lv y i.
Proof. unfold lev_mem, fupd. by case_bool_decide. Qed.

(** One level of [ssl_link]. *)
Lemma link_step lv na hd A t B s i : nodes_ok (lev_mem lv) (lev_mem lv) na hd (A ++ t :: B) (ssls s) → NoDup (sid <$> A ++ t :: B) →
  lv (sid t) = i → (i < SSL_NLEVELS)%nat →
  ∃ m, (q ← get_ptr s (pred_at (lev_mem lv) na hd i A) i; s ← set_ptr s (na (sid t)) i q; set_ptr s (pred_at (lev_mem lv) na hd i A) i (SSeg (sid t))) = Ok (set_ssls m s) ∧
    nodes_ok (lev_mem (fupd lv (sid t) (S i))) (lev_mem (fupd lv (sid t) (S i))) na hd (A ++ t :: B) m.
Proof.
  intros Hok Hn Hi Hlt. destruct (ids_mid _ _ _ Hn) as [HnA HnB].
  assert (lev_mem lv (sid t) i = false) as Hm by (unfold lev_mem; apply Nat.ltb_ge; lia).
  destruct (pred_ptr _ _ _ _ _ _ A (t :: B) i Hok eq_refl Hlt) as (nd & End & Ei). rewrite (get_ptr_ok _ _ _ _ _ End Ei), nxt_cons, Hm. cbn [mbind res_bind].
  destruct (nd_seg _ _ _ _ _ _ Hok A t B eq_refl) as (nt & Ent & Hnt). rewrite (set_ptr_ok _ _ _ _ _ _ Ent (Hnt i Hlt)). cbn [mbind res_bind].
  pose proof (nodes_own _ _ _ _ A t B _ i nt Hok Hn Hlt Ent) as Hok1.
  destruct (pred_ptr _ _ _ _ _ _ A (t :: B) i Hok1 eq_refl Hlt) as (nd1 & End1 & Ei1).
  rewrite (set_ptr_ok (set_ssls _ s) _ _ nd1 _ _ End1 Ei1), set_ssls_twice. eexists. split; [done|].
  eapply nodes_ext; [apply (nodes_mem _ _ _ _ A t B _ i true nd1 Hok1 Hn Hlt)|..]; try done.
  - intros _. apply fupd2_eq.
  - intros u Hu. rewrite fupd2_ne by (left; auto). done.
  - intros u j Hu Hj. rewrite lev_mem_fupd. destruct (decide (sid u = sid t)) as [->|Hne].
    + rewrite bool_decide_true by done. destruct (decide (j = i)) as [->|Hji]; [rewrite !fupd2_eq; by rewrite (proj2 (Nat.ltb_lt _ _)) by lia|].
      rewrite !fupd2_ne by (by right). unfold lev_mem. rewrite Hi. destruct (Nat.ltb_spec j i), (Nat.ltb_spec j (S i)); try done; lia.
    + rewrite bool_decide_false by done. rewrite !fupd2_ne by (by left). done.
Qed.

Lemma ssl_link_ok na hd A t B : NoDup (sid <$> A ++ t :: B) → ∀ n i lv s, nodes_ok (lev_mem lv) (lev_mem lv) na hd (A ++ t :: B) (ssls s) →
  lv (sid t) = i → (i + n ≤ SSL_NLEVELS)%nat → (∀ j, (i ≤ j < i + n)%nat → a_spath s !! j = Some (Some (pred_at (lev_mem lv) na hd j A))) →
  ∃ m, ssl_link n i (sid t) (na (sid t)) s = Ok (set_ssls m s) ∧
    nodes_ok (lev_mem (fupd lv (sid t) (i + n)%nat)) (lev_mem (fupd lv (sid t) (i + n)%nat)) na hd (A ++ t :: B) m.
Proof.
  intros Hn. destruct (ids_mid _ _ _ Hn) as [HnA HnB]. induction n as [|n IH]; intros i lv s Hok Hi Hlt Hp.
  - exists (ssls s). rewrite set_ssls_same. split; [done|]. eapply nodes_ext; [done|..]; try done.
    intros u j _ _. rewrite lev_mem_fupd. case_bool_decide as E; [|done]. rewrite E. unfold lev_mem. by rewrite Hi, Nat.add_0_r.
  - cbn [ssl_link]. unfold path_at. rewrite (Hp i) by lia. cbn [deref mbind res_bind].
    destruct (link_step lv na hd A t B s i Hok Hn Hi) as (m & E & Hok1); [lia|].
    destruct (get_ptr s _ i) as [q| |]; [|done..]. cbn [mbind res_bind] in E |- *. destruct (set_ptr s _ i q) as [s1| |]; [|done..]. cbn [mbind res_bind] in E |- *.
    rewrite E. cbn [mbind res_bind].
    destruct (IH (S i) (fupd lv (sid t) (S i)) (set_ssls m s)) as (m' & E' & Hok2); [done|by rewrite fupd_eq|lia| |].
    + intros j Hj. change (a_spath (set_ssls m s)) with (a_spath s). rewrite Hp by lia. do 2 f_equal. apply pred_at_ext. intros u Hu. rewrite lev_mem_fupd, bool_decide_false by auto. done.
    + exists m'. rewrite E', set_ssls_twice. split; [done|]. eapply nodes_ext; [done|..]; try done.
      intros u j _ _. rewrite !lev_mem_fupd. case_bool_decide; [|done]. by rewrite Nat.add_succ_r.
Qed.

(** The levels that a segment is still in while it is taken out. *)
Definition still_in (lv : Z → nat) (x : Z) (i : nat) : Z → nat → bool := λ y j, if bool_decide (y = x) then (i <=? j)%nat && (j <? lv x)%nat else lev_mem lv y j.

Lemma still_in_ne lv x i y j : y ≠ x → still_in lv x i y j = lev_mem lv y j.
Proof. intros H. unfold still_in. by rewrite bool_decide_false. Qed.
Lemma still_in_eq lv x i j : still_in lv x i x j = (i <=? j)%nat && (j <? lv x)%nat.
Proof. unfold still_in. by rewrite bool_decide_true. Qed.

Lemma ssl_unlink_ok lv na hd A t B : NoDup (sid <$> A ++ t :: B) → ∀ n i s, nodes_ok (still_in lv (sid t) i) (lev_mem lv) na hd (A ++ t :: B) (ssls s) →
  (i + n ≤ SSL_NLEVELS)%nat → (lv (sid t) ≤ i + n)%nat → (∀ j, (i ≤ j < i + n)%nat → a_spath s !! j = Some (Some (pred_at (lev_mem lv) na hd j A))) →
  ∃ m mem, ssl_unlink n i (sid t) (na (sid t)) s = Ok (set_ssls m s) ∧ nodes_ok mem (lev_mem lv) na hd (A ++ t :: B) m ∧
    (∀ j, (j < SSL_NLEVELS)%nat → mem (sid t) j = false) ∧ (∀ y j, y ≠ sid t → mem y j = lev_mem lv y j).
Proof.
  intros Hn. destruct (ids_mid _ _ _ Hn) as [HnA HnB]. induction n as [|n IH]; intros i s Hok Hlt Hlv Hp.
  - exists (ssls s), (still_in lv (sid t) i). rewrite set_ssls_same. split_and!; try done.
    + intros j Hj. rewrite still_in_eq. destruct (Nat.leb_spec i j), (Nat.ltb_spec j (lv (sid t))); try done; lia.
    + intros y j Hy. by apply still_in_ne.
  - cbn [ssl_unlink]. unfold path_at. rewrite (Hp i) by lia. cbn [deref mbind res_bind].
    assert (pred_at (lev_mem lv) na hd i A = pred_at (still_in lv (sid t) i) na hd i A) as -> by (apply pred_at_ext; intros u Hu; by rewrite still_in_ne by auto).
    assert (i < SSL_NLEVELS)%nat as Hi by lia.
    destruct (pred_ptr _ _ _ _ _ _ A (t :: B) i Hok eq_refl Hi) as (nd & End & Ei). rewrite (get_ptr_ok _ _ _ _ _ End Ei), nxt_cons, still_in_eq, Nat.leb_refl. cbn [mbind res_bind andb].
    destruct (Nat.ltb_spec i (lv (sid t))) as [Hil|Hil].
    + rewrite bool_decide_true by done. destruct (nd_seg _ _ _ _ _ _ Hok A t B eq_refl) as (nt & Ent & Hnt).
      rewrite (get_ptr_ok _ _ _ _ _ Ent (Hnt i Hi)). unfold lev_mem at 1. rewrite (proj2 (Nat.ltb_lt _ _) Hil). cbn [mbind res_bind].
      rewrite (set_ptr_ok s _ _ nd _ _ End Ei). cbn [mbind res_bind].
      destruct (IH (S i) (set_ssls (<[pred_at (still_in lv (sid t) i) na hd i A := <[i := ptr_of (nxt (still_in lv (sid t) i) i B)]> nd]> (ssls s)) s)) as (m & mem & E & Hrest); [|lia|lia|by intros j Hj; apply Hp; lia|by exists m, mem; rewrite E].
      eapply nodes_ext; [apply (nodes_mem _ _ _ _ A t B _ i false nd Hok Hn Hi)|..]; try done.
      * intros u Hu. rewrite still_in_ne by auto. done.
      * intros u j Hu Hj. split; [|done]. destruct (decide (sid u = sid t)) as [->|Hne]; [|by rewrite fupd2_ne, !still_in_ne by (done || by left)].
        destruct (decide (j = i)) as [->|Hji]; [rewrite fupd2_eq, still_in_eq; by rewrite (proj2 (Nat.leb_gt _ _)) by lia|].
        rewrite fupd2_ne, !still_in_eq by (by right). destruct (Nat.leb_spec i j), (Nat.leb_spec (S i) j); try done; lia.
      * intros u j Hu. unfold still_in. case_bool_decide as E; [|done]. rewrite E. unfold lev_mem. by intros [_ ?]%andb_prop.
    + rewrite bool_decide_false.
      * exists (ssls s), (still_in lv (sid t) i). rewrite set_ssls_same. split_and!; try done.
        -- intros j Hj. rewrite still_in_eq. destruct (Nat.leb_spec i j), (Nat.ltb_spec j (lv (sid t))); try done; lia.
        -- intros y j Hy. by apply still_in_ne.
      * destruct (nxt_split (still_in lv (sid t) i) i B) as [[-> _]|(B1 & u & B2 & EB & _ & _ & ->)]; [done|]. simpl. intros [= E]. apply (HnB u); [rewrite EB; set_solver|done].
Qed.

(** The head's top levels may be empty. *)
Lemma lower_hilev_ok lv na hd L s : nodes_ok (lev_mem lv) (lev_mem lv) na hd L (ssls s) → ∀ h, (h < SSL_NLEVELS)%nat → (∀ t, t ∈ L → (lv (sid t) ≤ S h)%nat) →
  ∃ h', lower_hilev h s hd = Ok h' ∧ (h' ≤ h)%nat ∧ ∀ t, t ∈ L → (lv (sid t) ≤ S h')%nat.
Proof.
  intros Hok. induction h as [|h IH]; intros Hh Hlv; [by exists 0%nat|]. cbn [lower_hilev].
  destruct (nd_head _ _ _ _ _ _ Hok) as (nd & End & Hnd). rewrite (get_ptr_ok _ _ _ _ _ End (Hnd (S h) Hh)). cbn [mbind res_bind].
  destruct (nxt_split (lev_mem lv) (S h) L) as [[-> Hf]|(A & t & B & _ & _ & _ & ->)].
  - rewrite bool_decide_true by done. destruct IH as (h' & E & Hle & Hr); [lia| |by exists h'; split_and!; [done|lia|done]].
    intros t Ht. destruct (decide (lv (sid t) ≤ S h)%nat); [done|]. exfalso.
    apply (nxt_not_none (lev_mem lv) (S h) L t Ht); [apply lev_mem_level; specialize (Hlv t Ht); lia|by apply nxt_none].
  - by exists (S h).
Qed.

Lemma rand_get r i : rand_ok r → (i < 71)%nat → ∃ v, ssl_randtab r !! i = Some v.
Proof. intros (H & _) Hi. apply lookup_lt_is_Some_2. lia. Qed.

Lemma ssl_newlevel_ok s : rand_ok (ssl_rand s) → ∃ n r, ssl_newlevel s = Ok (n, set_rand r s) ∧ (n < SSL_NLEVELS)%nat ∧ rand_ok r.
Proof.
  intros Hr. unfold ssl_newlevel, ssl_random. pose proof Hr as (H1 & H2 & H3).
  destruct (rand_get _ _ Hr H2) as (a & ->), (rand_get _ _ Hr H3) as (b & ->). cbn [deref mbind res_bind].
  assert (∀ i, (i < 71)%nat → (if (71 <=? S i)%nat then 0%nat else S i) < 71)%nat as Hw by (intros i Hi; destruct (Nat.leb_spec 71 (S i)); lia).
  destruct (lookup_lt_is_Some_2 (<[ssl_n1p (ssl_rand s):=add32 a b]> (ssl_randtab (ssl_rand s))) (if (71 <=? S (ssl_n1p (ssl_rand s)))%nat then 0%nat else S (ssl_n1p (ssl_rand s)))) as (v & ->).
  { rewrite length_insert, H1. by apply Hw. }
  cbn [deref mbind res_bind]. eexists _, _. split; [done|]. split.
  - unfold SSL_NLEVELS. assert (∀ f w n, (n ≤ 4)%nat → (newlevel_loop f w n ≤ 4)%nat) as H.
    { intros f. induction f as [|f IH]; intros w n Hn; [done|]. cbn [newlevel_loop]. destruct (_ && _) eqn:E; [|done]. apply andb_prop in E as [_ E].
      unfold SSL_NLEVELS in E. apply Nat.ltb_lt in E. apply IH. lia. }
    specialize (H 4%nat v 1%nat). lia.
  - unfold rand_ok. cbn [ssl_randtab ssl_n1p ssl_n2p]. rewrite length_insert. split_and!; auto.
Qed.

Lemma raise_path_ok hd : ∀ n i p, (i + n ≤ length p)%nat → length (raise_path n i hd p) = length p ∧
  (∀ j, (i ≤ j < i + n)%nat → raise_path n i hd p !! j = Some (Some hd)) ∧ (∀ j, (j < i)%nat → raise_path n i hd p !! j = p !! j).
Proof.
  induction n as [|n IH]; intros i p Hl; cbn [raise_path]; [split_and!; try done; lia|].
  destruct (IH (S i) (<[i := Some hd]> p)) as (H1 & H2 & H3); [rewrite length_insert; lia|]. rewrite length_insert in H1. split_and!; [done| |].
  - intros j Hj. destruct (decide (j = i)) as [->|]; [|apply H2; lia]. rewrite H3 by lia. apply list_lookup_insert_eq. lia.
  - intros j Hj. rewrite H3 by lia. apply list_lookup_insert_ne. lia.
Qed.

(** ** The doubly linked part of an insertion *)

Definition same_next (m m' : gmap Z seg) : Prop := ∀ y h, m !! y = Some h → ∃ h', m' !! y = Some h' ∧ s_next h' = s_next h.

Lemma same_next_upd m x f g : m !! x = Some g → s_next (f g) = s_next g → same_next m (<[x := f g]> m).
Proof. intros E Hf y h Hy. destruct (decide (y = x)) as [->|Hne]; [|exists h; by rewrite lookup_insert_ne]. exists (f g). rewrite lookup_insert_eq. split; [done|]. congruence. Qed.

Lemma same_next_trans m1 m2 m3 : same_next m1 m2 → same_next m2 m3 → same_next m1 m3.
Proof. intros H1 H2 y h Hy. destruct (H1 y h Hy) as (h1 & E1 & <-). by apply H2. Qed.

Lemma set_a_tail_same s : set_a_tail (a_tail s) s = s.
Proof. by destruct s. Qed.

Lemma s_end_fits g x : seg_fits (x, (s_base g, s_size g)) → s_end g = send (x, (s_base g, s_size g)).
Proof. intros (H1 & H2 & H3). unfold s_end, send, sbase, ssize in *. simpl in *. apply add32_small; lia. Qed.

Lemma prevs_of L s : as_common L s → prevs_ok L (segs s).
Proof. intros Hc A t B E. by apply (ac_seg _ _ Hc A t B). Qed.

Lemma elem_id u (L : list aseg) : u ∈ L → sid u ∈ sid <$> L.
Proof. intros H. by apply list_elem_of_fmap_2. Qed.

Lemma ssl_place_ok L s x g t : as_common L s → segs s !! x = Some g → t = (x, (s_base g, s_size g)) → seg_fits t → x ∉ sid <$> L →
  match insert_seg t L with
  | None => ssl_place s x (s_base g) (s_end g) (find_seg (s_base g) true L) = Ok None
  | Some L' => ∃ m, ssl_place s x (s_base g) (s_end g) (find_seg (s_base g) true L) = Ok (Some (set_segs m (set_a_tail (sid <$> list.last L') s))) ∧
      prevs_ok L' m ∧ same_next (segs s) m ∧ ∀ y, y ≠ x → y ∉ sid <$> L → m !! y = segs s !! y
  end.
Proof.
  intros Hc Eg Et Ht Hx. pose proof (s_end_fits g x ltac:(by rewrite <- Et)) as Eend. rewrite <- Et in Eend.
  assert (sid t = x ∧ sbase t = s_base g ∧ ssize t = s_size g) as (Ex & Eb & Es) by (by rewrite Et).
  pose proof (below_above (s_base g) L) as EL. pose proof (prevs_of _ _ Hc) as Hpr.
  unfold insert_seg, ssl_place, find_seg. rewrite Eb, Eend. destruct (above (s_base g) L) as [|u B] eqn:EA.
  - rewrite app_nil_r in EL. rewrite EL, last_snoc. assert (NoDup (sid <$> L ++ t :: [])) as Hn by (apply (common_mid_nodup L s t Hc L []); [by rewrite app_nil_r|by rewrite Ex]).
    assert (prevs_ok (L ++ [t]) (<[x := with_prev (sid <$> list.last L) g]> (segs s)) ∧ same_next (segs s) (<[x := with_prev (sid <$> list.last L) g]> (segs s)) ∧
      ∀ y, y ≠ x → y ∉ sid <$> L → <[x := with_prev (sid <$> list.last L) g]> (segs s) !! y = segs s !! y) as Hres.
    { split_and!; [|by apply (same_next_upd _ _ (with_prev (sid <$> list.last L)))|intros y Hy _; by rewrite lookup_insert_ne].
      apply (prevs_insert L t [] (segs s)); [by rewrite app_nil_r|done|exists (with_prev (sid <$> list.last L) g); rewrite Ex, lookup_insert_eq; done|].
      intros v h Hv Eh. exists h. rewrite app_nil_r in Hv. rewrite lookup_insert_ne by (intros E; apply Hx; rewrite E; by apply elem_id). done. }
    destruct (list.last L) as [v|] eqn:Ev; cbn [fmap option_fmap option_map] in *.
    + destruct (seg_in L s v Hc) as (h & Eh & _ & _ & Ehe); [by apply last_Some_elem_of|]. rewrite Eh. cbn [deref mbind res_bind].
      rewrite Ehe, (proj2 (Z.leb_le _ _)) by (apply (below_ends _ L); rewrite EL; by apply last_Some_elem_of). rewrite (upd_seg_ok x _ s g Eg). cbn [mbind res_bind].
      eexists. rewrite Ex. split; [done|exact Hres].
    + rewrite (upd_seg_ok x _ (set_a_tail (Some x) s) g Eg). cbn [mbind res_bind]. eexists. rewrite Ex. split; [done|exact Hres].
  - pose proof (above_head _ _ _ _ EA) as Hu. symmetry in EL. destruct (Hpr _ u B EL) as (h & Eh & E1 & E2 & E3).
    destruct (seg_in L s u Hc) as (h' & Eh' & _ & _ & Ehe); [rewrite EL; set_solver|]. assert (h' = h) as -> by congruence.
    rewrite Eh. cbn [deref mbind res_bind]. rewrite Ehe, (proj2 (Z.leb_gt (send u) (s_base g))) by lia. rewrite E1. destruct (_ || _); [done|].
    assert (sid u ≠ x) as Hux by (intros E; apply Hx; rewrite <- E; apply elem_id; rewrite EL; set_solver).
    assert (segs (set_segs (<[x := with_prev (s_prev h) g]> (segs s)) s) !! sid u = Some h) as Eu by (simpl; by rewrite lookup_insert_ne).
    rewrite (upd_seg_ok x _ s g Eg). cbn [mbind res_bind]. rewrite (upd_seg_ok (sid u) _ _ h Eu). cbn [mbind res_bind].
    exists (<[sid u := with_prev (Some x) h]> (<[x := with_prev (s_prev h) g]> (segs s))). split.
    { do 2 f_equal. replace (sid <$> list.last (below (s_base g) L ++ t :: u :: B)) with (a_tail s); [by destruct s|].
      rewrite (ac_tail _ _ Hc), EL at 1. rewrite !seg_last_app_cons, last_cons. by destruct (list.last B). }
    split_and!.
    + apply (prevs_insert _ t _ (segs s)); [by rewrite <- EL|by apply (common_mid_nodup L s t Hc); [|rewrite Ex]| |].
      * exists (with_prev (s_prev h) g). rewrite Ex, lookup_insert_ne, lookup_insert_eq by done. by rewrite <- E3.
      * intros v k Hv Ek. assert (sid v ≠ x) as Hvx by (intros E; apply Hx; rewrite <- E, EL; by apply elem_id). unfold follows. simpl.
        destruct (decide (sid v = sid u)) as [E|Hne].
        -- rewrite E, lookup_insert_eq, bool_decide_true by done. assert (k = h) as -> by congruence. eexists. split; [done|]. by rewrite Ex.
        -- rewrite !lookup_insert_ne by done. rewrite bool_decide_false by (intros [= E]; by rewrite E in Hne). by exists k.
    + eapply same_next_trans; [by apply (same_next_upd _ x (with_prev (s_prev h)) g)|]. by apply (same_next_upd _ (sid u) (with_prev (Some x)) h).
    + intros y Hy HyL. rewrite !lookup_insert_ne; [done|done|]. intros <-. apply HyL, elem_id. rewrite EL. set_solver.
Qed.

(** ** Insertion *)

Lemma lev_empty lv na hd L s j : as_common L s → as_skip lv na hd L s → (a_hilevel s < j)%nat → ∀ A, (∀ u, u ∈ A → u ∈ L) → pred_at (lev_mem lv) na hd j A = hd.
Proof.
  intros Hc Hs Hj A HA. unfold pred_at. destruct (filter (in_level (lev_mem lv) j) A) as [|u F] eqn:E; [done|]. exfalso.
  assert (u ∈ filter (in_level (lev_mem lv) j) A) as Hu by (rewrite E; left). apply list_elem_of_filter in Hu as [Hl Hu].
  apply lev_mem_level in Hl. pose proof (sk_lev _ _ _ _ _ Hs u (HA u Hu)). lia.
Qed.

(** The path reaches the new levels. *)
Lemma raise_ok lv na hd L s newlev s0 : as_common L s → as_skip lv na hd L s → ∀ A, (∀ u, u ∈ A → u ∈ L) →
  a_hilevel s0 = a_hilevel s → length (a_spath s0) = SSL_NLEVELS → path_ok (lev_mem lv) na hd (a_hilevel s) A (a_spath s0) → (newlev < SSL_NLEVELS)%nat →
  ∃ p h, (if (a_hilevel s0 <? newlev)%nat then set_hilevel newlev (set_spath (raise_path (newlev - a_hilevel s0) (S (a_hilevel s0)) hd (a_spath s0)) s0) else s0) = set_hilevel h (set_spath p s0) ∧
    length p = SSL_NLEVELS ∧ path_ok (lev_mem lv) na hd h A p ∧ (a_hilevel s ≤ h)%nat ∧ (newlev ≤ h < SSL_NLEVELS)%nat.
Proof.
  intros Hc Hs A HA Eh Hl Hok Hn. pose proof (ac_hilevel _ _ Hc) as Hh. destruct (Nat.ltb_spec (a_hilevel s0) newlev) as [Hlt|Hge].
  - destruct (raise_path_ok hd (newlev - a_hilevel s0) (S (a_hilevel s0)) (a_spath s0)) as (H1 & H2 & H3); [unfold SSL_NLEVELS in *; lia|].
    eexists _, newlev. split; [done|]. rewrite H1. split_and!; [done| |lia|done|done]. intros j Hj. destruct (decide (j ≤ a_hilevel s)%nat).
    + rewrite H3 by lia. by apply Hok.
    + rewrite H2 by lia. by rewrite (lev_empty lv na hd L s) by (done || lia).
  - exists (a_spath s0), (a_hilevel s0). split_and!; try done; [by destruct s0|by rewrite Eh|lia|lia].
Qed.

Section alloc.
Context (alloc : gmap Z (list sptr) → Z) (Halloc : ∀ m, m !! alloc m = None).

Lemma ssl_insert_ok lv na hd L s x g t : as_common L s → as_skip lv na hd L s → segs s !! x = Some g → t = (x, (s_base g, s_size g)) → seg_fits t → x ∉ sid <$> L →
  match insert_seg t L with
  | None => ∃ p, ssl_insert alloc s x = Ok (-1, set_spath p s) ∧ as_common L (set_spath p s) ∧ as_skip lv na hd L (set_spath p s)
  | Some L' => ∃ s' lv' na', ssl_insert alloc s x = Ok (0, s') ∧ as_common L' s' ∧ as_skip lv' na' hd L' s' ∧
      is_kas s' = is_kas s ∧ ∀ y, y ≠ x → y ∉ sid <$> L → segs s' !! y = segs s !! y
  end.
Proof using Halloc.
  intros Hc Hs Eg Et Ht Hx. unfold ssl_insert. rewrite Eg. cbn [deref mbind res_bind].
  destruct (ssl_search_ok lv na hd L s (s_base g) true Hc Hs) as (p & -> & Hl & Hp). cbn [mbind res_bind].
  pose proof (below_above (s_base g) L) as EL. pose proof (common_spath L s Hc p) as Hc1. pose proof (skip_spath lv na hd L s Hs p _ _ (eq_sym EL) Hl Hp) as Hs1.
  pose proof (ssl_place_ok L (set_spath p s) x g t Hc1 Eg Et Ht Hx) as Hpl. assert (sid t = x ∧ sbase t = s_base g) as (Ex & Eb) by (by rewrite Et).
  destruct (insert_seg t L) as [L'|] eqn:Ei; [|rewrite Hpl; cbn [mbind res_bind]; by exists p].
  destruct (insert_seg_apart _ _ _ (ac_apart _ _ Hc) (ac_fits _ _ Hc) Ht Ei) as (EL' & Hap & Hfit). rewrite Eb in EL'.
  set (A := below (s_base g) L) in *. set (B := above (s_base g) L) in *.
  destruct Hpl as (m & -> & Hprev & Hnext & Hoth). cbn [mbind res_bind]. set (s2 := set_segs m _).
  destruct (ssl_newlevel_ok s2) as (nl & r & -> & Hnl & Hr); [apply (ac_rand _ _ Hc)|]. cbn [mbind res_bind].
  change (a_segs (set_rand r s2)) with (a_segs s). rewrite (sk_head _ _ _ _ _ Hs). cbn [deref mbind res_bind].
  destruct (raise_ok lv na hd L s nl (set_rand r s2) Hc Hs A) as (p' & h & -> & Hl' & Hp' & Hh1 & Hh2); [intros u Hu; rewrite <- EL; set_solver|done..|].
  set (s4 := set_hilevel h _). change (ssls s4) with (ssls s). set (ssl := alloc (ssls s)).
  assert (∃ g1, m !! x = Some g1 ∧ s_base g1 = s_base g ∧ s_size g1 = s_size g ∧ s_prev g1 = sid <$> list.last A) as (g1 & Eg1 & Eg2 & Eg3 & Eg4).
  { destruct (Hprev A t B EL') as (g1 & E1 & E2 & E3 & E4). exists g1. split_and!; [by rewrite <- Ex|by rewrite E2, Et|by rewrite E3, Et|done]. }
  rewrite (upd_seg_ok x _ (set_ssls _ s4) g1 Eg1). cbn [mbind res_bind].
  assert (NoDup (sid <$> A ++ t :: B)) as Hn by (apply (common_mid_nodup L s t Hc); [done|by rewrite Ex]).
  destruct (ids_mid _ _ _ Hn) as [HnA HnB].
  set (s6 := set_segs _ _). set (lv0 := fupd lv x 0%nat). set (na' := fupd na x ssl).
  assert (na' (sid t) = ssl) as Ena by (unfold na'; by rewrite Ex, fupd_eq).
  destruct (ssl_link_ok na' hd A t B Hn (S nl) 0 lv0 s6) as (m6 & El & Hnodes).
  { pose proof (sk_nodes _ _ _ _ _ Hs) as Hnd. rewrite <- EL in Hnd. apply (nodes_add _ _ _ _ A t B _ ssl) in Hnd; [|done|apply Halloc]. rewrite Ex in Hnd.
    change (ssls s6) with (<[ssl:=replicate SSL_NLEVELS SUnused]> (ssls s)).
    eapply nodes_ext; [exact Hnd|..]; try done. intros u j _ _. unfold lv0. rewrite lev_mem_fupd. unfold fupd. by case_bool_decide. }
  { rewrite Ex. apply fupd_eq. }
  { unfold SSL_NLEVELS in *. lia. }
  { intros j Hj. change (a_spath s6) with p'. rewrite Hp' by lia. do 2 f_equal. apply pred_at_ext. intros u Hu. unfold lv0, na'.
    rewrite lev_mem_fupd, bool_decide_false, fupd_ne by (rewrite <- Ex; auto). done. }
  rewrite Ena, Ex in El. rewrite El. cbn [mbind res_bind]. set (lv' := fupd lv0 (sid t) (0 + S nl)%nat).
  assert (∀ u, u ∈ A ++ B → sid u ≠ x) as Hux by (intros u Hu; rewrite <- Ex; apply elem_of_app in Hu as [Hu|Hu]; auto).
  assert (∀ u, u ∈ A ++ B → lv' (sid u) = lv (sid u) ∧ na' (sid u) = na (sid u)) as Hsame.
  { intros u Hu. unfold lv', lv0, na'. rewrite Ex, !fupd_ne by auto. done. }
  eexists _, lv', na'. split; [done|]. split; [|split; [|split]].
  - apply common_intro; try done.
    + intros A' u B' E. destruct (Hprev A' u B' E) as (k & Ek & E1 & E2 & E3). change (segs _) with (<[x := with_next (Some ssl) g1]> m).
      destruct (decide (sid u = x)) as [E4|Hne]; [|exists k; by rewrite lookup_insert_ne]. rewrite E4, lookup_insert_eq. rewrite E4 in Ek. assert (k = g1) as -> by congruence. by eexists.
    + rewrite EL'. done.
    + cbn. rewrite (ac_nsegs _ _ Hc), EL', <- EL, !length_app. simpl. lia.
    + simpl. lia.
  - rewrite EL'. constructor; [apply (sk_rep _ _ _ _ _ Hs)|apply (sk_head _ _ _ _ _ Hs)|exact Hnodes| | |done|].
    + intros u Hu. change (segs _) with (<[x := with_next (Some ssl) g1]> m). assert (u = t ∨ u ∈ A ++ B) as [->|Hu'] by set_solver.
      * rewrite Ex, lookup_insert_eq, <- Ex, Ena. by eexists.
      * rewrite lookup_insert_ne by (apply not_eq_sym; auto). destruct (Hsame u Hu') as [_ ->]. destruct (sk_next _ _ _ _ _ Hs u) as (k & Ek & E1); [by rewrite <- EL|].
        destruct (Hnext _ _ Ek) as (k' & E2 & E3). exists k'. split; [done|]. congruence.
    + intros u Hu. change (a_hilevel _) with h. assert (u = t ∨ u ∈ A ++ B) as [->|Hu'] by set_solver.
      * unfold lv'. rewrite fupd_eq. lia.
      * destruct (Hsame u Hu') as [-> _]. pose proof (sk_lev _ _ _ _ _ Hs u ltac:(by rewrite <- EL)). lia.
    + right. exists A, (t :: B). split; [done|]. intros j Hj. change (a_spath _) with p'. rewrite Hp' by done. do 2 f_equal. apply pred_at_ext. intros u Hu.
      destruct (Hsame u) as [E1 ->]; [set_solver|]. unfold lev_mem. by rewrite E1.
  - done.
  - intros y Hy1 Hy2. transitivity (<[x := with_next (Some ssl) g1]> m !! y); [done|]. rewrite lookup_insert_ne by done. by apply Hoth.
Qed.

End alloc.

(** ** Removal *)

Lemma remove_common A t B s s' : as_common (A ++ t :: B) s → prevs_ok (A ++ B) (segs s') → a_tail s' = sid <$> list.last (A ++ B) → a_nsegs s' = a_nsegs s - 1 →
  ssl_rand s' = ssl_rand s → (a_hilevel s' < SSL_NLEVELS)%nat → as_common (A ++ B) s'.
Proof.
  intros Hc Hp Ht Hn Hr Hh. destruct (proj1 (apart_app _ _) (ac_apart _ _ Hc)) as (H1 & [_ H2] & H3). apply common_intro; try done.
  - apply apart_app. split_and!; [done|done|]. intros a b Ha Hb. apply H3; [done|by right].
  - pose proof (ac_fits _ _ Hc) as Hf. apply list.Forall_app in Hf as [Hf1 Hf2]. apply list.Forall_cons in Hf2 as [_ Hf2]. by apply list.Forall_app.
  - pose proof (ac_ids _ _ Hc) as Hi. rewrite fmap_app in *. simpl in Hi. apply list.NoDup_app in Hi as (Hi1 & Hi2 & Hi3).
    apply list.NoDup_cons in Hi3 as [_ Hi3]. apply list.NoDup_app. split_and!; [done| |done]. intros y Hy Hy'. apply (Hi2 y Hy). by right.
  - rewrite Hn, (ac_nsegs _ _ Hc), !length_app. simpl. lia.
  - rewrite Hr. apply (ac_rand _ _ Hc).
Qed.

(** The segment after gets the backward link of the one that goes, or the tail does. *)
Lemma remove_prev A t B s g s0 : as_common (A ++ t :: B) s0 → segs s = segs s0 → segs s !! sid t = Some g →
  ∃ m, match sid <$> head B with None => Ok (set_a_tail (s_prev g) s) | Some y => upd_seg y (with_prev (s_prev g)) s end =
      Ok (set_segs m (set_a_tail (match B with [] => s_prev g | _ => a_tail s end) s)) ∧
    prevs_ok (A ++ B) m ∧ same_next (segs s) m ∧ (∀ y, y ∉ sid <$> A ++ B → m !! y = segs s !! y) ∧ m !! sid t = Some g.
Proof.
  intros Hc Es Eg. pose proof (ac_ids _ _ Hc) as Hn. destruct (ids_mid _ _ _ Hn) as [HnA HnB]. pose proof (prevs_of _ _ Hc) as Hp. rewrite <- Es in Hp.
  destruct (Hp A t B eq_refl) as (g' & Eg' & _ & _ & Epr). assert (g' = g) as -> by congruence.
  destruct B as [|u B]; cbn [head fmap option_fmap option_map].
  - exists (segs s). split; [by destruct s|]. split_and!; try done; [|intros y h Hy; by exists h].
    apply (prevs_remove A t [] (segs s)); [done|done|]. intros v k Hv Ek. exists k. by rewrite follows_none by (intros w Hw; set_solver).
  - destruct (Hp (A ++ [t]) u B) as (h & Eh & _); [by rewrite <- app_assoc|]. rewrite (upd_seg_ok _ _ s h Eh). cbn [mbind res_bind].
    exists (<[sid u := with_prev (s_prev g) h]> (segs s)). assert (sid u ≠ sid t) as Hut by (apply HnB; left). split_and!.
    + by destruct s.
    + apply (prevs_remove A t (u :: B) (segs s)); [done|done|]. intros v k Hv Ek. unfold follows. simpl. destruct (decide (sid u = sid v)) as [E|Hne].
      * rewrite <- E, lookup_insert_eq, bool_decide_true by done. rewrite <- E in Ek. assert (k = h) as -> by congruence. eexists. split; [done|]. by rewrite <- Epr.
      * rewrite lookup_insert_ne by done. rewrite bool_decide_false by congruence. by exists k.
    + by apply (same_next_upd _ (sid u) (with_prev (s_prev g)) h).
    + intros y Hy. rewrite lookup_insert_ne; [done|]. intros <-. apply Hy, elem_id. set_solver.
    + by rewrite lookup_insert_ne.
Qed.

Lemma remove_tail A t (B : list aseg) s g : as_common (A ++ t :: B) s → s_prev g = sid <$> list.last A → (match B with [] => s_prev g | _ => a_tail s end) = sid <$> list.last (A ++ B).
Proof.
  intros Hc Ep. destruct B as [|u B]; [by rewrite app_nil_r|]. rewrite (ac_tail _ _ Hc), !seg_last_app_cons, last_cons. by destruct (list.last B).
Qed.

Lemma ssl_remove_ok lv na hd L s addr : as_common L s → as_skip lv na hd L s →
  match remove_seg addr L with
  | None => ∃ p, ssl_remove s addr = Ok (None, set_spath p s) ∧ as_common L (set_spath p s) ∧ as_skip lv na hd L (set_spath p s)
  | Some (x, L') => ∃ s', ssl_remove s addr = Ok (Some x, s') ∧ as_common L' s' ∧ as_skip lv na hd L' s' ∧ is_kas s' = is_kas s ∧
      (∀ y, y ∉ sid <$> L → segs s' !! y = segs s !! y) ∧ (∃ g, segs s' !! x = Some g ∧ s_base g = addr)
  end.
Proof.
  intros Hc Hs. unfold ssl_remove. destruct (ssl_search_ok lv na hd L s addr false Hc Hs) as (p & -> & Hl & Hp). cbn [mbind res_bind].
  pose proof (below_above addr L) as EL. pose proof (common_spath L s Hc p) as Hc1. pose proof (skip_spath lv na hd L s Hs p _ _ (eq_sym EL) Hl Hp) as Hs1.
  unfold find_seg, remove_seg. set (A := below addr L) in *. destruct (above addr L) as [|t B]; [by exists p|].
  destruct (next_struct lv na hd L s Hc Hs t) as (g & Eg & _ & Eb & En); [rewrite <- EL; set_solver|].
  change (segs (set_spath p s)) with (segs s). rewrite Eg. cbn [deref mbind res_bind]. rewrite Eb. destruct (sbase t =? addr) eqn:Eaddr; cbn [negb]; [|by exists p].
  rewrite En. cbn [deref mbind res_bind]. pose proof (ac_ids _ _ Hc) as Hn. rewrite <- EL in Hn. pose proof (ac_hilevel _ _ Hc) as Hh.
  change (a_hilevel (set_spath p s)) with (a_hilevel s).
  destruct (ssl_unlink_ok lv na hd A t B Hn (S (a_hilevel s)) 0 (set_spath p s)) as (m & mem & -> & Hnd & Hm1 & Hm2).
  { rewrite EL. eapply nodes_ext; [apply (sk_nodes _ _ _ _ _ Hs)|..]; try done.
    - intros u j _ _. unfold still_in. case_bool_decide as E; [|done]. rewrite E. done.
    - intros u j _. unfold still_in. case_bool_decide as E; [|done]. by rewrite E. }
  { lia. }
  { pose proof (sk_lev _ _ _ _ _ Hs t ltac:(rewrite <- EL; set_solver)). simpl. lia. }
  { intros j Hj. apply Hp. lia. }
  cbn [mbind res_bind]. set (s2 := set_ssls m _).
  assert (Hother : ∀ u, u ∈ A ++ B → sid u ≠ sid t).
  { destruct (ids_mid _ _ _ Hn) as [HnA HnB]. intros u [Hu|Hu]%elem_of_app; auto. }
  assert (∀ s', (∀ y, y ≠ na (sid t) → ssls s' !! y = m !! y) → nodes_ok (lev_mem lv) (lev_mem lv) na hd (A ++ B) (ssls s')) as Hnd'.
  { intros s' Hs'. pose proof (nodes_drop _ _ _ _ A t B _ _ Hnd Hn Hm1 Hs') as Hnd'. eapply nodes_ext; [exact Hnd'|..]; try done. intros u j Hu _. by rewrite Hm2 by auto. }
  assert (Hlev : ∀ u, u ∈ A ++ t :: B → (1 ≤ lv (sid u) ≤ S (a_hilevel s))%nat) by (intros u Hu; apply (sk_lev _ _ _ _ _ Hs); by rewrite <- EL).
  destruct (nd_seg _ _ _ _ _ _ Hnd A t B eq_refl) as (nt & Ent & Hnt).
  assert (seg_at s2 (na (sid t)) 0 = Ok (sid <$> head B)) as ->.
  { apply (seg_at_ptr _ _ _ nt); [done|]. rewrite (Hnt 0%nat) by (unfold SSL_NLEVELS; lia). unfold lev_mem at 1. rewrite (proj2 (Nat.ltb_lt _ _)) by (apply Hlev; set_solver).
    do 2 f_equal. destruct B as [|u B]; [done|]. rewrite nxt_cons, Hm2 by (apply Hother; set_solver). unfold lev_mem. by rewrite (proj2 (Nat.ltb_lt _ _)) by (apply Hlev; set_solver). }
  cbn [mbind res_bind]. rewrite <- EL in Hc.
  destruct (remove_prev A t B s2 g s Hc eq_refl Eg) as (m' & -> & Hpr & Hnx & Hoth & Egt). cbn [mbind res_bind]. set (s3 := set_segs m' _).
  change (a_segs s3) with (a_segs s). rewrite (sk_head _ _ _ _ _ Hs). cbn [deref mbind res_bind].
  destruct (lower_hilev_ok lv na hd (A ++ B) s3 (Hnd' s3 ltac:(done)) (a_hilevel s) Hh) as (h & -> & Hle & Hlv); [intros u Hu; apply Hlev; set_solver|].
  cbn [mbind res_bind]. rewrite (upd_seg_ok (sid t) _ _ g) by exact Egt. cbn [mbind res_bind].
  assert (s_prev g = sid <$> list.last A) as Eprev.
  { destruct (prevs_of _ _ Hc A t B eq_refl) as (g' & Eg' & _ & _ & E). congruence. }
  eexists. split; [done|]. split_and!.
  - apply (remove_common A t B s); try done.
    + intros A' u B' E. destruct (Hpr A' u B' E) as (k & Ek & E1). exists k. split; [|done]. change (<[sid t := with_next None g]> m' !! sid u = Some k).
      rewrite lookup_insert_ne; [done|]. apply not_eq_sym, Hother. rewrite E. set_solver.
    + simpl. apply (remove_tail A t B s g Hc Eprev).
    + simpl. lia.
  - constructor; [apply (sk_rep _ _ _ _ _ Hs)|apply (sk_head _ _ _ _ _ Hs)| | | |done|].
    + apply Hnd'. intros y Hy. by apply lookup_delete_ne.
    + intros u Hu. change (∃ k, <[sid t := with_next None g]> m' !! sid u = Some k ∧ s_next k = Some (na (sid u))).
      rewrite lookup_insert_ne by (by apply not_eq_sym, Hother). destruct (sk_next _ _ _ _ _ Hs u) as (k & Ek & E1); [rewrite <- EL; set_solver|].
      destruct (Hnx _ _ Ek) as (k' & E2 & E3). exists k'. split; [done|]. congruence.
    + intros u Hu. change (a_hilevel _) with h. pose proof (Hlv u Hu). pose proof (Hlev u ltac:(set_solver)). lia.
    + right. exists A, B. split; [done|]. intros j Hj. apply Hp. simpl in Hj. lia.
  - done.
  - intros y Hy. transitivity (<[sid t := with_next None g]> m' !! y); [done|]. rewrite <- EL in Hy. rewrite lookup_insert_ne.
    + apply Hoth. intros Hy'. apply Hy. rewrite fmap_app in *. set_solver.
    + intros <-. apply Hy, elem_id. set_solver.
  - exists (with_next None g). split; [|simpl; lia]. transitivity (<[sid t := with_next None g]> m' !! sid t); [done|]. apply lookup_insert_eq.
Qed.
