(* ===== verification/AsList.v ===== *)
(** * The linked list of an address space

    The searches from the hint, from either end, find the same segment; insertion and removal
    keep both directions of the links. *)

From S2P Require Import Prelude As AsInv AsSegs AsOps.

Lemma list_struct L s A t B : as_common L s → as_list L s → L = A ++ t :: B →
  ∃ g, segs s !! sid t = Some g ∧ s_base g = sbase t ∧ s_end g = send t ∧ s_prev g = sid <$> list.last A ∧ s_next g = sid <$> head B.
Proof.
  intros Hc Hl E. destruct (ac_seg _ _ Hc A t B E) as (g & Eg & _ & _ & Ep), (al_next _ _ Hl A t B E) as (g2 & Eg2 & En).
  destruct (seg_in L s t Hc) as (g3 & Eg3 & Eb & _ & Ee); [rewrite E; set_solver|]. assert (g2 = g) as -> by congruence. assert (g3 = g) as -> by congruence. by exists g.
Qed.

Lemma seg_above_app addr (A B : list aseg) : (∀ a, a ∈ A → send a ≤ addr) → above addr (A ++ B) = above addr B.
Proof. induction A as [|a A IH]; intros H; [done|]. simpl. rewrite (proj2 (Z.leb_le _ _)) by (apply H; left). apply IH. intros b Hb. apply H. by right. Qed.

Lemma above_cons_gt addr t B : addr < send t → above addr (t :: B) = t :: B.
Proof. intros H. simpl. by rewrite (proj2 (Z.leb_gt _ _)) by lia. Qed.

Lemma above_last addr (L : list aseg) t : list.last L = Some t → addr < send t → above addr L ≠ [].
Proof.
  intros H Ht E. assert (t ∈ below addr L) as Hin; [|apply below_ends in Hin; lia]. pose proof (below_above addr L) as EL. rewrite E, app_nil_r in EL. rewrite EL. by apply last_Some_elem_of.
Qed.

Lemma before_ends L s A t B addr : as_common L s → L = A ++ t :: B → sbase t ≤ addr → ∀ a, a ∈ A → send a ≤ addr.
Proof. intros Hc -> Ht a Ha. destruct (proj1 (apart_app _ _) (ac_apart _ _ Hc)) as (_ & _ & H). specialize (H a t Ha ltac:(left)). lia. Qed.

Section searches.
Context (L : list aseg) (s : aspace) (Hc : as_common L s) (Hl : as_list L s).

Definition hinted (x : Z) (s' : aspace) : Prop := s' = s ∨ s' = set_seglast (Some x) s.

Lemma forward_search_ok addr : above addr L ≠ [] → ∀ fuel A t B, L = A ++ t :: B → (∀ a, a ∈ A → send a ≤ addr) → (length B < fuel)%nat →
  ∃ u U s', above addr L = u :: U ∧ forward_search fuel s addr (sid t) = Ok (sid u, s') ∧ hinted (sid u) s'.
Proof.
  intros Hne. induction fuel as [|fuel IH]; intros A t B E HA Hf; [lia|]. cbn [forward_search].
  destruct (list_struct L s A t B Hc Hl E) as (g & -> & Eb & Ee & _ & En). cbn [deref mbind res_bind]. rewrite Ee.
  destruct (Z.leb_spec (send t) addr) as [Ht|Ht].
  - assert (∀ a, a ∈ A ++ [t] → send a ≤ addr) as HA' by (intros a [Ha|Ha%list_elem_of_singleton]%elem_of_app; [auto|by subst]).
    rewrite En. destruct B as [|v B].
    + exfalso. apply Hne. rewrite E, <- (app_nil_r [t]), seg_above_app; [|exact HA]. simpl. by rewrite (proj2 (Z.leb_le _ _)).
    + cbn [head fmap option_fmap option_map deref mbind res_bind]. simpl in Hf. apply (IH (A ++ [t]) v B); [by rewrite <- app_assoc|exact HA'|lia].
  - exists t, B. eexists. split; [rewrite E, seg_above_app by done; by apply above_cons_gt|]. split; [done|]. unfold hinted. case_match; by (left + right).
Qed.

Lemma reverse_search_ok addr : (∀ u U, L = u :: U → sbase u ≤ addr) → ∀ fuel A t B prev, L = A ++ t :: B →
  (send t ≤ addr → ∃ v B', B = v :: B' ∧ prev = Some (sid v) ∧ addr < send v) → (length A < fuel)%nat →
  ∃ u U s', above addr L = u :: U ∧ reverse_search fuel s addr (sid t) prev = Ok (sid u, s') ∧ hinted (sid u) s'.
Proof.
  intros Hlo. induction fuel as [|fuel IH]; intros A t B prev E Hprev Hf; [lia|]. cbn [reverse_search].
  assert (sbase t < send t) as Hst.
  { assert (seg_fits t) as (_ & H & _) by (apply (proj1 (list.Forall_forall _ _) (ac_fits _ _ Hc)); rewrite E; set_solver). unfold send. lia. }
  destruct (list_struct L s A t B Hc Hl E) as (g & -> & Eb & Ee & Ep & _). cbn [deref mbind res_bind]. rewrite Eb, Ee.
  destruct (Z.ltb_spec addr (sbase t)) as [Ht|Ht].
  - rewrite Ep. destruct A as [|v A _] using rev_ind.
    + exfalso. specialize (Hlo t B E). lia.
    + rewrite last_snoc. cbn [fmap option_fmap option_map deref mbind res_bind]. rewrite <- app_assoc in E. apply (IH A v (t :: B)); [done| |rewrite length_app in Hf; simpl in Hf; lia].
      intros _. exists t, B. split_and!; try done. lia.
  - pose proof (before_ends L s A t B addr Hc E Ht) as HA. destruct (Z.ltb_spec addr (send t)) as [Hs|Hs].
    + exists t, B. eexists. split; [rewrite E, seg_above_app by done; by apply above_cons_gt|]. split; [done|]. by right.
    + destruct (Hprev Hs) as (v & B' & -> & -> & Hv). cbn [deref mbind res_bind]. exists v, B'. eexists. split; [|split; [done|by left]].
      rewrite E. change (A ++ t :: v :: B') with (A ++ [t] ++ v :: B'). rewrite app_assoc, seg_above_app; [by apply above_cons_gt|].
      intros a [Ha|Ha%list_elem_of_singleton]%elem_of_app; [auto|by subst].
Qed.

Lemma list_search_ok addr tail u U : L = u :: U → ∃ s', list_search s addr tail (sid u) = Ok (find_seg addr tail L, s') ∧
  (s' = s ∨ ∃ x, x ∈ sid <$> L ∧ s' = set_seglast (Some x) s).
Proof.
  intros EL. unfold list_search, find_seg. pose proof (length_segs _ _ Hc) as Hlen.
  assert (∃ A t B, L = A ++ t :: B ∧ default (sid u) (a_seglast s) = sid t) as (A & t & B & E & ->).
  { destruct (a_seglast s) as [x|] eqn:Ex; simpl; [|by exists [], u, U]. pose proof (al_last _ _ Hl x Ex) as Hx.
    apply list_elem_of_fmap in Hx as (t & -> & Ht). apply list_elem_of_split in Ht as (A & B & ->). by exists A, t, B. }
  assert (length A + S (length B) = length L)%nat as EAB by (by rewrite E, length_app).
  destruct (list_struct L s A t B Hc Hl E) as (g & -> & Eb & Ee & _ & En). cbn [deref mbind res_bind]. rewrite Eb, Ee.
  assert (∀ r, (∃ v V s', above addr L = v :: V ∧ r = Ok (sid v, s') ∧ hinted (sid v) s') →
    ∃ s', ('(x, s0) ← r; Ok (Some x, s0)) = Ok (match above addr L with [] => if tail then sid <$> list.last L else None | t :: _ => Some (sid t) end, s') ∧ (s' = s ∨ ∃ x, x ∈ sid <$> L ∧ s' = set_seglast (Some x) s)) as Hfound.
  { intros r (v & V & s' & EA & -> & Hh). exists s'. rewrite EA. split; [done|]. destruct Hh as [->| ->]; [by left|right]. exists (sid v). split; [|done].
    apply elem_id. rewrite <- (below_above addr L), EA. set_solver. }
  destruct (Z.leb_spec (sbase t) addr) as [Hb|Hb].
  - pose proof (before_ends L s A t B addr Hc E Hb) as HA. destruct (Z.ltb_spec addr (send t)) as [Hs|Hs].
    { exists s. rewrite E at 1. rewrite seg_above_app, above_cons_gt by done. split; [done|by left]. }
    destruct (list.last L) as [h|] eqn:El; [|apply last_None in El; rewrite El in EL; done]. rewrite (ac_tail _ _ Hc), El. cbn [fmap option_fmap option_map deref mbind res_bind].
    destruct (last_Some L h) as [(P & EP) _]; [done|]. destruct (list_struct L s P h [] Hc Hl EP) as (gh & -> & _ & Eh & _). cbn [deref mbind res_bind]. rewrite Eh.
    destruct (Z.leb_spec (send h) addr) as [Hh|Hh].
    { exists s. split; [|by left]. replace (above addr L) with (@nil aseg); [done|]. rewrite <- (app_nil_r L), seg_above_app; [done|]. intros a Ha. destruct (decide (a = h)) as [->|Hah]; [done|].
      rewrite EP in Ha. apply elem_of_app in Ha as [Ha|Ha%list_elem_of_singleton]; [|done]. pose proof (apart_ends L h a P [] (ac_apart _ _ Hc) (ac_fits _ _ Hc) EP Ha). lia. }
    pose proof (above_last addr L h El Hh) as Hne. destruct (_ <? _).
    + apply Hfound. apply (reverse_search_ok addr) with (A := P) (B := []); [|done|lia|rewrite EP, length_app in Hlen; simpl in Hlen; lia].
      intros v V Ev. destruct A as [|a A]; [rewrite E in Ev; by injection Ev as -> _|]. rewrite E in Ev. injection Ev as -> _.
      pose proof (HA v ltac:(left)). assert (seg_fits v) as (_ & H' & _) by (apply (proj1 (list.Forall_forall _ _) (ac_fits _ _ Hc)); rewrite E; set_solver). unfold send in *. lia.
    + rewrite En. destruct B as [|v B].
      * exfalso. rewrite E, last_snoc in El. injection El as ->. lia.
      * cbn [head fmap option_fmap option_map deref mbind res_bind]. apply Hfound. apply (forward_search_ok addr Hne) with (A := A ++ [t]) (B := B); [by rewrite <- app_assoc| |simpl in EAB; lia].
        intros a [Ha|Ha%list_elem_of_singleton]%elem_of_app; [auto|by subst].
  - destruct (list_struct L s [] u U Hc Hl EL) as (gl & -> & Elb & _). cbn [deref mbind res_bind]. rewrite Elb.
    assert (∀ v, v ∈ L → sbase v < send v) as Hsz.
    { intros v Hv. assert (seg_fits v) as (_ & H' & _) by (by apply (proj1 (list.Forall_forall _ _) (ac_fits _ _ Hc))). unfold send. lia. }
    destruct (Z.ltb_spec addr (sbase u)) as [Hu|Hu].
    { exists s. rewrite EL at 1. rewrite above_cons_gt by (pose proof (Hsz u ltac:(rewrite EL; left)); lia). split; [done|by left]. }
    assert (above addr L ≠ []) as Hne.
    { intros EA. pose proof (below_above addr L) as EB. rewrite EA, app_nil_r in EB. assert (t ∈ below addr L) as Hin by (rewrite EB, E; set_solver).
      apply below_ends in Hin. pose proof (Hsz t ltac:(rewrite E; set_solver)). lia. }
    destruct (_ <? _).
    + apply Hfound. apply (forward_search_ok addr Hne) with (A := []) (B := U); [done|set_solver|rewrite EL in Hlen; simpl in Hlen; lia].
    + apply Hfound. apply (reverse_search_ok addr) with (A := A) (B := B); [|done|pose proof (Hsz t ltac:(rewrite E; set_solver)); lia|lia].
      intros v V Ev. rewrite EL in Ev. by injection Ev as -> _.
Qed.
End searches.

Lemma common_seglast L s o : as_common L s → as_common L (set_seglast o s).
Proof. intros []. by constructor. Qed.
Lemma list_seglast L s x : as_list L s → x ∈ sid <$> L → as_list L (set_seglast (Some x) s).
Proof. intros [] Hx. constructor; try done. by intros y [= <-]. Qed.

Lemma list_findseg L s addr tail : as_common L s → as_list L s → ∃ s', as_findseg s addr tail = Ok (find_seg addr tail L, s') ∧
  as_common L s' ∧ as_list L s' ∧ segs s' = segs s ∧ is_kas s' = is_kas s.
Proof.
  intros Hc Hl. unfold as_findseg. rewrite (al_rep _ _ Hl), (al_first _ _ Hl). destruct L as [|u U] eqn:EL.
  - exists s. unfold find_seg. simpl. by destruct tail.
  - cbn [head fmap option_fmap option_map]. destruct (list_search_ok (u :: U) s Hc Hl addr tail u U eq_refl) as (s' & E & Hs'). rewrite E. exists s'. split; [done|].
    destruct Hs' as [->|(x & Hx & ->)]; [done|]. split_and!; [by apply common_seglast|by apply list_seglast|done|done].
Qed.

(** ** Insertion *)

Lemma head_app_cons {T} (A B : list T) t : head (A ++ t :: B) = Some (default t (head A)).
Proof. by destruct A. Qed.

(** The links of a list after [x] entered between [A] and [B]. *)
Lemma links_insert A t B m m' g g' : prevs_ok (A ++ B) m → nexts_ok (A ++ B) m → NoDup (sid <$> A ++ t :: B) → s_base g = sbase t → s_size g = ssize t →
  g' = with_prev (sid <$> list.last A) (with_next (sid <$> head B) g) → m' !! sid t = Some g' →
  (∀ y h, y ≠ sid t → m !! y = Some h → m' !! y = Some (MkSeg (s_base h) (s_size h) (if bool_decide (sid <$> head B = Some y) then Some (sid t) else s_prev h)
     (if bool_decide (sid <$> list.last A = Some y) then Some (sid t) else s_next h))) →
  prevs_ok (A ++ t :: B) m' ∧ nexts_ok (A ++ t :: B) m'.
Proof.
  intros Hp Hx Hn Eb Es -> Et Hm. destruct (ids_mid _ _ _ Hn) as [HnA HnB].
  assert (∀ u, u ∈ A ++ B → sid u ≠ sid t) as Hne by (intros u [Hu|Hu]%elem_of_app; auto). split.
  - apply (prevs_insert A t B m); [done|done|eexists; split; [exact Et|done]|]. intros u h Hu Eh. eexists. split; [by apply Hm; [apply Hne|]|]. done.
  - apply (nexts_insert A t B m); [done|done|eexists; split; [exact Et|done]|]. intros u h Hu Eh. eexists. split; [by apply Hm; [apply Hne|]|]. done.
Qed.

Lemma seg_eta h : MkSeg (s_base h) (s_size h) (s_prev h) (s_next h) = h.
Proof. by destruct h. Qed.

Lemma nexts_of L s : as_list L s → nexts_ok L (segs s).
Proof. intros Hl A t B E. by apply (al_next _ _ Hl A t B). Qed.

(** What [list_place] and the removal change of the state. *)
Definition only_links (s s' : aspace) : Prop := s' = set_segs (segs s') (set_a_tail (a_tail s') (set_a_segs (a_segs s') s)).

Definition placed (L : list aseg) (x : Z) (L' : list aseg) (s s' : aspace) : Prop :=
  prevs_ok L' (segs s') ∧ nexts_ok L' (segs s') ∧ (∀ y, y ≠ x → y ∉ sid <$> L → segs s' !! y = segs s !! y) ∧
  a_tail s' = sid <$> list.last L' ∧ a_segs s' = sid <$> head L' ∧ only_links s s'.

(** The cases of a lookup in the updated map. *)
Ltac links_at :=
  repeat match goal with
  | |- context [<[?v := _]> _ !! ?y] =>
      first [ rewrite (lookup_insert_eq _ v) | rewrite (lookup_insert_ne _ v y) by done
            | destruct (decide (v = y)) as [<-|]; [rewrite (lookup_insert_eq _ v)|rewrite (lookup_insert_ne _ v y) by done] ]
  end.
Ltac links_bool :=
  repeat match goal with
  | |- context [bool_decide (?a = ?b)] => first [ rewrite (bool_decide_true (a = b)) by done | rewrite (bool_decide_false (a = b)) by (done || congruence) ]
  end.

Lemma placed_intro L s x g t A B s' : as_common L s → as_list L s → segs s !! x = Some g → t = (x, (s_base g, s_size g)) → L = A ++ B → x ∉ sid <$> L →
  segs s' !! x = Some (with_prev (sid <$> list.last A) (with_next (sid <$> head B) g)) →
  (∀ y h, y ≠ x → segs s !! y = Some h → segs s' !! y = Some (MkSeg (s_base h) (s_size h) (if bool_decide (sid <$> head B = Some y) then Some x else s_prev h)
     (if bool_decide (sid <$> list.last A = Some y) then Some x else s_next h))) →
  (∀ y, y ≠ x → y ∉ sid <$> L → segs s' !! y = segs s !! y) →
  a_tail s' = sid <$> list.last (A ++ t :: B) → a_segs s' = sid <$> head (A ++ t :: B) → only_links s s' → placed L x (A ++ t :: B) s s'.
Proof.
  intros Hc Hl Eg Et EL Hx Hg Hm Hf H1 H2 H3. assert (sid t = x ∧ sbase t = s_base g ∧ ssize t = s_size g) as (Ex & Eb & Es) by (by rewrite Et).
  pose proof (prevs_of _ _ Hc) as Hpr. pose proof (nexts_of _ _ Hl) as Hnx. rewrite EL in Hpr, Hnx.
  destruct (links_insert A t B (segs s) (segs s') g (with_prev (sid <$> list.last A) (with_next (sid <$> head B) g)) Hpr Hnx) as [Hp' Hn'];
    [by apply (common_mid_nodup L s t Hc); [|rewrite Ex]|done|done|done|by rewrite Ex|by rewrite Ex|].
  by split_and!.
Qed.

Lemma list_place_ok L s x g t : as_common L s → as_list L s → segs s !! x = Some g → t = (x, (s_base g, s_size g)) → seg_fits t → x ∉ sid <$> L →
  match insert_seg t L with
  | None => list_place s x (s_base g) (s_end g) (find_seg (s_base g) true L) = Ok None
  | Some L' => ∃ s', list_place s x (s_base g) (s_end g) (find_seg (s_base g) true L) = Ok (Some s') ∧ placed L x L' s s'
  end.
Proof.
  intros Hc Hl Eg Et Ht Hx. pose proof (s_end_fits g x ltac:(by rewrite <- Et)) as Eend. rewrite <- Et in Eend.
  assert (sid t = x ∧ sbase t = s_base g) as (Ex & Eb) by (by rewrite Et).
  pose proof (below_above (s_base g) L) as EL. set (A := below (s_base g) L) in *.
  assert (∀ v, v ∈ L → sid v ≠ x) as HxL by (intros v Hv E; apply Hx; rewrite <- E; by apply elem_id).
  unfold insert_seg, list_place, find_seg. rewrite Eb, Eend. fold A. destruct (above (s_base g) L) as [|u B] eqn:EA.
  - rewrite app_nil_r in EL. destruct (list.last L) as [v|] eqn:Ev; cbn [fmap option_fmap option_map].
    + destruct (last_Some L v) as [(P & EP) _]; [done|]. destruct (list_struct L s P v [] Hc Hl EP) as (h & Eh & _ & Ehe & _ & _). rewrite Eh. cbn [deref mbind res_bind].
      assert (v ∈ L) as Hv by (by apply last_Some_elem_of). pose proof (HxL v Hv) as Hvx.
      rewrite Ehe, (proj2 (Z.leb_le (send v) _)) by (apply (below_ends _ L); fold A; by rewrite EL). rewrite (upd_seg_ok x _ s g Eg). cbn [mbind res_bind].
      rewrite (upd_seg_ok (sid v) _ _ h) by (simpl; by rewrite lookup_insert_ne). cbn [mbind res_bind]. eexists. split; [done|].
      apply (placed_intro L s x g t A []); simpl; try done; rewrite ?EL, ?seg_last_app_cons, ?head_app_cons, ?Ev, ?Ex; [by rewrite app_nil_r|by links_at| | |by simpl; rewrite Ex|].
      * intros y k Hy Ek. simpl. links_at; links_bool; [|by rewrite seg_eta]. by assert (k = h) as -> by congruence.
      * intros y Hy HyL. links_at; [|done]. exfalso. by apply HyL, elem_id.
      * rewrite (al_first _ _ Hl). destruct L; [done|]. done.
    + apply last_None in Ev. assert (A = []) as EA' by congruence. rewrite (upd_seg_ok x _ (set_a_tail _ _) g) by done. cbn [mbind res_bind]. eexists. split; [done|].
      apply (placed_intro L s x g t A []); simpl; try done; rewrite ?EA'; simpl; [done|by links_at| |intros y Hy HyL; by links_at|by rewrite Ex|by rewrite Ex].
      intros y k Hy Ek. links_at. by rewrite seg_eta.
  - pose proof (above_head _ _ _ _ EA) as Hu. symmetry in EL. destruct (list_struct L s A u B Hc Hl EL) as (h & Eh & Ehb & Ehe & Ehp & _).
    assert (u ∈ L) as HuL by (rewrite EL; set_solver). pose proof (HxL u HuL) as Hux. rewrite Eh. cbn [deref mbind res_bind].
    rewrite Ehe, (proj2 (Z.leb_gt (send u) (s_base g))) by lia. rewrite Ehb. destruct (_ || _); [done|].
    rewrite (upd_seg_ok x _ s g Eg). cbn [mbind res_bind]. rewrite (upd_seg_ok (sid u) _ _ h) by (simpl; by rewrite lookup_insert_ne). cbn [mbind res_bind].
    simpl a_segs. rewrite (al_first _ _ Hl). destruct A as [|p A _] using rev_ind.
    + rewrite bool_decide_true by (by rewrite EL). eexists. split; [done|].
      apply (placed_intro L s x g t [] (u :: B)); simpl; try done; rewrite ?Ehp, ?Ex; [by links_at| | |by rewrite (ac_tail _ _ Hc), EL|done].
      * intros y k Hy Ek. links_at; links_bool; [|by rewrite seg_eta]. by assert (k = h) as -> by congruence.
      * intros y Hy HyL. links_at; [|done]. exfalso. by apply HyL, elem_id.
    + pose proof (ac_ids _ _ Hc) as Hids. rewrite EL, <- app_assoc in Hids. destruct (ids_mid _ _ _ Hids) as [Hp1 Hp2].
      assert (sid u ≠ sid p) as Hup by (apply Hp2; left). assert (p ∈ L) as HpL by (rewrite EL; set_solver). pose proof (HxL p HpL) as Hpx.
      destruct (seg_in L s p Hc HpL) as (k & Ek & _).
      rewrite bool_decide_false.
      2: { rewrite EL, <- app_assoc. change ([p] ++ u :: B) with (p :: u :: B). rewrite head_app_cons. simpl. intros [= E]. destruct (head A) as [q|] eqn:Eq; simpl in E; [|by rewrite E in Hup].
        apply head_Some_elem_of in Eq. rewrite <- app_assoc in EL. pose proof (ids_apart (A ++ [p]) (u :: B) q u) as H. rewrite <- app_assoc in H. apply H; [done|set_solver|left|done]. }
      rewrite Ehp, last_snoc. cbn [fmap option_fmap option_map deref mbind res_bind]. rewrite (upd_seg_ok (sid p) _ _ k) by (simpl; rewrite !lookup_insert_ne by done; done).
      cbn [mbind res_bind]. eexists. split; [done|].
      apply (placed_intro L s x g t (A ++ [p]) (u :: B)); simpl; try done; rewrite ?Ehp, ?last_snoc, ?Ex; simpl; [by links_at| | | |].
      * intros y w Hy Ew. links_at; links_bool; [by assert (w = k) as -> by congruence|by assert (w = h) as -> by congruence|by rewrite seg_eta].
      * intros y Hy HyL. links_at; [by exfalso; apply HyL, elem_id..|done].
      * rewrite (ac_tail _ _ Hc), EL, !seg_last_app_cons, last_cons. by destruct (list.last B).
      * rewrite (al_first _ _ Hl), EL. by destruct A.
Qed.

Lemma insert_common L L' s s' t : as_common L s → insert_seg t L = Some L' → seg_fits t → sid t ∉ sid <$> L → prevs_ok L' (segs s') → a_tail s' = sid <$> list.last L' →
  a_nsegs s' = a_nsegs s + 1 → ssl_rand s' = ssl_rand s → (a_hilevel s' < SSL_NLEVELS)%nat → as_common L' s'.
Proof.
  intros Hc Hi Ht Hx Hp H1 H2 H3 H4. destruct (insert_seg_apart _ _ _ (ac_apart _ _ Hc) (ac_fits _ _ Hc) Ht Hi) as (E & Ha & Hf).
  pose proof (below_above (sbase t) L) as EL. apply common_intro; try done.
  - rewrite E. by apply (common_mid_nodup L s t Hc).
  - rewrite H2, (ac_nsegs _ _ Hc), E, length_app. simpl. assert (length L = length (below (sbase t) L) + length (above (sbase t) L))%nat by (rewrite <- length_app; by rewrite EL). lia.
  - rewrite H3. apply (ac_rand _ _ Hc).
Qed.

Lemma list_insert_ok L s x g t : as_common L s → as_list L s → segs s !! x = Some g → t = (x, (s_base g, s_size g)) → seg_fits t → x ∉ sid <$> L →
  match insert_seg t L with
  | None => ∃ s', list_insert s x = Ok (-1, s') ∧ as_common L s' ∧ as_list L s' ∧ is_kas s' = is_kas s ∧ segs s' = segs s
  | Some L' => ∃ s', list_insert s x = Ok (0, s') ∧ as_common L' s' ∧ as_list L' s' ∧ is_kas s' = is_kas s ∧ ∀ y, y ≠ x → y ∉ sid <$> L → segs s' !! y = segs s !! y
  end.
Proof.
  intros Hc Hl Eg Et Ht Hx. unfold list_insert. rewrite Eg. cbn [deref mbind res_bind].
  destruct (list_findseg L s (s_base g) true Hc Hl) as (s1 & -> & Hc1 & Hl1 & Es1 & Ek1). cbn [mbind res_bind]. rewrite <- Es1 in Eg.
  pose proof (list_place_ok L s1 x g t Hc1 Hl1 Eg Et Ht Hx) as Hp. assert (sid t = x) as Ex by (by rewrite Et).
  destruct (insert_seg t L) as [L'|] eqn:Ei; [|rewrite Hp; cbn [mbind res_bind]; exists s1; by rewrite <- Ek1].
  destruct Hp as (s2 & -> & Hpr & Hnx & Hf & H1 & H2 & H3). cbn [mbind res_bind]. eexists. split; [done|].
  destruct (insert_seg_apart _ _ _ (ac_apart _ _ Hc) (ac_fits _ _ Hc) Ht Ei) as (EL' & _ & _). split_and!.
  - apply (insert_common L L' s1 _ t); try done; [by rewrite Ex|by rewrite H3|by rewrite H3|]. rewrite H3. apply (ac_hilevel _ _ Hc1).
  - constructor; try done.
    + rewrite H3. apply (al_rep _ _ Hl1).
    + intros y [= <-]. rewrite <- Ex. apply elem_id. rewrite EL'. set_solver.
    + rewrite H3. apply (al_hilevel _ _ Hl1).
  - by rewrite H3.
  - intros y Hy HyL. rewrite <- Es1. by apply Hf.
Qed.

(** ** Removal *)

(** The links of a list after the segment between [A] and [B] went. *)
Lemma links_remove A t B m m' : prevs_ok (A ++ t :: B) m → nexts_ok (A ++ t :: B) m → NoDup (sid <$> A ++ t :: B) →
  (∀ y h, y ≠ sid t → m !! y = Some h → m' !! y = Some (MkSeg (s_base h) (s_size h) (if bool_decide (sid <$> head B = Some y) then sid <$> list.last A else s_prev h)
     (if bool_decide (sid <$> list.last A = Some y) then sid <$> head B else s_next h))) →
  prevs_ok (A ++ B) m' ∧ nexts_ok (A ++ B) m'.
Proof.
  intros Hp Hx Hn Hm. destruct (ids_mid _ _ _ Hn) as [HnA HnB].
  assert (∀ u, u ∈ A ++ B → sid u ≠ sid t) as Hne by (intros u [Hu|Hu]%elem_of_app; auto). split.
  - apply (prevs_remove A t B m); [done|done|]. intros u h Hu Eh. eexists. split; [by apply Hm; [apply Hne|]|]. done.
  - apply (nexts_remove A t B m); [done|done|]. intros u h Hu Eh. eexists. split; [by apply Hm; [apply Hne|]|]. done.
Qed.

Lemma first_last_eq L s A t B : as_common L s → as_list L s → L = A ++ t :: B →
  bool_decide (a_tail s = Some (sid t)) = bool_decide (B = []) ∧ bool_decide (a_segs s = Some (sid t)) = bool_decide (A = []).
Proof.
  intros Hc Hl E. pose proof (ac_ids _ _ Hc) as Hn. rewrite E in Hn. destruct (ids_mid _ _ _ Hn) as [HA HB]. rewrite (ac_tail _ _ Hc), (al_first _ _ Hl), E.
  rewrite seg_last_app_cons. split; apply bool_decide_ext.
  - destruct B as [|u B]; [done|]. destruct (list.last (u :: B)) as [v|] eqn:El; [|by apply last_None in El]. simpl. split; [|done]. intros [= Ev].
    apply last_Some_elem_of in El. by destruct (HB v El).
  - destruct A as [|a A]; [done|]. simpl. split; [|done]. intros [= Ea]. destruct (HA a); [left|done].
Qed.

Lemma only_links_fields s s' : only_links s s' → is_kas s' = is_kas s ∧ a_nsegs s' = a_nsegs s ∧ ssl_rand s' = ssl_rand s ∧ a_hilevel s' = a_hilevel s ∧ a_lrep s' = a_lrep s ∧ a_seglast s' = a_seglast s.
Proof. intros E. rewrite E. done. Qed.

Lemma list_unlink_ok L s A t B g s0 : as_common L s → as_list L s → L = A ++ t :: B → segs s !! sid t = Some g →
  segs s0 = segs s → a_tail s0 = a_tail s → a_segs s0 = a_segs s →
  ∃ s', list_unlink s0 (sid t) g = Ok s' ∧ only_links s0 s' ∧ a_tail s' = sid <$> list.last (A ++ B) ∧ a_segs s' = sid <$> head (A ++ B) ∧
    (∀ y, y ∉ sid <$> A ++ B → segs s' !! y = segs s !! y) ∧
    (∀ y h, y ≠ sid t → segs s !! y = Some h → segs s' !! y = Some (MkSeg (s_base h) (s_size h) (if bool_decide (sid <$> head B = Some y) then sid <$> list.last A else s_prev h)
     (if bool_decide (sid <$> list.last A = Some y) then sid <$> head B else s_next h))).
Proof.
  intros Hc Hl EL Eg Es Et Ef. destruct (first_last_eq L s A t B Hc Hl EL) as [Ht Hf]. pose proof (ac_ids _ _ Hc) as Hids. rewrite EL in Hids.
  destruct (list_struct L s A t B Hc Hl EL) as (g' & Eg' & _ & _ & Ep & En). assert (g' = g) as -> by congruence.
  unfold list_unlink. rewrite Et, Ht, Ep, En. destruct A as [|p A _] using rev_ind; destruct B as [|n B]; rewrite ?last_snoc; cbn [head list.last fmap option_fmap option_map].
  - rewrite bool_decide_true by done. cbn [mbind res_bind]. simpl a_segs. rewrite Ef, Hf, bool_decide_true by done. eexists. split; [done|]. split_and!; try done; simpl; rewrite Es; [done|].
    intros y h Hy Eh. by rewrite seg_eta.
  - destruct (list_struct L s [t] n B Hc Hl EL) as (h & Eh & _). rewrite bool_decide_false by done. cbn [deref mbind res_bind]. rewrite (upd_seg_ok (sid n) _ s0 h) by (by rewrite Es).
    cbn [mbind res_bind]. simpl a_segs. rewrite Ef, Hf, bool_decide_true by done. eexists. split; [done|]. split_and!; try done; simpl; rewrite ?Et, ?(ac_tail _ _ Hc), ?EL, ?Es; [by destruct B| |].
    + intros y Hy. links_at; [|done]. exfalso. apply Hy. by left.
    + intros y k Hy Ek. links_at; links_bool; [|by rewrite seg_eta]. by assert (k = h) as -> by congruence.
  - assert (bool_decide (A ++ [p] = []) = false) as EA by (apply bool_decide_false; by destruct A).
    destruct (seg_in L s p Hc) as (h & Eh & _); [rewrite EL; set_solver|]. rewrite bool_decide_true by done. cbn [mbind res_bind]. simpl a_segs. rewrite Ef, Hf, EA. cbn [deref mbind res_bind].
    rewrite (upd_seg_ok (sid p) _ _ h) by (simpl; by rewrite Es). eexists. split; [done|]. split_and!; try done; simpl; rewrite ?Ef, ?(al_first _ _ Hl), ?EL, ?Es; [by rewrite app_nil_r, last_snoc|by destruct A| |].
    + intros y Hy. links_at; [|done]. exfalso. apply Hy, elem_id. set_solver.
    + intros y k Hy Ek. links_at; links_bool; [|by rewrite seg_eta]. by assert (k = h) as -> by congruence.
  - assert (bool_decide (A ++ [p] = []) = false) as EA by (apply bool_decide_false; by destruct A).
    destruct (seg_in L s p Hc) as (h & Eh & _); [rewrite EL; set_solver|]. destruct (seg_in L s n Hc) as (h' & Eh' & _); [rewrite EL; set_solver|].
    assert (sid n ≠ sid p) as Hnp.
    { pose proof (ids_apart (A ++ [p]) (t :: n :: B) p n Hids) as H. apply H; set_solver. }
    rewrite bool_decide_false by done. cbn [deref mbind res_bind]. rewrite (upd_seg_ok (sid n) _ s0 h') by (by rewrite Es). cbn [mbind res_bind].
    simpl a_segs. rewrite Ef, Hf, EA. cbn [deref mbind res_bind]. rewrite (upd_seg_ok (sid p) _ _ h) by (simpl; rewrite Es, lookup_insert_ne; done). eexists. split; [done|].
    split_and!; try done; simpl; rewrite ?Et, ?Ef, ?(ac_tail _ _ Hc), ?(al_first _ _ Hl), ?EL, ?Es.
    + rewrite !seg_last_app_cons, last_cons. by destruct (list.last B).
    + by destruct A.
    + intros y Hy. links_at; [by exfalso; apply Hy, elem_id; set_solver..|done].
    + intros y k Hy Ek. links_at; links_bool; [by assert (k = h) as -> by congruence|by assert (k = h') as -> by congruence|by rewrite seg_eta].
Qed.


Lemma list_remove_ok L s addr : as_common L s → as_list L s →
  match remove_seg addr L with
  | None => ∃ s', list_remove s addr = Ok (None, s') ∧ as_common L s' ∧ as_list L s' ∧ is_kas s' = is_kas s ∧ segs s' = segs s
  | Some (x, L') => ∃ s', list_remove s addr = Ok (Some x, s') ∧ as_common L' s' ∧ as_list L' s' ∧ is_kas s' = is_kas s ∧
      (∀ y, y ∉ sid <$> L → segs s' !! y = segs s !! y) ∧ (∃ g, segs s' !! x = Some g ∧ s_base g = addr)
  end.
Proof.
  intros Hc Hl. unfold list_remove. destruct (list_findseg L s addr false Hc Hl) as (s1 & -> & Hc1 & Hl1 & Es1 & Ek1). cbn [mbind res_bind].
  pose proof (below_above addr L) as EL. unfold find_seg, remove_seg. rewrite <- Es1, <- Ek1. clear s Hc Hl Es1 Ek1. rename s1 into s, Hc1 into Hc, Hl1 into Hl.
  set (A := below addr L) in *. destruct (above addr L) as [|t B]; [by exists s|]. symmetry in EL.
  destruct (list_struct L s A t B Hc Hl EL) as (g & Eg & Eb & _ & Ep & En). rewrite Eg. cbn [deref mbind res_bind]. rewrite Eb.
  destruct (sbase t =? addr) eqn:Ea; cbn [negb]; [|by exists s]. 
  destruct (list_unlink_ok L s A t B g (set_seglast (s_next g) s) Hc Hl EL Eg) as (s2 & -> & Hlk & Etl & Efs & Hoth & Hm); [done..|]. cbn [mbind res_bind].
  pose proof (ac_ids _ _ Hc) as Hids. rewrite EL in Hids. destruct (ids_mid _ _ _ Hids) as [HA HB].
  destruct (only_links_fields _ _ Hlk) as (F1 & F2 & F3 & F4 & F5 & F6).
  eexists. split; [done|]. destruct (links_remove A t B (segs s) (segs s2)) as [Hpr Hnx]; [rewrite <- EL; by apply prevs_of|rewrite <- EL; by apply nexts_of|done|done|]. split_and!.
  - rewrite EL in Hc. apply (remove_common A t B s); try done; simpl; [by rewrite F2|rewrite F4; apply (ac_hilevel _ _ Hc)].
  - constructor; simpl; [rewrite F5; apply (al_rep _ _ Hl)|done|done| |rewrite F4; apply (al_hilevel _ _ Hl)]. intros y Hy. rewrite F6 in Hy. simpl in Hy. rewrite En in Hy. destruct B as [|u B]; [done|]. injection Hy as <-. apply elem_id. set_solver.
  - done.
  - intros y Hy. apply Hoth. intros Hy'. apply Hy. rewrite EL. rewrite fmap_app in *. set_solver.
  - exists g. split; [|lia]. rewrite <- Eg. apply Hoth. intros Hy. apply list_elem_of_fmap in Hy as (u & E & Hu). apply elem_of_app in Hu as [Hu|Hu]; [by apply (HA u)|by apply (HB u)].
Qed.
