(* ===== verification/AsSys.v ===== *)
(** * An address space in use

    Searches, segments made and segments freed, in any order: every call returns, gives what
    the sorted list of disjoint segments gives, and keeps the structure well formed, through
    the change to a skip list.  First each of the entry points on either representation. *)

From S2P Require Import Prelude As AsInv AsSegs AsOps AsList.

Section thms.
Context (alloc : gmap Z (list sptr) → Z) (Halloc : ∀ m, m !! alloc m = None).

Lemma findseg_ok L s addr tail : as_ok L s → ∃ s', as_findseg s addr tail = Ok (find_seg addr tail L, s') ∧ as_ok L s' ∧ segs s' = segs s ∧ is_kas s' = is_kas s ∧ a_lrep s' = a_lrep s.
Proof.
  intros [Hc [Hl|(lv & na & hd & Hs)]].
  - destruct (list_findseg L s addr tail Hc Hl) as (s' & E & Hc' & Hl' & Es & Ek). exists s'. rewrite (al_rep _ _ Hl), (al_rep _ _ Hl'). split_and!; try done. split; [done|by left].
  - unfold as_findseg. rewrite (sk_rep _ _ _ _ _ Hs). destruct (ssl_search_ok lv na hd L s addr tail Hc Hs) as (p & E & Hl & Hp). exists (set_spath p s). split; [done|].
    pose proof (below_above addr L) as EL. split_and!; try done; [|apply (sk_rep _ _ _ _ _ Hs)]. split; [by apply common_spath|].
    right. exists lv, na, hd. by apply (skip_spath lv na hd L s Hs p _ _ (eq_sym EL)).
Qed.

(** ** The change to a skip list *)

Lemma insert_front t R : apart (t :: R) → Forall seg_fits (t :: R) → insert_seg t R = Some (t :: R).
Proof.
  intros [Ha _] Hf. apply list.Forall_cons in Hf as [(H1 & H2 & H3) Hf]. unfold insert_seg.
  assert (above (sbase t) R = R ∧ below (sbase t) R = []) as [-> ->].
  { destruct R as [|u R]; [done|]. simpl. apply list.Forall_cons in Hf as [(H4 & H5 & H6) _]. specialize (Ha u ltac:(left)). unfold send in *.
    rewrite (proj2 (Z.leb_gt _ _)) by lia. done. }
  destruct R as [|u R]; [done|]. specialize (Ha u ltac:(left)). unfold send in *. rewrite (proj2 (Z.leb_gt _ _)), (proj2 (Z.ltb_ge _ _)) by lia. done.
Qed.

(** The segments that are still to be inserted. *)
Definition pending (P : list aseg) (m : gmap Z seg) : Prop := prevs_ok P m.

Lemma mutate_loop_ok hd : ∀ P R lv na s fuel, as_common R s → as_skip lv na hd R s → apart (P ++ R) → Forall seg_fits (P ++ R) → NoDup (sid <$> P ++ R) → prevs_ok P (segs s) →
  (length P ≤ fuel)%nat → ∃ s' lv' na', mutate_loop alloc fuel (sid <$> list.last P) s = Ok s' ∧ as_common (P ++ R) s' ∧ as_skip lv' na' hd (P ++ R) s' ∧ is_kas s' = is_kas s ∧
    ∀ y, y ∉ sid <$> P ++ R → segs s' !! y = segs s !! y.
Proof.
  intros P. induction P as [|t P IH] using rev_ind; intros R lv na s fuel Hc Hs Ha Hf Hn Hp Hfu.
  - exists s, lv, na. by destruct fuel.
  - rewrite last_snoc. destruct fuel as [|fuel]; [rewrite length_app in Hfu; simpl in Hfu; lia|]. cbn [mutate_loop fmap option_fmap option_map].
    destruct (Hp P t [] eq_refl) as (g & Eg & Eb & Es & Epr). rewrite Eg. cbn [deref mbind res_bind]. rewrite <- app_assoc in Ha, Hf, Hn. simpl in Ha, Hf, Hn.
    assert (apart (t :: R)) as Hat by (by apply apart_app in Ha as (_ & ? & _)). assert (Forall seg_fits (t :: R)) as Hft by (by apply list.Forall_app in Hf as [_ ?]).
    destruct (ids_mid _ _ _ Hn) as [HnP HnR].
    assert (t = (sid t, (s_base g, s_size g))) as Et by (rewrite Eb, Es; by destruct t as [? [? ?]]).
    pose proof (ssl_insert_ok alloc Halloc lv na hd R s (sid t) g t Hc Hs Eg Et) as Hi. rewrite (insert_front t R Hat Hft) in Hi.
    destruct Hi as (s1 & lv1 & na1 & -> & Hc1 & Hs1 & Hk1 & Hf1); [by apply list.Forall_cons in Hft as [? _]|intros (u & E & Hu)%list_elem_of_fmap; by apply (HnR u)|].
    cbn [mbind res_bind]. rewrite Epr. assert (∀ u, u ∈ P → sid u ≠ sid t ∧ sid u ∉ sid <$> R) as HP.
    { intros u Hu. split; [auto|]. intros (v & E & Hv)%list_elem_of_fmap. apply (ids_apart P (t :: R) u v Hn Hu); [by right|done]. }
    destruct (IH (t :: R) lv1 na1 s1 fuel Hc1 Hs1 Ha Hf Hn) as (s' & lv' & na' & E & Hc' & Hs' & Hk' & Hf').
    + intros A u B EP. assert (u ∈ P) as Hu by (rewrite EP; set_solver). destruct (HP u Hu) as [H1 H2]. rewrite Hf1 by done. apply (Hp A u (B ++ [t])). rewrite EP, <- app_assoc. done.
    + rewrite length_app in Hfu. simpl in Hfu. lia.
    + exists s', lv', na'. rewrite <- app_assoc. split_and!; try done; [congruence|]. intros y Hy. simpl in Hy. rewrite Hf' by done. rewrite fmap_app in Hy. simpl in Hy. apply Hf1; set_solver.
Qed.

Lemma as_mutate_ok L s : as_common L s → as_list L s → ∃ s' lv na hd, as_mutate_seglist alloc s = Ok s' ∧ as_common L s' ∧ as_skip lv na hd L s' ∧ is_kas s' = is_kas s ∧
  ∀ y, y ∉ sid <$> L → segs s' !! y = segs s !! y.
Proof.
  intros Hc Hl. unfold as_mutate_seglist. rewrite (ac_tail _ _ Hc). set (hd := alloc (ssls s)).
  set (s0 := set_nsegs 0 _). assert (as_common [] s0) as Hc0.
  { apply common_intro; try done; [by intros A t B E; destruct A|by apply NoDup_nil_2|apply (ac_rand _ _ Hc)|apply (ac_hilevel _ _ Hc)]. }
  assert (as_skip (λ _, 0%nat) (λ _, hd) hd [] s0) as Hs0.
  { constructor; try done; try (by intros t Ht; apply not_elem_of_nil in Ht).
    - constructor; try (by intros t; intros; match goal with H : _ ∈ [] |- _ => by apply not_elem_of_nil in H end).
      + exists (replicate SSL_NLEVELS SNull). split; [apply lookup_insert_eq|]. intros i Hi. by apply lookup_replicate_2.
      + intros A t B E. by destruct A.
    - by left. }
  change (segs s0) with (segs s). pose proof (length_segs _ _ Hc) as Hlen.
  destruct (mutate_loop_ok hd L [] (λ _, 0%nat) (λ _, hd) s0 (size (segs s))) as (s' & lv & na & E & Hc' & Hs' & Hk & Hf); rewrite ?app_nil_r; try done.
  - apply (ac_apart _ _ Hc).
  - apply (ac_fits _ _ Hc).
  - apply (ac_ids _ _ Hc).
  - apply (prevs_of _ _ Hc).
  - exists s', lv, na, hd. rewrite app_nil_r in *. done.
Qed.

(** ** Insertion and removal *)

Lemma addseg_ok L s x g t : as_ok L s → segs s !! x = Some g → t = (x, (s_base g, s_size g)) → seg_fits t → x ∉ sid <$> L →
  match insert_seg t L with
  | None => ∃ s', as_addseg alloc s x = Ok (-1, s') ∧ as_ok L s' ∧ is_kas s' = is_kas s ∧ ∀ y, y ∉ sid <$> L → segs s' !! y = segs s !! y
  | Some L' => ∃ s', as_addseg alloc s x = Ok (0, s') ∧ as_ok L' s' ∧ is_kas s' = is_kas s ∧ ∀ y, y ≠ x → y ∉ sid <$> L → segs s' !! y = segs s !! y
  end.
Proof.
  intros Hok Eg Et Ht Hx. unfold as_addseg.
  assert (∃ s1, (if (AS_MUTATION_THRESH <=? a_nsegs s) && negb (a_lrep s) && negb (is_kas s) then as_mutate_seglist alloc s else Ok s) = Ok s1 ∧ as_ok L s1 ∧ is_kas s1 = is_kas s ∧
    ∀ y, y ∉ sid <$> L → segs s1 !! y = segs s !! y) as (s1 & -> & Hok1 & Hk1 & Hf1).
  { destruct (_ && _) eqn:E; [|by exists s]. destruct Hok as [Hc [Hl|(lv & na & hd & Hs)]]; [|rewrite (sk_rep _ _ _ _ _ Hs), andb_false_r in E; done].
    destruct (as_mutate_ok L s Hc Hl) as (s1 & lv & na & hd & E1 & Hc1 & Hs1 & Hk & Hf). exists s1. split_and!; [done| |done|done]. split; [done|]. right. eauto. }
  cbn [mbind res_bind]. rewrite <- (Hf1 x Hx) in Eg. rewrite <- Hk1. destruct Hok1 as [Hc [Hl|(lv & na & hd & Hs)]].
  - rewrite (al_rep _ _ Hl). pose proof (list_insert_ok L s1 x g t Hc Hl Eg Et Ht Hx) as H. destruct (insert_seg t L).
    + destruct H as (s' & E & Hc' & Hl' & Hk & Hf). exists s'. split_and!; [done|split; [done|by left]|done|]. intros y Hy HyL. rewrite Hf, Hf1; done.
    + destruct H as (s' & E & Hc' & Hl' & Hk & Hf). exists s'. split_and!; [done|split; [done|by left]|done|]. intros y Hy. rewrite Hf, Hf1; done.
  - rewrite (sk_rep _ _ _ _ _ Hs). pose proof (ssl_insert_ok alloc Halloc lv na hd L s1 x g t Hc Hs Eg Et Ht Hx) as H. destruct (insert_seg t L) as [L'|].
    + destruct H as (s' & lv' & na' & E & Hc' & Hs' & Hk & Hf). exists s'. split_and!; [done|split; [done|right; eauto]|done|]. intros y Hy HyL. rewrite Hf, Hf1; done.
    + destruct H as (p & E & Hc' & Hs'). exists (set_spath p s1). split_and!; [done|split; [done|right; eauto]|done|]. intros y Hy. by apply Hf1.
Qed.

Lemma removeseg_ok L s addr : as_ok L s →
  match remove_seg addr L with
  | None => ∃ s', as_removeseg s addr = Ok (None, s') ∧ as_ok L s' ∧ is_kas s' = is_kas s ∧ segs s' = segs s
  | Some (x, L') => ∃ s', as_removeseg s addr = Ok (Some x, s') ∧ as_ok L' s' ∧ is_kas s' = is_kas s ∧ (∀ y, y ∉ sid <$> L → segs s' !! y = segs s !! y)
  end.
Proof.
  intros [Hc [Hl|(lv & na & hd & Hs)]]; unfold as_removeseg.
  - rewrite (al_rep _ _ Hl). pose proof (list_remove_ok L s addr Hc Hl) as H. destruct (remove_seg addr L) as [[x L']|].
    + destruct H as (s' & E & Hc' & Hl' & Hk & Hf & _). exists s'. split_and!; [done|split; [done|by left]|done|done].
    + destruct H as (s' & E & Hc' & Hl' & Hk & Hf). exists s'. split_and!; [done|split; [done|by left]|done|done].
  - rewrite (sk_rep _ _ _ _ _ Hs). pose proof (ssl_remove_ok lv na hd L s addr Hc Hs) as H. destruct (remove_seg addr L) as [[x L']|].
    + destruct H as (s' & E & Hc' & Hs' & Hk & Hf & _). exists s'. split_and!; [done|split; [done|right; eauto]|done|done].
    + destruct H as (p & E & Hc' & Hs'). exists (set_spath p s). split_and!; [done|split; [done|right; eauto]|done|done].
Qed.
End thms.

Inductive as_op :=
  | FindSeg (addr : Z) (tail : bool)
  | SegAt (addr : Z)
  | SegAlloc (base size : Z)
  | SegFree (addr : Z).       (* the segment at an address, if there is one *)

Definition as_inv (L : list aseg) (s : aspace) : Prop := as_ok L s ∧ (∀ x, is_Some (segs s !! x) ↔ x ∈ sid <$> L) ∧ is_kas s = false.

(** ** The specification *)

Definition holds (addr : Z) (t : aseg) : bool := (sbase t <=? addr) && (addr <? send t).

(** A segment is made where it fits, with a name that is not in use, and is otherwise refused. *)
Inductive as_spec (L : list aseg) : as_op → option Z → list aseg → Prop :=
  | spec_find addr tail : as_spec L (FindSeg addr tail) (find_seg addr tail L) L
  | spec_at addr t : t ∈ L → holds addr t = true → as_spec L (SegAt addr) (Some (sid t)) L
  | spec_none addr : (∀ t, t ∈ L → holds addr t = false) → as_spec L (SegAt addr) None L
  | spec_alloc base size x b n L' : seg_range false base size = Some (b, n) → x ∉ sid <$> L → insert_seg (x, (b, n)) L = Some L' → as_spec L (SegAlloc base size) (Some x) L'
  | spec_bad base size : seg_range false base size = None → as_spec L (SegAlloc base size) None L
  | spec_overlap base size b n t : seg_range false base size = Some (b, n) → t ∈ L → sbase t < b + n → b < send t → as_spec L (SegAlloc base size) None L
  | spec_free addr A t B : L = A ++ t :: B → holds addr t = true → as_spec L (SegFree addr) (Some (sid t)) (A ++ B)
  | spec_nothing addr : (∀ t, t ∈ L → holds addr t = false) → as_spec L (SegFree addr) None L.

Inductive as_runs : list aseg → list as_op → list (option Z) → list aseg → Prop :=
  | runs_nil L : as_runs L [] [] L
  | runs_cons L op o L1 ops os L2 : as_spec L op o L1 → as_runs L1 ops os L2 → as_runs L (op :: ops) (o :: os) L2.

(** ** The program *)

Section sys.
Context (alloc : gmap Z (list sptr) → Z) (salloc : gmap Z seg → Z) (junk : option Z * option Z).

Definition as_step (op : as_op) (s : aspace) : res (option Z * aspace) :=
  match op with
  | FindSeg addr tail => as_findseg s addr tail
  | SegAt addr => as_segat s addr
  | SegAlloc base size => seg_alloc alloc salloc junk s base size
  | SegFree addr =>
    '(o, s) ← as_segat s addr;
    match o with None => Ok (None, s) | Some x => s ← seg_free s x; Ok (Some x, s) end
  end.

Fixpoint as_exec (ops : list as_op) (s : aspace) : res (list (option Z) * aspace) :=
  match ops with
  | [] => Ok ([], s)
  | op :: ops => '(o, s) ← as_step op s; '(os, s) ← as_exec ops s; Ok (o :: os, s)
  end.

(** ** Ranges *)

Lemma pagemask_range a : is_u32 a → is_u32 (Z.land a PAGEMASK).
Proof.
  intros [H1 H2]. assert (0 ≤ PAGEMASK) as HP by done. split; [by apply Z.land_nonneg; left|].
  destruct (decide (Z.land a PAGEMASK = 0)) as [->|Hne]; [done|]. apply (Z.log2_lt_cancel _ W32).
  change (Z.log2 W32) with 32. pose proof (Z.log2_land a PAGEMASK H1 HP). change (Z.log2 PAGEMASK) with 31 in *. lia.
Qed.

Lemma seg_range_user base size b n : is_u32 base → seg_range false base size = Some (b, n) → 0 ≤ b ∧ 0 < n ∧ b + n ≤ USRSTACK.
Proof.
  intros Hb. unfold seg_range. pose proof (pagemask_range base Hb) as Hm. set (sb := Z.land base PAGEMASK) in *. set (sz := sub32 _ sb).
  assert (is_u32 sz) as Hz by apply u32_range. destruct (valid_va_range sb sz sz) as [[b' n']|] eqn:Ev; [|done]. simpl negb. rewrite andb_true_l. destruct (valid_usr_range b' n') eqn:Eu; [|done]. simpl.
  intros [= <- <-]. assert (b' = sb ∧ is_u32 n') as [-> Hn].
  { unfold valid_va_range in Ev. repeat case_match; try done; injection Ev as <- <-; split; try done. apply u32_range. }
  unfold valid_usr_range in Eu. apply negb_true_iff, orb_false_iff in Eu as [Eu E3]. apply orb_false_iff in Eu as [E1 E2].
  change USRSTACK with 4026531840 in *. unfold add32, u32, is_u32, W32 in *.
  destruct (decide (sb + n' < 4294967296)).
  - rewrite Z.mod_small in E1, E3 by lia. lia.
  - assert ((sb + n') mod 4294967296 = sb + n' - 4294967296) as E by (rewrite <- (Z_mod_plus_full _ (-1)); apply Z.mod_small; lia). rewrite E in E1. lia.
Qed.

(** ** The invariant *)

Lemma as_ok_segs L s m : as_ok L s → (∀ t, t ∈ L → m !! sid t = segs s !! sid t) → as_ok L (set_segs m s).
Proof.
  intros [Hc Hr] Hm. split.
  - apply common_intro; try apply Hc. intros A t B E. destruct (ac_seg _ _ Hc A t B E) as (g & Eg & Hg). exists g. simpl. by rewrite Hm by (rewrite E; set_solver).
  - destruct Hr as [Hl|(lv & na & hd & Hs)]; [left|right; exists lv, na, hd].
    + constructor; try apply Hl. intros A t B E. simpl. rewrite Hm by (rewrite E; set_solver). by apply (al_next _ _ Hl A t B).
    + constructor; try apply Hs. intros t Ht. simpl. rewrite Hm by done. by apply (sk_next _ _ _ _ _ Hs).
Qed.

Lemma as_ok_ids L s : as_ok L s → NoDup (sid <$> L).
Proof. intros [Hc _]. apply (ac_ids _ _ Hc). Qed.

Lemma ids_present L s x : as_ok L s → x ∈ sid <$> L → is_Some (segs s !! x).
Proof. intros [Hc _] (t & -> & Ht)%list_elem_of_fmap. destruct (seg_in _ _ _ Hc Ht) as (g & -> & _). done. Qed.

Lemma inv_frame L L' s s' : as_inv L s → as_ok L' s' → is_kas s' = is_kas s → (∀ y, y ∉ sid <$> L' → segs s' !! y = None) → as_inv L' s'.
Proof.
  intros (_ & _ & Hk) Hok Hk' Hf. split_and!; [done| |congruence]. intros x. split; [|by apply ids_present].
  intros [g Hg]. destruct (decide (x ∈ sid <$> L')) as [|Hx]; [done|]. by rewrite Hf in Hg.
Qed.

Lemma inv_none L s y : as_inv L s → y ∉ sid <$> L → segs s !! y = None.
Proof. intros (_ & Hd & _) Hy. destruct (segs s !! y) eqn:E; [|done]. exfalso. apply Hy, Hd. by rewrite E. Qed.

(** ** The operations *)

Lemma find_ok L s addr tail : as_inv L s → ∃ s', as_findseg s addr tail = Ok (find_seg addr tail L, s') ∧ as_inv L s' ∧ segs s' = segs s.
Proof.
  intros Hi. destruct (findseg_ok L s addr tail (proj1 Hi)) as (s' & E & Hok & Hg & Hk & _). exists s'. split_and!; [done| |done].
  apply (inv_frame L L s s' Hi Hok Hk). intros y Hy. rewrite Hg. by apply (inv_none L).
Qed.

Lemma holds_above L s addr t : as_inv L s → t ∈ L → holds addr t = true → ∃ A B, L = A ++ t :: B ∧ below addr L = A ∧ above addr L = t :: B.
Proof.
  intros Hi Ht Hh. apply andb_prop in Hh as [H1 H2]. apply list_elem_of_split in Ht as (A & B & E). exists A, B. split; [done|].
  destruct (split_unique addr A (t :: B)) as [E1 E2]; [|intros u B' [= <- <-]; lia|by rewrite E].
  apply (before_ends L s A t B); [apply Hi|done|lia].
Qed.

Lemma segat_ok L s addr : as_inv L s → ∃ o s', as_segat s addr = Ok (o, s') ∧ as_inv L s' ∧ segs s' = segs s ∧
  match o with Some x => ∃ A t B, L = A ++ t :: B ∧ x = sid t ∧ holds addr t = true | None => ∀ t, t ∈ L → holds addr t = false end.
Proof.
  intros Hi. destruct (find_ok L s addr false Hi) as (s' & E & Hi' & Hg). unfold as_segat. rewrite E. cbn [mbind res_bind].
  assert (∀ t, t ∈ L → holds addr t = true → ∃ B, above addr L = t :: B) as Hab by (intros t Ht Hh; destruct (holds_above L s addr t Hi Ht Hh) as (A & B & _ & _ & EB); eauto).
  unfold find_seg in *. pose proof (below_above addr L) as EL. destruct (above addr L) as [|t B] eqn:EA.
  - exists None, s'. split_and!; try done. intros t Ht. destruct (holds addr t) eqn:Eh; [|done]. by destruct (Hab t Ht Eh).
  - destruct (seg_in L s' t (proj1 (proj1 Hi'))) as (g & Eg & Eb & _ & Ee); [rewrite <- EL; set_solver|]. rewrite Eg. cbn [deref mbind res_bind]. rewrite Eb, Ee.
    change ((sbase t <=? addr) && (addr <? send t)) with (holds addr t). destruct (holds addr t) eqn:Eh; eexists _, s'; (split_and!; [done|done|done|]).
    + by exists (below addr L), t, B.
    + intros u Hu. destruct (holds addr u) eqn:Eu; [|done]. destruct (Hab u Hu Eu) as (B' & EB). injection EB as -> _. congruence.
Qed.

Context (Halloc : ∀ m, m !! alloc m = None) (Hsalloc : ∀ m, m !! salloc m = None).

Lemma seg_alloc_ok L s base size : as_inv L s → is_u32 base → ∃ o s' L', seg_alloc alloc salloc junk s base size = Ok (o, s') ∧ as_inv L' s' ∧ as_spec L (SegAlloc base size) o L'.
Proof using Halloc Hsalloc.
  intros Hi Hb. unfold seg_alloc. destruct Hi as (Hok & Hd & Hk) eqn:EHi. rewrite Hk. destruct (seg_range false base size) as [[b n]|] eqn:Er; [|eexists _, s, L; split_and!; [done|done|by constructor]].
  destruct (seg_range_user base size b n Hb Er) as (H1 & H2 & H3). set (x := salloc (segs s)). pose proof (Hsalloc (segs s)) as Hx. fold x in Hx.
  assert (x ∉ sid <$> L) as HxL by (intros Hin; apply Hd in Hin; rewrite Hx in Hin; by destruct Hin).
  unfold seg_attach. rewrite (upd_seg_ok x _ _ (MkSeg 0 0 junk.1 junk.2)) by (simpl; apply lookup_insert_eq). cbn [mbind res_bind s_prev s_next].
  set (s1 := set_segs _ _). assert (segs s1 = <[x := MkSeg b n junk.1 junk.2]> (segs s)) as Es1 by (unfold s1; simpl; apply insert_insert_eq).
  assert (as_ok L s1) as Hok1.
  { apply (as_ok_segs L s); [done|]. intros t Ht. change (segs s1 !! sid t = segs s !! sid t). rewrite Es1. apply lookup_insert_ne. intros E. apply HxL. rewrite E. by apply elem_id. }
  set (t := (x, (b, n))). assert (seg_fits t) as Ht.
  { unfold seg_fits, send, sbase, ssize, t. simpl. change USRSTACK with 4026531840 in H3. unfold W32. lia. }
  pose proof (addseg_ok alloc Halloc L s1 x (MkSeg b n junk.1 junk.2) t Hok1 ltac:(rewrite Es1; apply lookup_insert_eq) eq_refl Ht HxL) as Ha.
  destruct (insert_seg t L) as [L'|] eqn:Ei.
  - destruct Ha as (s' & E & Hok' & Hk' & Hf'). rewrite E. cbn [mbind res_bind]. simpl. exists (Some x), s', L'. split_and!; [done| |by econstructor].
    apply (inv_frame L L' s s' Hi Hok' Hk'). intros y Hy. destruct (insert_seg_apart t L L') as (EL' & _); [apply Hok|apply Hok|done|done|].
    assert (y ∉ sid <$> L ∧ y ≠ x) as [HyL Hyx].
    { rewrite <- (below_above (sbase t) L). rewrite EL' in Hy. rewrite fmap_app in *. simpl in Hy. set_solver. }
    rewrite Hf', Es1, lookup_insert_ne by done. by apply (inv_none L).
  - destruct Ha as (s' & E & Hok' & Hk' & Hf'). rewrite E. cbn [mbind res_bind]. simpl. eexists None, _, L. split_and!; [done| |].
    + apply (inv_frame L L s _ Hi); [|done|].
      * apply as_ok_segs; [done|]. intros u Hu. apply lookup_delete_ne. intros E1. apply HxL. rewrite E1. by apply elem_id.
      * intros y Hy. simpl. destruct (decide (y = x)) as [->|Hyx]; [apply lookup_delete_eq|]. rewrite lookup_delete_ne, Hf', Es1, lookup_insert_ne by done. by apply (inv_none L).
    + apply insert_seg_overlap in Ei as (u & Hu & H4 & H5); [|apply Hok|apply Hok|done]. by apply (spec_overlap L base size b n u).
Qed.

Lemma remove_here L s A t B : as_inv L s → L = A ++ t :: B → remove_seg (sbase t) L = Some (sid t, A ++ B).
Proof.
  intros Hi E. assert (t ∈ L) as Ht by (rewrite E; set_solver). assert (seg_fits t) as (_ & Hn & _) by (apply (proj1 (list.Forall_forall _ _) (ac_fits _ _ (proj1 (proj1 Hi)))); done).
  destruct (split_unique (sbase t) A (t :: B)) as [E1 E2]; [apply (before_ends L s A t B); [apply Hi|done|lia]|intros u B' [= <- <-]; unfold send; lia|].
  rewrite <- E in E1, E2. unfold remove_seg. by rewrite E1, E2, Z.eqb_refl.
Qed.

Lemma seg_free_ok L s A t B : as_inv L s → L = A ++ t :: B → ∃ s', seg_free s (sid t) = Ok s' ∧ as_inv (A ++ B) s'.
Proof.
  intros Hi E. unfold seg_free. destruct (seg_in L s t (proj1 (proj1 Hi))) as (g & -> & Eb & _); [rewrite E; set_solver|]. cbn [deref mbind res_bind]. rewrite Eb.
  pose proof (removeseg_ok L s (sbase t) (proj1 Hi)) as Hr. rewrite (remove_here L s A t B Hi E) in Hr.
  destruct Hr as (s' & -> & Hok' & Hk' & Hf'). cbn [mbind res_bind]. eexists. split; [done|].
  pose proof (as_ok_ids _ _ (proj1 Hi)) as Hn. rewrite E in Hn. destruct (ids_mid _ _ _ Hn) as [HA HB].
  apply (inv_frame L (A ++ B) s _ Hi); [|done|].
  - apply as_ok_segs; [done|]. intros u Hu. apply lookup_delete_ne. apply not_eq_sym. apply elem_of_app in Hu as [Hu|Hu]; auto.
  - intros y Hy. simpl. destruct (decide (y = sid t)) as [->|Hne]; [apply lookup_delete_eq|]. rewrite lookup_delete_ne by done.
    assert (y ∉ sid <$> L) as HyL by (rewrite E; rewrite fmap_app in *; simpl; set_solver). rewrite Hf' by done. by apply (inv_none L).
Qed.

(** The addresses of a call are addresses. *)
Definition op_u32 (op : as_op) : Prop := match op with SegAlloc base _ => is_u32 base | _ => True end.

Lemma as_step_ok L s op : as_inv L s → op_u32 op → ∃ o s' L', as_step op s = Ok (o, s') ∧ as_inv L' s' ∧ as_spec L op o L'.
Proof using Halloc Hsalloc.
  intros Hi Hop. destruct op as [addr tail|addr|base size|addr]; cbn [as_step].
  - destruct (find_ok L s addr tail Hi) as (s' & E & Hi' & _). eexists _, s', L. split_and!; [done|done|constructor].
  - destruct (segat_ok L s addr Hi) as (o & s' & E & Hi' & _ & Ho). exists o, s', L. split_and!; [done|done|]. destruct o as [x|]; [|by constructor].
    destruct Ho as (A & t & B & EL & -> & Hh). apply spec_at; [rewrite EL; set_solver|done].
  - by apply seg_alloc_ok.
  - destruct (segat_ok L s addr Hi) as (o & s' & -> & Hi' & _ & Ho). cbn [mbind res_bind]. destruct o as [x|]; [|eexists _, s', L; split_and!; [done|done|by constructor]].
    destruct Ho as (A & t & B & EL & -> & Hh). destruct (seg_free_ok L s' A t B Hi' EL) as (s2 & -> & Hi2). cbn [mbind res_bind]. eexists _, s2, (A ++ B). split_and!; [done|done|by econstructor].
Qed.

Lemma as_exec_ok : ∀ ops L s, as_inv L s → Forall op_u32 ops → ∃ os s' L', as_exec ops s = Ok (os, s') ∧ as_inv L' s' ∧ as_runs L ops os L'.
Proof using Halloc Hsalloc.
  induction ops as [|op ops IH]; intros L s Hi Hf; [exists [], s, L; split_and!; [done|done|constructor]|].
  apply list.Forall_cons in Hf as [H1 H2]. destruct (as_step_ok L s op Hi H1) as (o & s1 & L1 & E & Hi1 & Hs1). cbn [as_exec]. rewrite E. cbn [mbind res_bind].
  destruct (IH L1 s1 Hi1 H2) as (os & s' & L' & -> & Hi' & Hs'). cbn [mbind res_bind]. exists (o :: os), s', L'. split_and!; [done|done|by econstructor].
Qed.

Lemma as_alloc_inv r : rand_ok r → as_inv [] (as_alloc r).
Proof.
  intros Hr. split_and!; [|intros x; simpl; split; [by intros [? ?]|by intros ?%not_elem_of_nil]|done]. split.
  - apply common_intro; try done; [by intros A t B E; destruct A|by apply NoDup_nil_2|unfold SSL_NLEVELS; simpl; lia].
  - left. constructor; try done. by intros A t B E; destruct A.
Qed.
End sys.
