(* ===== verification/AsHole.v ===== *)
(** * The holes of an address space

    [as_gap] goes through the holes between the segments in one direction; the first that is
    large enough, cut to the range asked for, is the lowest or the highest there is, and when
    it finds none there is none. *)

From S2P Require Import Prelude As AsInv AsSegs AsOps AsList AsSys.

(** No segment touches a range. *)
Definition free_range (s : aspace) (b l : Z) : Prop := ∀ x g, segs s !! x = Some g → s_end g ≤ b ∨ b + l ≤ s_base g.

(** What a call asks for. *)
Definition hole_ok (s : aspace) (minlen base len flags addr b l : Z) : Prop :=
  base ≤ b ∧ b + l ≤ base + len ∧ minlen ≤ l ∧ free_range s b l ∧ (Z.land flags AH_CONTAIN = 0 ∨ b ≤ addr < b + l).

(** ** The links, whatever the representation *)

Lemma segp_first L s : as_ok L s → AS_SEGP s (a_segs s) = Ok (sid <$> head L).
Proof.
  intros [Hc [Hl|(lv & na & hd & Hs)]]; unfold AS_SEGP.
  - by rewrite (al_rep _ _ Hl), (al_first _ _ Hl).
  - rewrite (sk_rep _ _ _ _ _ Hs), (sk_head _ _ _ _ _ Hs). cbn [deref mbind res_bind]. by apply (next_seg lv na hd L s Hs [] L).
Qed.

Lemma segp_next L s A t B : as_ok L s → L = A ++ t :: B → ∃ g, segs s !! sid t = Some g ∧ s_base g = sbase t ∧ s_end g = send t ∧ s_prev g = sid <$> list.last A ∧
  AS_SEGP s (s_next g) = Ok (sid <$> head B).
Proof.
  intros [Hc [Hl|(lv & na & hd & Hs)]] E; unfold AS_SEGP.
  - destruct (list_struct L s A t B Hc Hl E) as (g & Eg & Eb & Ee & Ep & En). exists g. rewrite (al_rep _ _ Hl), En. done.
  - destruct (next_struct lv na hd L s Hc Hs t) as (g & Eg & Ee & Eb & En); [rewrite E; set_solver|]. destruct (ac_seg _ _ Hc A t B E) as (g' & Eg' & _ & _ & Ep).
    assert (g' = g) as -> by congruence. exists g. rewrite (sk_rep _ _ _ _ _ Hs), En. split_and!; try done. cbn [deref mbind res_bind].
    assert (L = (A ++ [t]) ++ B) as E2 by (by rewrite <- app_assoc). rewrite <- (next_seg lv na hd L s Hs _ _ E2), (node_at_zero lv na hd L s Hs _ _ E2). unfold node_at. by rewrite last_snoc.
Qed.

Section gap.
Context (L : list aseg) (s : aspace) (Hi : as_inv L s) (minlen base len flags addr : Z)
  (Hmin : 0 < minlen) (Hbase : 0 ≤ base) (Hlen : 0 ≤ len) (Hhi : base + len < W32).

#[local] Abbreviation acc := (hole_ok s minlen base len flags addr).

Lemma free_iff b l : free_range s b l ↔ ∀ t, t ∈ L → send t ≤ b ∨ b + l ≤ sbase t.
Proof.
  split.
  - intros H t Ht. destruct (seg_in L s t (proj1 (proj1 Hi)) Ht) as (g & Eg & Eb & _ & Ee). specialize (H _ _ Eg). by rewrite Eb, Ee in H.
  - intros H x g Eg. assert (x ∈ sid <$> L) as Hx by (apply Hi; by rewrite Eg). apply list_elem_of_fmap in Hx as (t & -> & Ht).
    destruct (seg_in L s t (proj1 (proj1 Hi)) Ht) as (g' & Eg' & Eb & _ & Ee). assert (g' = g) as -> by congruence. rewrite Eb, Ee. auto.
Qed.

(** The bounds of the hole between two prefixes. *)
Definition hole_lo (A : list aseg) : Z := match list.last A with Some t => send t | None => 0 end.
Definition hole_hi (B : list aseg) : Z := match B with t :: _ => sbase t | [] => base + len end.

Lemma seg_lo_ok A B : L = A ++ B → (match sid <$> list.last A with None => Ok 0 | Some x => g ← deref (segs s !! x); Ok (s_end g) end) = Ok (hole_lo A).
Proof.
  intros E. unfold hole_lo. destruct (list.last A) as [t|] eqn:El; [|done]. simpl. destruct (seg_in L s t (proj1 (proj1 Hi))) as (g & -> & _ & _ & Ee); [|simpl; by rewrite Ee].
  rewrite E. apply elem_of_app. left. by apply last_Some_elem_of.
Qed.

Lemma seg_hi_ok A B : L = A ++ B → (match sid <$> head B with None => Ok (base + len) | Some x => g ← deref (segs s !! x); Ok (s_base g) end) = Ok (hole_hi B).
Proof.
  intros E. unfold hole_hi. destruct B as [|t B]; [done|]. simpl. destruct (seg_in L s t (proj1 (proj1 Hi))) as (g & -> & Eb & _); [rewrite E; set_solver|simpl; by rewrite Eb].
Qed.

Lemma lo_bounds A B : L = A ++ B → 0 ≤ hole_lo A ∧ (∀ a, a ∈ A → send a ≤ hole_lo A) ∧ (∀ b, b ∈ B → hole_lo A ≤ sbase b) ∧ hole_lo A < W32.
Proof.
  intros E. destruct (proj1 Hi) as [Hc _]. pose proof (ac_apart _ _ Hc) as Ha. pose proof (ac_fits _ _ Hc) as Hf. rewrite E in Ha. apply apart_app in Ha as (_ & _ & Hab).
  unfold hole_lo. destruct (list.last A) as [t|] eqn:El.
  - assert (t ∈ A) as Ht by (by apply last_Some_elem_of). assert (seg_fits t) as (H1 & H2 & H3) by (apply (proj1 (list.Forall_forall _ _) Hf); rewrite E; set_solver).
    unfold send in *. split_and!; [lia| |intros b Hb; by apply (Hab t b)|lia].
    apply last_Some in El as (A' & ->). intros a [Ha|Ha%list_elem_of_singleton]%elem_of_app; [|by subst].
    pose proof (apart_ends L t a A' B (ac_apart _ _ Hc) (ac_fits _ _ Hc) ltac:(by rewrite E, <- app_assoc) Ha) as H. unfold send in *. lia.
  - apply last_None in El as ->. split_and!; [lia|by intros a ?%not_elem_of_nil| |done]. intros b Hb. assert (seg_fits b) as (H1 & _) by (apply (proj1 (list.Forall_forall _ _) Hf); rewrite E; set_solver). done.
Qed.

Lemma hi_bounds A B : L = A ++ B → (∀ b, b ∈ B → hole_hi B ≤ sbase b) ∧ (B ≠ [] → hole_lo A ≤ hole_hi B < W32).
Proof.
  intros E. destruct (proj1 Hi) as [Hc _]. destruct (lo_bounds A B E) as (_ & _ & H & _). destruct B as [|t B]; [split; [by intros b ?%not_elem_of_nil|done]|]. simpl. split.
  - pose proof (ac_apart _ _ Hc) as Ha. rewrite E in Ha. apply apart_app in Ha as (_ & [Ha _] & _). intros b [->|Hb]%elem_of_cons; [done|].
    assert (seg_fits t) as (_ & H2 & _) by (apply (proj1 (list.Forall_forall _ _) (ac_fits _ _ Hc)); rewrite E; set_solver). specialize (Ha b Hb). unfold send in *. lia.
  - intros _. split; [apply H; left|]. assert (seg_fits t) as (_ & H2 & H3) by (apply (proj1 (list.Forall_forall _ _) (ac_fits _ _ Hc)); rewrite E; set_solver). unfold send in *. lia.
Qed.

(** A hole as it is cut to the range. *)
Definition cut_lo (A : list aseg) : Z := Z.max (hole_lo A) base.
Definition cut_hi (B : list aseg) : Z := Z.min (hole_hi B) (base + len).

Lemma valid_small b l : 0 ≤ b → 0 ≤ l → b + l < W32 → valid_va_range b l minlen = if l <? minlen then None else Some (b, l).
Proof.
  intros H1 H2 H3. unfold valid_va_range. rewrite add32_small by done. rewrite (proj2 (Z.ltb_ge _ _)) by lia. by replace (b + l - b) with l by lia.
Qed.

(** What the loop tests of a hole, and what it means. *)
Definition cut_good (A B : list aseg) : bool :=
  negb (cut_hi B - cut_lo A <? minlen) && ((Z.land flags AH_CONTAIN =? 0) || ((cut_lo A <=? addr) && (addr <? cut_hi B))).

Lemma cut_good_ok A B : L = A ++ B → cut_good A B = true → acc (cut_lo A) (cut_hi B - cut_lo A).
Proof.
  intros E Hg. apply andb_prop in Hg as [H1 H2]. apply negb_true_iff, Z.ltb_ge in H1. destruct (lo_bounds A B E) as (_ & HA & _). destruct (hi_bounds A B E) as [HB _].
  unfold hole_ok. split_and!; [unfold cut_lo; lia|unfold cut_hi; lia|done| |].
  - apply free_iff. intros t Ht. rewrite E in Ht. apply elem_of_app in Ht as [Ht|Ht]; [left; specialize (HA t Ht); unfold cut_lo; lia|right; specialize (HB t Ht); unfold cut_hi; lia].
  - apply orb_prop in H2 as [H2|H2]; [left; lia|right; lia].
Qed.

(** A range in the hole is in the cut, which is then good. *)
Lemma acc_in_cut A B b l : acc b l → hole_lo A ≤ b → b + l ≤ hole_hi B → cut_good A B = true ∧ cut_lo A ≤ b ∧ b + l ≤ cut_hi B.
Proof.
  intros (H1 & H2 & H3 & _ & H4) H5 H6. assert (cut_lo A ≤ b ∧ b + l ≤ cut_hi B) as [H7 H8] by (unfold cut_lo, cut_hi; lia). split; [|done].
  unfold cut_good. rewrite (proj2 (Z.ltb_ge _ _)) by lia. simpl. destruct H4 as [->|H4]; [done|]. apply orb_true_iff. right. lia.
Qed.

(** The body of the loop at a hole. *)
Lemma gap_body (forward : bool) A B (cont : res (option (Z * Z))) : L = A ++ B →
  (if (forward && (base + len <? hole_lo A)) || (negb forward && (hole_hi B <? base)) then Ok None
   else if (base + len <? hole_lo A) || (hole_hi B <? base) then cont
   else
    match valid_va_range (if hole_lo A <? base then base else hole_lo A) (sub32 (if base + len <? hole_hi B then base + len else hole_hi B) (if hole_lo A <? base then base else hole_lo A)) minlen with
    | Some (b, l) => if (Z.land flags AH_CONTAIN =? 0) || ((b <=? addr) && (addr <? add32 b l)) then Ok (Some (b, l)) else cont
    | None => cont
    end) =
  (if (forward && (base + len <? hole_lo A)) || (negb forward && (hole_hi B <? base)) then Ok None
   else if cut_good A B then Ok (Some (cut_lo A, cut_hi B - cut_lo A)) else cont).
Proof.
  intros E. destruct (_ || _) eqn:E0; [done|]. destruct (lo_bounds A B E) as (HA0 & _). destruct (hi_bounds A B E) as [_ HB].
  assert (hole_lo A ≤ hole_hi B ∨ base + len < hole_lo A) as Hord by (destruct B as [|t B]; [simpl; lia|left; apply HB; done]).
  destruct ((base + len <? hole_lo A) || (hole_hi B <? base)) eqn:E1.
  - unfold cut_good. rewrite (proj2 (Z.ltb_lt _ _)); [done|]. apply orb_prop in E1. unfold cut_lo, cut_hi. lia.
  - apply orb_false_iff in E1 as [E1 E2]. assert ((if hole_lo A <? base then base else hole_lo A) = cut_lo A) as -> by (unfold cut_lo; case_match; lia).
    assert ((if base + len <? hole_hi B then base + len else hole_hi B) = cut_hi B) as -> by (unfold cut_hi; case_match; lia).
    assert (0 ≤ cut_lo A ≤ cut_hi B ∧ cut_hi B ≤ base + len) as [Hc1 Hc2] by (unfold cut_lo, cut_hi; lia).
    assert (sub32 (cut_hi B) (cut_lo A) = cut_hi B - cut_lo A) as -> by (unfold sub32; apply u32_small; unfold is_u32; lia).
    rewrite valid_small by lia. unfold cut_good. destruct (_ <? minlen); [done|]. simpl. rewrite add32_small by lia. replace (cut_lo A + (cut_hi B - cut_lo A)) with (cut_hi B) by lia. done.
Qed.

(** ** Upward *)

Definition lowest (r : option (Z * Z)) : Prop :=
  match r with Some (b, l) => acc b l ∧ ∀ b' l', acc b' l' → b ≤ b' | None => ∀ b' l', ¬ acc b' l' end.

Lemma gap_up : ∀ fuel A B, L = A ++ B → (length B < fuel)%nat → (∀ b l, acc b l → hole_lo A ≤ b) →
  ∃ r, gap_loop fuel s true minlen base (base + len) flags addr (sid <$> list.last A) (sid <$> head B) = Ok r ∧ lowest r.
Proof.
  induction fuel as [|fuel IH]; intros A B E Hf Hinv; [lia|]. cbn [gap_loop]. rewrite (seg_lo_ok A B E). cbn [mbind res_bind]. rewrite (seg_hi_ok A B E). cbn [mbind res_bind].
  rewrite (gap_body true A B) by done. cbn [andb negb orb]. rewrite orb_false_r. destruct (Z.ltb_spec (base + len) (hole_lo A)) as [H1|H1].
  { exists None. split; [done|]. intros b l Hacc. pose proof (Hinv b l Hacc). destruct Hacc as (? & ? & ? & _). lia. }
  destruct (cut_good A B) eqn:Eg.
  { eexists. split; [done|]. split; [by apply cut_good_ok|]. intros b l Hacc. pose proof (Hinv b l Hacc). destruct Hacc as (? & _). unfold cut_lo. lia. }
  assert (∀ b l, acc b l → ∃ t B', B = t :: B' ∧ send t ≤ b) as Hnext.
  { intros b l Hacc. pose proof (Hinv b l Hacc) as Hlo. destruct B as [|t B'].
    - destruct (acc_in_cut A [] b l Hacc Hlo) as [Hx _]; [simpl; destruct Hacc; lia|]. congruence.
    - exists t, B'. split; [done|]. destruct Hacc as (Ha & Hb & Hc & Hfree & Hd) eqn:EH. destruct (proj1 (free_iff b l) Hfree t) as [H2|H2]; [rewrite E; set_solver|done|].
      destruct (acc_in_cut A (t :: B') b l Hacc Hlo H2) as [Hx _]. congruence. }
  destruct B as [|t B]; cbn [head fmap option_fmap option_map].
  - exists None. split; [done|]. intros b l Hacc. by destruct (Hnext b l Hacc) as (t & B' & E' & _).
  - destruct (segp_next L s A t B (proj1 Hi) E) as (g & Eg' & _ & _ & _ & En). rewrite Eg'. cbn [deref mbind res_bind]. rewrite En. cbn [mbind res_bind].
    destruct (IH (A ++ [t]) B) as (r & Er & Hr); [by rewrite <- app_assoc|simpl in Hf; lia| |rewrite last_snoc in Er; by exists r].
    intros b l Hacc. unfold hole_lo. rewrite last_snoc. destruct (Hnext b l Hacc) as (u & B' & E' & Hu). by injection E' as -> _.
Qed.

(** ** Downward *)

Definition highest (r : option (Z * Z)) : Prop :=
  match r with Some (b, l) => acc b l ∧ ∀ b' l', acc b' l' → b' + l' ≤ b + l | None => ∀ b' l', ¬ acc b' l' end.

Lemma gap_down : ∀ fuel A B, L = A ++ B → (length A < fuel)%nat → (∀ b l, acc b l → b + l ≤ hole_hi B) →
  ∃ r, gap_loop fuel s false minlen base (base + len) flags addr (sid <$> list.last A) (sid <$> head B) = Ok r ∧ highest r.
Proof.
  induction fuel as [|fuel IH]; intros A B E Hf Hinv; [lia|]. cbn [gap_loop]. rewrite (seg_lo_ok A B E). cbn [mbind res_bind]. rewrite (seg_hi_ok A B E). cbn [mbind res_bind].
  rewrite (gap_body false A B) by done. cbn [andb negb orb]. destruct (Z.ltb_spec (hole_hi B) base) as [H1|H1].
  { exists None. split; [done|]. intros b l Hacc. pose proof (Hinv b l Hacc). destruct Hacc as (? & ? & ? & _). lia. }
  destruct (cut_good A B) eqn:Eg.
  { eexists. split; [done|]. split; [by apply cut_good_ok|]. intros b l Hacc. pose proof (Hinv b l Hacc). destruct Hacc as (? & ? & _). unfold cut_hi, cut_lo in *. lia. }
  assert (∀ b l, acc b l → ∃ t, list.last A = Some t ∧ b + l ≤ sbase t) as Hnext.
  { intros b l Hacc. pose proof (Hinv b l Hacc) as Hh. destruct (list.last A) as [t|] eqn:El.
    - exists t. split; [done|]. destruct Hacc as (Ha & Hb & Hc & Hfree & Hd) eqn:EH. destruct (proj1 (free_iff b l) Hfree t) as [H2|H2]; [rewrite E; apply last_Some_elem_of in El; set_solver| |done].
      destruct (acc_in_cut A B b l Hacc) as [Hx _]; [unfold hole_lo; by rewrite El|done|]. congruence.
    - destruct (acc_in_cut A B b l Hacc) as [Hx _]; [unfold hole_lo; rewrite El; destruct Hacc; lia|done|]. congruence. }
  destruct A as [|t A _] using rev_ind; cbn [list.last fmap option_fmap option_map].
  - exists None. split; [done|]. intros b l Hacc. by destruct (Hnext b l Hacc) as (t & E' & _).
  - rewrite last_snoc in *. rewrite <- app_assoc in E. destruct (segp_next L s A t B (proj1 Hi) E) as (g & Eg' & _ & _ & Ep & _). cbn [fmap option_fmap option_map]. rewrite Eg'. cbn [deref mbind res_bind]. rewrite Ep.
    destruct (IH A (t :: B)) as (r & Er & Hr); [done|rewrite length_app in Hf; simpl in Hf; lia| |by exists r].
    intros b l Hacc. destruct (Hnext b l Hacc) as (u & [= <-] & Hu). done.
Qed.
End gap.
