(* ===== verification/AsProps.v ===== *)
(** * The segments of an address space: the theorems

    Calls in any order from a new address space; what holds of the address space they reach; and address spaces for the claims. *)

From S2P Require Import Prelude As AsInv AsSegs AsOps AsList AsSys AsHole.

(** ** Holes *)

Section holes.
Context (L : list aseg) (s : aspace) (minlen base len flags addr : Z) (Hmin : 0 < minlen) (Hbase : 0 ≤ base) (Hlen : 0 ≤ len) (Hhi : base + len < W32).

Lemma hole_ok_segs s' b l : segs s' = segs s → hole_ok s' minlen base len flags addr b l ↔ hole_ok s minlen base len flags addr b l.
Proof. clear. intros E. unfold hole_ok, free_range. by rewrite E. Qed.

Lemma lowest_segs s' r : segs s' = segs s → lowest s' minlen base len flags addr r → lowest s minlen base len flags addr r.
Proof.
  clear. intros E. unfold lowest. destruct r as [[b l]|].
  - intros [H1 H2]. split; [by apply (hole_ok_segs s')|]. intros b' l' H. apply (H2 b' l'). by apply (hole_ok_segs s').
  - intros H b l Hb. apply (H b l). by apply (hole_ok_segs s').
Qed.

Lemma highest_segs s' r : segs s' = segs s → highest s' minlen base len flags addr r → highest s minlen base len flags addr r.
Proof.
  clear. intros E. unfold highest. destruct r as [[b l]|].
  - intros [H1 H2]. split; [by apply (hole_ok_segs s')|]. intros b' l' H. apply (H2 b' l'). by apply (hole_ok_segs s').
  - intros H b l Hb. apply (H b l). by apply (hole_ok_segs s').
Qed.

(** The best hole in the direction asked for. *)
Definition best_hole (r : option (Z * Z)) : Prop :=
  if Z.land flags AH_DIR =? AH_LO then lowest s minlen base len flags addr r else highest s minlen base len flags addr r.

Lemma best_empty : as_inv [] s → Z.land flags AH_CONTAIN = 0 → best_hole (valid_va_range base len minlen).
Proof.
  intros Hi Hc. rewrite valid_small by done. assert (∀ b l, free_range s b l) as Hfree.
  { intros b l x g Hg. destruct Hi as (_ & Hd & _). specialize (Hd x). rewrite Hg in Hd. destruct (not_elem_of_nil x). by apply Hd. }
  unfold best_hole, lowest, highest, hole_ok. destruct (Z.ltb_spec len minlen); case_match; try (intros b l (? & ? & ? & _); lia); (split; [split_and!; [lia|lia|lia|apply Hfree|by left]|intros b l (? & ? & _); lia]).
Qed.
End holes.

Lemma as_gap_ok L s minlen base len flags addr : as_inv L s → 0 < minlen → 0 ≤ base → 0 ≤ len → base + len < W32 → L ≠ [] ∨ Z.land flags AH_CONTAIN = 0 →
  ∃ r s', as_gap s minlen base len flags addr = Ok (r, s') ∧ as_inv L s' ∧ segs s' = segs s ∧ best_hole s minlen base len flags addr r.
Proof.
  intros Hi Hmin Hbase Hlen Hhi Hne. unfold as_gap. rewrite (segp_first L s (proj1 Hi)). cbn [mbind res_bind]. rewrite add32_small by lia.
  destruct L as [|t0 L0] eqn:EL0; cbn [head fmap option_fmap option_map]; [eexists _, s; split_and!; [done|done|done|]; apply best_empty; try done; destruct Hne; done|].
  rewrite <- EL0 in *. clear Hne. unfold best_hole. destruct (Z.land flags AH_DIR =? AH_LO).
  - destruct (find_ok L s base true Hi) as (s1 & -> & Hi1 & Es). cbn [mbind res_bind].
    assert (∃ A t B, L = A ++ t :: B ∧ find_seg base true L = Some (sid t) ∧ ∀ a, a ∈ A → send a ≤ base) as (A & t & B & E & -> & HA).
    { unfold find_seg. pose proof (below_above base L) as EL. destruct (above base L) as [|t B].
      - destruct (list.last L) as [t|] eqn:El; [|apply last_None in El; congruence]. apply last_Some in El as (A & EA). exists A, t, []. split_and!; [done|done|].
        intros a Ha. apply (below_ends _ L). rewrite app_nil_r in EL. rewrite EL, EA. set_solver.
      - exists (below base L), t, B. split_and!; [done|done|]. apply below_ends. }
    cbn [deref mbind res_bind]. destruct (segp_next L s1 A t B (proj1 Hi1) E) as (g & Eg & _ & _ & Ep & _). rewrite Eg. cbn [deref mbind res_bind]. rewrite Ep.
    destruct (gap_up L s1 Hi1 minlen base len flags addr Hmin Hbase Hlen Hhi (S (S (size (segs s1)))) A (t :: B)) as (r & Er & Hr); [done| | |].
    + pose proof (length_segs _ _ (proj1 (proj1 Hi1))) as Hl. rewrite E, length_app in Hl. simpl in *. lia.
    + intros b l (Hb & _). unfold hole_lo. destruct (list.last A) as [u|] eqn:Eu; [|lia]. apply last_Some_elem_of in Eu. specialize (HA u Eu). lia.
    + cbn [head fmap option_fmap option_map] in Er. rewrite Er. cbn [mbind res_bind]. eexists _, s1. split_and!; [done|done|done|]. by apply (lowest_segs s minlen base len flags addr s1).
  - destruct (find_ok L s (base + len) true Hi) as (s1 & -> & Hi1 & Es). cbn [mbind res_bind].
    assert (∃ A t B, L = A ++ t :: B ∧ find_seg (base + len) true L = Some (sid t) ∧ ((B = [] ∧ send t ≤ base + len) ∨ base + len < send t)) as (A & t & B & E & -> & Ht).
    { unfold find_seg. pose proof (below_above (base + len) L) as EL. destruct (above (base + len) L) as [|t B] eqn:EA.
      - destruct (list.last L) as [t|] eqn:El; [|apply last_None in El; congruence]. apply last_Some in El as (A & EA'). exists A, t, []. split_and!; [done|done|]. left. split; [done|].
        apply (below_ends _ L). rewrite app_nil_r in EL. rewrite EL, EA'. set_solver.
      - exists (below (base + len) L), t, B. split_and!; [done|done|]. right. by apply (above_head _ L _ B). }
    cbn [deref mbind res_bind]. destruct (segp_next L s1 A t B (proj1 Hi1) E) as (g & Eg & _ & Ee & Ep & _). rewrite Eg. cbn [deref mbind res_bind]. rewrite Ee, Ep.
    pose proof (length_segs _ _ (proj1 (proj1 Hi1))) as Hl.
    assert (∃ C D, L = C ++ D ∧ (if send t <? base + len then Ok (Some (sid t), None, s1) else Ok (sid <$> list.last A, Some (sid t), s1)) = Ok (sid <$> list.last C, sid <$> head D, s1) ∧
      ∀ b l, hole_ok s1 minlen base len flags addr b l → b + l ≤ hole_hi base len D) as (C & D & ECD & -> & Hinv).
    { destruct (Z.ltb_spec (send t) (base + len)) as [Hlt|Hge].
      - exists L, []. rewrite app_nil_r. split; [done|]. destruct Ht as [[-> _]|Ht]; [|lia]. split; [by rewrite E, last_snoc|]. intros b l (_ & Hb & _). done.
      - exists A, (t :: B). split; [done|]. split; [done|]. intros b l (Hb1 & Hb2 & Hb3 & Hfree & _). simpl.
        destruct (proj1 (free_iff L s1 Hi1 b l) Hfree t) as [H|H]; [rewrite E; set_solver|lia|done]. }
    cbn [mbind res_bind]. destruct (gap_down L s1 Hi1 minlen base len flags addr Hmin Hbase Hlen Hhi (S (S (size (segs s1)))) C D) as (r & Er & Hr); [done| |done|].
    + rewrite ECD, length_app in Hl. lia.
    + rewrite Er. cbn [mbind res_bind]. eexists _, s1. split_and!; [done|done|done|]. by apply (highest_segs s minlen base len flags addr s1).
Qed.

(** ** Ranges *)

Lemma pagemask_floor a : is_u32 a → Z.land a PAGEMASK = a / 4096 * 4096.
Proof.
  intros [H1 H2]. assert (Z.land a PAGEMASK = Z.ldiff a (Z.ones 12)) as ->.
  - assert (a = Z.land a (Z.ones 32)) as Ea by (rewrite Z.land_ones by lia; symmetry; apply Z.mod_small; done). rewrite Ea at 2. rewrite Z.ldiff_land, <- Z.land_assoc. done.
  - by rewrite Z.ldiff_ones_r, Z.shiftl_mul_pow2, Z.shiftr_div_pow2 by lia.
Qed.

Lemma sub_floor a : 0 ≤ a → 0 ≤ a / 4096 * 4096 ≤ a ∧ a < a / 4096 * 4096 + 4096.
Proof. intros. pose proof (Z.div_mod a 4096). pose proof (Z.mod_pos_bound a 4096). nia. Qed.

(** The end of a range, rounded up to a page; the addition wraps around. *)
Definition range_end (base size : Z) : Z := u32 (base + size + PAGEOFFSET) / 4096 * 4096.

Lemma range_end_small base size : 0 ≤ base → 0 ≤ size → base + size + PAGEOFFSET < W32 → range_end base size = (base + size + PAGEOFFSET) / 4096 * 4096.
Proof. intros. unfold range_end. rewrite u32_small; [done|]. unfold is_u32, PAGEOFFSET in *. lia. Qed.

Lemma sub32_wrap a b : is_u32 a → is_u32 b → a < b → sub32 a b = a - b + W32.
Proof. intros [H1 H2] [H3 H4] H. unfold sub32, u32. rewrite <- (Z_mod_plus_full _ 1). apply Z.mod_small. unfold W32 in *. lia. Qed.

Lemma seg_range_pages base size : is_u32 base →
  let lo := base / 4096 * 4096 in
  let hi := range_end base size in
  seg_range false base size = if (lo <? hi) && (hi <=? USRSTACK) then Some (lo, hi - lo) else None.
Proof.
  intros Hb lo hi. unfold seg_range. assert (add32 (add32 base size) PAGEOFFSET = u32 (base + size + PAGEOFFSET)) as -> by (unfold add32, u32; by rewrite Z.add_mod_idemp_l by done).
  rewrite !pagemask_floor by (done || apply u32_range). fold lo. change (u32 (base + size + PAGEOFFSET) / 4096 * 4096) with hi.
  pose proof (sub_floor base (proj1 Hb)) as Hlo. fold lo in Hlo. destruct (u32_range (base + size + PAGEOFFSET)) as [He1 He2].
  pose proof (sub_floor _ He1) as Hhi. fold (range_end base size) in Hhi. fold hi in Hhi. destruct Hb as [Hb1 Hb2].
  assert (is_u32 lo ∧ is_u32 hi) as [Hul Huh] by (unfold is_u32; lia). change USRSTACK with 4026531840. unfold valid_va_range, valid_usr_range. change USRSTACK with 4026531840.
  destruct (Z.le_gt_cases lo hi) as [Hle|Hgt].
  - assert (sub32 hi lo = hi - lo) as -> by (apply u32_small; unfold is_u32 in *; lia). rewrite !add32_small by (unfold is_u32 in *; lia). replace (lo + (hi - lo)) with hi by lia.
    rewrite (proj2 (Z.ltb_ge hi lo)), Z.ltb_irrefl by lia. simpl. rewrite add32_small by (unfold is_u32 in *; lia). replace (lo + (hi - lo)) with hi by lia.
    destruct (Z.leb_spec hi lo), (Z.ltb_spec lo hi), (Z.leb_spec hi 4026531840), (Z.ltb_spec 4026531840 hi), (Z.leb_spec 4026531840 lo); try lia; done.
  - rewrite (sub32_wrap hi lo) by done. rewrite (proj2 (Z.ltb_ge lo hi)) by lia. simpl.
    assert (add32 lo (hi - lo + W32) = hi) as ->.
    { unfold add32. replace (lo + (hi - lo + W32)) with (hi + 1 * W32) by lia. unfold u32. rewrite Z_mod_plus_full. apply Z.mod_small. done. }
    rewrite (proj2 (Z.ltb_lt hi lo)) by done. assert (sub32 0 lo = W32 - lo) as -> by (rewrite sub32_wrap by (unfold is_u32, W32 in *; lia); lia).
    rewrite add32_small by (unfold is_u32, W32 in *; lia). rewrite (proj2 (Z.ltb_ge (W32 - lo + hi) _)) by lia.
    destruct (Z.ltb_spec (W32 - lo) (hi - lo + W32)) as [Hp|Hp]; [done|]. simpl. assert (add32 lo (W32 - lo) = 0) as ->.
    { unfold add32. replace (lo + (W32 - lo)) with W32 by lia. by vm_compute. }
    rewrite (proj2 (Z.leb_le 0 lo)) by lia. done.
Qed.

(** Where the segments of an address space are. *)
Definition extents (s : aspace) : gmap Z (Z * Z) := (λ g, (s_base g, s_size g)) <$> segs s.

Lemma extents_L L s x e : as_inv L s → extents s !! x = Some e ↔ (x, e) ∈ L.
Proof.
  intros Hi. pose proof (proj1 (proj1 Hi)) as Hc. unfold extents. rewrite lookup_fmap. split.
  - destruct (segs s !! x) as [g|] eqn:Eg; [|done]. intros [= <-]. assert (x ∈ sid <$> L) as Hx by (apply Hi; by rewrite Eg).
    apply list_elem_of_fmap in Hx as ((y & b & n) & -> & Ht). destruct (seg_in L s _ Hc Ht) as (g' & Eg' & Eb & Es & _).
    simpl in *. rewrite Eg in Eg'. simplify_eq. by rewrite Eb, Es.
  - intros Ht. destruct (seg_in L s _ Hc Ht) as (g & Eg & Eb & Es & _). simpl in *. rewrite Eg. simpl. rewrite Eb, Es. by destruct e.
Qed.

Lemma extents_eq L L' s s' : as_inv L s → as_inv L' s' → L = L' → extents s' = extents s.
Proof. intros Hi Hi' <-. apply map_eq. intros x. apply option_eq. intros e. by rewrite (extents_L L s), (extents_L L s'). Qed.

(** ** Address spaces in use *)

Section reached.
Context (alloc : gmap Z (list sptr) → Z) (salloc : gmap Z seg → Z) (junk : option Z * option Z) (r : randstate).
Context (Halloc : ∀ m, m !! alloc m = None) (Hsalloc : ∀ m, m !! salloc m = None) (Hr : rand_ok r).

(** C4: Searches, segments made and segments freed, in any order from a new address space: every
    call returns, and its result is that of the sorted list of disjoint segments, whichever of the
    linked list and the skip list represents it. *)
Theorem segments_refine ops : Forall op_u32 ops →
  ∃ os s L, as_exec alloc salloc junk ops (as_alloc r) = Ok (os, s) ∧ as_runs [] ops os L ∧ as_inv L s.
Proof.
  intros Hf. destruct (as_exec_ok alloc salloc junk Halloc Hsalloc ops [] (as_alloc r) (as_alloc_inv r Hr) Hf) as (os & s & L & H1 & H2 & H3). by exists os, s, L.
Qed.

Lemma reached_inv ops os s : Forall op_u32 ops → as_exec alloc salloc junk ops (as_alloc r) = Ok (os, s) → ∃ L, as_inv L s.
Proof.
  intros Hf E. destruct (as_exec_ok alloc salloc junk Halloc Hsalloc ops [] (as_alloc r) (as_alloc_inv r Hr) Hf) as (os' & s' & L & E' & Hi & _).
  exists L. by assert (s' = s) as <- by congruence.
Qed.

(** No two segments of an address space overlap, and none is empty or wraps. *)
Theorem segments_disjoint ops os s : Forall op_u32 ops → as_exec alloc salloc junk ops (as_alloc r) = Ok (os, s) →
  ∀ x g, segs s !! x = Some g → s_base g < s_end g ∧ s_end g = s_base g + s_size g ∧
    ∀ y h, segs s !! y = Some h → x ≠ y → s_end g ≤ s_base h ∨ s_end h ≤ s_base g.
Proof.
  intros Hf E. destruct (reached_inv ops os s Hf E) as (L & Hi). destruct (proj1 Hi) as [Hc _].
  assert (∀ x g, segs s !! x = Some g → ∃ t, t ∈ L ∧ x = sid t ∧ s_base g = sbase t ∧ s_size g = ssize t ∧ s_end g = send t) as Hin.
  { intros x g Eg. assert (x ∈ sid <$> L) as Hx by (apply Hi; by rewrite Eg). apply list_elem_of_fmap in Hx as (t & -> & Ht). exists t.
    destruct (seg_in L s t Hc Ht) as (g' & Eg' & H). assert (g' = g) as -> by congruence. done. }
  intros x g Eg. destruct (Hin x g Eg) as (t & Ht & -> & Eb & Es & Ee). rewrite Eb, Es, Ee.
  assert (seg_fits t) as (_ & Hn & _) by (by apply (proj1 (list.Forall_forall _ _) (ac_fits _ _ Hc))). unfold send at 1 2. split_and!; [lia|done|].
  intros y h Eh Hne. destruct (Hin y h Eh) as (u & Hu & -> & Eb' & _ & Ee'). rewrite Eb', Ee'.
  apply list_elem_of_split in Ht as (A & B & EL). pose proof (ac_apart _ _ Hc) as Ha. rewrite EL in Ha, Hu. apply apart_app in Ha as (_ & [Ha _] & Hab).
  apply elem_of_app in Hu as [Hu|[->|Hu]%elem_of_cons]; [right; apply Hab; [done|left]|done|left; by apply Ha].
Qed.

(** The change to a skip list cannot be seen: it returns, every search gives afterwards what it
    gave before, and the segments have the bounds they had. *)
Theorem mutation_equivalent ops os s : Forall op_u32 ops → as_exec alloc salloc junk ops (as_alloc r) = Ok (os, s) → a_lrep s = false →
  ∃ s', as_mutate_seglist alloc s = Ok s' ∧ a_lrep s' = true ∧
    (∀ addr tail, ∃ o s1 s2, as_findseg s addr tail = Ok (o, s1) ∧ as_findseg s' addr tail = Ok (o, s2)) ∧
    ∀ x g, segs s !! x = Some g → ∃ g', segs s' !! x = Some g' ∧ s_base g' = s_base g ∧ s_size g' = s_size g.
Proof.
  intros Hf E Hrep. destruct (reached_inv ops os s Hf E) as (L & Hi). destruct (proj1 Hi) as [Hc [Hl|(lv & na & hd & Hs)]]; [|rewrite (sk_rep _ _ _ _ _ Hs) in Hrep; done].
  destruct (as_mutate_ok alloc Halloc L s Hc Hl) as (s' & lv & na & hd & Em & Hc' & Hs' & _ & _). exists s'. split_and!; [done|apply (sk_rep _ _ _ _ _ Hs')| |].
  - intros addr tail. destruct (findseg_ok L s addr tail (proj1 Hi)) as (s1 & E1 & _), (findseg_ok L s' addr tail) as (s2 & E2 & _); [split; [done|right; eauto]|].
    by exists (find_seg addr tail L), s1, s2.
  - intros x g Eg. assert (x ∈ sid <$> L) as Hx by (apply Hi; by rewrite Eg). apply list_elem_of_fmap in Hx as (t & -> & Ht).
    destruct (seg_in L s t Hc Ht) as (g1 & Eg1 & E1 & E2 & _), (seg_in L s' t Hc' Ht) as (g2 & Eg2 & E3 & E4 & _). assert (g1 = g) as -> by congruence. exists g2. split_and!; [done|congruence|congruence].
Qed.

(** C26: [seg_alloc] in an address space that calls reach, for any base and size: the range is
    rounded to the pages that it touches (the end is computed modulo 2^32: when [base], [size] and
    a page less one byte add up to less than 2^32 it is the end of the last page touched, and a
    larger size wraps around).  A segment of exactly these pages is made, under a new name, and the
    other segments stay where they are; or else none is, no segment changes, and that is because
    the range of pages is empty, ends above the limit of user addresses, or overlaps a segment. *)
Theorem seg_alloc_pages ops os s base size : Forall op_u32 ops → as_exec alloc salloc junk ops (as_alloc r) = Ok (os, s) → is_u32 base →
  let lo := base / 4096 * 4096 in
  let hi := range_end base size in
  (0 ≤ size → base + size + PAGEOFFSET < W32 → hi = (base + size + PAGEOFFSET) / 4096 * 4096) ∧
  ∃ o s', seg_alloc alloc salloc junk s base size = Ok (o, s') ∧
    match o with
    | Some x => lo < hi ∧ hi ≤ USRSTACK ∧ segs s !! x = None ∧ extents s' = <[x := (lo, hi - lo)]> (extents s) ∧
        ∀ y b n, extents s !! y = Some (b, n) → b + n ≤ lo ∨ hi ≤ b
    | None => extents s' = extents s ∧
        (hi ≤ lo ∨ USRSTACK < hi ∨ ∃ y b n, extents s !! y = Some (b, n) ∧ b < hi ∧ lo < b + n)
    end.
Proof.
  intros Hf E Hb lo hi. split; [intros; by apply range_end_small; [apply Hb|..]|]. destruct (reached_inv ops os s Hf E) as (L & Hi).
  destruct (seg_alloc_ok alloc salloc junk Halloc Hsalloc L s base size Hi Hb) as (o & s' & L' & Es & Hi' & Hspec). exists o, s'. split; [done|].
  pose proof (seg_range_pages base size Hb) as Er. cbv zeta in Er. fold lo in Er. fold hi in Er. pose proof (proj1 (proj1 Hi)) as Hc.
  inversion Hspec as [| | |? ? x b n ? E1 Hx Ei|? ? E1|? ? b n t E1 Ht H1 H2| |]; subst; rewrite E1 in Er;
    (destruct (Z.ltb_spec lo hi) as [Hlt|Hlt]; [|simpl in Er]); (destruct (Z.leb_spec hi USRSTACK) as [Hle|Hle]; simpl in Er); try done; try injection Er as -> ->.
  - assert (seg_fits (x, (lo, hi - lo))) as Hfit.
    { unfold seg_fits, send, sbase, ssize. simpl. change USRSTACK with 4026531840 in Hle. pose proof (sub_floor base (proj1 Hb)). fold lo in H. unfold W32. lia. }
    split_and!; [done|done|by apply (inv_none L)| |].
    + destruct (insert_seg_apart _ L L' (ac_apart _ _ Hc) (ac_fits _ _ Hc) Hfit Ei) as (EL' & _).
      apply map_eq. intros y. apply option_eq. intros e. rewrite (extents_L L' s') by done. rewrite EL', elem_of_app, elem_of_cons.
      pose proof (below_above (sbase (x, (lo, hi - lo))) L) as EL. destruct (decide (y = x)) as [->|Hne].
      * rewrite lookup_insert_eq. assert (∀ e, (x, e) ∈ L → False) as Hno by (intros e' He; apply Hx; by apply (elem_id (x, e'))).
        split; [|intros [= <-]; right; by left]. intros [He|[[= ->]|He]]; [|done|]; exfalso; apply (Hno e); rewrite <- EL; set_solver.
      * rewrite lookup_insert_ne by done. rewrite (extents_L L s) by done. rewrite <- EL at 3. rewrite elem_of_app. split; [|naive_solver].
        intros [He|[[= -> ->]|He]]; [by left|done|by right].
    + intros y b n Hy. apply (extents_L L s _ _ Hi) in Hy. destruct (Z.le_gt_cases (b + n) lo) as [|Hg1]; [by left|]. destruct (Z.le_gt_cases hi b) as [|Hg2]; [by right|].
      exfalso. assert (insert_seg (x, (lo, hi - lo)) L = None) as Hno; [|congruence].
      apply insert_seg_overlap; [apply (ac_apart _ _ Hc)|apply (ac_fits _ _ Hc)|done|]. exists (y, (b, n)). split; [done|]. unfold send, sbase, ssize. simpl. lia.
  - split; [by apply (extents_eq L' L')|]. right. by left.
  - split; [by apply (extents_eq L' L')|]. by left.
  - split; [by apply (extents_eq L' L')|]. by left.
  - split; [by apply (extents_eq L' L')|]. right. right. destruct t as (y & b' & n'). exists y, b', n'.
    split; [by apply (extents_L L' s)|]. unfold send, sbase, ssize in *. simpl in *. lia.
Qed.

(** C7: [as_gap] finds the lowest or the highest hole of the size asked for in the range, as the
    direction says, and when it finds none there is none; a hole that is found is in the range and
    touches no segment.  The segments are not changed. *)
Theorem gap_best ops os s minlen base len flags addr : Forall op_u32 ops → as_exec alloc salloc junk ops (as_alloc r) = Ok (os, s) →
  0 < minlen → 0 ≤ base → 0 ≤ len → base + len < W32 → segs s ≠ ∅ ∨ Z.land flags AH_CONTAIN = 0 →
  ∃ h s', as_gap s minlen base len flags addr = Ok (h, s') ∧ segs s' = segs s ∧
    match h with
    | Some (b, l) => hole_ok s minlen base len flags addr b l ∧
        ∀ b' l', hole_ok s minlen base len flags addr b' l' → if Z.land flags AH_DIR =? AH_LO then b ≤ b' else b' + l' ≤ b + l
    | None => ∀ b l, ¬ hole_ok s minlen base len flags addr b l
    end.
Proof.
  intros Hf E H1 H2 H3 H4 H5. destruct (reached_inv ops os s Hf E) as (L & Hi).
  destruct (as_gap_ok L s minlen base len flags addr Hi H1 H2 H3 H4) as (h & s' & Eg & _ & Es & Hb).
  - destruct H5 as [H5|H5]; [left|by right]. intros ->. apply H5, map_empty. intros x. by apply (inv_none []), not_elem_of_nil.
  - exists h, s'. split_and!; [done|done|]. unfold best_hole in Hb. destruct (Z.land flags AH_DIR =? AH_LO), h as [[b l]|]; exact Hb.
Qed.
End reached.

(** ** Concrete inputs for the witnesses *)

Definition new_name {A} (m : gmap Z A) : Z := fresh (map_to_list m).*1.
Lemma new_name_ok {A} (m : gmap Z A) : m !! new_name m = None.
Proof.
  destruct (m !! new_name m) as [x|] eqn:E; [|done]. exfalso. apply (infinite_is_fresh (map_to_list m).*1).
  apply list_elem_of_fmap. exists (new_name m, x). split; [done|]. by apply elem_of_map_to_list.
Qed.
Lemma rand0_ok : rand_ok ssl_rand0.
Proof. split; [reflexivity|]. simpl. lia. Qed.

Definition demo_ops : list as_op := [SegAlloc 65536 8192; SegAlloc 131072 100; SegAlloc 69632 4096; FindSeg 100000 false; SegAlloc 16384 4096; SegAt 20000; SegFree 66000; FindSeg 200000 true].

Lemma demo_ops_u32 : Forall op_u32 demo_ops.
Proof. repeat constructor; unfold is_u32, W32; simpl; lia. Qed.

Lemma segments_refine_witness : ∃ os s L, as_exec new_name new_name (None, None) demo_ops (as_alloc ssl_rand0) = Ok (os, s) ∧ as_runs [] demo_ops os L ∧ as_inv L s.
Proof. apply segments_refine; [exact new_name_ok|exact new_name_ok|exact rand0_ok|exact demo_ops_u32]. Defined.

Definition demo_end : list (option Z) * aspace :=
  match as_exec new_name new_name (None, None) demo_ops (as_alloc ssl_rand0) with Ok p => p | _ => ([], as_alloc ssl_rand0) end.

Lemma demo_end_ok : as_exec new_name new_name (None, None) demo_ops (as_alloc ssl_rand0) = Ok (demo_end.1, demo_end.2).
Proof. vm_compute. reflexivity. Qed.

Lemma seg_alloc_pages_witness : ∃ s', seg_alloc new_name new_name (None, None) demo_end.2 5000 5000 = Ok (Some 3, s') ∧ extents s' = <[3 := (4096, 8192)]> (extents demo_end.2).
Proof.
  destruct (seg_alloc_pages new_name new_name (None, None) ssl_rand0 new_name_ok new_name_ok rand0_ok demo_ops demo_end.1 demo_end.2 5000 5000 demo_ops_u32 demo_end_ok) as (_ & o & s' & E & H); [by vm_compute|].
  exists s'. destruct o as [x|].
  - assert (x = 3) as -> by (vm_compute in E; congruence). split; [exact E|]. apply H.
  - exfalso. vm_compute in E. discriminate E.
Defined.

Lemma segments_disjoint_witness : ∃ g h, segs demo_end.2 !! 1 = Some g ∧ segs demo_end.2 !! 2 = Some h ∧ (s_end g ≤ s_base h ∨ s_end h ≤ s_base g).
Proof.
  eexists _, _. split; [vm_compute; reflexivity|]. split; [vm_compute; reflexivity|].
  apply (segments_disjoint new_name new_name (None, None) ssl_rand0 new_name_ok new_name_ok rand0_ok demo_ops demo_end.1 demo_end.2 demo_ops_u32 demo_end_ok 1) with (y := 2);
    [vm_compute; reflexivity|vm_compute; reflexivity|done].
Defined.

Lemma mutation_equivalent_witness : ∃ s', as_mutate_seglist new_name demo_end.2 = Ok s' ∧ a_lrep s' = true.
Proof.
  destruct (mutation_equivalent new_name new_name (None, None) ssl_rand0 new_name_ok new_name_ok rand0_ok demo_ops demo_end.1 demo_end.2 demo_ops_u32 demo_end_ok) as (s' & H1 & H2 & _).
  - vm_compute. reflexivity.
  - exists s'. by split.
Defined.

Lemma gap_best_witness : ∃ s', as_gap demo_end.2 4096 0 1000000 AH_HI 0 = Ok (Some (135168, 864832), s') ∧ hole_ok demo_end.2 4096 0 1000000 AH_HI 0 135168 864832.
Proof.
  destruct (gap_best new_name new_name (None, None) ssl_rand0 new_name_ok new_name_ok rand0_ok demo_ops demo_end.1 demo_end.2 4096 0 1000000 AH_HI 0 demo_ops_u32 demo_end_ok) as (h & s' & H1 & _ & H3);
    [lia|lia|lia|unfold W32; lia|right; reflexivity|].
  vm_compute in H1. injection H1 as <- <-. eexists. split; [vm_compute; reflexivity|]. apply H3.
Defined.

(** ** A skip list *)

(** The 226th segment changes the list to a skip list, and the results go on as before. *)
Definition many_ops : list as_op := ((λ i, SegAlloc (8192 * i) 4096) <$> seqZ 1 230) ++ [SegAt 8200; SegAlloc 8200 10; SegFree 16384; FindSeg 16384 false; SegAt 1843201].

Example many_lrep : match as_exec new_name new_name (None, None) many_ops (as_alloc ssl_rand0) with
  | Ok (os, s) => drop 230 os = [Some 0; None; Some 1; Some 2; Some 224] ∧ a_lrep s = true ∧ a_nsegs s = 229
  | _ => False end.
Proof. vm_compute. by repeat split. Qed.

(** ** At the edges *)

(** In an address space without segments, the address that the hole must contain is not looked at. *)
Lemma gap_contain_ignored : as_gap (as_alloc ssl_rand0) 4096 65536 8192 (Z.lor AH_LO AH_CONTAIN) 0 = Ok (Some (65536, 8192), as_alloc ssl_rand0).
Proof. vm_compute. reflexivity. Qed.

(** A size that wraps back into the page it starts in is made as that page. *)
Lemma seg_alloc_wraps : seg_range false 6144 (W32 - 256) = Some (4096, 4096).
Proof. vm_compute. reflexivity. Qed.

(** The kernel's address space takes a segment of no size. *)
Lemma kas_empty_segment : seg_range true 4096 0 = Some (4096, 0).
Proof. vm_compute. reflexivity. Qed.
