(* ===== verification/Vj.v ===== *)
(** * Van Jacobson header compression (uts/common/io/vjcomp.c, sys/vjcomp.h)

    The headers of TCP packets on a serial line are sent as the differences from the header
    before in the same conversation, which both ends remember in numbered slots.

    - A message is its bytes; [mem] says whether the allocations of a call succeed.  The
      headers are read in place: reading past the bytes of the message is [Fault].
    - A slot of the sender is named by its index in [tstate]; [cs_next] of the slots is a ring
      in the order of their last use, whose end is [last_cs].
    - The byte order is big-endian, so that [ntohs] and [htons] do nothing; [ip_len] is a
      [short].
    - The statistics are left out. *)

From S2P Require Import Prelude.

Definition MAX_STATES : nat := 16.
Definition CSLOT : Z := 1.
Definition MAX_HDR : nat := 128.
Definition TYPE_IP : Z := 64.
Definition TYPE_UNCOMPRESSED_TCP : Z := 112.
Definition TYPE_COMPRESSED_TCP : Z := 128.
Definition TYPE_BAD_TCP : Z := -1.
Definition NEW_C : Z := 64.
Definition NEW_I : Z := 32.
Definition NEW_S : Z := 8.
Definition NEW_A : Z := 4.
Definition NEW_W : Z := 2.
Definition NEW_U : Z := 1.
Definition SPECIAL_I : Z := 11.
Definition SPECIAL_D : Z := 15.
Definition SPECIALS_MASK : Z := 15.
Definition TCP_PUSH_BIT : Z := 16.
Definition SLF_TOSS : Z := 1.
Definition IPPROTO_TCP : Z := 6.
Definition TH_FIN : Z := 1.
Definition TH_SYN : Z := 2.
Definition TH_RST : Z := 4.
Definition TH_PUSH : Z := 8.
Definition TH_ACK : Z := 16.
Definition TH_URG : Z := 32.

Record cstate := MkCs { cs_next : nat; cs_hlen : Z; cs_id : Z; cs_hdr : list Z }.

Record vjstruct := MkVj {
  last_cs : nat;
  last_recv : Z;
  last_xmit : Z;
  vj_flags : Z;
  tstate : list cstate;
  rstate : list cstate;
  maxslotin : Z;
  compslotin : Z;
  maxslotout : Z;
  compslotout : Z
}.

Definition with_cs_next x c := MkCs x (cs_hlen c) (cs_id c) (cs_hdr c).
Definition with_hdr h c := MkCs (cs_next c) (cs_hlen c) (cs_id c) h.
Definition with_hlen n c := MkCs (cs_next c) n (cs_id c) (cs_hdr c).

Definition set_last_cs x v := MkVj x (last_recv v) (last_xmit v) (vj_flags v) (tstate v) (rstate v) (maxslotin v) (compslotin v) (maxslotout v) (compslotout v).
Definition set_last_recv x v := MkVj (last_cs v) x (last_xmit v) (vj_flags v) (tstate v) (rstate v) (maxslotin v) (compslotin v) (maxslotout v) (compslotout v).
Definition set_last_xmit x v := MkVj (last_cs v) (last_recv v) x (vj_flags v) (tstate v) (rstate v) (maxslotin v) (compslotin v) (maxslotout v) (compslotout v).
Definition set_vj_flags x v := MkVj (last_cs v) (last_recv v) (last_xmit v) x (tstate v) (rstate v) (maxslotin v) (compslotin v) (maxslotout v) (compslotout v).
Definition set_tstate x v := MkVj (last_cs v) (last_recv v) (last_xmit v) (vj_flags v) x (rstate v) (maxslotin v) (compslotin v) (maxslotout v) (compslotout v).
Definition set_rstate x v := MkVj (last_cs v) (last_recv v) (last_xmit v) (vj_flags v) (tstate v) x (maxslotin v) (compslotin v) (maxslotout v) (compslotout v).

Definition upd_t (i : nat) (f : cstate → cstate) (v : vjstruct) : res vjstruct := c ← deref (tstate v !! i); Ok (set_tstate (<[i := f c]> (tstate v)) v).
Definition upd_r (i : nat) (f : cstate → cstate) (v : vjstruct) : res vjstruct := c ← deref (rstate v !! i); Ok (set_rstate (<[i := f c]> (rstate v)) v).

(** ** Bytes *)

Definition get8 (l : list Z) (i : nat) : res Z := deref (l !! i).
Definition get16 (l : list Z) (i : nat) : res Z := a ← get8 l i; b ← get8 l (S i); Ok (a * 256 + b).
Definition get32 (l : list Z) (i : nat) : res Z := a ← get16 l i; b ← get16 l (i + 2)%nat; Ok (a * 65536 + b).
Definition getn (l : list Z) (i n : nat) : res (list Z) := if (i + n <=? length l)%nat then Ok (take n (drop i l)) else Fault.
Definition set8 (l : list Z) (i : nat) (v : Z) : res (list Z) := _ ← get8 l i; Ok (<[i := v mod 256]> l).
Definition set16 (l : list Z) (i : nat) (v : Z) : res (list Z) := l ← set8 l i (Z.shiftr v 8); set8 l (S i) v.
Definition set32 (l : list Z) (i : nat) (v : Z) : res (list Z) := l ← set16 l i (Z.shiftr v 16); set16 l (i + 2)%nat v.

(** [bcopy] to the start of a header *)
Definition bcopy_hdr (msg : list Z) (n : nat) (hdr : list Z) : res (list Z) :=
  h ← getn msg 0 n; if (n <=? length hdr)%nat then Ok (h ++ drop n hdr) else Fault.

(** [ntohs] of a [short], in an unsigned sum *)
Definition ip_len_of (v : Z) : Z := u32 (if v <? 32768 then v else v - 65536).

(** ** The ring *)

Definition vjcompress_init : vjstruct :=
  let tstate := (λ i, MkCs (match i with O => MAX_STATES - 1 | S i => i end)%nat 0 (Z.of_nat i) (replicate MAX_HDR 0)) <$> seq 0 MAX_STATES in
  MkVj 0 255 255 SLF_TOSS tstate (replicate MAX_STATES (MkCs 0 0 0 (replicate MAX_HDR 0))) (Z.of_nat MAX_STATES) CSLOT (Z.of_nat MAX_STATES) CSLOT.

Definition vjsetinparms (comp : vjstruct) (maxslot cslot : Z) : vjstruct :=
  MkVj (last_cs comp) (last_recv comp) (last_xmit comp) (vj_flags comp) (tstate comp) (rstate comp) maxslot cslot (maxslotout comp) (compslotout comp).

Definition vjsetoutparms (comp : vjstruct) (maxslot cslot : Z) : res vjstruct :=
  let comp := MkVj (last_cs comp) (last_recv comp) (last_xmit comp) (vj_flags comp) (tstate comp) (rstate comp) (maxslotin comp) (compslotin comp) maxslot cslot in
  comp ← upd_t 0 (with_cs_next (Z.to_nat (maxslot - 1))) comp;
  c ← deref (tstate comp !! last_cs comp);
  Ok (if maxslot <=? cs_id c then set_last_cs 0 comp else comp).

(** Whether the header of a slot is of the conversation of a packet. *)
Definition same_conn (msg : list Z) (hlen : nat) (c : cstate) : res bool :=
  s ← get32 msg 12; s' ← get32 (cs_hdr c) 12;
  if negb (s =? s') then Ok false
  else
    d ← get32 msg 16; d' ← get32 (cs_hdr c) 16;
    if negb (d =? d') then Ok false
    else
      p ← get32 msg (4 * hlen); b ← get8 (cs_hdr c) 0;
      p' ← get32 (cs_hdr c) (4 * Z.to_nat (Z.land b 15));
      Ok (p =? p').

(** The search from the second slot on: whether it was found, the slot and the one before. *)
Fixpoint conn_search (fuel : nat) (msg : list Z) (hlen : nat) (ts : list cstate) (lastcs cs : nat) : res (bool * nat * nat) :=
  match fuel with
  | O => Fault
  | S fuel =>
    c ← deref (ts !! cs);
    let lcs := cs in
    let cs := cs_next c in
    c ← deref (ts !! cs);
    same ← same_conn msg hlen c;
    if same : bool then Ok (true, cs, lcs)
    else if bool_decide (cs = lastcs) then Ok (false, cs, lcs)
    else conn_search fuel msg hlen ts lastcs cs
  end.

(** The slot of a packet, moved to the front, and whether it had the conversation. *)
Definition find_conn (msg : list Z) (hlen : nat) (comp : vjstruct) : res (bool * nat * vjstruct) :=
  let lastcs := last_cs comp in
  l ← deref (tstate comp !! lastcs);
  let cs := cs_next l in
  c ← deref (tstate comp !! cs);
  same ← same_conn msg hlen c;
  if same : bool then Ok (true, cs, comp)
  else
    '(found, cs, lcs) ← conn_search (S (length (tstate comp))) msg hlen (tstate comp) lastcs cs;
    if found : bool then
      if bool_decide (cs = lastcs) then Ok (true, cs, set_last_cs lcs comp)
      else
        c ← deref (tstate comp !! cs);
        comp ← upd_t lcs (with_cs_next (cs_next c)) comp;
        l ← deref (tstate comp !! lastcs);
        comp ← upd_t cs (with_cs_next (cs_next l)) comp;
        comp ← upd_t lastcs (with_cs_next cs) comp;
        Ok (true, cs, comp)
    else Ok (false, cs, set_last_cs lcs comp).

(** ** The differences *)

Definition ENCODE (n : Z) : list Z :=
  if 256 <=? n mod 65536 then [0; Z.shiftr n 8 mod 256; n mod 256] else [n mod 256].
Definition ENCODEZ (n : Z) : list Z :=
  if (256 <=? n mod 65536) || (n mod 65536 =? 0) then [0; Z.shiftr n 8 mod 256; n mod 256] else [n mod 256].

(** What must not change.  [t] and [hlen] are the offsets of the TCP header and of its end. *)
Definition same_fixed (msg hdr : list Z) (t hlen : nat) : res bool :=
  a ← get16 msg 0; a' ← get16 hdr 0;
  if negb (a =? a') then Ok false else
  a ← get16 msg 6; a' ← get16 hdr 6;
  if negb (a =? a') then Ok false else
  a ← get16 msg 8; a' ← get16 hdr 8;
  if negb (a =? a') then Ok false else
  a ← get8 msg (t + 12); a' ← get8 hdr (t + 12);
  if negb (Z.shiftr a 4 =? Z.shiftr a' 4) then Ok false else
  o ← getn msg 20 (t - 20); o' ← getn hdr 20 (t - 20);
  if negb (bool_decide (o = o')) then Ok false else
  o ← getn msg (t + 20) (hlen - (t + 20)); o' ← getn hdr (t + 20) (hlen - (t + 20));
  Ok (bool_decide (o = o')).

(** [new_seq] and [changes] up to the switch, with the last [deltaS] and [deltaA]; [None] is
    the jump to [uncompressed]. *)
Definition seq_deltas (msg hdr : list Z) (t : nat) : res (option (list Z * Z * Z * Z)) :=
  fl ← get8 msg (t + 13);
  urp ← get16 msg (t + 18); urp' ← get16 hdr (t + 18);
  if (Z.land fl TH_URG =? 0) && negb (urp =? urp') then Ok None
  else
    let '(cp, changes) := if Z.land fl TH_URG =? 0 then ([], 0) else (ENCODEZ urp, NEW_U) in
    w ← get16 msg (t + 14); w' ← get16 hdr (t + 14);
    let deltaW := (w - w') mod 65536 in
    let '(cp, changes) := if deltaW =? 0 then (cp, changes) else (cp ++ ENCODE deltaW, Z.lor changes NEW_W) in
    a ← get32 msg (t + 8); a' ← get32 hdr (t + 8);
    let deltaA := sub32 a a' in
    if 65535 <? deltaA then Ok None
    else
      let '(cp, changes) := if deltaA =? 0 then (cp, changes) else (cp ++ ENCODE deltaA, Z.lor changes NEW_A) in
      s ← get32 msg (t + 4); s' ← get32 hdr (t + 4);
      let deltaS := sub32 s s' in
      if 65535 <? deltaS then Ok None
      else
        let '(cp, changes) := if deltaS =? 0 then (cp, changes) else (cp ++ ENCODE deltaS, Z.lor changes NEW_S) in
        Ok (Some (cp, changes, deltaS, deltaA)).

(** The switch on [changes]. *)
Definition special_case (msg hdr : list Z) (hlen : nat) (cp : list Z) (changes deltaS deltaA : Z) : res (option (list Z * Z)) :=
  l ← get16 msg 2; l' ← get16 hdr 2;
  let data := sub32 (ip_len_of l') (Z.of_nat hlen) in
  if changes =? 0 then
    if negb (l =? l') && (ip_len_of l' =? Z.of_nat hlen) then Ok (Some (cp, changes)) else Ok None
  else if (changes =? SPECIAL_I) || (changes =? SPECIAL_D) then Ok None
  else if changes =? Z.lor NEW_S NEW_A then
    if (deltaS =? deltaA) && (deltaS =? data) then Ok (Some ([], SPECIAL_I)) else Ok (Some (cp, changes))
  else if changes =? NEW_S then
    if deltaS =? data then Ok (Some ([], SPECIAL_D)) else Ok (Some (cp, changes))
  else Ok (Some (cp, changes)).

Definition find_deltas (msg hdr : list Z) (t hlen : nat) : res (option (list Z * Z)) :=
  same ← same_fixed msg hdr t hlen;
  if negb same then Ok None
  else
    d ← seq_deltas msg hdr t;
    match d with
    | None => Ok None
    | Some (cp, changes, deltaS, deltaA) =>
      r ← special_case msg hdr hlen cp changes deltaS deltaA;
      match r with
      | None => Ok None
      | Some (cp, changes) =>
        i ← get16 msg 4; i' ← get16 hdr 4;
        let deltaI := u32 (i - i') in
        let '(cp, changes) := if deltaI =? 1 then (cp, changes) else (cp ++ ENCODEZ deltaI, Z.lor changes NEW_I) in
        fl ← get8 msg (t + 13);
        Ok (Some (cp, if Z.land fl TH_PUSH =? 0 then changes else Z.lor changes TCP_PUSH_BIT))
      end
    end.

(** ** Sending *)

Definition send_uncompressed (mem : bool) (msg : list Z) (hlen cs : nat) (comp : vjstruct) : res (Z * list Z * vjstruct) :=
  c ← deref (tstate comp !! cs);
  h ← bcopy_hdr msg hlen (cs_hdr c);
  comp ← upd_t cs (with_hdr h) comp;
  if negb mem then Ok (TYPE_BAD_TCP, msg, comp)
  else
    m ← set8 msg 9 (cs_id c);
    Ok (TYPE_UNCOMPRESSED_TCP, m, set_last_xmit (cs_id c) comp).

Definition send_compressed (mem : bool) (msg : list Z) (t hlen cs : nat) (cp : list Z) (changes : Z) (comp : vjstruct) : res (Z * list Z * vjstruct) :=
  sum ← get16 msg (t + 16);
  c ← deref (tstate comp !! cs);
  h ← bcopy_hdr msg hlen (cs_hdr c);
  comp ← upd_t cs (with_hdr h) comp;
  if negb mem then Ok (TYPE_BAD_TCP, msg, comp)
  else
    let explicit := (compslotout comp =? 0) || negb (last_xmit comp =? cs_id c) in
    let mask := if explicit then [Z.lor changes NEW_C mod 256; cs_id c] else [changes mod 256] in
    let comp := if explicit then set_last_xmit (cs_id c) comp else comp in
    Ok (TYPE_COMPRESSED_TCP, mask ++ [Z.shiftr sum 8 mod 256; sum mod 256] ++ cp ++ drop hlen msg, comp).

Definition vjcompress_tcp (mem : bool) (msg : list Z) (comp : vjstruct) : res (Z * list Z * vjstruct) :=
  let mlen := length msg in
  b ← get8 msg 0;
  let hl := Z.to_nat (Z.land b 15) in
  off ← get16 msg 6;
  if negb (Z.land off 16383 =? 0) || (mlen <? 40)%nat then Ok (TYPE_IP, msg, comp)
  else
    p ← get8 msg 9;
    if negb (p =? IPPROTO_TCP) then Ok (TYPE_IP, msg, comp)
    else
      let t := (4 * hl)%nat in
      fl ← get8 msg (t + 13);
      if negb (Z.land fl (Z.lor TH_SYN (Z.lor TH_FIN (Z.lor TH_RST TH_ACK))) =? TH_ACK) then Ok (TYPE_IP, msg, comp)
      else
        '(found, cs, comp) ← find_conn msg hl comp;
        off ← get8 msg (t + 12);
        let hlen := (4 * (hl + Z.to_nat (Z.shiftr off 4)))%nat in
        if (mlen <? hlen)%nat then Ok (TYPE_IP, msg, comp)
        else if negb found then send_uncompressed mem msg hlen cs comp
        else
          c ← deref (tstate comp !! cs);
          d ← find_deltas msg (cs_hdr c) t hlen;
          match d with
          | None => send_uncompressed mem msg hlen cs comp
          | Some (cp, changes) => send_compressed mem msg t hlen cs cp changes comp
          end.

(** ** Receiving *)

(** [cp] is what is left of the message. *)
Definition decode (cp : list Z) : res (Z * list Z) :=
  b ← get8 cp 0;
  if b =? 0 then v ← get16 cp 1; Ok (v, drop 3 cp) else Ok (b, drop 1 cp).

Definition DECODEL (h : list Z) (i : nat) (cp : list Z) : res (list Z * list Z) :=
  '(n, cp) ← decode cp; v ← get32 h i; h ← set32 h i (add32 v n); Ok (h, cp).
Definition DECODES (h : list Z) (i : nat) (cp : list Z) : res (list Z * list Z) :=
  '(n, cp) ← decode cp; v ← get16 h i; h ← set16 h i (v + n); Ok (h, cp).
Definition DECODEU (h : list Z) (i : nat) (cp : list Z) : res (list Z * list Z) :=
  '(n, cp) ← decode cp; h ← set16 h i n; Ok (h, cp).

Definition set_th_flag (h : list Z) (i : nat) (f : Z) (b : bool) : res (list Z) :=
  v ← get8 h i; set8 h i (if b then Z.lor v f else Z.ldiff v f).

(** The changes to the TCP header. *)
Definition apply_changes (h : list Z) (hlen : Z) (t : nat) (changes : Z) (cp : list Z) : res (list Z * list Z) :=
  let m := Z.land changes SPECIALS_MASK in
  if m =? SPECIAL_I then
    l ← get16 h 2;
    let i := sub32 (ip_len_of l) hlen in
    a ← get32 h (t + 8); h ← set32 h (t + 8) (add32 a i);
    s ← get32 h (t + 4); h ← set32 h (t + 4) (add32 s i);
    Ok (h, cp)
  else if m =? SPECIAL_D then
    l ← get16 h 2;
    s ← get32 h (t + 4); h ← set32 h (t + 4) (sub32 (add32 s l) hlen);
    Ok (h, cp)
  else
    h ← set_th_flag h (t + 13) TH_URG (negb (Z.land changes NEW_U =? 0));
    '(h, cp) ← (if Z.land changes NEW_U =? 0 then Ok (h, cp) else DECODEU h (t + 18) cp);
    '(h, cp) ← (if Z.land changes NEW_W =? 0 then Ok (h, cp) else DECODES h (t + 14) cp);
    '(h, cp) ← (if Z.land changes NEW_A =? 0 then Ok (h, cp) else DECODEL h (t + 8) cp);
    if Z.land changes NEW_S =? 0 then Ok (h, cp) else DECODEL h (t + 4) cp.

(** The sum of [n] words from the start of a header. *)
Fixpoint ip_words (n i : nat) (h : list Z) : res Z :=
  match n with O => Ok 0 | S n => v ← get16 h i; w ← ip_words n (i + 2) h; Ok (v + w) end.

Definition ip_cksum (h : list Z) (hl : nat) : res Z :=
  changes ← ip_words (hl / 2) 0 h;
  let changes := Z.land changes 65535 + Z.shiftr changes 16 in
  let changes := Z.land changes 65535 + Z.shiftr changes 16 in
  Ok (Z.lnot changes mod 65536).

Definition toss (comp : vjstruct) : vjstruct := set_vj_flags (Z.lor (vj_flags comp) SLF_TOSS) comp.
Definition no_toss (comp : vjstruct) : vjstruct := set_vj_flags (Z.ldiff (vj_flags comp) SLF_TOSS) comp.

Definition recv_uncompressed (msg : list Z) (comp : vjstruct) : res (Z * list Z * vjstruct) :=
  id ← get8 msg 9;
  if maxslotin comp <=? id then Ok (TYPE_BAD_TCP, msg, toss comp)
  else
    let comp := no_toss (set_last_recv id comp) in
    m ← set8 msg 9 IPPROTO_TCP;
    b ← get8 m 0;
    let hl := Z.to_nat (Z.land b 15) in
    o ← get8 m (4 * hl + 12);
    let hlen := (4 * (hl + Z.to_nat (Z.shiftr o 4)))%nat in
    c ← deref (rstate comp !! Z.to_nat id);
    h ← bcopy_hdr m hlen (cs_hdr c);
    h ← set16 h 10 0;
    comp ← upd_r (Z.to_nat id) (λ c, with_hlen (Z.of_nat hlen mod 256) (with_hdr h c)) comp;
    Ok (0, m, comp).

(** The slot that a compressed packet names, or [None] for one that is tossed. *)
Definition recv_slot (changes : Z) (cp : list Z) (comp : vjstruct) : res (option (list Z) * vjstruct) :=
  if negb (Z.land changes NEW_C =? 0) then
    id ← get8 cp 0;
    if maxslotin comp <=? id then Ok (None, toss comp)
    else Ok (Some (drop 1 cp), set_last_recv id (no_toss comp))
  else if negb (Z.land (vj_flags comp) SLF_TOSS =? 0) then Ok (None, comp)
  else Ok (Some cp, comp).

(** [mem] is the allocation of the new header, [pull] that of the message that is made of it and
    the data; without the latter the call succeeds and there is no message. *)
Definition recv_compressed (mem pull : bool) (msg : list Z) (comp : vjstruct) : res (Z * list Z * vjstruct) :=
  changes ← get8 msg 0;
  '(o, comp) ← recv_slot changes (drop 1 msg) comp;
  match o with
  | None => Ok (TYPE_BAD_TCP, msg, comp)
  | Some cp =>
    let id := Z.to_nat (last_recv comp) in
    c ← deref (rstate comp !! id);
    let h := cs_hdr c in
    b ← get8 h 0;
    let hl := (4 * Z.to_nat (Z.land b 15))%nat in
    sum ← get16 cp 0;
    h ← set16 h (hl + 16) sum;
    h ← set_th_flag h (hl + 13) TH_PUSH (negb (Z.land changes TCP_PUSH_BIT =? 0));
    '(h, cp) ← apply_changes h (cs_hlen c) hl changes (drop 2 cp);
    '(h, cp) ← (if Z.land changes NEW_I =? 0 then i ← get16 h 4; h ← set16 h 4 (i + 1); Ok (h, cp) else DECODES h 4 cp);
    if negb mem then comp ← upd_r id (with_hdr h) comp; Ok (TYPE_BAD_TCP, cp, comp)
    else
      h ← set16 h 2 (Z.of_nat (length cp) + cs_hlen c);
      comp ← upd_r id (with_hdr h) comp;
      new ← getn h 0 (Z.to_nat (cs_hlen c));
      ck ← ip_cksum new hl;
      new ← set16 new 10 ck;
      Ok (0, if pull then new ++ cp else [], comp)
  end.

Definition vjuncompress_tcp (mem pull : bool) (msg : list Z) (type : Z) (comp : vjstruct) : res (Z * list Z * vjstruct) :=
  if type =? TYPE_UNCOMPRESSED_TCP then recv_uncompressed msg comp
  else if type =? TYPE_COMPRESSED_TCP then recv_compressed mem pull msg comp
  else Ok (TYPE_BAD_TCP, msg, toss comp).
