(* ===== verification/VjRing.v ===== *)
(** * The ring of the sender's slots

    The slots are in a ring from the one used last; the search moves the slot that it takes to
    the front, and looks at each slot once. *)

From S2P Require Import Prelude Vj.

(** [cs_next] leads along [l] and then to [e]. *)
Fixpoint chain (ts : list cstate) (l : list nat) (e : nat) : Prop :=
  match l with [] => True | x :: l' => (cs_next <$> ts !! x) = Some (default e (head l')) ∧ chain ts l' e end.

Lemma chain_split ts A B e : chain ts (A ++ B) e ↔ chain ts A (default e (head B)) ∧ chain ts B e.
Proof. induction A as [|a A IH]; simpl; [naive_solver|]. rewrite IH. destruct A; simpl; naive_solver. Qed.

Lemma chain_ext ts ts' l e : (∀ x, x ∈ l → (cs_next <$> ts' !! x) = (cs_next <$> ts !! x)) → chain ts l e → chain ts' l e.
Proof. induction l as [|x l IH]; simpl; [done|]. intros H [H1 H2]. split; [rewrite H by left; done|]. apply IH; [|done]. intros y Hy. apply H. by right. Qed.

(** The ring from the slot used last. *)
Record ring_ok (l : list nat) (comp : vjstruct) : Prop := {
  rg_chain : chain (tstate comp) l (default 0%nat (head l));
  rg_last : list.last l = Some (last_cs comp);
  rg_nodup : NoDup l;
  rg_two : (2 ≤ length l)%nat
}.

(** Two states whose slots differ in their links only. *)
Definition same_slots (v v' : vjstruct) : Prop :=
  ∃ ts x, v' = set_last_cs x (set_tstate ts v) ∧ ∀ i, with_cs_next 0 <$> ts !! i = with_cs_next 0 <$> tstate v !! i.

Lemma upd_t_ok i f v c : tstate v !! i = Some c → upd_t i f v = Ok (set_tstate (<[i := f c]> (tstate v)) v).
Proof. intros E. unfold upd_t. by rewrite E. Qed.
Lemma upd_r_ok i f v c : rstate v !! i = Some c → upd_r i f v = Ok (set_rstate (<[i := f c]> (rstate v)) v).
Proof. intros E. unfold upd_r. by rewrite E. Qed.

Lemma chain_next ts A x B e : chain ts (A ++ x :: B) e → ∃ c, ts !! x = Some c ∧ cs_next c = default e (head B).
Proof. intros [_ [H _]]%chain_split. apply fmap_Some in H as (c & E & ->). by exists c. Qed.

Lemma same_next (ts : list cstate) (i : nat) f : (∀ c, with_cs_next 0 (f c) = with_cs_next 0 c) → ∀ j : nat, with_cs_next 0 <$> (alter f i ts) !! j = with_cs_next 0 <$> ts !! j.
Proof. intros Hf j. destruct (decide (i = j)) as [->|Hne]; [rewrite list_lookup_alter_eq|by rewrite list_lookup_alter_ne]. by destruct (ts !! j); simpl; rewrite ?Hf. Qed.

Lemma insert_alter (ts : list cstate) (i : nat) f c : ts !! i = Some c → <[i := f c]> ts = alter f i ts.
Proof.
  intros E. apply list_eq. intros j. destruct (decide (i = j)) as [<-|Hne].
  - rewrite list_lookup_alter_eq, E, list_lookup_insert_eq; [done|]. by apply lookup_lt_Some in E.
  - by rewrite list_lookup_insert_ne, list_lookup_alter_ne.
Qed.

Definition nx (ts : list cstate) (i : nat) : option nat := cs_next <$> ts !! i.

Lemma ring_front_last C z y comp : ring_ok (C ++ [z; y]) comp → ring_ok (y :: C ++ [z]) (set_last_cs z comp).
Proof.
  intros [H1 H2 H3 H4]. constructor; simpl.
  - apply chain_split in H1 as [H1 [Hz [Hy _]]]. simpl in *. split.
    + rewrite Hy. by destruct C.
    + apply chain_split. split; [|done]. by destruct C.
  - change (y :: C ++ [z]) with ((y :: C) ++ [z]). by rewrite last_snoc.
  - change (C ++ [z; y]) with (C ++ [z] ++ [y]) in H3. rewrite app_assoc in H3. apply list.NoDup_app in H3 as (H3 & Hd & _). apply list.NoDup_cons. split; [|done].
    intros Hy. apply (Hd y Hy). left.
  - rewrite !length_app in *. simpl in *. lia.
Qed.

Lemma ring_front_mid C z y D e comp ts' : ring_ok (C ++ z :: y :: D ++ [e]) comp →
  nx ts' z = head (D ++ [e]) → nx ts' y = head (C ++ [z]) → nx ts' e = Some y → (∀ i, i ≠ z → i ≠ y → i ≠ e → nx ts' i = nx (tstate comp) i) →
  ring_ok (y :: C ++ z :: D ++ [e]) (set_tstate ts' comp).
Proof.
  intros [H1 H2 H3 H4] Hz Hy He Ho. assert (C ++ z :: y :: D ++ [e] = (C ++ z :: y :: D) ++ [e]) as Eall by (by rewrite <- app_assoc).
  constructor; simpl.
  - apply chain_split in H1 as [HC [_ [_ H1]]]. apply chain_split in H1 as [HD _].
    assert (NoDup (C ++ z :: y :: D ++ [e])) as Hn by done. apply list.NoDup_app in Hn as (_ & HnC & Hn).
    apply list.NoDup_cons in Hn as [Hnz Hn]. apply list.NoDup_cons in Hn as [Hny Hn]. apply list.NoDup_app in Hn as (_ & HnD & _).
    split; [unfold nx in Hy; rewrite Hy; by destruct C|]. apply chain_split. split; [|split].
    + simpl. apply (chain_ext (tstate comp)); [|by destruct C]. intros x Hx. apply Ho; intros ->; apply (HnC _ Hx); set_solver.
    + unfold nx in Hz. rewrite Hz. by destruct D.
    + apply chain_split. split; [|by split]. simpl. apply (chain_ext (tstate comp)); [|done]. intros x Hx. apply Ho; intros ->; [apply Hnz; set_solver|apply Hny; set_solver|apply (HnD _ Hx); left].
  - rewrite Eall, last_snoc in H2. injection H2 as <-. change (y :: C ++ z :: D ++ [e]) with ((y :: C) ++ (z :: D) ++ [e]). by rewrite app_assoc, last_snoc.
  - eapply NoDup_Permutation_proper; [|exact H3]. change (z :: y :: D ++ [e]) with ([z] ++ y :: D ++ [e]). change (z :: D ++ [e]) with ([z] ++ D ++ [e]). rewrite !app_assoc. rewrite <- app_assoc. apply Permutation_cons_app.
    by rewrite <- app_assoc.
  - simpl in *. rewrite !length_app in *. simpl in *. lia.
Qed.

Section search.
Context (msg : list Z) (hlen : nat) (comp : vjstruct) (l : list nat) (Hr : ring_ok l comp).
(** Each slot can be compared with the packet. *)
Context (Hconn : ∀ x c, x ∈ l → tstate comp !! x = Some c → ∃ b : bool, same_conn msg hlen c = Ok b).

Definition is_conn (x : nat) : bool := match tstate comp !! x with Some c => match same_conn msg hlen c with Ok b => b | _ => false end | None => false end.

Lemma conn_at x c : x ∈ l → tstate comp !! x = Some c → same_conn msg hlen c = Ok (is_conn x).
Proof. intros Hx E. destruct (Hconn x c Hx E) as (b & Eb). unfold is_conn. by rewrite E, Eb. Qed.

Lemma conn_search_ok : ∀ B A x fuel, l = A ++ x :: B → B ≠ [] → (length B < fuel)%nat →
  ∃ C y D z, x :: B = C ++ z :: y :: D ∧ (is_conn y = true ∨ (D = [] ∧ is_conn y = false)) ∧ (∀ w, w ∈ B → w ∉ y :: D → is_conn w = false) ∧
    conn_search fuel msg hlen (tstate comp) (last_cs comp) x = Ok (is_conn y, y, z).
Proof.
  induction B as [|y B IH]; intros A x fuel El Hne Hf; [done|]. destruct fuel as [|fuel]; [simpl in Hf; lia|]. cbn [conn_search].
  pose proof (rg_chain _ _ Hr) as Hch. rewrite El in Hch. destruct (chain_next _ _ _ _ _ Hch) as (c & -> & En). cbn [deref mbind res_bind]. rewrite En. cbn [head default].
  assert (y ∈ l) as Hy by (rewrite El; set_solver).
  assert (∃ d, tstate comp !! y = Some d) as (d & Ed).
  { change (A ++ x :: y :: B) with (A ++ [x] ++ y :: B) in Hch. rewrite app_assoc in Hch. destruct (chain_next _ _ _ _ _ Hch) as (d & -> & _). by exists d. }
  simpl. rewrite Ed. cbn [deref mbind res_bind]. rewrite (conn_at y d Hy Ed). cbn [mbind res_bind]. destruct (is_conn y) eqn:Ey.
  { exists [], y, B, x. split_and!; [done|by left| |by rewrite Ey]. intros w Hw Hw'. set_solver. }
  pose proof (rg_last _ _ Hr) as Hlast. case_bool_decide as E.
  - destruct B as [|z B]; [exists [], y, [], x; split_and!; [done|by right|intros w Hw Hw'; set_solver|by rewrite Ey]|]. exfalso.
    pose proof (rg_nodup _ _ Hr) as Hn. rewrite El in Hlast, Hn. rewrite last_app, !last_cons in Hlast. destruct (list.last B) as [w|] eqn:Ew; injection Hlast as Hl.
    + apply last_Some_elem_of in Ew. apply list.NoDup_app in Hn as (_ & _ & Hn). apply list.NoDup_cons in Hn as [_ Hn]. apply list.NoDup_cons in Hn as [Hn _]. apply Hn. right. by rewrite E, <- Hl.
    + apply list.NoDup_app in Hn as (_ & _ & Hn). apply list.NoDup_cons in Hn as [_ Hn]. apply list.NoDup_cons in Hn as [Hn _]. apply Hn. rewrite E, <- Hl. left.
  - assert (B ≠ []) as HB.
    { intros ->. rewrite El, last_app in Hlast. simpl in Hlast. by injection Hlast. }
    destruct (IH (A ++ [x]) y fuel) as (C & w & D & z & EC & Hw & Hno & Es); [by rewrite <- app_assoc|done|simpl in Hf; lia|].
    exists (x :: C), w, D, z. split_and!; [by rewrite EC|done| |done]. intros v [->|Hv]%elem_of_cons Hv'; [done|]. by apply Hno.
Qed.

(** The slot that is taken goes to the front. *)
Lemma find_conn_ok : ∃ x A B comp', l = A ++ x :: B ∧ find_conn msg hlen comp = Ok (is_conn x, x, comp') ∧ ring_ok (x :: A ++ B) comp' ∧ same_slots comp comp' ∧
  (is_conn x = false → B = [] ∧ ∀ y, y ∈ l → is_conn y = false).
Proof.
  pose proof (rg_two _ _ Hr) as Htwo. pose proof (rg_last _ _ Hr) as Hlast. pose proof (rg_nodup _ _ Hr) as Hn. pose proof (rg_chain _ _ Hr) as Hch. unfold find_conn.
  assert (∃ h B0, l = h :: B0) as (h & B0 & El) by (destruct l as [|h B0]; [simpl in Htwo; lia|eauto]). rewrite El in Hch. simpl in Hch.
  pose proof Hlast as Hlast'. apply last_Some in Hlast' as (P & EP).
  assert (∃ c, tstate comp !! last_cs comp = Some c ∧ cs_next c = h) as (cl & Ecl & Encl).
  { destruct (chain_next (tstate comp) P (last_cs comp) [] h) as (c & E & En); [rewrite <- EP, El; exact Hch|]. by exists c. }
  rewrite Ecl. cbn [deref mbind res_bind]. rewrite Encl.
  assert (∃ c, tstate comp !! h = Some c) as (ch & Ech) by (destruct Hch as [Hch _]; apply fmap_Some in Hch as (c & E & _); by exists c).
  rewrite Ech. cbn [deref mbind res_bind]. rewrite (conn_at h ch) by (done || (rewrite El; left)). cbn [mbind res_bind]. destruct (is_conn h) eqn:Eh.
  { exists h, [], B0, comp. rewrite Eh. split_and!; [done|done|simpl; by rewrite <- El|exists (tstate comp), (last_cs comp); split; [by destruct comp|done]|done]. }
  assert (length B0 ≤ length (tstate comp))%nat as Hlen.
  { rewrite El in Hn. apply list.NoDup_cons in Hn as [_ Hn]. rewrite <- (length_seq (length (tstate comp)) 0). apply submseteq_length, NoDup_submseteq; [done|].
    intros y Hy. apply elem_of_seq. destruct Hch as [_ Hch]. apply list_elem_of_split in Hy as (C & D & ->). destruct (chain_next _ _ _ _ _ Hch) as (c & E & _).
    apply lookup_lt_Some in E. lia. }
  destruct (conn_search_ok B0 [] h (S (length (tstate comp)))) as (C & y & D & z & EC & Hy & Hno & Es); [done|intros ->; rewrite El in Htwo; simpl in Htwo; lia|lia|].
  rewrite Es. cbn [mbind res_bind]. rewrite <- El in EC. destruct (decide (D = [])) as [->|HD].
  - assert (y = last_cs comp) as Ey by (rewrite EC, last_app in Hlast; simpl in Hlast; by injection Hlast).
    exists y, (C ++ [z]), [], (set_last_cs z comp). split; [rewrite EC, <- app_assoc; done|]. split; [|split; [|split]].
    + rewrite (bool_decide_true _ Ey). by destruct (is_conn y).
    + rewrite app_nil_r. apply ring_front_last. by rewrite <- EC.
    + exists (tstate comp), z. split; [by destruct comp|done].
    + intros Hf. split; [done|]. intros w Hw. rewrite El in Hw. apply elem_of_cons in Hw as [->|Hw]; [done|]. destruct (decide (w = y)) as [->|Hwy]; [done|]. apply Hno; [done|set_solver].
  - destruct Hy as [Hy|[-> _]]; [|done]. rewrite Hy. destruct D as [|e D _] using rev_ind; [done|]. clear HD.
    assert (C ++ z :: y :: D ++ [e] = (C ++ z :: y :: D) ++ [e]) as Eall by (by rewrite <- app_assoc).
    assert (e = last_cs comp) as Ee by (rewrite EC, Eall, last_snoc in Hlast; by injection Hlast).
    rewrite EC in Hn. pose proof Hn as Hn'. apply list.NoDup_app in Hn' as (_ & _ & Hn'). apply list.NoDup_cons in Hn' as [Hnz Hn']. apply list.NoDup_cons in Hn' as [Hny _].
    assert (z ≠ y ∧ z ≠ e ∧ y ≠ e) as (Hzy & Hze & Hye) by (split_and!; intros E; [apply Hnz; rewrite E; left|apply Hnz; rewrite E; set_solver|apply Hny; rewrite E; set_solver]).
    rewrite El in EC. assert (chain (tstate comp) (C ++ z :: y :: D ++ [e]) h) as Hch2 by (rewrite <- EC; exact Hch). rewrite <- El in EC.
    destruct (chain_next _ _ _ _ _ Hch2) as (cz & Ecz & Enz). change (C ++ z :: y :: D ++ [e]) with (C ++ [z] ++ y :: D ++ [e]) in Hch2. rewrite app_assoc in Hch2.
    destruct (chain_next _ _ _ _ _ Hch2) as (cy & Ecy & Eny).
    rewrite bool_decide_false by (rewrite <- Ee; done). rewrite Ecy. cbn [deref mbind res_bind]. rewrite (upd_t_ok _ _ _ _ Ecz). cbn [mbind res_bind]. rewrite <- Ee in Ecl |- *.
    cbn [tstate set_tstate]. rewrite list_lookup_insert_ne, Ecl by done. cbn [deref mbind res_bind]. rewrite (upd_t_ok y _ _ cy) by (cbn [tstate set_tstate]; by rewrite list_lookup_insert_ne).
    cbn [mbind res_bind]. rewrite (upd_t_ok e _ _ cl) by (cbn [tstate set_tstate]; rewrite !list_lookup_insert_ne by done; done). cbn [mbind res_bind].
    exists y, (C ++ [z]), (D ++ [e]). eexists. split; [rewrite EC, <- app_assoc; done|]. rewrite Hy. split; [done|]. split; [|split; [|done]].
    + rewrite <- app_assoc. simpl tstate. apply (ring_front_mid C z y D e (set_tstate (tstate comp) comp)).
      * rewrite <- EC. by destruct Hr.
      * unfold nx. rewrite !list_lookup_insert_ne, list_lookup_insert_eq by (done || by apply lookup_lt_Some in Ecz). simpl. rewrite Eny. by destruct D.
      * unfold nx. rewrite list_lookup_insert_ne, list_lookup_insert_eq by (done || (rewrite length_insert; by apply lookup_lt_Some in Ecy)). simpl. rewrite Encl. rewrite El in EC. by destruct C; injection EC as ->.
      * unfold nx. by rewrite list_lookup_insert_eq by (rewrite !length_insert; by apply lookup_lt_Some in Ecl).
      * intros i H1 H2 H3. unfold nx. by rewrite !list_lookup_insert_ne by done.
    + exists (<[e := with_cs_next y cl]> (<[y := with_cs_next (cs_next cl) cy]> (<[z := with_cs_next (cs_next cy) cz]> (tstate comp)))), (last_cs comp). split; [reflexivity|]. intros i. cbn [tstate set_tstate].
      rewrite (insert_alter (tstate comp) z _ cz Ecz), (insert_alter _ y _ cy) by (by rewrite list_lookup_alter_ne).
      rewrite (insert_alter _ e _ cl) by (by rewrite !list_lookup_alter_ne). by rewrite !same_next.
Qed.
End search.
