(* ===== verification/VjHead.v ===== *)
(** * Headers that are told by their differences

    Which headers the two ends agree on, and what [find_deltas] says of a packet: either that
    it goes as it is, or a mask and numbers from which the receiver makes the header.  First
    the accesses of the code as total functions, and how the numbers are read back. *)

From S2P Require Import Prelude Vj.

Definition byte (b : Z) : Prop := 0 ≤ b < 256.

(** ** Total accesses *)

Definition g8 (l : list Z) (i : nat) : Z := default 0 (l !! i).
Definition g16 (l : list Z) (i : nat) : Z := g8 l i * 256 + g8 l (S i).
Definition g32 (l : list Z) (i : nat) : Z := g16 l i * 65536 + g16 l (i + 2).
Definition p8 (l : list Z) (i : nat) (v : Z) : list Z := <[i := v mod 256]> l.
Definition p16 (l : list Z) (i : nat) (v : Z) : list Z := p8 (p8 l i (Z.shiftr v 8)) (S i) v.
Definition p32 (l : list Z) (i : nat) (v : Z) : list Z := p16 (p16 l i (Z.shiftr v 16)) (i + 2) v.

Lemma get8_ok l i : (i < length l)%nat → get8 l i = Ok (g8 l i).
Proof. intros H. unfold get8, g8. by destruct (lookup_lt_is_Some_2 l i H) as (x & ->). Qed.
Lemma get16_ok l i : (S i < length l)%nat → get16 l i = Ok (g16 l i).
Proof. intros H. unfold get16. rewrite !get8_ok by lia. done. Qed.
Lemma get32_ok l i : (i + 3 < length l)%nat → get32 l i = Ok (g32 l i).
Proof. intros H. unfold get32. rewrite !get16_ok by lia. done. Qed.
Lemma getn_ok l i n : (i + n ≤ length l)%nat → getn l i n = Ok (take n (drop i l)).
Proof. intros H. unfold getn. by rewrite (proj2 (Nat.leb_le _ _)). Qed.
Lemma length_p8 l i v : length (p8 l i v) = length l.
Proof. apply length_insert. Qed.
Lemma length_p16 l i v : length (p16 l i v) = length l.
Proof. unfold p16. by rewrite !length_p8. Qed.
Lemma length_p32 l i v : length (p32 l i v) = length l.
Proof. unfold p32. by rewrite !length_p16. Qed.
Lemma set8_ok l i v : (i < length l)%nat → set8 l i v = Ok (p8 l i v).
Proof. intros H. unfold set8. by rewrite get8_ok. Qed.
Lemma set16_ok l i v : (S i < length l)%nat → set16 l i v = Ok (p16 l i v).
Proof. intros H. unfold set16. rewrite set8_ok by lia. cbn [mbind res_bind]. by rewrite set8_ok by (rewrite length_p8; lia). Qed.
Lemma set32_ok l i v : (i + 3 < length l)%nat → set32 l i v = Ok (p32 l i v).
Proof. intros H. unfold set32. rewrite set16_ok by lia. cbn [mbind res_bind]. by rewrite set16_ok by (rewrite length_p16; lia). Qed.

(** ** Reading what was written *)

Lemma g8_p8_eq l i v : (i < length l)%nat → g8 (p8 l i v) i = v mod 256.
Proof. intros H. unfold g8, p8. by rewrite list_lookup_insert_eq. Qed.
Lemma g8_p8_ne l i j v : i ≠ j → g8 (p8 l i v) j = g8 l j.
Proof. intros H. unfold g8, p8. by rewrite list_lookup_insert_ne. Qed.

Lemma word_split v : Z.shiftr v 8 mod 256 * 256 + v mod 256 = v mod 65536.
Proof.
  rewrite Z.shiftr_div_pow2 by lia. change (2 ^ 8) with 256. pose proof (Z.div_mod v 256). pose proof (Z.div_mod (v / 256) 256).
  pose proof (Z.mod_pos_bound v 256). pose proof (Z.mod_pos_bound (v / 256) 256). pose proof (Z.div_mod v 65536). pose proof (Z.mod_pos_bound v 65536).
  assert (v / 256 / 256 = v / 65536) by (rewrite Z.div_div by lia; done). lia.
Qed.

Lemma g16_p16_eq l i v : (S i < length l)%nat → g16 (p16 l i v) i = v mod 65536.
Proof. intros H. unfold g16, p16. rewrite (g8_p8_ne _ (S i) i), g8_p8_eq, g8_p8_eq by (rewrite ?length_p8; lia). apply word_split. Qed.
Lemma g8_p16_ne l i j v : j ≠ i → j ≠ S i → g8 (p16 l i v) j = g8 l j.
Proof. intros. unfold p16. by rewrite !g8_p8_ne by lia. Qed.
Lemma g16_p16_ne l i j v : j ≠ i → j ≠ S i → S j ≠ i → g16 (p16 l i v) j = g16 l j.
Proof. intros. unfold g16. by rewrite !g8_p16_ne by lia. Qed.
Lemma g16_p8_ne l i j v : j ≠ i → S j ≠ i → g16 (p8 l i v) j = g16 l j.
Proof. intros. unfold g16. by rewrite !g8_p8_ne by lia. Qed.

Lemma bytes_g8 l i : Forall byte l → byte (g8 l i).
Proof. intros H. unfold g8. destruct (l !! i) eqn:E; simpl; [by apply (proj1 (Forall_lookup _ _) H i)|unfold byte; lia]. Qed.
Lemma g16_range l i : Forall byte l → 0 ≤ g16 l i < 65536.
Proof. intros H. unfold g16. pose proof (bytes_g8 l i H). pose proof (bytes_g8 l (S i) H). unfold byte in *. lia. Qed.
Lemma g32_range l i : Forall byte l → is_u32 (g32 l i).
Proof. intros H. unfold g32, is_u32, W32. pose proof (g16_range l i H). pose proof (g16_range l (i + 2) H). lia. Qed.
Lemma bytes_p8 l i v : Forall byte l → Forall byte (p8 l i v).
Proof. intros H. apply Forall_insert; [done|]. unfold byte. apply Z.mod_pos_bound. lia. Qed.
Lemma bytes_p16 l i v : Forall byte l → Forall byte (p16 l i v).
Proof. intros H. by do 2 apply bytes_p8. Qed.
Lemma bytes_p32 l i v : Forall byte l → Forall byte (p32 l i v).
Proof. intros H. by do 2 apply bytes_p16. Qed.

(** The words of a 32-bit write. *)
Lemma p32_words l i v : (i + 3 < length l)%nat → g16 (p32 l i v) i = Z.shiftr v 16 mod 65536 ∧ g16 (p32 l i v) (i + 2) = v mod 65536.
Proof. intros H. unfold p32. split; [rewrite g16_p16_ne by lia; apply g16_p16_eq; lia|apply g16_p16_eq; rewrite length_p16; lia]. Qed.
Lemma g16_p32_ne l i j v : (j + 2 ≤ i)%nat ∨ (i + 4 ≤ j)%nat → g16 (p32 l i v) j = g16 l j.
Proof. intros H. unfold p32. by rewrite !g16_p16_ne by lia. Qed.

Lemma g32_words l i v : Forall byte l → g32 l i = v → Z.shiftr v 16 mod 65536 = g16 l i ∧ v mod 65536 = g16 l (i + 2).
Proof.
  intros Hb <-. unfold g32. pose proof (g16_range l i Hb). pose proof (g16_range l (i + 2) Hb). rewrite Z.shiftr_div_pow2 by lia. change (2 ^ 16) with 65536. split.
  - rewrite Z.div_add_l, (Z.div_small (g16 l (i + 2))), Z.add_0_r by lia. apply Z.mod_small. lia.
  - rewrite Z.add_comm, Z_mod_plus_full. apply Z.mod_small. lia.
Qed.

(** ** Equal words *)

Lemma g16_inj l l' i : Forall byte l → Forall byte l' → g16 l i = g16 l' i → g8 l i = g8 l' i ∧ g8 l (S i) = g8 l' (S i).
Proof.
  intros H H' E. unfold g16 in E. pose proof (bytes_g8 l i H). pose proof (bytes_g8 l (S i) H). pose proof (bytes_g8 l' i H'). pose proof (bytes_g8 l' (S i) H'). unfold byte in *. lia.
Qed.

Lemma g8_lookup l i : (i < length l)%nat → l !! i = Some (g8 l i).
Proof. intros H. unfold g8. by destruct (lookup_lt_is_Some_2 l i H) as (x & ->). Qed.

(** Two headers with the same words are the same. *)
Lemma words_eq l l' n : Forall byte l → Forall byte l' → length l = (2 * n)%nat → length l' = (2 * n)%nat → (∀ k, (k < n)%nat → g16 l (2 * k) = g16 l' (2 * k)) → l = l'.
Proof.
  intros Hb Hb' Hl Hl' H. apply list_eq. intros i. destruct (decide (i < 2 * n)%nat) as [Hi|Hi]; [|rewrite !lookup_ge_None_2 by lia; done].
  rewrite !g8_lookup by lia. f_equal. destruct (Nat.Even_or_Odd i) as [[k ->]|[k ->]].
  - apply (g16_inj l l' (2 * k) Hb Hb'). apply H. lia.
  - replace (2 * k + 1)%nat with (S (2 * k)) by lia. apply (g16_inj l l' (2 * k) Hb Hb'). apply H. lia.
Qed.

Lemma g8_take l n i : (i < n)%nat → g8 (take n l) i = g8 l i.
Proof. intros H. unfold g8. by rewrite lookup_take_lt. Qed.
Lemma g16_take l n i : (S i < n)%nat → g16 (take n l) i = g16 l i.
Proof. intros H. unfold g16. by rewrite !g8_take by lia. Qed.
Lemma g8_app l k i : (i < length l)%nat → g8 (l ++ k) i = g8 l i.
Proof. intros H. unfold g8. by rewrite lookup_app_l. Qed.
Lemma g16_app l k i : (S i < length l)%nat → g16 (l ++ k) i = g16 l i.
Proof. intros H. unfold g16. by rewrite !g8_app by lia. Qed.

(** The bytes of a range, from its words. *)
Lemma range_eq l l' i n : Forall byte l → Forall byte l' → (i + 2 * n ≤ length l)%nat → (i + 2 * n ≤ length l')%nat →
  take (2 * n) (drop i l) = take (2 * n) (drop i l') → ∀ k, (k < n)%nat → g16 l (i + 2 * k) = g16 l' (i + 2 * k).
Proof.
  intros _ _ H1 H2 E k Hk. assert (∀ j, (j < 2 * n)%nat → g8 l (i + j) = g8 l' (i + j)) as Hj.
  { intros j Hj. unfold g8. rewrite <- !lookup_drop. rewrite <- (lookup_take_lt (drop i l) (2 * n) j), <- (lookup_take_lt (drop i l') (2 * n) j) by lia. by rewrite E. }
  unfold g16. rewrite (Hj (2 * k)%nat) by lia. replace (S (i + 2 * k)) with (i + (2 * k + 1))%nat by lia. by rewrite (Hj (2 * k + 1)%nat) by lia.
Qed.

(** ** Numbers *)

Lemma decode_short n rest : byte n → n ≠ 0 → decode (n :: rest) = Ok (n, rest).
Proof. intros Hb Hn. unfold decode, get8. simpl. by rewrite (proj2 (Z.eqb_neq _ _) Hn). Qed.

Lemma decode_long v rest : decode ([0; Z.shiftr v 8 mod 256; v mod 256] ++ rest) = Ok (v mod 65536, rest).
Proof. unfold decode, get16, get8. simpl. by rewrite word_split. Qed.

Lemma mod_small_byte n : n mod 65536 < 256 → n mod 256 = n mod 65536.
Proof.
  intros H. pose proof (Z.mod_pos_bound n 65536). rewrite (Z.div_mod n 65536) at 1 by lia. replace (65536 * (n / 65536) + n mod 65536) with (n mod 65536 + (256 * (n / 65536)) * 256) by lia.
  rewrite Z_mod_plus_full. apply Z.mod_small. lia.
Qed.

Lemma decode_ENCODE n rest : n mod 65536 ≠ 0 → decode (ENCODE n ++ rest) = Ok (n mod 65536, rest).
Proof.
  intros Hn. unfold ENCODE. destruct (Z.leb_spec 256 (n mod 65536)) as [H|H]; [apply decode_long|]. pose proof (Z.mod_pos_bound n 65536).
  rewrite mod_small_byte by done. apply decode_short; [unfold byte; lia|done].
Qed.

Lemma decode_ENCODEZ n rest : decode (ENCODEZ n ++ rest) = Ok (n mod 65536, rest).
Proof.
  unfold ENCODEZ. destruct (_ || _) eqn:E; [apply decode_long|]. prop_bool. pose proof (Z.mod_pos_bound n 65536). rewrite mod_small_byte by done. apply decode_short; [unfold byte; lia|done].
Qed.

(** ** Words of a header *)

(** The words of [S] are those of [M], the others those of [h0]. *)
Record words_are (M h0 : list Z) (S : list nat) (h : list Z) : Prop := {
  wa_len : length h = MAX_HDR;
  wa_bytes : Forall byte h;
  wa_words k : Nat.Even k → (k < MAX_HDR)%nat → g16 h k = if bool_decide (k ∈ S) then g16 M k else g16 h0 k
}.

Lemma even_lt k : Nat.Even k → (k < MAX_HDR)%nat → (S k < MAX_HDR)%nat.
Proof. intros [j ->]. unfold MAX_HDR. lia. Qed.

Lemma even_apart j k : Nat.Even j → Nat.Even k → j ≠ k → j ≠ S k ∧ S j ≠ k.
Proof. intros [a ->] [b ->]. lia. Qed.

Lemma wa_same M h0 S i h : words_are M h0 S h → g16 h0 i = g16 M i → words_are M h0 (i :: S) h.
Proof.
  intros [H1 H2 H3] E. constructor; [done|done|]. intros k Hk Hl. rewrite H3 by done. destruct (decide (k ∈ S)) as [Hin|Hin].
  - by rewrite !bool_decide_true by set_solver.
  - rewrite bool_decide_false by done. case_bool_decide as Hx; [|done]. apply elem_of_cons in Hx as [->|Hx]; done.
Qed.

Lemma wa_set16 M h0 S i h v : words_are M h0 S h → Nat.Even i → (i < MAX_HDR)%nat → v mod 65536 = g16 M i → words_are M h0 (i :: S) (p16 h i v).
Proof.
  intros [H1 H2 H3] Hi Hl Hv. pose proof (even_lt i Hi Hl). constructor; [by rewrite length_p16|by apply bytes_p16|]. intros k Hk Hkl.
  destruct (decide (k = i)) as [->|Hne].
  - rewrite g16_p16_eq by lia. by rewrite bool_decide_true by left.
  - destruct (even_apart k i Hk Hi Hne). rewrite g16_p16_ne by done. rewrite H3 by done. by rewrite (bool_decide_ext (k ∈ S) (k ∈ i :: S)) by set_solver.
Qed.

Lemma wa_set32 M h0 S i h v : words_are M h0 S h → Nat.Even i → (i + 3 < MAX_HDR)%nat → Forall byte M → g32 M i = v → words_are M h0 ((i + 2)%nat :: i :: S) (p32 h i v).
Proof.
  intros Hw Hi Hl Hb Hv. destruct (g32_words M i v Hb Hv) as [E1 E2]. assert (Nat.Even (i + 2)) by (destruct Hi as [j ->]; exists (j + 1)%nat; lia).
  apply wa_set16; [apply wa_set16; [done|done|lia|done]|done|lia|done].
Qed.

Lemma wa_same32 M h0 S i h : words_are M h0 S h → Forall byte h0 → Forall byte M → g32 h0 i = g32 M i → words_are M h0 ((i + 2)%nat :: i :: S) h.
Proof.
  intros Hw H0 HM E. destruct (g32_words M i _ HM eq_refl) as [E1 E2], (g32_words h0 i _ H0 eq_refl) as [E3 E4]. rewrite E in E3, E4.
  apply wa_same; [apply wa_same; [done|]|]; congruence.
Qed.

(** A word that is not of [S] is still that of [h0]. *)
Lemma wa_old M h0 S h k : words_are M h0 S h → Nat.Even k → (k < MAX_HDR)%nat → k ∉ S → g16 h k = g16 h0 k.
Proof. intros [_ _ H3] Hk Hl Hn. rewrite H3 by done. by rewrite bool_decide_false. Qed.

Lemma wa_old32 M h0 S h k : words_are M h0 S h → Nat.Even k → (k + 2 < MAX_HDR)%nat → k ∉ S → (k + 2)%nat ∉ S → g32 h k = g32 h0 k.
Proof.
  intros Hw Hk Hl H1 H2. unfold g32. rewrite (wa_old _ _ _ _ _ Hw Hk) by (done || lia). rewrite (wa_old _ _ _ _ (k + 2) Hw); [done| |lia|done].
  destruct Hk as [j ->]. exists (j + 1)%nat. lia.
Qed.

(** A word that is not of those set. *)
Ltac old_word HS :=
  let Hin := fresh in intros Hin; set_unfold;
  repeat (lazymatch type of Hin with _ ∨ _ => destruct Hin as [?|Hin]; [lia|] end);
  specialize (HS _ Hin); lia.

(** ** The differences of a packet *)

Section deltas.
Context (M H : list Z) (t : nat) (HM : Forall byte M) (HH : Forall byte H) (Hlen : (t + 20 ≤ length M)%nat) (HlenH : length H = MAX_HDR) (Ht : Nat.Even t) (Ht60 : (t ≤ 60)%nat).

Definition urg : bool := negb (Z.land (g8 M (t + 13)) TH_URG =? 0).
Definition dW : Z := (g16 M (t + 14) - g16 H (t + 14)) mod 65536.
Definition dA : Z := sub32 (g32 M (t + 8)) (g32 H (t + 8)).
Definition dS : Z := sub32 (g32 M (t + 4)) (g32 H (t + 4)).
Definition enc (b : bool) (l : list Z) : list Z := if b then l else [].
Definition deltas_cp : list Z := enc urg (ENCODEZ (g16 M (t + 18))) ++ enc (negb (dW =? 0)) (ENCODE dW) ++ enc (negb (dA =? 0)) (ENCODE dA) ++ enc (negb (dS =? 0)) (ENCODE dS).
Definition mask (u w a s : bool) : Z := Z.b2z u + 2 * Z.b2z w + 4 * Z.b2z a + 8 * Z.b2z s.

Lemma seq_deltas_ok : seq_deltas M H t = Ok (
  if (negb urg && negb (g16 M (t + 18) =? g16 H (t + 18))) || (65535 <? dA) || (65535 <? dS) then None
  else Some (deltas_cp, mask urg (negb (dW =? 0)) (negb (dA =? 0)) (negb (dS =? 0)), dS, dA)).
Proof.
  unfold seq_deltas. assert (t + 20 ≤ length H)%nat by (rewrite HlenH; unfold MAX_HDR; lia). rewrite get8_ok, !get16_ok, !get32_ok by lia. cbn [mbind res_bind].
  fold dA dS dW. unfold deltas_cp, urg. destruct (Z.land (g8 M (t + 13)) TH_URG =? 0); cbn [negb andb orb enc app].
  - destruct (negb (g16 M (t + 18) =? g16 H (t + 18))); [done|]. destruct (dW =? 0); cbn [negb enc app]; (destruct (65535 <? dA); [done|]); destruct (dA =? 0); cbn [negb enc app];
      (destruct (65535 <? dS); [done|]); destruct (dS =? 0); cbn [negb enc app]; rewrite ?app_nil_r, ?app_assoc; done.
  - destruct (dW =? 0); cbn [negb enc app]; (destruct (65535 <? dA); [done|]); destruct (dA =? 0); cbn [negb enc app];
      (destruct (65535 <? dS); [done|]); destruct (dS =? 0); cbn [negb enc app]; rewrite ?app_nil_r, ?app_assoc; done.
Qed.

(** ** The receiver's side *)

Context (R : list Z) (HR : Forall byte R) (HlenR : length R = MAX_HDR)
  (Hseq : g32 R (t + 4) = g32 H (t + 4)) (Hack : g32 R (t + 8) = g32 H (t + 8)) (Hwin : g16 R (t + 14) = g16 H (t + 14)) (Hurp : g16 R (t + 18) = g16 H (t + 18)).

Lemma even_t n : Nat.Even n → Nat.Even (t + n).
Proof using Ht. clear -Ht. intros [j ->]. destruct Ht as [i ->]. exists (i + j)%nat. lia. Qed.

(** Both bytes of the word of the flags are the packet's. *)
Lemma wa_flag S h v : words_are M R S h → g8 h (t + 12) = g8 M (t + 12) → v mod 256 = g8 M (t + 13) → words_are M R ((t + 12)%nat :: S) (p8 h (t + 13) v).
Proof.
  intros [H1 H2 H3] E Hv. assert (Nat.Even (t + 12)) as He by (apply even_t; by exists 6%nat). constructor; [by rewrite length_p8|by apply bytes_p8|]. intros k Hk Hl. destruct (decide (k = t + 12)%nat) as [->|Hne].
  - rewrite bool_decide_true by left. unfold g16. replace (Datatypes.S (t + 12)) with (t + 13)%nat by lia. rewrite g8_p8_ne by lia. rewrite g8_p8_eq by (rewrite H1; unfold MAX_HDR; lia). by rewrite E, Hv.
  - destruct (even_apart k (t + 12) Hk He Hne). rewrite g16_p8_ne by lia. rewrite H3 by done. by rewrite (bool_decide_ext (k ∈ S) (k ∈ (t + 12)%nat :: S)) by set_solver.
Qed.

Lemma add_sub_u32 a b : is_u32 a → is_u32 b → add32 b (sub32 a b) = a.
Proof. clear. intros Ha Hb. unfold add32, sub32, u32, is_u32, W32 in *. rewrite Zplus_mod_idemp_r. replace (b + (a - b)) with a by lia. by apply Z.mod_small. Qed.

Lemma sub_zero_u32 a b : is_u32 a → is_u32 b → sub32 a b = 0 → a = b.
Proof. clear. intros Ha Hb E. rewrite <- (add_sub_u32 a b Ha Hb), E. unfold add32, u32, is_u32, W32 in *. rewrite Z.add_0_r. by apply Z.mod_small. Qed.

Lemma small_mod d : 0 ≤ d ≤ 65535 → d mod 65536 = d.
Proof. clear. intros. apply Z.mod_small. lia. Qed.

(** A field of four bytes gets its difference, if there is one. *)
Lemma decode_field i S h rest (b : bool) : words_are M R S h → Nat.Even i → (i + 3 < MAX_HDR)%nat → g32 R i = g32 H i → i ∉ S → (i + 2)%nat ∉ S →
  sub32 (g32 M i) (g32 H i) ≤ 65535 → b = (sub32 (g32 M i) (g32 H i) =? 0) →
  ∃ h', (if b then Ok (h, enc (negb b) (ENCODE (sub32 (g32 M i) (g32 H i))) ++ rest) else DECODEL h i (enc (negb b) (ENCODE (sub32 (g32 M i) (g32 H i))) ++ rest)) = Ok (h', rest) ∧
    words_are M R ((i + 2)%nat :: i :: S) h'.
Proof.
  intros Hw Hi Hl ER Hn1 Hn2 Hd ->. pose proof (g32_range M i HM) as HMr. pose proof (g32_range H i HH) as HHr. destruct (Z.eqb_spec (sub32 (g32 M i) (g32 H i)) 0) as [E|E]; cbn [negb enc].
  - exists h. split; [done|]. apply wa_same32; [done|done|done|]. rewrite ER. symmetry. by apply sub_zero_u32.
  - pose proof (u32_range (g32 M i - g32 H i)) as Hr. fold (sub32 (g32 M i) (g32 H i)) in Hr. unfold is_u32 in Hr. unfold DECODEL. rewrite decode_ENCODE by (rewrite small_mod by lia; done). cbn [mbind res_bind].
    rewrite small_mod by lia. rewrite get32_ok by (rewrite (wa_len _ _ _ _ Hw); lia). cbn [mbind res_bind]. rewrite (wa_old32 _ _ _ _ _ Hw Hi) by (done || lia). rewrite ER, add_sub_u32 by done.
    rewrite set32_ok by (rewrite (wa_len _ _ _ _ Hw); lia). cbn [mbind res_bind]. eexists. split; [done|]. by apply wa_set32.
Qed.

Lemma apply_plain S h f n v rest : words_are M R S h → (∀ k, k ∈ S → k = (t + 16)%nat) → g8 h (t + 12) = g8 M (t + 12) →
  (if urg then Z.lor (f mod 256) TH_URG else Z.ldiff (f mod 256) TH_URG) mod 256 = g8 M (t + 13) →
  Z.land v 15 ≠ SPECIAL_I → Z.land v 15 ≠ SPECIAL_D → (Z.land v NEW_U =? 0) = negb urg → (Z.land v NEW_W =? 0) = (dW =? 0) → (Z.land v NEW_A =? 0) = (dA =? 0) → (Z.land v NEW_S =? 0) = (dS =? 0) →
  dA ≤ 65535 → dS ≤ 65535 → (urg = false → g16 M (t + 18) = g16 H (t + 18)) →
  ∃ h', apply_changes (p8 h (t + 13) f) n t v (deltas_cp ++ rest) = Ok (h', rest) ∧
    words_are M R (([t + 4 + 2; t + 4; t + 8 + 2; t + 8; t + 14; t + 18; t + 12] ++ S)%nat) h'.
Proof.
  intros Hw HS Hhi Hf Hs1 Hs2 Hu Hww Ha Hs HdA HdS Hnu. unfold apply_changes. change SPECIALS_MASK with 15. rewrite (proj2 (Z.eqb_neq _ _) Hs1), (proj2 (Z.eqb_neq _ _) Hs2).
  assert (t + 19 < MAX_HDR)%nat as Hmax by (unfold MAX_HDR; lia). unfold set_th_flag.
  rewrite get8_ok by (rewrite length_p8, (wa_len _ _ _ _ Hw); lia). cbn [mbind res_bind]. rewrite g8_p8_eq by (rewrite (wa_len _ _ _ _ Hw); lia).
  rewrite set8_ok by (rewrite length_p8, (wa_len _ _ _ _ Hw); lia). cbn [mbind res_bind]. rewrite Hu, negb_involutive.
  assert (p8 (p8 h (t + 13) f) (t + 13) (if urg then Z.lor (f mod 256) TH_URG else Z.ldiff (f mod 256) TH_URG) = p8 h (t + 13) (if urg then Z.lor (f mod 256) TH_URG else Z.ldiff (f mod 256) TH_URG)) as -> by apply list_insert_insert_eq.
  pose proof (wa_flag S h _ Hw Hhi Hf) as Hw1. set (h1 := p8 h (t + 13) _) in *. unfold deltas_cp. rewrite <- !app_assoc.
  assert (∃ h2, (if negb urg then Ok (h1, enc urg (ENCODEZ (g16 M (t + 18))) ++ enc (negb (dW =? 0)) (ENCODE dW) ++ enc (negb (dA =? 0)) (ENCODE dA) ++ enc (negb (dS =? 0)) (ENCODE dS) ++ rest)
      else DECODEU h1 (t + 18) (enc urg (ENCODEZ (g16 M (t + 18))) ++ enc (negb (dW =? 0)) (ENCODE dW) ++ enc (negb (dA =? 0)) (ENCODE dA) ++ enc (negb (dS =? 0)) (ENCODE dS) ++ rest)) =
      Ok (h2, enc (negb (dW =? 0)) (ENCODE dW) ++ enc (negb (dA =? 0)) (ENCODE dA) ++ enc (negb (dS =? 0)) (ENCODE dS) ++ rest) ∧ words_are M R ((t + 18)%nat :: (t + 12)%nat :: S) h2) as (h2 & -> & Hw2).
  { destruct urg eqn:Eu; cbn [negb enc app].
    - unfold DECODEU. rewrite decode_ENCODEZ. cbn [mbind res_bind]. rewrite set16_ok by (rewrite (wa_len _ _ _ _ Hw1); lia). cbn [mbind res_bind]. eexists. split; [done|].
      apply wa_set16; [done|apply even_t; by exists 9%nat|lia|]. by rewrite Zmod_mod, Z.mod_small by (by apply g16_range).
    - exists h1. split; [done|]. apply wa_same; [done|]. rewrite Hurp. symmetry. auto. }
  cbn [mbind res_bind]. rewrite Hww.
  assert (∃ h3, (if dW =? 0 then Ok (h2, enc (negb (dW =? 0)) (ENCODE dW) ++ enc (negb (dA =? 0)) (ENCODE dA) ++ enc (negb (dS =? 0)) (ENCODE dS) ++ rest)
      else DECODES h2 (t + 14) (enc (negb (dW =? 0)) (ENCODE dW) ++ enc (negb (dA =? 0)) (ENCODE dA) ++ enc (negb (dS =? 0)) (ENCODE dS) ++ rest)) =
      Ok (h3, enc (negb (dA =? 0)) (ENCODE dA) ++ enc (negb (dS =? 0)) (ENCODE dS) ++ rest) ∧ words_are M R ((t + 14)%nat :: (t + 18)%nat :: (t + 12)%nat :: S) h3) as (h3 & -> & Hw3).
  { pose proof (g16_range M (t + 14) HM) as HMr. pose proof (g16_range H (t + 14) HH) as HHr. destruct (Z.eqb_spec dW 0) as [E|E]; cbn [negb enc app].
    - exists h2. split; [done|]. apply wa_same; [done|]. rewrite Hwin. unfold dW in E. pose proof (Z.div_mod (g16 M (t + 14) - g16 H (t + 14)) 65536). lia.
    - unfold DECODES. assert (dW mod 65536 = dW) as EdW by apply Zmod_mod. rewrite decode_ENCODE by (by rewrite EdW). cbn [mbind res_bind]. rewrite EdW.
      rewrite get16_ok by (rewrite (wa_len _ _ _ _ Hw2); lia). cbn [mbind res_bind]. assert (Nat.Even (t + 14)) by (apply even_t; by exists 7%nat).
      rewrite (wa_old _ _ _ _ (t + 14) Hw2); [|done|lia|old_word HS].
      rewrite set16_ok by (rewrite (wa_len _ _ _ _ Hw2); lia). cbn [mbind res_bind]. eexists. split; [done|]. apply wa_set16; [done|done|lia|].
      rewrite Hwin. unfold dW. rewrite Zplus_mod_idemp_r. replace (g16 H (t + 14) + (g16 M (t + 14) - g16 H (t + 14))) with (g16 M (t + 14)) by lia. by apply Z.mod_small. }
  cbn [mbind res_bind].
  destruct (decode_field (t + 8) _ h3 (enc (negb (dS =? 0)) (ENCODE dS) ++ rest) (Z.land v NEW_A =? 0) Hw3) as (h4 & E4 & Hw4); [apply even_t; by exists 4%nat|lia|done|..|exact HdA|exact Ha|].
  { old_word HS. }
  { old_word HS. }
  fold dA in E4. rewrite Ha in E4 |- *. rewrite E4. cbn [mbind res_bind].
  destruct (decode_field (t + 4) _ h4 rest (Z.land v NEW_S =? 0) Hw4) as (h5 & E5 & Hw5); [apply even_t; by exists 2%nat|lia|done|..|exact HdS|exact Hs|].
  { old_word HS. }
  { old_word HS. }
  fold dS in E5. rewrite Hs in E5 |- *. exists h5. by split.
Qed.

Lemma dW_zero : dW = 0 → g16 M (t + 14) = g16 H (t + 14).
Proof.
  intros E. pose proof (g16_range M (t + 14) HM). pose proof (g16_range H (t + 14) HH). unfold dW in E. pose proof (Z.div_mod (g16 M (t + 14) - g16 H (t + 14)) 65536). lia.
Qed.

(** The window and the urgent pointer are those of before. *)
Lemma wa_special S h f : words_are M R S h → g8 h (t + 12) = g8 M (t + 12) → f mod 256 = g8 M (t + 13) → dW = 0 → g16 M (t + 18) = g16 H (t + 18) →
  words_are M R ((t + 14)%nat :: (t + 18)%nat :: (t + 12)%nat :: S) (p8 h (t + 13) f).
Proof.
  intros Hw Hhi Hf HW Hu. apply wa_same; [apply wa_same; [by apply wa_flag|congruence]|]. rewrite Hwin. symmetry. by apply dW_zero.
Qed.

Lemma add32_old i S h d : words_are M R S h → Nat.Even i → (i + 3 < MAX_HDR)%nat → g32 R i = g32 H i → i ∉ S → (i + 2)%nat ∉ S → d = sub32 (g32 M i) (g32 H i) →
  get32 h i = Ok (g32 H i) ∧ set32 h i (add32 (g32 H i) d) = Ok (p32 h i (g32 M i)) ∧ words_are M R ((i + 2)%nat :: i :: S) (p32 h i (g32 M i)).
Proof.
  intros Hw Hi Hl ER H1 H2 ->. rewrite get32_ok, set32_ok by (rewrite (wa_len _ _ _ _ Hw); lia). rewrite (wa_old32 _ _ _ _ _ Hw), ER by (done || lia).
  rewrite add_sub_u32 by (by apply g32_range). split_and!; [done|done|]. by apply wa_set32.
Qed.

Context (Ht20 : (20 ≤ t)%nat).

Lemma apply_special_I S h f n v rest : words_are M R S h → (∀ k, k ∈ S → k = (t + 16)%nat) → g8 h (t + 12) = g8 M (t + 12) → f mod 256 = g8 M (t + 13) →
  Z.land v 15 = SPECIAL_I → dW = 0 → g16 M (t + 18) = g16 H (t + 18) → dS = dA → dS = sub32 (ip_len_of (g16 R 2)) n →
  ∃ h', apply_changes (p8 h (t + 13) f) n t v rest = Ok (h', rest) ∧
    words_are M R (([t + 4 + 2; t + 4; t + 8 + 2; t + 8; t + 14; t + 18; t + 12] ++ S)%nat) h'.
Proof.
  intros Hw HS Hhi Hf Hv HW Hu Hda Hdn. pose proof (wa_special S h f Hw Hhi Hf HW Hu) as Hw1. set (h1 := p8 h (t + 13) f) in *. assert (t + 19 < MAX_HDR)%nat as Hmax by (unfold MAX_HDR; lia).
  unfold apply_changes. change SPECIALS_MASK with 15. rewrite Hv. change (SPECIAL_I =? SPECIAL_I) with true. cbv iota. rewrite get16_ok by (rewrite (wa_len _ _ _ _ Hw1); unfold MAX_HDR; lia). cbn [mbind res_bind].
  rewrite (wa_old _ _ _ _ 2 Hw1); [|by exists 1%nat|unfold MAX_HDR; lia|old_word HS].
  rewrite <- Hdn. destruct (add32_old (t + 8) _ h1 dS Hw1) as (E1 & E2 & Hw2); [apply even_t; by exists 4%nat|lia|done|..|done|].
  { old_word HS. }
  { old_word HS. }
  rewrite E1. cbn [mbind res_bind]. rewrite E2. cbn [mbind res_bind].
  destruct (add32_old (t + 4) _ _ dS Hw2) as (E3 & E4 & Hw3); [apply even_t; by exists 2%nat|lia|done|..|done|].
  { old_word HS. }
  { old_word HS. }
  rewrite E3. cbn [mbind res_bind]. rewrite E4. cbn [mbind res_bind]. by eexists.
Qed.

Lemma sub_len_small l n d : 0 ≤ l < 65536 → 0 ≤ n < 256 → d ≤ 65535 → d = sub32 (ip_len_of l) n → ∀ s, is_u32 s → sub32 (add32 s l) n = add32 s d.
Proof.
  clear. intros Hl Hn Hd -> s Hs. unfold sub32, add32, ip_len_of, u32, is_u32, W32 in *. destruct (Z.ltb_spec l 32768) as [H|H].
  - rewrite (Z.mod_small l) in * by lia. rewrite Zminus_mod_idemp_l, Zplus_mod_idemp_r. f_equal. lia.
  - exfalso. rewrite Zminus_mod_idemp_l in Hd. replace (l - 65536 - n) with (4294967296 + l - 65536 - n + (-1) * 4294967296) in Hd by lia. rewrite Z_mod_plus_full, Z.mod_small in Hd; lia.
Qed.

Lemma apply_special_D S h f n v rest : words_are M R S h → (∀ k, k ∈ S → k = (t + 16)%nat) → g8 h (t + 12) = g8 M (t + 12) → f mod 256 = g8 M (t + 13) →
  Z.land v 15 = SPECIAL_D → dW = 0 → g16 M (t + 18) = g16 H (t + 18) → dA = 0 → 0 ≤ n < 256 → dS ≤ 65535 → dS = sub32 (ip_len_of (g16 R 2)) n →
  ∃ h', apply_changes (p8 h (t + 13) f) n t v rest = Ok (h', rest) ∧
    words_are M R (([t + 4 + 2; t + 4; t + 8 + 2; t + 8; t + 14; t + 18; t + 12] ++ S)%nat) h'.
Proof.
  intros Hw HS Hhi Hf Hv HW Hu Hda Hn Hds Hdn. pose proof (wa_special S h f Hw Hhi Hf HW Hu) as Hw1. set (h1 := p8 h (t + 13) f) in *. assert (t + 19 < MAX_HDR)%nat as Hmax by (unfold MAX_HDR; lia).
  unfold apply_changes. change SPECIALS_MASK with 15. rewrite Hv. change (SPECIAL_D =? SPECIAL_I) with false. change (SPECIAL_D =? SPECIAL_D) with true. cbv iota.
  rewrite get16_ok by (rewrite (wa_len _ _ _ _ Hw1); unfold MAX_HDR; lia). cbn [mbind res_bind].
  rewrite (wa_old _ _ _ _ 2 Hw1); [|by exists 1%nat|unfold MAX_HDR; lia|old_word HS].
  assert (words_are M R ((t + 8 + 2)%nat :: (t + 8)%nat :: (t + 14)%nat :: (t + 18)%nat :: (t + 12)%nat :: S) h1) as Hw2.
  { apply wa_same32; [done|done|done|]. rewrite Hack. symmetry. apply sub_zero_u32; [by apply g32_range|by apply g32_range|done]. }
  destruct (add32_old (t + 4) _ _ dS Hw2) as (E3 & E4 & Hw3); [apply even_t; by exists 2%nat|lia|done|..|done|].
  { old_word HS. }
  { old_word HS. }
  rewrite E3. cbn [mbind res_bind]. rewrite (sub_len_small _ _ _ (g16_range R 2 HR) Hn Hds Hdn) by (by apply g32_range). rewrite E4. cbn [mbind res_bind]. by eexists.
Qed.
End deltas.

(** ** The parts of a header *)

Definition hl_of (h : list Z) : nat := Z.to_nat (Z.land (g8 h 0) 15).
Definition t_of (h : list Z) : nat := (4 * hl_of h)%nat.
Definition off_of (h : list Z) : nat := Z.to_nat (Z.shiftr (g8 h (t_of h + 12)) 4).
Definition hlen_of (h : list Z) : nat := (4 * (hl_of h + off_of h))%nat.
Definition flags_of (h : list Z) : Z := g8 h (t_of h + 13).

(** A header of a packet that is neither the start nor the end of a conversation, with the
    urgent pointer of RFC 793 when it has one, and no bit set that the protocol reserves. *)
Record hdr_ok (h : list Z) : Prop := {
  ho_hl : (5 ≤ hl_of h)%nat;
  ho_off : (5 ≤ off_of h)%nat;
  ho_x2 : g8 h (t_of h + 12) mod 16 = 0;
  ho_flags : flags_of h ∈ [16; 24; 48; 56];
  ho_urg : (Z.land (flags_of h) TH_URG =? 0) = (g16 h (t_of h + 18) =? 0)
}.

Lemma land15 b : 0 ≤ Z.land b 15 < 16.
Proof. change 15 with (Z.ones 4). rewrite Z.land_ones by lia. by apply Z.mod_pos_bound. Qed.
Lemma hl_of_lt h : (hl_of h < 16)%nat.
Proof. unfold hl_of. pose proof (land15 (g8 h 0)). lia. Qed.
Lemma shiftr4 b : byte b → 0 ≤ Z.shiftr b 4 < 16 ∧ b = Z.shiftr b 4 * 16 + b mod 16.
Proof.
  intros Hb. rewrite Z.shiftr_div_pow2 by lia. change (2 ^ 4) with 16. unfold byte in Hb. pose proof (Z.div_mod b 16). pose proof (Z.mod_pos_bound b 16). lia.
Qed.
Lemma off_of_lt h : Forall byte h → (off_of h < 16)%nat.
Proof. intros H. unfold off_of. destruct (shiftr4 _ (bytes_g8 h (t_of h + 12) H)). lia. Qed.
Lemma hlen_of_le h : Forall byte h → (hlen_of h ≤ 120)%nat.
Proof. intros H. unfold hlen_of. pose proof (hl_of_lt h). pose proof (off_of_lt h H). lia. Qed.
Lemma t_of_even h : Nat.Even (t_of h).
Proof. unfold t_of. exists (2 * hl_of h)%nat. lia. Qed.
Lemma hlen_of_even h : Nat.Even (hlen_of h).
Proof. unfold hlen_of. exists (2 * (hl_of h + off_of h))%nat. lia. Qed.

(** Headers with the same bytes have the same parts. *)
Lemma same_parts h h' n : (∀ i, (i < n)%nat → g8 h' i = g8 h i) → (t_of h + 20 ≤ n)%nat →
  hl_of h' = hl_of h ∧ t_of h' = t_of h ∧ off_of h' = off_of h ∧ hlen_of h' = hlen_of h ∧ flags_of h' = flags_of h ∧ (hdr_ok h → hdr_ok h').
Proof.
  intros E Hn. assert (hl_of h' = hl_of h) as E1 by (unfold hl_of; by rewrite E by lia). assert (t_of h' = t_of h) as E2 by (unfold t_of; by rewrite E1).
  assert (off_of h' = off_of h) as E3 by (unfold off_of; by rewrite E2, E by lia). assert (flags_of h' = flags_of h) as E4 by (unfold flags_of; by rewrite E2, E by lia).
  split_and!; [done|done|done|unfold hlen_of; by rewrite E1, E3|done|]. intros [H1 H2 H3 H4 H5].
  constructor; rewrite ?E1, ?E3, ?E4, ?E2; [done|done|by rewrite E by lia|done|]. unfold g16. by rewrite !E by lia.
Qed.

(** A property of small numbers, by evaluation. *)
Lemma below (P : Z → Prop) `{∀ m, Decision (P m)} n : bool_decide (Forall P (seqZ 0 n)) = true → ∀ m, 0 ≤ m < n → P m.
Proof. intros Hd%bool_decide_eq_true m Hm. apply (proj1 (list.Forall_forall _ _) Hd m). apply elem_of_seqZ. lia. Qed.

Ltac by_below := match goal with |- ∀ m : Z, 0 ≤ m < ?n → @?P m => apply (below P n); vm_compute; done end.

Lemma flags_in f : 0 ≤ f < 64 → Z.land f (Z.lor TH_SYN (Z.lor TH_FIN (Z.lor TH_RST TH_ACK))) = TH_ACK → f ∈ [16; 24; 48; 56].
Proof. intros Hf. assert (∀ f, 0 ≤ f < 64 → Z.land f 23 ≠ 16 ∨ f ∈ [16; 24; 48; 56]) as H by by_below. change (Z.lor _ _) with 23. destruct (H f Hf); done. Qed.

(** The flags that the receiver makes from those of before. *)
Lemma flags_made f g : f ∈ [16; 24; 48; 56] → g ∈ [16; 24; 48; 56] →
  let p := if negb (Z.land f TH_PUSH =? 0) then Z.lor g TH_PUSH else Z.ldiff g TH_PUSH in
  (if negb (Z.land f TH_URG =? 0) then Z.lor (p mod 256) TH_URG else Z.ldiff (p mod 256) TH_URG) mod 256 = f ∧
  ((Z.land f TH_URG =? 0) = (Z.land g TH_URG =? 0) → p mod 256 = f).
Proof.
  intros Hf Hg. set_unfold. destruct Hf as [->|[->|[->|[->|[]]]]], Hg as [->|[->|[->|[->|[]]]]]; vm_compute; split; (done || intros; done).
Qed.

(** ** The mask *)

Lemma mask_range u w a s : 0 ≤ mask u w a s < 16.
Proof. destruct u, w, a, s; vm_compute; split; (done || intros; done). Qed.

Lemma mask_fields u w a s : (Z.land (mask u w a s) NEW_U =? 0) = negb u ∧ (Z.land (mask u w a s) NEW_W =? 0) = negb w ∧ (Z.land (mask u w a s) NEW_A =? 0) = negb a ∧ (Z.land (mask u w a s) NEW_S =? 0) = negb s.
Proof. destruct u, w, a, s; by vm_compute. Qed.

(** The byte that is sent. *)
Definition sent (m : Z) (i p c : bool) : Z := m + (if i then 32 else 0) + (if p then 16 else 0) + (if c then 64 else 0).

Lemma sent_made m (i p c : bool) : 0 ≤ m < 16 →
  (let v := if i then Z.lor m NEW_I else m in let v := if p then Z.lor v TCP_PUSH_BIT else v in (if c then Z.lor v NEW_C else v) mod 256) = sent m i p c.
Proof. revert m. destruct i, p, c; by_below. Qed.

Lemma sent_fields m (i p c : bool) : 0 ≤ m < 16 →
  let v := sent m i p c in Z.land v 15 = m ∧ (Z.land v NEW_I =? 0) = negb i ∧ (Z.land v TCP_PUSH_BIT =? 0) = negb p ∧ (Z.land v NEW_C =? 0) = negb c ∧
  Z.land v NEW_U = Z.land m NEW_U ∧ Z.land v NEW_W = Z.land m NEW_W ∧ Z.land v NEW_A = Z.land m NEW_A ∧ Z.land v NEW_S = Z.land m NEW_S.
Proof. revert m. destruct i, p, c; by_below. Qed.

(** ** What [find_deltas] says *)

Section told.
Context (M H : list Z) (HM : Forall byte M) (HH : Forall byte H) (HlenH : length H = MAX_HDR) (Ho : hdr_ok M) (Hhl : (hlen_of M ≤ length M)%nat).
Abbreviation t := (t_of M).
Abbreviation hlen := (hlen_of M).

Lemma t_bounds : (20 ≤ t ∧ t ≤ 60 ∧ t + 20 ≤ hlen ∧ hlen ≤ 120 ∧ t + 20 ≤ length M)%nat.
Proof using HM Ho Hhl. clear -HM Ho Hhl. pose proof (ho_hl _ Ho). pose proof (ho_off _ Ho). pose proof (hl_of_lt M). pose proof (hlen_of_le M HM). unfold hlen_of, t_of in *. lia. Qed.

(** What must be as before. *)
Record fixed : Prop := {
  fx_vhl : g16 M 0 = g16 H 0;
  fx_frag : g16 M 6 = g16 H 6;
  fx_ttl : g16 M 8 = g16 H 8;
  fx_off : Z.shiftr (g8 M (t + 12)) 4 = Z.shiftr (g8 H (t + 12)) 4;
  fx_ipopt k : Nat.Even k → (20 ≤ k < t)%nat → g16 M k = g16 H k;
  fx_tcpopt k : Nat.Even k → (t + 20 ≤ k < hlen)%nat → g16 M k = g16 H k
}.

Lemma same_range i n : Nat.Even i → Nat.Even n → (i + n ≤ length M)%nat → (i + n ≤ length H)%nat → take n (drop i M) = take n (drop i H) → ∀ k, Nat.Even k → (i ≤ k < i + n)%nat → g16 M k = g16 H k.
Proof.
  intros [a ->] [b ->] H1 H2 E k [c ->] Hk. pose proof (range_eq M H (2 * a) b HM HH H1 H2 E (c - a)) as Hr. replace (2 * a + 2 * (c - a))%nat with (2 * c)%nat in Hr by lia. apply Hr. lia.
Qed.

Lemma same_fixed_ok : ∃ b, same_fixed M H t hlen = Ok b ∧ (b = true → fixed).
Proof.
  pose proof t_bounds as Hb. destruct (t_of_even M) as [a Ea], (hlen_of_even M) as [b Eb]. unfold same_fixed. assert (length H = 128%nat) as HlH by done.
  rewrite !get16_ok by lia. cbn [mbind res_bind]. destruct (Z.eqb_spec (g16 M 0) (g16 H 0)) as [E0|]; [|by exists false]. destruct (Z.eqb_spec (g16 M 6) (g16 H 6)) as [E6|]; [|by exists false].
  destruct (Z.eqb_spec (g16 M 8) (g16 H 8)) as [E8|]; [|by exists false]. cbn [negb]. rewrite !get8_ok by lia. cbn [mbind res_bind].
  destruct (Z.eqb_spec (Z.shiftr (g8 M (t + 12)) 4) (Z.shiftr (g8 H (t + 12)) 4)) as [Eo|]; [|by exists false]. cbn [negb]. rewrite !getn_ok by lia. cbn [mbind res_bind].
  case_bool_decide as E1; [|by exists false]. cbn [negb]. eexists. split; [done|]. intros E2%bool_decide_eq_true. constructor; [done|done|done|done|..].
  - intros k Hk Hl. apply (same_range 20 (t - 20)); [by exists 10%nat|exists (a - 10)%nat; lia|lia|lia|done|done|lia].
  - intros k Hk Hl. apply (same_range (t + 20) (hlen - (t + 20))); [exists (a + 10)%nat; lia|exists (b - a - 10)%nat; lia|lia|lia|done|done|lia].
Qed.

Definition dI : Z := u32 (g16 M 4 - g16 H 4).
Definition data : Z := sub32 (ip_len_of (g16 H 2)) (Z.of_nat hlen).

(** The mask and the numbers, but for the number of the datagram. *)
Inductive told : Z → list Z → Prop :=
  | told_plain m : m = mask (urg M t) (negb (dW M H t =? 0)) (negb (dA M H t =? 0)) (negb (dS M H t =? 0)) → m ≠ SPECIAL_I → m ≠ SPECIAL_D → dA M H t ≤ 65535 → dS M H t ≤ 65535 →
      (urg M t = false → g16 M (t + 18) = g16 H (t + 18)) → told m (deltas_cp M H t)
  | told_I : urg M t = false → g16 M (t + 18) = g16 H (t + 18) → dW M H t = 0 → dS M H t = dA M H t → dS M H t = data → told SPECIAL_I []
  | told_D : urg M t = false → g16 M (t + 18) = g16 H (t + 18) → dW M H t = 0 → dA M H t = 0 → dS M H t ≤ 65535 → dS M H t = data → told SPECIAL_D [].

Lemma told_range m cp : told m cp → 0 ≤ m < 16.
Proof. intros [? -> | |]; [apply mask_range|by vm_compute|by vm_compute]. Qed.

Lemma mask_SA u w a s : mask u w a s = Z.lor NEW_S NEW_A → u = false ∧ w = false ∧ a = true ∧ s = true.
Proof. destruct u, w, a, s; vm_compute; intros; done. Qed.
Lemma mask_S u w a s : mask u w a s = NEW_S → u = false ∧ w = false ∧ a = false ∧ s = true.
Proof. destruct u, w, a, s; vm_compute; intros; done. Qed.

Lemma negb_eqb_false x : negb (x =? 0) = false → x = 0.
Proof. clear. destruct (Z.eqb_spec x 0); done. Qed.

Lemma special_case_ok : dA M H t ≤ 65535 → dS M H t ≤ 65535 → (urg M t = false → g16 M (t + 18) = g16 H (t + 18)) →
  let m0 := mask (urg M t) (negb (dW M H t =? 0)) (negb (dA M H t =? 0)) (negb (dS M H t =? 0)) in
  special_case M H hlen (deltas_cp M H t) m0 (dS M H t) (dA M H t) = Ok None ∨
  ∃ m cp, special_case M H hlen (deltas_cp M H t) m0 (dS M H t) (dA M H t) = Ok (Some (cp, m)) ∧ told m cp.
Proof.
  intros HA HS HU m0. pose proof t_bounds as Hb. assert (length H = 128%nat) as HlH by done. unfold special_case. rewrite !get16_ok by lia. cbn [mbind res_bind]. fold data.
  destruct (Z.eqb_spec m0 0) as [E0|E0].
  { destruct (_ && _); [right|by left]. exists m0, (deltas_cp M H t). split; [done|]. constructor; try done; rewrite E0; done. }
  destruct (Z.eqb_spec m0 SPECIAL_I) as [EI|EI]; [by left|]. destruct (Z.eqb_spec m0 SPECIAL_D) as [ED|ED]; [by left|]. cbn [orb].
  assert (told m0 (deltas_cp M H t)) as Hp by by constructor. right. destruct (Z.eqb_spec m0 (Z.lor NEW_S NEW_A)) as [ESA|ESA].
  { destruct (Z.eqb_spec (dS M H t) (dA M H t)) as [E1|E1]; cbn [andb]; [|by eauto]. destruct (Z.eqb_spec (dS M H t) data) as [E2|E2]; [|by eauto].
    apply mask_SA in ESA as (Eu & Ew & _ & _). do 2 eexists. split; [done|]. apply told_I; [done|by apply HU|by apply negb_eqb_false|done|done]. }
  destruct (Z.eqb_spec m0 NEW_S) as [ES|ES]; [|by eauto]. destruct (Z.eqb_spec (dS M H t) data) as [E2|E2]; [|by eauto].
  apply mask_S in ES as (Eu & Ew & Ea & _). do 2 eexists. split; [done|]. apply told_D; [done|by apply HU|by apply negb_eqb_false|by apply negb_eqb_false|done|done].
Qed.

Definition push (h : list Z) : bool := negb (Z.land (flags_of h) TH_PUSH =? 0).
Definition told_mask (m : Z) : Z := let v := if negb (dI =? 1) then Z.lor m NEW_I else m in if push M then Z.lor v TCP_PUSH_BIT else v.

Lemma find_deltas_ok : find_deltas M H t hlen = Ok None ∨
  ∃ m cp, find_deltas M H t hlen = Ok (Some (cp ++ enc (negb (dI =? 1)) (ENCODEZ dI), told_mask m)) ∧ fixed ∧ told m cp.
Proof.
  pose proof t_bounds as Hb. assert (length H = 128%nat) as HlH by done. destruct same_fixed_ok as (b & Eb & Hf). unfold find_deltas. rewrite Eb. cbn [mbind res_bind]. destruct b; cbn [negb]; [|by left].
  rewrite (seq_deltas_ok M H t) by (done || lia). cbn [mbind res_bind]. destruct (_ || _) eqn:E; [by left|]. prop_bool.
  assert (urg M t = false → g16 M (t + 18) = g16 H (t + 18)) as HU.
  { intros EU. destruct (Z.eqb_spec (g16 M (t + 18)) (g16 H (t + 18))) as [|Hne]; [done|]. exfalso. rewrite EU in *. cbn in *. intuition congruence. }
  destruct special_case_ok as [->|(m & cp & -> & Hm)]; [intuition lia|intuition lia|done|by left|]. cbn [mbind res_bind]. right. rewrite !get16_ok by lia. cbn [mbind res_bind]. fold dI.
  rewrite get8_ok by lia. exists m, cp. split; [|by split; [apply Hf|]]. unfold told_mask, push, flags_of. destruct (dI =? 1); cbn [negb enc mbind res_bind]; rewrite ?app_nil_r; by destruct (Z.land (g8 M (t + 13)) TH_PUSH =? 0).
Qed.
End told.
