(* ===== verification/VjSync.v ===== *)
(** * The slots of the two ends stay the same

    Over a line that loses no packet each one that the sender passes comes out of the receiver
    as it was, and the slots of both ends hold the same headers after it.  First what the
    receiver makes of a compressed packet whose slot holds the header before it. *)

From S2P Require Import Prelude Vj VjRing VjHead.

(** ** The sum of the header *)

Lemma ip_words_ext n : ∀ i h h', (i + 2 * n ≤ length h)%nat → (i + 2 * n ≤ length h')%nat → Nat.Even i → (∀ k, Nat.Even k → (i ≤ k < i + 2 * n)%nat → g16 h k = g16 h' k) → ip_words n i h = ip_words n i h'.
Proof.
  induction n as [|n IH]; intros i h h' H1 H2 He E; simpl; [done|]. rewrite !get16_ok by lia. cbn [mbind res_bind]. rewrite (E i) by (done || lia).
  rewrite (IH (i + 2)%nat h h'); [done|lia|lia|destruct He as [j ->]; exists (j + 1)%nat; lia|]. intros k Hk Hl. apply E; [done|lia].
Qed.

Lemma ip_cksum_ext h h' t : Nat.Even t → (t ≤ length h)%nat → (t ≤ length h')%nat → (∀ k, Nat.Even k → (k < t)%nat → g16 h k = g16 h' k) → ip_cksum h t = ip_cksum h' t.
Proof.
  intros [a ->] H1 H2 E. unfold ip_cksum. replace (2 * a / 2)%nat with a by (rewrite (Nat.mul_comm 2 a), Nat.div_mul by lia; done). rewrite (ip_words_ext a 0 h h'); [done|lia|lia|by exists 0%nat|]. intros k Hk Hl. apply E; [done|lia].
Qed.

(** ** The packets *)

(** A packet that the sender compresses. *)
Definition is_tcp (msg : list Z) : Prop := Z.land (g16 msg 6) 16383 = 0 ∧ (40 ≤ length msg)%nat ∧ g8 msg 9 = IPPROTO_TCP ∧ Z.land (flags_of msg) (Z.lor TH_SYN (Z.lor TH_FIN (Z.lor TH_RST TH_ACK))) = TH_ACK.

(** Such a packet is whole and its length and its sum are right. *)
Record whole (msg : list Z) : Prop := {
  wh_hdr : hdr_ok msg;
  wh_hlen : (hlen_of msg ≤ length msg)%nat;
  wh_len : g16 msg 2 = Z.of_nat (length msg);
  wh_sum : ip_cksum (p16 msg 10 0) (t_of msg) = Ok (g16 msg 10)
}.

(** ** What the receiver makes of a compressed packet *)

(** The receiver's header is the sender's, without the sum. *)
Definition agree (H R : list Z) : Prop := ∀ k, Nat.Even k → (k < hlen_of H)%nat → g16 R k = if bool_decide (k = 10%nat) then 0 else g16 H k.

Section recv.
Context (M H R : list Z) (HM : Forall byte M) (HH : Forall byte H) (HR : Forall byte R) (HlenH : length H = MAX_HDR) (HlenR : length R = MAX_HDR)
  (Hw : whole M) (HoH : hdr_ok H) (Hf : fixed M H) (Hsrc : g32 M 12 = g32 H 12) (Hdst : g32 M 16 = g32 H 16) (Hport : g32 M (t_of M) = g32 H (t_of H)) (Hag : agree H R).
Abbreviation t := (t_of M).
Abbreviation hlen := (hlen_of M).

Lemma bounds : (20 ≤ t ∧ t ≤ 60 ∧ t + 20 ≤ hlen ∧ hlen ≤ 120 ∧ t + 20 ≤ length M ∧ hlen ≤ length M ∧ hlen < MAX_HDR)%nat ∧ Nat.Even t ∧ Nat.Even hlen.
Proof.
  pose proof (t_bounds M HM (wh_hdr _ Hw) (wh_hlen _ Hw)) as Hb. pose proof (wh_hlen _ Hw). assert (MAX_HDR = 128%nat) as -> by done.
  split; [lia|]. split; [apply t_of_even|apply hlen_of_even].
Qed.

Lemma parts : hl_of H = hl_of M ∧ t_of H = t ∧ hlen_of H = hlen.
Proof.
  assert (hl_of H = hl_of M) as E1 by (unfold hl_of; by destruct (g16_inj M H 0 HM HH (fx_vhl _ _ Hf)) as [-> _]). assert (t_of H = t) as E2 by (unfold t_of; by rewrite E1).
  split_and!; [done|done|]. unfold hlen_of, off_of. by rewrite E1, E2, (fx_off _ _ Hf).
Qed.

Lemma R_word k : Nat.Even k → (k < hlen)%nat → k ≠ 10%nat → g16 R k = g16 H k.
Proof. intros He Hl Hn. rewrite Hag; [by rewrite bool_decide_false|done|]. destruct parts as (_ & _ & ->). done. Qed.

Lemma R_word32 k : Nat.Even k → (k + 2 < hlen)%nat → k ≠ 10%nat → k ≠ 8%nat → g32 R k = g32 H k.
Proof. intros He Hl Hn1 Hn2. unfold g32. rewrite (R_word k), (R_word (k + 2)); [done|destruct He as [j ->]; exists (j + 1)%nat; lia|lia|lia|done|lia|done]. Qed.

Lemma R_hl : Z.to_nat (Z.land (g8 R 0) 15) = hl_of M.
Proof.
  destruct bounds as [Hb _]. assert (g16 R 0 = g16 H 0) as E by (apply R_word; [by exists 0%nat|lia|done]). destruct (g16_inj _ _ 0 HR HH E) as [-> _]. by destruct parts as (<- & _).
Qed.

(** The word of the flags. *)
Lemma R_flags : g8 R (t + 12) = g8 M (t + 12) ∧ g8 R (t + 13) = flags_of H.
Proof.
  destruct bounds as [Hb [He _]]. destruct parts as (_ & Et & _). assert (Nat.Even (t + 12)) as Hev by (destruct He as [a Ea]; exists (a + 6)%nat; lia).
  assert (g16 R (t + 12) = g16 H (t + 12)) as E by (apply R_word; [done|lia|lia]). destruct (g16_inj _ _ _ HR HH E) as [E1 E2].
  replace (S (t + 12)) with (t + 13)%nat in E2 by lia. split; [|unfold flags_of; by rewrite E2, Et]. rewrite E1.
  destruct (shiftr4 _ (bytes_g8 H (t + 12) HH)) as [_ ->], (shiftr4 _ (bytes_g8 M (t + 12) HM)) as [_ ->]. rewrite (fx_off _ _ Hf). pose proof (ho_x2 _ HoH) as Hx. rewrite Et in Hx.
  by rewrite Hx, (ho_x2 _ (wh_hdr _ Hw)).
Qed.

(** The words that are made. *)
Definition made : list nat := ([2; 4; t + 4 + 2; t + 4; t + 8 + 2; t + 8; t + 14; t + 18; t + 12; t + 16])%nat.

Lemma all_words k : Nat.Even k → (k < hlen)%nat → k ≠ 10%nat → k ∉ made → g16 R k = g16 M k.
Proof.
  intros He Hl H10 Hn. rewrite R_word by done. destruct bounds as [Hb [Het Heh]]. destruct parts as (_ & Et & _). symmetry. pose proof Hport as Hp. rewrite Et in Hp.
  destruct (g32_words M 12 _ HM eq_refl), (g32_words H 12 _ HH eq_refl), (g32_words M 16 _ HM eq_refl), (g32_words H 16 _ HH eq_refl), (g32_words M t _ HM eq_refl), (g32_words H t _ HH eq_refl).
  assert (g16 M 12 = g16 H 12 ∧ g16 M 14 = g16 H 14 ∧ g16 M 16 = g16 H 16 ∧ g16 M 18 = g16 H 18 ∧ g16 M t = g16 H t ∧ g16 M (t + 2) = g16 H (t + 2)) as (W1 & W2 & W3 & W4 & W5 & W6) by (simpl in *; split_and!; congruence).
  assert (k = 0 ∨ k = 6 ∨ k = 8 ∨ k = 12 ∨ k = 14 ∨ k = 16 ∨ k = 18 ∨ 20 ≤ k < t ∨ k = t ∨ k = t + 2 ∨ t + 20 ≤ k)%nat as Hc.
  { unfold made in Hn. destruct He as [a ->], Het as [b Eb]. set_unfold. rewrite Eb in *. lia. }
  destruct Hc as [->|[->|[->|[->|[->|[->|[->|[Hc|[->|[->|Hc]]]]]]]]]]; [apply (fx_vhl _ _ Hf)|apply (fx_frag _ _ Hf)|apply (fx_ttl _ _ Hf)|done|done|done|done|by apply (fx_ipopt _ _ Hf)|done|done|by apply (fx_tcpopt _ _ Hf)].
Qed.

Lemma urg_flags : (Z.land (flags_of M) TH_URG =? 0) = negb (urg M t).
Proof. unfold urg, flags_of. by rewrite negb_involutive. Qed.

(** Without the urgent bit it was not there before either. *)
Lemma urg_before : urg M t = false → g16 M (t + 18) = g16 H (t + 18) → (Z.land (flags_of M) TH_URG =? 0) = (Z.land (flags_of H) TH_URG =? 0).
Proof.
  intros Hu E. rewrite urg_flags, Hu. cbn [negb]. rewrite (ho_urg _ HoH). destruct parts as (_ & -> & _). rewrite <- E, <- (ho_urg _ (wh_hdr _ Hw)), urg_flags. by rewrite Hu.
Qed.

(** The flags with the push bit of the packet. *)
Definition pushed : Z := if push M then Z.lor (flags_of H) TH_PUSH else Z.ldiff (flags_of H) TH_PUSH.

Lemma tcp_made m cp c h rest : told M H m cp → words_are M R [(t + 16)%nat] h →
  ∃ h', apply_changes (p8 h (t + 13) pushed) (Z.of_nat hlen) t (sent m (negb (dI M H =? 1)) (push M) c) (cp ++ rest) = Ok (h', rest) ∧
    words_are M R (([t + 4 + 2; t + 4; t + 8 + 2; t + 8; t + 14; t + 18; t + 12] ++ [t + 16])%nat) h'.
Proof.
  intros Hm Hwd. destruct bounds as [Hb [Het Heh]]. assert (Nat.Even (t + 12)) as Hev by (destruct Het as [a Ea]; exists (a + 6)%nat; lia). assert (Nat.Even (t + 4) ∧ Nat.Even (t + 8) ∧ Nat.Even (t + 14) ∧ Nat.Even (t + 18)) as (He4 & He8 & He14 & He18).
  { destruct Het as [a Ea]. split_and!; [exists (a + 2)%nat|exists (a + 4)%nat|exists (a + 7)%nat|exists (a + 9)%nat]; lia. }
  assert (t + 20 ≤ length M ∧ t ≤ 60 ∧ 20 ≤ t)%nat as (Bl & Bt & Bt2) by lia. assert (0 ≤ Z.of_nat hlen < 256) as Bh by lia.
  destruct R_flags as [Ex2 Efl]. assert (∀ k, k ∈ [(t + 16)%nat] → k = (t + 16)%nat) as HS by (intros k; set_solver).
  assert (g8 h (t + 12) = g8 M (t + 12)) as Hhi.
  { rewrite <- Ex2. assert (g16 h (t + 12) = g16 R (t + 12)) as E by (apply (wa_old M R [(t + 16)%nat]); [done|done|lia|set_unfold; lia]). by destruct (g16_inj h R (t + 12) (wa_bytes _ _ _ _ Hwd) HR E) as [-> _]. }
  assert (g32 R (t + 4) = g32 H (t + 4)) as Hseq by (apply R_word32; [done|lia|lia|lia]). assert (g32 R (t + 8) = g32 H (t + 8)) as Hack by (apply R_word32; [done|lia|lia|lia]).
  assert (g16 R (t + 14) = g16 H (t + 14)) as Hwin by (apply R_word; [done|lia|lia]). assert (g16 R (t + 18) = g16 H (t + 18)) as Hurp by (apply R_word; [done|lia|lia]).
  assert (g16 R 2 = g16 H 2) as Hl by (apply R_word; [by exists 1%nat|lia|lia]).
  destruct (flags_made (flags_of M) (flags_of H) (ho_flags _ (wh_hdr _ Hw)) (ho_flags _ HoH)) as [F1 F2]. fold (push M) in F1, F2. fold pushed in F1, F2.
  destruct (sent_fields m (negb (dI M H =? 1)) (push M) c (told_range _ _ _ _ Hm)) as (V1 & V2 & V3 & V4 & VU & VW & VA & VS). destruct Hm as [m Em Hn1 Hn2 HdA HdS HU|HU Hp HW Hda Hdn|HU Hp HW Hda Hd16 Hdn].
  - rewrite Em in VU, VW, VA, VS. destruct (mask_fields (urg M t) (negb (dW M H t =? 0)) (negb (dA M H t =? 0)) (negb (dS M H t =? 0))) as (MU & MW & MA & MS).
    rewrite <- Em in VU, VW, VA, VS. rewrite <- Em in MU, MW, MA, MS. rewrite <- VU in MU. rewrite <- VW in MW. rewrite <- VA in MA. rewrite <- VS in MS. rewrite negb_involutive in MW, MA, MS. rewrite <- V1 in Hn1, Hn2.
    exact (apply_plain M H t HM HH Bl HlenH Het Bt R HR HlenR Hseq Hack Hwin Hurp _ h pushed _ _ rest Hwd HS Hhi F1 Hn1 Hn2 MU MW MA MS HdA HdS HU).
  - assert (pushed mod 256 = g8 M (t + 13)) as Hfl by (by apply F2, urg_before). unfold data in Hdn. rewrite <- Hl in Hdn.
    exact (apply_special_I M H t HM HH Bl HlenH Het Bt R HR HlenR Hseq Hack Hwin Hurp Bt2 _ h pushed _ _ rest Hwd HS Hhi Hfl V1 HW Hp Hda Hdn).
  - assert (pushed mod 256 = g8 M (t + 13)) as Hfl by (by apply F2, urg_before). unfold data in Hdn. rewrite <- Hl in Hdn.
    exact (apply_special_D M H t HM HH Bl HlenH Het Bt R HR HlenR Hseq Hack Hwin Hurp Bt2 _ h pushed _ _ rest Hwd HS Hhi Hfl V1 HW Hp Hda Bh Hd16 Hdn).
Qed.

(** The number of the datagram. *)
Lemma id_made v S h rest : words_are M R S h → 4%nat ∉ S → (Z.land v NEW_I =? 0) = negb (negb (dI M H =? 1)) →
  ∃ h', (if Z.land v NEW_I =? 0 then i ← get16 h 4; h ← set16 h 4 (i + 1); Ok (h, enc (negb (dI M H =? 1)) (ENCODEZ (dI M H)) ++ rest)
         else DECODES h 4 (enc (negb (dI M H =? 1)) (ENCODEZ (dI M H)) ++ rest)) = Ok (h', rest) ∧ words_are M R (4%nat :: S) h'.
Proof.
  intros Hwd Hn ->. destruct bounds as [Hb _]. pose proof (g16_range M 4 HM) as HMr. pose proof (g16_range H 4 HH) as HHr. assert (MAX_HDR = 128%nat) as Emax by done.
  assert (g16 h 4 = g16 H 4) as E4 by (rewrite (wa_old M R S h 4) by (done || (by exists 2%nat) || lia); apply R_word; [by exists 2%nat|lia|lia]).
  rewrite negb_involutive. destruct (Z.eqb_spec (dI M H) 1) as [Ed|Ed]; cbn [negb enc app].
  - rewrite get16_ok by (rewrite (wa_len _ _ _ _ Hwd); lia). cbn [mbind res_bind]. rewrite set16_ok by (rewrite (wa_len _ _ _ _ Hwd); lia). cbn [mbind res_bind]. eexists. split; [done|].
    apply wa_set16; [done|by exists 2%nat|lia|]. rewrite E4. unfold dI, u32, W32 in Ed. rewrite Z.mod_small; [|]; pose proof (Z.div_mod (g16 M 4 - g16 H 4) 4294967296); lia.
  - unfold DECODES. rewrite decode_ENCODEZ. cbn [mbind res_bind]. rewrite get16_ok by (rewrite (wa_len _ _ _ _ Hwd); lia). cbn [mbind res_bind]. rewrite set16_ok by (rewrite (wa_len _ _ _ _ Hwd); lia). cbn [mbind res_bind].
    eexists. split; [done|]. apply wa_set16; [done|by exists 2%nat|lia|]. rewrite E4, Zplus_mod_idemp_r. unfold dI, u32, W32.
    rewrite <- (Zplus_mod_idemp_r (_ mod 4294967296)). rewrite (Z.mod_mod_divide _ 4294967296 65536) by (by exists 65536). rewrite Zplus_mod_idemp_r. replace (g16 H 4 + (g16 M 4 - g16 H 4)) with (g16 M 4) by lia. by apply Z.mod_small.
Qed.

(** The words of the header that is made; its sum is left out. *)
Lemma made_agree h : words_are M R made h → agree M h.
Proof.
  intros Hwd k He Hl. destruct bounds as [Hb _]. rewrite (wa_words _ _ _ _ Hwd) by (done || lia). destruct (decide (k = 10%nat)) as [E10|E10].
  - subst k. rewrite (bool_decide_true (10%nat = 10%nat)) by done. rewrite bool_decide_false by (unfold made; set_unfold; lia). rewrite Hag; [by rewrite bool_decide_true|done|]. destruct parts as (_ & _ & ->). lia.
  - rewrite (bool_decide_false (k = 10%nat)) by done. case_bool_decide as Em; [done|]. by apply all_words.
Qed.

(** What is put before the data is the header of the packet. *)
Lemma new_header h : words_are M R made h → ip_cksum (take hlen h) t = Ok (g16 M 10) ∧ p16 (take hlen h) 10 (g16 M 10) = take hlen M.
Proof.
  intros Hwd. destruct bounds as [Hb [Het Heh]]. pose proof (made_agree h Hwd) as Ha. pose proof (wa_len _ _ _ _ Hwd) as Hlen. split.
  - rewrite <- (wh_sum _ Hw). apply ip_cksum_ext; [done|rewrite length_take; lia|rewrite length_p16; lia|]. intros k Hk Hl. rewrite g16_take by (destruct Hk, Heh; lia). rewrite Ha by (done || lia).
    case_bool_decide as E; [subst k; by rewrite g16_p16_eq by lia|]. destruct Hk as [j ->]. by rewrite g16_p16_ne by lia.
  - destruct Heh as [n En]. apply (words_eq _ _ n).
    + apply bytes_p16, list.Forall_take, (wa_bytes _ _ _ _ Hwd).
    + by apply list.Forall_take.
    + rewrite length_p16, length_take. lia.
    + rewrite length_take. lia.
    + intros k Hk. rewrite (g16_take M) by lia. destruct (decide (2 * k = 10)%nat) as [->|Hne].
      * rewrite g16_p16_eq by (rewrite length_take; lia). apply Z.mod_small. by apply g16_range.
      * rewrite g16_p16_ne by lia. rewrite g16_take by lia. rewrite Ha by (lia || (by exists k)). by rewrite bool_decide_false.
Qed.

Definition sum_bytes : list Z := [Z.shiftr (g16 M (t + 16)) 8 mod 256; g16 M (t + 16) mod 256].

Lemma recv_compressed_ok d id cr m cp (c : bool) : told M H m cp → rstate d !! id = Some cr → cs_hdr cr = R → cs_hlen cr = Z.of_nat hlen →
  (if c then Z.of_nat id < maxslotin d else Z.land (vj_flags d) SLF_TOSS = 0 ∧ last_recv d = Z.of_nat id) →
  ∃ R', recv_compressed true true (sent m (negb (dI M H =? 1)) (push M) c :: (if c then [Z.of_nat id] else []) ++ sum_bytes ++ cp ++ enc (negb (dI M H =? 1)) (ENCODEZ (dI M H)) ++ drop hlen M) d =
      Ok (0, M, set_rstate (<[id := with_hdr R' cr]> (rstate d)) (if c then set_last_recv (Z.of_nat id) (no_toss d) else d)) ∧
    length R' = MAX_HDR ∧ Forall byte R' ∧ agree M R'.
Proof.
  intros Hm Eid ER Ehl Hc. destruct bounds as [Hb [Het Heh]]. destruct (sent_fields m (negb (dI M H =? 1)) (push M) c (told_range _ _ _ _ Hm)) as (V1 & VI & VP & VC & _).
  set (body := sum_bytes ++ cp ++ _). set (tl := (if c then [Z.of_nat id] else []) ++ body). unfold recv_compressed. change (get8 (sent m (negb (dI M H =? 1)) (push M) c :: tl) 0) with (Ok (sent m (negb (dI M H =? 1)) (push M) c)).
  change (drop 1 (sent m (negb (dI M H =? 1)) (push M) c :: tl)) with tl. cbn [mbind res_bind].
  set (d1 := if c then set_last_recv (Z.of_nat id) (no_toss d) else d).
  assert (recv_slot (sent m (negb (dI M H =? 1)) (push M) c) tl d = Ok (Some body, d1)) as ->.
  { unfold recv_slot, tl. rewrite VC, negb_involutive. destruct c; cbn [app].
    - change (get8 (Z.of_nat id :: body) 0) with (Ok (Z.of_nat id)). cbn [mbind res_bind]. by rewrite (proj2 (Z.leb_gt _ _) Hc).
    - destruct Hc as [-> _]. done. }
  cbn [mbind res_bind]. assert (last_recv d1 = Z.of_nat id ∧ rstate d1 = rstate d) as [E1 E2] by (unfold d1; destruct c; [done|by destruct Hc]). rewrite E1, Nat2Z.id, E2, Eid. cbn [deref mbind res_bind]. rewrite ER, Ehl.
  assert (MAX_HDR = 128%nat) as Emax by done. rewrite get8_ok by lia. cbn [mbind res_bind]. rewrite R_hl. change (4 * hl_of M)%nat with t.
  assert (get16 body 0 = Ok (g16 M (t + 16))) as ->.
  { unfold body, sum_bytes, get16, get8. simpl. by rewrite word_split, Z.mod_small by (by apply g16_range). }
  cbn [mbind res_bind]. change (drop 2 body) with (cp ++ enc (negb (dI M H =? 1)) (ENCODEZ (dI M H)) ++ drop hlen M). rewrite set16_ok by lia. cbn [mbind res_bind].
  assert (words_are M R [] R) as Hw0 by (constructor; [done|done|]; intros; by rewrite bool_decide_false by (by intros ?%elem_of_nil)).
  assert (words_are M R [(t + 16)%nat] (p16 R (t + 16) (g16 M (t + 16)))) as Hw1.
  { apply wa_set16; [done| |lia|apply Z.mod_small; by apply g16_range]. destruct Het as [a Ea]. exists (a + 8)%nat. lia. }
  set (h1 := p16 R (t + 16) _) in *. unfold set_th_flag at 1. rewrite get8_ok by (rewrite (wa_len _ _ _ _ Hw1); lia). cbn [mbind res_bind]. rewrite set8_ok by (rewrite (wa_len _ _ _ _ Hw1); lia). cbn [mbind res_bind].
  rewrite VP, negb_involutive. assert (g8 h1 (t + 13) = flags_of H) as -> by (unfold h1; rewrite g8_p16_ne by lia; apply R_flags). fold pushed.
  destruct (tcp_made m cp c h1 (enc (negb (dI M H =? 1)) (ENCODEZ (dI M H)) ++ drop hlen M) Hm Hw1) as (h2 & -> & Hw2). cbn [mbind res_bind].
  destruct (id_made (sent m (negb (dI M H =? 1)) (push M) c) _ h2 (drop hlen M) Hw2) as (h3 & E3 & Hw3); [set_unfold; lia|done|]. rewrite E3. cbn [mbind res_bind]. cbn [negb].
  rewrite set16_ok by (rewrite (wa_len _ _ _ _ Hw3); lia). cbn [mbind res_bind].
  assert (Z.of_nat (length (drop hlen M)) + Z.of_nat hlen = g16 M 2) as -> by (rewrite length_drop, (wh_len _ Hw); lia).
  assert (words_are M R made (p16 h3 2 (g16 M 2))) as Hw4 by (apply wa_set16; [exact Hw3|by exists 1%nat|lia|apply Z.mod_small; by apply g16_range]). set (h4 := p16 h3 2 _) in *.
  rewrite (upd_r_ok _ _ _ cr) by (by rewrite E2). cbn [mbind res_bind]. rewrite Nat2Z.id, getn_ok by (rewrite (wa_len _ _ _ _ Hw4); lia). cbn [mbind res_bind]. rewrite drop_0.
  destruct (new_header h4 Hw4) as [-> Enew]. cbn [mbind res_bind]. rewrite set16_ok by (rewrite length_take, (wa_len _ _ _ _ Hw4); lia). cbn [mbind res_bind]. rewrite Enew, take_drop, E2.
  exists h4. split_and!; [done|apply (wa_len _ _ _ _ Hw4)|apply (wa_bytes _ _ _ _ Hw4)|by apply made_agree].
Qed.
End recv.

(** ** A packet from one end to the other *)

(** A packet of type [TYPE_IP] is not for [vjuncompress_tcp]; one that it refuses is lost. *)
Definition link (msg : list Z) (c d : vjstruct) : res (option (list Z) * vjstruct * vjstruct) :=
  '(type, m, c) ← vjcompress_tcp true msg c;
  if type =? TYPE_IP then Ok (Some m, c, d)
  else '(r, m, d) ← vjuncompress_tcp true true m type d; Ok (if r =? 0 then Some m else None, c, d).

Fixpoint link_all (ms : list (list Z)) (c d : vjstruct) : res (list (option (list Z)) * vjstruct * vjstruct) :=
  match ms with
  | [] => Ok ([], c, d)
  | m :: ms => '(o, c, d) ← link m c d; '(os, c, d) ← link_all ms c d; Ok (o :: os, c, d)
  end.

(** ** The state of both ends *)

Record slot_ok (ct cr : cstate) : Prop := {
  so_t : length (cs_hdr ct) = MAX_HDR ∧ Forall byte (cs_hdr ct);
  so_r : length (cs_hdr cr) = MAX_HDR ∧ Forall byte (cs_hdr cr);
  so_same : (5 ≤ hl_of (cs_hdr ct))%nat → hdr_ok (cs_hdr ct) ∧ cs_hlen cr = Z.of_nat (hlen_of (cs_hdr ct)) ∧ agree (cs_hdr ct) (cs_hdr cr)
}.

Definition slots (l : list nat) (c d : vjstruct) : Prop :=
  ∀ x, x ∈ l → ∃ ct cr, tstate c !! x = Some ct ∧ rstate d !! x = Some cr ∧ cs_id ct = Z.of_nat x ∧ (x < 16)%nat ∧ Z.of_nat x < maxslotin d ∧ slot_ok ct cr.

Definition xmit_ok (c d : vjstruct) : Prop := last_xmit c ≠ 255 → last_recv d = last_xmit c ∧ Z.land (vj_flags d) SLF_TOSS = 0.

Definition sync (c d : vjstruct) : Prop := ∃ l, ring_ok l c ∧ slots l c d ∧ xmit_ok c d.

(** A packet of the line: a TCP segment that the sender looks into is whole. *)
Record pkt_ok (msg : list Z) : Prop := {
  po_bytes : Forall byte msg;
  po_ip : (20 ≤ length msg)%nat;
  po_tcp : Z.land (g16 msg 6) 16383 = 0 → (40 ≤ length msg)%nat → g8 msg 9 = IPPROTO_TCP → (t_of msg + 20 ≤ length msg)%nat;
  po_whole : is_tcp msg → whole msg
}.

Lemma slots_same l l' c c' d : same_slots c c' → (∀ x, x ∈ l' → x ∈ l) → slots l c d → slots l' c' d.
Proof.
  intros (ts & y & -> & Hs) Hl H x Hx. destruct (H x (Hl x Hx)) as (ct & cr & Et & Er & Eid & Hx16 & Hm & Hso). specialize (Hs x). rewrite Et in Hs. cbn [fmap option_fmap option_map] in Hs.
  destruct (ts !! x) as [ct'|] eqn:E; [|done]. simpl in Hs. injection Hs as H1 H2 H3. exists ct', cr. split_and!; [exact E|done|congruence|done|done|].
  destruct Hso as [So1 So2 So3]. constructor; rewrite ?H3; done.
Qed.

Lemma ring_upd l c c' x ct ct' : ring_ok l c → tstate c !! x = Some ct → cs_next ct' = cs_next ct → tstate c' = <[x := ct']> (tstate c) → last_cs c' = last_cs c → ring_ok l c'.
Proof.
  intros [H1 H2 H3 H4] E En Et El. constructor; [|by rewrite El|done|done]. apply (chain_ext (tstate c)); [|done]. intros y _. rewrite Et. destruct (decide (x = y)) as [<-|Hne].
  - rewrite list_lookup_insert_eq by (by apply lookup_lt_Some in E). rewrite E. simpl. by rewrite En.
  - by rewrite list_lookup_insert_ne.
Qed.

Lemma bcopy_hdr_ok msg n hdr : (n ≤ length msg)%nat → (n ≤ length hdr)%nat → bcopy_hdr msg n hdr = Ok (take n msg ++ drop n hdr).
Proof. intros H1 H2. unfold bcopy_hdr. rewrite getn_ok by lia. cbn [mbind res_bind]. by rewrite (proj2 (Nat.leb_le _ _) H2), drop_0. Qed.

Lemma copied msg n hdr : Forall byte msg → Forall byte hdr → (n ≤ length msg)%nat → (n ≤ length hdr)%nat →
  length (take n msg ++ drop n hdr) = length hdr ∧ Forall byte (take n msg ++ drop n hdr) ∧ ∀ i, (i < n)%nat → g8 (take n msg ++ drop n hdr) i = g8 msg i.
Proof.
  intros Hm Hh H1 H2. split_and!.
  - rewrite length_app, length_take, length_drop. lia.
  - apply list.Forall_app. split; [by apply list.Forall_take|by apply list.Forall_drop].
  - intros i Hi. rewrite g8_app by (rewrite length_take; lia). by apply g8_take.
Qed.

(** The slot after a packet: the sender has its header, the receiver the same. *)
Lemma slot_ok_sent msg ct cr n R' : whole msg → Forall byte msg → length (cs_hdr ct) = MAX_HDR → Forall byte (cs_hdr ct) → length R' = MAX_HDR → Forall byte R' → n = Z.of_nat (hlen_of msg) → agree msg R' →
  slot_ok (with_hdr (take (hlen_of msg) msg ++ drop (hlen_of msg) (cs_hdr ct)) ct) (MkCs (cs_next cr) n (cs_id cr) R').
Proof.
  intros Hw Hb Hl Hbt HlR HbR -> Ha. pose proof (t_bounds msg Hb (wh_hdr _ Hw) (wh_hlen _ Hw)) as Hbd. pose proof (wh_hlen _ Hw) as Hn. assert (MAX_HDR = 128%nat) as Emax by done.
  destruct (copied msg (hlen_of msg) (cs_hdr ct)) as (E1 & E2 & E3); [done|done|done|lia|]. destruct (same_parts msg (take (hlen_of msg) msg ++ drop (hlen_of msg) (cs_hdr ct)) (hlen_of msg) E3) as (P1 & P2 & P3 & P4 & P5 & P6); [lia|].
  constructor; cbn [cs_hdr cs_hlen with_hdr]; [split; congruence|done|]. intros _. split_and!; [apply P6, Hw|by rewrite P4|].
  intros k Hk Hl'. rewrite P4 in Hl'. rewrite Ha by done. destruct (hlen_of_even msg) as [a Ea], Hk as [b ->]. unfold g16. by rewrite !E3 by lia.
Qed.

(** A slot of both ends takes a header. *)
Lemma sync_slot l c d x ct ct' cr' c' d' : ring_ok l c → slots l c d → x ∈ l → tstate c !! x = Some ct → cs_next ct' = cs_next ct → cs_id ct' = cs_id ct → slot_ok ct' cr' →
  tstate c' = <[x := ct']> (tstate c) → last_cs c' = last_cs c → rstate d' = <[x := cr']> (rstate d) → maxslotin d' = maxslotin d → xmit_ok c' d' → sync c' d'.
Proof.
  intros Hr Hs Hx Et En Eid Hso Etc El Erd Em Hxm. exists l. split_and!; [by eapply ring_upd| |done]. intros y Hy. destruct (Hs y Hy) as (ct0 & cr0 & Et0 & Er0 & Eid0 & Hy16 & Hm & Hso0).
  rewrite Etc, Erd, Em. destruct (decide (x = y)) as [<-|Hne].
  - exists ct', cr'. rewrite !list_lookup_insert_eq by (by eapply lookup_lt_Some). split_and!; [done|done|congruence|done|done|done].
  - exists ct0, cr0. rewrite !list_lookup_insert_ne by done. by split_and!.
Qed.

Definition set_link (r : res (Z * list Z * vjstruct)) (d : vjstruct) : res (option (list Z) * vjstruct * vjstruct) :=
  '(type, m, c) ← r;
  if type =? TYPE_IP then Ok (Some m, c, d)
  else '(r, m, d) ← vjuncompress_tcp true true m type d; Ok (if r =? 0 then Some m else None, c, d).

Section sent.
Context (l : list nat) (c d : vjstruct) (Hr : ring_ok l c) (Hs : slots l c d) (Hxm : xmit_ok c d) (x : nat) (Hx : x ∈ l) (msg : list Z) (HM : Forall byte msg) (Htcp : is_tcp msg) (Hw : whole msg).

Lemma toss_off fl : Z.land (Z.ldiff fl SLF_TOSS) SLF_TOSS = 0.
Proof. clear. apply Z.bits_inj'. intros n _. rewrite Z.land_spec, Z.ldiff_spec, Z.bits_0. by destruct (Z.testbit fl n), (Z.testbit SLF_TOSS n). Qed.

Lemma sent_uncompressed : ∃ c' d', set_link (send_uncompressed true msg (hlen_of msg) x c) d = Ok (Some msg, c', d') ∧ sync c' d'.
Proof.
  destruct (Hs x Hx) as (ct & cr & Et & Er & Eid & Hx16 & Hm & [[Hlt Hbt] [Hlr Hbr] _]). pose proof (t_bounds msg HM (wh_hdr _ Hw) (wh_hlen _ Hw)) as Hb. pose proof (wh_hlen _ Hw) as Hn. assert (MAX_HDR = 128%nat) as Emax by done.
  unfold set_link, send_uncompressed. rewrite Et. cbn [deref mbind res_bind]. rewrite bcopy_hdr_ok by lia. cbn [mbind res_bind]. rewrite (upd_t_ok _ _ _ _ Et). cbn [mbind res_bind negb].
  rewrite set8_ok by lia. cbn [mbind res_bind]. change (TYPE_UNCOMPRESSED_TCP =? TYPE_IP) with false. cbv iota. unfold vjuncompress_tcp. change (TYPE_UNCOMPRESSED_TCP =? TYPE_UNCOMPRESSED_TCP) with true. cbv iota.
  unfold recv_uncompressed. rewrite get8_ok by (rewrite length_p8; lia). cbn [mbind res_bind]. rewrite g8_p8_eq by lia. rewrite Eid, Z.mod_small by lia. rewrite (proj2 (Z.leb_gt _ _) Hm).
  rewrite set8_ok by (rewrite length_p8; lia). cbn [mbind res_bind]. assert (p8 (p8 msg 9 (Z.of_nat x)) 9 IPPROTO_TCP = msg) as ->.
  { unfold p8. rewrite list_insert_insert_eq. apply list_insert_id. rewrite g8_lookup by lia. destruct Htcp as (_ & _ & -> & _). done. }
  rewrite get8_ok by lia. cbn [mbind res_bind]. change (4 * Z.to_nat (Z.land (g8 msg 0) 15) + 12)%nat with (t_of msg + 12)%nat. rewrite get8_ok by lia. cbn [mbind res_bind].
  change (4 * (Z.to_nat (Z.land (g8 msg 0) 15) + Z.to_nat (Z.shiftr (g8 msg (t_of msg + 12)) 4)))%nat with (hlen_of msg). cbn [rstate no_toss set_last_recv set_vj_flags]. rewrite Nat2Z.id, Er. cbn [deref mbind res_bind].
  rewrite bcopy_hdr_ok by lia. cbn [mbind res_bind]. destruct (copied msg (hlen_of msg) (cs_hdr cr)) as (C1 & C2 & C3); [done|done|lia|lia|]. rewrite set16_ok by lia. cbn [mbind res_bind].
  rewrite (upd_r_ok _ _ _ cr) by done. cbn [mbind res_bind]. change (0 =? 0) with true. cbv iota. do 2 eexists. split; [done|].
  eapply (sync_slot l c d x ct); [done|done|done|done| | |..|reflexivity|reflexivity|reflexivity|reflexivity|].
  - done.
  - done.
  - unfold with_hlen. cbn [cs_hdr cs_next cs_id with_hdr cs_hlen]. apply slot_ok_sent; [done|done|done|done|by rewrite length_p16; lia|by apply bytes_p16|apply Z.mod_small; lia|].
    intros k Hk Hl. destruct (decide (k = 10%nat)) as [->|Hne]; [rewrite bool_decide_true by done; by rewrite g16_p16_eq by lia|]. rewrite bool_decide_false by done. destruct (hlen_of_even msg) as [a Ea], Hk as [b ->].
    rewrite g16_p16_ne by lia. unfold g16. by rewrite !C3 by lia.
  - intros _. cbn [last_recv last_xmit vj_flags set_rstate no_toss set_last_recv set_vj_flags set_last_xmit]. split; [done|]. apply toss_off.
Qed.

Lemma sent_compressed ct m cp : tstate c !! x = Some ct → g32 msg 12 = g32 (cs_hdr ct) 12 → g32 msg 16 = g32 (cs_hdr ct) 16 → g32 msg (t_of msg) = g32 (cs_hdr ct) (t_of (cs_hdr ct)) →
  fixed msg (cs_hdr ct) → told msg (cs_hdr ct) m cp →
  ∃ c' d', set_link (send_compressed true msg (t_of msg) (hlen_of msg) x (cp ++ enc (negb (dI msg (cs_hdr ct) =? 1)) (ENCODEZ (dI msg (cs_hdr ct)))) (told_mask msg (cs_hdr ct) m) c) d = Ok (Some msg, c', d') ∧ sync c' d'.
Proof.
  intros Et Hsrc Hdst Hport Hf Hm. destruct (Hs x Hx) as (ct0 & cr & Et0 & Er & Eid & Hx16 & Hmax & [[Hlt Hbt] [Hlr Hbr] Hsame]). assert (ct0 = ct) as -> by congruence. clear Et0.
  pose proof (t_bounds msg HM (wh_hdr _ Hw) (wh_hlen _ Hw)) as Hb. pose proof (wh_hlen _ Hw) as Hn. assert (MAX_HDR = 128%nat) as Emax by done.
  assert (hl_of (cs_hdr ct) = hl_of msg) as Ehl by (unfold hl_of; by destruct (g16_inj msg (cs_hdr ct) 0 HM Hbt (fx_vhl _ _ Hf)) as [-> _]). destruct Hsame as (HoH & Ehlen & Hag); [rewrite Ehl; apply (ho_hl _ (wh_hdr _ Hw))|].
  assert (hlen_of (cs_hdr ct) = hlen_of msg) as Ehn by (assert (t_of (cs_hdr ct) = t_of msg) as Et' by (unfold t_of; by rewrite Ehl); unfold hlen_of, off_of; by rewrite Ehl, Et', (fx_off _ _ Hf)). rewrite Ehn in Ehlen.
  unfold set_link, send_compressed. rewrite get16_ok by lia. cbn [mbind res_bind]. rewrite Et. cbn [deref mbind res_bind]. rewrite bcopy_hdr_ok by lia. cbn [mbind res_bind]. rewrite (upd_t_ok _ _ _ _ Et). cbn [mbind res_bind negb].
  set (c1 := set_tstate _ c). change (compslotout c1) with (compslotout c). change (last_xmit c1) with (last_xmit c). rewrite Eid. set (ex := (compslotout c =? 0) || negb (last_xmit c =? Z.of_nat x)).
  change (TYPE_COMPRESSED_TCP =? TYPE_IP) with false. cbv iota. unfold vjuncompress_tcp. change (TYPE_COMPRESSED_TCP =? TYPE_UNCOMPRESSED_TCP) with false. change (TYPE_COMPRESSED_TCP =? TYPE_COMPRESSED_TCP) with true. cbv iota.
  set (i := negb (dI msg (cs_hdr ct) =? 1)). pose proof (sent_made m i (push msg) ex (told_range _ _ _ _ Hm)) as Esent.
  assert ((if ex then [Z.lor (told_mask msg (cs_hdr ct) m) NEW_C mod 256; Z.of_nat x] else [told_mask msg (cs_hdr ct) m mod 256]) = sent m i (push msg) ex :: (if ex then [Z.of_nat x] else [])) as ->.
  { rewrite <- Esent. by destruct ex. }
  destruct (recv_compressed_ok msg (cs_hdr ct) (cs_hdr cr) HM Hbt Hbr Hlt Hlr Hw HoH Hf Hsrc Hdst Hport Hag d x cr m cp ex) as (R' & Erc & H1 & H2 & H3); [done|done|done|done| |].
  { unfold ex. destruct (compslotout c =? 0) eqn:E0; [done|]. destruct (Z.eqb_spec (last_xmit c) (Z.of_nat x)) as [E1|E1]; cbn [orb negb]; [|done]. destruct (Hxm ltac:(lia)) as [E2 E3]. split; [done|congruence]. }
  cbn [app]. rewrite <- app_assoc. unfold sum_bytes in Erc. cbn [app] in Erc. fold i in Erc. rewrite Erc. cbn [mbind res_bind]. change (0 =? 0) with true. cbv iota. do 2 eexists. split; [done|].
  eapply (sync_slot l c d x ct); [done|done|done|exact Et| | |..].
  4: by destruct ex.
  - done.
  - done.
  - apply slot_ok_sent; [done|done|done|done|exact H1|exact H2|exact Ehlen|exact H3].
  - by destruct ex.
  - by destruct ex.
  - by destruct ex.
  - unfold ex. destruct (compslotout c =? 0) eqn:E0; cbn [orb]; [intros _; split; [done|apply toss_off]|]. destruct (Z.eqb_spec (last_xmit c) (Z.of_nat x)) as [E1|E1]; cbn [negb]; [exact Hxm|]. intros _. split; [done|apply toss_off].
Qed.
End sent.

(** ** The next packet *)

Lemma same_conn_ok msg ct : Forall byte msg → whole msg → length (cs_hdr ct) = MAX_HDR → ∃ b, same_conn msg (hl_of msg) ct = Ok b ∧
  (b = true → g32 msg 12 = g32 (cs_hdr ct) 12 ∧ g32 msg 16 = g32 (cs_hdr ct) 16 ∧ g32 msg (t_of msg) = g32 (cs_hdr ct) (t_of (cs_hdr ct))).
Proof.
  intros Hbm Hw Hl. pose proof (t_bounds msg Hbm (wh_hdr _ Hw) (wh_hlen _ Hw)) as Hb. pose proof (hl_of_lt (cs_hdr ct)) as Hlt. assert (MAX_HDR = 128%nat) as Emax by done. unfold same_conn.
  assert (4 * hl_of msg = t_of msg)%nat as Et by done.
  rewrite !get32_ok by lia. cbn [mbind res_bind]. destruct (Z.eqb_spec (g32 msg 12) (g32 (cs_hdr ct) 12)) as [E1|]; cbn [negb]; [|by exists false]. destruct (Z.eqb_spec (g32 msg 16) (g32 (cs_hdr ct) 16)) as [E2|]; cbn [negb]; [|by exists false].
  change (4 * hl_of msg)%nat with (t_of msg). rewrite get8_ok by lia. cbn [mbind res_bind]. change (4 * Z.to_nat (Z.land (g8 (cs_hdr ct) 0) 15))%nat with (4 * hl_of (cs_hdr ct))%nat.
  rewrite get32_ok by lia. cbn [mbind res_bind]. change (4 * hl_of (cs_hdr ct))%nat with (t_of (cs_hdr ct)). eexists. split; [done|]. by intros ?%Z.eqb_eq.
Qed.

Lemma link_ip msg c : Forall byte msg → (20 ≤ length msg)%nat → (Z.land (g16 msg 6) 16383 = 0 → (40 ≤ length msg)%nat → g8 msg 9 = IPPROTO_TCP → (t_of msg + 20 ≤ length msg)%nat) → ¬ is_tcp msg →
  vjcompress_tcp true msg c = Ok (TYPE_IP, msg, c).
Proof.
  intros Hb H20 Hp Hn. unfold vjcompress_tcp. rewrite (get8_ok msg 0), (get16_ok msg 6) by lia. cbn [mbind res_bind]. destruct (Z.eqb_spec (Z.land (g16 msg 6) 16383) 0) as [E1|]; [|done]. destruct (Nat.ltb_spec (length msg) 40) as [|E2]; [done|]. cbn [negb orb].
  rewrite (get8_ok msg 9) by lia. cbn [mbind res_bind]. destruct (Z.eqb_spec (g8 msg 9) IPPROTO_TCP) as [E3|]; [|done]. cbn [negb]. specialize (Hp E1 E2 E3). change (4 * Z.to_nat (Z.land (g8 msg 0) 15) + 13)%nat with (t_of msg + 13)%nat. rewrite (get8_ok msg (t_of msg + 13)) by lia. cbn [mbind res_bind].
  destruct (Z.eqb_spec (Z.land (g8 msg (t_of msg + 13)) (Z.lor TH_SYN (Z.lor TH_FIN (Z.lor TH_RST TH_ACK)))) TH_ACK) as [E4|]; [|done]. exfalso. apply Hn. split_and!; done.
Qed.

Lemma link_set msg c d : link msg c d = set_link (vjcompress_tcp true msg c) d.
Proof. done. Qed.

Lemma link_ok msg c d : sync c d → pkt_ok msg → ∃ c' d', link msg c d = Ok (Some msg, c', d') ∧ sync c' d'.
Proof.
  intros (l & Hr & Hs & Hxm) [Hb H20 Hp Hwh]. destruct (decide (is_tcp msg)) as [Ht|Ht]; [|exists c, d; rewrite link_set, link_ip by done; by split; [|exists l]].
  pose proof (Hwh Ht) as Hw. pose proof (t_bounds msg Hb (wh_hdr _ Hw) (wh_hlen _ Hw)) as Hbd. pose proof (wh_hlen _ Hw) as Hn. pose proof Ht as (T1 & T2 & T3 & T4). rewrite link_set. unfold vjcompress_tcp.
  rewrite (get8_ok msg 0), (get16_ok msg 6) by lia. cbn [mbind res_bind]. rewrite T1. rewrite (proj2 (Nat.ltb_ge (length msg) 40)) by lia. cbn [Z.eqb negb orb]. rewrite (get8_ok msg 9) by lia. cbn [mbind res_bind]. rewrite T3. cbn [Z.eqb negb].
  change (4 * Z.to_nat (Z.land (g8 msg 0) 15))%nat with (t_of msg). change (IPPROTO_TCP =? IPPROTO_TCP) with true. cbn [negb]. rewrite (get8_ok msg (t_of msg + 13)) by lia. cbn [mbind res_bind]. unfold flags_of in T4. rewrite T4. change (TH_ACK =? TH_ACK) with true. cbn [negb].
  change (Z.to_nat (Z.land (g8 msg 0) 15)) with (hl_of msg).
  destruct (find_conn_ok msg (hl_of msg) c l Hr) as (x & A & B & c' & El & -> & Hr' & Hsame & _).
  { intros y ct Hy E. destruct (Hs y Hy) as (ct0 & cr & Et & _ & _ & _ & _ & [[Hl _] _ _]). assert (ct0 = ct) as -> by congruence. destruct (same_conn_ok msg ct Hb Hw Hl) as (b & Eb & _). by exists b. }
  cbn [mbind res_bind]. assert (x ∈ l) as Hx by (rewrite El; apply elem_of_app; right; left). assert (slots (x :: A ++ B) c' d) as Hs'.
  { eapply slots_same; [exact Hsame| |exact Hs]. intros y Hy. rewrite El. set_unfold. naive_solver. }
  assert (xmit_ok c' d) as Hxm' by (destruct Hsame as (ts & y & -> & _); exact Hxm). rewrite (get8_ok msg (t_of msg + 12)) by lia. cbn [mbind res_bind].
  change (4 * (hl_of msg + Z.to_nat (Z.shiftr (g8 msg (t_of msg + 12)) 4)))%nat with (hlen_of msg). rewrite (proj2 (Nat.ltb_ge (length msg) (hlen_of msg))) by lia.
  assert (x ∈ x :: A ++ B) as Hx' by left. destruct (is_conn msg (hl_of msg) c x) eqn:Ec; cbn [negb]; [|by apply (sent_uncompressed (x :: A ++ B))].
  destruct (Hs x Hx) as (ct0 & cr0 & Et0 & _ & _ & _ & _ & [[Hl0 _] _ _]). destruct (Hs' x Hx') as (ct & cr & Et & Er & Eid & Hx16 & Hm & Hso). rewrite Et. cbn [deref mbind res_bind].
  assert (cs_hdr ct = cs_hdr ct0) as Eh. { destruct Hsame as (ts & y & -> & Hts). specialize (Hts x). rewrite Et0 in Hts. cbn [tstate set_last_cs set_tstate] in Et. rewrite Et in Hts. by injection Hts. }
  destruct (same_conn_ok msg ct0 Hb Hw Hl0) as (b & Eb & Hconn). unfold is_conn in Ec. rewrite Et0, Eb in Ec. destruct (Hconn Ec) as (C1 & C2 & C3). rewrite <- Eh in C1, C2, C3.
  destruct (so_t _ _ Hso) as [Hlt Hbt]. destruct (find_deltas_ok msg (cs_hdr ct)) as [->|(m & cp & -> & Hf & Hmt)]; [done|done|done|apply Hw|done|..]; cbn [mbind res_bind].
  - by apply (sent_uncompressed (x :: A ++ B)).
  - by apply (sent_compressed (x :: A ++ B)).
Qed.

Lemma link_all_ok ms : ∀ c d, sync c d → Forall pkt_ok ms → ∃ c' d', link_all ms c d = Ok (Some <$> ms, c', d') ∧ sync c' d'.
Proof.
  induction ms as [|m ms IH]; intros c d Hs Hp; [by exists c, d|]. apply list.Forall_cons in Hp as [Hm Hp]. destruct (link_ok m c d Hs Hm) as (c1 & d1 & E1 & Hs1). destruct (IH c1 d1 Hs1 Hp) as (c2 & d2 & E2 & Hs2).
  exists c2, d2. split; [|done]. simpl. rewrite E1. cbn [mbind res_bind]. rewrite E2. done.
Qed.
