(* ===== verification/VjProps.v ===== *)
(** * What the compression promises

    A line that loses no packet gives each packet back as it was, from the start; the slot of a
    conversation is the one used least recently; packets of two conversations, and the runs in
    which the two ends part. *)

From S2P Require Import Prelude Vj VjRing VjHead VjSync.

(** ** The start *)

#[global] Instance chain_dec ts l e : Decision (chain ts l e).
Proof. revert e. induction l as [|x l IH]; intros e; simpl; apply _. Defined.

Definition started (n cslot : Z) : res vjstruct := vjsetoutparms vjcompress_init n cslot.

(** The slots of the sender before any packet. *)
Definition first_tstate (n : nat) : list cstate := <[0%nat := MkCs (n - 1) 0 0 (replicate MAX_HDR 0)]> (tstate vjcompress_init).

Lemma started_ok n cslot : (2 ≤ n ≤ 16)%nat → started (Z.of_nat n) cslot = Ok (MkVj 0 255 255 SLF_TOSS (first_tstate n) (rstate vjcompress_init) 16 CSLOT (Z.of_nat n) cslot).
Proof.
  intros Hn. unfold started, vjsetoutparms, first_tstate. assert (tstate vjcompress_init !! 0%nat = Some (MkCs 15 0 0 (replicate MAX_HDR 0))) as E by reflexivity.
  unfold upd_t. cbn [tstate]. rewrite E. cbn [deref mbind res_bind]. replace (Z.to_nat (Z.of_nat n - 1)) with (n - 1)%nat by lia. unfold with_cs_next. cbn [last_cs set_tstate tstate cs_hlen cs_id cs_hdr]. change (last_cs vjcompress_init) with 0%nat.
  rewrite list_lookup_insert_eq by (apply lookup_lt_Some in E; done). cbn [deref mbind res_bind cs_id]. rewrite (proj2 (Z.leb_gt (Z.of_nat n) 0)) by lia. done.
Qed.

Lemma first_chain n : (2 ≤ n ≤ 16)%nat → chain (first_tstate n) (rev (seq 0 n)) (default 0%nat (head (rev (seq 0 n)))).
Proof.
  intros Hn. assert (Forall (λ n, chain (first_tstate n) (rev (seq 0 n)) (default 0%nat (head (rev (seq 0 n))))) (seq 2 15)) as H by (apply (bool_decide_unpack _); vm_compute; done).
  apply (proj1 (list.Forall_forall _ _) H). apply elem_of_seq. lia.
Qed.

Lemma first_slot n x : (x < 16)%nat → ∃ y, first_tstate n !! x = Some (MkCs y 0 (Z.of_nat x) (replicate MAX_HDR 0)).
Proof.
  intros Hx. unfold first_tstate. destruct (decide (x = 0%nat)) as [->|Hne]; [by eexists|]. rewrite list_lookup_insert_ne by done. unfold vjcompress_init. cbn [tstate]. rewrite list_lookup_fmap.
  rewrite lookup_seq_lt by (unfold MAX_STATES; lia). simpl. by eexists.
Qed.

Lemma sync_start n m cslot cslot' : (2 ≤ n ≤ 16)%nat → Z.of_nat n ≤ m → sync (MkVj 0 255 255 SLF_TOSS (first_tstate n) (rstate vjcompress_init) 16 CSLOT (Z.of_nat n) cslot) (vjsetinparms vjcompress_init m cslot').
Proof.
  intros Hn Hm. exists (rev (seq 0 n)). split_and!.
  - constructor; cbn [tstate last_cs].
    + by apply first_chain.
    + destruct n as [|n]; [lia|]. simpl. by rewrite last_snoc.
    + apply NoDup_ListNoDup, NoDup_rev, NoDup_ListNoDup, NoDup_seq.
    + rewrite length_rev, length_seq. lia.
  - intros x Hx. rewrite rev_alt in Hx. apply elem_of_reverse, elem_of_seq in Hx. destruct (first_slot n x) as (y & Ey); [lia|]. exists (MkCs y 0 (Z.of_nat x) (replicate MAX_HDR 0)), (MkCs 0 0 0 (replicate MAX_HDR 0)).
    assert (Forall byte (replicate MAX_HDR 0)) as Hb by (apply Forall_replicate; by vm_compute). split_and!; [done|by apply lookup_replicate_2; unfold MAX_STATES; lia|done|lia|cbn [maxslotin vjsetinparms]; lia|].
    constructor; cbn [cs_hdr]; [done|done|]. intros Hh. exfalso. vm_compute in Hh. lia.
  - done.
Qed.

(** C8: over a line that loses no packet and never runs out of memory, whatever the packets and
    however their conversations share the slots, the receiver gives each one back byte for
    byte: compressed or not, with its identification, lengths and sum made again.  A TCP packet
    that the sender looks into must be whole: its lengths and its sum right, no reserved bit
    set, and an urgent pointer exactly when it has the bit. *)
Theorem line_roundtrip (n : nat) (m cslot cslot' : Z) (ms : list (list Z)) : (2 ≤ n ≤ 16)%nat → Z.of_nat n ≤ m → Forall pkt_ok ms →
  ∃ c d, (c ← vjsetoutparms vjcompress_init (Z.of_nat n) cslot; link_all ms c (vjsetinparms vjcompress_init m cslot')) = Ok (Some <$> ms, c, d).
Proof.
  intros Hn Hm Hp. destruct (link_all_ok ms _ _ (sync_start n m cslot cslot' Hn Hm) Hp) as (c & d & E & _). exists c, d. fold (started (Z.of_nat n) cslot). rewrite started_ok by done. exact E.
Qed.

(** C9: the search takes the slot of the conversation of the packet, and with no such slot the
    one that was used least recently; in both cases it becomes the one used most recently, the
    others keep their order, and no header changes. *)
Theorem find_conn_lru (msg : list Z) (hlen : nat) (comp : vjstruct) (l : list nat) : ring_ok l comp → (∀ x c, x ∈ l → tstate comp !! x = Some c → ∃ b : bool, same_conn msg hlen c = Ok b) →
  ∃ x A B comp', l = A ++ x :: B ∧ find_conn msg hlen comp = Ok (is_conn msg hlen comp x, x, comp') ∧ ring_ok (x :: A ++ B) comp' ∧ same_slots comp comp' ∧
    (is_conn msg hlen comp x = false → B = [] ∧ ∀ y, y ∈ l → is_conn msg hlen comp y = false).
Proof. apply find_conn_ok. Qed.

(** A TCP packet without options, its IP sum made. *)
Definition pkt (port id seq ack flags urp : Z) (bytes : list Z) : list Z :=
  let w v := [Z.shiftr v 8 mod 256; v mod 256] in let d v := w (Z.shiftr v 16) ++ w v in
  let h := [69; 0] ++ w (40 + Z.of_nat (length bytes)) ++ w id ++ [64; 0; 60; 6; 0; 0; 192; 168; 1; 1; 192; 168; 1; 2] in
  let ck := match ip_cksum h 20 with Ok v => v | _ => 0 end in
  take 10 h ++ w ck ++ drop 12 h ++ w port ++ w 23 ++ d seq ++ d ack ++ [80; flags; 34; 56; 18; 52] ++ w urp ++ bytes.

#[global] Instance byte_dec b : Decision (byte b).
Proof. unfold byte. apply _. Defined.
#[global] Instance res_eq_dec {A} `{EqDecision A} : EqDecision (res A).
Proof. solve_decision. Defined.

Definition whole_dec (msg : list Z) : bool :=
  bool_decide ((5 ≤ hl_of msg)%nat ∧ (5 ≤ off_of msg)%nat ∧ g8 msg (t_of msg + 12) mod 16 = 0 ∧ flags_of msg ∈ [16; 24; 48; 56] ∧ (Z.land (flags_of msg) TH_URG =? 0) = (g16 msg (t_of msg + 18) =? 0) ∧
    (hlen_of msg ≤ length msg)%nat ∧ g16 msg 2 = Z.of_nat (length msg) ∧ ip_cksum (p16 msg 10 0) (t_of msg) = Ok (g16 msg 10)).

Lemma pkt_ok_dec msg : bool_decide (Forall byte msg) && whole_dec msg = true → pkt_ok msg.
Proof.
  intros [H1%bool_decide_eq_true H2%bool_decide_eq_true]%andb_true_iff. destruct H2 as (A1 & A2 & A3 & A4 & A5 & A6 & A7 & A8). assert (hdr_ok msg) as Ho by by constructor. pose proof (t_bounds msg H1 Ho A6).
  constructor; [done|lia|lia|]. intros _. by constructor.
Qed.

(** An echoed terminal: data, its acknowledgement, and another conversation. *)
Definition typed : list (list Z) :=
  [pkt 1025 7 100 900 16 0 []; pkt 1025 8 100 900 24 0 [97]; pkt 1025 9 101 901 24 0 [98]; pkt 1026 10 5 6 16 0 [1; 2]; pkt 1025 11 102 902 56 3 [99]; pkt 1026 12 7 6 24 0 [3; 4]; pkt 1026 13 9 6 24 0 [5; 6]].

Lemma typed_ok : Forall pkt_ok typed.
Proof. repeat (apply list.Forall_cons; split; [apply pkt_ok_dec; vm_compute; done|]). by apply list.Forall_nil. Qed.

Lemma line_roundtrip_witness : ∃ c d, (c ← vjsetoutparms vjcompress_init (Z.of_nat 2) 1; link_all typed c (vjsetinparms vjcompress_init 2 1)) = Ok (Some <$> typed, c, d).
Proof. apply (line_roundtrip 2 2 1 1 typed); [lia|lia|exact typed_ok]. Defined.

(** The types and the bytes of a run of the sender. *)
Fixpoint sent_all (ms : list (list Z)) (c : vjstruct) : list (Z * nat) :=
  match ms with
  | [] => []
  | m :: ms => match vjcompress_tcp true m c with Ok (type, m', c) => (type, length m') :: sent_all ms c | _ => [] end
  end.

Example typed_sent : sent_all typed vjcompress_init = [(112, 40%nat); (128, 4%nat); (128, 4%nat); (112, 42%nat); (128, 9%nat); (128, 7%nat); (128, 5%nat)].
Proof. vm_compute. reflexivity. Qed.

Lemma two_slots : ∀ (x : nat) (c : cstate), x ∈ [1%nat; 0%nat] → tstate (MkVj 0 255 255 SLF_TOSS (first_tstate 2) (rstate vjcompress_init) 16 CSLOT 2 1) !! x = Some c → ∃ b : bool, same_conn (pkt 1025 7 100 900 16 0 []) 5 c = Ok b.
Proof. intros x c Hx E. set_unfold. destruct Hx as [->|[->|[]]]; vm_compute in E; injection E as <-; exists false; by vm_compute. Qed.

Lemma find_conn_lru_witness : ∃ x A B comp', [1%nat; 0%nat] = A ++ x :: B ∧
  find_conn (pkt 1025 7 100 900 16 0 []) 5 (MkVj 0 255 255 SLF_TOSS (first_tstate 2) (rstate vjcompress_init) 16 CSLOT 2 1) =
    Ok (is_conn (pkt 1025 7 100 900 16 0 []) 5 (MkVj 0 255 255 SLF_TOSS (first_tstate 2) (rstate vjcompress_init) 16 CSLOT 2 1) x, x, comp') ∧ ring_ok (x :: A ++ B) comp' ∧
  same_slots (MkVj 0 255 255 SLF_TOSS (first_tstate 2) (rstate vjcompress_init) 16 CSLOT 2 1) comp' ∧
  (is_conn (pkt 1025 7 100 900 16 0 []) 5 (MkVj 0 255 255 SLF_TOSS (first_tstate 2) (rstate vjcompress_init) 16 CSLOT 2 1) x = false → B = [] ∧
    ∀ y, y ∈ [1%nat; 0%nat] → is_conn (pkt 1025 7 100 900 16 0 []) 5 (MkVj 0 255 255 SLF_TOSS (first_tstate 2) (rstate vjcompress_init) 16 CSLOT 2 1) y = false).
Proof.
  apply (find_conn_lru (pkt 1025 7 100 900 16 0 []) 5 (MkVj 0 255 255 SLF_TOSS (first_tstate 2) (rstate vjcompress_init) 16 CSLOT 2 1) [1%nat; 0%nat]); [|exact two_slots].
  constructor; [by vm_compute|done|apply (bool_decide_unpack _); vm_compute; done|simpl; lia].
Defined.

(** ** Where the ends part *)

(** The special encodings leave the urgent bit at the receiver: after a segment with the bit
    and an urgent pointer that the next one keeps without the bit, the receiver gives a segment
    that was not sent. *)
Theorem urgent_bit_stays : ∃ c d, link_all [pkt 1025 7 100 900 48 5 [97]; pkt 1025 8 101 900 16 5 [98]] vjcompress_init vjcompress_init =
  Ok ([Some (pkt 1025 7 100 900 48 5 [97]); Some (pkt 1025 8 101 900 48 5 [98])], c, d).
Proof. do 2 eexists. vm_compute. reflexivity. Qed.

(** The state of the slot has the packet before the message for it is allocated: without memory
    the packet is not sent and the next one is told by its differences from it. *)
Theorem no_memory_parts : ∃ c1 d1 m2 c2 c3 d3 m3, link (pkt 1025 7 100 900 16 0 [97]) vjcompress_init vjcompress_init = Ok (Some (pkt 1025 7 100 900 16 0 [97]), c1, d1) ∧
  vjcompress_tcp false (pkt 1025 8 101 900 16 0 [98]) c1 = Ok (TYPE_BAD_TCP, m2, c2) ∧ link (pkt 1025 9 102 900 16 0 [99]) c2 d1 = Ok (Some m3, c3, d3) ∧ m3 ≠ pkt 1025 9 102 900 16 0 [99].
Proof. do 7 eexists. split_and!; [vm_compute; reflexivity|vm_compute; reflexivity|vm_compute; reflexivity|intros E; by vm_compute in E]. Qed.

(** A compressed packet for a slot that no uncompressed packet has filled is not refused: the
    header made for it has no bytes, and its sum is written after its end. *)
Theorem empty_slot_accepted : (∃ d, recv_slot 64 [3; 0; 0; 104; 105] vjcompress_init = Ok (Some [0; 0; 104; 105], d)) ∧
  vjuncompress_tcp true true [64; 3; 0; 0; 104; 105] TYPE_COMPRESSED_TCP vjcompress_init = Fault.
Proof. split; [eexists|]; vm_compute; reflexivity. Qed.

(** A compressed packet that ends in its mask is read past its end. *)
Theorem short_packet_read : vjuncompress_tcp true true [64] TYPE_COMPRESSED_TCP vjcompress_init = Fault.
Proof. by vm_compute. Qed.
