(* ===== verification/Disp.v ===== *)
(** * The dispatcher (uts/common/disp/disp.c, sys/disp.h)

    Each CPU has a dispatch queue and each partition of CPUs one more, for unbound threads that
    preempt the kernel: a list of threads for each priority, with a bitmap of those that are
    not empty and the maximum.

    - Threads, CPUs and partitions are named by numbers; a dispatch queue is that of a CPU or of
      a partition.  The links of a queue are the [t_link] of its threads.
    - A routine runs on a CPU, [me].  What it does with a queue under the lock of the queue is
      one definition, so that other CPUs can come in between two of them.
    - The lock of a thread is the pointer to it, [t_lockp].  [t_astflag], which no lock protects,
      is the set of the threads that have it.
    - Times, statistics and traces are left out; [poke_cpu] adds to [poked].
    - The kernel is that for several processors ([MP]). *)

From S2P Require Import Prelude Bitmap.

(** ** Data *)

Definition TS_SLEEP : Z := 1.
Definition TS_RUN : Z := 2.
Definition TS_ONPROC : Z := 4.
Definition TS_LOAD : Z := 1.
Definition TS_DONT_SWAP : Z := 2.
Definition TS_ON_SWAPQ : Z := 8.
Definition CPU_OFFLINE : Z := 32.
Definition CP_PRIVATE : Z := 2.
Definition Q_MATCH_PRI : Z := 16.
Definition MAX_RUNQ_DIFF : Z := 2.
Definition SHRT_MAX : Z := 32767.

(** The dispatch queue of a CPU and the kpreempt queue of a partition. *)
Inductive dispref : Type :=
  | DCpu (c : Z)
  | DKp (p : Z).
#[global] Instance dispref_eq_dec : EqDecision dispref.
Proof. solve_decision. Defined.

(** The lock that a thread points to. *)
Inductive lockref : Type :=
  | LTransition
  | LSwapped
  | LDisp (d : dispref)
  | LCpuThread (c : Z)
  | LOther.
#[global] Instance lockref_eq_dec : EqDecision lockref.
Proof. solve_decision. Defined.

Record kthread := MkKt {
  t_link : option Z;
  t_pri : Z;
  t_epri : Z;
  t_state : Z;
  t_lockp : lockref;
  t_schedflag : Z;
  t_bound_cpu : option Z;
  t_cpu : Z;
  t_cpupart : Z;
  t_disp_queue : dispref;
  t_disp_time : Z
}.

Record dispq := MkDq { dq_first : option Z; dq_last : option Z; dq_sruncnt : Z }.

Record disp_t := MkDisp {
  disp_npri : Z;
  disp_q : list dispq;
  disp_qactmap : list Z;
  disp_maxrunpri : Z;
  disp_max_unbound_pri : Z;
  disp_nrunnable : Z
}.

Record cpu := MkCpu {
  cpu_flags : Z;
  cpu_thread : Z;
  cpu_idle_thread : Z;
  cpu_part : Z;
  cpu_next_onln : Z;
  cpu_next_part : Z;
  cpu_disp : disp_t;
  cpu_runrun : Z;
  cpu_kprunrun : Z;
  cpu_chosen_level : Z;
  cpu_dispthread : Z
}.

Record cpupart := MkPart { cp_level : Z; cp_cpulist : Z; cp_kp_queue : disp_t }.

Record dsys := MkDs {
  d_threads : gmap Z kthread;
  d_cpus : gmap Z cpu;
  d_parts : gmap Z cpupart;
  kpreemptpri : Z;
  upreemptpri : Z;
  ncpus : Z;
  lbolt : Z;
  rechoose_interval : Z;
  maxclsyspri : Z;
  wake_sched : Z;
  wake_sched_sec : Z;
  poked : list Z;
  t_astflag : gset Z
}.

(** ** Updates *)

Definition set_link x t := MkKt x (t_pri t) (t_epri t) (t_state t) (t_lockp t) (t_schedflag t) (t_bound_cpu t) (t_cpu t) (t_cpupart t) (t_disp_queue t) (t_disp_time t).
Definition THREAD_SET_STATE st lp t := MkKt (t_link t) (t_pri t) (t_epri t) st lp (t_schedflag t) (t_bound_cpu t) (t_cpu t) (t_cpupart t) (t_disp_queue t) (t_disp_time t).
Definition THREAD_TRANSITION t := THREAD_SET_STATE (t_state t) LTransition t.
Definition set_disp_queue x t := MkKt (t_link t) (t_pri t) (t_epri t) (t_state t) (t_lockp t) (t_schedflag t) (t_bound_cpu t) (t_cpu t) (t_cpupart t) x (t_disp_time t).
Definition set_schedflag x t := MkKt (t_link t) (t_pri t) (t_epri t) (t_state t) (t_lockp t) x (t_bound_cpu t) (t_cpu t) (t_cpupart t) (t_disp_queue t) (t_disp_time t).
Definition set_bound_cpu x t := MkKt (t_link t) (t_pri t) (t_epri t) (t_state t) (t_lockp t) (t_schedflag t) x (t_cpu t) (t_cpupart t) (t_disp_queue t) (t_disp_time t).

Definition set_dispq q dp := MkDisp (disp_npri dp) q (disp_qactmap dp) (disp_maxrunpri dp) (disp_max_unbound_pri dp) (disp_nrunnable dp).
Definition set_qactmap m dp := MkDisp (disp_npri dp) (disp_q dp) m (disp_maxrunpri dp) (disp_max_unbound_pri dp) (disp_nrunnable dp).
Definition set_maxrunpri x dp := MkDisp (disp_npri dp) (disp_q dp) (disp_qactmap dp) x (disp_max_unbound_pri dp) (disp_nrunnable dp).
Definition set_max_unbound_pri x dp := MkDisp (disp_npri dp) (disp_q dp) (disp_qactmap dp) (disp_maxrunpri dp) x (disp_nrunnable dp).
Definition set_nrunnable x dp := MkDisp (disp_npri dp) (disp_q dp) (disp_qactmap dp) (disp_maxrunpri dp) (disp_max_unbound_pri dp) x.

Definition set_cpu_disp x c := MkCpu (cpu_flags c) (cpu_thread c) (cpu_idle_thread c) (cpu_part c) (cpu_next_onln c) (cpu_next_part c) x (cpu_runrun c) (cpu_kprunrun c) (cpu_chosen_level c) (cpu_dispthread c).
Definition set_runrun x c := MkCpu (cpu_flags c) (cpu_thread c) (cpu_idle_thread c) (cpu_part c) (cpu_next_onln c) (cpu_next_part c) (cpu_disp c) x (cpu_kprunrun c) (cpu_chosen_level c) (cpu_dispthread c).
Definition set_kprunrun x c := MkCpu (cpu_flags c) (cpu_thread c) (cpu_idle_thread c) (cpu_part c) (cpu_next_onln c) (cpu_next_part c) (cpu_disp c) (cpu_runrun c) x (cpu_chosen_level c) (cpu_dispthread c).
Definition set_chosen_level x c := MkCpu (cpu_flags c) (cpu_thread c) (cpu_idle_thread c) (cpu_part c) (cpu_next_onln c) (cpu_next_part c) (cpu_disp c) (cpu_runrun c) (cpu_kprunrun c) x (cpu_dispthread c).
Definition set_dispthread x c := MkCpu (cpu_flags c) (cpu_thread c) (cpu_idle_thread c) (cpu_part c) (cpu_next_onln c) (cpu_next_part c) (cpu_disp c) (cpu_runrun c) (cpu_kprunrun c) (cpu_chosen_level c) x.
Definition set_kp_queue x p := MkPart (cp_level p) (cp_cpulist p) x.

Definition with_threads x s := MkDs x (d_cpus s) (d_parts s) (kpreemptpri s) (upreemptpri s) (ncpus s) (lbolt s) (rechoose_interval s) (maxclsyspri s) (wake_sched s) (wake_sched_sec s) (poked s) (t_astflag s).
Definition with_cpus x s := MkDs (d_threads s) x (d_parts s) (kpreemptpri s) (upreemptpri s) (ncpus s) (lbolt s) (rechoose_interval s) (maxclsyspri s) (wake_sched s) (wake_sched_sec s) (poked s) (t_astflag s).
Definition with_parts x s := MkDs (d_threads s) (d_cpus s) x (kpreemptpri s) (upreemptpri s) (ncpus s) (lbolt s) (rechoose_interval s) (maxclsyspri s) (wake_sched s) (wake_sched_sec s) (poked s) (t_astflag s).
Definition with_wake x y s := MkDs (d_threads s) (d_cpus s) (d_parts s) (kpreemptpri s) (upreemptpri s) (ncpus s) (lbolt s) (rechoose_interval s) (maxclsyspri s) x y (poked s) (t_astflag s).
Definition poke_cpu c s := MkDs (d_threads s) (d_cpus s) (d_parts s) (kpreemptpri s) (upreemptpri s) (ncpus s) (lbolt s) (rechoose_interval s) (maxclsyspri s) (wake_sched s) (wake_sched_sec s) (poked s ++ [c]) (t_astflag s).

Definition with_ast x s := MkDs (d_threads s) (d_cpus s) (d_parts s) (kpreemptpri s) (upreemptpri s) (ncpus s) (lbolt s) (rechoose_interval s) (maxclsyspri s) (wake_sched s) (wake_sched_sec s) (poked s) x.

Definition get_thread (s : dsys) (tp : Z) : res kthread := deref (d_threads s !! tp).
Definition upd_thread (tp : Z) (f : kthread → kthread) (s : dsys) : res dsys := t ← get_thread s tp; Ok (with_threads (<[tp := f t]> (d_threads s)) s).
Definition aston (tp : Z) (s : dsys) : res dsys := _ ← get_thread s tp; Ok (with_ast ({[tp]} ∪ t_astflag s) s).
Definition get_cpu (s : dsys) (c : Z) : res cpu := deref (d_cpus s !! c).
Definition upd_cpu (c : Z) (f : cpu → cpu) (s : dsys) : res dsys := x ← get_cpu s c; Ok (with_cpus (<[c := f x]> (d_cpus s)) s).
Definition get_part (s : dsys) (p : Z) : res cpupart := deref (d_parts s !! p).

Definition get_disp (s : dsys) (d : dispref) : res disp_t :=
  match d with
  | DCpu c => x ← get_cpu s c; Ok (cpu_disp x)
  | DKp p => x ← get_part s p; Ok (cp_kp_queue x)
  end.
Definition put_disp (d : dispref) (dp : disp_t) (s : dsys) : res dsys :=
  match d with
  | DCpu c => upd_cpu c (set_cpu_disp dp) s
  | DKp p => x ← get_part s p; Ok (with_parts (<[p := set_kp_queue dp x]> (d_parts s)) s)
  end.
Definition get_dq (dp : disp_t) (pri : Z) : res dispq := if pri <? 0 then Fault else deref (disp_q dp !! Z.to_nat pri).
Definition put_dq (pri : Z) (dq : dispq) (dp : disp_t) : disp_t := set_dispq (<[Z.to_nat pri := dq]> (disp_q dp)) dp.

Definition DISP_PRIO (t : kthread) : Z := if t_epri t =? 0 then t_pri t else t_epri t.
Definition thread_prio (s : dsys) (tp : Z) : res Z := t ← get_thread s tp; Ok (DISP_PRIO t).
Definition is_null {A} (o : option A) : bool := match o with None => true | Some _ => false end.

(** ** The choice of a CPU *)

Definition CPU_IDLING (pri : Z) : bool := pri =? -1.

Definition cpu_resched (me cp : Z) (tpri cpupri : Z) (s : dsys) : res dsys :=
  if negb (CPU_IDLING cpupri) && (cpupri <? tpri) then
    c ← get_cpu s cp;
    s ← (if (upreemptpri s <=? tpri) && (cpu_runrun c =? 0) then
           s ← upd_cpu cp (set_runrun 1) s;
           s ← aston (cpu_dispthread c) s;
           Ok (if (tpri <? kpreemptpri s) && negb (cp =? me) then poke_cpu cp s else s)
         else Ok s);
    if (kpreemptpri s <=? tpri) && (cpu_kprunrun c =? 0) then
      s ← upd_cpu cp (set_kprunrun 1) s;
      Ok (if negb (cp =? me) then poke_cpu cp s else s)
    else Ok s
  else Ok s.

(** The priority at which [disp_lowpri_cpu] sees a CPU. *)
Definition cpu_level (s : dsys) (c : cpu) : res Z :=
  cpupri ← thread_prio s (cpu_dispthread c);
  let cpupri := if cpupri <? disp_maxrunpri (cpu_disp c) then disp_maxrunpri (cpu_disp c) else cpupri in
  Ok (if cpupri <? cpu_chosen_level c then cpu_chosen_level c else cpupri).

(** The loop over a ring of CPUs; [public] leaves out the private partitions. *)
Fixpoint lowpri_loop (fuel : nat) (public : bool) (s : dsys) (hint cp bestcpu bestpri : Z) : res Z :=
  match fuel with
  | O => Fault
  | S fuel =>
    c ← get_cpu s cp;
    p ← (if public then p ← get_part s (cpu_part c); Ok (cp_level p =? CP_PRIVATE) else Ok false);
    '(bestcpu, bestpri) ← (if p : bool then Ok (bestcpu, bestpri)
      else cpupri ← cpu_level s c; Ok (if cpupri <? bestpri then (cp, cpupri) else (bestcpu, bestpri)));
    let cp := if public then cpu_next_onln c else cpu_next_part c in
    if cp =? hint then Ok bestcpu else lowpri_loop fuel public s hint cp bestcpu bestpri
  end.

Definition disp_lowpri_cpu (hint : Z) (global : bool) (s : dsys) : res Z :=
  c ← get_cpu s hint;
  p ← get_part s (cpu_part c);
  lowpri_loop (S (size (d_cpus s))) (global && negb (cp_level p =? CP_PRIVATE)) s hint hint hint SHRT_MAX.

Definition cpu_choose (me tp tpri : Z) (s : dsys) : res Z :=
  t ← get_thread s tp;
  m ← get_cpu s me;
  if (kpreemptpri s <=? tpri) || ((rechoose_interval s <? lbolt s - t_disp_time t) && negb (tp =? cpu_thread m)) then disp_lowpri_cpu (t_cpu t) false s
  else Ok (t_cpu t).

(** ** Putting a thread on a queue *)

(** The part of [setbackdq] under the lock of the queue of [cp]. *)
Definition back_section (me cp tp tpri : Z) (s : dsys) : res dsys :=
  s ← upd_thread tp (λ t, set_link None (set_disp_queue (DCpu cp) (THREAD_SET_STATE TS_RUN (LDisp (DCpu cp)) t))) s;
  c ← get_cpu s cp;
  let dp := cpu_disp c in
  dq ← get_dq dp tpri;
  let dp := set_nrunnable (disp_nrunnable dp + 1) dp in
  s ← (if negb (dq_sruncnt dq =? 0) then
         last ← deref (dq_last dq);
         s ← upd_thread last (set_link (Some tp)) s;
         put_disp (DCpu cp) (put_dq tpri (MkDq (dq_first dq) (Some tp) (dq_sruncnt dq + 1)) dp) s
       else
         map ← BT_SET (disp_qactmap dp) tpri;
         let dp := set_qactmap map (put_dq tpri (MkDq (Some tp) (Some tp) (dq_sruncnt dq + 1)) dp) in
         if disp_maxrunpri dp <? tpri then
           s ← put_disp (DCpu cp) (set_maxrunpri tpri dp) s;
           cpupri ← thread_prio s (cpu_dispthread c);
           cpu_resched me cp tpri cpupri s
         else put_disp (DCpu cp) dp s);
  t ← get_thread s tp;
  dp ← get_disp s (DCpu cp);
  if is_null (t_bound_cpu t) && (disp_max_unbound_pri dp <? tpri) then put_disp (DCpu cp) (set_max_unbound_pri tpri dp) s else Ok s.

(** The part of [setfrontdq] under the lock of the queue of [cp]. *)
Definition front_section (me cp tp tpri : Z) (s : dsys) : res dsys :=
  s ← upd_thread tp (λ t, set_disp_queue (DCpu cp) (THREAD_SET_STATE TS_RUN (LDisp (DCpu cp)) t)) s;
  c ← get_cpu s cp;
  let dp := cpu_disp c in
  dq ← get_dq dp tpri;
  let dp := set_nrunnable (disp_nrunnable dp + 1) dp in
  s ← (if negb (dq_sruncnt dq =? 0) then
         s ← upd_thread tp (set_link (dq_first dq)) s;
         put_disp (DCpu cp) (put_dq tpri (MkDq (Some tp) (dq_last dq) (dq_sruncnt dq + 1)) dp) s
       else
         s ← upd_thread tp (set_link None) s;
         map ← BT_SET (disp_qactmap dp) tpri;
         let dp := set_qactmap map (put_dq tpri (MkDq (Some tp) (Some tp) (dq_sruncnt dq + 1)) dp) in
         if disp_maxrunpri dp <? tpri then
           s ← put_disp (DCpu cp) (set_maxrunpri tpri dp) s;
           cpupri ← thread_prio s (cpu_dispthread c);
           cpu_resched me cp tpri cpupri s
         else put_disp (DCpu cp) dp s);
  t ← get_thread s tp;
  dp ← get_disp s (DCpu cp);
  if is_null (t_bound_cpu t) && (disp_max_unbound_pri dp <? tpri) then put_disp (DCpu cp) (set_max_unbound_pri tpri dp) s else Ok s.

(** The part of [setkpdq] under the lock of the queue of the partition. *)
Definition kp_section (front : bool) (tp tpri : Z) (s : dsys) : res dsys :=
  t ← get_thread s tp;
  let d := DKp (t_cpupart t) in
  s ← upd_thread tp (λ t, set_disp_queue d (THREAD_SET_STATE TS_RUN (LDisp d) t)) s;
  dp ← get_disp s d;
  let dp := set_nrunnable (disp_nrunnable dp + 1) dp in
  dq ← get_dq dp tpri;
  if negb (dq_sruncnt dq =? 0) then
    if front then
      s ← upd_thread tp (set_link (dq_first dq)) s;
      put_disp d (put_dq tpri (MkDq (Some tp) (dq_last dq) (dq_sruncnt dq + 1)) dp) s
    else
      s ← upd_thread tp (set_link None) s;
      last ← deref (dq_last dq);
      s ← upd_thread last (set_link (Some tp)) s;
      put_disp d (put_dq tpri (MkDq (dq_first dq) (Some tp) (dq_sruncnt dq + 1)) dp) s
  else
    s ← (if front then upd_thread tp (set_link None) s else Ok s);
    map ← BT_SET (disp_qactmap dp) tpri;
    let dp := set_qactmap map (put_dq tpri (MkDq (Some tp) (Some tp) (dq_sruncnt dq + 1)) dp) in
    let dp := if disp_max_unbound_pri dp <? tpri then set_max_unbound_pri tpri dp else dp in
    put_disp d (if disp_maxrunpri dp <? tpri then set_maxrunpri tpri dp else dp) s.

(** [front] is [SETKP_FRONT]. *)
Definition setkpdq (me : Z) (front : bool) (tp : Z) (s : dsys) : res dsys :=
  tpri ← thread_prio s tp;
  s ← kp_section front tp tpri s;
  cp ← cpu_choose me tp tpri s;
  c ← get_cpu s cp;
  s ← (if cpu_chosen_level c <? tpri then upd_cpu cp (set_chosen_level tpri) s else Ok s);
  cpupri ← thread_prio s (cpu_dispthread c);
  cpu_resched me cp tpri cpupri s.

Definition disp_swapped_setrun (tp : Z) (s : dsys) : res dsys :=
  t ← get_thread s tp;
  if t_state t =? TS_SLEEP then
    let s := if maxclsyspri s <? DISP_PRIO t then with_wake 1 (wake_sched_sec s) s else with_wake (wake_sched s) 1 s in
    upd_thread tp (THREAD_SET_STATE TS_RUN LSwapped) s
  else if t_state t =? TS_RUN then Ok s
  else Panic "disp_swapped_setrun: bad t_state".

(** Whether a thread is in memory and not on the swap queue. *)
Definition loaded (t : kthread) : bool := Z.land (t_schedflag t) (Z.lor TS_LOAD TS_ON_SWAPQ) =? TS_LOAD.

Definition queue_len (s : dsys) (cp tpri : Z) : res Z := c ← get_cpu s cp; dq ← get_dq (cpu_disp c) tpri; Ok (dq_sruncnt dq).

(** The CPU to whose queue [setbackdq] adds an unbound thread. *)
Definition back_cpu (me tp tpri : Z) (t : kthread) (s : dsys) : res Z :=
  cp ← cpu_choose me tp tpri s;
  c ← get_cpu s cp;
  if t_cpupart t =? cpu_part c then
    qlen ← queue_len s cp tpri;
    let qlen := if Q_MATCH_PRI <=? tpri then qlen - MAX_RUNQ_DIFF else qlen in
    if 0 <? qlen then
      n ← queue_len s (cpu_next_part c) tpri;
      Ok (if n <? qlen then cpu_next_part c else cp)
    else Ok cp
  else p ← get_part s (t_cpupart t); disp_lowpri_cpu (cp_cpulist p) false s.

Definition setbackdq (me tp : Z) (s : dsys) : res dsys :=
  t ← get_thread s tp;
  if negb (loaded t) then disp_swapped_setrun tp s
  else
    let tpri := DISP_PRIO t in
    if ncpus s =? 1 then back_section me (t_cpu t) tp tpri s
    else
      match t_bound_cpu t with
      | Some cp => back_section me cp tp tpri s
      | None =>
        if kpreemptpri s <=? tpri then setkpdq me false tp s
        else cp ← back_cpu me tp tpri t s; back_section me cp tp tpri s
      end.

(** The CPU to whose queue [setfrontdq] adds an unbound thread. *)
Definition front_cpu (me tp tpri : Z) (t : kthread) (s : dsys) : res Z :=
  c ← get_cpu s (t_cpu t);
  if t_cpupart t =? cpu_part c then
    if tpri <? disp_maxrunpri (cpu_disp c) then cpu_choose me tp tpri s else Ok (t_cpu t)
  else p ← get_part s (t_cpupart t); disp_lowpri_cpu (cp_cpulist p) false s.

Definition setfrontdq (me tp : Z) (s : dsys) : res dsys :=
  t ← get_thread s tp;
  if negb (loaded t) then disp_swapped_setrun tp s
  else
    let tpri := DISP_PRIO t in
    if ncpus s =? 1 then front_section me (t_cpu t) tp tpri s
    else
      match t_bound_cpu t with
      | Some cp => front_section me cp tp tpri s
      | None =>
        if kpreemptpri s <=? tpri then setkpdq me true tp s
        else cp ← front_cpu me tp tpri t s; front_section me cp tp tpri s
      end.

(** ** Taking a thread off its queue *)

(** The thread before [tp], if any, and [tp] itself or the end of the queue. *)
Fixpoint deq_search (fuel : nat) (s : dsys) (tp : Z) (trp rp : option Z) : res (option Z * option Z) :=
  match fuel with
  | O => Fault
  | S fuel =>
    match rp with
    | None => Ok (trp, None)
    | Some r => if r =? tp then Ok (trp, rp) else t ← get_thread s r; deq_search fuel s tp rp (t_link t)
    end
  end.

(** [disp_qactmap[pri >> BT_ULSHIFT] &= ~BT_BIW(pri)] *)
Definition clear_act (pri : Z) (dp : disp_t) : res disp_t := map ← BT_CLEAR (disp_qactmap dp) pri; Ok (set_qactmap map dp).

(** [disp_maxrunpri] and [disp_max_unbound_pri] when a queue became empty, where its priority
    may have been the highest. *)
Definition new_max (pri : Z) (dp : disp_t) : res disp_t :=
  ipri ← bt_gethighbit (disp_qactmap dp) (Z.shiftr pri BT_ULSHIFT);
  let dp := if ipri <? disp_max_unbound_pri dp then set_max_unbound_pri ipri dp else dp in
  Ok (set_maxrunpri ipri dp).

Definition dispdeq (tp : Z) (s : dsys) : res (bool * dsys) :=
  t ← get_thread s tp;
  if negb (t_state t =? TS_RUN) then Ok (false, s)
  else if negb (loaded t) then Ok (true, s)
  else
    let tpri := DISP_PRIO t in
    let d := t_disp_queue t in
    dp ← get_disp s d;
    dq ← get_dq dp tpri;
    '(trp, rp) ← deq_search (S (size (d_threads s))) s tp None (dq_first dq);
    match rp with
    | None => Panic "dispdeq: thread not on queue"
    | Some _ =>
      '(first, s) ← (match trp with
                     | None => Ok (t_link t, s)
                     | Some p => s ← upd_thread p (set_link (t_link t)) s; Ok (dq_first dq, s)
                     end);
      let last := if is_null (t_link t) then trp else dq_last dq in
      let dp := set_nrunnable (disp_nrunnable dp - 1) (put_dq tpri (MkDq first last (dq_sruncnt dq - 1)) dp) in
      dp ← (if dq_sruncnt dq - 1 =? 0 then
              dp ← clear_act tpri dp;
              if disp_nrunnable dp =? 0 then Ok (set_maxrunpri (-1) (set_max_unbound_pri (-1) dp))
              else if tpri =? disp_maxrunpri dp then new_max (disp_maxrunpri dp) dp
              else Ok dp
            else Ok dp);
      s ← put_disp d dp s;
      s ← upd_thread tp (λ t, THREAD_TRANSITION (set_link None t)) s;
      Ok (true, s)
    end.

Definition thread_onproc (cp : Z) (t : kthread) : kthread := THREAD_SET_STATE TS_ONPROC (LCpuThread cp) t.

(** ** Choosing a thread to run *)

(** Threads bound to a CPU are passed over. *)
Fixpoint skip_bound (fuel : nat) (s : dsys) (tp : option Z) : res (option Z) :=
  match fuel with
  | O => Fault
  | S fuel =>
    match tp with
    | None => Ok None
    | Some r => t ← get_thread s r; if is_null (t_bound_cpu t) then Ok tp else skip_bound fuel s (t_link t)
    end
  end.

(** The loop of [disp_fix_unbound_pri]: the highest priority below [pri] with an unbound
    thread, or -1. *)
Fixpoint unbound_below (fuel : nat) (s : dsys) (dp : disp_t) (pri : Z) : res Z :=
  match fuel with
  | O => Fault
  | S fuel =>
    let wx := Z.shiftr pri BT_ULSHIFT in
    word ← deref (disp_qactmap dp !! Z.to_nat wx);
    let mapword := Z.land word (sub32 (BT_BIW pri) 1) in
    pri ← (if negb (mapword =? 0) then Ok (Z.shiftl wx BT_ULSHIFT + highbit mapword - 1)
           else if 0 <? wx then bt_gethighbit (disp_qactmap dp) (wx - 1)
           else Ok (-1));
    if pri <? 0 then Ok pri
    else
      dq ← get_dq dp pri;
      tp ← skip_bound (S (size (d_threads s))) s (dq_first dq);
      match tp with
      | None => unbound_below fuel s dp pri
      | Some _ => Ok pri
      end
  end.

Definition disp_fix_unbound_pri (d : dispref) (pri : Z) (s : dsys) : res dsys :=
  dp ← get_disp s d;
  pri ← unbound_below (S (Z.to_nat pri)) s dp pri;
  put_disp d (set_max_unbound_pri pri dp) s.

Definition disp_getbest (me : Z) (d : dispref) (s : dsys) : res (option Z * dsys) :=
  dp ← get_disp s d;
  let pri := disp_max_unbound_pri dp in
  if pri =? -1 then Ok (None, s)
  else
    dq ← get_dq dp pri;
    tp ← skip_bound (S (size (d_threads s))) s (dq_first dq);
    match tp with
    | None => s ← disp_fix_unbound_pri d pri s; Ok (None, s)
    | Some tp =>
      '(_, s) ← dispdeq tp s;
      s ← upd_thread tp (λ t, set_disp_queue (DCpu me) (set_schedflag (Z.lor (t_schedflag t) TS_DONT_SWAP) t)) s;
      s ← upd_cpu me (set_dispthread tp) s;
      s ← upd_thread tp (thread_onproc me) s;
      Ok (Some tp, s)
    end.

(** The thread, or [None] for one that was put back. *)
Definition disp_ratify (me tp : Z) (kpq : Z) (s : dsys) : res (option Z * dsys) :=
  s ← upd_cpu me (λ c, set_runrun 0 (set_kprunrun 0 (set_chosen_level (-1) c))) s;
  tpri ← thread_prio s tp;
  c ← get_cpu s me;
  k ← get_part s kpq;
  let maxpri := disp_maxrunpri (cpu_disp c) in
  let maxkpri := disp_maxrunpri (cp_kp_queue k) in
  let maxpri := if maxpri <? maxkpri then maxkpri else maxpri in
  if tpri <? maxpri then
    s ← upd_cpu me (λ c, set_dispthread (cpu_thread c) c) s;
    s ← upd_thread tp THREAD_TRANSITION s;
    s ← setfrontdq me tp s;
    Ok (None, s)
  else Ok (Some tp, s).

(** The CPU of the partition with the best unbound thread, and the CPU itself if there is none. *)
Fixpoint getwork_loop (fuel : nat) (s : dsys) (cp ocp : Z) (tcp : option Z) (maxpri : Z) : res (option Z) :=
  match fuel with
  | O => Fault
  | S fuel =>
    if ocp =? cp then Ok tcp
    else
      c ← get_cpu s ocp;
      let pri := disp_max_unbound_pri (cpu_disp c) in
      if disp_nrunnable (cpu_disp c) <=? 1 then getwork_loop fuel s cp (cpu_next_part c) tcp maxpri
      else if maxpri <? pri then getwork_loop fuel s cp (cpu_next_part c) (Some ocp) pri
      else getwork_loop fuel s cp (cpu_next_part c) tcp maxpri
  end.

(** [while (kpq->disp_maxrunpri >= 0)] *)
Fixpoint kp_work (fuel : nat) (me kpq : Z) (s : dsys) : res (option Z * dsys) :=
  match fuel with
  | O => Fault
  | S fuel =>
    k ← get_part s kpq;
    if disp_maxrunpri (cp_kp_queue k) <? 0 then Ok (None, s)
    else
      '(tp, s) ← disp_getbest me (DKp kpq) s;
      match tp with
      | Some _ => Ok (tp, s)
      | None => kp_work fuel me kpq s
      end
  end.

Definition disp_getwork (fuel : nat) (me : Z) (s : dsys) : res (option Z * dsys) :=
  c ← get_cpu s me;
  let kpq := cpu_part c in
  '(tp, s) ← kp_work fuel me kpq s;
  match tp with
  | Some tp => disp_ratify me tp kpq s
  | None =>
    tcp ← getwork_loop (S (size (d_cpus s))) s me (cpu_next_part c) None (-1);
    match tcp with
    | None => Ok (None, s)
    | Some tcp =>
      '(tp, s) ← disp_getbest me (DCpu tcp) s;
      match tp with
      | Some tp => disp_ratify me tp kpq s
      | None => Ok (None, s)
      end
    end
  end.

(** [THREAD_ONPROC] of the idle thread *)
Definition run_idle (me : Z) (s : dsys) : res (Z * dsys) :=
  c ← get_cpu s me;
  s ← upd_thread (cpu_idle_thread c) (thread_onproc me) s;
  s ← upd_cpu me (λ c, set_chosen_level (-1) (set_kprunrun 0 (set_runrun 0 (set_dispthread (cpu_idle_thread c) c)))) s;
  Ok (cpu_idle_thread c, s).

(** The part of [disp] under the lock of the CPU's queue, which has a thread: it is taken. *)
Definition take_section (me : Z) (s : dsys) : res (Z * dsys) :=
  dp ← get_disp s (DCpu me);
  let pri := disp_maxrunpri dp in
  dq ← get_dq dp pri;
  tp ← deref (dq_first dq);
  t ← get_thread s tp;
  let last := if is_null (t_link t) then None else dq_last dq in
  let dp := set_nrunnable (disp_nrunnable dp - 1) (put_dq pri (MkDq (t_link t) last (dq_sruncnt dq - 1)) dp) in
  dp ← (if is_null (t_link t) then
          dp ← clear_act pri dp;
          if disp_nrunnable dp =? 0 then Ok (set_maxrunpri (-1) (set_max_unbound_pri (-1) dp)) else new_max pri dp
        else Ok dp);
  s ← put_disp (DCpu me) dp s;
  s ← upd_thread tp (λ t, set_link None (set_schedflag (Z.lor (t_schedflag t) TS_DONT_SWAP) t)) s;
  s ← upd_cpu me (set_dispthread tp) s;
  s ← upd_thread tp (thread_onproc me) s;
  Ok (tp, s).

(** The first loop of [disp]: a thread of the kpreempt queue. *)
Fixpoint kp_first (fuel : nat) (me kpq : Z) (s : dsys) : res (option Z * dsys) :=
  match fuel with
  | O => Fault
  | S fuel =>
    k ← get_part s kpq;
    c ← get_cpu s me;
    let pri := disp_maxrunpri (cp_kp_queue k) in
    if (0 <=? pri) && (disp_maxrunpri (cpu_disp c) <=? pri) && (Z.land (cpu_flags c) CPU_OFFLINE =? 0) then
      '(tp, s) ← disp_getbest me (DKp kpq) s;
      match tp with
      | None => Ok (None, s)
      | Some tp =>
        '(r, s) ← disp_ratify me tp kpq s;
        match r with
        | Some _ => Ok (Some tp, s)
        | None => kp_first fuel me kpq s
        end
      end
    else Ok (None, s)
  end.

Fixpoint disp (fuel : nat) (me : Z) (s : dsys) : res (Z * dsys) :=
  match fuel with
  | O => Fault
  | S fuel' =>
    c ← get_cpu s me;
    let kpq := cpu_part c in
    '(tp, s) ← kp_first fuel me kpq s;
    match tp with
    | Some tp => Ok (tp, s)
    | None =>
      dp ← get_disp s (DCpu me);
      if disp_maxrunpri dp =? -1 then
        if Z.land (cpu_flags c) CPU_OFFLINE =? 0 then
          '(tp, s) ← disp_getwork fuel me s;
          match tp with
          | Some tp => Ok (tp, s)
          | None => run_idle me s
          end
        else run_idle me s
      else
        '(tp, s) ← take_section me s;
        '(r, s) ← disp_ratify me tp kpq s;
        match r with
        | Some tp => Ok (tp, s)
        | None => disp fuel' me s
        end
    end
  end.

(** ** Swapped threads, surrender and CPUs that go *)

Definition disp_swapped_enq (tp : Z) (s : dsys) : res dsys :=
  t ← get_thread s tp;
  if t_state t =? TS_RUN then upd_thread tp (THREAD_SET_STATE TS_RUN LSwapped) s
  else if t_state t =? TS_ONPROC then upd_thread tp (THREAD_SET_STATE TS_RUN LSwapped) (with_wake (wake_sched s) 1 s)
  else Panic "disp_swapped: bad t_state".

Definition dq_sruninc (me tp : Z) (s : dsys) : res dsys := s ← upd_thread tp THREAD_TRANSITION s; setfrontdq me tp s.
Definition dq_srundec (tp : Z) (s : dsys) : res dsys := '(_, s) ← dispdeq tp s; disp_swapped_enq tp s.

(** [user] says that the thread is the current one and in user mode. *)
Definition cpu_surrender (me tp : Z) (user : bool) (s : dsys) : res dsys :=
  t ← get_thread s tp;
  if negb (t_state t =? TS_ONPROC) then Ok s
  else
    match t_disp_queue t with
    | DKp _ => Fault
    | DCpu cp =>
      c ← get_cpu s cp;
      k ← get_part s (cpu_part c);
      let max_pri := disp_maxrunpri (cpu_disp c) in
      let max_run_pri := disp_maxrunpri (cp_kp_queue k) in
      let max_pri := if max_pri <? max_run_pri then max_run_pri else max_pri in
      s ← upd_cpu cp (set_runrun 1) s;
      s ← (if (kpreemptpri s <=? max_pri) && (cpu_kprunrun c =? 0) then upd_cpu cp (set_kprunrun 1) s else Ok s);
      if negb user then
        s ← aston tp s;
        Ok (if negb (cp =? me) then poke_cpu cp s else s)
      else Ok s
    end.

(** A CPU that goes off line gives its unbound threads away. *)
Fixpoint disp_cpu_inactive (fuel : nat) (me cp : Z) (s : dsys) : res dsys :=
  match fuel with
  | O => Fault
  | S fuel =>
    dp ← get_disp s (DCpu cp);
    let pri := disp_max_unbound_pri dp in
    if pri =? -1 then Ok s
    else
      dq ← get_dq dp pri;
      tp ← skip_bound (S (size (d_threads s))) s (dq_first dq);
      match tp with
      | None => s ← disp_fix_unbound_pri (DCpu cp) pri s; disp_cpu_inactive fuel me cp s
      | Some tp =>
        '(_, s) ← dispdeq tp s;
        s ← setbackdq me tp s;
        disp_cpu_inactive fuel me cp s
      end
  end.

(** The kpreempt queue of a partition that goes: [p] is the queue, and the threads have been
    given another partition. *)
Fixpoint disp_kp_inactive (fuel : nat) (me p : Z) (s : dsys) : res dsys :=
  match fuel with
  | O => Fault
  | S fuel =>
    dp ← get_disp s (DKp p);
    let pri := disp_maxrunpri dp in
    if pri =? -1 then Ok s
    else
      dq ← get_dq dp pri;
      tp ← deref (dq_first dq);
      '(_, s) ← dispdeq tp s;
      s ← setkpdq me false tp s;
      disp_kp_inactive fuel me p s
  end.

(** ** The queues *)

Definition empty_dq : dispq := MkDq None None 0.

(** [disp_cpu_init], and the first allocation: [numpris] empty queues. *)
Definition new_disp (numpris : Z) : disp_t :=
  MkDisp numpris (replicate (Z.to_nat numpris) empty_dq) (replicate (Z.to_nat (numpris / BT_NBIPUL + 1)) 0) (-1) (-1) 0.

(** [disp_dq_alloc] and [disp_dq_assign]: more priorities. *)
Definition disp_dq_assign (numpris : Z) (dp : disp_t) : disp_t :=
  let newdispq := replicate (Z.to_nat numpris) empty_dq in
  let newdqactmap := replicate (Z.to_nat (numpris / BT_NBIPUL + 1)) 0 in
  let n := Z.to_nat (disp_npri dp) in
  let w := Z.to_nat (disp_npri dp / BT_NBIPUL + 1) in
  MkDisp numpris (take n (disp_q dp) ++ drop n newdispq) (take w (disp_qactmap dp) ++ drop w newdqactmap) (disp_maxrunpri dp) (disp_max_unbound_pri dp) (disp_nrunnable dp).

(** The binding of a thread by [cpu_bind_thread] (os/cpu.c), once it is allowed: to a CPU, or to
    none; [affinity] says that the kernel holds the thread where it is. *)
Definition cpu_bind_thread (me tp : Z) (cp : option Z) (affinity : bool) (s : dsys) : res dsys :=
  if affinity then Ok s
  else
    s ← upd_thread tp (set_bound_cpu cp) s;
    t ← get_thread s tp;
    c ← get_cpu s (t_cpu t);
    let move := match cp with None => negb (cpu_part c =? t_cpupart t) | Some cp => negb (cp =? t_cpu t) end in
    if move then
      if t_state t =? TS_ONPROC then cpu_surrender me tp false s
      else if t_state t =? TS_RUN then '(_, s) ← dispdeq tp s; setbackdq me tp s
      else Ok s
    else Ok s.
