(* ===== verification/DispSys.v ===== *)
(** * Dispatch queues as lists

    A dispatch queue represents a list of threads for each priority: the heads and the ends, the
    counts, the bitmap and the maximum are those of the lists ([dq_ok]).  [disp_inv] is what
    holds of all the queues, their threads and the CPUs between the sections of the dispatcher;
    [frame] and [sys_wf] say what the dispatcher does not change and what its pointers lead to.
    Adding or taking a thread changes the lists ([inv_add], [inv_remove]). *)

From S2P Require Import Prelude Bitmap Disp.

(** ** Bits of a map *)

Lemma act_set map i : bitmap_ok map → in_map map i → ∃ m, BT_SET map i = Ok m ∧ bitmap_ok m ∧ length m = length map ∧ ∀ j, in_map map j → bit m j = if j =? i then true else bit map j.
Proof.
  intros Hok Hi. destruct (bt_set_clear_update map i Hok Hi) as (m & mc & E & _ & Hm & _ & Hj). exists m. split; [done|]. split; [done|].
  assert (length m = length map) as Hl. { unfold BT_SET, BT_WIM in E. destruct (word_lookup _ _ Hi) as [w Hw]. rewrite word_index, Hw in E. simpl in E. injection E as <-. by rewrite length_insert. }
  split; [done|]. intros j Hin. destruct (Hj j Hin) as [H1 _]. rewrite BT_TEST_bit in H1 by (unfold in_map in *; by rewrite Hl). rewrite BT_TEST_bit in H1 by done. destruct (j =? i); by injection H1.
Qed.

Lemma act_clear map i : bitmap_ok map → in_map map i → ∃ m, BT_CLEAR map i = Ok m ∧ bitmap_ok m ∧ length m = length map ∧ ∀ j, in_map map j → bit m j = if j =? i then false else bit map j.
Proof.
  intros Hok Hi. destruct (bt_set_clear_update map i Hok Hi) as (ms & m & _ & E & _ & Hm & Hj). exists m. split; [done|]. split; [done|].
  assert (length m = length map) as Hl. { unfold BT_CLEAR, BT_WIM in E. destruct (word_lookup _ _ Hi) as [w Hw]. rewrite word_index, Hw in E. simpl in E. injection E as <-. by rewrite length_insert. }
  split; [done|]. intros j Hin. destruct (Hj j Hin) as [_ H1]. rewrite BT_TEST_bit in H1 by (unfold in_map in *; by rewrite Hl). rewrite BT_TEST_bit in H1 by done. destruct (j =? i); by injection H1.
Qed.

(** ** One queue *)

Section levels.
Implicit Types (L : Z → list Z).

Definition set_level (pri : Z) (l : list Z) L : Z → list Z := λ p, if decide (p = pri) then l else L p.

Lemma set_level_eq pri l L : set_level pri l L pri = l.
Proof. unfold set_level. by rewrite decide_True. Qed.
Lemma set_level_ne pri l L p : p ≠ pri → set_level pri l L p = L p.
Proof. intros H. unfold set_level. by rewrite decide_False. Qed.

(** The threads of the first [n] priorities. *)
Fixpoint total (n : nat) L : Z := match n with O => 0 | S n => total n L + Z.of_nat (length (L (Z.of_nat n))) end.

Lemma total_set n L pri l : 0 ≤ pri → total n (set_level pri l L) = total n L + (if pri <? Z.of_nat n then Z.of_nat (length l) - Z.of_nat (length (L pri)) else 0).
Proof.
  intros Hp. induction n as [|n IH]; [cbn [total]; by rewrite (proj2 (Z.ltb_ge _ _)) by lia|]. cbn [total]. rewrite IH. destruct (decide (Z.of_nat n = pri)) as [<-|Hne].
  - rewrite set_level_eq. rewrite (proj2 (Z.ltb_ge (Z.of_nat n) (Z.of_nat n))) by lia. rewrite (proj2 (Z.ltb_lt (Z.of_nat n) (Z.of_nat (S n)))) by lia. lia.
  - rewrite set_level_ne by done. destruct (Z.ltb_spec pri (Z.of_nat n)); [rewrite (proj2 (Z.ltb_lt pri (Z.of_nat (S n)))) by lia|rewrite (proj2 (Z.ltb_ge pri (Z.of_nat (S n)))) by lia]; lia.
Qed.

Lemma total_ge_0 n L : 0 ≤ total n L.
Proof. induction n as [|n IH]; simpl; lia. Qed.

Lemma total_zero n L : total n L = 0 → ∀ p, 0 ≤ p < Z.of_nat n → L p = [].
Proof.
  induction n as [|n IH]; cbn [total]; intros E p Hp; [lia|]. pose proof (total_ge_0 n L). destruct (decide (p = Z.of_nat n)) as [->|Hne].
  - apply nil_length_inv. lia.
  - apply IH; lia.
Qed.

Lemma total_empty n L : (∀ p, 0 ≤ p < Z.of_nat n → L p = []) → total n L = 0.
Proof. induction n as [|n IH]; cbn [total]; intros H; [done|]. rewrite IH by (intros p Hp; apply H; lia). rewrite H by lia. done. Qed.

Record dq_ok (dp : disp_t) L : Prop := {
  dk_npri : 0 ≤ disp_npri dp;
  dk_len : length (disp_q dp) = Z.to_nat (disp_npri dp);
  dk_bits : bitmap_ok (disp_qactmap dp);
  dk_maplen : length (disp_qactmap dp) = Z.to_nat (disp_npri dp / 32 + 1);
  dk_level pri : 0 ≤ pri < disp_npri dp → disp_q dp !! Z.to_nat pri = Some (MkDq (head (L pri)) (list.last (L pri)) (Z.of_nat (length (L pri))));
  dk_out pri : ¬ (0 ≤ pri < disp_npri dp) → L pri = [];
  dk_bit j : in_map (disp_qactmap dp) j → bit (disp_qactmap dp) j = bool_decide (L j ≠ []);
  dk_maxlow : -1 ≤ disp_maxrunpri dp;
  dk_max : 0 ≤ disp_maxrunpri dp → L (disp_maxrunpri dp) ≠ [];
  dk_above j : disp_maxrunpri dp < j → L j = [];
  dk_cnt : disp_nrunnable dp = total (Z.to_nat (disp_npri dp)) L;
  dk_ub : -1 ≤ disp_max_unbound_pri dp ≤ disp_maxrunpri dp
}.

Lemma dk_in_map dp L pri : dq_ok dp L → 0 ≤ pri < disp_npri dp → in_map (disp_qactmap dp) pri.
Proof. intros [H1 H2 H3 H4 _ _ _ _ _ _ _ _] Hp. unfold in_map. rewrite H4. pose proof (Z.div_mod (disp_npri dp) 32). pose proof (Z.mod_pos_bound (disp_npri dp) 32). rewrite Z2Nat.id by (pose proof (Z.div_pos (disp_npri dp) 32); lia). lia. Qed.

Lemma dk_get dp L pri : dq_ok dp L → 0 ≤ pri < disp_npri dp → get_dq dp pri = Ok (MkDq (head (L pri)) (list.last (L pri)) (Z.of_nat (length (L pri)))).
Proof. intros H Hp. unfold get_dq. rewrite (proj2 (Z.ltb_ge _ _)) by lia. by rewrite (dk_level _ _ H). Qed.

Lemma dk_max_range dp L : dq_ok dp L → disp_maxrunpri dp < disp_npri dp.
Proof. intros H. pose proof (dk_npri _ _ H). destruct (decide (disp_maxrunpri dp < disp_npri dp)) as [|Hn]; [done|]. exfalso. apply (dk_max _ _ H); [lia|]. apply (dk_out _ _ H). lia. Qed.

(** The queue after a thread is added: [map] has the bit of the priority. *)
Lemma dq_ok_insert dp L pri l map ub : dq_ok dp L → 0 ≤ pri < disp_npri dp → length l = S (length (L pri)) →
  (if decide (L pri = []) then BT_SET (disp_qactmap dp) pri = Ok map else map = disp_qactmap dp) → -1 ≤ ub ≤ Z.max (disp_maxrunpri dp) pri →
  dq_ok (MkDisp (disp_npri dp) (<[Z.to_nat pri := MkDq (head l) (list.last l) (Z.of_nat (length l))]> (disp_q dp)) map (Z.max (disp_maxrunpri dp) pri) ub (disp_nrunnable dp + 1)) (set_level pri l L).
Proof.
  intros H Hp Hl Hmap Hub. pose proof (dk_in_map _ _ _ H Hp) as Hin. assert (l ≠ []) as Hne by (intros ->; done).
  assert (bitmap_ok map ∧ length map = length (disp_qactmap dp) ∧ ∀ j, in_map (disp_qactmap dp) j → bit map j = if j =? pri then true else bit (disp_qactmap dp) j) as (M1 & M2 & M3).
  { destruct (decide (L pri = [])) as [E|E].
    - destruct (act_set _ _ (dk_bits _ _ H) Hin) as (m & Em & H1 & H2 & H3). rewrite Em in Hmap. injection Hmap as <-. done.
    - subst map. split; [apply (dk_bits _ _ H)|]. split; [done|]. intros j Hj. destruct (Z.eqb_spec j pri) as [->|]; [|done]. rewrite (dk_bit _ _ H) by done. by apply bool_decide_eq_true. }
  constructor; cbn [disp_npri disp_q disp_qactmap disp_maxrunpri disp_max_unbound_pri disp_nrunnable].
  - apply (dk_npri _ _ H).
  - rewrite length_insert. apply (dk_len _ _ H).
  - done.
  - rewrite M2. apply (dk_maplen _ _ H).
  - intros p Hpp. destruct (decide (p = pri)) as [->|Hpn].
    + rewrite set_level_eq, list_lookup_insert_eq; [done|]. rewrite (dk_len _ _ H). lia.
    + rewrite set_level_ne, list_lookup_insert_ne by (done || lia). by apply (dk_level _ _ H).
  - intros p Hpp. rewrite set_level_ne by (intros ->; done). by apply (dk_out _ _ H).
  - intros j Hj. assert (in_map (disp_qactmap dp) j) as Hj' by (unfold in_map in *; by rewrite <- M2). rewrite M3 by done. destruct (Z.eqb_spec j pri) as [->|Hjn].
    + rewrite set_level_eq. symmetry. by apply bool_decide_eq_true.
    + rewrite set_level_ne by done. by apply (dk_bit _ _ H).
  - pose proof (dk_maxlow _ _ H). lia.
  - intros Hm. destruct (decide (Z.max (disp_maxrunpri dp) pri = pri)) as [->|Hn]; [by rewrite set_level_eq|]. rewrite set_level_ne by done. replace (Z.max (disp_maxrunpri dp) pri) with (disp_maxrunpri dp) in * by lia. by apply (dk_max _ _ H).
  - intros j Hj. rewrite set_level_ne by lia. apply (dk_above _ _ H). lia.
  - rewrite total_set, (dk_cnt _ _ H) by lia. rewrite (proj2 (Z.ltb_lt _ _)) by lia. lia.
  - done.
Qed.

(** What [dispdeq] and [disp] make of a queue whose priority [pri] now has [l]. *)
Definition after_removal (pri : Z) (empty : bool) (dp : disp_t) : res disp_t :=
  if empty then
    dp ← clear_act pri dp;
    if disp_nrunnable dp =? 0 then Ok (set_maxrunpri (-1) (set_max_unbound_pri (-1) dp))
    else if pri =? disp_maxrunpri dp then new_max (disp_maxrunpri dp) dp
    else Ok dp
  else Ok dp.

Lemma dq_ok_remove dp L pri l : dq_ok dp L → 0 ≤ pri < disp_npri dp → length (L pri) = S (length l) →
  ∃ dp', after_removal pri (bool_decide (l = [])) (set_nrunnable (disp_nrunnable dp - 1) (put_dq pri (MkDq (head l) (list.last l) (Z.of_nat (length l))) dp)) = Ok dp' ∧
    dq_ok dp' (set_level pri l L) ∧ disp_npri dp' = disp_npri dp ∧ (∀ p, p ≤ disp_max_unbound_pri dp → set_level pri l L p ≠ [] → p ≤ disp_max_unbound_pri dp') ∧ disp_max_unbound_pri dp' ≤ disp_max_unbound_pri dp.
Proof.
  intros H Hp Hl. pose proof (dk_in_map _ _ _ H Hp) as Hin. assert (L pri ≠ []) as Hne by (intros E; rewrite E in Hl; done). set (dp1 := set_nrunnable _ _).
  assert (pri ≤ disp_maxrunpri dp) as Hpm. { destruct (decide (pri ≤ disp_maxrunpri dp)); [done|]. exfalso. apply Hne, (dk_above _ _ H). lia. }
  assert (total (Z.to_nat (disp_npri dp)) (set_level pri l L) = disp_nrunnable dp - 1) as Htot.
  { rewrite total_set, (dk_cnt _ _ H) by lia. rewrite (proj2 (Z.ltb_lt _ _)) by lia. lia. }
  (* the fields that every case shares *)
  assert (∀ map max ub, bitmap_ok map → length map = length (disp_qactmap dp) → (∀ j, in_map (disp_qactmap dp) j → bit map j = bool_decide (set_level pri l L j ≠ [])) →
    -1 ≤ max → (0 ≤ max → set_level pri l L max ≠ []) → (∀ j, max < j → set_level pri l L j = []) → -1 ≤ ub ≤ max →
    dq_ok (MkDisp (disp_npri dp) (<[Z.to_nat pri := MkDq (head l) (list.last l) (Z.of_nat (length l))]> (disp_q dp)) map max ub (disp_nrunnable dp - 1)) (set_level pri l L)) as Hmk.
  { intros map max ub M1 M2 M3 M4 M5 M6 M7. constructor; cbn [disp_npri disp_q disp_qactmap disp_maxrunpri disp_max_unbound_pri disp_nrunnable]; try done.
    - apply (dk_npri _ _ H).
    - rewrite length_insert. apply (dk_len _ _ H).
    - rewrite M2. apply (dk_maplen _ _ H).
    - intros p Hpp. destruct (decide (p = pri)) as [->|Hpn].
      + rewrite set_level_eq, list_lookup_insert_eq; [done|]. rewrite (dk_len _ _ H). lia.
      + rewrite set_level_ne, list_lookup_insert_ne by (done || lia). by apply (dk_level _ _ H).
    - intros p Hpp. rewrite set_level_ne by (intros ->; done). by apply (dk_out _ _ H).
    - intros j Hj. apply M3. unfold in_map in *. by rewrite <- M2. }
  pose proof (dk_maxlow _ _ H) as Hml. pose proof (dk_ub _ _ H) as Hub. unfold after_removal. case_bool_decide as El.
  2: { eexists. split; [done|]. split; [apply (Hmk (disp_qactmap dp) (disp_maxrunpri dp) (disp_max_unbound_pri dp))|]; try done.
    - apply (dk_bits _ _ H).
    - intros j Hj. rewrite (dk_bit _ _ H) by done. unfold set_level. case_decide as Ej; [|done]. subst j. rewrite !bool_decide_true by done. done.
    - intros Hm. unfold set_level. case_decide; [done|]. by apply (dk_max _ _ H).
    - intros j Hj. rewrite set_level_ne by lia. by apply (dk_above _ _ H). }
  unfold clear_act. destruct (act_clear _ _ (dk_bits _ _ H) Hin) as (m & Em & M1 & M2 & M3). change (disp_qactmap dp1) with (disp_qactmap dp). rewrite Em. cbn [mbind res_bind].
  assert (∀ j, in_map (disp_qactmap dp) j → bit m j = bool_decide (set_level pri l L j ≠ [])) as Hbit.
  { intros j Hj. rewrite M3 by done. destruct (Z.eqb_spec j pri) as [->|Hjn]; [rewrite set_level_eq, El; done|]. rewrite set_level_ne by done. by apply (dk_bit _ _ H). }
  change (disp_nrunnable (set_qactmap m dp1)) with (disp_nrunnable dp - 1). destruct (Z.eqb_spec (disp_nrunnable dp - 1) 0) as [E0|E0].
  { rewrite E0 in Htot. pose proof (total_zero _ _ Htot) as Hz. assert (∀ j, set_level pri l L j = []) as Hall.
    { intros j. destruct (decide (0 ≤ j < disp_npri dp)); [apply Hz; lia|]. rewrite set_level_ne by (intros ->; done). by apply (dk_out _ _ H). }
    eexists. split; [done|]. split; [apply (Hmk m (-1) (-1))|]; try done; try lia. split; [done|]. split; [intros p _ Hpn; by rewrite Hall in Hpn|cbn; lia]. }
  change (disp_maxrunpri (set_qactmap m dp1)) with (disp_maxrunpri dp).
  destruct (Z.eqb_spec pri (disp_maxrunpri dp)) as [Ep|Ep].
  2: { eexists. split; [done|]. split; [apply (Hmk m (disp_maxrunpri dp) (disp_max_unbound_pri dp))|]; try done.
    - intros Hm. rewrite set_level_ne by congruence. by apply (dk_max _ _ H).
    - intros j Hj. rewrite set_level_ne by lia. by apply (dk_above _ _ H). }
  unfold new_max. change (disp_qactmap (set_qactmap m dp1)) with m. rewrite <- Ep, word_index. assert (Z.of_nat (length m) = disp_npri dp / 32 + 1) as Hlm by (rewrite M2, (dk_maplen _ _ H); pose proof (Z.div_pos (disp_npri dp) 32); pose proof (dk_npri _ _ H); lia).
  assert (pri / 32 ≤ disp_npri dp / 32) as Hdiv by (apply Z.div_le_mono; lia). assert (0 ≤ pri / 32) as Hdiv0 by (apply Z.div_pos; lia).
  destruct (bt_gethighbit_highest m (pri / 32) M1) as (r & -> & Hr & Hr1 & Hr2); [lia|]. cbn [mbind res_bind].
  assert (pri < 32 * (pri / 32 + 1)) as Hpw by (pose proof (Z.div_mod pri 32); pose proof (Z.mod_pos_bound pri 32); lia).
  assert (∀ j, 0 ≤ j < 32 * (pri / 32 + 1) → in_map (disp_qactmap dp) j) as Hinm by (intros j Hj; unfold in_map; rewrite <- M2, Hlm; lia).
  assert (∀ j, r < j → set_level pri l L j = []) as Habove.
  { intros j Hj. destruct (decide (j < 0)). { rewrite set_level_ne by lia. apply (dk_out _ _ H). lia. }
    destruct (decide (j ≤ pri)) as [Hjp|Hjp]; [|rewrite set_level_ne by lia; apply (dk_above _ _ H); lia].
    assert (bit m j = false) as Hb by (apply Hr2; lia). rewrite Hbit in Hb by (apply Hinm; lia). apply bool_decide_eq_false in Hb. by destruct (decide (set_level pri l L j = [])). }
  assert (0 ≤ r → set_level pri l L r ≠ []) as Hrne. { intros Hr0. pose proof (Hr1 Hr0) as Hb. rewrite Hbit in Hb by (apply Hinm; lia). by apply bool_decide_eq_true in Hb. }
  change (disp_max_unbound_pri (set_qactmap m dp1)) with (disp_max_unbound_pri dp). destruct (Z.ltb_spec r (disp_max_unbound_pri dp)).
  - eexists. split; [done|]. split; [apply (Hmk m r r); try done; lia|]. split; [done|]. cbn [disp_max_unbound_pri set_maxrunpri set_max_unbound_pri]. split; [|lia]. intros p Hpu Hpn. destruct (decide (p ≤ r)); [done|]. exfalso. apply Hpn, Habove. lia.
  - eexists. split; [done|]. split; [apply (Hmk m r (disp_max_unbound_pri dp)); try done; lia|]. split; [done|]. split; [done|cbn; lia].
Qed.
End levels.

(** ** Links *)

(** [l] is linked up to [e]. *)
Fixpoint lseg (th : gmap Z kthread) (l : list Z) (e : option Z) : Prop :=
  match l with [] => True | x :: l' => (t_link <$> th !! x) = Some (match l' with [] => e | y :: _ => Some y end) ∧ lseg th l' e end.

Abbreviation linked th l := (lseg th l None).

Definition head_or (l : list Z) (e : option Z) : option Z := match l with [] => e | x :: _ => Some x end.

Lemma lseg_app th A B e : lseg th (A ++ B) e ↔ lseg th A (head_or B e) ∧ lseg th B e.
Proof. induction A as [|a A IH]; simpl; [tauto|]. rewrite IH. destruct A; simpl; [destruct B; simpl; tauto|tauto]. Qed.

Lemma lseg_ext th th' l e : (∀ x, x ∈ l → (t_link <$> th' !! x) = (t_link <$> th !! x)) → lseg th l e → lseg th' l e.
Proof. induction l as [|x l IH]; simpl; [done|]. intros E [H1 H2]. split; [rewrite E by left; done|]. apply IH; [|done]. intros y Hy. apply E. by right. Qed.

Lemma head_or_None l : head_or l None = head l.
Proof. by destruct l. Qed.

Lemma lseg_at th A x B : linked th (A ++ x :: B) → ∃ t, th !! x = Some t ∧ t_link t = head B.
Proof. rewrite lseg_app. intros [_ [H _]]. apply fmap_Some in H as (t & E & H). exists t. split; [done|]. rewrite <- H. by destruct B. Qed.

(** ** The system *)

Definition on_queue (d : dispref) (pri : Z) (t : kthread) : Prop :=
  DISP_PRIO t = pri ∧ t_state t = TS_RUN ∧ t_lockp t = LDisp d ∧ t_disp_queue t = d ∧ loaded t = true ∧ ∀ p, d = DKp p → t_bound_cpu t = None.

(** A thread whose lock is not that of a queue. *)
Definition off_queue (t : kthread) : Prop := ∀ d, t_lockp t ≠ LDisp d.

Record disp_inv (s : dsys) (L : dispref → Z → list Z) : Prop := {
  di_q d dp : get_disp s d = Ok dp → dq_ok dp (L d);
  di_none d : (∀ dp, get_disp s d ≠ Ok dp) → ∀ pri, L d pri = [];
  di_nodup d pri : NoDup (L d pri);
  di_link d pri : linked (d_threads s) (L d pri);
  di_mem d pri tp : tp ∈ L d pri → ∃ t, d_threads s !! tp = Some t ∧ on_queue d pri t;
  di_back tp t d : d_threads s !! tp = Some t → t_lockp t = LDisp d → tp ∈ L d (DISP_PRIO t);
  di_free tp t : d_threads s !! tp = Some t → off_queue t → t_link t = None;
  di_ub d dp pri tp t : get_disp s d = Ok dp → tp ∈ L d pri → d_threads s !! tp = Some t → t_bound_cpu t = None → pri ≤ disp_max_unbound_pri dp
}.

Definition set_queue (d : dispref) (Q : Z → list Z) (L : dispref → Z → list Z) : dispref → Z → list Z := λ d', if decide (d' = d) then Q else L d'.

Lemma set_queue_eq d Q L : set_queue d Q L d = Q.
Proof. unfold set_queue. by rewrite decide_True. Qed.
Lemma set_queue_ne d Q L d' : d' ≠ d → set_queue d Q L d' = L d'.
Proof. intros H. unfold set_queue. by rewrite decide_False. Qed.

(** What the dispatcher does not change. *)
Definition tstatic t := (t_pri t, t_epri t, t_bound_cpu t, t_cpu t, t_cpupart t, t_disp_time t).
Definition cstatic c := (cpu_flags c, cpu_thread c, cpu_idle_thread c, cpu_part c, cpu_next_onln c, cpu_next_part c, disp_npri (cpu_disp c)).
Definition pstatic p := (cp_level p, cp_cpulist p, disp_npri (cp_kp_queue p)).
Definition sstatic s := (kpreemptpri s, upreemptpri s, ncpus s, lbolt s, rechoose_interval s, maxclsyspri s).

Record frame (s s' : dsys) : Prop := {
  fr_t tp : (tstatic <$> d_threads s' !! tp) = (tstatic <$> d_threads s !! tp);
  fr_c c : (cstatic <$> d_cpus s' !! c) = (cstatic <$> d_cpus s !! c);
  fr_p p : (pstatic <$> d_parts s' !! p) = (pstatic <$> d_parts s !! p);
  fr_s : sstatic s' = sstatic s;
  fr_d c x' : d_cpus s' !! c = Some x' → ∃ x, d_cpus s !! c = Some x ∧ (cpu_dispthread x' = cpu_dispthread x ∨ is_Some (d_threads s !! cpu_dispthread x'))
}.

#[export] Instance frame_refl : Reflexive frame.
Proof. intros s. constructor; try done. intros c x E. exists x. auto. Qed.

Lemma frame_dom s s' tp : frame s s' → is_Some (d_threads s' !! tp) ↔ is_Some (d_threads s !! tp).
Proof. intros H. pose proof (fr_t _ _ H tp) as E. destruct (d_threads s' !! tp), (d_threads s !! tp); try done; split; intros; by eexists. Qed.

#[export] Instance frame_trans : Transitive frame.
Proof.
  intros s1 s2 s3 H1 H2. constructor.
  - intros tp. by rewrite (fr_t _ _ H2), (fr_t _ _ H1).
  - intros c. by rewrite (fr_c _ _ H2), (fr_c _ _ H1).
  - intros p. by rewrite (fr_p _ _ H2), (fr_p _ _ H1).
  - by rewrite (fr_s _ _ H2), (fr_s _ _ H1).
  - intros c x3 E3. destruct (fr_d _ _ H2 c x3 E3) as (x2 & E2 & Hd). destruct (fr_d _ _ H1 c x2 E2) as (x1 & E1 & Hd1). exists x1. split; [done|].
    destruct Hd as [->|Hd]; [done|]. right. by apply (frame_dom _ _ _ H1).
Qed.

(** The rings of the CPUs of a partition. *)
Fixpoint cpath (s : dsys) (l : list Z) (e : Z) : Prop :=
  match l with [] => True | x :: l' => (cpu_next_part <$> d_cpus s !! x) = Some (default e (head l')) ∧ cpath s l' e end.

Definition ring_of (s : dsys) (c : Z) (l : list Z) : Prop := cpath s (c :: l) c ∧ NoDup (c :: l).
Definition on_ring (s : dsys) (c : Z) : Prop := ∃ l, ring_of s c l.

Lemma cpath_ext s s' l e : (∀ c, (cpu_next_part <$> d_cpus s' !! c) = (cpu_next_part <$> d_cpus s !! c)) → cpath s l e → cpath s' l e.
Proof. intros E. revert e. induction l as [|x l IH]; intros e; simpl; [done|]. rewrite E. intros [H1 H2]. split; [done|]. by apply IH. Qed.

Lemma frame_next s s' c : frame s s' → (cpu_next_part <$> d_cpus s' !! c) = (cpu_next_part <$> d_cpus s !! c).
Proof. intros H. pose proof (fr_c _ _ H c) as E. destruct (d_cpus s' !! c), (d_cpus s !! c); try done. simpl in *. unfold cstatic in E. congruence. Qed.

Lemma frame_ring s s' c : frame s s' → on_ring s c → on_ring s' c.
Proof. intros H (l & Hp & Hn). exists l. split; [|done]. eapply cpath_ext; [|exact Hp]. intros x. by apply frame_next. Qed.

(** What the pointers of the system lead to; [N] is the number of priorities.  Idle threads have
    the priority -1. *)
Record sys_wf (N : Z) (s : dsys) : Prop := {
  wf_c c x : d_cpus s !! c = Some x → disp_npri (cpu_disp x) = N ∧ is_Some (d_parts s !! cpu_part x) ∧ is_Some (d_threads s !! cpu_thread x) ∧ is_Some (d_threads s !! cpu_idle_thread x) ∧ is_Some (d_threads s !! cpu_dispthread x);
  wf_p p x : d_parts s !! p = Some x → disp_npri (cp_kp_queue x) = N ∧ on_ring s (cp_cpulist x);
  wf_t tp t : d_threads s !! tp = Some t → -1 ≤ DISP_PRIO t < N ∧ is_Some (d_cpus s !! t_cpu t) ∧ is_Some (d_parts s !! t_cpupart t) ∧ (∀ c, t_bound_cpu t = Some c → is_Some (d_cpus s !! c)) ∧ (t_bound_cpu t = None → on_ring s (t_cpu t))
}.

Lemma frame_prio s s' tp t' : frame s s' → d_threads s' !! tp = Some t' → ∃ t, d_threads s !! tp = Some t ∧ tstatic t' = tstatic t ∧ DISP_PRIO t' = DISP_PRIO t.
Proof.
  intros H E. pose proof (fr_t _ _ H tp) as F. rewrite E in F. destruct (d_threads s !! tp) as [t|]; [|done]. injection F as F1 F2 F3 F4 F5 F6. exists t. split; [done|]. unfold tstatic, DISP_PRIO. by rewrite F1, F2, F3, F4, F5, F6.
Qed.

Lemma sys_wf_frame N s s' : frame s s' → sys_wf N s → sys_wf N s'.
Proof.
  intros H W. constructor.
  - intros c x' E. destruct (fr_d _ _ H c x' E) as (x & Ex & Hd). pose proof (fr_c _ _ H c) as F. rewrite E, Ex in F. injection F as F1 F2 F3 F4 F5 F6 F7. destruct (wf_c _ _ W c x Ex) as (W1 & W2 & W3 & W4 & W5).
    rewrite F7, F4, F2, F3. split_and!; [done| |by apply (frame_dom _ _ _ H)|by apply (frame_dom _ _ _ H)|].
    + pose proof (fr_p _ _ H (cpu_part x)) as P. destruct (d_parts s' !! cpu_part x); [by eexists|]. destruct W2 as [y Ey]. by rewrite Ey in P.
    + apply (frame_dom _ _ _ H). by destruct Hd as [->|].
  - intros p x' E. pose proof (fr_p _ _ H p) as F. rewrite E in F. destruct (d_parts s !! p) as [x|] eqn:Ex; [|done]. injection F as F1 F2 F3. destruct (wf_p _ _ W p x Ex) as [W1 W2]. rewrite F3, F2. split; [done|]. by apply (frame_ring s).
  - intros tp t' E. destruct (frame_prio _ _ _ _ H E) as (t & Et & Es & ->). injection Es as F1 F2 F3 F4 F5 F6. destruct (wf_t _ _ W tp t Et) as (W1 & W2 & W3 & W4 & W5). rewrite F4, F5, F3. split_and!; [lia|lia| | | |].
    + pose proof (fr_c _ _ H (t_cpu t)) as P. destruct (d_cpus s' !! t_cpu t); [by eexists|]. destruct W2 as [y Ey]. by rewrite Ey in P.
    + pose proof (fr_p _ _ H (t_cpupart t)) as P. destruct (d_parts s' !! t_cpupart t); [by eexists|]. destruct W3 as [y Ey]. by rewrite Ey in P.
    + intros c Ec. pose proof (fr_c _ _ H c) as P. destruct (d_cpus s' !! c); [by eexists|]. destruct (W4 c Ec) as [y Ey]. by rewrite Ey in P.
    + intros Eb. by apply (frame_ring s), W5.
Qed.

(** ** Updates that succeed *)

Lemma get_thread_ok s tp t : d_threads s !! tp = Some t → get_thread s tp = Ok t.
Proof. intros E. unfold get_thread. by rewrite E. Qed.
Lemma upd_thread_ok s tp t f : d_threads s !! tp = Some t → upd_thread tp f s = Ok (with_threads (<[tp := f t]> (d_threads s)) s).
Proof. intros E. unfold upd_thread. by rewrite (get_thread_ok _ _ _ E). Qed.
Lemma get_cpu_ok s c x : d_cpus s !! c = Some x → get_cpu s c = Ok x.
Proof. intros E. unfold get_cpu. by rewrite E. Qed.
Lemma upd_cpu_ok s c x f : d_cpus s !! c = Some x → upd_cpu c f s = Ok (with_cpus (<[c := f x]> (d_cpus s)) s).
Proof. intros E. unfold upd_cpu. by rewrite (get_cpu_ok _ _ _ E). Qed.
Lemma get_part_ok s p x : d_parts s !! p = Some x → get_part s p = Ok x.
Proof. intros E. unfold get_part. by rewrite E. Qed.
Lemma thread_prio_ok s tp t : d_threads s !! tp = Some t → thread_prio s tp = Ok (DISP_PRIO t).
Proof. intros E. unfold thread_prio. by rewrite (get_thread_ok _ _ _ E). Qed.

Lemma get_disp_cpu s c dp : get_disp s (DCpu c) = Ok dp ↔ ∃ x, d_cpus s !! c = Some x ∧ cpu_disp x = dp.
Proof. unfold get_disp, get_cpu. destruct (d_cpus s !! c) as [x|]; simpl; split; [intros E; injection E as <-; by exists x|intros (y & E & <-); by injection E as <-|done|by intros (y & E & _)]. Qed.
Lemma get_disp_kp s p dp : get_disp s (DKp p) = Ok dp ↔ ∃ x, d_parts s !! p = Some x ∧ cp_kp_queue x = dp.
Proof. unfold get_disp, get_part. destruct (d_parts s !! p) as [x|]; simpl; split; [intros E; injection E as <-; by exists x|intros (y & E & <-); by injection E as <-|done|by intros (y & E & _)]. Qed.

Lemma get_disp_npri N s d dp : sys_wf N s → get_disp s d = Ok dp → disp_npri dp = N.
Proof.
  intros W. destruct d as [c|p]; [intros (x & E & <-)%get_disp_cpu; by apply (wf_c _ _ W c)|intros (x & E & <-)%get_disp_kp; by apply (wf_p _ _ W p)].
Qed.

(** A state with the same threads and queues, but for one queue. *)
Lemma put_disp_ok s d dp0 dp : get_disp s d = Ok dp0 → disp_npri dp = disp_npri dp0 →
  ∃ s', put_disp d dp s = Ok s' ∧ d_threads s' = d_threads s ∧ (∀ d', get_disp s' d' = if decide (d' = d) then Ok dp else get_disp s d') ∧ frame s s' ∧ (∀ c, cpu_dispthread <$> d_cpus s' !! c = cpu_dispthread <$> d_cpus s !! c).
Proof.
  intros E Hn. destruct d as [c|p].
  - apply get_disp_cpu in E as (x & Ex & Edp). unfold put_disp. rewrite (upd_cpu_ok _ _ _ _ Ex). eexists. split; [done|]. split_and!; [done| | |].
    + intros [c'|p']; [|done]. unfold get_disp, get_cpu. cbn [d_cpus with_cpus]. destruct (decide (c' = c)) as [->|Hne]; [rewrite lookup_insert_eq, decide_True by done; done|]. rewrite lookup_insert_ne, decide_False by congruence. done.
    + constructor; try done; cbn [d_cpus with_cpus].
      * intros c'. destruct (decide (c' = c)) as [->|Hne]; [rewrite lookup_insert_eq, Ex; simpl; unfold cstatic; simpl; by rewrite Hn, Edp|by rewrite lookup_insert_ne].
      * intros c' x' E'. destruct (decide (c' = c)) as [->|Hne]; [rewrite lookup_insert_eq in E'; injection E' as <-; exists x; auto|rewrite lookup_insert_ne in E' by done; exists x'; auto].
    + intros c'. cbn [d_cpus with_cpus]. destruct (decide (c' = c)) as [->|Hne]; [by rewrite lookup_insert_eq, Ex|by rewrite lookup_insert_ne].
  - apply get_disp_kp in E as (x & Ex & Edp). unfold put_disp. rewrite (get_part_ok _ _ _ Ex). cbn [mbind res_bind]. eexists. split; [done|]. split_and!; [done| | |done].
    + intros [c'|p']; [done|]. unfold get_disp, get_part. cbn [d_parts with_parts]. destruct (decide (p' = p)) as [->|Hne]; [rewrite lookup_insert_eq, decide_True by done; done|]. rewrite lookup_insert_ne, decide_False by congruence. done.
    + constructor; try done; cbn [d_parts with_parts].
      * intros p'. destruct (decide (p' = p)) as [->|Hne]; [rewrite lookup_insert_eq, Ex; simpl; unfold pstatic; simpl; by rewrite Hn, Edp|by rewrite lookup_insert_ne].
      * intros c' x' E'. exists x'. auto.
Qed.

(** States with the same threads and queues. *)
Record quiet (s s' : dsys) : Prop := {
  qu_t : d_threads s' = d_threads s;
  qu_d d : get_disp s' d = get_disp s d;
  qu_f : frame s s'
}.

#[export] Instance quiet_refl : Reflexive quiet.
Proof. intros s. by constructor. Qed.
#[export] Instance quiet_trans : Transitive quiet.
Proof. intros s1 s2 s3 [A1 A2 A3] [B1 B2 B3]. constructor; [congruence|intros d; by rewrite B2|by etrans]. Qed.

Lemma quiet_cpu s c x f : d_cpus s !! c = Some x → cstatic (f x) = cstatic x → cpu_disp (f x) = cpu_disp x → (cpu_dispthread (f x) = cpu_dispthread x ∨ is_Some (d_threads s !! cpu_dispthread (f x))) → quiet s (with_cpus (<[c := f x]> (d_cpus s)) s).
Proof.
  intros Ex Hc Hd Ht. constructor; [done| |].
  - intros [c'|p]; [|done]. unfold get_disp, get_cpu. cbn [d_cpus with_cpus]. destruct (decide (c' = c)) as [->|Hne]; [rewrite lookup_insert_eq, Ex; simpl; by rewrite Hd|by rewrite lookup_insert_ne].
  - constructor; try done; cbn [d_cpus with_cpus].
    + intros c'. destruct (decide (c' = c)) as [->|Hne]; [rewrite lookup_insert_eq, Ex; simpl; by rewrite Hc|by rewrite lookup_insert_ne].
    + intros c' x' E'. destruct (decide (c' = c)) as [->|Hne]; [rewrite lookup_insert_eq in E'; injection E' as <-; exists x; auto|rewrite lookup_insert_ne in E' by done; exists x'; auto].
Qed.

Lemma quiet_poke b c s : quiet s (if b : bool then poke_cpu c s else s).
Proof. destruct b; [|done]. constructor; [done|done|]. constructor; try done. intros c' x' E. exists x'. auto. Qed.

Lemma aston_ok s tp : is_Some (d_threads s !! tp) → ∃ s', aston tp s = Ok s' ∧ quiet s s' ∧ d_cpus s' = d_cpus s ∧ kpreemptpri s' = kpreemptpri s.
Proof.
  intros [t E]. unfold aston. rewrite (get_thread_ok _ _ _ E). eexists. split; [done|]. split; [|done]. constructor; [done|done|]. constructor; try done. intros c' x' Ec. exists x'. auto.
Qed.

Lemma cpu_resched_ok me cp x tpri cpupri s : d_cpus s !! cp = Some x → is_Some (d_threads s !! cpu_dispthread x) → ∃ s', cpu_resched me cp tpri cpupri s = Ok s' ∧ quiet s s'.
Proof.
  intros Ex Ht. unfold cpu_resched. destruct (_ && _); [|by exists s]. rewrite (get_cpu_ok _ _ _ Ex). cbn [mbind res_bind].
  assert (∃ s1, (if (upreemptpri s <=? tpri) && (cpu_runrun x =? 0) then s0 ← upd_cpu cp (set_runrun 1) s; s1 ← aston (cpu_dispthread x) s0; Ok (if (tpri <? kpreemptpri s1) && negb (cp =? me) then poke_cpu cp s1 else s1) else Ok s) = Ok s1 ∧ quiet s s1 ∧ is_Some (d_cpus s1 !! cp)) as (s1 & -> & Q1 & [x1 E1]).
  { destruct (_ && _); [|by exists s]. rewrite (upd_cpu_ok _ _ _ _ Ex). cbn [mbind res_bind]. pose proof (quiet_cpu s cp x (set_runrun 1) Ex eq_refl eq_refl (or_introl eq_refl)) as Q.
    destruct (aston_ok (with_cpus (<[cp := set_runrun 1 x]> (d_cpus s)) s) (cpu_dispthread x)) as (s1 & -> & Qa & Ec & _); [done|]. cbn [mbind res_bind]. eexists. split; [done|]. split; [do 2 (etrans; [eassumption|]); apply quiet_poke|].
    destruct (_ && _); simpl; rewrite Ec; cbn [d_cpus with_cpus]; rewrite lookup_insert_eq; by eexists. }
  cbn [mbind res_bind]. destruct (_ && _); [|by exists s1]. rewrite (upd_cpu_ok _ _ _ _ E1). cbn [mbind res_bind]. eexists. split; [done|]. etrans; [exact Q1|]. etrans; [|apply quiet_poke]. by apply quiet_cpu; [..|left].
Qed.

(** ** A thread more, a thread less *)

Lemma set_queue_level d pri l (L : dispref → Z → list Z) d0 p0 : set_queue d (set_level pri l (L d)) L d0 p0 = if decide (d0 = d ∧ p0 = pri) then l else L d0 p0.
Proof.
  unfold set_queue, set_level. destruct (decide (d0 = d)) as [->|Hd]; [|by rewrite decide_False by tauto]. destruct (decide (p0 = pri)) as [->|Hp]; [by rewrite decide_True|by rewrite decide_False by tauto].
Qed.

Lemma on_queue_link d pri t t' : set_link None t' = set_link None t → on_queue d pri t → on_queue d pri t'.
Proof. intros E. injection E as E1 E2 E3 E4 E5 E6 E7 E8 E9 E10. unfold on_queue, DISP_PRIO, loaded. by rewrite E1, E2, E3, E4, E5, E6, E9. Qed.

Lemma on_not_off s L d pri tp t : disp_inv s L → tp ∈ L d pri → d_threads s !! tp = Some t → ¬ off_queue t.
Proof. intros H Hin E Hoff. destruct (di_mem _ _ H d pri tp Hin) as (t0 & E0 & (_ & _ & Hl & _)). assert (t0 = t) as -> by congruence. by apply (Hoff d). Qed.

(** A thread is on one list only. *)
Lemma one_queue s L d pri d' pri' tp : disp_inv s L → tp ∈ L d pri → tp ∈ L d' pri' → d = d' ∧ pri = pri'.
Proof. intros H H1 H2. destruct (di_mem _ _ H _ _ _ H1) as (t & E & P & _ & Q & _), (di_mem _ _ H _ _ _ H2) as (t2 & E2 & P2 & _ & Q2 & _). assert (t2 = t) as -> by congruence. split; congruence. Qed.

Section change.
Context (s s' : dsys) (L : dispref → Z → list Z) (d : dispref) (dp dp' : disp_t) (tp : Z) (t t' : kthread) (pri : Z) (l' : list Z).
Context (H : disp_inv s L) (Ed : get_disp s d = Ok dp) (Et : d_threads s !! tp = Some t) (Et' : d_threads s' !! tp = Some t').
Context (Hlink : ∀ x, x ≠ tp → (set_link None <$> d_threads s' !! x) = (set_link None <$> d_threads s !! x)) (Hoth : ∀ x, x ≠ tp → x ∉ L d pri → d_threads s' !! x = d_threads s !! x).
Context (Hdisp : ∀ d', get_disp s' d' = if decide (d' = d) then Ok dp' else get_disp s d') (Hdq : dq_ok dp' (set_level pri l' (L d))) (Hl' : linked (d_threads s') l').

Lemma other_thread x y' : x ≠ tp → d_threads s' !! x = Some y' → ∃ y, d_threads s !! x = Some y ∧ set_link None y' = set_link None y.
Proof. clear -Hlink. intros Hx E. specialize (Hlink x Hx). rewrite E in Hlink. destruct (d_threads s !! x) as [y|]; [|done]. exists y. split; [done|]. by apply (inj Some) in Hlink. Qed.

Lemma other_thread' x y : x ≠ tp → d_threads s !! x = Some y → ∃ y', d_threads s' !! x = Some y' ∧ set_link None y' = set_link None y.
Proof. clear -Hlink. intros Hx E. specialize (Hlink x Hx). rewrite E in Hlink. destruct (d_threads s' !! x) as [y'|]; [|done]. exists y'. split; [done|]. by apply (inj Some) in Hlink. Qed.

Lemma change_q d0 dp0 : get_disp s' d0 = Ok dp0 → dq_ok dp0 (set_queue d (set_level pri l' (L d)) L d0).
Proof using H Hdisp Hdq.
  clear -H Hdisp Hdq. rewrite Hdisp. case_decide as E; [subst d0; rewrite set_queue_eq; intros E; by injection E as <-|]. rewrite set_queue_ne by done. apply (di_q _ _ H).
Qed.

Lemma change_none d0 : (∀ dp0, get_disp s' d0 ≠ Ok dp0) → ∀ p, set_queue d (set_level pri l' (L d)) L d0 p = [].
Proof using H Hdisp.
  clear -H Hdisp. intros Hn p. destruct (decide (d0 = d)) as [->|E]; [exfalso; apply (Hn dp'); by rewrite Hdisp, decide_True|]. rewrite set_queue_ne by done. apply (di_none _ _ H). intros dp0 E0. apply (Hn dp0). by rewrite Hdisp, decide_False.
Qed.

(** A list that the change leaves alone. *)
Lemma change_link d0 p0 : tp ∉ L d0 p0 ∨ (d0 = d ∧ p0 = pri) → linked (d_threads s') (set_queue d (set_level pri l' (L d)) L d0 p0).
Proof using H Hl' Hoth.
  clear -H Hl' Hoth. intros Htp. rewrite set_queue_level. case_decide as E; [done|]. apply (lseg_ext (d_threads s)); [|apply (di_link _ _ H)]. intros x Hx. rewrite Hoth; [done|intros ->; tauto|].
  intros Hx'. apply E. destruct (one_queue _ _ _ _ _ _ _ H Hx Hx'). by subst.
Qed.

Lemma inv_add : off_queue t → on_queue d pri t' → l' ≡ₚ tp :: L d pri → disp_max_unbound_pri dp ≤ disp_max_unbound_pri dp' → (t_bound_cpu t' = None → pri ≤ disp_max_unbound_pri dp') →
  disp_inv s' (set_queue d (set_level pri l' (L d)) L).
Proof.
  intros Hoff Hon Hperm Hub Hub'. assert (∀ d0 p0, tp ∉ L d0 p0) as Hnew by (intros d0 p0 Hin; by apply (on_not_off s L d0 p0 tp t)).
  assert (∀ x, x ∈ l' ↔ x = tp ∨ x ∈ L d pri) as Hmem by (intros x; rewrite Hperm; apply elem_of_cons). constructor.
  - apply change_q.
  - apply change_none.
  - intros d0 p0. rewrite set_queue_level. case_decide; [|apply (di_nodup _ _ H)]. rewrite Hperm. apply list.NoDup_cons. split; [done|apply (di_nodup _ _ H)].
  - intros d0 p0. apply change_link. by left.
  - intros d0 p0 x Hx. rewrite set_queue_level in Hx. assert (x ≠ tp → x ∈ L d0 p0 → ∃ y, d_threads s' !! x = Some y ∧ on_queue d0 p0 y) as Hold.
    { intros Hne Hin. destruct (di_mem _ _ H d0 p0 x Hin) as (y & Ey & Hq). destruct (other_thread' x y Hne Ey) as (y' & Ey' & El). exists y'. split; [done|]. by apply (on_queue_link _ _ y). }
    case_decide as E; [destruct E as [-> ->]; apply Hmem in Hx as [->|Hx]; [by exists t'|]|]; (apply Hold; [intros ->; by eapply Hnew|done]).
  - intros x y' d0 Ey Hlk. rewrite set_queue_level. destruct (decide (x = tp)) as [->|Hne].
    + assert (y' = t') as -> by congruence. destruct Hon as (P & _ & Q & _). assert (d0 = d) as -> by congruence. rewrite P. rewrite decide_True by done. apply Hmem. by left.
    + destruct (other_thread x y' Hne Ey) as (y & Eyy & El). injection El as E1 E2 E3 E4 E5 E6 E7 E8 E9 E10. assert (DISP_PRIO y' = DISP_PRIO y) as -> by (unfold DISP_PRIO; by rewrite E1, E2). pose proof (di_back _ _ H x y d0 Eyy) as Hb. rewrite <- E4 in Hb. specialize (Hb Hlk).
      case_decide as E; [destruct E as [-> Ep]; apply Hmem; right; by rewrite <- Ep|done].
  - intros x y' Ey Hy. destruct (decide (x = tp)) as [->|Hne]; [assert (y' = t') as -> by congruence; exfalso; destruct Hon as (_ & _ & Q & _); by apply (Hy d)|].
    destruct (decide (x ∈ L d pri)) as [Hin|Hin]; [|rewrite Hoth in Ey by done; by apply (di_free _ _ H x)].
    exfalso. destruct (other_thread x y' Hne Ey) as (y & Eyy & El). injection El as E1 E2 E3 E4 E5 E6 E7 E8 E9 E10. apply (on_not_off s L d pri x y H Hin Eyy). intros d1. rewrite <- E4. apply Hy.
  - intros d0 dp0 p0 x y' Ed0 Hx Ey Hbd. rewrite set_queue_level in Hx. rewrite Hdisp in Ed0.
    assert (∀ dq, get_disp s d0 = Ok dq → x ≠ tp → x ∈ L d0 p0 → p0 ≤ disp_max_unbound_pri dq) as Hold.
    { intros dq Edq Hne Hin. destruct (other_thread x y' Hne Ey) as (y & Eyy & El). injection El as E1 E2 E3 E4 E5 E6 E7 E8 E9 E10. apply (di_ub _ _ H d0 dq p0 x y); [done|done|done|congruence]. }
    destruct (decide (d0 = d)) as [->|Hd0].
    + injection Ed0 as <-. case_decide as E.
      * destruct E as [_ ->]. apply Hmem in Hx as [->|Hx]; [assert (y' = t') as -> by congruence; auto|]. etrans; [|exact Hub]. apply (Hold dp Ed); [intros ->; by eapply Hnew|done].
      * etrans; [|exact Hub]. apply (Hold dp Ed); [intros ->; by eapply Hnew|done].
    + rewrite decide_False in Hx by tauto. apply (Hold dp0); [done|intros ->; by eapply Hnew|done].
Qed.

Lemma inv_remove : tp ∈ L d pri → off_queue t' → t_link t' = None → L d pri ≡ₚ tp :: l' → (∀ p, p ≤ disp_max_unbound_pri dp → set_level pri l' (L d) p ≠ [] → p ≤ disp_max_unbound_pri dp') →
  disp_inv s' (set_queue d (set_level pri l' (L d)) L).
Proof.
  intros Hin Hoff Hnl Hperm Hub. assert (NoDup (tp :: l')) as Hnd by (rewrite <- Hperm; apply (di_nodup _ _ H)). apply list.NoDup_cons in Hnd as [Htp Hnd].
  assert (∀ x, x ∈ l' ↔ x ≠ tp ∧ x ∈ L d pri) as Hmem. { intros x. rewrite Hperm, elem_of_cons. split; [intros Hx; split; [by intros ->|by right]|intros [Hx [->|Hx']]; done]. }
  assert (∀ d0 p0 x, x ∈ set_queue d (set_level pri l' (L d)) L d0 p0 → x ≠ tp ∧ x ∈ L d0 p0) as Hsub.
  { intros d0 p0 x. rewrite set_queue_level. case_decide as E; [destruct E as [-> ->]; apply Hmem|]. intros Hx. split; [|done]. intros ->. apply E. destruct (one_queue _ _ _ _ _ _ _ H Hx Hin). done. }
  constructor.
  - apply change_q.
  - apply change_none.
  - intros d0 p0. rewrite set_queue_level. case_decide; [done|apply (di_nodup _ _ H)].
  - intros d0 p0. apply change_link. destruct (decide (d0 = d ∧ p0 = pri)) as [|E]; [by right|left]. intros Hx. apply E. destruct (one_queue _ _ _ _ _ _ _ H Hx Hin). done.
  - intros d0 p0 x [Hne Hx]%Hsub. destruct (di_mem _ _ H d0 p0 x Hx) as (y & Ey & Hq). destruct (other_thread' x y Hne Ey) as (y' & Ey' & El). exists y'. split; [done|]. by apply (on_queue_link _ _ y).
  - intros x y' d0 Ey Hlk. destruct (decide (x = tp)) as [->|Hne]; [assert (y' = t') as -> by congruence; exfalso; by apply (Hoff d0)|].
    destruct (other_thread x y' Hne Ey) as (y & Eyy & El). injection El as E1 E2 E3 E4 E5 E6 E7 E8 E9 E10. assert (DISP_PRIO y' = DISP_PRIO y) as -> by (unfold DISP_PRIO; by rewrite E1, E2). pose proof (di_back _ _ H x y d0 Eyy) as Hb. rewrite <- E4 in Hb. specialize (Hb Hlk).
    rewrite set_queue_level. case_decide as E; [destruct E as [-> Ep]; apply Hmem; split; [done|]; by rewrite <- Ep|done].
  - intros x y' Ey Hy. destruct (decide (x = tp)) as [->|Hne]; [by assert (y' = t') as -> by congruence|].
    destruct (decide (x ∈ L d pri)) as [Hx|Hx]; [|rewrite Hoth in Ey by done; by apply (di_free _ _ H x)].
    exfalso. destruct (other_thread x y' Hne Ey) as (y & Eyy & El). injection El as E1 E2 E3 E4 E5 E6 E7 E8 E9 E10. apply (on_not_off s L d pri x y H Hx Eyy). intros d1. rewrite <- E4. apply Hy.
  - intros d0 dp0 p0 x y' Ed0 Hx Ey Hbd. assert (set_queue d (set_level pri l' (L d)) L d0 p0 ≠ []) as Hnil by (intros E; rewrite E in Hx; by apply elem_of_nil in Hx).
    apply Hsub in Hx as [Hne Hx]. destruct (other_thread x y' Hne Ey) as (y & Eyy & El). injection El as E1 E2 E3 E4 E5 E6 E7 E8 E9 E10. rewrite Hdisp in Ed0. destruct (decide (d0 = d)) as [->|Hd0].
    + injection Ed0 as <-. rewrite set_queue_eq in Hnil. apply Hub; [|done]. apply (di_ub _ _ H d dp p0 x y); [done|done|done|congruence].
    + apply (di_ub _ _ H d0 dp0 p0 x y); [done|done|done|congruence].
Qed.
End change.

Lemma inv_quiet s s' L : quiet s s' → disp_inv s L → disp_inv s' L.
Proof.
  intros [Q1 Q2 _] [H1 H2 H3 H4 H5 H6 H7 H8]. constructor; rewrite ?Q1; try done.
  - intros d dp. rewrite Q2. apply H1.
  - intros d Hn. apply H2. intros dp E. apply (Hn dp). by rewrite Q2.
  - intros d dp pri tp t. rewrite Q2. apply H8.
Qed.
