(* ===== verification/DispOps.v ===== *)
(** * The sections of the dispatcher

    Each thing that is done under the lock of a queue, as what it does to the lists. *)

From S2P Require Import Prelude Bitmap Disp DispSys.

(** ** Threads and frames *)

Lemma frame_thread s tp t t' : d_threads s !! tp = Some t → tstatic t' = tstatic t → frame s (with_threads (<[tp := t']> (d_threads s)) s).
Proof.
  intros E Hs. constructor; try done.
  - intros x. cbn [d_threads with_threads]. destruct (decide (x = tp)) as [->|Hne]; [by rewrite lookup_insert_eq, E; simpl; rewrite Hs|by rewrite lookup_insert_ne].
  - intros c x' Ec. exists x'. auto.
Qed.

Lemma alter_is_insert {A} (m : gmap Z A) i f a : m !! i = Some a → alter f i m = <[i := f a]> m.
Proof. intros E. apply map_eq. intros j. destruct (decide (j = i)) as [->|Hne]; [by rewrite lookup_alter_eq, E, lookup_insert_eq|by rewrite lookup_alter_ne, lookup_insert_ne]. Qed.

Lemma get_disp_threads th s d : get_disp (with_threads th s) d = get_disp s d.
Proof. by destruct d. Qed.

Lemma linked_snoc th th' l0 y tp : linked th (l0 ++ [y]) → (∀ x, x ∈ l0 → (t_link <$> th' !! x) = (t_link <$> th !! x)) → (t_link <$> th' !! y) = Some (Some tp) → (t_link <$> th' !! tp) = Some None → linked th' ((l0 ++ [y]) ++ [tp]).
Proof.
  intros Hl He Hy Ht. rewrite <- app_assoc. simpl. apply lseg_app in Hl as [Hl _]. apply lseg_app. split; [by apply (lseg_ext th)|]. simpl. done.
Qed.

Lemma linked_cons th th' l tp : linked th l → (∀ x, x ∈ l → (t_link <$> th' !! x) = (t_link <$> th !! x)) → (t_link <$> th' !! tp) = Some (head l) → linked th' (tp :: l).
Proof. intros Hl He Ht. simpl. split; [rewrite Ht; by destruct l|by apply (lseg_ext th)]. Qed.

(** ** Adding *)

(** The thread [t] once it is put on [d]. *)
Definition queued (d : dispref) (lk : option Z) (t : kthread) : kthread := set_link lk (set_disp_queue d (THREAD_SET_STATE TS_RUN (LDisp d) t)).

Lemma queued_on d lk t : loaded t = true → (∀ p, d = DKp p → t_bound_cpu t = None) → on_queue d (DISP_PRIO t) (queued d lk t).
Proof. intros Hl Hb. by split_and!. Qed.

Lemma add_finish s s' L d dp tp t lk l' map ub : disp_inv s L → get_disp s d = Ok dp → d_threads s !! tp = Some t → off_queue t → loaded t = true → (∀ p, d = DKp p → t_bound_cpu t = None) → 0 ≤ DISP_PRIO t < disp_npri dp →
  l' = L d (DISP_PRIO t) ++ [tp] ∨ l' = tp :: L d (DISP_PRIO t) →
  d_threads s' !! tp = Some (queued d lk t) → (∀ x, x ≠ tp → (set_link None <$> d_threads s' !! x) = (set_link None <$> d_threads s !! x)) → (∀ x, x ≠ tp → x ∉ L d (DISP_PRIO t) → d_threads s' !! x = d_threads s !! x) →
  linked (d_threads s') l' →
  (if decide (L d (DISP_PRIO t) = []) then BT_SET (disp_qactmap dp) (DISP_PRIO t) = Ok map else map = disp_qactmap dp) →
  disp_max_unbound_pri dp ≤ ub ≤ Z.max (disp_maxrunpri dp) (DISP_PRIO t) → (t_bound_cpu t = None → DISP_PRIO t ≤ ub) →
  (∀ d', get_disp s' d' = if decide (d' = d) then Ok (MkDisp (disp_npri dp) (<[Z.to_nat (DISP_PRIO t) := MkDq (head l') (list.last l') (Z.of_nat (length l'))]> (disp_q dp)) map (Z.max (disp_maxrunpri dp) (DISP_PRIO t)) ub (disp_nrunnable dp + 1)) else get_disp s d') →
  disp_inv s' (set_queue d (set_level (DISP_PRIO t) l' (L d)) L).
Proof.
  intros H Ed Et Hoff Hl Hb Hp El' Et' Hlink Hoth Hlk Hmap Hub Hub' Hdisp. pose proof (di_q _ _ H _ _ Ed) as Hdq. assert (l' ≡ₚ tp :: L d (DISP_PRIO t)) as Hperm by (destruct El' as [->| ->]; [by rewrite Permutation_app_comm|done]).
  assert (length l' = S (length (L d (DISP_PRIO t)))) as Hlen by (by rewrite Hperm). pose proof (queued_on d lk t Hl Hb) as Hon. pose proof (dk_ub _ _ Hdq).
  pose proof (dq_ok_insert dp (L d) (DISP_PRIO t) l' map ub Hdq Hp Hlen Hmap ltac:(lia)) as Hdq'. eapply (inv_add s s' L d dp _ tp t (queued d lk t)); try done. simpl. lia.
Qed.

Lemma level_off s L d pri tp t : disp_inv s L → d_threads s !! tp = Some t → off_queue t → tp ∉ L d pri.
Proof. intros H E Hoff Hin. by apply (on_not_off s L d pri tp t). Qed.

Lemma last_level s L d pri : disp_inv s L → L d pri ≠ [] → ∃ l0 y ty, L d pri = l0 ++ [y] ∧ d_threads s !! y = Some ty ∧ y ∉ l0.
Proof.
  intros H Hne. destruct (L d pri) as [|z l _] eqn:E using rev_ind; [done|]. exists l, z. destruct (di_mem _ _ H d pri z) as (ty & Ey & _); [rewrite E; apply elem_of_app; right; left|]. exists ty. split_and!; [done|done|].
  pose proof (di_nodup _ _ H d pri) as Hn. rewrite E in Hn. apply list.NoDup_app in Hn as (_ & Hn & _). intros Hin. apply (Hn z Hin). left.
Qed.

(** The threads after [tp] is put at the end of [l]. *)
Definition back_threads (th : gmap Z kthread) (d : dispref) (l : list Z) (tp : Z) (t : kthread) : gmap Z kthread :=
  match list.last l with None => <[tp := queued d None t]> th | Some y => alter (set_link (Some tp)) y (<[tp := queued d None t]> th) end.

(** The queue after a thread is added to the list of a priority, which is now [l']. *)
Definition added (dp : disp_t) (pri : Z) (l' map : list Z) (ub : Z) : disp_t :=
  MkDisp (disp_npri dp) (<[Z.to_nat pri := MkDq (head l') (list.last l') (Z.of_nat (length l'))]> (disp_q dp)) map (Z.max (disp_maxrunpri dp) pri) ub (disp_nrunnable dp + 1).

Definition set_act (L : Z → list Z) (pri : Z) (dp : disp_t) (map : list Z) : Prop := if decide (L pri = []) then BT_SET (disp_qactmap dp) pri = Ok map else map = disp_qactmap dp.

Section add.
Context (s s' : dsys) (L : dispref → Z → list Z) (d : dispref) (dp : disp_t) (tp : Z) (t : kthread) (map : list Z) (ub : Z).
Context (H : disp_inv s L) (Ed : get_disp s d = Ok dp) (Et : d_threads s !! tp = Some t) (Hoff : off_queue t) (Hld : loaded t = true) (Hb : ∀ p, d = DKp p → t_bound_cpu t = None) (Hp : 0 ≤ DISP_PRIO t < disp_npri dp).
Context (Hmap : set_act (L d) (DISP_PRIO t) dp map) (Hub : disp_max_unbound_pri dp ≤ ub ≤ Z.max (disp_maxrunpri dp) (DISP_PRIO t)) (Hub' : t_bound_cpu t = None → DISP_PRIO t ≤ ub).

Lemma add_back : d_threads s' = back_threads (d_threads s) d (L d (DISP_PRIO t)) tp t → (∀ d', get_disp s' d' = if decide (d' = d) then Ok (added dp (DISP_PRIO t) (L d (DISP_PRIO t) ++ [tp]) map ub) else get_disp s d') →
  disp_inv s' (set_queue d (set_level (DISP_PRIO t) (L d (DISP_PRIO t) ++ [tp]) (L d)) L).
Proof.
  intros Hth Hdisp. unfold back_threads in Hth. destruct (decide (L d (DISP_PRIO t) = [])) as [El|El].
  - rewrite El in Hth. simpl in Hth. eapply (add_finish s s' L d dp tp t None _ map ub); try done.
    + by left.
    + rewrite Hth. apply lookup_insert_eq.
    + intros y Hy. by rewrite Hth, lookup_insert_ne.
    + intros y Hy _. by rewrite Hth, lookup_insert_ne.
    + rewrite El. simpl. split; [|done]. by rewrite Hth, lookup_insert_eq.
  - destruct (last_level s L d (DISP_PRIO t) H El) as (l0 & y & ty & Ely & Ey & Hy0). assert (tp ∉ L d (DISP_PRIO t)) as Hnew by (by apply (level_off s L d _ tp t)).
    rewrite Ely, last_snoc in Hth. assert (y ≠ tp) as Hyt. { intros ->. apply Hnew. rewrite Ely. apply elem_of_app. right. left. }
    assert (∀ z, z ≠ tp → z ≠ y → d_threads s' !! z = d_threads s !! z) as Hz by (intros z Hz1 Hz2; rewrite Hth, lookup_alter_ne, lookup_insert_ne by done; done).
    assert (d_threads s' !! y = Some (set_link (Some tp) ty)) as E4y by (rewrite Hth, lookup_alter_eq, lookup_insert_ne, Ey by done; done).
    assert (d_threads s' !! tp = Some (queued d None t)) as E4t by (rewrite Hth, lookup_alter_ne, lookup_insert_eq by done; done).
    eapply (add_finish s s' L d dp tp t None _ map ub); try done.
    + by left.
    + intros z Hz1. destruct (decide (z = y)) as [->|Hz2]; [by rewrite E4y, Ey|]. by rewrite Hz.
    + intros z Hz1 Hz2. apply Hz; [done|]. intros ->. apply Hz2. rewrite Ely. apply elem_of_app. right. left.
    + rewrite Ely. apply (linked_snoc (d_threads s)); [rewrite <- Ely; apply (di_link _ _ H)| |by rewrite E4y|by rewrite E4t].
      intros z Hz'. rewrite Hz; [done| |by intros ->]. intros ->. apply Hnew. rewrite Ely. apply elem_of_app. by left.
Qed.

Lemma add_front : d_threads s' = <[tp := queued d (head (L d (DISP_PRIO t))) t]> (d_threads s) → (∀ d', get_disp s' d' = if decide (d' = d) then Ok (added dp (DISP_PRIO t) (tp :: L d (DISP_PRIO t)) map ub) else get_disp s d') →
  disp_inv s' (set_queue d (set_level (DISP_PRIO t) (tp :: L d (DISP_PRIO t)) (L d)) L).
Proof.
  intros Hth Hdisp. assert (tp ∉ L d (DISP_PRIO t)) as Hnew by (by apply (level_off s L d _ tp t)). eapply (add_finish s s' L d dp tp t (head (L d (DISP_PRIO t))) _ map ub); try done.
  - by right.
  - rewrite Hth. apply lookup_insert_eq.
  - intros y Hy. by rewrite Hth, lookup_insert_ne.
  - intros y Hy _. by rewrite Hth, lookup_insert_ne.
  - apply (linked_cons (d_threads s)); [apply (di_link _ _ H)| |by rewrite Hth, lookup_insert_eq]. intros z Hz. rewrite Hth, lookup_insert_ne; [done|]. by intros ->.
Qed.
End add.

(** The last step: the priority of unbound threads. *)
Lemma unbound_step s d dp (b : bool) pri : get_disp s d = Ok dp →
  ∃ s', (if b && (disp_max_unbound_pri dp <? pri) then put_disp d (set_max_unbound_pri pri dp) s else Ok s) = Ok s' ∧ d_threads s' = d_threads s ∧
    (∀ d', get_disp s' d' = if decide (d' = d) then Ok (set_max_unbound_pri (if b && (disp_max_unbound_pri dp <? pri) then pri else disp_max_unbound_pri dp) dp) else get_disp s d') ∧ frame s s'.
Proof.
  intros Ed. destruct (b && _).
  - destruct (put_disp_ok s d dp (set_max_unbound_pri pri dp) Ed eq_refl) as (s' & E & Ht & Hd & Hf & _). by exists s'.
  - exists s. split_and!; [done|done| |done]. intros d'. case_decide as E; [subst d'; rewrite Ed; by destruct dp|done].
Qed.

(** The first step of a queue that was empty. *)
Lemma first_step s me cp x dp1 tpri : d_cpus s !! cp = Some x → is_Some (d_threads s !! cpu_dispthread x) → disp_npri dp1 = disp_npri (cpu_disp x) →
  ∃ s', (if disp_maxrunpri dp1 <? tpri then s ← put_disp (DCpu cp) (set_maxrunpri tpri dp1) s; cpupri ← thread_prio s (cpu_dispthread x); cpu_resched me cp tpri cpupri s else put_disp (DCpu cp) dp1 s) = Ok s' ∧
    d_threads s' = d_threads s ∧ (∀ d', get_disp s' d' = if decide (d' = DCpu cp) then Ok (set_maxrunpri (Z.max (disp_maxrunpri dp1) tpri) dp1) else get_disp s d') ∧ frame s s'.
Proof.
  intros Ex [td Htd] Hn. assert (get_disp s (DCpu cp) = Ok (cpu_disp x)) as Ed by (apply get_disp_cpu; by exists x). destruct (Z.ltb_spec (disp_maxrunpri dp1) tpri) as [Hlt|Hge].
  - destruct (put_disp_ok s (DCpu cp) _ (set_maxrunpri tpri dp1) Ed Hn) as (s1 & -> & Ht & Hd & Hf & Hdt). cbn [mbind res_bind]. rewrite (thread_prio_ok s1 _ td) by (by rewrite Ht). cbn [mbind res_bind].
    specialize (Hdt cp). rewrite Ex in Hdt. destruct (d_cpus s1 !! cp) as [x1|] eqn:Ex1; [|done]. simpl in Hdt. injection Hdt as Hdt.
    destruct (cpu_resched_ok me cp x1 tpri (DISP_PRIO td) s1 Ex1) as (s2 & -> & [Q1 Q2 Q3]); [rewrite Hdt, Ht; by eexists|]. exists s2. split; [done|]. split_and!; [congruence| |by etrans].
    intros d'. rewrite Q2, Hd. by rewrite Z.max_r by lia.
  - destruct (put_disp_ok s (DCpu cp) _ dp1 Ed Hn) as (s1 & -> & Ht & Hd & Hf & _). exists s1. split_and!; [done|done| |done]. intros d'. rewrite Hd, Z.max_l by lia. by destruct dp1.
Qed.

Lemma maxrun_level s L d dp pri : disp_inv s L → get_disp s d = Ok dp → L d pri ≠ [] → Z.max (disp_maxrunpri dp) pri = disp_maxrunpri dp.
Proof. intros H Ed Hne. apply Z.max_l. destruct (decide (pri ≤ disp_maxrunpri dp)) as [|Hn]; [done|]. exfalso. apply Hne, (dk_above _ _ (di_q _ _ H _ _ Ed)). lia. Qed.

(** The bounds of the new priority of unbound threads. *)
Lemma ub_bounds dp L (b : option Z) pri : dq_ok dp L → -1 ≤ pri → let ub := if is_null b && (disp_max_unbound_pri dp <? pri) then pri else disp_max_unbound_pri dp in
  disp_max_unbound_pri dp ≤ ub ≤ Z.max (disp_maxrunpri dp) pri ∧ (b = None → pri ≤ ub).
Proof. intros H Hp ub. pose proof (dk_ub _ _ H). unfold ub. destruct b; simpl; [split; [lia|done]|]. destruct (Z.ltb_spec (disp_max_unbound_pri dp) pri); split; intros; lia. Qed.

Section enqueue.
Context (N : Z) (me cp tp : Z) (t : kthread) (s : dsys) (L : dispref → Z → list Z) (x : cpu).
Context (H : disp_inv s L) (W : sys_wf N s) (Et : d_threads s !! tp = Some t) (Hoff : off_queue t) (Hld : loaded t = true) (Ex : d_cpus s !! cp = Some x) (Hpos : 0 ≤ DISP_PRIO t).
Abbreviation d := (DCpu cp).
Abbreviation pri := (DISP_PRIO t).

Lemma enq_facts : get_disp s d = Ok (cpu_disp x) ∧ dq_ok (cpu_disp x) (L d) ∧ 0 ≤ pri < disp_npri (cpu_disp x) ∧ is_Some (d_threads s !! cpu_dispthread x) ∧ get_dq (cpu_disp x) pri = Ok (MkDq (head (L d pri)) (list.last (L d pri)) (Z.of_nat (length (L d pri)))).
Proof using H W Et Ex Hpos.
  assert (get_disp s d = Ok (cpu_disp x)) as Ed by (apply get_disp_cpu; by exists x). pose proof (di_q _ _ H _ _ Ed) as Hdq. destruct (wf_c _ _ W cp x Ex) as (Wn & _ & _ & _ & Wd). destruct (wf_t _ _ W tp t Et) as (Wp & _).
  assert (0 ≤ pri < disp_npri (cpu_disp x)) by (rewrite Wn; lia). split_and!; try done; try lia. by apply dk_get.
Qed.

Lemma enq_map : ∃ map, set_act (L d) pri (cpu_disp x) map ∧ (L d pri = [] → BT_SET (disp_qactmap (cpu_disp x)) pri = Ok map).
Proof using H W Et Ex Hpos.
  destruct enq_facts as (Ed & Hdq & Hp & _). unfold set_act. case_decide; [|by eexists]. destruct (act_set _ _ (dk_bits _ _ Hdq) (dk_in_map _ _ _ Hdq Hp)) as (map & Em & _). by exists map.
Qed.

Lemma back_section_ok : ∃ s', back_section me cp tp pri s = Ok s' ∧ disp_inv s' (set_queue d (set_level pri (L d pri ++ [tp]) (L d)) L) ∧ frame s s' ∧ ∀ d', d' ≠ d → get_disp s' d' = get_disp s d'.
Proof.
  destruct enq_facts as (Ed & Hdq & Hp & Hdt & Edq). destruct enq_map as (map & Hmap & Em). destruct (ub_bounds _ _ (t_bound_cpu t) pri Hdq) as [Hub1 Hub2]; [lia|]. unfold back_section. rewrite (upd_thread_ok _ _ _ _ Et). cbn [mbind res_bind].
  fold (queued d None t). set (t1 := queued d None t). set (s1 := with_threads _ s). rewrite (get_cpu_ok s1 cp x) by done. cbn [mbind res_bind]. rewrite Edq. cbn [mbind res_bind dq_sruncnt dq_first dq_last].
  assert (frame s s1) as F1 by (by apply frame_thread with t). assert (is_Some (d_threads s1 !! cpu_dispthread x)) as Hs1 by (by apply (frame_dom _ _ _ F1)).
  destruct (decide (L d pri = [])) as [El|El].
  - rewrite El. change (Z.of_nat (length (@nil Z))) with 0. change (negb (0 =? 0)) with false. cbv iota. cbn [disp_qactmap set_nrunnable]. rewrite Em by done. cbn [mbind res_bind].
    set (dp1 := set_qactmap map _). destruct (first_step s1 me cp x dp1 pri) as (s2 & -> & T2 & D2 & F2); [done|done|done|]. cbn [mbind res_bind].
    rewrite (get_thread_ok s2 tp t1) by (rewrite T2; apply lookup_insert_eq). cbn [mbind res_bind]. specialize (D2 d) as D2d. rewrite decide_True in D2d by done. rewrite D2d. cbn [mbind res_bind].
    destruct (unbound_step s2 d _ (is_null (t_bound_cpu t1)) pri D2d) as (s3 & -> & T3 & D3 & F3). exists s3. split; [done|]. split; [|split; [etrans; [exact F1|by etrans]|intros d' Hd'; rewrite D3, D2, !decide_False by done; by destruct d']].
    replace ([] ++ [tp]) with (L d pri ++ [tp]) by (by rewrite El). eapply (add_back s s3 L d (cpu_disp x) tp t map); try done; [by rewrite T3, T2; unfold back_threads; rewrite El|]. intros d'. rewrite D3, D2. case_decide; [by rewrite El|by destruct d'].
  - destruct (last_level s L d pri H El) as (l0 & y & ty & Ely & Ey & Hy0). assert (y ≠ tp) as Hyt. { intros ->. apply (level_off s L d pri tp t H Et Hoff). rewrite Ely. apply elem_of_app. right. left. }
    assert (Z.of_nat (length (L d pri)) ≠ 0) as Hlen by (rewrite Ely, length_app; simpl; lia). rewrite (proj2 (Z.eqb_neq _ _) Hlen). cbn [negb]. rewrite Ely, last_snoc. cbn [deref mbind res_bind].
    assert (d_threads s1 !! y = Some ty) as E1y by (cbn [d_threads s1 with_threads]; by rewrite lookup_insert_ne). rewrite (upd_thread_ok s1 y ty) by done. cbn [mbind res_bind]. set (s2 := with_threads _ s1). set (dp1 := put_dq _ _ _).
    assert (frame s1 s2) as F2 by (by apply frame_thread with ty). destruct (put_disp_ok s2 d (cpu_disp x) dp1) as (s3 & -> & T3 & D3 & F3 & _); [done|done|]. cbn [mbind res_bind].
    assert (d_threads s3 !! tp = Some t1) as E3 by (rewrite T3; cbn [d_threads s2 s1 with_threads]; rewrite lookup_insert_ne by done; apply lookup_insert_eq). rewrite (get_thread_ok s3 tp t1 E3). cbn [mbind res_bind].
    specialize (D3 d) as D3d. rewrite decide_True in D3d by done. rewrite D3d. cbn [mbind res_bind]. destruct (unbound_step s3 d _ (is_null (t_bound_cpu t1)) pri D3d) as (s4 & -> & T4 & D4 & F4). exists s4. split; [done|].
    split; [|split; [etrans; [exact F1|etrans; [exact F2|by etrans]]|intros d' Hd'; rewrite D4, D3, !decide_False by done; by destruct d']]. rewrite <- Ely. eapply (add_back s s4 L d (cpu_disp x) tp t map); try done.
    + rewrite T4, T3. unfold back_threads. rewrite Ely, last_snoc. cbn [d_threads s2 s1 with_threads]. symmetry. by apply alter_is_insert.
    + intros d'. rewrite D4, D3. case_decide; [|by destruct d']. unfold added. rewrite (maxrun_level s L d (cpu_disp x) pri H Ed El). unfold set_act in Hmap. rewrite decide_False in Hmap by done. subst map. f_equal. unfold set_max_unbound_pri, dp1, put_dq, set_dispq, set_nrunnable. simpl. rewrite Ely. f_equal.
      f_equal. f_equal; [by destruct l0|by rewrite last_snoc|rewrite !length_app; simpl; lia].
Qed.

Lemma front_section_ok : ∃ s', front_section me cp tp pri s = Ok s' ∧ disp_inv s' (set_queue d (set_level pri (tp :: L d pri) (L d)) L) ∧ frame s s' ∧ ∀ d', d' ≠ d → get_disp s' d' = get_disp s d'.
Proof.
  destruct enq_facts as (Ed & Hdq & Hp & Hdt & Edq). destruct enq_map as (map & Hmap & Em). destruct (ub_bounds _ _ (t_bound_cpu t) pri Hdq) as [Hub1 Hub2]; [lia|]. unfold front_section. rewrite (upd_thread_ok _ _ _ _ Et). cbn [mbind res_bind].
  set (t1 := set_disp_queue _ _). set (s1 := with_threads _ s). rewrite (get_cpu_ok s1 cp x) by done. cbn [mbind res_bind]. rewrite Edq. cbn [mbind res_bind dq_sruncnt dq_first dq_last].
  assert (frame s s1) as F1 by (by apply frame_thread with t). assert (d_threads s1 !! tp = Some t1) as E1 by apply lookup_insert_eq. assert (is_Some (d_threads s1 !! cpu_dispthread x)) as Hs1 by (by apply (frame_dom _ _ _ F1)).
  rewrite !(upd_thread_ok s1 tp t1) by done. cbn [mbind res_bind]. assert (∀ lk, with_threads (<[tp := set_link lk t1]> (d_threads s1)) s1 = with_threads (<[tp := queued d lk t]> (d_threads s)) s) as Es.
  { intros lk. unfold with_threads at 1. cbn. by rewrite insert_insert_eq. }
  rewrite !Es. destruct (decide (L d pri = [])) as [El|El].
  - rewrite El. change (Z.of_nat (length (@nil Z))) with 0. change (negb (0 =? 0)) with false. cbv iota. cbn [disp_qactmap set_nrunnable]. rewrite Em by done. cbn [mbind res_bind]. set (s2 := with_threads _ s).
    assert (frame s s2) as F2 by (by apply frame_thread with t). set (dp1 := set_qactmap map _). destruct (first_step s2 me cp x dp1 pri) as (s3 & -> & T3 & D3 & F3); [done|by apply (frame_dom _ _ _ F2)|done|]. cbn [mbind res_bind].
    rewrite (get_thread_ok s3 tp (queued d None t)) by (rewrite T3; apply lookup_insert_eq). cbn [mbind res_bind]. specialize (D3 d) as D3d. rewrite decide_True in D3d by done. rewrite D3d. cbn [mbind res_bind].
    destruct (unbound_step s3 d _ (is_null (t_bound_cpu t)) pri D3d) as (s4 & Es4 & T4 & D4 & F4). exists s4. split; [exact Es4|]. split; [|split; [etrans; [exact F2|by etrans]|intros d' Hd'; rewrite D4, D3, !decide_False by done; by destruct d']].
    replace [tp] with (tp :: L d pri) by (by rewrite El). eapply (add_front s s4 L d (cpu_disp x) tp t map); try done; [by rewrite T4, T3, El|]. intros d'. rewrite D4, D3. case_decide; [by rewrite El|by destruct d'].
  - assert (Z.of_nat (length (L d pri)) ≠ 0) as Hlen by (destruct (L d pri); [done|simpl; lia]). rewrite (proj2 (Z.eqb_neq _ _) Hlen). cbn [negb]. set (s2 := with_threads _ s). set (dp1 := put_dq _ _ _).
    assert (frame s s2) as F2 by (by apply frame_thread with t). destruct (put_disp_ok s2 d (cpu_disp x) dp1) as (s3 & -> & T3 & D3 & F3 & _); [done|done|]. cbn [mbind res_bind].
    rewrite (get_thread_ok s3 tp (queued d (head (L d pri)) t)) by (rewrite T3; apply lookup_insert_eq). cbn [mbind res_bind].
    specialize (D3 d) as D3d. rewrite decide_True in D3d by done. rewrite D3d. cbn [mbind res_bind]. destruct (unbound_step s3 d _ (is_null (t_bound_cpu t)) pri D3d) as (s4 & Es4 & T4 & D4 & F4). exists s4. split; [exact Es4|].
    split; [|split; [etrans; [exact F2|by etrans]|intros d' Hd'; rewrite D4, D3, !decide_False by done; by destruct d']]. eapply (add_front s s4 L d (cpu_disp x) tp t map); try done.
    + by rewrite T4, T3.
    + intros d'. rewrite D4, D3. case_decide; [|by destruct d']. unfold added. rewrite (maxrun_level s L d (cpu_disp x) pri H Ed El). unfold set_act in Hmap. rewrite decide_False in Hmap by done. subst map. f_equal. unfold set_max_unbound_pri, dp1, put_dq, set_dispq, set_nrunnable. simpl. f_equal.
      f_equal. f_equal; [by destruct (L d pri)|lia].
Qed.
End enqueue.

(** ** The kpreempt queue *)

Lemma kp_section_ok N front tp t s L : disp_inv s L → sys_wf N s → d_threads s !! tp = Some t → off_queue t → loaded t = true → t_bound_cpu t = None → 0 ≤ DISP_PRIO t →
  let d := DKp (t_cpupart t) in let pri := DISP_PRIO t in
  ∃ s', kp_section front tp pri s = Ok s' ∧ disp_inv s' (set_queue d (set_level pri (if front then tp :: L d pri else L d pri ++ [tp]) (L d)) L) ∧ frame s s' ∧ ∀ d', d' ≠ d → get_disp s' d' = get_disp s d'.
Proof.
  intros H W Et Hoff Hld Hbd Hpos d pri. destruct (wf_t _ _ W tp t Et) as (Wp & _ & [px Epx] & _). assert (get_disp s d = Ok (cp_kp_queue px)) as Ed by (apply get_disp_kp; by exists px). set (dp := cp_kp_queue px) in *.
  assert (disp_npri dp = N) as Wn by (by apply (get_disp_npri N s d)). pose proof (di_q _ _ H _ _ Ed) as Hdq. assert (0 ≤ pri < disp_npri dp) as Hp by (unfold pri; lia). pose proof (dk_get _ _ _ Hdq Hp) as Edq.
  destruct (ub_bounds _ _ (t_bound_cpu t) pri Hdq) as [Hub1 Hub2]; [lia|]. rewrite Hbd in Hub1, Hub2. simpl in Hub1, Hub2. assert (∀ b : option Z, b = None → pri ≤ (if disp_max_unbound_pri dp <? pri then pri else disp_max_unbound_pri dp)) as Hub3 by (intros; by apply Hub2).
  unfold kp_section. rewrite (get_thread_ok _ _ _ Et). cbn [mbind res_bind]. fold d. rewrite (upd_thread_ok _ _ _ _ Et). cbn [mbind res_bind]. set (t1 := set_disp_queue _ _). set (s1 := with_threads _ s).
  assert (get_disp s1 d = Ok dp) as -> by done. cbn [mbind res_bind]. unfold get_dq in Edq |- *. cbn [disp_q set_nrunnable]. rewrite Edq. cbn [mbind res_bind dq_sruncnt dq_first dq_last].
  assert (d_threads s1 !! tp = Some t1) as E1 by apply lookup_insert_eq. assert (∀ lk, with_threads (<[tp := set_link lk t1]> (d_threads s1)) s1 = with_threads (<[tp := queued d lk t]> (d_threads s)) s) as Es.
  { intros lk. unfold with_threads at 1. cbn. by rewrite insert_insert_eq. }
  assert (s1 = with_threads (<[tp := queued d None t]> (d_threads s)) s) as Es1. { unfold s1. f_equal. f_equal. pose proof (di_free _ _ H tp t Et Hoff) as Hnl. unfold t1, queued, set_link. simpl. by rewrite <- Hnl. }
  destruct (decide (L d pri = [])) as [El|El].
  - rewrite El. change (Z.of_nat (length (@nil Z))) with 0. change (negb (0 =? 0)) with false. cbv iota. destruct (act_set _ _ (dk_bits _ _ Hdq) (dk_in_map _ _ _ Hdq Hp)) as (map & Em & _). cbn [disp_qactmap set_nrunnable].
    assert ((if front then upd_thread tp (set_link None) s1 else Ok s1) = Ok (with_threads (<[tp := queued d None t]> (d_threads s)) s)) as ->. { destruct front; [by rewrite (upd_thread_ok s1 tp t1), Es|by rewrite Es1 at 1]. }
    cbn [mbind res_bind]. rewrite Em. cbn [mbind res_bind]. set (s2 := with_threads _ s). assert (frame s s2) as F2 by (by apply frame_thread with t). set (dp2 := if disp_maxrunpri _ <? pri then _ else _).
    assert (dp2 = added dp pri [tp] map (if disp_max_unbound_pri dp <? pri then pri else disp_max_unbound_pri dp)) as Edp2.
    { unfold dp2, added. simpl. destruct (disp_max_unbound_pri dp <? pri); simpl; (destruct (Z.ltb_spec (disp_maxrunpri dp) pri); [rewrite Z.max_r by lia|rewrite Z.max_l by lia]; done). }
    destruct (put_disp_ok s2 d dp dp2) as (s3 & -> & T3 & D3 & F3 & _); [done|by rewrite Edp2|]. exists s3. split; [done|]. split; [|split; [by etrans|intros d' Hd'; rewrite D3, !decide_False by done; by destruct d']]. rewrite Edp2 in D3. assert (set_act (L d) pri dp map) as Hmap by (unfold set_act; by rewrite decide_True). destruct front.
    + replace [tp] with (tp :: L d pri) by (by rewrite El). apply (add_front s s3 L d dp tp t map (if disp_max_unbound_pri dp <? pri then pri else disp_max_unbound_pri dp)); try done; [by apply Hub3|by rewrite T3; fold pri; rewrite El|].
      intros d'. rewrite D3. fold pri. rewrite El. case_decide; [done|by destruct d'].
    + replace ([] ++ [tp]) with (L d pri ++ [tp]) by (by rewrite El). apply (add_back s s3 L d dp tp t map (if disp_max_unbound_pri dp <? pri then pri else disp_max_unbound_pri dp)); try done; [by apply Hub3|by rewrite T3; fold pri; unfold back_threads; rewrite El|].
      intros d'. rewrite D3. fold pri. rewrite El. case_decide; [done|by destruct d'].
  - pose proof (maxrun_level s L d dp pri H Ed El) as Hmx. assert (set_act (L d) pri dp (disp_qactmap dp)) as Hmap by (unfold set_act; by rewrite decide_False).
    assert ((if disp_max_unbound_pri dp <? pri then pri else disp_max_unbound_pri dp) = disp_max_unbound_pri dp) as Hubeq.
    { destruct (L d pri) as [|z l] eqn:Ez; [done|]. destruct (di_mem _ _ H d pri z) as (tz & Etz & (_ & _ & _ & _ & _ & Hz)); [rewrite Ez; left|]. pose proof (di_ub _ _ H d dp pri z tz Ed ltac:(rewrite Ez; left) Etz (Hz _ eq_refl)). by rewrite (proj2 (Z.ltb_ge _ _)) by lia. }
    rewrite Hubeq in Hub1, Hub3. destruct (last_level s L d pri H El) as (l0 & y & ty & Ely & Ey & Hy0). assert (y ≠ tp) as Hyt. { intros ->. apply (level_off s L d pri tp t H Et Hoff). rewrite Ely. apply elem_of_app. right. left. }
    assert (Z.of_nat (length (L d pri)) ≠ 0) as Hlen by (rewrite Ely, length_app; simpl; lia). rewrite (proj2 (Z.eqb_neq _ _) Hlen). cbn [negb]. rewrite !(upd_thread_ok s1 tp t1), !Es by done. cbn [mbind res_bind]. destruct front.
    + set (s2 := with_threads _ s). assert (frame s s2) as F2 by (by apply frame_thread with t). set (dp1 := put_dq _ _ _). destruct (put_disp_ok s2 d dp dp1) as (s3 & -> & T3 & D3 & F3 & _); [done|done|]. exists s3. split; [done|]. split; [|split; [by etrans|intros d' Hd'; rewrite D3, !decide_False by done; by destruct d']].
      eapply (add_front s s3 L d dp tp t (disp_qactmap dp) (disp_max_unbound_pri dp)); try done; [by apply Hub3|]. intros d'. rewrite D3. case_decide; [|by destruct d']. unfold added. fold pri. rewrite Hmx. f_equal. unfold dp1, put_dq, set_dispq, set_nrunnable. simpl. f_equal.
      f_equal. f_equal; [by destruct (L d pri)|lia].
    + rewrite Ely, last_snoc. cbn [deref mbind res_bind]. set (s2 := with_threads _ s). assert (frame s s2) as F2 by (by apply frame_thread with t). assert (d_threads s2 !! y = Some ty) as E2y by (cbn [d_threads s2 with_threads]; by rewrite lookup_insert_ne).
      rewrite (upd_thread_ok s2 y ty) by done. cbn [mbind res_bind]. set (s3 := with_threads _ s2). assert (frame s2 s3) as F3 by (by apply frame_thread with ty). set (dp1 := put_dq _ _ _).
      destruct (put_disp_ok s3 d dp dp1) as (s4 & -> & T4 & D4 & F4 & _); [done|done|]. exists s4. split; [done|]. split; [|split; [etrans; [exact F2|by etrans]|intros d' Hd'; rewrite D4, !decide_False by done; by destruct d']]. rewrite <- Ely.
      eapply (add_back s s4 L d dp tp t (disp_qactmap dp) (disp_max_unbound_pri dp)); try done.
      * by apply Hub3.
      * rewrite T4. unfold back_threads. fold pri. rewrite Ely, last_snoc. cbn [d_threads s3 s2 with_threads]. symmetry. by apply alter_is_insert.
      * intros d'. rewrite D4. case_decide; [|by destruct d']. unfold added. fold pri. rewrite Hmx. f_equal. unfold dp1, put_dq, set_dispq, set_nrunnable. simpl. rewrite Ely. f_equal. f_equal. f_equal; [by destruct l0|by rewrite last_snoc|rewrite !length_app; simpl; lia].
Qed.
