(* ===== verification/DispBest.v ===== *)
(** * Taking threads off the queues

    [dispdeq], the threads that [disp] and [disp_getbest] take, and the search of
    [disp_fix_unbound_pri] for the highest priority with an unbound thread. *)

From S2P Require Import Prelude Bitmap Disp DispSys DispOps.

(** ** Searching a queue *)

Lemma deq_search_ok s tp A : ∀ B trp fuel, linked (d_threads s) (A ++ tp :: B) → tp ∉ A → (length A < fuel)%nat →
  deq_search fuel s tp trp (head (A ++ tp :: B)) = Ok (match list.last A with Some y => Some y | None => trp end, Some tp).
Proof.
  induction A as [|a A IH]; intros B trp fuel Hl Hn Hf; (destruct fuel as [|fuel]; [simpl in Hf; lia|]); simpl; [by rewrite Z.eqb_refl|].
  apply not_elem_of_cons in Hn as [Hne Hn]. rewrite (proj2 (Z.eqb_neq a tp)) by congruence. destruct Hl as [Ha Hl]. apply fmap_Some in Ha as (ta & Ea & Hlk). rewrite (get_thread_ok _ _ _ Ea). cbn [mbind res_bind]. rewrite <- Hlk.
  specialize (IH B (Some a) fuel Hl Hn ltac:(simpl in Hf; lia)). assert (match A ++ tp :: B with [] => None | y :: _ => Some y end = head (A ++ tp :: B)) as -> by (by destruct A). rewrite IH. f_equal. f_equal. destruct A as [|b A]; [done|]. rewrite (last_cons_cons a). by destruct (list.last (b :: A)) eqn:E; [|apply last_None in E].
Qed.

Fixpoint first_unbound (th : gmap Z kthread) (l : list Z) : option Z :=
  match l with
  | [] => None
  | x :: l' => match th !! x with Some t => if is_null (t_bound_cpu t) then Some x else first_unbound th l' | None => None end
  end.

Lemma skip_bound_ok s l : ∀ fuel, linked (d_threads s) l → (length l < fuel)%nat → skip_bound fuel s (head l) = Ok (first_unbound (d_threads s) l).
Proof.
  induction l as [|x l IH]; intros fuel Hl Hf; (destruct fuel as [|fuel]; [simpl in Hf; lia|]); simpl; [done|]. destruct Hl as [Hx Hl]. apply fmap_Some in Hx as (t & E & Hlk). rewrite (get_thread_ok _ _ _ E), E. cbn [mbind res_bind].
  destruct (is_null (t_bound_cpu t)); [done|]. rewrite <- Hlk. rewrite <- IH with (fuel := fuel) by (done || (simpl in Hf; lia)). by destruct l.
Qed.

Lemma first_unbound_Some th l x : first_unbound th l = Some x → x ∈ l ∧ ∃ t, th !! x = Some t ∧ t_bound_cpu t = None.
Proof.
  induction l as [|y l IH]; simpl; [done|]. destruct (th !! y) as [t|] eqn:E; [|done]. destruct (t_bound_cpu t) eqn:Eb; simpl; intros Hx; [|injection Hx as <-; split; [left|by exists t]]. destruct (IH Hx) as [H1 H2]. split; [by right|done].
Qed.

Lemma first_unbound_None th l : (∀ x, x ∈ l → is_Some (th !! x)) → first_unbound th l = None → ∀ x t, x ∈ l → th !! x = Some t → t_bound_cpu t ≠ None.
Proof.
  induction l as [|y l IH]; simpl; intros Hd Hn x t Hx E; [by apply elem_of_nil in Hx|]. destruct (Hd y ltac:(left)) as [ty Ey]. rewrite Ey in Hn. destruct (t_bound_cpu ty) eqn:Eb; [|done]. simpl in Hn.
  apply elem_of_cons in Hx as [->|Hx]; [congruence|]. apply (IH (λ z Hz, Hd z ltac:(by right)) Hn x t Hx E).
Qed.

(** A list has no more threads than there are. *)
Lemma level_size s L d pri : disp_inv s L → (length (L d pri) ≤ size (d_threads s))%nat.
Proof.
  intros H. assert (list_to_set (L d pri) ⊆ dom (d_threads s)) as Hs. { intros x Hx. apply elem_of_list_to_set in Hx. destruct (di_mem _ _ H d pri x Hx) as (t & E & _). apply elem_of_dom. by eexists. }
  apply (subseteq_size (C := gset Z)) in Hs. rewrite size_list_to_set in Hs by apply (di_nodup _ _ H). by rewrite size_dom in Hs.
Qed.

(** ** Removing *)

(** The threads after [tp] is taken from between [A] and [B], itself as [t']. *)
Definition removed_threads (th : gmap Z kthread) (A B : list Z) (tp : Z) (t' : kthread) : gmap Z kthread :=
  <[tp := t']> (match list.last A with None => th | Some y => alter (set_link (head B)) y th end).

Section remove.
Context (s s' : dsys) (L : dispref → Z → list Z) (d : dispref) (dp dp' : disp_t) (tp : Z) (t t' : kthread) (pri : Z) (A B : list Z).
Context (H : disp_inv s L) (Ed : get_disp s d = Ok dp) (Et : d_threads s !! tp = Some t) (EL : L d pri = A ++ tp :: B).

Lemma split_facts : (tp ∉ A) ∧ (tp ∉ B) ∧ (∀ y, list.last A = Some y → y ≠ tp ∧ (y ∉ B) ∧ ∃ ty, d_threads s !! y = Some ty) ∧ t_link t = head B ∧ tp ∈ L d pri.
Proof using H Et EL.
  pose proof (di_nodup _ _ H d pri) as Hn. rewrite EL in Hn. apply list.NoDup_app in Hn as (Hn1 & Hn2 & Hn3). apply list.NoDup_cons in Hn3 as [Hn3 _]. split; [intros Hx; apply (Hn2 tp Hx); left|]. split; [done|]. split.
  - intros y Hy. apply last_Some_elem_of in Hy. split; [intros ->; apply (Hn2 tp Hy); left|]. split; [intros Hx; apply (Hn2 y Hy); by right|]. destruct (di_mem _ _ H d pri y) as (ty & E & _); [rewrite EL; apply elem_of_app; by left|]. by exists ty.
  - split; [|rewrite EL; apply elem_of_app; right; left]. pose proof (di_link _ _ H d pri) as Hl. rewrite EL in Hl. destruct (lseg_at _ _ _ _ Hl) as (t0 & E0 & Hl0). congruence.
Qed.

Lemma removed_linked : d_threads s' = removed_threads (d_threads s) A B tp t' → linked (d_threads s') (A ++ B).
Proof.
  intros Hth. destruct split_facts as (HA & HB & Hy & _ & _). pose proof (di_link _ _ H d pri) as Hl. pose proof (di_nodup _ _ H d pri) as Hn. rewrite EL in Hl, Hn. apply lseg_app in Hl as [HlA [_ HlB]]. apply list.NoDup_app in Hn as (HnA & HnAB & _).
  unfold removed_threads in Hth. assert (linked (d_threads s') B) as HlB'.
  { apply (lseg_ext (d_threads s)); [|done]. intros x Hx. rewrite Hth, lookup_insert_ne by (by intros ->). destruct (list.last A) as [y|] eqn:Ey; [|done]. rewrite lookup_alter_ne; [done|]. intros ->. by apply (Hy x). }
  apply lseg_app. split; [|done]. destruct A as [|a A' _] using rev_ind; [done|]. rewrite last_snoc in Hth. apply lseg_app in HlA as [HlA _]. apply lseg_app. simpl in HlA. apply list.NoDup_app in HnA as (_ & HnA & _).
  destruct (Hy a ltac:(apply last_snoc)) as (Hat & _ & ta & Eta). split.
  - apply (lseg_ext (d_threads s)); [|done]. intros x Hx. rewrite Hth, lookup_insert_ne, lookup_alter_ne; [done|intros ->; apply (HnA x Hx); left|intros ->; apply HA; apply elem_of_app; by left].
  - simpl. split; [|done]. rewrite Hth, lookup_insert_ne, lookup_alter_eq, Eta by done. simpl. by destruct B.
Qed.

Lemma remove_finish : off_queue t' → t_link t' = None → d_threads s' = removed_threads (d_threads s) A B tp t' → (∀ d', get_disp s' d' = if decide (d' = d) then Ok dp' else get_disp s d') → dq_ok dp' (set_level pri (A ++ B) (L d)) →
  (∀ p, p ≤ disp_max_unbound_pri dp → set_level pri (A ++ B) (L d) p ≠ [] → p ≤ disp_max_unbound_pri dp') → disp_inv s' (set_queue d (set_level pri (A ++ B) (L d)) L).
Proof.
  intros Hoff Hnl Hth Hdisp Hdq Hub. destruct split_facts as (HA & HB & Hy & _ & Hin). assert (L d pri ≡ₚ tp :: A ++ B) as Hperm by (rewrite EL; by rewrite Permutation_middle).
  eapply (inv_remove s s' L d dp dp' tp t'); try done.
  - by rewrite Hth; apply lookup_insert_eq.
  - intros x Hx. rewrite Hth. unfold removed_threads. rewrite lookup_insert_ne by done. destruct (list.last A) as [y|] eqn:Ey; [|done]. destruct (decide (x = y)) as [->|Hne]; [|by rewrite lookup_alter_ne]. rewrite lookup_alter_eq. by destruct (d_threads s !! y).
  - intros x Hx Hnin. rewrite Hth. unfold removed_threads. rewrite lookup_insert_ne by done. destruct (list.last A) as [y|] eqn:Ey; [|done]. rewrite lookup_alter_ne; [done|]. intros ->. apply Hnin. rewrite EL. apply elem_of_app. left. by apply last_Some_elem_of.
  - by apply removed_linked.
Qed.

(** The entry of the priority that the code stores. *)
Lemma removed_entry : MkDq (match list.last A with None => t_link t | Some _ => head (L d pri) end) (if is_null (t_link t) then list.last A else list.last (L d pri)) (Z.of_nat (length (L d pri)) - 1) = MkDq (head (A ++ B)) (list.last (A ++ B)) (Z.of_nat (length (A ++ B))).
Proof.
  destruct split_facts as (_ & _ & _ & -> & _). rewrite EL. f_equal.
  - destruct A as [|a A' _] using rev_ind; [done|]. rewrite last_snoc. by destruct A'.
  - destruct B as [|b B']; simpl; [by rewrite app_nil_r|]. by rewrite !last_app_cons, last_cons_cons.
  - rewrite !length_app. simpl. lia.
Qed.
End remove.

Lemma dispdeq_ok N s L d pri tp : disp_inv s L → sys_wf N s → tp ∈ L d pri →
  ∃ s' A B t, L d pri = A ++ tp :: B ∧ d_threads s !! tp = Some t ∧ dispdeq tp s = Ok (true, s') ∧ disp_inv s' (set_queue d (set_level pri (A ++ B) (L d)) L) ∧ frame s s' ∧
    d_threads s' = removed_threads (d_threads s) A B tp (THREAD_TRANSITION (set_link None t)) ∧ (∀ c, cpu_dispthread <$> d_cpus s' !! c = cpu_dispthread <$> d_cpus s !! c) ∧
    ∃ dp dp', get_disp s d = Ok dp ∧ get_disp s' d = Ok dp' ∧ (∀ d', d' ≠ d → get_disp s' d' = get_disp s d') ∧ disp_npri dp' = disp_npri dp ∧ disp_max_unbound_pri dp' ≤ disp_max_unbound_pri dp.
Proof.
  intros H W Hin. destruct (di_mem _ _ H d pri tp Hin) as (t & Et & Ep & Est & Elk & Edq & Eld & _). apply list_elem_of_split in Hin as Hsp. destruct Hsp as (A & B & EL).
  destruct (split_facts s L d tp t pri A B H Et EL) as (HA & HB & Hy & Htl & _).
  assert (∃ dp, get_disp s d = Ok dp) as [dp Ed]. { destruct (get_disp s d) as [dp| |] eqn:E; [by exists dp|exfalso; rewrite (di_none _ _ H d) in Hin by (intros ? E'; congruence); by apply elem_of_nil in Hin..]. }
  pose proof (di_q _ _ H _ _ Ed) as Hdq. assert (0 ≤ pri < disp_npri dp) as Hp. { destruct (decide (0 ≤ pri < disp_npri dp)); [done|]. rewrite (dk_out _ _ Hdq) in Hin by done. by apply elem_of_nil in Hin. }
  unfold dispdeq. rewrite (get_thread_ok _ _ _ Et). cbn [mbind res_bind]. rewrite Est, Eld, Edq, Ep. change (negb (TS_RUN =? TS_RUN)) with false. cbn [negb]. rewrite Ed. cbn [mbind res_bind]. rewrite (dk_get _ _ _ Hdq Hp). cbn [mbind res_bind dq_first dq_last dq_sruncnt].
  pose proof (level_size s L d pri H) as Hsz. pose proof (di_link _ _ H d pri) as Hl. rewrite EL in Hsz, Hl. rewrite length_app in Hsz. simpl in Hsz. assert (deq_search (Datatypes.S (size (d_threads s))) s tp None (head (L d pri)) = Ok (match list.last A with Some y => Some y | None => None end, Some tp)) as -> by (rewrite EL; apply deq_search_ok; (done || lia)). cbn [mbind res_bind].
  set (s1 := match list.last A with None => s | Some y => with_threads (alter (set_link (head B)) y (d_threads s)) s end).
  assert ((match (match list.last A with Some y => Some y | None => None end) with None => Ok (t_link t, s) | Some p => s0 ← upd_thread p (set_link (t_link t)) s; Ok (head (L d pri), s0) end) = Ok (match list.last A with None => t_link t | Some _ => head (L d pri) end, s1)) as ->.
  { unfold s1. destruct (list.last A) as [y|] eqn:Ey; [|done]. destruct (Hy y eq_refl) as (_ & _ & ty & Ety). rewrite (upd_thread_ok _ _ _ _ Ety). cbn [mbind res_bind]. rewrite (alter_is_insert _ _ _ _ Ety). by rewrite Htl. }
  assert (match list.last A with Some y => Some y | None => None end = list.last A) as -> by (by destruct (list.last A)). cbn [mbind res_bind].
  rewrite (removed_entry s L d tp t pri A B H Et EL). assert (length (L d pri) = S (length (A ++ B))) as Hlen by (rewrite EL, !length_app; simpl; lia).
  destruct (dq_ok_remove dp (L d) pri (A ++ B) Hdq Hp Hlen) as (dp' & Er & Hdq' & Hnp & Hub & Hle). unfold after_removal in Er.
  assert ((Z.of_nat (length (L d pri)) - 1 =? 0) = bool_decide (A ++ B = [])) as ->.
  { rewrite Hlen. case_bool_decide as E; [by rewrite E|]. apply Z.eqb_neq. destruct (A ++ B); [done|simpl; lia]. }
  rewrite Er. cbn [mbind res_bind]. assert (∀ d', get_disp s1 d' = get_disp s d') as D1 by (intros d'; unfold s1; destruct (list.last A); [by destruct d'|done]).
  assert (d_cpus s1 = d_cpus s) as C1 by (unfold s1; by destruct (list.last A)).
  assert (frame s s1) as F1. { unfold s1. destruct (list.last A) as [y|] eqn:Ey; [|done]. destruct (Hy y eq_refl) as (_ & _ & ty & Ety). rewrite (alter_is_insert _ _ _ _ Ety). by apply frame_thread with ty. }
  destruct (put_disp_ok s1 d dp dp') as (s2 & -> & T2 & D2 & F2 & X2); [by rewrite D1|done|]. cbn [mbind res_bind]. assert (d_threads s2 !! tp = Some t) as E2.
  { rewrite T2. unfold s1. destruct (list.last A) as [y|] eqn:Ey; [|done]. destruct (Hy y eq_refl) as (Hyt & _). cbn [d_threads with_threads]. by rewrite lookup_alter_ne. }
  rewrite (upd_thread_ok _ _ _ _ E2). cbn [mbind res_bind]. set (s3 := with_threads _ s2). assert (frame s2 s3) as F3 by (by apply frame_thread with t).
  assert (d_threads s3 = removed_threads (d_threads s) A B tp (THREAD_TRANSITION (set_link None t))) as T3. { unfold s3, removed_threads. cbn [d_threads with_threads]. rewrite T2. unfold s1. by destruct (list.last A). }
  assert (∀ d', get_disp s3 d' = if decide (d' = d) then Ok dp' else get_disp s d') as D3 by (intros d'; unfold s3; rewrite get_disp_threads, D2; case_decide; [done|apply D1]).
  exists s3, A, B, t. split_and!; try done.
  - eapply (remove_finish s s3 L d dp dp' tp t _ pri A B); try done; [by intros d0|done].
  - etrans; [exact F1|by etrans].
  - intros c. unfold s3. cbn [d_cpus with_threads]. by rewrite X2, C1.
  - exists dp, dp'. split_and!; [done|by rewrite D3, decide_True|intros d' Hd'; by rewrite D3, decide_False|done|done].
Qed.

(** ** The next priority in the bitmap *)

Definition next_active (map : list Z) (pri : Z) : res Z :=
  word ← deref (map !! Z.to_nat (Z.shiftr pri BT_ULSHIFT));
  if negb (Z.land word (sub32 (BT_BIW pri) 1) =? 0) then Ok (Z.shiftl (Z.shiftr pri BT_ULSHIFT) BT_ULSHIFT + highbit (Z.land word (sub32 (BT_BIW pri) 1)) - 1)
  else if 0 <? Z.shiftr pri BT_ULSHIFT then bt_gethighbit map (Z.shiftr pri BT_ULSHIFT - 1)
  else Ok (-1).

Lemma mask_ones pri : sub32 (BT_BIW pri) 1 = Z.ones (pri mod 32).
Proof.
  rewrite BT_BIW_pow2. pose proof (Z.mod_pos_bound pri 32 ltac:(lia)). rewrite Z.ones_equiv. unfold sub32. rewrite u32_small; [lia|].
  pose proof (Z.pow_pos_nonneg 2 (pri mod 32)). pose proof (Z.pow_lt_mono_r 2 (pri mod 32) 32). unfold is_u32, W32. lia.
Qed.

Lemma next_active_ok map pri : bitmap_ok map → in_map map pri →
  ∃ r, next_active map pri = Ok r ∧ -1 ≤ r < pri ∧ (0 ≤ r → bit map r = true) ∧ ∀ j, 0 ≤ j < pri → r < j → bit map j = false.
Proof.
  intros Hok Hin. pose proof Hin as Hin'. unfold in_map in Hin'. pose proof (Z.div_mod pri 32 ltac:(lia)) as Hdm. pose proof (Z.mod_pos_bound pri 32 ltac:(lia)) as Hmod. assert (0 ≤ pri / 32) by (apply Z.div_pos; lia).
  destruct (word_lookup _ _ Hin) as [w Hw]. unfold next_active. rewrite word_index, Hw. cbn [deref mbind res_bind]. rewrite mask_ones, Z.land_ones by lia. set (k := pri mod 32) in *. set (wx := pri / 32) in *.
  assert (is_u32 w) as Hu by (by eapply Forall_lookup_1 in Hok). unfold is_u32, W32 in Hu.
  assert (∀ m, 0 ≤ m < k → bit map (32 * wx + m) = Z.testbit (w mod 2 ^ k) m) as Hlow. { intros m Hm. rewrite (bit_word _ _ w) by (done || lia). by rewrite Z.mod_pow2_bits_low by lia. }
  pose proof (Z.mod_pos_bound w (2 ^ k) ltac:(apply Z.pow_pos_nonneg; lia)) as Hw2. destruct (Z.eqb_spec (w mod 2 ^ k) 0) as [E|E]; cbn [negb].
  - assert (∀ j, 32 * wx ≤ j < pri → bit map j = false) as Hz. { intros j Hj. replace j with (32 * wx + (j - 32 * wx)) by lia. rewrite Hlow, E by lia. apply Z.bits_0. }
    destruct (Z.ltb_spec 0 wx) as [Hwx|Hwx].
    + destruct (bt_gethighbit_highest map (wx - 1) Hok) as (r & -> & Hr & Hr1 & Hr2); [lia|]. exists r. split_and!; [done|lia|lia|done|]. intros j Hj Hrj. destruct (decide (32 * wx ≤ j)); [apply Hz; lia|apply Hr2; lia].
    + exists (-1). split_and!; [done|lia|lia|lia|]. intros j Hj _. apply Hz. lia.
  - assert (2 ^ k ≤ 2 ^ 31) by (apply Z.pow_le_mono_r; lia). rewrite highbit_log2 by (unfold W32; lia). set (v := w mod 2 ^ k) in *. assert (Z.log2 v < k) as Hlk by (apply Z.log2_lt_pow2; lia). pose proof (Z.log2_nonneg v).
    assert (Z.shiftl wx BT_ULSHIFT = 32 * wx) as -> by (rewrite Z.shiftl_mul_pow2 by (unfold BT_ULSHIFT; lia); change (2 ^ BT_ULSHIFT) with 32; lia).
    exists (32 * wx + Z.log2 v). split_and!; [f_equal; lia|lia|lia| |].
    + intros _. rewrite Hlow by lia. apply Z.bit_log2. lia.
    + intros j Hj Hrj. replace j with (32 * wx + (j - 32 * wx)) by lia. rewrite Hlow by lia. apply Z.bits_above_log2; lia.
Qed.

Lemma unbound_below_eq fuel s dp pri : unbound_below (S fuel) s dp pri =
  r ← next_active (disp_qactmap dp) pri;
  if r <? 0 then Ok r
  else dq ← get_dq dp r; tp ← skip_bound (S (size (d_threads s))) s (dq_first dq); match tp with None => unbound_below fuel s dp r | Some _ => Ok r end.
Proof. unfold next_active. cbn [unbound_below]. destruct (disp_qactmap dp !! Z.to_nat (Z.shiftr pri BT_ULSHIFT)); [|done]. cbn [deref mbind res_bind]. by destruct (negb _). Qed.

(** ** Unbound threads of a list *)

(** No thread of [l] is unbound. *)
Definition all_bound (s : dsys) (l : list Z) : Prop := ∀ x t, x ∈ l → d_threads s !! x = Some t → t_bound_cpu t ≠ None.

Lemma level_dom s L d pri x : disp_inv s L → x ∈ L d pri → is_Some (d_threads s !! x).
Proof. intros H Hx. destruct (di_mem _ _ H d pri x Hx) as (t & E & _). by eexists. Qed.

Lemma skip_level s L d pri : disp_inv s L → skip_bound (S (size (d_threads s))) s (head (L d pri)) = Ok (first_unbound (d_threads s) (L d pri)).
Proof. intros H. apply skip_bound_ok; [apply (di_link _ _ H)|]. pose proof (level_size s L d pri H). lia. Qed.

Lemma first_bound s L d pri : disp_inv s L → first_unbound (d_threads s) (L d pri) = None → all_bound s (L d pri).
Proof. intros H E x t. apply first_unbound_None; [|done]. intros y. by apply level_dom. Qed.

(** [r] is the highest priority below [pri] that has an unbound thread. *)
Definition best_unbound (s : dsys) (Q : Z → list Z) (pri r : Z) : Prop :=
  -1 ≤ r < pri ∧ (0 ≤ r → first_unbound (d_threads s) (Q r) ≠ None) ∧ ∀ j, r < j < pri → all_bound s (Q j).

Lemma unbound_below_ok s L d dp : disp_inv s L → get_disp s d = Ok dp → ∀ fuel pri, 0 ≤ pri < disp_npri dp → (Z.to_nat pri < fuel)%nat → ∃ r, unbound_below fuel s dp pri = Ok r ∧ best_unbound s (L d) pri r.
Proof.
  intros H Ed. pose proof (di_q _ _ H _ _ Ed) as Hdq. induction fuel as [|fuel IH]; intros pri Hp Hf; [lia|]. rewrite unbound_below_eq.
  destruct (next_active_ok _ pri (dk_bits _ _ Hdq) (dk_in_map _ _ _ Hdq Hp)) as (r & -> & Hr & Hr1 & Hr2). cbn [mbind res_bind]. pose proof (dk_in_map _ _ _ Hdq Hp) as Hin. unfold in_map in Hin.
  assert (∀ j, r < j < pri → L d j = []) as Hgap.
  { intros j Hj. assert (bit (disp_qactmap dp) j = false) as Hb by (apply Hr2; lia). rewrite (dk_bit _ _ Hdq) in Hb by (unfold in_map; lia). apply bool_decide_eq_false in Hb. by destruct (decide (L d j = [])). }
  assert (∀ j, r < j < pri → all_bound s (L d j)) as Hab by (intros j Hj x t Hx; rewrite Hgap in Hx by done; by apply elem_of_nil in Hx).
  destruct (Z.ltb_spec r 0) as [H0|H0]; [exists r; split; [done|]; split_and!; [lia|lia|lia|done]|]. rewrite (dk_get _ _ _ Hdq) by lia. cbn [mbind res_bind dq_first]. rewrite (skip_level s L d r H). cbn [mbind res_bind].
  destruct (first_unbound (d_threads s) (L d r)) as [x|] eqn:Ex.
  - exists r. split; [done|]. split_and!; [lia|lia| |done]. intros _. congruence.
  - destruct (IH r) as (r' & -> & Hr' & Hn & Hab'); [lia|lia|]. exists r'. split; [done|]. split_and!; [lia|lia|done|]. intros j Hj. destruct (decide (j = r)) as [->|Hne]; [by apply (first_bound s L d)|]. destruct (decide (j < r)); [apply Hab'; lia|apply Hab; lia].
Qed.

(** Lowering the bound of the unbound priorities. *)
Lemma inv_max_unbound s L d dp r : disp_inv s L → get_disp s d = Ok dp → -1 ≤ r ≤ disp_maxrunpri dp → (∀ j, r < j → all_bound s (L d j)) →
  ∃ s', put_disp d (set_max_unbound_pri r dp) s = Ok s' ∧ disp_inv s' L ∧ frame s s' ∧ d_threads s' = d_threads s ∧ (∀ d', get_disp s' d' = if decide (d' = d) then Ok (set_max_unbound_pri r dp) else get_disp s d').
Proof.
  intros H Ed Hr Hab. destruct (put_disp_ok s d dp (set_max_unbound_pri r dp) Ed eq_refl) as (s' & E & Ht & Hd & Hf & _). exists s'. split; [done|]. split; [|done]. destruct H as [H1 H2 H3 H4 H5 H6 H7 H8]. constructor; rewrite ?Ht; try done.
  - intros d' dp'. rewrite Hd. case_decide as Edd; [subst d'; intros Edp; injection Edp as <-|apply H1]. destruct (H1 d dp Ed). by constructor.
  - intros d' Hn. apply H2. intros dp' E'. rewrite Hd in Hn. case_decide; [by eapply Hn|by apply (Hn dp')].
  - intros d' dp' pri tp t Ed' Hin Et Hbd. rewrite Hd in Ed'. case_decide as Edd; [|by apply (H8 d' dp' pri tp t)]. subst d'. injection Ed' as <-. cbn [disp_max_unbound_pri set_max_unbound_pri]. destruct (decide (pri ≤ r)) as [|Hlt]; [done|]. exfalso. apply (Hab pri ltac:(lia) tp t); done.
Qed.

(** The search leaves the best priority: nothing above it is unbound. *)
Lemma disp_fix_unbound_pri_ok s L d dp pri : disp_inv s L → get_disp s d = Ok dp → pri = disp_max_unbound_pri dp → 0 ≤ pri → all_bound s (L d pri) →
  ∃ s' r, disp_fix_unbound_pri d pri s = Ok s' ∧ disp_inv s' L ∧ frame s s' ∧ d_threads s' = d_threads s ∧ best_unbound s (L d) pri r ∧ (∀ d', get_disp s' d' = if decide (d' = d) then Ok (set_max_unbound_pri r dp) else get_disp s d').
Proof.
  intros H Ed Epri Hp Hab. pose proof (di_q _ _ H _ _ Ed) as Hdq. pose proof (dk_ub _ _ Hdq). pose proof (dk_max_range _ _ Hdq). unfold disp_fix_unbound_pri. rewrite Ed. cbn [mbind res_bind].
  destruct (unbound_below_ok s L d dp H Ed (S (Z.to_nat pri)) pri) as (r & -> & Hr & Hn & Habr); [lia|lia|]. cbn [mbind res_bind].
  destruct (inv_max_unbound s L d dp r H Ed) as (s' & E & Hi & Hf & Ht & Hd); [lia| |].
  { intros j Hj x t Hx Et Hbd. destruct (decide (j = pri)) as [->|]; [by apply (Hab x t)|]. destruct (decide (j < pri)); [by apply (Habr j ltac:(lia) x t)|]. pose proof (di_ub _ _ H d dp j x t Ed Hx Et Hbd). lia. }
  exists s', r. split_and!; done.
Qed.

(** ** The thread that [disp] takes *)

(** The thread [t] when [disp] has taken it for the CPU [me]. *)
Definition taken (me : Z) (t : kthread) : kthread := thread_onproc me (set_link None (set_schedflag (Z.lor (t_schedflag t) TS_DONT_SWAP) t)).

(** [me] has decided to run [tp]. *)
Definition runs (s : dsys) (me tp : Z) : Prop := ∃ x, d_cpus s !! me = Some x ∧ cpu_dispthread x = tp.

Lemma dispthread_ok s me x tp : d_cpus s !! me = Some x → is_Some (d_threads s !! tp) → ∃ s', upd_cpu me (set_dispthread tp) s = Ok s' ∧ quiet s s' ∧ runs s' me tp.
Proof. intros Ex Ht. rewrite (upd_cpu_ok _ _ _ _ Ex). eexists. split; [done|]. split; [apply quiet_cpu; try done; by right|]. exists (set_dispthread tp x). split; [apply lookup_insert_eq|done]. Qed.

Lemma max_head s L d dp : disp_inv s L → get_disp s d = Ok dp → 0 ≤ disp_maxrunpri dp → ∃ tp rest t, L d (disp_maxrunpri dp) = tp :: rest ∧ d_threads s !! tp = Some t ∧ t_link t = head rest.
Proof.
  intros H Ed Hm. pose proof (dk_max _ _ (di_q _ _ H _ _ Ed) Hm) as Hne. destruct (L d (disp_maxrunpri dp)) as [|tp rest] eqn:EL; [done|]. destruct (di_mem _ _ H d (disp_maxrunpri dp) tp) as (t & Et & _); [rewrite EL; left|].
  exists tp, rest, t. split_and!; [done|done|]. by destruct (split_facts s L d tp t _ [] rest H Et EL) as (_ & _ & _ & E & _).
Qed.

Lemma take_removal dp pri (l : list Z) : disp_maxrunpri dp = pri →
  (if bool_decide (l = []) then dp ← clear_act pri dp; if disp_nrunnable dp =? 0 then Ok (set_maxrunpri (-1) (set_max_unbound_pri (-1) dp)) else new_max pri dp else Ok dp) = after_removal pri (bool_decide (l = [])) dp.
Proof. intros <-. unfold after_removal, clear_act. destruct (bool_decide _); [|done]. destruct (BT_CLEAR _ _); [|done..]. cbn [mbind res_bind]. cbn [disp_maxrunpri set_qactmap]. by rewrite Z.eqb_refl. Qed.

(** The section takes the first thread of the highest priority that has one. *)
Lemma take_section_ok N s L me x : disp_inv s L → sys_wf N s → d_cpus s !! me = Some x → 0 ≤ disp_maxrunpri (cpu_disp x) → let d := DCpu me in let pri := disp_maxrunpri (cpu_disp x) in
  ∃ s' tp rest t, take_section me s = Ok (tp, s') ∧ L d pri = tp :: rest ∧ d_threads s !! tp = Some t ∧ disp_inv s' (set_queue d (set_level pri rest (L d)) L) ∧ frame s s' ∧ d_threads s' = <[tp := taken me t]> (d_threads s) ∧ runs s' me tp.
Proof.
  intros H W Ex Hm d pri. assert (get_disp s d = Ok (cpu_disp x)) as Ed by (apply get_disp_cpu; by exists x). set (dp := cpu_disp x) in *. pose proof (di_q _ _ H _ _ Ed) as Hdq. pose proof (dk_max_range _ _ Hdq).
  destruct (max_head s L d dp H Ed Hm) as (tp & rest & t & EL & Et & El). fold pri in EL, Hm. assert (0 ≤ pri < disp_npri dp) as Hp by (unfold pri; lia).
  unfold take_section. fold d. rewrite Ed. cbn [mbind res_bind]. change (disp_maxrunpri dp) with pri. rewrite (dk_get _ _ _ Hdq Hp). cbn [mbind res_bind dq_first dq_last dq_sruncnt]. rewrite EL. change (deref (head (tp :: rest))) with (Ok tp). cbn [mbind res_bind]. rewrite (get_thread_ok _ _ _ Et). cbn [mbind res_bind].
  assert (is_null (t_link t) = bool_decide (rest = [])) as -> by (rewrite El; by destruct rest). set (dp1 := set_nrunnable _ _).
  assert (dp1 = set_nrunnable (disp_nrunnable dp - 1) (put_dq pri (MkDq (head rest) (list.last rest) (Z.of_nat (length rest))) dp)) as Edp1.
  { unfold dp1. rewrite El. f_equal. f_equal. f_equal; [by destruct rest|simpl; lia]. }
  rewrite (take_removal dp1 pri rest) by (by rewrite Edp1). destruct (dq_ok_remove dp (L d) pri rest Hdq Hp) as (dp' & Er & Hdq' & Hnp & Hub & _); [by rewrite EL|]. rewrite Edp1, Er. cbn [mbind res_bind].
  destruct (put_disp_ok s d dp dp' Ed Hnp) as (s1 & -> & T1 & D1 & F1 & X1). cbn [mbind res_bind]. rewrite (upd_thread_ok s1 tp t) by (by rewrite T1). cbn [mbind res_bind]. set (s2 := with_threads _ s1).
  assert (frame s1 s2) as F2 by (apply frame_thread with t; [by rewrite T1|done]). assert (d_threads s2 !! tp = Some (set_link None (set_schedflag (Z.lor (t_schedflag t) TS_DONT_SWAP) t))) as E2 by apply lookup_insert_eq.
  assert (∃ x2, d_cpus s2 !! me = Some x2) as [x2 Ex2]. { specialize (X1 me). rewrite Ex in X1. cbn [s2 d_cpus with_threads]. destruct (d_cpus s1 !! me) as [y|]; [by exists y|done]. }
  destruct (dispthread_ok s2 me x2 tp Ex2) as (s3 & -> & [Q1 Q2 Q3] & R3); [by rewrite E2|]. cbn [mbind res_bind]. rewrite (upd_thread_ok s3 tp _ _) by (rewrite Q1; exact E2). cbn [mbind res_bind]. fold (taken me t). set (s4 := with_threads _ s3).
  assert (frame s3 s4) as F4 by (eapply frame_thread; [rewrite Q1; exact E2|done]). assert (d_threads s4 = <[tp := taken me t]> (d_threads s)) as T4.
  { cbn [s4 d_threads with_threads]. rewrite Q1. cbn [s2 d_threads with_threads]. by rewrite insert_insert_eq, T1. }
  exists s4, tp, rest, t. split_and!; try done; [|etrans; [exact F1|etrans; [exact F2|by etrans]]].
  apply (remove_finish s s4 L d dp dp' tp t (taken me t) pri [] rest); try done. intros d'. unfold s4. rewrite get_disp_threads, Q2. unfold s2. by rewrite get_disp_threads, D1.
Qed.

(** A thread that is on no queue changes. *)
Lemma inv_off s L tp t t' : disp_inv s L → d_threads s !! tp = Some t → off_queue t → off_queue t' → t_link t' = None → disp_inv (with_threads (<[tp := t']> (d_threads s)) s) L.
Proof.
  intros H Et Hoff Hoff' Hl. assert (∀ d pri, tp ∉ L d pri) as Hn by (intros d pri; by apply (level_off s L d pri tp t)). destruct H as [H1 H2 H3 H4 H5 H6 H7 H8].
  constructor; cbn [d_threads with_threads]; try setoid_rewrite get_disp_threads; try done.
  - intros d pri. apply (lseg_ext (d_threads s)); [|done]. intros x Hx. rewrite lookup_insert_ne; [done|]. intros ->. by eapply Hn.
  - intros d pri x Hx. rewrite lookup_insert_ne by (intros ->; by eapply Hn). by apply H5.
  - intros x tx d Ex Hk. destruct (decide (x = tp)) as [->|Hx]; [rewrite lookup_insert_eq in Ex; injection Ex as <-; exfalso; by apply (Hoff' d)|]. rewrite lookup_insert_ne in Ex by done. by apply H6.
  - intros x tx Ex Hk. destruct (decide (x = tp)) as [->|Hx]; [rewrite lookup_insert_eq in Ex; by injection Ex as <-|]. rewrite lookup_insert_ne in Ex by done. by apply (H7 x).
  - intros d dp pri x tx Ed Hx. rewrite lookup_insert_ne by (intros ->; by eapply Hn). by apply (H8 d dp pri x tx).
Qed.

(** The thread [t] when [disp_getbest] has taken it for the CPU [me]. *)
Definition stolen (me : Z) (t : kthread) : kthread :=
  thread_onproc me (set_disp_queue (DCpu me) (set_schedflag (Z.lor (t_schedflag t) TS_DONT_SWAP) (THREAD_TRANSITION (set_link None t)))).

Lemma first_unbound_split th l x : first_unbound th l = Some x → ∃ A B t, l = A ++ x :: B ∧ th !! x = Some t ∧ t_bound_cpu t = None ∧ ∀ y ty, y ∈ A → th !! y = Some ty → t_bound_cpu ty ≠ None.
Proof.
  induction l as [|y l IH]; simpl; [done|]. destruct (th !! y) as [ty|] eqn:Ey; [|done]. destruct (t_bound_cpu ty) eqn:Eb; simpl; intros E.
  - destruct (IH E) as (A & B & t & -> & Et & Hb & HA). exists (y :: A), B, t. split_and!; [done|done|done|]. intros y0 tz [->|Hz]%elem_of_cons Ez; [congruence|by apply (HA y0)].
  - injection E as <-. exists [], l, ty. split_and!; [done|done|done|]. by intros y0 tz Hz%elem_of_nil.
Qed.

Lemma deq_split_unique {A} (l1 l2 r1 r2 : list A) x : l1 ++ x :: r1 = l2 ++ x :: r2 → NoDup (l1 ++ x :: r1) → l1 = l2 ∧ r1 = r2.
Proof.
  revert l2. induction l1 as [|a l1 IH]; intros [|b l2]; simpl; intros E Hn.
  - by injection E as <-.
  - injection E as -> ->. apply list.NoDup_cons in Hn as [Hn _]. exfalso. apply Hn. apply elem_of_app. right. left.
  - injection E as -> <-. apply list.NoDup_cons in Hn as [Hn _]. exfalso. apply Hn. apply elem_of_app. right. left.
  - injection E as -> E. apply list.NoDup_cons in Hn as [_ Hn]. by destruct (IH l2 E Hn) as [-> ->].
Qed.

(** Either the first unbound thread of the highest priority that has one is taken, or there was
    none at the priority the queue had, which is lowered to the best. *)
Lemma disp_getbest_ok N s L d dp me x : disp_inv s L → sys_wf N s → get_disp s d = Ok dp → d_cpus s !! me = Some x → let pri := disp_max_unbound_pri dp in
  ∃ r s', disp_getbest me d s = Ok (r, s') ∧ frame s s' ∧
    match r with
    | Some tp => ∃ A B t, 0 ≤ pri ∧ L d pri = A ++ tp :: B ∧ d_threads s !! tp = Some t ∧ t_bound_cpu t = None ∧ all_bound s A ∧ disp_inv s' (set_queue d (set_level pri (A ++ B) (L d)) L) ∧ d_threads s' = removed_threads (d_threads s) A B tp (stolen me t) ∧ runs s' me tp
    | None => ∃ ub, disp_inv s' L ∧ d_threads s' = d_threads s ∧ (∀ d', get_disp s' d' = if decide (d' = d) then Ok (set_max_unbound_pri ub dp) else get_disp s d') ∧ (pri = -1 ∧ ub = -1 ∨ best_unbound s (L d) pri ub) ∧ all_bound s (L d pri)
    end.
Proof.
  intros H W Ed Ex pri. pose proof (di_q _ _ H _ _ Ed) as Hdq. pose proof (dk_ub _ _ Hdq) as Hub. pose proof (dk_max_range _ _ Hdq). unfold disp_getbest. rewrite Ed. cbn [mbind res_bind]. fold pri. destruct (Z.eqb_spec pri (-1)) as [E1|E1].
  - exists None, s. split_and!; [done|done|]. exists (-1). split_and!; [done|done| |by left|].
    + intros d'. case_decide as E; [subst d'; rewrite Ed; unfold set_max_unbound_pri; rewrite <- E1 at 1; by destruct dp|done].
    + intros y ty Hy. rewrite (dk_out _ _ Hdq) in Hy by lia. by apply elem_of_nil in Hy.
  - assert (0 ≤ pri < disp_npri dp) as Hp by (unfold pri in *; lia). rewrite (dk_get _ _ _ Hdq Hp). cbn [mbind res_bind dq_first]. rewrite (skip_level s L d pri H). cbn [mbind res_bind]. destruct (first_unbound (d_threads s) (L d pri)) as [tp|] eqn:Ef.
    + destruct (first_unbound_split _ _ _ Ef) as (A & B & t & EL & Et & Hbd & HA). assert (tp ∈ L d pri) as Hin by (rewrite EL; apply elem_of_app; right; left).
      destruct (dispdeq_ok N s L d pri tp H W Hin) as (s1 & A' & B' & t' & EL' & Et' & -> & Hi & F1 & T1 & X1 & _). assert (t' = t) as -> by congruence. destruct (deq_split_unique A A' B B' tp) as [<- <-]; [congruence|rewrite <- EL; apply (di_nodup _ _ H)|].
      cbn [mbind res_bind]. assert (d_threads s1 !! tp = Some (THREAD_TRANSITION (set_link None t))) as E2 by (rewrite T1; apply lookup_insert_eq). rewrite (upd_thread_ok s1 tp _ _ E2). cbn [mbind res_bind]. set (s2 := with_threads _ s1).
      assert (frame s1 s2) as F2 by (by eapply frame_thread). assert (disp_inv s2 (set_queue d (set_level pri (A ++ B) (L d)) L)) as Hi2 by (eapply inv_off; done).
      assert (∃ x2, d_cpus s2 !! me = Some x2) as [x2 Ex2]. { specialize (X1 me). rewrite Ex in X1. cbn [s2 d_cpus with_threads]. destruct (d_cpus s1 !! me) as [y|]; [by exists y|done]. }
      assert (is_Some (d_threads s2 !! tp)) as Hs2 by (cbn [s2 d_threads with_threads]; rewrite lookup_insert_eq; by eexists). destruct (dispthread_ok s2 me x2 tp Ex2 Hs2) as (s3 & -> & Q & R3). pose proof Q as [Q1 _ Q3]. cbn [mbind res_bind]. apply (inv_quiet _ _ _ Q) in Hi2.
      assert (d_threads s3 !! tp = Some (set_disp_queue (DCpu me) (set_schedflag (Z.lor (t_schedflag (THREAD_TRANSITION (set_link None t))) TS_DONT_SWAP) (THREAD_TRANSITION (set_link None t))))) as E3 by (rewrite Q1; apply lookup_insert_eq).
      rewrite (upd_thread_ok s3 tp _ _ E3). cbn [mbind res_bind]. eexists (Some tp), _. split; [done|]. split; [etrans; [exact F1|]; etrans; [exact F2|]; etrans; [exact Q3|]; by eapply frame_thread|].
      exists A, B, t. split_and!; [lia|done|done|done|done|by eapply inv_off| |exact R3]. cbn [d_threads with_threads]. rewrite Q1. cbn [s2 d_threads with_threads]. rewrite insert_insert_eq, T1. unfold removed_threads. by rewrite insert_insert_eq.
    + destruct (disp_fix_unbound_pri_ok s L d dp pri H Ed eq_refl ltac:(lia) (first_bound s L d pri H Ef)) as (s' & r & -> & Hi & F & T & Hr & D). cbn [mbind res_bind]. exists None, s'. split_and!; [done|done|]. exists r. split_and!; [done|done|done|by right|by apply (first_bound s L d)].
Qed.
