(* ===== verification/DispPlace.v ===== *)
(** * The place of a runnable thread

    The choice of a CPU and the whole of [setbackdq], [setfrontdq] and [setkpdq]. *)

From S2P Require Import Prelude Bitmap Disp DispSys DispOps DispBest.

(** ** The CPU of the lowest priority *)

(** [z] is what [disp_lowpri_cpu] sees of the CPU [c]. *)
Definition has_level (s : dsys) (c z : Z) : Prop := ∃ x, d_cpus s !! c = Some x ∧ cpu_level s x = Ok z.

Lemma level_total N s c x : sys_wf N s → d_cpus s !! c = Some x → ∃ z, cpu_level s x = Ok z.
Proof. intros W Ex. destruct (wf_c _ _ W c x Ex) as (_ & _ & _ & _ & [td Etd]). unfold cpu_level. rewrite (thread_prio_ok _ _ _ Etd). cbn [mbind res_bind]. by eexists. Qed.

Lemma has_level_eq s c x z : d_cpus s !! c = Some x → cpu_level s x = Ok z → ∀ z', has_level s c z' → z' = z.
Proof. intros Ex Ez z' (x' & Ex' & Ez'). congruence. Qed.

Lemma cpath_cpu s c l e : cpath s (c :: l) e → ∃ x, d_cpus s !! c = Some x ∧ cpu_next_part x = default e (head l).
Proof. intros [H _]. apply fmap_Some in H as (x & E & H). by exists x. Qed.

Lemma lowpri_loop_ok N s hint : sys_wf N s → ∀ l cp best bestpri fuel, cpath s (cp :: l) hint → hint ∉ l → (length l < fuel)%nat →
  ∃ r, lowpri_loop fuel false s hint cp best bestpri = Ok r ∧ (r = best ∧ (∀ c z, c ∈ cp :: l → has_level s c z → bestpri ≤ z) ∨ r ∈ cp :: l ∧ ∃ zr, has_level s r zr ∧ zr < bestpri ∧ ∀ c z, c ∈ cp :: l → has_level s c z → zr ≤ z).
Proof.
  intros W. induction l as [|c2 l IH]; intros cp best bestpri fuel Hp Hh Hf; (destruct fuel as [|fuel]; [simpl in Hf; lia|]); destruct (cpath_cpu _ _ _ _ Hp) as (x & Ex & Hnx); destruct (level_total _ _ _ _ W Ex) as [z Ez]; simpl;
    rewrite (get_cpu_ok _ _ _ Ex); cbn [mbind res_bind]; rewrite Ez; cbn [mbind res_bind]; rewrite Hnx; simpl.
  - destruct (Z.ltb_spec z bestpri) as [Hz|Hz]; cbn [mbind res_bind]; rewrite Z.eqb_refl; eexists; (split; [done|]).
    + right. split; [left|]. exists z. split; [by exists x|]. split; [done|]. intros c zc Hc%list_elem_of_singleton Hl. subst c. by rewrite (has_level_eq _ _ _ _ Ex Ez _ Hl).
    + left. split; [done|]. intros c zc Hc%list_elem_of_singleton Hl. subst c. by rewrite (has_level_eq _ _ _ _ Ex Ez _ Hl).
  - apply not_elem_of_cons in Hh as [Hne Hh]. destruct Hp as [_ Hp]. simpl in Hf. destruct (Z.ltb_spec z bestpri) as [Hz|Hz]; cbn [mbind res_bind]; rewrite (proj2 (Z.eqb_neq c2 hint)) by congruence.
    + destruct (IH c2 cp z fuel Hp Hh ltac:(lia)) as (r & -> & Hr). exists r. split; [done|]. right. destruct Hr as [[-> Hall]|(Hin & zr & Hzr & Hlt & Hall)].
      * split; [left|]. exists z. split; [by exists x|]. split; [done|]. intros c zc [->|Hc]%elem_of_cons Hl; [by rewrite (has_level_eq _ _ _ _ Ex Ez _ Hl)|by apply (Hall c)].
      * split; [by right|]. exists zr. split; [done|]. split; [lia|]. intros c zc [->|Hc]%elem_of_cons Hl; [rewrite (has_level_eq _ _ _ _ Ex Ez _ Hl); lia|by apply (Hall c)].
    + destruct (IH c2 best bestpri fuel Hp Hh ltac:(lia)) as (r & -> & Hr). exists r. split; [done|]. destruct Hr as [[-> Hall]|(Hin & zr & Hzr & Hlt & Hall)].
      * left. split; [done|]. intros c zc [->|Hc]%elem_of_cons Hl; [by rewrite (has_level_eq _ _ _ _ Ex Ez _ Hl)|by apply (Hall c)].
      * right. split; [by right|]. exists zr. split; [done|]. split; [lia|]. intros c zc [->|Hc]%elem_of_cons Hl; [rewrite (has_level_eq _ _ _ _ Ex Ez _ Hl); lia|by apply (Hall c)].
Qed.

Lemma cpath_dom s l e c : cpath s l e → c ∈ l → is_Some (d_cpus s !! c).
Proof. induction l as [|x l IH]; [intros _ Hc; by apply elem_of_nil in Hc|]. intros [Hx Hl] [->|Hc]%elem_of_cons; [|by apply IH]. apply fmap_Some in Hx as (y & E & _). by exists y. Qed.

Lemma ring_size s c l : ring_of s c l → (S (length l) ≤ size (d_cpus s))%nat.
Proof.
  intros [Hp Hn]. assert (list_to_set (c :: l) ⊆ dom (d_cpus s)) as Hs by (intros x Hx; apply elem_of_list_to_set in Hx; apply elem_of_dom; by eapply cpath_dom).
  apply (subseteq_size (C := gset Z)) in Hs. rewrite size_list_to_set, size_dom in Hs by done. done.
Qed.

(** The choice: a CPU of the ring, and none has a lower level. *)
Lemma disp_lowpri_cpu_ok N s hint l : sys_wf N s → ring_of s hint l →
  ∃ r, disp_lowpri_cpu hint false s = Ok r ∧ r ∈ hint :: l ∧ ((∀ c z, c ∈ hint :: l → has_level s c z → z ≤ SHRT_MAX) → ∀ c z zr, c ∈ hint :: l → has_level s c z → has_level s r zr → zr ≤ z).
Proof.
  intros W Hr. pose proof (ring_size _ _ _ Hr) as Hs. destruct Hr as [Hp Hn]. destruct (cpath_cpu _ _ _ _ Hp) as (x & Ex & _). destruct (wf_c _ _ W _ _ Ex) as (_ & [p Ep] & _). unfold disp_lowpri_cpu. rewrite (get_cpu_ok _ _ _ Ex). cbn [mbind res_bind]. rewrite (get_part_ok _ _ _ Ep). cbn [mbind res_bind andb].
  apply list.NoDup_cons in Hn as [Hn _]. destruct (lowpri_loop_ok N s hint W l hint hint SHRT_MAX (S (size (d_cpus s))) Hp Hn) as (r & -> & Hres); [lia|]. exists r. split; [done|]. destruct Hres as [[-> Hall]|(Hin & zr & Hzr & Hlt & Hall)].
  - split; [left|]. intros Hmax c z zr Hc Hz Hzr. pose proof (Hall c z Hc Hz). pose proof (Hmax hint zr ltac:(left) Hzr). lia.
  - split; [done|]. intros _ c z zr' Hc Hz Hzr'. destruct Hzr as (xr & Exr & Ezr). rewrite (has_level_eq _ _ _ _ Exr Ezr _ Hzr'). by apply (Hall c).
Qed.

(** The next CPU of a ring is one of it. *)
Lemma ring_next s c l e x : cpath s l e → e ∈ l → c ∈ l → d_cpus s !! c = Some x → cpu_next_part x ∈ l.
Proof.
  intros Hp He. assert (∀ l', (∀ y, y ∈ l' → y ∈ l) → cpath s l' e → c ∈ l' → d_cpus s !! c = Some x → cpu_next_part x ∈ l) as Hgen; [|by apply Hgen].
  induction l' as [|y l' IH]; intros Hsub Hp' Hc Ex; [by apply elem_of_nil in Hc|]. destruct Hp' as [Hy Hp']. apply elem_of_cons in Hc as [<-|Hc]; [|apply IH; try done; intros z Hz; apply Hsub; by right].
  rewrite Ex in Hy. apply (inj Some) in Hy. rewrite Hy. destruct l' as [|z l']; simpl; [done|]. apply Hsub. right. left.
Qed.

Lemma cpu_choose_ok N s me tp t l tpri m : sys_wf N s → d_threads s !! tp = Some t → ring_of s (t_cpu t) l → d_cpus s !! me = Some m → ∃ c, cpu_choose me tp tpri s = Ok c ∧ c ∈ t_cpu t :: l.
Proof.
  intros W Et Hr Em. unfold cpu_choose. rewrite (get_thread_ok _ _ _ Et). cbn [mbind res_bind]. rewrite (get_cpu_ok _ _ _ Em). cbn [mbind res_bind]. destruct (_ || _).
  - destruct (disp_lowpri_cpu_ok N s _ _ W Hr) as (c & -> & Hc & _). by exists c.
  - exists (t_cpu t). split; [done|left].
Qed.

(** ** The routines *)

(** The lists once the thread [tp], of priority [pri], is put on [d]. *)
Definition placed (front : bool) (d : dispref) (tp pri : Z) (L : dispref → Z → list Z) : dispref → Z → list Z :=
  set_queue d (set_level pri (if front then tp :: L d pri else L d pri ++ [tp]) (L d)) L.

Lemma setkpdq_ok N s L me front tp t m : disp_inv s L → sys_wf N s → d_threads s !! tp = Some t → off_queue t → loaded t = true → t_bound_cpu t = None → 0 ≤ DISP_PRIO t → d_cpus s !! me = Some m →
  ∃ s', setkpdq me front tp s = Ok s' ∧ frame s s' ∧ disp_inv s' (placed front (DKp (t_cpupart t)) tp (DISP_PRIO t) L) ∧ ∀ d', d' ≠ DKp (t_cpupart t) → get_disp s' d' = get_disp s d'.
Proof.
  intros H W Et Hoff Hld Hb Hpos Em. unfold setkpdq. rewrite (thread_prio_ok _ _ _ Et). cbn [mbind res_bind]. destruct (kp_section_ok N front tp t s L H W Et Hoff Hld Hb Hpos) as (s1 & -> & H1 & F1 & O1). cbn [mbind res_bind].
  pose proof (sys_wf_frame _ _ _ F1 W) as W1. pose proof (fr_t _ _ F1 tp) as E. rewrite Et in E. destruct (d_threads s1 !! tp) as [t1|] eqn:Et1; [|done]. injection E as E1 E2 E3 E4 E5 E6.
  destruct (wf_t _ _ W1 tp t1 Et1) as (_ & _ & _ & _ & Hr). destruct Hr as [l Hr]; [congruence|]. pose proof (fr_c _ _ F1 me) as Em1. rewrite Em in Em1. destruct (d_cpus s1 !! me) as [m1|] eqn:Em1'; [|done].
  destruct (cpu_choose_ok N s1 me tp t1 l (DISP_PRIO t) m1 W1 Et1 Hr Em1') as (c & -> & Hc). cbn [mbind res_bind]. destruct Hr as [Hp _]. destruct (cpath_dom _ _ _ _ Hp Hc) as [x Ex]. rewrite (get_cpu_ok _ _ _ Ex). cbn [mbind res_bind].
  destruct (wf_c _ _ W1 c x Ex) as (_ & _ & _ & _ & [td Etd]).
  assert (∃ s2, (if cpu_chosen_level x <? DISP_PRIO t then upd_cpu c (set_chosen_level (DISP_PRIO t)) s1 else Ok s1) = Ok s2 ∧ quiet s1 s2 ∧ ∃ x2, d_cpus s2 !! c = Some x2 ∧ cpu_dispthread x2 = cpu_dispthread x) as (s2 & -> & Q2 & x2 & Ex2 & Hdt).
  { destruct (_ <? _); [|exists s1; split_and!; [done|done|by exists x]]. rewrite (upd_cpu_ok _ _ _ _ Ex). eexists. split; [done|]. split; [by apply quiet_cpu; [..|left]|]. cbn [d_cpus with_cpus]. rewrite lookup_insert_eq. eexists. split; [done|done]. }
  cbn [mbind res_bind]. pose proof Q2 as [T2 _ F2]. rewrite (thread_prio_ok s2 _ td) by (by rewrite T2). cbn [mbind res_bind].
  destruct (cpu_resched_ok me c x2 (DISP_PRIO t) (DISP_PRIO td) s2 Ex2) as (s3 & -> & Q3); [rewrite Hdt, T2; by eexists|]. exists s3. split; [done|]. split; [etrans; [exact F1|]; etrans; [exact F2|apply Q3]|].
  split; [apply (inv_quiet s1); [by etrans|]; exact H1|]. intros d' Hd'. rewrite (qu_d _ _ Q3), (qu_d _ _ Q2). by apply O1.
Qed.

Lemma queue_len_ok N s L c x pri : disp_inv s L → sys_wf N s → d_cpus s !! c = Some x → 0 ≤ pri < N → queue_len s c pri = Ok (Z.of_nat (length (L (DCpu c) pri))).
Proof.
  intros H W Ex Hp. unfold queue_len. rewrite (get_cpu_ok _ _ _ Ex). cbn [mbind res_bind]. destruct (wf_c _ _ W c x Ex) as (Hn & _). pose proof (di_q _ _ H (DCpu c) (cpu_disp x)) as Hq. rewrite (dk_get _ (L (DCpu c))); [done|apply Hq; apply get_disp_cpu; by exists x|lia].
Qed.

(** [c'] is on the ring of [c]. *)
Definition same_ring (s : dsys) (c c' : Z) : Prop := ∃ l, ring_of s c l ∧ c' ∈ c :: l.

Lemma same_ring_cpu s c c' : same_ring s c c' → is_Some (d_cpus s !! c').
Proof. intros (l & [Hp _] & Hin). by apply (cpath_dom _ _ _ _ Hp). Qed.

(** A CPU for an unbound thread: by its last CPU or by its partition. *)
Definition near (s : dsys) (t : kthread) (c : Z) : Prop := same_ring s (t_cpu t) c ∨ ∃ p, d_parts s !! t_cpupart t = Some p ∧ same_ring s (cp_cpulist p) c.

Lemma near_cpu s t c : near s t c → is_Some (d_cpus s !! c).
Proof. intros [H|(p & _ & H)]; by eapply same_ring_cpu. Qed.

Lemma lowpri_part N s t : sys_wf N s → is_Some (d_parts s !! t_cpupart t) → ∃ p c, get_part s (t_cpupart t) = Ok p ∧ disp_lowpri_cpu (cp_cpulist p) false s = Ok c ∧ near s t c.
Proof.
  intros W [p Ep]. destruct (wf_p _ _ W _ _ Ep) as [_ [l Hl]]. destruct (disp_lowpri_cpu_ok N s _ _ W Hl) as (c & Ec & Hin & _). exists p, c. split_and!; [by apply get_part_ok|done|]. right. exists p. split; [done|by exists l].
Qed.

Section choice.
Context (N : Z) (s : dsys) (me tp : Z) (t : kthread) (m : cpu).
Context (W : sys_wf N s) (Et : d_threads s !! tp = Some t) (Hb : t_bound_cpu t = None) (Hpos : 0 ≤ DISP_PRIO t) (Em : d_cpus s !! me = Some m).

Lemma back_cpu_ok L : disp_inv s L → ∃ c, back_cpu me tp (DISP_PRIO t) t s = Ok c ∧ near s t c.
Proof using W Et Hb Hpos Em.
  intros H. destruct (wf_t _ _ W tp t Et) as (Hp & _ & Hpart & _ & Hr). destruct (Hr Hb) as [l Hl]. unfold back_cpu. destruct (cpu_choose_ok N s me tp t l (DISP_PRIO t) m W Et Hl Em) as (c & -> & Hc). cbn [mbind res_bind].
  pose proof Hl as [Hpath _]. destruct (cpath_dom _ _ _ _ Hpath Hc) as [x Ex]. rewrite (get_cpu_ok _ _ _ Ex). cbn [mbind res_bind]. destruct (_ =? _).
  - rewrite (queue_len_ok N s L c x _ H W Ex (conj Hpos (proj2 Hp))). cbn [mbind res_bind]. pose proof (ring_next s c _ _ x Hpath ltac:(left) Hc Ex) as Hn. destruct (cpath_dom _ _ _ _ Hpath Hn) as [y Ey]. destruct (_ <? _); [|exists c; split; [done|left; by exists l]].
    rewrite (queue_len_ok N s L _ y _ H W Ey (conj Hpos (proj2 Hp))). cbn [mbind res_bind]. eexists. split; [done|]. left. exists l. by destruct (_ <? _).
  - destruct (lowpri_part N s t W Hpart) as (p & c' & -> & Ec & Hn). exists c'. done.
Qed.

Lemma front_cpu_ok : ∃ c, front_cpu me tp (DISP_PRIO t) t s = Ok c ∧ near s t c.
Proof using W Et Hb Em.
  destruct (wf_t _ _ W tp t Et) as (Hp & [x Ex] & Hpart & _ & Hr). destruct (Hr Hb) as [l Hl]. unfold front_cpu. rewrite (get_cpu_ok _ _ _ Ex). cbn [mbind res_bind]. destruct (_ =? _).
  - destruct (_ <? _); [|exists (t_cpu t); split; [done|left; exists l; split; [done|left]]]. destruct (cpu_choose_ok N s me tp t l (DISP_PRIO t) m W Et Hl Em) as (c & -> & Hc). exists c. split; [done|left; by exists l].
  - destruct (lowpri_part N s t W Hpart) as (p & c' & -> & Ec & Hn). exists c'. done.
Qed.
End choice.

Lemma frame_wake s x y : frame s (with_wake x y s).
Proof. constructor; try done. intros c x' E. exists x'. auto. Qed.

Lemma inv_wake s x y L : disp_inv s L → disp_inv (with_wake x y s) L.
Proof. intros H. apply (inv_quiet s); [|done]. constructor; [done|by intros [c|p]|apply frame_wake]. Qed.

(** A thread that is not in memory waits for the swapper. *)
Lemma disp_swapped_setrun_ok s L tp t : disp_inv s L → d_threads s !! tp = Some t → off_queue t → t_state t = TS_SLEEP ∨ t_state t = TS_RUN →
  ∃ s', disp_swapped_setrun tp s = Ok s' ∧ frame s s' ∧ disp_inv s' L.
Proof.
  intros H Et Hoff Hst. unfold disp_swapped_setrun. rewrite (get_thread_ok _ _ _ Et). cbn [mbind res_bind]. destruct Hst as [-> | ->]; simpl; [|by exists s].
  set (s1 := if _ <? _ then _ else _). assert (frame s s1 ∧ disp_inv s1 L ∧ d_threads s1 = d_threads s) as (F1 & H1 & T1). { unfold s1. destruct (_ <? _); (split; [apply frame_wake|]; split; [by apply inv_wake|done]). }
  rewrite (upd_thread_ok s1 tp t) by (by rewrite T1). eexists. split; [done|]. split; [etrans; [exact F1|]; apply frame_thread with t; [by rewrite T1|done]|]. eapply inv_off; [done|by rewrite T1|done|done|]. by apply (di_free _ _ H tp t).
Qed.

(** The queue for a thread. *)
Definition target (s : dsys) (t : kthread) (d : dispref) : Prop :=
  if ncpus s =? 1 then d = DCpu (t_cpu t)
  else match t_bound_cpu t with
       | Some c => d = DCpu c
       | None => if kpreemptpri s <=? DISP_PRIO t then d = DKp (t_cpupart t) else ∃ c, d = DCpu c ∧ near s t c
       end.

(** What the routines do: a loaded thread is put on one queue, that for it. *)
Definition placing (N : Z) (front : bool) (f : Z → Z → dsys → res dsys) : Prop := ∀ s L me tp t m,
  disp_inv s L → sys_wf N s → d_threads s !! tp = Some t → off_queue t → 0 ≤ DISP_PRIO t → d_cpus s !! me = Some m → loaded t = true ∨ t_state t = TS_SLEEP ∨ t_state t = TS_RUN →
  ∃ s', f me tp s = Ok s' ∧ frame s s' ∧ if loaded t then ∃ d, target s t d ∧ disp_inv s' (placed front d tp (DISP_PRIO t) L) ∧ ∀ d', d' ≠ d → get_disp s' d' = get_disp s d' else disp_inv s' L.

(** The shape that [setbackdq] and [setfrontdq] have. *)
Definition place_with (front : bool) (section : Z → Z → Z → Z → dsys → res dsys) (choice : Z → Z → Z → kthread → dsys → res Z) (me tp : Z) (s : dsys) : res dsys :=
  t ← get_thread s tp;
  if negb (loaded t) then disp_swapped_setrun tp s
  else if ncpus s =? 1 then section me (t_cpu t) tp (DISP_PRIO t) s
  else match t_bound_cpu t with
       | Some cp => section me cp tp (DISP_PRIO t) s
       | None => if kpreemptpri s <=? DISP_PRIO t then setkpdq me front tp s else cp ← choice me tp (DISP_PRIO t) t s; section me cp tp (DISP_PRIO t) s
       end.

Lemma place_with_ok N front section choice :
  (∀ s L me cp tp t x, disp_inv s L → sys_wf N s → d_threads s !! tp = Some t → off_queue t → loaded t = true → 0 ≤ DISP_PRIO t → d_cpus s !! cp = Some x → ∃ s', section me cp tp (DISP_PRIO t) s = Ok s' ∧ disp_inv s' (placed front (DCpu cp) tp (DISP_PRIO t) L) ∧ frame s s' ∧ ∀ d', d' ≠ DCpu cp → get_disp s' d' = get_disp s d') →
  (∀ s L me tp t m, disp_inv s L → sys_wf N s → d_threads s !! tp = Some t → t_bound_cpu t = None → 0 ≤ DISP_PRIO t → d_cpus s !! me = Some m → ∃ c, choice me tp (DISP_PRIO t) t s = Ok c ∧ near s t c) →
  placing N front (place_with front section choice).
Proof.
  intros Hsec Hch s L me tp t m H W Et Hoff Hpos Em Hst. unfold place_with. rewrite (get_thread_ok _ _ _ Et). cbn [mbind res_bind]. destruct (loaded t) eqn:Hld; cbn [negb]; [|destruct Hst as [|Hst]; [done|]; destruct (disp_swapped_setrun_ok s L tp t H Et Hoff Hst) as (s' & -> & F & H'); by exists s'].
  assert (∀ c, is_Some (d_cpus s !! c) → target s t (DCpu c) → ∃ s', section me c tp (DISP_PRIO t) s = Ok s' ∧ frame s s' ∧ ∃ d, target s t d ∧ disp_inv s' (placed front d tp (DISP_PRIO t) L) ∧ ∀ d', d' ≠ d → get_disp s' d' = get_disp s d') as Hgo.
  { intros c [x Ex] Ht. destruct (Hsec s L me c tp t x H W Et Hoff Hld Hpos Ex) as (s' & -> & H' & F & O). exists s'. split_and!; [done|done|by exists (DCpu c)]. }
  destruct (wf_t _ _ W tp t Et) as (_ & Hcpu & _ & Hbc & _). unfold target in *. destruct (Z.eqb_spec (ncpus s) 1) as [En|En]; [by apply Hgo|]. destruct (t_bound_cpu t) as [c|] eqn:Eb; [apply Hgo; [by apply Hbc|done]|]. destruct (Z.leb_spec (kpreemptpri s) (DISP_PRIO t)).
  - destruct (setkpdq_ok N s L me front tp t m H W Et Hoff Hld Eb Hpos Em) as (s' & -> & F & H'). exists s'. split_and!; [done|done|by exists (DKp (t_cpupart t))].
  - destruct (Hch s L me tp t m H W Et Eb Hpos Em) as (c & -> & Hc). cbn [mbind res_bind]. apply Hgo; [by eapply near_cpu|by exists c].
Qed.

Lemma setbackdq_ok N : placing N false setbackdq.
Proof.
  apply (place_with_ok N false back_section back_cpu).
  - intros s L me cp tp t x H W Et Hoff Hld Hpos Ex. exact (back_section_ok N me cp tp t s L x H W Et Hoff Hld Ex Hpos).
  - intros s L me tp t m H W Et Hb Hpos Em. by apply (back_cpu_ok N s me tp t m W Et Hb Hpos Em L).
Qed.

Lemma setfrontdq_ok N : placing N true setfrontdq.
Proof.
  apply (place_with_ok N true front_section front_cpu).
  - intros s L me cp tp t x H W Et Hoff Hld Hpos Ex. exact (front_section_ok N me cp tp t s L x H W Et Hoff Hld Ex Hpos).
  - intros s L me tp t m H W Et Hb Hpos Em. by apply (front_cpu_ok N s me tp t m W Et Hb Em).
Qed.
