(* ===== verification/DispRun.v ===== *)
(** * What [disp] runs

    The whole of [disp] on a CPU, when no other CPU comes in between. *)

From S2P Require Import Prelude Bitmap Disp DispSys DispOps DispBest DispPlace.

(** ** The CPU to take work from *)

(** The CPU [c] has work for others, of priority [z]. *)
Definition offers (s : dsys) (c z : Z) : Prop := ∃ x, d_cpus s !! c = Some x ∧ 1 < disp_nrunnable (cpu_disp x) ∧ z = disp_max_unbound_pri (cpu_disp x).

(** [r] is the one of [l] that offers the best, if that is more than [lo]. *)
Definition best_offer (s : dsys) (l : list Z) (lo : Z) (r : option Z) : Prop :=
  match r with
  | None => ∀ c z, c ∈ l → offers s c z → z ≤ lo
  | Some c => c ∈ l ∧ ∃ z, offers s c z ∧ lo < z ∧ ∀ c' z', c' ∈ l → offers s c' z' → z' ≤ z
  end.

Lemma getwork_loop_ok s cp : ∀ l fuel tcp maxpri, cpath s l cp → cp ∉ l → (length l < fuel)%nat →
  ∃ r, getwork_loop fuel s cp (default cp (head l)) tcp maxpri = Ok (match r with Some c => Some c | None => tcp end) ∧ best_offer s l maxpri r.
Proof.
  induction l as [|c l IH]; intros fuel tcp maxpri Hp Hn Hf; (destruct fuel as [|fuel]; [simpl in Hf; lia|]).
  - simpl. rewrite Z.eqb_refl. exists None. split; [done|]. intros c z Hc. by apply elem_of_nil in Hc.
  - destruct (cpath_cpu _ _ _ _ Hp) as (x & Ex & Hnx). apply not_elem_of_cons in Hn as [Hne Hn]. destruct Hp as [_ Hp]. change (default cp (head (c :: l))) with c. cbn [getwork_loop]. rewrite (proj2 (Z.eqb_neq c cp)) by congruence. rewrite (get_cpu_ok _ _ _ Ex). cbn [mbind res_bind]. rewrite Hnx. simpl in Hf.
    assert (∀ z, offers s c z → 1 < disp_nrunnable (cpu_disp x) ∧ z = disp_max_unbound_pri (cpu_disp x)) as Hoff by (intros z (y & Ey & Hy); by assert (y = x) as -> by congruence).
    assert (∀ r lo, (∀ z, offers s c z → z ≤ lo) → best_offer s l lo r → best_offer s (c :: l) lo r) as Hskip.
    { intros r lo Hc Hb. destruct r as [c'|]; simpl in *; [destruct Hb as (Hin & z & Hz & Hlt & Hall); split; [by right|]; exists z; split_and!; [done|done|]; intros c2 z2 [->|Hc2]%elem_of_cons Hz2; [etrans; [by apply Hc|lia]|by apply (Hall c2)]|].
      intros c2 z2 [->|Hc2]%elem_of_cons Hz2; [by apply Hc|by apply (Hb c2)]. }
    destruct (Z.leb_spec (disp_nrunnable (cpu_disp x)) 1) as [H1|H1].
    + destruct (IH fuel tcp maxpri Hp Hn ltac:(lia)) as (r & -> & Hr). exists r. split; [done|]. apply Hskip; [|done]. intros z Hz. destruct (Hoff z Hz). lia.
    + destruct (Z.ltb_spec maxpri (disp_max_unbound_pri (cpu_disp x))) as [H2|H2].
      * destruct (IH fuel (Some c) (disp_max_unbound_pri (cpu_disp x)) Hp Hn ltac:(lia)) as (r & -> & Hr). exists (Some (default c r)). split; [by destruct r|]. destruct r as [c'|]; simpl in *.
        -- destruct Hr as (Hin & z & Hz & Hlt & Hall). split; [by right|]. exists z. split_and!; [done|lia|]. intros c2 z2 [->|Hc2]%elem_of_cons Hz2; [destruct (Hoff z2 Hz2); lia|by apply (Hall c2)].
        -- split; [left|]. exists (disp_max_unbound_pri (cpu_disp x)). split_and!; [by exists x|done|]. intros c2 z2 [->|Hc2]%elem_of_cons Hz2; [destruct (Hoff z2 Hz2); lia|by apply (Hr c2)].
      * destruct (IH fuel tcp maxpri Hp Hn ltac:(lia)) as (r & -> & Hr). exists r. split; [done|]. apply Hskip; [|done]. intros z Hz. destruct (Hoff z Hz). lia.
Qed.

(** ** The decision is kept *)

(** What [disp_ratify] clears. *)
Definition ratified (s s' : dsys) (me tp : Z) : Prop := quiet s s' ∧ ∃ x, d_cpus s' !! me = Some x ∧ cpu_dispthread x = tp ∧ cpu_runrun x = 0 ∧ cpu_kprunrun x = 0 ∧ cpu_chosen_level x = -1.

Lemma disp_ratify_ok s me kpq tp t x k : d_threads s !! tp = Some t → d_cpus s !! me = Some x → cpu_dispthread x = tp → d_parts s !! kpq = Some k → disp_maxrunpri (cpu_disp x) ≤ DISP_PRIO t → disp_maxrunpri (cp_kp_queue k) ≤ DISP_PRIO t →
  ∃ s', disp_ratify me tp kpq s = Ok (Some tp, s') ∧ ratified s s' me tp.
Proof.
  intros Et Ex Edt Ek H1 H2. unfold disp_ratify. rewrite (upd_cpu_ok _ _ _ _ Ex). cbn [mbind res_bind]. set (x1 := set_runrun 0 (set_kprunrun 0 (set_chosen_level (-1) x))). set (s1 := with_cpus (<[me := x1]> (d_cpus s)) s). rewrite (thread_prio_ok s1 tp t) by done. cbn [mbind res_bind].
  assert (d_cpus s1 !! me = Some x1) as Ex1 by apply lookup_insert_eq. rewrite (get_cpu_ok s1 me _ Ex1). cbn [mbind res_bind]. rewrite (get_part_ok s1 kpq k) by done. cbn [mbind res_bind]. change (cpu_disp x1) with (cpu_disp x).
  rewrite (proj2 (Z.ltb_ge (DISP_PRIO t) _)) by (destruct (_ <? _); lia). exists s1. split; [done|]. split; [by apply (quiet_cpu s me x (λ c, set_runrun 0 (set_kprunrun 0 (set_chosen_level (-1) c)))); [..|left]|]. exists x1. done.
Qed.

(** The maximum of the kpreempt queue: its threads are unbound. *)
Lemma kp_max s L p k : disp_inv s L → d_parts s !! p = Some k → 0 ≤ disp_maxrunpri (cp_kp_queue k) → disp_max_unbound_pri (cp_kp_queue k) = disp_maxrunpri (cp_kp_queue k) ∧ ∀ A tp B, L (DKp p) (disp_maxrunpri (cp_kp_queue k)) = A ++ tp :: B → all_bound s A → A = [].
Proof.
  intros H Ek Hm. assert (get_disp s (DKp p) = Ok (cp_kp_queue k)) as Ed by (apply get_disp_kp; by exists k). set (dp := cp_kp_queue k) in *. pose proof (di_q _ _ H _ _ Ed) as Hdq.
  assert (∀ pri x, x ∈ L (DKp p) pri → ∃ t, d_threads s !! x = Some t ∧ t_bound_cpu t = None) as Hunb by (intros pri x Hx; destruct (di_mem _ _ H _ _ _ Hx) as (t & E & (_ & _ & _ & _ & _ & Hb)); exists t; split; [done|by apply (Hb p)]).
  destruct (max_head s L _ dp H Ed Hm) as (tp & rest & t & EL & Et & _). destruct (Hunb (disp_maxrunpri dp) tp) as (t' & Et' & Hb); [rewrite EL; left|]. pose proof (di_ub _ _ H _ dp (disp_maxrunpri dp) tp t' Ed ltac:(rewrite EL; left) Et' Hb). pose proof (dk_ub _ _ Hdq). split; [lia|].
  intros A tp' B EA HA. destruct A as [|a A]; [done|]. exfalso. destruct (Hunb (disp_maxrunpri dp) a) as (ta & Eta & Hba); [rewrite EA; left|]. by apply (HA a ta ltac:(left)).
Qed.

(** The priority of a thread and the maxima, once it has been taken. *)
Lemma frame_thread_prio s s' tp t : frame s s' → d_threads s !! tp = Some t → ∃ t', d_threads s' !! tp = Some t' ∧ DISP_PRIO t' = DISP_PRIO t.
Proof. intros F Et. pose proof (proj2 (frame_dom _ _ tp F) ltac:(by eexists)) as [t' Et']. exists t'. split; [done|]. destruct (frame_prio _ _ _ _ F Et') as (t0 & E0 & _ & ->). congruence. Qed.

(** The maximum does not grow when threads are taken. *)
Lemma less_max s s' L L' d dp dp' : disp_inv s L → disp_inv s' L' → (∀ pri, L d pri = [] → L' d pri = []) → get_disp s d = Ok dp → get_disp s' d = Ok dp' → disp_maxrunpri dp' ≤ disp_maxrunpri dp.
Proof.
  intros H H' Hsub Ed Ed'. pose proof (di_q _ _ H _ _ Ed) as Hq. pose proof (di_q _ _ H' _ _ Ed') as Hq'. pose proof (dk_maxlow _ _ Hq). destruct (decide (disp_maxrunpri dp' ≤ disp_maxrunpri dp)) as [|Hn]; [done|]. exfalso. apply (dk_max _ _ Hq'); [lia|]. apply Hsub, (dk_above _ _ Hq). lia.
Qed.

(** The lists once [tp] is taken from between [A] and [B]. *)
Definition taken_from (d : dispref) (pri : Z) (A B : list Z) (L : dispref → Z → list Z) : dispref → Z → list Z := set_queue d (set_level pri (A ++ B) (L d)) L.

Lemma taken_nil d pri A tp B L : L d pri = A ++ tp :: B → ∀ d' pri', L d' pri' = [] → taken_from d pri A B L d' pri' = [].
Proof. intros EL d' pri' E. unfold taken_from. rewrite set_queue_level. case_decide as Ed; [|done]. destruct Ed as [-> ->]. rewrite EL in E. by destruct A. Qed.

(** A thread that was the best of the CPU and its partition is kept. *)
Lemma ratify_taken N s s1 L L1 me x k tp t : disp_inv s L → sys_wf N s → frame s s1 → disp_inv s1 L1 → (∀ d pri, L d pri = [] → L1 d pri = []) → runs s1 me tp → d_cpus s !! me = Some x → d_parts s !! cpu_part x = Some k → d_threads s !! tp = Some t →
  disp_maxrunpri (cpu_disp x) ≤ DISP_PRIO t → disp_maxrunpri (cp_kp_queue k) ≤ DISP_PRIO t → ∃ s', disp_ratify me tp (cpu_part x) s1 = Ok (Some tp, s') ∧ disp_inv s' L1 ∧ frame s s' ∧ ratified s1 s' me tp.
Proof.
  intros H W F H1 Hsub (x1 & Ex1 & Edt) Ex Ek Et M1 M2. destruct (frame_thread_prio _ _ _ _ F Et) as (t1 & Et1 & Ep). pose proof (fr_p _ _ F (cpu_part x)) as Fp. rewrite Ek in Fp. destruct (d_parts s1 !! cpu_part x) as [k1|] eqn:Ek1; [|done].
  destruct (disp_ratify_ok s1 me (cpu_part x) tp t1 x1 k1 Et1 Ex1 Edt Ek1) as (s' & -> & R).
  - rewrite Ep. etrans; [|exact M1]. apply (less_max s s1 L L1 (DCpu me)); try done; [apply Hsub|apply get_disp_cpu; by exists x|apply get_disp_cpu; by exists x1].
  - rewrite Ep. etrans; [|exact M2]. apply (less_max s s1 L L1 (DKp (cpu_part x))); try done; [apply Hsub|apply get_disp_kp; by exists k|apply get_disp_kp; by exists k1].
  - exists s'. destruct R as [Q R]. split_and!; [done|by apply (inv_quiet s1)|etrans; [exact F|apply Q]|by split].
Qed.

(** ** The whole of [disp] *)

(** [me] runs [tp], and no one has asked it for another choice. *)
Definition now_runs (s : dsys) (me tp : Z) : Prop :=
  (∃ t, d_threads s !! tp = Some t ∧ t_state t = TS_ONPROC ∧ t_lockp t = LCpuThread me ∧ t_link t = None) ∧ ∃ x, d_cpus s !! me = Some x ∧ cpu_dispthread x = tp ∧ cpu_runrun x = 0 ∧ cpu_kprunrun x = 0 ∧ cpu_chosen_level x = -1.

Definition offline (x : cpu) : Prop := Z.land (cpu_flags x) CPU_OFFLINE ≠ 0.

(** The choice: the thread, and the lists that are left.  [l] are the other CPUs of the partition. *)
Inductive choice (s : dsys) (L : dispref → Z → list Z) (me : Z) (x : cpu) (k : cpupart) (l : list Z) : Z → (dispref → Z → list Z) → Prop :=
  | ch_kp tp rest : ¬ offline x → 0 ≤ disp_maxrunpri (cp_kp_queue k) → disp_maxrunpri (cpu_disp x) ≤ disp_maxrunpri (cp_kp_queue k) → L (DKp (cpu_part x)) (disp_maxrunpri (cp_kp_queue k)) = tp :: rest →
      choice s L me x k l tp (taken_from (DKp (cpu_part x)) (disp_maxrunpri (cp_kp_queue k)) [] rest L)
  | ch_own tp rest : offline x ∨ disp_maxrunpri (cp_kp_queue k) < disp_maxrunpri (cpu_disp x) → 0 ≤ disp_maxrunpri (cpu_disp x) → L (DCpu me) (disp_maxrunpri (cpu_disp x)) = tp :: rest →
      choice s L me x k l tp (taken_from (DCpu me) (disp_maxrunpri (cpu_disp x)) [] rest L)
  | ch_steal c z A tp B t : ¬ offline x → disp_maxrunpri (cpu_disp x) = -1 → disp_maxrunpri (cp_kp_queue k) = -1 → best_offer s l (-1) (Some c) → offers s c z → L (DCpu c) z = A ++ tp :: B → all_bound s A → d_threads s !! tp = Some t → t_bound_cpu t = None →
      choice s L me x k l tp (taken_from (DCpu c) z A B L)
  | ch_idle : disp_maxrunpri (cpu_disp x) = -1 → (offline x ∨ disp_maxrunpri (cp_kp_queue k) = -1 ∧ (best_offer s l (-1) None ∨ ∃ c z, best_offer s l (-1) (Some c) ∧ offers s c z ∧ all_bound s (L (DCpu c) z))) →
      choice s L me x k l (cpu_idle_thread x) L.

Lemma run_idle_ok N s L me x : disp_inv s L → sys_wf N s → d_cpus s !! me = Some x → (∀ t, d_threads s !! cpu_idle_thread x = Some t → off_queue t) →
  ∃ s', run_idle me s = Ok (cpu_idle_thread x, s') ∧ disp_inv s' L ∧ frame s s' ∧ now_runs s' me (cpu_idle_thread x).
Proof.
  intros H W Ex Hidle. destruct (wf_c _ _ W me x Ex) as (_ & _ & _ & [t Et] & _). pose proof (Hidle t Et) as Hoff. pose proof (di_free _ _ H _ _ Et Hoff) as Hl. unfold run_idle. rewrite (get_cpu_ok _ _ _ Ex). cbn [mbind res_bind]. rewrite (upd_thread_ok _ _ _ _ Et). cbn [mbind res_bind].
  set (s1 := with_threads _ s). rewrite (upd_cpu_ok s1 me x) by done. cbn [mbind res_bind]. eexists. split; [done|]. assert (disp_inv s1 L) as H1 by (by apply (inv_off s L _ t)). assert (frame s s1) as F1 by (by apply frame_thread with t).
  assert (is_Some (d_threads s1 !! cpu_idle_thread x)) as Hs by (cbn [s1 d_threads with_threads]; rewrite lookup_insert_eq; by eexists).
  assert (quiet s1 (with_cpus (<[me := set_chosen_level (-1) (set_kprunrun 0 (set_runrun 0 (set_dispthread (cpu_idle_thread x) x)))]> (d_cpus s1)) s1)) as Q by (by apply (quiet_cpu s1 me x (λ c, set_chosen_level (-1) (set_kprunrun 0 (set_runrun 0 (set_dispthread (cpu_idle_thread x) c))))); [..|right]). split_and!.
  - by apply (inv_quiet s1).
  - etrans; [exact F1|apply Q].
  - split; [exists (thread_onproc me t); split; [apply lookup_insert_eq|done]|eexists; split; [apply lookup_insert_eq|done]].
Qed.

Lemma now_runs_ratified s s' me tp t : ratified s s' me tp → d_threads s !! tp = Some t → t_state t = TS_ONPROC → t_lockp t = LCpuThread me → t_link t = None → now_runs s' me tp.
Proof. intros [[T _ _] R] Et H1 H2 H3. split; [|exact R]. exists t. by rewrite T. Qed.

Section run.
Context (N : Z) (s : dsys) (L : dispref → Z → list Z) (me : Z) (x : cpu) (k : cpupart) (l : list Z).
Context (H : disp_inv s L) (W : sys_wf N s) (Ex : d_cpus s !! me = Some x) (Ek : d_parts s !! cpu_part x = Some k) (Hring : ¬ offline x → ring_of s me l).
Context (Hidle : ∀ t, d_threads s !! cpu_idle_thread x = Some t → off_queue t).
Abbreviation pri := (disp_maxrunpri (cpu_disp x)).
Abbreviation kpri := (disp_maxrunpri (cp_kp_queue k)).

Lemma run_disps : get_disp s (DCpu me) = Ok (cpu_disp x) ∧ get_disp s (DKp (cpu_part x)) = Ok (cp_kp_queue k).
Proof. split; [apply get_disp_cpu; by exists x|apply get_disp_kp; by exists k]. Qed.

Lemma taken_prio d p A tp B t : L d p = A ++ tp :: B → d_threads s !! tp = Some t → DISP_PRIO t = p.
Proof. intros EL Et. destruct (di_mem _ _ H d p tp) as (t' & Et' & Hp & _); [rewrite EL; apply elem_of_app; right; left|]. congruence. Qed.

(** The first loop takes the head of the kpreempt queue, at its first turn. *)
Lemma kp_first_ok fuel : (¬ offline x ∧ 0 ≤ kpri ∧ pri ≤ kpri → ∃ s' tp rest, kp_first (S fuel) me (cpu_part x) s = Ok (Some tp, s') ∧ L (DKp (cpu_part x)) kpri = tp :: rest ∧ disp_inv s' (taken_from (DKp (cpu_part x)) kpri [] rest L) ∧ frame s s' ∧ now_runs s' me tp) ∧
  (offline x ∨ kpri < 0 ∨ kpri < pri → kp_first (S fuel) me (cpu_part x) s = Ok (None, s)).
Proof.
  destruct run_disps as [Ed Edk]. cbn [kp_first]. rewrite (get_part_ok _ _ _ Ek). cbn [mbind res_bind]. rewrite (get_cpu_ok _ _ _ Ex). cbn [mbind res_bind]. unfold offline. split.
  - intros (Hon & H0 & Hle). rewrite (proj2 (Z.leb_le 0 kpri)), (proj2 (Z.leb_le pri kpri)) by lia. rewrite (proj2 (Z.eqb_eq _ 0)) by lia. cbn [andb].
    destruct (kp_max s L _ k H Ek H0) as [Hmx Hhd]. destruct (disp_getbest_ok N s L _ _ me x H W Edk Ex) as ([tp|] & s1 & -> & F1 & Hr); cbn [mbind res_bind]; cbv zeta in Hr; rewrite Hmx in Hr.
    + destruct Hr as (A & B & t & _ & EL & Et & Hb & HA & H1 & T1 & R1). assert (A = []) as -> by (by apply (Hhd A tp B)). pose proof (taken_prio _ _ _ _ _ _ EL Et) as Ep.
      destruct (ratify_taken N s s1 L _ me x k tp t H W F1 H1 (taken_nil _ _ _ _ _ _ EL) R1 Ex Ek Et) as (s2 & -> & H2 & F2 & Rat); [lia|lia|]. cbn [mbind res_bind]. exists s2, tp, B. split_and!; try done.
      eapply now_runs_ratified; [done|rewrite T1; apply lookup_insert_eq|done..].
    + exfalso. destruct Hr as (ub & _ & _ & _ & _ & Hab). destruct (max_head s L _ _ H Edk H0) as (tp & rest & t & EL & Et & _). destruct (di_mem _ _ H (DKp (cpu_part x)) kpri tp) as (t' & Et' & (_ & _ & _ & _ & _ & Hb)); [rewrite EL; left|]. apply (Hab tp t' ltac:(rewrite EL; left) Et'). by apply (Hb (cpu_part x)).
  - intros Hn. assert ((0 <=? kpri) && (pri <=? kpri) && (Z.land (cpu_flags x) CPU_OFFLINE =? 0) = false) as ->; [|done].
    destruct Hn as [Hn|[Hn|Hn]]; [rewrite (proj2 (Z.eqb_neq _ 0)) by done; by rewrite andb_false_r|by rewrite (proj2 (Z.leb_gt 0 kpri)) by lia|rewrite (proj2 (Z.leb_gt pri kpri)) by lia; by rewrite andb_false_r].
Qed.

(** Work of another CPU. *)
Lemma disp_getwork_ok fuel : ¬ offline x → pri = -1 → kpri = -1 →
  ∃ r s', disp_getwork (S fuel) me s = Ok (r, s') ∧ frame s s' ∧
    match r with
    | Some tp => ∃ L', choice s L me x k l tp L' ∧ disp_inv s' L' ∧ now_runs s' me tp
    | None => choice s L me x k l (cpu_idle_thread x) L ∧ disp_inv s' L ∧ d_threads s' = d_threads s
    end.
Proof.
  intros Hon Hp Hk. unfold disp_getwork. rewrite (get_cpu_ok _ _ _ Ex). cbn [mbind res_bind kp_work]. rewrite (get_part_ok _ _ _ Ek). cbn [mbind res_bind]. rewrite Hk. cbn [mbind res_bind]. change (-1 <? 0) with true. cbn [mbind res_bind].
  pose proof (ring_size _ _ _ (Hring Hon)) as Hsz. destruct (Hring Hon) as [Hpath Hn]. destruct (cpath_cpu _ _ _ _ Hpath) as (x' & Ex' & Hnx). assert (x' = x) as -> by congruence. destruct Hpath as [_ Hpath]. apply list.NoDup_cons in Hn as [Hn _].
  destruct (getwork_loop_ok s me l (S (size (d_cpus s))) None (-1) Hpath Hn) as (r & Er & Hbest); [lia|]. rewrite Hnx, Er. cbn [mbind res_bind]. destruct r as [c|]; [|by exists None, s; split_and!; [done|done|apply ch_idle; [done|right; split; [done|by left]]|done|done]].
  pose proof Hbest as Hbest'. destruct Hbest' as (Hin & z & Hz & Hlt & Hall). pose proof Hz as (xc & Exc & Hnr & ->). assert (get_disp s (DCpu c) = Ok (cpu_disp xc)) as Edc by (apply get_disp_cpu; by exists xc).
  destruct (disp_getbest_ok N s L _ _ me x H W Edc Ex) as ([tp|] & s1 & -> & F1 & Hr); cbn [mbind res_bind]; cbv zeta in Hr.
  - destruct Hr as (A & B & t & H0 & EL & Et & Hb & HA & H1 & T1 & R1). pose proof (taken_prio _ _ _ _ _ _ EL Et) as Ep.
    destruct (ratify_taken N s s1 L _ me x k tp t H W F1 H1 (taken_nil _ _ _ _ _ _ EL) R1 Ex Ek Et) as (s2 & -> & H2 & F2 & Rat); [lia|lia|]. exists (Some tp), s2. split_and!; [done|done|]. eexists. split_and!; [by eapply ch_steal|exact H2|].
    eapply now_runs_ratified; [done|rewrite T1; apply lookup_insert_eq|done..].
  - destruct Hr as (ub & H1 & T1 & _ & _ & Hab). exists None, s1. split_and!; [done|done| |done|done]. apply ch_idle; [done|right; split; [done|right]]. by exists c, (disp_max_unbound_pri (cpu_disp xc)).
Qed.

Lemma disp_ok fuel : (offline x → pri = -1 ∨ kpri ≤ pri) →
  ∃ tp s' L', disp (S fuel) me s = Ok (tp, s') ∧ choice s L me x k l tp L' ∧ disp_inv s' L' ∧ frame s s' ∧ now_runs s' me tp.
Proof.
  intros Hoff. destruct run_disps as [Ed Edk]. pose proof (di_q _ _ H _ _ Ed) as Hdq. pose proof (di_q _ _ H _ _ Edk) as Hdqk. pose proof (dk_maxlow _ _ Hdq) as Hlow. pose proof (dk_maxlow _ _ Hdqk) as Hlowk. destruct (kp_first_ok fuel) as [K1 K2].
  change (disp (S fuel) me s) with (c ← get_cpu s me; '(tp, s) ← kp_first (S fuel) me (cpu_part c) s;
    match tp with Some tp => Ok (tp, s) | None => dp ← get_disp s (DCpu me); if disp_maxrunpri dp =? -1 then if Z.land (cpu_flags c) CPU_OFFLINE =? 0 then '(tp, s) ← disp_getwork (S fuel) me s; match tp with Some tp => Ok (tp, s) | None => run_idle me s end else run_idle me s
      else '(tp, s) ← take_section me s; '(r, s) ← disp_ratify me tp (cpu_part c) s; match r with Some tp => Ok (tp, s) | None => disp fuel me s end end).
  rewrite (get_cpu_ok _ _ _ Ex). cbn [mbind res_bind]. destruct (decide (offline x)) as [Ho|Ho]; [|destruct (decide (0 ≤ kpri ∧ pri ≤ kpri)) as [[Hk1 Hk2]|Hk]].
  2: { destruct K1 as (s' & tp & rest & -> & EL & H' & F & R); [done|]. exists tp, s'. eexists. split_and!; [done|by apply ch_kp|done..]. }
  all: rewrite K2 by (tauto || lia); cbn [mbind res_bind]; rewrite Ed; cbn [mbind res_bind]; destruct (Z.eqb_spec pri (-1)) as [Ep|Ep].
  - rewrite (proj2 (Z.eqb_neq _ 0)) by done. destruct (run_idle_ok N s L me x H W Ex Hidle) as (s' & -> & H' & F & R). exists (cpu_idle_thread x), s', L. split_and!; [done|apply ch_idle; [done|by left]|done..].
  - destruct (take_section_ok N s L me x H W Ex) as (s1 & tp & rest & t & -> & EL & Et & H1 & F1 & T1 & R1); [lia|]. cbn [mbind res_bind]. pose proof (taken_prio _ _ [] _ _ _ EL Et) as Epr. destruct (Hoff Ho) as [|Hle]; [lia|].
    destruct (ratify_taken N s s1 L _ me x k tp t H W F1 H1 (taken_nil _ _ [] tp rest L EL) R1 Ex Ek Et) as (s2 & -> & H2 & F2 & Rat); [lia|lia|]. cbn [mbind res_bind]. exists tp, s2. eexists. split_and!; [done|apply ch_own; [by left|lia|exact EL]|exact H2|done|].
    eapply now_runs_ratified; [done|rewrite T1; apply lookup_insert_eq|done..].
  - assert (¬ offline x) as Ho' by done. unfold offline in Ho. rewrite (proj2 (Z.eqb_eq (Z.land (cpu_flags x) CPU_OFFLINE) 0)) by lia. destruct (disp_getwork_ok fuel Ho' Ep) as ([tp|] & s1 & -> & F1 & Hr); [lia| |]; cbn [mbind res_bind].
    + destruct Hr as (L' & Hc & H' & R). by exists tp, s1, L'.
    + destruct Hr as (Hc & H1 & T1). pose proof (fr_c _ _ F1 me) as Fc. rewrite Ex in Fc. destruct (d_cpus s1 !! me) as [x1|] eqn:Ex1; [|done]. injection Fc as _ _ Eid _ _ _ _. pose proof (sys_wf_frame _ _ _ F1 W) as W1.
      destruct (run_idle_ok N s1 L me x1 H1 W1 Ex1) as (s2 & -> & H2 & F2 & R); [by rewrite T1, Eid|]. exists (cpu_idle_thread x), s2, L. rewrite Eid in *. split_and!; [done|done|done|by etrans|done].
  - destruct (take_section_ok N s L me x H W Ex) as (s1 & tp & rest & t & -> & EL & Et & H1 & F1 & T1 & R1); [lia|]. cbn [mbind res_bind]. pose proof (taken_prio _ _ [] _ _ _ EL Et) as Epr.
    destruct (ratify_taken N s s1 L _ me x k tp t H W F1 H1 (taken_nil _ _ [] tp rest L EL) R1 Ex Ek Et) as (s2 & -> & H2 & F2 & Rat); [lia|lia|]. cbn [mbind res_bind]. exists tp, s2. eexists. split_and!; [done|apply ch_own; [right; lia|lia|exact EL]|exact H2|done|].
    eapply now_runs_ratified; [done|rewrite T1; apply lookup_insert_eq|done..].
Qed.
End run.
