(* ===== verification/DispThms.v ===== *)
(** * The dispatcher keeps its promises

    [disp_cpu_inactive] and [disp_kp_inactive] empty a queue: each thread goes to another, until
    none is left that can go.  Then the sections of the dispatcher as steps that any CPU may
    take at any time, and what holds in every state. *)

From S2P Require Import Prelude Bitmap Disp DispSys DispOps DispBest DispPlace DispRun.

(** The thread [x] is bound to a CPU. *)
Definition bound (s : dsys) (x : Z) : Prop := ∃ t, d_threads s !! x = Some t ∧ t_bound_cpu t ≠ None.
#[global] Instance bound_dec s x : Decision (bound s x).
Proof.
  unfold bound. destruct (d_threads s !! x) as [t|]; [|right; by intros (t & E & _)]. destruct (t_bound_cpu t) as [c|] eqn:E; [left; exists t; by rewrite E|right; intros (t' & Et & Hb); congruence].
Defined.

Lemma frame_bound s s' x : frame s s' → bound s' x ↔ bound s x.
Proof.
  intros F. pose proof (fr_t _ _ F x) as E. unfold bound. destruct (d_threads s' !! x) as [t'|], (d_threads s !! x) as [t|]; try done.
  injection E as _ _ Eb _ _ _. split; intros (t0 & E0 & Hb); injection E0 as <-; eexists; (split; [done|]); congruence.
Qed.

Lemma filter_bound_all s l : all_bound s l → (∀ x, x ∈ l → is_Some (d_threads s !! x)) → filter (bound s) l = l.
Proof.
  induction l as [|x l IH]; intros Hb Hd; [done|]. destruct (Hd x ltac:(left)) as [t Et]. rewrite filter_cons, decide_True by (exists t; split; [done|apply (Hb x t); [left|done]]). f_equal. apply IH; [intros y ty Hy; apply Hb; by right|intros y Hy; apply Hd; by right].
Qed.

(** ** One thread *)

Lemma near_frame s s' t t' c : frame s s' → t_cpu t' = t_cpu t → t_cpupart t' = t_cpupart t → near s' t' c → near s t c.
Proof.
  intros F Ec Ep. assert (∀ c0 c1, same_ring s' c0 c1 → same_ring s c0 c1) as Hr. { intros c0 c1 (l & [Hp Hn] & Hin). exists l. split; [split; [|done]|done]. eapply cpath_ext; [|exact Hp]. intros y. symmetry. by apply frame_next. }
  unfold near. rewrite Ec, Ep. intros [H|(p' & Ep' & H)]; [left; by apply Hr|right]. pose proof (fr_p _ _ F (t_cpupart t)) as E. rewrite Ep' in E. destruct (d_parts s !! t_cpupart t) as [p|]; [|done]. injection E as _ El _. exists p. split; [done|]. rewrite <- El. by apply Hr.
Qed.

(** A thread [tp] of [d] has gone to another queue: the lists, and the two counts that show progress. *)
Definition moved (s s' : dsys) (L L' : dispref → Z → list Z) (d : dispref) (tp pri : Z) (A B : list Z) : Prop :=
  disp_inv s' L' ∧ frame s s' ∧ (∀ p, L' d p = set_level pri (A ++ B) (L d) p) ∧ (∀ d' p x, d' ≠ d → x ∈ L d' p → x ∈ L' d' p) ∧ (∃ d', d' ≠ d ∧ tp ∈ L' d' pri) ∧
  ∀ dp, get_disp s d = Ok dp → ∃ dp', get_disp s' d = Ok dp' ∧ disp_nrunnable dp' = disp_nrunnable dp - 1 ∧ disp_max_unbound_pri dp' ≤ disp_max_unbound_pri dp.

(** The thread when [dispdeq] has taken it. *)
Definition dequeued (t : kthread) : kthread := THREAD_TRANSITION (set_link None t).

Lemma move_thread N s L d pri tp front f : disp_inv s L → sys_wf N s → tp ∈ L d pri →
  (∀ s1 L1 t, disp_inv s1 L1 → sys_wf N s1 → frame s s1 → d_threads s !! tp = Some t → d_threads s1 !! tp = Some (dequeued t) → loaded t = true → off_queue (dequeued t) → t_state t = TS_RUN → DISP_PRIO t = pri → 0 ≤ pri →
    ∃ s2 d2, f s1 = Ok s2 ∧ d2 ≠ d ∧ frame s1 s2 ∧ disp_inv s2 (placed front d2 tp pri L1) ∧ ∀ d', d' ≠ d2 → get_disp s2 d' = get_disp s1 d') →
  ∃ s1 s2 A B L', dispdeq tp s = Ok (true, s1) ∧ f s1 = Ok s2 ∧ L d pri = A ++ tp :: B ∧ moved s s2 L L' d tp pri A B.
Proof.
  intros H W Hin Hf. destruct (dispdeq_ok N s L d pri tp H W Hin) as (s1 & A & B & t & EL & Et & Ed & H1 & F1 & T1 & _ & dp & dp1 & Edp & Edp1 & _ & _ & Hub). destruct (di_mem _ _ H d pri tp Hin) as (t' & Et' & (Ep & Est & _ & _ & Hld & _)). assert (t' = t) as -> by congruence. assert (0 ≤ pri) as Hpos by (destruct (decide (0 ≤ pri)); [done|exfalso; rewrite (dk_out _ _ (di_q _ _ H _ _ Edp)) in Hin by lia; by apply elem_of_nil in Hin]).
  destruct (Hf s1 _ t H1 (sys_wf_frame _ _ _ F1 W) F1 Et) as (s2 & d2 & E2 & Hne & F2 & H2 & O2); [rewrite T1; apply lookup_insert_eq|done..|]. exists s1, s2, A, B. eexists. split_and!; [done|done|done|]. assert (d ≠ d2) as Hne' by done. split_and!.
  - exact H2.
  - by etrans.
  - intros p. unfold placed. by rewrite set_queue_ne, set_queue_eq.
  - intros d' p x Hd' Hx. unfold placed. rewrite set_queue_level. case_decide as E; [destruct E as [-> ->]|]; rewrite !set_queue_ne by done; [|done]. destruct front; [by right|apply elem_of_app; by left].
  - exists d2. split; [done|]. unfold placed. rewrite set_queue_level, decide_True by done. destruct front; [left|apply elem_of_app; right; left].
  - intros dp0 E0. assert (dp0 = dp) as -> by congruence. exists dp1. split_and!; [by rewrite O2|  |done]. pose proof (di_q _ _ H _ _ Edp) as Q. pose proof (di_q _ _ H1 _ _ Edp1) as Q1. rewrite set_queue_eq in Q1. rewrite (dk_cnt _ _ Q), (dk_cnt _ _ Q1).
    rewrite (get_disp_npri N s _ _ W Edp), (get_disp_npri N s1 _ _ (sys_wf_frame _ _ _ F1 W) Edp1). destruct (wf_t _ _ W tp t Et) as (Hp & _). rewrite Ep in Hp. rewrite total_set, EL, (proj2 (Z.ltb_lt _ _)) by lia. rewrite !length_app. simpl. lia.
Qed.

(** ** A CPU *)

(** No unbound thread is led to [cp], neither by its last CPU nor by its partition. *)
Definition avoided (s : dsys) (cp : Z) : Prop := ∀ tp t, d_threads s !! tp = Some t → t_bound_cpu t = None → ¬ near s t cp.

Lemma avoided_frame s s' cp : frame s s' → avoided s cp → avoided s' cp.
Proof. intros F Ha tp t' Et' Hb Hn. destruct (frame_prio _ _ _ _ F Et') as (t & Et & Es & _). injection Es as _ _ Eb Ec Ep _. apply (Ha tp t Et); [congruence|]. by apply (near_frame s s' t t'). Qed.

(** What [disp_cpu_inactive] has done to the lists. *)
Definition given_away (s : dsys) (L L' : dispref → Z → list Z) (d : dispref) : Prop :=
  (∀ p, filter (bound s) (L' d p) = filter (bound s) (L d p)) ∧ (∀ d' p x, d' ≠ d → x ∈ L d' p → x ∈ L' d' p) ∧ ∀ p x, x ∈ L d p → x ∈ L' d p ∨ ∃ d', d' ≠ d ∧ x ∈ L' d' p.

Lemma given_away_refl s L d : given_away s L L d.
Proof. split_and!; try done. intros p x Hx. by left. Qed.

Lemma given_away_trans s s1 L L1 L2 d : frame s s1 → given_away s L L1 d → given_away s1 L1 L2 d → given_away s L L2 d.
Proof.
  intros F (A1 & A2 & A3) (B1 & B2 & B3). split_and!.
  - intros p. rewrite <- A1. rewrite <- !(list_filter_iff (bound s1) (bound s)) by (intros; by apply frame_bound). apply B1.
  - intros d' p x Hd Hx. apply B2, A2; done.
  - intros p x Hx. destruct (A3 p x Hx) as [Hx'|(d' & Hd & Hx')]; [by apply B3|right; exists d'; split; [done|by apply B2]].
Qed.

Lemma moved_given s s' L L' d tp pri A B t : L d pri = A ++ tp :: B → d_threads s !! tp = Some t → t_bound_cpu t = None → moved s s' L L' d tp pri A B → given_away s L L' d.
Proof.
  intros EL Et Hb (_ & _ & HL & Hoth & Htp & _). assert (¬ bound s tp) as Hnb by (intros (t' & Et' & Hb'); congruence). split_and!; [|done|].
  - intros p. rewrite HL. unfold set_level. case_decide as E; [|done]. by rewrite E, EL, !list.filter_app, filter_cons, decide_False.
  - intros p x Hx. rewrite HL. unfold set_level. case_decide as E; [|by left]. subst p. rewrite EL in Hx. apply elem_of_app in Hx as [Hx|[->|Hx]%elem_of_cons]; [left; apply elem_of_app; by left|by right|left; apply elem_of_app; by right].
Qed.

Lemma disp_cpu_inactive_ok N me cp : ∀ fuel s L dp m, disp_inv s L → sys_wf N s → ncpus s ≠ 1 → avoided s cp → d_cpus s !! me = Some m → get_disp s (DCpu cp) = Ok dp → disp_nrunnable dp + disp_max_unbound_pri dp + 1 < Z.of_nat fuel →
  ∃ s' L', disp_cpu_inactive fuel me cp s = Ok s' ∧ disp_inv s' L' ∧ frame s s' ∧ given_away s L L' (DCpu cp) ∧ (∀ p, all_bound s (L' (DCpu cp) p)) ∧ ∃ dp', get_disp s' (DCpu cp) = Ok dp' ∧ disp_max_unbound_pri dp' = -1.
Proof.
  induction fuel as [|fuel IH]; intros s L dp m H W Hn Ha Em Ed Hf; pose proof (di_q _ _ H _ _ Ed) as Hdq; pose proof (dk_ub _ _ Hdq) as Hub; pose proof (dk_cnt _ _ Hdq) as Hcnt; pose proof (total_ge_0 (Z.to_nat (disp_npri dp)) (L (DCpu cp))) as Hnn; [lia|].
  cbn [disp_cpu_inactive]. rewrite Ed. cbn [mbind res_bind]. destruct (Z.eqb_spec (disp_max_unbound_pri dp) (-1)) as [E|E].
  { exists s, L. split_and!; [done|done|done|apply given_away_refl| |by exists dp]. intros p x t Hx Et Hb. pose proof (di_ub _ _ H _ dp p x t Ed Hx Et Hb). rewrite (dk_out _ _ Hdq) in Hx by lia. by apply elem_of_nil in Hx. }
  set (pri := disp_max_unbound_pri dp) in *. pose proof (dk_max_range _ _ Hdq). rewrite (dk_get _ _ pri Hdq) by lia. cbn [mbind res_bind dq_first]. rewrite (skip_level s L _ pri H). cbn [mbind res_bind].
  assert (∀ s1 L1, disp_inv s1 L1 → frame s s1 → given_away s L L1 (DCpu cp) → (∃ dp1, get_disp s1 (DCpu cp) = Ok dp1 ∧ disp_nrunnable dp1 + disp_max_unbound_pri dp1 < disp_nrunnable dp + pri) →
    ∃ s' L', disp_cpu_inactive fuel me cp s1 = Ok s' ∧ disp_inv s' L' ∧ frame s s' ∧ given_away s L L' (DCpu cp) ∧ (∀ p, all_bound s (L' (DCpu cp) p)) ∧ ∃ dp', get_disp s' (DCpu cp) = Ok dp' ∧ disp_max_unbound_pri dp' = -1) as Hnext.
  { intros s1 L1 H1 F1 G1 (dp1 & Ed1 & Hlt). pose proof (fr_c _ _ F1 me) as Fc. rewrite Em in Fc. destruct (d_cpus s1 !! me) as [m1|] eqn:Em1; [|done]. destruct (IH s1 L1 dp1 m1 H1 (sys_wf_frame _ _ _ F1 W)) as (s' & L' & -> & H' & F' & G' & B' & D'); [|by apply (avoided_frame s)|done|done|lia|].
    - pose proof (fr_s _ _ F1) as Es. injection Es as _ _ En _ _ _. congruence.
    - exists s', L'. split_and!; [done|done|by etrans|by eapply given_away_trans| |done]. intros p x t Hx Et Hb. pose proof (fr_t _ _ F1 x) as Ft. rewrite Et in Ft. destruct (d_threads s1 !! x) as [t1|] eqn:Et1; [|done]. injection Ft as _ _ Eb _ _ _. apply (B' p x t1 Hx Et1). congruence. }
  destruct (first_unbound (d_threads s) (L (DCpu cp) pri)) as [tp|] eqn:Ef.
  - destruct (first_unbound_split _ _ _ Ef) as (A0 & B0 & t & EL0 & Et & Hb & _). assert (tp ∈ L (DCpu cp) pri) as Hin by (rewrite EL0; apply elem_of_app; right; left).
    destruct (move_thread N s L (DCpu cp) pri tp false (setbackdq me tp) H W Hin) as (s1 & s2 & A & B & L' & -> & E2 & EL & Hmv).
    { intros s1 L1 t' H1 W1 F1 Et' Et1 Hld Hoff Hst Ep Hpos. assert (t' = t) as -> by congruence. pose proof (fr_c _ _ F1 me) as Fc. rewrite Em in Fc. destruct (d_cpus s1 !! me) as [m1|] eqn:Em1; [|done].
      destruct (setbackdq_ok N s1 L1 me tp (dequeued t) m1 H1 W1 Et1 Hoff) as (s2 & E2 & F2 & Hpl); [by change (DISP_PRIO (dequeued t)) with (DISP_PRIO t); rewrite Ep|done|by left|]. change (loaded (dequeued t)) with (loaded t) in Hpl. rewrite Hld in Hpl. destruct Hpl as (d & Htg & H2 & O2).
      exists s2, d. change (DISP_PRIO (dequeued t)) with (DISP_PRIO t) in H2. rewrite Ep in H2. split_and!; try done. unfold target in Htg. pose proof (fr_s _ _ F1) as Es. injection Es as _ _ En _ _ _. rewrite (proj2 (Z.eqb_neq _ 1)) in Htg by congruence. change (t_bound_cpu (dequeued t)) with (t_bound_cpu t) in Htg. rewrite Hb in Htg.
      destruct (_ <=? _); [by subst d|]. destruct Htg as (c & -> & Hnear). intros Ec. injection Ec as ->. apply (Ha tp t Et Hb). by apply (near_frame s s1 t (dequeued t)). }
    cbn [mbind res_bind]. rewrite E2. cbn [mbind res_bind]. pose proof (moved_given _ _ _ _ _ _ _ _ _ _ EL Et Hb Hmv) as G. destruct Hmv as (H2 & F2 & _ & _ & _ & Hdp). destruct (Hdp dp Ed) as (dp2 & Ed2 & En & Eu). apply (Hnext s2 L'); [done|done|done|]. exists dp2. split; [done|]. fold pri in Eu. lia.
  - destruct (disp_fix_unbound_pri_ok s L _ dp pri H Ed eq_refl ltac:(lia) (first_bound s L _ pri H Ef)) as (s1 & r & -> & H1 & F1 & T1 & Hr & D1). cbn [mbind res_bind]. apply (Hnext s1 L); [done|done|apply given_away_refl|]. exists (set_max_unbound_pri r dp). split; [by rewrite D1, decide_True|]. cbn. destruct Hr as [Hr _]. lia.
Qed.

(** ** A partition *)

Lemma disp_kp_inactive_ok N me p : ∀ fuel s L dp m, disp_inv s L → sys_wf N s → (∀ pri x t, x ∈ L (DKp p) pri → d_threads s !! x = Some t → t_cpupart t ≠ p) → d_cpus s !! me = Some m → get_disp s (DKp p) = Ok dp → disp_nrunnable dp < Z.of_nat fuel →
  ∃ s' L', disp_kp_inactive fuel me p s = Ok s' ∧ disp_inv s' L' ∧ frame s s' ∧ (∀ pri, L' (DKp p) pri = []) ∧ (∀ d' pri x, d' ≠ DKp p → x ∈ L d' pri → x ∈ L' d' pri) ∧ ∀ pri x, x ∈ L (DKp p) pri → ∃ d', d' ≠ DKp p ∧ x ∈ L' d' pri.
Proof.
  induction fuel as [|fuel IH]; intros s L dp m H W Ha Em Ed Hf; pose proof (di_q _ _ H _ _ Ed) as Hdq; pose proof (dk_cnt _ _ Hdq) as Hcnt; pose proof (total_ge_0 (Z.to_nat (disp_npri dp)) (L (DKp p))) as Hnn; [lia|].
  cbn [disp_kp_inactive]. rewrite Ed. cbn [mbind res_bind]. destruct (Z.eqb_spec (disp_maxrunpri dp) (-1)) as [E|E].
  { assert (∀ pri, L (DKp p) pri = []) as Hnil. { intros pri. destruct (decide (-1 < pri)); [apply (dk_above _ _ Hdq); lia|apply (dk_out _ _ Hdq); lia]. } exists s, L. split_and!; try done. intros pri x Hx. rewrite Hnil in Hx. by apply elem_of_nil in Hx. }
  pose proof (dk_maxlow _ _ Hdq) as Hml. destruct (max_head s L _ dp H Ed ltac:(lia)) as (tp & rest & t & EL0 & Et & _). set (pri := disp_maxrunpri dp) in *. pose proof (dk_max_range _ _ Hdq) as Hmr. rewrite (dk_get _ _ pri Hdq) by lia. cbn [mbind res_bind dq_first]. rewrite EL0. change (deref (head (tp :: rest))) with (Ok tp). cbn [mbind res_bind].
  assert (tp ∈ L (DKp p) pri) as Hin by (rewrite EL0; left). destruct (di_mem _ _ H _ _ _ Hin) as (t' & Et' & (_ & _ & _ & _ & _ & Hb)). assert (t' = t) as -> by congruence. specialize (Hb p eq_refl). pose proof (Ha pri tp t Hin Et) as Hpart.
  destruct (move_thread N s L (DKp p) pri tp false (setkpdq me false tp) H W Hin) as (s1 & s2 & A & B & L' & -> & E2 & EL & Hmv).
  { intros s1 L1 t' H1 W1 F1 Et1' Et1 Hld Hoff Hst Ep Hpos. assert (t' = t) as -> by congruence. pose proof (fr_c _ _ F1 me) as Fc. rewrite Em in Fc. destruct (d_cpus s1 !! me) as [m1|] eqn:Em1; [|done].
    destruct (setkpdq_ok N s1 L1 me false tp (dequeued t) m1 H1 W1 Et1 Hoff Hld Hb) as (s2 & E2 & F2 & H2 & O2); [by change (DISP_PRIO (dequeued t)) with (DISP_PRIO t); rewrite Ep|done|]. change (DISP_PRIO (dequeued t)) with (DISP_PRIO t) in H2. rewrite Ep in H2. exists s2, (DKp (t_cpupart t)). split_and!; try done. congruence. }
  cbn [mbind res_bind]. rewrite E2. cbn [mbind res_bind]. destruct Hmv as (H2 & F2 & HL & Hoth & (d2 & Hd2 & Htp) & Hdp). destruct (Hdp dp Ed) as (dp2 & Ed2 & En & _). pose proof (fr_c _ _ F2 me) as Fc. rewrite Em in Fc. destruct (d_cpus s2 !! me) as [m2|] eqn:Em2; [|done].
  assert (∀ p0 x, x ∈ L' (DKp p) p0 → x ∈ L (DKp p) p0) as Hsub. { intros p0 x. rewrite HL. unfold set_level. case_decide as E0; [|done]. subst p0. rewrite EL. intros [Hx|Hx]%elem_of_app; apply elem_of_app; [by left|right; by right]. }
  destruct (IH s2 L' dp2 m2 H2 (sys_wf_frame _ _ _ F2 W)) as (s' & L2 & -> & H' & F' & Hnil & Hoth' & Hgone); [|done|done|lia|].
  - intros p0 x t2 Hx Et2. destruct (frame_prio _ _ _ _ F2 Et2) as (t0 & Et0 & Es & _). injection Es as _ _ _ _ Ep2 _. rewrite Ep2. apply (Ha p0 x t0); [by apply Hsub|done].
  - exists s', L2. split_and!; [done|done|by etrans|done|intros d' p0 x Hd Hx; by apply Hoth', Hoth|]. intros p0 x Hx. destruct (decide (x ∈ L' (DKp p) p0)) as [Hx'|Hx']; [by apply Hgone|]. rewrite HL in Hx'. unfold set_level in Hx'. case_decide as E0; [|done]. subst p0. rewrite EL in Hx.
    assert (x = tp) as ->. { apply elem_of_app in Hx as [Hx|[->|Hx]%elem_of_cons]; [|done|]; exfalso; apply Hx', elem_of_app; [by left|by right]. } exists d2. split; [done|by apply Hoth'].
Qed.

(** ** The storage of a queue *)

Lemma bit_zeros n j : bit (replicate n 0) j = false.
Proof. unfold bit. destruct (replicate n 0 !! Z.to_nat (j / 32)) as [w|] eqn:E; simpl; [|apply Z.bits_0]. apply lookup_replicate in E as [-> _]. apply Z.bits_0. Qed.

Lemma zeros_ok n : bitmap_ok (replicate n 0).
Proof. apply Forall_replicate. unfold is_u32, W32. lia. Qed.

Lemma new_disp_ok n : 0 ≤ n → dq_ok (new_disp n) (λ _, []).
Proof.
  intros Hn. constructor; cbn [new_disp disp_npri disp_q disp_qactmap disp_maxrunpri disp_max_unbound_pri disp_nrunnable]; try done; try lia.
  - by rewrite length_replicate.
  - apply zeros_ok.
  - unfold BT_NBIPUL. by rewrite length_replicate.
  - intros pri Hp. apply lookup_replicate. split; [done|lia].
  - intros j _. by rewrite bit_zeros.
  - by rewrite total_empty.
Qed.

(** More priorities keep the threads. *)
Lemma disp_dq_assign_ok n dp L : dq_ok dp L → disp_npri dp ≤ n → dq_ok (disp_dq_assign n dp) L.
Proof.
  intros H Hn. pose proof (dk_npri _ _ H) as H0. pose proof (dk_len _ _ H) as Hlen. pose proof (dk_maplen _ _ H) as Hmap. assert (disp_npri dp / 32 ≤ n / 32) as Hdiv by (apply Z.div_le_mono; lia). assert (0 ≤ disp_npri dp / 32) by (apply Z.div_pos; lia).
  unfold disp_dq_assign. cbv zeta. unfold BT_NBIPUL. rewrite !take_ge by lia. rewrite !drop_replicate. destruct H as [_ _ H3 _ H5 H6 H7 H8 H9 H10 H11 H12].
  constructor; cbn [disp_npri disp_q disp_qactmap disp_maxrunpri disp_max_unbound_pri disp_nrunnable]; try done; try lia.
  - rewrite length_app, length_replicate. lia.
  - apply list.Forall_app. split; [done|apply zeros_ok].
  - rewrite length_app, length_replicate. lia.
  - intros pri Hp. destruct (decide (pri < disp_npri dp)) as [Hlt|Hge]; [rewrite lookup_app_l by lia; apply H5; lia|]. rewrite lookup_app_r by lia. rewrite (H6 pri) by lia. apply lookup_replicate. split; [done|lia].
  - intros pri Hp. apply H6. lia.
  - intros j Hj. destruct (decide (in_map (disp_qactmap dp) j)) as [Hin|Hin].
    + rewrite <- H7 by done. unfold bit. rewrite lookup_app_l; [done|]. unfold in_map in Hin. pose proof (Z.div_lt_upper_bound j 32 (Z.of_nat (length (disp_qactmap dp)))). lia.
    + unfold in_map in Hin, Hj. pose proof (Z.div_mod (disp_npri dp) 32 ltac:(lia)). pose proof (Z.mod_pos_bound (disp_npri dp) 32 ltac:(lia)). rewrite (H6 j) by lia. unfold bit. rewrite lookup_app_r by (pose proof (Z.div_le_lower_bound j 32 (Z.of_nat (length (disp_qactmap dp)))); lia).
      destruct (replicate _ 0 !! _) as [w|] eqn:E; simpl; [apply lookup_replicate in E as [-> _]|]; apply Z.bits_0.
  - rewrite H11. assert (∀ k m : nat, (k ≤ m)%nat → (∀ p, Z.of_nat k ≤ p → L p = []) → total k L = total m L) as Ht; [|apply Ht; [lia|intros p Hp; apply H6; lia]].
    intros k m Hkm He. induction Hkm as [|m Hkm IH]; [done|]. cbn [total]. rewrite <- IH, (He (Z.of_nat m)) by lia. simpl. lia.
Qed.

(** ** Steps *)

(** One step: a section under the lock of a queue, the marks on a CPU, or what others do. *)
Inductive dop : Type :=
  | OBack (me cp tp : Z)
  | OFront (me cp tp : Z)
  | OKp (front : bool) (tp : Z)
  | OResched (me cp tpri cpupri : Z)
  | OLevel (cp pri : Z)
  | ODeq (tp : Z)
  | OTake (me : Z)
  | OBest (me : Z) (d : dispref)
  | OIdle (me : Z)
  | ORatify (me : Z)
  | OPutBack (me : Z)
  | OSurrender (me tp : Z) (user : bool)
  | OThread (tp : Z) (t : kthread)
  | OOther (s' : dsys).

Definition run_op (op : dop) (s : dsys) : res dsys :=
  match op with
  | OBack me cp tp => tpri ← thread_prio s tp; back_section me cp tp tpri s
  | OFront me cp tp => tpri ← thread_prio s tp; front_section me cp tp tpri s
  | OKp front tp => tpri ← thread_prio s tp; kp_section front tp tpri s
  | OResched me cp tpri cpupri => cpu_resched me cp tpri cpupri s
  | OLevel cp pri => upd_cpu cp (set_chosen_level pri) s
  | ODeq tp => '(_, s) ← dispdeq tp s; Ok s
  | OTake me => '(_, s) ← take_section me s; Ok s
  | OBest me d => '(_, s) ← disp_getbest me d s; Ok s
  | OIdle me => '(_, s) ← run_idle me s; Ok s
  | ORatify me => upd_cpu me (λ c, set_runrun 0 (set_kprunrun 0 (set_chosen_level (-1) c))) s
  | OPutBack me => upd_cpu me (λ c, set_dispthread (cpu_thread c) c) s
  | OSurrender me tp user => cpu_surrender me tp user s
  | OThread tp t => Ok (with_threads (<[tp := t]> (d_threads s)) s)
  | OOther s' => Ok s'
  end.

(** A thread that is to be put on a queue: it is held, and in memory. *)
Definition to_queue (s : dsys) (tp : Z) : Prop := ∃ t, d_threads s !! tp = Some t ∧ off_queue t ∧ loaded t = true ∧ 0 ≤ DISP_PRIO t.

(** What the fields of a thread lead to. *)
Definition thread_wf (N : Z) (s : dsys) (t : kthread) : Prop :=
  -1 ≤ DISP_PRIO t < N ∧ is_Some (d_cpus s !! t_cpu t) ∧ is_Some (d_parts s !! t_cpupart t) ∧ (∀ c, t_bound_cpu t = Some c → is_Some (d_cpus s !! c)) ∧ (t_bound_cpu t = None → on_ring s (t_cpu t)).

(** When a step may be taken: what its callers see to. *)
Definition allowed (N : Z) (op : dop) (s : dsys) : Prop :=
  match op with
  | OBack _ cp tp | OFront _ cp tp => to_queue s tp ∧ is_Some (d_cpus s !! cp)
  | OKp _ tp => to_queue s tp ∧ ∀ t, d_threads s !! tp = Some t → t_bound_cpu t = None
  | OResched _ cp _ _ | OLevel cp _ => is_Some (d_cpus s !! cp)
  | ODeq tp => ∃ t, d_threads s !! tp = Some t ∧ (t_state t = TS_RUN → loaded t = true → ¬ off_queue t)
  | OTake me => ∃ x, d_cpus s !! me = Some x ∧ 0 ≤ disp_maxrunpri (cpu_disp x)
  | OBest me d => is_Some (d_cpus s !! me) ∧ ∃ dp, get_disp s d = Ok dp
  | OIdle me => ∃ x, d_cpus s !! me = Some x ∧ ∀ t, d_threads s !! cpu_idle_thread x = Some t → off_queue t
  | ORatify me | OPutBack me => is_Some (d_cpus s !! me)
  | OSurrender _ tp _ => ∃ t, d_threads s !! tp = Some t ∧ (t_state t = TS_ONPROC → ∃ c, t_disp_queue t = DCpu c ∧ is_Some (d_cpus s !! c))
  | OThread tp t' => (∃ t, d_threads s !! tp = Some t ∧ off_queue t) ∧ off_queue t' ∧ t_link t' = None ∧ thread_wf N s t'
  | OOther s' => d_threads s' = d_threads s ∧ (∀ d, get_disp s' d = get_disp s d) ∧ sys_wf N s'
  end.

(** Before any thread is put on a queue. *)
Definition fresh (N : Z) (s : dsys) : Prop :=
  0 ≤ N ∧ sys_wf N s ∧ (∀ d dp, get_disp s d = Ok dp → dp = new_disp N) ∧ ∀ tp t, d_threads s !! tp = Some t → off_queue t ∧ t_link t = None.

Inductive reach (N : Z) : dsys → Prop :=
  | reach_0 s : fresh N s → reach N s
  | reach_S s op s' : reach N s → allowed N op s → run_op op s = Ok s' → reach N s'.

(** ** Each step *)

Lemma fresh_inv N s : fresh N s → disp_inv s (λ _ _, []).
Proof.
  intros (HN & W & Hq & Ht). constructor; try done.
  - intros d dp Ed. rewrite (Hq d dp Ed). by apply new_disp_ok.
  - intros d pri. constructor.
  - intros d pri tp Hx. by apply elem_of_nil in Hx.
  - intros tp t d Et Hl. destruct (Ht tp t Et) as [Hoff _]. by apply Hoff in Hl.
  - intros tp t Et _. by apply (Ht tp t).
  - intros d dp pri tp t _ Hx. by apply elem_of_nil in Hx.
Qed.

Lemma sys_wf_thread N s tp t' : sys_wf N s → is_Some (d_threads s !! tp) → thread_wf N s t' → sys_wf N (with_threads (<[tp := t']> (d_threads s)) s).
Proof.
  intros W Hs Ht. assert (∀ x, is_Some (d_threads s !! x) → is_Some (<[tp := t']> (d_threads s) !! x)) as Hdom by (intros x Hx; destruct (decide (x = tp)) as [->|Hne]; [rewrite lookup_insert_eq; by eexists|by rewrite lookup_insert_ne]).
  assert (∀ c, on_ring s c → on_ring (with_threads (<[tp := t']> (d_threads s)) s) c) as Hr by (intros c (l & Hp & Hn); exists l; split; [by apply (cpath_ext s)|done]).
  constructor; cbn [d_cpus d_parts d_threads with_threads].
  - intros c x Ec. destruct (wf_c _ _ W c x Ec) as (W1 & W2 & W3 & W4 & W5). split_and!; auto.
  - intros p x Ep. destruct (wf_p _ _ W p x Ep). auto.
  - intros x t E. destruct (decide (x = tp)) as [->|Hne]; [rewrite lookup_insert_eq in E; injection E as <-; destruct Ht as (T1 & T2 & T3 & T4 & T5); split_and!; auto; lia|]. rewrite lookup_insert_ne in E by done. destruct (wf_t _ _ W x t E) as (T1 & T2 & T3 & T4 & T5). split_and!; auto; lia.
Qed.

Lemma cpu_surrender_ok N s me tp user t : sys_wf N s → d_threads s !! tp = Some t → (t_state t = TS_ONPROC → ∃ c, t_disp_queue t = DCpu c ∧ is_Some (d_cpus s !! c)) → ∃ s', cpu_surrender me tp user s = Ok s' ∧ quiet s s'.
Proof.
  intros W Et Hq. unfold cpu_surrender. rewrite (get_thread_ok _ _ _ Et). cbn [mbind res_bind]. destruct (Z.eqb_spec (t_state t) TS_ONPROC) as [E|E]; cbn [negb]; [|by exists s]. destruct (Hq E) as (c & -> & [x Ex]). rewrite (get_cpu_ok _ _ _ Ex). cbn [mbind res_bind].
  destruct (wf_c _ _ W c x Ex) as (_ & [k Ek] & _). rewrite (get_part_ok _ _ _ Ek). cbn [mbind res_bind]. rewrite (upd_cpu_ok _ _ _ _ Ex). cbn [mbind res_bind]. set (s1 := with_cpus _ s). assert (quiet s s1) as Q1 by (by apply quiet_cpu; [..|left]).
  assert (d_cpus s1 !! c = Some (set_runrun 1 x)) as Ex1 by apply lookup_insert_eq. set (b := (_ <=? _) && _).
  assert (∃ s2, (if b then upd_cpu c (set_kprunrun 1) s1 else Ok s1) = Ok s2 ∧ quiet s1 s2) as (s2 & -> & Q2). { destruct b; [|by exists s1]. rewrite (upd_cpu_ok _ _ _ _ Ex1). eexists. split; [done|]. by apply quiet_cpu; [..|left]. }
  cbn [mbind res_bind]. destruct user; cbn [negb]; [exists s2; split; [done|by etrans]|]. destruct (aston_ok s2 tp) as (s3 & -> & Q3 & _); [rewrite (qu_t _ _ Q2), (qu_t _ _ Q1); by eexists|]. cbn [mbind res_bind]. eexists. split; [done|]. do 3 (etrans; [eassumption|]). apply quiet_poke.
Qed.

Lemma quiet_step N s s' L : disp_inv s L → sys_wf N s → quiet s s' → ∃ L', disp_inv s' L' ∧ sys_wf N s'.
Proof. intros H W Q. exists L. split; [by apply (inv_quiet s)|]. apply (sys_wf_frame N s); [apply Q|done]. Qed.

(** A step that may be taken goes through and keeps the queues. *)
Lemma disp_step_ok N op s L : disp_inv s L → sys_wf N s → allowed N op s → ∃ s', run_op op s = Ok s' ∧ ∃ L', disp_inv s' L' ∧ sys_wf N s'.
Proof.
  intros H W Ha. pose proof (λ s1, sys_wf_frame N s s1) as Hwf. destruct op as [me cp tp|me cp tp|front tp|me cp tpri cpupri|cp pri|tp|me|me d|me|me|me|me tp user|tp t'|s']; cbn [run_op allowed] in *.
  - destruct Ha as [(t & Et & Hoff & Hld & Hpos) [x Ex]]. rewrite (thread_prio_ok _ _ _ Et). cbn [mbind res_bind]. destruct (back_section_ok N me cp tp t s L x H W Et Hoff Hld Ex Hpos) as (s' & -> & H' & F & _). exists s'. split; [done|]. eexists. split; [done|by apply Hwf].
  - destruct Ha as [(t & Et & Hoff & Hld & Hpos) [x Ex]]. rewrite (thread_prio_ok _ _ _ Et). cbn [mbind res_bind]. destruct (front_section_ok N me cp tp t s L x H W Et Hoff Hld Ex Hpos) as (s' & -> & H' & F & _). exists s'. split; [done|]. eexists. split; [done|by apply Hwf].
  - destruct Ha as [(t & Et & Hoff & Hld & Hpos) Hb]. rewrite (thread_prio_ok _ _ _ Et). cbn [mbind res_bind]. destruct (kp_section_ok N front tp t s L H W Et Hoff Hld (Hb t Et) Hpos) as (s' & -> & H' & F & _). exists s'. split; [done|]. eexists. split; [done|by apply Hwf].
  - destruct Ha as [x Ex]. destruct (wf_c _ _ W cp x Ex) as (_ & _ & _ & _ & Hd). destruct (cpu_resched_ok me cp x tpri cpupri s Ex Hd) as (s' & -> & Q). exists s'. split; [done|by apply (quiet_step N s s' L)].
  - destruct Ha as [x Ex]. rewrite (upd_cpu_ok _ _ _ _ Ex). eexists. split; [done|]. apply (quiet_step N s _ L); [done|done|]. by apply quiet_cpu; [..|left].
  - destruct Ha as (t & Et & Hq). destruct (decide (t_state t = TS_RUN ∧ loaded t = true)) as [[Hst Hld]|Hn].
    + assert (∃ d, t_lockp t = LDisp d) as [d Hd]. { destruct (t_lockp t) as [| |d| |] eqn:Elk; try by exists d. all: exfalso; apply (Hq Hst Hld); intros d0; by rewrite Elk. }
      destruct (dispdeq_ok N s L d _ tp H W (di_back _ _ H tp t d Et Hd)) as (s' & A & B & t0 & _ & _ & -> & H' & F & _). cbn [mbind res_bind]. exists s'. split; [done|]. eexists. split; [done|by apply Hwf].
    + exists s. split; [|by exists L]. unfold dispdeq. rewrite (get_thread_ok _ _ _ Et). cbn [mbind res_bind]. destruct (Z.eqb_spec (t_state t) TS_RUN) as [E|E]; cbn [negb]; [|done]. destruct (loaded t) eqn:El; [exfalso; by apply Hn|done].
  - destruct Ha as (x & Ex & Hm). destruct (take_section_ok N s L me x H W Ex Hm) as (s' & tp & rest & t & -> & _ & _ & H' & F & _). cbn [mbind res_bind]. exists s'. split; [done|]. eexists. split; [done|by apply Hwf].
  - destruct Ha as [[x Ex] [dp Ed]]. destruct (disp_getbest_ok N s L d dp me x H W Ed Ex) as ([tp|] & s' & -> & F & Hr); cbn [mbind res_bind]; exists s'; (split; [done|]).
    + destruct Hr as (A & B & t & _ & _ & _ & _ & _ & H' & _). eexists. split; [done|by apply Hwf].
    + destruct Hr as (ub & H' & _). eexists. split; [done|by apply Hwf].
  - destruct Ha as (x & Ex & Hidle). destruct (run_idle_ok N s L me x H W Ex Hidle) as (s' & -> & H' & F & _). cbn [mbind res_bind]. exists s'. split; [done|]. exists L. split; [done|by apply Hwf].
  - destruct Ha as [x Ex]. rewrite (upd_cpu_ok _ _ _ _ Ex). eexists. split; [done|]. apply (quiet_step N s _ L); [done|done|]. by apply (quiet_cpu s me x (λ c, set_runrun 0 (set_kprunrun 0 (set_chosen_level (-1) c)))); [..|left].
  - destruct Ha as [x Ex]. rewrite (upd_cpu_ok _ _ _ _ Ex). eexists. split; [done|]. apply (quiet_step N s _ L); [done|done|]. apply (quiet_cpu s me x (λ c, set_dispthread (cpu_thread c) c)); try done. right. by apply (wf_c _ _ W me x Ex).
  - destruct Ha as (t & Et & Hq). destruct (cpu_surrender_ok N s me tp user t W Et Hq) as (s' & -> & Q). exists s'. split; [done|by apply (quiet_step N s s' L)].
  - destruct Ha as ((t & Et & Hoff) & Hoff' & Hl & Hwt). eexists. split; [done|]. exists L. split; [by apply (inv_off s L tp t)|]. apply sys_wf_thread; [done|by eexists|done].
  - destruct Ha as (Et & Hd & W'). exists s'. split; [done|]. exists L. split; [|done]. destruct H as [H1 H2 H3 H4 H5 H6 H7 H8]. constructor; rewrite ?Et; try done; [intros d dp; rewrite Hd; apply H1|intros d Hn; apply H2; intros dp E; apply (Hn dp); by rewrite Hd|intros d dp pri tp t; rewrite Hd; apply H8].
Qed.

Lemma reach_inv N s : reach N s → sys_wf N s ∧ ∃ L, disp_inv s L.
Proof.
  induction 1 as [s Hf|s op s' Hr [W [L H]] Ha E]; [split; [by apply Hf|exists (λ _ _, []); by apply (fresh_inv N)]|].
  destruct (disp_step_ok N op s L H W Ha) as (s2 & E2 & L' & H' & W'). assert (s2 = s') as -> by congruence. split; [done|by exists L'].
Qed.
