(* ===== verification/DispProps.v ===== *)
(** * Properties of the dispatcher

    The theorems on the steps, on [disp], on [setbackdq] and [setfrontdq] and on a CPU that goes
    off line, each at a small system.  At the end two runs of [cpu_bind_thread] on that system:
    it changes [t_bound_cpu] of a thread that stays where it is, and the queues are left wrong. *)

From S2P Require Import Prelude Bitmap Disp DispSys DispOps DispBest DispPlace DispRun DispThms.

(** ** A system of three CPUs *)

(** CPUs 0 and 1 are a partition; CPU 2 is off line.  10, 11 and 12 are the idle threads. *)
Definition ex_idle (c : Z) : kthread := MkKt None (-1) 0 TS_ONPROC (LCpuThread c) TS_LOAD (Some c) c 0 (DCpu c) 0.
Definition ex_thread (pri : Z) (bound : option Z) (cpu : Z) : kthread := MkKt None pri 0 TS_SLEEP LOther TS_LOAD bound cpu 0 (DCpu cpu) 0.
Definition ex_cpu (flags c next : Z) : cpu := MkCpu flags (10 + c) (10 + c) 0 next next (new_disp 40) 0 0 (-1) (10 + c).

Definition ex_disp : dsys :=
  MkDs (<[10 := ex_idle 0]> (<[11 := ex_idle 1]> (<[12 := ex_idle 2]> (<[20 := ex_thread 5 None 0]> (<[21 := ex_thread 35 None 0]> (<[22 := ex_thread 12 (Some 2) 2]> (<[23 := ex_thread 7 None 0]> ∅)))))))
    (<[0 := ex_cpu 0 0 1]> (<[1 := ex_cpu 0 1 0]> (<[2 := ex_cpu CPU_OFFLINE 2 0]> ∅))) (<[0 := MkPart 0 0 (new_disp 40)]> ∅) 30 20 3 0 10 25 0 0 [] ∅.

Ltac each_key H := cbn [d_cpus d_parts d_threads ex_disp] in H; repeat (apply lookup_insert_Some in H as [[<- <-]|[_ H]]); try by rewrite lookup_empty in H.

Lemma ex_ring : ring_of ex_disp 0 [1].
Proof. split; [by split_and!|]. by apply NoDup_ListNoDup; repeat constructor; rewrite ?elem_of_cons, ?elem_of_nil; simpl; lia. Qed.

Lemma ex_fresh : fresh 40 ex_disp.
Proof.
  split; [done|]. split; [|split].
  - constructor.
    + intros c x E. each_key E; split_and!; try done; by eexists.
    + intros p x E. each_key E. split; [done|]. exists [1]. apply ex_ring.
    + intros tp t E. each_key E; (split; [done|]; split; [by eexists|]; split; [by eexists|]; split; [intros c [= <-]; by eexists|]); try done; intros _; exists [1]; apply ex_ring.
  - intros [c|p] dp E; [apply get_disp_cpu in E as (x & E & <-)|apply get_disp_kp in E as (x & E & <-)]; by each_key E.
  - intros tp t E. each_key E; by split.
Qed.

(** ** The theorems *)

(** C5: In every state that the sections of the dispatcher reach from empty queues, in whatever
    order the CPUs take them and whatever else happens to threads that are on no queue, each
    thread whose lock is that of a queue is on the list of that queue and of its priority once
    and on no other, and every other thread is on none; the heads, ends and links, counts,
    bitmap, maximum and number of threads of every queue are those of its lists, no unbound
    thread is above the priority kept for unbound threads, and no section that its caller may
    take fails. *)
Theorem disp_sections_safe N s : reach N s →
  sys_wf N s ∧ (∃ L, disp_inv s L) ∧ ∀ op, allowed N op s → ∃ s', run_op op s = Ok s'.
Proof.
  intros Hr. destruct (reach_inv N s Hr) as [W [L H]]. split; [done|]. split; [by exists L|]. intros op Ha. destruct (disp_step_ok N op s L H W Ha) as (s' & E & _). by exists s'.
Qed.

Lemma disp_sections_safe_witness : ∃ s, reach 40 s ∧ (∃ x, d_cpus s !! 1 = Some x ∧ cpu_dispthread x = 23 ∧ disp_maxrunpri (cpu_disp x) = 5) ∧
  sys_wf 40 s ∧ (∃ L, disp_inv s L) ∧ ∀ op, allowed 40 op s → ∃ s', run_op op s = Ok s'.
Proof.
  assert (∃ s, reach 40 s ∧ ∃ x, d_cpus s !! 1 = Some x ∧ cpu_dispthread x = 23 ∧ disp_maxrunpri (cpu_disp x) = 5) as (s & Hr & Hx); [|exists s; split; [exact Hr|]; split; [exact Hx|apply (disp_sections_safe 40 s Hr)]].
  eexists. split.
  - eapply (reach_S 40 _ (OTake 1)); [eapply (reach_S 40 _ (OBack 0 1 20)); [eapply (reach_S 40 _ (OBack 0 1 23)); [apply reach_0, ex_fresh| |]| |]| |]; try (vm_compute; reflexivity).
    + split; [eexists; by split_and!|by eexists].
    + split; [eexists; by split_and!|by eexists].
    + eexists. split; [vm_compute; reflexivity|]. vm_compute. congruence.
  - eexists. split; [vm_compute; reflexivity|]. vm_compute. split; reflexivity.
Defined.

(** C6: On a CPU that no other disturbs, and but for one case off line, [disp] returns at its
    first turn, and what it runs is the best choice.  On line: the first thread of the highest
    priority of the kpreempt queue if that is not below the CPU's own, else the first thread of
    the highest priority of its own queue; if both are empty, of the other CPUs of the partition
    with more than one thread the one that keeps the highest priority for unbound threads gives
    its first unbound thread of that priority; and the idle thread if there is no such CPU, or
    that one has only bound threads there.  Off line: the first thread of the highest priority of
    its own queue, or the idle thread if that is empty.  The case left out is a CPU off line whose
    own threads are all below the kpreempt queue: [disp] puts its thread back and looks again
    ([disp_offline_repeats]).  The thread is off its list, the others keep their order, it is
    marked as running, and the requests to reschedule the CPU are cleared. *)
Theorem disp_best N s L me x k l fuel : disp_inv s L → sys_wf N s → d_cpus s !! me = Some x → d_parts s !! cpu_part x = Some k → (¬ offline x → ring_of s me l) →
  (∀ t, d_threads s !! cpu_idle_thread x = Some t → off_queue t) → (offline x → disp_maxrunpri (cpu_disp x) = -1 ∨ disp_maxrunpri (cp_kp_queue k) ≤ disp_maxrunpri (cpu_disp x)) →
  ∃ tp s' L', disp (S fuel) me s = Ok (tp, s') ∧ choice s L me x k l tp L' ∧ disp_inv s' L' ∧ frame s s' ∧ now_runs s' me tp.
Proof. intros H W Ex Ek Hr Hi Ho. by apply (disp_ok N s L me x k l H W Ex Ek Hr Hi fuel Ho). Qed.

Lemma disp_best_witness : ∃ s L x k, disp_inv s L ∧ d_cpus s !! 1 = Some x ∧ disp_maxrunpri (cpu_disp x) = 7 ∧
  ∃ tp s' L', disp 1 1 s = Ok (tp, s') ∧ choice s L 1 x k [0] tp L' ∧ disp_inv s' L' ∧ frame s s' ∧ now_runs s' 1 tp.
Proof.
  pose proof ex_fresh as [_ [W _]]. destruct (back_section_ok 40 0 1 23 (ex_thread 7 None 0) ex_disp (λ _ _, []) (ex_cpu 0 1 0) (fresh_inv 40 _ ex_fresh) W eq_refl ltac:(by intros d) eq_refl eq_refl ltac:(by vm_compute)) as (s & E & H & F & _).
  pose proof (sys_wf_frame _ _ _ F W) as W'. vm_compute in E. injection E as E. exists s. eexists. assert (∃ x, d_cpus s !! 1 = Some x ∧ disp_maxrunpri (cpu_disp x) = 7 ∧ cpu_part x = 0 ∧ cpu_idle_thread x = 11) as (x & Ex & Em & Ep & Ei) by (rewrite <- E; eexists; by split_and!).
  assert (∃ k, d_parts s !! 0 = Some k) as [k Ek] by (rewrite <- E; by eexists). exists x, k. split; [exact H|]. split; [exact Ex|]. split; [exact Em|]. apply (disp_best 40 s _ 1 x k [0] 0 H W' Ex).
  - by rewrite Ep.
  - intros _. split; [rewrite <- E; by split_and!|]. constructor; [by intros ?%list_elem_of_singleton|apply NoDup_singleton].
  - rewrite Ei, <- E. by intros t [= <-].
  - intros Hoff. exfalso. apply Hoff. rewrite <- E in Ex. vm_compute in Ex. by injection Ex as <-.
Defined.

(** One turn of [disp] on a CPU off line, up to where it looks again. *)
Definition offline_turn (me kpq : Z) (s : dsys) : res dsys :=
  '(tp, s) ← take_section me s; '(r, s) ← disp_ratify me tp kpq s;
  match r with Some _ => Fault | None => Ok s end.

Lemma offline_turns me s c dp : get_cpu s me = Ok c → get_disp s (DCpu me) = Ok dp → disp_maxrunpri dp ≠ -1 → offline c →
  offline_turn me (cpu_part c) s = Ok s → is_Some (d_parts s !! cpu_part c) → ∀ fuel, disp fuel me s = Fault.
Proof.
  intros Ec Ed Hm Hoff Ht [k Ek] fuel. induction fuel as [|fuel IH]; [done|]. cbn [disp]. rewrite Ec. cbn [mbind res_bind].
  assert (kp_first (S fuel) me (cpu_part c) s = Ok (None, s)) as ->.
  { cbn [kp_first]. rewrite (get_part_ok _ _ _ Ek). cbn [mbind res_bind]. rewrite Ec. cbn [mbind res_bind]. by rewrite (proj2 (Z.eqb_neq _ 0) Hoff), andb_false_r. }
  cbn [mbind res_bind]. rewrite Ed. cbn [mbind res_bind]. rewrite (proj2 (Z.eqb_neq _ _) Hm).
  unfold offline_turn in Ht. destruct (take_section me s) as [[tp s1]| |]; try done. cbn [mbind res_bind] in *.
  destruct (disp_ratify me tp (cpu_part c) s1) as [[[r|] s2]| |]; try done. cbn [mbind res_bind] in *. by injection Ht as ->.
Qed.

(** CPU 2 is off line and has the thread 22, of priority 12; 21, of priority 35, waits in the
    kpreempt queue, which CPU 2 does not look at: it puts 22 back for it, at every turn. *)
Lemma disp_offline_repeats : ∃ s, (s ← setbackdq 0 21 ex_disp; s ← setbackdq 0 22 s; offline_turn 2 0 s) = Ok s ∧ ∀ fuel, disp fuel 2 s = Fault.
Proof.
  destruct (s ← setbackdq 0 21 ex_disp; s ← setbackdq 0 22 s; offline_turn 2 0 s) as [s| |] eqn:E; [|by vm_compute in E..].
  exists s. split; [done|]. vm_compute in E. injection E as <-. eapply offline_turns; [reflexivity|reflexivity|by vm_compute|by vm_compute|vm_compute; reflexivity|by eexists].
Qed.

(** C19: [setbackdq] puts a loaded thread at the end of the list of its priority, [setfrontdq] at
    its head, on exactly one queue: that of the CPU it is bound to, or, unbound, the kpreempt
    queue of its partition at a priority that preempts the kernel, and else that of a CPU that
    its last CPU or its partition leads to (of its only CPU in a system of one).  A thread that
    is swapped out is put on none.  Nothing else about threads, CPUs and partitions that these
    routines may not change is changed, and they do not fail. *)
Theorem setrun_places N s L (front : bool) me tp t m : disp_inv s L → sys_wf N s → d_threads s !! tp = Some t → off_queue t → 0 ≤ DISP_PRIO t → d_cpus s !! me = Some m → loaded t = true ∨ t_state t = TS_SLEEP ∨ t_state t = TS_RUN →
  ∃ s', (if front then setfrontdq me tp s else setbackdq me tp s) = Ok s' ∧ frame s s' ∧
    if loaded t then ∃ d, target s t d ∧ disp_inv s' (set_queue d (set_level (DISP_PRIO t) (if front then tp :: L d (DISP_PRIO t) else L d (DISP_PRIO t) ++ [tp]) (L d)) L) ∧ ∀ d', d' ≠ d → get_disp s' d' = get_disp s d'
    else disp_inv s' L.
Proof. intros H W Et Hoff Hpos Em Hst. destruct front; [by apply (setfrontdq_ok N s L me tp t m)|by apply (setbackdq_ok N s L me tp t m)]. Qed.

Lemma setrun_places_witness : (∃ s', setbackdq 1 21 ex_disp = Ok s' ∧ (disp_maxrunpri ∘ cp_kp_queue) <$> d_parts s' !! 0 = Some 35) ∧
  ∃ s', setbackdq 1 21 ex_disp = Ok s' ∧ frame ex_disp s' ∧ ∃ d, target ex_disp (ex_thread 35 None 0) d ∧ disp_inv s' (set_queue d (set_level 35 [21] (λ _, [])) (λ _ _, [])) ∧ ∀ d', d' ≠ d → get_disp s' d' = get_disp ex_disp d'.
Proof.
  split; [eexists; split; vm_compute; reflexivity|]. pose proof ex_fresh as [_ [W _]].
  apply (setrun_places 40 ex_disp (λ _ _, []) false 1 21 (ex_thread 35 None 0) (ex_cpu 0 1 0) (fresh_inv 40 _ ex_fresh) W eq_refl ltac:(by intros d) ltac:(by vm_compute) eq_refl (or_introl eq_refl)).
Defined.

(** C20: A CPU that goes off line, once no unbound thread is led to it, gives its unbound threads
    away: [disp_cpu_inactive] ends after at most as many turns as the queue has threads and
    priorities, the bound threads stay on the queue in their order, each unbound thread is on
    another queue at its priority, and no queue has lost a thread. *)
Theorem disp_cpu_inactive_empties N s L me cp dp m fuel : disp_inv s L → sys_wf N s → ncpus s ≠ 1 → avoided s cp → d_cpus s !! me = Some m → get_disp s (DCpu cp) = Ok dp → disp_nrunnable dp + disp_max_unbound_pri dp + 1 < Z.of_nat fuel →
  ∃ s' L', disp_cpu_inactive fuel me cp s = Ok s' ∧ disp_inv s' L' ∧ frame s s' ∧ (∀ p, L' (DCpu cp) p = filter (bound s) (L (DCpu cp) p)) ∧
    (∀ d p x, d ≠ DCpu cp → x ∈ L d p → x ∈ L' d p) ∧ ∀ p x, x ∈ L (DCpu cp) p → ¬ bound s x → ∃ d, d ≠ DCpu cp ∧ x ∈ L' d p.
Proof.
  intros H W Hn Ha Em Ed Hf. destruct (disp_cpu_inactive_ok N me cp fuel s L dp m H W Hn Ha Em Ed Hf) as (s' & L' & E & H' & F & (G1 & G2 & G3) & B & _). exists s', L'.
  assert (∀ p, L' (DCpu cp) p = filter (bound s) (L (DCpu cp) p)) as Hl. { intros p. rewrite <- G1. symmetry. apply filter_bound_all; [apply B|]. intros x Hx. apply (frame_dom s s' x F). by apply (level_dom s' L' (DCpu cp) p). }
  split_and!; try done. intros p x Hx Hb. destruct (G3 p x Hx) as [Hx'|Hx']; [|done]. rewrite Hl in Hx'. by apply list_elem_of_filter in Hx' as [? _].
Qed.

Lemma ex_avoided s : frame ex_disp s → avoided s 2.
Proof.
  intros F. apply (avoided_frame ex_disp); [done|]. assert (∀ l, ring_of ex_disp 0 l → 2 ∈ 0 :: l → False) as Hr.
  { intros [|a [|b l]] [Hp Hn] Hin; destruct Hp as [Hp0 Hp]; vm_compute in Hp0; [discriminate|..].
    - injection Hp0 as <-. by apply elem_of_cons in Hin as [|?%list_elem_of_singleton].
    - injection Hp0 as <-. destruct Hp as [Hp1 _]. vm_compute in Hp1. injection Hp1 as <-. apply list.NoDup_cons in Hn as [Hn _]. apply Hn. right. left. }
  intros tp t Et Hb [(l & Hl & Hin)|(p & Ep & l & Hl & Hin)].
  - assert (t_cpu t = 0) as E0 by (each_key Et; first [reflexivity|cbn in Hb; discriminate]). rewrite E0 in Hl, Hin. by apply (Hr l).
  - assert (cp_cpulist p = 0) as E0 by (cbn [d_parts ex_disp] in Ep; apply lookup_insert_Some in Ep as [[_ <-]|[_ Ep]]; [reflexivity|by rewrite lookup_empty in Ep]). rewrite E0 in Hl, Hin. by apply (Hr l).
Qed.

Lemma disp_cpu_inactive_empties_witness : ∃ s L dp, disp_inv s L ∧ L (DCpu 2) 7 = [23] ∧ L (DCpu 2) 12 = [22] ∧ get_disp s (DCpu 2) = Ok dp ∧ disp_nrunnable dp = 2 ∧
  ∃ s' L', disp_cpu_inactive 20 0 2 s = Ok s' ∧ disp_inv s' L' ∧ frame s s' ∧ (∀ p, L' (DCpu 2) p = filter (bound s) (L (DCpu 2) p)) ∧
    (∀ d p x, d ≠ DCpu 2 → x ∈ L d p → x ∈ L' d p) ∧ ∀ p x, x ∈ L (DCpu 2) p → ¬ bound s x → ∃ d, d ≠ DCpu 2 ∧ x ∈ L' d p.
Proof.
  pose proof ex_fresh as [_ [W _]]. destruct (back_section_ok 40 0 2 23 (ex_thread 7 None 0) ex_disp (λ _ _, []) (ex_cpu CPU_OFFLINE 2 0) (fresh_inv 40 _ ex_fresh) W eq_refl ltac:(by intros d) eq_refl eq_refl ltac:(by vm_compute)) as (s & E & H & F & _).
  pose proof (sys_wf_frame _ _ _ F W) as W'. vm_compute in E. injection E as E. assert (∃ x, d_cpus s !! 2 = Some x) as [x Ex] by (rewrite <- E; by eexists).
  destruct (back_section_ok 40 0 2 22 (ex_thread 12 (Some 2) 2) s _ x H W' ltac:(rewrite <- E; reflexivity) ltac:(by intros d) eq_refl Ex ltac:(by vm_compute)) as (s2 & E2 & H2 & F2 & _). rewrite <- E in E2. vm_compute in E2. injection E2 as E2.
  pose proof (sys_wf_frame _ _ _ F2 W') as W2. assert (∃ dp, get_disp s2 (DCpu 2) = Ok dp ∧ disp_nrunnable dp = 2 ∧ disp_max_unbound_pri dp = 7) as (dp & Edp & En & Eu) by (rewrite <- E2; eexists; by split_and!).
  assert (∃ m, d_cpus s2 !! 0 = Some m) as [m Em] by (rewrite <- E2; by eexists). assert (frame ex_disp s2) as F3 by (by etrans). exists s2. eexists. exists dp. split; [exact H2|]. split; [reflexivity|]. split; [reflexivity|]. split; [exact Edp|]. split; [exact En|].
  apply (disp_cpu_inactive_empties 40 s2 _ 0 2 dp m 20 H2 W2); [by rewrite <- E2|by apply ex_avoided|exact Em|exact Edp|lia].
Defined.

(** ** A thread that is unbound on a queue *)

(** 22 is bound to CPU 1, and runnable there; then the binding is taken away. *)
Definition ex_unbound : res dsys :=
  s ← back_section 0 1 22 12 (with_threads (<[22 := ex_thread 12 (Some 1) 1]> (d_threads ex_disp)) ex_disp);
  cpu_bind_thread 0 22 None false s.

(** No CPU finds the thread, and a CPU that goes off line keeps it. *)
Lemma unbound_hidden : ∃ s t dp, ex_unbound = Ok s ∧ d_threads s !! 22 = Some t ∧ t_bound_cpu t = None ∧ t_lockp t = LDisp (DCpu 1) ∧ get_disp s (DCpu 1) = Ok dp ∧ disp_nrunnable dp = 1 ∧
  disp_getbest 0 (DCpu 1) s = Ok (None, s) ∧ disp_cpu_inactive 9 0 1 s = Ok s ∧ ¬ ∃ L, disp_inv s L.
Proof.
  eexists _, _, _. split; [vm_compute; reflexivity|]. split; [reflexivity|]. do 6 (split; [vm_compute; reflexivity|]). intros [L H]. pose proof (di_back _ _ H 22 _ (DCpu 1) eq_refl eq_refl) as Hin.
  pose proof (di_ub _ _ H (DCpu 1) _ 12 22 _ eq_refl Hin eq_refl eq_refl) as Hle. vm_compute in Hle. by apply Hle.
Qed.

(** ** A thread that is bound on the kpreempt queue *)

(** 21 waits on the kpreempt queue; it last ran on CPU 0, and is bound to it. *)
Definition ex_bound : res dsys := s ← kp_section false 21 35 ex_disp; cpu_bind_thread 1 21 (Some 0) false s.

(** [disp_getwork] goes on for as long as the kpreempt queue is not empty. *)
Lemma kp_work_spins s me p k : d_parts s !! p = Some k → 0 ≤ disp_maxrunpri (cp_kp_queue k) → disp_max_unbound_pri (cp_kp_queue k) = -1 → ∀ fuel, kp_work fuel me p s = Fault.
Proof.
  intros Ek Hm Hu. assert (disp_getbest me (DKp p) s = Ok (None, s)) as Eb by (unfold disp_getbest, get_disp; rewrite (get_part_ok _ _ _ Ek); cbn [mbind res_bind]; by rewrite Hu).
  induction fuel as [|fuel IH]; [done|]. cbn [kp_work]. rewrite (get_part_ok _ _ _ Ek). cbn [mbind res_bind]. rewrite (proj2 (Z.ltb_ge _ 0)) by lia. rewrite Eb. cbn [mbind res_bind]. apply IH.
Qed.

Lemma disp_spins s s' me x x' k k' : d_cpus s !! me = Some x → d_parts s !! cpu_part x = Some k → Z.land (cpu_flags x) CPU_OFFLINE = 0 → 0 ≤ disp_maxrunpri (cp_kp_queue k) → disp_maxrunpri (cpu_disp x) = -1 → disp_getbest me (DKp (cpu_part x)) s = Ok (None, s') →
  d_cpus s' !! me = Some x' → cpu_part x' = cpu_part x → disp_maxrunpri (cpu_disp x') = -1 → d_parts s' !! cpu_part x = Some k' → 0 ≤ disp_maxrunpri (cp_kp_queue k') → disp_max_unbound_pri (cp_kp_queue k') = -1 → ∀ fuel, disp fuel me s = Fault.
Proof.
  intros Ex Ek Ho Hm Hp Eb Ex' Ep' Hp' Ek' Hm' Hu' [|fuel]; [done|]. cbn [disp kp_first]. rewrite (get_cpu_ok _ _ _ Ex). cbn [mbind res_bind]. rewrite (get_part_ok _ _ _ Ek). cbn [mbind res_bind]. rewrite (proj2 (Z.leb_le 0 _)), (proj2 (Z.leb_le (disp_maxrunpri (cpu_disp x)) _)) by lia. rewrite Ho. cbn [andb Z.eqb].
  rewrite Eb. cbn [mbind res_bind get_disp]. rewrite (get_cpu_ok _ _ _ Ex'). cbn [mbind res_bind]. rewrite Hp'. cbn [Z.eqb Pos.eqb]. unfold disp_getwork. rewrite (get_cpu_ok _ _ _ Ex'). cbn [mbind res_bind]. rewrite Ep'. by rewrite (kp_work_spins s' me (cpu_part x) k' Ek' Hm' Hu').
Qed.

(** [disp] does not end, on the CPU of the binding nor on another. *)
Lemma bound_spins : ∃ s t, ex_bound = Ok s ∧ d_threads s !! 21 = Some t ∧ t_bound_cpu t = Some 0 ∧ t_lockp t = LDisp (DKp 0) ∧ ∀ fuel, disp fuel 0 s = Fault ∧ disp fuel 1 s = Fault.
Proof.
  eexists _, _. split; [vm_compute; reflexivity|]. do 3 (split; [reflexivity|]). intros fuel. split; eapply disp_spins; try (vm_compute; reflexivity); by vm_compute.
Qed.

(** ** A runnable thread that is on no queue *)

(** [dispdeq] of a thread in transition: it is not on the queue that [t_disp_queue] names. *)
Lemma dispdeq_not_found : dispdeq 20 (with_threads (<[20 := THREAD_SET_STATE TS_RUN LTransition (ex_thread 5 None 0)]> (d_threads ex_disp)) ex_disp) = Panic "dispdeq: thread not on queue".
Proof. vm_compute. reflexivity. Qed.
