(* ===== verification/Sem.v ===== *)
(** * System V semaphores (uts/common/syscall/sem.c, sys/sem.h, os/ipc.c, sys/ipc.h)

    - The sets are the array [sema], their semaphores runs of the array [sem] that the resource
      map [semmap] gives out, and the undo structures the array [semu], one for each process
      that has one: [sem_undo].  A pointer to an element is its index.
    - A set has a lock, and the undo structures have one; what is done under them is one
      definition.  [semop] drops the lock of the set when it sleeps: [semop_pass] is one turn
      through the operations, and what a thread does when it wakes is another.
    - [cv_broadcast] and [cv_signal] add to [cvs]; who sleeps is the business of SemProps.v.
    - What is copied from and to the user is an argument or a result; so is the process
      ([who]).  The reserved fields and the statistics are left out.
    - [un_ent] is an array of [semume] entries, of which the first [un_cnt] are active. *)

From S2P Require Import Prelude Bitmap Rmap Cred.

(** ** Data *)

Definition ENOENT : Z := 2.
Definition EINTR : Z := 4.
Definition E2BIG : Z := 7.
Definition EFBIG : Z := 27.
Definition ENOSPC : Z := 28.
Definition ERANGE : Z := 34.
Definition EIDRM : Z := 36.
Definition EOVERFLOW : Z := 79.

Definition IPC_ALLOC : Z := 0x8000.
Definition IPC_CREAT : Z := 0x200.
Definition IPC_EXCL : Z := 0x400.
Definition IPC_NOWAIT : Z := 0x800.
Definition IPC_PRIVATE : Z := 0.
Definition SEM_A : Z := 0x80.
Definition SEM_R : Z := 0x100.
Definition SEM_UNDO : Z := 0x1000.
Definition SEMA_INDEX_MAX : Z := 0xffff.
Definition SEMA_INDEX_MASK : Z := 0xffff.
Definition SEMA_SEQ_MAX : Z := 0x7fff.
Definition SEMA_SEQ_MASK : Z := 0x7fff.
Definition SEMA_SEQ_SHIFT : Z := 16.
Definition USHRT_MAX : Z := 65535.

Definition u16 (z : Z) : Z := z mod 65536.

Record ipc_perm := MkPerm { ip_uid : Z; ip_gid : Z; ip_cuid : Z; ip_cgid : Z; ip_mode : Z; ip_seq : Z; ip_key : Z }.

Record semid_ds := MkDsem { sem_perm : ipc_perm; sem_base : Z; sem_nsems : Z; sem_otime : Z; sem_ctime : Z; sem_binary : Z }.

Record sem_t := MkSem { semval : Z; sempid : Z; semncnt : Z; semzcnt : Z }.

Record undo := MkUndo { un_aoe : Z; un_num : Z; un_id : Z }.

Record sem_undo_t := MkUn { un_np : option nat; un_cnt : Z; un_ent : list undo }.

Record seminfo := MkInfo { semmni : Z; semmns : Z; semmnu : Z; semmsl : Z; semopm : Z; semume : Z; semvmx : Z; semaem : Z }.

Record sembuf := MkBuf { sem_num : Z; sem_op : Z; sem_flg : Z }.

(** The condition variables of a semaphore: [semzcnt_cv] if [zero], else [semncnt_cv]. *)
Inductive cvop : Type :=
  | CvSignal (k : Z) (zero : bool)
  | CvBroadcast (k : Z) (zero : bool).

Record semsys := MkSs {
  s_info : seminfo;
  sema : list semid_ds;
  sem : list sem_t;
  semmap : map_head;
  sem_undo : list (option nat);
  semu : list sem_undo_t;
  semunp : option nat;
  semfup : option nat;
  hrestime : Z;
  cvs : list cvop
}.

(** The process that calls: its slot, its id and its credentials. *)
Record who := MkWho { w_slot : nat; w_pid : Z; w_cr : ids }.

(** ** Updates *)

Definition set_sema x s := MkSs (s_info s) x (sem s) (semmap s) (sem_undo s) (semu s) (semunp s) (semfup s) (hrestime s) (cvs s).
Definition set_sem x s := MkSs (s_info s) (sema s) x (semmap s) (sem_undo s) (semu s) (semunp s) (semfup s) (hrestime s) (cvs s).
Definition set_semmap x s := MkSs (s_info s) (sema s) (sem s) x (sem_undo s) (semu s) (semunp s) (semfup s) (hrestime s) (cvs s).
Definition set_sem_undo x s := MkSs (s_info s) (sema s) (sem s) (semmap s) x (semu s) (semunp s) (semfup s) (hrestime s) (cvs s).
Definition set_semu x s := MkSs (s_info s) (sema s) (sem s) (semmap s) (sem_undo s) x (semunp s) (semfup s) (hrestime s) (cvs s).
Definition set_semunp x s := MkSs (s_info s) (sema s) (sem s) (semmap s) (sem_undo s) (semu s) x (semfup s) (hrestime s) (cvs s).
Definition set_semfup x s := MkSs (s_info s) (sema s) (sem s) (semmap s) (sem_undo s) (semu s) (semunp s) x (hrestime s) (cvs s).
Definition cv (o : cvop) s := MkSs (s_info s) (sema s) (sem s) (semmap s) (sem_undo s) (semu s) (semunp s) (semfup s) (hrestime s) (cvs s ++ [o]).

Definition set_mode x p := MkPerm (ip_uid p) (ip_gid p) (ip_cuid p) (ip_cgid p) x (ip_seq p) (ip_key p).
Definition set_seq x p := MkPerm (ip_uid p) (ip_gid p) (ip_cuid p) (ip_cgid p) (ip_mode p) x (ip_key p).
Definition set_perm x d := MkDsem x (sem_base d) (sem_nsems d) (sem_otime d) (sem_ctime d) (sem_binary d).
Definition set_otime x d := MkDsem (sem_perm d) (sem_base d) (sem_nsems d) x (sem_ctime d) (sem_binary d).
Definition set_ctime x d := MkDsem (sem_perm d) (sem_base d) (sem_nsems d) (sem_otime d) x (sem_binary d).
Definition set_binary x d := MkDsem (sem_perm d) (sem_base d) (sem_nsems d) (sem_otime d) (sem_ctime d) x.
Definition set_semval x m := MkSem x (sempid m) (semncnt m) (semzcnt m).
Definition set_sempid x m := MkSem (semval m) x (semncnt m) (semzcnt m).
Definition set_semncnt x m := MkSem (semval m) (sempid m) x (semzcnt m).
Definition set_semzcnt x m := MkSem (semval m) (sempid m) (semncnt m) x.
Definition set_np x u := MkUn x (un_cnt u) (un_ent u).
Definition set_cnt x u := MkUn (un_np u) x (un_ent u).
Definition set_ent x u := MkUn (un_np u) (un_cnt u) x.

(** The element of an array. *)
Definition aget {A} (l : list A) (i : Z) : res A := if i <? 0 then Fault else deref (l !! Z.to_nat i).
Definition nget {A} (l : list A) (i : nat) : res A := deref (l !! i).
Definition nset {A} (i : nat) (x : A) (l : list A) : res (list A) := _ ← nget l i; Ok (<[i := x]> l).

Definition upd_ds (i : Z) (f : semid_ds → semid_ds) (s : semsys) : res semsys := d ← aget (sema s) i; Ok (set_sema (<[Z.to_nat i := f d]> (sema s)) s).
Definition upd_sem (k : Z) (f : sem_t → sem_t) (s : semsys) : res semsys := m ← aget (sem s) k; Ok (set_sem (<[Z.to_nat k := f m]> (sem s)) s).
Definition upd_un (u : nat) (f : sem_undo_t → sem_undo_t) (s : semsys) : res semsys := x ← nget (semu s) u; Ok (set_semu (<[u := f x]> (semu s)) s).

(** ** Permissions and keys (os/ipc.c) *)

Definition ipcaccess (p : ipc_perm) (mode : Z) (cr : ids) : Z :=
  if i_uid cr =? 0 then 0
  else
    let mode := if negb (i_uid cr =? ip_uid p) && negb (i_uid cr =? ip_cuid p) then
                  let mode := Z.shiftr mode 3 in
                  if negb (groupmember (ip_gid p) cr) && negb (groupmember (ip_cgid p) cr) then Z.shiftr mode 3 else mode
                else mode in
    if negb (Z.land mode (ip_mode p) =? 0) then 0 else EACCES.

Definition allocated (p : ipc_perm) : bool := negb (Z.land (ip_mode p) IPC_ALLOC =? 0).

(** The first free entry. *)
Fixpoint free_entry (ps : list ipc_perm) (i : Z) : option Z :=
  match ps with
  | [] => None
  | p :: ps => if allocated p then free_entry ps (i + 1) else Some i
  end.

(** The loop for a key: an error or the entry that has it, or the first free entry. *)
Fixpoint find_key (key flag : Z) (ps : list ipc_perm) (i : Z) (a : option Z) : (Z + Z) + option Z :=
  match ps with
  | [] => inr a
  | p :: ps =>
    if allocated p then
      if ip_key p =? key then
        if Z.land flag (Z.lor IPC_CREAT IPC_EXCL) =? Z.lor IPC_CREAT IPC_EXCL then inl (inl EEXIST)
        else if negb (Z.land (Z.land flag 0x1ff) (Z.lnot (ip_mode p)) =? 0) then inl (inl EACCES)
        else inl (inr i)
      else find_key key flag ps (i + 1) a
    else find_key key flag ps (i + 1) (match a with None => Some i | Some _ => a end)
  end.

(** An error, or the entry and whether it is new. *)
Definition ipcget (key flag : Z) (ps : list ipc_perm) : Z + (Z * bool) :=
  if key =? IPC_PRIVATE then match free_entry ps 0 with None => inl ENOSPC | Some i => inr (i, true) end
  else
    match find_key key flag ps 0 None with
    | inl (inl e) => inl e
    | inl (inr i) => inr (i, false)
    | inr a => if Z.land flag IPC_CREAT =? 0 then inl ENOENT else match a with None => inl ENOSPC | Some i => inr (i, true) end
    end.

(** What [ipcget] stores in a new entry. *)
Definition ipc_init (key flag : Z) (cr : ids) (p : ipc_perm) : ipc_perm :=
  MkPerm (i_uid cr) (i_gid cr) (i_uid cr) (i_gid cr) (Z.lor IPC_ALLOC (Z.land flag 0x1ff)) (ip_seq p) key.

(** ** Undo entries *)

(** The place of an entry: the index, and whether it is there. *)
Fixpoint undo_search (cnt : nat) (ent : list undo) (i : nat) (id num : Z) : res (nat * bool) :=
  match cnt with
  | O => Ok (i, false)
  | S cnt =>
    e ← nget ent i;
    if (un_id e <? id) || ((un_id e =? id) && (un_num e <? num)) then undo_search cnt ent (S i) id num
    else Ok (i, (un_id e =? id) && (un_num e =? num))
  end.

(** [n] entries from [i] on move up by one, the last first. *)
Fixpoint move_up (n i : nat) (ent : list undo) : res (list undo) :=
  match n with
  | O => Ok ent
  | S n => e ← nget ent (i + n)%nat; ent ← nset (S (i + n)) e ent; move_up n i ent
  end.

(** [n] entries after [i] move down by one. *)
Fixpoint move_down (n i : nat) (ent : list undo) : res (list undo) :=
  match n with
  | O => Ok ent
  | S n => e ← nget ent (S i); ent ← nset i e ent; move_down n (S i) ent
  end.

(** [up] is taken off the active list. *)
Fixpoint unlink_loop (fuel : nat) (up2 : option nat) (up : nat) (s : semsys) : res semsys :=
  match fuel with
  | O => Fault
  | S fuel =>
    match up2 with
    | None => Ok s
    | Some p =>
      x ← nget (semu s) p;
      if bool_decide (un_np x = Some up) then y ← nget (semu s) up; upd_un p (set_np (un_np y)) s
      else unlink_loop fuel (un_np x) up s
    end
  end.

Definition unlink (up : nat) (s : semsys) : res semsys :=
  if bool_decide (semunp s = Some up) then y ← nget (semu s) up; Ok (set_semunp (un_np y) s)
  else unlink_loop (S (length (semu s))) (semunp s) up s.

(** [semaoe] once the process has its undo structure. *)
Definition aoe_entry (up : nat) (val id num : Z) (s : semsys) : res (Z * semsys) :=
  x ← nget (semu s) up;
  '(i, found) ← undo_search (Z.to_nat (un_cnt x)) (un_ent x) 0%nat id num;
  if negb found then
    if semume (s_info s) <=? un_cnt x then Ok (EINVAL, s)
    else
      s ← (if un_cnt x =? 0 then s ← upd_un up (set_np (semunp s)) s; Ok (set_semunp (Some up) s) else Ok s);
      ent ← move_up (Z.to_nat (un_cnt x) - i) i (un_ent x);
      ent ← nset i (MkUndo (s16 (- val)) num id) ent;
      s ← upd_un up (λ x, set_ent ent (set_cnt (un_cnt x + 1) x)) s;
      Ok (0, s)
  else
    e ← nget (un_ent x) i;
    let aoe := s16 (un_aoe e - val) in
    if (semaem (s_info s) <? aoe) || (aoe <? - semaem (s_info s)) then
      ent ← nset i (MkUndo (s16 (aoe + val)) (un_num e) (un_id e)) (un_ent x);
      s ← upd_un up (set_ent ent) s;
      Ok (ERANGE, s)
    else
      ent ← nset i (MkUndo aoe (un_num e) (un_id e)) (un_ent x);
      if aoe =? 0 then
        ent ← move_down (Z.to_nat (un_cnt x) - 1 - i) i ent;
        s ← upd_un up (λ x, set_ent ent (set_cnt (un_cnt x - 1) x)) s;
        if un_cnt x - 1 =? 0 then s ← unlink up s; s ← upd_un up (set_np None) s; Ok (0, s) else Ok (0, s)
      else s ← upd_un up (set_ent ent) s; Ok (0, s).

Definition semaoe (w : who) (val id num : Z) (s : semsys) : res (Z * semsys) :=
  if val =? 0 then Ok (0, s)
  else if (semaem (s_info s) <? val) || (val <? - semaem (s_info s)) then Ok (ERANGE, s)
  else
    o ← nget (sem_undo s) (w_slot w);
    match o with
    | Some up => aoe_entry up val id num s
    | None =>
      match semfup s with
      | None => Ok (ENOSPC, s)
      | Some up =>
        x ← nget (semu s) up;
        let s := set_semfup (un_np x) s in
        s ← upd_un up (set_np None) s;
        t ← nset (w_slot w) (Some up) (sem_undo s);
        aoe_entry up val id num (set_sem_undo t s)
      end
    end.

(** The entries of one structure: those for [low] to [high] of [id] are squeezed out. *)
Fixpoint squeeze (fuel : nat) (id low high : Z) (i cnt : nat) (ent : list undo) : res (nat * list undo) :=
  match fuel with
  | O => Fault
  | S fuel =>
    if (cnt <=? i)%nat then Ok (cnt, ent)
    else
      e ← nget ent i;
      if id <? un_id e then Ok (cnt, ent)
      else if (un_id e <? id) || (un_num e <? low) then squeeze fuel id low high (S i) cnt ent
      else if high <? un_num e then Ok (cnt, ent)
      else ent ← move_down (cnt - 1 - i) i ent; squeeze fuel id low high i (cnt - 1) ent
  end.

Fixpoint semunrm_loop (fuel : nat) (id low high : Z) (pp p : option nat) (s : semsys) : res semsys :=
  match fuel with
  | O => Fault
  | S fuel =>
    match p with
    | None => Ok s
    | Some q =>
      x ← nget (semu s) q;
      '(cnt, ent) ← squeeze (S (Z.to_nat (un_cnt x))) id low high 0 (Z.to_nat (un_cnt x)) (un_ent x);
      s ← upd_un q (λ x, set_ent ent (set_cnt (Z.of_nat cnt) x)) s;
      if (cnt =? 0)%nat then
        s ← (match pp with None => Ok (set_semunp (un_np x) s) | Some r => upd_un r (set_np (un_np x)) s end);
        s ← upd_un q (set_np None) s;
        semunrm_loop fuel id low high pp (un_np x) s
      else semunrm_loop fuel id low high p (un_np x) s
    end
  end.

Definition semunrm (id low high : Z) (s : semsys) : res semsys := semunrm_loop (S (length (semu s))) id low high None (semunp s) s.

(** [ops] are the operations that were done, the last first. *)
Fixpoint semundo (w : who) (id base : Z) (ops : list sembuf) (s : semsys) : res semsys :=
  match ops with
  | [] => Ok s
  | op :: ops =>
    if sem_op op =? 0 then semundo w id base ops s
    else
      s ← upd_sem (base + sem_num op) (λ m, set_semval (u16 (semval m - sem_op op)) m) s;
      s ← (if negb (Z.land (sem_flg op) SEM_UNDO =? 0) then '(_, s) ← semaoe w (s16 (- sem_op op)) id (sem_num op) s; Ok s else Ok s);
      semundo w id base ops s
  end.

(** ** Identifiers *)

Definition sem_index (semid : Z) : Z := Z.land semid SEMA_INDEX_MASK.
Definition sem_sequence (semid : Z) : Z := Z.land (Z.shiftr semid SEMA_SEQ_SHIFT) SEMA_SEQ_MASK.

(** The index of the set, if there is one. *)
Definition semconv_lock (semid : Z) (s : semsys) : res (option Z) :=
  if semmni (s_info s) <=? sem_index semid then Ok None
  else d ← aget (sema s) (sem_index semid); Ok (if negb (allocated (sem_perm d)) || negb (sem_sequence semid =? ip_seq (sem_perm d)) then None else Some (sem_index semid)).

Definition semconv (semid : Z) (s : semsys) : res Z :=
  if semmni (s_info s) <=? sem_index semid then Ok EINVAL
  else d ← aget (sema s) (sem_index semid); Ok (if negb (allocated (sem_perm d)) || negb (sem_sequence semid =? ip_seq (sem_perm d)) then EINVAL else 0).

(** ** semop *)

Definition undo_flag (op : sembuf) : bool := negb (Z.land (sem_flg op) SEM_UNDO =? 0).
Definition nowait (op : sembuf) : bool := negb (Z.land (sem_flg op) IPC_NOWAIT =? 0).

(** How a turn through the operations ends. *)
Inductive turn : Type :=
  | Done
  | Fails (e : Z)
  | Waits (k : Z) (zero : bool).

(** The wakeups of an increment. *)
Definition wake_up (k : Z) (signal : bool) (s : semsys) : res semsys :=
  m ← aget (sem s) k;
  s ← (if negb (semncnt m =? 0) then
         if signal then s ← upd_sem k (λ m, set_semncnt (u16 (semncnt m - 1)) m) s; Ok (cv (CvSignal k false) s)
         else s ← upd_sem k (set_semncnt 0) s; Ok (cv (CvBroadcast k false) s)
       else Ok s);
  if negb (semzcnt m =? 0) && (semval m =? 0) then
    if signal then s ← upd_sem k (λ m, set_semzcnt (u16 (semzcnt m - 1)) m) s; Ok (cv (CvSignal k true) s)
    else s ← upd_sem k (set_semzcnt 0) s; Ok (cv (CvBroadcast k true) s)
  else Ok s.

(** Those who wait for zero are woken, if the value is. *)
Definition wake_zero (k : Z) (s : semsys) : res semsys :=
  m ← aget (sem s) k;
  if negb (semzcnt m =? 0) && (semval m =? 0) then s ← upd_sem k (set_semzcnt 0) s; Ok (cv (CvBroadcast k true) s) else Ok s.

(** The operations from one on; [dn] are those done, the last first. *)
Fixpoint semop_ops (w : who) (semid ix : Z) (binary : bool) (dn ops : list sembuf) (s : semsys) : res (turn * semsys) :=
  match ops with
  | [] => Ok (Done, s)
  | op :: ops =>
    sp ← aget (sema s) ix;
    let k := sem_base sp + sem_num op in
    m ← aget (sem s) k;
    if 0 <? sem_op op then
      '(error, s) ← (if semvmx (s_info s) <? sem_op op + semval m then Ok (ERANGE, s) else if undo_flag op then semaoe w (sem_op op) semid (sem_num op) s else Ok (0, s));
      if negb (error =? 0) then s ← semundo w semid (sem_base sp) dn s; Ok (Fails error, s)
      else
        s ← upd_sem k (λ m, set_semval (u16 (semval m + sem_op op)) m) s;
        s ← wake_up k ((sem_op op =? 1) && binary) s;
        semop_ops w semid ix binary (op :: dn) ops s
    else if sem_op op <? 0 then
      if - sem_op op <=? semval m then
        '(error, s) ← (if undo_flag op then semaoe w (sem_op op) semid (sem_num op) s else Ok (0, s));
        if negb (error =? 0) then s ← semundo w semid (sem_base sp) dn s; Ok (Fails error, s)
        else
          s ← upd_sem k (λ m, set_semval (u16 (semval m + sem_op op)) m) s;
          s ← wake_zero k s;
          semop_ops w semid ix binary (op :: dn) ops s
      else
        s ← semundo w semid (sem_base sp) dn s;
        if nowait op then Ok (Fails EAGAIN, s)
        else
          s ← upd_sem k (λ m, set_semncnt (u16 (semncnt m + 1)) m) s;
          s ← (if sem_op op <? -1 then upd_ds ix (set_binary 0) s else Ok s);
          Ok (Waits k false, s)
    else if negb (semval m =? 0) then
      s ← semundo w semid (sem_base sp) dn s;
      if nowait op then Ok (Fails EAGAIN, s)
      else s ← upd_sem k (λ m, set_semzcnt (u16 (semzcnt m + 1)) m) s; Ok (Waits k true, s)
    else semop_ops w semid ix binary (op :: dn) ops s
  end.

(** [sempid] of the semaphores when all has been done. *)
Fixpoint set_pids (pid base : Z) (ops : list sembuf) (s : semsys) : res semsys :=
  match ops with
  | [] => Ok s
  | op :: ops => s ← upd_sem (base + sem_num op) (set_sempid pid) s; set_pids pid base ops s
  end.

(** From [check] on. *)
Definition semop_pass (w : who) (semid ix : Z) (ops : list sembuf) (s : semsys) : res (turn * semsys) :=
  sp ← aget (sema s) ix;
  let binary := negb (sem_binary sp =? 0) && (sem_nsems sp =? 1) in
  '(t, s) ← semop_ops w semid ix binary [] ops s;
  match t with
  | Done => s ← set_pids (w_pid w) (sem_base sp) ops s; s ← upd_ds ix (set_otime (hrestime s)) s; Ok (Done, s)
  | _ => Ok (t, s)
  end.

(** The semaphore numbers and the permissions. *)
Fixpoint semop_verify (w : who) (sp : semid_ds) (ops : list sembuf) : Z :=
  match ops with
  | [] => 0
  | op :: ops =>
    let error := ipcaccess (sem_perm sp) (if negb (sem_op op =? 0) then SEM_A else SEM_R) (w_cr w) in
    if negb (error =? 0) then error
    else if sem_nsems sp <=? sem_num op then EFBIG
    else semop_verify w sp ops
  end.

(** The call up to its end or its first sleep; [sops] are the operations, if they can be read. *)
Definition semop (w : who) (semid : Z) (sops : option (list sembuf)) (nsops : Z) (s : semsys) : res (turn * semsys) :=
  if semopm (s_info s) <? nsops then Ok (Fails E2BIG, s)
  else if nsops =? 0 then Ok (Done, s)
  else
    match sops with
    | None => Ok (Fails EFAULT, s)
    | Some ops =>
      o ← semconv_lock semid s;
      match o with
      | None => Ok (Fails EINVAL, s)
      | Some ix =>
        sp ← aget (sema s) ix;
        let error := semop_verify w sp ops in
        if negb (error =? 0) then Ok (Fails error, s) else semop_pass w semid ix ops s
      end
    end.

(** A thread that slept on the semaphore [k] and was not interrupted. *)
Definition semop_again (w : who) (semid ix : Z) (ops : list sembuf) (s : semsys) : res (turn * semsys) :=
  e ← semconv semid s;
  if negb (e =? 0) then Ok (Fails EIDRM, s) else semop_pass w semid ix ops s.

(** One that was interrupted. *)
Definition semop_intr (k : Z) (zero : bool) (s : semsys) : res (turn * semsys) :=
  m ← aget (sem s) k;
  if zero then
    if semzcnt m <=? 1 then s ← upd_sem k (set_semzcnt 0) s; Ok (Fails EINTR, cv (CvBroadcast k true) s)
    else s ← upd_sem k (set_semzcnt (semzcnt m - 1)) s; Ok (Fails EINTR, s)
  else
    if semncnt m <=? 1 then s ← upd_sem k (set_semncnt 0) s; Ok (Fails EINTR, cv (CvBroadcast k false) s)
    else s ← upd_sem k (set_semncnt (semncnt m - 1)) s; Ok (Fails EINTR, s).

(** ** semget *)

(** [ipcget] has marked the entry [ix] as allocated. *)
Definition semget_mark (w : who) (key semflg ix : Z) (s : semsys) : res semsys := upd_ds ix (λ d, set_perm (ipc_init key semflg (w_cr w) (sem_perm d)) d) s.

(** The rest of the initialisation of a new set. *)
Definition semget_init (ix nsems : Z) (s : semsys) : res (Z * semsys) :=
  if (nsems <=? 0) || (semmsl (s_info s) <? nsems) then s ← upd_ds ix (λ d, set_perm (set_mode 0 (sem_perm d)) d) s; Ok (EINVAL, s)
  else
    '(i, mp) ← rmalloc (semmap s) nsems;
    if i =? 0 then s ← upd_ds ix (λ d, set_perm (set_mode 0 (sem_perm d)) d) s; Ok (ENOSPC, s)
    else s ← upd_ds ix (λ d, MkDsem (sem_perm d) (i - 1) (u16 nsems) 0 (hrestime s) 1) (set_semmap mp s); Ok (0, s).

(** An error, or the identifier. *)
Definition semget (w : who) (key nsems semflg : Z) (s : semsys) : res ((Z + Z) * semsys) :=
  match ipcget key semflg (sem_perm <$> sema s) with
  | inl e => Ok (inl e, s)
  | inr (ix, new) =>
    '(e, s) ← (if new : bool then s ← semget_mark w key semflg ix s; semget_init ix nsems s
               else d ← aget (sema s) ix; Ok (if negb (nsems =? 0) && (sem_nsems d <? u32 nsems) then EINVAL else 0, s));
    if negb (e =? 0) then Ok (inl e, s)
    else d ← aget (sema s) ix; Ok (inr (s32 (Z.shiftl (ip_seq (sem_perm d)) SEMA_SEQ_SHIFT + ix)), s)
  end.

(** ** semctl *)

(** What the caller may do as owner. *)
Definition sem_owner (w : who) (d : semid_ds) : bool :=
  (i_uid (w_cr w) =? ip_uid (sem_perm d)) || (i_uid (w_cr w) =? ip_cuid (sem_perm d)) || suser (w_cr w).

(** The commands with what they read of the user: [None] is a fault.  [OTHER_CMD] is a number
    that is none of them. *)
Inductive ctl : Type :=
  | IPC_RMID
  | IPC_SET (old : bool) (id : option (Z * Z * Z))
  | IPC_STAT (old : bool) (out : bool)
  | GETNCNT
  | GETPID
  | GETVAL
  | GETALL (out : bool)
  | GETZCNT
  | SETVAL (arg : Z)
  | SETALL (vals : option (list Z))
  | OTHER_CMD.

(** What a call gives: an error, a number, the structure of the set or the values. *)
Inductive ctl_res : Type :=
  | CErr (e : Z)
  | CRet (z : Z)
  | CStat (d : semid_ds)
  | CVals (l : list Z).

(** A semaphore of a set that is removed. *)
Definition clear_one (k : Z) (s : semsys) : res semsys :=
  s ← upd_sem k (λ m, set_semval 0 (set_sempid 0 m)) s;
  m ← aget (sem s) k;
  s ← (if negb (semncnt m =? 0) then upd_sem k (set_semncnt 0) (cv (CvBroadcast k false) s) else Ok s);
  if negb (semzcnt m =? 0) then upd_sem k (set_semzcnt 0) (cv (CvBroadcast k true) s) else Ok s.

(** All of them: [n] from [k] on. *)
Fixpoint clear_sems (n : nat) (k : Z) (s : semsys) : res semsys :=
  match n with
  | O => Ok s
  | S n => s ← clear_one k s; clear_sems n (k + 1) s
  end.

Definition next_seq (semid : Z) (p : ipc_perm) : ipc_perm := set_seq (if sem_sequence semid =? SEMA_SEQ_MAX then 0 else u32 (ip_seq p + 1)) p.

Definition semctl_rmid (semid ix : Z) (s : semsys) : res semsys :=
  d ← aget (sema s) ix;
  s ← semunrm semid 0 (sem_nsems d) s;
  s ← clear_sems (Z.to_nat (sem_nsems d)) (sem_base d) s;
  r ← rmfree (semmap s) (sem_nsems d) (sem_base d + 1);
  upd_ds ix (λ d, set_perm (set_mode 0 (next_seq semid (sem_perm d))) d) (set_semmap (rf_map r) s).

(** A value is stored and those who wait for it are woken. *)
Definition store_val (k v : Z) (s : semsys) : res semsys :=
  s ← upd_sem k (set_semval v) s;
  m ← aget (sem s) k;
  if negb (v =? 0) then
    if negb (semncnt m =? 0) then s ← upd_sem k (set_semncnt 0) s; Ok (cv (CvBroadcast k false) s) else Ok s
  else if negb (semzcnt m =? 0) then s ← upd_sem k (set_semzcnt 0) s; Ok (cv (CvBroadcast k true) s)
  else Ok s.

Fixpoint store_all (pid k : Z) (vals : list Z) (s : semsys) : res semsys :=
  match vals with
  | [] => Ok s
  | v :: vals => s ← store_val k v s; s ← upd_sem k (set_sempid pid) s; store_all pid (k + 1) vals s
  end.

Fixpoint get_vals (n : nat) (k : Z) (s : semsys) : res (list Z) :=
  match n with
  | O => Ok []
  | S n => m ← aget (sem s) k; l ← get_vals n (k + 1) s; Ok (semval m :: l)
  end.

(** The values that [IPC_O_STAT] can give. *)
Definition fits_old (p : ipc_perm) : bool :=
  (u32 (ip_uid p) <=? USHRT_MAX) && (u32 (ip_gid p) <=? USHRT_MAX) && (u32 (ip_cuid p) <=? USHRT_MAX) && (u32 (ip_cgid p) <=? USHRT_MAX) && (u32 (ip_seq p) <=? USHRT_MAX).

Definition bad_owner (old : bool) (uid gid : Z) : bool :=
  if old then (MAXUID <? u32 uid) || (MAXUID <? u32 gid) else (uid <? 0) || (MAXUID <? uid) || (gid <? 0) || (MAXUID <? gid).

Definition semctl (w : who) (semid semnum : Z) (cmd : ctl) (s : semsys) : res (ctl_res * semsys) :=
  o ← semconv_lock semid s;
  match o with
  | None => Ok (CErr EINVAL, s)
  | Some ix =>
    d ← aget (sema s) ix;
    let access := ipcaccess (sem_perm d) (match cmd with SETVAL _ | SETALL _ => SEM_A | _ => SEM_R end) (w_cr w) in
    let field f := if negb (access =? 0) then Ok (CErr access, s) else if sem_nsems d <=? semnum then Ok (CErr EINVAL, s) else m ← aget (sem s) (sem_base d + semnum); Ok (CRet (f m), s) in
    match cmd with
    | IPC_RMID => if negb (sem_owner w d) then Ok (CErr EPERM, s) else s ← semctl_rmid semid ix s; Ok (CRet 0, s)
    | IPC_SET old id =>
      if negb (sem_owner w d) then Ok (CErr EPERM, s)
      else match id with
           | None => Ok (CErr EFAULT, s)
           | Some (uid, gid, mode) =>
             if bad_owner old uid gid then Ok (CErr EINVAL, s)
             else
               let p := sem_perm d in
               s ← upd_ds ix (λ d, set_ctime (hrestime s) (set_perm (MkPerm uid gid (ip_cuid p) (ip_cgid p) (Z.lor (Z.land mode 0x1ff) IPC_ALLOC) (ip_seq p) (ip_key p)) d)) s;
               Ok (CRet 0, s)
           end
    | IPC_STAT old out =>
      if negb (access =? 0) then Ok (CErr access, s)
      else if old && negb (fits_old (sem_perm d)) then Ok (CErr EOVERFLOW, s)
      else if out then Ok (CStat d, s) else Ok (CErr EFAULT, s)
    | GETNCNT => field semncnt
    | GETPID => field sempid
    | GETVAL => field semval
    | GETZCNT => field semzcnt
    | GETALL out =>
      if negb (access =? 0) then Ok (CErr access, s)
      else if out || (sem_nsems d =? 0) then l ← get_vals (Z.to_nat (sem_nsems d)) (sem_base d) s; Ok (CVals l, s) else Ok (CErr EFAULT, s)
    | SETVAL arg =>
      if negb (access =? 0) then Ok (CErr access, s)
      else if sem_nsems d <=? semnum then Ok (CErr EINVAL, s)
      else if semvmx (s_info s) <? u32 arg then Ok (CErr ERANGE, s)
      else
        s ← store_val (sem_base d + semnum) (u16 arg) s;
        s ← upd_sem (sem_base d + semnum) (set_sempid (w_pid w)) s;
        s ← semunrm semid semnum semnum s;
        Ok (CRet 0, s)
    | SETALL vals =>
      if negb (access =? 0) then Ok (CErr access, s)
      else match vals with
           | None => Ok (CErr EFAULT, s)
           | Some vals =>
             if existsb (λ v, semvmx (s_info s) <? v) vals then Ok (CErr ERANGE, s)
             else
               s ← semunrm semid 0 (sem_nsems d) s;
               s ← store_all (w_pid w) (sem_base d) vals s;
               Ok (CRet 0, s)
           end
    | OTHER_CMD => Ok (CErr EINVAL, s)
    end
  end.

(** ** semexit *)

(** The entry [i] is given back to its semaphore. *)
Definition semexit_entry (up i : nat) (s : semsys) : res semsys :=
  x ← nget (semu s) up;
  e ← nget (un_ent x) i;
  o ← semconv_lock (un_id e) s;
  match o with
  | None => Ok s
  | Some ix =>
    d ← aget (sema s) ix;
    let k := sem_base d + un_num e in
    m ← aget (sem s) k;
    let v := semval m + un_aoe e in
    if (v <? 0) || (semvmx (s_info s) <? v) then Ok s
    else
      s ← upd_sem k (set_semval (u16 v)) s;
      s ← (if (v =? 0) && negb (semzcnt m =? 0) then s ← upd_sem k (set_semzcnt 0) s; Ok (cv (CvBroadcast k true) s) else Ok s);
      if (0 <? un_aoe e) && negb (semncnt m =? 0) then s ← upd_sem k (set_semncnt 0) s; Ok (cv (CvBroadcast k false) s) else Ok s
  end.

(** [for (i = up->un_cnt; i--; )] *)
Fixpoint semexit_loop (i up : nat) (s : semsys) : res semsys :=
  match i with
  | O => Ok s
  | S i => s ← semexit_entry up i s; semexit_loop i up s
  end.

(** The structure goes back to the free list. *)
Definition undo_free (slot up : nat) (s : semsys) : res semsys :=
  s ← upd_un up (set_np (semfup s)) s;
  t ← nset slot None (sem_undo s);
  Ok (set_sem_undo t (set_semfup (Some up) s)).

(** The part of [semexit] under the lock of the undo structures, after the entries. *)
Definition semexit_end (slot up : nat) (s : semsys) : res semsys :=
  s ← upd_un up (set_cnt 0) s;
  s ← unlink up s;
  undo_free slot up s.

Definition semexit (slot : nat) (s : semsys) : res semsys :=
  o ← nget (sem_undo s) slot;
  match o with
  | None => Ok s
  | Some up =>
    x ← nget (semu s) up;
    if un_cnt x =? 0 then undo_free slot up s
    else s ← semexit_loop (Z.to_nat (un_cnt x)) up s; semexit_end slot up s
  end.

(** ** Initialisation *)

(** The structures from [i] on, linked. *)
Fixpoint link_free (n i ume : nat) : list sem_undo_t :=
  match n with
  | O => []
  | S n => MkUn (match n with O => None | _ => Some (S i) end) 0 (replicate ume (MkUndo 0 0 0)) :: link_free n (S i) ume
  end.

(** The tables that [_init] leaves. *)
Definition sem_init (info : seminfo) (mp : map_head) (nproc now : Z) : semsys :=
  MkSs info (replicate (Z.to_nat (semmni info)) (MkDsem (MkPerm 0 0 0 0 0 0 0) 0 0 0 0 0)) (replicate (Z.to_nat (semmns info)) (MkSem 0 0 0 0)) mp
    (replicate (Z.to_nat nproc) None) (link_free (Z.to_nat (semmnu info)) 0 (Z.to_nat (semume info))) None (if 0 <? semmnu info then Some 0%nat else None) now [].

Definition set_mni (x : Z) (i : seminfo) : seminfo := MkInfo x (semmns i) (semmnu i) (semmsl i) (semopm i) (semume i) (semvmx i) (semaem i).

(** [_init] with a map of [nmap] segments; [fits] says whether the tables are no more than a
    quarter of the memory.  [None] is [ENOMEM]. *)
Definition sem_load (tuned : seminfo) (fits : bool) (avail : Z → bool) (nmap nproc now : Z) : res (option semsys) :=
  let info := if SEMA_INDEX_MAX <? semmni tuned then set_mni SEMA_INDEX_MAX tuned else tuned in
  if negb fits then Ok None
  else
    o ← rmallocmap avail nmap;
    match o with
    | None => Ok None
    | Some mp => r ← rmfree mp (semmns info) 1; Ok (Some (sem_init info (rf_map r) nproc now))
    end.
