(* ===== verification/SemList.v ===== *)
(** * Undo entries and the lists of undo structures

    The entries of an undo structure are sorted by identifier and number and stand for a finite
    map from semaphores to adjustments ([amap]); the array operations of Sem.v keep the order.
    The structures with entries are on one list, those without an owner on another, and every
    structure is free or belongs to one process ([undo_wf]); [adj] is the map of a process.
    [semaoe] changes it as [aoe_spec] says ([semaoe_ok]): it is refused without an effect, or it
    adds to one entry, and what was added can be taken back ([aoe_restore]). *)

From S2P Require Import Prelude Rmap Bitmap Cred Sem.

(** ** Arrays *)

Lemma aget_app {A} (l : list A) i : aget l (Z.of_nat i) = nget l i.
Proof. unfold aget, nget. rewrite (proj2 (Z.ltb_ge _ _)) by lia. by rewrite Nat2Z.id. Qed.

Lemma nget_ok {A} (l : list A) i x : l !! i = Some x → nget l i = Ok x.
Proof. unfold nget. by intros ->. Qed.

Lemma nset_ok {A} (l : list A) i x : (i < length l)%nat → nset i x l = Ok (<[i := x]> l).
Proof. intros [y Hy]%lookup_lt_is_Some_2. unfold nset. by rewrite (nget_ok _ _ _ Hy). Qed.

Lemma nget_mid {A} (l1 l2 : list A) i x : i = length l1 → nget (l1 ++ x :: l2) i = Ok x.
Proof. intros ->. apply nget_ok. by rewrite list_lookup_middle. Qed.

Lemma nset_mid {A} (l1 l2 : list A) i x y : i = length l1 → nset i y (l1 ++ x :: l2) = Ok (l1 ++ y :: l2).
Proof. intros ->. rewrite nset_ok by (rewrite length_app; simpl; lia). f_equal. rewrite insert_app_r_alt, Nat.sub_diag by done. done. Qed.

Lemma move_up_ok n i pre l y rest : i = length pre → n = length l → ∃ z, move_up n i (pre ++ l ++ y :: rest) = Ok (pre ++ z :: l ++ rest).
Proof.
  revert l y rest. induction n as [|n IH]; intros l y rest -> Hl.
  - symmetry in Hl. apply nil_length_inv in Hl as ->. by exists y.
  - destruct l as [|e l _] using rev_ind; [done|]. rewrite length_app in Hl. simpl in Hl. assert (n = length l) as -> by lia.
    cbn [move_up]. replace (pre ++ (l ++ [e]) ++ y :: rest) with ((pre ++ l) ++ e :: y :: rest) by (by rewrite <- !(assoc_L (++))). rewrite nget_mid by (rewrite length_app; done). cbn [mbind res_bind].
    change (e :: y :: rest) with ([e] ++ y :: rest). rewrite (assoc_L (++) (pre ++ l)). rewrite nset_mid by (rewrite !length_app; simpl; lia). cbn [mbind res_bind].
    rewrite <- !(assoc_L (++)). cbn [app]. destruct (IH l e (e :: rest) eq_refl eq_refl) as [z Hz]. exists z. by rewrite Hz.
Qed.

Lemma move_down_ok n i pre l y rest : i = length pre → n = length l → ∃ z, move_down n i (pre ++ y :: l ++ rest) = Ok (pre ++ l ++ z :: rest).
Proof.
  revert i pre l y. induction n as [|n IH]; intros i pre l y -> Hl.
  - symmetry in Hl. apply nil_length_inv in Hl as ->. by exists y.
  - destruct l as [|e l]; [done|]. injection Hl as ->. cbn [move_down]. change (pre ++ y :: (e :: l) ++ rest) with (pre ++ [y] ++ e :: l ++ rest). rewrite (assoc_L (++) pre).
    rewrite nget_mid by (rewrite length_app; simpl; lia). cbn [mbind res_bind]. rewrite <- (assoc_L (++)). cbn [app]. rewrite nset_mid by done. cbn [mbind res_bind].
    destruct (IH (S (length pre)) (pre ++ [e]) l e) as [z Hz]; [rewrite length_app; simpl; lia|done|]. exists z. rewrite <- !(assoc_L (++)) in Hz. apply Hz.
Qed.

(** ** The order of the entries *)

Definition ent_key (e : undo) : Z * Z := (un_id e, un_num e).

Definition key_lt (a b : Z * Z) : Prop := a.1 < b.1 ∨ a.1 = b.1 ∧ a.2 < b.2.

#[global] Instance key_lt_dec a b : Decision (key_lt a b).
Proof. unfold key_lt. apply _. Defined.

Lemma key_lt_trans a b c : key_lt a b → key_lt b c → key_lt a c.
Proof. unfold key_lt. lia. Qed.

Lemma key_lt_irrefl a : ¬ key_lt a a.
Proof. unfold key_lt. lia. Qed.

Lemma key_trichotomy a b : key_lt a b ∨ a = b ∨ key_lt b a.
Proof. destruct a as [a1 a2], b as [b1 b2]. unfold key_lt. simpl. destruct (Z.lt_trichotomy a1 b1) as [?|[->|?]]; [lia| |lia]. destruct (Z.lt_trichotomy a2 b2) as [?|[->|?]]; [lia|auto|lia]. Qed.

Inductive sorted : list undo → Prop :=
  | sorted_nil : sorted []
  | sorted_cons e l : Forall (λ x, key_lt (ent_key e) (ent_key x)) l → sorted l → sorted (e :: l).

Lemma sorted_app l1 l2 : sorted (l1 ++ l2) ↔ sorted l1 ∧ sorted l2 ∧ ∀ x y, x ∈ l1 → y ∈ l2 → key_lt (ent_key x) (ent_key y).
Proof.
  induction l1 as [|a l1 IH]; simpl.
  - split; [intros H; split_and!; [constructor|done|intros ?? []%not_elem_of_nil]|by intros (_ & ? & _)].
  - split.
    + intros H. inversion H as [|? ? Ha Hs]; subst. apply IH in Hs as (H1 & H2 & H3). apply list.Forall_app in Ha as [Ha1 Ha2].
      split_and!; [by constructor|done|]. intros x y [->|Hx]%elem_of_cons Hy; [rewrite list.Forall_forall in Ha2; by apply Ha2|by apply H3].
    + intros (H1 & H2 & H3). inversion H1 as [|? ? Ha Hs]; subst. constructor.
      * apply list.Forall_app. split; [done|]. apply list.Forall_forall. intros y Hy. apply H3; [left|done].
      * apply IH. split_and!; [done..|]. intros x y Hx Hy. apply H3; [by right|done].
Qed.

Lemma ents_filter (P : undo → Prop) `{∀ e, Decision (P e)} l : sorted l → sorted (filter P l).
Proof.
  induction 1 as [|e l Hf Hs IH]; [constructor|]. rewrite filter_cons. case_decide; [|done]. constructor; [|done].
  rewrite list.Forall_forall in Hf |- *. intros x [_ Hx]%list_elem_of_filter. by apply Hf.
Qed.

Lemma undo_search_ok cnt ent i id num pre l rest : ent = pre ++ l ++ rest → i = length pre → cnt = length l → sorted l →
  ∃ l1 l2 found, l = l1 ++ l2 ∧ undo_search cnt ent i id num = Ok ((i + length l1)%nat, found) ∧ Forall (λ x, key_lt (ent_key x) (id, num)) l1 ∧
    if found : bool then ∃ e l3, l2 = e :: l3 ∧ ent_key e = (id, num) else Forall (λ x, key_lt (id, num) (ent_key x)) l2.
Proof.
  revert cnt i pre. induction l as [|e l IH]; intros cnt i pre -> -> -> Hs.
  - exists [], [], false. simpl. by rewrite Nat.add_0_r.
  - cbn [undo_search length]. rewrite <- app_comm_cons, nget_mid by done. cbn [mbind res_bind]. inversion Hs as [|? ? Hf Hs']; subst.
    destruct ((un_id e <? id) || ((un_id e =? id) && (un_num e <? num))) eqn:Elt.
    + destruct (IH (length l) (S (length pre)) (pre ++ [e])) as (l1 & l2 & found & El & E & H1 & H2); [by rewrite <- (assoc_L (++))|rewrite length_app; simpl; lia|done|done|].
      exists (e :: l1), l2, found. split; [by rewrite El|]. split; [rewrite <- app_comm_cons in E; rewrite E; simpl; repeat f_equal; lia|]. split; [|done]. constructor; [|done].
      unfold key_lt, ent_key. simpl. apply orb_true_iff in Elt as [?|?]; prop_bool; lia.
    + exists [], (e :: l), ((un_id e =? id) && (un_num e =? num)). split; [done|]. split; [simpl; by rewrite Nat.add_0_r|]. split; [done|].
      apply orb_false_iff in Elt as [E1 E2%andb_false_iff]. destruct ((un_id e =? id) && (un_num e =? num)) eqn:Eeq; prop_bool.
      * exists e, l. split; [done|]. unfold ent_key. by f_equal.
      * apply andb_false_iff in Eeq. assert (key_lt (id, num) (ent_key e)) as Hlt. { unfold key_lt, ent_key. simpl. destruct E2, Eeq; prop_bool; lia. }
        constructor; [done|]. eapply list.Forall_impl; [exact Hf|]. intros x Hx. by eapply key_lt_trans.
Qed.

(** ** The entries as a map *)

(** The adjustments that a list of entries stands for. *)
Definition amap (l : list undo) : gmap (Z * Z) Z := list_to_map ((λ e, (ent_key e, un_aoe e)) <$> l).

(** What an entry of an undo structure satisfies. *)
Definition ent_ok (i : seminfo) (e : undo) : Prop := un_aoe e ≠ 0 ∧ - semaem i ≤ un_aoe e ≤ semaem i ∧ 0 ≤ un_num e < 65536.

Lemma amap_cons e l : amap (e :: l) = <[ent_key e := un_aoe e]> (amap l).
Proof. done. Qed.

Lemma amap_None l k : amap l !! k = None ↔ k ∉ ent_key <$> l.
Proof. unfold amap. rewrite <- not_elem_of_list_to_map, <- list_fmap_compose. done. Qed.

Lemma sorted_keys l1 e l2 : sorted (l1 ++ e :: l2) → ent_key e ∉ ent_key <$> l1 ++ l2.
Proof.
  intros (_ & H2 & H3)%sorted_app (x & Hx & Hin)%list_elem_of_fmap. inversion H2 as [|? ? Hf _]; subst. rewrite list.Forall_forall in Hf.
  apply elem_of_app in Hin as [Hin|Hin]; [specialize (H3 x e Hin ltac:(left))|specialize (Hf x Hin)]; rewrite Hx in *; by eapply key_lt_irrefl.
Qed.

Lemma amap_mid l1 e l2 : sorted (l1 ++ e :: l2) → amap (l1 ++ e :: l2) = <[ent_key e := un_aoe e]> (amap (l1 ++ l2)).
Proof.
  intros Hs. unfold amap. rewrite !fmap_app, fmap_cons. rewrite !list_to_map_app, list_to_map_cons. rewrite <- insert_union_r; [done|].
  apply not_elem_of_list_to_map_1. rewrite <- list_fmap_compose. intros (x & Hx & Hin)%list_elem_of_fmap. simpl in Hx.
  apply (sorted_keys _ _ _ Hs). rewrite Hx. apply list_elem_of_fmap_2. apply elem_of_app. by left.
Qed.

Lemma amap_fresh l1 e l2 : sorted (l1 ++ e :: l2) → amap (l1 ++ l2) !! ent_key e = None.
Proof. intros Hs. apply amap_None. by apply sorted_keys. Qed.

Lemma amap_size l : sorted l → size (amap l) = length l.
Proof.
  induction 1 as [|e l Hf Hs IH]; [done|]. rewrite amap_cons, map_size_insert_None; [by rewrite IH|].
  apply (amap_fresh [] e l). by constructor.
Qed.

Lemma amap_lookup l k a : sorted l → amap l !! k = Some a ↔ ∃ e, e ∈ l ∧ ent_key e = k ∧ un_aoe e = a.
Proof.
  induction 1 as [|e l Hf Hs IH].
  - unfold amap. simpl. split; [by intros ?|by intros (? & ?%not_elem_of_nil & _)].
  - rewrite amap_cons, lookup_insert_Some. rewrite IH. split.
    + intros [[<- <-]|(_ & x & Hx & ?)]; [exists e; split; [left|done]|exists x; split; [by right|done]].
    + intros (x & [->|Hx]%elem_of_cons & <- & <-); [by left|]. right. split; [|by exists x]. rewrite list.Forall_forall in Hf. intros E. specialize (Hf x Hx). rewrite E in Hf. by eapply key_lt_irrefl.
Qed.

Lemma amap_absent l1 l2 k : Forall (λ x, key_lt (ent_key x) k) l1 → Forall (λ x, key_lt k (ent_key x)) l2 → amap (l1 ++ l2) !! k = None.
Proof.
  rewrite !list.Forall_forall. intros H1 H2. apply amap_None. intros (x & -> & [Hx|Hx]%elem_of_app)%list_elem_of_fmap; [eapply key_lt_irrefl, H1; eauto|eapply key_lt_irrefl, H2; eauto].
Qed.

Lemma ents_insert l1 l2 e : sorted (l1 ++ l2) → Forall (λ x, key_lt (ent_key x) (ent_key e)) l1 → Forall (λ x, key_lt (ent_key e) (ent_key x)) l2 → sorted (l1 ++ e :: l2).
Proof.
  intros (H1 & H2 & H3)%sorted_app Hl Hr. apply sorted_app. split; [done|]. split; [by constructor|].
  intros x y Hx [->|Hy]%elem_of_cons; [rewrite list.Forall_forall in Hl; by apply Hl|by apply H3].
Qed.

Lemma sorted_drop_mid l1 e l2 : sorted (l1 ++ e :: l2) → sorted (l1 ++ l2).
Proof. intros (H1 & H2 & H3)%sorted_app. inversion H2; subst. apply sorted_app. split_and!; [done..|]. intros x y Hx Hy. apply H3; [done|by right]. Qed.

Lemma sorted_same_key l1 e e' l2 : ent_key e = ent_key e' → sorted (l1 ++ e :: l2) → sorted (l1 ++ e' :: l2).
Proof.
  intros Hk (H1 & H2 & H3)%sorted_app. inversion H2 as [|? ? Hf Hs]; subst. rewrite Hk in Hf. apply sorted_app. split_and!; [done|by constructor|].
  intros x y Hx [->|Hy]%elem_of_cons; [rewrite <- Hk; apply H3; [done|left]|apply H3; [done|by right]].
Qed.

(** ** What [semaoe] does to the map *)

(** [room]: the process has an undo structure, or one is free. *)
Definition aoe_spec (i : seminfo) (room : bool) (k : Z * Z) (val : Z) (m : gmap (Z * Z) Z) : Z + gmap (Z * Z) Z :=
  if val =? 0 then inr m
  else if (semaem i <? val) || (val <? - semaem i) then inl ERANGE
  else if negb room then inl ENOSPC
  else match m !! k with
       | None => if semume i <=? Z.of_nat (size m) then inl EINVAL else inr (<[k := - val]> m)
       | Some a =>
         if (semaem i <? a - val) || (a - val <? - semaem i) then inl ERANGE
         else if a - val =? 0 then inr (delete k m) else inr (<[k := a - val]> m)
       end.

(** The maps a process can have. *)
Definition adj_ok (i : seminfo) (m : gmap (Z * Z) Z) : Prop :=
  Z.of_nat (size m) ≤ semume i ∧ ∀ k a, m !! k = Some a → a ≠ 0 ∧ - semaem i ≤ a ≤ semaem i.

Lemma aoe_spec_ok i room k val m m' : adj_ok i m → aoe_spec i room k val m = inr m' → adj_ok i m'.
Proof.
  intros [Hn Ha] E. unfold aoe_spec in E. case_if_in E; [by injection E as <-|]. case_if_in E; [done|]. case_if_in E; [done|].
  destruct (m !! k) as [a|] eqn:Hk.
  - case_if_in E; [done|]. case_if_in E; injection E as <-.
    + split; [rewrite map_size_delete_Some by done; lia|]. intros k' a' [_ ?]%lookup_delete_Some. eauto.
    + split; [rewrite map_size_insert_Some by done; lia|]. intros k' a' [[<- <-]|[_ ?]]%lookup_insert_Some; [lia|eauto].
  - case_if_in E; [done|]. injection E as <-. split; [rewrite map_size_insert_None by done; lia|]. intros k' a' [[<- <-]|[_ ?]]%lookup_insert_Some; [lia|eauto].
Qed.

(** An adjustment that was made can be taken back. *)
Lemma aoe_restore i room k val m m' : adj_ok i m → aoe_spec i room k val m = inr m' → aoe_spec i room k (- val) m' = inr m.
Proof.
  intros [Hn Ha] E. unfold aoe_spec in *. destruct (Z.eqb_spec val 0) as [->|Hv]; [injection E as <-; done|]. rewrite (proj2 (Z.eqb_neq (- val) 0)) by lia.
  case_if_in E; [done|]. rewrite (proj2 (Z.ltb_ge _ _)), (proj2 (Z.ltb_ge (- val) _)) by lia. cbn [orb]. destruct room; [|done]. cbn [negb] in *.
  destruct (m !! k) as [a|] eqn:Hk.
  - destruct (Ha _ _ Hk) as [Ha0 Har]. case_if_in E; [done|]. case_if_in E; injection E as <-.
    + rewrite lookup_delete_eq. rewrite map_size_delete_Some by done. assert (0 < size m)%nat. { destruct (size m) eqn:Es; [|lia]. apply map_size_empty_inv in Es. subst. done. }
      rewrite (proj2 (Z.leb_gt _ _)) by lia. f_equal. rewrite insert_delete_eq. apply insert_id. rewrite Hk. f_equal. lia.
    + rewrite lookup_insert_eq. replace (a - val - - val) with a by lia. eval_cmp. rewrite insert_insert_eq. f_equal. by apply insert_id.
  - case_if_in E; [done|]. injection E as <-. rewrite lookup_insert_eq. replace (- val - - val) with 0 by lia. eval_cmp. rewrite delete_insert_eq. f_equal. by apply delete_id.
Qed.

(** ** Lists through [un_np] *)

Fixpoint nchain (us : list sem_undo_t) (h : option nat) (l : list nat) : Prop :=
  match l with
  | [] => h = None
  | u :: l => h = Some u ∧ ∃ x, us !! u = Some x ∧ nchain us (un_np x) l
  end.

Lemma nchain_bound us h l u : nchain us h l → u ∈ l → (u < length us)%nat.
Proof.
  revert h. induction l as [|v l IH]; intros h; [by intros _ ?%not_elem_of_nil|]. intros (_ & x & Hx & Hc) [->|Hu]%elem_of_cons; [by eapply lookup_lt_Some|by eapply IH].
Qed.

Lemma nchain_length us h l : nchain us h l → NoDup l → (length l ≤ length us)%nat.
Proof.
  intros Hc Hn. rewrite <- (length_seq (length us) 0). apply submseteq_length, NoDup_submseteq; [done|]. intros u Hu. apply elem_of_seq. pose proof (nchain_bound _ _ _ _ Hc Hu). lia.
Qed.

(** An update that keeps the links of the list. *)
Lemma nchain_same us us' h l : nchain us h l → (∀ u x, u ∈ l → us !! u = Some x → ∃ x', us' !! u = Some x' ∧ un_np x' = un_np x) → nchain us' h l.
Proof.
  revert h. induction l as [|u l IH]; intros h; [done|]. intros (Hh & x & Hx & Hc) Hu. split; [done|].
  destruct (Hu u x ltac:(left) Hx) as (x' & Hx' & E). exists x'. split; [done|]. rewrite E. apply IH; [done|]. intros v y Hv. apply Hu. by right.
Qed.

Lemma nchain_insert us h l u x : nchain us h l → u ∉ l → nchain (<[u := x]> us) h l.
Proof. intros Hc Hu. apply (nchain_same us); [done|]. intros v y Hv Hy. exists y. rewrite list_lookup_insert_ne by (intros ->; done). done. Qed.

Lemma nchain_insert_np us h l u x x' : nchain us h l → us !! u = Some x → un_np x' = un_np x → nchain (<[u := x']> us) h l.
Proof.
  intros Hc Hx E. apply (nchain_same us); [done|]. intros v y Hv Hy. destruct (decide (v = u)) as [->|Hne].
  - exists x'. rewrite list_lookup_insert_eq by (by eapply lookup_lt_Some). simplify_eq. done.
  - exists y. by rewrite list_lookup_insert_ne.
Qed.

(** Taking a structure off a list changes no entries and only the links of the list. *)
Definition same_ents (l : list nat) (us us' : list sem_undo_t) : Prop :=
  length us' = length us ∧
  ∀ u x, us !! u = Some x → ∃ x', us' !! u = Some x' ∧ un_cnt x' = un_cnt x ∧ un_ent x' = un_ent x ∧ (u ∉ l → x' = x).

Lemma same_ents_refl l us : same_ents l us us.
Proof. split; [done|]. intros u x Hx. by exists x. Qed.

Lemma set_same s : set_semu (semu s) s = s.
Proof. by destruct s. Qed.

Lemma upd_un_ok u f s x : semu s !! u = Some x → upd_un u f s = Ok (set_semu (<[u := f x]> (semu s)) s).
Proof. intros Hx. unfold upd_un. by rewrite (nget_ok _ _ _ Hx). Qed.

Definition without (u : nat) (l : list nat) : list nat := filter (λ v, v ≠ u) l.

Lemma without_notin u l : u ∉ l → without u l = l.
Proof. intros Hu. apply filter_all. intros v Hv. by intros ->. Qed.

Lemma without_head u l : without u (u :: l) = without u l.
Proof. unfold without. rewrite filter_cons_False; [done|]. intros Hu. by apply Hu. Qed.

Lemma without_cons u v l : v ≠ u → without u (v :: l) = v :: without u l.
Proof. intros. unfold without. by rewrite filter_cons_True. Qed.

Lemma elem_without u v l : v ∈ without u l ↔ v ≠ u ∧ v ∈ l.
Proof. unfold without. by rewrite list_elem_of_filter. Qed.

Lemma unlink_loop_ok fuel q l up s : nchain (semu s) (Some q) (q :: l) → NoDup (q :: l) → up ∈ l → (length l < fuel)%nat →
  ∃ us, unlink_loop fuel (Some q) up s = Ok (set_semu us s) ∧ same_ents (q :: l) (semu s) us ∧ us !! up = semu s !! up ∧ nchain us (Some q) (q :: without up l).
Proof.
  revert q l. induction fuel as [|fuel IH]; intros q l (_ & x & Hx & Hc) Hn Hup Hf; [lia|]. cbn [unlink_loop]. rewrite (nget_ok _ _ _ Hx). cbn [mbind res_bind].
  apply list.NoDup_cons in Hn as [Hq Hn]. destruct l as [|v l]; [by apply not_elem_of_nil in Hup|]. pose proof Hc as (Hv & y & Hy & Hc'). case_bool_decide as E.
  - rewrite Hv in E. injection E as ->. rewrite (nget_ok _ _ _ Hy). cbn [mbind res_bind]. rewrite (upd_un_ok _ _ _ _ Hx). apply list.NoDup_cons in Hn as [Hupl Hn].
    assert (up ≠ q) by (intros ->; apply Hq; left). eexists. split; [done|]. split; [|split].
    + split; [apply length_insert|]. intros u z Hz. destruct (decide (u = q)) as [->|Hne].
      * rewrite list_lookup_insert_eq by (by eapply lookup_lt_Some). simplify_eq. eexists. split; [done|]. split_and!; [done..|]. intros []. left.
      * rewrite list_lookup_insert_ne by done. by exists z.
    + by rewrite list_lookup_insert_ne.
    + split; [done|]. exists (set_np (un_np y) x). rewrite list_lookup_insert_eq by (by eapply lookup_lt_Some). split; [done|]. rewrite without_head, without_notin by done.
      simpl. apply nchain_insert; [done|]. intros Hql. apply Hq. by right.
  - rewrite Hv in *. assert (v ≠ up) by congruence. apply elem_of_cons in Hup as [->|Hup]; [done|]. simpl in Hf.
    destruct (IH v l Hc Hn Hup ltac:(lia)) as (us & Eu & Hs & Hus & Hcu). exists us. split; [done|]. destruct Hs as [Hl Hs]. split; [|split; [done|]].
    + split; [done|]. intros u z Hz. destruct (Hs u z Hz) as (z' & ? & ? & ? & Heq). exists z'. split_and!; [done..|]. intros Hu. apply Heq. intros Hin. apply Hu. by right.
    + split; [done|]. destruct (Hs q x Hx) as (x' & Hx' & _ & _ & Heq). rewrite (Heq Hq) in Hx'. exists x. split; [done|]. rewrite Hv, without_cons by done. done.
Qed.

Lemma unlink_loop_absent fuel h l up s : nchain (semu s) h l → up ∉ l → (length l < fuel)%nat → (h ≠ Some up) → unlink_loop fuel h up s = Ok s.
Proof.
  revert h l. induction fuel as [|fuel IH]; intros h l Hc Hup Hf Hh; [lia|]. cbn [unlink_loop]. destruct l as [|q l]; [simpl in Hc; by rewrite Hc|].
  destruct Hc as (-> & x & Hx & Hc). rewrite (nget_ok _ _ _ Hx). cbn [mbind res_bind]. apply not_elem_of_cons in Hup as [_ Hup]. simpl in Hf. rewrite bool_decide_eq_false_2.
  - apply (IH _ l); [done|done|lia|]. destruct l as [|v l]; [by rewrite Hc|]. destruct Hc as (-> & _). intros [= ->]. apply Hup. left.
  - destruct l as [|v l]; [by rewrite Hc|]. destruct Hc as (-> & _). intros [= ->]. apply Hup. left.
Qed.

(** [up] is off the list afterwards; the links of the other lists are as before. *)
Lemma unlink_ok s l up x : nchain (semu s) (semunp s) l → NoDup l → semu s !! up = Some x →
  ∃ us h, unlink up s = Ok (set_semunp h (set_semu us s)) ∧ same_ents l (semu s) us ∧ us !! up = Some x ∧ nchain us h (without up l).
Proof.
  intros Hc Hn Hx. pose proof (nchain_length _ _ _ Hc Hn). unfold unlink. case_bool_decide as E.
  - rewrite (nget_ok _ _ _ Hx). cbn [mbind res_bind]. rewrite E in Hc. destruct l as [|v l]; [done|]. destruct Hc as ([= <-] & y & Hy & Hc). simplify_eq.
    apply list.NoDup_cons in Hn as [Hv Hn]. exists (semu s), (un_np y). rewrite set_same, without_head, without_notin by done. split_and!; [done|apply same_ents_refl|done|done].
  - destruct (decide (up ∈ l)) as [Hup|Hup].
    + destruct l as [|q l]; [by apply not_elem_of_nil in Hup|]. pose proof Hc as (Eq & _). rewrite Eq in *. apply elem_of_cons in Hup as [->|Hup]; [done|].
      simpl in H. destruct (unlink_loop_ok (S (length (semu s))) q l up s Hc Hn Hup ltac:(lia)) as (us & Eu & Hs & Hus & Hcu). exists us, (Some q). split; [rewrite Eu; by destruct s; simpl in *; subst|].
      split; [done|]. split; [by rewrite Hus|]. rewrite without_cons by congruence. done.
    + exists (semu s), (semunp s). rewrite set_same. split; [rewrite (unlink_loop_absent _ _ l); [by destruct s|done|done|lia|done]|]. split_and!; [apply same_ents_refl|done|]. by rewrite without_notin.
Qed.

(** ** The invariant *)

(** The tunables for which the arithmetic of the calls is exact: an adjustment that leaves the
    range is then seen after it is stored in 16 bits. *)
Record info_ok (i : seminfo) : Prop := MkInfoOk {
  io_mni : 0 ≤ semmni i ≤ 65535;
  io_mns : 0 ≤ semmns i < W31;
  io_msl : semmsl i ≤ 65535;
  io_ume : 0 ≤ semume i;
  io_vmx : 0 ≤ semvmx i ≤ 65535;
  io_aem : 0 ≤ semaem i ≤ 21845
}.

(** The entries in use. *)
Definition active (x : sem_undo_t) : list undo := take (Z.to_nat (un_cnt x)) (un_ent x).

Record un_ok (i : seminfo) (x : sem_undo_t) : Prop := MkUnOk {
  uo_len : Z.of_nat (length (un_ent x)) = semume i;
  uo_cnt : 0 ≤ un_cnt x ≤ semume i;
  uo_sorted : sorted (active x);
  uo_ents : Forall (ent_ok i) (active x)
}.

Definition owns (s : semsys) (p u : nat) : Prop := sem_undo s !! p = Some (Some u).

Record undo_wf (act fr : list nat) (s : semsys) : Prop := MkUndoWf {
  uw_act : nchain (semu s) (semunp s) act;
  uw_fr : nchain (semu s) (semfup s) fr;
  uw_nda : NoDup act;
  uw_ndf : NoDup fr;
  uw_un : ∀ u x, semu s !! u = Some x → un_ok (s_info s) x ∧ (u ∈ act ↔ un_cnt x ≠ 0);
  uw_dis : ∀ u, u ∈ act → u ∉ fr;
  uw_own : ∀ p u, owns s p u → (u < length (semu s))%nat ∧ u ∉ fr;
  uw_inj : ∀ p q u, owns s p u → owns s q u → p = q;
  uw_all : ∀ u, (u < length (semu s))%nat → u ∈ fr ∨ ∃ p, owns s p u
}.

Definition adj (s : semsys) (p : nat) : gmap (Z * Z) Z :=
  match sem_undo s !! p with
  | Some (Some u) => match semu s !! u with Some x => amap (active x) | None => ∅ end
  | _ => ∅
  end.

Definition room (s : semsys) (p : nat) : bool :=
  match sem_undo s !! p with
  | Some (Some u) => true
  | _ => bool_decide (semfup s ≠ None)
  end.

(** What [semaoe], [semunrm] and [semexit_end] do not touch. *)
Definition undo_only (s s' : semsys) : Prop :=
  s_info s' = s_info s ∧ sema s' = sema s ∧ sem s' = sem s ∧ semmap s' = semmap s ∧ hrestime s' = hrestime s ∧ cvs s' = cvs s ∧
  length (sem_undo s') = length (sem_undo s).

Lemma undo_only_refl s : undo_only s s.
Proof. done. Qed.

Lemma undo_only_trans s1 s2 s3 : undo_only s1 s2 → undo_only s2 s3 → undo_only s1 s3.
Proof. unfold undo_only. intros (?&?&?&?&?&?&?) (?&?&?&?&?&?&?). split_and!; congruence. Qed.

Lemma owns_inv s p u x : owns s p u → semu s !! u = Some x → adj s p = amap (active x).
Proof. unfold owns, adj. by intros -> ->. Qed.

Lemma active_app np n l rest : n = Z.of_nat (length l) → active (MkUn np n (l ++ rest)) = l.
Proof. intros ->. unfold active. simpl. by rewrite Nat2Z.id, take_app_length. Qed.

Lemma un_split i x : un_ok i x → ∃ rest, un_ent x = active x ++ rest ∧ un_cnt x = Z.of_nat (length (active x)).
Proof. intros []. exists (drop (Z.to_nat (un_cnt x)) (un_ent x)). unfold active. rewrite take_drop, length_take. split; [done|]. lia. Qed.

Lemma un_adj_ok i x : un_ok i x → adj_ok i (amap (active x)).
Proof.
  intros Hx. destruct (un_split _ _ Hx) as (rest & _ & El). destruct Hx as [_ Hc Hs He]. split; [rewrite amap_size by done; lia|].
  intros k a (e & He' & _ & <-)%amap_lookup; [|done]. rewrite list.Forall_forall in He. destruct (He _ He') as (? & ? & _). done.
Qed.

(** A change to one structure. *)
Lemma undo_wf_upd act fr s act' us np up x' : undo_wf act fr s →
  length us = length (semu s) →
  (∀ v y, v ≠ up → semu s !! v = Some y → ∃ y', us !! v = Some y' ∧ un_cnt y' = un_cnt y ∧ un_ent y' = un_ent y) →
  us !! up = Some x' → un_ok (s_info s) x' → (up ∈ act' ↔ un_cnt x' ≠ 0) → (∀ v, v ≠ up → v ∈ act' ↔ v ∈ act) →
  nchain us np act' → nchain us (semfup s) fr → NoDup act' → up ∉ fr → undo_wf act' fr (set_semunp np (set_semu us s)).
Proof.
  intros [] Hl Ho Hup Hok Hi Hact Hc Hf Hn Hupf. constructor; simpl; rewrite ?Hl; auto.
  - intros u y Hy. destruct (decide (u = up)) as [->|Hne]; [simplify_eq; done|].
    destruct (lookup_lt_is_Some_2 (semu s) u) as [z Hz]; [rewrite <- Hl; by eapply lookup_lt_Some|]. destruct (Ho u z Hne Hz) as (z' & ? & Ec & Ee). simplify_eq.
    destruct (uw_un0 u z Hz) as [Hzok Hza]. rewrite Hact, Ec by done. split; [|done]. destruct Hzok. unfold active in *. constructor; unfold active; by rewrite ?Ec, ?Ee.
  - intros u Hu. destruct (decide (u = up)) as [->|Hne]; [done|]. apply uw_dis0. by apply Hact.
Qed.

(** ** [semaoe] *)

(** A change that [semaoe] makes to the structure [up]: [x'] is what it becomes. *)
Record un_changed (act fr : list nat) (up : nat) (s s' : semsys) (x' : sem_undo_t) : Prop := MkUnChanged {
  uc_wf : undo_wf act fr s';
  uc_only : undo_only s s';
  uc_tbl : sem_undo s' = sem_undo s;
  uc_fup : semfup s' = semfup s;
  uc_len : length (semu s') = length (semu s);
  uc_un : semu s' !! up = Some x';
  uc_rest : ∀ v y, v ≠ up → semu s !! v = Some y → ∃ y', semu s' !! v = Some y' ∧ un_cnt y' = un_cnt y ∧ un_ent y' = un_ent y
}.

Lemma un_changed_refl act fr up s x : undo_wf act fr s → semu s !! up = Some x → un_changed act fr up s s x.
Proof. intros. constructor; auto using undo_only_refl. intros v y _ Hy. by exists y. Qed.

Lemma rest_insert (up : nat) x' (us : list sem_undo_t) v y : v ≠ up → us !! v = Some y → ∃ y' : sem_undo_t, <[up := x']> us !! v = Some y' ∧ un_cnt y' = un_cnt y ∧ un_ent y' = un_ent y.
Proof. intros. exists y. by rewrite list_lookup_insert_ne. Qed.

(** The structure stays on the list. *)
Lemma un_modify act fr s up x x' : undo_wf act fr s → semu s !! up = Some x → un_cnt x ≠ 0 → un_np x' = un_np x → un_ok (s_info s) x' → un_cnt x' ≠ 0 →
  un_changed act fr up s (set_semu (<[up := x']> (semu s)) s) x'.
Proof.
  intros Hwf Hx Hc Hnp Hok Hc'. assert (up ∈ act) as Hact by (by apply (uw_un _ _ _ Hwf up x Hx)). constructor; [|by constructor|done|done|apply length_insert|simpl; by rewrite list_lookup_insert_eq by (by eapply lookup_lt_Some)|intros; by apply rest_insert].
  replace (set_semu _ s) with (set_semunp (semunp s) (set_semu (<[up := x']> (semu s)) s)) by (by destruct s).
  apply (undo_wf_upd act fr s act _ _ up x'); try done.
  - apply length_insert.
  - intros. by apply rest_insert.
  - by rewrite list_lookup_insert_eq by (by eapply lookup_lt_Some).
  - eapply nchain_insert_np; [by eapply uw_act|done|done].
  - apply nchain_insert; [by eapply uw_fr|by eapply uw_dis].
  - by eapply uw_nda.
  - by eapply uw_dis.
Qed.

(** It goes on the list. *)
Lemma un_activate act fr s up x x' : undo_wf act fr s → semu s !! up = Some x → un_cnt x = 0 → up ∉ fr → un_np x' = semunp s → un_ok (s_info s) x' → un_cnt x' ≠ 0 →
  un_changed (up :: act) fr up s (set_semunp (Some up) (set_semu (<[up := x']> (semu s)) s)) x'.
Proof.
  intros Hwf Hx Hc Hfr Hnp Hok Hc'. assert (up ∉ act) as Hact. { intros Hin. by apply (uw_un _ _ _ Hwf up x Hx) in Hin. }
  assert (<[up := x']> (semu s) !! up = Some x') as Hup by (by rewrite list_lookup_insert_eq by (by eapply lookup_lt_Some)).
  constructor; [|by constructor|done|done|apply length_insert|done|intros; by apply rest_insert].
  apply (undo_wf_upd act fr s (up :: act) _ _ up x'); try done.
  - apply length_insert.
  - intros. by apply rest_insert.
  - split; [done|]. intros _. left.
  - intros v Hv. rewrite elem_of_cons. naive_solver.
  - split; [done|]. exists x'. split; [done|]. rewrite Hnp. apply nchain_insert; [by eapply uw_act|done].
  - apply nchain_insert; [by eapply uw_fr|done].
  - apply list.NoDup_cons. split; [done|by eapply uw_nda].
Qed.

Lemma un_ok_np i x n : un_ok i x → un_ok i (set_np n x).
Proof. by intros []. Qed.

(** Its last entry is gone: it goes off the list. *)
Lemma un_deactivate act fr s up x x' : undo_wf act fr s → semu s !! up = Some x → up ∉ fr → un_np x' = un_np x → un_ok (s_info s) x' → un_cnt x' = 0 →
  ∃ us h, (s ← unlink up (set_semu (<[up := x']> (semu s)) s); upd_un up (set_np None) s) = Ok (set_semunp h (set_semu us s)) ∧
    un_changed (without up act) fr up s (set_semunp h (set_semu us s)) (set_np None x').
Proof.
  intros Hwf Hx Hfr Hnp Hok Hc'. set (s1 := set_semu _ s).
  assert (<[up := x']> (semu s) !! up = Some x') as Hup by (by rewrite list_lookup_insert_eq by (by eapply lookup_lt_Some)).
  destruct (unlink_ok s1 act up x') as (us & h & E & [Hl Hs] & Hus & Hc); [|by eapply uw_nda|done|].
  { eapply nchain_insert_np; [exact (uw_act _ _ _ Hwf)|done|done]. }
  rewrite E. cbn [mbind res_bind]. rewrite (upd_un_ok _ _ _ x') by done. simpl.
  exists (<[up := set_np None x']> us), h. split; [done|]. simpl in Hl. rewrite length_insert in Hl.
  assert (<[up := set_np None x']> us !! up = Some (set_np None x')) as Hup2 by (by rewrite list_lookup_insert_eq by (by eapply lookup_lt_Some)).
  assert (∀ v y, v ≠ up → semu s !! v = Some y → ∃ y', <[up := set_np None x']> us !! v = Some y' ∧ un_cnt y' = un_cnt y ∧ un_ent y' = un_ent y) as Hrest.
  { intros v y Hv Hy. rewrite list_lookup_insert_ne by done. destruct (Hs v y) as (y' & ? & ? & ? & _); [simpl; by rewrite list_lookup_insert_ne|]. by exists y'. }
  constructor; [|by constructor|done|done|simpl; by rewrite length_insert|done|done].
  apply (undo_wf_upd act fr s (without up act) _ _ up (set_np None x')); try done.
  - by rewrite length_insert.
  - by apply un_ok_np.
  - rewrite elem_without. simpl. naive_solver.
  - intros v Hv. rewrite elem_without. naive_solver.
  - apply nchain_insert; [done|]. rewrite elem_without. naive_solver.
  - apply nchain_insert; [|done]. apply (nchain_same (<[up := x']> (semu s))); [apply nchain_insert; [by eapply uw_fr|done]|].
    intros u y Hu Hy. destruct (Hs u y Hy) as (y' & Hy' & _ & _ & Heq). exists y'. split; [done|]. rewrite Heq; [done|]. intros Hin. by eapply uw_dis.
  - apply list.NoDup_filter. by eapply uw_nda.
Qed.

Lemma aoe_entry_new act fr s up x val id num l1 l2 rest : undo_wf act fr s → info_ok (s_info s) → semu s !! up = Some x → up ∉ fr → ent_ok (s_info s) (MkUndo (- val) num id) →
  un_cnt x < semume (s_info s) → active x = l1 ++ l2 → un_ent x = l1 ++ l2 ++ rest → Forall (λ e, key_lt (ent_key e) (id, num)) l1 → Forall (λ e, key_lt (id, num) (ent_key e)) l2 →
  ∃ s' act' x', (s ← (if un_cnt x =? 0 then s ← upd_un up (set_np (semunp s)) s; Ok (set_semunp (Some up) s) else Ok s);
      ent ← move_up (Z.to_nat (un_cnt x) - length l1) (length l1) (un_ent x);
      ent ← nset (length l1) (MkUndo (s16 (- val)) num id) ent;
      s ← upd_un up (λ x, set_ent ent (set_cnt (un_cnt x + 1) x)) s;
      Ok (0, s)) = Ok (0, s') ∧ un_changed act' fr up s s' x' ∧ active x' = l1 ++ MkUndo (- val) num id :: l2.
Proof.
  intros Hwf Hi Hx Hfr He Hlt Ea Ee H1 H2. pose proof (uw_un _ _ _ Hwf up x Hx) as [Hok Hact]. destruct (un_split _ _ Hok) as (rest' & Er & Ec). pose proof (uo_len _ _ Hok) as Hlen.
  rewrite Ea, length_app in Ec. assert (s16 (- val) = - val) as -> by (apply s16_small; destruct He as (_ & Hr & _), Hi; simpl in Hr; lia).
  destruct rest as [|y rest]; [rewrite Ee, !length_app in Hlen; simpl in Hlen; lia|].
  destruct (move_up_ok (Z.to_nat (un_cnt x) - length l1) (length l1) l1 l2 y rest eq_refl ltac:(lia)) as [z Hz]. rewrite Ee, Hz. cbn [mbind res_bind].
  set (e := MkUndo (- val) num id) in *. set (x' := MkUn (if un_cnt x =? 0 then semunp s else un_np x) (un_cnt x + 1) ((l1 ++ e :: l2) ++ rest)).
  assert (active x' = l1 ++ e :: l2) as Ea' by (apply active_app; rewrite length_app; simpl; lia).
  assert (un_ok (s_info s) x') as Hok'.
  { destruct Hok as [_ Hc Hs Hf]. rewrite Ea in Hs, Hf. constructor; rewrite ?Ea'; simpl.
    - rewrite <- Hlen, Ee, !length_app. simpl. rewrite ?length_app. simpl. lia.
    - lia.
    - by apply ents_insert.
    - apply list.Forall_app in Hf as [? ?]. apply list.Forall_app. split; [done|]. by constructor. }
  destruct (Z.eqb_spec (un_cnt x) 0) as [E0|E0].
  - rewrite (upd_un_ok _ _ _ x) by done. cbn [mbind res_bind]. rewrite nset_mid by done. cbn [mbind res_bind].
    rewrite (upd_un_ok _ _ _ (set_np (semunp s) x)) by (simpl; by rewrite list_lookup_insert_eq by (by eapply lookup_lt_Some)). cbn [mbind res_bind]. eexists _, _, x'. split; [done|]. split; [|done].
    cbn [semu set_semu set_semunp]. rewrite list_insert_insert_eq.
    replace (set_ent _ _) with x' by (unfold x', set_ent, set_cnt, set_np; simpl; by rewrite <- (assoc_L (++))). apply (un_activate act fr s up x x'); try done. simpl. lia.
  - cbn [mbind res_bind]. rewrite nset_mid by done. cbn [mbind res_bind]. rewrite (upd_un_ok _ _ _ x) by done. cbn [mbind res_bind]. eexists _, act, x'. split; [done|]. split; [|done].
    replace (set_ent _ _) with x' by (unfold x', set_ent, set_cnt; simpl; by rewrite <- (assoc_L (++))). apply (un_modify act fr s up x x'); try done. simpl. lia.
Qed.

Lemma aoe_entry_gone act fr s up x l1 e y l2 rest : undo_wf act fr s → semu s !! up = Some x → up ∉ fr →
  active x = l1 ++ e :: l2 → un_ent x = l1 ++ e :: l2 ++ rest →
  ∃ s' act' x', (ent ← move_down (Z.to_nat (un_cnt x) - 1 - length l1) (length l1) (l1 ++ y :: l2 ++ rest);
      s ← upd_un up (λ x, set_ent ent (set_cnt (un_cnt x - 1) x)) s;
      if un_cnt x - 1 =? 0 then s ← unlink up s; s ← upd_un up (set_np None) s; Ok (0, s) else Ok (0, s)) = Ok (0, s') ∧ un_changed act' fr up s s' x' ∧ active x' = l1 ++ l2.
Proof.
  intros Hwf Hx Hfr Ea Ee. pose proof (uw_un _ _ _ Hwf up x Hx) as [Hok Hact]. destruct (un_split _ _ Hok) as (rest' & Er & Ec). pose proof (uo_len _ _ Hok) as Hlen.
  rewrite Ea, length_app in Ec. simpl in Ec.
  destruct (move_down_ok (Z.to_nat (un_cnt x) - 1 - length l1) (length l1) l1 l2 y rest eq_refl ltac:(lia)) as [z Hz]. rewrite Hz. cbn [mbind res_bind].
  rewrite (upd_un_ok _ _ _ x) by done. cbn [mbind res_bind]. set (x' := set_ent _ _).
  assert (active x' = l1 ++ l2) as Ea'. { unfold x', set_ent, set_cnt. simpl. rewrite (assoc_L (++)). apply active_app. rewrite length_app. lia. }
  assert (un_ok (s_info s) x') as Hok'.
  { destruct Hok as [_ Hc Hs Hf]. rewrite Ea in Hs, Hf. constructor; rewrite ?Ea'; simpl.
    - rewrite <- Hlen, Ee, !length_app. simpl. rewrite !length_app. simpl. lia.
    - lia.
    - by eapply sorted_drop_mid.
    - apply list.Forall_app in Hf as [? Hf]. inversion Hf; subst. by apply list.Forall_app. }
  destruct (Z.eqb_spec (un_cnt x - 1) 0) as [E0|E0].
  - destruct (un_deactivate act fr s up x x' Hwf Hx Hfr eq_refl Hok') as (us & h & E & Hch); [simpl; lia|].
    apply bind_ok in E as (s2 & E1 & E2). rewrite E1. cbn [mbind res_bind]. rewrite E2. cbn [mbind res_bind]. by eexists _, _, _.
  - eexists _, act, x'. split; [done|]. split; [|done]. apply (un_modify act fr s up x x'); try done; simpl; lia.
Qed.

(** How the result of a call compares with [aoe_spec]: a refusal leaves the adjustments [m]. *)
Definition aoe_agrees (r : Z + gmap (Z * Z) Z) (e : Z) (m m' : gmap (Z * Z) Z) : Prop :=
  match r with
  | inl e' => e = e' ∧ e' ≠ 0 ∧ m' = m
  | inr m'' => e = 0 ∧ m' = m''
  end.

Lemma mod16 x q r : 0 ≤ r < 65536 → x = 65536 * q + r → x mod 65536 = r.
Proof. intros H E. symmetry. by apply (Z.mod_unique_pos _ _ q). Qed.

Lemma wrap_seen a aem val : 0 ≤ aem ≤ 21845 → - aem ≤ a ≤ aem → - aem ≤ val ≤ aem →
  (aem <? s16 (a - val)) || (s16 (a - val) <? - aem) = (aem <? a - val) || (a - val <? - aem) ∧ s16 (s16 (a - val) + val) = a.
Proof.
  intros H1 H2 H3. unfold s16. assert (a - val < -32768 ∨ -32768 ≤ a - val < 32768 ∨ 32768 ≤ a - val) as [Hc|[Hc|Hc]] by lia.
  - assert ((a - val + 32768) mod 65536 = a - val + 98304) as -> by (symmetry; apply Z.mod_unique_pos with (-1); lia). split; [|rewrite (mod16 _ 1 (a + 32768)); lia].
    rewrite (proj2 (Z.ltb_lt aem _)), (proj2 (Z.ltb_lt (a - val) _)) by lia. by rewrite orb_true_r.
  - rewrite (Z.mod_small (a - val + 32768)) by lia. replace (a - val + 32768 - 32768) with (a - val) by lia. split; [done|]. rewrite Z.mod_small by lia. lia.
  - assert ((a - val + 32768) mod 65536 = a - val - 32768) as -> by (apply (mod16 _ 1); lia). split; [|rewrite (mod16 _ (-1) (a + 32768)); lia].
    rewrite (proj2 (Z.ltb_lt _ (- aem))), (proj2 (Z.ltb_lt aem (a - val))) by lia. by rewrite orb_true_r.
Qed.

Lemma aoe_entry_ok act fr s up x val id num : undo_wf act fr s → info_ok (s_info s) → semu s !! up = Some x → up ∉ fr → val ≠ 0 → - semaem (s_info s) ≤ val ≤ semaem (s_info s) → 0 ≤ num < 65536 →
  ∃ e s' act' x', aoe_entry up val id num s = Ok (e, s') ∧ un_changed act' fr up s s' x' ∧
    aoe_agrees (aoe_spec (s_info s) true (id, num) val (amap (active x))) e (amap (active x)) (amap (active x')).
Proof.
  intros Hwf Hi Hx Hfr Hv Hr Hnum. pose proof (uw_un _ _ _ Hwf up x Hx) as [Hok _]. destruct (un_split _ _ Hok) as (rest & Er & Ec). pose proof (uo_sorted _ _ Hok) as Hs.
  unfold aoe_entry. rewrite (nget_ok _ _ _ Hx). cbn [mbind res_bind].
  destruct (undo_search_ok (Z.to_nat (un_cnt x)) (un_ent x) 0 id num [] (active x) rest) as (l1 & l2 & found & Ea & E & H1 & H2); [done|done|lia|done|].
  rewrite E. cbn [mbind res_bind]. rewrite Nat.add_0_l. rewrite Ea, <- (assoc_L (++)) in Er. unfold aoe_spec.
  rewrite (proj2 (Z.eqb_neq val 0)), (proj2 (Z.ltb_ge (semaem (s_info s)) val)), (proj2 (Z.ltb_ge val (- semaem (s_info s)))) by lia. cbn [orb negb].
  destruct found; cbn [negb].
  - destruct H2 as (e & l3 & -> & Hk). rewrite Er. cbn [app]. rewrite nget_mid by done. cbn [mbind res_bind]. rewrite Ea, amap_mid by (by rewrite <- Ea). rewrite Hk, lookup_insert_eq.
    pose proof (uo_ents _ _ Hok) as He. rewrite Ea in He, Hs. apply list.Forall_app in He as [He1 He2]. inversion He2 as [|? ? (He & Hb & Hn) He3]; subst.
    destruct (wrap_seen (un_aoe e) (semaem (s_info s)) val) as [Hw Hw2]; [by apply Hi|done|done|]. rewrite Hw.
    destruct ((semaem (s_info s) <? un_aoe e - val) || (un_aoe e - val <? - semaem (s_info s))) eqn:Ebad.
    + rewrite nset_mid by done. cbn [mbind res_bind]. rewrite (upd_un_ok _ _ _ x) by done. cbn [mbind res_bind]. eexists _, _, act, x. split; [done|].
      rewrite Hw2. replace (MkUndo _ _ _) with e by (by destruct e). change (l1 ++ e :: l3 ++ rest) with (l1 ++ (e :: l3) ++ rest). rewrite <- Er. replace (set_ent (un_ent x) x) with x by (by destruct x). rewrite list_insert_id by done. rewrite set_same.
      split; [by apply un_changed_refl|]. simpl. split_and!; [done|done|]. rewrite Ea, amap_mid by done. by rewrite Hk.
    + rewrite nset_mid by done. cbn [mbind res_bind]. apply orb_false_iff in Ebad as [Eb1 Eb2]. prop_bool. assert (s16 (un_aoe e - val) = un_aoe e - val) as Es by (apply s16_small; destruct Hi; lia).
      rewrite Es. case_if.
      * destruct (aoe_entry_gone act fr s up x l1 e (MkUndo (un_aoe e - val) (un_num e) (un_id e)) l3 rest) as (s' & act' & x' & E' & Hch & Ea'); try done.
        exists 0, s', act', x'. split; [done|]. split; [done|]. split; [done|]. rewrite Ea'. rewrite delete_insert_eq. symmetry. apply delete_id. rewrite <- Hk. by apply amap_fresh.
      * set (e' := MkUndo _ _ _). rewrite (upd_un_ok _ _ _ x) by done. cbn [mbind res_bind]. set (x' := set_ent _ x).
        assert (ent_key e' = ent_key e) as Hk' by done. assert (active x' = l1 ++ e' :: l3) as Ea'.
        { unfold x', set_ent. change (l1 ++ e' :: l3 ++ rest) with (l1 ++ (e' :: l3) ++ rest). rewrite (assoc_L (++)). apply active_app. rewrite Ec, Ea, !length_app. done. }
        eexists _, _, act, x'. split; [done|]. split; [apply un_modify with x; try done; [rewrite Ec, Ea, length_app; simpl; lia| |change (un_cnt x') with (un_cnt x); rewrite Ec, Ea, length_app; simpl; lia]|].
        -- destruct Hok as [Hl Hc _ _]. constructor; rewrite ?Ea'; simpl; [rewrite <- Hl, Er; simpl; rewrite ?length_app; simpl; by rewrite ?length_app|done|by apply (sorted_same_key l1 e)|]. apply list.Forall_app. split; [done|]. constructor; [|done]. unfold ent_ok. simpl. lia.
        -- simpl. split; [done|]. rewrite Ea', amap_mid by (by apply (sorted_same_key l1 e)). rewrite Hk', Hk. simpl. by rewrite insert_insert_eq.
  - assert (amap (active x) !! (id, num) = None) as Hno by (rewrite Ea; by apply amap_absent). rewrite Hno, amap_size by done. rewrite <- Ec. case_if.
    + eexists _, _, act, x. split; [done|]. split; [by apply un_changed_refl|]. done.
    + destruct (aoe_entry_new act fr s up x val id num l1 l2 rest) as (s' & act' & x' & E' & Hch & Ea'); try done; [repeat split; simpl; lia|].
      exists 0, s', act', x'. split; [done|]. split; [done|]. split; [done|]. rewrite Ea', Ea. rewrite Ea in Hs. rewrite amap_mid; [done|]. by apply ents_insert.
Qed.

Definition undo_inv (s : semsys) : Prop := ∃ act fr, undo_wf act fr s.

(** The adjustments after a change to the structure of [p]. *)
Lemma un_changed_adj act act' fr p up s s' x' : undo_wf act fr s → un_changed act' fr up s s' x' → owns s p up →
  adj s' p = amap (active x') ∧ ∀ q, q ≠ p → adj s' q = adj s q.
Proof.
  intros Hwf [_ _ Ht _ Hl Hx Hr] Ho. split; [apply owns_inv with up; [unfold owns; by rewrite Ht|done]|].
  intros q Hq. unfold adj. rewrite Ht. destruct (sem_undo s !! q) as [[u|]|] eqn:Eq; [|done|done].
  assert (u ≠ up) as Hu. { intros ->. apply Hq. by apply (uw_inj _ _ _ Hwf q p up). }
  destruct (semu s !! u) as [y|] eqn:Ey; [|apply lookup_ge_None in Ey; rewrite <- Hl in Ey; by apply lookup_ge_None in Ey as ->].
  destruct (Hr u y Hu Ey) as (y' & -> & Ec & Ee). unfold active. by rewrite Ec, Ee.
Qed.

Lemma un_alloc act fr s p u x : undo_wf act fr s → sem_undo s !! p = Some None → semfup s = Some u → semu s !! u = Some x →
  let s' := set_sem_undo (<[p := Some u]> (sem_undo s)) (set_semu (<[u := set_np None x]> (semu s)) (set_semfup (un_np x) s)) in
  un_cnt x = 0 ∧ (∃ fr', undo_wf act fr' s' ∧ u ∉ fr') ∧ ∀ q, adj s' q = adj s q.
Proof.
  intros [] Hp Hf Hx s'. destruct fr as [|v fr]; [simpl in uw_fr0; congruence|]. destruct uw_fr0 as (E & y & Hy & Hc). rewrite Hf in E. injection E as <-. assert (y = x) as -> by congruence.
  apply list.NoDup_cons in uw_ndf0 as [Hu Hn]. assert (u ∉ act) as Hact by (intros Hin; apply (uw_dis0 u Hin); left).
  destruct (uw_un0 u x Hx) as [Hok Hin]. assert (un_cnt x = 0) as Hcnt by (destruct (Z.eq_dec (un_cnt x) 0); [done|]; exfalso; apply Hact; by apply Hin). split; [done|].
  assert (∀ q v, owns s' q v ↔ (q = p ∧ v = u) ∨ (q ≠ p ∧ owns s q v)) as Hown.
  { intros q v. unfold owns. simpl. destruct (decide (q = p)) as [->|Hne].
    - rewrite list_lookup_insert_eq by (by eapply lookup_lt_Some). naive_solver.
    - rewrite list_lookup_insert_ne by done. naive_solver. }
  split.
  - exists fr. split; [|done]. constructor; simpl; rewrite ?length_insert; auto.
    + by apply nchain_insert.
    + by apply nchain_insert.
    + intros v z Hz. destruct (decide (v = u)) as [->|Hne].
      * rewrite list_lookup_insert_eq in Hz by (by eapply lookup_lt_Some). injection Hz as <-. split; [by apply un_ok_np|done].
      * rewrite list_lookup_insert_ne in Hz by done. by apply uw_un0.
    + intros v Hv Hvf. apply (uw_dis0 v Hv). by right.
    + intros q v [[-> ->]|[Hq Ho]]%Hown; [split; [by eapply lookup_lt_Some|done]|]. destruct (uw_own0 q v Ho) as [? Hv]. split; [done|]. intros Hin2. apply Hv. by right.
    + intros q r v [[-> ->]|[Hq Ho]]%Hown [[-> Hv]|[Hr Ho2]]%Hown; simplify_eq; [done| | |by eapply uw_inj0].
      * exfalso. apply (uw_own0 r u Ho2). left.
      * exfalso. apply (uw_own0 q u Ho). left.
    + intros v Hv. destruct (decide (v = u)) as [->|Hne]; [right; exists p; apply Hown; by left|].
      destruct (uw_all0 v Hv) as [[->|Hin2]%elem_of_cons|[q Ho]]; [done|by left|]. right. exists q. apply Hown. right. split; [|done]. intros ->. unfold owns in Ho. congruence.
  - intros q. unfold adj. simpl. destruct (decide (q = p)) as [->|Hne].
    + rewrite list_lookup_insert_eq by (by eapply lookup_lt_Some). rewrite Hp, list_lookup_insert_eq by (by eapply lookup_lt_Some). unfold active. simpl. by rewrite Hcnt.
    + rewrite list_lookup_insert_ne by done. destruct (sem_undo s !! q) as [[v|]|] eqn:Eq; [|done..]. rewrite list_lookup_insert_ne; [done|]. intros ->. apply (uw_own0 q v Eq). left.
Qed.

(** [semaoe] does what [aoe_spec] says to the adjustments of the caller. *)
Lemma semaoe_ok w val id num s : undo_inv s → info_ok (s_info s) → (w_slot w < length (sem_undo s))%nat → 0 ≤ num < 65536 →
  ∃ e s', semaoe w val id num s = Ok (e, s') ∧ undo_inv s' ∧ undo_only s s' ∧ (∀ q, q ≠ w_slot w → adj s' q = adj s q) ∧ room s' (w_slot w) = room s (w_slot w) ∧
    aoe_agrees (aoe_spec (s_info s) (room s (w_slot w)) (id, num) val (adj s (w_slot w))) e (adj s (w_slot w)) (adj s' (w_slot w)).
Proof.
  intros (act & fr & Hwf) Hi Hw Hn. unfold semaoe, aoe_spec. set (p := w_slot w) in *. assert (undo_inv s) as Hinv by by exists act, fr.
  destruct (Z.eqb_spec val 0) as [->|Hv]; [exists 0, s; do 2 (split; [done|]); split; [apply undo_only_refl|done]|].
  destruct ((semaem (s_info s) <? val) || (val <? - semaem (s_info s))) eqn:Er; [exists ERANGE, s; do 2 (split; [done|]); split; [apply undo_only_refl|done]|].
  apply orb_false_iff in Er as [Er1 Er2]. prop_bool. destruct (lookup_lt_is_Some_2 _ _ Hw) as [o Ho]. rewrite (nget_ok _ _ _ Ho). cbn [mbind res_bind]. destruct o as [up|].
  - destruct (uw_own _ _ _ Hwf p up Ho) as [Hl Hfr]. destruct (lookup_lt_is_Some_2 _ _ Hl) as [x Hx].
    destruct (aoe_entry_ok act fr s up x val id num Hwf Hi Hx Hfr Hv ltac:(lia) Hn) as (e & s' & act' & x' & E & Hch & Hag).
    destruct (un_changed_adj _ _ _ _ _ _ _ _ Hwf Hch Ho) as [Hp Hq]. exists e, s'. split; [done|]. split; [exists act', fr; apply Hch|]. split; [apply Hch|]. split; [done|].
    split; [unfold room; rewrite (uc_tbl _ _ _ _ _ _ Hch), (uc_fup _ _ _ _ _ _ Hch); done|]. unfold room. rewrite Ho, Hp, (owns_inv _ _ _ _ Ho Hx).
    unfold aoe_spec in Hag. rewrite (proj2 (Z.eqb_neq val 0)), (proj2 (Z.ltb_ge (semaem (s_info s)) val)), (proj2 (Z.ltb_ge val (- semaem (s_info s)))) in Hag by lia. done.
  - destruct (semfup s) as [u|] eqn:Ef.
    + assert (∃ x, semu s !! u = Some x) as [x Hx]. { destruct fr as [|v fr]; [by rewrite (uw_fr _ _ _ Hwf) in Ef|]. destruct (uw_fr _ _ _ Hwf) as (E & y & Hy & _). exists y. congruence. }
      rewrite (nget_ok _ _ _ Hx). cbn [mbind res_bind]. rewrite (upd_un_ok _ _ _ x) by done. cbn [mbind res_bind]. rewrite nset_ok by done. cbn [mbind res_bind].
      destruct (un_alloc act fr s p u x Hwf Ho Ef Hx) as (Hc & (fr' & Hwf' & Hfr) & Hadj). simpl. set (s1 := set_sem_undo _ _) in *.
      assert (semu s1 !! u = Some (set_np None x)) as Hx1 by (simpl; by rewrite list_lookup_insert_eq by (by eapply lookup_lt_Some)).
      assert (owns s1 p u) as Ho1 by (unfold owns; simpl; by rewrite list_lookup_insert_eq by (by eapply lookup_lt_Some)).
      destruct (aoe_entry_ok act fr' s1 u (set_np None x) val id num Hwf' Hi Hx1 Hfr Hv ltac:(simpl; lia) Hn) as (e & s' & act' & x' & E & Hch & Hag).
      destruct (un_changed_adj _ _ _ _ _ _ _ _ Hwf' Hch Ho1) as [Hp Hq]. exists e, s'. split; [done|]. split; [exists act', fr'; apply Hch|].
      split; [eapply undo_only_trans; [|apply Hch]; repeat split; simpl; apply length_insert|]. split; [intros q Hq'; by rewrite Hq, Hadj|].
      split; [unfold room; rewrite (uc_tbl _ _ _ _ _ _ Hch); unfold owns in Ho1; rewrite Ho1, Ho, Ef; done|]. unfold room. rewrite Ho, Hp, Ef, <- Hadj, (owns_inv _ _ _ _ Ho1 Hx1).
      unfold aoe_spec in Hag. rewrite (proj2 (Z.eqb_neq val 0)), (proj2 (Z.ltb_ge (semaem (s_info s1)) val)), (proj2 (Z.ltb_ge val (- semaem (s_info s1)))) in Hag by (simpl; lia). done.
    + exists ENOSPC, s. do 2 (split; [done|]). split; [apply undo_only_refl|]. do 2 (split; [done|]). unfold room. rewrite Ho, Ef. done.
Qed.
