(* ===== verification/SemOps.v ===== *)
(** * The operations of [semop]

    What a list of operations means for the values of the semaphores and the adjustments of the
    process is [ops_spec]: all of it happens or none, and then the call fails or sleeps.
    [semop_ops] does the operations one by one, and takes back those it did ([semundo_ok]) when
    one cannot be done: it implements [ops_spec] ([semop_ops_ok]).  The sleepers of a semaphore
    whose value rises or becomes zero are woken ([wakes]). *)

From S2P Require Import Prelude Bitmap Rmap Cred Sem SemList.

(** ** What the operations mean *)

Definition vals (s : semsys) : list Z := semval <$> sem s.

Section spec.
Context (i : seminfo) (r : bool) (semid base : Z).

Definition flag_spec (op : sembuf) (m : gmap (Z * Z) Z) : Z + gmap (Z * Z) Z :=
  if undo_flag op then aoe_spec i r (semid, sem_num op) (sem_op op) m else inr m.

(** One operation. *)
Definition op_spec (op : sembuf) (v : list Z) (m : gmap (Z * Z) Z) : turn + list Z * gmap (Z * Z) Z :=
  let k := base + sem_num op in
  let x := default 0 (v !! Z.to_nat k) in
  if sem_op op =? 0 then
    if x =? 0 then inr (v, m) else inl (if nowait op then Fails EAGAIN else Waits k true)
  else if (sem_op op <? 0) && (x <? - sem_op op) then inl (if nowait op then Fails EAGAIN else Waits k false)
  else if (0 <? sem_op op) && (semvmx i <? sem_op op + x) then inl (Fails ERANGE)
  else match flag_spec op m with
       | inl e => inl (Fails e)
       | inr m => inr (<[Z.to_nat k := x + sem_op op]> v, m)
       end.

Fixpoint ops_spec (ops : list sembuf) (v : list Z) (m : gmap (Z * Z) Z) : turn + list Z * gmap (Z * Z) Z :=
  match ops with
  | [] => inr (v, m)
  | op :: ops => match op_spec op v m with inl t => inl t | inr (v, m) => ops_spec ops v m end
  end.

Lemma ops_spec_app ops1 ops2 v m : ops_spec (ops1 ++ ops2) v m = match ops_spec ops1 v m with inl t => inl t | inr (v, m) => ops_spec ops2 v m end.
Proof. revert v m. induction ops1 as [|op ops1 IH]; intros v m; [done|]. simpl. destruct (op_spec op v m) as [t|[v' m']]; [done|apply IH]. Qed.

(** What an operation may be: the values are those of C's types. *)
Definition op_ok (n : nat) (op : sembuf) : Prop :=
  -32768 ≤ sem_op op < 32768 ∧ 0 ≤ sem_num op < 65536 ∧ 0 ≤ base + sem_num op < Z.of_nat n.

Definition vals_ok (v : list Z) : Prop := Forall (λ x, 0 ≤ x ≤ semvmx i) v.

Lemma op_spec_ok op v m v' m' : 0 ≤ semvmx i → vals_ok v → adj_ok i m → op_spec op v m = inr (v', m') → vals_ok v' ∧ adj_ok i m' ∧ length v' = length v.
Proof.
  intros Hi Hv Hm. unfold op_spec. set (x := default 0 _). assert (0 ≤ x ≤ semvmx i) as Hb.
  { unfold x. destruct (v !! Z.to_nat (base + sem_num op)) as [y|] eqn:Hy; [|simpl; lia]. exact (Forall_lookup_1 _ _ _ _ Hv Hy). }
  destruct (Z.eqb_spec (sem_op op) 0) as [Ez|Ez]; [case_if; [|done]; intros [= <- <-]; done|].
  destruct ((sem_op op <? 0) && (x <? - sem_op op)) eqn:E1; [done|]. destruct ((0 <? sem_op op) && (semvmx i <? sem_op op + x)) eqn:E2; [done|].
  destruct (flag_spec op m) as [e|m1] eqn:Ef; [done|]. intros [= <- <-]. split; [|split; [|apply length_insert]].
  - apply Forall_insert; [done|]. apply andb_false_iff in E1, E2. destruct E1, E2; prop_bool; lia.
  - unfold flag_spec in Ef. case_if_in Ef; [eapply aoe_spec_ok; [exact Hm|exact Ef]|by injection Ef as <-].
Qed.

Lemma ops_spec_ok ops v m v' m' : 0 ≤ semvmx i → vals_ok v → adj_ok i m → ops_spec ops v m = inr (v', m') → vals_ok v' ∧ adj_ok i m' ∧ length v' = length v.
Proof.
  intros Hi. revert v m. induction ops as [|op ops IH]; intros v m Hv Hm; simpl; [by intros [= <- <-]|]. destruct (op_spec op v m) as [t|[v1 m1]] eqn:E; [done|]. intros Ho.
  destruct (op_spec_ok _ _ _ _ _ Hi Hv Hm E) as (H1 & H2 & <-). by apply (IH _ m1).
Qed.
End spec.

(** ** What a turn keeps *)

(** The counts of sleepers only fall, to zero and with a broadcast; at the semaphores of [sig] a
    signal to one sleeper is allowed for those who wait for an increase. *)
Definition cnt_at (sig : nat → bool) (new : list cvop) (i : nat) (m m' : sem_t) : Prop :=
  (semzcnt m' = semzcnt m ∨ semzcnt m' = 0 ∧ CvBroadcast (Z.of_nat i) true ∈ new) ∧
  (sig i = false → semncnt m' = semncnt m ∨ semncnt m' = 0 ∧ CvBroadcast (Z.of_nat i) false ∈ new).

(** Who waits for what happened to the value is woken. *)
Definition val_at (sig : nat → bool) (new : list cvop) (i : nat) (m m' : sem_t) : Prop :=
  (semval m ≠ 0 → semval m' = 0 → semzcnt m = 0 ∨ CvBroadcast (Z.of_nat i) true ∈ new) ∧
  (sig i = false → semval m < semval m' → semncnt m = 0 ∨ CvBroadcast (Z.of_nat i) false ∈ new).

Definition wakes (R : list cvop → nat → sem_t → sem_t → Prop) (s s' : semsys) : Prop :=
  length (sem s') = length (sem s) ∧ ∃ new, cvs s' = cvs s ++ new ∧ ∀ i m m', sem s !! i = Some m → sem s' !! i = Some m' → R new i m m'.

Definition full_at sig new i m m' : Prop := cnt_at sig new i m m' ∧ val_at sig new i m m'.

Lemma wakes_same (R : list cvop → nat → sem_t → sem_t → Prop) s s' : sem s' = sem s → cvs s' = cvs s → (∀ i m, R [] i m m) → wakes R s s'.
Proof. intros E1 E2 HR. split; [by rewrite E1|]. exists []. rewrite E1, E2, app_nil_r. split; [done|]. intros i m m' Hm Hm'. simplify_eq. apply HR. Qed.

Lemma cnt_at_refl sig i m : cnt_at sig [] i m m.
Proof. split; by left. Qed.

Lemma full_at_refl sig i m : full_at sig [] i m m.
Proof. split; [apply cnt_at_refl|]. split; [done|]. lia. Qed.

Lemma cnt_at_trans sig n1 n2 i m1 m2 m3 : cnt_at sig n1 i m1 m2 → cnt_at sig n2 i m2 m3 → cnt_at sig (n1 ++ n2) i m1 m3.
Proof.
  intros [H1 H2] [H3 H4]. split; [|intros Hs; specialize (H2 Hs); specialize (H4 Hs)]; rewrite elem_of_app.
  - destruct H1 as [H1|[H1 ?]], H3 as [H3|[H3 ?]]; [left; congruence|right; tauto|right; split; [congruence|tauto]|right; tauto].
  - destruct H2 as [H2|[H2 ?]], H4 as [H4|[H4 ?]]; [left; congruence|right; tauto|right; split; [congruence|tauto]|right; tauto].
Qed.

Lemma full_at_trans sig n1 n2 i m1 m2 m3 : full_at sig n1 i m1 m2 → full_at sig n2 i m2 m3 → full_at sig (n1 ++ n2) i m1 m3.
Proof.
  intros [C1 [H1 H2]] [C2 [H3 H4]]. split; [by eapply cnt_at_trans|]. destruct C1 as [Cz Cn]. split.
  - intros Hv Hv'. rewrite elem_of_app. destruct (Z.eq_dec (semval m2) 0) as [E|E]; [destruct (H1 Hv E); tauto|]. destruct (H3 E Hv') as [E3|]; [|tauto]. destruct Cz as [Cz|[_ ?]]; [left; congruence|tauto].
  - intros Hs Hv. rewrite elem_of_app. specialize (H2 Hs). specialize (H4 Hs). specialize (Cn Hs). destruct (Z.lt_ge_cases (semval m1) (semval m2)) as [E|E]; [destruct (H2 E); tauto|].
    destruct (H4 ltac:(lia)) as [E4|]; [|tauto]. destruct Cn as [Cn|[_ ?]]; [left; congruence|tauto].
Qed.

Lemma wakes_trans (R : list cvop → nat → sem_t → sem_t → Prop) s1 s2 s3 : (∀ n1 n2 i m1 m2 m3, R n1 i m1 m2 → R n2 i m2 m3 → R (n1 ++ n2) i m1 m3) → wakes R s1 s2 → wakes R s2 s3 → wakes R s1 s3.
Proof.
  intros HR [L1 (n1 & E1 & H1)] [L2 (n2 & E2 & H2)]. split; [congruence|]. exists (n1 ++ n2). split; [by rewrite E2, E1, <- (assoc_L (++))|]. intros i m m' Hm Hm'.
  destruct (lookup_lt_is_Some_2 (sem s2) i) as [m2 Hm2]; [rewrite L1; by eapply lookup_lt_Some|]. eapply HR; [by eapply H1|by eapply H2].
Qed.

Lemma wakes_full sig s s' : wakes (full_at sig) s s' → wakes (cnt_at sig) s s'.
Proof. intros [L (n & E & H)]. split; [done|]. exists n. split; [done|]. intros i m m' Hm Hm'. by apply (H i m m'). Qed.

Record keeps (p : nat) (s s' : semsys) : Prop := MkKeeps {
  kp_inv : undo_inv s';
  kp_info : s_info s' = s_info s;
  kp_sema : sema s' = sema s;
  kp_map : semmap s' = semmap s;
  kp_time : hrestime s' = hrestime s;
  kp_tbl : length (sem_undo s') = length (sem_undo s);
  kp_room : room s' p = room s p;
  kp_adj : ∀ q, q ≠ p → adj s' q = adj s q;
  kp_pid : sempid <$> sem s' = sempid <$> sem s
}.

Lemma keeps_refl p s : undo_inv s → keeps p s s.
Proof. by constructor. Qed.

Lemma keeps_trans p s1 s2 s3 : keeps p s1 s2 → keeps p s2 s3 → keeps p s1 s3.
Proof. intros [] []. constructor; try congruence. intros q Hq. by rewrite kp_adj1, kp_adj0. Qed.

Lemma undo_inv_sem s x : undo_inv s → undo_inv (set_sem x s).
Proof. intros (act & fr & []). exists act, fr. by constructor. Qed.

Lemma undo_inv_cv s o : undo_inv s → undo_inv (cv o s).
Proof. intros (act & fr & []). exists act, fr. by constructor. Qed.

Lemma undo_inv_sema s x : undo_inv s → undo_inv (set_sema x s).
Proof. intros (act & fr & []). exists act, fr. by constructor. Qed.

Lemma keeps_sem p s i m m' : undo_inv s → sem s !! i = Some m → sempid m' = sempid m → keeps p s (set_sem (<[i := m']> (sem s)) s).
Proof. intros Hinv Hm E. constructor; try done; [by apply undo_inv_sem|]. simpl. rewrite list_fmap_insert. apply list_insert_id. by rewrite list_lookup_fmap, Hm, E. Qed.

Lemma keeps_cv p s o : undo_inv s → keeps p s (cv o s).
Proof. intros Hinv. constructor; try done. by apply undo_inv_cv. Qed.

Lemma upd_sem_ok k f s m : 0 ≤ k → sem s !! Z.to_nat k = Some m → upd_sem k f s = Ok (set_sem (<[Z.to_nat k := f m]> (sem s)) s).
Proof. intros Hk Hm. unfold upd_sem, aget. rewrite (proj2 (Z.ltb_ge _ _)) by lia. by rewrite Hm. Qed.

Lemma aget_ok {A} (l : list A) k x : 0 ≤ k → l !! Z.to_nat k = Some x → aget l k = Ok x.
Proof. intros Hk Hx. unfold aget. rewrite (proj2 (Z.ltb_ge _ _)) by lia. by rewrite Hx. Qed.

Lemma vals_insert i m' s : vals (set_sem (<[i := m']> (sem s)) s) = <[i := semval m']> (vals s).
Proof. unfold vals. simpl. apply list_fmap_insert. Qed.

Lemma vals_lookup s i m : sem s !! i = Some m → vals s !! i = Some (semval m).
Proof. intros Hm. unfold vals. by rewrite list_lookup_fmap, Hm. Qed.

Lemma vals_length s : length (vals s) = length (sem s).
Proof. apply length_fmap. Qed.

(** A change at one semaphore. *)
Lemma wakes_site sig s s' i m m' new : sem s !! i = Some m → sem s' = <[i := m']> (sem s) → cvs s' = cvs s ++ new → full_at sig new i m m' → wakes (full_at sig) s s'.
Proof.
  intros Hm E1 E2 HR. split; [by rewrite E1, length_insert|]. exists new. split; [done|]. intros j mj mj' Hj Hj'. rewrite E1 in Hj'. destruct (decide (j = i)) as [->|Hne].
  - rewrite list_lookup_insert_eq in Hj' by (by eapply lookup_lt_Some). simplify_eq. done.
  - rewrite list_lookup_insert_ne in Hj' by done. simplify_eq. split; [split; by left|]. split; [done|]. lia.
Qed.

Lemma wakes_site_cnt sig s s' i m m' : sem s !! i = Some m → sem s' = <[i := m']> (sem s) → cvs s' = cvs s → semncnt m' = semncnt m → semzcnt m' = semzcnt m → wakes (cnt_at sig) s s'.
Proof.
  intros Hm E1 E2 En Ez. split; [by rewrite E1, length_insert|]. exists []. rewrite app_nil_r. split; [done|]. intros j mj mj' Hj Hj'. rewrite E1 in Hj'. destruct (decide (j = i)) as [->|Hne].
  - rewrite list_lookup_insert_eq in Hj' by (by eapply lookup_lt_Some). simplify_eq. split; by left.
  - rewrite list_lookup_insert_ne in Hj' by done. simplify_eq. apply cnt_at_refl.
Qed.

Lemma undo_only_wakes R s s' : undo_only s s' → (∀ i m, R [] i m m) → wakes R s s'.
Proof. intros (_ & _ & E & _ & _ & Ec & _) HR. by apply wakes_same. Qed.

Lemma semaoe_keeps w val id num s : undo_inv s → info_ok (s_info s) → (w_slot w < length (sem_undo s))%nat → 0 ≤ num < 65536 →
  ∃ e s', semaoe w val id num s = Ok (e, s') ∧ keeps (w_slot w) s s' ∧ sem s' = sem s ∧ cvs s' = cvs s ∧
    aoe_agrees (aoe_spec (s_info s) (room s (w_slot w)) (id, num) val (adj s (w_slot w))) e (adj s (w_slot w)) (adj s' (w_slot w)).
Proof.
  intros Hinv Hi Hw Hn. destruct (semaoe_ok w val id num s Hinv Hi Hw Hn) as (e & s' & E & Hinv' & (E1 & E2 & E3 & E4 & E5 & E6 & E7) & Hq & Hr & Ha).
  exists e, s'. split; [done|]. split; [constructor; try done; by rewrite E3|]. done.
Qed.

(** What a flagged operation does to the adjustments, when it is asked for. *)
Lemma flag_ok w semid op s : undo_inv s → info_ok (s_info s) → (w_slot w < length (sem_undo s))%nat → 0 ≤ sem_num op < 65536 →
  ∃ e s', (if undo_flag op then semaoe w (sem_op op) semid (sem_num op) s else Ok (0, s)) = Ok (e, s') ∧ keeps (w_slot w) s s' ∧ sem s' = sem s ∧ cvs s' = cvs s ∧
    aoe_agrees (flag_spec (s_info s) (room s (w_slot w)) semid op (adj s (w_slot w))) e (adj s (w_slot w)) (adj s' (w_slot w)).
Proof.
  intros Hinv Hi Hw Hn. unfold flag_spec. destruct (undo_flag op); [by apply semaoe_keeps|]. exists 0, s. split; [done|]. split; [by apply keeps_refl|]. done.
Qed.

(** ** Taking back *)

Lemma flag_restore i r semid op m m' : adj_ok i m → info_ok i → sem_op op ≠ 0 → -32768 ≤ sem_op op < 32768 → flag_spec i r semid op m = inr m' → undo_flag op = true →
  s16 (- sem_op op) = - sem_op op ∧ aoe_spec i r (semid, sem_num op) (- sem_op op) m' = inr m.
Proof.
  unfold flag_spec. intros Hm Hi Hz Hr E Hf. rewrite Hf in E. split; [|by eapply aoe_restore]. apply s16_small. unfold aoe_spec in E.
  rewrite (proj2 (Z.eqb_neq (sem_op op) 0)) in E by done. destruct ((semaem i <? sem_op op) || (sem_op op <? - semaem i)) eqn:Er; [done|]. apply orb_false_iff in Er as [??]. prop_bool. destruct Hi. lia.
Qed.

Lemma op_spec_inr i r semid base op v m v' m' x : v !! Z.to_nat (base + sem_num op) = Some x → op_spec i r semid base op v m = inr (v', m') →
  sem_op op = 0 ∧ v' = v ∧ m' = m ∨ sem_op op ≠ 0 ∧ v' = <[Z.to_nat (base + sem_num op) := x + sem_op op]> v ∧ flag_spec i r semid op m = inr m' ∧ 0 ≤ x + sem_op op ∧ (0 < sem_op op → x + sem_op op ≤ semvmx i) ∨ x < 0.
Proof.
  intros Hx. unfold op_spec. rewrite Hx. change (default 0 (Some x)) with x. destruct (Z.lt_ge_cases x 0) as [Hneg|Hpos]; [tauto|]. destruct (Z.eqb_spec (sem_op op) 0) as [E0|E0]; [case_if; [|done]; intros [= <- <-]; auto|].
  destruct ((sem_op op <? 0) && (x <? - sem_op op)) eqn:E1; [done|]. destruct ((0 <? sem_op op) && (semvmx i <? sem_op op + x)) eqn:E2; [done|].
  destruct (flag_spec i r semid op m) as [e|m1]; [done|]. intros [= <- <-]. right. left. split; [done|]. split; [done|]. split; [done|]. apply andb_false_iff in E1, E2. destruct E1, E2; prop_bool; lia.
Qed.

Lemma vals_at i v n x : vals_ok i v → v !! n = Some x → 0 ≤ x ≤ semvmx i.
Proof. intros Hv Hx. exact (Forall_lookup_1 _ _ _ _ Hv Hx). Qed.

Lemma u16_small z : 0 ≤ z < 65536 → u16 z = z.
Proof. apply Z.mod_small. Qed.

(** The state before the operations [rev dn]. *)
Lemma semundo_ok sig w semid base dn s v0 m0 : undo_inv s → info_ok (s_info s) → (w_slot w < length (sem_undo s))%nat → Forall (op_ok base (length (sem s))) dn →
  vals_ok (s_info s) v0 → adj_ok (s_info s) m0 → length v0 = length (sem s) →
  ops_spec (s_info s) (room s (w_slot w)) semid base (rev dn) v0 m0 = inr (vals s, adj s (w_slot w)) →
  ∃ s', semundo w semid base dn s = Ok s' ∧ keeps (w_slot w) s s' ∧ wakes (cnt_at sig) s s' ∧ vals s' = v0 ∧ adj s' (w_slot w) = m0.
Proof.
  revert s. induction dn as [|op dn IH]; intros s Hinv Hi Hw Hops Hv0 Hm0 Hl E; simpl in E.
  - injection E as -> ->. exists s. split; [done|]. split; [by apply keeps_refl|]. split; [apply wakes_same; [done|done|apply cnt_at_refl]|done].
  - apply list.Forall_cons in Hops as [(Hr & Hnum & Hk) Hops]. rewrite ops_spec_app in E. destruct (ops_spec _ _ _ _ (rev dn) v0 m0) as [t|[v1 m1]] eqn:E1; [done|].
    cbn [ops_spec] in E. destruct (op_spec _ _ _ _ op v1 m1) as [t|[v2 m2]] eqn:E2; [done|]. injection E as -> ->.
    destruct (ops_spec_ok _ _ _ _ _ _ _ _ _ ltac:(apply Hi) Hv0 Hm0 E1) as (Hv1 & Hm1 & Hl1).
    destruct (lookup_lt_is_Some_2 v1 (Z.to_nat (base + sem_num op))) as [x Hx]; [lia|]. pose proof (vals_at _ _ _ _ Hv1 Hx) as Hb.
    cbn [semundo]. destruct (op_spec_inr _ _ _ _ _ _ _ _ _ x Hx E2) as [(E0 & Ev & Em)|[(E0 & Ev & Ef & Hp & Hp2)|?]]; [| |lia].
    + rewrite E0. cbn [Z.eqb]. apply IH; try done. by rewrite Ev, Em.
    + rewrite (proj2 (Z.eqb_neq _ _)) by done. destruct (lookup_lt_is_Some_2 (sem s) (Z.to_nat (base + sem_num op))) as [m Hm]; [lia|].
      rewrite (upd_sem_ok _ _ _ m) by (done || lia). cbn [mbind res_bind]. pose proof (vals_lookup _ _ _ Hm) as Hvm. rewrite Ev, list_lookup_insert_eq in Hvm by lia. injection Hvm as Hvm.
      set (m' := set_semval _ m). assert (semval m' = x) as Hm'. { unfold m'. simpl. rewrite <- Hvm. rewrite u16_small; destruct Hi; lia. }
      set (s1 := set_sem _ s). assert (keeps (w_slot w) s s1) as K1 by (by apply (keeps_sem _ _ _ m)). assert (vals s1 = v1) as Ev1. { unfold s1. rewrite vals_insert, Hm', Ev, list_insert_insert_eq. by apply list_insert_id. }
      assert (wakes (cnt_at sig) s s1) as W1 by (by eapply (wakes_site_cnt sig s s1 _ m m')).
      assert (length (sem s1) = length (sem s)) as Ls by apply length_insert. change (negb (Z.land (sem_flg op) SEM_UNDO =? 0)) with (undo_flag op).
      assert (∃ s2, (if undo_flag op then '(_, s) ← semaoe w (s16 (- sem_op op)) semid (sem_num op) s1; Ok s else Ok s1) = Ok s2 ∧ keeps (w_slot w) s1 s2 ∧ sem s2 = sem s1 ∧ cvs s2 = cvs s1 ∧ adj s2 (w_slot w) = m1) as (s2 & -> & K2 & Es & Ec & Ea).
      { destruct (undo_flag op) eqn:Efl.
        - destruct (flag_restore _ _ _ _ _ _ Hm1 Hi E0 Hr Ef Efl) as [-> Er].
          destruct (semaoe_keeps w (- sem_op op) semid (sem_num op) s1) as (e & s2 & -> & K & Es & Ec & Ha); [apply K1|done|done|done|]. exists s2. split; [done|]. do 3 (split; [done|]).
          change (s_info s1) with (s_info s) in Ha. change (room s1 (w_slot w)) with (room s (w_slot w)) in Ha. change (adj s1 (w_slot w)) with (adj s (w_slot w)) in Ha. rewrite Er in Ha. apply Ha.
        - exists s1. split; [done|]. split; [apply keeps_refl, K1|]. do 2 (split; [done|]). unfold flag_spec in Ef. rewrite Efl in Ef. injection Ef as ->. done. }
      cbn [mbind res_bind]. destruct (IH s2) as (s' & -> & K3 & W3 & Hv & Ha); rewrite ?(kp_info _ _ _ K2), ?(kp_tbl _ _ _ K2), ?Es, ?Ls, ?(kp_room _ _ _ K2); try done; [apply K2|unfold vals; rewrite Es; fold (vals s1); by rewrite Ev1, Ea|].
      exists s'. split; [done|]. split; [eapply keeps_trans; [exact K1|]; by eapply keeps_trans|]. split; [|done].
      eapply wakes_trans; [intros *; apply cnt_at_trans|exact W1|]. eapply wakes_trans; [intros *; apply cnt_at_trans|apply wakes_same with (R := cnt_at sig); [exact Es|done|apply cnt_at_refl]|done].
Qed.

(** ** Wakeups *)

Lemma wake_up_ok k sig sg s m p : (sg (Z.to_nat k) = false → sig = false) → undo_inv s → 0 ≤ k → sem s !! Z.to_nat k = Some m → semval m ≠ 0 →
  ∃ s' m' new, wake_up k sig s = Ok s' ∧ keeps p s s' ∧ sem s' = <[Z.to_nat k := m']> (sem s) ∧ cvs s' = cvs s ++ new ∧ adj s' p = adj s p ∧ semval m' = semval m ∧
    cnt_at sg new (Z.to_nat k) m m' ∧ (sg (Z.to_nat k) = false → semncnt m = 0 ∨ CvBroadcast k false ∈ new).
Proof.
  intros Hsg Hinv Hk Hm Hv. unfold wake_up. rewrite (aget_ok _ _ m) by done. cbn [mbind res_bind]. rewrite (proj2 (Z.eqb_neq (semval m) 0)) by done. rewrite andb_false_r.
  destruct (Z.eqb_spec (semncnt m) 0) as [E0|E0]; cbn [negb].
  - cbn [mbind res_bind]. exists s, m, []. rewrite app_nil_r, list_insert_id by done. split; [done|]. split; [by apply keeps_refl|]. do 4 (split; [done|]). split; [apply cnt_at_refl|]. auto.
  - destruct sig.
    + rewrite (upd_sem_ok _ _ _ m) by done. cbn [mbind res_bind]. eexists _, _, [CvSignal k false]. split; [done|].
      split; [eapply keeps_trans; [|apply keeps_cv; by apply undo_inv_sem]; by apply (keeps_sem _ _ _ m)|]. do 4 (split; [done|]). split; [split; [by left|by intros ?%Hsg]|by intros ?%Hsg].
    + rewrite (upd_sem_ok _ _ _ m) by done. cbn [mbind res_bind]. eexists _, _, [CvBroadcast k false]. split; [done|].
      split; [eapply keeps_trans; [|apply keeps_cv; by apply undo_inv_sem]; by apply (keeps_sem _ _ _ m)|]. do 4 (split; [done|]).
      split; [split; [by left|intros _; right; split; [done|]]|intros _; right]; rewrite ?Z2Nat.id by done; left.
Qed.

Lemma wake_zero_ok k sig s m p : undo_inv s → 0 ≤ k → sem s !! Z.to_nat k = Some m →
  ∃ s' m' new, wake_zero k s = Ok s' ∧ keeps p s s' ∧ sem s' = <[Z.to_nat k := m']> (sem s) ∧ cvs s' = cvs s ++ new ∧ adj s' p = adj s p ∧ semval m' = semval m ∧
    cnt_at sig new (Z.to_nat k) m m' ∧ (semval m = 0 → semzcnt m = 0 ∨ CvBroadcast k true ∈ new).
Proof.
  intros Hinv Hk Hm. unfold wake_zero. rewrite (aget_ok _ _ m) by done. cbn [mbind res_bind]. destruct (negb (semzcnt m =? 0) && (semval m =? 0)) eqn:E.
  - rewrite (upd_sem_ok _ _ _ m) by done. cbn [mbind res_bind]. eexists _, _, [CvBroadcast k true]. split; [done|].
    split; [eapply keeps_trans; [|apply keeps_cv; by apply undo_inv_sem]; by apply (keeps_sem _ _ _ m)|]. do 4 (split; [done|]).
    split; [split; [right; split; [done|]|by left]|intros _; right]; rewrite ?Z2Nat.id by done; left.
  - exists s, m, []. rewrite app_nil_r, list_insert_id by done. split; [done|]. split; [by apply keeps_refl|]. do 4 (split; [done|]). split; [apply cnt_at_refl|].
    intros Hv. left. apply andb_false_iff in E as [?|?]; prop_bool; congruence.
Qed.

(** A turn goes on after one operation: [s'] has the values [v] and the adjustments [a]. *)
Definition one_done (sig : nat → bool) (p : nat) (v : list Z) (a : gmap (Z * Z) Z) (s s' : semsys) : Prop :=
  keeps p s s' ∧ wakes (full_at sig) s s' ∧ vals s' = v ∧ adj s' p = a.

Lemma full_of sig new i m m1 m' : semncnt m1 = semncnt m → semzcnt m1 = semzcnt m → cnt_at sig new i m1 m' → val_at sig new i m m' → full_at sig new i m m'.
Proof. intros E1 E2 [H1 H2] H3. split; [|done]. unfold cnt_at. by rewrite <- E1, <- E2. Qed.

Lemma sem_raise_ok sig sg p k m n s : (sg (Z.to_nat k) = false → sig = false) → undo_inv s → 0 ≤ k → sem s !! Z.to_nat k = Some m → 0 < n → 0 ≤ semval m → semval m + n < 65536 →
  ∃ s', (s ← upd_sem k (λ m, set_semval (u16 (semval m + n)) m) s; wake_up k sig s) = Ok s' ∧ one_done sg p (<[Z.to_nat k := semval m + n]> (vals s)) (adj s p) s s'.
Proof.
  intros Hsg Hinv Hk Hm Hn Hv Hb. rewrite (upd_sem_ok _ _ _ m) by done. cbn [mbind res_bind]. rewrite u16_small by lia. set (m1 := set_semval _ m). set (s1 := set_sem _ s).
  assert (sem s1 !! Z.to_nat k = Some m1) as Hm1 by (simpl; by rewrite list_lookup_insert_eq by (by eapply lookup_lt_Some)).
  assert (undo_inv s1) as Hinv1 by by apply undo_inv_sem.
  destruct (wake_up_ok k sig sg s1 m1 p Hsg Hinv1 Hk Hm1 ltac:(simpl; lia)) as (s' & m' & new & -> & K & Es & Ec & Ea & Ev & Hc & Hw).
  exists s'. split; [done|]. simpl in Es. rewrite list_insert_insert_eq in Es. split; [eapply keeps_trans; [|exact K]; by apply (keeps_sem _ _ _ m)|]. split; [|split; [|done]].
  - apply (wakes_site sg s s' (Z.to_nat k) m m' new); try done. apply (full_of _ _ _ _ m1); try done. split; [intros _ E0; simpl in Ev; lia|]. intros Hs Hlt. rewrite Z2Nat.id by done. destruct (Hw Hs) as [E|E]; [by left|by right].
  - unfold vals. rewrite Es, list_fmap_insert. by rewrite Ev.
Qed.

Lemma lower_ok sig p k m n s : undo_inv s → 0 ≤ k → sem s !! Z.to_nat k = Some m → n < 0 → 0 ≤ semval m + n → semval m < 65536 →
  ∃ s', (s ← upd_sem k (λ m, set_semval (u16 (semval m + n)) m) s; wake_zero k s) = Ok s' ∧ one_done sig p (<[Z.to_nat k := semval m + n]> (vals s)) (adj s p) s s'.
Proof.
  intros Hinv Hk Hm Hn Hv Hb. rewrite (upd_sem_ok _ _ _ m) by done. cbn [mbind res_bind]. rewrite u16_small by lia. set (m1 := set_semval _ m). set (s1 := set_sem _ s).
  assert (sem s1 !! Z.to_nat k = Some m1) as Hm1 by (simpl; by rewrite list_lookup_insert_eq by (by eapply lookup_lt_Some)).
  assert (undo_inv s1) as Hinv1 by by apply undo_inv_sem.
  destruct (wake_zero_ok k sig s1 m1 p Hinv1 Hk Hm1) as (s' & m' & new & -> & K & Es & Ec & Ea & Ev & Hc & Hw).
  exists s'. split; [done|]. simpl in Es. rewrite list_insert_insert_eq in Es. split; [eapply keeps_trans; [|exact K]; by apply (keeps_sem _ _ _ m)|]. split; [|split; [|done]].
  - apply (wakes_site sig s s' (Z.to_nat k) m m' new); try done. apply (full_of _ _ _ _ m1); try done. split; [|simpl in Ev; lia]. intros _ E0. rewrite Z2Nat.id by done. destruct Hw as [E|E]; [congruence|by left|by right].
  - unfold vals. rewrite Es, list_fmap_insert. by rewrite Ev.
Qed.

(** ** A turn *)

(** A turn that sleeps counts its thread at the semaphore, and may find that the set is not
    a binary one. *)
Inductive asleep (ix : Z) (s : semsys) : turn → semsys → Prop :=
  | asleep_not e : asleep ix s (Fails e) s
  | asleep_zero k m : 0 ≤ k → sem s !! Z.to_nat k = Some m →
      asleep ix s (Waits k true) (set_sem (<[Z.to_nat k := set_semzcnt (u16 (semzcnt m + 1)) m]> (sem s)) s)
  | asleep_up k m d b : 0 ≤ k → sem s !! Z.to_nat k = Some m → sema s !! Z.to_nat ix = Some d → b = 0 ∨ b = sem_binary d →
      asleep ix s (Waits k false) (set_sema (<[Z.to_nat ix := set_binary b d]> (sema s)) (set_sem (<[Z.to_nat k := set_semncnt (u16 (semncnt m + 1)) m]> (sem s)) s)).

Lemma set_binary_id d : set_binary (sem_binary d) d = d.
Proof. by destruct d. Qed.

Section turn.
Context (w : who) (semid ix : Z) (sp : semid_ds) (bin : bool) (sg : nat → bool).
Let p := w_slot w.
Let base := sem_base sp.

Record ready (s : semsys) : Prop := MkReady {
  rd_inv : undo_inv s;
  rd_info : info_ok (s_info s);
  rd_slot : (p < length (sem_undo s))%nat;
  rd_ix : 0 ≤ ix;
  rd_set : sema s !! Z.to_nat ix = Some sp;
  rd_vals : vals_ok (s_info s) (vals s)
}.

Lemma keeps_ready s s' : ready s → keeps p s s' → vals_ok (s_info s) (vals s') → ready s'.
Proof. intros [] K Hv. constructor; rewrite ?(kp_info _ _ _ K), ?(kp_tbl _ _ _ K), ?(kp_sema _ _ _ K); try done. apply K. Qed.

(** What a turn that ends early leaves: the values and the adjustments of its beginning. *)
Definition ends_early (v0 : list Z) (m0 : gmap (Z * Z) Z) (s : semsys) (t : turn) (s' : semsys) : Prop :=
  ∃ s1, keeps p s s1 ∧ wakes (cnt_at sg) s s1 ∧ vals s1 = v0 ∧ adj s1 p = m0 ∧ asleep ix s1 t s'.

(** [dn] has been done. *)
Record undoable (dn : list sembuf) (v0 : list Z) (m0 : gmap (Z * Z) Z) (s : semsys) : Prop := MkUndoable {
  ud_ops : Forall (op_ok base (length (sem s))) dn;
  ud_vals : vals_ok (s_info s) v0;
  ud_adj : adj_ok (s_info s) m0;
  ud_len : length v0 = length (sem s);
  ud_spec : ops_spec (s_info s) (room s p) semid base (rev dn) v0 m0 = inr (vals s, adj s p)
}.

Lemma undo_all dn v0 m0 s : ready s → undoable dn v0 m0 s →
  ∃ s', semundo w semid base dn s = Ok s' ∧ keeps p s s' ∧ wakes (cnt_at sg) s s' ∧ vals s' = v0 ∧ adj s' p = m0.
Proof. intros [] []. by apply semundo_ok. Qed.

Lemma undoable_aoe dn v0 m0 s s' : undoable dn v0 m0 s → keeps p s s' → sem s' = sem s → adj s' p = adj s p → undoable dn v0 m0 s'.
Proof. intros [] K Es Ea. constructor; rewrite ?(kp_info _ _ _ K), ?(kp_room _ _ _ K), ?Es, ?Ea; try done. unfold vals. by rewrite Es. Qed.

(** An error: what was done is taken back. *)
Lemma fails_ok e dn v0 m0 s0 s : ready s → undoable dn v0 m0 s → keeps p s0 s → sem s = sem s0 → cvs s = cvs s0 →
  ∃ s', (s ← semundo w semid base dn s; Ok (Fails e, s)) = Ok (Fails e, s') ∧ ends_early v0 m0 s0 (Fails e) s'.
Proof.
  intros Hr Hu K Es Ec. destruct (undo_all _ _ _ _ Hr Hu) as (s' & -> & K' & W & Hv & Ha). exists s'. split; [done|]. exists s'. split; [by eapply keeps_trans|].
  split; [|split; [done|]; split; [done|constructor]]. eapply wakes_trans; [intros *; apply cnt_at_trans| |exact W]. apply wakes_same; [done|done|apply cnt_at_refl].
Qed.

(** A sleep, or the refusal to. *)
Lemma waits_ok (op : sembuf) (zero : bool) dn v0 m0 s : let k := base + sem_num op in ready s → undoable dn v0 m0 s → 0 ≤ k → (Z.to_nat k < length (sem s))%nat →
  ∃ s', (s ← semundo w semid base dn s;
         if nowait op then Ok (Fails EAGAIN, s)
         else if zero then s ← upd_sem k (λ m, set_semzcnt (u16 (semzcnt m + 1)) m) s; Ok (Waits k true, s)
         else s ← upd_sem k (λ m, set_semncnt (u16 (semncnt m + 1)) m) s; s ← (if sem_op op <? -1 then upd_ds ix (set_binary 0) s else Ok s); Ok (Waits k false, s))
        = Ok (if nowait op then Fails EAGAIN else Waits k zero, s') ∧ ends_early v0 m0 s (if nowait op then Fails EAGAIN else Waits k zero) s'.
Proof.
  intros k Hr Hu Hk Hl. destruct (undo_all _ _ _ _ Hr Hu) as (s' & -> & K' & W & Hv & Ha). cbn [mbind res_bind]. destruct (nowait op).
  - exists s'. split; [done|]. exists s'. do 4 (split; [done|]). constructor.
  - destruct (lookup_lt_is_Some_2 (sem s') (Z.to_nat k)) as [m Hm]; [by rewrite (proj1 W)|]. destruct zero; rewrite (upd_sem_ok _ _ _ m) by done; cbn [mbind res_bind].
    + eexists. split; [done|]. exists s'. do 4 (split; [done|]). by constructor.
    + assert (sema s' !! Z.to_nat ix = Some sp) as Hsp by (rewrite (kp_sema _ _ _ K'); apply Hr). case_if.
      * unfold upd_ds. rewrite (aget_ok _ _ sp); [|apply Hr|done]. cbn [mbind res_bind]. eexists. split; [done|]. exists s'. do 4 (split; [done|]). apply (asleep_up ix s' k m sp 0); auto.
      * cbn [mbind res_bind]. eexists. split; [done|]. exists s'. do 4 (split; [done|]).
        pose proof (asleep_up ix s' k m sp (sem_binary sp) Hk Hm Hsp (or_intror eq_refl)) as H1. rewrite set_binary_id, list_insert_id in H1 by done. exact H1.
Qed.

(** A signal instead of a broadcast is allowed at the semaphore of the operation. *)
Definition sig_ok (op : sembuf) : Prop := sg (Z.to_nat (base + sem_num op)) = false → bin = false.

(** An operation that changes a value: the adjustment first, then the value and the wakeups. *)
Lemma change_ok (pos : bool) op dn ops v0 m0 m s : let k := base + sem_num op in ready s → undoable dn v0 m0 s → op_ok base (length (sem s)) op → sig_ok op → sem s !! Z.to_nat k = Some m →
  (if pos then 0 < sem_op op ∧ semval m + sem_op op ≤ semvmx (s_info s) else sem_op op < 0 ∧ 0 ≤ semval m + sem_op op) →
  match flag_spec (s_info s) (room s p) semid op (adj s p) with
  | inl e => ∃ s', (
      '(error, s) ← (if undo_flag op then semaoe w (sem_op op) semid (sem_num op) s else Ok (0, s));
      if negb (error =? 0) then s ← semundo w semid base dn s; Ok (Fails error, s)
      else s ← upd_sem k (λ m, set_semval (u16 (semval m + sem_op op)) m) s;
           s ← (if pos then wake_up k ((sem_op op =? 1) && bin) s else wake_zero k s);
           semop_ops w semid ix bin (op :: dn) ops s) = Ok (Fails e, s') ∧ ends_early v0 m0 s (Fails e) s'
  | inr a => ∃ s', (
      '(error, s) ← (if undo_flag op then semaoe w (sem_op op) semid (sem_num op) s else Ok (0, s));
      if negb (error =? 0) then s ← semundo w semid base dn s; Ok (Fails error, s)
      else s ← upd_sem k (λ m, set_semval (u16 (semval m + sem_op op)) m) s;
           s ← (if pos then wake_up k ((sem_op op =? 1) && bin) s else wake_zero k s);
           semop_ops w semid ix bin (op :: dn) ops s) = semop_ops w semid ix bin (op :: dn) ops s' ∧ one_done sg p (<[Z.to_nat k := semval m + sem_op op]> (vals s)) a s s'
  end.
Proof.
  intros k Hr Hu (Ho & Hn & Hk & Hl) Hsig Hm Hpos. pose proof (vals_at _ _ _ _ (rd_vals _ Hr) (vals_lookup _ _ _ Hm)) as Hb. pose proof (io_vmx _ (rd_info _ Hr)) as Hvmx.
  destruct (flag_ok w semid op s) as (e & s1 & -> & K & Es & Ec & Ha); [apply Hr|apply Hr|apply Hr|done|]. fold p in K, Ha. cbn [mbind res_bind].
  destruct (flag_spec _ _ _ op _) as [e'|a]; simpl in Ha.
  - destruct Ha as (-> & Hne & Ea). rewrite (proj2 (Z.eqb_neq e' 0)) by done. cbn [negb]. eapply fails_ok; try done; [apply (keeps_ready s); try done; unfold vals; rewrite Es; apply Hr|by eapply undoable_aoe].
  - destruct Ha as (-> & Ea). rewrite Z.eqb_refl. cbn [negb]. rewrite <- Es in Hm. assert (vals s1 = vals s) as Ev by (unfold vals; by rewrite Es).
    assert (∃ s2, (s ← upd_sem k (λ m, set_semval (u16 (semval m + sem_op op)) m) s1; if pos then wake_up k ((sem_op op =? 1) && bin) s else wake_zero k s) = Ok s2 ∧ one_done sg p (<[Z.to_nat k := semval m + sem_op op]> (vals s)) a s1 s2) as (s2 & E2 & K2 & W2 & V2 & A2).
    { rewrite <- Ev, <- Ea. destruct pos.
      - apply (sem_raise_ok ((sem_op op =? 1) && bin) sg p k m (sem_op op) s1 ltac:(intros E; rewrite (Hsig E); apply andb_false_r) ltac:(apply K) Hk Hm ltac:(lia) ltac:(lia) ltac:(lia)).
      - exact (lower_ok sg p k m (sem_op op) s1 ltac:(apply K) Hk Hm ltac:(lia) ltac:(lia) ltac:(lia)). }
    apply bind_ok in E2 as (s3 & E3 & E2). rewrite E3. cbn [mbind res_bind]. rewrite E2. cbn [mbind res_bind]. exists s2. split; [done|]. split; [by eapply keeps_trans|]. split; [|done].
    eapply wakes_trans; [intros *; apply full_at_trans| |exact W2]. apply wakes_same; [done|done|apply full_at_refl].
Qed.

Lemma one_op op dn ops v0 m0 s : ready s → undoable dn v0 m0 s → op_ok base (length (sem s)) op → sig_ok op →
  match op_spec (s_info s) (room s p) semid base op (vals s) (adj s p) with
  | inl t => ∃ s', semop_ops w semid ix bin dn (op :: ops) s = Ok (t, s') ∧ ends_early v0 m0 s t s'
  | inr (v, a) => ∃ s', semop_ops w semid ix bin dn (op :: ops) s = semop_ops w semid ix bin (op :: dn) ops s' ∧ one_done sg p v a s s'
  end.
Proof.
  intros Hr Hu Hop Hsig. pose proof Hop as (Ho & Hn & Hk & Hl). destruct (lookup_lt_is_Some_2 (sem s) (Z.to_nat (base + sem_num op))) as [m Hm]; [lia|].
  pose proof (vals_at _ _ _ _ (rd_vals _ Hr) (vals_lookup _ _ _ Hm)) as Hb. unfold op_spec. rewrite (vals_lookup _ _ _ Hm). change (default 0 (Some (semval m))) with (semval m).
  cbn [semop_ops]. rewrite (aget_ok _ _ sp) by apply Hr. cbn [mbind res_bind]. fold base. rewrite (aget_ok _ _ m) by done. cbn [mbind res_bind].
  destruct (Z.lt_trichotomy (sem_op op) 0) as [Hneg|[E0|Hpos]].
  - pose proof (change_ok false op dn ops v0 m0 m s Hr Hu Hop Hsig Hm) as Hch. cbn zeta in Hch. pose proof (waits_ok op false dn v0 m0 s Hr Hu Hk ltac:(lia)) as Hwt.
    rewrite (proj2 (Z.ltb_ge 0 (sem_op op))), (proj2 (Z.ltb_lt (sem_op op) 0)), (proj2 (Z.eqb_neq (sem_op op) 0)) by lia. cbn [andb]. destruct (Z.leb_spec (- sem_op op) (semval m)) as [Hle|Hgt].
    + rewrite (proj2 (Z.ltb_ge (semval m) _)) by lia. specialize (Hch ltac:(cbv iota; lia)). by destruct (flag_spec _ _ _ op _).
    + rewrite (proj2 (Z.ltb_lt (semval m) _)) by lia. destruct Hwt as (s' & E & H'). exists s'. split; [|done]. rewrite <- E. by destruct (semundo _ _ _ _ _) as [?| |].
  - rewrite E0. cbn [Z.ltb Z.eqb Z.compare]. destruct (Z.eqb_spec (semval m) 0) as [Ez|Ez]; cbn [negb].
    + exists s. split; [done|]. split; [apply keeps_refl, Hr|]. split; [apply wakes_same; [done|done|apply full_at_refl]|done].
    + destruct (waits_ok op true dn v0 m0 s Hr Hu Hk ltac:(lia)) as (s' & E & H'). exists s'. split; [|done]. rewrite <- E. by destruct (semundo _ _ _ _ _) as [?| |].
  - pose proof (change_ok true op dn ops v0 m0 m s Hr Hu Hop Hsig Hm) as Hch. cbn zeta in Hch.
    rewrite (proj2 (Z.ltb_lt 0 (sem_op op))), (proj2 (Z.ltb_ge (sem_op op) 0)), (proj2 (Z.eqb_neq (sem_op op) 0)) by lia. cbn [andb]. destruct (Z.ltb_spec (semvmx (s_info s)) (sem_op op + semval m)) as [Hlt|Hge].
    + cbn [mbind res_bind]. change (negb (ERANGE =? 0)) with true. cbv iota. by eapply fails_ok; [..|apply keeps_refl, Hr| |].
    + specialize (Hch ltac:(cbv iota; lia)). by destruct (flag_spec _ _ _ op _).
Qed.

Lemma undoable_next op dn v0 m0 v a s s' : undoable dn v0 m0 s → op_ok base (length (sem s)) op → op_spec (s_info s) (room s p) semid base op (vals s) (adj s p) = inr (v, a) → one_done sg p v a s s' → undoable (op :: dn) v0 m0 s'.
Proof.
  intros [] Hop E (K & [L _] & Hv & Ha). constructor; rewrite ?(kp_info _ _ _ K), ?(kp_room _ _ _ K), ?L; try done; [by constructor|]. simpl. rewrite ops_spec_app, ud_spec0. simpl. by rewrite E, Hv, Ha.
Qed.

(** All the operations are done, or none is. *)
Lemma semop_ops_ok ops dn v0 m0 s : ready s → undoable dn v0 m0 s → Forall (op_ok base (length (sem s))) ops → Forall sig_ok ops →
  match ops_spec (s_info s) (room s p) semid base ops (vals s) (adj s p) with
  | inl t => ∃ s', semop_ops w semid ix bin dn ops s = Ok (t, s') ∧ ends_early v0 m0 s t s'
  | inr (v, a) => ∃ s', semop_ops w semid ix bin dn ops s = Ok (Done, s') ∧ one_done sg p v a s s'
  end.
Proof.
  revert dn s. induction ops as [|op ops IH]; intros dn s Hr Hu Hops Hsigs.
  - simpl. exists s. split; [done|]. split; [apply keeps_refl, Hr|]. split; [apply wakes_same; [done|done|apply full_at_refl]|done].
  - apply list.Forall_cons in Hops as [Hop Hops]. apply list.Forall_cons in Hsigs as [Hsig Hsigs]. pose proof (one_op op dn ops v0 m0 s Hr Hu Hop Hsig) as H1. cbn [ops_spec]. destruct (op_spec _ _ _ _ op _ _) as [t|[v a]] eqn:E1; [done|].
    destruct H1 as (s1 & -> & H1). pose proof H1 as (K1 & W1 & Hv & Ha).
    assert (adj_ok (s_info s) (adj s p)) as Hadj by (eapply ops_spec_ok; [apply (rd_info _ Hr)|apply (ud_vals _ _ _ _ Hu)|apply (ud_adj _ _ _ _ Hu)|apply (ud_spec _ _ _ _ Hu)]).
    destruct (op_spec_ok _ _ _ _ _ _ _ _ _ ltac:(apply (rd_info _ Hr)) (rd_vals _ Hr) Hadj E1) as (Hv' & Ha' & _).
    assert (ready s1) as Hr1 by (apply (keeps_ready s); [done|done|by rewrite Hv]). assert (undoable (op :: dn) v0 m0 s1) as Hu1 by by eapply undoable_next.
    specialize (IH (op :: dn) s1 Hr1 Hu1). rewrite (proj1 W1) in IH. specialize (IH Hops Hsigs). rewrite (kp_info _ _ _ K1), (kp_room _ _ _ K1), Hv, Ha in IH.
    destruct (ops_spec _ _ _ _ ops v a) as [t|[v' a']].
    + destruct IH as (s' & E & s2 & K2 & W2 & Hx). exists s'. split; [done|]. exists s2. split; [by eapply keeps_trans|]. split; [|done].
      eapply wakes_trans; [intros *; apply cnt_at_trans|by apply wakes_full|done].
    + destruct IH as (s' & E & K2 & W2 & Hx). exists s'. split; [done|]. split; [by eapply keeps_trans|]. split; [|done].
      eapply wakes_trans; [intros *; apply full_at_trans|done|done].
Qed.
End turn.

(** ** From [check] to the end *)

Definition touched (base : Z) (ops : list sembuf) (i : nat) : Prop := ∃ op, op ∈ ops ∧ Z.to_nat (base + sem_num op) = i.

#[global] Instance touched_dec base ops i : Decision (touched base ops i).
Proof.
  refine (cast_if (decide (Exists (λ op, Z.to_nat (base + sem_num op) = i) ops))); unfold touched; by rewrite <- list.Exists_exists.
Defined.

(** The process ids that are left when all operations are done. *)
Definition pids_set (pid base : Z) (ops : list sembuf) (l : list sem_t) : list sem_t :=
  imap (λ i m, if decide (touched base ops i) then set_sempid pid m else m) l.

Lemma pids_set_cons pid base op ops l m : 0 ≤ base + sem_num op → l !! Z.to_nat (base + sem_num op) = Some m →
  pids_set pid base ops (<[Z.to_nat (base + sem_num op) := set_sempid pid m]> l) = pids_set pid base (op :: ops) l.
Proof.
  intros Hk Hm. apply list_eq. intros i. unfold pids_set. rewrite !list_lookup_imap. destruct (decide (i = Z.to_nat (base + sem_num op))) as [->|Hne].
  - rewrite list_lookup_insert_eq by (by eapply lookup_lt_Some). rewrite Hm. simpl. f_equal. rewrite (decide_True (P := touched base (op :: ops) _)) by (exists op; split; [left|done]). by case_decide.
  - rewrite list_lookup_insert_ne by done. destruct (l !! i) as [x|]; [|done]. simpl. f_equal. destruct (decide (touched base ops i)) as [Ht|Ht].
    + rewrite decide_True; [done|]. destruct Ht as (o & ? & ?). exists o. split; [by right|done].
    + rewrite decide_False; [done|]. intros (o & [->|Ho]%elem_of_cons & E); [congruence|]. apply Ht. by exists o.
Qed.

Lemma set_pids_ok pid base n ops s : Forall (op_ok base n) ops → length (sem s) = n → set_pids pid base ops s = Ok (set_sem (pids_set pid base ops (sem s)) s).
Proof.
  revert s. induction ops as [|op ops IH]; intros s Hops Hn.
  - simpl. f_equal. replace (pids_set pid base [] (sem s)) with (sem s); [by destruct s|]. apply list_eq. intros i. unfold pids_set. rewrite list_lookup_imap. destruct (sem s !! i); [|done]. done.
  - apply list.Forall_cons in Hops as [(_ & _ & Hk & Hl) Hops]. destruct (lookup_lt_is_Some_2 (sem s) (Z.to_nat (base + sem_num op))) as [m Hm]; [lia|].
    cbn [set_pids]. rewrite (upd_sem_ok _ _ _ m) by done. cbn [mbind res_bind]. rewrite IH; [|done|simpl; by rewrite length_insert]. simpl. by rewrite pids_set_cons.
Qed.

(** The semaphores of a binary set. *)
Definition is_binary (sp : semid_ds) : bool := negb (sem_binary sp =? 0) && (sem_nsems sp =? 1).

Definition in_set (d : semid_ds) (i : nat) : Prop := sem_base d ≤ Z.of_nat i < sem_base d + sem_nsems d.

#[global] Instance in_set_dec d i : Decision (in_set d i).
Proof. unfold in_set. apply _. Defined.

Definition sig_set (d : semid_ds) (i : nat) : bool := is_binary d && bool_decide (in_set d i).

(** [semop_pass]: all or nothing. *)
Lemma semop_pass_ok w semid ix ops s sp : ready w ix sp s → Forall (op_ok (sem_base sp) (length (sem s))) ops → Forall (λ op, sem_num op < sem_nsems sp) ops → adj_ok (s_info s) (adj s (w_slot w)) →
  match ops_spec (s_info s) (room s (w_slot w)) semid (sem_base sp) ops (vals s) (adj s (w_slot w)) with
  | inl t => ∃ s', semop_pass w semid ix ops s = Ok (t, s') ∧ ends_early w ix (sig_set sp) (vals s) (adj s (w_slot w)) s t s'
  | inr (v, a) => ∃ s1, semop_pass w semid ix ops s = Ok (Done, set_sema (<[Z.to_nat ix := set_otime (hrestime s) sp]> (sema s)) (set_sem (pids_set (w_pid w) (sem_base sp) ops (sem s1)) s1)) ∧
      one_done (sig_set sp) (w_slot w) v a s s1
  end.
Proof.
  intros Hr Hops Hnum Ha. unfold semop_pass. rewrite (aget_ok _ _ sp) by apply Hr. cbn [mbind res_bind]. change (negb (sem_binary sp =? 0) && (sem_nsems sp =? 1)) with (is_binary sp).
  pose proof (semop_ops_ok w semid ix sp (is_binary sp) (sig_set sp) ops [] (vals s) (adj s (w_slot w)) s Hr) as H.
  specialize (H ltac:(constructor; [constructor|apply Hr|done|apply vals_length|done]) Hops). assert (Forall (sig_ok sp (is_binary sp) (sig_set sp)) ops) as Hsig.
  { rewrite list.Forall_forall in Hops, Hnum |- *. intros op Hop. specialize (Hnum op Hop). destruct (Hops op Hop) as (_ & ? & ? & _). simpl in Hnum. unfold sig_ok, sig_set. rewrite bool_decide_eq_true_2, andb_true_r by (unfold in_set; lia). done. }
  specialize (H Hsig). destruct (ops_spec _ _ _ _ ops _ _) as [t|[v a]].
  - destruct H as (s' & E & He). exists s'. split; [|done]. rewrite E. cbn [mbind res_bind]. destruct t; [|done..]. exfalso. destruct He as (s1 & _ & _ & _ & _ & Hx). inversion Hx.
  - destruct H as (s1 & E & Hd). exists s1. split; [|done]. rewrite E. cbn [mbind res_bind]. destruct Hd as (K & W & _). rewrite (set_pids_ok _ _ (length (sem s))) by (done || by rewrite (proj1 W)). cbn [mbind res_bind].
    unfold upd_ds. rewrite (aget_ok _ _ sp); [|apply Hr|simpl; rewrite (kp_sema _ _ _ K); apply Hr]. cbn [mbind res_bind]. simpl. by rewrite (kp_sema _ _ _ K), (kp_time _ _ _ K).
Qed.

(** [adj_ok] of the processes follows from the invariant of the undo structures. *)
Lemma undo_inv_adj s p : undo_inv s → info_ok (s_info s) → adj_ok (s_info s) (adj s p).
Proof.
  intros (act & fr & Hwf) Hi. unfold adj. destruct (sem_undo s !! p) as [[u|]|]; [destruct (semu s !! u) as [x|] eqn:Hx|..].
  - eapply un_adj_ok. by apply (uw_un _ _ _ Hwf u x Hx).
  - split; [rewrite map_size_empty; apply Hi|done].
  - split; [rewrite map_size_empty; apply Hi|done].
  - split; [rewrite map_size_empty; apply Hi|done].
Qed.
