(* ===== verification/SemSets.v ===== *)
(** * Resetting, freeing, and the sets of semaphores

    [semunrm] takes the adjustments of the semaphores that are reset from every process
    ([semunrm_ok]); the end of [semexit] frees a structure ([semexit_end_ok]).  [sem_wf] is what
    holds of the whole state between calls: the sets are disjoint runs of semaphores that the
    map does not have free, a semaphore in no set has the value 0, and an adjustment is for a
    semaphore of a set that exists.  A turn of [semop] keeps it ([pass_call]). *)

From S2P Require Import Prelude Rmap Bitmap Cred Sem SemList SemOps.

(** ** Squeezing out entries *)

(** The semaphores from [low] to [high] of a set. *)
Definition hit (id low high : Z) (k : Z * Z) : Prop := k.1 = id ∧ low ≤ k.2 ≤ high.

#[global] Instance hit_dec id low high k : Decision (hit id low high k).
Proof. unfold hit. apply _. Defined.

Section squeeze.
Context (id low high : Z).

Definition kept (l : list undo) : list undo := filter (λ e, ¬ hit id low high (ent_key e)) l.

Lemma kept_ent_cons e l : kept (e :: l) = if decide (hit id low high (ent_key e)) then kept l else e :: kept l.
Proof. unfold kept. rewrite filter_cons. case_decide as H1; case_decide as H2; tauto || done. Qed.

Lemma kept_above k l : Forall (λ e, key_lt k (ent_key e)) l → k.1 > id ∨ k.1 = id ∧ high ≤ k.2 → kept l = l.
Proof.
  intros Hf Hk. apply filter_all. rewrite list.Forall_forall in Hf. intros e He. specialize (Hf e He). unfold hit, key_lt in *. lia.
Qed.

Lemma squeeze_ok fuel l pre rest : sorted l → (length l < fuel)%nat →
  ∃ rest', squeeze fuel id low high (length pre) (length pre + length l) (pre ++ l ++ rest) = Ok (length (pre ++ kept l), pre ++ kept l ++ rest') ∧
    (length (kept l) + length rest' = length l + length rest)%nat.
Proof.
  revert l pre rest. induction fuel as [|fuel IH]; intros l pre rest Hs Hf; [lia|]. cbn [squeeze]. destruct l as [|e l].
  - rewrite (proj2 (Nat.leb_le _ _)) by (simpl; lia). exists rest. simpl. rewrite app_nil_r, Nat.add_0_r. done.
  - rewrite (proj2 (Nat.leb_gt _ _)) by (simpl; lia). cbn [app]. rewrite nget_mid by done. cbn [mbind res_bind]. inversion Hs as [|? ? Hfa Hs']; subst. simpl in Hf.
    destruct (Z.ltb_spec id (un_id e)) as [E1|E1].
    { assert (kept (e :: l) = e :: l) as ->; [|exists rest; rewrite length_app; done]. rewrite kept_ent_cons, decide_False by (unfold hit, ent_key; simpl; lia). f_equal. eapply kept_above; [exact Hfa|]. simpl. lia. }
    destruct ((un_id e <? id) || (un_num e <? low)) eqn:E2.
    { destruct (IH l (pre ++ [e]) rest Hs' ltac:(lia)) as (rest' & E & Hl). rewrite length_app in E. simpl in E. rewrite <- !(assoc_L (++)) in E. simpl in E.
      exists rest'. replace (length pre + length (e :: l))%nat with (length pre + 1 + length l)%nat by (simpl; lia). replace (S (length pre)) with (length pre + 1)%nat by lia. rewrite E.
      rewrite kept_ent_cons, decide_False by (unfold hit, ent_key; simpl; apply orb_true_iff in E2 as [?|?]; prop_bool; lia). simpl. split; [done|]. lia. }
    apply orb_false_iff in E2 as [E2 E3]. prop_bool. destruct (Z.ltb_spec high (un_num e)) as [E4|E4].
    { assert (kept (e :: l) = e :: l) as ->; [|exists rest; rewrite length_app; done]. rewrite kept_ent_cons, decide_False by (unfold hit, ent_key; simpl; lia). f_equal. eapply kept_above; [exact Hfa|]. simpl. lia. }
    destruct (move_down_ok (length pre + length (e :: l) - 1 - length pre) (length pre) pre l e rest eq_refl ltac:(simpl; lia)) as [z ->]. cbn [mbind res_bind].
    destruct (IH l pre (z :: rest) Hs' ltac:(lia)) as (rest' & E & Hl). replace (length pre + length (e :: l) - 1)%nat with (length pre + length l)%nat by (simpl; lia). rewrite E.
    rewrite kept_ent_cons, decide_True by (unfold hit, ent_key; simpl; lia). exists rest'. split; [done|]. simpl in Hl |- *. lia.
Qed.

Lemma amap_kept l : sorted l → amap (kept l) = filter (λ kv, ¬ hit id low high kv.1) (amap l).
Proof.
  intros Hs. apply map_eq. intros k. apply option_eq. intros a. rewrite map_lookup_filter_Some, !amap_lookup by (done || by apply ents_filter). unfold kept. split.
  - intros (e & [Hh He]%list_elem_of_filter & <- & <-). split; [by exists e|done].
  - intros [(e & He & <- & <-) Hh]. exists e. split; [|done]. by apply list_elem_of_filter.
Qed.
End squeeze.

(** ** The list *)

Lemma nchain_head us h l : nchain us h l → h = head l.
Proof. destruct l; [done|]. by intros [-> _]. Qed.

(** [q] is cut out after [r]. *)
Lemma nchain_cut us h l1 r q l2 xr xq : nchain us h (l1 ++ r :: q :: l2) → NoDup (l1 ++ r :: q :: l2) → us !! r = Some xr → us !! q = Some xq →
  nchain (<[r := set_np (un_np xq) xr]> us) h (l1 ++ r :: l2).
Proof.
  revert h. induction l1 as [|a l1 IH]; intros h Hc Hn Hr Hq.
  - destruct Hc as (-> & y & Hy & _ & z & Hz & Hc). assert (z = xq) as -> by congruence. assert (y = xr) as -> by congruence. split; [done|]. exists (set_np (un_np xq) xr). rewrite list_lookup_insert_eq by (by eapply lookup_lt_Some). split; [done|].
    apply nchain_insert; [done|]. apply list.NoDup_cons in Hn as [Hn _]. intros Hin. apply Hn. by right.
  - destruct Hc as (-> & y & Hy & Hc). simpl in Hn. apply list.NoDup_cons in Hn as [Ha Hn]. split; [done|]. exists y. rewrite list_lookup_insert_ne; [|intros ->; apply Ha; apply elem_of_app; right; left]. split; [done|]. by apply IH.
Qed.

(** How [semunrm] changes the structures: those of [todo] lose the entries that are hit. *)
Record unrm (id low high : Z) (todo fr : list nat) (s s' : semsys) : Prop := MkUnrm {
  ur_wf : ∃ act, undo_wf act fr s';
  ur_only : undo_only s s';
  ur_tbl : sem_undo s' = sem_undo s;
  ur_fup : semfup s' = semfup s;
  ur_un : ∀ u x, semu s !! u = Some x → ∃ x', semu s' !! u = Some x' ∧ active x' = if decide (u ∈ todo) then kept id low high (active x) else active x
}.

Lemma un_changed_unrm act fr q s s1 s2 id low high todo x x1 : un_changed act fr q s s1 x1 → semu s !! q = Some x → active x1 = kept id low high (active x) → q ∉ todo → unrm id low high todo fr s1 s2 → unrm id low high (q :: todo) fr s s2.
Proof.
  intros C Hx Ea Hq U. pose proof (uc_only _ _ _ _ _ _ C). pose proof (uc_tbl _ _ _ _ _ _ C). pose proof (uc_fup _ _ _ _ _ _ C). destruct U as [Uw Uo Ut Uf Uu]. constructor; [done|by eapply undo_only_trans|congruence|congruence|]. intros u y Hy. destruct (decide (u = q)) as [->|Hne].
  - destruct (Uu q x1 (uc_un _ _ _ _ _ _ C)) as (x2 & Hx2 & E2). exists x2. split; [done|]. simplify_eq. rewrite decide_False in E2 by done. rewrite decide_True by left. by rewrite E2.
  - destruct (uc_rest _ _ _ _ _ _ C u y Hne Hy) as (y' & Hy' & Ec & Ee). destruct (Uu u y' Hy') as (y2 & Hy2 & E2). exists y2. split; [done|]. rewrite E2.
    assert (active y' = active y) as -> by (unfold active; by rewrite Ec, Ee). destruct (decide (u ∈ todo)) as [Hu|Hu]; [rewrite decide_True by (by right)|rewrite decide_False by (rewrite elem_of_cons; naive_solver)]; done.
Qed.

(** The code's structure [q] after [squeeze], before the links change. *)
Lemma squeezed i id low high x : un_ok i x → ∃ cnt ent, squeeze (S (Z.to_nat (un_cnt x))) id low high 0 (Z.to_nat (un_cnt x)) (un_ent x) = Ok (cnt, ent) ∧
  un_ok i (set_ent ent (set_cnt (Z.of_nat cnt) x)) ∧ active (set_ent ent (set_cnt (Z.of_nat cnt) x)) = kept id low high (active x).
Proof.
  intros Hok. destruct (un_split _ _ Hok) as (rest & Er & Ec). pose proof Hok as [Hl Hc Hs He].
  destruct (squeeze_ok id low high (S (Z.to_nat (un_cnt x))) (active x) [] rest Hs ltac:(lia)) as (rest' & E & Hlen). simpl app in E. rewrite <- Er in E. change (length [] + length (active x))%nat with (length (active x)) in E. change (length (@nil undo)) with 0%nat in E.
  replace (length (active x)) with (Z.to_nat (un_cnt x)) in E by lia. eexists _, _. split; [exact E|].
  assert (active (set_ent (kept id low high (active x) ++ rest') (set_cnt (Z.of_nat (length (kept id low high (active x)))) x)) = kept id low high (active x)) as Ea by by apply active_app.
  assert (length (kept id low high (active x)) ≤ length (active x))%nat as Hle by apply length_filter.
  split; [|exact Ea]. constructor; rewrite ?Ea; simpl.
  - rewrite <- Hl, Er, !length_app. lia.
  - lia.
  - by apply ents_filter.
  - rewrite list.Forall_forall in He |- *. intros e [_ Hin]%list_elem_of_filter. by apply He.
Qed.

Lemma without_mid l1 (q : nat) l2 : NoDup (l1 ++ q :: l2) → without q (l1 ++ q :: l2) = l1 ++ l2.
Proof.
  intros (H1 & H2 & H3)%list.NoDup_app. apply list.NoDup_cons in H3 as [H3 _]. unfold without. rewrite list.filter_app. fold (without q l1). fold (without q (q :: l2)). rewrite without_head, !without_notin; [done|done|].
  intros Hq. apply (H2 q Hq). left.
Qed.

(** An empty structure is cut out after the last structure that was kept. *)
Lemma cut_ok l1 q l2 fr s x x' : undo_wf (l1 ++ q :: l2) fr s → semu s !! q = Some x → un_np x' = un_np x → un_ok (s_info s) x' → un_cnt x' = 0 →
  ∃ s', (s ← (match list.last l1 with None => Ok (set_semunp (un_np x) (set_semu (<[q := x']> (semu s)) s)) | Some r => upd_un r (set_np (un_np x)) (set_semu (<[q := x']> (semu s)) s) end); upd_un q (set_np None) s) = Ok s' ∧
    un_changed (l1 ++ l2) fr q s s' (set_np None x').
Proof.
  intros Hwf Hx Hnp Hok Hc. pose proof (uw_nda _ _ _ Hwf) as Hn. pose proof (without_mid _ _ _ Hn) as Hwo.
  assert (q ∈ l1 ++ q :: l2) as Hqa by (apply elem_of_app; right; left). assert (q ∉ fr) as Hfr by by eapply uw_dis. assert (q ∉ l1 ++ l2) as Hq by (rewrite <- Hwo, elem_without; naive_solver).
  assert (<[q := x']> (semu s) !! q = Some x') as Hx' by (by rewrite list_lookup_insert_eq by (by eapply lookup_lt_Some)).
  assert (nchain (<[q := x']> (semu s)) (semunp s) (l1 ++ q :: l2)) as Hch by (eapply nchain_insert_np; [by eapply uw_act|done|done]).
  assert (∃ us h, (match list.last l1 with None => Ok (set_semunp (un_np x) (set_semu (<[q := x']> (semu s)) s)) | Some r => upd_un r (set_np (un_np x)) (set_semu (<[q := x']> (semu s)) s) end) = Ok (set_semunp h (set_semu us s)) ∧
    length us = length (semu s) ∧ us !! q = Some x' ∧ nchain us h (l1 ++ l2) ∧ ∀ v y, v ≠ q → semu s !! v = Some y → ∃ y', us !! v = Some y' ∧ un_cnt y' = un_cnt y ∧ un_ent y' = un_ent y ∧ (v ∉ l1 → y' = y)) as (us & h & -> & Hl & Hus & Hcu & Hr).
  { destruct l1 as [|r l1 _] using rev_ind.
    - simpl. eexists _, _. split; [done|]. split; [apply length_insert|]. split; [done|]. destruct Hch as (_ & y & Hy & Hch). simplify_eq. rewrite Hnp in Hch. split; [done|]. intros v z Hv Hz. exists z. by rewrite list_lookup_insert_ne.
    - rewrite list.last_snoc. assert (r ≠ q) as Hrq. { intros ->. apply Hq. apply elem_of_app. left. apply elem_of_app. right. left. }
      rewrite <- (assoc_L (++)) in Hch, Hn. simpl in Hch, Hn. destruct (lookup_lt_is_Some_2 (semu s) r) as [xr Hxr].
      { rewrite <- (length_insert (semu s) q x'). apply (nchain_bound _ _ _ r Hch). apply elem_of_app. right. left. }
      rewrite (upd_un_ok _ _ _ xr) by (simpl; by rewrite list_lookup_insert_ne). exists (<[r := set_np (un_np x) xr]> (<[q := x']> (semu s))), (semunp s). split; [by destruct s|].
      split; [by rewrite !length_insert|]. split; [by rewrite list_lookup_insert_ne|]. split.
      + rewrite <- (assoc_L (++)). simpl. rewrite <- Hnp. apply nchain_cut with q; [done|done|by rewrite list_lookup_insert_ne|done].
      + intros v z Hv Hz. destruct (decide (v = r)) as [->|Hvr].
        * simplify_eq. exists (set_np (un_np x) xr). rewrite list_lookup_insert_eq; [|rewrite length_insert; by eapply lookup_lt_Some]. split_and!; [done..|]. intros []. apply elem_of_app. right. left.
        * exists z. by rewrite !list_lookup_insert_ne by done. }
  cbn [mbind res_bind]. rewrite (upd_un_ok _ _ _ x') by done. exists (set_semunp h (set_semu (<[q := set_np None x']> us) s)). split; [done|].
  assert (<[q := set_np None x']> us !! q = Some (set_np None x')) as Hq2 by (by rewrite list_lookup_insert_eq by (by eapply lookup_lt_Some)).
  assert (∀ v y, v ≠ q → semu s !! v = Some y → ∃ y', <[q := set_np None x']> us !! v = Some y' ∧ un_cnt y' = un_cnt y ∧ un_ent y' = un_ent y) as Hrest.
  { intros v y Hv Hy. rewrite list_lookup_insert_ne by done. destruct (Hr v y Hv Hy) as (y' & ? & ? & ? & _). by exists y'. }
  constructor; [|by constructor|done|done|simpl; by rewrite length_insert|done|done].
  apply (undo_wf_upd (l1 ++ q :: l2) fr s (l1 ++ l2) _ _ q (set_np None x')); try done.
  - by rewrite length_insert.
  - by apply un_ok_np.
  - intros v Hv. rewrite <- Hwo, elem_without. naive_solver.
  - by apply nchain_insert.
  - apply nchain_insert; [|done]. apply (nchain_same (semu s)); [by eapply uw_fr|]. intros u y Hu Hy. destruct (Hr u y) as (y' & Hy' & _ & _ & Heq); [by intros ->|done|]. exists y'. split; [done|]. rewrite Heq; [done|].
    intros Hin. apply (uw_dis _ _ _ Hwf u); [|done]. apply elem_of_app. by left.
  - rewrite <- Hwo. by apply list.NoDup_filter.
Qed.

Lemma semunrm_loop_ok fuel id low high l1 todo fr s : undo_wf (l1 ++ todo) fr s → (length todo < fuel)%nat →
  ∃ s', semunrm_loop fuel id low high (list.last l1) (head todo) s = Ok s' ∧ unrm id low high todo fr s s'.
Proof.
  revert l1 todo s. induction fuel as [|fuel IH]; intros l1 todo s Hwf Hf; [lia|]. cbn [semunrm_loop]. destruct todo as [|q todo].
  - simpl. exists s. split; [done|]. constructor; [by eexists|apply undo_only_refl|done|done|]. intros u x Hx. exists x. split; [done|]. by rewrite decide_False by apply not_elem_of_nil.
  - cbn [head]. assert (q ∈ l1 ++ q :: todo) as Hqa by (apply elem_of_app; right; left). pose proof (nchain_bound _ _ _ _ (uw_act _ _ _ Hwf) Hqa) as Hb.
    destruct (lookup_lt_is_Some_2 _ _ Hb) as [x Hx]. rewrite (nget_ok _ _ _ Hx). cbn [mbind res_bind]. pose proof (uw_un _ _ _ Hwf q x Hx) as [Hok Hact].
    destruct (squeezed _ id low high x Hok) as (cnt & ent & -> & Hok' & Ea). cbn [mbind res_bind]. rewrite (upd_un_ok _ _ _ x) by done. cbn [mbind res_bind]. set (x' := set_ent ent _) in *.
    assert (un_np x = head todo) as Enp.
    { pose proof (uw_act _ _ _ Hwf) as Hc. clear -Hc Hx. revert Hc. generalize (semunp s). induction l1 as [|a l1 IH]; intros h; [intros (-> & y & Hy & Hc); simplify_eq; by apply nchain_head in Hc|]. intros (_ & y & _ & Hc). by eapply IH. }
    assert (q ∉ todo) as Hqt. { pose proof (uw_nda _ _ _ Hwf) as (_ & _ & H3)%list.NoDup_app. by apply list.NoDup_cons in H3 as [? _]. }
    simpl in Hf. destruct (Nat.eqb_spec cnt 0) as [E0|E0].
    + destruct (cut_ok l1 q todo fr s x x' Hwf Hx eq_refl Hok' ltac:(simpl; lia)) as (s1 & E1 & Hch). apply bind_ok in E1 as (s2 & E2 & E1). rewrite E2. cbn [mbind res_bind]. rewrite E1. cbn [mbind res_bind].
      rewrite Enp. destruct (IH l1 todo s1 (uc_wf _ _ _ _ _ _ Hch) ltac:(lia)) as (s' & E & Hr). exists s'. split; [exact E|]. by eapply un_changed_unrm.
    + rewrite Enp. assert (un_changed (l1 ++ q :: todo) fr q s (set_semu (<[q := x']> (semu s)) s) x') as Hch by (apply (un_modify _ fr s q x x'); try done; [by apply Hact|simpl; lia]).
      pose proof (uc_wf _ _ _ _ _ _ Hch) as Hwf1. change (q :: todo) with ([q] ++ todo) in Hwf1. rewrite (assoc_L (++)) in Hwf1.
      destruct (IH (l1 ++ [q]) todo _ Hwf1 ltac:(lia)) as (s' & E & Hr). rewrite list.last_snoc in E. exists s'. split; [exact E|]. by eapply un_changed_unrm.
Qed.

(** Every process loses the adjustments of the semaphores that are reset, and no others. *)
Lemma semunrm_ok id low high s : undo_inv s → info_ok (s_info s) →
  ∃ s', semunrm id low high s = Ok s' ∧ undo_inv s' ∧ undo_only s s' ∧ (∀ p, room s' p = room s p) ∧ ∀ p, adj s' p = filter (λ kv, ¬ hit id low high kv.1) (adj s p).
Proof.
  intros (act & fr & Hwf) Hi. unfold semunrm. pose proof (nchain_length _ _ _ (uw_act _ _ _ Hwf) (uw_nda _ _ _ Hwf)) as Hl.
  destruct (semunrm_loop_ok (S (length (semu s))) id low high [] act fr s Hwf ltac:(lia)) as (s' & E & [[act' Hwf'] Ho Ht Hf Hu]). rewrite (nchain_head _ _ _ (uw_act _ _ _ Hwf)).
  exists s'. split; [exact E|]. split; [by exists act', fr|]. split; [done|]. split; [intros p; unfold room; by rewrite Ht, Hf|].
  intros p. unfold adj. rewrite Ht. destruct (sem_undo s !! p) as [[u|]|] eqn:Ep; [|by rewrite map_filter_empty..].
  destruct (uw_own _ _ _ Hwf p u Ep) as [Hb _]. destruct (lookup_lt_is_Some_2 _ _ Hb) as [x Hx]. rewrite Hx. destruct (Hu u x Hx) as (x' & -> & Ea). pose proof (uw_un _ _ _ Hwf u x Hx) as [Hok Hact].
  rewrite <- amap_kept by apply Hok. rewrite Ea. case_decide as Hin; [done|]. assert (active x = []) as ->; [|done].
  unfold active. destruct (Z.eq_dec (un_cnt x) 0) as [->|Hne]; [done|]. exfalso. by apply Hin, Hact.
Qed.

(** ** Giving back a structure *)

(** The process has no structure any more. *)
Definition exited (p : nat) (s s' : semsys) : Prop :=
  undo_inv s' ∧ undo_only s s' ∧ adj s' p = ∅ ∧ (∀ u, ¬ owns s' p u) ∧ (∀ q, q ≠ p → adj s' q = adj s q) ∧ semfup s' ≠ None.

Lemma undo_free_ok act fr s p up x : undo_wf act fr s → owns s p up → semu s !! up = Some x → un_cnt x = 0 → ∃ s', undo_free p up s = Ok s' ∧ exited p s s'.
Proof.
  intros Hwf Ho Hx Hc. unfold undo_free. rewrite (upd_un_ok _ _ _ x) by done. cbn [mbind res_bind]. assert (p < length (sem_undo s))%nat as Hp by by eapply lookup_lt_Some.
  rewrite nset_ok by done. cbn [mbind res_bind]. eexists. split; [done|]. set (s' := set_sem_undo _ _).
  destruct (uw_own _ _ _ Hwf p up Ho) as [Hb Hfr]. pose proof (uw_un _ _ _ Hwf up x Hx) as [Hok Hact]. assert (up ∉ act) as Hna by (intros Hin; by apply Hact in Hin).
  assert (∀ q v, owns s' q v ↔ q ≠ p ∧ owns s q v) as Hown.
  { intros q v. unfold owns. simpl. destruct (decide (q = p)) as [->|Hne]; [rewrite list_lookup_insert_eq by done; naive_solver|rewrite list_lookup_insert_ne by done; naive_solver]. }
  split; [exists act, (up :: fr); destruct Hwf as [W1 W2 W3 W4 W5 W6 W7 W8 W9]; constructor; simpl; rewrite ?length_insert; auto|].
  - by apply nchain_insert.
  - split; [done|]. exists (set_np (semfup s) x). rewrite list_lookup_insert_eq by done. split; [done|]. by apply nchain_insert.
  - by apply list.NoDup_cons.
  - intros v y Hy. destruct (decide (v = up)) as [->|Hne]; [rewrite list_lookup_insert_eq in Hy by done; injection Hy as <-; split; [by apply un_ok_np|done]|]. rewrite list_lookup_insert_ne in Hy by done. by apply W5.
  - intros v Hv [->|Hin]%elem_of_cons; [done|]. by eapply W6.
  - intros q v [Hq Hov]%Hown. destruct (W7 q v Hov) as [? Hv]. split; [done|]. intros [->|Hin]%elem_of_cons; [|done]. apply Hq. by apply (W8 q p up).
  - intros q r v [_ H1]%Hown [_ H2]%Hown. by apply (W8 q r v).
  - intros v Hv. destruct (decide (v = up)) as [->|Hne]; [left; left|]. destruct (W9 v Hv) as [Hin|[q Hq]]; [left; by right|]. right. exists q. apply Hown. split; [|done]. intros ->. unfold owns in *. congruence.
  - split; [repeat split; simpl; apply length_insert|]. split; [|split; [intros u [Hq _]%Hown; done|split; [|done]]].
    + unfold adj. simpl. by rewrite list_lookup_insert_eq by done.
    + intros q Hq. unfold adj. simpl. rewrite list_lookup_insert_ne by done. destruct (sem_undo s !! q) as [[v|]|] eqn:Eq; [|done..]. rewrite list_lookup_insert_ne; [done|]. intros ->. apply Hq. by eapply uw_inj.
Qed.

Lemma undo_free_np p up s1 s2 : upd_un up (set_np None) s1 = Ok s2 → undo_free p up s1 = undo_free p up s2.
Proof.
  intros E. unfold upd_un in E. apply bind_ok in E as (x & Hx & E). injection E as <-. apply deref_ok in Hx. unfold undo_free. rewrite (upd_un_ok _ _ _ x) by done.
  rewrite (upd_un_ok _ _ _ (set_np None x)) by (simpl; by rewrite list_lookup_insert_eq by (by eapply lookup_lt_Some)). cbn [mbind res_bind]. simpl semu. rewrite list_insert_insert_eq. done.
Qed.

Lemma semexit_end_ok act fr s p up x : undo_wf act fr s → info_ok (s_info s) → owns s p up → semu s !! up = Some x → ∃ s', semexit_end p up s = Ok s' ∧ exited p s s'.
Proof.
  intros Hwf Hi Ho Hx. destruct (uw_own _ _ _ Hwf p up Ho) as [Hb Hfr]. pose proof (uw_un _ _ _ Hwf up x Hx) as [Hok _]. unfold semexit_end. rewrite (upd_un_ok _ _ _ x) by done. cbn [mbind res_bind].
  assert (un_ok (s_info s) (set_cnt 0 x)) as Hok0. { destruct Hok. constructor; [done|simpl; lia|constructor|constructor]. }
  destruct (un_deactivate act fr s up x (set_cnt 0 x) Hwf Hx Hfr eq_refl Hok0 eq_refl) as (us & h & E & Hch). apply bind_ok in E as (s1 & -> & E). cbn [mbind res_bind]. rewrite (undo_free_np _ _ _ _ E).
  destruct (un_changed_adj _ _ _ _ _ _ _ _ Hwf Hch Ho) as [_ Hq]. assert (owns (set_semunp h (set_semu us s)) p up) as Ho2 by done.
  destruct (undo_free_ok _ _ _ p up _ (uc_wf _ _ _ _ _ _ Hch) Ho2 (uc_un _ _ _ _ _ _ Hch) eq_refl) as (s' & E' & Hi' & Huo & Ha & Hno & Hoth & Hf). exists s'. split; [done|].
  split; [done|]. split; [eapply undo_only_trans; [apply Hch|done]|]. split; [done|]. split; [done|]. split; [|done]. intros q Hne. by rewrite Hoth, Hq.
Qed.

(** ** Identifiers *)

(** The set that an identifier leads to. *)
Definition live (s : semsys) (id ix : Z) (d : semid_ds) : Prop :=
  ix = sem_index id ∧ sema s !! Z.to_nat ix = Some d ∧ allocated (sem_perm d) = true ∧ sem_sequence id = ip_seq (sem_perm d).

Lemma sem_index_mod id : sem_index id = id mod 65536.
Proof. unfold sem_index, SEMA_INDEX_MASK. change 65535 with (Z.ones 16). rewrite Z.land_ones by lia. done. Qed.

Lemma sem_sequence_mod id : sem_sequence id = (id / 65536) mod 32768.
Proof. unfold sem_sequence, SEMA_SEQ_MASK, SEMA_SEQ_SHIFT. change 32767 with (Z.ones 15). rewrite Z.land_ones, Z.shiftr_div_pow2 by lia. done. Qed.

Lemma live_inj s id id' ix d d' : 0 ≤ id < W31 → 0 ≤ id' < W31 → live s id ix d → live s id' ix d' → id = id'.
Proof.
  unfold W31. intros H1 H2 (E1 & Hd & _ & S1) (E2 & Hd' & _ & S2). rewrite Hd in Hd'. injection Hd' as <-. rewrite sem_index_mod in *. rewrite sem_sequence_mod in *.
  assert (0 ≤ id / 65536 < 32768) by (split; [apply Z.div_pos; lia|apply Z.div_lt_upper_bound; lia]). assert (0 ≤ id' / 65536 < 32768) by (split; [apply Z.div_pos; lia|apply Z.div_lt_upper_bound; lia]).
  rewrite Z.mod_small in S1, S2 by lia. rewrite (Z.div_mod id 65536), (Z.div_mod id' 65536) by lia. lia.
Qed.

Lemma live_fun s id ix ix' d d' : live s id ix d → live s id ix' d' → ix = ix' ∧ d = d'.
Proof. intros (-> & H1 & _) (-> & H2 & _). split; [done|congruence]. Qed.

Lemma semconv_lock_ok s id : Z.of_nat (length (sema s)) = semmni (s_info s) →
  (∃ ix d, semconv_lock id s = Ok (Some ix) ∧ 0 ≤ ix ∧ live s id ix d) ∨ semconv_lock id s = Ok None ∧ ∀ ix d, ¬ live s id ix d.
Proof.
  intros Hl. unfold semconv_lock, live. assert (0 ≤ sem_index id) as Hp by (rewrite sem_index_mod; apply Z.mod_pos_bound; lia). destruct (Z.leb_spec (semmni (s_info s)) (sem_index id)) as [E|E].
  - right. split; [done|]. intros ix d (-> & Hd%lookup_lt_Some & _). lia.
  - destruct (lookup_lt_is_Some_2 (sema s) (Z.to_nat (sem_index id))) as [d Hd]; [lia|]. rewrite (aget_ok _ _ d) by done. cbn [mbind res_bind].
    destruct (allocated (sem_perm d)) eqn:Ea; cbn [negb orb]; [|right; split; [done|intros ix e (-> & He & Ha & _); congruence]].
    destruct (Z.eqb_spec (sem_sequence id) (ip_seq (sem_perm d))) as [Es|Es]; cbn [negb]; [left; eauto 10|right; split; [done|]]. intros ix e (-> & He & Ha & Hs). congruence.
Qed.

Lemma semconv_ok s id : Z.of_nat (length (sema s)) = semmni (s_info s) →
  semconv id s = Ok 0 ∧ (∃ ix d, 0 ≤ ix ∧ live s id ix d) ∨ semconv id s = Ok EINVAL ∧ ∀ ix d, ¬ live s id ix d.
Proof.
  intros Hl. pose proof (semconv_lock_ok s id Hl) as H. unfold semconv, semconv_lock in *. case_if; [right; destruct H as [(? & ? & ? & _)|[_ H]]; [done|done]|].
  destruct (aget (sema s) (sem_index id)) as [d| |]; cbn [mbind res_bind] in *; [|by destruct H as [(? & ? & ? & _)|[? _]]..]. case_if; destruct H as [(ix & e & E & ? & ?)|[E H]]; try done; [by right|left; eauto].
Qed.

(** ** The invariant *)

Definition in_use (s : semsys) (ix : nat) (d : semid_ds) : Prop := sema s !! ix = Some d ∧ allocated (sem_perm d) = true.

(** An adjustment that a process may have. *)
Definition key_ok (s : semsys) (k : Z * Z) : Prop :=
  0 ≤ k.1 < W31 ∧ 0 ≤ k.2 < 65536 ∧ ∃ ix d, live s k.1 ix d ∧ k.2 < sem_nsems d.

Record sem_wf (s : semsys) : Prop := MkSemWf {
  sw_undo : undo_inv s;
  sw_info : info_ok (s_info s);
  sw_mni : Z.of_nat (length (sema s)) = semmni (s_info s);
  sw_mns : Z.of_nat (length (sem s)) = semmns (s_info s);
  sw_vals : vals_ok (s_info s) (vals s);
  sw_map : map_wf (semmap s);
  sw_cap : 2 ≤ mh_size (semmap s);
  sw_free : ∀ x, free (semmap s) x → 1 ≤ x ≤ semmns (s_info s);
  sw_seq : ∀ ix d, sema s !! ix = Some d → 0 ≤ ip_seq (sem_perm d) < 32768;
  sw_set : ∀ ix d, in_use s ix d → 0 ≤ sem_base d ∧ 1 ≤ sem_nsems d ≤ 65535 ∧ sem_base d + sem_nsems d ≤ semmns (s_info s);
  sw_used : ∀ ix d i, in_use s ix d → in_set d i → ¬ free (semmap s) (Z.of_nat i + 1);
  sw_disj : ∀ ix jx d e i, in_use s ix d → in_use s jx e → in_set d i → in_set e i → ix = jx;
  sw_zero : ∀ i x, vals s !! i = Some x → (∀ ix d, in_use s ix d → ¬ in_set d i) → x = 0;
  sw_adj : ∀ p k a, adj s p !! k = Some a → key_ok s k
}.

(** What [sem_wf] uses of a set. *)
Definition shape (d : semid_ds) : Z * Z * bool * Z := (sem_base d, sem_nsems d, allocated (sem_perm d), ip_seq (sem_perm d)).

Definition same_shape (l l' : list semid_ds) : Prop := shape <$> l' = shape <$> l.

Lemma shape_lookup l l' ix d' : same_shape l l' → l' !! ix = Some d' → ∃ d, l !! ix = Some d ∧ shape d = shape d'.
Proof.
  intros E H. assert ((shape <$> l') !! ix = Some (shape d')) as H2 by by rewrite list_lookup_fmap, H. rewrite E, list_lookup_fmap in H2. destruct (l !! ix) as [d|]; [|discriminate H2]. exists d. split; [done|]. apply (inj Some) in H2. exact H2.
Qed.

Lemma shape_insert l ix d d' : l !! ix = Some d → shape d' = shape d → same_shape l (<[ix := d']> l).
Proof. intros Hd E. unfold same_shape. rewrite list_fmap_insert. apply list_insert_id. by rewrite list_lookup_fmap, Hd, E. Qed.

Lemma in_use_shape s s' ix d' : same_shape (sema s) (sema s') → in_use s' ix d' → ∃ d, in_use s ix d ∧ shape d = shape d'.
Proof. intros E [H Ha]. destruct (shape_lookup _ _ _ _ E H) as (d & Hd & Es). exists d. split; [|done]. split; [done|]. unfold shape in Es. congruence. Qed.

Lemma live_shape s s' id ix d' : same_shape (sema s) (sema s') → live s' id ix d' → ∃ d, live s id ix d ∧ shape d = shape d'.
Proof. intros E (Hi & H & Ha & Hs). destruct (shape_lookup _ _ _ _ E H) as (d & Hd & Es). exists d. split; [|done]. unfold shape in Es. unfold live. split_and!; [done|done|congruence|congruence]. Qed.

Lemma in_set_shape d d' i : shape d = shape d' → in_set d i ↔ in_set d' i.
Proof. unfold shape, in_set. intros [= -> -> _ _]. done. Qed.

Lemma key_ok_shape s s' k : same_shape (sema s) (sema s') → key_ok s k → key_ok s' k.
Proof.
  intros E (H1 & H2 & ix & d & Hl & H3). split; [done|]. split; [done|]. assert (same_shape (sema s') (sema s)) as E' by (symmetry; exact E).
  destruct (live_shape _ _ _ _ _ E' Hl) as (d' & Hd & Es). exists ix, d'. split; [done|]. unfold shape in Es. injection Es as ? ? ? ?. lia.
Qed.

(** The identifiers of [s] still lead to their sets. *)
Definition lives (s s' : semsys) : Prop := ∀ id ix d, live s id ix d → ∃ d', live s' id ix d' ∧ shape d' = shape d.

Lemma shape_lives s s' : same_shape (sema s) (sema s') → lives s s'.
Proof. intros E id ix d Hl. assert (same_shape (sema s') (sema s)) as E' by (symmetry; exact E). destruct (live_shape _ _ _ _ _ E' Hl) as (d' & ? & ?). by exists d'. Qed.

(** The sets and the map are as before. *)
Lemma wf_same_sets s s' : sem_wf s → undo_inv s' → s_info s' = s_info s → same_shape (sema s) (sema s') → semmap s' = semmap s → length (sem s') = length (sem s) → vals_ok (s_info s) (vals s') →
  (∀ i x', vals s' !! i = Some x' → vals s !! i = Some x' ∨ x' = 0 ∨ ∃ ix d, in_use s ix d ∧ in_set d i) → (∀ p k a, adj s' p !! k = Some a → key_ok s k) → sem_wf s'.
Proof.
  intros [] Hu Ei Es Em El Hv Hz Ha. constructor; rewrite ?Ei, ?Em, ?El; try done.
  - rewrite <- sw_mni0. f_equal. rewrite <- (length_fmap shape (sema s')), Es. by rewrite length_fmap.
  - intros ix d' H. destruct (shape_lookup _ _ _ _ Es H) as (d & Hd & E). unfold shape in E. injection E as ? ? ? ?. specialize (sw_seq0 _ _ Hd). lia.
  - intros ix d' H. destruct (in_use_shape _ _ _ _ Es H) as (d & Hd & E). unfold shape in E. injection E as ? ? ? ?. specialize (sw_set0 _ _ Hd). lia.
  - intros ix d' i H Hin. destruct (in_use_shape _ _ _ _ Es H) as (d & Hd & E). eapply sw_used0; [done|]. by eapply in_set_shape.
  - intros ix jx d' e' i H1 H2 H3 H4. destruct (in_use_shape _ _ _ _ Es H1) as (d & Hd & E). destruct (in_use_shape _ _ _ _ Es H2) as (e & He & E'). eapply sw_disj0; [exact Hd|exact He|by eapply in_set_shape|by eapply in_set_shape].
  - intros i x Hx Hn. assert (∀ ix d, in_use s ix d → ¬ in_set d i) as Hn'.
    { intros ix d [Hd Had] Hin. assert (same_shape (sema s') (sema s)) as Es2 by (symmetry; exact Es). destruct (in_use_shape s' s ix d Es2) as (d' & Hd' & E); [done|]. apply (Hn ix d' Hd'). by eapply in_set_shape. }
    destruct (Hz i x Hx) as [H|[H|(ix & d & H & Hin)]]; [by eapply sw_zero0|done|]. exfalso. by eapply Hn'.
  - intros p k a Hk. eapply key_ok_shape; [exact Es|by eapply Ha].
Qed.

(** ** What the operations touch *)

Lemma aoe_spec_keys i r k val m m' k' a : aoe_spec i r k val m = inr m' → m' !! k' = Some a → is_Some (m !! k') ∨ k' = k.
Proof.
  unfold aoe_spec. intros E Hk. case_if_in E; [injection E as <-; eauto|]. case_if_in E; [done|]. case_if_in E; [done|]. destruct (m !! k) eqn:Ek.
  - case_if_in E; [done|]. case_if_in E; injection E as <-; [apply lookup_delete_Some in Hk as [_ ?]; eauto|]. apply lookup_insert_Some in Hk as [[<- _]|[_ ?]]; eauto.
  - case_if_in E; [done|]. injection E as <-. apply lookup_insert_Some in Hk as [[<- _]|[_ ?]]; eauto.
Qed.

Lemma op_spec_frame i r semid base op v m v' m' : op_spec i r semid base op v m = inr (v', m') →
  (∀ j, j ≠ Z.to_nat (base + sem_num op) → v' !! j = v !! j) ∧ ∀ k a, m' !! k = Some a → is_Some (m !! k) ∨ k = (semid, sem_num op).
Proof.
  unfold op_spec. intros E. case_if_in E; [case_if_in E; [injection E as <- <-; eauto|done]|]. case_if_in E; [done|]. case_if_in E; [done|]. destruct (flag_spec i r semid op m) as [e|m1] eqn:Ef; [done|]. injection E as <- <-.
  split; [intros j Hj; by apply list_lookup_insert_ne|]. intros k a Hk. unfold flag_spec in Ef. case_if_in Ef; [by eapply aoe_spec_keys|]. injection Ef as ->. eauto.
Qed.

Lemma ops_spec_frame i r semid base ops v m v' m' : ops_spec i r semid base ops v m = inr (v', m') →
  (∀ j, ¬ touched base ops j → v' !! j = v !! j) ∧ ∀ k a, m' !! k = Some a → is_Some (m !! k) ∨ ∃ op, op ∈ ops ∧ k = (semid, sem_num op).
Proof.
  revert v m. induction ops as [|op ops IH]; intros v m E; cbn [ops_spec] in E; [injection E as -> ->; eauto|]. destruct (op_spec i r semid base op v m) as [t|[v1 m1]] eqn:E1; [done|].
  destruct (op_spec_frame _ _ _ _ _ _ _ _ _ E1) as [F1 K1]. destruct (IH _ _ E) as [F2 K2]. split.
  - intros j Hj. rewrite F2, F1; [done| |]; [intros ->; apply Hj; exists op; split; [left|done]|]. intros (o & Ho & Eo). apply Hj. exists o. split; [by right|done].
  - intros k a Hk. destruct (K2 k a Hk) as [[b Hb]|(o & Ho & ->)]; [|right; exists o; split; [by right|done]]. destruct (K1 k b Hb) as [?| ->]; [by left|]. right. exists op. split; [left|done].
Qed.

(** A [sembuf] as C has it. *)
Definition buf_ok (op : sembuf) : Prop := -32768 ≤ sem_op op < 32768 ∧ 0 ≤ sem_num op < 65536.

Lemma asleep_vals ix s t s' : asleep ix s t s' → vals s' = vals s.
Proof. destruct 1; [done|unfold vals; simpl; rewrite list_fmap_insert; apply list_insert_id; rewrite list_lookup_fmap, H0; done..]. Qed.

Lemma asleep_shape ix s t s' : asleep ix s t s' → same_shape (sema s) (sema s').
Proof. destruct 1; [done..|]. simpl. by eapply shape_insert. Qed.

Lemma asleep_rest ix s t s' : asleep ix s t s' → undo_inv s → undo_inv s' ∧ s_info s' = s_info s ∧ semmap s' = semmap s ∧ length (sem s') = length (sem s) ∧ (∀ p, adj s' p = adj s p) ∧ length (sem_undo s') = length (sem_undo s).
Proof.
  intros H Hu. destruct H; [done|..]; simpl; rewrite length_insert; split_and!; try done; [by apply undo_inv_sem|]. apply undo_inv_sema. by apply undo_inv_sem.
Qed.

Lemma shape_otime l ix d x : l !! ix = Some d → same_shape l (<[ix := set_otime x d]> l).
Proof. intros H. by eapply shape_insert. Qed.

(** ** Calls *)

Section op_call.
Context (s : semsys) (w : who) (semid ix : Z) (sp : semid_ds) (ops : list sembuf).
Hypotheses (Hwf : sem_wf s) (Hslot : (w_slot w < length (sem_undo s))%nat) (Hid : 0 ≤ semid < W31) (Hlive : live s semid ix sp) (Hix : 0 ≤ ix).
Hypotheses (Hops : Forall buf_ok ops) (Hnum : Forall (λ op, sem_num op < sem_nsems sp) ops).

Lemma op_ready : ready w ix sp s.
Proof using All. destruct Hwf. constructor; try done. apply Hlive. Qed.

Lemma op_in_use : in_use s (Z.to_nat ix) sp.
Proof using All. destruct Hlive as (_ & ? & ? & _). done. Qed.

Lemma ops_ok : Forall (op_ok (sem_base sp) (length (sem s))) ops.
Proof using All.
  destruct (sw_set _ Hwf _ _ op_in_use) as (H1 & H2 & H3). rewrite <- (sw_mns _ Hwf) in H3. rewrite list.Forall_forall in Hops, Hnum |- *. intros op Hop. destruct (Hops op Hop) as [? ?]. specialize (Hnum op Hop). simpl in Hnum. unfold op_ok. lia.
Qed.

Lemma touched_in_set j : touched (sem_base sp) ops j → in_set sp j.
Proof using All.
  intros (op & Hop & <-). destruct (sw_set _ Hwf _ _ op_in_use) as (H1 & H2 & H3). rewrite list.Forall_forall in Hops, Hnum. destruct (Hops op Hop) as [? ?]. specialize (Hnum op Hop). simpl in Hnum. unfold in_set. lia.
Qed.

Lemma op_key op : op ∈ ops → key_ok s (semid, sem_num op).
Proof using All.
  intros Hop. rewrite list.Forall_forall in Hops, Hnum. split; [done|]. split; [apply Hops; done|]. exists ix, sp. split; [done|by apply Hnum].
Qed.

Lemma pass_call : ∃ t s', semop_pass w semid ix ops s = Ok (t, s') ∧ sem_wf s' ∧ length (sem_undo s') = length (sem_undo s).
Proof using All.
  pose proof op_ready as Hr. pose proof (semop_pass_ok w semid ix ops s sp Hr ops_ok Hnum (undo_inv_adj _ _ (sw_undo _ Hwf) (sw_info _ Hwf))) as H.
  destruct (ops_spec _ _ _ _ ops _ _) as [t|[v a]] eqn:E.
  - destruct H as (s' & Es & s1 & K & [Ls _] & Hv & Ha & Has). exists t, s'. split; [done|]. destruct (asleep_rest _ _ _ _ Has (kp_inv _ _ _ K)) as (Hu & Hi & Hm & Hl & Had & Ht).
    split; [|rewrite Ht; apply K]. apply (wf_same_sets s); try done.
    + rewrite Hi. apply K.
    + rewrite <- (kp_sema _ _ _ K). by eapply asleep_shape.
    + rewrite Hm. apply K.
    + by rewrite Hl.
    + rewrite (asleep_vals _ _ _ _ Has), Hv. apply Hwf.
    + intros i x. rewrite (asleep_vals _ _ _ _ Has), Hv. by left.
    + intros p k b. rewrite Had. destruct (decide (p = w_slot w)) as [->|Hp]; [rewrite Ha|rewrite (kp_adj _ _ _ K) by done]; by eapply sw_adj.
  - destruct H as (s1 & Es & K & [Ls _] & Hv & Ha). eexists _, _. split; [exact Es|]. split; [|simpl; apply K]. set (s' := set_sema _ _).
    destruct (ops_spec_ok _ _ _ _ _ _ _ _ _ ltac:(apply (sw_info _ Hwf)) (sw_vals _ Hwf) (undo_inv_adj _ _ (sw_undo _ Hwf) (sw_info _ Hwf)) E) as (Hv' & _ & _). destruct (ops_spec_frame _ _ _ _ _ _ _ _ _ E) as [Fv Fa].
    assert (vals s' = v) as Ev. { rewrite <- Hv. unfold vals. simpl. unfold pids_set. apply list_eq. intros i. rewrite !list_lookup_fmap, list_lookup_imap. destruct (sem s1 !! i) as [m|]; [|done]. simpl. by case_decide. }
    apply (wf_same_sets s); try done; rewrite ?Ev; try done.
    + apply undo_inv_sema, undo_inv_sem, K.
    + apply K.
    + simpl. eapply shape_otime. apply Hlive.
    + apply K.
    + simpl. unfold pids_set. by rewrite length_imap.
    + intros i x Hx. destruct (decide (touched (sem_base sp) ops i)) as [Ht|Ht]; [|left; by rewrite <- Fv]. right. right. exists (Z.to_nat ix), sp. split; [apply op_in_use|by apply touched_in_set].
    + intros p k b Hk. change (adj s' p) with (adj s1 p) in Hk. destruct (decide (p = w_slot w)) as [->|Hp]; [|rewrite (kp_adj _ _ _ K) in Hk by done; by eapply sw_adj].
      rewrite Ha in Hk. destruct (Fa k b Hk) as [[c Hc]|(op & Hop & ->)]; [by eapply sw_adj|by apply op_key].
Qed.
End op_call.

(** ** Changes to semaphores only *)

Definition nosig : nat → bool := λ _, false.

Definition set_cvs (c : list cvop) (s : semsys) : semsys := MkSs (s_info s) (sema s) (sem s) (semmap s) (sem_undo s) (semu s) (semunp s) (semfup s) (hrestime s) c.

Definition only_sems (s s' : semsys) : Prop := ∃ l c, s' = set_cvs c (set_sem l s).

(** The values of the semaphores outside [P] stay, and the sleepers are woken as [R] says. *)
Definition val_step (P : nat → Prop) (s s' : semsys) : Prop :=
  only_sems s s' ∧ wakes (full_at nosig) s s' ∧ ∀ i, ¬ P i → vals s' !! i = vals s !! i.

Lemma only_sems_refl s : only_sems s s.
Proof. exists (sem s), (cvs s). by destruct s. Qed.

Lemma only_sems_trans s1 s2 s3 : only_sems s1 s2 → only_sems s2 s3 → only_sems s1 s3.
Proof. intros (l & c & ->) (l' & c' & ->). by exists l', c'. Qed.

Lemma only_sems_inv s s' : only_sems s s' → undo_inv s → undo_inv s'.
Proof. intros (l & c & ->) (act & fr & []). exists act, fr. by constructor. Qed.

Lemma val_step_refl P s : val_step P s s.
Proof. split; [apply only_sems_refl|]. split; [apply wakes_same; [done|done|apply full_at_refl]|done]. Qed.

Lemma val_step_trans (P Q : nat → Prop) s1 s2 s3 : val_step P s1 s2 → val_step Q s2 s3 → val_step (λ i, P i ∨ Q i) s1 s3.
Proof.
  intros (O1 & W1 & V1) (O2 & W2 & V2). split; [by eapply only_sems_trans|]. split; [eapply wakes_trans; [intros *; apply full_at_trans|done|done]|]. intros i Hi. rewrite V2, V1 by tauto. done.
Qed.

Lemma val_step_weaken (P Q : nat → Prop) s s' : (∀ i, P i → Q i) → val_step P s s' → val_step Q s s'.
Proof. intros H (O & W & V). split; [done|]. split; [done|]. intros i Hi. apply V. auto. Qed.

(** One semaphore changes. *)
Lemma val_site s s' i m m' new : only_sems s s' → sem s !! i = Some m → sem s' = <[i := m']> (sem s) → cvs s' = cvs s ++ new → full_at nosig new i m m' →
  val_step (λ j, j = i) s s' ∧ vals s' = <[i := semval m']> (vals s).
Proof.
  intros Ho Hm Es Ec Hf. assert (vals s' = <[i := semval m']> (vals s)) as Ev by (unfold vals; by rewrite Es, list_fmap_insert). split; [|done]. split; [done|]. split; [by eapply wakes_site|].
  intros j Hj. rewrite Ev. by rewrite list_lookup_insert_ne.
Qed.

Lemma set_pid_ok k pid s m : 0 ≤ k → sem s !! Z.to_nat k = Some m → ∃ s', upd_sem k (set_sempid pid) s = Ok s' ∧ val_step (λ _, False) s s' ∧ vals s' = vals s.
Proof.
  intros Hk Hm. rewrite (upd_sem_ok _ _ _ m) by done. eexists. split; [done|]. set (s' := set_sem _ s).
  destruct (val_site s s' (Z.to_nat k) m (set_sempid pid m) []) as [H1 H2]; [by eexists _, (cvs s)|done|done|by rewrite app_nil_r|split; [split; by left|split; [done|simpl; lia]]|].
  assert (vals s' = vals s) as E. { rewrite H2. apply list_insert_id. simpl. by apply vals_lookup. } split; [|done]. destruct H1 as (O & W & _). split; [done|]. split; [done|]. intros i _. by rewrite E.
Qed.

(** The wakeups of a stored value. *)
Lemma store_val_ok k v s m : 0 ≤ k → sem s !! Z.to_nat k = Some m → 0 ≤ semval m → ∃ s', store_val k v s = Ok s' ∧ val_step (λ i, i = Z.to_nat k) s s' ∧ vals s' = <[Z.to_nat k := v]> (vals s).
Proof.
  intros Hk Hm Hpos. unfold store_val. rewrite (upd_sem_ok _ _ _ m) by done. cbn [mbind res_bind]. set (s1 := set_sem _ s). set (m1 := set_semval v m).
  assert (sem s1 !! Z.to_nat k = Some m1) as Hm1 by (simpl; by rewrite list_lookup_insert_eq by (by eapply lookup_lt_Some)). rewrite (aget_ok _ _ m1) by done. cbn [mbind res_bind].
  assert (∀ m2 new, semval m2 = v → full_at nosig new (Z.to_nat k) m m2 → ∃ s', Ok (set_cvs (cvs s ++ new) (set_sem (<[Z.to_nat k := m2]> (sem s)) s)) = Ok s' ∧ val_step (λ i, i = Z.to_nat k) s s' ∧ vals s' = <[Z.to_nat k := v]> (vals s)) as Hsite.
  { intros m2 new <- Hf. eexists. split; [done|]. apply (val_site s _ (Z.to_nat k) m m2 new); try done. by eexists _, _. }
  assert (Hid : ∀ m2, set_sem (<[Z.to_nat k := m2]> (sem s1)) s1 = set_sem (<[Z.to_nat k := m2]> (sem s)) s) by (intros m2; unfold s1, set_sem; simpl; by rewrite list_insert_insert_eq).
  assert (Hnil : s1 = set_cvs (cvs s ++ []) (set_sem (<[Z.to_nat k := m1]> (sem s)) s)) by (rewrite app_nil_r; done).
  change (semncnt m1) with (semncnt m). change (semzcnt m1) with (semzcnt m). unfold full_at, cnt_at, val_at in Hsite. rewrite Z2Nat.id in Hsite by done.
  destruct (Z.eqb_spec v 0) as [->|Hv]; cbn [negb].
  - destruct (Z.eqb_spec (semzcnt m) 0) as [Ez|Ez]; cbn [negb].
    + rewrite Hnil. apply Hsite; [done|]. simpl. split; [split; by left|]. split; [by left|lia].
    + rewrite (upd_sem_ok _ _ _ m1) by done. cbn [mbind res_bind]. rewrite Hid. apply (Hsite _ [CvBroadcast k true]); [done|]. simpl. split; [split; [right; split; [done|left]|by left]|]. split; [right; left|lia].
  - destruct (Z.eqb_spec (semncnt m) 0) as [En|En]; cbn [negb].
    + rewrite Hnil. apply Hsite; [done|]. simpl. split; [split; by left|]. split; [done|by left].
    + rewrite (upd_sem_ok _ _ _ m1) by done. cbn [mbind res_bind]. rewrite Hid. apply (Hsite _ [CvBroadcast k false]); [done|]. simpl. split; [split; [by left|right; split; [done|left]]|]. split; [done|right; left].
Qed.
