(* ===== verification/SemRun.v ===== *)
(** * Every call on semaphores

    [semget] makes a set of semaphores that are zero and gives an identifier that leads to it
    ([semget_ok]); [semctl] sets values, or removes a set with the adjustments of its semaphores
    ([rmid_ok], [semctl_ok]); [semexit] gives back what the process still holds ([semexit_ok]).
    [run_call] is any call, to its end or to a sleep: it returns and keeps the invariant
    ([call_returns]). *)

From S2P Require Import Prelude Rmap Bitmap Cred Sem SemList SemOps SemSets.

(** ** Semaphores of a set *)

(** A run of [n] semaphores from [k] on. *)
Definition run (k : Z) (n : nat) (i : nat) : Prop := k ≤ Z.of_nat i < k + Z.of_nat n.

(** Everyone who sleeps on a semaphore of the run is woken. *)
Definition all_woken (k : Z) (n : nat) (new : list cvop) (i : nat) (m m' : sem_t) : Prop :=
  run k n i → (semncnt m = 0 ∨ CvBroadcast (Z.of_nat i) false ∈ new) ∧ (semzcnt m = 0 ∨ CvBroadcast (Z.of_nat i) true ∈ new).

Lemma clear_one_ok k s m : 0 ≤ k → sem s !! Z.to_nat k = Some m → 0 ≤ semval m →
  ∃ s' new, clear_one k s = Ok s' ∧
    s' = set_cvs (cvs s ++ new) (set_sem (<[Z.to_nat k := MkSem 0 0 0 0]> (sem s)) s) ∧
    (semncnt m = 0 ∨ CvBroadcast k false ∈ new) ∧ (semzcnt m = 0 ∨ CvBroadcast k true ∈ new).
Proof.
  intros Hk Hm Hv. unfold clear_one. rewrite (upd_sem_ok _ _ _ m) by done. cbn [mbind res_bind]. set (m1 := set_semval 0 _).
  assert (∀ x (l : list sem_t), l !! Z.to_nat k = Some x → ∀ y, <[Z.to_nat k := y]> l !! Z.to_nat k = Some y) as Hlk by (intros x l Hl y; by rewrite list_lookup_insert_eq by (by eapply lookup_lt_Some)).
  rewrite (aget_ok _ _ m1) by (done || by eapply Hlk). cbn [mbind res_bind]. change (semncnt m1) with (semncnt m). change (semzcnt m1) with (semzcnt m).
  destruct (Z.eqb_spec (semncnt m) 0) as [En|En], (Z.eqb_spec (semzcnt m) 0) as [Ez|Ez]; cbn [negb mbind res_bind].
  - eexists _, []. split; [done|]. rewrite app_nil_r. split; [|auto]. replace m1 with (MkSem 0 0 0 0) by (by destruct m; simpl in *; subst). done.
  - rewrite (upd_sem_ok _ _ _ m1) by (done || by eapply Hlk). cbn [mbind res_bind]. eexists _, [CvBroadcast k true]. split; [done|]. split; [|split; [by left|right; left]].
    unfold set_cvs, set_sem. simpl. rewrite list_insert_insert_eq. do 3 f_equal. by destruct m; simpl in *; subst.
  - rewrite (upd_sem_ok _ _ _ m1) by (done || by eapply Hlk). cbn [mbind res_bind]. eexists _, [CvBroadcast k false]. split; [done|]. split; [|split; [right; left|by left]].
    unfold set_cvs, set_sem. simpl. rewrite list_insert_insert_eq. do 3 f_equal. by destruct m; simpl in *; subst.
  - rewrite (upd_sem_ok _ _ _ m1) by (done || by eapply Hlk). cbn [mbind res_bind].
    rewrite (upd_sem_ok _ _ _ (set_semncnt 0 m1)) by (done || (simpl; eapply Hlk; by eapply Hlk)). cbn [mbind res_bind]. eexists _, [CvBroadcast k false; CvBroadcast k true]. split; [done|].
    split; [|split; [right; left|right; right; left]]. unfold set_cvs, set_sem, cv. simpl. rewrite !list_insert_insert_eq, <- (assoc_L (++)). done.
Qed.

Definition clear_at (k : Z) (n : nat) new i m m' : Prop := full_at nosig new i m m' ∧ all_woken k n new i m m'.

(** The semaphores of a set that is removed are zero and without sleepers. *)
Lemma clear_sems_ok n k s : 0 ≤ k → k + Z.of_nat n ≤ Z.of_nat (length (sem s)) → Forall (λ x, 0 ≤ x) (vals s) →
  ∃ s', clear_sems n k s = Ok s' ∧ only_sems s s' ∧ wakes (clear_at k n) s s' ∧ (∀ i, run k n i → sem s' !! i = Some (MkSem 0 0 0 0)) ∧ (∀ i, ¬ run k n i → sem s' !! i = sem s !! i).
Proof.
  revert k s. induction n as [|n IH]; intros k s Hk Hl Hv.
  - exists s. split; [done|]. split; [apply only_sems_refl|]. split; [apply wakes_same; [done|done|intros i m; split; [apply full_at_refl|unfold all_woken, run; lia]]|]. unfold run. split; [lia|done].
  - cbn [clear_sems]. destruct (lookup_lt_is_Some_2 (sem s) (Z.to_nat k)) as [m Hm]; [lia|]. assert (0 ≤ semval m) as Hvm by (exact (Forall_lookup_1 _ _ _ _ Hv (vals_lookup _ _ _ Hm))).
    destruct (clear_one_ok k s m Hk Hm Hvm) as (s1 & new1 & -> & Es1 & Hn & Hz). cbn [mbind res_bind].
    destruct (IH (k + 1) s1 ltac:(lia)) as (s' & E & Ho & [Lw (new & Ec & Hw)] & Hr & Hnr).
    { rewrite Es1. simpl. rewrite length_insert. lia. }
    { rewrite Es1. unfold vals. simpl. rewrite list_fmap_insert. by apply Forall_insert. }
    exists s'. split; [done|]. assert (only_sems s s1) as Ho1 by (rewrite Es1; by eexists _, _). split; [by eapply only_sems_trans|].
    assert (∀ j, j ≠ Z.to_nat k → sem s1 !! j = sem s !! j) as Hne by (intros j Hj; rewrite Es1; simpl; by rewrite list_lookup_insert_ne).
    assert (sem s1 !! Z.to_nat k = Some (MkSem 0 0 0 0)) as Hkk by (rewrite Es1; simpl; by rewrite list_lookup_insert_eq by (by eapply lookup_lt_Some)).
    assert (¬ run (k + 1) n (Z.to_nat k)) as Hnk by (unfold run; lia).
    split; [|split].
    + split; [rewrite Lw, Es1; simpl; apply length_insert|]. exists (new1 ++ new). split; [rewrite Ec, Es1; simpl; by rewrite <- (assoc_L (++))|]. intros j mj mj' Hj Hj'. destruct (decide (j = Z.to_nat k)) as [->|Hjk].
      * rewrite Hnr, Hkk in Hj' by done. injection Hj' as <-. assert (mj = m) as -> by congruence. unfold clear_at, full_at, cnt_at, val_at, all_woken. rewrite Z2Nat.id by done. rewrite !elem_of_app. simpl. split; [|tauto].
        split; [split; [destruct Hz as [->|?]; tauto|intros _; destruct Hn as [->|?]; tauto]|]. split; [tauto|lia].
      * rewrite <- Hne in Hj by done. destruct (Hw j mj mj' Hj Hj') as [[[C1 C2] [V1 V2]] Ha]. unfold clear_at, full_at, cnt_at, val_at, all_woken in *. rewrite !elem_of_app. split; [|intros Hrun; destruct Ha; [unfold run in *; lia|tauto]].
        split; [split; [tauto|intros; destruct C2; tauto]|]. split; [intros ? ?; destruct V1; tauto|intros ? ?; destruct V2; tauto].
    + intros i Hi. destruct (decide (i = Z.to_nat k)) as [->|Hik]; [by rewrite Hnr|]. apply Hr. unfold run in *. lia.
    + intros i Hi. rewrite Hnr by (unfold run in *; lia). apply Hne. intros ->. apply Hi. unfold run. lia.
Qed.

Lemma store_all_ok pid k l s : 0 ≤ k → k + Z.of_nat (length l) ≤ Z.of_nat (length (sem s)) → Forall (λ x, 0 ≤ x) (vals s) → Forall (λ x, 0 ≤ x) l →
  ∃ s', store_all pid k l s = Ok s' ∧ val_step (run k (length l)) s s' ∧ ∀ i v, l !! i = Some v → vals s' !! (Z.to_nat k + i)%nat = Some v.
Proof.
  revert k s. induction l as [|v l IH]; intros k s Hk Hl Hv Hvl.
  - exists s. split; [done|]. split; [apply val_step_refl|done].
  - cbn [store_all]. simpl in Hl. apply list.Forall_cons in Hvl as [Hv0 Hvl]. destruct (lookup_lt_is_Some_2 (sem s) (Z.to_nat k)) as [m Hm]; [lia|]. assert (0 ≤ semval m) as Hvm by (exact (Forall_lookup_1 _ _ _ _ Hv (vals_lookup _ _ _ Hm))).
    destruct (store_val_ok k v s m Hk Hm Hvm) as (s1 & -> & S1 & V1). cbn [mbind res_bind]. assert (length (sem s1) = length (sem s)) as L1 by apply S1.
    destruct (lookup_lt_is_Some_2 (sem s1) (Z.to_nat k)) as [m1 Hm1]; [lia|]. destruct (set_pid_ok k pid s1 m1 Hk Hm1) as (s2 & -> & S2 & V2). cbn [mbind res_bind]. assert (length (sem s2) = length (sem s1)) as L2 by apply S2.
    destruct (IH (k + 1) s2 ltac:(lia) ltac:(lia)) as (s' & E & S3 & V3); [rewrite V2, V1; by apply Forall_insert|done|]. exists s'. split; [done|]. split.
    + eapply val_step_weaken; [|eapply val_step_trans; [exact S1|eapply val_step_trans; [exact S2|exact S3]]]. simpl. unfold run. simpl. intros i. lia.
    + intros [|i] x Hx.
      * injection Hx as <-. destruct S3 as (_ & _ & F3). rewrite F3 by (unfold run; lia). rewrite V2, V1, Nat.add_0_r. rewrite list_lookup_insert_eq; [done|]. rewrite vals_length. lia.
      * specialize (V3 i x Hx). rewrite <- V3. f_equal. lia.
Qed.

Lemma get_vals_ok n k s : 0 ≤ k → k + Z.of_nat n ≤ Z.of_nat (length (sem s)) → get_vals n k s = Ok (take n (drop (Z.to_nat k) (vals s))).
Proof.
  revert k. induction n as [|n IH]; intros k Hk Hl; [done|]. cbn [get_vals]. destruct (lookup_lt_is_Some_2 (sem s) (Z.to_nat k)) as [m Hm]; [lia|]. rewrite (aget_ok _ _ m) by done. cbn [mbind res_bind].
  rewrite IH by lia. cbn [mbind res_bind]. rewrite (drop_S _ (semval m) (Z.to_nat k)) by by apply vals_lookup. simpl. do 3 f_equal. f_equal. lia.
Qed.

(** The invariant after a change to the values of semaphores in sets. *)
Lemma wf_val_step (P : nat → Prop) `{∀ i, Decision (P i)} s s' : sem_wf s → val_step P s s' → vals_ok (s_info s) (vals s') → (∀ i, P i → ∃ ix d, in_use s ix d ∧ in_set d i) → sem_wf s'.
Proof.
  intros Hwf (Ho & [Lw _] & Hv) Hok HP. pose proof (only_sems_inv _ _ Ho (sw_undo _ Hwf)) as Hu. destruct Ho as (l & c & ->). apply (wf_same_sets s); try done.
  - intros i x Hx. destruct (decide (P i)) as [Hi|Hi]; [right; right; by apply HP|left; by rewrite <- Hv].
  - intros p k a Hk. by eapply sw_adj.
Qed.

Lemma wf_undo s s' : sem_wf s → undo_inv s' → undo_only s s' → (∀ p k a, adj s' p !! k = Some a → key_ok s k) → sem_wf s'.
Proof.
  intros Hwf Hu (E1 & E2 & E3 & E4 & _) Ha. assert (vals s' = vals s) as Ev by (unfold vals; by rewrite E3). apply (wf_same_sets s); rewrite ?E1, ?E2, ?E3, ?Ev; try done; [apply Hwf|by left].
Qed.

Lemma in_use_insert s s' ix d d' jx e : sema s !! ix = Some d → sema s' = <[ix := d']> (sema s) → in_use s' jx e ↔ jx = ix ∧ e = d' ∧ allocated (sem_perm d') = true ∨ jx ≠ ix ∧ in_use s jx e.
Proof.
  intros Hd E. unfold in_use. rewrite E. destruct (decide (jx = ix)) as [->|Hne].
  - rewrite list_lookup_insert_eq by (by eapply lookup_lt_Some). naive_solver.
  - rewrite list_lookup_insert_ne by done. naive_solver.
Qed.

Lemma live_insert_ne s s' ix d' id jx e : sema s' = <[ix := d']> (sema s) → Z.to_nat jx ≠ ix → live s id jx e → live s' id jx e.
Proof. intros E Hne (H1 & H2 & H3). unfold live. rewrite E, list_lookup_insert_ne by done. done. Qed.

Lemma live_index s id ix d : live s id ix d → 0 ≤ ix.
Proof. intros (-> & _). rewrite sem_index_mod. apply Z.mod_pos_bound. lia. Qed.

(** A set is removed. *)
Lemma wf_remove s s' semid ix d d' : sem_wf s → 0 ≤ semid < W31 → live s semid ix d → undo_inv s' → s_info s' = s_info s → sema s' = <[Z.to_nat ix := d']> (sema s) →
  allocated (sem_perm d') = false → 0 ≤ ip_seq (sem_perm d') < 32768 → map_wf (semmap s') → mh_size (semmap s') = mh_size (semmap s) →
  (∀ x, free (semmap s') x → free (semmap s) x ∨ sem_base d + 1 ≤ x < sem_base d + 1 + sem_nsems d) → length (sem s') = length (sem s) → vals_ok (s_info s) (vals s') →
  (∀ i x, vals s' !! i = Some x → in_set d i ∧ x = 0 ∨ ¬ in_set d i ∧ vals s !! i = Some x) → (∀ p k a, adj s' p !! k = Some a → adj s p !! k = Some a ∧ k.1 ≠ semid) → sem_wf s'.
Proof.
  intros Hwf Hid Hl Hu Ei Es Hna Hseq Hm Hsz Hfree Elen Hv Hz Ha. pose proof Hl as (_ & Hd & Hal & _). assert (in_use s (Z.to_nat ix) d) as Hiu by done. pose proof (sw_set _ Hwf _ _ Hiu) as (Hb & Hn & Hbn).
  assert (∀ jx e, in_use s' jx e ↔ jx ≠ Z.to_nat ix ∧ in_use s jx e) as Hin by (intros jx e; rewrite (in_use_insert s s' _ d d') by done; naive_solver congruence).
  destruct Hwf as [W1 W2 W3 W4 W5 W6 W7 sw_free0 sw_seq0 sw_set0 sw_used0 sw_disj0 sw_zero0 sw_adj0]. constructor; rewrite ?Ei, ?Elen, ?Hsz; try done.
  - rewrite Es, length_insert. done.
  - intros x Hx. destruct (Hfree x Hx) as [?|?]; [auto|lia].
  - intros jx e He. rewrite Es in He. apply list_lookup_insert_Some in He as [(<- & <- & _)|[_ He]]; [done|by eapply sw_seq0].
  - intros jx e [_ He]%Hin. by eapply sw_set0.
  - intros jx e i [Hne He]%Hin Hi Hf. destruct (Hfree _ Hf) as [?|?]; [by eapply sw_used0|]. apply Hne. apply (sw_disj0 jx (Z.to_nat ix) e d i); try done. unfold in_set in *. lia.
  - intros jx kx e f i [_ H1]%Hin [_ H2]%Hin. by eapply sw_disj0.
  - intros i x Hx Hnone. destruct (Hz i x Hx) as [[_ ?]|[Hni Hx2]]; [done|]. apply (sw_zero0 i x Hx2). intros jx e He Hi. destruct (decide (jx = Z.to_nat ix)) as [->|Hne].
    + destruct He as [He _]. simplify_eq. done.
    + eapply Hnone; [apply Hin; by split|done].
  - intros p k a Hk. destruct (Ha p k a Hk) as [Hk2 Hne]. destruct (sw_adj0 p k a Hk2) as (K1 & K2 & jx & e & Hle & K3). split; [done|]. split; [done|]. exists jx, e. split; [|done].
    eapply live_insert_ne; [exact Es| |done]. intros E. apply Hne. pose proof (live_index _ _ _ _ Hle). pose proof (live_index _ _ _ _ Hl). assert (jx = ix) as -> by lia.
    destruct Hle as (L1 & L2 & L3). assert (e = d) as -> by congruence. eapply live_inj; [exact K1|exact Hid|split; [exact L1|split; [exact L2|exact L3]]|exact Hl].
Qed.

(** A set is made. *)
Lemma wf_add s s' ix d d' a : sem_wf s → undo_inv s' → s_info s' = s_info s → sema s !! ix = Some d → allocated (sem_perm d) = false → sema s' = <[ix := d']> (sema s) →
  ip_seq (sem_perm d') = ip_seq (sem_perm d) → sem_base d' = a - 1 → 1 ≤ sem_nsems d' ≤ 65535 → 0 < a → map_wf (semmap s') → mh_size (semmap s') = mh_size (semmap s) →
  takes (free (semmap s)) (free (semmap s')) a (sem_nsems d') → sem s' = sem s → (∀ p, adj s' p = adj s p) → sem_wf s'.
Proof.
  intros Hwf Hu Ei Hd Hna Es Hseq Hb Hn Ha Hm Hsz [Ht1 Ht2] Esem Hadj. assert (vals s' = vals s) as Ev by (unfold vals; by rewrite Esem).
  assert (∀ jx e, in_use s' jx e → jx = ix ∧ e = d' ∨ jx ≠ ix ∧ in_use s jx e) as Hin by (intros jx e; rewrite (in_use_insert s s' _ d d') by done; naive_solver).
  assert (∀ i, in_set d' i → free (semmap s) (Z.of_nat i + 1)) as Hfr by (intros i Hi; apply Ht1; unfold in_set in Hi; lia).
  destruct Hwf as [W1 W2 W3 W4 W5 W6 W7 sw_free0 sw_seq0 sw_set0 sw_used0 sw_disj0 sw_zero0 sw_adj0]. constructor; rewrite ?Ei, ?Esem, ?Hsz, ?Ev; try done.
  - rewrite Es, length_insert. done.
  - intros x Hx. apply Ht2 in Hx as [Hx _]. auto.
  - intros jx e He. rewrite Es in He. apply list_lookup_insert_Some in He as [(<- & <- & _)|[_ He]]; [rewrite Hseq|]; by eapply sw_seq0.
  - intros jx e [[-> ->]|[_ He]]%Hin; [|by eapply sw_set0]. split; [lia|]. split; [done|]. destruct (sw_free0 (a + sem_nsems d' - 1)); [apply Ht1; lia|lia].
  - intros jx e i [[-> ->]|[_ He]]%Hin Hi Hf; apply Ht2 in Hf as [Hf Hnr]; [unfold in_set in Hi; lia|by eapply sw_used0].
  - intros jx kx e f i [[-> ->]|[N1 H1]]%Hin [[-> ->]|[N2 H2]]%Hin I1 I2; [done|exfalso; eapply sw_used0; [exact H2|exact I2|by apply Hfr]|exfalso; eapply sw_used0; [exact H1|exact I1|by apply Hfr]|by eapply sw_disj0].
  - intros i x Hx Hnone. apply (sw_zero0 i x Hx). intros jx e He Hi. assert (jx ≠ ix) as Hne by (intros ->; destruct He; congruence). apply (Hnone jx e); [|done]. apply (in_use_insert s s' ix d d'); [done|done|]. by right.
  - intros p k b Hk. rewrite Hadj in Hk. destruct (sw_adj0 p k b Hk) as (K1 & K2 & jx & e & Hle & K3). split; [done|]. split; [done|]. exists jx, e. split; [|done].
    eapply live_insert_ne; [exact Es| |done]. intros E. destruct Hle as (_ & L2 & L3 & _). rewrite E in L2. congruence.
Qed.

(** ** Permissions *)

Lemma allocated_bit p : allocated p = Z.testbit (ip_mode p) 15.
Proof.
  unfold allocated, IPC_ALLOC. change 32768 with (2 ^ 15). destruct (Z.testbit (ip_mode p) 15) eqn:E.
  - apply negb_true_iff, Z.eqb_neq. intros H0. assert (Z.testbit (Z.land (ip_mode p) (2 ^ 15)) 15 = false) as H by (rewrite H0; apply Z.bits_0). rewrite Z.land_spec, E, Z.pow2_bits_true in H by lia. done.
  - apply negb_false_iff, Z.eqb_eq. apply Z.bits_inj'. intros n Hn. rewrite Z.land_spec, Z.bits_0, Z.pow2_bits_eqb by lia. destruct (Z.eqb_spec 15 n) as [<-|]; [by rewrite E|apply andb_false_r].
Qed.

Lemma allocated_or x p : allocated (set_mode (Z.lor x IPC_ALLOC) p) = true.
Proof. rewrite allocated_bit. change (ip_mode (set_mode (Z.lor x IPC_ALLOC) p)) with (Z.lor x IPC_ALLOC). rewrite Z.lor_spec. by rewrite orb_true_r. Qed.

Lemma allocated_zero p : allocated (set_mode 0 p) = false.
Proof. rewrite allocated_bit. apply Z.bits_0. Qed.

Lemma allocated_init key flg cr p : allocated (ipc_init key flg cr p) = true.
Proof. rewrite allocated_bit. change (ip_mode (ipc_init key flg cr p)) with (Z.lor IPC_ALLOC (Z.land flg 0x1ff)). by rewrite Z.lor_spec. Qed.

(** ** Looking for a key *)

Lemma free_entry_ok ps i a : free_entry ps i = Some a → i ≤ a ∧ ∃ p, ps !! Z.to_nat (a - i) = Some p ∧ allocated p = false.
Proof.
  revert i. induction ps as [|p ps IH]; intros i; simpl; [done|]. destruct (allocated p) eqn:E.
  - intros (Hi & q & Hq & Hf)%IH. split; [lia|]. exists q. split; [|done]. replace (Z.to_nat (a - i)) with (S (Z.to_nat (a - (i + 1)))) by lia. done.
  - intros [= <-]. split; [lia|]. exists p. rewrite Z.sub_diag. done.
Qed.

(** The entry that [find_key] gives: one with the key, or a free one. *)
Definition found_ok (ps : list ipc_perm) (used : bool) (a : Z) : Prop := 0 ≤ a ∧ ∃ p, ps !! Z.to_nat a = Some p ∧ allocated p = used.

Lemma find_key_ok key flg all ps i a r : 0 ≤ i → ps = drop (Z.to_nat i) all → (∀ x, a = Some x → found_ok all false x) → find_key key flg ps i a = r →
  match r with
  | inl (inl e) => e = EEXIST ∨ e = EACCES
  | inl (inr x) => found_ok all true x
  | inr o => ∀ x, o = Some x → found_ok all false x
  end.
Proof.
  revert i a. induction ps as [|p ps IH]; intros i a Hi Ep Ha E; simpl in E; [by subst|]. symmetry in Ep.
  assert (all !! Z.to_nat i = Some p) as Hp by (rewrite <- (Nat.add_0_r (Z.to_nat i)), <- lookup_drop, Ep; done).
  assert (ps = drop (Z.to_nat (i + 1)) all) as Eps by (replace (Z.to_nat (i + 1)) with (Z.to_nat i + 1)%nat by lia; rewrite <- drop_drop, Ep; done).
  destruct (allocated p) eqn:Eal.
  - destruct (ip_key p =? key); [|by eapply IH; [..|exact E]; [lia|..]]. repeat case_if_in E; subst r; [by left|by right|]. split; [lia|]. by exists p.
  - eapply IH; [..|exact E]; [lia|done|]. intros x Hx. destruct a as [b|]; [apply Ha; congruence|]. injection Hx as <-. split; [lia|]. by exists p.
Qed.

Lemma ipcget_ok key flg ps : match ipcget key flg ps with inl e => e ≠ 0 | inr (ix, new) => found_ok ps (negb new) ix end.
Proof.
  unfold ipcget. case_if.
  - destruct (free_entry ps 0) as [a|] eqn:E; [|done]. apply free_entry_ok in E as (Ha & p & Hp & Hf). rewrite Z.sub_0_r in Hp. split; [done|]. by exists p.
  - destruct (find_key key flg ps 0 None) as [[e|x]|o] eqn:E.
    + eapply (find_key_ok key flg ps) in E; [by destruct E as [->| ->]|done|by rewrite drop_0|done].
    + eapply (find_key_ok key flg ps) in E; [done|done|by rewrite drop_0|done].
    + eapply (find_key_ok key flg ps) in E; [|done|by rewrite drop_0|done]. case_if; [done|]. destruct o as [x|]; [by apply E|done].
Qed.

(** ** semget *)

Lemma make_id s ix d : sem_wf s → 0 ≤ ix → sema s !! Z.to_nat ix = Some d → allocated (sem_perm d) = true →
  let id := s32 (Z.shiftl (ip_seq (sem_perm d)) SEMA_SEQ_SHIFT + ix) in 0 ≤ id < W31 ∧ live s id ix d.
Proof.
  intros Hwf Hi Hd Ha id. pose proof (sw_seq _ Hwf _ _ Hd) as Hs. pose proof (lookup_lt_Some _ _ _ Hd) as Hl. pose proof (sw_mni _ Hwf) as Hm. pose proof (io_mni _ (sw_info _ Hwf)).
  assert (id = ip_seq (sem_perm d) * 65536 + ix) as ->. { unfold id, SEMA_SEQ_SHIFT. rewrite Z.shiftl_mul_pow2 by lia. change (2 ^ 16) with 65536. apply s32_small. unfold is_s32, W31. lia. }
  unfold W31. split; [lia|]. split; [rewrite sem_index_mod; rewrite Z.add_comm, Z.mod_add by lia; by rewrite Z.mod_small by lia|]. split; [done|]. split; [done|].
  rewrite sem_sequence_mod, Z.add_comm, Z.div_add, Z.div_small, Z.mod_small by lia. done.
Qed.

(** What [semget] leaves: an error and nothing new, or an identifier of a set that was there or
    is new and zero. *)
Definition semget_post (nsems : Z) (s : semsys) (r : Z + Z) (s' : semsys) : Prop :=
  sem_wf s' ∧ sem_undo s' = sem_undo s ∧ sem s' = sem s ∧ cvs s' = cvs s ∧ (∀ p, adj s' p = adj s p) ∧ lives s s' ∧
  match r with
  | inl e => e ≠ 0 ∧ same_shape (sema s) (sema s')
  | inr id => 0 ≤ id < W31 ∧ ∃ ix d, live s' id ix d ∧
      ((s' = s ∧ (nsems = 0 ∨ u32 nsems ≤ sem_nsems d)) ∨
       (sem_nsems d = nsems ∧ (∀ e, ¬ in_use s (Z.to_nat ix) e) ∧ ∀ i, in_set d i → vals s' !! i = Some 0))
  end.

(** The set that is refused is free again. *)
Lemma mark_undone s ix d w key flg : sem_wf s → sema s !! ix = Some d → allocated (sem_perm d) = false →
  let s1 := set_sema (<[ix := set_perm (set_mode 0 (ipc_init key flg (w_cr w) (sem_perm d))) d]> (sema s)) s in sem_wf s1 ∧ same_shape (sema s) (sema s1).
Proof.
  intros Hwf Hd Ha s1. assert (same_shape (sema s) (sema s1)) as Hsh by (simpl; eapply shape_insert; [done|]; unfold shape; simpl; by rewrite allocated_zero, Ha). split; [|done].
  apply (wf_same_sets s); try done; [apply undo_inv_sema, Hwf|apply Hwf|by left|intros p k a Hk; by eapply sw_adj].
Qed.

Lemma upd_ds_ok ix f s d : 0 ≤ ix → sema s !! Z.to_nat ix = Some d → upd_ds ix f s = Ok (set_sema (<[Z.to_nat ix := f d]> (sema s)) s).
Proof. intros Hi Hd. unfold upd_ds. by rewrite (aget_ok _ _ d). Qed.

Lemma semget_new_ok w key nsems flg s ix d : sem_wf s → 0 ≤ ix → sema s !! Z.to_nat ix = Some d → allocated (sem_perm d) = false →
  ∃ e s', (s ← semget_mark w key flg ix s; semget_init ix nsems s) = Ok (e, s') ∧ semget_post nsems s (if e =? 0 then inr (s32 (Z.shiftl (ip_seq (sem_perm d)) SEMA_SEQ_SHIFT + ix)) else inl e) s' ∧
    (e = 0 → ∃ d', sema s' !! Z.to_nat ix = Some d' ∧ ip_seq (sem_perm d') = ip_seq (sem_perm d)).
Proof.
  intros Hwf Hi Hd Ha. unfold semget_mark. rewrite (upd_ds_ok _ _ _ d) by done. cbn [mbind res_bind]. set (p := ipc_init _ _ _ _). set (d1 := set_perm p d). set (s1 := set_sema _ s).
  assert (sema s1 !! Z.to_nat ix = Some d1) as Hd1 by (simpl; by rewrite list_lookup_insert_eq by (by eapply lookup_lt_Some)). pose proof (lookup_lt_Some _ _ _ Hd) as Hlt.
  destruct (mark_undone s _ d w key flg Hwf Hd Ha) as [Hwf2 Hsh2]. set (s2 := set_sema _ s) in Hwf2, Hsh2.
  assert (upd_ds ix (λ d, set_perm (set_mode 0 (sem_perm d)) d) s1 = Ok s2) as Eback by (rewrite (upd_ds_ok _ _ _ d1) by done; unfold s1, s2, set_sema; simpl; by rewrite list_insert_insert_eq).
  assert (∀ e, e ≠ 0 → semget_post nsems s (inl e) s2) as Hrefuse by (intros e He; split; [done|]; do 4 (split; [done|]); split; [by apply shape_lives|done]).
  assert (∀ e, e ≠ 0 → ∃ e' s', Ok (e, s2) = Ok (e', s') ∧ semget_post nsems s (if e' =? 0 then inr (s32 (Z.shiftl (ip_seq (sem_perm d)) SEMA_SEQ_SHIFT + ix)) else inl e') s' ∧ (e' = 0 → ∃ d', sema s' !! Z.to_nat ix = Some d' ∧ ip_seq (sem_perm d') = ip_seq (sem_perm d))) as Hr.
  { intros e He. exists e, s2. split; [done|]. rewrite (proj2 (Z.eqb_neq _ _)) by done. split; [by apply Hrefuse|done]. }
  unfold semget_init. destruct ((nsems <=? 0) || (semmsl (s_info s1) <? nsems)) eqn:Eb; [rewrite Eback; cbn [mbind res_bind]; by apply Hr|]. apply orb_false_iff in Eb as [Eb1 Eb2]. prop_bool.
  pose proof (io_msl _ (sw_info _ Hwf)) as Hmsl. simpl in Eb2. unfold rmalloc. destruct (rmalloc_locked_ok (semmap s) nsems) as (a & mp & Er & Hm & Hw & Hsz & Hcase); [apply Hwf|unfold W31; lia|].
  change (semmap s1) with (semmap s). rewrite Er. cbn [mbind res_bind]. destruct Hcase as [(Hapos & Htk & _)|(-> & _)]; [|cbn [Z.eqb]; rewrite Eback; cbn [mbind res_bind]; by apply Hr].
  rewrite (proj2 (Z.eqb_neq a 0)) by lia. rewrite (upd_ds_ok _ _ _ d1) by done. cbn [mbind res_bind]. eexists 0, _. split; [done|]. rewrite Z.eqb_refl. cbn [sem_perm].
  set (d2 := MkDsem _ _ _ _ _ _). set (s3 := set_sema _ _). assert (u16 nsems = nsems) as En by (apply u16_small; lia). assert (∀ i, in_set d2 i → a ≤ Z.of_nat i + 1 < a + nsems) as Hr2 by (intros i; unfold in_set, d2; simpl; rewrite En; lia).
  assert (sema s3 = <[Z.to_nat ix := d2]> (sema s)) as Es3 by (simpl; by rewrite list_insert_insert_eq). assert (sema s3 !! Z.to_nat ix = Some d2) as Hd3 by (rewrite Es3; by rewrite list_lookup_insert_eq).
  assert (sem_wf s3) as Hwf3.
  { eapply (wf_add s s3 (Z.to_nat ix) d d2 a); try done; [destruct Hwf as [(act & fr & []) _]; exists act, fr; by constructor|simpl; lia|by rewrite <- En in Htk]. }
  split; [|intros _; by exists d2]. destruct (make_id s3 ix d2 Hwf3 Hi Hd3 ltac:(apply allocated_init)) as [Hid Hlive]. split; [done|]. do 4 (split; [done|]). split.
  { intros id jx e Hle. exists e. split; [|done]. eapply live_insert_ne; [exact Es3| |done]. intros E. destruct Hle as (_ & L2 & L3 & _). rewrite E in L2. congruence. }
  split; [exact Hid|]. exists ix, d2. split; [exact Hlive|]. right. simpl. split; [done|].
  split; [intros e [? ?]; congruence|]. intros i Hin. change (vals s3) with (vals s). destruct (sw_free _ Hwf (Z.of_nat i + 1)) as [_ Hle]; [apply (proj1 Htk); by apply Hr2|].
  destruct (lookup_lt_is_Some_2 (vals s) i) as [x Hx]; [rewrite vals_length; pose proof (sw_mns _ Hwf); lia|]. rewrite Hx. f_equal. apply (sw_zero _ Hwf i x Hx). intros jx e He Hie. eapply (sw_used _ Hwf); [exact He|exact Hie|]. apply (proj1 Htk). by apply Hr2.
Qed.

Lemma semget_ok w key nsems flg s : sem_wf s → ∃ r s', semget w key nsems flg s = Ok (r, s') ∧ semget_post nsems s r s'.
Proof.
  intros Hwf. unfold semget. pose proof (ipcget_ok key flg (sem_perm <$> sema s)) as Hk. destruct (ipcget _ _ _) as [e|[ix new]].
  - exists (inl e), s. split; [done|]. split; [done|]. do 4 (split; [done|]). split; [by apply shape_lives|done].
  - destruct Hk as (Hi & p & Hp & Hal). rewrite list_lookup_fmap in Hp. destruct (sema s !! Z.to_nat ix) as [d|] eqn:Hd; [|done]. injection Hp as <-. destruct new.
    + destruct (semget_new_ok w key nsems flg s ix d Hwf Hi Hd Hal) as (e & s' & -> & Hpost & Hd'). cbn [mbind res_bind]. destruct (Z.eqb_spec e 0) as [->|He]; cbn [negb].
      * destruct (Hd' eq_refl) as (d' & Hx & Eseq). rewrite (aget_ok _ _ d') by done. cbn [mbind res_bind]. rewrite Eseq. by eexists _, _.
      * by eexists _, _.
    + rewrite (aget_ok _ _ d) by done. cbn [mbind res_bind]. destruct (negb (nsems =? 0) && (sem_nsems d <? u32 nsems)) eqn:Eb.
      * change (negb (EINVAL =? 0)) with true. cbv iota. eexists _, _. split; [done|]. split; [done|]. do 4 (split; [done|]). split; [by apply shape_lives|done].
      * cbn [negb Z.eqb]. rewrite (aget_ok _ _ d) by done. cbn [mbind res_bind]. destruct (make_id s ix d Hwf Hi Hd Hal) as [Hid Hl]. eexists _, _. split; [done|]. split; [done|]. do 4 (split; [done|]). split; [by apply shape_lives|]. split; [done|].
        exists ix, d. split; [done|]. left. split; [done|]. apply andb_false_iff in Eb as [?|?]; prop_bool; [by left|by right].
Qed.

(** ** semctl *)

Lemma next_seq_range semid p : 0 ≤ ip_seq p < 32768 → 0 ≤ ip_seq (next_seq semid p) < 32768 ∨ sem_sequence semid ≠ ip_seq p.
Proof.
  intros Hp. unfold next_seq, SEMA_SEQ_MAX. destruct (Z.eqb_spec (sem_sequence semid) 32767) as [E|E]; simpl; [left; lia|]. destruct (Z.eq_dec (sem_sequence semid) (ip_seq p)) as [Es|]; [|by right]. left. unfold u32, W32. rewrite Z.mod_small by lia. lia.
Qed.

Lemma vals_nonneg i v : vals_ok i v → Forall (λ x, 0 ≤ x) v.
Proof. intros H. eapply list.Forall_impl; [exact H|]. simpl. lia. Qed.

Lemma undo_inv_map s x : undo_inv s → undo_inv (set_semmap x s).
Proof. intros (act & fr & []). exists act, fr. by constructor. Qed.

(** A removal: the identifier leads nowhere afterwards, no process has an adjustment for the
    set, and everyone who slept on its semaphores has been woken. *)
Lemma rmid_ok semid ix d s : sem_wf s → 0 ≤ semid < W31 → live s semid ix d → ∃ s', semctl_rmid semid ix s = Ok s' ∧ length (sem_undo s') = length (sem_undo s) ∧ sem_wf s' ∧ (∀ jx e, ¬ live s' semid jx e) ∧
  (∀ p, adj s' p = filter (λ kv, kv.1.1 ≠ semid) (adj s p)) ∧ wakes (clear_at (sem_base d) (Z.to_nat (sem_nsems d))) s s' ∧ (∀ i, in_set d i → vals s' !! i = Some 0) ∧ (∀ i, ¬ in_set d i → vals s' !! i = vals s !! i) ∧
  ∀ id jx e, 0 ≤ id < W31 → id ≠ semid → live s id jx e → live s' id jx e.
Proof.
  intros Hwf Hid Hl. pose proof Hl as (Eix & Hd & Hal & Hseq). pose proof (live_index _ _ _ _ Hl) as Hi. assert (in_use s (Z.to_nat ix) d) as Hiu by done. pose proof (sw_set _ Hwf _ _ Hiu) as (Hb & Hn & Hbn).
  unfold semctl_rmid. rewrite (aget_ok _ _ d) by done. cbn [mbind res_bind]. destruct (semunrm_ok semid 0 (sem_nsems d) s (sw_undo _ Hwf) (sw_info _ Hwf)) as (s1 & -> & Hu1 & (I1 & A1 & S1 & M1 & T1 & C1 & L1) & _ & Ha1). cbn [mbind res_bind].
  pose proof (sw_mns _ Hwf) as Hmns. destruct (clear_sems_ok (Z.to_nat (sem_nsems d)) (sem_base d) s1) as (s2 & -> & Ho & Hw & Hz & Hnz); [done|rewrite S1; lia|unfold vals; rewrite S1; eapply vals_nonneg, Hwf|]. cbn [mbind res_bind].
  pose proof (only_sems_inv _ _ Ho Hu1) as Hu2. pose proof Hw as [Ls2 _]. destruct Ho as (l2 & c2 & Es2).
  assert (∀ i, run (sem_base d) (Z.to_nat (sem_nsems d)) i ↔ in_set d i) as Hrun by (intros i; unfold run, in_set; lia).
  assert (semmap s2 = semmap s) as M2 by (rewrite Es2; done). pose proof (io_mns _ (sw_info _ Hwf)) as Hm31. unfold W31 in Hm31.
  destruct (rmfree_ok (semmap s) (sem_nsems d) (sem_base d + 1)) as (r & Er & Hr1 & Hr2 & _ & _ & Hr3); [apply Hwf|apply Hwf|lia|unfold W31; lia|unfold W32; lia| |].
  { intros x Hx Hf. apply (sw_used _ Hwf _ _ (Z.to_nat (x - 1)) Hiu); [unfold in_set; lia|]. by replace (Z.of_nat (Z.to_nat (x - 1)) + 1) with x by lia. }
  rewrite M2, Er. cbn [mbind res_bind]. assert (sema s2 = sema s) as A2 by (rewrite Es2; done). rewrite (upd_ds_ok _ _ _ d) by (done || (simpl; by rewrite A2)). eexists. split; [done|]. set (d' := set_perm _ d). set (s' := set_sema _ _).
  split; [simpl; rewrite Es2; exact L1|]. assert (∀ p, adj s' p = filter (λ kv, kv.1.1 ≠ semid) (adj s p)) as Hadj.
  { intros p. transitivity (adj s1 p); [unfold s'; rewrite Es2; reflexivity|]. rewrite Ha1. apply map_filter_ext. intros k a Hk. destruct (sw_adj _ Hwf p k a Hk) as (K1 & K2 & jx & e & Hle & K3). unfold hit. simpl. split; [|tauto]. intros Hnh Ek. apply Hnh. split; [done|]. rewrite Ek in Hle. destruct (live_fun _ _ _ _ _ _ Hl Hle) as [_ <-]. lia. }
  assert (∀ i, vals s' !! i = vals s2 !! i) as Hv2 by done. assert (∀ i, in_set d i → vals s' !! i = Some 0) as Hvz by (intros i Hin; rewrite Hv2; unfold vals; rewrite list_lookup_fmap, Hz by (by apply Hrun); done).
  assert (∀ i, ¬ in_set d i → vals s' !! i = vals s !! i) as Hvn by (intros i Hin; rewrite Hv2; unfold vals; rewrite !list_lookup_fmap, Hnz by (by rewrite Hrun); by rewrite S1).
  assert (allocated (sem_perm d') = false) as Hna by apply allocated_zero.
  assert (sema s' = <[Z.to_nat ix := d']> (sema s)) as Es' by (simpl; by rewrite A2).
  split; [eapply (wf_remove s s' semid ix d d'); try done|].
  - apply undo_inv_sema, undo_inv_map, Hu2.
  - simpl. rewrite Es2. done.
  - destruct (next_seq_range semid (sem_perm d) (sw_seq _ Hwf _ _ Hd)); [done|congruence].
  - intros x Hx. destruct Hr3 as [(_ & Hg)|(_ & _ & _ & ls & le & mid & _ & _ & [_ Htk] & Hg)]; apply Hg in Hx as [Hx|?]; [by left|by right|apply Htk in Hx as [? _]; by left|by right].
  - simpl. by rewrite Ls2, S1.
  - apply Forall_lookup_2. intros i x Hx. destruct (decide (in_set d i)) as [Hin|Hin]; [rewrite Hvz in Hx by done; injection Hx as <-; pose proof (io_vmx _ (sw_info _ Hwf)); lia|]. rewrite Hvn in Hx by done. by eapply vals_at; [apply Hwf|].
  - intros i x Hx. destruct (decide (in_set d i)) as [Hin|Hin]; [left|right]; (split; [done|]); [rewrite Hvz in Hx by done; congruence|by rewrite <- Hvn].
  - intros p k a Hk. rewrite Hadj in Hk. by apply map_lookup_filter_Some in Hk.
  - split; [|split; [done|split; [|split; [done|split; [done|]]]]].
    + intros jx e (Ejx & Hje & Haj & _). rewrite <- Eix in Ejx. subst jx. rewrite Es', list_lookup_insert_eq in Hje by (by eapply lookup_lt_Some). injection Hje as <-. congruence.
    + destruct Hw as [Lw (new & Ec & Hw)]. split; [simpl; by rewrite Lw, S1|]. exists new. split; [simpl; by rewrite Ec, C1|]. intros i m m' Hm Hm'. apply Hw; [by rewrite S1|done].
    + intros id jx e Hidr Hne Hle. eapply live_insert_ne; [exact Es'| |done]. intros E. apply Hne. pose proof (live_index _ _ _ _ Hle). assert (jx = ix) as -> by lia. destruct Hle as (K1 & K2 & K3). assert (e = d) as -> by congruence.
      eapply live_inj; [exact Hidr|exact Hid|split; [exact K1|split; [exact K2|exact K3]]|exact Hl].
Qed.

(** A call that keeps the invariant and wakes the sleepers. *)
Definition good_step (s s' : semsys) : Prop := sem_wf s' ∧ length (sem_undo s') = length (sem_undo s) ∧ wakes (full_at nosig) s s' ∧ same_shape (sema s) (sema s').

Lemma good_refl s : sem_wf s → good_step s s.
Proof. intros Hwf. split; [done|]. split; [done|]. split; [|done]. apply wakes_same; [done|done|apply full_at_refl]. Qed.

Lemma good_undo s s' : sem_wf s → undo_inv s' → undo_only s s' → (∀ p k a, adj s' p !! k = Some a → key_ok s k) → good_step s s'.
Proof. intros Hwf Hu Ho Ha. split; [by eapply wf_undo|]. split; [apply Ho|]. split; [apply undo_only_wakes; [done|apply full_at_refl]|]. destruct Ho as (_ & E & _). by rewrite E. Qed.

Lemma good_trans s1 s2 s3 : good_step s1 s2 → good_step s2 s3 → good_step s1 s3.
Proof. intros (_ & L1 & W1 & E1) (H & L2 & W2 & E2). split; [done|]. split; [congruence|]. split; [eapply wakes_trans; [intros *; apply full_at_trans|done|done]|]. unfold same_shape in *. congruence. Qed.

Lemma good_vals (P : nat → Prop) `{∀ i, Decision (P i)} s s' : sem_wf s → val_step P s s' → vals_ok (s_info s) (vals s') → (∀ i, P i → ∃ ix d, in_use s ix d ∧ in_set d i) → good_step s s'.
Proof. intros Hwf Hv Hok HP. split; [by eapply wf_val_step|]. destruct Hv as ((l & c & ->) & W & _). done. Qed.

Lemma good_sets s i d d' : sem_wf s → sema s !! i = Some d → shape d' = shape d → good_step s (set_sema (<[i := d']> (sema s)) s).
Proof.
  intros Hwf Hd Hs. split; [|split; [done|split; [apply wakes_same; [done|done|apply full_at_refl]|simpl; by eapply shape_insert]]].
  apply (wf_same_sets s); try done; [apply undo_inv_sema, Hwf|simpl; by eapply shape_insert|apply Hwf|by left|intros p k a Hk; by eapply sw_adj].
Qed.

Lemma rm_good id low high s : sem_wf s → ∃ s', semunrm id low high s = Ok s' ∧ good_step s s' ∧ sem s' = sem s ∧ sema s' = sema s ∧ s_info s' = s_info s ∧ (∀ p, adj s' p = filter (λ kv, ¬ hit id low high kv.1) (adj s p)).
Proof.
  intros Hwf. destruct (semunrm_ok id low high s (sw_undo _ Hwf) (sw_info _ Hwf)) as (s' & E & Hu & Ho & _ & Ha). exists s'. split; [done|]. split.
  - apply good_undo; [done|done|done|]. intros p k a Hk. rewrite Ha in Hk. apply map_lookup_filter_Some in Hk as [Hk _]. by eapply sw_adj.
  - destruct Ho as (? & ? & ? & _). done.
Qed.

Section ctl.
Context (s : semsys) (semid ix : Z) (d : semid_ds).
Hypotheses (Hwf : sem_wf s) (Hl : live s semid ix d).

Lemma ctl_in_use : in_use s (Z.to_nat ix) d.
Proof using Hl. destruct Hl as (_ & ? & ? & _). done. Qed.

Lemma ctl_sem n : 0 ≤ n < sem_nsems d → 0 ≤ sem_base d + n ∧ in_set d (Z.to_nat (sem_base d + n)) ∧ ∃ m, sem s !! Z.to_nat (sem_base d + n) = Some m ∧ 0 ≤ semval m.
Proof using Hl Hwf.
  intros Hn. destruct (sw_set _ Hwf _ _ ctl_in_use) as (H1 & H2 & H3). split; [lia|]. split; [unfold in_set; lia|]. destruct (lookup_lt_is_Some_2 (sem s) (Z.to_nat (sem_base d + n))) as [m Hm]; [pose proof (sw_mns _ Hwf); lia|].
  exists m. split; [done|]. by eapply (vals_at _ _ _ _ (sw_vals _ Hwf)), vals_lookup.
Qed.

(** [SETVAL]: the value is set and no process has an adjustment for the semaphore. *)
Lemma setval_ok pid n v : 0 ≤ n < sem_nsems d → 0 ≤ v ≤ semvmx (s_info s) → ∃ s', (s ← store_val (sem_base d + n) v s; s ← upd_sem (sem_base d + n) (set_sempid pid) s; s ← semunrm semid n n s; Ok (CRet 0, s)) = Ok (CRet 0, s') ∧
  good_step s s' ∧ vals s' = <[Z.to_nat (sem_base d + n) := v]> (vals s) ∧ ∀ p, adj s' p = delete (semid, n) (adj s p).
Proof using Hl Hwf.
  intros Hn Hv. destruct (ctl_sem n Hn) as (Hk & Hin & m & Hm & Hm0). destruct (store_val_ok _ v s m Hk Hm Hm0) as (s1 & -> & S1 & V1). cbn [mbind res_bind].
  destruct (lookup_lt_is_Some_2 (sem s1) (Z.to_nat (sem_base d + n))) as [m1 Hm1]; [rewrite (proj1 (proj1 (proj2 S1))); by eapply lookup_lt_Some|]. destruct (set_pid_ok _ pid s1 m1 Hk Hm1) as (s2 & -> & S2 & V2). cbn [mbind res_bind].
  assert (good_step s s2) as G2.
  { apply (good_vals (λ i, i = Z.to_nat (sem_base d + n) ∨ False)); [done|by eapply val_step_trans|rewrite V2, V1; by apply Forall_insert; [apply Hwf|]|]. intros i [->|[]]. exists (Z.to_nat ix), d. split; [apply ctl_in_use|done]. }
  destruct (rm_good semid n n s2 (proj1 G2)) as (s3 & -> & G3 & E3 & _ & _ & A3). cbn [mbind res_bind]. exists s3. split; [done|]. split; [by eapply good_trans|]. split; [unfold vals; rewrite E3; fold (vals s2); by rewrite V2|].
  intros p. rewrite A3. assert (adj s2 p = adj s p) as -> by (destruct S1 as ((l & c & ->) & _), S2 as ((l2 & c2 & ->) & _); done).
  apply map_eq. intros k. apply option_eq. intros a. rewrite map_lookup_filter_Some, lookup_delete_Some. unfold hit. destruct k as [k1 k2]. simpl. split; intros [H1 H2].
  - split; [intros [= -> ->]; apply H2; lia|done].
  - split; [done|]. intros [-> ?]. apply H1. f_equal. lia.
Qed.

(** [SETALL]: so for the whole set. *)
Lemma setall_ok pid l : Z.of_nat (length l) = sem_nsems d → Forall (λ v, 0 ≤ v ≤ semvmx (s_info s)) l → ∃ s', (s ← semunrm semid 0 (sem_nsems d) s; s ← store_all pid (sem_base d) l s; Ok (CRet 0, s)) = Ok (CRet 0, s') ∧
  good_step s s' ∧ (∀ i v, l !! i = Some v → vals s' !! (Z.to_nat (sem_base d) + i)%nat = Some v) ∧ (∀ i, ¬ in_set d i → vals s' !! i = vals s !! i).
Proof using Hl Hwf.
  intros Hlen Hv. destruct (sw_set _ Hwf _ _ ctl_in_use) as (H1 & H2 & H3). destruct (rm_good semid 0 (sem_nsems d) s Hwf) as (s1 & -> & G1 & E1 & A1 & I1 & _). cbn [mbind res_bind].
  pose proof (sw_mns _ Hwf) as Hmns. destruct (store_all_ok pid (sem_base d) l s1) as (s2 & -> & S2 & V2); [done|rewrite E1; lia|apply (vals_nonneg (s_info s1)), G1|eapply list.Forall_impl; [exact Hv|]; simpl; lia|]. cbn [mbind res_bind].
  exists s2. split; [done|]. assert (∀ i, run (sem_base d) (length l) i ↔ in_set d i) as Hrun by (intros i; unfold run, in_set; lia).
  assert (vals s1 = vals s) as Ev by (unfold vals; by rewrite E1). destruct S2 as (Ho & W2 & F2). split; [|split; [done|]].
  - eapply good_trans; [exact G1|]. apply (good_vals (run (sem_base d) (length l))); [apply G1|done| |].
    + apply Forall_lookup_2. intros i x Hx. destruct (decide (run (sem_base d) (length l) i)) as [Hr|Hr].
      * destruct (lookup_lt_is_Some_2 l (i - Z.to_nat (sem_base d))) as [v Hlv]; [unfold run in Hr; lia|]. pose proof (V2 _ _ Hlv) as Hv2. replace (Z.to_nat (sem_base d) + (i - Z.to_nat (sem_base d)))%nat with i in Hv2 by (unfold run in Hr; lia).
        rewrite Hv2 in Hx. injection Hx as <-. rewrite I1. exact (Forall_lookup_1 _ _ _ _ Hv Hlv).
      * rewrite F2, Ev in Hx by done. rewrite I1. by eapply vals_at; [apply Hwf|].
    + intros i Hi. exists (Z.to_nat ix), d. split; [split; [rewrite A1|]; apply ctl_in_use|by apply Hrun].
  - intros i Hi. rewrite F2 by (by rewrite Hrun). by rewrite Ev.
Qed.
End ctl.

(** What the caller of [SETALL] passes: a value for each semaphore of the set. *)
Definition ctl_ok (s : semsys) (semid : Z) (cmd : ctl) : Prop :=
  match cmd with
  | SETALL (Some l) => ∀ ix d, live s semid ix d → Z.of_nat (length l) = sem_nsems d ∧ Forall (λ v, 0 ≤ v < 65536) l
  | _ => True
  end.

Lemma full_clear k n s s' : wakes (clear_at k n) s s' → wakes (full_at nosig) s s'.
Proof. intros [L (new & E & H)]. split; [done|]. exists new. split; [done|]. intros i m m' Hm Hm'. by apply (H i m m'). Qed.

Lemma existsb_le m l : existsb (λ v, m <? v) l = false → Forall (λ v, 0 ≤ v < 65536) l → Forall (λ v, 0 ≤ v ≤ m) l.
Proof. induction l as [|v l IH]; [constructor|]. simpl. intros [H1 H2]%orb_false_iff [H3 H4]%list.Forall_cons. prop_bool. constructor; [lia|auto]. Qed.

Lemma u16_u32 z : u16 z = u16 (u32 z).
Proof. unfold u16, u32, W32. rewrite Z.mod_mod_divide; [done|]. by exists 65536. Qed.

(** A set has been removed. *)
Definition removed (semid : Z) (d : semid_ds) (s s' : semsys) : Prop :=
  sem_wf s' ∧ length (sem_undo s') = length (sem_undo s) ∧ (∃ ix, live s semid ix d) ∧ wakes (clear_at (sem_base d) (Z.to_nat (sem_nsems d))) s s' ∧
  ∀ id jx e, 0 ≤ id < W31 → id ≠ semid → live s id jx e → live s' id jx e.

Lemma semctl_ok w semid semnum cmd s : sem_wf s → 0 ≤ semid < W31 → 0 ≤ semnum → ctl_ok s semid cmd → ∃ r s', semctl w semid semnum cmd s = Ok (r, s') ∧ (good_step s s' ∨ cmd = IPC_RMID ∧ ∃ d, removed semid d s s').
Proof.
  intros Hwf Hid Hnum Hcmd. unfold semctl. destruct (semconv_lock_ok s semid (sw_mni _ Hwf)) as [(ix & d & -> & Hi & Hl)|[-> Hno]]; cbn [mbind res_bind]; [|eexists _, _; split; [done|left; by apply good_refl]].
  pose proof Hl as (_ & Hd & Hal & _). rewrite (aget_ok _ _ d) by done. cbn [mbind res_bind].
  assert (∀ r : ctl_res, ∃ r' s', Ok (r, s) = Ok (r', s') ∧ (good_step s s' ∨ cmd = IPC_RMID ∧ ∃ d, removed semid d s s')) as Hsame by (intros r; eexists _, _; split; [done|left; by apply good_refl]).
  assert (∀ f access, ∃ r s', (if negb (access =? 0) then Ok (CErr access, s) else if sem_nsems d <=? semnum then Ok (CErr EINVAL, s) else m ← aget (sem s) (sem_base d + semnum); Ok (CRet (f m), s)) = Ok (r, s') ∧ (good_step s s' ∨ cmd = IPC_RMID ∧ ∃ d, removed semid d s s')) as Hfield.
  { intros f access. case_if; [apply Hsame|]. case_if; [apply Hsame|]. destruct (ctl_sem s semid ix d Hwf Hl semnum ltac:(lia)) as (Hk & _ & m & Hm & _). rewrite (aget_ok _ _ m) by done. cbn [mbind res_bind]. apply Hsame. }
  destruct cmd as [|old id|old out| | | |out| |arg|vs|]; try apply Hfield; [..|apply Hsame].
  - case_if; [apply Hsame|]. destruct (rmid_ok semid ix d s Hwf Hid Hl) as (s' & -> & L & W & _ & _ & Hw & _ & _ & Hle). cbn [mbind res_bind]. eexists _, _. split; [done|]. right. split; [done|]. exists d. do 2 (split; [done|]). split; [by exists ix|done].
  - case_if; [apply Hsame|]. destruct id as [[[uid gid] mode]|]; [|apply Hsame]. case_if; [apply Hsame|]. rewrite (upd_ds_ok _ _ _ d) by done. cbn [mbind res_bind]. eexists _, _. split; [done|]. left.
    eapply good_sets; [done|done|]. unfold shape. cbn [set_ctime set_perm sem_base sem_nsems sem_perm ip_seq]. f_equal. f_equal. rewrite Hal. apply (allocated_or (Z.land mode 511) (MkPerm uid gid (ip_cuid (sem_perm d)) (ip_cgid (sem_perm d)) 0 (ip_seq (sem_perm d)) (ip_key (sem_perm d)))).
  - case_if; [apply Hsame|]. case_if; [apply Hsame|]. destruct out; apply Hsame.
  - case_if; [apply Hsame|]. case_if; [|apply Hsame]. destruct (sw_set _ Hwf _ _ (ctl_in_use s semid ix d Hl)) as (B1 & B2 & B3). rewrite get_vals_ok by (done || (pose proof (sw_mns _ Hwf); lia)). cbn [mbind res_bind]. apply Hsame.
  - case_if; [apply Hsame|]. case_if; [apply Hsame|]. case_if; [apply Hsame|]. assert (0 ≤ u32 arg) as Hp by (apply Z.mod_pos_bound; unfold W32; lia). pose proof (io_vmx _ (sw_info _ Hwf)).
    destruct (setval_ok s semid ix d Hwf Hl (w_pid w) semnum (u16 arg)) as (s' & E & G & _); [lia|rewrite u16_u32, u16_small; lia|]. exists (CRet 0), s'. split; [|by left]. exact E.
  - case_if; [apply Hsame|]. destruct vs as [vs|]; [|apply Hsame]. destruct (existsb _ vs) eqn:Ex; [apply Hsame|]. destruct (Hcmd ix d Hl) as [Hlen Hv].
    destruct (setall_ok s semid ix d Hwf Hl (w_pid w) vs Hlen (existsb_le _ _ Ex Hv)) as (s' & E & G & _). exists (CRet 0), s'. split; [|by left]. exact E.
Qed.

(** ** semexit *)

(** The semaphore of an adjustment. *)
Definition site (s : semsys) (k : Z * Z) : nat :=
  match sema s !! Z.to_nat (sem_index k.1) with Some d => Z.to_nat (sem_base d + k.2) | None => 0%nat end.

Lemma key_site s k : sem_wf s → key_ok s k → ∃ ix d, live s k.1 ix d ∧ 0 ≤ k.2 < sem_nsems d ∧ site s k = Z.to_nat (sem_base d + k.2) ∧ in_use s (Z.to_nat ix) d ∧ in_set d (site s k).
Proof.
  intros Hwf (H1 & H2 & ix & d & Hl & H3). exists ix, d. pose proof Hl as (-> & Hd & Ha & _). assert (in_use s (Z.to_nat (sem_index k.1)) d) as Hu by done. destruct (sw_set _ Hwf _ _ Hu) as (B & _).
  split; [done|]. split; [lia|]. unfold site. rewrite Hd. split; [done|]. split; [done|]. unfold in_set. lia.
Qed.

Lemma site_inj s k k' : sem_wf s → key_ok s k → key_ok s k' → site s k = site s k' → k = k'.
Proof.
  intros Hwf Hk Hk' E. destruct (key_site s k Hwf Hk) as (ix & d & Hl & Hn & Es & Hu & Hin). destruct (key_site s k' Hwf Hk') as (ix' & d' & Hl' & Hn' & Es' & Hu' & Hin').
  assert (Z.to_nat ix = Z.to_nat ix') as Ei by (eapply (sw_disj _ Hwf); [exact Hu|exact Hu'|exact Hin|by rewrite E]). pose proof (live_index _ _ _ _ Hl). pose proof (live_index _ _ _ _ Hl'). assert (ix' = ix) as -> by lia.
  assert (d' = d) as -> by (destruct Hu, Hu'; congruence). destruct (sw_set _ Hwf _ _ Hu) as (B & _). assert (k.1 = k'.1) by (eapply live_inj; [apply Hk|apply Hk'|exact Hl|exact Hl']). destruct k, k'. simpl in *. f_equal; [done|lia].
Qed.

(** What becomes of a value [x]. *)
Definition given (i : seminfo) (a x : Z) : Z := if (x + a <? 0) || (semvmx i <? x + a) then x else x + a.

Lemma semexit_entry_ok up i x e s : sem_wf s → semu s !! up = Some x → un_ent x !! i = Some e → key_ok s (ent_key e) → - 32768 ≤ un_aoe e < 32768 →
  ∃ s', semexit_entry up i s = Ok s' ∧ only_sems s s' ∧ good_step s s' ∧ ∃ v, vals s !! site s (ent_key e) = Some v ∧ vals s' = <[site s (ent_key e) := given (s_info s) (un_aoe e) v]> (vals s).
Proof.
  intros Hwf Hx He Hk Ha. destruct (key_site s _ Hwf Hk) as (ix & d & Hl & Hn & Es & Hu & Hin). simpl in Hl, Hn, Es. pose proof (live_index _ _ _ _ Hl) as Hi. pose proof Hl as (_ & Hd & _).
  unfold semexit_entry. rewrite (nget_ok _ _ _ Hx). cbn [mbind res_bind]. rewrite (nget_ok _ _ _ He). cbn [mbind res_bind].
  destruct (semconv_lock_ok s (un_id e) (sw_mni _ Hwf)) as [(jx & d' & -> & Hj & Hl')|[_ Hno]]; [|by destruct (Hno _ _ Hl)]. destruct (live_fun _ _ _ _ _ _ Hl Hl') as [<- <-]. cbn [mbind res_bind]. rewrite (aget_ok _ _ d) by done. cbn [mbind res_bind].
  destruct (ctl_sem s (un_id e) ix d Hwf Hl (un_num e) Hn) as (Hkp & Hks & m & Hm & Hm0). rewrite (aget_ok _ _ m) by done. cbn [mbind res_bind]. rewrite Es. pose proof (vals_lookup _ _ _ Hm) as Hvm. unfold given.
  pose proof (vals_at _ _ _ _ (sw_vals _ Hwf) Hvm) as Hb. pose proof (io_vmx _ (sw_info _ Hwf)) as Hvmx.
  destruct ((semval m + un_aoe e <? 0) || (semvmx (s_info s) <? semval m + un_aoe e)) eqn:Eb.
  - exists s. split; [done|]. split; [apply only_sems_refl|]. split; [by apply good_refl|]. exists (semval m). split; [done|]. rewrite Eb. symmetry. by apply list_insert_id.
  - apply orb_false_iff in Eb as [Eb1 Eb2]. prop_bool. set (k := sem_base d + un_num e) in *. set (v := semval m + un_aoe e) in *. rewrite (upd_sem_ok _ _ _ m) by done. cbn [mbind res_bind]. rewrite u16_small by lia. set (m1 := set_semval v m).
    assert (∀ x (l : list sem_t), l !! Z.to_nat k = Some x → ∀ y, <[Z.to_nat k := y]> l !! Z.to_nat k = Some y) as Hlk by (intros y l Hll z; by rewrite list_lookup_insert_eq by (by eapply lookup_lt_Some)).
    assert (∀ m2 new, semval m2 = v → full_at nosig new (Z.to_nat k) m m2 → ∃ s', Ok (set_cvs (cvs s ++ new) (set_sem (<[Z.to_nat k := m2]> (sem s)) s)) = Ok s' ∧ only_sems s s' ∧ good_step s s' ∧ ∃ v0, vals s !! Z.to_nat k = Some v0 ∧ vals s' = <[Z.to_nat k := if (v0 + un_aoe e <? 0) || (semvmx (s_info s) <? v0 + un_aoe e) then v0 else v0 + un_aoe e]> (vals s)) as Hsite.
    { intros m2 new Ev Hf. eexists. split; [done|]. set (s' := set_cvs _ _). assert (only_sems s s') as Ho by (by eexists _, _). split; [done|]. destruct (val_site s s' (Z.to_nat k) m m2 new Ho Hm eq_refl eq_refl Hf) as [Hvs Hvv].
      split; [|exists (semval m); split; [done|]; rewrite Hvv, Ev; fold v; by rewrite (proj2 (Z.ltb_ge v 0)), (proj2 (Z.ltb_ge (semvmx (s_info s)) v)) by lia]. apply (good_vals (λ i, i = Z.to_nat k)); [done|done|rewrite Hvv, Ev; apply Forall_insert; [apply Hwf|lia]|]. intros j ->. by exists (Z.to_nat ix), d. }
    unfold full_at, cnt_at, val_at in Hsite. rewrite Z2Nat.id in Hsite by done.
    destruct (Z.eqb_spec v 0) as [Ev|Ev]; cbn [andb].
    + assert ((0 <? un_aoe e) = false) as -> by (apply Z.ltb_ge; lia). cbn [andb]. destruct (Z.eqb_spec (semzcnt m) 0) as [Ez|Ez]; cbn [negb].
      * cbn [mbind res_bind]. replace (set_sem (<[Z.to_nat k := m1]> (sem s)) s) with (set_cvs (cvs s ++ []) (set_sem (<[Z.to_nat k := m1]> (sem s)) s)) by (by rewrite app_nil_r). apply Hsite; [done|]. simpl. split; [split; by left|]. split; [by left|lia].
      * rewrite (upd_sem_ok _ _ _ m1) by (done || (simpl; by eapply Hlk)). cbn [mbind res_bind]. simpl sem. rewrite list_insert_insert_eq. apply (Hsite (set_semzcnt 0 m1) [CvBroadcast k true]); [done|]. simpl. split; [split; [right; split; [done|left]|by left]|]. split; [right; left|lia].
    + cbn [mbind res_bind]. destruct ((0 <? un_aoe e) && negb (semncnt m =? 0)) eqn:En.
      * apply andb_true_iff in En as [En1 En2]. prop_bool. rewrite (upd_sem_ok _ _ _ m1) by (done || (simpl; by eapply Hlk)). cbn [mbind res_bind]. simpl sem. rewrite list_insert_insert_eq. apply (Hsite (set_semncnt 0 m1) [CvBroadcast k false]); [done|]. simpl. split; [split; [by left|right; split; [done|left]]|]. split; [done|right; left].
      * replace (set_sem (<[Z.to_nat k := m1]> (sem s)) s) with (set_cvs (cvs s ++ []) (set_sem (<[Z.to_nat k := m1]> (sem s)) s)) by (by rewrite app_nil_r). apply Hsite; [done|]. simpl. split; [split; by left|]. split; [done|]. intros _ Hlt. left. apply andb_false_iff in En as [En|En]; prop_bool; [lia|done].
Qed.

Lemma sorted_key_inj l j j' e e' : sorted l → l !! j = Some e → l !! j' = Some e' → ent_key e = ent_key e' → j = j'.
Proof.
  intros Hs. revert j j'. induction Hs as [|a l Hf Hs IH]; intros j j'; [done|]. rewrite list.Forall_forall in Hf. destruct j as [|j], j' as [|j']; simpl.
  - done.
  - intros [= ->] Hj E. exfalso. apply (key_lt_irrefl (ent_key e)). rewrite E at 2. apply Hf. by eapply list_elem_of_lookup_2.
  - intros Hj [= ->] E. exfalso. apply (key_lt_irrefl (ent_key e')). rewrite <- E at 2. apply Hf. by eapply list_elem_of_lookup_2.
  - intros Hj Hj' E. f_equal. by eapply IH.
Qed.

Lemma only_sems_key s s' k : only_sems s s' → key_ok s k → key_ok s' k.
Proof. intros (l & c & ->) H. exact H. Qed.

Lemma only_sems_site s s' k : only_sems s s' → site s' k = site s k.
Proof. by intros (l & c & ->). Qed.

(** The first [n] entries are given back, the last of them first. *)
Lemma semexit_loop_ok up x n s : sem_wf s → semu s !! up = Some x → un_ok (s_info s) x → (n ≤ length (active x))%nat → (∀ e, e ∈ active x → key_ok s (ent_key e)) →
  ∃ s', semexit_loop n up s = Ok s' ∧ only_sems s s' ∧ good_step s s' ∧
    (∀ j e v, (j < n)%nat → active x !! j = Some e → vals s !! site s (ent_key e) = Some v → vals s' !! site s (ent_key e) = Some (given (s_info s) (un_aoe e) v)) ∧
    (∀ i, (∀ j e, (j < n)%nat → active x !! j = Some e → site s (ent_key e) ≠ i) → vals s' !! i = vals s !! i).
Proof.
  revert s. induction n as [|n IH]; intros s Hwf Hx Hok Hn Hk.
  - exists s. split; [done|]. split; [apply only_sems_refl|]. split; [by apply good_refl|]. split; [lia|done].
  - cbn [semexit_loop]. destruct (lookup_lt_is_Some_2 (active x) n) as [e He]; [lia|]. pose proof (list_elem_of_lookup_2 _ _ _ He) as Hin. assert (un_ent x !! n = Some e) as He2 by (unfold active in He; apply lookup_take_Some in He; apply He).
    pose proof (uo_ents _ _ Hok) as Hf. rewrite list.Forall_forall in Hf. destruct (Hf e Hin) as (_ & Hr & _). pose proof (io_aem _ (sw_info _ Hwf)).
    destruct (semexit_entry_ok up n x e s Hwf Hx He2 (Hk e Hin) ltac:(lia)) as (s1 & -> & O1 & G1 & v & Hv & V1). cbn [mbind res_bind].
    assert (semu s1 = semu s ∧ s_info s1 = s_info s) as [U1 I1] by (destruct O1 as (l & c & ->); done).
    destruct (IH s1) as (s' & E & O2 & G2 & V2 & F2); [apply G1|by rewrite U1|by rewrite I1|lia|intros e' He'; eapply only_sems_key; [exact O1|by apply Hk]|]. exists s'. split; [done|]. split; [by eapply only_sems_trans|]. split; [by eapply good_trans|].
    assert (∀ j e', (j < n)%nat → active x !! j = Some e' → site s (ent_key e') ≠ site s (ent_key e)) as Hne.
    { intros j e' Hj He' Es. apply (site_inj s) in Es; [|done|by eapply Hk, list_elem_of_lookup_2|by apply Hk]. assert (j = n) by (eapply sorted_key_inj; [apply Hok|done..]). lia. }
    split.
    + intros j e' v' Hj He' Hv'. destruct (decide (j = n)) as [->|Hjn].
      * rewrite He in He'. injection He' as <-. rewrite F2; [|intros j e' Hj2 He'; rewrite (only_sems_site s s1) by done; by eapply Hne]. rewrite V1. rewrite Hv in Hv'. injection Hv' as <-. rewrite list_lookup_insert_eq by (by eapply lookup_lt_Some). done.
      * rewrite <- (only_sems_site s s1), <- I1 by done. apply (V2 j); [lia|done|]. rewrite V1, (only_sems_site s s1) by done. rewrite list_lookup_insert_ne; [done|]. intros Es. symmetry in Es. revert Es. apply (Hne j); [lia|done].
    + intros i Hi. rewrite F2, V1; [apply list_lookup_insert_ne; apply (Hi n); [lia|done]|]. intros j e' Hj He'. rewrite (only_sems_site s s1) by done. apply (Hi j); [lia|done].
Qed.

(** The end of a process: its adjustments are added where the sum is a value, and it has none. *)
Lemma semexit_ok p s : sem_wf s → (p < length (sem_undo s))%nat → ∃ s', semexit p s = Ok s' ∧ good_step s s' ∧ adj s' p = ∅ ∧ (∀ q, q ≠ p → adj s' q = adj s q) ∧ (∀ u, ¬ owns s' p u) ∧
  (∀ k a v, adj s p !! k = Some a → vals s !! site s k = Some v → vals s' !! site s k = Some (given (s_info s) a v)) ∧
  (∀ i, (∀ k a, adj s p !! k = Some a → site s k ≠ i) → vals s' !! i = vals s !! i).
Proof.
  intros Hwf Hp. unfold semexit. destruct (lookup_lt_is_Some_2 _ _ Hp) as [o Ho]. rewrite (nget_ok _ _ _ Ho). cbn [mbind res_bind].
  assert (∀ s1 s', sem_wf s1 → exited p s1 s' → good_step s1 s') as Hex.
  { intros s1 s' Hwf1 (Hu & Huo & Ha & _ & Hq & _). apply good_undo; [done|done|done|]. intros q k a Hk. destruct (decide (q = p)) as [->|Hne]; [by rewrite Ha, lookup_empty in Hk|]. rewrite Hq in Hk by done. by eapply sw_adj. }
  destruct o as [up|].
  - destruct (sw_undo _ Hwf) as (act & fr & Hu). destruct (uw_own _ _ _ Hu p up Ho) as [Hb _]. destruct (lookup_lt_is_Some_2 _ _ Hb) as [x Hx]. rewrite (nget_ok _ _ _ Hx). cbn [mbind res_bind]. pose proof (uw_un _ _ _ Hu up x Hx) as [Hok _].
    pose proof (owns_inv s p up x Ho Hx) as Hadj. destruct (un_split _ _ Hok) as (rest & _ & Ec). destruct (Z.eqb_spec (un_cnt x) 0) as [E0|E0].
    + destruct (undo_free_ok act fr s p up x Hu Ho Hx E0) as (s' & E & He). exists s'. split; [done|]. split; [by apply Hex|]. destruct He as (_ & Huo & Ha & Hno & Hq & _). split; [done|]. split; [done|]. split; [done|].
      assert (adj s p = ∅) as ->. { rewrite Hadj. unfold active. by rewrite E0. } assert (vals s' = vals s) as -> by (unfold vals; by destruct Huo as (_ & _ & -> & _)). split; [intros k a v Hk; by rewrite lookup_empty in Hk|done].
    + assert (∀ k a, adj s p !! k = Some a ↔ ∃ e, e ∈ active x ∧ ent_key e = k ∧ un_aoe e = a) as Hin by (intros k a; rewrite Hadj; apply amap_lookup; apply Hok).
      destruct (semexit_loop_ok up x (Z.to_nat (un_cnt x)) s Hwf Hx Hok ltac:(lia)) as (s1 & -> & O1 & G1 & V1 & F1); [intros e He; eapply (sw_adj _ Hwf p _ (un_aoe e)); apply Hin; by exists e|]. cbn [mbind res_bind].
      assert (owns s1 p up ∧ semu s1 !! up = Some x ∧ undo_wf act fr s1 ∧ s_info s1 = s_info s ∧ ∀ q, adj s1 q = adj s q) as (Ho1 & Hx1 & Hu1 & I1 & A1) by (destruct O1 as (l & c & ->); destruct Hu; split_and!; try done; by constructor).
      destruct (semexit_end_ok act fr s1 p up x Hu1 (sw_info _ (proj1 G1)) Ho1 Hx1) as (s' & E & He). exists s'. split; [done|]. split; [eapply good_trans; [exact G1|apply Hex; [apply G1|done]]|].
      destruct He as (_ & Huo & Ha & Hno & Hq & _). split; [done|]. split; [intros q Hne; by rewrite Hq, A1|]. split; [done|]. assert (vals s' = vals s1) as -> by (unfold vals; by destruct Huo as (_ & _ & -> & _)). split.
      * intros k a v (e & He & <- & <-)%Hin Hv. apply list_elem_of_lookup in He as [j He]. apply (V1 j); [apply lookup_lt_Some in He; lia|done|done].
      * intros i Hi. apply F1. intros j e _ He. apply (Hi (ent_key e) (un_aoe e)). apply Hin. exists e. split; [by eapply list_elem_of_lookup_2|done].
  - exists s. split; [done|]. split; [by apply good_refl|]. assert (adj s p = ∅) as Ha by (unfold adj; by rewrite Ho). split; [done|]. split; [done|]. split; [intros u Hu; unfold owns in Hu; congruence|]. rewrite Ha. split; [intros k a v Hk; by rewrite lookup_empty in Hk|done].
Qed.

(** ** semop *)

Lemma verify_ok w sp ops : semop_verify w sp ops = 0 → Forall (λ op, sem_num op < sem_nsems sp) ops.
Proof.
  induction ops as [|op ops IH]; [constructor|]. cbn [semop_verify]. intros E. case_if_in E; [done|]. case_if_in E; [done|]. constructor; [done|auto].
Qed.

(** A turn keeps the invariant. *)
Lemma semop_turn w semid ix d ops s : sem_wf s → (w_slot w < length (sem_undo s))%nat → 0 ≤ semid < W31 → live s semid ix d → Forall buf_ok ops → Forall (λ op, sem_num op < sem_nsems d) ops →
  ∃ t s', semop_pass w semid ix ops s = Ok (t, s') ∧ sem_wf s' ∧ length (sem_undo s') = length (sem_undo s).
Proof. intros Hwf Hs Hid Hl Hb Hn. apply (pass_call s w semid ix d ops); try done. by eapply live_index. Qed.

Lemma semop_ok w semid sops nsops s : sem_wf s → (w_slot w < length (sem_undo s))%nat → 0 ≤ semid < W31 → (∀ ops, sops = Some ops → Forall buf_ok ops) →
  ∃ t s', semop w semid sops nsops s = Ok (t, s') ∧ sem_wf s' ∧ length (sem_undo s') = length (sem_undo s).
Proof.
  intros Hwf Hs Hid Hb. unfold semop. assert (∀ t : turn, ∃ t' s', Ok (t, s) = Ok (t', s') ∧ sem_wf s' ∧ length (sem_undo s') = length (sem_undo s)) as Hsame by (intros t; by exists t, s).
  case_if; [apply Hsame|]. case_if; [apply Hsame|]. destruct sops as [ops|]; [|apply Hsame]. destruct (semconv_lock_ok s semid (sw_mni _ Hwf)) as [(ix & d & -> & Hi & Hl)|[-> Hno]]; cbn [mbind res_bind]; [|apply Hsame].
  pose proof Hl as (_ & Hd & _). rewrite (aget_ok _ _ d) by done. cbn [mbind res_bind]. case_if; [apply Hsame|]. eapply semop_turn; try done; [by apply Hb|by eapply verify_ok].
Qed.

Lemma semop_intr_ok k zero s : sem_wf s → 0 ≤ k < semmns (s_info s) → ∃ t s', semop_intr k zero s = Ok (t, s') ∧ sem_wf s' ∧ length (sem_undo s') = length (sem_undo s).
Proof.
  intros Hwf Hk. unfold semop_intr. destruct (lookup_lt_is_Some_2 (sem s) (Z.to_nat k)) as [m Hm]; [pose proof (sw_mns _ Hwf); lia|]. rewrite (aget_ok _ _ m) by (done || lia). cbn [mbind res_bind].
  assert (∀ m' c (t : turn), semval m' = semval m → ∃ t' s', Ok (t, set_cvs c (set_sem (<[Z.to_nat k := m']> (sem s)) s)) = Ok (t', s') ∧ sem_wf s' ∧ length (sem_undo s') = length (sem_undo s)) as H.
  { intros m' c t E. eexists _, _. split; [done|]. set (s' := set_cvs _ _). split; [|done]. assert (vals s' = vals s) as Ev by (unfold vals; simpl; rewrite list_fmap_insert; apply list_insert_id; by rewrite list_lookup_fmap, Hm, E).
    apply (wf_same_sets s); try done; rewrite ?Ev; [eapply only_sems_inv; [by eexists _, _|apply Hwf]|simpl; by rewrite length_insert|apply Hwf|by left|intros p q a Hq; by eapply sw_adj]. }
  destruct zero; case_if; rewrite (upd_sem_ok _ _ _ m) by (done || lia); cbn [mbind res_bind].
  - exact (H (set_semzcnt 0 m) (cvs s ++ [CvBroadcast k true]) (Fails EINTR) eq_refl).
  - exact (H (set_semzcnt (semzcnt m - 1) m) (cvs s) (Fails EINTR) eq_refl).
  - exact (H (set_semncnt 0 m) (cvs s ++ [CvBroadcast k false]) (Fails EINTR) eq_refl).
  - exact (H (set_semncnt (semncnt m - 1) m) (cvs s) (Fails EINTR) eq_refl).
Qed.

Lemma semop_again_ok w semid ix ops s : sem_wf s → (w_slot w < length (sem_undo s))%nat → 0 ≤ semid < W31 → ix = sem_index semid → Forall buf_ok ops → (∀ jx d, live s semid jx d → Forall (λ op, sem_num op < sem_nsems d) ops) →
  ∃ t s', semop_again w semid ix ops s = Ok (t, s') ∧ sem_wf s' ∧ length (sem_undo s') = length (sem_undo s).
Proof.
  intros Hwf Hs Hid -> Hb Hn. unfold semop_again. destruct (semconv_ok s semid (sw_mni _ Hwf)) as [[-> (ix & d & Hi & Hl)]|[-> Hno]]; cbn [mbind res_bind].
  - change (negb (0 =? 0)) with false. cbv iota. pose proof Hl as (E & _). rewrite <- E. eapply semop_turn; try done. by eapply Hn.
  - change (negb (EINVAL =? 0)) with true. cbv iota. by eexists _, _.
Qed.

(** ** All calls *)

Inductive call : Type :=
  | Semop (w : who) (semid : Z) (sops : option (list sembuf)) (nsops : Z)
  | Semop_again (w : who) (semid : Z) (ops : list sembuf)
  | Semop_intr (k : Z) (zero : bool)
  | Semget (w : who) (key nsems semflg : Z)
  | Semctl (w : who) (semid semnum : Z) (cmd : ctl)
  | Semexit (slot : nat).

Definition run_call (c : call) (s : semsys) : res semsys :=
  match c with
  | Semop w semid sops nsops => '(_, s) ← semop w semid sops nsops s; Ok s
  | Semop_again w semid ops => '(_, s) ← semop_again w semid (sem_index semid) ops s; Ok s
  | Semop_intr k zero => '(_, s) ← semop_intr k zero s; Ok s
  | Semget w key nsems semflg => '(_, s) ← semget w key nsems semflg s; Ok s
  | Semctl w semid semnum cmd => '(_, s) ← semctl w semid semnum cmd s; Ok s
  | Semexit slot => semexit slot s
  end.

(** What the arguments of a call may be: the process has a slot, an identifier is not negative,
    and what is read has the types of C.  A thread that slept is back before its identifier
    has been used up and given to a smaller set. *)
Definition call_ok (c : call) (s : semsys) : Prop :=
  match c with
  | Semop w semid sops _ => (w_slot w < length (sem_undo s))%nat ∧ 0 ≤ semid < W31 ∧ ∀ ops, sops = Some ops → Forall buf_ok ops
  | Semop_again w semid ops => (w_slot w < length (sem_undo s))%nat ∧ 0 ≤ semid < W31 ∧ Forall buf_ok ops ∧ ∀ ix d, live s semid ix d → Forall (λ op, sem_num op < sem_nsems d) ops
  | Semop_intr k _ => 0 ≤ k < semmns (s_info s)
  | Semget _ _ _ _ => True
  | Semctl _ semid semnum cmd => 0 ≤ semid < W31 ∧ 0 ≤ semnum ∧ ctl_ok s semid cmd
  | Semexit slot => (slot < length (sem_undo s))%nat
  end.

(** Every call returns and keeps the invariant. *)
Lemma call_returns c s : sem_wf s → call_ok c s → ∃ s', run_call c s = Ok s' ∧ sem_wf s'.
Proof.
  intros Hwf Hc. destruct c as [w semid sops nsops|w semid ops|k zero|w key nsems flg|w semid semnum cmd|slot]; simpl in Hc; cbn [run_call].
  - destruct Hc as (H1 & H2 & H3). destruct (semop_ok w semid sops nsops s Hwf H1 H2 H3) as (t & s' & -> & H & _). by exists s'.
  - destruct Hc as (H1 & H2 & H3 & H4). destruct (semop_again_ok w semid _ ops s Hwf H1 H2 eq_refl H3 H4) as (t & s' & -> & H & _). by exists s'.
  - destruct (semop_intr_ok k zero s Hwf Hc) as (t & s' & -> & H & _). by exists s'.
  - destruct (semget_ok w key nsems flg s Hwf) as (r & s' & -> & H & _). by exists s'.
  - destruct Hc as (H1 & H2 & H3). destruct (semctl_ok w semid semnum cmd s Hwf H1 H2 H3) as (r & s' & -> & [[H _]|(_ & d & H & _)]); by exists s'.
  - destruct (semexit_ok slot s Hwf Hc) as (s' & -> & [H _] & _). by exists s'.
Qed.

(** An identifier leads to its set until the set is removed. *)
Lemma pass_lives s w semid ix sp ops t s' : sem_wf s → (w_slot w < length (sem_undo s))%nat → 0 ≤ semid < W31 → live s semid ix sp → Forall buf_ok ops → Forall (λ op, sem_num op < sem_nsems sp) ops →
  semop_pass w semid ix ops s = Ok (t, s') → same_shape (sema s) (sema s').
Proof.
  intros Hwf Hs Hid Hl Hb Hn E. pose proof (live_index _ _ _ _ Hl) as Hi. pose proof (semop_pass_ok w semid ix ops s sp (op_ready s w semid ix sp ops Hwf Hs Hid Hl Hi Hb Hn) (ops_ok s w semid ix sp ops Hwf Hs Hid Hl Hi Hb Hn) Hn (undo_inv_adj _ _ (sw_undo _ Hwf) (sw_info _ Hwf))) as H.
  destruct (ops_spec _ _ _ _ ops _ _) as [t'|[v a]].
  - destruct H as (s2 & E2 & s1 & K & _ & _ & _ & Has). rewrite E in E2. injection E2 as <- <-. rewrite <- (kp_sema _ _ _ K). by eapply asleep_shape.
  - destruct H as (s1 & E2 & K & _). rewrite E in E2. injection E2 as -> ->. simpl. eapply shape_otime. apply Hl.
Qed.

Lemma run_lives c s s' id ix d : sem_wf s → call_ok c s → run_call c s = Ok s' → 0 ≤ id < W31 → (∀ w n, c ≠ Semctl w id n IPC_RMID) → live s id ix d → ∃ d', live s' id ix d' ∧ shape d' = shape d.
Proof.
  intros Hwf Hc E Hid Hne Hl. assert (same_shape (sema s) (sema s') → ∃ d', live s' id ix d' ∧ shape d' = shape d) as Hsh by (intros Hs; by apply (shape_lives s s' Hs id ix d)).
  destruct c as [w semid sops nsops|w semid ops|k zero|w key nsems flg|w semid semnum cmd|slot]; cbn [run_call] in E; simpl in Hc.
  - destruct Hc as (H1 & H2 & H3). apply bind_ok in E as ([t s2] & E & E2). injection E2 as ->. apply Hsh. unfold semop in E. case_if_in E; [by injection E as <- <-|]. case_if_in E; [by injection E as <- <-|]. destruct sops as [ops|]; [|by injection E as <- <-].
    destruct (semconv_lock_ok s semid (sw_mni _ Hwf)) as [(jx & e & E1 & Hj & Hle)|[E1 Hno]]; rewrite E1 in E; cbn [mbind res_bind] in E; [|by injection E as <- <-]. pose proof Hle as (_ & He & _). rewrite (aget_ok _ _ e) in E by done. cbn [mbind res_bind] in E.
    case_if_in E; [by injection E as <- <-|]. eapply (pass_lives s w semid jx e ops t s'); try done; [by apply H3|by eapply verify_ok].
  - destruct Hc as (H1 & H2 & H3 & H4). apply bind_ok in E as ([t s2] & E & E2). injection E2 as ->. apply Hsh. unfold semop_again in E. destruct (semconv_ok s semid (sw_mni _ Hwf)) as [[E1 (jx & e & Hj & Hle)]|[E1 Hno]]; rewrite E1 in E; cbn [mbind res_bind] in E.
    + change (negb (0 =? 0)) with false in E. cbv iota in E. pose proof Hle as (Ei & _). rewrite <- Ei in E. eapply (pass_lives s w semid jx e ops t s'); try done. by eapply H4.
    + change (negb (EINVAL =? 0)) with true in E. cbv iota in E. by injection E as <- <-.
  - apply bind_ok in E as ([t s2] & E & E2). injection E2 as ->. apply Hsh. unfold semop_intr in E. apply bind_ok in E as (m & Hm & E). unfold upd_sem in E. rewrite Hm in E. cbn [mbind res_bind] in E. by destruct zero; case_if_in E; injection E as <- <-.
  - apply bind_ok in E as ([r s2] & E & E2). injection E2 as ->. destruct (semget_ok w key nsems flg s Hwf) as (r2 & s2 & E2 & H2). rewrite E in E2. injection E2 as <- <-. destruct H2 as (_ & _ & _ & _ & _ & Hle & _). by apply (Hle id ix d).
  - destruct Hc as (H1 & H2 & H3). apply bind_ok in E as ([r s2] & E & E2). injection E2 as ->. destruct (semctl_ok w semid semnum cmd s Hwf H1 H2 H3) as (r2 & s2 & E2 & Hg). rewrite E in E2. injection E2 as <- <-.
    destruct Hg as [(_ & _ & _ & Hs)|(-> & e & _ & _ & _ & _ & Hle)]; [by apply Hsh|]. exists d. split; [|done]. apply Hle; [done| |done]. intros ->. by eapply Hne.
  - destruct (semexit_ok slot s Hwf Hc) as (s2 & E2 & (_ & _ & _ & Hs) & _). rewrite E in E2. injection E2 as <-. by apply Hsh.
Qed.

(** The states that calls lead to. *)
Inductive sem_reach (s0 : semsys) : semsys → Prop :=
  | sem_start : sem_reach s0 s0
  | sem_step c s s' : sem_reach s0 s → call_ok c s → run_call c s = Ok s' → sem_reach s0 s'.

Lemma reach_wf s0 s : sem_wf s0 → sem_reach s0 s → sem_wf s.
Proof.
  intros Hwf. induction 1 as [|c s s' _ IH Hc E]; [done|]. destruct (call_returns c s IH Hc) as (s2 & E2 & H2). congruence.
Qed.
