(* ===== verification/SemProps.v ===== *)
(** * System V semaphores: sleepers, properties and findings

    [wsys] is the state with the threads that sleep in [semop].  A call wakes at least those it
    broadcasts to, and a thread may leave its sleep at any time, as for a signal; one that has
    left does the operations again or returns [EINTR].  [wake_inv] says what holds of those
    that are asleep.

    The properties: the operations of [semop] are done as one or not at all ([semop_atomic]);
    every call from [_init] on returns and keeps the invariant ([sem_safe]); an identifier
    leads to its set until the set is removed ([semid_until_removed]); the end of a process
    gives back what it has taken ([semexit_gives_back]); a thread sleeps only while its
    operation cannot be done ([semop_no_lost_wakeup]).  The last part runs the cases in which
    the code does not do what it means to. *)

From S2P Require Import Prelude Rmap Bitmap Cred Sem SemList SemOps SemSets SemRun.

(** ** The system *)

(** A thread in [semop]: it is on a queue while [sl_asleep].  [sl_n] is the size of its set. *)
Record sleeper := MkSl { sl_who : who; sl_id : Z; sl_ops : list sembuf; sl_n : Z; sl_k : Z; sl_zero : bool; sl_asleep : bool }.

Definition wake_one (a : sleeper) : sleeper := MkSl (sl_who a) (sl_id a) (sl_ops a) (sl_n a) (sl_k a) (sl_zero a) false.

Record wsys := MkWs { w_sem : semsys; w_sl : list sleeper }.

(** What a call that adds [new] does to a thread. *)
Inductive woken1 (new : list cvop) (a : sleeper) : sleeper → Prop :=
  | woken_stays : CvBroadcast (sl_k a) (sl_zero a) ∉ new → woken1 new a a
  | woken_leaves : woken1 new a (wake_one a).

Definition woken (s s' : semsys) (l l' : list sleeper) : Prop := ∃ new, cvs s' = cvs s ++ new ∧ Forall2 (woken1 new) l l'.

Definition count (zero : bool) (m : sem_t) : Z := if zero then semzcnt m else semncnt m.

(** What becomes of the thread of a turn; the count of sleepers has not wrapped to zero. *)
Inductive goes (w : who) (semid : Z) (ops : list sembuf) (s : semsys) (l : list sleeper) : turn → list sleeper → Prop :=
  | goes_done : goes w semid ops s l Done l
  | goes_fails e : goes w semid ops s l (Fails e) l
  | goes_sleeps k zero ix d m : live s semid ix d → sem s !! Z.to_nat k = Some m → count zero m ≠ 0 →
      goes w semid ops s l (Waits k zero) (l ++ [MkSl w semid ops (sem_nsems d) k zero true]).

Inductive wstep : wsys → wsys → Prop :=
  | ws_semop w semid ops nsops s s' t l l1 l2 : call_ok (Semop w semid (Some ops) nsops) s → semop w semid (Some ops) nsops s = Ok (t, s') → woken s s' l l1 → goes w semid ops s' l1 t l2 →
      wstep (MkWs s l) (MkWs s' l2)
  | ws_again a s s' t l l' l1 l2 : sl_asleep a = false → call_ok (Semop_again (sl_who a) (sl_id a) (sl_ops a)) s → semop_again (sl_who a) (sl_id a) (sem_index (sl_id a)) (sl_ops a) s = Ok (t, s') →
      woken s s' (l ++ l') l1 → goes (sl_who a) (sl_id a) (sl_ops a) s' l1 t l2 → wstep (MkWs s (l ++ a :: l')) (MkWs s' l2)
  | ws_intr a s s' t l l' l1 : sl_asleep a = false → call_ok (Semop_intr (sl_k a) (sl_zero a)) s → semop_intr (sl_k a) (sl_zero a) s = Ok (t, s') → woken s s' (l ++ l') l1 → wstep (MkWs s (l ++ a :: l')) (MkWs s' l1)
  | ws_semget w key nsems flg s s' r l l1 : semget w key nsems flg s = Ok (r, s') → woken s s' l l1 → wstep (MkWs s l) (MkWs s' l1)
  | ws_semctl w semid semnum cmd s s' r l l1 : call_ok (Semctl w semid semnum cmd) s → semctl w semid semnum cmd s = Ok (r, s') → woken s s' l l1 → wstep (MkWs s l) (MkWs s' l1)
  | ws_semexit slot s s' l l1 : call_ok (Semexit slot) s → semexit slot s = Ok s' → woken s s' l l1 → wstep (MkWs s l) (MkWs s' l1)
  | ws_signal s l l1 : woken s s l l1 → wstep (MkWs s l) (MkWs s l1).

Inductive wreach (s0 : semsys) : wsys → Prop :=
  | wr_start : wreach s0 (MkWs s0 [])
  | wr_step S S' : wreach s0 S → wstep S S' → wreach s0 S'.

(** ** What a call does to a semaphore with sleepers *)

(** Sleepers are still counted or woken, and are woken when what they wait for happens. *)
Definition eff_at (sg : nat → bool) (new : list cvop) (i : nat) (m m' : sem_t) : Prop :=
  (semzcnt m ≠ 0 → semzcnt m' ≠ 0 ∨ CvBroadcast (Z.of_nat i) true ∈ new) ∧
  (semzcnt m ≠ 0 → semval m ≠ 0 → semval m' = 0 → CvBroadcast (Z.of_nat i) true ∈ new) ∧
  (sg i = false → semncnt m ≠ 0 → semncnt m' ≠ 0 ∨ CvBroadcast (Z.of_nat i) false ∈ new) ∧
  (sg i = false → semncnt m ≠ 0 → semval m < semval m' → CvBroadcast (Z.of_nat i) false ∈ new).

Lemma full_eff sg new i m m' : full_at sg new i m m' → eff_at sg new i m m'.
Proof.
  intros [[C1 C2] [V1 V2]]. split_and!.
  - intros H. destruct C1 as [->|[_ ?]]; auto.
  - intros H1 H2 H3. destruct (V1 H2 H3); tauto.
  - intros Hs H. destruct (C2 Hs) as [->|[_ ?]]; auto.
  - intros Hs H1 H2. destruct (V2 Hs H2); tauto.
Qed.

Lemma wakes_eff sg s s' : wakes (full_at sg) s s' → wakes (eff_at sg) s s'.
Proof. intros [L (new & E & H)]. split; [done|]. exists new. split; [done|]. intros i m m' Hm Hm'. by apply full_eff, H. Qed.

(** What holds of a thread that sleeps. *)
Definition sl_ok (s : semsys) (a : sleeper) : Prop :=
  sl_asleep a = true → 0 ≤ sl_id a < W31 ∧ 0 ≤ sl_k a ∧ ∃ m, sem s !! Z.to_nat (sl_k a) = Some m ∧
    if sl_zero a then semzcnt m ≠ 0 ∧ ∀ op, sl_ops a = [op] → semval m ≠ 0
    else 2 ≤ sl_n a → semncnt m ≠ 0 ∧ (∀ op, sl_ops a = [op] → semval m < - sem_op op) ∧
         ∃ ix d, live s (sl_id a) ix d ∧ sem_nsems d = sl_n a ∧ in_set d (Z.to_nat (sl_k a)).

(** A thread that is not woken still waits for something. *)
Lemma sl_keep sg new s s' a b : sl_ok s a → length (sem s') = length (sem s) → (∀ i m m', sem s !! i = Some m → sem s' !! i = Some m' → eff_at sg new i m m') → woken1 new a b →
  (sl_asleep a = true → sl_zero a = false → 2 ≤ sl_n a → ∀ ix d, live s (sl_id a) ix d → sem_nsems d = sl_n a → in_set d (Z.to_nat (sl_k a)) →
    CvBroadcast (sl_k a) false ∈ new ∨ sg (Z.to_nat (sl_k a)) = false ∧ ∃ d', live s' (sl_id a) ix d' ∧ shape d' = shape d) → sl_ok s' b.
Proof.
  intros Ha Hl He [Hnb|]; [|by intros ?]. intros Hlive Has. destruct (Ha Has) as (Hid & Hk & m & Hm & Hst). split; [done|]. split; [done|].
  destruct (lookup_lt_is_Some_2 (sem s') (Z.to_nat (sl_k a))) as [m' Hm']; [rewrite Hl; by eapply lookup_lt_Some|]. exists m'. split; [done|].
  destruct (He _ m m' Hm Hm') as (E1 & E2 & E3 & E4). rewrite Z2Nat.id in E1, E2, E3, E4 by done. destruct (sl_zero a) eqn:Ez.
  - destruct Hst as [Hc Hv]. split; [by destruct (E1 Hc)|]. intros op Hop Hz. by apply Hnb, E2; [|eapply Hv|].
  - intros Hn. destruct (Hst Hn) as (Hc & Hv & ix & d & Hli & Hnd & Hin). destruct (Hlive Has eq_refl Hn ix d Hli Hnd Hin) as [?|[Hsg (d' & Hli' & Hsh)]]; [done|].
    split; [by destruct (E3 Hsg Hc)|]. split.
    + intros op Hop. specialize (Hv op Hop). destruct (Z.lt_ge_cases (semval m) (semval m')) as [Hlt|]; [|lia]. exfalso. by apply Hnb, E4.
    + exists ix, d'. split; [done|]. split; [unfold shape in Hsh; congruence|]. by eapply in_set_shape.
Qed.

(** The whole list. *)
Lemma keep_all sg s s' l l1 : wakes (eff_at sg) s s' → Forall (sl_ok s) l → woken s s' l l1 →
  (∀ a new, a ∈ l → cvs s' = cvs s ++ new → sl_asleep a = true → sl_zero a = false → 2 ≤ sl_n a → ∀ ix d, live s (sl_id a) ix d → sem_nsems d = sl_n a → in_set d (Z.to_nat (sl_k a)) →
    CvBroadcast (sl_k a) false ∈ new ∨ sg (Z.to_nat (sl_k a)) = false ∧ ∃ d', live s' (sl_id a) ix d' ∧ shape d' = shape d) → Forall (sl_ok s') l1.
Proof.
  intros [L (new & Ec & He)] Hl (new' & Ec' & Hw) Hlive. assert (new' = new) as ->. { rewrite Ec in Ec'. by apply app_inv_head in Ec'. }
  assert (∀ a, a ∈ l → sl_ok s a) as Hl' by by apply list.Forall_forall. clear Hl. induction Hw as [|a b l l1 Hab Hw IH]; [constructor|]. constructor.
  - eapply (sl_keep sg new s s' a b); [apply Hl'; left|done|done|done|]. intros. eapply Hlive; try done. left.
  - apply IH; [intros; eapply Hlive; try done; by right|intros c Hc; apply Hl'; by right].
Qed.

Lemma keep_good s s' l l1 : good_step s s' → Forall (sl_ok s) l → woken s s' l l1 → Forall (sl_ok s') l1.
Proof.
  intros (_ & _ & W & E) Hl Hw. apply (keep_all nosig s s' l); [by apply wakes_eff|done|done|]. intros a new _ _ _ _ _ ix d Hli _ _. right. split; [done|]. by apply (shape_lives s s' E (sl_id a) ix d).
Qed.

Lemma keep_removed semid d s s' l l1 : sem_wf s → removed semid d s s' → Forall (sl_ok s) l → woken s s' l l1 → Forall (sl_ok s') l1.
Proof.
  intros Hwf (_ & _ & (jx & Hld) & W & Hle) Hl Hw. apply (keep_all nosig s s' l); [by eapply wakes_eff, full_clear|done|done|]. intros a new Ha Ec Has Hz Hn ix e Hli Hne Hin.
  rewrite list.Forall_forall in Hl. destruct (Hl a Ha Has) as (Hid & Hk & m & Hm & Hst). rewrite Hz in Hst. destruct (Hst Hn) as (Hc & _). destruct (decide (sl_id a = semid)) as [Es|Es].
  - left. rewrite Es in Hli. destruct (live_fun _ _ _ _ _ _ Hld Hli) as [_ <-]. destruct W as [L (new' & Ec' & H)]. assert (new' = new) as -> by (rewrite Ec in Ec'; by apply app_inv_head in Ec').
    destruct (lookup_lt_is_Some_2 (sem s') (Z.to_nat (sl_k a))) as [m' Hm']; [rewrite L; by eapply lookup_lt_Some|]. destruct (H _ m m' Hm Hm') as [_ Hall]. rewrite <- (Z2Nat.id (sl_k a)) at 1 by done.
    destruct Hall as [[?|?] _]; [unfold run; unfold in_set in Hin; lia|done|done].
  - right. split; [done|]. exists e. split; [|done]. by apply Hle.
Qed.

(** ** Turns *)

Lemma op_spec_waits i r semid base op v m k zero : op_spec i r semid base op v m = inl (Waits k zero) → k = base + sem_num op ∧
  if zero then default 0 (v !! Z.to_nat k) ≠ 0 else default 0 (v !! Z.to_nat k) < - sem_op op.
Proof.
  unfold op_spec. set (x := default 0 _). intros E. case_if_in E; [case_if_in E; [done|]; destruct (nowait op); [done|]; injection E as <- <-; done|].
  destruct ((sem_op op <? 0) && (x <? - sem_op op)) eqn:Eb; [destruct (nowait op); [done|]; injection E as <- <-; apply andb_true_iff in Eb as [? ?]; prop_bool; done|]. case_if_in E; [done|]. by destruct (flag_spec i r semid op m).
Qed.

Lemma ops_spec_waits i r semid base ops v m k zero : ops_spec i r semid base ops v m = inl (Waits k zero) → ∃ op, op ∈ ops ∧ k = base + sem_num op.
Proof.
  revert v m. induction ops as [|op ops IH]; intros v m E; [done|]. cbn [ops_spec] in E. destruct (op_spec i r semid base op v m) as [t|[v' m']] eqn:E1.
  - injection E as ->. apply op_spec_waits in E1 as [-> _]. exists op. split; [left|done].
  - destruct (IH _ _ E) as (o & Ho & ->). exists o. split; [by right|done].
Qed.

(** The semaphores when a turn has ended early. *)
Lemma early_eff w ix sg v0 m0 s t s' : ends_early w ix sg v0 m0 s t s' → v0 = vals s → (∀ k zero, t = Waits k zero → ∃ m, sem s' !! Z.to_nat k = Some m ∧ count zero m ≠ 0) → wakes (eff_at sg) s s'.
Proof.
  intros (s1 & K & [L (new & Ec & Hc)] & Hv & _ & Has) Ev Hnw. rewrite Ev in Hv.
  assert (∀ i m m1, sem s !! i = Some m → sem s1 !! i = Some m1 → semval m1 = semval m) as Hvv.
  { intros i m m1 Hm Hm1. apply vals_lookup in Hm, Hm1. congruence. }
  assert (Hsame : ∀ i m m1 m', sem s !! i = Some m → sem s1 !! i = Some m1 → semval m' = semval m1 → (semzcnt m' = semzcnt m1 ∨ semzcnt m' ≠ 0) → (semncnt m' = semncnt m1 ∨ semncnt m' ≠ 0) → eff_at sg new i m m').
  { intros i m m1 m' Hm Hm1 Eval Ez En. destruct (Hc i m m1 Hm Hm1) as [C1 C2]. specialize (Hvv i m m1 Hm Hm1). unfold eff_at. rewrite Eval, Hvv. split_and!; [|done| |lia].
    - intros Hz. destruct Ez as [->|?]; [|by left]. destruct C1 as [->|[_ ?]]; auto.
    - intros Hs Hn. destruct En as [->|?]; [|by left]. destruct (C2 Hs) as [->|[_ ?]]; auto. }
  assert (sem s' = sem s1 ∧ cvs s' = cvs s1 ∨ ∃ k m1 m', sem s1 !! k = Some m1 ∧ sem s' = <[k := m']> (sem s1) ∧ cvs s' = cvs s1 ∧ semval m' = semval m1 ∧ (semzcnt m' = semzcnt m1 ∨ semzcnt m' ≠ 0) ∧ (semncnt m' = semncnt m1 ∨ semncnt m' ≠ 0)) as Hcase.
  { destruct Has as [e|k m Hk Hm|k m d b Hk Hm Hd Hb]; [by left|right|right].
    - exists (Z.to_nat k), m. eexists. split; [done|]. split; [done|]. split; [done|]. split; [done|]. destruct (Hnw k true eq_refl) as (m' & Hm' & Hne). simpl in Hm'. rewrite list_lookup_insert_eq in Hm' by (by eapply lookup_lt_Some). injection Hm' as <-. split; [by right|by left].
    - exists (Z.to_nat k), m. eexists. split; [done|]. split; [done|]. split; [done|]. split; [done|]. destruct (Hnw k false eq_refl) as (m' & Hm' & Hne). simpl in Hm'. rewrite list_lookup_insert_eq in Hm' by (by eapply lookup_lt_Some). injection Hm' as <-. split; [by left|by right]. }
  destruct Hcase as [[Es Ecv]|(k & m1 & m' & Hm1 & Es & Ecv & Hval & Hz & Hn)].
  - split; [by rewrite Es|]. exists new. split; [by rewrite Ecv|]. intros i m m'. rewrite Es. intros Hm Hm'. apply (Hsame i m m' m'); auto.
  - split; [rewrite Es, length_insert; done|]. exists new. split; [by rewrite Ecv|]. intros i m x Hm Hx. rewrite Es in Hx. destruct (decide (i = k)) as [->|Hne].
    + rewrite list_lookup_insert_eq in Hx by (by eapply lookup_lt_Some). injection Hx as <-. by apply (Hsame k m m1 m').
    + rewrite list_lookup_insert_ne in Hx by done. apply (Hsame i m x x); auto.
Qed.

Lemma ends_shape w ix sg v0 m0 s t s' : ends_early w ix sg v0 m0 s t s' → same_shape (sema s) (sema s').
Proof. intros (s1 & K & _ & _ & _ & Has). rewrite <- (kp_sema _ _ _ K). by eapply asleep_shape. Qed.

Lemma ends_vals w ix sg v0 m0 s t s' : ends_early w ix sg v0 m0 s t s' → vals s' = v0.
Proof. intros (s1 & _ & _ & Hv & _ & Has). by rewrite (asleep_vals _ _ _ _ Has). Qed.

(** The sleepers see of a turn what [eff_at] says; and why it sleeps, if it does. *)
Lemma pass_wake s w semid ix sp ops t s' : sem_wf s → (w_slot w < length (sem_undo s))%nat → 0 ≤ semid < W31 → live s semid ix sp → Forall buf_ok ops → Forall (λ op, sem_num op < sem_nsems sp) ops →
  semop_pass w semid ix ops s = Ok (t, s') → (∀ k zero, t = Waits k zero → ∃ m, sem s' !! Z.to_nat k = Some m ∧ count zero m ≠ 0) →
  wakes (eff_at (sig_set sp)) s s' ∧ same_shape (sema s) (sema s') ∧
  ∀ k zero, t = Waits k zero → 0 ≤ k ∧ in_set sp (Z.to_nat k) ∧ ∀ op, ops = [op] → if zero then default 0 (vals s' !! Z.to_nat k) ≠ 0 else default 0 (vals s' !! Z.to_nat k) < - sem_op op.
Proof.
  intros Hwf Hs Hid Hl Hb Hn E Hnw. pose proof (live_index _ _ _ _ Hl) as Hi. pose proof (ops_ok s w semid ix sp ops Hwf Hs Hid Hl Hi Hb Hn) as Hok.
  pose proof (semop_pass_ok w semid ix ops s sp (op_ready s w semid ix sp ops Hwf Hs Hid Hl Hi Hb Hn) Hok Hn (undo_inv_adj _ _ (sw_undo _ Hwf) (sw_info _ Hwf))) as H. destruct (ops_spec _ _ _ _ ops _ _) as [t'|[v a]] eqn:Eo.
  - destruct H as (s2 & E2 & He). rewrite E in E2. injection E2 as <- <-. split; [by eapply early_eff|]. split; [by eapply ends_shape|]. intros k zero ->. destruct (ops_spec_waits _ _ _ _ _ _ _ _ _ Eo) as (op & Hop & Ek).
    rewrite list.Forall_forall in Hok. destruct (Hok op Hop) as (_ & _ & Hk & _). split; [lia|]. split; [rewrite Ek; eapply (touched_in_set s w semid ix sp ops); try done; by exists op|].
    intros o ->. cbn [ops_spec] in Eo. destruct (op_spec _ _ _ _ o _ _) as [t1|[v1 a1]] eqn:E1; [|done]. injection Eo as ->. apply op_spec_waits in E1 as [_ E1]. rewrite (ends_vals _ _ _ _ _ _ _ _ He). done.
  - destruct H as (s1 & E2 & K & [L (new & Ec & W)] & Hv & Ha). rewrite E in E2. injection E2 as -> ->. split; [|split; [simpl; eapply shape_otime; apply Hl|done]].
    split; [simpl; unfold pids_set; by rewrite length_imap|]. exists new. split; [done|]. intros i m m' Hm Hm'. simpl in Hm'. unfold pids_set in Hm'. rewrite list_lookup_imap in Hm'. destruct (sem s1 !! i) as [m1|] eqn:Hm1; [|done]. injection Hm' as <-.
    apply full_eff. destruct (W i m m1 Hm Hm1) as [[C1 C2] [V1 V2]]. by case_decide.
Qed.

(** No signal instead of a broadcast at a semaphore of a set of several. *)
Lemma sig_other s semid ix sp id jx d i : sem_wf s → live s semid ix sp → live s id jx d → 2 ≤ sem_nsems d → in_set d i → sig_set sp i = false.
Proof.
  intros Hwf Hl Hl' Hn Hin. unfold sig_set, is_binary. apply andb_false_iff. destruct (decide (in_set sp i)) as [Hsp|Hsp]; [|right; by apply bool_decide_eq_false_2]. left.
  pose proof Hl as (_ & H1 & H2 & _). pose proof Hl' as (_ & H3 & H4 & _). assert (Z.to_nat ix = Z.to_nat jx) as E by (eapply (sw_disj _ Hwf); [by split|by split|exact Hsp|exact Hin]). rewrite E in H1. assert (sp = d) as -> by congruence.
  apply andb_false_iff. right. apply Z.eqb_neq. lia.
Qed.

Lemma keep_turn s w semid ix sp ops t s' l l1 l2 : sem_wf s → (w_slot w < length (sem_undo s))%nat → 0 ≤ semid < W31 → live s semid ix sp → Forall buf_ok ops → Forall (λ op, sem_num op < sem_nsems sp) ops →
  semop_pass w semid ix ops s = Ok (t, s') → Forall (sl_ok s) l → woken s s' l l1 → goes w semid ops s' l1 t l2 → Forall (sl_ok s') l2.
Proof.
  intros Hwf Hs Hid Hl Hb Hn E Hall Hw Hg. assert (∀ k zero, t = Waits k zero → ∃ m, sem s' !! Z.to_nat k = Some m ∧ count zero m ≠ 0) as Hnw by (intros k zero ->; inversion Hg; subst; eauto).
  destruct (pass_wake s w semid ix sp ops t s' Hwf Hs Hid Hl Hb Hn E Hnw) as (He & Hsh & Hwait).
  assert (Forall (sl_ok s') l1) as H1.
  { apply (keep_all (sig_set sp) s s' l); [done..|]. intros a new _ _ _ _ Hn2 jx d Hli Hnd Hin. right. split; [eapply (sig_other s semid ix sp); try done; lia|]. by apply (shape_lives s s' Hsh (sl_id a) jx d). }
  destruct Hg as [|e|k zero jx d m Hli Hm Hc]; [done..|]. apply list.Forall_app. split; [done|]. constructor; [|constructor]. intros _. simpl. destruct (Hwait k zero eq_refl) as (Hk & Hin & Hone). split; [done|]. split; [done|]. exists m. split; [done|].
  rewrite (vals_lookup _ _ _ Hm) in Hone. simpl in Hone. destruct zero; [split; [done|]; intros op Hop; by apply (Hone op Hop)|]. intros Hnd. split; [done|]. split; [intros op Hop; by apply (Hone op Hop)|].
  exists jx, d. split; [done|]. split; [done|]. destruct (shape_lives s s' Hsh _ _ _ Hl) as (d' & Hl' & Hsh'). destruct (live_fun _ _ _ _ _ _ Hli Hl') as [_ ->]. by eapply in_set_shape.
Qed.

(** ** The invariant *)

Definition wake_inv (S : wsys) : Prop := sem_wf (w_sem S) ∧ Forall (sl_ok (w_sem S)) (w_sl S).

Lemma keep_idle w semid ops s s' t l l1 l2 : sem_wf s → s' = s → (∀ k zero, t ≠ Waits k zero) → Forall (sl_ok s) l → woken s s' l l1 → goes w semid ops s' l1 t l2 → Forall (sl_ok s') l2.
Proof. intros Hwf -> Ht Hl Hw Hg. destruct Hg; [by eapply keep_good; [apply good_refl|..]|by eapply keep_good; [apply good_refl|..]|by destruct (Ht k zero)]. Qed.

Lemma intr_eff k zero s t s' : 0 ≤ k → semop_intr k zero s = Ok (t, s') → wakes (eff_at nosig) s s' ∧ sema s' = sema s.
Proof.
  intros Hk E. unfold semop_intr in E. apply bind_ok in E as (m & Hm & E). unfold aget in Hm. rewrite (proj2 (Z.ltb_ge _ _)) in Hm by lia. apply deref_ok in Hm.
  assert (∀ m' new, semval m' = semval m → (semzcnt m' = semzcnt m ∨ semzcnt m' ≠ 0 ∨ CvBroadcast k true ∈ new) → (semncnt m' = semncnt m ∨ semncnt m' ≠ 0 ∨ CvBroadcast k false ∈ new) → s' = set_cvs (cvs s ++ new) (set_sem (<[Z.to_nat k := m']> (sem s)) s) → wakes (eff_at nosig) s s' ∧ sema s' = sema s) as H.
  { intros m' new Hv Hz Hn ->. split; [|done]. split; [simpl; by rewrite length_insert|]. exists new. split; [done|]. intros i x x' Hx Hx'. simpl in Hx'. destruct (decide (i = Z.to_nat k)) as [->|Hne].
    - rewrite list_lookup_insert_eq in Hx' by (by eapply lookup_lt_Some). injection Hx' as <-. assert (x = m) as -> by congruence. unfold eff_at. rewrite Z2Nat.id by done. rewrite Hv. split_and!; [|done| |lia]; intros; [destruct Hz as [->|[?|?]]|destruct Hn as [->|[?|?]]]; auto.
    - rewrite list_lookup_insert_ne in Hx' by done. assert (x' = x) as -> by congruence. unfold eff_at. split_and!; [auto|done|auto|lia]. }
  destruct zero; case_if_in E; rewrite (upd_sem_ok _ _ _ m) in E by done; cbn [mbind res_bind] in E; injection E as _ <-.
  - apply (H (set_semzcnt 0 m) [CvBroadcast k true]); [done|right; right; left|by left|done].
  - apply (H (set_semzcnt (semzcnt m - 1) m) []); [done|right; left; simpl; lia|by left|by rewrite app_nil_r; destruct s].
  - apply (H (set_semncnt 0 m) [CvBroadcast k false]); [done|by left|right; right; left|done].
  - apply (H (set_semncnt (semncnt m - 1) m) []); [done|by left|right; left; simpl; lia|by rewrite app_nil_r; destruct s].
Qed.

Lemma keep_semop s w semid ops nsops t s' l l1 l2 : sem_wf s → call_ok (Semop w semid (Some ops) nsops) s → semop w semid (Some ops) nsops s = Ok (t, s') → Forall (sl_ok s) l → woken s s' l l1 → goes w semid ops s' l1 t l2 → Forall (sl_ok s') l2.
Proof.
  intros Hwf (Hs & Hid & Hb) E Hl Hw Hg. assert (∀ t0, Ok (t0, s) = Ok (t, s') → (∀ k zero, t0 ≠ Waits k zero) → Forall (sl_ok s') l2) as Hidle by (intros t0 [= -> <-] Ht; by apply (keep_idle w semid ops s s t l l1)).
  unfold semop in E. case_if_in E; [by eapply Hidle|]. case_if_in E; [by eapply Hidle|]. destruct (semconv_lock_ok s semid (sw_mni _ Hwf)) as [(ix & d & E1 & Hi & Hli)|[E1 Hno]]; rewrite E1 in E; cbn [mbind res_bind] in E; [|by eapply Hidle].
  pose proof Hli as (_ & Hd & _). rewrite (aget_ok _ _ d) in E by done. cbn [mbind res_bind] in E. case_if_in E; [by eapply Hidle|]. eapply (keep_turn s w semid ix d ops t s' l l1); try done; [by apply Hb|by eapply verify_ok].
Qed.

Lemma keep_again s w semid ops t s' l l1 l2 : sem_wf s → call_ok (Semop_again w semid ops) s → semop_again w semid (sem_index semid) ops s = Ok (t, s') → Forall (sl_ok s) l → woken s s' l l1 → goes w semid ops s' l1 t l2 → Forall (sl_ok s') l2.
Proof.
  intros Hwf (Hs & Hid & Hb & Hn) E Hl Hw Hg. unfold semop_again in E. destruct (semconv_ok s semid (sw_mni _ Hwf)) as [[E1 (ix & d & Hi & Hli)]|[E1 Hno]]; rewrite E1 in E; cbn [mbind res_bind] in E.
  - change (negb (0 =? 0)) with false in E. cbv iota in E. pose proof Hli as (Ei & _). rewrite <- Ei in E. eapply (keep_turn s w semid ix d ops t s' l l1); try done. by eapply Hn.
  - change (negb (EINVAL =? 0)) with true in E. cbv iota in E. injection E as <- <-. by apply (keep_idle w semid ops s s (Fails EIDRM) l l1).
Qed.

Lemma wake_step S S' : wake_inv S → wstep S S' → wake_inv S'.
Proof.
  intros [Hwf Hl] Hst. destruct Hst as [w semid ops nsops s s' t l l1 l2 Hc E Hw Hg|a s s' t l l' l1 l2 Ha Hc E Hw Hg|a s s' t l l' l1 Ha Hc E Hw|w key nsems flg s s' r l l1 E Hw|w semid semnum cmd s s' r l l1 Hc E Hw|slot s s' l l1 Hc E Hw|s l l1 Hw]; simpl in Hwf, Hl; unfold wake_inv; simpl.
  - split; [|by eapply keep_semop]. destruct (call_returns _ s Hwf Hc) as (s2 & E2 & H2). cbn [run_call] in E2. rewrite E in E2. by injection E2 as <-.
  - apply list.Forall_app in Hl as [Hl1 Hl2]. apply list.Forall_cons in Hl2 as [_ Hl2]. split; [|apply (keep_again s (sl_who a) (sl_id a) (sl_ops a) t s' (l ++ l') l1 l2); try done; by apply list.Forall_app]. destruct (call_returns _ s Hwf Hc) as (s2 & E2 & H2). cbn [run_call] in E2. rewrite E in E2. by injection E2 as <-.
  - apply list.Forall_app in Hl as [Hl1 Hl2]. apply list.Forall_cons in Hl2 as [_ Hl2]. split; [destruct (call_returns _ s Hwf Hc) as (s2 & E2 & H2); cbn [run_call] in E2; rewrite E in E2; by injection E2 as <-|].
    destruct (intr_eff _ _ _ _ _ (proj1 Hc) E) as [He Es]. apply (keep_all nosig s s' (l ++ l')); [done|by apply list.Forall_app|done|]. intros b new _ _ _ _ _ ix d Hli _ _. right. split; [done|]. apply (shape_lives s s' ltac:(by rewrite Es) (sl_id b) ix d Hli).
  - destruct (semget_ok w key nsems flg s Hwf) as (r2 & s2 & E2 & H2). rewrite E in E2. injection E2 as <- <-. destruct H2 as (H2 & _ & Es & Ec & _ & Hle & _). split; [done|].
    apply (keep_all nosig s s' l); [by apply wakes_eff, wakes_same; [..|apply full_at_refl]|done|done|]. intros b new _ _ _ _ _ ix d Hli _ _. right. split; [done|]. by apply (Hle (sl_id b) ix d).
  - destruct Hc as (H1 & H2 & H3). destruct (semctl_ok w semid semnum cmd s Hwf H1 H2 H3) as (r2 & s2 & E2 & Hg). rewrite E in E2. injection E2 as <- <-. destruct Hg as [Hg|(_ & d & Hr)]; [split; [apply Hg|by eapply keep_good]|split; [apply Hr|by eapply keep_removed]].
  - destruct (semexit_ok slot s Hwf Hc) as (s2 & E2 & Hg & _). rewrite E in E2. injection E2 as <-. split; [apply Hg|by eapply keep_good].
  - split; [done|]. by eapply keep_good; [apply good_refl|..].
Qed.

Lemma wreach_inv s0 S : sem_wf s0 → wreach s0 S → wake_inv S.
Proof. intros Hwf. induction 1 as [|S S' _ IH Hst]; [by split|by eapply wake_step]. Qed.

(** ** The first state *)

Lemma link_free_ok n i ume pre : length pre = i → nchain (pre ++ link_free n i ume) (match n with O => None | _ => Some i end) (seq i n) ∧ length (link_free n i ume) = n ∧
  ∀ u x, link_free n i ume !! u = Some x → un_cnt x = 0 ∧ length (un_ent x) = ume.
Proof.
  revert i pre. induction n as [|n IH]; intros i pre Hi; [done|]. cbn [link_free]. set (x := MkUn _ _ _). destruct (IH (S i) (pre ++ [x])) as (Hc & Hl & Hu); [rewrite length_app; simpl; lia|]. rewrite <- (assoc_L (++)) in Hc. cbn [app] in Hc.
  split; [|split; [simpl; by rewrite Hl|]].
  - cbn [seq nchain]. split; [done|]. exists x. split; [by rewrite list_lookup_middle by done|]. exact Hc.
  - intros [|u] y; simpl; [intros [= <-]; split; [done|apply length_replicate]|apply Hu].
Qed.

(** The tunables with which the module can be loaded and used. *)
Definition tuned_ok (i : seminfo) : Prop :=
  1 ≤ semmni i ∧ 1 ≤ semmns i < W31 ∧ 1 ≤ semmnu i ∧ semmsl i ≤ 65535 ∧ 0 ≤ semume i ∧ 0 ≤ semvmx i ≤ 65535 ∧ 0 ≤ semaem i ≤ 21845.

Lemma init_undo info mp nproc now : 1 ≤ semmnu info → 0 ≤ semume info → undo_inv (sem_init info mp nproc now).
Proof.
  intros Hn Hu. destruct (link_free_ok (Z.to_nat (semmnu info)) 0 (Z.to_nat (semume info)) [] eq_refl) as (Hc & Hl & Hx). simpl app in Hc. exists [], (seq 0 (Z.to_nat (semmnu info))).
  assert (∀ p u, ¬ owns (sem_init info mp nproc now) p u) as Hno by (intros p u H; unfold owns in H; simpl in H; by apply lookup_replicate in H as [? _]).
  constructor; simpl; try done.
  - rewrite (proj2 (Z.ltb_lt _ _)) by lia. destruct (Z.to_nat (semmnu info)) eqn:E; [lia|exact Hc].
  - constructor.
  - apply NoDup_seq.
  - intros u x Hux. destruct (Hx u x Hux) as [E1 E2]. assert (active x = []) as Ea by (unfold active; by rewrite E1). split; [|rewrite E1; split; [by intros ?%not_elem_of_nil|done]]. constructor; rewrite ?Ea; [lia|lia|constructor|constructor].
  - intros u ?%not_elem_of_nil. done.
  - intros p u H. by destruct (Hno p u).
  - intros p q u H. by destruct (Hno p u).
  - intros u Hlt. left. apply elem_of_seq. lia.
Qed.

Lemma init_wf info mp nproc now : 1 ≤ semmnu info → info_ok info → map_wf mp → 2 ≤ mh_size mp → (∀ x, free mp x → 1 ≤ x ≤ semmns info) → sem_wf (sem_init info mp nproc now).
Proof.
  intros Hn Hi Hm Hsz Hf. set (s := sem_init _ _ _ _). assert (∀ ix d, sema s !! ix = Some d → d = MkDsem (MkPerm 0 0 0 0 0 0 0) 0 0 0 0 0) as Hd by (intros ix d H; by apply lookup_replicate in H as [? _]).
  assert (∀ ix d, ¬ in_use s ix d) as Hnu by (intros ix d [H Ha]; apply Hd in H; by subst).
  assert (∀ i x, vals s !! i = Some x → x = 0) as Hv by (intros i x H; unfold vals in H; simpl in H; rewrite fmap_replicate in H; by apply lookup_replicate in H as [-> _]).
  constructor; simpl; try done.
  - apply init_undo; [done|apply Hi].
  - rewrite length_replicate. pose proof (io_mni _ Hi). lia.
  - rewrite length_replicate. pose proof (io_mns _ Hi). lia.
  - apply Forall_lookup_2. intros i x H. apply Hv in H as ->. pose proof (io_vmx _ Hi). lia.
  - intros ix d H. apply Hd in H as ->. simpl. lia.
  - intros ix d H. by destruct (Hnu ix d).
  - intros ix d i H. by destruct (Hnu ix d).
  - intros ix jx d e i H. by destruct (Hnu ix d).
  - intros i x H _. by eapply Hv.
  - intros p k a H. exfalso. unfold adj in H. destruct (sem_undo s !! p) as [[u|]|] eqn:E; [simpl in E; apply lookup_replicate in E as [? _]; done|by rewrite lookup_empty in H..].
Qed.

Lemma load_wf tuned avail nmap nproc now : tuned_ok tuned → 2 ≤ nmap → (nmap + MAP_OVERHEAD) * sizeof_map < W32 → avail ((nmap + MAP_OVERHEAD) * sizeof_map) = true →
  ∃ s, sem_load tuned true avail nmap nproc now = Ok (Some s) ∧ sem_wf s ∧ length (sem_undo s) = Z.to_nat nproc.
Proof.
  intros (T1 & T2 & T3 & T4 & T5 & T6 & T7) Hn Hlt Hav. unfold sem_load. cbn [negb]. set (info := if SEMA_INDEX_MAX <? semmni tuned then set_mni SEMA_INDEX_MAX tuned else tuned). assert (info_ok info ∧ semmns info = semmns tuned ∧ semmnu info = semmnu tuned) as (Hi & E1 & E2).
  { unfold info, SEMA_INDEX_MAX. case_if; (split; [constructor; simpl; lia|done]). }
  destruct (rmallocmap_wf avail nmap ltac:(lia) Hlt Hav) as (mp & -> & Hm & Hsz & _ & _ & Hfr & _). cbn [mbind res_bind]. rewrite E1.
  destruct (rmfree_ok mp (semmns tuned) 1) as (r & -> & Hr1 & Hr2 & _ & _ & Hr3); [done|lia|lia|lia|unfold W31, W32 in *; lia|intros x _; apply Hfr|]. cbn [mbind res_bind]. eexists. split; [done|]. split; [|apply length_replicate].
  apply init_wf; [lia|done|done|lia|]. intros x Hx. rewrite E1. destruct Hr3 as [(_ & Hg)|(_ & _ & _ & ls & le & mid & _ & _ & [_ Htk] & Hg)]; apply Hg in Hx as [Hx|?]; [by apply Hfr in Hx|lia|apply Htk in Hx as [Hx _]; by apply Hfr in Hx|lia].
Qed.

(** ** Properties *)

(** C10: the operations of [semop] are one transaction.  A turn of [semop] over a list of
    operations either does all of them: the values of the semaphores and the adjustments of
    the process are then those that [ops_spec] computes, and the semaphores that were operated
    on have the id of the process; or it fails or sleeps, as [ops_spec] says, and then what it
    has done by then is taken back: every value and every adjustment is what it was, whatever
    [semaoe] had to insert and delete. *)
Theorem semop_atomic w semid ix d ops s : sem_wf s → (w_slot w < length (sem_undo s))%nat → 0 ≤ semid < W31 → live s semid ix d → Forall buf_ok ops → Forall (λ op, sem_num op < sem_nsems d) ops →
  match ops_spec (s_info s) (room s (w_slot w)) semid (sem_base d) ops (vals s) (adj s (w_slot w)) with
  | inl t => ∃ s', semop_pass w semid ix ops s = Ok (t, s') ∧ vals s' = vals s ∧ ∀ q, adj s' q = adj s q
  | inr (v, a) => ∃ s', semop_pass w semid ix ops s = Ok (Done, s') ∧ vals s' = v ∧ adj s' (w_slot w) = a ∧ (∀ q, q ≠ w_slot w → adj s' q = adj s q) ∧
      ∀ i m m', sem s !! i = Some m → sem s' !! i = Some m' → sempid m' = if decide (touched (sem_base d) ops i) then w_pid w else sempid m
  end.
Proof.
  intros Hwf Hs Hid Hl Hb Hn. pose proof (live_index _ _ _ _ Hl) as Hi.
  pose proof (semop_pass_ok w semid ix ops s d (op_ready s w semid ix d ops Hwf Hs Hid Hl Hi Hb Hn) (ops_ok s w semid ix d ops Hwf Hs Hid Hl Hi Hb Hn) Hn (undo_inv_adj _ _ (sw_undo _ Hwf) (sw_info _ Hwf))) as H.
  destruct (ops_spec _ _ _ _ ops _ _) as [t|[v a]].
  - destruct H as (s' & E & s1 & K & _ & Hv & Ha & Has). exists s'. split; [done|]. destruct (asleep_rest _ _ _ _ Has (kp_inv _ _ _ K)) as (_ & _ & _ & _ & Had & _). split; [by rewrite (asleep_vals _ _ _ _ Has)|].
    intros q. rewrite Had. destruct (decide (q = w_slot w)) as [->|Hq]; [done|by apply (kp_adj _ _ _ K)].
  - destruct H as (s1 & E & K & _ & Hv & Ha). eexists. split; [exact E|]. split; [|split; [exact Ha|split; [intros q Hq; by apply (kp_adj _ _ _ K)|]]].
    + rewrite <- Hv. unfold vals. simpl. unfold pids_set. apply list_eq. intros i. rewrite !list_lookup_fmap, list_lookup_imap. destruct (sem s1 !! i) as [m|]; [|done]. simpl. by case_decide.
    + intros i m m' Hm Hm'. simpl in Hm'. unfold pids_set in Hm'. rewrite list_lookup_imap in Hm'. destruct (sem s1 !! i) as [m1|] eqn:Hm1; [|done]. injection Hm' as <-. case_decide; [done|].
      assert ((sempid <$> sem s1) !! i = (sempid <$> sem s) !! i) as Ep by (by rewrite (kp_pid _ _ _ K)). rewrite !list_lookup_fmap, Hm, Hm1 in Ep. by injection Ep.
Qed.

(** C11: calls return and keep the tables, under the conditions [tuned_ok] on the tunables and
    [call_ok] on the calls.  From the state that [_init] leaves, each [semget], [semctl], [semop],
    wakeup, interruption and [semexit] that meets its condition, in any order, each as one step,
    runs to its end or to a sleep without a panic or an access outside its tables, and keeps the
    invariant: the sets are disjoint runs of semaphores that the map does not have free, values
    are between 0 and [semvmx], a free semaphore is 0, the undo structures are on one of the two
    lists, and each adjustment is for a semaphore of a set that exists.

    The conditions, all of them: the map has at least two entries and its memory is there; there is
    a set, a semaphore and an undo structure ([semmni], [semmns] and [semmnu] at least 1), [semmns] is an int, [semmsl] and [semvmx] are at most 65535,
    [semume] is not negative, and [semaem] is from 0 to 21845 (with more, [large_semaem_wraps]);
    the process of a call has a slot; an identifier has no sign bit and the number of a semaphore
    is not negative (with the sign bit the identifier is an alias of the set, whose adjustments
    the calls on the proper identifier do not find: [alias_keeps_adjustment]); the operations of
    [semop] have the types of C; [SETALL] passes as many values as the set has; a semaphore that a
    thread is interrupted on exists; and a thread that slept is back before its identifier comes
    up again for a set smaller than the numbers it has verified.  What a call meets when another
    comes in the middle of it, where the code does without [sem_lock], is not covered: see
    [exit_gives_twice] and [mark_exposes_old_set]. *)
Theorem sem_safe tuned avail nmap nproc now : tuned_ok tuned → 2 ≤ nmap → (nmap + MAP_OVERHEAD) * sizeof_map < W32 → avail ((nmap + MAP_OVERHEAD) * sizeof_map) = true →
  ∃ s0, sem_load tuned true avail nmap nproc now = Ok (Some s0) ∧ ∀ s, sem_reach s0 s → sem_wf s ∧ ∀ c, call_ok c s → ∃ s', run_call c s = Ok s' ∧ sem_wf s'.
Proof.
  intros Ht Hn Hlt Hav. destruct (load_wf tuned avail nmap nproc now Ht Hn Hlt Hav) as (s0 & E & Hwf & _). exists s0. split; [done|]. intros s Hr. pose proof (reach_wf _ _ Hwf Hr) as Hs. split; [done|]. intros c Hc. by apply call_returns.
Qed.

(** C17: an identifier leads to its set until the set is removed.  What [semget] returns is found
    again by [semconv_lock], in a set that is large enough and, if it is new, all zero; every
    call but its own [IPC_RMID] leaves it so; after the [IPC_RMID] of an owner it is refused, and
    no process has an adjustment for it. *)
Theorem semid_until_removed w key nsems flg s id s1 : sem_wf s → semget w key nsems flg s = Ok (inr id, s1) →
  ∃ ix d, sem_wf s1 ∧ semconv_lock id s1 = Ok (Some ix) ∧ sema s1 !! Z.to_nat ix = Some d ∧
    (s1 = s ∧ (nsems = 0 ∨ u32 nsems ≤ sem_nsems d) ∨ sem_nsems d = nsems ∧ ∀ i, in_set d i → vals s1 !! i = Some 0) ∧
    (∀ c s2, call_ok c s1 → (∀ w' n, c ≠ Semctl w' id n IPC_RMID) → run_call c s1 = Ok s2 → semconv_lock id s2 = Ok (Some ix)) ∧
    ∀ w' n, sem_owner w' d = true → ∃ s2, semctl w' id n IPC_RMID s1 = Ok (CRet 0, s2) ∧ semconv_lock id s2 = Ok None ∧ ∀ p num, adj s2 p !! (id, num) = None.
Proof.
  intros Hwf E. destruct (semget_ok w key nsems flg s Hwf) as (r & s' & E' & Hpost). rewrite E in E'. injection E' as <- <-. destruct Hpost as (Hwf1 & _ & _ & _ & _ & _ & Hid & ix & d & Hl & Hcase).
  assert (∀ s2 e, sem_wf s2 → live s2 id ix e → semconv_lock id s2 = Ok (Some ix)) as Hconv.
  { intros s2 e Hwf2 He. destruct (semconv_lock_ok s2 id (sw_mni _ Hwf2)) as [(jx & f & -> & _ & Hf)|[_ Hno]]; [by destruct (live_fun _ _ _ _ _ _ He Hf) as [-> _]|by destruct (Hno ix e)]. }
  exists ix, d. split; [done|]. split; [by eapply Hconv|]. split; [apply Hl|]. split; [destruct Hcase as [?|(? & _ & ?)]; [by left|by right]|]. split.
  - intros c s2 Hc Hne E2. destruct (call_returns c s1 Hwf1 Hc) as (s3 & E3 & Hwf3). assert (s3 = s2) as -> by congruence. destruct (run_lives c s1 s2 id ix d Hwf1 Hc E2 Hid Hne Hl) as (d' & Hl' & _). by eapply Hconv.
  - intros w' n Ho. unfold semctl. rewrite (Hconv s1 d Hwf1 Hl). cbn [mbind res_bind]. pose proof Hl as (_ & Hd & _). rewrite (aget_ok _ _ d) by (done || by eapply live_index). cbn [mbind res_bind]. rewrite Ho. cbn [negb].
    destruct (rmid_ok id ix d s1 Hwf1 Hid Hl) as (s2 & -> & _ & Hwf2 & Hno & Ha & _). cbn [mbind res_bind]. exists s2. split; [done|]. split.
    + destruct (semconv_lock_ok s2 id (sw_mni _ Hwf2)) as [(jx & f & _ & _ & Hf)|[-> _]]; [by destruct (Hno jx f)|done].
    + intros p num. rewrite Ha. apply map_lookup_filter_None. right. intros a _ Hne. by apply Hne.
Qed.

(** C16: the end of a process gives back what it has taken.  [semexit] adds each adjustment of the
    process to its semaphore where the sum is a value from 0 to [semvmx], and leaves every other
    semaphore as it is; the process then has no adjustments and no undo structure, those of the
    other processes are as before, and there is a free structure. *)
Theorem semexit_gives_back p s : sem_wf s → (p < length (sem_undo s))%nat → ∃ s', semexit p s = Ok s' ∧ sem_wf s' ∧ adj s' p = ∅ ∧ (∀ u, ¬ owns s' p u) ∧ (∀ q, q ≠ p → adj s' q = adj s q) ∧
  (∀ k a v, adj s p !! k = Some a → vals s !! site s k = Some v → vals s' !! site s k = Some (if (v + a <? 0) || (semvmx (s_info s) <? v + a) then v else v + a)) ∧
  (∀ i, (∀ k a, adj s p !! k = Some a → site s k ≠ i) → vals s' !! i = vals s !! i).
Proof.
  intros Hwf Hp. destruct (semexit_ok p s Hwf Hp) as (s' & E & [Hwf' _] & Ha & Hq & Hno & Hv & Hf). exists s'. do 5 (split; [done|]). done.
Qed.

(** C15: no wakeup is lost.  In every interleaving of calls, wakeups and signals, a thread that
    sleeps in [semop] for a single operation is asleep only while the operation cannot be done:
    if it waits for zero the value is not 0, and if it waits for an increase in a set of more
    than one semaphore the value is less than it asks for. *)
Theorem semop_no_lost_wakeup s0 S a op : sem_wf s0 → wreach s0 S → a ∈ w_sl S → sl_asleep a = true → sl_ops a = [op] → sl_zero a = true ∨ 2 ≤ sl_n a →
  ∃ x, vals (w_sem S) !! Z.to_nat (sl_k a) = Some x ∧ if sl_zero a then x ≠ 0 else x < - sem_op op.
Proof.
  intros Hwf Hr Ha Has Hop Hz. destruct (wreach_inv s0 S Hwf Hr) as [_ Hl]. rewrite list.Forall_forall in Hl. destruct (Hl a Ha Has) as (_ & _ & m & Hm & Hst). exists (semval m). split; [by apply vals_lookup|].
  destruct (sl_zero a); [by eapply Hst|]. destruct Hz as [?|Hn]; [done|]. by apply (Hst Hn).
Qed.

(** ** Witnesses *)

Definition ex_info : seminfo := MkInfo 4 8 3 8 10 3 100 50.
Definition ex_load (i : seminfo) : semsys := match sem_load i true (λ _, true) 10 4 0 with Ok (Some s) => s | _ => sem_init i (MapHead 0 0 "" 0 []) 4 0 end.
Definition out (r : res semsys) (s : semsys) : semsys := match r with Ok s => s | _ => s end.
Definition root (slot : nat) : who := MkWho slot (100 + Z.of_nat slot) (MkIds 0 0 0 0 0 0 []).
Definition do_calls (cs : list call) (s : semsys) : semsys := foldl (λ s c, out (run_call c s) s) s cs.

(** A set of two semaphores; the process of slot 0 then adds 3 to the first, to be undone. *)
Definition ex0 : semsys := ex_load ex_info.
Definition ex1 : semsys := do_calls [Semget (root 0) 7 2 0x3b6] ex0.
Definition ex2 : semsys := do_calls [Semop (root 0) 0 (Some [MkBuf 0 3 SEM_UNDO]) 1] ex1.
Definition ex_set : semid_ds := MkDsem (MkPerm 0 0 0 0 0x81b6 0 7) 0 2 0 0 1.

Lemma run_wf c s : sem_wf s → call_ok c s → sem_wf (out (run_call c s) s).
Proof. intros Hwf Hc. destruct (call_returns c s Hwf Hc) as (s' & -> & H). exact H. Qed.

Lemma ex_load_wf i : tuned_ok i → sem_wf (ex_load i).
Proof.
  intros Hi. destruct (load_wf i (λ _, true) 10 4 0 Hi ltac:(lia)) as (s & E & Hwf & _); [vm_compute; reflexivity|done|]. unfold ex_load. rewrite E. done.
Qed.

Lemma ex1_wf : sem_wf ex1.
Proof. apply (run_wf (Semget (root 0) 7 2 0x3b6) ex0); [|done]. apply ex_load_wf. unfold tuned_ok, W31. simpl. lia. Qed.

Lemma ex1_live : live ex1 0 0 ex_set.
Proof. split; [done|]. split; [vm_compute; reflexivity|done]. Qed.

Lemma ex2_wf : sem_wf ex2.
Proof.
  apply (run_wf (Semop (root 0) 0 (Some [MkBuf 0 3 SEM_UNDO]) 1) ex1); [apply ex1_wf|]. split; [vm_compute; lia|]. split; [unfold W31; lia|]. intros ops [= <-]. repeat constructor; simpl; lia.
Qed.

Lemma semop_atomic_witness : let ops := [MkBuf 0 3 SEM_UNDO; MkBuf 1 (-1) 0] in
  ops_spec (s_info ex1) (room ex1 0) 0 0 ops (vals ex1) (adj ex1 0) = inl (Waits 1 false) ∧
  ∃ s', semop_pass (root 0) 0 0 ops ex1 = Ok (Waits 1 false, s') ∧ vals s' = vals ex1 ∧ ∀ q, adj s' q = adj ex1 q.
Proof.
  split; [vm_compute; reflexivity|].
  exact (semop_atomic (root 0) 0 0 ex_set [MkBuf 0 3 SEM_UNDO; MkBuf 1 (-1) 0] ex1 ex1_wf ltac:(vm_compute; lia) ltac:(unfold W31; lia) ex1_live ltac:(repeat constructor; simpl; lia) ltac:(repeat constructor; simpl; lia)).
Defined.

Lemma sem_safe_witness : tuned_ok ex_info ∧ ∃ s0, sem_load ex_info true (λ _, true) 10 4 0 = Ok (Some s0) ∧
  sem_reach s0 ex2 ∧ sem_wf ex2 ∧ take 1 (vals ex2) = [3] ∧ ∃ s', run_call (Semexit 0) ex2 = Ok s' ∧ sem_wf s' ∧ take 1 (vals s') = [0].
Proof.
  assert (tuned_ok ex_info) as H by (unfold tuned_ok, W31; simpl; lia). split; [exact H|].
  destruct (sem_safe ex_info (λ _, true) 10 4 0 H) as (s0 & E & Hs); [lia|vm_compute; reflexivity|reflexivity|]. exists s0. split; [exact E|].
  assert (ex0 = s0) as <- by (unfold ex0, ex_load; by rewrite E).
  assert (sem_reach ex0 ex2) as Hr.
  { eapply (sem_step _ (Semop (root 0) 0 (Some [MkBuf 0 3 SEM_UNDO]) 1)); [eapply (sem_step _ (Semget (root 0) 7 2 0x3b6)); [constructor|done|]|..].
    - assert (run_call (Semget (root 0) 7 2 0x3b6) ex0 = Ok ex1) as E1 by (vm_compute; reflexivity). exact E1.
    - split; [vm_compute; lia|]. split; [unfold W31; lia|]. intros ops [= <-]. repeat constructor; simpl; lia.
    - vm_compute; reflexivity. }
  destruct (Hs ex2 Hr) as [Hwf Hc]. destruct (Hc (Semexit 0)) as (s' & E' & Hwf'); [vm_compute; lia|].
  split; [done|]. split; [done|]. split; [vm_compute; reflexivity|]. exists s'. split; [done|]. split; [done|].
  assert (s' = out (run_call (Semexit 0) ex2) ex2) as -> by by rewrite E'. vm_compute. reflexivity.
Defined.

Lemma semid_until_removed_witness : ∃ s1, semget (root 0) 7 2 0x3b6 ex1 = Ok (inr 0, s1) ∧ ∃ ix d, sem_wf s1 ∧ semconv_lock 0 s1 = Ok (Some ix) ∧ sema s1 !! Z.to_nat ix = Some d ∧
    (s1 = ex1 ∧ (2 = 0 ∨ u32 2 ≤ sem_nsems d) ∨ sem_nsems d = 2 ∧ ∀ i, in_set d i → vals s1 !! i = Some 0) ∧
    (∀ c s2, call_ok c s1 → (∀ w' n, c ≠ Semctl w' 0 n IPC_RMID) → run_call c s1 = Ok s2 → semconv_lock 0 s2 = Ok (Some ix)) ∧
    ∀ w' n, sem_owner w' d = true → ∃ s2, semctl w' 0 n IPC_RMID s1 = Ok (CRet 0, s2) ∧ semconv_lock 0 s2 = Ok None ∧ ∀ p num, adj s2 p !! (0, num) = None.
Proof.
  exists ex1. split; [vm_compute; reflexivity|]. apply (semid_until_removed (root 0) 7 2 0x3b6 ex1 0 ex1 ex1_wf). vm_compute. reflexivity.
Defined.

Lemma semexit_gives_back_witness : take 2 (vals ex2) = [3; 0] ∧ take 2 (vals (out (semexit 0 ex2) ex2)) = [0; 0] ∧
  ∃ s', semexit 0 ex2 = Ok s' ∧ sem_wf s' ∧ adj s' 0 = ∅ ∧ (∀ u, ¬ owns s' 0 u) ∧ (∀ q, q ≠ 0%nat → adj s' q = adj ex2 q) ∧
  (∀ k a v, adj ex2 0 !! k = Some a → vals ex2 !! site ex2 k = Some v → vals s' !! site ex2 k = Some (if (v + a <? 0) || (semvmx (s_info ex2) <? v + a) then v else v + a)) ∧
  (∀ i, (∀ k a, adj ex2 0 !! k = Some a → site ex2 k ≠ i) → vals s' !! i = vals ex2 !! i).
Proof.
  split; [vm_compute; reflexivity|]. split; [vm_compute; reflexivity|]. apply (semexit_gives_back 0 ex2 ex2_wf). vm_compute. lia.
Defined.

(** A thread that waits for 2 on the second semaphore of [ex1]. *)
Definition ex_sleeper : sleeper := MkSl (root 0) 0 [MkBuf 1 (-2) 0] 2 1 false true.
Definition ex_asleep : semsys := do_calls [Semop (root 0) 0 (Some [MkBuf 1 (-2) 0]) 1] ex1.

Lemma ex_sleeps : wreach ex1 (MkWs ex_asleep [ex_sleeper]).
Proof.
  eapply wr_step; [apply wr_start|]. eapply (ws_semop (root 0) 0 [MkBuf 1 (-2) 0] 1 ex1 ex_asleep (Waits 1 false) [] []).
  - split; [vm_compute; lia|]. split; [unfold W31; lia|]. intros ops [= <-]. repeat constructor; simpl; lia.
  - vm_compute. reflexivity.
  - exists []. split; [vm_compute; reflexivity|constructor].
  - apply (goes_sleeps (root 0) 0 [MkBuf 1 (-2) 0] ex_asleep [] 1 false 0 (set_binary 0 ex_set) (MkSem 0 0 1 0)); [|vm_compute; reflexivity|done]. split; [done|]. split; [vm_compute; reflexivity|done].
Qed.

Lemma semop_no_lost_wakeup_witness : wreach ex1 (MkWs ex_asleep [ex_sleeper]) ∧ ∃ x, vals ex_asleep !! 1%nat = Some x ∧ x < 2.
Proof.
  split; [exact ex_sleeps|].
  exact (semop_no_lost_wakeup ex1 (MkWs ex_asleep [ex_sleeper]) ex_sleeper (MkBuf 1 (-2) 0) ex1_wf ex_sleeps ltac:(left) eq_refl eq_refl (or_intror (Z.le_refl 2))).
Defined.

(** ** Where the code does not do what it means to *)

Definition turn_of {A} (r : res (A * semsys)) : option A := match r with Ok (t, _) => Some t | _ => None end.
Definition go (w : who) (ops : list sembuf) : call := Semop w 0 (Some ops) (Z.of_nat (length ops)).
Definition dec (n : Z) : sembuf := MkBuf 0 (- n) 0.
Definition inc (n : Z) : sembuf := MkBuf 0 n 0.

(** A set of one semaphore. *)
Definition ex_one : semsys := do_calls [Semget (root 0) 7 1 0x3b6] ex0.

(** On a set of one semaphore an increment by one signals one sleeper: if that is a thread that
    wants to take the semaphore twice, it sleeps again, and the other one sleeps on although its
    operation can be done.  [sem_binary] is only reset for a decrement by more than one. *)
Lemma signal_loses :
  let s := do_calls [go (root 0) [dec 1; dec 1]; go (root 1) [dec 1]; go (root 2) [inc 1]; Semop_again (root 0) 0 [dec 1; dec 1]] ex_one in
  cvs s = [CvSignal 0 false] ∧ take 1 (vals s) = [1] ∧ semncnt <$> sem s !! 0%nat = Some 2 ∧ turn_of (semop (root 1) 0 (Some [dec 1]) 1 s) = Some Done.
Proof. vm_compute. auto. Qed.

(** A signalled thread that is interrupted returns [EINTR] and wakes the others only if the count
    is 1: of three sleepers the other two sleep on, and the value is 1. *)
Lemma intr_loses :
  let s := do_calls [go (root 0) [dec 1]; go (root 1) [dec 1]; go (root 2) [dec 1]; go (root 3) [inc 1]; Semop_intr 0 false] ex_one in
  cvs s = [CvSignal 0 false] ∧ take 1 (vals s) = [1] ∧ semncnt <$> sem s !! 0%nat = Some 1 ∧ turn_of (semop (root 1) 0 (Some [dec 1]) 1 s) = Some Done.
Proof. vm_compute. auto. Qed.

(** A thread that wants to take one and then sees 1 waits for zero; the decrement that makes its
    operations possible leaves 1, and wakes nobody. *)
Lemma zero_after_decrement :
  let s1 := do_calls [go (root 0) [inc 2]; go (root 1) [dec 1; MkBuf 0 0 0]] ex1 in let s2 := do_calls [go (root 2) [dec 1]] s1 in
  semzcnt <$> sem s1 !! 0%nat = Some 1 ∧ cvs s2 = [] ∧ take 1 (vals s2) = [1] ∧ turn_of (semop (root 1) 0 (Some [dec 1; MkBuf 0 0 0]) 2 s2) = Some Done.
Proof. vm_compute. auto. Qed.

(** A thread that leaves its sleep without [EINTR] and not through a wakeup, as for a stop signal,
    counts itself again: one sleeper, a count of 2. *)
Lemma spurious_counts_twice :
  let s := do_calls [go (root 0) [dec 1]; Semop_again (root 0) 0 [dec 1]] ex1 in cvs s = [] ∧ semncnt <$> sem s !! 0%nat = Some 2.
Proof. vm_compute. auto. Qed.

(** A thread that is interrupted takes itself off the count of a semaphore that may have been freed
    and given to another set: two threads sleep there, and the count is 1. *)
Lemma intr_counts_other_set :
  let s := do_calls [go (root 0) [dec 1]; Semctl (root 1) 0 0 IPC_RMID; Semget (root 1) 8 2 0x3b6; Semop (root 2) 65536 (Some [dec 1]) 1; Semop (root 3) 65536 (Some [dec 1]) 1; Semop_intr 0 false] ex1 in
  cvs s = [CvBroadcast 0 false] ∧ semncnt <$> sem s !! 0%nat = Some 1.
Proof. vm_compute. auto. Qed.

(** The identifier with the sign bit leads to the same set, and an adjustment is kept for it; the
    [SETVAL] of the proper identifier does not take it away, and the exit changes the value. *)
Lemma alias_keeps_adjustment :
  let s := do_calls [Semop (root 0) (-2147483648) (Some [MkBuf 0 3 SEM_UNDO]) 1; Semctl (root 1) 0 0 (SETVAL 5)] ex1 in
  take 1 (vals s) = [5] ∧ take 1 (vals (out (semexit 0 s) s)) = [2].
Proof. vm_compute. auto. Qed.

(** [semexit] goes through the entries without [sem_lock]: when a [SETVAL] of another process
    squeezes out an entry in between, the entry after it is given back twice. *)
Lemma exit_gives_twice :
  let s := do_calls [Semop (root 0) 0 (Some [MkBuf 0 (-1) SEM_UNDO; MkBuf 1 (-2) SEM_UNDO]) 2] (do_calls [Semop (root 1) 0 (Some [MkBuf 0 9 0; MkBuf 1 9 0]) 2] ex1) in
  let s1 := out (semexit_entry 0 1 s) s in let s2 := do_calls [Semctl (root 1) 0 0 (SETVAL 8)] s1 in let s3 := out (semexit_entry 0 0 s2) s2 in
  take 2 (vals s) = [8; 7] ∧ take 2 (vals s1) = [8; 9] ∧ take 2 (vals s3) = [8; 11] ∧ take 2 (vals (out (semexit 0 s) s)) = [9; 9].
Proof. vm_compute. auto. Qed.

(** [ipcget] marks an entry as allocated before [semget] has set its base and size, and [semop]
    does not take [sem_lock]: an operation on the next identifier of the entry goes to the
    semaphores that its last set had, here those of another set. *)
Lemma mark_exposes_old_set :
  let s := do_calls [Semget (root 0) 8 2 0x3b6; Semctl (root 0) 0 0 IPC_RMID; Semctl (root 0) 1 0 IPC_RMID; Semget (root 0) 9 4 0x3b6] ex1 in
  let s1 := out (semget_mark (root 1) 10 0x3b6 1 s) s in let s2 := do_calls [Semop (root 1) 65537 (Some [MkBuf 0 7 0]) 1] s1 in
  turn_of (semget (root 2) 9 4 0x3b6 s) = Some (inr 65536) ∧ take 4 (vals s) = [0; 0; 0; 0] ∧ take 4 (vals s2) = [0; 0; 7; 0].
Proof. vm_compute. auto. Qed.

(** With [semaem] above 21845 an adjustment that leaves the range can wrap to a value inside it. *)
Lemma large_semaem_wraps :
  let s := do_calls [Semget (root 0) 7 1 0x3b6; Semop (root 0) 0 (Some [MkBuf 0 30000 SEM_UNDO]) 1; Semop (root 1) 0 (Some [MkBuf 0 (-30000) 0]) 1; Semop (root 0) 0 (Some [MkBuf 0 30000 SEM_UNDO]) 1] (ex_load (MkInfo 4 8 3 8 10 3 65535 32767)) in
  adj s 0 !! (0, 0) = Some 5536.
Proof. vm_compute. reflexivity. Qed.
